(* ===== verification/_CoqProject ===== *)
-Q . S2P
Prelude.v
Prefix.v
Table.v
TableFacts.v
TableOps.v
TableUpdate.v
Checksum.v
RingBuf.v
Stream.v
StreamFacts.v
LabelManager.v
PrefixList.v
PlistChains.v
PlistFacts.v
PlistUpdate.v
IdAlloc.v
IdAllocFacts.v
BfdState.v
Bfd.v
BfdFacts.v
BfdExchange.v
AsPath.v
AsPathText.v
AsPathOps.v
AsPathWire.v
AsPathTextFacts.v
AsPathFacts.v
AsPathJoin.v
AsPathAggregate.v
AsPathWireFacts.v
Hash.v
HashFacts.v
AsPathIntern.v
BgpPath.v
BgpDecision.v
BgpDecisionFacts.v
BgpBest.v
BgpMpath.v
BgpBestFacts.v
BgpSelect.v
BgpBestPath.v
BgpSamples.v
BgpMultipath.v
OspfLsa.v
OspfIsm.v
OspfElection.v
OspfNsm.v
OspfStation.v
OspfLan.v
OspfHello.v
OspfConverge.v
OspfNsmFacts.v
OspfAdjacency.v
OspfDbDesc.v
OspfDbDescFacts.v
OspfPeer.v
OspfRoles.v
OspfExchange.v
OspfSync.v
OspfSpf.v
OspfSpfFacts.v
OspfSpfTree.v
OspfSpfPaths.v
OspfSpfStubs.v
OspfRoute.v
OspfRouteInstall.v
OspfRouteFacts.v
BgpAttrData.v
BgpAttr.v
BgpUpdate.v
BgpAttrRead.v
BgpUpdateFacts.v
BgpNlriFacts.v
BgpPacket.v
BgpPacketFacts.v
BgpPacketRoute.v
BgpPacketUpdate.v
ZebraRib.v
ZebraRibFacts.v
ZebraRibReach.v
