(* ===== verification/Prelude.v ===== *)
(** * A verification development for FRRouting

    FRRouting (FRR) is a suite of routing daemons.  The daemons share a library,
    [src/lib], for prefixes, routing tables, hash tables, packet buffers,
    checksums, policy lists and number allocation; [src/zebra] manages the routing
    table, the MPLS labels and the kernel for all of them; each protocol is a
    daemon of its own, of which this development looks at BFD ([src/bfdd]), BGP
    ([src/bgpd]) and OSPF ([src/ospfd]).  The daemons are single-threaded event
    loops: an operation below is one handler run to its end, and a history is a
    sequence of them.

    The development models C functions as Rocq functions on explicit state.
    Integers are [Z]; where a C type wraps, the wrap ([u8], [u16], [u32], [u64],
    [s32]) is written out.  Bytes are lists of [Z].  Heap structures whose
    sharing matters (radix tree nodes, the entries of a prefix list, allocator
    pages, interned AS paths) live in finite maps from addresses, with the
    pointers of the C code as fields.  Packets that a handler sends and events
    that it schedules are appended to a list of effects of the interface or
    session.  A failed [assert], a null dereference or exhausted fuel is [Abort]
    of the type [outcome]; theorems that say an operation returns say that it is
    [Ret].

    ** Files: the library

    - [Prelude]: machine integers, [outcome] and its notations, tactics, and the
      lemmas on bytes, [memcmp] and [memcpy] the components share.
    - [Prefix] (lib/prefix.c): [prefix_match], [prefix_cmp],
      [prefix_common_bits], the conversion of masks and lengths, [apply_mask].
      Matching is containment of address sets ([prefix_match_contains]), comparison
      is a linear order on families that store the address in place
      ([prefix_cmp_linear_order]).
    - [Table], [TableFacts], [TableOps], [TableUpdate] (lib/table.c): the radix
      tree with locks, its hash and its node count.  [TableFacts] has the tree
      invariant and its preservation by linking and unlinking nodes, [TableOps]
      the searches ([route_node_match_longest], [route_node_lookup_exact]),
      [TableUpdate] the creation and the release of nodes
      ([route_node_get_correct], [route_unlock_node_correct]).
    - [Checksum] (lib/checksum.c): the Internet checksum against RFC 1071, that a
      stored checksum verifies, and the Fletcher checksum.
    - [RingBuf] (lib/ringbuf.c): refinement of a bounded queue.
    - [Stream], [StreamFacts] (lib/stream.c): the round trip of fields, the readers
      that fail softly, the invariant on the positions over all operations, reads from
      descriptors and copies included.
    - [PrefixList], [PlistChains], [PlistFacts], [PlistUpdate] (lib/plist.c): a
      list and a trie over the same entries, the chains of the trie sharing one
      link per entry.  [PlistChains] proves, for any slots that nest, that
      installing and uninstalling keep all chains; [PlistFacts] that the trie
      search equals a walk over the list ([prefix_list_apply_linear]);
      [PlistUpdate] that adding and deleting entries keep the structure consistent.
    - [IdAlloc], [IdAllocFacts] (lib/id_alloc.c): allocation, release and
      reservation of 32-bit numbers in pages, and the holding pool.
    - [Hash], [HashFacts] (lib/hash.c): chained hash tables that grow, over a class
      of key and comparison functions ([HashFns]); [hash_refines_set]: a table
      behaves as a set up to the comparison.

    ** Files: zebra and BFD

    - [LabelManager] (zebra/label_manager.c): the assignment and the release of
      label chunks, with and without a configured dynamic block.
    - [ZebraRib] (zebra/zebra_rib.c, zebra_nhg.c, lib/nexthop.c): the routes of one
      prefix, the update of their next hops ([nexthop_active_update]), the choice
      between them, [rib_process] and what is sent to the dataplane, and the early
      processing of routes that are added and deleted.  Whether an interface is a
      loopback, what the lookup of a single next hop gives, the identifiers of groups
      and what the dataplane answers are parameters, about which nothing is assumed.
      [ZebraRibFacts]: the choice as a minimum, and what each stage of
      the processing does to the routes; [ZebraRibReach]: over any history of routes that
      are not imported from another table one best route is selected and installed
      ([rib_process_correct]).
    - [BfdState], [Bfd], [BfdFacts], [BfdExchange] (bfdd/bfd.c, bfd_packet.c,
      event.c): the state of a session, its handlers with those of S-BFD initiators
      and echo sessions, the state machine of RFC 5880, convergence of two systems,
      the invariant over all events and the detection time.

    ** Files: BGP

    - [AsPath], [AsPathText], [AsPathOps], [AsPathWire] (bgpd/bgp_aspath.c,
      lib/asn.c): AS paths, their operations, their text and their wire form.
      [AsPathFacts], [AsPathJoin], [AsPathAggregate]: canonical form of
      normalisation, hop counts of prepending and of reconciling, filters, loop
      detection after aggregation; [AsPathTextFacts], [AsPathWireFacts]: both
      round trips.
    - [AsPathIntern]: the table of shared paths, a client of [Hash] through
      [HashFns]; [aspath_sharing_correct]: equal paths are one object, which lives
      as long as it has holders.
    - [BgpPath], [BgpDecision] (bgpd/bgp_route.c): [bgp_path_info_cmp], a definition
      for each step; [BgpDecisionFacts], [BgpBestPath]: it refines the list of
      criteria, read as keys that are compared in order.
    - [BgpBest], [BgpMpath] (bgpd/bgp_route.c, bgp_mpath.c): the selection of the
      best path with its sorted list, the multipath candidates and flags;
      [BgpBestFacts], [BgpSelect], [BgpBestPath]: over any sequence of changes, when
      the comparison is an order (see the scope below), the list stays sorted and the
      selected path is one that none beats ([bgp_best_selection_correct]);
      [BgpMultipath]: which paths share the traffic.  [BgpSamples] has the witnesses and the pairs of paths on which the
      comparison is not an order.
    - [BgpAttrData], [BgpAttr] (bgpd/bgp_attr.c): the attributes of a received update,
      a definition for each handler; [BgpUpdate] (bgp_attr.c, bgp_packet.c,
      bgp_route.c): [bgp_attr_parse] with its checks, [bgp_update_receive], the walk
      over the prefixes and their encoding.  The parsers for the families other than
      unicast and multicast and the answer to the limit of prefixes are parameters.
      [BgpAttrRead]: a calculus of postconditions ([returns]), and that
      paths and every handler stay in the packet; [BgpUpdateFacts]: but for two known
      failures (see the scope below) the parser returns for any bytes ([bgp_attr_parse_safe]) and accepts only routes that pass the
      checks ([bgp_attr_parse_accepts]); [BgpNlriFacts]: the prefixes of an update
      ([update_received_sound], [bgp_nlri_roundtrip]).  [BgpUpdateFacts] also has
      packets on which bgpd departs from its comments.
    - [BgpPacket] (bgp_attr.c, bgp_packet.c, bgp_updgrp_packet.c, lib/iana_afi.h): the
      updates that bgpd sends: [bgp_packet_attribute], a definition for each attribute,
      the attributes with the prefixes of other families, and the messages that announce
      ([subgroup_update_packet]) and withdraw prefixes ([subgroup_withdraw_packet]).  The
      encodings of flow specifications, EVPN routes and link states are a parameter.
      [BgpPacketFacts]: what a writer appends, and how each attribute is read back;
      [BgpPacketRoute]: the route that attributes describe as a value ([route_of]), and
      that a peer reads the route that was advertised to it ([bgp_attributes_roundtrip]);
      [BgpPacketUpdate]: the messages, from the queue of prefixes of the sender to the
      prefixes that the receiver announces or withdraws ([bgp_update_roundtrip],
      [bgp_withdraw_roundtrip]).  These are clients of [Stream], [AsPath] and [BgpUpdate]
      through [puts] and [read_ok].

    ** Files: OSPF

    - [OspfLsa] (ospfd/ospf_lsa.c, ospf_lsdb.c): LSA headers, age,
      [ospf_lsa_more_recent], databases.
    - [OspfIsm] (ospf_ism.c): interfaces, neighbors, the interface state machine
      and the election of designated routers; [OspfElection]: the
      election as a function of what the routers declare.
    - [OspfNsm] (ospf_nsm.c, ospf_neighbor.c, ospf_packet.c): the neighbor state
      machine, Hello packets, the packets that describe a database.
    - [OspfStation], [OspfLan], [OspfHello], [OspfConverge]: routers on a broadcast network;
      [ospf_dr_election_converges]: after an election and one round of Hellos all
      agree on both designated routers, and stay so.
    - [OspfNsmFacts], [OspfAdjacency]: the invariant of an interface over all its
      events ([ospf_adjacency_invariant]).
    - [OspfDbDesc] (ospf_packet.c): reception of Database Description and Link
      State Request packets.  [OspfDbDescFacts]: ages and keys of LSAs, what one packet
      takes and what its headers do, what is described; [OspfPeer],
      [OspfRoles]: the handlers seen through the entry of one neighbor, for each
      role; [OspfExchange], [OspfSync]: two routers with a channel in each
      direction, and that every long enough schedule completes the exchange with
      the right requests ([ospf_exchange_complete]).
    - [OspfSpf] (ospf_spf.c): the shortest-path tree of an area, its next hops and
      stub networks.  [OspfSpfFacts]: the links as edges of a graph, and the next
      hops that an edge gives; [OspfSpfTree]: the invariant of the
      calculation and its end; [OspfSpfPaths]: children, routes and order of the
      tree, paths, and that the tree is one of shortest paths with
      all next hops; [OspfSpfStubs]: the recursion over the tree and the whole of
      [ospf_spf_calculate] ([ospf_spf_calculate_correct]), with areas on which it
      stops or departs from its comments.
    - [OspfRoute] (ospf_route.c, ospf_zebra.c): the routes of an area, and the
      messages to zebra for a new table.  [OspfRouteFacts]: every entry is the
      cheapest offer with its paths ([ospf_intra_routes_cheapest]);
      [OspfRouteInstall]: the messages leave zebra with the new table
      ([ospf_route_install_correct]).

    ** Fuel

    Loops that are not structural take fuel.  Descents of the radix tree take as
    much as there are nodes, since a node is longer than its parent; walks of a
    prefix-list chain one more than there are entries, since a chain is sorted;
    the walk of the free pages one more than there are pages; the shortest-path
    calculation and its recursion one more than there are LSAs, since a vertex is
    taken once and a child is further from the root; the loops over attributes, TLVs
    and prefixes as much as there are bytes, since each round reads one.  The theorems
    show that this suffices.  The loop of [idalloc_reserve] takes its fuel as an
    argument, because it need not end: [idalloc_reserve_correct] gives the bound
    under which it does.  Runs of several systems take the number of their steps
    as an argument ([hello_rounds], the schedule of [dd_run]), and the theorems
    bound it or hold for all of them; [drain 2] runs the events of a Hello and
    those that they schedule, after which none is left.

    ** Scope of the theorems

    Where the code fails outside of the conditions of a theorem, a lemma shows it.
    - The comparison of BGP paths is an order only for [plain_config] and [plain_path]:
      always-compare-med and compare-routerid, no AIGP, confederation, peer-type
      multipath relax, VPN and EVPN; paths of eBGP and iBGP neighbors with IPv4
      addresses, no OAD and no stale paths.  This is not the default configuration
      ([bgp_decision_not_antisymmetric], [bgp_deterministic_med_order_dependent]).
    - Received updates ([received]): no malformed NHC attribute ([nhc_null_pointer])
      and no session where the peer alone has the 4-byte AS capability
      ([aggregator_overrun]).
    - Sent updates ([matched], [paired], [attr_ok]): IPv4 unicast with a NEXT_HOP on
      sessions with 4-byte AS numbers; no unknown, SRv6, link-state and PMSI attributes;
      cluster lists that fit one byte of length ([cluster_list_length_wraps]); AIGP
      reaches only peers that take it ([aigp_sent_not_taken]).
    - AS paths on the wire have no adjacent sequences ([aspath_put_packs_wrong]).
    - Zebra: no routes imported from other tables ([refused_import_dangles]).
    - OSPF: calculations that are not reversed ([reverse_without_neighbor_aborts]) and
      for routes not dry; no graceful restart.
    - Streams: distances and sizes below 2^63 ([stream_forward_endp_wraps]); dynamic
      label requests of 1 to 2^20 labels.

    ** Not modelled

    Input and output (sockets, netlink, files, the terminal), the event loop, the
    command line, the northbound layer and the text forms of addresses are left
    out, as are logging, debug output, statistics and memory accounting.  Of the
    components above: iteration over and teardown of routing tables, the queue of
    streams, the in-place update of prefix-list entries, S-BFD reflectors; the merged
    attribute and the addpath identifiers of multipath routes and the parsing of
    the link bandwidth community (a parameter); what EVPN reads from extended
    communities, the sharing of attributes other than AS paths, the groups of peers that
    share updates, and the rewriting of next hops for each peer; the table of next
    hop groups of zebra, the resolution of a single next hop, its queue and the answers
    of the dataplane; NBMA polling, graceful restart
    beyond its flags, BFD hooks, Link State Updates, acknowledgements and flooding
    in OSPF, its inter-area and external routes, virtual links and the computation
    of the backup paths of TI-LFA.  Code of the other daemons is not modelled.  Next by importance:
    flooding and the other routes of OSPF, the sessions and update groups of BGP, and
    route maps. *)

From stdpp Require Export base numbers list option.
From Stdlib Require Export ZArith Lia.

#[global] Open Scope Z_scope.

(** ** Machine integers

    A w-bit unsigned C integer is a [Z] in [0, 2^w); arithmetic that may leave
    the range is wrapped explicitly, at the place where C wraps it. *)

Definition u8 (z : Z) : Z := z mod 256.
Definition u16 (z : Z) : Z := z mod 65536.
Definition u32 (z : Z) : Z := z mod 4294967296.
Definition u64 (z : Z) : Z := z mod 18446744073709551616.

(** Conversion to a 32-bit two's complement [int]. *)
Definition s32 (z : Z) : Z := (z + 2147483648) mod 4294967296 - 2147483648.

(** Byte [i] of a byte buffer; 0 outside of it. *)
Definition byte_at (l : list Z) (i : nat) : Z := default 0 (l !! i).

(** Every element is an octet. *)
Definition is_byte (b : Z) : Prop := 0 <= b < 256.
Definition bytes (l : list Z) : Prop := Forall is_byte l.

(** C's [memcmp] on the first [n] bytes: only the sign of its result is
    specified, so the model returns -1, 0 or 1. *)
Definition numcmp (a b : Z) : Z :=
  if a <? b then -1 else if b <? a then 1 else 0.

Fixpoint memcmp (a b : list Z) (n : nat) : Z :=
  match n with
  | O => 0
  | S n' =>
      let c := numcmp (byte_at a 0) (byte_at b 0) in
      if c =? 0 then memcmp (drop 1 a) (drop 1 b) n' else c
  end.

(** Overwrite [l] from position [i] on with [d] (C's [memcpy] into a buffer);
    bytes that would fall outside of the buffer are not written. *)
Fixpoint memcpy_at (l : list Z) (i : nat) (d : list Z) : list Z :=
  match d with
  | [] => l
  | b :: d' => memcpy_at (<[i := b]> l) (S i) d'
  end.

(** ** Outcomes of code that may fail an [assert] *)

Inductive outcome (A : Type) : Type :=
| Ret (a : A)
| Abort.
Arguments Ret {A} a.
Arguments Abort {A}.

#[global] Instance outcome_ret : MRet outcome := fun A a => Ret a.
#[global] Instance outcome_bind : MBind outcome := fun A B f m =>
  match m with
  | Ret a => f a
  | Abort => Abort
  end.

Declare Scope frr_scope.
Delimit Scope frr_scope with frr.
Notation "'assert!' b ;; k" := (if (b : bool) then k else Abort)
  (at level 100, b at level 99, right associativity) : frr_scope.
#[global] Open Scope frr_scope.

(** ** Automation *)

Create HintDb frr.

(** Case analysis on every boolean test of the goal or of a hypothesis, with
    comparisons turned into inequalities of [Z]. *)
Ltac bool_to_prop :=
  repeat match goal with
  | H : (_ && _)%bool = true |- _ => apply andb_true_iff in H as [? ?]
  | H : (_ && _)%bool = false |- _ => apply andb_false_iff in H
  | H : (_ || _)%bool = true |- _ => apply orb_true_iff in H
  | H : (_ || _)%bool = false |- _ => apply orb_false_iff in H as [? ?]
  | H : negb _ = true |- _ => apply negb_true_iff in H
  | H : negb _ = false |- _ => apply negb_false_iff in H
  | H : (_ <? _) = true |- _ => apply Z.ltb_lt in H
  | H : (_ <? _) = false |- _ => apply Z.ltb_ge in H
  | H : (_ <=? _) = true |- _ => apply Z.leb_le in H
  | H : (_ <=? _) = false |- _ => apply Z.leb_gt in H
  | H : (_ =? _) = true |- _ => apply Z.eqb_eq in H
  | H : (_ =? _) = false |- _ => apply Z.eqb_neq in H
  end.

Ltac case_bool :=
  match goal with
  | |- context [if ?b then _ else _] =>
      lazymatch type of b with bool => destruct b eqn:? end
  | H : context [if ?b then _ else _] |- _ =>
      lazymatch type of b with bool => destruct b eqn:? end
  end; bool_to_prop.

(** ** Generic lemmas *)

Lemma u32_small z : 0 <= z < 4294967296 -> u32 z = z.
Proof. apply Z.mod_small. Qed.

Lemma lor_bound n x y : 0 <= n -> 0 <= x < 2 ^ n -> 0 <= y < 2 ^ n -> 0 <= Z.lor x y < 2 ^ n.
Proof.
  intros Hn Hx Hy. assert (H0 : 0 <= Z.lor x y) by (apply Z.lor_nonneg; lia). split; [done|].
  destruct (Z.eq_dec (Z.lor x y) 0) as [->|]; [apply Z.pow_pos_nonneg; lia|].
  apply Z.log2_lt_pow2; [lia|]. rewrite Z.log2_lor by lia.
  destruct (Z.eq_dec x 0) as [->|], (Z.eq_dec y 0) as [->|]; [by cbn in *|..]; apply Z.max_lub_lt;
    first [apply Z.log2_lt_pow2; lia|cbn; enough (2 ^ 0 < 2 ^ n) as Hp by (apply Z.pow_lt_mono_r_iff in Hp; lia); cbn; lia].
Qed.

Lemma u64_small z : 0 <= z < 18446744073709551616 -> u64 z = z.
Proof. apply Z.mod_small. Qed.

Lemma u8_small z : 0 <= z < 256 -> u8 z = z.
Proof. apply Z.mod_small. Qed.

Lemma u16_small z : 0 <= z < 65536 -> u16 z = z.
Proof. apply Z.mod_small. Qed.

Lemma s32_small z : -2147483648 <= z < 2147483648 -> s32 z = z.
Proof. intros H. unfold s32. rewrite Z.mod_small; lia. Qed.

Create Rewrite HintDb frr.
#[export] Hint Rewrite u8_small u16_small u32_small u64_small s32_small
  using lia : frr.

Lemma byte_at_range l i : bytes l -> is_byte (byte_at l i).
Proof.
  intros Hl. unfold byte_at. destruct (l !! i) as [b|] eqn:E; simpl.
  - eapply Forall_lookup_1 in Hl; eauto.
  - unfold is_byte; lia.
Qed.
#[export] Hint Resolve byte_at_range : frr.

Lemma byte_at_drop l n i : byte_at (drop n l) i = byte_at l (n + i).
Proof. unfold byte_at. by rewrite lookup_drop. Qed.

Lemma byte_at_cons b l i : byte_at (b :: l) (S i) = byte_at l i.
Proof. reflexivity. Qed.

Lemma option_cases {A} (o : option A) : o = None \/ exists x, o = Some x.
Proof. destruct o; eauto. Qed.

Lemma numcmp_eq a b : numcmp a b = 0 <-> a = b.
Proof. unfold numcmp. repeat case_bool; lia. Qed.

Lemma numcmp_antisym a b : numcmp b a = - numcmp a b.
Proof. unfold numcmp. repeat case_bool; lia. Qed.

Lemma numcmp_lt a b : numcmp a b < 0 <-> a < b.
Proof. unfold numcmp. repeat case_bool; lia. Qed.

Lemma memcmp_eq n : forall a b,
  memcmp a b n = 0 <-> forall i, (i < n)%nat -> byte_at a i = byte_at b i.
Proof.
  induction n as [|n IH]; intros a b; simpl.
  { split; [intros _ i Hi; lia|done]. }
  destruct (Z.eqb_spec (numcmp (byte_at a 0) (byte_at b 0)) 0) as [E|E].
  - rewrite numcmp_eq in E. rewrite IH. split; intros H i Hi.
    + destruct i as [|i]; [done|].
      specialize (H i). rewrite !byte_at_drop in H. apply H. lia.
    + rewrite !byte_at_drop. apply H. lia.
  - split; [lia|]. intros H. destruct E. apply numcmp_eq. apply H. lia.
Qed.

Lemma memcmp_antisym n : forall a b, memcmp b a n = - memcmp a b n.
Proof.
  induction n as [|n IH]; intros a b; simpl; [done|].
  rewrite (numcmp_antisym (byte_at a 0) (byte_at b 0)), IH.
  repeat case_bool; lia.
Qed.

(** [memcmp] is negative exactly when the first differing byte is smaller. *)
Lemma memcmp_lt n : forall a b,
  memcmp a b n < 0 <->
  exists k, (k < n)%nat /\ (forall i, (i < k)%nat -> byte_at a i = byte_at b i)
            /\ byte_at a k < byte_at b k.
Proof.
  induction n as [|n IH]; intros a b; simpl.
  - split; [lia|]. intros (k & ? & _); lia.
  - destruct (Z.eqb_spec (numcmp (byte_at a 0) (byte_at b 0)) 0) as [E|E].
    + rewrite numcmp_eq in E. rewrite IH. split.
      * intros (k & Hk & Heq & Hlt). exists (S k). split_and!; [lia| |].
        -- intros [|i] Hi; [done|].
           specialize (Heq i). rewrite !byte_at_drop in Heq. apply Heq. lia.
        -- by rewrite !byte_at_drop in Hlt.
      * intros ([|k] & Hk & Heq & Hlt); [lia|].
        exists k. split_and!; [lia| |].
        -- intros i Hi. rewrite !byte_at_drop. apply Heq. lia.
        -- by rewrite !byte_at_drop.
    + rewrite numcmp_lt. split.
      * intros H. exists 0%nat. split_and!; [lia|intros; lia|done].
      * intros ([|k] & Hk & Heq & Hlt); [done|].
        destruct E. apply numcmp_eq. apply Heq. lia.
Qed.

Lemma memcmp_trans n a b c :
  memcmp a b n < 0 -> memcmp b c n < 0 -> memcmp a c n < 0.
Proof.
  rewrite !memcmp_lt. intros (k & Hk & Eab & Lab) (j & Hj & Ebc & Lbc).
  exists (k `min` j)%nat. split_and!; [lia| |].
  - intros i Hi. rewrite Eab, Ebc by lia. done.
  - destruct (Nat.lt_trichotomy k j) as [?|[->|?]].
    + rewrite Nat.min_l by lia. rewrite <- (Ebc k) by lia. done.
    + rewrite Nat.min_l by lia. lia.
    + rewrite Nat.min_r by lia. rewrite (Eab j) by lia. done.
Qed.

Lemma memcpy_at_length d : forall l i, length (memcpy_at l i d) = length l.
Proof.
  induction d as [|b d IH]; intros l i; simpl; [done|].
  by rewrite IH, length_insert.
Qed.

Lemma memcpy_at_app l i d :
  (i + length d <= length l)%nat ->
  memcpy_at l i d = take i l ++ d ++ drop (i + length d) l.
Proof.
  revert l i. induction d as [|b d IH]; intros l i H; simpl in *.
  - rewrite Nat.add_0_r. by rewrite take_drop.
  - rewrite IH by (rewrite length_insert; lia).
    rewrite (take_S_r _ _ b) by (apply list_lookup_insert_eq; lia).
    rewrite take_insert_ge by lia.
    rewrite drop_insert_lt by lia.
    rewrite <- app_assoc. simpl. do 3 f_equal. f_equal. lia.
Qed.

Lemma Forall_memcpy_at (P : Z -> Prop) d : forall l i,
  Forall P l -> Forall P d -> Forall P (memcpy_at l i d).
Proof.
  induction d as [|b d IH]; intros l i Hl Hd; simpl; [done|].
  inversion Hd; subst. apply IH; [|done]. by apply Forall_insert.
Qed.

Lemma byte_at_insert l i b j :
  (i < length l)%nat -> byte_at (<[i:=b]> l) j = if decide (i = j) then b else byte_at l j.
Proof.
  intros Hi. unfold byte_at. case_decide; subst.
  - by rewrite list_lookup_insert_eq.
  - by rewrite list_lookup_insert_ne.
Qed.

Lemma byte_at_memcpy d : forall l i k,
  (i + length d <= length l)%nat ->
  byte_at (memcpy_at l i d) k =
  if decide (i <= k < i + length d)%nat then byte_at d (k - i) else byte_at l k.
Proof.
  induction d as [|b d IH]; intros l i k H; simpl in *.
  { rewrite decide_False by lia. done. }
  rewrite IH by (rewrite length_insert; lia). rewrite byte_at_insert by lia.
  destruct (decide (k = i)) as [->|Hk].
  - rewrite decide_False, !decide_True by lia. by rewrite Nat.sub_diag.
  - rewrite (decide_False (P:=i = k)) by congruence.
    destruct (decide (S i <= k < S i + length d)%nat).
    + rewrite decide_True by lia. replace (k - i)%nat with (S (k - S i)) by lia. done.
    + rewrite decide_False by lia. done.
Qed.

Lemma byte_at_take l n i : (i < n)%nat -> byte_at (take n l) i = byte_at l i.
Proof. intros H. unfold byte_at. by rewrite lookup_take_lt. Qed.
