(* ===== verification/Prefix.v ===== *)
(** * IP prefixes (lib/prefix.c)

    A [struct prefix] is its family, its length in bits and the raw bytes of
    the union [u].  IPv4, IPv6, Ethernet and EVPN addresses start at byte 0 of
    the union; a flowspec or link-state prefix keeps its header there and a
    pointer to its contents at byte 8 (the LP64 layout of
    [struct flowspec_prefix] and [struct linkstate_prefix]).  Memory behind
    such a pointer is the parameter [mem] of the functions that follow it.

    [addr_bit] reads the address as a bit string, most significant bit of the
    first byte first; the theorems relate the byte-and-mask code to it. *)

From S2P Require Import Prelude.

(** ** Data *)

Definition AF_UNSPEC : Z := 0.
Definition AF_INET : Z := 2.
Definition AF_INET6 : Z := 10.
Definition AF_ETHERNET : Z := 17.
Definition AF_MAX : Z := 46.
Definition AF_EVPN : Z := AF_MAX + 1.
Definition AF_FLOWSPEC : Z := AF_MAX + 2.
Definition AF_LINKSTATE : Z := AF_MAX + 3.

Definition IPV4_MAX_BYTELEN : Z := 4.
Definition IPV4_MAX_BITLEN : Z := 32.
Definition IPV6_MAX_BYTELEN : Z := 16.
Definition IPV6_MAX_BITLEN : Z := 128.
Definition ETH_ALEN : Z := 6.

Record prefix := mkPrefix {
  family : Z;      (* uint8_t *)
  prefixlen : Z;   (* uint16_t *)
  val : list Z     (* the bytes of the union u *)
}.

#[global] Instance prefix_eq_dec : EqDecision prefix.
Proof. solve_decision. Defined.

(** [struct flowspec_prefix] and [struct linkstate_prefix] inside the union. *)
Definition flowspec_family (p : prefix) : Z := byte_at (val p) 0.
Definition flowspec_prefixlen (p : prefix) : Z :=
  byte_at (val p) 2 + 256 * byte_at (val p) 3.
Definition linkstate_nlri_type (p : prefix) : Z :=
  byte_at (val p) 0 + 256 * byte_at (val p) 1.
Definition ptr_bytes (p : prefix) : list Z := drop 8 (val p).
Definition ptr_value (p : prefix) : Z :=
  foldr (fun b acc => b + 256 * acc) 0 (take 8 (ptr_bytes p)).

(** ** Operations *)

Definition maskbit_tbl : list Z :=
  [0x00; 0x80; 0xc0; 0xe0; 0xf0; 0xf8; 0xfc; 0xfe; 0xff].
Definition maskbit (i : Z) : Z := byte_at maskbit_tbl (Z.to_nat i).

Definition prefix_bit (pfx : list Z) (bit_index : Z) : Z :=
  let offset := bit_index / 8 in
  let shift := 7 - bit_index mod 8 in
  Z.land (Z.shiftr (byte_at pfx (Z.to_nat offset)) shift) 1.

(** [while (offset--) if (np[offset] != pp[offset]) return 0; return 1;] *)
Fixpoint same_below (np pp : list Z) (offset : nat) : bool :=
  match offset with
  | O => true
  | S o => if byte_at np o =? byte_at pp o then same_below np pp o else false
  end.

(** The comparison shared by the byte families: the partial byte under its
    mask, then the whole bytes. *)
Definition net_match (np pp : list Z) (len : Z) : bool :=
  let offset := len / 8 in
  let shift := len mod 8 in
  if negb (shift =? 0)
     && negb (Z.land (maskbit shift)
                (Z.lxor (byte_at np (Z.to_nat offset))
                   (byte_at pp (Z.to_nat offset))) =? 0)
  then false
  else same_below np pp (Z.to_nat offset).

Definition prefix_match (n p : prefix) : bool :=
  if prefixlen p <? prefixlen n then false
  else if family n =? AF_FLOWSPEC then
    if negb (flowspec_family n =? flowspec_family p) then false
    else if flowspec_prefixlen p <? flowspec_prefixlen n then false
    else same_below (ptr_bytes n) (ptr_bytes p)
           (Z.to_nat (flowspec_prefixlen n))
  else if family n =? AF_LINKSTATE then
    if negb (linkstate_nlri_type n =? linkstate_nlri_type p) then false
    else same_below (ptr_bytes n) (ptr_bytes p) (Z.to_nat (prefixlen n))
  else net_match (val n) (val p) (prefixlen n).

Definition prefix_match_network_statement (n p : prefix) : bool :=
  net_match (val n) (val p) (prefixlen n).

(** Comparison of memory behind two pointers, from the last byte down. *)
Fixpoint memcmp_down (mem : Z -> Z) (a b : Z) (offset : nat) : Z :=
  match offset with
  | O => 0
  | S o =>
      let x := mem (a + Z.of_nat o) in
      let y := mem (b + Z.of_nat o) in
      if x =? y then memcmp_down mem a b o else numcmp x y
  end.

Definition prefix_cmp (mem : Z -> Z) (p1 p2 : prefix) : Z :=
  if negb (family p1 =? family p2) then numcmp (family p1) (family p2)
  else if family p1 =? AF_FLOWSPEC then
    if negb (flowspec_family p1 =? flowspec_family p2) then 1
    else if negb (flowspec_prefixlen p1 =? flowspec_prefixlen p2)
    then numcmp (flowspec_prefixlen p1) (flowspec_prefixlen p2)
    else memcmp_down mem (ptr_value p1) (ptr_value p2)
           (Z.to_nat (flowspec_prefixlen p1))
  else if family p1 =? AF_LINKSTATE then
    if negb (linkstate_nlri_type p1 =? linkstate_nlri_type p2) then 1
    else if negb (prefixlen p1 =? prefixlen p2)
    then numcmp (prefixlen p1) (prefixlen p2)
    else memcmp_down mem (ptr_value p1) (ptr_value p2)
           (Z.to_nat (prefixlen p1))
  else if negb (prefixlen p1 =? prefixlen p2)
  then numcmp (prefixlen p1) (prefixlen p2)
  else
    let offset := Z.to_nat (prefixlen p1 / 8) in
    let shift := prefixlen p1 mod 8 in
    let i := memcmp (val p1) (val p2) offset in
    if negb (i =? 0) then i
    else if negb (shift =? 0)
    then numcmp (Z.land (byte_at (val p1) offset) (maskbit shift))
                (Z.land (byte_at (val p2) offset) (maskbit shift))
    else 0.

(** First position below [length] where the bytes differ, or [length]. *)
Fixpoint first_diff (a b : list Z) (pos : nat) (left : nat) : nat :=
  match left with
  | O => pos
  | S l =>
      if byte_at a pos =? byte_at b pos then first_diff a b (S pos) l else pos
  end.

(** [for (bit = 0; bit < 8; bit++) if (xor & (1 << (7 - bit))) break;] *)
Fixpoint first_bit (x : Z) (bit : Z) (left : nat) : Z :=
  match left with
  | O => bit
  | S l =>
      if Z.land x (Z.shiftl 1 (7 - bit)) =? 0 then first_bit x (bit + 1) l
      else bit
  end.

(** [sizeof(struct evpn_addr)] in the LP64 layout. *)
Definition sizeof_evpn_addr : Z := 44.

Definition prefix_common_bits (p1 p2 : prefix) : Z :=
  let length :=
    if family p1 =? AF_INET then IPV4_MAX_BYTELEN
    else if family p1 =? AF_INET6 then IPV6_MAX_BYTELEN
    else if family p1 =? AF_ETHERNET then ETH_ALEN
    else if family p1 =? AF_EVPN then 8 * sizeof_evpn_addr
    else 0 in
  if negb (family p1 =? family p2) || (length =? 0) then -1
  else
    let pos := first_diff (val p1) (val p2) 0 (Z.to_nat length) in
    if Z.of_nat pos =? length then Z.of_nat pos * 8
    else
      let x := Z.lxor (byte_at (val p1) pos) (byte_at (val p2) pos) in
      Z.of_nat pos * 8 + first_bit x 0 8.

(** ** Netmasks.  [htonl x] as the four bytes that end up in memory. *)

Definition htonl_bytes (x : Z) : list Z :=
  [u8 (Z.shiftr x 24); u8 (Z.shiftr x 16); u8 (Z.shiftr x 8); u8 x].
Definition ntohl_bytes (l : list Z) : Z :=
  Z.lor (Z.shiftl (byte_at l 0) 24)
    (Z.lor (Z.shiftl (byte_at l 1) 16)
       (Z.lor (Z.shiftl (byte_at l 2) 8) (byte_at l 3))).

(** [__builtin_clz] of a non-zero 32-bit value. *)
Definition clz32 (x : Z) : Z := 31 - Z.log2 x.

(** [sizeof(unsigned long long) > 4], so the shift is done on 64 bits and
    [htonl] keeps the low 32 of them. *)
Definition masklen2ip (masklen : Z) : outcome (list Z) :=
  assert! ((0 <=? masklen) && (masklen <=? IPV4_MAX_BITLEN)) ;;
  Ret (htonl_bytes (u32 (u64 (Z.shiftl 0xffffffff (32 - masklen))))).

Definition ip_masklen (netmask : list Z) : Z :=
  let tmp := 0xffffffff - ntohl_bytes netmask in
  if negb (tmp =? 0) then clz32 tmp else 32.

Definition and_bytes (a b : list Z) : list Z := zip_with Z.land a b.

(** [s_addr] is the first four bytes of the union. *)
Definition apply_mask_ipv4 (p : prefix) : outcome prefix :=
  mask ← masklen2ip (prefixlen p);
  Ret (mkPrefix (family p) (prefixlen p)
         (and_bytes (take 4 (val p)) mask ++ drop 4 (val p))).

(** [while (index < 16) pnt[index++] = 0;] *)
Fixpoint zero_from (pnt : list Z) (index : nat) (left : nat) : list Z :=
  match left with
  | O => pnt
  | S l => zero_from (<[index := 0]> pnt) (S index) l
  end.

Definition apply_mask_ipv6 (p : prefix) : prefix :=
  let index := prefixlen p / 8 in
  if index <? 16 then
    let offset := prefixlen p mod 8 in
    let i := Z.to_nat index in
    let pnt := <[i := Z.land (byte_at (val p) i) (maskbit offset)]> (val p) in
    mkPrefix (family p) (prefixlen p) (zero_from pnt (S i) (16 - S i))
  else p.

Definition apply_mask (p : prefix) : outcome prefix :=
  if family p =? AF_INET then apply_mask_ipv4 p
  else if family p =? AF_INET6 then Ret (apply_mask_ipv6 p)
  else Ret p.

(** A 128-bit netmask as its four 32-bit words in network byte order. *)
Definition mask_word (n : Z) : list Z := htonl_bytes (u32 (Z.shiftl 0xffffffff n)).
Definition ones_word : list Z := [255; 255; 255; 255].
Definition zero_word : list Z := [0; 0; 0; 0].

Definition masklen2ip6 (masklen : Z) : outcome (list Z) :=
  assert! ((0 <=? masklen) && (masklen <=? IPV6_MAX_BITLEN)) ;;
  Ret (if masklen =? 0 then zero_word ++ zero_word ++ zero_word ++ zero_word
       else if masklen <=? 32
       then mask_word (32 - masklen) ++ zero_word ++ zero_word ++ zero_word
       else if masklen <=? 64
       then ones_word ++ mask_word (64 - masklen) ++ zero_word ++ zero_word
       else if masklen <=? 96
       then ones_word ++ ones_word ++ mask_word (96 - masklen) ++ zero_word
       else ones_word ++ ones_word ++ ones_word ++ mask_word (128 - masklen)).

(** 32-bit word [i] of an IPv6 netmask, in host order. *)
Definition word32 (m : list Z) (i : nat) : Z := ntohl_bytes (drop (4 * i) m).

Definition ip6_masklen (m : list Z) : Z :=
  if negb (word32 m 0 =? 0xffffffff) then clz32 (0xffffffff - word32 m 0)
  else if negb (word32 m 1 =? 0xffffffff)
  then clz32 (0xffffffff - word32 m 1) + 32
  else if negb (word32 m 2 =? 0xffffffff)
  then clz32 (0xffffffff - word32 m 2) + 64
  else if negb (word32 m 3 =? 0xffffffff)
  then clz32 (0xffffffff - word32 m 3) + 96
  else 128.

Definition IN_CLASSB (a : Z) : bool := Z.land a 0xc0000000 =? 0x80000000.
Definition IN_CLASSC (a : Z) : bool := Z.land a 0xe0000000 =? 0xc0000000.

Definition apply_classful_mask_ipv4 (p : prefix) : outcome prefix :=
  let destination := ntohl_bytes (val p) in
  if prefixlen p =? IPV4_MAX_BITLEN then Ret p
  else if IN_CLASSC destination
  then apply_mask_ipv4 (mkPrefix (family p) 24 (val p))
  else if IN_CLASSB destination
  then apply_mask_ipv4 (mkPrefix (family p) 16 (val p))
  else apply_mask_ipv4 (mkPrefix (family p) 8 (val p)).

Definition ipv4_broadcast_addr (hostaddr : list Z) (masklen : Z)
  : outcome (list Z) :=
  mask ← masklen2ip masklen;
  Ret (if negb (masklen =? IPV4_MAX_BITLEN - 1)
       then zip_with (fun h m => Z.lor h (255 - m)) hostaddr mask
       else htonl_bytes 0xFFFFFFFF).

Definition prefix_ipv4_any (p : prefix) : bool :=
  bool_decide (take 4 (val p) = [0; 0; 0; 0]) && (prefixlen p =? 0).

(** ** Addresses as bit strings *)

Definition addr_bit (v : list Z) (i : Z) : bool :=
  Z.testbit (byte_at v (Z.to_nat (i / 8))) (7 - i mod 8).

(** Two addresses agree on their first [len] bits. *)
Definition agree (len : Z) (v w : list Z) : Prop :=
  forall i, 0 <= i < len -> addr_bit v i = addr_bit w i.

(** A prefix of one of the families that keep the address in the union. *)
Definition byte_family (p : prefix) : Prop :=
  family p <> AF_FLOWSPEC /\ family p <> AF_LINKSTATE.

Record wf_prefix (p : prefix) : Prop := {
  wf_len : 0 <= prefixlen p < 65536;
  wf_bytes : bytes (val p);
  wf_fam : byte_family p
}.

(** An IPv4 or IPv6 prefix whose host bits are all zero. *)
Definition addr_len (f : Z) : Z := if f =? AF_INET then 32 else 128.

Record ip_prefix (p : prefix) : Prop := {
  ip_family : family p = AF_INET \/ family p = AF_INET6;
  ip_len : 0 <= prefixlen p <= addr_len (family p);
  ip_size : Z.of_nat (length (val p)) * 8 = addr_len (family p);
  ip_bytes : bytes (val p)
}.

Definition masked (p : prefix) : Prop :=
  forall i, prefixlen p <= i < addr_len (family p) -> addr_bit (val p) i = false.

Lemma ip_wf p : ip_prefix p -> wf_prefix p.
Proof.
  intros [Hf Hl Hs Hb]. unfold addr_len in *.
  split; [case_bool; lia|done|].
  unfold byte_family, AF_FLOWSPEC, AF_LINKSTATE, AF_MAX, AF_INET, AF_INET6 in *.
  lia.
Qed.
#[export] Hint Resolve ip_wf : frr.

Lemma agree_refl len v : agree len v v.
Proof. by intros i Hi. Qed.

Lemma agree_sym len v w : agree len v w -> agree len w v.
Proof. intros H i Hi. symmetry. auto. Qed.

Lemma agree_trans len u v w : agree len u v -> agree len v w -> agree len u w.
Proof. intros H1 H2 i Hi. rewrite H1, H2 by lia. done. Qed.

Lemma agree_le len len' v w : len' <= len -> agree len v w -> agree len' v w.
Proof. intros H H1 i Hi. apply H1. lia. Qed.

#[export] Hint Resolve agree_refl agree_sym agree_le : frr.

Lemma byte_bits_high b j : is_byte b -> 8 <= j -> Z.testbit b j = false.
Proof.
  intros [H0 H1] Hj. destruct (decide (b = 0)) as [->|]; [apply Z.bits_0|].
  apply Z.bits_above_log2; [lia|].
  assert (Z.log2 b < 8); [|lia]. apply Z.log2_lt_pow2; lia.
Qed.

Lemma byte_eq_bits a b :
  is_byte a -> is_byte b ->
  (forall k, 0 <= k < 8 -> Z.testbit a (7 - k) = Z.testbit b (7 - k)) -> a = b.
Proof.
  intros Ha Hb H. apply Z.bits_inj'. intros j Hj.
  destruct (Z.lt_ge_cases j 8).
  - replace j with (7 - (7 - j)) by lia. apply H. lia.
  - by rewrite !byte_bits_high.
Qed.

Lemma maskbit_testbit s j :
  0 <= s <= 8 -> 0 <= j ->
  Z.testbit (maskbit s) j = (8 - s <=? j) && (j <? 8).
Proof.
  intros Hs Hj.
  assert (s = 0 \/ s = 1 \/ s = 2 \/ s = 3 \/ s = 4 \/ s = 5 \/ s = 6 \/ s = 7
          \/ s = 8) as Hc by lia.
  destruct (Z.lt_ge_cases j 8) as [Hlt|Hge].
  - assert (j = 0 \/ j = 1 \/ j = 2 \/ j = 3 \/ j = 4 \/ j = 5 \/ j = 6
            \/ j = 7) as Hd by lia.
    intuition subst; reflexivity.
  - rewrite (proj2 (Z.ltb_ge j 8)), andb_false_r by lia.
    apply byte_bits_high; [|done]. intuition subst; by split.
Qed.

Lemma maskbit_byte s : is_byte (maskbit s).
Proof.
  unfold maskbit. apply byte_at_range.
  repeat (constructor; [by split|]); constructor.
Qed.

(** The masked difference of two bytes is zero when their first [s] bits
    agree. *)
Lemma mask_xor_zero s a b :
  is_byte a -> is_byte b -> 0 <= s <= 8 ->
  Z.land (maskbit s) (Z.lxor a b) = 0 <->
  (forall k, 0 <= k < s -> Z.testbit a (7 - k) = Z.testbit b (7 - k)).
Proof.
  intros Ha Hb Hs. split.
  - intros H k Hk.
    assert (Z.testbit (Z.land (maskbit s) (Z.lxor a b)) (7 - k) = false) as E
      by (rewrite H; apply Z.bits_0).
    rewrite Z.land_spec, Z.lxor_spec, maskbit_testbit in E by lia.
    rewrite (proj2 (Z.leb_le (8 - s) (7 - k))), (proj2 (Z.ltb_lt (7 - k) 8)) in E
      by lia.
    simpl in E. by apply xorb_eq.
  - intros H. apply Z.bits_inj'. intros j Hj.
    rewrite Z.land_spec, Z.lxor_spec, maskbit_testbit, Z.bits_0 by lia.
    destruct (Z.leb_spec (8 - s) j), (Z.ltb_spec j 8); simpl; try done.
    specialize (H (7 - j)). replace (7 - (7 - j)) with j in H by lia.
    rewrite H by lia. apply xorb_nilpotent.
Qed.

Lemma mask_land_eq s a b :
  is_byte a -> is_byte b -> 0 <= s <= 8 ->
  Z.land a (maskbit s) = Z.land b (maskbit s) <->
  (forall k, 0 <= k < s -> Z.testbit a (7 - k) = Z.testbit b (7 - k)).
Proof.
  intros Ha Hb Hs. rewrite <- mask_xor_zero by done.
  rewrite <- Z.lxor_eq_0_iff, (Z.land_comm (maskbit s)).
  assert (Z.lxor (Z.land a (maskbit s)) (Z.land b (maskbit s))
          = Z.land (Z.lxor a b) (maskbit s)) as ->; [|done].
  apply Z.bits_inj'. intros j Hj.
  rewrite !Z.lxor_spec, !Z.land_spec, Z.lxor_spec. by destruct Z.testbit, Z.testbit, Z.testbit.
Qed.

Lemma same_below_spec a b n :
  same_below a b n = true <->
  forall i, (i < n)%nat -> byte_at a i = byte_at b i.
Proof.
  induction n as [|n IH]; simpl.
  { split; [intros _ i Hi; lia|done]. }
  destruct (Z.eqb_spec (byte_at a n) (byte_at b n)) as [E|E].
  - rewrite IH. split; intros H i Hi; [|apply H; lia].
    destruct (decide (i = n)) as [->|]; [done|apply H; lia].
  - split; [done|]. intros H. destruct E. apply H. lia.
Qed.

Lemma addr_bit_at v q k :
  0 <= k < 8 ->
  addr_bit v (q * 8 + k) = Z.testbit (byte_at v (Z.to_nat q)) (7 - k).
Proof.
  intros Hk. unfold addr_bit. rewrite Z.div_add_l, Z.div_small, Z.add_0_r by lia.
  rewrite (Z.add_comm (q * 8) k), Z.mod_add, Z.mod_small by lia. done.
Qed.

(** Splitting an agreement into whole bytes and the partial byte. *)
Lemma agree_split len a b :
  0 <= len -> bytes a -> bytes b ->
  agree len a b <->
  (forall i, (i < Z.to_nat (len / 8))%nat -> byte_at a i = byte_at b i)
  /\ (forall k, 0 <= k < len mod 8 ->
        Z.testbit (byte_at a (Z.to_nat (len / 8))) (7 - k)
        = Z.testbit (byte_at b (Z.to_nat (len / 8))) (7 - k)).
Proof.
  intros Hl Ha Hb. pose proof (Z.div_mod len 8 ltac:(lia)) as Hdm.
  pose proof (Z.mod_pos_bound len 8 ltac:(lia)) as Hmb. split.
  - intros H. split.
    + intros i Hi. apply byte_eq_bits; eauto with frr. intros k Hk.
      specialize (H (Z.of_nat i * 8 + k)).
      rewrite !addr_bit_at, Nat2Z.id in H by lia. apply H. lia.
    + intros k Hk. specialize (H (len / 8 * 8 + k)).
      rewrite !addr_bit_at in H by lia. apply H. lia.
  - intros [H1 H2] i Hi. unfold addr_bit.
    pose proof (Z.mod_pos_bound i 8 ltac:(lia)).
    pose proof (Z.div_mod i 8 ltac:(lia)).
    assert (i / 8 <= len / 8) by (apply Z.div_le_mono; lia).
    destruct (decide (i / 8 = len / 8)) as [E|E].
    + rewrite E. apply H2. lia.
    + rewrite H1; [done|]. assert (0 <= i / 8) by (apply Z.div_pos; lia). lia.
Qed.

Lemma net_match_spec len a b :
  0 <= len -> bytes a -> bytes b ->
  net_match a b len = true <-> agree len a b.
Proof.
  intros Hl Ha Hb. rewrite agree_split by done. unfold net_match.
  pose proof (Z.mod_pos_bound len 8 ltac:(lia)) as Hm.
  rewrite <- (mask_xor_zero (len mod 8)) by (eauto with frr || lia).
  destruct (Z.eqb_spec (len mod 8) 0) as [E|E]; simpl.
  - rewrite same_below_spec, E. split; [|by intros [? _]]. intros H. split; [done|].
    by rewrite Z.land_0_l.
  - destruct (Z.eqb_spec (Z.land (maskbit (len mod 8))
      (Z.lxor (byte_at a (Z.to_nat (len / 8))) (byte_at b (Z.to_nat (len / 8))))) 0);
      simpl.
    + rewrite same_below_spec. split; [done|by intros [? _]].
    + split; [done|by intros [_ ?]].
Qed.

Lemma prefix_bit_spec v i : bytes v -> prefix_bit v i = Z.b2z (addr_bit v i).
Proof.
  intros Hv. unfold prefix_bit, addr_bit.
  pose proof (Z.mod_pos_bound i 8 ltac:(lia)).
  set (b := byte_at v _). change 1 with (Z.ones 1). rewrite Z.land_ones by lia.
  rewrite Z.shiftr_div_pow2 by lia. rewrite Z.testbit_eqb by lia. change (2^1) with 2.
  pose proof (Z.mod_pos_bound (b / 2 ^ (7 - i mod 8)) 2 ltac:(lia)).
  destruct (Z.eqb_spec ((b / 2 ^ (7 - i mod 8)) mod 2) 1); simpl; lia.
Qed.

(** ** Matching *)

Lemma prefix_match_agree n p :
  wf_prefix n -> wf_prefix p ->
  prefix_match n p = true <->
  prefixlen n <= prefixlen p /\ agree (prefixlen n) (val n) (val p).
Proof.
  intros Hn Hp. unfold prefix_match.
  destruct (wf_fam n Hn) as [Hf1 Hf2], (wf_len n Hn).
  rewrite (proj2 (Z.eqb_neq _ _) Hf1), (proj2 (Z.eqb_neq _ _) Hf2).
  rewrite <- net_match_spec by (done || apply wf_bytes; done).
  destruct (Z.ltb_spec (prefixlen p) (prefixlen n)).
  - split; [done|]. intros [? _]. lia.
  - split; [by split|by intros [_ ?]].
Qed.

(** The address [a] lies inside prefix [p]. *)
Definition covers (p : prefix) (a : list Z) : Prop :=
  agree (prefixlen p) (val p) a.

(** Flipping bit [i] of an address. *)
Definition flip_bit (v : list Z) (i : Z) : list Z :=
  let k := Z.to_nat (i / 8) in
  <[k := Z.lxor (byte_at v k) (Z.shiftl 1 (7 - i mod 8))]> v.

Lemma flip_bit_spec v i j :
  0 <= i < Z.of_nat (length v) * 8 -> 0 <= j ->
  addr_bit (flip_bit v i) j = xorb (addr_bit v j) (j =? i).
Proof.
  intros Hi Hj. unfold addr_bit, flip_bit.
  pose proof (Z.div_mod i 8 ltac:(lia)). pose proof (Z.mod_pos_bound i 8 ltac:(lia)).
  pose proof (Z.div_mod j 8 ltac:(lia)). pose proof (Z.mod_pos_bound j 8 ltac:(lia)).
  assert (Z.to_nat (i / 8) < length v)%nat by lia.
  unfold byte_at. rewrite list_lookup_insert. case_decide as E; simpl.
  - rewrite Z.lxor_spec, Z.shiftl_spec by lia. destruct E as [E _].
    assert (i / 8 = j / 8) as E2 by lia. rewrite E.
    f_equal. destruct (Z.eqb_spec j i) as [->|Hne].
    + by rewrite Z.sub_diag.
    + destruct (Z.lt_trichotomy (7 - j mod 8 - (7 - i mod 8)) 0) as [?|[?|?]].
      * by rewrite Z.testbit_neg_r by lia.
      * lia.
      * change 1 with (2 ^ 0). rewrite Z.pow2_bits_false by lia. done.
  - destruct (Z.eqb_spec j i) as [->|_]; [tauto|]. by rewrite xorb_false_r.
Qed.

Lemma flip_bit_bytes v i :
  bytes v -> bytes (flip_bit v i).
Proof.
  intros Hv. unfold flip_bit. apply Forall_insert; [done|].
  set (b := byte_at v _). pose proof (byte_at_range v (Z.to_nat (i / 8)) Hv) as [? ?].
  pose proof (Z.mod_pos_bound i 8 ltac:(lia)).
  assert (0 <= Z.shiftl 1 (7 - i mod 8)) by (apply Z.shiftl_nonneg; lia).
  split; [by apply Z.lxor_nonneg|].
  destruct (decide (Z.lxor b (Z.shiftl 1 (7 - i mod 8)) = 0)) as [->|Hne]; [lia|].
  apply Z.log2_lt_cancel. change (Z.log2 256) with 8.
  eapply Z.le_lt_trans; [apply Z.log2_lxor; lia|].
  apply Z.max_lub_lt.
  - destruct (decide (b = 0)) as [E|]; [by rewrite E|].
    apply Z.log2_lt_pow2; subst b; lia.
  - rewrite Z.log2_shiftl by lia. simpl. lia.
Qed.

(** C34: [prefix_match n p] decides containment: for well-formed IP prefixes of
    one family it returns 1 exactly when every address inside [p] is also
    inside [n]. *)
Theorem prefix_match_contains n p :
  ip_prefix n -> ip_prefix p -> family n = family p ->
  prefix_match n p = true <->
  (forall a, bytes a -> Z.of_nat (length a) * 8 = addr_len (family p) ->
             covers p a -> covers n a).
Proof.
  intros Hn Hp Hf. rewrite prefix_match_agree by auto with frr. unfold covers. split.
  - intros [Hle Hag] a _ _ Ha. eapply agree_trans; [done|]. eauto with frr.
  - intros H.
    assert (agree (prefixlen n) (val n) (val p)) as Hag.
    { apply H; [apply Hp|apply Hp|apply agree_refl]. }
    split; [|done]. apply Z.nlt_ge. intros Hlt.
    assert (0 <= prefixlen p < Z.of_nat (length (val p)) * 8) as Hr.
    { rewrite (ip_size p Hp), <- Hf. pose proof (ip_len n Hn). pose proof (ip_len p Hp). lia. }
    assert (agree (prefixlen n) (val n) (flip_bit (val p) (prefixlen p))) as Hag2.
    { apply H.
      - by apply flip_bit_bytes, ip_bytes.
      - unfold flip_bit. rewrite length_insert. apply Hp.
      - intros i Hi. rewrite flip_bit_spec by lia.
        rewrite (proj2 (Z.eqb_neq i _)), xorb_false_r by lia. done. }
    specialize (Hag (prefixlen p) ltac:(lia)). specialize (Hag2 (prefixlen p) ltac:(lia)).
    rewrite flip_bit_spec, Z.eqb_refl, <- Hag in Hag2 by lia.
    by destruct (addr_bit (val n) (prefixlen p)).
Qed.

Definition net10_8 : prefix := mkPrefix AF_INET 8 [10; 0; 0; 0].
Definition net10_1_16 : prefix := mkPrefix AF_INET 16 [10; 1; 0; 0].

Lemma ip_prefix_v4 len a b c d :
  0 <= len <= 32 -> is_byte a -> is_byte b -> is_byte c -> is_byte d ->
  ip_prefix (mkPrefix AF_INET len [a; b; c; d]).
Proof.
  intros Hl Ha Hb Hc Hd. split; simpl; [by left|done|done|].
  by apply Forall_cons_2, Forall_cons_2, Forall_cons_2, Forall_cons_2, Forall_nil_2.
Qed.

Lemma prefix_match_contains_witness :
  prefix_match net10_8 net10_1_16 = true /\
  (forall a, bytes a -> Z.of_nat (length a) * 8 = 32 ->
             covers net10_1_16 a -> covers net10_8 a).
Proof.
  assert (prefix_match net10_8 net10_1_16 = true) as E by reflexivity.
  split; [exact E|].
  apply (prefix_match_contains net10_8 net10_1_16); [| | |exact E];
    first [reflexivity|apply ip_prefix_v4; unfold is_byte; lia].
Defined.

(** ** Ordering *)

(** The network part of a byte-family prefix as a sequence: what [prefix_cmp]
    compares after family and length. *)
Definition net_cmp (p1 p2 : prefix) : Z :=
  let offset := Z.to_nat (prefixlen p1 / 8) in
  let shift := prefixlen p1 mod 8 in
  let i := memcmp (val p1) (val p2) offset in
  if negb (i =? 0) then i
  else if negb (shift =? 0)
  then numcmp (Z.land (byte_at (val p1) offset) (maskbit shift))
              (Z.land (byte_at (val p2) offset) (maskbit shift))
  else 0.

Lemma prefix_cmp_bytes mem p1 p2 :
  byte_family p1 ->
  prefix_cmp mem p1 p2 =
  if negb (family p1 =? family p2) then numcmp (family p1) (family p2)
  else if negb (prefixlen p1 =? prefixlen p2)
  then numcmp (prefixlen p1) (prefixlen p2)
  else net_cmp p1 p2.
Proof.
  intros [H1 H2]. unfold prefix_cmp, net_cmp.
  rewrite (proj2 (Z.eqb_neq _ _) H1), (proj2 (Z.eqb_neq _ _) H2). done.
Qed.

Lemma net_cmp_zero p1 p2 :
  wf_prefix p1 -> wf_prefix p2 -> prefixlen p1 = prefixlen p2 ->
  net_cmp p1 p2 = 0 <-> agree (prefixlen p1) (val p1) (val p2).
Proof.
  intros H1 H2 Hl. pose proof (wf_len p1 H1). pose proof (wf_bytes p1 H1).
  pose proof (wf_bytes p2 H2).
  rewrite agree_split by (done || lia). unfold net_cmp.
  pose proof (Z.mod_pos_bound (prefixlen p1) 8 ltac:(lia)) as Hm.
  rewrite <- mask_land_eq by (eauto with frr || lia).
  destruct (Z.eqb_spec (memcmp (val p1) (val p2) (Z.to_nat (prefixlen p1 / 8))) 0)
    as [E|E]; simpl.
  - rewrite memcmp_eq in E. destruct (Z.eqb_spec (prefixlen p1 mod 8) 0) as [E0|E0]; simpl.
    + rewrite E0. split; [|done]. split; [done|].
      by rewrite !Z.land_0_r.
    + rewrite numcmp_eq. split; [by split|by intros [_ ?]].
  - split; [lia|]. intros [H' _]. destruct E. by apply memcmp_eq.
Qed.

Lemma net_cmp_antisym p1 p2 :
  prefixlen p1 = prefixlen p2 -> net_cmp p2 p1 = - net_cmp p1 p2.
Proof.
  intros Hl. unfold net_cmp. rewrite <- Hl, (memcmp_antisym _ (val p1)).
  rewrite (numcmp_antisym (Z.land (byte_at (val p1) _) _)).
  repeat case_bool; lia.
Qed.

Lemma net_cmp_trans p1 p2 p3 :
  prefixlen p1 = prefixlen p2 -> prefixlen p2 = prefixlen p3 ->
  net_cmp p1 p2 < 0 -> net_cmp p2 p3 < 0 -> net_cmp p1 p3 < 0.
Proof.
  intros L1 L2. unfold net_cmp. rewrite <- L1.
  set (off := Z.to_nat (prefixlen p1 / 8)). set (sh := prefixlen p1 mod 8).
  destruct (Z.eqb_spec (memcmp (val p1) (val p2) off) 0) as [E1|E1];
    destruct (Z.eqb_spec (memcmp (val p2) (val p3) off) 0) as [E2|E2];
    simpl; intros A B.
  - rewrite memcmp_eq in E1, E2.
    rewrite (proj2 (memcmp_eq off (val p1) (val p3))), Z.eqb_refl by
      (intros i Hi; rewrite E1, E2 by done; done). simpl.
    destruct (sh =? 0); simpl in *; [lia|]. rewrite numcmp_lt in *. lia.
  - assert (memcmp (val p1) (val p3) off < 0) as C.
    { rewrite memcmp_lt in *. rewrite memcmp_eq in E1.
      destruct B as (k & Hk & Heq & Hlt). exists k. split_and!; [done| |].
      - intros i Hi. rewrite E1, Heq by lia. done.
      - rewrite E1 by lia. done. }
    rewrite (proj2 (Z.eqb_neq _ 0)) by lia. done.
  - assert (memcmp (val p1) (val p3) off < 0) as C.
    { rewrite memcmp_lt in *. rewrite memcmp_eq in E2.
      destruct A as (k & Hk & Heq & Hlt). exists k. split_and!; [done| |].
      - intros i Hi. rewrite Heq, E2 by lia. done.
      - rewrite <- E2 by lia. done. }
    rewrite (proj2 (Z.eqb_neq _ 0)) by lia. done.
  - pose proof (memcmp_trans _ _ _ _ A B) as C.
    rewrite (proj2 (Z.eqb_neq _ 0)) by lia. done.
Qed.

Lemma prefix_cmp_zero mem p1 p2 :
  wf_prefix p1 -> wf_prefix p2 ->
  prefix_cmp mem p1 p2 = 0 <->
  family p1 = family p2 /\ prefixlen p1 = prefixlen p2
  /\ agree (prefixlen p1) (val p1) (val p2).
Proof.
  intros H1 H2. rewrite prefix_cmp_bytes by apply H1.
  destruct (Z.eqb_spec (family p1) (family p2)) as [Ef|Ef]; simpl;
    [|rewrite numcmp_eq; tauto].
  destruct (Z.eqb_spec (prefixlen p1) (prefixlen p2)) as [El|El]; simpl;
    [|rewrite numcmp_eq; tauto].
  rewrite net_cmp_zero by done. tauto.
Qed.

(** On prefixes of the families that carry their address inline,
    [prefix_cmp] is a linear order as its comment promises: it returns 0
    exactly on equal networks, swapping the arguments negates the result, and
    "less than" is transitive. *)
Theorem prefix_cmp_linear_order mem p1 p2 p3 :
  wf_prefix p1 -> wf_prefix p2 -> wf_prefix p3 ->
  (prefix_cmp mem p1 p2 = 0 <->
     family p1 = family p2 /\ prefixlen p1 = prefixlen p2
     /\ agree (prefixlen p1) (val p1) (val p2))
  /\ prefix_cmp mem p2 p1 = - prefix_cmp mem p1 p2
  /\ (prefix_cmp mem p1 p2 < 0 -> prefix_cmp mem p2 p3 < 0 ->
      prefix_cmp mem p1 p3 < 0).
Proof.
  intros H1 H2 H3. split; [by apply prefix_cmp_zero|].
  rewrite !prefix_cmp_bytes by (apply H1 || apply H2). split.
  - rewrite (Z.eqb_sym (family p2)), (Z.eqb_sym (prefixlen p2)).
    rewrite (numcmp_antisym (family p1)), (numcmp_antisym (prefixlen p1)).
    repeat case_bool; try done. by apply net_cmp_antisym.
  - repeat case_bool; rewrite ?numcmp_lt; try lia.
    by apply net_cmp_trans.
Qed.

Lemma prefix_cmp_linear_order_witness :
  prefix_cmp (fun _ => 0) net10_8 net10_1_16
  = - prefix_cmp (fun _ => 0) net10_1_16 net10_8.
Proof.
  assert (wf_prefix net10_8 /\ wf_prefix net10_1_16) as [H1 H2].
  { split; apply ip_wf, ip_prefix_v4; unfold is_byte; lia. }
  apply (prefix_cmp_linear_order (fun _ => 0) net10_1_16 net10_8 net10_8 H2 H1 H1).
Defined.

(** Two flowspec prefixes that differ in the embedded address family: the
    comparison returns 1 in both directions. *)
Definition flowspec_v4 : prefix :=
  mkPrefix AF_FLOWSPEC 0 [2; 0; 3; 0; 0; 0; 0; 0; 16; 0; 0; 0; 0; 0; 0; 0].
Definition flowspec_v6 : prefix :=
  mkPrefix AF_FLOWSPEC 0 [10; 0; 3; 0; 0; 0; 0; 0; 32; 0; 0; 0; 0; 0; 0; 0].

(** For flowspec prefixes [prefix_cmp] is not antisymmetric: whatever
    memory their pointers lead to, two prefixes of different embedded families
    each compare greater than the other. *)
Theorem prefix_cmp_flowspec_both_greater mem :
  exists p1 p2, prefix_cmp mem p1 p2 = 1 /\ prefix_cmp mem p2 p1 = 1.
Proof. exists flowspec_v4, flowspec_v6. by split. Qed.

(** ** Netmasks *)

(** Bit [i] of the netmask of length [n] is set exactly when [i < n], and
    [ip_masklen] reads [n] back; checked for each of the 33 lengths. *)
Definition mask4_ok (n : Z) : bool :=
  match masklen2ip n with
  | Ret m => (ip_masklen m =? n) && (Z.of_nat (length m) =? 4)
             && forallb (fun b => (0 <=? b) && (b <? 256)) m
             && forallb (fun i => Bool.eqb (addr_bit m i) (i <? n)) (seqZ 0 32)
  | Abort => false
  end.

Definition mask6_ok (n : Z) : bool :=
  match masklen2ip6 n with
  | Ret m => (ip6_masklen m =? n)
             && forallb (fun i => Bool.eqb (addr_bit m i) (i <? n)) (seqZ 0 128)
  | Abort => false
  end.

Lemma forallb_seqZ (f : Z -> bool) m n :
  forallb f (seqZ m n) = true <-> forall i, m <= i < m + n -> f i = true.
Proof.
  rewrite forallb_forall. setoid_rewrite <- list_elem_of_In.
  setoid_rewrite elem_of_seqZ. done.
Qed.

Lemma masklen2ip_spec n :
  0 <= n <= 32 ->
  exists m, masklen2ip n = Ret m /\ ip_masklen m = n /\ length m = 4%nat /\ bytes m
            /\ (forall i, 0 <= i < 32 -> addr_bit m i = (i <? n)).
Proof.
  intros Hn.
  assert (forallb mask4_ok (seqZ 0 33) = true) as H by (vm_compute; reflexivity).
  rewrite forallb_seqZ in H. specialize (H n ltac:(lia)). unfold mask4_ok in H.
  destruct (masklen2ip n) as [m|]; [|done]. bool_to_prop. exists m.
  rewrite forallb_seqZ in *. split_and!; [done|done|lia| |].
  - apply Forall_forall. intros b Hb.
    match goal with Hm : forallb _ m = true |- _ =>
      rewrite forallb_forall in Hm; specialize (Hm b Hb) end.
    bool_to_prop. by split.
  - intros i Hi. apply eqb_prop. auto.
Qed.

Lemma masklen2ip6_spec n :
  0 <= n <= 128 ->
  exists m, masklen2ip6 n = Ret m /\ ip6_masklen m = n
            /\ (forall i, 0 <= i < 128 -> addr_bit m i = (i <? n)).
Proof.
  intros Hn.
  assert (forallb mask6_ok (seqZ 0 129) = true) as H by (vm_compute; reflexivity).
  rewrite forallb_seqZ in H. specialize (H n ltac:(lia)). unfold mask6_ok in H.
  destruct (masklen2ip6 n) as [m|]; [|done]. bool_to_prop. exists m.
  rewrite forallb_seqZ in *. split_and!; [done|lia|].
  intros i Hi. apply eqb_prop. auto.
Qed.

(** Netmask conversions round-trip: for every valid length the IPv4 and
    IPv6 conversions succeed, set exactly the first [n] bits, and
    [ip_masklen] / [ip6_masklen] recover the length; an invalid length fails
    the assertion. *)
Theorem masklen_roundtrip n :
  (0 <= n <= 32 -> exists m, masklen2ip n = Ret m /\ ip_masklen m = n
     /\ (forall i, 0 <= i < 32 -> addr_bit m i = (i <? n)))
  /\ (0 <= n <= 128 -> exists m, masklen2ip6 n = Ret m /\ ip6_masklen m = n
     /\ (forall i, 0 <= i < 128 -> addr_bit m i = (i <? n)))
  /\ (n < 0 \/ 128 < n -> masklen2ip n = Abort /\ masklen2ip6 n = Abort).
Proof.
  split_and!.
  - intros H. destruct (masklen2ip_spec n H) as (m & ? & ? & _ & _ & ?). eauto.
  - apply masklen2ip6_spec.
  - intros H. unfold masklen2ip, masklen2ip6, IPV4_MAX_BITLEN, IPV6_MAX_BITLEN.
    split; case_bool; done || lia.
Qed.

(** ** Masking host bits *)

Lemma byte_at_app_l l k j : (j < length l)%nat -> byte_at (l ++ k) j = byte_at l j.
Proof. intros H. unfold byte_at. by rewrite lookup_app_l. Qed.

Lemma byte_at_and a b j : byte_at (and_bytes a b) j = Z.land (byte_at a j) (byte_at b j).
Proof.
  unfold byte_at, and_bytes. rewrite lookup_zip_with.
  destruct (a !! j); simpl; [|done]. destruct (b !! j); simpl; [done|].
  by rewrite Z.land_0_r.
Qed.

Lemma byte_at_zero_from left : forall l index j,
  byte_at (zero_from l index left) j =
  if decide (index <= j < index + left)%nat then 0 else byte_at l j.
Proof.
  induction left as [|n IH]; intros l index j; simpl.
  - by rewrite decide_False by lia.
  - rewrite IH. unfold byte_at at 1. rewrite list_lookup_insert.
    repeat case_decide; simpl; try done; try lia.
    assert (index = j) as -> by lia. unfold byte_at.
    rewrite (lookup_ge_None_2 l j) by lia. done.
Qed.

Lemma zero_from_length left : forall l index, length (zero_from l index left) = length l.
Proof.
  induction left as [|n IH]; intros; simpl; [done|]. by rewrite IH, length_insert.
Qed.

Lemma zero_from_bytes left : forall l index, bytes l -> bytes (zero_from l index left).
Proof.
  induction left as [|n IH]; intros; simpl; [done|].
  apply IH, Forall_insert; [done|]. by split.
Qed.

Lemma land_byte a b : is_byte a -> is_byte b -> is_byte (Z.land a b).
Proof.
  intros [? ?] [? ?]. split; [apply Z.land_nonneg; lia|].
  destruct (decide (Z.land a b = 0)) as [->|]; [lia|].
  assert (0 <= Z.land a b) by (apply Z.land_nonneg; lia).
  apply Z.log2_lt_cancel. change (Z.log2 256) with 8.
  eapply Z.le_lt_trans; [apply Z.log2_land; lia|].
  apply Z.min_lt_iff. left. destruct (decide (a = 0)) as [->|]; [done|].
  apply Z.log2_lt_pow2; lia.
Qed.

(** The three effects of masking: length kept, network bits kept, host bits
    cleared. *)
Record masked_copy (p q : prefix) : Prop := {
  mc_family : family q = family p;
  mc_len : prefixlen q = prefixlen p;
  mc_ip : ip_prefix q;
  mc_bits : forall i, 0 <= i < addr_len (family p) ->
            addr_bit (val q) i = addr_bit (val p) i && (i <? prefixlen p)
}.

Lemma apply_mask_ipv4_spec p :
  ip_prefix p -> family p = AF_INET ->
  exists q, apply_mask_ipv4 p = Ret q /\ masked_copy p q.
Proof.
  intros Hp Hf. destruct Hp as [Hfam Hl Hs Hb]. rewrite Hf in *. simpl in *.
  destruct (masklen2ip_spec (prefixlen p) Hl) as (m & Em & _ & Lm & Bm & Hm).
  unfold apply_mask_ipv4. rewrite Em. simpl. eexists; split; [done|].
  assert (length (val p) = 4%nat) as L4 by (unfold addr_len in Hs; simpl in Hs; lia).
  rewrite drop_ge, app_nil_r, take_ge by lia.
  split; simpl; [done|done| |].
  - split; simpl; rewrite ?Hf; [by left|done| |].
    + unfold and_bytes. rewrite length_zip_with, L4, Lm. done.
    + eapply Forall_zip_with_fst; [exact Hb|]. eapply Forall_impl; [|exact Bm].
      intros y Hy x Hx. by apply land_byte.
  - intros i Hi. rewrite Hf in Hi. simpl in Hi. unfold addr_bit at 1.
    rewrite byte_at_and, Z.land_spec. by rewrite <- Hm.
Qed.

Lemma apply_mask_ipv6_bits v len i :
  bytes v -> length v = 16%nat -> 0 <= len -> len / 8 < 16 -> 0 <= i < 128 ->
  let k := Z.to_nat (len / 8) in
  addr_bit (zero_from (<[k := Z.land (byte_at v k) (maskbit (len mod 8))]> v)
              (S k) (16 - S k)) i
  = addr_bit v i && (i <? len).
Proof.
  intros Hb Hs Hl0 Hlt Hi k. unfold addr_bit.
  pose proof (Z.div_mod len 8 ltac:(lia)). pose proof (Z.mod_pos_bound len 8 ltac:(lia)).
  pose proof (Z.div_mod i 8 ltac:(lia)). pose proof (Z.mod_pos_bound i 8 ltac:(lia)).
  assert (0 <= len / 8) by (apply Z.div_pos; lia).
  assert (0 <= i / 8 < 16) by (split; [apply Z.div_pos; lia|apply Z.div_lt_upper_bound; lia]).
  rewrite byte_at_zero_from. unfold byte_at at 1. rewrite list_lookup_insert.
  case_decide; [|case_decide as Hk].
  - rewrite Z.bits_0. destruct (Z.ltb_spec i len); [lia|]. by rewrite andb_false_r.
  - destruct Hk as [Hk _]. simpl. rewrite Z.land_spec, maskbit_testbit by lia.
    rewrite <- Hk. f_equal.
    destruct (Z.leb_spec (8 - len mod 8) (7 - i mod 8)),
      (Z.ltb_spec (7 - i mod 8) 8), (Z.ltb_spec i len); simpl; done || lia.
  - fold (byte_at v (Z.to_nat (i / 8))).
    destruct (Z.ltb_spec i len); [by rewrite andb_true_r|].
    assert (len / 8 <= i / 8) by (apply Z.div_le_mono; lia). lia.
Qed.

Lemma apply_mask_ipv6_spec p :
  ip_prefix p -> family p = AF_INET6 -> masked_copy p (apply_mask_ipv6 p).
Proof.
  intros Hp Hf. destruct Hp as [Hfam Hl Hs Hb].
  unfold apply_mask_ipv6. rewrite Hf in *. simpl in *.
  change (addr_len AF_INET6) with 128 in *.
  destruct (Z.ltb_spec (prefixlen p / 8) 16) as [Hlt|Hge].
  - split; simpl; [done|done| |].
    + split; simpl; rewrite ?Hf; [by right|done| |].
      * by rewrite zero_from_length, length_insert.
      * apply zero_from_bytes, Forall_insert; [done|].
        apply land_byte; [by apply byte_at_range|apply maskbit_byte].
    + intros i Hi. rewrite Hf in Hi. change (addr_len AF_INET6) with 128 in Hi.
      apply apply_mask_ipv6_bits; done || lia.
  - split; [done|done| |].
    + split; rewrite ?Hf; [by right|done..].
    + intros i Hi. rewrite Hf in Hi. change (addr_len AF_INET6) with 128 in Hi.
      pose proof (Z.div_mod (prefixlen p) 8 ltac:(lia)).
      pose proof (Z.mod_pos_bound (prefixlen p) 8 ltac:(lia)).
      rewrite (proj2 (Z.ltb_lt i (prefixlen p))) by lia. by rewrite andb_true_r.
Qed.

Lemma apply_mask_spec p :
  ip_prefix p -> exists q, apply_mask p = Ret q /\ masked_copy p q.
Proof.
  intros Hp. unfold apply_mask. destruct (ip_family p Hp) as [Hf|Hf]; rewrite Hf; simpl.
  - by apply apply_mask_ipv4_spec.
  - eexists; split; [done|]. by apply apply_mask_ipv6_spec.
Qed.

Lemma masked_copy_masked p q : masked_copy p q -> masked q.
Proof.
  intros H i Hi. rewrite (mc_family p q H), (mc_len p q H) in Hi.
  pose proof (ip_len q (mc_ip p q H)) as Hl. rewrite (mc_len p q H) in Hl.
  rewrite (mc_bits p q H) by lia.
  rewrite (proj2 (Z.ltb_ge i (prefixlen p))) by lia. by rewrite andb_false_r.
Qed.

Lemma masked_copy_agree p q :
  masked_copy p q -> agree (prefixlen p) (val p) (val q).
Proof.
  intros H i Hi.
  pose proof (ip_len q (mc_ip p q H)) as Hl.
  rewrite (mc_len p q H), (mc_family p q H) in Hl.
  rewrite (mc_bits p q H) by lia.
  rewrite (proj2 (Z.ltb_lt i (prefixlen p))) by lia. by rewrite andb_true_r.
Qed.

(** An address is determined by its bits. *)
Lemma addr_bits_inj v w :
  bytes v -> bytes w -> length v = length w ->
  agree (Z.of_nat (length v) * 8) v w -> v = w.
Proof.
  intros Hv Hw Hl Ha. rewrite agree_split in Ha by (done || lia).
  destruct Ha as [Ha _]. rewrite Z.div_mul, Nat2Z.id in Ha by lia.
  apply list_eq_same_length with (length v); [done|done|].
  intros i x y Hi Hx Hy. specialize (Ha i Hi). unfold byte_at in Ha.
  by rewrite Hx, Hy in Ha.
Qed.

(** Two masked prefixes with the same length and network bits are equal. *)
Lemma masked_inj p q :
  ip_prefix p -> ip_prefix q -> masked p -> masked q ->
  family p = family q -> prefixlen p = prefixlen q ->
  agree (prefixlen p) (val p) (val q) -> p = q.
Proof.
  intros Hp Hq Mp Mq Hf Hl Ha. destruct p as [f l v], q as [f' l' v']; simpl in *. subst.
  f_equal. pose proof (ip_size _ Hp) as S1. pose proof (ip_size _ Hq) as S2. simpl in *.
  apply addr_bits_inj; [apply Hp|apply Hq|lia|].
  intros i Hi. destruct (Z.lt_ge_cases i l').
  - apply Ha. lia.
  - transitivity false; [apply (Mp i)|symmetry; apply (Mq i)]; simpl; lia.
Qed.

(** [apply_mask] on an IP prefix never fails its assertion, keeps family,
    length and the network bits, clears every host bit, and is idempotent. *)
Theorem apply_mask_correct p :
  ip_prefix p ->
  exists q, apply_mask p = Ret q /\ family q = family p /\ prefixlen q = prefixlen p
    /\ ip_prefix q /\ agree (prefixlen p) (val p) (val q) /\ masked q
    /\ apply_mask q = Ret q.
Proof.
  intros Hp. destruct (apply_mask_spec p Hp) as (q & E & Hq). exists q.
  pose proof (masked_copy_agree p q Hq). pose proof (masked_copy_masked p q Hq) as Mq.
  split_and!; try apply Hq; [done..|].
  destruct (apply_mask_spec q (mc_ip p q Hq)) as (r & Er & Hr). rewrite Er. f_equal.
  symmetry. apply masked_inj; try apply Hq; try apply Hr; [done| | | |].
  - by eapply masked_copy_masked.
  - symmetry. apply Hr.
  - symmetry. apply Hr.
  - by apply masked_copy_agree.
Qed.

Lemma apply_mask_correct_witness :
  ip_prefix (mkPrefix AF_INET 12 [10; 31; 7; 9]) /\
  exists q, apply_mask (mkPrefix AF_INET 12 [10; 31; 7; 9]) = Ret q /\ masked q.
Proof.
  assert (ip_prefix (mkPrefix AF_INET 12 [10; 31; 7; 9])) as H.
  { apply ip_prefix_v4; unfold is_byte; lia. }
  split; [exact H|].
  destruct (apply_mask_correct _ H) as (q & E & _ & _ & _ & _ & M & _).
  exists q. split; [exact E|exact M].
Defined.

(** ** Common bits *)

Lemma first_diff_spec a b left : forall pos,
  let r := first_diff a b pos left in
  (pos <= r <= pos + left)%nat
  /\ (forall i, (pos <= i < r)%nat -> byte_at a i = byte_at b i)
  /\ ((r < pos + left)%nat -> byte_at a r <> byte_at b r).
Proof.
  induction left as [|n IH]; intros pos; simpl; [split_and!; lia|].
  destruct (Z.eqb_spec (byte_at a pos) (byte_at b pos)) as [E|E].
  - destruct (IH (S pos)) as (H1 & H2 & H3). split_and!; [lia|lia| |].
    + intros i Hi. destruct (decide (i = pos)) as [->|]; [done|]. apply H2. lia.
    + intros Hr. apply H3. lia.
  - split_and!; [lia|lia| |done]. intros i Hi. lia.
Qed.

Lemma land_pow2_testbit x k : 0 <= k -> (Z.land x (Z.shiftl 1 k) =? 0) = negb (Z.testbit x k).
Proof.
  intros Hk. rewrite Z.shiftl_1_l.
  destruct (Z.testbit x k) eqn:E; simpl.
  - apply Z.eqb_neq. intros H. apply (f_equal (fun z => Z.testbit z k)) in H.
    rewrite Z.land_spec, E, Z.pow2_bits_true, Z.bits_0 in H by done. done.
  - apply Z.eqb_eq. apply Z.bits_inj'. intros j Hj.
    rewrite Z.land_spec, Z.bits_0, Z.pow2_bits_eqb by done.
    destruct (Z.eqb_spec k j) as [<-|]; [by rewrite E|apply andb_false_r].
Qed.

Lemma first_bit_spec x left : forall bit,
  0 <= bit -> bit + Z.of_nat left = 8 ->
  (exists k, bit <= k < 8 /\ Z.testbit x (7 - k) = true) ->
  let r := first_bit x bit left in
  bit <= r < 8 /\ Z.testbit x (7 - r) = true
  /\ (forall k, bit <= k < r -> Z.testbit x (7 - k) = false).
Proof.
  induction left as [|n IH]; intros bit H0 Hs Hex; simpl.
  - destruct Hex as (k & ? & _). lia.
  - rewrite land_pow2_testbit by lia. destruct (Z.testbit x (7 - bit)) eqn:E; simpl.
    + split_and!; [lia|lia|done|]. intros k Hk. lia.
    + destruct (IH (bit + 1)) as (H1 & H2 & H3); [lia|lia| |].
      { destruct Hex as (k & Hk & Hx). exists k. split; [|done].
        destruct (decide (k = bit)) as [->|]; [congruence|lia]. }
      split_and!; [lia|lia|done|]. intros k Hk.
      destruct (decide (k = bit)) as [->|]; [done|]. apply H3. lia.
Qed.

Lemma bytes_differ_bit a b :
  is_byte a -> is_byte b -> a <> b ->
  exists k, 0 <= k < 8 /\ Z.testbit (Z.lxor a b) (7 - k) = true.
Proof.
  intros Ha Hb Hne.
  destruct (decide (Exists (fun k => Z.testbit (Z.lxor a b) (7 - k) = true) (seqZ 0 8)))
    as [He|Hn].
  - apply Exists_exists in He as (k & Hk & Hx).
    rewrite <- list_elem_of_In, elem_of_seqZ in Hk. exists k. split; [lia|done].
  - destruct Hne. apply byte_eq_bits; [done|done|]. intros k Hk. apply xorb_eq.
    rewrite <- Z.lxor_spec. apply not_true_is_false. intros Hx. apply Hn.
    apply Exists_exists. exists k. split; [|done].
    rewrite <- list_elem_of_In, elem_of_seqZ. lia.
Qed.

(** [prefix_common_bits] returns the length of the longest common bit
    string of two IP addresses of one family: they agree on that many bits and,
    below the family's maximum, differ in the next one; across families it
    returns -1. *)
Theorem prefix_common_bits_correct p1 p2 :
  ip_prefix p1 -> ip_prefix p2 ->
  let r := prefix_common_bits p1 p2 in
  (family p1 <> family p2 -> r = -1) /\
  (family p1 = family p2 ->
     0 <= r <= addr_len (family p1) /\ agree r (val p1) (val p2)
     /\ (r < addr_len (family p1) -> addr_bit (val p1) r <> addr_bit (val p2) r)).
Proof.
  intros H1 H2. unfold prefix_common_bits.
  set (len := if family p1 =? AF_INET then _ else _).
  assert (len * 8 = addr_len (family p1) /\ 0 < len) as [Hlen Hpos].
  { unfold len. destruct (ip_family p1 H1) as [->| ->]; done. }
  clearbody len. split; intros Hf.
  { by rewrite (proj2 (Z.eqb_neq _ _) Hf). }
  rewrite (proj2 (Z.eqb_eq _ _) Hf), (proj2 (Z.eqb_neq len 0)) by lia. cbn [negb orb].
  destruct (first_diff_spec (val p1) (val p2) (Z.to_nat len) 0) as (R1 & R2 & R3).
  set (pos := first_diff _ _ _ _) in *. pose proof (ip_bytes p1 H1) as B1.
  pose proof (ip_bytes p2 H2) as B2.
  destruct (Z.eqb_spec (Z.of_nat pos) len) as [E|E].
  - split_and!; [lia|lia| |lia]. rewrite agree_split by (done || lia).
    rewrite Z.div_mul, Z.mod_mul, Nat2Z.id by lia. split; [|intros; lia].
    intros i Hi. apply R2. lia.
  - destruct (first_bit_spec (Z.lxor (byte_at (val p1) pos) (byte_at (val p2) pos)) 8 0)
      as (F1 & F2 & F3); [lia|lia| |].
    { apply bytes_differ_bit; [by apply byte_at_range..|]. apply R3. lia. }
    set (r := first_bit _ _ _) in *. clearbody pos r. split_and!; [lia|lia| |].
    + rewrite agree_split by (done || lia).
      rewrite Z.div_add_l, (Z.div_small r), Z.add_0_r, Nat2Z.id by lia.
      rewrite (Z.add_comm _ r), Z.mod_add, Z.mod_small by lia. split.
      * intros i Hi. apply R2. lia.
      * intros k Hk. apply xorb_eq. rewrite <- Z.lxor_spec. apply F3. lia.
    + intros _. rewrite !addr_bit_at, Nat2Z.id by lia.
      rewrite Z.lxor_spec in F2. by destruct Z.testbit, Z.testbit.
Qed.

Lemma prefix_common_bits_correct_witness :
  prefix_common_bits net10_8 net10_1_16 = 15 /\
  agree (prefix_common_bits net10_8 net10_1_16) (val net10_8) (val net10_1_16).
Proof.
  split; [reflexivity|].
  apply (prefix_common_bits_correct net10_8 net10_1_16);
    first [reflexivity|apply ip_prefix_v4; unfold is_byte; lia].
Defined.
