(* ===== verification/Table.v ===== *)
(** * Routing tables (lib/table.c, lib/table.h)

    A route table is a binary radix tree of [struct route_node]s with parent
    pointers and reference counts ("locks"), and a hash of the same nodes for
    exact-match lookups.  The model keeps the pointer structure: nodes live in
    a heap [gmap nat route_node], a pointer is [option nat], and every function
    threads the table explicitly.  A dangling pointer or a failed assertion is
    [Abort]; a loop that would not end runs out of fuel and is [Abort] too, so
    a result [Ret _] says that the C code returns.

    The delegate is the default one ([route_node_create] /
    [route_node_destroy]): allocation takes the next unused address and zeroes
    the node. *)

From stdpp Require Import gmap.
From S2P Require Import Prelude Prefix.

(** ** Data *)

Record route_node := mkNode {
  n_p : prefix;
  n_parent : option nat;
  l_left : option nat;
  l_right : option nat;
  n_lock : Z;      (* unsigned int *)
  n_info : Z       (* void pointer, 0 for NULL *)
}.

Record route_table := mkTable {
  heap : gmap nat route_node;
  top : option nat;
  count : Z;       (* unsigned long *)
  hash : list nat; (* the items of the rn_hash_node container *)
  next_addr : nat
}.

Definition link (n : route_node) (bit : Z) : option nat :=
  if bit =? 0 then l_left n else l_right n.

(** Field assignments through a pointer. *)
Definition upd (id : nat) (f : route_node -> route_node) (t : route_table)
  : route_table :=
  mkTable (alter f id (heap t)) (top t) (count t) (hash t) (next_addr t).
Definition set_parent (q : option nat) (n : route_node) : route_node :=
  mkNode (n_p n) q (l_left n) (l_right n) (n_lock n) (n_info n).
Definition set_left (c : option nat) (n : route_node) : route_node :=
  mkNode (n_p n) (n_parent n) c (l_right n) (n_lock n) (n_info n).
Definition set_right (c : option nat) (n : route_node) : route_node :=
  mkNode (n_p n) (n_parent n) (l_left n) c (n_lock n) (n_info n).
Definition set_child (bit : Z) (c : option nat) (n : route_node) : route_node :=
  if bit =? 0 then set_left c n else set_right c n.
Definition set_lock (l : Z) (n : route_node) : route_node :=
  mkNode (n_p n) (n_parent n) (l_left n) (l_right n) l (n_info n).
Definition set_top (c : option nat) (t : route_table) : route_table :=
  mkTable (heap t) c (count t) (hash t) (next_addr t).
Definition set_count (c : Z) (t : route_table) : route_table :=
  mkTable (heap t) (top t) c (hash t) (next_addr t).
Definition set_hash (h : list nat) (t : route_table) : route_table :=
  mkTable (heap t) (top t) (count t) h (next_addr t).

Definition deref (t : route_table) (id : nat) : outcome route_node :=
  match heap t !! id with
  | Some n => Ret n
  | None => Abort
  end.

(** ** The hash of nodes: a container keyed by [prefix_cmp].  No IP prefix
    leads to memory outside of the structure, hence the constant memory. *)
Definition no_mem (a : Z) : Z := 0.

Definition hash_is (t : route_table) (p : prefix) (id : nat) : bool :=
  match heap t !! id with
  | Some n => prefix_cmp no_mem (n_p n) p =? 0
  | None => false
  end.

Definition rn_hash_node_find (t : route_table) (p : prefix) : option nat :=
  List.find (hash_is t p) (hash t).

Definition rn_hash_node_add (id : nat) (t : route_table) : outcome route_table :=
  n ← deref t id;
  Ret (match rn_hash_node_find t (n_p n) with
       | Some _ => t
       | None => set_hash (id :: hash t) t
       end).

Definition rn_hash_node_del (id : nat) (t : route_table) : route_table :=
  set_hash (List.filter (fun x => negb (Nat.eqb x id)) (hash t)) t.

(** ** Operations *)

Definition route_table_init : route_table := mkTable ∅ None 0 [] 0.

(** A node as the default delegate allocates it: all fields zero.  The union
    of the prefix is kept as wide as the address of its family. *)
Definition zero_node (width : nat) : route_node :=
  mkNode (mkPrefix 0 0 (replicate width 0)) None None None 0 0.

Definition route_node_new (width : nat) (t : route_table) : nat * route_table :=
  (next_addr t,
   mkTable (<[next_addr t := zero_node width]> (heap t)) (top t) (count t)
     (hash t) (S (next_addr t))).

Definition set_p (p : prefix) (n : route_node) : route_node :=
  mkNode p (n_parent n) (l_left n) (l_right n) (n_lock n) (n_info n).

Definition route_node_set (p : prefix) (t : route_table)
  : outcome (nat * route_table) :=
  let '(node, t) := route_node_new (length (val p)) t in
  let t := upd node (set_p p) t in
  t ← rn_hash_node_add node t;
  Ret (node, t).

(** [while (new->prefixlen < p->prefixlen && !(mask & diff))
       { mask >>= 1; new->prefixlen++; }] *)
Fixpoint common_bits_loop (mask diff len : Z) (left : nat) : Z :=
  match left with
  | O => len
  | S l =>
      if Z.land mask diff =? 0
      then common_bits_loop (Z.shiftr mask 1) diff (len + 1) l
      else len
  end.

(** [for (i = 0; i < p->prefixlen / 8; i++)
       if (np[i] == pp[i]) newp[i] = np[i]; else break;] *)
Fixpoint common_bytes_loop (np pp newp : list Z) (i : nat) (left : nat)
  : nat * list Z :=
  match left with
  | O => (i, newp)
  | S l =>
      if byte_at np i =? byte_at pp i
      then common_bytes_loop np pp (<[i := byte_at np i]> newp) (S i) l
      else (i, newp)
  end.

Definition route_common (n p new : prefix) : prefix :=
  if (family n =? AF_FLOWSPEC) || (family n =? AF_LINKSTATE) then p
  else
    let '(i, newp) :=
      common_bytes_loop (val n) (val p) (val new) 0
        (Z.to_nat (prefixlen p / 8)) in
    let len := Z.of_nat i * 8 in
    if negb (len =? prefixlen p) then
      let diff := Z.lxor (byte_at (val n) i) (byte_at (val p) i) in
      let len' :=
        common_bits_loop 0x80 diff len (Z.to_nat (prefixlen p - len)) in
      mkPrefix (family new) len'
        (<[i := Z.land (byte_at (val n) i) (maskbit (len' mod 8))]> newp)
    else mkPrefix (family new) len newp.

Definition set_link (node new : nat) (t : route_table) : outcome route_table :=
  nn ← deref t node;
  nw ← deref t new;
  let bit := prefix_bit (val (n_p nw)) (prefixlen (n_p nn)) in
  Ret (upd new (set_parent (Some node)) (upd node (set_child bit (Some new)) t)).

Definition route_lock_node (id : nat) (t : route_table)
  : outcome (nat * route_table) :=
  n ← deref t id;
  Ret (id, upd id (set_lock (u32 (n_lock n + 1))) t).

(** The loop of [route_node_match]. *)
Fixpoint match_loop (fuel : nat) (t : route_table) (p : prefix)
    (node matched : option nat) : outcome (option nat) :=
  match fuel with
  | O => Abort
  | S fuel =>
      match node with
      | None => Ret matched
      | Some id =>
          n ← deref t id;
          if (prefixlen (n_p n) <=? prefixlen p) && prefix_match (n_p n) p then
            let matched := if negb (n_info n =? 0) then Some id else matched in
            if prefixlen (n_p n) =? prefixlen p then Ret matched
            else match_loop fuel t p
                   (link n (prefix_bit (val p) (prefixlen (n_p n)))) matched
          else Ret matched
      end
  end.

(** Prefix lengths grow along the links, so the loop body runs at most
    [prefixlen p + 1] times. *)
Definition walk_fuel (p : prefix) : nat := S (S (Z.to_nat (prefixlen p))).

Definition route_node_match (t : route_table) (p : prefix)
  : outcome (option nat * route_table) :=
  matched ← match_loop (walk_fuel p) t p (top t) None;
  match matched with
  | Some id => '(id, t) ← route_lock_node id t; Ret (Some id, t)
  | None => Ret (None, t)
  end.

Definition route_node_lookup (t : route_table) (p : prefix)
  : outcome (option nat * route_table) :=
  rn ← apply_mask p;
  match rn_hash_node_find t rn with
  | None => Ret (None, t)
  | Some id =>
      n ← deref t id;
      if negb (n_info n =? 0)
      then '(id, t) ← route_lock_node id t; Ret (Some id, t)
      else Ret (None, t)
  end.

Definition route_node_lookup_maynull (t : route_table) (p : prefix)
  : outcome (option nat * route_table) :=
  rn ← apply_mask p;
  match rn_hash_node_find t rn with
  | None => Ret (None, t)
  | Some id => '(id, t) ← route_lock_node id t; Ret (Some id, t)
  end.

(** The loop of [route_node_get]: [inl id] when it returns node [id] from
    inside, [inr (match, node)] when it falls through. *)
Fixpoint get_loop (fuel : nat) (t : route_table) (p : prefix)
    (matched node : option nat) : outcome (nat + option nat * option nat) :=
  match fuel with
  | O => Abort
  | S fuel =>
      match node with
      | None => Ret (inr (matched, None))
      | Some id =>
          n ← deref t id;
          if (prefixlen (n_p n) <=? prefixlen p) && prefix_match (n_p n) p then
            if prefixlen (n_p n) =? prefixlen p then Ret (inl id)
            else get_loop fuel t p (Some id)
                   (link n (prefix_bit (val p) (prefixlen (n_p n))))
          else Ret (inr (matched, node))
      end
  end.

(** [if (match) set_link(match, new); else table->top = new;] *)
Definition attach (matched : option nat) (new : nat) (t : route_table)
  : outcome route_table :=
  match matched with
  | Some m => set_link m new t
  | None => Ret (set_top (Some new) t)
  end.

(** [new->p.family = p->family] after [route_common(&node->p, p, &new->p)]. *)
Definition route_node_branch (node : nat) (p : prefix) (t : route_table)
  : outcome (nat * route_table) :=
  n ← deref t node;
  let '(new, t) := route_node_new (length (val p)) t in
  nn ← deref t new;
  let c := route_common (n_p n) p (n_p nn) in
  let t := upd new (set_p (mkPrefix (family p) (prefixlen c) (val c))) t in
  t ← set_link new node t;
  t ← rn_hash_node_add new t;
  Ret (new, t).

(** [u64]: [count] is an [unsigned long]. *)
Definition count_inc (t : route_table) : route_table :=
  set_count (u64 (count t + 1)) t.

Definition route_node_get (t : route_table) (pu : prefix)
  : outcome (nat * route_table) :=
  p ← apply_mask pu;
  node ← match rn_hash_node_find t p with
         | Some id => n ← deref t id;
                      Ret (if negb (n_info n =? 0) then Some id else None)
         | None => Ret None
         end;
  match node with
  | Some id => route_lock_node id t
  | None =>
      r ← get_loop (walk_fuel p) t p None (top t);
      match r with
      | inl id => route_lock_node id t
      | inr (matched, None) =>
          '(new, t) ← route_node_set p t;
          t ← attach matched new t;
          route_lock_node new (count_inc t)
      | inr (matched, Some node) =>
          '(new, t) ← route_node_branch node p t;
          t ← attach matched new t;
          nn ← deref t new;
          if negb (prefixlen (n_p nn) =? prefixlen p) then
            let m := new in
            '(new, t) ← route_node_set p t;
            t ← set_link m new t;
            route_lock_node new (count_inc (count_inc t))
          else route_lock_node new (count_inc t)
      end
  end.

(** The surgery of [route_node_delete] on a node [n] at [id] with at most one
    child: the child takes its place, and the node is freed. *)
Definition unlink_node (id : nat) (n : route_node) (t : route_table)
  : outcome route_table :=
  let child := match l_left n with
               | Some c => Some c
               | None => l_right n
               end in
  let parent := n_parent n in
  let t := match child with
           | Some c => upd c (set_parent parent) t
           | None => t
           end in
  t ← match parent with
      | Some q =>
          nq ← deref t q;
          Ret (if bool_decide (l_left nq = Some id)
               then upd q (set_left child) t
               else upd q (set_right child) t)
      | None => Ret (set_top child t)
      end;
  let t := set_count (u64 (count t - 1)) t in
  let t := rn_hash_node_del id t in
  Ret (mkTable (delete id (heap t)) (top t) (count t) (hash t) (next_addr t)).

(** [route_node_delete]; the recursion climbs to a parent with a shorter
    prefix, so the prefix length bounds it. *)
Fixpoint delete_loop (fuel : nat) (t : route_table) (id : nat)
  : outcome route_table :=
  match fuel with
  | O => Abort
  | S fuel =>
      n ← deref t id;
      assert! (n_lock n =? 0) ;;
      match l_left n, l_right n with
      | Some _, Some _ => Ret t
      | _, _ =>
          t ← unlink_node id n t;
          match n_parent n with
          | Some q =>
              nq ← deref t q;
              if n_lock nq =? 0 then delete_loop fuel t q else Ret t
          | None => Ret t
          end
      end
  end.

Definition route_node_delete (id : nat) (t : route_table) : outcome route_table :=
  n ← deref t id;
  delete_loop (S (Z.to_nat (prefixlen (n_p n)))) t id.

Definition route_unlock_node (id : nat) (t : route_table) : outcome route_table :=
  n ← deref t id;
  assert! (0 <? n_lock n) ;;
  let t := upd id (set_lock (n_lock n - 1)) t in
  if n_lock n - 1 =? 0 then route_node_delete id t else Ret t.

Definition route_top (t : route_table) : outcome (option nat * route_table) :=
  match top t with
  | None => Ret (None, t)
  | Some id => '(id, t) ← route_lock_node id t; Ret (Some id, t)
  end.

Definition route_table_count (t : route_table) : Z := count t.

(** Callers store user data through the returned node. *)
Definition set_info (id : nat) (x : Z) (t : route_table) : route_table :=
  upd id (fun n => mkNode (n_p n) (n_parent n) (l_left n) (l_right n)
                     (n_lock n) x) t.
