(* ===== verification/TableFacts.v ===== *)
(** * Correctness of the routing table

    The invariant [wf_table] of the pointer structure, its preservation by
    every operation of Table.v, and the longest-prefix-match theorem.  The
    pointer surgery is factored into three facts on heaps: hanging a leaf
    ([tree_leaf]), splicing a node into an edge ([tree_splice]) and unlinking a
    node with at most one child ([tree_unlink]). *)

From stdpp Require Import gmap.
From S2P Require Import Prelude Prefix Table.

(** ** [route_common] computes the longest common prefix *)

Lemma common_bytes_loop_spec np pp left : forall newp i,
  (i + left <= length newp)%nat ->
  let '(r, newp') := common_bytes_loop np pp newp i left in
  (i <= r <= i + left)%nat /\ length newp' = length newp
  /\ (forall j, (i <= j < r)%nat -> byte_at np j = byte_at pp j
                                    /\ byte_at newp' j = byte_at np j)
  /\ (forall j, (j < i \/ r <= j)%nat -> byte_at newp' j = byte_at newp j)
  /\ ((r < i + left)%nat -> byte_at np r <> byte_at pp r).
Proof.
  induction left as [|l IH]; intros newp i Hl; simpl.
  { split_and!; intros; first [lia|done]. }
  destruct (Z.eqb_spec (byte_at np i) (byte_at pp i)) as [E|E];
    [|by split_and!; intros; first [lia|done]].
  specialize (IH (<[i:=byte_at np i]> newp) (S i)).
  destruct common_bytes_loop as [r newp'].
  destruct IH as (H1 & H2 & H3 & H4 & H5); [rewrite length_insert; lia|].
  rewrite length_insert in H2. split_and!; [lia|lia|done| | |].
  - intros j Hj. destruct (decide (j = i)) as [->|]; [|apply H3; lia].
    split; [done|]. rewrite H4 by lia. unfold byte_at at 1.
    rewrite list_lookup_insert_eq by lia. done.
  - intros j Hj. rewrite H4 by lia. unfold byte_at at 1.
    by rewrite list_lookup_insert_ne by lia.
  - intros Hr. apply H5. lia.
Qed.

(** The mask walks down from bit 7; [k] steps have been made. *)
Lemma common_bits_loop_spec diff left : forall k len,
  (k + left <= 8)%nat \/
  (exists j, Z.of_nat k <= j < 8 /\ Z.testbit diff (7 - j) = true) ->
  let r := common_bits_loop (Z.shiftr 0x80 (Z.of_nat k)) diff len left in
  len <= r <= len + Z.of_nat left
  /\ (forall j, 0 <= j < r - len -> Z.testbit diff (7 - (Z.of_nat k + j)) = false)
  /\ (r < len + Z.of_nat left ->
      Z.testbit diff (7 - (Z.of_nat k + (r - len))) = true).
Proof.
  induction left as [|l IH]; intros k len Hk; simpl; [by split_and!; intros; lia|].
  assert (k < 8)%nat as Hk8 by (destruct Hk as [?|(j & ? & _)]; lia).
  assert (Z.shiftr 128 (Z.of_nat k) = Z.shiftl 1 (7 - Z.of_nat k)) as Em.
  { rewrite Z.shiftr_div_pow2, Z.shiftl_1_l by lia.
    change 128 with (2 ^ 7). rewrite <- Z.pow_sub_r by lia. done. }
  rewrite Z.land_comm, Em, land_pow2_testbit by lia.
  destruct (Z.testbit diff (7 - Z.of_nat k)) eqn:E; simpl.
  - split_and!; [lia|lia|intros; lia|]. intros _.
    replace (Z.of_nat k + (len - len)) with (Z.of_nat k) by lia. done.
  - rewrite <- Em, Z.shiftr_shiftr by lia.
    replace (Z.of_nat k + 1) with (Z.of_nat (S k)) by lia.
    destruct (IH (S k) (len + 1)) as (H1 & H2 & H3).
    { destruct Hk as [?|(j & ? & Hj)]; [left; lia|right]. exists j. split; [|done].
      destruct (decide (j = Z.of_nat k)) as [->|]; [congruence|lia]. }
    set (r := common_bits_loop _ _ _ _) in *. clearbody r.
    split_and!; [lia|lia| |].
    + intros j Hj. destruct (decide (j = 0)) as [->|]; [by rewrite Z.add_0_r|].
      specialize (H2 (j - 1)).
      replace (Z.of_nat (S k) + (j - 1)) with (Z.of_nat k + j) in H2 by lia.
      apply H2. lia.
    + intros Hr. replace (Z.of_nat k + (r - len))
        with (Z.of_nat (S k) + (r - (len + 1))) by lia. apply H3. lia.
Qed.

(** What [route_common n p] must compute into a zeroed node: the [r] bits on
    which [n] and [p] agree, no longer than [p], and zeros after them. *)
Record common_prefix (n p c : prefix) : Prop := {
  cp_len : 0 <= prefixlen c <= prefixlen p;
  cp_agree : agree (prefixlen c) (val n) (val p);
  cp_diff : prefixlen c < prefixlen p ->
            addr_bit (val n) (prefixlen c) <> addr_bit (val p) (prefixlen c);
  cp_bits : forall i, 0 <= i ->
            addr_bit (val c) i = addr_bit (val n) i && (i <? prefixlen c);
  cp_size : length (val c) = length (val p);
  cp_bytes : bytes (val c)
}.

Lemma byte_at_replicate k i : byte_at (replicate k 0) i = 0.
Proof.
  unfold byte_at. destruct (decide (i < k)%nat).
  - by rewrite lookup_replicate_2.
  - rewrite lookup_ge_None_2; [done|]. rewrite length_replicate. lia.
Qed.

Lemma common_bytes_loop_bytes np pp left : forall newp i,
  bytes np -> bytes newp -> bytes (common_bytes_loop np pp newp i left).2.
Proof.
  induction left as [|l IH]; intros newp i Hn Hw; simpl; [done|].
  case_bool; [|done]. apply IH; [done|].
  apply Forall_insert; [done|]. by apply byte_at_range.
Qed.

(** The bits of an address made of [q] bytes of [n], one byte of [n] under the
    mask of [s] bits and zeros. *)
Lemma masked_bytes_bits c v q s :
  0 <= q -> 0 <= s < 8 -> bytes v ->
  (forall j, (j < Z.to_nat q)%nat -> byte_at c j = byte_at v j) ->
  byte_at c (Z.to_nat q) = Z.land (byte_at v (Z.to_nat q)) (maskbit s) ->
  (forall j, (Z.to_nat q < j)%nat -> byte_at c j = 0) ->
  forall i, 0 <= i -> addr_bit c i = addr_bit v i && (i <? q * 8 + s).
Proof.
  intros Hq Hs Hv H1 H2 H3 i Hi. unfold addr_bit.
  pose proof (Z.div_mod i 8 ltac:(lia)). pose proof (Z.mod_pos_bound i 8 ltac:(lia)).
  assert (0 <= i / 8) by (apply Z.div_pos; lia).
  destruct (Z.lt_trichotomy (i / 8) q) as [Hlt|[Heq|Hgt]].
  - rewrite H1 by lia. rewrite (proj2 (Z.ltb_lt i _)) by lia. by rewrite andb_true_r.
  - rewrite Heq, H2, Z.land_spec, maskbit_testbit by lia. f_equal.
    destruct (Z.leb_spec (8 - s) (7 - i mod 8)), (Z.ltb_spec (7 - i mod 8) 8),
      (Z.ltb_spec i (q * 8 + s)); simpl; done || lia.
  - rewrite H3, Z.bits_0 by lia. rewrite (proj2 (Z.ltb_ge i _)) by lia.
    by rewrite andb_false_r.
Qed.

(** The scan of the first byte that differs: it stops at the first bit that
    differs, or after the [m] bits that are left. *)
Lemma common_bits_byte x y m base :
  is_byte x -> is_byte y -> 0 <= m -> m < 8 \/ x <> y ->
  let r := common_bits_loop 0x80 (Z.lxor x y) base (Z.to_nat m) in
  base <= r <= base + m /\ r - base < 8
  /\ (forall k, 0 <= k < r - base -> Z.testbit x (7 - k) = Z.testbit y (7 - k))
  /\ (r < base + m -> Z.testbit x (7 - (r - base)) <> Z.testbit y (7 - (r - base))).
Proof.
  intros Hx Hy Hm Hd. cbv zeta.
  destruct (common_bits_loop_spec (Z.lxor x y) (Z.to_nat m) 0 base) as (C1 & C2 & C3).
  { destruct (decide (m < 8)) as [|Hge]; [left; lia|right]. destruct Hd as [?|Hne]; [lia|].
    destruct (bytes_differ_bit x y Hx Hy Hne) as (j & Hj & Hb). exists j. split; [lia|done]. }
  change (Z.shiftr 128 (Z.of_nat 0)) with 128 in *. set (r := common_bits_loop _ _ _ _) in *.
  assert (forall k, 0 <= k < r - base -> Z.testbit x (7 - k) = Z.testbit y (7 - k)) as Heq.
  { intros k Hk. apply xorb_eq. rewrite <- Z.lxor_spec. by apply (C2 k). }
  split_and!; try done; [lia|lia| |].
  - apply Z.nle_gt. intros Hge. destruct Hd as [?|Hne]; [lia|].
    apply Hne, byte_eq_bits; try done. intros k Hk. apply Heq. lia.
  - intros Hr. specialize (C3 ltac:(lia)). rewrite Z.lxor_spec in C3.
    change (Z.of_nat 0 + (r - base)) with (r - base) in C3. by destruct Z.testbit, Z.testbit.
Qed.

(** [route_common] after the byte loop: [i] equal bytes copied, zeros after. *)
Section Common.
Context (n p : prefix) (Hn : ip_prefix n) (Hp : ip_prefix p).
Context (i : nat) (newp : list Z) (Hi : Z.of_nat i * 8 <= prefixlen p)
  (Hlen : length newp = length (val p)) (Hw : bytes newp)
  (Hsame : forall j, (j < i)%nat -> byte_at (val n) j = byte_at (val p) j
                                    /\ byte_at newp j = byte_at (val n) j)
  (Hzero : forall j, (i <= j)%nat -> byte_at newp j = 0).

Lemma common_agree : agree (Z.of_nat i * 8) (val n) (val p).
Proof.
  rewrite agree_split by (lia || apply Hn || apply Hp).
  rewrite Z.div_mul, Z.mod_mul, Nat2Z.id by lia. split; [|intros; lia].
  intros j Hj. by apply Hsame.
Qed.

Lemma common_whole f : Z.of_nat i * 8 = prefixlen p ->
  common_prefix n p (mkPrefix f (Z.of_nat i * 8) newp).
Proof.
  intros E. split; cbn [prefixlen val]; [lia|exact common_agree|lia| |done|done].
  intros j Hj. rewrite <- (Z.add_0_r (Z.of_nat i * 8)).
  apply masked_bytes_bits; [lia|lia|apply Hn| | | |done].
  - intros k Hk. apply Hsame. lia.
  - change (maskbit 0) with 0. rewrite Z.land_0_r, Nat2Z.id. apply Hzero. lia.
  - intros k Hk. apply Hzero. lia.
Qed.

Lemma common_partial f :
  prefixlen p - Z.of_nat i * 8 < 8 \/ byte_at (val n) i <> byte_at (val p) i ->
  (i < length newp)%nat ->
  let len := common_bits_loop 0x80 (Z.lxor (byte_at (val n) i) (byte_at (val p) i))
               (Z.of_nat i * 8) (Z.to_nat (prefixlen p - Z.of_nat i * 8)) in
  common_prefix n p
    (mkPrefix f len (<[i := Z.land (byte_at (val n) i) (maskbit (len mod 8))]> newp)).
Proof.
  intros Hd Hil. cbv zeta.
  destruct (common_bits_byte (byte_at (val n) i) (byte_at (val p) i)
    (prefixlen p - Z.of_nat i * 8) (Z.of_nat i * 8)) as (C1 & C2 & C3 & C4);
    [apply byte_at_range, Hn|apply byte_at_range, Hp|lia|done|].
  set (len := common_bits_loop _ _ _ _) in *. clearbody len. set (s := len - Z.of_nat i * 8) in *.
  assert (len = Z.of_nat i * 8 + s) as El by lia.
  assert (len mod 8 = s) as Em by (rewrite El, Z.add_comm, Z.mod_add, Z.mod_small by lia; done).
  split; cbn [prefixlen val].
  - lia.
  - intros j Hj. destruct (Z.lt_ge_cases j (Z.of_nat i * 8)) as [Hji|Hji].
    + apply common_agree. lia.
    + replace j with (Z.of_nat i * 8 + (j - Z.of_nat i * 8)) by lia.
      rewrite !addr_bit_at, Nat2Z.id by lia. apply C3. lia.
  - intros Hlt. rewrite El, !addr_bit_at, Nat2Z.id by lia. apply C4. lia.
  - intros j Hj. rewrite Em, El.
    apply masked_bytes_bits; [lia|lia|apply Hn| | | |done]; rewrite ?Nat2Z.id.
    + intros k Hk. rewrite byte_at_insert, decide_False by lia. apply Hsame. lia.
    + by rewrite byte_at_insert, decide_True by lia.
    + intros k Hk. rewrite byte_at_insert, decide_False by lia. apply Hzero. lia.
  - by rewrite length_insert.
  - apply Forall_insert; [done|]. apply land_byte; [|apply maskbit_byte].
    apply byte_at_range, Hn.
Qed.
End Common.

Lemma route_common_spec n p f :
  ip_prefix n -> ip_prefix p -> family n = family p ->
  common_prefix n p (route_common n p (mkPrefix f 0 (replicate (length (val p)) 0))).
Proof.
  intros Hn Hp Hf. unfold route_common.
  destruct (wf_fam n (ip_wf n Hn)) as [F1 F2].
  rewrite (proj2 (Z.eqb_neq _ _) F1), (proj2 (Z.eqb_neq _ _) F2). cbn [orb family val].
  pose proof (ip_len p Hp) as Lp. pose proof (ip_size p Hp) as Sp.
  pose proof (Z.div_mod (prefixlen p) 8 ltac:(lia)) as Dp.
  pose proof (Z.mod_pos_bound (prefixlen p) 8 ltac:(lia)) as Mp.
  assert (0 <= prefixlen p / 8) by (apply Z.div_pos; lia).
  pose proof (common_bytes_loop_spec (val n) (val p) (Z.to_nat (prefixlen p / 8))
    (replicate (length (val p)) 0) 0) as HB.
  pose proof (common_bytes_loop_bytes (val n) (val p) (Z.to_nat (prefixlen p / 8))
    (replicate (length (val p)) 0) 0 (ip_bytes n Hn)) as HBb.
  destruct common_bytes_loop as [i newp]. rewrite length_replicate in HB.
  destruct HB as (B1 & B2 & B3 & B4 & B5); [lia|].
  assert (bytes newp) as Bw by (apply HBb, Forall_replicate; by split).
  assert (forall j, (j < i)%nat -> byte_at (val n) j = byte_at (val p) j /\ byte_at newp j = byte_at (val n) j)
    as Bs by (intros j Hj; apply B3; lia).
  assert (forall j, (i <= j)%nat -> byte_at newp j = 0) as Bz
    by (intros j Hj; rewrite B4 by lia; apply byte_at_replicate).
  destruct (Z.eqb_spec (Z.of_nat i * 8) (prefixlen p)) as [E|E]; cbn [negb].
  - apply common_whole; try done. lia.
  - apply common_partial; try done; [lia| |lia].
    destruct (decide (i < Z.to_nat (prefixlen p / 8))%nat); [right; apply B5; lia|left; lia].
Qed.

(** ** The tree invariant *)

(** The prefixes a table of family [f] holds. *)
Definition okp (f : Z) (p : prefix) : Prop :=
  ip_prefix p /\ masked p /\ family p = f.

(** [m] is strictly longer than [n], extends it, and continues with bit [b]. *)
Definition below (n m : prefix) (b : Z) : Prop :=
  prefixlen n < prefixlen m /\ agree (prefixlen n) (val n) (val m)
  /\ prefix_bit (val m) (prefixlen n) = b.

(** [n] is a prefix of [m], or equal. *)
Definition covers_prefix (n m : prefix) : Prop :=
  prefixlen n <= prefixlen m /\ agree (prefixlen n) (val n) (val m).

Definition bit (b : Z) : Prop := b = 0 \/ b = 1.

Record tree (f : Z) (h : gmap nat route_node) (tp : option nat) : Prop := {
  tr_node : forall id n, h !! id = Some n -> okp f (n_p n);
  tr_link : forall id n b c, h !! id = Some n -> bit b -> link n b = Some c ->
    exists m, h !! c = Some m /\ n_parent m = Some id /\ below (n_p n) (n_p m) b;
  tr_parent : forall id n q, h !! id = Some n -> n_parent n = Some q ->
    exists m b, h !! q = Some m /\ bit b /\ link m b = Some id;
  tr_top : forall id, tp = Some id ->
    exists n, h !! id = Some n /\ n_parent n = None;
  tr_root : forall id n, h !! id = Some n -> n_parent n = None -> tp = Some id
}.

Lemma prefix_bit_bit v i : bytes v -> bit (prefix_bit v i).
Proof. intros Hv. rewrite prefix_bit_spec by done. destruct addr_bit; [by right|by left]. Qed.

Lemma okp_match f n p :
  okp f n -> ip_prefix p -> prefix_match n p = true <-> covers_prefix n p.
Proof. intros (Hn & _) Hp. apply prefix_match_agree; by apply ip_wf. Qed.

Lemma covers_prefix_trans a b c :
  covers_prefix a b -> covers_prefix b c -> covers_prefix a c.
Proof.
  intros [L1 A1] [L2 A2]. split; [lia|].
  eapply agree_trans; [done|]. by eapply agree_le.
Qed.

Lemma below_covers n m b : below n m b -> covers_prefix n m.
Proof. intros (? & ? & _). split; [lia|done]. Qed.

(** The branching bit is shared by everything that extends [m]. *)
Lemma below_trans f n m k b :
  okp f n -> okp f m -> okp f k -> below n m b -> covers_prefix m k -> below n k b.
Proof.
  intros Hn Hm Hk (L1 & A1 & B1) [L2 A2]. split_and!; [lia| |].
  - eapply agree_trans; [done|]. eapply agree_le; [|done]. lia.
  - rewrite <- B1, !prefix_bit_spec by (apply Hm || apply Hk). f_equal. symmetry.
    apply A2. destruct Hn as (Hn & _). pose proof (ip_len n Hn). lia.
Qed.

Lemma covers_below f n p :
  okp f n -> okp f p -> covers_prefix n p -> prefixlen n < prefixlen p ->
  below n p (prefix_bit (val p) (prefixlen n)).
Proof. intros _ _ [_ A] L. by split_and!. Qed.

Lemma okp_inj f p q :
  okp f p -> okp f q -> prefixlen p = prefixlen q -> covers_prefix p q -> p = q.
Proof.
  intros (Hp & Mp & Fp) (Hq & Mq & Fq) L [_ A].
  apply masked_inj; try done. congruence.
Qed.

Lemma link_set_child b c n b' :
  bit b -> bit b' -> link (set_child b c n) b' = if b' =? b then c else link n b'.
Proof. intros [->| ->] [->| ->]; done. Qed.

Lemma set_child_fields b c n :
  n_p (set_child b c n) = n_p n /\ n_parent (set_child b c n) = n_parent n
  /\ n_lock (set_child b c n) = n_lock n /\ n_info (set_child b c n) = n_info n.
Proof. unfold set_child. by destruct (b =? 0). Qed.

(** Subtrees: [m] is [a] or has [a] as an ancestor. *)
Inductive sub (h : gmap nat route_node) (a : nat) : nat -> Prop :=
| sub_refl : sub h a a
| sub_step m nm q : h !! m = Some nm -> n_parent nm = Some q -> sub h a q -> sub h a m.

Section TreeFacts.
Context {f : Z} {h : gmap nat route_node} {tp : option nat} (T : tree f h tp).

Lemma tree_parent_below id n q :
  h !! id = Some n -> n_parent n = Some q ->
  exists m b, h !! q = Some m /\ bit b /\ link m b = Some id /\ below (n_p m) (n_p n) b.
Proof.
  intros Hn Hq. destruct (tr_parent f h tp T id n q Hn Hq) as (m & b & Hm & Hb & Hl).
  exists m, b. split_and!; try done.
  destruct (tr_link f h tp T q m b id Hm Hb Hl) as (n' & Hn' & _ & Hbel). congruence.
Qed.

(** Every node hangs below the top. *)
Lemma tree_rooted : forall k id n,
  h !! id = Some n -> (Z.to_nat (prefixlen (n_p n)) < k)%nat ->
  exists r, tp = Some r /\ sub h r id.
Proof.
  induction k as [|k IH]; intros id n Hn Hk; [lia|].
  destruct (n_parent n) as [q|] eqn:Hq.
  - destruct (tree_parent_below id n q Hn Hq) as (m & b & Hm & _ & _ & Hlt & _).
    destruct (tr_node f h tp T _ _ Hm) as (Him & _). pose proof (ip_len _ Him).
    destruct (IH q m Hm ltac:(lia)) as (r & Hr & Hs).
    exists r. split; [done|]. by eapply sub_step.
  - exists id. split; [by eapply tr_root|constructor].
Qed.

(** Everything in the subtree of [a] extends [a]; only [a] has its length. *)
Lemma sub_covers a m :
  sub h a m -> forall na nm, h !! a = Some na -> h !! m = Some nm ->
  covers_prefix (n_p na) (n_p nm)
  /\ (prefixlen (n_p nm) <= prefixlen (n_p na) -> m = a).
Proof.
  induction 1 as [|m nm' q Hm Hp Hs IH]; intros na nm Hna Hnm.
  - assert (na = nm) as -> by congruence. repeat split; lia || apply agree_refl.
  - assert (nm' = nm) as -> by congruence.
    destruct (tree_parent_below m nm q Hm Hp) as (nq & b & Hq & _ & _ & Hbel).
    destruct (IH na nq Hna Hq) as [Hc Hl]. split.
    + eapply covers_prefix_trans; [done|]. by eapply below_covers.
    + destruct Hbel as (Hlt & _), Hc as [? _]. intros. lia.
Qed.

(** A proper descendant is in the subtree of one of the children, on the
    side of its own branching bit. *)
Lemma sub_child a m :
  sub h a m -> forall na nm, h !! a = Some na -> h !! m = Some nm -> m <> a ->
  exists b c, bit b /\ link na b = Some c /\ sub h c m
              /\ prefix_bit (val (n_p nm)) (prefixlen (n_p na)) = b.
Proof.
  induction 1 as [|m nm' q Hm Hp Hs IH]; intros na nm Hna Hnm Hne; [done|].
  assert (nm' = nm) as -> by congruence.
  destruct (tree_parent_below m nm q Hm Hp) as (nq & b & Hq & Hb & Hl & Hbel).
  destruct (decide (q = a)) as [->|Hqa].
  - assert (nq = na) as -> by congruence. exists b, m.
    split_and!; [done|done|constructor|apply Hbel].
  - destruct (IH na nq Hna Hq Hqa) as (b' & c & Hb' & Hl' & Hs' & Hbit).
    exists b', c. split_and!; [done|done|by eapply sub_step|].
    destruct (sub_covers a q Hs na nq Hna Hq) as [Hcov Hlen].
    assert (below (n_p na) (n_p nq) b') as Hbq.
    { rewrite <- Hbit. eapply covers_below; [by eapply tr_node..|done|].
      apply Z.nle_gt. intros ?. by apply Hqa, Hlen. }
    eapply (below_trans f _ (n_p nq) (n_p nm)); [by eapply tr_node..|done|].
    by eapply below_covers.
Qed.
End TreeFacts.

(** ** Pointer surgery *)

(** A link points to one child only, and a child hangs on one link only. *)
Lemma tree_link_inj f h tp a na b a' na' b' c :
  tree f h tp -> h !! a = Some na -> h !! a' = Some na' -> bit b -> bit b' ->
  link na b = Some c -> link na' b' = Some c -> a = a' /\ b = b'.
Proof.
  intros T Ha Ha' Hb Hb' L L'.
  destruct (tr_link f h tp T a na b c Ha Hb L) as (m & Hm & Hp & _ & _ & B).
  destruct (tr_link f h tp T a' na' b' c Ha' Hb' L') as (m' & Hm' & Hp' & _ & _ & B').
  assert (m' = m) as -> by congruence. assert (a = a') as <- by congruence.
  assert (na' = na) as -> by congruence. split; congruence.
Qed.

Lemma tree_leaf f h tp h2 m nm b new nw :
  tree f h tp -> h !! m = Some nm -> h !! new = None -> bit b -> link nm b = None ->
  okp f (n_p nw) -> n_parent nw = Some m -> l_left nw = None -> l_right nw = None ->
  below (n_p nm) (n_p nw) b ->
  h2 !! new = Some nw -> h2 !! m = Some (set_child b (Some new) nm) ->
  (forall id, id <> new -> id <> m -> h2 !! id = h !! id) ->
  tree f h2 tp.
Proof.
  intros T Hm Hnew Hb Hnone Hok Hpar Hl Hr Hbel H2n H2m Hoth.
  assert (m <> new) as Hmn by congruence.
  assert (forall b, link nw b = None) as Hlw by (intros; unfold link; by case_bool).
  pose proof (set_child_fields b (Some new) nm) as (Fp & Fq & _).
  assert (forall id n, h2 !! id = Some n -> id <> new ->
    exists n0, h !! id = Some n0 /\ n_p n = n_p n0 /\ n_parent n = n_parent n0) as Hback.
  { intros id n Hid Hne. destruct (decide (id = m)) as [->|Him].
    - rewrite H2m in Hid. injection Hid as <-. eauto.
    - rewrite Hoth in Hid by done. eauto. }
  assert (forall id n0, h !! id = Some n0 ->
    exists n, h2 !! id = Some n /\ n_p n = n_p n0 /\ n_parent n = n_parent n0
    /\ forall b' c, bit b' -> link n0 b' = Some c -> link n b' = Some c) as Hfwd.
  { intros id n0 Hid. assert (id <> new) by congruence.
    destruct (decide (id = m)) as [->|Him].
    - assert (n0 = nm) as -> by congruence. eexists; split_and!; [done..|].
      intros b' c Hb' Hlk. rewrite link_set_child by done. case_bool; congruence.
    - exists n0. rewrite Hoth by done. done. }
  split.
  - intros id n Hid. destruct (decide (id = new)) as [->|Hne]; [congruence|].
    destruct (Hback id n Hid Hne) as (n0 & H0 & -> & _). by eapply tr_node.
  - intros id n b' c Hid Hb' Hlk. destruct (decide (id = new)) as [->|Hne].
    { rewrite H2n in Hid. injection Hid as <-. by rewrite Hlw in Hlk. }
    destruct (decide (id = m)) as [->|Him].
    + rewrite H2m in Hid. injection Hid as <-. rewrite link_set_child in Hlk by done.
      rewrite Fp. destruct (Z.eqb_spec b' b) as [->|Hbb].
      * injection Hlk as <-. eauto.
      * destruct (tr_link f h tp T m nm b' c Hm Hb' Hlk) as (k & Hk & Kp & Kb).
        destruct (Hfwd c k Hk) as (k2 & ? & E1 & E2 & _).
        exists k2. rewrite E1, E2. done.
    + rewrite Hoth in Hid by done.
      destruct (tr_link f h tp T id n b' c Hid Hb' Hlk) as (k & Hk & Kp & Kb).
      destruct (Hfwd c k Hk) as (k2 & ? & E1 & E2 & _).
      exists k2. rewrite E1, E2. done.
  - intros id n q Hid Hq. destruct (decide (id = new)) as [->|Hne].
    + assert (n = nw) as -> by congruence. assert (q = m) as -> by congruence.
      eexists _, b. split_and!; [done|done|]. rewrite link_set_child, Z.eqb_refl by done. done.
    + destruct (Hback id n Hid Hne) as (n0 & H0 & _ & E). rewrite E in Hq.
      destruct (tr_parent f h tp T id n0 q H0 Hq) as (k & b' & Hk & Hb' & Lk).
      destruct (Hfwd q k Hk) as (k2 & ? & _ & _ & Hlk). eauto 6.
  - intros id Hid. destruct (tr_top f h tp T id Hid) as (n & Hn & Hp).
    destruct (Hfwd id n Hn) as (n2 & ? & _ & E & _). exists n2. by rewrite E.
  - intros id n Hid Hp. destruct (decide (id = new)) as [->|Hne]; [congruence|].
    destruct (Hback id n Hid Hne) as (n0 & H0 & _ & E). rewrite E in Hp.
    by eapply tr_root.
Qed.

Lemma tree_leaf_top f h h2 new nw :
  tree f h None -> okp f (n_p nw) -> n_parent nw = None ->
  l_left nw = None -> l_right nw = None ->
  h2 !! new = Some nw -> (forall id, id <> new -> h2 !! id = h !! id) ->
  tree f h2 (Some new).
Proof.
  intros T Hok Hpar Hl Hr H2 Hoth.
  assert (forall id, h !! id = None) as Hempty.
  { intros id. destruct (h !! id) as [n|] eqn:E; [|done].
    destruct (tree_rooted T _ id n E (Nat.lt_succ_diag_r _)) as (r & ? & _). done. }
  assert (forall id n, h2 !! id = Some n -> id = new /\ n = nw) as Honly.
  { intros id n Hid. destruct (decide (id = new)) as [->|Hne]; [split; congruence|].
    rewrite Hoth, Hempty in Hid; done. }
  assert (forall b, link nw b = None) as Hlw by (intros; unfold link; by case_bool).
  split.
  - intros id n Hid. by destruct (Honly id n Hid) as [_ ->].
  - intros id n b c Hid Hb Hlk. destruct (Honly id n Hid) as [_ ->].
    by rewrite Hlw in Hlk.
  - intros id n q Hid Hq. destruct (Honly id n Hid) as [_ ->]. congruence.
  - intros id [= <-]. eauto.
  - intros id n Hid _. by destruct (Honly id n Hid) as [-> _].
Qed.

(** Where a node hangs: in a link of its parent, or at the top. *)
Definition slot (h : gmap nat route_node) (tp : option nat) (up : option nat)
    (c : option nat) (b : Z) : Prop :=
  match up with
  | None => tp = c
  | Some m => exists nm, h !! m = Some nm /\ bit b /\ link nm b = c
  end.

(** [up]'s slot is redirected to [c]. *)
Definition relinked (h h2 : gmap nat route_node) (tp tp2 : option nat)
    (up : option nat) (c : option nat) (b : Z) : Prop :=
  match up with
  | None => tp2 = c
  | Some m => tp2 = tp /\
      exists nm, h !! m = Some nm /\ h2 !! m = Some (set_child b c nm)
  end.

Section Splice.
Context {f : Z} {h h2 : gmap nat route_node} {tp tp2 : option nat}
  (T : tree f h tp) (node new : nat) (nn nw : route_node) (b b' : Z).
Hypothesis Hnode : h !! node = Some nn.
Hypothesis Hnew : h !! new = None.
Hypothesis Hok : okp f (n_p nw).
Hypothesis Hup : n_parent nw = n_parent nn.
Hypothesis Hb' : bit b'.
Hypothesis Hlink : forall c, bit c -> link nw c = if c =? b' then Some node else None.
Hypothesis Hbel : below (n_p nw) (n_p nn) b'.
Hypothesis Hslot : slot h tp (n_parent nn) (Some node) b.
Hypothesis Hrel : relinked h h2 tp tp2 (n_parent nn) (Some new) b.
Hypothesis Habove : forall m nm, n_parent nn = Some m -> h !! m = Some nm ->
  below (n_p nm) (n_p nw) b.
Hypothesis H2new : h2 !! new = Some nw.
Hypothesis H2node : h2 !! node = Some (set_parent (Some new) nn).
Hypothesis Hoth : forall id, id <> new -> id <> node -> n_parent nn <> Some id ->
  h2 !! id = h !! id.

Lemma splice_up m :
  n_parent nn = Some m ->
  tp2 = tp /\ exists nm, h !! m = Some nm /\ bit b /\ link nm b = Some node
                        /\ h2 !! m = Some (set_child b (Some new) nm).
Proof.
  pose proof Hslot as HS. pose proof Hrel as HR. unfold slot, relinked in HS, HR.
  intros E. rewrite E in HS, HR. destruct HR as (-> & nm & Hm & Hm2), HS as (nm' & Hm' & ? & ?).
  assert (nm' = nm) as -> by congruence. eauto 7.
Qed.

Lemma splice_top : n_parent nn = None -> tp = Some node /\ tp2 = Some new.
Proof.
  pose proof Hslot as HS. pose proof Hrel as HR. unfold slot, relinked in HS, HR.
  intros E. by rewrite E in HS, HR.
Qed.

(** A node that is neither new nor the lower end of the spliced edge. *)
Lemma splice_other id n :
  id <> new -> id <> node -> h2 !! id = Some n ->
  exists n0, h !! id = Some n0 /\ n_p n = n_p n0 /\ n_parent n = n_parent n0
  /\ (forall c, bit c -> link n c = link n0 c \/
        (n_parent nn = Some id /\ c = b /\ link n c = Some new)).
Proof.
  intros Hn1 Hn2 Hid.
  destruct (decide (n_parent nn = Some id)) as [E|E].
  - destruct (splice_up id E) as (_ & nm & Hm & Hb & _ & Hm2).
    assert (n = set_child b (Some new) nm) as -> by congruence.
    destruct (set_child_fields b (Some new) nm) as (Fp & Fq & _).
    exists nm. split_and!; try done. intros c Hc. rewrite link_set_child by done.
    destruct (Z.eqb_spec c b); [right|left]; done.
  - rewrite Hoth in Hid by done. eauto 6.
Qed.

Lemma splice_kept id n0 :
  h !! id = Some n0 ->
  exists n, h2 !! id = Some n /\ n_p n = n_p n0
  /\ n_parent n = (if decide (id = node) then Some new else n_parent n0)
  /\ (forall c d, bit c -> link n0 c = Some d -> d <> node -> link n c = Some d).
Proof.
  intros Hid. assert (id <> new) by congruence.
  destruct (decide (id = node)) as [->|Hne].
  - assert (n0 = nn) as -> by congruence. eexists. split_and!; [done..|].
    intros c d Hc Hl _. by destruct Hc as [->| ->].
  - destruct (decide (n_parent nn = Some id)) as [E|E].
    + destruct (splice_up id E) as (_ & nm & Hm & Hb & Hl & Hm2).
      assert (n0 = nm) as -> by congruence.
      destruct (set_child_fields b (Some new) nm) as (Fp & Fq & _).
      eexists; split_and!; [done..|]. intros c d Hc Hcd Hd.
      rewrite link_set_child by done. destruct (Z.eqb_spec c b); congruence.
    + exists n0. rewrite Hoth by done. done.
Qed.

Lemma splice_link id n c d :
  h2 !! id = Some n -> bit c -> link n c = Some d ->
  exists m, h2 !! d = Some m /\ n_parent m = Some id /\ below (n_p n) (n_p m) c.
Proof.
  assert (forall d k id0 n1 c0, h !! d = Some k -> n_parent k = Some id0 ->
    below n1 (n_p k) c0 -> d <> node ->
    exists m, h2 !! d = Some m /\ n_parent m = Some id0 /\ below n1 (n_p m) c0) as Keep.
  { intros d0 k id0 n1 c0 Hk Kp Kb Hd. destruct (splice_kept d0 k Hk) as (k2 & ? & E1 & E2 & _).
    exists k2. rewrite decide_False in E2 by done. rewrite E1, E2. done. }
  intros Hid Hc Hl. destruct (decide (id = new)) as [->|Hn1].
  - assert (n = nw) as -> by congruence. rewrite Hlink in Hl by done.
    destruct (Z.eqb_spec c b') as [->|]; [|done]. injection Hl as <-. eauto.
  - destruct (decide (id = node)) as [->|Hn2].
    + assert (n = set_parent (Some new) nn) as -> by congruence.
      change (link (set_parent (Some new) nn) c) with (link nn c) in Hl. simpl.
      destruct (tr_link f h tp T node nn c d Hnode Hc Hl) as (k & Hk & Kp & Kb).
      eapply Keep; try done. intros ->.
      assert (k = nn) as -> by congruence. destruct Kb as (? & _). lia.
    + destruct (splice_other id n Hn1 Hn2 Hid) as (n0 & H0 & Ep & _ & Hlk).
      rewrite Ep. destruct (Hlk c Hc) as [E|(E1 & -> & E2)].
      * rewrite E in Hl.
        destruct (tr_link f h tp T id n0 c d H0 Hc Hl) as (k & Hk & Kp & Kb).
        destruct (decide (d = node)) as [->|]; [|by eapply Keep].
        (* the parent of [node] now points to [new] *)
        assert (k = nn) as -> by congruence.
        destruct (splice_up id Kp) as (_ & nm & Hm & Hb & Hl' & Hm2).
        assert (nm = n0) as -> by congruence.
        destruct (tree_link_inj f h tp id n0 c id n0 b node T) as [_ ->]; try done.
        assert (n = set_child b (Some new) n0) as -> by congruence.
        rewrite link_set_child, Z.eqb_refl in E by done. congruence.
      * assert (d = new) as -> by congruence. exists nw. split_and!; [done| |].
        -- by rewrite Hup.
        -- by eapply Habove.
Qed.

Lemma tree_splice : tree f h2 tp2.
Proof.
  split.
  - intros id n Hid. destruct (decide (id = new)) as [->|Hn1]; [congruence|].
    destruct (decide (id = node)) as [->|Hn2].
    + rewrite H2node in Hid. injection Hid as <-. simpl. by eapply tr_node.
    + destruct (splice_other id n Hn1 Hn2 Hid) as (n0 & H0 & -> & _). by eapply tr_node.
  - intros. by eapply splice_link.
  - intros id n q Hid Hq. destruct (decide (id = new)) as [->|Hn1].
    + assert (n = nw) as -> by congruence. rewrite Hup in Hq.
      destruct (splice_up q Hq) as (_ & nm & Hm & Hb & Hl & Hm2).
      eexists _, b. split_and!; [done|done|]. by rewrite link_set_child, Z.eqb_refl by done.
    + destruct (decide (id = node)) as [->|Hn2].
      * rewrite H2node in Hid. injection Hid as <-. injection Hq as <-.
        exists nw, b'. split_and!; try done. by rewrite Hlink, Z.eqb_refl.
      * destruct (splice_other id n Hn1 Hn2 Hid) as (n0 & H0 & _ & E & _).
        rewrite E in Hq. destruct (tr_parent f h tp T id n0 q H0 Hq) as (k & c & Hk & Hc & Lk).
        destruct (splice_kept q k Hk) as (k2 & ? & _ & _ & Hlk). eauto 7.
  - intros id Hid. destruct (option_cases (n_parent nn)) as [E|[m E]].
    + destruct (splice_top E) as [_ Et]. rewrite Et in Hid. injection Hid as <-.
      exists nw. by rewrite Hup.
    + destruct (splice_up m E) as [Et _]. rewrite Et in Hid. destruct (tr_top f h tp T id Hid) as (n & Hn & Hp).
      destruct (splice_kept id n Hn) as (n2 & ? & _ & E2 & _). exists n2.
      rewrite E2. case_decide; [|by rewrite Hp]. subst. congruence.
  - intros id n Hid Hp. destruct (decide (id = new)) as [->|Hn1].
    + assert (n = nw) as -> by congruence. rewrite Hup in Hp. by apply splice_top.
    + destruct (decide (id = node)) as [->|Hn2].
      * rewrite H2node in Hid. injection Hid as <-. done.
      * destruct (splice_other id n Hn1 Hn2 Hid) as (n0 & H0 & _ & E & _).
        rewrite E in Hp. pose proof (tr_root f h tp T id n0 H0 Hp) as Ht.
        destruct (option_cases (n_parent nn)) as [E'|[m E']].
        -- destruct (splice_top E'). congruence.
        -- by destruct (splice_up m E') as [-> _].
Qed.
End Splice.

Section Unlink.
Context {f : Z} {h h2 : gmap nat route_node} {tp tp2 : option nat}
  (T : tree f h tp) (id : nat) (n : route_node) (child : option nat) (b : Z).
Hypothesis Hid : h !! id = Some n.
Hypothesis Hone : forall c, bit c -> link n c = None \/ link n c = child.
Hypothesis Hchild : forall c, child = Some c ->
  exists bc nc, bit bc /\ link n bc = Some c /\ h !! c = Some nc
                /\ h2 !! c = Some (set_parent (n_parent n) nc).
Hypothesis Hslot : slot h tp (n_parent n) (Some id) b.
Hypothesis Hrel : relinked h h2 tp tp2 (n_parent n) child b.
Hypothesis H2id : h2 !! id = None.
Hypothesis Hoth : forall x, x <> id -> child <> Some x -> n_parent n <> Some x ->
  h2 !! x = h !! x.

Lemma unlink_up m :
  n_parent n = Some m ->
  tp2 = tp /\ exists nm, h !! m = Some nm /\ bit b /\ link nm b = Some id
                        /\ h2 !! m = Some (set_child b child nm).
Proof.
  pose proof Hslot as HS. pose proof Hrel as HR. unfold slot, relinked in HS, HR.
  intros E. rewrite E in HS, HR. destruct HR as (-> & nm & Hm & Hm2), HS as (nm' & Hm' & ? & ?).
  assert (nm' = nm) as -> by congruence. eauto 7.
Qed.

Lemma unlink_top : n_parent n = None -> tp = Some id /\ tp2 = child.
Proof.
  pose proof Hslot as HS. pose proof Hrel as HR. unfold slot, relinked in HS, HR.
  intros E. by rewrite E in HS, HR.
Qed.

(** What a surviving node looks like. *)
Lemma unlink_back x n2 :
  h2 !! x = Some n2 ->
  exists n0, h !! x = Some n0 /\ x <> id /\ n_p n2 = n_p n0
  /\ n_parent n2 = (if decide (child = Some x) then n_parent n else n_parent n0)
  /\ (forall c, bit c -> link n2 c =
        if decide (n_parent n = Some x /\ c = b) then child else link n0 c).
Proof.
  intros Hx. assert (x <> id) as Hne by congruence.
  destruct (decide (child = Some x)) as [E|E].
  - destruct (Hchild x E) as (bc & nc & Hbc & Hl & Hc & Hc2).
    assert (n2 = set_parent (n_parent n) nc) as -> by congruence.
    exists nc. split_and!; try done. intros c Hc'.
    rewrite decide_False; [done|]. intros [Hp _].
    (* the parent of [id] is shorter than [id], its child is longer *)
    destruct (unlink_up x Hp) as (_ & nm & Hm & Hb & Hlm & _).
    destruct (tr_link f h tp T x nm b id Hm Hb Hlm) as (? & E1 & _ & L1 & _).
    destruct (tr_link f h tp T id n bc x Hid Hbc Hl) as (? & E2 & _ & L2 & _).
    simplify_eq. lia.
  - destruct (decide (n_parent n = Some x)) as [Ep|Ep].
    + destruct (unlink_up x Ep) as (_ & nm & Hm & Hb & Hlm & Hm2).
      assert (n2 = set_child b child nm) as -> by congruence.
      destruct (set_child_fields b child nm) as (Fp & Fq & _).
      exists nm. split_and!; try done. intros c Hc. rewrite link_set_child by done.
      destruct (Z.eqb_spec c b); [rewrite decide_True by done|rewrite decide_False by tauto];
        done.
    + rewrite Hoth in Hx by done. exists n2. split_and!; try done.
      intros c Hc. by rewrite decide_False by tauto.
Qed.

Lemma unlink_fwd x n0 : h !! x = Some n0 -> x <> id -> is_Some (h2 !! x).
Proof.
  intros Hx Hne. destruct (decide (child = Some x)) as [E|E].
  - destruct (Hchild x E) as (? & ? & _ & _ & _ & ->). eauto.
  - destruct (decide (n_parent n = Some x)) as [Ep|Ep].
    + destruct (unlink_up x Ep) as (_ & nm & _ & _ & _ & ->). eauto.
    + rewrite Hoth by done. eauto.
Qed.

(** The child keeps extending the removed node's parent, on the same side. *)
Lemma unlink_child_below m nm c nc :
  n_parent n = Some m -> h !! m = Some nm -> child = Some c -> h !! c = Some nc ->
  below (n_p nm) (n_p nc) b.
Proof.
  intros Hp Hm Hc Hnc. destruct (unlink_up m Hp) as (_ & nm' & Hm' & Hb & Hl & _).
  assert (nm' = nm) as -> by congruence.
  destruct (Hchild c Hc) as (bc & nc' & Hbc & Hlc & Hc' & _).
  destruct (tr_link f h tp T m nm b id Hm Hb Hl) as (? & E1 & _ & B1).
  destruct (tr_link f h tp T id n bc c Hid Hbc Hlc) as (? & E2 & _ & B2).
  simplify_eq. eapply (below_trans f _ (n_p n)); [by eapply tr_node..|done|]. by eapply below_covers.
Qed.

Lemma unlink_link x n2 c d :
  h2 !! x = Some n2 -> bit c -> link n2 c = Some d ->
  exists m, h2 !! d = Some m /\ n_parent m = Some x /\ below (n_p n2) (n_p m) c.
Proof.
  intros Hx Hc Hl. destruct (unlink_back x n2 Hx) as (n0 & H0 & Hne & Ep & _ & Hlk).
  rewrite Hlk in Hl by done. rewrite Ep. case_decide as Hd.
  - destruct Hd as [Hp ->]. destruct (Hchild d Hl) as (bc & nc & _ & _ & Hnc & Hnc2).
    exists (set_parent (n_parent n) nc). split_and!; [done|done|].
    by apply (unlink_child_below x n0 d nc).
  - destruct (tr_link f h tp T x n0 c d H0 Hc Hl) as (k & Hk & Kp & Kb).
    assert (d <> id) as Hdi.
    { intros ->. apply Hd. assert (k = n) as -> by congruence.
      split; [done|]. destruct (unlink_up x Kp) as (_ & nm & Hm & Hb & Hlm & _).
      simplify_eq. by destruct (tree_link_inj f h tp x n0 c x n0 b id T). }
    destruct (unlink_fwd d k Hk Hdi) as [k2 Hk2].
    destruct (unlink_back d k2 Hk2) as (k' & Hk' & _ & E1 & E2 & _).
    assert (k' = k) as -> by congruence. exists k2. rewrite E1, E2.
    split_and!; [done| |done]. case_decide as Hcd; [|done].
    destruct (Hchild d Hcd) as (bc & nc & Hbc & Hlc & _).
    destruct (tree_link_inj f h tp x n0 c id n bc d T) as [? _]; done.
Qed.

Lemma tree_unlink : tree f h2 tp2.
Proof.
  split.
  - intros x n2 Hx. destruct (unlink_back x n2 Hx) as (n0 & H0 & _ & -> & _).
    by eapply tr_node.
  - intros. by eapply unlink_link.
  - intros x n2 q Hx Hq. destruct (unlink_back x n2 Hx) as (n0 & H0 & Hne & _ & E & _).
    rewrite E in Hq. case_decide as Hcx.
    + destruct (unlink_up q Hq) as (_ & nm & Hm & Hb & _ & Hm2).
      eexists _, b. split_and!; [done|done|]. by rewrite link_set_child, Z.eqb_refl by done.
    + destruct (tr_parent f h tp T x n0 q H0 Hq) as (k & c & Hk & Hc & Lk).
      assert (q <> id) as Hqi.
      { intros ->. simplify_eq. destruct (Hone c Hc); congruence. }
      destruct (unlink_fwd q k Hk Hqi) as [k2 Hk2].
      destruct (unlink_back q k2 Hk2) as (k' & Hk' & _ & _ & _ & Hlk).
      simplify_eq. exists k2, c. split_and!; [done|done|]. rewrite Hlk by done.
      rewrite decide_False; [done|]. intros [Hpq ->].
      destruct (unlink_up q Hpq) as (_ & nm & Hm & Hb & Hlm & _). congruence.
  - intros x Hx. destruct (option_cases (n_parent n)) as [E|[m E]].
    + destruct (unlink_top E) as [_ Et]. rewrite Et in Hx.
      destruct (Hchild x Hx) as (bc & nc & _ & _ & _ & Hx2).
      eexists. split; [done|]. done.
    + destruct (unlink_up m E) as [Et _]. rewrite Et in Hx.
      destruct (tr_top f h tp T x Hx) as (n0 & Hn & Hp).
      assert (x <> id) as Hne by congruence.
      destruct (unlink_fwd x n0 Hn Hne) as [n2 Hn2].
      destruct (unlink_back x n2 Hn2) as (n0' & H0 & _ & _ & E2 & _).
      assert (n0' = n0) as -> by congruence. exists n2. split; [done|]. rewrite E2. case_decide as Hcx; [|done].
      destruct (Hchild x Hcx) as (bc & nc & Hbc & Hlc & Hnc & _).
      destruct (tr_link f h tp T id n bc x Hid Hbc Hlc) as (? & ? & ? & _). congruence.
  - intros x n2 Hx Hp. destruct (unlink_back x n2 Hx) as (n0 & H0 & Hne & _ & E & _).
    rewrite E in Hp. case_decide as Hcx.
    + destruct (unlink_top Hp) as [_ ->]. done.
    + pose proof (tr_root f h tp T x n0 H0 Hp) as Ht.
      destruct (option_cases (n_parent n)) as [E'|[m E']].
      * destruct (unlink_top E'). congruence.
      * by destruct (unlink_up m E') as [-> _].
Qed.
End Unlink.
