(* ===== verification/TableOps.v ===== *)
(** * Theorems on the operations of the routing table

    Longest-prefix match, exact lookup, insertion and release of nodes, each
    proved from the tree invariant of TableFacts.v. *)

From stdpp Require Import gmap.
From S2P Require Import Prelude Prefix Table TableFacts.

(** ** The invariant of a route table *)

Record wf_table (f : Z) (t : route_table) : Prop := {
  wt_tree : tree f (heap t) (top t);
  wt_hash : NoDup (hash t) /\ forall id, id ∈ hash t <-> is_Some (heap t !! id);
  wt_count : count t = u64 (Z.of_nat (size (heap t)));
  wt_fresh : forall id, is_Some (heap t !! id) -> (id < next_addr t)%nat;
  wt_lock : forall id n, heap t !! id = Some n -> 0 <= n_lock n < 4294967296;
  (* a node nobody holds is kept only to branch *)
  wt_stub : forall id n, heap t !! id = Some n -> n_lock n = 0 ->
            is_Some (l_left n) /\ is_Some (l_right n)
}.

(** No reference count is at its maximum. *)
Definition lock_room (t : route_table) : Prop :=
  forall id n, heap t !! id = Some n -> n_lock n + 1 < 4294967296.

(** [t] routes prefix [p] to user data [x]. *)
Definition has_route (t : route_table) (p : prefix) (x : Z) : Prop :=
  exists id n, heap t !! id = Some n /\ n_p n = p /\ n_info n = x /\ x <> 0.

Lemma deref_Some t id n : heap t !! id = Some n -> deref t id = Ret n.
Proof. intros H. unfold deref. by rewrite H. Qed.
#[export] Hint Resolve deref_Some : frr.

(** ** Walking down *)

Section Walk.
Context {f : Z} {t : route_table} (T : tree f (heap t) (top t)).
Context (p : prefix) (Hp : ip_prefix p).

Definition visits (node : option nat) (m : nat) : Prop :=
  exists id, node = Some id /\ sub (heap t) id m.

(** Every node lies below the top. *)
Lemma visits_top m nm : heap t !! m = Some nm -> visits (top t) m.
Proof.
  intros Hm. destruct (tree_rooted T _ m nm Hm (Nat.lt_succ_diag_r _)) as (r & ? & ?).
  by exists r.
Qed.

(** One step of a walk: a node that covers [p] is the current one or is found
    through the link the walk follows. *)
Lemma visits_step id n m nm :
  heap t !! id = Some n -> sub (heap t) id m -> heap t !! m = Some nm ->
  covers_prefix (n_p nm) p ->
  m = id \/ visits (link n (prefix_bit (val p) (prefixlen (n_p n)))) m.
Proof.
  intros Hn Hs Hm Hc. destruct (decide (m = id)) as [->|Hne]; [by left|right].
  destruct (sub_child T id m Hs n nm Hn Hm Hne) as (b & c & Hb & Hl & Hs' & Hbit).
  exists c. split; [|done]. rewrite <- Hl. f_equal. rewrite <- Hbit.
  destruct (sub_covers T id m Hs n nm Hn Hm) as [[Hle _] Hlen].
  pose proof (tr_node _ _ _ T _ _ Hm) as (Hip & _).
  pose proof (tr_node _ _ _ T _ _ Hn) as (Hin & _).
  rewrite !prefix_bit_spec by (apply Hip || apply Hp). f_equal. symmetry.
  apply Hc. pose proof (ip_len _ Hin). destruct (Z.le_gt_cases (prefixlen (n_p nm)) (prefixlen (n_p n)));
    [|lia]. exfalso. by apply Hne, Hlen.
Qed.

Lemma visits_covers id n m nm :
  heap t !! id = Some n -> sub (heap t) id m -> heap t !! m = Some nm ->
  covers_prefix (n_p nm) p -> covers_prefix (n_p n) p.
Proof.
  intros Hn Hs Hm Hc. eapply covers_prefix_trans; [|done].
  by apply (sub_covers T id m Hs n nm Hn Hm).
Qed.

Lemma test_covers id n :
  heap t !! id = Some n ->
  (prefixlen (n_p n) <=? prefixlen p) && prefix_match (n_p n) p = true
  <-> covers_prefix (n_p n) p.
Proof.
  intros Hn. pose proof (tr_node _ _ _ T _ _ Hn) as Hok.
  rewrite andb_true_iff, Z.leb_le, (okp_match f) by done.
  unfold covers_prefix. tauto.
Qed.

Lemma child_deeper id n c :
  heap t !! id = Some n -> link n (prefix_bit (val p) (prefixlen (n_p n))) = Some c ->
  exists k, heap t !! c = Some k /\ prefixlen (n_p n) < prefixlen (n_p k).
Proof.
  intros Hn Hl.
  destruct (tr_link _ _ _ T id n _ c Hn (prefix_bit_bit _ _ (ip_bytes _ Hp)) Hl)
    as (k & Hk & _ & Hlt & _). eauto.
Qed.

(** The candidate of [route_node_match]. *)
Definition best_so_far (node matched : option nat) : Prop :=
  (forall r, matched = Some r -> exists nr, heap t !! r = Some nr
     /\ n_info nr <> 0 /\ covers_prefix (n_p nr) p
     /\ (forall id n, node = Some id -> heap t !! id = Some n ->
           prefixlen (n_p nr) < prefixlen (n_p n)))
  /\ (forall m nm, heap t !! m = Some nm -> n_info nm <> 0 ->
        covers_prefix (n_p nm) p -> visits node m \/
        exists r nr, matched = Some r /\ heap t !! r = Some nr
                     /\ prefixlen (n_p nm) <= prefixlen (n_p nr)).

Definition is_best (matched : option nat) : Prop := best_so_far None matched.

Lemma best_done node matched :
  best_so_far node matched ->
  (forall id n, node = Some id -> heap t !! id = Some n -> ~ covers_prefix (n_p n) p) ->
  (forall id, node = Some id -> is_Some (heap t !! id)) ->
  is_best matched.
Proof.
  intros [B1 B2] Hstop Hin. split.
  - intros r Hr. destruct (B1 r Hr) as (nr & ? & ? & ? & _). by exists nr.
  - intros m nm Hm Hi Hc. destruct (B2 m nm Hm Hi Hc) as [(id & Hn & Hs)|]; [|by right].
    destruct (Hin id Hn) as [n Hid]. exfalso. eapply Hstop; [done|done|].
    by eapply visits_covers.
Qed.

Lemma best_step id n matched :
  heap t !! id = Some n -> covers_prefix (n_p n) p ->
  best_so_far (Some id) matched ->
  best_so_far (link n (prefix_bit (val p) (prefixlen (n_p n))))
    (if negb (n_info n =? 0) then Some id else matched).
Proof.
  intros Hn Hc [B1 B2]. destruct (Z.eqb_spec (n_info n) 0) as [Hz|Hz]; simpl.
  - split.
    + intros r Hr. destruct (B1 r Hr) as (nr & ? & ? & ? & Hlt). exists nr.
      split_and!; try done. intros c k Hl Hk.
      destruct (child_deeper id n c Hn Hl) as (k' & ? & ?). simplify_eq.
      specialize (Hlt id n eq_refl Hn). lia.
    + intros m nm Hm Hi Hcm. destruct (B2 m nm Hm Hi Hcm) as [(i & [= <-] & Hs)|]; [|by right].
      destruct (visits_step id n m nm Hn Hs Hm Hcm) as [->|]; [|by left].
      by simplify_eq.
  - split.
    + intros r [= <-]. exists n. split_and!; try done. intros c k Hl Hk.
      destruct (child_deeper id n c Hn Hl) as (k' & ? & ?). by simplify_eq.
    + intros m nm Hm Hi Hcm. destruct (B2 m nm Hm Hi Hcm) as [(i & [= <-] & Hs)|Hr].
      * destruct (visits_step id n m nm Hn Hs Hm Hcm) as [->|]; [right|by left].
        exists id, n. split_and!; try done. simplify_eq. lia.
      * right. exists id, n. split_and!; [done..|].
        destruct Hr as (r & nr & Hr & Hnr & Hle).
        destruct (B1 r Hr) as (nr' & ? & _ & _ & Hlt). simplify_eq.
        specialize (Hlt id n eq_refl Hn). lia.
Qed.

Lemma best_exact id n matched :
  heap t !! id = Some n -> covers_prefix (n_p n) p ->
  prefixlen (n_p n) = prefixlen p -> best_so_far (Some id) matched ->
  is_best (if negb (n_info n =? 0) then Some id else matched).
Proof.
  intros Hn Hc Hl HB. pose proof (best_step id n matched Hn Hc HB) as HB'.
  eapply best_done; [exact HB'| |].
  - intros c k Hlk Hk [Hle _]. destruct (child_deeper id n c Hn Hlk) as (k' & ? & ?).
    simplify_eq. lia.
  - intros c Hlk. destruct (child_deeper id n c Hn Hlk) as (k & ? & _). eauto.
Qed.

Lemma match_loop_spec fuel : forall node matched,
  (forall id, node = Some id -> exists n, heap t !! id = Some n
     /\ (Z.to_nat (prefixlen p + 1 - prefixlen (n_p n)) < fuel)%nat) ->
  (0 < fuel)%nat -> best_so_far node matched ->
  exists r, match_loop fuel t p node matched = Ret r /\ is_best r.
Proof.
  induction fuel as [|fuel IH]; intros node matched Hfuel H0 HB; [lia|]. simpl.
  destruct node as [id|]; [|by exists matched].
  destruct (Hfuel id eq_refl) as (n & Hn & Hf). rewrite (deref_Some t id n Hn). simpl.
  destruct ((prefixlen (n_p n) <=? prefixlen p) && prefix_match (n_p n) p) eqn:E.
  - rewrite (test_covers id n Hn) in E.
    destruct (Z.eqb_spec (prefixlen (n_p n)) (prefixlen p)) as [El|El].
    + eexists. split; [done|]. by apply best_exact.
    + destruct E as [Hle Hag]. apply IH; [|lia|by apply best_step].
      intros c Hl. destruct (child_deeper id n c Hn Hl) as (k & Hk & Hlt).
      exists k. split; [done|]. lia.
  - eexists. split; [done|]. eapply best_done; [done| |].
    + intros i k [= <-] Hk Hc. rewrite <- (test_covers id k Hk) in Hc. congruence.
    + intros i [= <-]. eauto.
Qed.
End Walk.

Lemma best_start {f t p} (T : tree f (heap t) (top t)) : best_so_far (t:=t) p (top t) None.
Proof.
  split; [done|]. intros m nm Hm _ _. left. by eapply visits_top.
Qed.

Lemma walk_start {f t} p (T : tree f (heap t) (top t)) id :
  top t = Some id -> exists n, heap t !! id = Some n
    /\ (Z.to_nat (prefixlen p + 1 - prefixlen (n_p n)) < walk_fuel p)%nat.
Proof.
  intros Hid. destruct (tr_top _ _ _ T id Hid) as (n & Hn & _). exists n. split; [done|].
  destruct (tr_node _ _ _ T _ _ Hn) as (Hip & _). pose proof (ip_len _ Hip).
  unfold walk_fuel. lia.
Qed.

(** The result of [route_node_match] and how it changes the table. *)
Lemma route_node_match_spec f t p :
  wf_table f t -> ip_prefix p ->
  exists r, is_best (t:=t) p r /\
    match r with
    | None => route_node_match t p = Ret (None, t)
    | Some id => exists n, heap t !! id = Some n /\ route_node_match t p
                 = Ret (Some id, upd id (set_lock (u32 (n_lock n + 1))) t)
    end.
Proof.
  intros W Hp. pose proof (wt_tree f t W) as T.
  destruct (match_loop_spec T p Hp (walk_fuel p) (top t) None) as (r & Er & HB).
  { intros id. by apply (walk_start p T). }
  { unfold walk_fuel. lia. }
  { by apply (best_start (f:=f)). }
  exists r. split; [done|]. unfold route_node_match. rewrite Er. simpl.
  destruct r as [id|]; [|done]. destruct HB as [B1 _].
  destruct (B1 id eq_refl) as (n & Hn & _). exists n. split; [done|].
  unfold route_lock_node. by rewrite (deref_Some t id n Hn).
Qed.

(** C13: longest-prefix match. On a well-formed table and for an IP prefix [p],
    [route_node_match] returns; if some route covers [p] it returns a node carrying
    a route that covers [p] and is at least as long as every other such route, with
    its reference count raised and nothing else changed; otherwise it returns NULL
    and leaves the table alone. *)
Theorem route_node_match_longest f t p :
  wf_table f t -> ip_prefix p ->
  (exists id n, heap t !! id = Some n /\ n_info n <> 0 /\ covers_prefix (n_p n) p
     /\ (forall q x, has_route t q x -> covers_prefix q p ->
                     prefixlen q <= prefixlen (n_p n))
     /\ route_node_match t p
        = Ret (Some id, upd id (set_lock (u32 (n_lock n + 1))) t))
  \/ (route_node_match t p = Ret (None, t)
      /\ forall q x, has_route t q x -> ~ covers_prefix q p).
Proof.
  intros W Hp. destruct (route_node_match_spec f t p W Hp) as ([id|] & [B1 B2] & E).
  - left. destruct E as (n & Hn & E). destruct (B1 id eq_refl) as (n' & ? & Hi & Hc & _).
    simplify_eq. exists id, n. split_and!; try done.
    intros q x (m & nm & Hm & <- & <- & Hx) Hcq.
    destruct (B2 m nm Hm Hx Hcq) as [(? & ? & _)|(r & nr & ? & ? & ?)]; [done|by simplify_eq].
  - right. split; [done|]. intros q x (m & nm & Hm & <- & <- & Hx) Hcq.
    destruct (B2 m nm Hm Hx Hcq) as [(? & ? & _)|(r & nr & ? & _)]; done.
Qed.

(** ** Exact lookups through the hash *)

Lemma hash_is_spec f t p id :
  wf_table f t -> okp f p ->
  hash_is t p id = true <-> exists n, heap t !! id = Some n /\ n_p n = p.
Proof.
  intros W Hp. unfold hash_is. destruct (heap t !! id) as [n|] eqn:Hn.
  - pose proof (tr_node _ _ _ (wt_tree f t W) _ _ Hn) as Hok.
    destruct Hok as (Hi & Hm & Hf), Hp as (Hi' & Hm' & Hf').
    rewrite Z.eqb_eq, prefix_cmp_zero by (by apply ip_wf). split.
    + intros (_ & Hl & Ha). exists n. split; [done|]. apply masked_inj; try done. congruence.
    + intros (n' & [= <-] & ->). split_and!; [done..|apply agree_refl].
  - split; [done|]. intros (n & ? & _). done.
Qed.

Lemma hash_find_spec f t p :
  wf_table f t -> okp f p ->
  match rn_hash_node_find t p with
  | Some id => exists n, heap t !! id = Some n /\ n_p n = p
  | None => forall id n, heap t !! id = Some n -> n_p n <> p
  end.
Proof.
  intros W Hp. unfold rn_hash_node_find.
  destruct (List.find (hash_is t p) (hash t)) as [id|] eqn:E.
  - apply List.find_some in E as [_ E]. by apply (hash_is_spec f t p id W Hp).
  - intros id n Hn Hnp.
    assert (hash_is t p id = true) as Hh by (apply (hash_is_spec f t p id W Hp); eauto).
    eapply List.find_none in E; [rewrite Hh in E; done|].
    apply list_elem_of_In. apply (wt_hash f t W). eauto.
Qed.

(** At most one node holds a given prefix. *)
Lemma node_unique f t a b na nb :
  wf_table f t -> heap t !! a = Some na -> heap t !! b = Some nb -> n_p na = n_p nb -> a = b.
Proof.
  intros W Ha Hb E. pose proof (wt_tree f t W) as T.
  assert (forall k x y nx ny, heap t !! x = Some nx -> heap t !! y = Some ny ->
    n_p nx = n_p ny -> forall r, sub (heap t) r x -> sub (heap t) r y ->
    (exists nr, heap t !! r = Some nr /\
      (Z.to_nat (prefixlen (n_p nx) - prefixlen (n_p nr)) < k)%nat) -> x = y) as G.
  { induction k as [|k IH]; intros x y nx ny Hx Hy Exy r Sx Sy (nr & Hr & Hk); [lia|].
    destruct (decide (x = r)) as [->|Hxr].
    { symmetry. apply (sub_covers T r y Sy nr ny Hr Hy). simplify_eq. rewrite Exy. lia. }
    destruct (decide (y = r)) as [->|Hyr].
    { apply (sub_covers T r x Sx nr nx Hr Hx). simplify_eq. rewrite Exy. lia. }
    destruct (sub_child T r x Sx nr nx Hr Hx Hxr) as (b1 & c & Hb1 & L1 & S1 & B1).
    destruct (sub_child T r y Sy nr ny Hr Hy Hyr) as (b2 & c2 & Hb2 & L2 & S2 & B2).
    rewrite <- Exy, B1 in B2. subst b2. assert (c2 = c) as -> by congruence.
    destruct (tr_link _ _ _ T r nr b1 c Hr Hb1 L1) as (nc & Hc & _ & Hlt & _).
    apply (IH x y nx ny Hx Hy Exy c S1 S2). exists nc. split; [done|].
    destruct (sub_covers T c x S1 nc nx Hc Hx) as [[? _] _]. lia. }
  destruct (visits_top T a na Ha) as (r & Hr & S1).
  destruct (visits_top T b nb Hb) as (r' & Hr' & S2).
  assert (r' = r) as -> by congruence.
  destruct (tr_top _ _ _ T r Hr) as (nr & Hnr & _).
  eapply (G _ a b na nb Ha Hb E r S1 S2). exists nr. split; [done|]. apply Nat.lt_succ_diag_r.
Qed.

(** Exact lookup.  [route_node_lookup] masks its argument and returns the
    one node that holds that prefix and carries a route, with its reference
    count raised; it returns NULL exactly when the table has no route for the
    prefix. *)
Theorem route_node_lookup_exact f t pu :
  wf_table f t -> ip_prefix pu -> family pu = f ->
  exists p, apply_mask pu = Ret p /\
  ((exists id n, heap t !! id = Some n /\ n_p n = p /\ n_info n <> 0
      /\ (forall m nm, heap t !! m = Some nm -> n_p nm = p -> m = id)
      /\ route_node_lookup t pu
         = Ret (Some id, upd id (set_lock (u32 (n_lock n + 1))) t))
   \/ (route_node_lookup t pu = Ret (None, t) /\ forall x, ~ has_route t p x)).
Proof.
  intros W Hip Hf. destruct (apply_mask_spec pu Hip) as (p & Em & Hmc). exists p.
  split; [done|]. assert (okp f p) as Hp.
  { split_and!; [apply Hmc|by eapply masked_copy_masked|]. by rewrite (mc_family _ _ Hmc). }
  unfold route_node_lookup. rewrite Em. simpl.
  pose proof (hash_find_spec f t p W Hp) as HF.
  destruct (rn_hash_node_find t p) as [id|].
  - destruct HF as (n & Hn & Hnp). rewrite (deref_Some t id n Hn). simpl.
    destruct (Z.eqb_spec (n_info n) 0) as [Hz|Hz]; simpl.
    + right. split; [done|]. intros x (m & nm & Hm & Hmp & Hx & Hx0).
      assert (m = id) as -> by (eapply (node_unique f t); [done..|congruence]).
      by simplify_eq.
    + left. exists id, n. split_and!; try done.
      * intros m nm Hm Hmp. eapply (node_unique f t); [done..|congruence].
      * unfold route_lock_node. by rewrite (deref_Some t id n Hn).
  - right. split; [done|]. intros x (m & nm & Hm & Hmp & _). by eapply HF.
Qed.

(** ** Insertion *)

(** The place where [route_node_get] stops: the slot the walk would follow. *)
Definition at_slot (t : route_table) (p : prefix) (matched node : option nat) : Prop :=
  match matched with
  | None => node = top t
  | Some r => exists nr, heap t !! r = Some nr /\ covers_prefix (n_p nr) p
      /\ prefixlen (n_p nr) < prefixlen p
      /\ link nr (prefix_bit (val p) (prefixlen (n_p nr))) = node
  end.

Definition absent (t : route_table) (p : prefix) : Prop :=
  forall id n, heap t !! id = Some n -> n_p n <> p.

(** Every node that covers [p] is still ahead, or no longer than [matched]. *)
Definition reach (t : route_table) (p : prefix) (matched node : option nat) : Prop :=
  forall k nk, heap t !! k = Some nk -> covers_prefix (n_p nk) p ->
    visits (t:=t) node k \/ exists r nr, matched = Some r /\ heap t !! r = Some nr
                                        /\ prefixlen (n_p nk) <= prefixlen (n_p nr).

Record stopped (t : route_table) (p : prefix) (matched node : option nat) : Prop := {
  st_slot : at_slot t p matched node;
  st_reach : reach t p matched node;
  st_node : forall id, node = Some id ->
            exists n, heap t !! id = Some n /\ ~ covers_prefix (n_p n) p
}.

Lemma get_loop_spec {f t} (T : tree f (heap t) (top t)) p (Hp : okp f p) fuel :
  forall matched node,
  (forall id, node = Some id -> exists n, heap t !! id = Some n
     /\ (Z.to_nat (prefixlen p + 1 - prefixlen (n_p n)) < fuel)%nat) ->
  (0 < fuel)%nat -> at_slot t p matched node -> reach t p matched node ->
  exists r, get_loop fuel t p matched node = Ret r /\
    match r with
    | inl id => exists n, heap t !! id = Some n /\ n_p n = p
    | inr (m, nd) => stopped t p m nd
    end.
Proof.
  assert (ip_prefix p) as Hip by apply Hp.
  induction fuel as [|fuel IH]; intros matched node Hfuel H0 Hslot Hreach; [lia|]. simpl.
  destruct node as [id|]; [|by eexists].
  destruct (Hfuel id eq_refl) as (n & Hn & Hf). rewrite (deref_Some t id n Hn). simpl.
  destruct ((prefixlen (n_p n) <=? prefixlen p) && prefix_match (n_p n) p) eqn:E.
  - rewrite (test_covers T p Hip id n Hn) in E.
    destruct (Z.eqb_spec (prefixlen (n_p n)) (prefixlen p)) as [El|El].
    + eexists. split; [done|]. exists n. split; [done|].
      eapply okp_inj; [by eapply tr_node|done..].
    + pose proof E as [Hle Hag]. apply IH; [|lia| |].
      * intros c Hl. destruct (child_deeper T p Hip id n c Hn Hl) as (k & Hk & Hlt).
        exists k. split; [done|]. lia.
      * exists n. split_and!; try done. lia.
      * intros m nm Hm Hc. destruct (Hreach m nm Hm Hc) as [(i & [= <-] & Hs)|Hr].
        { destruct (visits_step T p Hip id n m nm Hn Hs Hm Hc) as [->|]; [right|by left].
          simplify_eq. exists id, n. split_and!; done || lia. }
        right. destruct Hr as (r & nr & -> & Hnr & Hlr). simpl in Hslot.
        destruct Hslot as (nr' & Hnr' & _ & _ & Hlk). assert (nr' = nr) as -> by congruence.
        destruct (child_deeper T p Hip r nr id Hnr Hlk) as (k & Hk & ?).
        assert (k = n) as -> by congruence. exists id, n. split_and!; done || lia.
  - eexists. split; [done|]. split; [done|done|]. intros i [= <-]. exists n. split; [done|].
    rewrite <- (test_covers T p Hip id n Hn). congruence.
Qed.

Lemma reach_start {f t} p (T : tree f (heap t) (top t)) : reach t p None (top t).
Proof. intros m nm Hm _. left. by eapply visits_top. Qed.

(** A prefix that covers [p], is longer than [matched] and is not an extension
    of [node] is not in the table. *)
Lemma stopped_absent {f t} (T : tree f (heap t) (top t)) p matched node c :
  stopped t p matched node -> covers_prefix c p ->
  (forall r nr, matched = Some r -> heap t !! r = Some nr -> prefixlen (n_p nr) < prefixlen c) ->
  (forall id n, node = Some id -> heap t !! id = Some n -> ~ covers_prefix (n_p n) c) ->
  absent t c.
Proof.
  intros S Hc Hm Hn id n Hid Ec. rewrite <- Ec in *.
  destruct (st_reach _ _ _ _ S id n Hid Hc) as [(i & Hi & Hs)|(r & nr & Hr & Hnr & Hle)].
  - destruct (st_node _ _ _ _ S i Hi) as (ni & Hni & _).
    eapply Hn; [done|done|]. by apply (sub_covers T i id Hs ni n Hni Hid).
  - specialize (Hm r nr Hr Hnr). lia.
Qed.

(** How one table extends another: the old nodes keep prefix, route and
    reference count except for one reference on [id]; new nodes carry no route,
    and nobody holds them but for the one reference on [id]. *)
Definition extends (t t' : route_table) (id : nat) : Prop :=
  (forall m nm, heap t !! m = Some nm -> exists nm', heap t' !! m = Some nm'
     /\ n_p nm' = n_p nm /\ n_info nm' = n_info nm
     /\ n_lock nm' = n_lock nm + (if decide (m = id) then 1 else 0))
  /\ (forall m nm', heap t' !! m = Some nm' -> heap t !! m = None ->
        n_info nm' = 0 /\ n_lock nm' = if decide (m = id) then 1 else 0).

Lemma extends_routes t t' id p x :
  extends t t' id -> has_route t' p x <-> has_route t p x.
Proof.
  intros [H1 H2]. split.
  - intros (m & nm' & Hm' & Ep & Ex & Hx). destruct (heap t !! m) as [nm|] eqn:Hm.
    + destruct (H1 m nm Hm) as (k & Hk & E1 & E2 & _). simplify_eq.
      exists m, nm. split_and!; congruence.
    + destruct (H2 m nm' Hm' Hm) as [? _]. congruence.
  - intros (m & nm & Hm & Ep & Ex & Hx).
    destruct (H1 m nm Hm) as (k & Hk & E1 & E2 & _).
    exists m, k. split_and!; congruence.
Qed.

(** Taking a reference on an existing node. *)
Lemma link_set_lock l n b : link (set_lock l n) b = link n b.
Proof. done. Qed.

Lemma tree_lock f h tp id l : tree f h tp -> tree f (alter (set_lock l) id h) tp.
Proof.
  intros T.
  assert (forall i n, alter (set_lock l) id h !! i = Some n -> exists n0, h !! i = Some n0
    /\ n_p n = n_p n0 /\ n_parent n = n_parent n0 /\ (forall b, link n b = link n0 b)) as Back.
  { intros i n. rewrite lookup_alter. case_decide as E; [|naive_solver].
    destruct (h !! i) as [n0|] eqn:H0; [|subst; by rewrite H0].
    subst. rewrite H0. simpl. intros [= <-]. eauto 6. }
  assert (forall i n0, h !! i = Some n0 -> exists n, alter (set_lock l) id h !! i = Some n
    /\ n_p n = n_p n0 /\ n_parent n = n_parent n0 /\ (forall b, link n b = link n0 b)) as Fwd.
  { intros i n0 H0. rewrite lookup_alter. case_decide as E; [subst; rewrite H0; simpl|]; eauto 6. }
  split.
  - intros i n Hi. destruct (Back i n Hi) as (n0 & H0 & -> & _). by eapply tr_node.
  - intros i n b c Hi Hb Hl. destruct (Back i n Hi) as (n0 & H0 & -> & _ & El).
    rewrite El in Hl. destruct (tr_link _ _ _ T i n0 b c H0 Hb Hl) as (k & Hk & Kp & Kb).
    destruct (Fwd c k Hk) as (k2 & ? & E1 & E2 & _). exists k2. by rewrite E1, E2.
  - intros i n q Hi Hq. destruct (Back i n Hi) as (n0 & H0 & _ & E & _). rewrite E in Hq.
    destruct (tr_parent _ _ _ T i n0 q H0 Hq) as (k & b & Hk & Hb & Lk).
    destruct (Fwd q k Hk) as (k2 & ? & _ & _ & El). exists k2, b. by rewrite El.
  - intros i Hi. destruct (tr_top _ _ _ T i Hi) as (n & Hn & Hp).
    destruct (Fwd i n Hn) as (n2 & ? & _ & E & _). exists n2. by rewrite E.
  - intros i n Hi Hp. destruct (Back i n Hi) as (n0 & H0 & _ & E & _). rewrite E in Hp.
    by eapply tr_root.
Qed.

(** The parts of the invariant that hold between the steps of an insertion. *)
Record shape (f : Z) (t : route_table) : Prop := {
  sh_tree : tree f (heap t) (top t);
  sh_hash : NoDup (hash t) /\ forall id, id ∈ hash t <-> is_Some (heap t !! id);
  sh_fresh : forall id, is_Some (heap t !! id) -> (id < next_addr t)%nat
}.

Lemma wf_shape f t : wf_table f t -> shape f t.
Proof. intros W. split; apply W. Qed.

Lemma set_link_spec t a na c nc :
  heap t !! a = Some na -> heap t !! c = Some nc -> a <> c ->
  exists h2,
    set_link a c t = Ret (mkTable h2 (top t) (count t) (hash t) (next_addr t))
    /\ h2 !! a = Some (set_child (prefix_bit (val (n_p nc)) (prefixlen (n_p na))) (Some c) na)
    /\ h2 !! c = Some (set_parent (Some a) nc)
    /\ (forall x, x <> a -> x <> c -> h2 !! x = heap t !! x)
    /\ dom h2 = dom (heap t).
Proof.
  intros Ha Hc Hne. unfold set_link.
  rewrite (deref_Some t a na Ha). simpl. rewrite (deref_Some t c nc Hc). simpl.
  eexists. split; [done|]. simpl. split_and!.
  - rewrite lookup_alter_ne by done. by rewrite lookup_alter_eq, Ha.
  - rewrite lookup_alter_eq, lookup_alter_ne by done. by rewrite Hc.
  - intros x Hx1 Hx2. by rewrite !lookup_alter_ne by done.
  - by rewrite !dom_alter_L.
Qed.

(** Adding a node whose prefix is not in the table puts it into the hash. *)
Lemma hash_add_new f t new nw :
  shape f t -> okp f (n_p nw) -> absent t (n_p nw) -> heap t !! new = None ->
  forall h2 tp cnt nx,
  h2 !! new = Some nw ->
  (forall x n, x <> new -> h2 !! x = Some n -> exists n0, heap t !! x = Some n0 /\ n_p n = n_p n0) ->
  rn_hash_node_add new (mkTable h2 tp cnt (hash t) nx)
  = Ret (mkTable h2 tp cnt (new :: hash t) nx).
Proof.
  intros S Hok Habs Hnew h2 tp cnt nx H2 Hoth. unfold rn_hash_node_add.
  erewrite deref_Some by done. simpl. unfold rn_hash_node_find. simpl.
  destruct (List.find _ (hash t)) as [id|] eqn:E; [|done]. exfalso.
  apply List.find_some in E as [Hin E]. apply list_elem_of_In in Hin.
  apply (sh_hash f t S) in Hin. assert (id <> new) as Hne.
  { intros ->. rewrite Hnew in Hin. by destruct Hin. }
  unfold hash_is in E. simpl in E. destruct (h2 !! id) as [n|] eqn:Hn; [|done].
  destruct (Hoth id n Hne Hn) as (n0 & H0 & Ep). rewrite Ep in E.
  pose proof (tr_node _ _ _ (sh_tree f t S) _ _ H0) as Hok0. apply (Habs id n0 H0).
  apply Z.eqb_eq in E. destruct Hok as (? & ? & ?), Hok0 as (? & ? & ?).
  apply prefix_cmp_zero in E as (? & ? & ?); [|by apply ip_wf..]. by apply masked_inj.
Qed.

Lemma shape_fresh f t : shape f t -> heap t !! next_addr t = None.
Proof.
  intros S. apply eq_None_not_Some. intros H. apply (sh_fresh f t S) in H. lia.
Qed.

(** The hash and the address counter after one allocation. *)
Lemma shape_alloc f t h2 tp2 cnt :
  shape f t -> tree f h2 tp2 -> dom h2 = {[next_addr t]} ∪ dom (heap t) ->
  shape f (mkTable h2 tp2 cnt (next_addr t :: hash t) (S (next_addr t))).
Proof.
  intros S T Hd. split; simpl; [done| |].
  - destruct (sh_hash f t S) as [ND HE]. split.
    + apply NoDup_cons_2; [|done]. rewrite HE, (shape_fresh f t S). by intros [? ?].
    + intros id. rewrite elem_of_cons, HE. rewrite <- !elem_of_dom, Hd. clear. set_solver.
  - intros id Hid. rewrite <- elem_of_dom, Hd, elem_of_union, elem_of_singleton, elem_of_dom in Hid.
    destruct Hid as [->|Hid]; [lia|]. apply (sh_fresh f t S) in Hid. lia.
Qed.

(** One more node, [new], with prefix [p], no route and no reference; the other
    nodes keep everything but links that were redirected. *)
Record grown (t t' : route_table) (new : nat) (p : prefix) : Prop := {
  gr_new : exists nw, heap t' !! new = Some nw /\ n_p nw = p /\ n_lock nw = 0 /\ n_info nw = 0;
  gr_old : forall m nm, heap t !! m = Some nm -> exists nm', heap t' !! m = Some nm'
     /\ n_p nm' = n_p nm /\ n_info nm' = n_info nm /\ n_lock nm' = n_lock nm
     /\ (is_Some (l_left nm) -> is_Some (l_left nm'))
     /\ (is_Some (l_right nm) -> is_Some (l_right nm'));
  gr_dom : dom (heap t') = {[new]} ∪ dom (heap t);
  gr_fresh : heap t !! new = None;
  gr_count : count t' = count t
}.

Lemma grown_size t t' new p : grown t t' new p -> size (heap t') = S (size (heap t)).
Proof.
  intros G. rewrite <- !size_dom, (gr_dom _ _ _ _ G), size_union, size_singleton.
  - lia.
  - pose proof (gr_fresh _ _ _ _ G) as Hf. apply not_elem_of_dom in Hf. set_solver.
Qed.

Lemma set_child_links b c n :
  (is_Some (l_left n) -> is_Some (l_left (set_child b (Some c) n)))
  /\ (is_Some (l_right n) -> is_Some (l_right (set_child b (Some c) n))).
Proof. unfold set_child, set_left, set_right. case_bool; simpl; eauto. Qed.

Definition leaf_node (p : prefix) : route_node := mkNode p None None None 0 0.

Lemma alloc_set_p t w p :
  alter (set_p p) (next_addr t) (<[next_addr t:=zero_node w]> (heap t))
  = <[next_addr t := leaf_node p]> (heap t).
Proof.
  apply map_eq. intros i. rewrite lookup_alter, !lookup_insert.
  destruct (decide (next_addr t = i)); [|done]. by rewrite decide_True.
Qed.

Lemma route_node_set_spec f t p :
  shape f t -> okp f p -> absent t p ->
  route_node_set p t =
  Ret (next_addr t, mkTable (<[next_addr t := leaf_node p]> (heap t)) (top t) (count t)
                      (next_addr t :: hash t) (S (next_addr t))).
Proof.
  intros S Hp Habs. unfold route_node_set, route_node_new, upd. simpl.
  rewrite alloc_set_p.
  erewrite (hash_add_new f t (next_addr t) (leaf_node p)); [done|done|done|done| | |].
  - by eapply shape_fresh.
  - by rewrite lookup_insert_eq.
  - intros x n Hx. rewrite lookup_insert_ne by done. eauto.
Qed.

(** Hanging a new leaf into an empty slot. *)
Lemma leaf_step f t p matched :
  shape f t -> okp f p -> absent t p -> at_slot t p matched None ->
  exists t1 t', route_node_set p t = Ret (next_addr t, t1)
    /\ attach matched (next_addr t) t1 = Ret t'
    /\ shape f t' /\ grown t t' (next_addr t) p
    /\ (forall m nm, matched = Some m -> heap t !! m = Some nm ->
          exists nm', heap t' !! m = Some nm'
            /\ is_Some (link nm' (prefix_bit (val p) (prefixlen (n_p nm))))).
Proof.
  intros S Hp Habs Hslot. rewrite (route_node_set_spec f t p S Hp Habs).
  set (new := next_addr t). pose proof (shape_fresh f t S) as Hfr. fold new in Hfr.
  eexists. destruct matched as [m|]; simpl in *.
  - destruct Hslot as (nm & Hm & Hcov & Hlt & Hlk).
    assert (m <> new) as Hne by congruence.
    set (t1 := mkTable _ _ _ _ _).
    assert (heap t1 !! m = Some nm) as H1m by (simpl; by rewrite lookup_insert_ne).
    assert (heap t1 !! new = Some (leaf_node p)) as H1n by (simpl; by rewrite lookup_insert_eq).
    destruct (set_link_spec t1 m nm new _ H1m H1n Hne) as (h2 & -> & H2m & H2n & H2o & H2d).
    set (b := prefix_bit (val (n_p (leaf_node p))) (prefixlen (n_p nm))) in *.
    assert (bit b) as Hb by (apply prefix_bit_bit; apply Hp).
    assert (forall x, x <> new -> x <> m -> h2 !! x = heap t !! x) as Hoth.
    { intros x Hx1 Hx2. rewrite H2o by done. simpl. by rewrite lookup_insert_ne. }
    assert (dom h2 = {[new]} ∪ dom (heap t)) as Hd by (rewrite H2d; simpl; apply dom_insert_L).
    eexists. split_and!; [done|done| | |].
    + apply shape_alloc; [done| |done].
      apply (tree_leaf f (heap t) (top t) h2 m nm b new (set_parent (Some m) (leaf_node p)));
        try done; [apply S|].
      apply (covers_below f); try done. by eapply tr_node; [apply S|].
    + split; simpl; try done.
      * eexists. by split_and!.
      * intros k nk Hk. assert (k <> new) by congruence.
        destruct (decide (k = m)) as [->|Hkm].
        -- assert (nk = nm) as -> by congruence.
           destruct (set_child_fields b (Some new) nm) as (? & _ & ? & ?).
           destruct (set_child_links b new nm). eexists. by split_and!.
        -- exists nk. rewrite Hoth by done. by split_and!.
    + intros m' nm' [= <-] Hm'. assert (nm' = nm) as -> by congruence.
      eexists. split; [exact H2m|]. rewrite link_set_child, Z.eqb_refl by done. eauto.
  - eexists. split_and!; [done|done| | |done].
    + apply shape_alloc; [done| |apply dom_insert_L].
      apply (tree_leaf_top f (heap t) (<[new := leaf_node p]> (heap t)) new (leaf_node p));
        try done.
      * rewrite Hslot. apply S.
      * apply lookup_insert_eq.
      * intros id Hid. by rewrite lookup_insert_ne.
    + split; simpl; [| |apply dom_insert_L|done|done].
      * exists (leaf_node p). split; [apply lookup_insert_eq|done].
      * intros k nk Hk. assert (k <> new) by congruence. exists nk.
        rewrite lookup_insert_ne by done. by split_and!.
Qed.

(** The prefix of the branching node for [n] and [p]. *)
Definition branch_prefix (n p : prefix) : prefix :=
  let c := route_common n p (mkPrefix 0 0 (replicate (length (val p)) 0)) in
  mkPrefix (family p) (prefixlen c) (val c).

Lemma branch_prefix_spec f n p :
  okp f n -> okp f p -> ~ covers_prefix n p ->
  let c := branch_prefix n p in
  okp f c /\ covers_prefix c p
  /\ below c n (prefix_bit (val n) (prefixlen c))
  /\ (prefixlen c < prefixlen p ->
      prefix_bit (val p) (prefixlen c) <> prefix_bit (val n) (prefixlen c))
  /\ (forall m b, okp f m -> below m n b -> below m p b -> below m c b).
Proof.
  intros (Hn & Mn & Fn) (Hp & Mp & Fp) Hnc c.
  pose proof (route_common_spec n p 0 Hn Hp ltac:(congruence)) as CP. fold c in CP.
  destruct CP as [CL CA CD CB CS CY]. unfold c, branch_prefix in *.
  set (r := route_common _ _ _) in *. simpl in *.
  pose proof (ip_len p Hp) as Lp. pose proof (ip_len n Hn) as Ln.
  assert (ip_prefix (mkPrefix (family p) (prefixlen r) (val r))) as Hr.
  { split; simpl; [apply Hp|lia| |done]. rewrite CS. apply Hp. }
  assert (agree (prefixlen r) (val r) (val n)) as Arn.
  { intros i Hi. rewrite CB, (proj2 (Z.ltb_lt i _)) by lia. by rewrite andb_true_r. }
  assert (prefixlen r < prefixlen n) as Hlt.
  { apply Z.nle_gt. intros Hle. apply Hnc. split; [lia|]. by eapply agree_le. }
  split; [|split; [|split; [|split]]].
  - split; [done|split; [|done]]. intros i Hi. simpl in *.
    rewrite CB, (proj2 (Z.ltb_ge i _)) by lia. apply andb_false_r.
  - split; [simpl; lia|]. by eapply agree_trans.
  - by split.
  - intros Hlp. rewrite !prefix_bit_spec by (apply Hn || apply Hp).
    specialize (CD Hlp). destruct addr_bit, addr_bit; simpl; congruence.
  - intros m b (Hm & _) (L1 & A1 & B1) (L2 & A2 & B2). pose proof (ip_len m Hm).
    rewrite prefix_bit_spec in B1 by apply Hn. rewrite prefix_bit_spec in B2 by apply Hp.
    assert (prefixlen m < prefixlen r) as Hmr.
    { apply Z.nle_gt. intros Hle. apply CD; [lia|].
      destruct (decide (prefixlen r = prefixlen m)) as [E|].
      - rewrite E. apply Z.b2z_inj. congruence.
      - rewrite <- A1, <- A2 by lia. done. }
    split_and!; simpl; [done| |].
    + eapply agree_trans; [exact A1|]. apply agree_sym.
      eapply agree_le; [|exact Arn]. lia.
    + rewrite prefix_bit_spec by done. rewrite Arn by lia. done.
Qed.

(** Above a stopped walk: the matched node branches towards both. *)
Lemma stopped_above {f t} (T : tree f (heap t) (top t)) p r node n nr :
  okp f p -> stopped t p (Some r) (Some node) -> heap t !! node = Some n ->
  heap t !! r = Some nr ->
  exists b, bit b /\ link nr b = Some node /\ n_parent n = Some r
    /\ below (n_p nr) (n_p n) b /\ below (n_p nr) p b.
Proof.
  intros Hp St Hn Hr. destruct (st_slot _ _ _ _ St) as (nr' & Hr' & Hcov & Hlt & Hlk).
  assert (nr' = nr) as -> by congruence. set (b := prefix_bit (val p) _) in Hlk.
  assert (bit b) as Hb by (apply prefix_bit_bit; apply Hp).
  destruct (tr_link _ _ _ T r nr b node Hr Hb Hlk) as (k & Hk & Kp & Kb).
  assert (k = n) as -> by congruence. exists b. split_and!; try done.
  split; [done|]. split; [apply Hcov|done].
Qed.

Lemma stopped_branch_absent {f t} (T : tree f (heap t) (top t)) p matched node n :
  okp f p -> stopped t p matched (Some node) -> heap t !! node = Some n ->
  absent t (branch_prefix (n_p n) p).
Proof.
  intros Hp St Hn. pose proof (tr_node _ _ _ T _ _ Hn) as Hokn.
  destruct (st_node _ _ _ _ St node eq_refl) as (n' & Hn' & Hnc).
  assert (n' = n) as -> by congruence.
  destruct (branch_prefix_spec f (n_p n) p Hokn Hp Hnc) as (Hokc & Hcp & Hbel & _ & Habove).
  eapply (stopped_absent T); [done|done| |].
  - intros r nr -> Hr. destruct (stopped_above T p r node n nr Hp St Hn Hr)
      as (b & _ & _ & _ & B1 & B2).
    destruct (Habove (n_p nr) b) as (? & _); [by eapply tr_node|done..].
  - intros id k [= <-] Hk [? _]. assert (k = n) as -> by congruence.
    destruct Hbel as (? & _). lia.
Qed.

Lemma route_node_branch_spec f t p matched node n :
  shape f t -> okp f p -> stopped t p matched (Some node) -> heap t !! node = Some n ->
  let c := branch_prefix (n_p n) p in
  exists h3,
    route_node_branch node p t
    = Ret (next_addr t, mkTable h3 (top t) (count t) (next_addr t :: hash t) (S (next_addr t)))
    /\ h3 !! next_addr t = Some (set_child (prefix_bit (val (n_p n)) (prefixlen c))
                                   (Some node) (leaf_node c))
    /\ h3 !! node = Some (set_parent (Some (next_addr t)) n)
    /\ (forall x, x <> next_addr t -> x <> node -> h3 !! x = heap t !! x)
    /\ dom h3 = {[next_addr t]} ∪ dom (heap t).
Proof.
  intros S Hp St Hn c. pose proof (sh_tree f t S) as T.
  pose proof (shape_fresh f t S) as Hfr.
  assert (node <> next_addr t) as Hne by congruence.
  pose proof (tr_node _ _ _ T _ _ Hn) as Hokn.
  assert (okp f c) as Hokc.
  { destruct (st_node _ _ _ _ St node eq_refl) as (n' & Hn' & Hnc).
    assert (n' = n) as -> by congruence. by eapply branch_prefix_spec. }
  unfold route_node_branch. rewrite (deref_Some t node n Hn). simpl.
  erewrite (deref_Some _ (next_addr t)); [|simpl; apply lookup_insert_eq]. simpl.
  fold (branch_prefix (n_p n) p). fold c. unfold upd. simpl.
  rewrite alloc_set_p. set (new := next_addr t) in *. set (t2 := mkTable _ _ _ _ _).
  assert (heap t2 !! new = Some (leaf_node c)) as H2n by (simpl; apply lookup_insert_eq).
  assert (heap t2 !! node = Some n) as H2 by (simpl; by rewrite lookup_insert_ne).
  destruct (set_link_spec t2 new _ node n H2n H2 (not_eq_sym Hne))
    as (h3 & -> & H3n & H3 & H3o & H3d).
  simpl. exists h3. split_and!; try done.
  - set (nw := set_child _ _ _) in H3n.
    assert (n_p nw = c) as Ec by apply set_child_fields.
    rewrite (hash_add_new f t new nw); rewrite ?Ec; try done.
    + by eapply stopped_branch_absent.
    + intros x k Hx Hk. destruct (decide (x = node)) as [->|Hxn].
      * rewrite H3 in Hk. injection Hk as <-. eauto.
      * rewrite H3o in Hk by done. simpl in Hk. rewrite lookup_insert_ne in Hk by done. eauto.
  - intros x Hx1 Hx2. rewrite H3o by done. simpl. by rewrite lookup_insert_ne.
  - rewrite H3d. simpl. apply dom_insert_L.
Qed.

(** Splicing the branching node into the edge to [node]. *)
Section Branch.
Context (f : Z) (t : route_table) (p : prefix) (node : nat) (n : route_node).
Context (S : shape f t) (Hp : okp f p) (Hn : heap t !! node = Some n).
Let c := branch_prefix (n_p n) p.
Let b' := prefix_bit (val (n_p n)) (prefixlen c).
Let nb := set_child b' (Some node) (leaf_node c).
Let new := next_addr t.

(** What splicing makes of the table. *)
Definition spliced (matched : option nat) : Prop :=
  exists t1 t' nw, route_node_branch node p t = Ret (new, t1)
    /\ attach matched new t1 = Ret t' /\ shape f t'
    /\ grown t t' new c /\ heap t' !! new = Some nw /\ n_p nw = c
    /\ forall b, bit b -> link nw b = if b =? b' then Some node else None.

Lemma branch_node_facts :
  bit b' /\ node <> new /\ heap t !! new = None
  /\ (n_p nb = c /\ n_parent nb = None /\ n_lock nb = 0 /\ n_info nb = 0)
  /\ forall b, bit b -> link nb b = if b =? b' then Some node else None.
Proof.
  pose proof (tr_node _ _ _ (sh_tree f t S) _ _ Hn) as Hokn.
  pose proof (shape_fresh f t S) as Hfr. assert (bit b') as Hb' by (apply prefix_bit_bit; apply Hokn).
  split_and!; try done; try apply set_child_fields.
  - intros ->. fold new in Hfr. congruence.
  - intros b Hb. unfold nb. rewrite link_set_child by done. case_bool; [done|].
    unfold link. by case_bool.
Qed.

Lemma branch_below m : stopped t p (Some m) (Some node) -> spliced (Some m).
Proof.
  intros St. pose proof (sh_tree f t S) as T. pose proof (tr_node _ _ _ T _ _ Hn) as Hokn.
  destruct (st_node _ _ _ _ St node eq_refl) as (n' & Hn' & Hnc). assert (n' = n) as -> by congruence.
  destruct (branch_prefix_spec f (n_p n) p Hokn Hp Hnc) as (Hokc & Hcp & Hbel & _ & Habove).
  destruct (route_node_branch_spec f t p (Some m) node n S Hp St Hn) as (h3 & Eb & H3n & H3 & H3o & H3d).
  destruct branch_node_facts as (Hb' & Hne & Hfr & (Ec & Eq & El & Ei) & Hlk).
  fold c in Hokc, Hcp, Hbel, Habove, H3n. fold b' in Hbel, H3n. fold nb in H3n.
  fold new in Eb, H3n, H3, H3o, H3d. unfold spliced. rewrite Eb. simpl.
  destruct (st_slot _ _ _ _ St) as (nm & Hm & _).
  destruct (stopped_above T p m node n nm Hp St Hn Hm) as (b & Hb & Hl & Hpar & B1 & B2).
  assert (m <> new) as Hmn by congruence.
  assert (m <> node) as Hmd by (intros ->; destruct B1 as (? & _); simplify_eq; lia).
  set (t1 := mkTable h3 _ _ _ _).
  assert (heap t1 !! m = Some nm) as H1m by (simpl; by rewrite H3o).
  destruct (set_link_spec t1 m nm new nb H1m H3n Hmn) as (h2 & E2 & H2m & H2n & H2o & H2d).
  assert (prefix_bit (val (n_p nb)) (prefixlen (n_p nm)) = b) as Ebit.
  { rewrite Ec. eapply Habove; [by eapply tr_node|done..]. }
  rewrite Ebit in H2m. eexists _, _, _. split; [done|]. split; [exact E2|].
  assert (dom h2 = {[new]} ∪ dom (heap t)) as Hd by (by rewrite H2d).
  split; [|split; [|split; [exact H2n|done]]].
  - apply (shape_alloc f t); [done| |done].
    apply (tree_splice T node new n (set_parent (Some m) nb) b b'); try done; simpl; rewrite ?Ec; try done.
    + rewrite Hpar. by exists nm.
    + rewrite Hpar. split; [done|]. by exists nm.
    + intros m' nm' Hm' Hnm'. assert (m' = m) as -> by congruence.
      assert (nm' = nm) as -> by congruence. eapply Habove; [by eapply tr_node|done..].
    + by rewrite H2o.
    + intros id H1 H2 H4. rewrite H2o, H3o; try done. congruence.
  - split; simpl; try done.
    + eexists. by split_and!.
    + intros k nk Hk. assert (k <> new) by congruence. destruct (decide (k = m)) as [->|Hkm].
      * assert (nk = nm) as -> by congruence.
        destruct (set_child_fields b (Some new) nm) as (? & _ & ? & ?).
        destruct (set_child_links b new nm). eexists. by split_and!.
      * rewrite H2o by done. simpl. destruct (decide (k = node)) as [->|Hkn].
        -- rewrite H3. assert (nk = n) as -> by congruence. eexists. by split_and!.
        -- rewrite H3o by done. exists nk. by split_and!.
Qed.

Lemma branch_top : stopped t p None (Some node) -> spliced None.
Proof.
  intros St. pose proof (sh_tree f t S) as T. pose proof (tr_node _ _ _ T _ _ Hn) as Hokn.
  destruct (st_node _ _ _ _ St node eq_refl) as (n' & Hn' & Hnc). assert (n' = n) as -> by congruence.
  destruct (branch_prefix_spec f (n_p n) p Hokn Hp Hnc) as (Hokc & Hcp & Hbel & _ & Habove).
  destruct (route_node_branch_spec f t p None node n S Hp St Hn) as (h3 & Eb & H3n & H3 & H3o & H3d).
  destruct branch_node_facts as (Hb' & Hne & Hfr & (Ec & Eq & El & Ei) & Hlk).
  fold c in Hokc, Hcp, Hbel, Habove, H3n. fold b' in Hbel, H3n. fold nb in H3n.
  fold new in Eb, H3n, H3, H3o, H3d. unfold spliced. rewrite Eb. simpl.
  pose proof (st_slot _ _ _ _ St) as Htop. simpl in Htop.
  destruct (tr_top _ _ _ T node (eq_sym Htop)) as (n2 & Hn2 & Hpar).
  assert (n2 = n) as -> by congruence.
  eexists _, _, nb. split; [done|]. split; [done|]. split; [|split; [|split; [done|done]]].
  - apply (shape_alloc f t); [done| |done].
    apply (tree_splice T node new n nb 0 b'); try done; rewrite ?Ec; try done.
    + by rewrite Hpar.
    + by rewrite Hpar.
    + by rewrite Hpar.
    + intros m' nm' Hm'. congruence.
    + intros id H1 H2 H4. by rewrite H3o.
  - split; simpl; try done.
    + exists nb. by split_and!.
    + intros k nk Hk. assert (k <> new) by congruence.
      destruct (decide (k = node)) as [->|Hkn].
      * rewrite H3. assert (nk = n) as -> by congruence. eexists. by split_and!.
      * rewrite H3o by done. exists nk. by split_and!.
Qed.
End Branch.

Lemma branch_step f t p matched node n :
  shape f t -> okp f p -> stopped t p matched (Some node) -> heap t !! node = Some n ->
  let c := branch_prefix (n_p n) p in
  exists t1 t' nw, route_node_branch node p t = Ret (next_addr t, t1)
    /\ attach matched (next_addr t) t1 = Ret t' /\ shape f t'
    /\ grown t t' (next_addr t) c /\ heap t' !! next_addr t = Some nw /\ n_p nw = c
    /\ forall b, bit b -> link nw b =
         if b =? prefix_bit (val (n_p n)) (prefixlen c) then Some node else None.
Proof.
  intros S Hp St Hn. destruct matched as [m|].
  - exact (branch_below f t p node n S Hp Hn m St).
  - exact (branch_top f t p node n S Hp Hn St).
Qed.
