(* ===== verification/TableUpdate.v ===== *)
(** * Insertion into and release from a routing table

    [route_node_get] and [route_unlock_node] preserve the invariant of
    TableOps.v and change no route. *)

From stdpp Require Import gmap.
From S2P Require Import Prelude Prefix Table TableFacts TableOps.

(** ** [route_node_get] *)

(** [t2] has more nodes than [t]; the old ones keep prefix, route, references
    and children, the new ones carry nothing. *)
Definition more (t t2 : route_table) : Prop :=
  (forall m nm, heap t !! m = Some nm -> exists nm', heap t2 !! m = Some nm'
     /\ n_p nm' = n_p nm /\ n_info nm' = n_info nm /\ n_lock nm' = n_lock nm
     /\ (is_Some (l_left nm) -> is_Some (l_left nm'))
     /\ (is_Some (l_right nm) -> is_Some (l_right nm')))
  /\ (forall m nm', heap t2 !! m = Some nm' -> heap t !! m = None ->
        n_info nm' = 0 /\ n_lock nm' = 0).

Lemma grown_more t t2 new p : grown t t2 new p -> more t t2.
Proof.
  intros G. split; [apply G|]. intros m nm' Hm' Hm.
  destruct (gr_new _ _ _ _ G) as (nw & Hnw & _ & El & Ei).
  assert (m ∈ dom (heap t2)) as Hd by (apply elem_of_dom; eauto).
  rewrite (gr_dom _ _ _ _ G), elem_of_union, elem_of_singleton in Hd.
  destruct Hd as [->|Hd]; [|apply elem_of_dom in Hd as [? ?]; congruence].
  assert (nm' = nw) as -> by congruence. done.
Qed.

Lemma more_trans a b c : more a b -> more b c -> more a c.
Proof.
  intros [A1 A2] [B1 B2]. split.
  - intros m nm Hm. destruct (A1 m nm Hm) as (x & Hx & ? & ? & ? & ? & ?).
    destruct (B1 m x Hx) as (y & Hy & ? & ? & ? & ? & ?).
    exists y. split_and!; [done|congruence..|tauto|tauto].
  - intros m nm' Hc Ha. destruct (heap b !! m) as [x|] eqn:Hb; [|eauto].
    destruct (A2 m x Hb Ha). destruct (B1 m x Hb) as (y & Hy & ? & ? & ? & _).
    assert (y = nm') as -> by congruence. split; congruence.
Qed.

(** Taking a reference on [id]. *)
Definition locked (t : route_table) (id : nat) (n : route_node) : route_table :=
  upd id (set_lock (u32 (n_lock n + 1))) t.

Lemma lookup_locked t id n k :
  heap t !! id = Some n ->
  heap (locked t id n) !! k
  = if decide (k = id) then Some (set_lock (u32 (n_lock n + 1)) n) else heap t !! k.
Proof.
  intros Hn. unfold locked, upd. simpl. rewrite lookup_alter.
  case_decide as E; case_decide; subst; try done. by rewrite Hn.
Qed.

Lemma more_extends t t2 id n :
  more t t2 -> heap t2 !! id = Some n -> n_lock n + 1 < 4294967296 -> 0 <= n_lock n ->
  extends t (locked t2 id n) id.
Proof.
  intros [M1 M2] Hn Hr H0. split.
  - intros m nm Hm. destruct (M1 m nm Hm) as (x & Hx & ? & ? & ? & _).
    rewrite (lookup_locked t2 id n m Hn). case_decide as E.
    + subst m. assert (x = n) as -> by congruence. eexists. split; [done|]. simpl.
      split_and!; [done..|]. rewrite u32_small by lia. lia.
    + exists x. split_and!; [done..|]. lia.
  - intros m nm'. rewrite (lookup_locked t2 id n m Hn). case_decide as E.
    + intros [= <-] Hm. subst m. destruct (M2 id n Hn Hm) as [Hi El]. split; [done|]. simpl. by rewrite El.
    + intros Hm' Hm. by destruct (M2 m nm' Hm' Hm).
Qed.

(** Taking a reference restores the invariant once every other node is locked
    or branches. *)
Lemma locked_wf f t id n :
  shape f t -> heap t !! id = Some n -> n_lock n + 1 < 4294967296 ->
  count t = u64 (Z.of_nat (size (heap t))) ->
  (forall k nk, heap t !! k = Some nk -> 0 <= n_lock nk < 4294967296) ->
  (forall k nk, heap t !! k = Some nk -> k <> id -> n_lock nk = 0 ->
     is_Some (l_left nk) /\ is_Some (l_right nk)) ->
  wf_table f (locked t id n).
Proof.
  intros S Hn Hroom Hc Hlk Hst.
  assert (dom (heap (locked t id n)) = dom (heap t)) as Hd by apply dom_alter_L.
  assert (forall k, is_Some (heap (locked t id n) !! k) <-> is_Some (heap t !! k)) as He.
  { intros k. by rewrite <- !elem_of_dom, Hd. }
  pose proof (Hlk id n Hn).
  split.
  - by apply tree_lock, S.
  - split; [apply S|]. intros k. rewrite He. apply S.
  - rewrite <- size_dom, Hd, size_dom. done.
  - intros k Hk. apply He in Hk. by apply S.
  - intros k nk. rewrite (lookup_locked t id n k Hn). case_decide; [|eauto].
    intros [= <-]. simpl. rewrite u32_small by lia. lia.
  - intros k nk. rewrite (lookup_locked t id n k Hn). case_decide; [|eauto].
    intros [= <-]. simpl. rewrite u32_small by lia. lia.
Qed.

Lemma route_lock_node_spec t id n :
  heap t !! id = Some n -> route_lock_node id t = Ret (id, locked t id n).
Proof. intros Hn. unfold route_lock_node. by rewrite (deref_Some t id n Hn). Qed.

(** What [route_node_get] promises for prefix [p]: it returns a node that holds
    [p] in a well-formed table that extends [t]. *)
Definition got (f : Z) (t : route_table) (p : prefix) (r : outcome (nat * route_table)) : Prop :=
  exists id n t', r = Ret (id, t') /\ wf_table f t' /\ heap t' !! id = Some n
    /\ n_p n = p /\ extends t t' id.

Lemma got_lock f t p t2 id n :
  wf_table f t -> lock_room t -> shape f t2 -> more t t2 ->
  heap t2 !! id = Some n -> n_p n = p ->
  count t2 = u64 (Z.of_nat (size (heap t2))) ->
  (forall k nk, heap t2 !! k = Some nk -> heap t !! k = None -> k <> id ->
     is_Some (l_left nk) /\ is_Some (l_right nk)) ->
  got f t p (route_lock_node id t2).
Proof.
  intros W R S M Hn Hp Hc Hst. rewrite (route_lock_node_spec t2 id n Hn).
  assert (forall k nk, heap t2 !! k = Some nk -> 0 <= n_lock nk /\ n_lock nk + 1 < 4294967296) as Hlk.
  { destruct M as [M1 M2]. intros k nk Hk. destruct (heap t !! k) as [n0|] eqn:H0.
    - destruct (M1 k n0 H0) as (x & Hx & _ & _ & El & _). assert (x = nk) as -> by congruence.
      pose proof (wt_lock f t W k n0 H0). pose proof (R k n0 H0). lia.
    - destruct (M2 k nk Hk H0). lia. }
  destruct (Hlk id n Hn). exists id, (set_lock (u32 (n_lock n + 1)) n), (locked t2 id n).
  split; [done|]. split; [|split; [|split]].
  - apply locked_wf; try done.
    + intros k nk Hk. destruct (Hlk k nk Hk). lia.
    + intros k nk Hk Hne Hz. destruct (heap t !! k) as [n0|] eqn:Hk0; [|by eapply Hst].
      destruct M as [M1 _]. destruct (M1 k n0 Hk0) as (x & Hx & _ & _ & El & L & Rr).
      assert (x = nk) as -> by congruence.
      destruct (wt_stub f t W k n0 Hk0); [congruence|]. split; tauto.
  - by rewrite (lookup_locked t2 id n id Hn), decide_True.
  - done.
  - by apply more_extends.
Qed.

Lemma more_refl t : more t t.
Proof. split; [|intros; congruence]. intros m nm Hm. exists nm. tauto. Qed.

Lemma u64_succ x : u64 (u64 (Z.of_nat x) + 1) = u64 (Z.of_nat (S x)).
Proof. unfold u64. rewrite Z.add_mod_idemp_l by lia. f_equal. lia. Qed.

Lemma more_count_inc t t2 : more t t2 -> more t (count_inc t2).
Proof. done. Qed.

Lemma shape_count_inc f t : shape f t -> shape f (count_inc t).
Proof. intros S. split; apply S. Qed.

Lemma grown_only t t2 new p k nk :
  grown t t2 new p -> heap t2 !! k = Some nk -> heap t !! k = None -> k = new.
Proof.
  intros G Hk H0. assert (k ∈ dom (heap t2)) as Hd by (apply elem_of_dom; eauto).
  rewrite (gr_dom _ _ _ _ G), elem_of_union, elem_of_singleton in Hd.
  destruct Hd as [->|Hd]; [done|apply elem_of_dom in Hd as [? ?]; congruence].
Qed.

(** A single new node. *)
Lemma got_one f t p t2 new :
  wf_table f t -> lock_room t -> shape f t2 -> grown t t2 new p ->
  got f t p (route_lock_node new (count_inc t2)).
Proof.
  intros W R S G. destruct (gr_new _ _ _ _ G) as (nw & Hnw & Ep & _).
  eapply (got_lock f t p (count_inc t2) new nw); try done.
  - by apply shape_count_inc.
  - apply more_count_inc. by eapply grown_more.
  - cbn [count_inc set_count count heap].
    rewrite (grown_size _ _ _ _ G), (gr_count _ _ _ _ G), (wt_count f t W). apply u64_succ.
  - intros k nk Hk H0 Hne. exfalso. apply Hne. by eapply grown_only.
Qed.

(** A branching node [m] with a new leaf below it. *)
Lemma got_two f t p t2 t3 m new c nm :
  wf_table f t -> lock_room t -> shape f t3 ->
  grown t t2 m c -> grown t2 t3 new p ->
  heap t3 !! m = Some nm -> is_Some (l_left nm) -> is_Some (l_right nm) ->
  got f t p (route_lock_node new (count_inc (count_inc t3))).
Proof.
  intros W R S G1 G2 Hm HL HR. destruct (gr_new _ _ _ _ G2) as (nw & Hnw & Ep & _).
  eapply (got_lock f t p (count_inc (count_inc t3)) new nw); try done.
  - by do 2 apply shape_count_inc.
  - do 2 apply more_count_inc. eapply more_trans; by eapply grown_more.
  - cbn [count_inc set_count count heap].
    rewrite (grown_size _ _ _ _ G2), (grown_size _ _ _ _ G1), (gr_count _ _ _ _ G2),
      (gr_count _ _ _ _ G1), (wt_count f t W), !u64_succ. done.
  - intros k nk Hk H0 Hne. cbn [count_inc set_count heap] in Hk.
    assert (k = m) as ->; [|assert (nk = nm) as -> by congruence; done].
    destruct (heap t2 !! k) as [x|] eqn:H2; [by eapply grown_only|].
    exfalso. apply Hne. by eapply (grown_only t2 t3).
Qed.

(** The walk of [route_node_get] on the masked prefix. *)
Lemma get_walk f t p :
  shape f t -> okp f p ->
  exists r, get_loop (walk_fuel p) t p None (top t) = Ret r /\
    match r with
    | inl id => exists n, heap t !! id = Some n /\ n_p n = p
    | inr (m, nd) => stopped t p m nd
    end.
Proof.
  intros S Hp. pose proof (sh_tree f t S) as T.
  apply (get_loop_spec T p Hp); [|unfold walk_fuel; lia|done|by apply (reach_start (f:=f))].
  intros id Hid. by apply (walk_start p T).
Qed.

Lemma stopped_leaf_absent f t p matched :
  shape f t -> okp f p -> stopped t p matched None -> absent t p.
Proof.
  intros S Hp St. eapply (stopped_absent (sh_tree f t S)); [done| | |done].
  - split; [lia|apply agree_refl].
  - intros r nr -> Hr. destruct (st_slot _ _ _ _ St) as (nr' & Hr' & _ & Hlt & _).
    by assert (nr' = nr) as -> by congruence.
Qed.

(** After the branching node went in and is not [p] itself, [p] is still absent
    and belongs into its empty slot. *)
Lemma branch_then_leaf f t p matched node n t2 nw :
  let c := branch_prefix (n_p n) p in
  shape f t -> okp f p -> stopped t p matched (Some node) -> heap t !! node = Some n ->
  grown t t2 (next_addr t) c -> heap t2 !! next_addr t = Some nw -> n_p nw = c ->
  (forall b, bit b -> link nw b =
     if b =? prefix_bit (val (n_p n)) (prefixlen c) then Some node else None) ->
  prefixlen c <> prefixlen p ->
  absent t2 p /\ at_slot t2 p (Some (next_addr t)) None
  /\ prefix_bit (val p) (prefixlen c) <> prefix_bit (val (n_p n)) (prefixlen c).
Proof.
  intros c S Hp St Hn G Hw Ew Hlk Hlen. pose proof (sh_tree f t S) as T.
  pose proof (tr_node _ _ _ T _ _ Hn) as Hokn.
  destruct (st_node _ _ _ _ St node eq_refl) as (n' & Hn' & Hnc).
  assert (n' = n) as -> by congruence.
  destruct (branch_prefix_spec f (n_p n) p Hokn Hp Hnc) as (Hokc & Hcp & Hbel & Hd & _).
  fold c in Hokc, Hcp, Hbel, Hd.
  assert (prefixlen c < prefixlen p) as Hlt by (destruct Hcp; lia).
  specialize (Hd Hlt). split_and!; [| |done].
  - intros k nk Hk Ek. destruct (heap t !! k) as [n0|] eqn:H0.
    + destruct (gr_old _ _ _ _ G k n0 H0) as (x & Hx & Ex & _).
      assert (x = nk) as -> by congruence.
      apply (stopped_absent T p matched (Some node) p) with (id := k) (n := n0); try done.
      * intros r nr -> Hr. destruct (st_slot _ _ _ _ St) as (nr' & Hr' & _ & Hl & _).
        by assert (nr' = nr) as -> by congruence.
      * intros i ni [= <-] Hi. by assert (ni = n) as -> by congruence.
      * congruence.
    + assert (k = next_addr t) as -> by (by eapply grown_only).
      assert (nk = nw) as -> by congruence. apply Hlen. congruence.
  - exists nw. rewrite Ew. split_and!; try done.
    rewrite Hlk by (apply prefix_bit_bit; apply Hp).
    by rewrite (proj2 (Z.eqb_neq _ _) Hd).
Qed.

Lemma both_links n b1 b2 :
  bit b1 -> bit b2 -> b1 <> b2 -> is_Some (link n b1) -> is_Some (link n b2) ->
  is_Some (l_left n) /\ is_Some (l_right n).
Proof. intros [->| ->] [->| ->] Hne; unfold link; simpl; tauto. Qed.

(** The part of [route_node_get] after the walk. *)
Lemma get_insert_branch f t p matched node :
  wf_table f t -> lock_room t -> okp f p -> stopped t p matched (Some node) ->
  got f t p
    ('(new, t) ← route_node_branch node p t;
     t ← attach matched new t;
     nn ← deref t new;
     if negb (prefixlen (n_p nn) =? prefixlen p) then
       let m := new in
       '(new, t) ← route_node_set p t;
       t ← set_link m new t;
       route_lock_node new (count_inc (count_inc t))
     else route_lock_node new (count_inc t)).
Proof.
  intros W R Hp St. pose proof (wf_shape f t W) as S.
  destruct (st_node _ _ _ _ St node eq_refl) as (n & Hn & Hnc).
  destruct (branch_step f t p matched node n S Hp St Hn)
    as (t1 & t2 & nw & Eb & Ea & S2 & G & Hw & Ew & Hlk).
  rewrite Eb. simpl. rewrite Ea. simpl. rewrite (deref_Some t2 _ nw Hw). simpl. rewrite Ew.
  set (c := branch_prefix (n_p n) p) in *. destruct (Z.eqb_spec (prefixlen c) (prefixlen p)) as [El|El]; simpl.
  - pose proof (tr_node _ _ _ (sh_tree f t S) _ _ Hn) as Hokn.
    destruct (branch_prefix_spec f (n_p n) p Hokn Hp Hnc) as (Hokc & Hcp & _).
    assert (c = p) as Ecp by (by apply (okp_inj f)). rewrite Ecp in G. by eapply got_one.
  - destruct (branch_then_leaf f t p matched node n t2 nw S Hp St Hn G Hw Ew Hlk El)
      as (Habs & Hslot & Hdiff). fold c in Hdiff.
    destruct (leaf_step f t2 p (Some (next_addr t)) S2 Hp Habs Hslot)
      as (t3 & t4 & Es & Ea2 & S4 & G2 & Hl2).
    rewrite Es. simpl in Ea2 |- *. rewrite Ea2. simpl.
    destruct (Hl2 (next_addr t) nw eq_refl Hw) as (nw' & Hw' & Hsome). rewrite Ew in Hsome.
    destruct (gr_old _ _ _ _ G2 _ _ Hw) as (x & Hx & _ & _ & _ & HL & HR).
    assert (x = nw') as -> by congruence.
    pose proof (ip_bytes _ (proj1 Hp)) as Bp.
    pose proof (ip_bytes _ (proj1 (tr_node _ _ _ (sh_tree f t S) _ _ Hn))) as Bn.
    set (b := prefix_bit (val (n_p n)) (prefixlen c)) in *.
    assert (bit b) as Hb by (by apply prefix_bit_bit).
    assert (is_Some (link nw' b)) as Hsome2.
    { pose proof (Hlk b Hb) as K. rewrite Z.eqb_refl in K. unfold link in K |- *.
      destruct (b =? 0); [apply HL|apply HR]; rewrite K; by eexists. }
    destruct (both_links nw' _ b (prefix_bit_bit _ (prefixlen c) Bp) Hb Hdiff Hsome Hsome2).
    by eapply got_two.
Qed.

Lemma get_insert_leaf f t p matched :
  wf_table f t -> lock_room t -> okp f p -> stopped t p matched None ->
  got f t p
    ('(new, t) ← route_node_set p t;
     t ← attach matched new t;
     route_lock_node new (count_inc t)).
Proof.
  intros W R Hp St. pose proof (wf_shape f t W) as S.
  destruct (leaf_step f t p matched S Hp (stopped_leaf_absent f t p matched S Hp St)
              (st_slot _ _ _ _ St)) as (t1 & t2 & Es & Ea & S2 & G & _).
  rewrite Es. simpl. rewrite Ea. simpl. by eapply got_one.
Qed.

Lemma route_node_get_masked f t pu p :
  wf_table f t -> lock_room t -> okp f p -> apply_mask pu = Ret p ->
  got f t p (route_node_get t pu).
Proof.
  intros W R Hp Em. pose proof (wf_shape f t W) as S.
  assert (forall id n, heap t !! id = Some n -> n_p n = p ->
            got f t p (route_lock_node id t)) as Hold.
  { intros id n Hn En. eapply (got_lock f t p t id n); try done; [apply more_refl|apply W|].
    intros; congruence. }
  unfold route_node_get. rewrite Em. simpl.
  pose proof (hash_find_spec f t p W Hp) as HF.
  assert (got f t p (r ← get_loop (walk_fuel p) t p None (top t);
      match r with
      | inl id => route_lock_node id t
      | inr (matched, None) => '(new, t) ← route_node_set p t;
          t ← attach matched new t; route_lock_node new (count_inc t)
      | inr (matched, Some node) => '(new, t) ← route_node_branch node p t;
          t ← attach matched new t;
          nn ← deref t new;
          if negb (prefixlen (n_p nn) =? prefixlen p) then
            let m := new in
            '(new, t) ← route_node_set p t;
            t ← set_link m new t;
            route_lock_node new (count_inc (count_inc t))
          else route_lock_node new (count_inc t)
      end)) as Hwalk.
  { destruct (get_walk f t p S Hp) as ([id|[matched [node|]]] & -> & H); simpl.
    - destruct H as (n & Hn & En). by eapply Hold.
    - by apply get_insert_branch.
    - by apply get_insert_leaf. }
  destruct (rn_hash_node_find t p) as [id|]; simpl.
  - destruct HF as (n & Hn & En). rewrite (deref_Some t id n Hn). simpl.
    destruct (negb (n_info n =? 0)); [by eapply Hold|exact Hwalk].
  - exact Hwalk.
Qed.

(** C20: insertion. On a well-formed table with no saturated reference count and for an IP
    prefix of its family [route_node_get] returns a node for the masked prefix,
    creating it and, if needed, a branching node; the resulting table is well
    formed, every node that was there keeps prefix, route and references (one more
    on the returned node), so the set of routes is unchanged. *)
Theorem route_node_get_correct f t pu :
  wf_table f t -> lock_room t -> ip_prefix pu -> family pu = f ->
  exists p, apply_mask pu = Ret p /\ got f t p (route_node_get t pu)
    /\ forall id t', route_node_get t pu = Ret (id, t') ->
         forall q x, has_route t' q x <-> has_route t q x.
Proof.
  intros W R Hip Hf. destruct (apply_mask_spec pu Hip) as (p & Em & Hmc).
  assert (okp f p) as Hp.
  { split_and!; [apply Hmc|by eapply masked_copy_masked|]. by rewrite (mc_family _ _ Hmc). }
  pose proof (route_node_get_masked f t pu p W R Hp Em) as G. exists p. split_and!; [done|done|].
  destruct G as (id & n & t' & E & _ & _ & _ & Ext).
  intros id2 t2 E2 q x. assert (t2 = t') as -> by congruence. by apply (extends_routes t t' id).
Qed.

(** ** [route_unlock_node] *)

(** The invariant while [id] may be a stub that has to go. *)
Record wf_but (f : Z) (t : route_table) (id : nat) : Prop := {
  wb_shape : shape f t;
  wb_count : count t = u64 (Z.of_nat (size (heap t)));
  wb_lock : forall k n, heap t !! k = Some n -> 0 <= n_lock n < 4294967296;
  wb_stub : forall k n, heap t !! k = Some n -> k <> id -> n_lock n = 0 ->
            is_Some (l_left n) /\ is_Some (l_right n)
}.

Lemma wf_but_wf f t id n :
  wf_but f t id -> heap t !! id = Some n ->
  (n_lock n = 0 -> is_Some (l_left n) /\ is_Some (l_right n)) -> wf_table f t.
Proof.
  intros W Hn Hst. split; try apply W. intros k nk Hk Hz.
  destruct (decide (k = id)) as [->|Hne]; [|by eapply wb_stub].
  assert (nk = n) as -> by congruence. auto.
Qed.

(** What is left of [t]: the nodes of [t2] are nodes of [t] with the same
    prefix, route and references, and only nodes nobody holds are gone. *)
Definition fewer (t t2 : route_table) : Prop :=
  (forall m n2, heap t2 !! m = Some n2 -> exists n, heap t !! m = Some n
     /\ n_p n2 = n_p n /\ n_info n2 = n_info n /\ n_lock n2 = n_lock n)
  /\ (forall m n, heap t !! m = Some n -> n_lock n <> 0 -> is_Some (heap t2 !! m)).

Lemma fewer_refl t : fewer t t.
Proof. split; eauto 6. Qed.

Lemma fewer_trans a b c : fewer a b -> fewer b c -> fewer a c.
Proof.
  intros [A1 A2] [B1 B2]. split.
  - intros m n Hn. destruct (B1 m n Hn) as (x & Hx & ? & ? & ?).
    destruct (A1 m x Hx) as (y & Hy & ? & ? & ?). exists y. split_and!; congruence.
  - intros m n Hn Hl. destruct (A2 m n Hn Hl) as [x Hx].
    destruct (A1 m x Hx) as (y & Hy & _ & _ & ?). assert (y = n) as -> by congruence.
    eapply B2; [done|congruence].
Qed.

(** The one child of [n], if any. *)
Definition only_child (n : route_node) : option nat :=
  match l_left n with Some c => Some c | None => l_right n end.

Lemma only_child_link n :
  ~ (is_Some (l_left n) /\ is_Some (l_right n)) ->
  (forall c, bit c -> link n c = None \/ link n c = only_child n)
  /\ (forall c, only_child n = Some c -> exists b, bit b /\ link n b = Some c).
Proof.
  intros H. unfold link, only_child, bit in *.
  destruct (l_left n) as [l|] eqn:El, (l_right n) as [r|] eqn:Er.
  - exfalso. eauto.
  - split; [intros c [->| ->]; simpl; auto|]. intros c [= <-]. exists 0. auto.
  - split; [intros c [->| ->]; simpl; auto|]. intros c [= <-]. exists 1. auto.
  - split; [intros c [->| ->]; simpl; auto|done].
Qed.

(** The heap after the surgery, with the removed node's side [b] of its parent. *)
Definition unlinked_heap (id : nat) (n : route_node) (b : Z) (h : gmap nat route_node)
  : gmap nat route_node :=
  let h1 := match only_child n with Some c => alter (set_parent (n_parent n)) c h | None => h end in
  let h2 := match n_parent n with Some q => alter (set_child b (only_child n)) q h1 | None => h1 end in
  delete id h2.

Definition unlinked (id : nat) (n : route_node) (b : Z) (t : route_table) : route_table :=
  mkTable (unlinked_heap id n b (heap t))
    (match n_parent n with Some _ => top t | None => only_child n end)
    (u64 (count t - 1)) (List.filter (fun x => negb (Nat.eqb x id)) (hash t)) (next_addr t).

Lemma unlinked_dom t id n b :
  dom (heap (unlinked id n b t)) = dom (heap t) ∖ {[id]}.
Proof.
  simpl. unfold unlinked_heap. rewrite dom_delete_L. f_equal.
  destruct (n_parent n), (only_child n); by rewrite ?dom_alter_L.
Qed.

Section UnlinkNode.
Context {f : Z} {t : route_table} (T : tree f (heap t) (top t)).
Context (id : nat) (n : route_node) (Hn : heap t !! id = Some n).
Context (Hstub : ~ (is_Some (l_left n) /\ is_Some (l_right n))).

Lemma unlink_side :
  exists b, bit b /\ slot (heap t) (top t) (n_parent n) (Some id) b.
Proof.
  unfold slot. destruct (n_parent n) as [q|] eqn:Hq.
  - destruct (tr_parent _ _ _ T id n q Hn Hq) as (m & b & Hm & Hb & Hl). eauto 7.
  - exists 0. split; [by left|]. by eapply tr_root.
Qed.

Lemma child_of c : only_child n = Some c ->
  exists bc nc, bit bc /\ link n bc = Some c /\ heap t !! c = Some nc
    /\ prefixlen (n_p n) < prefixlen (n_p nc).
Proof.
  intros Hc. destruct (only_child_link n Hstub) as [_ H].
  destruct (H c Hc) as (bc & Hbc & Hl).
  destruct (tr_link _ _ _ T id n bc c Hn Hbc Hl) as (nc & Hnc & _ & Hlt & _). eauto 7.
Qed.

Lemma parent_of q : n_parent n = Some q ->
  exists nq, heap t !! q = Some nq /\ prefixlen (n_p nq) < prefixlen (n_p n).
Proof.
  intros Hq. destruct (tree_parent_below T id n q Hn Hq) as (m & b & Hm & _ & _ & ? & _).
  eauto.
Qed.

(** The three nodes involved are distinct. *)
Lemma child_ne c : only_child n = Some c -> c <> id /\ n_parent n <> Some c.
Proof.
  intros Hc. destruct (child_of c Hc) as (bc & nc & _ & _ & Hnc & Hlt). split.
  - intros ->. assert (nc = n) as -> by congruence. lia.
  - intros Hq. destruct (parent_of c Hq) as (nq & ? & ?).
    assert (nq = nc) as -> by congruence. lia.
Qed.

Lemma parent_ne : n_parent n <> Some id.
Proof.
  intros Hq. destruct (parent_of id Hq) as (nq & ? & ?).
  assert (nq = n) as -> by congruence. lia.
Qed.

Context (b : Z).

Lemma lookup_unlinked x :
  unlinked_heap id n b (heap t) !! x =
  if decide (x = id) then None
  else if decide (only_child n = Some x) then set_parent (n_parent n) <$> heap t !! x
  else if decide (n_parent n = Some x) then set_child b (only_child n) <$> heap t !! x
  else heap t !! x.
Proof.
  unfold unlinked_heap. case_decide as E; [subst x; apply lookup_delete_eq|].
  rewrite lookup_delete_ne by done. case_decide as Ec.
  - rewrite Ec. pose proof (child_ne x Ec) as [_ Hq].
    destruct (n_parent n) as [q|]; [rewrite lookup_alter_ne by congruence|];
      by rewrite lookup_alter_eq.
  - assert (forall q', match only_child n with
      | Some c => alter (set_parent q') c (heap t) | None => heap t end !! x = heap t !! x) as E1.
    { intros q'. destruct (only_child n); [|done]. apply lookup_alter_ne. congruence. }
    destruct (n_parent n) as [q|]; [|rewrite E1; case_decide; congruence].
    destruct (decide (q = x)) as [->|Hqx].
    + by rewrite lookup_alter_eq, E1, decide_True.
    + rewrite lookup_alter_ne, E1, decide_False by congruence. done.
Qed.

Context (Hb : bit b) (Hslot : slot (heap t) (top t) (n_parent n) (Some id) b).

Lemma unlinked_tree : tree f (heap (unlinked id n b t)) (top (unlinked id n b t)).
Proof.
  destruct (only_child_link n Hstub) as [H1 _].
  apply (tree_unlink T id n (only_child n) b Hn H1); simpl.
  - intros c Hc. destruct (child_of c Hc) as (bc & nc & ? & ? & Hnc & _).
    exists bc, nc. split_and!; try done. destruct (child_ne c Hc).
    rewrite lookup_unlinked, decide_False, decide_True, Hnc by done. done.
  - done.
  - unfold relinked. destruct (option_cases (n_parent n)) as [Hq|[q Hq]];
      rewrite Hq; [done|]. split; [done|]. destruct (parent_of q Hq) as (nq & Hnq & _). exists nq. split; [done|].
    rewrite lookup_unlinked, Hq. pose proof parent_ne.
    rewrite decide_False, decide_False, decide_True, Hnq; try done; [|congruence].
    intros Hc. by destruct (child_ne q Hc).
  - by rewrite lookup_unlinked, decide_True.
  - intros x H2 H3 H4. by rewrite lookup_unlinked, !decide_False.
Qed.

Lemma unlink_node_spec : unlink_node id n t = Ret (unlinked id n b t).
Proof.
  unfold unlink_node, unlinked, unlinked_heap. fold (only_child n).
  destruct (option_cases (n_parent n)) as [Hq|[q Hq]]; rewrite Hq.
  { by destruct (only_child n). }
  destruct (parent_of q Hq) as (nq & Hnq & _).
  pose proof Hslot as Hs. unfold slot in Hs. rewrite Hq in Hs.
  destruct Hs as (nq' & Hnq' & _ & Hl). assert (nq' = nq) as -> by congruence.
  set (t1 := match only_child n with Some c => upd c _ t | None => t end).
  assert (heap t1 !! q = Some nq) as H1.
  { unfold t1. destruct (only_child n) as [c|] eqn:Hc; [|done].
    unfold upd. simpl. rewrite lookup_alter_ne; [done|]. intros ->.
    by destruct (child_ne q Hc). }
  simpl. rewrite (deref_Some t1 q nq H1). simpl.
  assert (bool_decide (l_left nq = Some id) = (b =? 0)) as ->.
  { destruct Hb as [Hb0|Hb0]; rewrite Hb0 in Hl |- *; [by rewrite bool_decide_true|].
    apply bool_decide_eq_false_2. intros Hl0.
    by destruct (tree_link_inj f (heap t) (top t) q nq 0 q nq 1 id T Hnq Hnq
      (or_introl eq_refl) (or_intror eq_refl) Hl0 Hl). }
  unfold set_child, t1. by destruct (only_child n), (b =? 0).
Qed.

End UnlinkNode.

Lemma u64_pred x : u64 (u64 (Z.of_nat (S x)) - 1) = u64 (Z.of_nat x).
Proof. unfold u64. rewrite Zminus_mod_idemp_l. f_equal. lia. Qed.

(** Unlinking leaves the invariant, except that the parent may now be a stub. *)
Lemma unlinked_wf f t id n b :
  wf_but f t id -> heap t !! id = Some n -> ~ (is_Some (l_left n) /\ is_Some (l_right n)) ->
  n_lock n = 0 -> bit b -> slot (heap t) (top t) (n_parent n) (Some id) b ->
  let t1 := unlinked id n b t in
  shape f t1 /\ count t1 = u64 (Z.of_nat (size (heap t1))) /\ fewer t t1
  /\ (forall k n1, heap t1 !! k = Some n1 -> n_parent n <> Some k ->
        exists n0, heap t !! k = Some n0 /\ k <> id
          /\ l_left n1 = l_left n0 /\ l_right n1 = l_right n0 /\ n_lock n1 = n_lock n0).
Proof.
  intros W Hn Hst Hz Hb Hslot t1. pose proof (wb_shape _ _ _ W) as S.
  pose proof (sh_tree f t S) as T.
  pose proof (unlinked_dom t id n b) as Hd. fold t1 in Hd.
  assert (forall x, heap t1 !! x = _) as Hlk by exact (lookup_unlinked T id n Hn Hst b).
  assert (forall k, is_Some (heap t1 !! k) <-> is_Some (heap t !! k) /\ k <> id) as He.
  { intros k. rewrite <- !(elem_of_dom (D:=gset nat)), Hd, elem_of_difference, elem_of_singleton. tauto. }
  split; [|split; [|split]].
  - split.
    + by apply unlinked_tree.
    + destruct (sh_hash f t S) as [ND HE]. split.
      * apply NoDup_ListNoDup, List.NoDup_filter. by apply NoDup_ListNoDup.
      * intros k. rewrite He, <- HE. simpl. rewrite !list_elem_of_In, List.filter_In.
        by rewrite negb_true_iff, Nat.eqb_neq.
    + intros k Hk. apply He in Hk as [Hk _]. by apply S.
  - simpl. rewrite (wb_count _ _ _ W).
    assert (size (heap t) = Datatypes.S (size (heap t1))) as ->; [|apply u64_pred].
    rewrite <- !size_dom, Hd, size_difference by (apply singleton_subseteq_l, elem_of_dom; eauto).
    rewrite size_singleton.
    assert (size (dom (heap t)) <> 0%nat); [|lia]. intros E. apply size_empty_inv in E.
    assert (id ∈ dom (heap t)) as Hi by (apply elem_of_dom; eauto).
    rewrite E in Hi. by apply not_elem_of_empty in Hi.
  - split.
    + intros m n2. rewrite Hlk. repeat case_decide; try done; [| |eauto 6];
        destruct (heap t !! m) as [n0|]; try done; intros [= <-]; exists n0; split_and!; try done;
        by apply set_child_fields.
    + intros m nm Hm Hl. apply He. split; [eauto|]. intros ->. congruence.
  - intros k n1 Hk Hp. rewrite Hlk in Hk. repeat case_decide; try done; [|eauto 7].
    destruct (heap t !! k) as [n0|]; [|done]. injection Hk as <-. exists n0. by split_and!.
Qed.

Lemma delete_loop_spec f fuel : forall t id n,
  wf_but f t id -> heap t !! id = Some n -> n_lock n = 0 ->
  (Z.to_nat (prefixlen (n_p n)) < fuel)%nat ->
  exists t', delete_loop fuel t id = Ret t' /\ wf_table f t' /\ fewer t t'.
Proof.
  induction fuel as [|fuel IH]; intros t id n W Hn Hz Hf; [lia|]. cbn [delete_loop].
  rewrite (deref_Some t id n Hn). simpl. rewrite Hz. simpl.
  destruct (decide (is_Some (l_left n) /\ is_Some (l_right n))) as [Hst|Hst].
  { pose proof Hst as [[l El] [r Er]]. rewrite El, Er. exists t. split; [done|].
    split; [by eapply wf_but_wf|apply fewer_refl]. }
  pose proof (sh_tree _ _ (wb_shape _ _ _ W)) as T.
  destruct (unlink_side T id n Hn) as (b & Hb & Hslot).
  destruct (unlinked_wf f t id n b W Hn Hst Hz Hb Hslot) as (S1 & C1 & F1 & K1).
  pose proof (unlink_node_spec T id n Hn Hst b Hb Hslot) as E.
  set (t1 := unlinked id n b t) in *.
  assert (forall X (a c : outcome X), match l_left n with
    | Some _ => match l_right n with Some _ => a | None => c end | None => c end = c) as Hm.
  { intros X a c. destruct (l_left n), (l_right n); try done. exfalso. apply Hst; eauto. }
  rewrite Hm, E. simpl. clear Hm E.
  assert (forall k n1, heap t1 !! k = Some n1 -> 0 <= n_lock n1 < 4294967296) as L1.
  { intros k n1 Hk. destruct F1 as [F _]. destruct (F k n1 Hk) as (n0 & H0 & _ & _ & ->).
    by eapply wb_lock. }
  assert (forall k n1, heap t1 !! k = Some n1 -> n_parent n <> Some k -> n_lock n1 = 0 ->
            is_Some (l_left n1) /\ is_Some (l_right n1)) as St1.
  { intros k n1 Hk Hp Hl. destruct (K1 k n1 Hk Hp) as (n0 & H0 & Hne & -> & -> & El).
    eapply (wb_stub f t id W k n0); congruence. }
  destruct (option_cases (n_parent n)) as [Hq|[q Hq]]; rewrite Hq.
  - exists t1. split; [done|]. split; [|done]. split; try done; try apply S1.
    intros k n1 Hk. apply (St1 k); [done|]. by rewrite Hq.
  - destruct (parent_of T id n Hn q Hq) as (nq & Hnq & Hlt).
    assert (is_Some (heap t1 !! q)) as [nq1 Hq1].
    { apply (elem_of_dom (D:=gset nat)). unfold t1. rewrite (unlinked_dom t id n b).
      apply elem_of_difference. split; [apply elem_of_dom; eauto|].
      rewrite elem_of_singleton. intros ->. by apply (parent_ne T id n Hn). }
    rewrite (deref_Some t1 q nq1 Hq1). simpl.
    assert (wf_but f t1 q) as W1.
    { split; try done. intros k n1 Hk Hne. apply (St1 k); [done|congruence]. }
    pose proof F1 as [F _]. destruct (F q nq1 Hq1) as (nq' & Hnq' & Ep & _).
    assert (nq' = nq) as -> by congruence.
    destruct (Z.eqb_spec (n_lock nq1) 0) as [Hl|Hl].
    + destruct (IH t1 q nq1 W1 Hq1 Hl) as (t' & E' & W' & F').
      { rewrite Ep. destruct (tr_node _ _ _ T _ _ Hnq) as (Hiq & _). pose proof (ip_len _ Hiq). lia. }
      exists t'. split_and!; [done|done|]. by eapply fewer_trans.
    + exists t1. split_and!; [done| |done]. eapply wf_but_wf; [done|done|]. intros; congruence.
Qed.

(** [t'] is [t] with one reference on [id] dropped: its nodes are old ones with
    their prefix, route and references, and all that are still held are there. *)
Definition released (t t' : route_table) (id : nat) : Prop :=
  (forall m n2, heap t' !! m = Some n2 -> exists n0, heap t !! m = Some n0
     /\ n_p n2 = n_p n0 /\ n_info n2 = n_info n0
     /\ n_lock n2 = n_lock n0 - (if decide (m = id) then 1 else 0))
  /\ (forall m n0, heap t !! m = Some n0 ->
        0 < n_lock n0 - (if decide (m = id) then 1 else 0) -> is_Some (heap t' !! m)).

Lemma route_unlock_node_spec f t id n :
  wf_table f t -> heap t !! id = Some n -> 0 < n_lock n ->
  exists t', route_unlock_node id t = Ret t' /\ wf_table f t' /\ released t t' id.
Proof.
  intros W Hn Hl. unfold route_unlock_node. rewrite (deref_Some t id n Hn). simpl.
  rewrite (proj2 (Z.ltb_lt _ _) Hl). simpl.
  set (t1 := upd id (set_lock (n_lock n - 1)) t).
  assert (forall k, heap t1 !! k = if decide (k = id) then Some (set_lock (n_lock n - 1) n)
                                  else heap t !! k) as H1.
  { intros k. unfold t1, upd. simpl. rewrite lookup_alter.
    case_decide; case_decide; subst; try done. by rewrite Hn. }
  assert (dom (heap t1) = dom (heap t)) as Hd by apply dom_alter_L.
  assert (wf_but f t1 id) as W1.
  { pose proof (wf_shape f t W) as S. split.
    - assert (forall k, is_Some (heap t1 !! k) <-> is_Some (heap t !! k)) as He
        by (intros k; by rewrite <- !elem_of_dom, Hd).
      split; [by apply tree_lock, S| |].
      + split; [apply S|]. intros k. rewrite He. apply S.
      + intros k Hk. apply He in Hk. by apply S.
    - rewrite <- size_dom, Hd, size_dom. apply W.
    - intros k nk. rewrite H1. case_decide; [|apply W]. intros [= <-]. simpl.
      pose proof (wt_lock f t W id n Hn). lia.
    - intros k nk. rewrite H1. case_decide; [done|]. intros Hk _. by apply (wt_stub f t W k). }
  assert (exists t', (if n_lock n - 1 =? 0 then route_node_delete id t1 else Ret t1) = Ret t'
            /\ wf_table f t' /\ fewer t1 t') as (t' & -> & W' & F').
  { pose proof (H1 id) as Hid. rewrite decide_True in Hid by done.
    destruct (Z.eqb_spec (n_lock n - 1) 0) as [Hz|Hz].
    - unfold route_node_delete. rewrite (deref_Some t1 id _ Hid).
      cbn [mbind outcome_bind n_p set_lock].
      eapply (delete_loop_spec f _ t1 id); [done|done|done|]. simpl. lia.
    - exists t1. split_and!; [done| |apply fewer_refl]. eapply wf_but_wf; [done..|].
      simpl. congruence. }
  exists t'. split; [done|]. split; [done|]. split.
  - intros m n2 Hm. destruct F' as [F _]. destruct (F m n2 Hm) as (n1 & Hn1 & E1 & E2 & E3).
    rewrite H1 in Hn1. case_decide.
    + injection Hn1 as <-. exists n. simpl in *. split_and!; congruence || subst; done.
    + exists n1. split_and!; [done..|]. lia.
  - intros m n0 Hm Hlm. destruct F' as [_ F]. case_decide as E.
    + subst m. assert (n0 = n) as -> by congruence. eapply F.
      { rewrite H1, decide_True by done. done. } simpl. lia.
    + eapply (F m n0); [|lia]. by rewrite H1, decide_False.
Qed.

(** C21: release.  Dropping a reference of a well-formed table returns, keeps
    the table well formed, and removes no node that is still referenced: every
    node left is an old one with its prefix, route and references (one fewer on
    [id]), and every node somebody still holds is left. *)
Theorem route_unlock_node_correct f t id n :
  wf_table f t -> heap t !! id = Some n -> 0 < n_lock n ->
  exists t', route_unlock_node id t = Ret t' /\ wf_table f t' /\ released t t' id.
Proof. apply route_unlock_node_spec. Qed.

(** ** A table built by the operations *)

Lemma init_wf f : wf_table f route_table_init.
Proof.
  assert (forall k n, heap route_table_init !! k = Some n -> False) as He.
  { intros k n. simpl. rewrite lookup_empty. done. }
  assert (forall k, is_Some (heap route_table_init !! k) -> False) as Hs.
  { intros k [n Hn]. by eapply He. }
  split; [split| | | | |]; try (intros; exfalso; by eauto); try done.
  split; [by apply NoDup_nil_2|]. intros id. split; [intros H; by apply elem_of_nil in H|].
  intros H. exfalso. eauto.
Qed.

Lemma get_wf f t pu id t' :
  wf_table f t -> lock_room t -> ip_prefix pu -> family pu = f ->
  route_node_get t pu = Ret (id, t') -> wf_table f t'.
Proof.
  intros W R Hip Hf E. destruct (apply_mask_spec pu Hip) as (p & Em & Hmc).
  assert (okp f p) as Hp.
  { split_and!; [apply Hmc|by eapply masked_copy_masked|]. by rewrite (mc_family _ _ Hmc). }
  destruct (route_node_get_masked f t pu p W R Hp Em) as (id2 & n & t2 & E2 & W2 & _).
  congruence.
Qed.

(** Storing a route in a node changes no link. *)
Lemma set_info_wf f t id x : wf_table f t -> wf_table f (set_info id x t).
Proof.
  intros W. set (g := fun n => mkNode (n_p n) (n_parent n) (l_left n) (l_right n) (n_lock n) x).
  assert (forall k n, heap (set_info id x t) !! k = Some n -> exists n0, heap t !! k = Some n0
    /\ n_p n = n_p n0 /\ n_parent n = n_parent n0 /\ n_lock n = n_lock n0
    /\ l_left n = l_left n0 /\ l_right n = l_right n0) as Back.
  { intros k n. simpl. rewrite lookup_alter. case_decide; [subst|eauto 8].
    destruct (heap t !! k) as [n0|]; [|done]. intros [= <-]. exists n0. done. }
  assert (forall k n0, heap t !! k = Some n0 -> exists n, heap (set_info id x t) !! k = Some n
    /\ n_p n = n_p n0 /\ n_parent n = n_parent n0
    /\ l_left n = l_left n0 /\ l_right n = l_right n0) as Fwd.
  { intros k n0 H0. simpl. rewrite lookup_alter. case_decide; [subst; rewrite H0|]; eauto 8. }
  assert (forall k, is_Some (heap (set_info id x t) !! k) <-> is_Some (heap t !! k)) as He.
  { intros k. simpl. rewrite lookup_alter. case_decide; [subst|done]. by rewrite fmap_is_Some. }
  destruct W as [T H C F L S]. split.
  - split.
    + intros k n Hk. destruct (Back k n Hk) as (n0 & H0 & -> & _). by eapply tr_node.
    + intros k n b c Hk Hb Hl. destruct (Back k n Hk) as (n0 & H0 & -> & _ & _ & E1 & E2).
      unfold link in Hl. rewrite E1, E2 in Hl.
      destruct (tr_link _ _ _ T k n0 b c H0 Hb Hl) as (m & Hm & ? & ?).
      destruct (Fwd c m Hm) as (m2 & Hm2 & Ep & Eq & _). exists m2. by rewrite Ep, Eq.
    + intros k n q Hk Hq. destruct (Back k n Hk) as (n0 & H0 & _ & E & _). rewrite E in Hq.
      destruct (tr_parent _ _ _ T k n0 q H0 Hq) as (m & b & Hm & ? & ?).
      destruct (Fwd q m Hm) as (m2 & Hm2 & _ & _ & E1 & E2). exists m2, b.
      unfold link. by rewrite E1, E2.
    + intros k Hk. destruct (tr_top _ _ _ T k Hk) as (n & Hn & ?).
      destruct (Fwd k n Hn) as (n2 & ? & _ & E & _). exists n2. by rewrite E.
    + intros k n Hk Hq. destruct (Back k n Hk) as (n0 & H0 & _ & E & _). rewrite E in Hq.
      by eapply tr_root.
  - split; [apply H|]. intros k. rewrite He. apply H.
  - simpl. rewrite <- size_dom, dom_alter_L, size_dom. done.
  - intros k Hk. apply F, He, Hk.
  - intros k n Hk. destruct (Back k n Hk) as (n0 & H0 & _ & _ & -> & _). eauto.
  - intros k n Hk. destruct (Back k n Hk) as (n0 & H0 & _ & _ & -> & -> & ->). eauto.
Qed.

Definition ret_table (r : outcome (nat * route_table)) : route_table :=
  match r with Ret (_, t) => t | Abort => route_table_init end.

(** 10.0.0.0/8 and 10.1.0.0/16 with routes, 10.2.0.0/16 without one; the last
    insertion created the branching node 10.0.0.0/14. *)
Definition sample1 : route_table :=
  set_info 0 7 (ret_table (route_node_get route_table_init net10_8)).
Definition sample2 : route_table :=
  set_info 1 9 (ret_table (route_node_get sample1 net10_1_16)).
Definition sample : route_table :=
  ret_table (route_node_get sample2 (mkPrefix AF_INET 16 [10; 2; 0; 0])).

Lemma lock_room_dec t :
  bool_decide (map_Forall (fun _ n => n_lock n + 1 < 4294967296) (heap t)) = true -> lock_room t.
Proof. intros H id n Hn. apply bool_decide_eq_true in H. exact (H id n Hn). Qed.

Lemma sample_wf : wf_table AF_INET sample.
Proof.
  assert (forall t p, wf_table AF_INET t -> lock_room t -> ip_prefix p -> family p = AF_INET ->
    wf_table AF_INET (ret_table (route_node_get t p))) as Step.
  { intros t p W R Hp Hf. destruct (route_node_get t p) as [[id t']|] eqn:E; [|apply init_wf].
    by eapply get_wf. }
  apply Step; [apply set_info_wf, Step; [apply set_info_wf, Step; [apply init_wf|..]|..]|..];
    first [by apply ip_prefix_v4; unfold is_byte; lia
          |by apply lock_room_dec; vm_compute | done].
Qed.

Definition host : prefix := mkPrefix AF_INET 32 [10; 1; 2; 3].

Lemma route_node_match_longest_witness :
  wf_table AF_INET sample /\
  ((exists id n, heap sample !! id = Some n /\ n_info n <> 0
      /\ covers_prefix (n_p n) host)
   \/ route_node_match sample host = Ret (None, sample)).
Proof.
  split; [exact sample_wf|].
  destruct (route_node_match_longest AF_INET sample host sample_wf)
    as [(id & n & H1 & H2 & H3 & _)|[H _]].
  - apply ip_prefix_v4; unfold is_byte; lia.
  - left. exists id, n. split; [exact H1|]. split; [exact H2|exact H3].
  - right. exact H.
Defined.

Lemma route_node_lookup_exact_witness :
  exists p, apply_mask net10_1_16 = Ret p /\
  ((exists id n, heap sample !! id = Some n /\ n_p n = p)
   \/ route_node_lookup sample net10_1_16 = Ret (None, sample)).
Proof.
  destruct (route_node_lookup_exact AF_INET sample net10_1_16 sample_wf)
    as (p & Ep & [(id & n & H1 & H2 & _)|[H _]]).
  - apply ip_prefix_v4; unfold is_byte; lia.
  - reflexivity.
  - exists p. split; [exact Ep|]. left. exists id, n. split; [exact H1|exact H2].
  - exists p. split; [exact Ep|]. right. exact H.
Defined.

Lemma route_node_get_correct_witness :
  exists id t', route_node_get sample host = Ret (id, t') /\ wf_table AF_INET t'.
Proof.
  destruct (route_node_get_correct AF_INET sample host sample_wf)
    as (p & _ & (id & n & t' & E & W & _) & _).
  - apply lock_room_dec. vm_compute. reflexivity.
  - apply ip_prefix_v4; unfold is_byte; lia.
  - reflexivity.
  - exists id, t'. split; [exact E|exact W].
Defined.

Lemma route_unlock_node_correct_witness :
  exists t', route_unlock_node 0 sample = Ret t' /\ wf_table AF_INET t'.
Proof.
  assert (exists n, heap sample !! 0%nat = Some n /\ 0 < n_lock n) as (n & Hn & Hl).
  { vm_compute. eexists. split; reflexivity. }
  destruct (route_unlock_node_correct AF_INET sample 0 n sample_wf Hn Hl)
    as (t' & E & W & _).
  exists t'. split; [exact E|exact W].
Defined.
