(* ===== verification/Checksum.v ===== *)
(** * Checksums (lib/checksum.c)

    The Internet checksum over an I/O vector, and the Fletcher checksum of
    ISO 8473 used by OSPF and IS-IS.  Words are read from memory in the byte
    order of a little-endian host. *)

From S2P Require Import Prelude.

(** ** Internet checksum *)

(** [dst += add; if (dst < add) dst++;] on [uint32_t]. *)
Definition add_carry (dst add : Z) : Z :=
  let d := u32 (dst + add) in
  if d <? add then u32 (d + 1) else d.

Definition le16 (a b : Z) : Z := a + 256 * b.
Definition le32 (a b c d : Z) : Z := a + 256 * b + 65536 * c + 16777216 * d.

(** [while (ptr + 8 <= end)] *)
Fixpoint sum_eights (sum : Z) (p : list Z) : Z * list Z :=
  match p with
  | a :: b :: c :: d :: e :: f :: g :: h :: r =>
      sum_eights (add_carry (add_carry sum (le32 a b c d)) (le32 e f g h)) r
  | _ => (sum, p)
  end.

(** [while (ptr + 2 <= end)] *)
Fixpoint sum_words (sum : Z) (p : list Z) : Z * list Z :=
  match p with
  | a :: b :: r => sum_words (add_carry sum (le16 a b)) r
  | _ => (sum, p)
  end.

(** One buffer of the vector; [odd] is the byte left over by earlier buffers
    ([have_oddbyte] and [wordbuf.bytes[0]]). *)
Definition sum_buffer (sum : Z) (odd : option Z) (buf : list Z) : Z * option Z :=
  match buf with
  | [] => (sum, odd)
  | first :: rest =>
      let '(sum, p) := match odd with
                       | Some o => (add_carry sum (le16 o first), rest)
                       | None => (sum, buf)
                       end in
      let '(sum, p) := sum_eights sum p in
      let '(sum, p) := sum_words sum p in
      (sum, match p with b :: _ => Some b | [] => None end)
  end.

Fixpoint sum_iov (sum : Z) (odd : option Z) (iov : list (list Z)) : Z :=
  match iov with
  | [] => match odd with
          | Some o => add_carry sum (le16 o 0)
          | None => sum
          end
  | buf :: iov =>
      let '(sum, odd) := sum_buffer sum odd buf in sum_iov sum odd iov
  end.

Definition in_cksumv (iov : list (list Z)) : Z :=
  let sum := sum_iov 0 None iov in
  let sum := Z.shiftr sum 16 + Z.land sum 0xffff in
  let sum := sum + Z.shiftr sum 16 in
  u16 (Z.lnot sum).

Definition in_cksum (data : list Z) : Z := in_cksumv [data].

(** ** Fletcher checksum *)

Definition MODX : Z := 4102.
Definition FLETCHER_CHECKSUM_VALIDATE : Z := 65535.

(** Addition on [int]: overflow is undefined behaviour. *)
Definition int_add (a b : Z) : outcome Z :=
  assert! (-2147483648 <=? a + b) && (a + b <=? 2147483647) ;; Ret (a + b).

(** [for (i = 0; i < partial_len; i++) { c0 = c0 + *(p++); c1 += c0; }] *)
Fixpoint fletcher_block (c0 c1 : Z) (p : list Z) : outcome (Z * Z) :=
  match p with
  | [] => Ret (c0, c1)
  | b :: p =>
      c0 ← int_add c0 b;
      c1 ← int_add c1 c0;
      fletcher_block c0 c1 p
  end.

(** [while (left != 0)]: each round consumes at least one byte. *)
Fixpoint fletcher_loop (fuel : nat) (c0 c1 : Z) (p : list Z) : outcome (Z * Z) :=
  match p with
  | [] => Ret (c0, c1)
  | _ =>
      match fuel with
      | O => Abort
      | S fuel =>
          let partial_len := Z.to_nat (Z.min (Z.of_nat (length p)) MODX) in
          '(c0, c1) ← fletcher_block c0 c1 (take partial_len p);
          fletcher_loop fuel (Z.rem c0 255) (Z.rem c1 255) (drop partial_len p)
      end
  end.

(** A byte store; outside of the buffer it is undefined. *)
Definition store (buffer : list Z) (i : Z) (b : Z) : outcome (list Z) :=
  assert! (i <? Z.of_nat (length buffer)) ;; Ret (<[Z.to_nat i := b]> buffer).

Definition fletcher_checksum (buffer : list Z) (offset : Z) : outcome (Z * list Z) :=
  let len := Z.of_nat (length buffer) in
  let validate := offset =? FLETCHER_CHECKSUM_VALIDATE in
  buffer ← (if validate then Ret buffer
            else assert! (offset <? u64 (len - 1)) ;;
                 b ← store buffer offset 0; store b (offset + 1) 0);
  '(c0, c1) ← fletcher_loop (length buffer) 0 0 buffer;
  let x := Z.rem (s32 (u64 (u64 (u64 (len - offset - 1) * c0) - c1))) 255 in
  let x := if x <=? 0 then x + 255 else x in
  let y := 510 - c0 - x in
  let y := if 255 <? y then y - 255 else y in
  if validate then Ret (u16 (Z.shiftl c1 8 + c0), buffer)
  else
    b ← store buffer offset (u8 x);
    b ← store b (offset + 1) (u8 y);
    (* htons on a little-endian host *)
    Ret (le16 (u8 x) (Z.land y 0xff), b).

(** ** The Internet checksum is the ones'-complement sum of RFC 1071 *)

(** The sum of the 16-bit words, the last one padded with a zero byte. *)
Fixpoint word_sum (l : list Z) : Z :=
  match l with
  | [] => 0
  | [a] => le16 a 0
  | a :: b :: r => le16 a b + word_sum r
  end.

(** The 16-bit ones'-complement representation of a sum: 0 only for 0. *)
Definition ones16 (s : Z) : Z := if s =? 0 then 0 else (s - 1) mod 65535 + 1.

(** [sum] represents [S]: the same number modulo 2^32 - 1, hence modulo
    65535, and zero only for zero. *)
Definition rep (sum S : Z) : Prop :=
  0 <= sum < 4294967296 /\ 0 <= S /\ (exists k, S - sum = k * 4294967295)
  /\ (sum = 0 <-> S = 0).

Lemma add_carry_rep sum S w :
  rep sum S -> 0 <= w < 4294967296 -> rep (add_carry sum w) (S + w).
Proof.
  intros (Hs & HS & (k & Hk) & Hz) Hw. unfold add_carry, u32.
  destruct (Z.lt_ge_cases (sum + w) 4294967296) as [H|H].
  - rewrite Z.mod_small by lia. rewrite (proj2 (Z.ltb_ge _ _)) by lia.
    repeat split; try lia. exists k. lia.
  - assert ((sum + w) mod 4294967296 = sum + w - 4294967296) as ->.
    { symmetry. apply (Z.mod_unique _ _ 1); lia. }
    rewrite (proj2 (Z.ltb_lt _ _)) by lia. rewrite Z.mod_small by lia.
    repeat split; try lia. exists (k + 1). lia.
Qed.

(** Both 16-bit halves of a 32-bit word count modulo 65535. *)
Definition repw (sum S : Z) : Prop :=
  0 <= sum < 4294967296 /\ 0 <= S /\ (exists k, S - sum = k * 65535)
  /\ (sum = 0 <-> S = 0).

Lemma add_carry_repw sum S w W :
  repw sum S -> 0 <= w < 4294967296 -> 0 <= W -> (exists j, W - w = j * 65535) ->
  (w = 0 <-> W = 0) -> repw (add_carry sum w) (S + W).
Proof.
  intros (Hs & HS & (k & Hk) & Hz) Hw HW (j & Hj) Hwz.
  destruct (add_carry_rep sum sum w) as (R1 & R2 & (i & Hi) & R4); [|done|].
  { repeat split; try lia. exists 0. lia. }
  split; [done|]. split; [lia|]. split; [|lia].
  exists (k + j + i * 65537). lia.
Qed.

Lemma le16_range a b : is_byte a -> is_byte b -> 0 <= le16 a b < 65536.
Proof. unfold is_byte, le16. lia. Qed.

Ltac bytes_inv :=
  repeat match goal with
  | H : bytes (_ :: _) |- _ => apply Forall_cons_1 in H as [? ?]
  | H : Forall is_byte (_ :: _) |- _ => apply Forall_cons_1 in H as [? ?]
  end.

Lemma add_word_repw sum S a b :
  is_byte a -> is_byte b -> repw sum S -> repw (add_carry sum (le16 a b)) (S + le16 a b).
Proof.
  intros Ha Hb R. pose proof (le16_range a b Ha Hb).
  apply add_carry_repw; try done; try lia. by exists 0; lia.
Qed.

Lemma add_dword_repw sum S a b c d :
  is_byte a -> is_byte b -> is_byte c -> is_byte d -> repw sum S ->
  repw (add_carry sum (le32 a b c d)) (S + (le16 a b + le16 c d)).
Proof.
  intros Ha Hb Hc Hd R. unfold is_byte in *. apply add_carry_repw; try done.
  - unfold le32. lia.
  - unfold le16. lia.
  - exists (- (le16 c d)). unfold le16, le32. lia.
  - unfold le16, le32. lia.
Qed.

(** Induction two elements at a time. *)
Lemma list_ind2 {A} (P : list A -> Prop) :
  P [] -> (forall a, P [a]) -> (forall a b l, P l -> P (a :: b :: l)) -> forall l, P l.
Proof.
  intros H0 H1 H2 l. enough (P l /\ forall a, P (a :: l)) by tauto.
  induction l as [|a l [IH1 IH2]]; [by split|]. split; [apply IH2|]. intros b. by apply H2.
Qed.

Lemma sum_words_spec p : forall sum S,
  bytes p -> repw sum S ->
  let '(sum', r) := sum_words sum p in
  exists S', repw sum' S' /\ S' + word_sum r = S + word_sum p /\ bytes r
             /\ (r = [] \/ exists b, r = [b]).
Proof.
  induction p as [| |a b p IH] using list_ind2; intros sum S Hp R; simpl.
  - exists S. split_and!; auto.
  - exists S. split_and!; eauto.
  - bytes_inv. specialize (IH _ _ ltac:(done) (add_word_repw sum S a b ltac:(done) ltac:(done) R)).
    destruct sum_words as [sum' r]. destruct IH as (S' & ? & ? & ? & ?).
    exists S'. split_and!; try done. lia.
Qed.

Lemma sum_eights_spec n : forall p sum S,
  (length p <= n)%nat -> bytes p -> repw sum S ->
  let '(sum', r) := sum_eights sum p in
  exists S', repw sum' S' /\ S' + word_sum r = S + word_sum p /\ bytes r.
Proof.
  induction n as [|n IH]; intros p sum S Hn Hp R.
  { destruct p; simpl in *; [|lia]. exists S. auto. }
  destruct p as [|a [|b [|c [|d [|e [|f [|g [|h p]]]]]]]]; try (simpl; by exists S).
  cbn [sum_eights]. bytes_inv. simpl in Hn.
  specialize (IH p _ _ ltac:(lia) ltac:(done)
    (add_dword_repw _ _ e f g h ltac:(done) ltac:(done) ltac:(done) ltac:(done)
       (add_dword_repw sum S a b c d ltac:(done) ltac:(done) ltac:(done) ltac:(done) R))).
  destruct sum_eights as [sum' r]. destruct IH as (S' & ? & E & ?).
  exists S'. split_and!; try done. rewrite E. simpl. lia.
Qed.

(** The bytes still to be added: the odd one and those of the later buffers. *)
Definition pending (odd : option Z) (l : list Z) : list Z :=
  match odd with Some o => o :: l | None => l end.

Lemma word_sum_app_even l r : Nat.Even (length l) -> word_sum (l ++ r) = word_sum l + word_sum r.
Proof.
  induction l as [| |a b l IH] using list_ind2; intros He; simpl.
  - done.
  - by destruct He as [[|k] Hk]; simpl in Hk; lia.
  - rewrite IH; [lia|]. by apply Nat.Even_succ_succ.
Qed.

(** What the loops leave of a buffer, with what follows it. *)
Lemma sum_words_tail p sum r : forall rest,
  (sum_words sum p).2 = r -> word_sum (p ++ rest) - word_sum p = word_sum (r ++ rest) - word_sum r.
Proof.
  revert sum. induction p as [| |a b p IH] using list_ind2; intros sum rest; simpl.
  - by intros <-.
  - by intros <-.
  - intros H. specialize (IH _ rest H). lia.
Qed.

Lemma sum_eights_tail n : forall p sum rest, (length p <= n)%nat ->
  let r := (sum_eights sum p).2 in
  word_sum (p ++ rest) - word_sum p = word_sum (r ++ rest) - word_sum r.
Proof.
  induction n as [|n IH]; intros p sum rest Hn.
  { destruct p; simpl in *; [done|lia]. }
  destruct p as [|a [|b [|c [|d [|e [|f [|g [|h p]]]]]]]]; try done.
  cbn [sum_eights]. simpl in Hn. specialize (IH p
    (add_carry (add_carry sum (le32 a b c d)) (le32 e f g h)) rest ltac:(lia)).
  simpl in *. lia.
Qed.

Lemma sum_buffer_spec sum S odd buf rest :
  repw sum S -> bytes buf -> (forall o, odd = Some o -> is_byte o) ->
  let '(sum', odd') := sum_buffer sum odd buf in
  exists S', repw sum' S' /\ (forall o, odd' = Some o -> is_byte o)
    /\ S' + word_sum (pending odd' rest) = S + word_sum (pending odd (buf ++ rest)).
Proof.
  intros R Hb Ho. destruct buf as [|first tl]; [by exists S|].
  cbn [sum_buffer].
  set (start := match odd with Some o => (add_carry sum (le16 o first), tl)
                | None => (sum, first :: tl) end).
  assert (exists S1, repw start.1 S1 /\ bytes start.2
    /\ S1 + word_sum (start.2 ++ rest) = S + word_sum (pending odd ((first :: tl) ++ rest)))
    as (S1 & R1 & B1 & E1).
  { subst start. destruct odd as [o|]; simpl.
    - bytes_inv. exists (S + le16 o first). split_and!; [|done|lia].
      apply add_word_repw; auto.
    - exists S. auto. }
  destruct start as [s1 p1]. simpl in R1, B1, E1.
  pose proof (sum_eights_spec (length p1) p1 s1 S1 (le_n _) B1 R1) as H8.
  pose proof (sum_eights_tail (length p1) p1 s1 rest (le_n _)) as T8.
  destruct (sum_eights s1 p1) as [s2 p2]. destruct H8 as (S2 & R2 & E2 & B2). simpl in T8.
  pose proof (sum_words_spec p2 s2 S2 B2 R2) as Hw.
  pose proof (sum_words_tail p2 s2 _ rest eq_refl) as Tw.
  destruct (sum_words s2 p2) as [s3 p3]. destruct Hw as (S3 & R3 & E3 & B3 & Hp3).
  simpl in Tw. exists S3. split; [done|]. destruct Hp3 as [->|(b & ->)]; simpl in *.
  - split; [done|]. lia.
  - split; [|lia]. intros o [= <-]. by bytes_inv.
Qed.

Lemma sum_iov_spec iov : forall sum S odd,
  repw sum S -> Forall bytes iov -> (forall o, odd = Some o -> is_byte o) ->
  repw (sum_iov sum odd iov) (S + word_sum (pending odd (concat iov))).
Proof.
  induction iov as [|buf iov IH]; intros sum S odd R Hb Ho; simpl.
  - destruct odd as [o|]; simpl.
    + apply add_word_repw; [auto|unfold is_byte; lia|done].
    + by rewrite Z.add_0_r.
  - apply Forall_cons_1 in Hb as [Hb1 Hb2].
    pose proof (sum_buffer_spec sum S odd buf (concat iov) R Hb1 Ho) as H.
    destruct sum_buffer as [sum' odd']. destruct H as (S' & R' & Ho' & E).
    rewrite <- E. by apply IH.
Qed.

(** Folding the carries. *)
Lemma fold_spec sum S :
  repw sum S ->
  let s1 := Z.shiftr sum 16 + Z.land sum 0xffff in
  let s2 := s1 + Z.shiftr s1 16 in
  u16 (Z.lnot s2) = 65535 - ones16 S.
Proof.
  intros (Hs & HS & (k & Hk) & Hz). unfold u16, ones16, Z.lnot.
  assert (forall z, Z.shiftr z 16 = z / 65536) as Sh by (intros; by rewrite Z.shiftr_div_pow2).
  assert (Z.land sum 0xffff = sum mod 65536) as ->.
  { change 0xffff with (Z.ones 16). by rewrite Z.land_ones. }
  rewrite !Sh.
  pose proof (Z.div_mod sum 65536 ltac:(lia)) as D.
  pose proof (Z.mod_pos_bound sum 65536 ltac:(lia)).
  assert (0 <= sum / 65536 < 65536) by (split; [apply Z.div_pos|apply Z.div_lt_upper_bound]; lia).
  set (hi := sum / 65536) in *. set (lo := sum mod 65536) in *. clearbody hi lo.
  cbv zeta. set (s1 := hi + lo).
  assert (exists f, s1 + s1 / 65536 = f + 65536 * (s1 / 65536) /\ 0 <= f <= 65535
    /\ (f = 0 <-> S = 0) /\ exists j, S - f = j * 65535) as (f & -> & Hf & Hfz & j & Hj).
  { destruct (Z.lt_ge_cases s1 65536) as [H1|H1].
    - exists s1. rewrite Z.div_small by lia. unfold s1 in *.
      repeat split; try lia. exists (k + hi). lia.
    - assert (s1 / 65536 = 1) as -> by (symmetry; apply (Z.div_unique _ _ 1 (s1 - 65536)); unfold s1 in *; lia).
      exists (s1 - 65535). unfold s1 in *. repeat split; try lia. exists (k + hi + 1). lia. }
  assert (Z.pred (- (f + 65536 * (s1 / 65536))) mod 65536 = 65535 - f) as ->.
  { symmetry. apply (Z.mod_unique _ _ (- (s1 / 65536) - 1)); lia. }
  f_equal. destruct (Z.eqb_spec S 0) as [E|E]; [lia|].
  assert ((S - 1) mod 65535 = f - 1) as ->; [|lia].
  symmetry. apply (Z.mod_unique _ _ j); lia.
Qed.

Lemma in_cksumv_spec iov :
  Forall bytes iov -> in_cksumv iov = 65535 - ones16 (word_sum (concat iov)).
Proof.
  intros Hb. unfold in_cksumv. apply (fold_spec _ (0 + word_sum (pending None (concat iov)))).
  apply sum_iov_spec; [|done|done]. repeat split; try lia. by exists 0.
Qed.

(** C35: the checksum of an I/O vector is the RFC 1071 checksum of the
    concatenation of its buffers: the ones' complement of the ones'-complement
    sum of the 16-bit words, however the bytes are split into buffers. *)
Theorem in_cksumv_rfc1071 iov :
  Forall bytes iov -> in_cksumv iov = 65535 - ones16 (word_sum (concat iov)).
Proof. apply in_cksumv_spec. Qed.

Lemma in_cksumv_rfc1071_witness :
  in_cksumv [[0x45; 0x00; 0x00]; [0x1c]] = 65535 - ones16 (word_sum [0x45; 0x00; 0x00; 0x1c]).
Proof.
  apply (in_cksumv_rfc1071 [[0x45; 0x00; 0x00]; [0x1c]]).
  repeat constructor; lia.
Defined.

Lemma word_sum_nonneg l : bytes l -> 0 <= word_sum l.
Proof.
  induction l as [| |a b l IH] using list_ind2; intros H; simpl; bytes_inv;
    unfold is_byte, le16 in *; [lia|lia|]. specialize (IH ltac:(done)). lia.
Qed.

(** A packet carrying its own checksum in a 16-bit aligned field
    verifies: recomputing the checksum over it gives 0. *)
Theorem in_cksum_verifies pre post :
  bytes pre -> bytes post -> Nat.Even (length pre) ->
  let c := in_cksum (pre ++ [0; 0] ++ post) in
  in_cksum (pre ++ [c mod 256; c / 256] ++ post) = 0.
Proof.
  intros Hp Hq He c. unfold in_cksum in *.
  assert (Forall bytes [pre ++ [0; 0] ++ post]) as H0.
  { constructor; [|done]. apply Forall_app_2; [done|].
    repeat (constructor; [unfold is_byte; lia|]). done. }
  pose proof (in_cksumv_spec _ H0) as Ec. fold c in Ec.
  simpl in Ec. rewrite app_nil_r in Ec.
  rewrite word_sum_app_even in Ec by done. simpl in Ec.
  pose proof (word_sum_nonneg pre Hp). pose proof (word_sum_nonneg post Hq).
  set (S := word_sum pre + (le16 0 0 + word_sum post)) in *.
  assert (0 <= S) by (unfold S, le16; lia).
  assert (0 <= c < 65536) as Hc.
  { rewrite Ec. unfold ones16. case_bool; [lia|].
    pose proof (Z.mod_pos_bound (S - 1) 65535 ltac:(lia)). lia. }
  pose proof (Z.div_mod c 256 ltac:(lia)). pose proof (Z.mod_pos_bound c 256 ltac:(lia)).
  assert (0 <= c / 256 < 256) by (split; [apply Z.div_pos|apply Z.div_lt_upper_bound]; lia).
  rewrite in_cksumv_spec.
  2:{ constructor; [|done]. apply Forall_app_2; [done|].
      constructor; [done|]. constructor; [done|done]. }
  simpl. rewrite app_nil_r, word_sum_app_even by done. simpl.
  assert (le16 (c mod 256) (c / 256) = c) as -> by (unfold le16; lia).
  assert (word_sum pre + (c + word_sum post) = S + c) as -> by (unfold S, le16; lia).
  rewrite Ec. unfold ones16 at 2. destruct (Z.eqb_spec S 0) as [E|E].
  - rewrite E. reflexivity.
  - pose proof (Z.div_mod (S - 1) 65535 ltac:(lia)) as D.
    pose proof (Z.mod_pos_bound (S - 1) 65535 ltac:(lia)).
    assert (0 <= (S - 1) / 65535) by (apply Z.div_pos; lia).
    unfold ones16. rewrite (proj2 (Z.eqb_neq _ _)) by lia.
    assert ((S + (65535 - ((S - 1) mod 65535 + 1)) - 1) mod 65535 = 65534) as ->; [|lia].
    symmetry. apply (Z.mod_unique _ _ ((S - 1) / 65535)); lia.
Qed.

Lemma in_cksum_verifies_witness :
  let c := in_cksum ([0x45; 0x00] ++ [0; 0] ++ [0x7f; 0x01; 0x09]) in
  in_cksum ([0x45; 0x00] ++ [c mod 256; c / 256] ++ [0x7f; 0x01; 0x09]) = 0.
Proof.
  apply (in_cksum_verifies [0x45; 0x00] [0x7f; 0x01; 0x09]);
    [repeat constructor; lia|repeat constructor; lia|exists 1%nat; reflexivity].
Defined.

(** ** Fletcher checksums verify *)

(** The two sums a block of bytes adds to, as plain numbers. *)
Fixpoint fsum0 (p : list Z) : Z :=
  match p with [] => 0 | b :: p => b + fsum0 p end.
Fixpoint fsum1 (p : list Z) : Z :=
  match p with [] => 0 | b :: p => Z.of_nat (S (length p)) * b + fsum1 p end.

Lemma int_add_small a b :
  -2147483648 <= a + b <= 2147483647 -> int_add a b = Ret (a + b).
Proof.
  intros H. unfold int_add.
  by rewrite (proj2 (Z.leb_le _ _)), (proj2 (Z.leb_le _ _)) by lia.
Qed.

(** [k] bytes into a block, [c1] is still far from the end of the range; the
    bound for [k] = 4102 is the reason for the constant MODX. *)
Lemma fletcher_block_spec p : forall k c0 c1,
  bytes p -> 0 <= k -> k + Z.of_nat (length p) <= MODX ->
  0 <= c0 <= 254 + 255 * k -> 0 <= c1 -> 2 * c1 <= 508 + 508 * k + 255 * k * (k + 1) ->
  fletcher_block c0 c1 p
  = Ret (c0 + fsum0 p, c1 + Z.of_nat (length p) * c0 + fsum1 p).
Proof.
  induction p as [|b p IH]; intros k c0 c1 Hp Hk Hlen H0 H1 H2; cbn [fletcher_block].
  { simpl. do 2 f_equal; lia. }
  bytes_inv. unfold is_byte in *. unfold MODX in *. rewrite length_cons in Hlen.
  assert (k <= 4101) as Hk2 by lia.
  assert (k * k <= 4101 * 4101) by nia.
  rewrite int_add_small by lia. cbn [mbind outcome_bind].
  rewrite int_add_small by lia. cbn [mbind outcome_bind].
  rewrite (IH (k + 1)); [|done|lia|lia|lia|lia|lia].
  cbn [fsum0 fsum1]. rewrite !length_cons. do 2 f_equal; lia.
Qed.

Lemma fsum_nonneg p : bytes p -> 0 <= fsum0 p /\ 0 <= fsum1 p.
Proof.
  induction p as [|b p IH]; intros Hp; cbn [fsum0 fsum1]; [lia|].
  bytes_inv. unfold is_byte in *. destruct (IH ltac:(done)). nia.
Qed.

Lemma fsum_app p q :
  fsum0 (p ++ q) = fsum0 p + fsum0 q
  /\ fsum1 (p ++ q) = fsum1 p + Z.of_nat (length q) * fsum0 p + fsum1 q.
Proof.
  induction p as [|b p [IH0 IH1]]; cbn [app fsum0 fsum1]; [lia|].
  rewrite IH0, IH1, length_app. lia.
Qed.

Definition eq255 (a b : Z) : Prop := a mod 255 = b mod 255.

Lemma eq255_spec a b : eq255 a b <-> exists k, a - b = k * 255.
Proof.
  unfold eq255. split.
  - intros E. pose proof (Z.div_mod a 255 ltac:(lia)). pose proof (Z.div_mod b 255 ltac:(lia)).
    exists (a / 255 - b / 255). lia.
  - intros [k Hk]. replace a with (b + k * 255) by lia. by rewrite Z.mod_add.
Qed.

(** The loop terminates, never overflows an [int], and computes both sums
    modulo 255. *)
Lemma fletcher_loop_spec fuel : forall p c0 c1,
  bytes p -> (length p <= fuel)%nat -> 0 <= c0 < 255 -> 0 <= c1 < 255 ->
  exists r0 r1, fletcher_loop fuel c0 c1 p = Ret (r0, r1)
    /\ 0 <= r0 < 255 /\ 0 <= r1 < 255 /\ eq255 r0 (c0 + fsum0 p)
    /\ eq255 r1 (c1 + Z.of_nat (length p) * c0 + fsum1 p).
Proof.
  induction fuel as [|fuel IH]; intros p c0 c1 Hp Hlen H0 H1.
  - destruct p; simpl in Hlen; [|lia]. exists c0, c1. simpl. split_and!; try done; try lia.
    + f_equal; lia.
    + unfold eq255. f_equal; lia.
  - destruct (decide (p = [])) as [->|Hne].
    { exists c0, c1. simpl. split_and!; try done; try lia; unfold eq255; f_equal; lia. }
    set (m := Z.to_nat (Z.min (Z.of_nat (length p)) MODX)).
    assert (0 < length p)%nat by (destruct p; [done|simpl; lia]).
    assert (0 < m <= length p)%nat as Hm by (unfold m, MODX; lia).
    assert (fletcher_loop (S fuel) c0 c1 p = '(a0, a1) ← fletcher_block c0 c1 (take m p);
      fletcher_loop fuel (Z.rem a0 255) (Z.rem a1 255) (drop m p)) as -> by (destruct p; done).
    pose proof Hp as Hp'. rewrite <- (take_drop m p) in Hp'. apply Forall_app in Hp' as [Hp1 Hp2].
    rewrite (fletcher_block_spec _ 0); [|done|lia|rewrite length_take; unfold m, MODX; lia|lia..].
    cbn [mbind outcome_bind].
    destruct (fsum_nonneg _ Hp1) as [N0 N1].
    set (a0 := c0 + fsum0 (take m p)).
    set (a1 := c1 + Z.of_nat (length (take m p)) * c0 + fsum1 (take m p)).
    assert (0 <= a0) as Ha0 by lia. assert (0 <= a1) as Ha1 by (unfold a1; nia).
    rewrite !Z.rem_mod_nonneg by lia.
    destruct (IH (drop m p) (a0 mod 255) (a1 mod 255)) as (r0 & r1 & E & R0 & R1 & E0 & E1);
      [done|rewrite length_drop; lia|apply Z.mod_pos_bound; lia..|].
    exists r0, r1. split_and!; try done; try lia.
    + rewrite <- (take_drop m p) at 1. rewrite (proj1 (fsum_app _ _)).
      rewrite eq255_spec in E0 |- *. destruct E0 as [k Hk].
      pose proof (Z.div_mod a0 255 ltac:(lia)). exists (k - a0 / 255). unfold a0 in *. lia.
    + rewrite <- (take_drop m p). rewrite (proj2 (fsum_app _ _)), length_app.
      rewrite eq255_spec in E1 |- *. destruct E1 as [k Hk].
      pose proof (Z.div_mod a0 255 ltac:(lia)). pose proof (Z.div_mod a1 255 ltac:(lia)).
      set (n := Z.of_nat (length (drop m p))) in *.
      exists (k - a1 / 255 - n * (a0 / 255)).
      rewrite Nat2Z.inj_add. fold n.
      assert (n * a0 = n * (255 * (a0 / 255) + a0 mod 255)) as Hn by (f_equal; lia).
      unfold a1 in *. unfold a0 in Hn at 1. lia.
Qed.

Lemma fsum_insert p i b :
  (i < length p)%nat ->
  fsum0 (<[i:=b]> p) = fsum0 p + (b - byte_at p i)
  /\ fsum1 (<[i:=b]> p) = fsum1 p + Z.of_nat (length p - i) * (b - byte_at p i).
Proof.
  revert i. induction p as [|a p IH]; intros i Hi; simpl in Hi; [lia|].
  destruct i as [|i].
  - change (<[0%nat:=b]> (a :: p)) with (b :: p). cbn [fsum0 fsum1 length].
    unfold byte_at. simpl. lia.
  - change (<[S i:=b]> (a :: p)) with (a :: <[i:=b]> p). cbn [fsum0 fsum1 length].
    rewrite byte_at_cons, length_insert. destruct (IH i) as [-> ->]; [lia|]. lia.
Qed.

(** The check bytes [x] and [y] computed from the sums [c0] and [c1]. *)
Lemma check_bytes len off c0 c1 :
  0 <= off -> off + 1 < len -> len <= 8388608 -> 0 <= c0 < 255 -> 0 <= c1 < 255 ->
  let x0 := Z.rem (s32 (u64 (u64 (u64 (len - off - 1) * c0) - c1))) 255 in
  let x := if x0 <=? 0 then x0 + 255 else x0 in
  let y0 := 510 - c0 - x in
  let y := if 255 <? y0 then y0 - 255 else y0 in
  0 < x <= 255 /\ 0 < y <= 255 /\ eq255 (c0 + x + y) 0
  /\ eq255 (c1 + (len - off) * x + (len - off - 1) * y) 0.
Proof.
  intros H1 H2 H3 Hc0 Hc1 x0 x y0 y.
  assert (exists k, x0 = (len - off - 1) * c0 - c1 - k * 255 /\ -255 < x0 < 255) as (k & Hk & Hx0).
  { unfold x0. set (v := (len - off - 1) * c0 - c1).
    assert (0 <= (len - off - 1) * c0 <= 8388608 * 254) by nia.
    assert (s32 (u64 (u64 (u64 (len - off - 1) * c0) - c1)) = v) as ->.
    { rewrite (u64_small (len - off - 1)) by lia. rewrite (u64_small (_ * _)) by lia.
      fold v. unfold s32, u64. destruct (Z.lt_ge_cases v 0).
      - assert (v mod 18446744073709551616 = v + 18446744073709551616) as ->
          by (symmetry; apply (Z.mod_unique _ _ (-1)); lia).
        assert ((v + 18446744073709551616 + 2147483648) mod 4294967296 = v + 2147483648) as ->;
          [|lia]. symmetry. apply (Z.mod_unique _ _ 4294967296); lia.
      - rewrite (Z.mod_small v) by lia. rewrite Z.mod_small; lia. }
    exists (Z.quot v 255). pose proof (Z.quot_rem v 255 ltac:(lia)).
    pose proof (Z.rem_bound_abs v 255 ltac:(lia)). lia. }
  assert (exists j, x = x0 + j * 255 /\ 0 < x <= 255) as (j & Hj & Hx).
  { unfold x. case_bool; [exists 1|exists 0]; lia. }
  assert (exists i, y = y0 - i * 255 /\ 0 < y <= 255) as (i & Hi & Hy).
  { unfold y. case_bool; [exists 1|exists 0]; unfold y0 in *; lia. }
  clearbody x y. unfold y0 in Hi. split_and!; try lia; rewrite eq255_spec.
  - exists (2 - i). lia.
  - exists (- k + j + (len - off - 1) * (2 - i)).
    assert ((len - off) * x + (len - off - 1) * y
            = x + (len - off - 1) * (510 - c0 - i * 255)) as E by (rewrite Hi; ring).
    rewrite <- Z.add_assoc, E, Hj, Hk. ring.
Qed.

Lemma validate_spec p :
  bytes p -> eq255 (fsum0 p) 0 -> eq255 (fsum1 p) 0 ->
  fletcher_checksum p FLETCHER_CHECKSUM_VALIDATE = Ret (0, p).
Proof.
  intros Hp E0 E1. unfold fletcher_checksum. rewrite Z.eqb_refl. cbn [mbind outcome_bind].
  destruct (fletcher_loop_spec (length p) p 0 0) as (r0 & r1 & -> & R0 & R1 & S0 & S1);
    [done|lia..|].
  cbn [mbind outcome_bind]. rewrite Z.add_0_l in S0. rewrite Z.mul_0_r, !Z.add_0_l in S1.
  unfold eq255 in *. rewrite E0 in S0. rewrite E1 in S1. rewrite !Z.mod_small in S0, S1 by lia.
  by subst.
Qed.

(** The buffer with its check bytes set to [x] and [y]. *)
Lemma check_inserted p i x y :
  (S i < length p)%nat ->
  let z := <[S i := 0]> (<[i := 0]> p) in
  let q := <[S i := y]> (<[i := x]> z) in
  length z = length p /\ length q = length p
  /\ fsum0 q = fsum0 z + x + y
  /\ fsum1 q = fsum1 z + Z.of_nat (length p - i) * x + Z.of_nat (length p - S i) * y.
Proof.
  intros Hi z q.
  assert (length z = length p) as Lz by (unfold z; by rewrite !length_insert).
  assert (byte_at z i = 0 /\ byte_at z (S i) = 0) as [Zi Zs].
  { unfold z. rewrite !byte_at_insert by (rewrite ?length_insert; lia).
    rewrite decide_False, !decide_True by lia. done. }
  assert (byte_at (<[i:=x]> z) (S i) = 0) as Zx
    by (rewrite byte_at_insert, decide_False by lia; done).
  unfold q. rewrite !length_insert.
  destruct (fsum_insert z i x ltac:(lia)) as [A0 A1].
  destruct (fsum_insert (<[i:=x]> z) (S i) y) as [B0 B1]; [rewrite length_insert; lia|].
  rewrite length_insert, Zx, A1 in B1. rewrite Zx, A0 in B0. rewrite Zi, Lz in *.
  split_and!; lia.
Qed.

(** C36: Fletcher checksums. On a buffer of at most 8 MiB with room for the two check bytes
    at an offset below 65535, [fletcher_checksum] never overflows its [int]
    accumulators and returns; it changes only the check bytes, returns them in
    network order, and the buffer it leaves passes validation. *)
Theorem fletcher_checksum_verifies buffer offset :
  bytes buffer -> Z.of_nat (length buffer) <= 8388608 ->
  0 <= offset < 65535 -> offset + 1 < Z.of_nat (length buffer) ->
  exists c buffer', fletcher_checksum buffer offset = Ret (c, buffer')
    /\ length buffer' = length buffer
    /\ (forall j, j <> Z.to_nat offset -> j <> S (Z.to_nat offset) ->
          byte_at buffer' j = byte_at buffer j)
    /\ c = le16 (byte_at buffer' (Z.to_nat offset)) (byte_at buffer' (S (Z.to_nat offset)))
    /\ fletcher_checksum buffer' FLETCHER_CHECKSUM_VALIDATE = Ret (0, buffer').
Proof.
  intros Hb Hlen Ho Hroom.
  assert (exists i, offset = Z.of_nat i) as [i ->] by (exists (Z.to_nat offset); lia).
  rewrite Nat2Z.id.
  set (z := <[S i := 0]> (<[i := 0]> buffer)).
  assert (bytes z) as Hz.
  { unfold z. apply Forall_insert; [|by unfold is_byte]. apply Forall_insert; [done|by unfold is_byte]. }
  assert (length z = length buffer) as Lz by (unfold z; by rewrite !length_insert).
  unfold fletcher_checksum at 1. unfold FLETCHER_CHECKSUM_VALIDATE at 1 2.
  rewrite (proj2 (Z.eqb_neq _ _)) by lia. rewrite (u64_small (Z.of_nat (length buffer) - 1)) by lia.
  rewrite (proj2 (Z.ltb_lt (Z.of_nat i) (Z.of_nat (length buffer) - 1))) by lia.
  replace (Z.of_nat i + 1) with (Z.of_nat (S i)) by lia.
  assert (forall l b j, (j < length l)%nat -> store l (Z.of_nat j) b = Ret (<[j:=b]> l)) as Hst.
  { intros l b j Hj. unfold store. rewrite (proj2 (Z.ltb_lt _ _)) by lia. by rewrite Nat2Z.id. }
  rewrite Hst by lia. cbn [mbind outcome_bind].
  rewrite Hst by (rewrite length_insert; lia). cbn [mbind outcome_bind]. fold z.
  destruct (fletcher_loop_spec (length z) z 0 0) as (c0 & c1 & -> & R0 & R1 & S0 & S1);
    [done|lia..|].
  cbn [mbind outcome_bind]. rewrite Z.add_0_l in S0. rewrite Z.mul_0_r, !Z.add_0_l in S1.
  pose proof (check_bytes (Z.of_nat (length buffer)) (Z.of_nat i) c0 c1
    ltac:(lia) ltac:(lia) ltac:(lia) R0 R1) as HC.
  cbv zeta in HC |- *. set (x := if _ <=? 0 then _ else _) in *.
  set (y := if 255 <? _ then _ else _) in *. clearbody x y.
  destruct HC as (Hx & Hy & E0 & E1).
  rewrite (u8_small x), (u8_small y) by lia.
  assert (Z.land y 255 = y) as ->.
  { change 255 with (Z.ones 8). rewrite Z.land_ones by lia. apply Z.mod_small. lia. }
  rewrite Hst by lia. cbn [mbind outcome_bind].
  rewrite Hst by (rewrite length_insert; lia). cbn [mbind outcome_bind].
  set (q := <[S i:=y]> (<[i:=x]> z)).
  destruct (check_inserted buffer i x y ltac:(lia)) as (_ & Lq & F0 & F1). fold z in F0, F1. fold q in F0, F1, Lq.
  exists (le16 x y), q. split_and!; [done|done| | |].
  - intros j Hj1 Hj2. unfold q, z. rewrite !byte_at_insert by (rewrite ?length_insert; lia).
    by rewrite !decide_False by done.
  - unfold q. rewrite !byte_at_insert by (rewrite ?length_insert; lia).
    rewrite decide_False, !decide_True by lia. done.
  - apply validate_spec.
    + unfold q. apply Forall_insert; [|unfold is_byte; lia].
      apply Forall_insert; [done|unfold is_byte; lia].
    + rewrite F0. rewrite eq255_spec in *. destruct S0 as [k0 K0], E0 as [k K].
      exists (k - k0). lia.
    + rewrite F1. rewrite eq255_spec in *. destruct S1 as [k0 K0], E1 as [k K].
      exists (k - k0). rewrite !Nat2Z.inj_sub by lia. lia.
Qed.

Lemma fletcher_checksum_verifies_witness :
  exists c b, fletcher_checksum [1; 2; 3; 4; 5; 6] 2 = Ret (c, b)
    /\ fletcher_checksum b FLETCHER_CHECKSUM_VALIDATE = Ret (0, b).
Proof.
  destruct (fletcher_checksum_verifies [1; 2; 3; 4; 5; 6] 2) as (c & b & E & _ & _ & _ & V).
  - repeat constructor; lia.
  - simpl. lia.
  - lia.
  - simpl. lia.
  - exists c, b. split; [exact E|exact V].
Defined.
