(* ===== verification/RingBuf.v ===== *)
(** * Ring buffers (lib/ringbuf.c)

    A fixed-size circular byte buffer.  The abstract specification is a FIFO
    queue of at most [size] bytes; every operation refines its queue operation. *)

From S2P Require Import Prelude.

Record ringbuf := mkRing {
  size : Z;
  start : Z;
  end_ : Z;
  empty : bool;
  data : list Z
}.

Definition ringbuf_new (sz : Z) : ringbuf :=
  mkRing sz 0 0 true (replicate (Z.to_nat sz) 0).

(** [diff] is an [ssize_t]; sizes stay below 2^63, so only the final conversion
    to [size_t] needs the wrap-around. *)
Definition ringbuf_remain (buf : ringbuf) : Z :=
  let diff := end_ buf - start buf in
  let diff := diff + (if (diff =? 0) && negb (empty buf) then size buf else 0) in
  let diff := diff + (if diff <? 0 then size buf else 0) in
  u64 diff.

Definition ringbuf_space (buf : ringbuf) : Z := u64 (size buf - ringbuf_remain buf).

(** The bytes [memcpy (_, buf->data + from, n)] reads. *)
Definition read_at (buf : ringbuf) (from n : Z) : list Z :=
  take (Z.to_nat n) (drop (Z.to_nat from) (data buf)).

Definition ringbuf_put (buf : ringbuf) (dp : list Z) : Z * ringbuf :=
  let space := ringbuf_space buf in
  let copysize := Z.min (Z.of_nat (length dp)) space in
  let tocopy := copysize in
  let '(d, e, tocopy, dp) :=
    if size buf - end_ buf <=? tocopy then
      let ts := size buf - end_ buf in
      (memcpy_at (data buf) (Z.to_nat (end_ buf)) (take (Z.to_nat ts) dp), 0,
       tocopy - ts, drop (Z.to_nat ts) dp)
    else (data buf, end_ buf, tocopy, dp) in
  let d := memcpy_at d (Z.to_nat e) (take (Z.to_nat tocopy) dp) in
  let e := e + tocopy in
  (copysize,
   mkRing (size buf) (start buf) e
     ((start buf =? e) && (empty buf && (copysize =? 0))) d).

Definition ringbuf_get (buf : ringbuf) (sz : Z) : list Z * ringbuf :=
  let remain := ringbuf_remain buf in
  let copysize := Z.min remain sz in
  let tocopy := copysize in
  let '(out, s, tocopy) :=
    if size buf - start buf <=? tocopy then
      let ts := size buf - start buf in (read_at buf (start buf) ts, 0, tocopy - ts)
    else ([], start buf, tocopy) in
  let out := out ++ read_at buf s tocopy in
  let s := s + tocopy in
  (out,
   mkRing (size buf) s (end_ buf)
     ((s =? end_ buf) && (empty buf || negb (copysize =? 0))) (data buf)).

Definition ringbuf_peek (buf : ringbuf) (offset sz : Z) : list Z :=
  let remain := ringbuf_remain buf in
  if remain <=? offset then []
  else
    let copysize := Z.max (Z.min (remain - offset) sz) 0 in
    let tocopy := copysize in
    let cstart := u64 (start buf + offset) mod size buf in
    let '(out, cstart, tocopy) :=
      if size buf - cstart <=? tocopy then
        let ts := size buf - cstart in (read_at buf cstart ts, 0, tocopy - ts)
      else ([], cstart, tocopy) in
    out ++ read_at buf cstart tocopy.

Definition ringbuf_copy (to from : ringbuf) (sz : Z) : Z * ringbuf :=
  let tocopy := Z.min (ringbuf_space to) sz in
  let cbuf := ringbuf_peek from 0 tocopy in
  ringbuf_put to cbuf.

Definition ringbuf_reset (buf : ringbuf) : ringbuf :=
  mkRing (size buf) 0 0 true (data buf).

Definition ringbuf_wipe (buf : ringbuf) : ringbuf :=
  ringbuf_reset (mkRing (size buf) (start buf) (end_ buf) (empty buf)
                   (replicate (Z.to_nat (size buf)) 0)).

(** ** Invariant and abstraction *)

Record wf_ring (b : ringbuf) : Prop := {
  wr_size : 0 < size b < 9223372036854775808;
  wr_start : 0 <= start b < size b;
  wr_end : 0 <= end_ b < size b;
  wr_empty : empty b = true -> start b = end_ b;
  wr_data : Z.of_nat (length (data b)) = size b
}.

(** How many bytes are held. *)
Definition held (b : ringbuf) : Z :=
  if start b <? end_ b then end_ b - start b
  else if end_ b <? start b then end_ b - start b + size b
  else if empty b then 0 else size b.

(** The queue a buffer stands for. *)
Definition ring_byte (b : ringbuf) (i : nat) : Z :=
  byte_at (data b) (Z.to_nat ((start b + Z.of_nat i) mod size b)).
Definition contents (b : ringbuf) : list Z :=
  map (ring_byte b) (seq 0 (Z.to_nat (held b))).

Lemma held_range b : wf_ring b -> 0 <= held b <= size b.
Proof. intros [? ? ? ? ?]. unfold held. repeat case_bool; lia. Qed.

Lemma remain_held b : wf_ring b -> ringbuf_remain b = held b.
Proof.
  intros W. pose proof (held_range b W). destruct W as [? ? ? He ?].
  unfold ringbuf_remain, held in *.
  destruct (Z.eqb_spec (end_ b - start b) 0) as [E|E].
  - rewrite (proj2 (Z.ltb_ge (start b) _)) in * by lia.
    rewrite (proj2 (Z.ltb_ge (end_ b) _)) in * by lia.
    rewrite E. destruct (empty b); simpl; [done|].
    rewrite (proj2 (Z.ltb_ge (size b) _)) by lia. rewrite u64_small; lia.
  - simpl. rewrite !Z.add_0_r.
    destruct (Z.ltb_spec (end_ b - start b) 0), (Z.ltb_spec (start b) (end_ b)),
      (Z.ltb_spec (end_ b) (start b)); try lia; rewrite u64_small; lia.
Qed.

Lemma space_held b : wf_ring b -> ringbuf_space b = size b - held b.
Proof.
  intros W. unfold ringbuf_space. rewrite remain_held by done.
  pose proof (held_range b W). destruct W. apply u64_small. lia.
Qed.

Lemma length_contents b : length (contents b) = Z.to_nat (held b).
Proof. unfold contents. by rewrite length_map, length_seq. Qed.

Lemma lookup_contents b i :
  contents b !! i = if decide (i < Z.to_nat (held b))%nat then Some (ring_byte b i) else None.
Proof.
  unfold contents. case_decide.
  - rewrite list_lookup_fmap, lookup_seq_lt by done. done.
  - apply lookup_ge_None_2. rewrite length_map, length_seq. lia.
Qed.

(** One wrap-around suffices for the indices the code uses. *)
Lemma wrap_index x n : 0 < n -> 0 <= x < 2 * n -> x mod n = if x <? n then x else x - n.
Proof.
  intros Hn Hx. destruct (Z.ltb_spec x n).
  - apply Z.mod_small. lia.
  - symmetry. apply (Z.mod_unique _ _ 1); lia.
Qed.

(** A read of [n] bytes in one or two pieces from position [s]. *)
Lemma read_wrapped b s n :
  0 < size b -> Z.of_nat (length (data b)) = size b -> 0 <= s < size b -> 0 <= n <= size b ->
  let '(out, s', n') := if size b - s <=? n then (read_at b s (size b - s), 0, n - (size b - s))
                       else ([], s, n) in
  out ++ read_at b s' n'
  = map (fun i => byte_at (data b) (Z.to_nat ((s + Z.of_nat i) mod size b))) (seq 0 (Z.to_nat n))
  /\ s' + n' = (s + n) mod size b.
Proof.
  intros Hsz Hd Hs Hn.
  assert (forall from k, 0 <= from -> 0 <= k -> from + k <= size b ->
    length (read_at b from k) = Z.to_nat k /\
    forall i, (i < Z.to_nat k)%nat ->
      read_at b from k !! i = Some (byte_at (data b) (Z.to_nat from + i))) as Hrd.
  { intros from k H1 H2 H3. unfold read_at. split.
    - rewrite length_take, length_drop. lia.
    - intros i Hi. rewrite lookup_take_lt, lookup_drop by lia.
      unfold byte_at. destruct (lookup_lt_is_Some_2 (data b) (Z.to_nat from + i)) as [v Hv]; [lia|].
      by rewrite Hv. }
  assert (forall l, (forall i, l !! i = if decide (i < Z.to_nat n)%nat
            then Some (byte_at (data b) (Z.to_nat ((s + Z.of_nat i) mod size b))) else None) ->
          l = map (fun i => byte_at (data b) (Z.to_nat ((s + Z.of_nat i) mod size b)))
                (seq 0 (Z.to_nat n))) as Hext.
  { intros l Hl. apply list_eq. intros i. rewrite Hl, list_lookup_fmap. case_decide.
    - by rewrite lookup_seq_lt.
    - rewrite lookup_seq_ge by lia. done. }
  destruct (Z.leb_spec (size b - s) n) as [H|H].
  - destruct (Hrd s (size b - s)) as [L1 R1]; [lia..|].
    destruct (Hrd 0 (n - (size b - s))) as [L2 R2]; [lia..|].
    split.
    + apply Hext. intros i. case_decide.
      * rewrite wrap_index by lia. destruct (Z.ltb_spec (s + Z.of_nat i) (size b)).
        -- rewrite lookup_app_l by lia. rewrite R1 by lia. do 2 f_equal. lia.
        -- rewrite lookup_app_r by lia. rewrite R2 by lia. do 2 f_equal. lia.
      * apply lookup_ge_None_2. rewrite length_app. lia.
    + rewrite wrap_index by lia. case_bool; lia.
  - destruct (Hrd s n) as [L1 R1]; [lia..|]. split.
    + apply Hext. intros i. simpl. case_decide.
      * rewrite wrap_index by lia. rewrite (proj2 (Z.ltb_lt _ _)) by lia.
        rewrite R1 by lia. do 2 f_equal. lia.
      * apply lookup_ge_None_2. lia.
    + rewrite wrap_index by lia. rewrite (proj2 (Z.ltb_lt _ _)) by lia. done.
Qed.

Lemma map_seq_shift {A} (f : nat -> A) k n : map f (seq k n) = map (fun i => f (k + i)%nat) (seq 0 n).
Proof.
  apply list_eq. intros i. rewrite !list_lookup_fmap.
  destruct (decide (i < n)%nat).
  - by rewrite !lookup_seq_lt.
  - by rewrite !lookup_seq_ge by lia.
Qed.

(** The positions of a buffer that starts [n] bytes later. *)
Lemma contents_take b n :
  0 <= n <= held b ->
  take (Z.to_nat n) (contents b) = map (ring_byte b) (seq 0 (Z.to_nat n)).
Proof.
  intros Hn. apply list_eq. intros i. rewrite list_lookup_fmap.
  destruct (decide (i < Z.to_nat n)%nat).
  - rewrite lookup_take_lt, lookup_contents, decide_True, lookup_seq_lt by lia. done.
  - rewrite lookup_take_ge, lookup_seq_ge by lia. done.
Qed.

(** A write of [n] bytes of [dp] in one or two pieces at position [e]. *)
Lemma write_wrapped (sz e n : Z) (d0 dp : list Z) :
  0 < sz -> Z.of_nat (length d0) = sz -> 0 <= e < sz -> 0 <= n <= sz ->
  n <= Z.of_nat (length dp) ->
  let '(d, e', n', dp') :=
    if sz - e <=? n then
      (memcpy_at d0 (Z.to_nat e) (take (Z.to_nat (sz - e)) dp), 0, n - (sz - e),
       drop (Z.to_nat (sz - e)) dp)
    else (d0, e, n, dp) in
  let d' := memcpy_at d (Z.to_nat e') (take (Z.to_nat n') dp') in
  length d' = length d0 /\ e' + n' = (e + n) mod sz
  /\ forall i, 0 <= i < sz ->
       byte_at d' (Z.to_nat ((e + i) mod sz))
       = if i <? n then byte_at dp (Z.to_nat i) else byte_at d0 (Z.to_nat ((e + i) mod sz)).
Proof.
  intros Hsz Hd He Hn Hdp. destruct (Z.leb_spec (sz - e) n) as [H|H].
  - split; [by rewrite !memcpy_at_length|]. split; [rewrite wrap_index by lia; case_bool; lia|].
    intros i Hi.
    assert (length (take (Z.to_nat (sz - e)) dp) = Z.to_nat (sz - e)) as L1
      by (rewrite length_take; lia).
    assert (length (take (Z.to_nat (n - (sz - e))) (drop (Z.to_nat (sz - e)) dp))
            = Z.to_nat (n - (sz - e))) as L2 by (rewrite length_take, length_drop; lia).
    rewrite !byte_at_memcpy by (rewrite ?memcpy_at_length; lia). rewrite L1, L2.
    rewrite wrap_index by lia. destruct (Z.ltb_spec (e + i) sz).
    + rewrite (decide_False (P := _ /\ (_ < _ + Z.to_nat (n - _))%nat)) by lia.
      rewrite decide_True, byte_at_take by lia.
      rewrite (proj2 (Z.ltb_lt _ _)) by lia. f_equal. lia.
    + destruct (Z.ltb_spec i n).
      * rewrite decide_True, byte_at_take, byte_at_drop by lia. f_equal. lia.
      * rewrite !decide_False by lia. done.
  - split; [by rewrite memcpy_at_length|].
    split; [by rewrite wrap_index, (proj2 (Z.ltb_lt _ _)) by lia|].
    intros i Hi.
    assert (length (take (Z.to_nat n) dp) = Z.to_nat n) as L1 by (rewrite length_take; lia).
    rewrite byte_at_memcpy by lia. rewrite L1. rewrite wrap_index by lia.
    destruct (Z.ltb_spec i n).
    + rewrite (proj2 (Z.ltb_lt _ sz)) by lia.
      rewrite decide_True, byte_at_take by lia. f_equal. lia.
    + rewrite decide_False; [done|]. case_bool; lia.
Qed.

(** The specification of the queue operations. *)
Definition q_put (cap : nat) (q d : list Z) : nat * list Z :=
  let k := Nat.min (length d) (cap - length q) in (k, q ++ take k d).
Definition q_get (q : list Z) (n : nat) : list Z * list Z := (take n q, drop n q).
Definition q_peek (q : list Z) (off n : nat) : list Z := take n (drop off q).

(** The start of the free space. *)
Lemma end_mod b : wf_ring b -> end_ b = (start b + held b) mod size b.
Proof.
  intros W. pose proof (held_range b W). destruct W as [? ? ? He ?].
  rewrite wrap_index by lia. unfold held.
  destruct (Z.ltb_spec (start b) (end_ b)), (Z.ltb_spec (end_ b) (start b)); try lia;
    [case_bool; lia..|].
  destruct (empty b); case_bool; lia.
Qed.

Lemma empty_held b : wf_ring b -> empty b = true <-> held b = 0.
Proof.
  intros [? ? ? He ?]. unfold held. destruct (empty b).
  - specialize (He eq_refl). repeat case_bool; lia.
  - repeat case_bool; split; done || lia.
Qed.

(** The buffer after [n] bytes went in. *)
Lemma held_after_put b n d :
  wf_ring b -> 0 <= n <= size b - held b ->
  held (mkRing (size b) (start b) ((end_ b + n) mod size b)
          ((start b =? (end_ b + n) mod size b) && (empty b && (n =? 0))) d) = held b + n.
Proof.
  intros W Hn. pose proof (held_range b W) as Hh. pose proof (empty_held b W) as He.
  rewrite (end_mod b W), Zplus_mod_idemp_l. destruct W as [? ? ? _ ?].
  unfold held at 1. cbn [start end_ size empty].
  rewrite (wrap_index (start b + held b + n)) by lia.
  destruct (Z.ltb_spec (start b + held b + n) (size b)).
  - destruct (Z.ltb_spec (start b) (start b + held b + n)); [lia|].
    rewrite (proj2 (Z.ltb_ge _ (start b))) by lia.
    rewrite (proj2 He) by lia. rewrite !(proj2 (Z.eqb_eq _ _)) by lia. simpl. lia.
  - rewrite (proj2 (Z.ltb_ge (start b) _)) by lia.
    destruct (Z.ltb_spec (start b + held b + n - size b) (start b)); [lia|].
    destruct (empty b); simpl; [|rewrite andb_false_r; lia].
    rewrite (proj2 (Z.eqb_neq n 0)), andb_false_r by (destruct He; lia). lia.
Qed.

(** The queue after [n] bytes were written behind its end. *)
Lemma contents_after_put b b' n d :
  wf_ring b -> 0 <= n <= size b - held b -> n <= Z.of_nat (length d) ->
  size b' = size b -> start b' = start b -> held b' = held b + n ->
  (forall i, 0 <= i < size b ->
     byte_at (data b') (Z.to_nat ((end_ b + i) mod size b))
     = if i <? n then byte_at d (Z.to_nat i)
       else byte_at (data b) (Z.to_nat ((end_ b + i) mod size b))) ->
  contents b' = contents b ++ take (Z.to_nat n) d.
Proof.
  intros W Hn Hd Hsz Hst Hheld Hby. pose proof (held_range b W) as Hh.
  apply list_eq. intros i. rewrite lookup_contents, Hheld.
  case_decide as Hi.
  - assert (ring_byte b' i = if decide (i < Z.to_nat (held b))%nat then ring_byte b i
            else byte_at d (i - Z.to_nat (held b))) as ->.
    { unfold ring_byte. rewrite Hst, Hsz. set (k := (Z.of_nat i - held b) mod size b).
      assert (0 <= k < size b) as Hk by (apply Z.mod_pos_bound; apply W).
      assert ((start b + Z.of_nat i) mod size b = (end_ b + k) mod size b) as ->.
      { rewrite (end_mod b W). unfold k. rewrite <- Z.add_mod by (destruct W; lia). f_equal. lia. }
      rewrite Hby by done. case_decide as Hc.
      - assert (k = size b + Z.of_nat i - held b) as ->.
        { symmetry. apply (Z.mod_unique _ _ (-1)); lia. }
        rewrite (proj2 (Z.ltb_ge _ _)) by lia. done.
      - assert (k = Z.of_nat i - held b) as -> by (apply Z.mod_small; lia).
        rewrite (proj2 (Z.ltb_lt _ _)) by lia. f_equal. lia. }
    case_decide.
    + rewrite lookup_app_l by (rewrite length_contents; lia).
      by rewrite lookup_contents, decide_True.
    + rewrite lookup_app_r by (rewrite length_contents; lia).
      rewrite length_contents, lookup_take_lt by lia. unfold byte_at.
      destruct (lookup_lt_is_Some_2 d (i - Z.to_nat (held b))) as [v Hv]; [lia|]. by rewrite Hv.
  - symmetry. apply lookup_ge_None_2. rewrite length_app, length_contents, length_take. lia.
Qed.

Lemma ringbuf_put_spec b d :
  wf_ring b ->
  let '(n, b') := ringbuf_put b d in
  n = Z.min (Z.of_nat (length d)) (size b - held b)
  /\ wf_ring b' /\ size b' = size b /\ contents b' = contents b ++ take (Z.to_nat n) d.
Proof.
  intros W. pose proof (held_range b W) as Hh.
  unfold ringbuf_put. rewrite space_held by done.
  set (n := Z.min (Z.of_nat (length d)) (size b - held b)).
  pose proof (write_wrapped (size b) (end_ b) n (data b) d) as HW.
  destruct (if size b - end_ b <=? n then _ else _) as [[[d1 e1] n1] dp1].
  destruct HW as (Ld & He & Hby); [apply W|apply W|apply W|lia|lia|].
  rewrite He. split; [done|]. split; [|split; [done|]].
  - destruct W as [? ? ? Hemp ?]. split; cbn [size start end_ data empty]; [lia|lia| | |lia].
    + apply Z.mod_pos_bound. lia.
    + intros E. apply andb_true_iff in E as [E _]. by apply Z.eqb_eq.
  - apply contents_after_put; try done; try lia. by apply held_after_put; [|lia].
Qed.

(** The buffer after [n] bytes were taken out. *)
Lemma held_after_get b n :
  wf_ring b -> 0 <= n <= held b ->
  held (mkRing (size b) ((start b + n) mod size b) (end_ b)
          (((start b + n) mod size b =? end_ b) && (empty b || negb (n =? 0))) (data b))
  = held b - n.
Proof.
  intros W Hn. pose proof (held_range b W) as Hh. pose proof (empty_held b W) as He.
  pose proof (end_mod b W) as Hend. destruct W as [? ? ? _ ?].
  rewrite wrap_index in Hend by lia.
  unfold held at 1. cbn [start end_ size empty]. rewrite wrap_index by lia.
  destruct (Z.ltb_spec (start b + n) (size b)), (Z.ltb_spec (start b + held b) (size b));
    rewrite Hend; try lia.
  - destruct (Z.ltb_spec (start b + n) (start b + held b)); [lia|].
    rewrite (proj2 (Z.ltb_ge _ (start b + n))) by lia.
    rewrite (proj2 (Z.eqb_eq (start b + n) _)) by lia.
    destruct (empty b); simpl; [lia|]. rewrite (proj2 (Z.eqb_neq n 0)); [simpl; lia|].
    intros ->. destruct He as [_ He]. assert (held b = 0) by lia. specialize (He ltac:(done)). done.
  - destruct (Z.ltb_spec (start b + n) (start b + held b - size b)); [lia|].
    destruct (Z.ltb_spec (start b + held b - size b) (start b + n)); [lia|].
    assert (n = 0) as -> by lia. rewrite Z.eqb_refl, orb_false_r.
    destruct (empty b); [destruct He; lia|]. rewrite andb_false_r. lia.
  - rewrite (proj2 (Z.ltb_ge (start b + held b - size b) _)) by lia.
    destruct (Z.ltb_spec (start b + n - size b) (start b + held b - size b)); [lia|].
    rewrite (proj2 (Z.eqb_eq (start b + n - size b) _)) by lia.
    rewrite (proj2 (Z.eqb_neq n 0)), orb_true_r by lia. simpl. lia.
Qed.

Lemma ringbuf_get_spec b n :
  wf_ring b -> 0 <= n ->
  let '(out, b') := ringbuf_get b n in
  wf_ring b' /\ size b' = size b
  /\ (out, contents b') = q_get (contents b) (Z.to_nat n).
Proof.
  intros W Hn. pose proof (held_range b W) as Hh.
  unfold ringbuf_get. rewrite remain_held by done. set (k := Z.min (held b) n).
  pose proof (read_wrapped b (start b) k) as HR.
  destruct (if size b - start b <=? k then _ else _) as [[out s'] n'].
  destruct HR as (Hout & Hs); [apply W|apply W|apply W|lia|].
  rewrite Hout, Hs. fold (ring_byte b).
  assert (0 <= k <= held b) as Hk by lia.
  pose proof (held_after_get b k W Hk) as Hheld. set (b' := mkRing _ _ _ _ _) in *.
  split; [|split; [done|]].
  - destruct W as [? ? ? Hemp ?]. split; cbn [b' size start end_ data empty]; [lia| |lia| |lia].
    + apply Z.mod_pos_bound. lia.
    + intros E. apply andb_true_iff in E as [E _]. by apply Z.eqb_eq.
  - unfold q_get. f_equal.
    + rewrite <- (contents_take b k Hk).
      destruct (Z.le_gt_cases n (held b)); [f_equal; lia|].
      rewrite !take_ge; rewrite ?length_contents; done || lia.
    + apply list_eq. intros i. rewrite lookup_drop, !lookup_contents, Hheld.
      destruct (decide (i < Z.to_nat (held b - k))%nat);
        [rewrite decide_True by lia|by rewrite decide_False by lia].
      f_equal. unfold ring_byte. cbn [b' data start size]. do 2 f_equal.
      rewrite Zplus_mod_idemp_l. f_equal. lia.
Qed.

Lemma ringbuf_peek_spec b off n :
  wf_ring b -> 0 <= off -> 0 <= n ->
  ringbuf_peek b off n = q_peek (contents b) (Z.to_nat off) (Z.to_nat n).
Proof.
  intros W Ho Hn. pose proof (held_range b W) as Hh. unfold ringbuf_peek, q_peek.
  rewrite remain_held by done. destruct (Z.leb_spec (held b) off).
  { rewrite drop_ge by (rewrite length_contents; lia). by destruct (Z.to_nat n). }
  rewrite Z.max_l by lia. rewrite u64_small by (destruct W; lia).
  set (k := Z.min (held b - off) n). set (c := (start b + off) mod size b).
  assert (0 <= c < size b) as Hc by (apply Z.mod_pos_bound; apply W).
  pose proof (read_wrapped b c k) as HR.
  destruct (if size b - c <=? k then _ else _) as [[out s'] n'].
  destruct HR as (-> & _); [apply W|apply W|done|lia|].
  apply list_eq. intros i. rewrite list_lookup_fmap.
  destruct (decide (i < Z.to_nat k)%nat).
  - rewrite lookup_seq_lt, lookup_take_lt, lookup_drop, lookup_contents, decide_True by lia.
    simpl. f_equal. unfold ring_byte, c. rewrite Zplus_mod_idemp_l. do 3 f_equal. lia.
  - rewrite lookup_seq_ge by lia. symmetry. destruct (decide (i < Z.to_nat n)%nat).
    + rewrite lookup_take_lt, lookup_drop, lookup_contents, decide_False by lia. done.
    + by rewrite lookup_take_ge by lia.
Qed.

(** C37: a ring buffer is a bounded FIFO queue of bytes.  [ringbuf_put] appends
    as much of its argument as there is room for and says how much;
    [ringbuf_get] removes and returns the oldest bytes, [ringbuf_peek] returns
    bytes at an offset and removes nothing; all preserve the invariant. *)
Theorem ringbuf_refines_queue b :
  wf_ring b ->
  (forall d, let '(n, b') := ringbuf_put b d in
     wf_ring b' /\ size b' = size b
     /\ (Z.to_nat n, contents b') = q_put (Z.to_nat (size b)) (contents b) d)
  /\ (forall n, 0 <= n -> let '(out, b') := ringbuf_get b n in
     wf_ring b' /\ size b' = size b
     /\ (out, contents b') = q_get (contents b) (Z.to_nat n))
  /\ (forall off n, 0 <= off -> 0 <= n ->
     ringbuf_peek b off n = q_peek (contents b) (Z.to_nat off) (Z.to_nat n)).
Proof.
  intros W. split; [|split].
  - intros d. pose proof (ringbuf_put_spec b d W) as H. pose proof (held_range b W).
    destruct (ringbuf_put b d) as [n b']. destruct H as (-> & W' & S' & ->).
    split; [done|]. split; [done|]. unfold q_put. rewrite length_contents.
    assert (Nat.min (length d) (Z.to_nat (size b) - Z.to_nat (held b))
            = Z.to_nat (Z.min (Z.of_nat (length d)) (size b - held b))) as -> by lia. done.
  - intros n. by apply ringbuf_get_spec.
  - intros off n. by apply ringbuf_peek_spec.
Qed.

Lemma ringbuf_new_wf sz :
  0 < sz < 9223372036854775808 -> wf_ring (ringbuf_new sz) /\ contents (ringbuf_new sz) = [].
Proof.
  intros H. split; [|done]. split; simpl; try lia. rewrite length_replicate. lia.
Qed.

Lemma ringbuf_refines_queue_witness :
  let b := (ringbuf_put (ringbuf_new 4) [1; 2; 3]).2 in
  wf_ring b /\ contents (ringbuf_get b 2).2 = [3].
Proof.
  pose proof (ringbuf_new_wf 4 ltac:(lia)) as [W0 _].
  destruct (ringbuf_refines_queue (ringbuf_new 4) W0) as (P & _ & _).
  pose proof (P [1; 2; 3]) as (W1 & _ & _).
  split; [exact W1|]. vm_compute. reflexivity.
Defined.

(** [ringbuf_copy] appends to [to] as many of the oldest bytes of [from]
    as were asked for and fit, and leaves [from] alone. *)
Theorem ringbuf_copy_appends to from n :
  wf_ring to -> wf_ring from -> 0 <= n ->
  let '(k, to') := ringbuf_copy to from n in
  wf_ring to' /\ contents to' = contents to ++ take (Z.to_nat k) (contents from)
  /\ k = Z.min n (Z.min (held from) (size to - held to)).
Proof.
  intros Wt Wf Hn. unfold ringbuf_copy. rewrite space_held by done.
  pose proof (held_range to Wt). pose proof (held_range from Wf).
  rewrite ringbuf_peek_spec by (done || lia). unfold q_peek. rewrite drop_0.
  set (k := Z.min (size to - held to) n).
  pose proof (ringbuf_put_spec to (take (Z.to_nat k) (contents from)) Wt) as HP.
  destruct ringbuf_put as [r to']. destruct HP as (Hr & W' & _ & Hc).
  rewrite length_take, length_contents in Hr.
  split; [done|]. split; [|lia]. rewrite Hc, take_take. do 2 f_equal. lia.
Qed.

Lemma ringbuf_copy_appends_witness :
  let b := (ringbuf_put (ringbuf_new 4) [1; 2; 3]).2 in
  let '(k, b') := ringbuf_copy (ringbuf_new 2) b 5 in
  wf_ring b' /\ contents b' = contents (ringbuf_new 2) ++ take (Z.to_nat k) (contents b).
Proof.
  pose proof (ringbuf_new_wf 4 ltac:(lia)) as [W0 _].
  pose proof (ringbuf_new_wf 2 ltac:(lia)) as [W1 _].
  pose proof (ringbuf_put_spec (ringbuf_new 4) [1; 2; 3] W0) as (_ & W2 & _).
  pose proof (ringbuf_copy_appends (ringbuf_new 2) _ 5 W1 W2 ltac:(lia)) as H.
  cbv zeta. destruct (ringbuf_copy _ _ _) as [k b'] in H |- *.
  destruct H as (H1 & H2 & _). split; [exact H1|exact H2].
Defined.
