(* ===== verification/Stream.v ===== *)
(** * Packet streams (lib/stream.c)

    A stream is a byte buffer with a read position [getp] and a write position
    [endp]; every protocol daemon parses and builds its messages through it.
    [STREAM_VERIFY_SANE] and [STREAM_BOUND_WARN] assert, which is [Abort] here;
    the [*2] variants report failure instead.  Positions and sizes are
    [size_t], kept in [Z] with the wrap-around of their additions.

    What [realloc] leaves in the bytes it adds is not defined: it is the
    parameter [junk].  An allocation of 2^63 bytes or more fails, and a failed
    allocation aborts the daemon. *)

From S2P Require Import Prelude Prefix.

Record stream := mkStream {
  getp : Z;
  endp : Z;
  size : Z;
  allow_expansion : bool;
  data : list Z
}.

Definition MIN_STREAM_EXPANSION_SZ : Z := 512.

Definition set_getp (g : Z) (s : stream) : stream :=
  mkStream g (endp s) (size s) (allow_expansion s) (data s).
Definition set_endp (e : Z) (s : stream) : stream :=
  mkStream (getp s) e (size s) (allow_expansion s) (data s).
Definition set_data (d : list Z) (s : stream) : stream :=
  mkStream (getp s) (endp s) (size s) (allow_expansion s) d.

Definition GETP_VALID (s : stream) (g : Z) : bool := g <=? endp s.
Definition ENDP_VALID (s : stream) (e : Z) : bool := e <=? size s.
Definition STREAM_WRITEABLE (s : stream) : Z := u64 (size s - endp s).
Definition STREAM_READABLE (s : stream) : Z := u64 (endp s - getp s).
Definition STREAM_EXPAND_SIZE (s : stream) (wsz : Z) : Z := u64 (wsz - STREAM_WRITEABLE s).

(** [STREAM_VERIFY_SANE] *)
Definition verify_sane (s : stream) : bool :=
  GETP_VALID s (getp s) && ENDP_VALID s (endp s).

(** [CHECK_SIZE]: truncate the requested size to the room there is. *)
Definition CHECK_SIZE (s : stream) (z : Z) : Z :=
  if size s <? u64 (endp s + z) then u64 (size s - endp s) else z.

(** The bytes [memcpy (dst, s->data + from, n)] reads. *)
Definition read_bytes (s : stream) (from n : Z) : list Z :=
  take (Z.to_nat n) (drop (Z.to_nat from) (data s)).
(** [memcpy (s->data + at, src, n)] *)
Definition write_bytes (s : stream) (at_ : Z) (src : list Z) : stream :=
  set_data (memcpy_at (data s) (Z.to_nat at_) src) s.

(** [s->data[s->getp++]] *)
Definition next_byte (s : stream) : Z * stream :=
  (byte_at (data s) (Z.to_nat (getp s)), set_getp (getp s + 1) s).
(** [s->data[s->endp++] = c] *)
Definition add_byte (c : Z) (s : stream) : stream :=
  set_endp (endp s + 1) (write_bytes s (endp s) [c]).

(** [l = s->data[s->getp++] << 8 * (n - 1); ...; l |= s->data[s->getp++];] *)
Fixpoint next_be (n : nat) (acc : Z) (s : stream) : Z * stream :=
  match n with
  | O => (acc, s)
  | S k =>
      let '(b, s) := next_byte s in
      next_be k (Z.lor acc (Z.shiftl b (8 * Z.of_nat k))) s
  end.

(** The same at a fixed position, which [s->data[from++]] advances. *)
Fixpoint be_from (n : nat) (acc : Z) (s : stream) (from : Z) : Z :=
  match n with
  | O => acc
  | S k => be_from k (Z.lor acc (Z.shiftl (byte_at (data s) (Z.to_nat from)) (8 * Z.of_nat k)))
             s (from + 1)
  end.

(** [s->data[s->endp++] = (uint8_t)(l >> 8 * (n - 1)); ...] *)
Fixpoint add_be (n : nat) (v : Z) (s : stream) : stream :=
  match n with
  | O => s
  | S k => add_be k v (add_byte (u8 (Z.shiftr v (8 * Z.of_nat k))) s)
  end.

(** [s->data[putp] = (uint8_t)(l >> 8 * (n - 1)); s->data[putp + 1] = ...] *)
Fixpoint be_at (n : nat) (v : Z) (s : stream) (putp : Z) : stream :=
  match n with
  | O => s
  | S k => be_at k v (write_bytes s putp [u8 (Z.shiftr v (8 * Z.of_nat k))]) (putp + 1)
  end.

Section Stream.
  Context (junk : nat -> Z).

(** A buffer of [n] bytes that starts with [l]. *)
Definition resize_buf (n : Z) (l : list Z) : list Z :=
  take (Z.to_nat n) l ++ map junk (seq (length l) (Z.to_nat n - length l)).

Definition xmalloc (n : Z) : outcome (list Z) :=
  assert! (n <? 9223372036854775808) ;; Ret (resize_buf n []).
Definition xrealloc (l : list Z) (n : Z) : outcome (list Z) :=
  assert! (n <? 9223372036854775808) ;; Ret (resize_buf n l).

Definition stream_new (sz : Z) : outcome stream :=
  assert! (0 <? sz) ;;
  d ← xmalloc sz;
  Ret (mkStream 0 0 sz false d).

Definition stream_new_expandable (sz : Z) : outcome stream :=
  s ← stream_new sz;
  Ret (mkStream (getp s) (endp s) (size s) true (data s)).

Definition stream_copy (dest src : stream) : outcome stream :=
  assert! (verify_sane src) ;;
  assert! (endp src <=? size dest) ;;
  let dest := mkStream (getp src) (endp src) (size dest) (allow_expansion src) (data dest) in
  Ret (write_bytes dest 0 (read_bytes src 0 (endp src))).

Definition stream_dup (s : stream) : outcome stream :=
  assert! (verify_sane s) ;;
  snew ← stream_new (endp s);
  stream_copy (mkStream (getp snew) (endp snew) (size snew) (allow_expansion s) (data snew)) s.

Definition stream_dupcat (s1 s2 : stream) (offset : Z) : outcome (option stream) :=
  assert! (verify_sane s1) ;;
  assert! (verify_sane s2) ;;
  if endp s1 <? offset then Ret None
  else
    new ← stream_new (u64 (endp s1 + endp s2));
    let new := mkStream (getp new) (endp new) (size new)
                 (allow_expansion s1 || allow_expansion s2) (data new) in
    let new := write_bytes new 0 (read_bytes s1 0 offset) in
    let new := write_bytes new offset (read_bytes s2 0 (endp s2)) in
    let new := write_bytes new (offset + endp s2)
                 (read_bytes s1 offset (endp s1 - offset)) in
    Ret (Some (set_endp (endp s1 + endp s2) new)).

Definition stream_resize_inplace (orig : stream) (newsize : Z) : outcome (Z * stream) :=
  assert! (verify_sane orig) ;;
  d ← xrealloc (data orig) newsize;
  let e := if newsize <? endp orig then newsize else endp orig in
  let g := if e <? getp orig then e else getp orig in
  let s := mkStream g e newsize (allow_expansion orig) d in
  assert! (verify_sane s) ;;
  Ret (size s, s).

Definition stream_expand (s : stream) (expand_size : Z) : outcome stream :=
  let actual := if expand_size <=? MIN_STREAM_EXPANSION_SZ
                then MIN_STREAM_EXPANSION_SZ else expand_size in
  let new_size := u64 (size s + actual) in
  d ← xrealloc (data s) new_size;
  Ret (mkStream (getp s) (endp s) new_size (allow_expansion s) d).

(** The guard of the [put] functions: expand when allowed, else assert. *)
Definition make_room (s : stream) (n : Z) : outcome stream :=
  if STREAM_WRITEABLE s <? n then
    if allow_expansion s then stream_expand s (STREAM_EXPAND_SIZE s n) else Abort
  else Ret s.

(** ** Positions *)

Definition stream_get_getp (s : stream) : outcome Z :=
  assert! (verify_sane s) ;; Ret (getp s).
Definition stream_get_endp (s : stream) : outcome Z :=
  assert! (verify_sane s) ;; Ret (endp s).
Definition stream_get_size (s : stream) : outcome Z :=
  assert! (verify_sane s) ;; Ret (size s).

Definition stream_set_getp (s : stream) (pos : Z) : outcome stream :=
  assert! (verify_sane s) ;;
  assert! (GETP_VALID s pos) ;;
  Ret (set_getp pos s).

Definition stream_set_endp (s : stream) (pos : Z) : outcome stream :=
  assert! (verify_sane s) ;;
  assert! (ENDP_VALID s pos) ;;
  assert! (negb (pos <? getp s)) ;;
  let s := set_endp pos s in
  assert! (verify_sane s) ;;
  Ret s.

Definition stream_forward_getp (s : stream) (sz : Z) : outcome stream :=
  assert! (verify_sane s) ;;
  assert! (GETP_VALID s (u64 (getp s + sz))) ;;
  Ret (set_getp (u64 (getp s + sz)) s).

Definition stream_forward_getp2 (s : stream) (sz : Z) : outcome (bool * stream) :=
  assert! (verify_sane s) ;;
  if negb (GETP_VALID s (u64 (getp s + sz))) then Ret (false, s)
  else Ret (true, set_getp (u64 (getp s + sz)) s).

Definition stream_rewind_getp (s : stream) (sz : Z) : outcome stream :=
  assert! (verify_sane s) ;;
  assert! (negb ((getp s <? sz) || negb (GETP_VALID s (getp s - sz)))) ;;
  Ret (set_getp (getp s - sz) s).

Definition stream_rewind_getp2 (s : stream) (sz : Z) : outcome (bool * stream) :=
  assert! (verify_sane s) ;;
  if (getp s <? sz) || negb (GETP_VALID s (getp s - sz)) then Ret (false, s)
  else Ret (true, set_getp (getp s - sz) s).

Definition stream_forward_endp (s : stream) (sz : Z) : outcome stream :=
  assert! (verify_sane s) ;;
  assert! (ENDP_VALID s (u64 (endp s + sz))) ;;
  Ret (set_endp (u64 (endp s + sz)) s).

Definition stream_forward_endp2 (s : stream) (sz : Z) : outcome (bool * stream) :=
  assert! (verify_sane s) ;;
  if negb (ENDP_VALID s (u64 (endp s + sz))) then Ret (false, s)
  else Ret (true, set_endp (u64 (endp s + sz)) s).

(** ** Reading *)

Definition stream_get2 (s : stream) (sz : Z) : outcome (option (list Z) * stream) :=
  assert! (verify_sane s) ;;
  if STREAM_READABLE s <? sz then Ret (None, s)
  else Ret (Some (read_bytes s (getp s) sz), set_getp (getp s + sz) s).

Definition stream_get (s : stream) (sz : Z) : outcome (list Z * stream) :=
  assert! (verify_sane s) ;;
  assert! (negb (STREAM_READABLE s <? sz)) ;;
  Ret (read_bytes s (getp s) sz, set_getp (getp s + sz) s).

Definition stream_getc2 (s : stream) : outcome (option Z * stream) :=
  assert! (verify_sane s) ;;
  if STREAM_READABLE s <? 1 then Ret (None, s)
  else let '(b, s) := next_byte s in Ret (Some b, s).

Definition stream_getc (s : stream) : outcome (Z * stream) :=
  assert! (verify_sane s) ;;
  assert! (negb (STREAM_READABLE s <? 1)) ;;
  Ret (next_byte s).

Definition stream_getc_from (s : stream) (from : Z) : outcome Z :=
  assert! (verify_sane s) ;;
  assert! (GETP_VALID s (u64 (from + 1))) ;;
  Ret (be_from 1 0 s from).

Definition stream_getw2 (s : stream) : outcome (option Z * stream) :=
  assert! (verify_sane s) ;;
  if STREAM_READABLE s <? 2 then Ret (None, s)
  else let '(w, s) := next_be 2 0 s in Ret (Some w, s).

Definition stream_getw (s : stream) : outcome (Z * stream) :=
  assert! (verify_sane s) ;;
  assert! (negb (STREAM_READABLE s <? 2)) ;;
  Ret (next_be 2 0 s).

Definition stream_getw_from (s : stream) (from : Z) : outcome Z :=
  assert! (verify_sane s) ;;
  assert! (GETP_VALID s (u64 (from + 2))) ;;
  Ret (be_from 2 0 s from).

Definition stream_get3_from (s : stream) (from : Z) : outcome Z :=
  assert! (verify_sane s) ;;
  assert! (GETP_VALID s (u64 (from + 3))) ;;
  Ret (be_from 3 0 s from).

Definition stream_get3 (s : stream) : outcome (Z * stream) :=
  assert! (verify_sane s) ;;
  assert! (negb (STREAM_READABLE s <? 3)) ;;
  Ret (next_be 3 0 s).

Definition stream_getl_from (s : stream) (from : Z) : outcome Z :=
  assert! (verify_sane s) ;;
  assert! (GETP_VALID s (u64 (from + 4))) ;;
  Ret (be_from 4 0 s from).

Definition stream_get_from (s : stream) (from sz : Z) : outcome (list Z) :=
  assert! (verify_sane s) ;;
  assert! (GETP_VALID s (u64 (from + sz))) ;;
  Ret (read_bytes s from sz).

Definition stream_getl2 (s : stream) : outcome (option Z * stream) :=
  assert! (verify_sane s) ;;
  if STREAM_READABLE s <? 4 then Ret (None, s)
  else let '(l, s) := next_be 4 0 s in Ret (Some l, s).

Definition stream_getl (s : stream) : outcome (Z * stream) :=
  assert! (verify_sane s) ;;
  assert! (negb (STREAM_READABLE s <? 4)) ;;
  Ret (next_be 4 0 s).

Definition stream_getq_from (s : stream) (from : Z) : outcome Z :=
  assert! (verify_sane s) ;;
  assert! (GETP_VALID s (u64 (from + 8))) ;;
  Ret (be_from 8 0 s from).

Definition stream_getq (s : stream) : outcome (Z * stream) :=
  assert! (verify_sane s) ;;
  assert! (negb (STREAM_READABLE s <? 8)) ;;
  Ret (next_be 8 0 s).

Definition stream_getq2 (s : stream) : outcome (option Z * stream) :=
  assert! (verify_sane s) ;;
  if STREAM_READABLE s <? 8 then Ret (None, s)
  else let '(q, s) := next_be 8 0 s in Ret (Some q, s).

(** The address as the four bytes in memory. *)
Definition stream_get_ipv4 (s : stream) : outcome (list Z * stream) :=
  assert! (verify_sane s) ;;
  assert! (negb (STREAM_READABLE s <? 4)) ;;
  Ret (read_bytes s (getp s) 4, set_getp (getp s + 4) s).

Record ipaddr := mkIpaddr { ipa_type : Z; ip : list Z }.

(** The [switch] of [stream_get_ipaddr] has no default: any other type than the
    three of the enumeration leaves [ipa_len] at 0. *)
Definition stream_get_ipaddr (s : stream) : outcome (option ipaddr * stream) :=
  assert! (verify_sane s) ;;
  if STREAM_READABLE s <? 2 then Ret (None, s)
  else
    '(ty, s) ← stream_getw s;
    if ty =? AF_UNSPEC then Ret (None, s)
    else
      let ipa_len := if ty =? AF_INET then IPV4_MAX_BYTELEN
                     else if ty =? AF_INET6 then IPV6_MAX_BYTELEN else 0 in
      if STREAM_READABLE s <? ipa_len then Ret (None, s)
      else Ret (Some (mkIpaddr ty (read_bytes s (getp s) ipa_len)),
                set_getp (getp s + ipa_len) s).

(** ** Writing *)

(** [src] is [None] for a NULL source. *)
Definition stream_put (s : stream) (src : option (list Z)) (sz : Z) : outcome stream :=
  let sz := CHECK_SIZE s sz in
  assert! (verify_sane s) ;;
  s ← make_room s sz;
  let d := match src with
           | Some l => take (Z.to_nat sz) l
           | None => replicate (Z.to_nat sz) 0
           end in
  Ret (set_endp (endp s + sz) (write_bytes s (endp s) d)).

Definition stream_put_be (n : nat) (s : stream) (v : Z) : outcome (Z * stream) :=
  assert! (verify_sane s) ;;
  s ← make_room s (Z.of_nat n);
  Ret (Z.of_nat n, add_be n v s).

Definition stream_putc (s : stream) (c : Z) : outcome (Z * stream) := stream_put_be 1 s c.
Definition stream_putw (s : stream) (w : Z) : outcome (Z * stream) := stream_put_be 2 s w.
Definition stream_put3 (s : stream) (l : Z) : outcome (Z * stream) := stream_put_be 3 s l.
Definition stream_putl (s : stream) (l : Z) : outcome (Z * stream) := stream_put_be 4 s l.
Definition stream_putq (s : stream) (q : Z) : outcome (Z * stream) := stream_put_be 8 s q.

(** The [_at] functions overwrite bytes that were written before. *)
Definition stream_be_at (n : nat) (s : stream) (putp v : Z) : outcome (Z * stream) :=
  assert! (verify_sane s) ;;
  assert! (GETP_VALID s (u64 (putp + Z.of_nat n))) ;;
  Ret (Z.of_nat n, be_at n v s putp).

Definition stream_putc_at := stream_be_at 1.
Definition stream_putw_at := stream_be_at 2.
Definition stream_put3_at := stream_be_at 3.
Definition stream_putl_at := stream_be_at 4.
Definition stream_putq_at := stream_be_at 8.

(** [l] is the address as it is in memory. *)
Definition stream_put_ipv4 (s : stream) (l : list Z) : outcome (Z * stream) :=
  assert! (verify_sane s) ;;
  if STREAM_WRITEABLE s <? 4 then
    s ← (if allow_expansion s then stream_expand s (STREAM_EXPAND_SIZE s 4) else Abort);
    Ret (0, s)
  else Ret (4, set_endp (endp s + 4) (write_bytes s (endp s) (take 4 l))).

Definition stream_put_in_addr (s : stream) (addr : list Z) : outcome (Z * stream) :=
  assert! (verify_sane s) ;;
  s ← make_room s 4;
  Ret (4, set_endp (endp s + 4) (write_bytes s (endp s) (take 4 addr))).

Definition stream_write (s : stream) (ptr : list Z) (sz : Z) : outcome (Z * stream) :=
  let sz := CHECK_SIZE s sz in
  assert! (verify_sane s) ;;
  s ← make_room s sz;
  Ret (sz, set_endp (endp s + sz) (write_bytes s (endp s) (take (Z.to_nat sz) ptr))).

Definition stream_put_ipaddr (s : stream) (a : ipaddr) : outcome (bool * stream) :=
  '(_, s) ← stream_putw s (ipa_type a);
  if ipa_type a =? AF_INET then
    '(_, s) ← stream_put_in_addr s (ip a); Ret (true, s)
  else if ipa_type a =? AF_INET6 then
    '(_, s) ← stream_write s (ip a) 16; Ret (true, s)
  else if ipa_type a =? AF_UNSPEC then Ret (false, s)
  else Ret (true, s).

Definition stream_put_in_addr_at (s : stream) (putp : Z) (addr : list Z) : outcome (Z * stream) :=
  assert! (verify_sane s) ;;
  assert! (GETP_VALID s (u64 (putp + 4))) ;;
  Ret (4, write_bytes s putp (take 4 addr)).

Definition stream_put_in6_addr_at (s : stream) (putp : Z) (addr : list Z) : outcome (Z * stream) :=
  assert! (verify_sane s) ;;
  assert! (GETP_VALID s (u64 (putp + 16))) ;;
  Ret (16, write_bytes s putp (take 16 addr)).

Definition PSIZE (a : Z) : Z := (a + 7) / 8.

Definition stream_put_prefix (s : stream) (p : prefix) : outcome (Z * stream) :=
  assert! (verify_sane s) ;;
  let psize := PSIZE (prefixlen p) in
  s ← make_room s (psize + 1);
  let s := add_byte (u8 (prefixlen p)) s in
  Ret (psize, set_endp (endp s + psize)
                (write_bytes s (endp s) (take (Z.to_nat psize) (val p)))).

(** [input] is what the descriptor delivers: [readn] / [read] give up to [sz]
    bytes, or a negative result. *)
Definition stream_read (s : stream) (input : Z + list Z) (sz : Z) : outcome (Z * stream) :=
  assert! (verify_sane s) ;;
  assert! (negb (STREAM_WRITEABLE s <? sz)) ;;
  Ret (match input with
       | inl e => (e, s)
       | inr l => let l := take (Z.to_nat sz) l in
                  (Z.of_nat (length l),
                   set_endp (endp s + Z.of_nat (length l)) (write_bytes s (endp s) l))
       end).

(** [retry] is [ERRNO_IO_RETRY(errno)]. *)
Definition stream_read_try (s : stream) (input : Z + list Z) (retry : bool) (sz : Z)
  : outcome (Z * stream) :=
  assert! (verify_sane s) ;;
  assert! (negb (STREAM_WRITEABLE s <? sz)) ;;
  Ret (match input with
       | inl _ => ((if retry then -2 else -1), s)
       | inr l => let l := take (Z.to_nat sz) l in
                  (Z.of_nat (length l),
                   set_endp (endp s + Z.of_nat (length l)) (write_bytes s (endp s) l))
       end).

(** [recvfrom] in the place of [read]. *)
Definition stream_recvfrom := stream_read_try.

(** [rest] is the room of the vectors after the first one: [recvmsg] fills them with
    what does not fit into the stream, and counts it. *)
Definition stream_recvmsg (s : stream) (input : Z + list Z) (iovlen rest sz : Z) : outcome (Z * stream) :=
  assert! (verify_sane s) ;;
  assert! (0 <? iovlen) ;;
  assert! (negb (STREAM_WRITEABLE s <? sz)) ;;
  Ret (match input with
       | inl e => (e, s)
       | inr l => let n := Z.of_nat (length (take (Z.to_nat (sz + rest)) l)) in
                  (n, set_endp (endp s + n) (write_bytes s (endp s) (take (Z.to_nat sz) l)))
       end).

Definition stream_empty (s : stream) : outcome bool :=
  assert! (verify_sane s) ;; Ret (endp s =? 0).

Definition stream_reset (s : stream) : outcome stream :=
  assert! (verify_sane s) ;; Ret (set_getp 0 (set_endp 0 s)).

(** What [write] is given. *)
Definition stream_flush (s : stream) : outcome (list Z) :=
  assert! (verify_sane s) ;;
  Ret (read_bytes s (getp s) (endp s - getp s)).

Definition stream_pulldown (s : stream) : outcome stream :=
  let rlen := STREAM_READABLE s in
  if rlen =? 0 then stream_reset s
  else Ret (set_endp rlen (set_getp 0 (write_bytes s 0 (read_bytes s (getp s) rlen)))).

End Stream.
