(* ===== verification/StreamFacts.v ===== *)
(** * Correctness of packet streams

    The abstract value of a stream is the list of its unread bytes,
    [pending s]: the [put] functions append to it, the [get] functions take
    from its front.  The invariant [sane] is the one stream.c documents,
    [getp <= endp <= size]. *)

From S2P Require Import Prelude Prefix Stream.

Record sane (s : stream) : Prop := {
  sn_getp : 0 <= getp s <= endp s;
  sn_endp : endp s <= size s;
  sn_size : size s < 9223372036854775808;
  sn_len : Z.of_nat (length (data s)) = size s;
  sn_bytes : bytes (data s)
}.

Definition pending (s : stream) : list Z := read_bytes s (getp s) (endp s - getp s).

(** Big-endian encoding of the low [n] bytes of [v], and its inverse. *)
Fixpoint be_bytes (n : nat) (v : Z) : list Z :=
  match n with
  | O => []
  | S k => u8 (Z.shiftr v (8 * Z.of_nat k)) :: be_bytes k v
  end.
Fixpoint be_value (l : list Z) : Z :=
  match l with
  | [] => 0
  | b :: l => b * 2 ^ (8 * Z.of_nat (length l)) + be_value l
  end.

(** ** Encoding *)

Lemma be_bytes_length n v : length (be_bytes n v) = n.
Proof. induction n; simpl; auto. Qed.

Lemma u8_byte z : is_byte (u8 z).
Proof. unfold is_byte, u8. apply Z.mod_pos_bound. lia. Qed.

Lemma be_bytes_bytes n v : bytes (be_bytes n v).
Proof. induction n; simpl; constructor; auto using u8_byte. Qed.

Lemma be_value_range l : bytes l -> 0 <= be_value l < 2 ^ (8 * Z.of_nat (length l)).
Proof.
  induction l as [|b l IH]; intros H; cbn [be_value length]; [lia|].
  apply Forall_cons_1 in H as [Hb Hl]. specialize (IH Hl). unfold is_byte in Hb.
  replace (8 * Z.of_nat (S (length l))) with (8 * Z.of_nat (length l) + 8) by lia.
  rewrite Z.pow_add_r by lia. change (2 ^ 8) with 256. nia.
Qed.

Lemma be_value_bytes n v : be_value (be_bytes n v) = v mod 2 ^ (8 * Z.of_nat n).
Proof.
  induction n as [|n IH]; cbn [be_bytes be_value].
  { by rewrite Z.mul_0_r, Z.pow_0_r, Z.mod_1_r. }
  rewrite be_bytes_length, IH. unfold u8. rewrite Z.shiftr_div_pow2 by lia.
  replace (8 * Z.of_nat (S n)) with (8 * Z.of_nat n + 8) by lia.
  rewrite Z.pow_add_r by lia. change (2 ^ 8) with 256.
  assert (0 < 2 ^ (8 * Z.of_nat n)) by (apply Z.pow_pos_nonneg; lia).
  rewrite Z.rem_mul_r by lia. lia.
Qed.

(** [a |= b << k] adds when [a] is a multiple of [2 ^ (k + 8)]. *)
Lemma lor_shift a b k :
  0 <= k -> is_byte b ->
  Z.lor (a * 2 ^ (k + 8)) (Z.shiftl b k) = (a * 256 + b) * 2 ^ k.
Proof.
  intros Hk Hb.
  assert (Z.land (a * 2 ^ (k + 8)) (Z.shiftl b k) = 0) as Hz.
  { apply Z.bits_inj_0. intros i. rewrite Z.land_spec.
    destruct (Z.lt_ge_cases i (k + 8)).
    - rewrite Z.mul_pow2_bits_low by lia. done.
    - destruct (Z.lt_ge_cases i 0); [by rewrite !Z.testbit_neg_r|].
      rewrite Z.shiftl_spec by lia. rewrite (Z.bits_above_log2 b (i - k)); [by rewrite andb_false_r|..].
      + unfold is_byte in Hb. lia.
      + destruct (Z.eq_dec b 0) as [->|]; [simpl; lia|]. apply Z.log2_lt_pow2; unfold is_byte in Hb; [lia|].
        assert (2 ^ 8 <= 2 ^ (i - k)) by (apply Z.pow_le_mono_r; lia). lia. }
  pose proof (Z.add_lor_land (a * 2 ^ (k + 8)) (Z.shiftl b k)) as E. rewrite Hz in E.
  rewrite Z.shiftl_mul_pow2 in * by lia. rewrite Z.pow_add_r in * by lia.
  change (2 ^ 8) with 256 in *. lia.
Qed.

(** ** Reading *)

Definition bytes_at (d : list Z) (from : Z) (n : nat) : list Z :=
  take n (drop (Z.to_nat from) d).

Lemma bytes_at_cons d from n :
  0 <= from -> from < Z.of_nat (length d) ->
  bytes_at d from (S n) = byte_at d (Z.to_nat from) :: bytes_at d (from + 1) n.
Proof.
  intros H0 H. unfold bytes_at.
  destruct (lookup_lt_is_Some_2 d (Z.to_nat from)) as [b Hb]; [lia|].
  rewrite (drop_S d b) by done. simpl. unfold byte_at. rewrite Hb. simpl.
  do 3 f_equal. lia.
Qed.

Lemma bytes_at_bytes d from n : bytes d -> bytes (bytes_at d from n).
Proof. intros H. unfold bytes_at. by apply Forall_take, Forall_drop. Qed.

Lemma bytes_at_length d from n :
  0 <= from -> from + Z.of_nat n <= Z.of_nat (length d) -> length (bytes_at d from n) = n.
Proof. intros. unfold bytes_at. rewrite length_take, length_drop. lia. Qed.

Lemma next_be_spec n : forall a s,
  0 <= getp s -> getp s + Z.of_nat n <= Z.of_nat (length (data s)) -> bytes (data s) ->
  next_be n (a * 2 ^ (8 * Z.of_nat n)) s
  = (a * 2 ^ (8 * Z.of_nat n) + be_value (bytes_at (data s) (getp s) n),
     set_getp (getp s + Z.of_nat n) s).
Proof.
  induction n as [|n IH]; intros a s H0 Hn Hb; cbn [next_be].
  { change (be_value (bytes_at _ _ 0)) with 0. change (Z.of_nat 0) with 0.
    rewrite !Z.add_0_r. by destruct s. }
  unfold next_byte. replace (8 * Z.of_nat (S n)) with (8 * Z.of_nat n + 8) by lia.
  rewrite lor_shift by (lia || by apply byte_at_range).
  rewrite IH; cbn [set_getp getp data]; [|lia|lia|done].
  rewrite bytes_at_cons by lia. cbn [be_value].
  rewrite bytes_at_length by lia. apply f_equal2;
    [|unfold set_getp; simpl; f_equal; lia].
  rewrite Z.pow_add_r by lia. change (2 ^ 8) with 256. lia.
Qed.

Lemma next_be_0 n s :
  0 <= getp s -> getp s + Z.of_nat n <= Z.of_nat (length (data s)) -> bytes (data s) ->
  next_be n 0 s = (be_value (bytes_at (data s) (getp s) n), set_getp (getp s + Z.of_nat n) s).
Proof. intros. apply (next_be_spec n 0); done. Qed.

Lemma be_from_spec n : forall a s from,
  0 <= from -> from + Z.of_nat n <= Z.of_nat (length (data s)) -> bytes (data s) ->
  be_from n (a * 2 ^ (8 * Z.of_nat n)) s from
  = a * 2 ^ (8 * Z.of_nat n) + be_value (bytes_at (data s) from n).
Proof.
  induction n as [|n IH]; intros a s from H0 Hn Hb; cbn [be_from].
  { change (be_value (bytes_at _ _ 0)) with 0. lia. }
  replace (8 * Z.of_nat (S n)) with (8 * Z.of_nat n + 8) by lia.
  rewrite lor_shift by (lia || by apply byte_at_range).
  rewrite IH by (lia || done). rewrite bytes_at_cons by lia. cbn [be_value].
  rewrite bytes_at_length by lia.
  rewrite Z.pow_add_r by lia. change (2 ^ 8) with 256. lia.
Qed.

Lemma sane_verify s : sane s -> verify_sane s = true.
Proof.
  intros [? ? ? ? ?]. unfold verify_sane, GETP_VALID, ENDP_VALID.
  rewrite !(proj2 (Z.leb_le _ _)) by lia. done.
Qed.

Lemma readable s : sane s -> STREAM_READABLE s = Z.of_nat (length (pending s)).
Proof.
  intros [? ? ? ? ?]. unfold STREAM_READABLE, pending, read_bytes.
  rewrite u64_small by lia. rewrite length_take, length_drop. lia.
Qed.

Lemma pending_length s : sane s -> Z.of_nat (length (pending s)) = endp s - getp s.
Proof. intros S. rewrite <- readable by done. destruct S. apply u64_small. lia. Qed.

Lemma pending_bytes s : sane s -> bytes (pending s).
Proof. intros S. unfold pending, read_bytes. apply Forall_take, Forall_drop, S. Qed.

Lemma pending_take s n :
  (n <= length (pending s))%nat -> bytes_at (data s) (getp s) n = take n (pending s).
Proof.
  intros Hn. unfold bytes_at, pending, read_bytes in *. rewrite take_take. f_equal.
  rewrite length_take in Hn. lia.
Qed.

(** Moving the read position forward drops bytes from the front. *)
Lemma advance s n :
  sane s -> (n <= length (pending s))%nat ->
  sane (set_getp (getp s + Z.of_nat n) s)
  /\ pending (set_getp (getp s + Z.of_nat n) s) = drop n (pending s).
Proof.
  intros S Hn. pose proof (pending_length s S). destruct S as [? ? ? ? ?]. split.
  - split; simpl; try done. lia.
  - unfold pending, read_bytes. simpl.
    apply list_eq. intros i. rewrite lookup_drop.
    destruct (decide (i < Z.to_nat (endp s - (getp s + Z.of_nat n)))%nat).
    + rewrite !lookup_take_lt, !lookup_drop by lia. f_equal. lia.
    + rewrite !lookup_take_ge by lia. done.
Qed.

(** The value of the next [n] bytes, read by any of the [get] functions. *)
Lemma get_be_spec s n :
  sane s -> (n <= length (pending s))%nat ->
  exists s', next_be n 0 s = (be_value (take n (pending s)), s')
    /\ sane s' /\ pending s' = drop n (pending s).
Proof.
  intros S Hn. pose proof (pending_length s S). eexists.
  rewrite next_be_0; [|destruct S; lia|destruct S; lia|apply S].
  rewrite pending_take by done. split; [done|]. by apply advance.
Qed.

(** ** Writing *)

Lemma write_bytes_sane s at_ d :
  sane s -> 0 <= at_ -> at_ + Z.of_nat (length d) <= size s -> bytes d ->
  sane (write_bytes s at_ d).
Proof.
  intros [? ? ? ? ?] H0 Hd Hb. split; simpl; try done.
  - by rewrite memcpy_at_length.
  - by apply Forall_memcpy_at.
Qed.

(** Writing at [endp] and moving it appends to the unread bytes. *)
Lemma append s d :
  sane s -> endp s + Z.of_nat (length d) <= size s -> bytes d ->
  let s' := set_endp (endp s + Z.of_nat (length d)) (write_bytes s (endp s) d) in
  sane s' /\ pending s' = pending s ++ d.
Proof.
  intros S Hd Hb s'. pose proof (write_bytes_sane s (endp s) d S) as S'.
  pose proof (pending_length s S) as Hp. destruct S as [? ? ? ? ?].
  destruct S' as [? ? ? Hl ?]; [lia|lia|done|]. simpl in Hl. split.
  - split; simpl; try done; lia.
  - unfold pending, read_bytes. simpl. apply list_eq. intros i.
    rewrite memcpy_at_app by lia.
    destruct (decide (i < Z.to_nat (endp s - getp s))%nat) as [Hi|Hi].
    + rewrite lookup_take_lt, lookup_drop, lookup_app_l, lookup_take_lt by (rewrite ?length_take; lia).
      rewrite lookup_app_l by (rewrite length_take, length_drop; lia).
      by rewrite lookup_take_lt, lookup_drop by lia.
    + rewrite (lookup_app_r (take _ _)) by (rewrite length_take, length_drop; lia).
      rewrite length_take, length_drop.
      destruct (decide (i < Z.to_nat (endp s + Z.of_nat (length d) - getp s))%nat) as [Hi2|Hi2].
      * rewrite lookup_take_lt, lookup_drop by lia.
        rewrite lookup_app_r by (rewrite length_take; lia). rewrite length_take.
        rewrite lookup_app_l by lia. f_equal. lia.
      * rewrite lookup_take_ge by lia. symmetry. apply lookup_ge_None_2. lia.
Qed.

Lemma append_getp s d : 
  getp (set_endp (endp s + Z.of_nat (length d)) (write_bytes s (endp s) d)) = getp s.
Proof. done. Qed.

Lemma memcpy_at_cons l i b d : memcpy_at l i (b :: d) = memcpy_at (memcpy_at l i [b]) (S i) d.
Proof. done. Qed.

Lemma add_be_spec n : forall v s,
  0 <= endp s ->
  add_be n v s
  = set_endp (endp s + Z.of_nat n) (write_bytes s (endp s) (be_bytes n v)).
Proof.
  induction n as [|n IH]; intros v s He; cbn [add_be be_bytes].
  { unfold set_endp, write_bytes, set_data. simpl. rewrite Z.add_0_r. by destruct s. }
  rewrite IH by (simpl; lia). unfold add_byte, set_endp, write_bytes, set_data. simpl.
  f_equal; [lia|]. rewrite Z2Nat.inj_add by lia.
  change (Z.to_nat 1) with 1%nat. by rewrite Nat.add_1_r.
Qed.

Lemma be_at_spec n : forall v s putp,
  0 <= putp -> be_at n v s putp = write_bytes s putp (be_bytes n v).
Proof.
  induction n as [|n IH]; intros v s putp Hp; cbn [be_at be_bytes].
  { unfold write_bytes, set_data. simpl. by destruct s. }
  rewrite IH by lia. unfold write_bytes, set_data. simpl. f_equal.
  rewrite Z2Nat.inj_add by lia. change (Z.to_nat 1) with 1%nat. by rewrite Nat.add_1_r.
Qed.

Section Facts.
Context (junk : nat -> Z) (Hjunk : forall i, is_byte (junk i)).

Lemma resize_buf_spec n l :
  0 <= n -> bytes l ->
  Z.of_nat (length (resize_buf junk n l)) = n /\ bytes (resize_buf junk n l)
  /\ (Z.of_nat (length l) <= n -> exists r, resize_buf junk n l = l ++ r).
Proof.
  intros Hn Hb. unfold resize_buf. split_and!.
  - rewrite length_app, length_take, length_map, length_seq. lia.
  - apply Forall_app_2; [by apply Forall_take|]. apply Forall_fmap, Forall_true. intros. apply Hjunk.
  - intros H. rewrite take_ge by lia. eauto.
Qed.

Lemma writeable s : sane s -> STREAM_WRITEABLE s = size s - endp s.
Proof. intros [? ? ? ? ?]. apply u64_small. lia. Qed.

(** The unread bytes do not depend on what follows them. *)
Lemma grow_spec s sz r :
  sane s -> size s <= sz < 9223372036854775808 -> resize_buf junk sz (data s) = data s ++ r ->
  let s' := mkStream (getp s) (endp s) sz (allow_expansion s) (resize_buf junk sz (data s)) in
  sane s' /\ pending s' = pending s.
Proof.
  intros S Hsz Hr s'. destruct (resize_buf_spec sz (data s)) as (R1 & R2 & _);
    [destruct S; lia|apply S|]. destruct S as [? ? ? ? ?]. split.
  - split; simpl; lia || done.
  - unfold pending, read_bytes, s'. simpl. rewrite Hr.
    rewrite drop_app_le by lia. rewrite take_app_le; [done|]. rewrite length_drop. lia.
Qed.

(** [make_room] gives the room it was asked for, or aborts; on an expandable
    stream it aborts only when the allocation does. *)
Lemma make_room_spec s n :
  sane s -> 0 <= n <= 1048576 ->
  (size s - endp s < n -> allow_expansion s = true /\ size s + 1048576 < 9223372036854775808) ->
  exists s', make_room junk s n = Ret s' /\ sane s' /\ pending s' = pending s
    /\ endp s' = endp s /\ getp s' = getp s /\ endp s' + n <= size s'
    /\ allow_expansion s' = allow_expansion s
    /\ size s <= size s' <= size s + Z.max 512 n.
Proof.
  intros S Hn Hroom. unfold make_room. rewrite writeable by done.
  destruct (Z.ltb_spec (size s - endp s) n) as [Hlt|Hge].
  - destruct (Hroom Hlt) as [-> Hmem]. unfold stream_expand, xrealloc, STREAM_EXPAND_SIZE.
    rewrite writeable by done. rewrite (u64_small (n - _)) by (destruct S; lia).
    set (act := if _ <=? _ then _ else _).
    assert (n - (size s - endp s) <= act <= 1048576) as Hact.
    { unfold act, MIN_STREAM_EXPANSION_SZ. case_bool; destruct S; lia. }
    assert (0 <= act <= Z.max 512 n) as Hact2.
    { unfold act, MIN_STREAM_EXPANSION_SZ. case_bool; destruct S; lia. }
    rewrite (u64_small (size s + act)) by (destruct S; lia).
    rewrite (proj2 (Z.ltb_lt _ _)) by (destruct S; lia). simpl.
    destruct (resize_buf_spec (size s + act) (data s)) as (_ & _ & R3);
      [destruct S; lia|apply S|].
    destruct R3 as [r Hr]; [destruct S; lia|].
    destruct (grow_spec s (size s + act) r S) as [S' P']; [destruct S; lia|done|].
    eexists. split; [done|]. split; [exact S'|]. split; [exact P'|].
    split_and!; try done; simpl; try (destruct S; lia). by destruct (Hroom Hlt).
  - exists s. split_and!; done || lia.
Qed.

(** A put of [n] bytes appends their encoding. *)
Lemma stream_put_be_spec n v s :
  sane s -> (n <= 8)%nat ->
  (size s - endp s < Z.of_nat n ->
   allow_expansion s = true /\ size s + 1048576 < 9223372036854775808) ->
  exists s', stream_put_be junk n s v = Ret (Z.of_nat n, s') /\ sane s'
    /\ pending s' = pending s ++ be_bytes n v /\ endp s' = endp s + Z.of_nat n
    /\ size s <= size s' <= size s + 512 /\ allow_expansion s' = allow_expansion s.
Proof.
  intros S Hn Hroom. unfold stream_put_be. rewrite sane_verify by done.
  destruct (make_room_spec s (Z.of_nat n) S ltac:(lia) Hroom)
    as (s1 & -> & S1 & P1 & E1 & G1 & R1 & A1 & Z1). simpl.
  eexists. split; [done|]. rewrite add_be_spec by (destruct S1; lia). rewrite <- P1.
  pose proof (append s1 (be_bytes n v) S1) as A. rewrite be_bytes_length in A.
  destruct A as [A2 A3]; [done|apply be_bytes_bytes|].
  split_and!; try done; simpl; lia.
Qed.
End Facts.

(** ** Messages of integer fields *)

Inductive width := W1 | W2 | W3 | W4 | W8.
Definition width_bytes (w : width) : nat :=
  match w with W1 => 1 | W2 => 2 | W3 => 3 | W4 => 4 | W8 => 8 end.

Definition put_field (junk : nat -> Z) (w : width) (v : Z) (s : stream) : outcome (Z * stream) :=
  match w with
  | W1 => stream_putc junk s v
  | W2 => stream_putw junk s v
  | W3 => stream_put3 junk s v
  | W4 => stream_putl junk s v
  | W8 => stream_putq junk s v
  end.
Definition get_field (w : width) (s : stream) : outcome (Z * stream) :=
  match w with
  | W1 => stream_getc s
  | W2 => stream_getw s
  | W3 => stream_get3 s
  | W4 => stream_getl s
  | W8 => stream_getq s
  end.

Fixpoint put_fields (junk : nat -> Z) (m : list (width * Z)) (s : stream) : outcome stream :=
  match m with
  | [] => Ret s
  | (w, v) :: m => '(_, s) ← put_field junk w v s; put_fields junk m s
  end.
Fixpoint get_fields (ws : list width) (s : stream) : outcome (list Z * stream) :=
  match ws with
  | [] => Ret ([], s)
  | w :: ws =>
      '(v, s) ← get_field w s;
      '(vs, s) ← get_fields ws s;
      Ret (v :: vs, s)
  end.

Definition encode (m : list (width * Z)) : list Z :=
  concat (map (fun '(w, v) => be_bytes (width_bytes w) v) m).
Definition in_range (m : list (width * Z)) : Prop :=
  Forall (fun '(w, v) => 0 <= v < 2 ^ (8 * Z.of_nat (width_bytes w))) m.

Lemma put_field_be junk w v s : put_field junk w v s = stream_put_be junk (width_bytes w) s v.
Proof. by destruct w. Qed.

Lemma next_byte_be s : bytes (data s) -> next_byte s = next_be 1 0 s.
Proof.
  intros Hb. unfold next_be, next_byte. simpl. by rewrite Z.shiftl_0_r.
Qed.

Lemma get_field_spec w s :
  sane s -> (width_bytes w <= length (pending s))%nat ->
  exists s', get_field w s = Ret (be_value (take (width_bytes w) (pending s)), s')
    /\ sane s' /\ pending s' = drop (width_bytes w) (pending s).
Proof.
  intros S Hn. destruct (get_be_spec s (width_bytes w) S Hn) as (s' & E & S' & P').
  exists s'. split; [|done]. pose proof (readable s S) as R.
  destruct w; simpl in *; unfold stream_getc, stream_getw, stream_get3, stream_getl, stream_getq;
    rewrite sane_verify, R, (proj2 (Z.ltb_ge _ _)) by (done || lia); simpl;
    rewrite ?next_byte_be by apply S; by rewrite <- E.
Qed.

(** Room for message [m], in the buffer or by expanding it. *)
Definition fits (m : list (width * Z)) (s : stream) : Prop :=
  endp s + Z.of_nat (length (encode m)) <= size s
  \/ allow_expansion s = true
     /\ size s + 1048576 + 512 * Z.of_nat (length m) < 9223372036854775808.

Lemma put_fields_spec (junk : nat -> Z) (Hjunk : forall i, is_byte (junk i)) m : forall s,
  sane s -> fits m s ->
  exists s', put_fields junk m s = Ret s' /\ sane s' /\ pending s' = pending s ++ encode m.
Proof.
  induction m as [|[w v] m IH]; intros s S F; cbn [put_fields].
  { exists s. unfold encode. simpl. by rewrite app_nil_r. }
  assert (length (encode ((w, v) :: m)) = (width_bytes w + length (encode m))%nat) as L.
  { unfold encode. simpl. by rewrite length_app, be_bytes_length. }
  assert (width_bytes w <= 8)%nat as Hw by (destruct w; simpl; lia).
  rewrite put_field_be.
  destruct (stream_put_be_spec junk Hjunk (width_bytes w) v s S Hw)
    as (s1 & -> & S1 & P1 & E1 & Z1 & A1).
  { intros Hlt. destruct F as [F|[F1 F2]]; [lia|]. split; [done|]. lia. }
  simpl. destruct (IH s1 S1) as (s2 & -> & S2 & P2).
  { unfold fits in *. rewrite A1. simpl length in F. destruct F as [F|F]; [left|right]; [lia|].
    split; [apply F|lia]. }
  exists s2. split_and!; try done. rewrite P2, P1, <- app_assoc. done.
Qed.

Lemma get_fields_spec m : forall s rest,
  sane s -> in_range m -> pending s = encode m ++ rest ->
  exists s', get_fields (map fst m) s = Ret (map snd m, s') /\ sane s' /\ pending s' = rest.
Proof.
  induction m as [|[w v] m IH]; intros s rest S R P; cbn [get_fields map fst snd].
  { exists s. by rewrite P. }
  apply Forall_cons_1 in R as [Rv R]. unfold encode in P. simpl in P. rewrite <- app_assoc in P.
  destruct (get_field_spec w s S) as (s1 & -> & S1 & P1).
  { rewrite P, length_app, be_bytes_length. lia. }
  cbn [mbind outcome_bind].
  rewrite P, drop_app_length' in P1 by (by rewrite be_bytes_length).
  rewrite P, take_app_length' by (by rewrite be_bytes_length).
  destruct (IH s1 rest S1 R P1) as (s2 & -> & S2 & P2).
  exists s2. split; [|done]. cbn [mbind outcome_bind].
  rewrite be_value_bytes, Z.mod_small by done. done.
Qed.

(** Round trip.  Any sequence of integer fields written to a sane stream
    with room for it (in the buffer, or by expansion) is read back in order by
    the matching [get] functions, after the bytes that were already unread;
    none of the calls aborts. *)
Theorem stream_fields_roundtrip (junk : nat -> Z) m s :
  (forall i, is_byte (junk i)) -> sane s -> pending s = [] -> in_range m -> fits m s ->
  exists s1 s2, put_fields junk m s = Ret s1
    /\ get_fields (map fst m) s1 = Ret (map snd m, s2) /\ sane s2 /\ pending s2 = [].
Proof.
  intros Hj S P R F. destruct (put_fields_spec junk Hj m s S F) as (s1 & E1 & S1 & P1).
  rewrite P in P1. simpl in P1.
  destruct (get_fields_spec m s1 [] S1 R) as (s2 & E2 & S2 & P2); [by rewrite app_nil_r|].
  eauto 7.
Qed.

Lemma stream_fields_roundtrip_witness :
  exists s1 s2, put_fields (fun _ => 0) [(W1, 7); (W4, 0x01020304)] (mkStream 0 0 2 true [0; 0]) = Ret s1
    /\ get_fields [W1; W4] s1 = Ret ([7; 0x01020304], s2).
Proof.
  destruct (stream_fields_roundtrip (fun _ => 0) [(W1, 7); (W4, 0x01020304)]
              (mkStream 0 0 2 true [0; 0])) as (s1 & s2 & E1 & E2 & _).
  - unfold is_byte. lia.
  - split; simpl; try lia; repeat constructor; lia.
  - reflexivity.
  - repeat constructor; simpl; lia.
  - right. split; [reflexivity|simpl; lia].
  - exists s1, s2. split; [exact E1|exact E2].
Defined.

(** ** The readers that do not assert *)

Definition get_field2 (w : width) (s : stream) : outcome (option Z * stream) :=
  match w with
  | W1 => stream_getc2 s
  | W2 => stream_getw2 s
  | W4 => stream_getl2 s
  | _ => stream_getq2 s
  end.
Definition width2_bytes (w : width) : nat :=
  match w with W1 => 1 | W2 => 2 | W4 => 4 | _ => 8 end.

(** On a sane stream the readers [stream_getc2], [stream_getw2],
    [stream_getl2], [stream_getq2] and [stream_get2] never abort: they fail,
    leaving the stream alone, exactly when too few bytes are unread, and else
    return the next bytes (in network order) and move past them. *)
Theorem stream_get2_total s :
  sane s ->
  (forall w, if decide (width2_bytes w <= length (pending s))%nat
    then exists s', get_field2 w s = Ret (Some (be_value (take (width2_bytes w) (pending s))), s')
           /\ sane s' /\ pending s' = drop (width2_bytes w) (pending s)
    else get_field2 w s = Ret (None, s))
  /\ (forall n, if decide (n <= length (pending s))%nat
    then exists s', stream_get2 s (Z.of_nat n) = Ret (Some (take n (pending s)), s')
           /\ sane s' /\ pending s' = drop n (pending s)
    else stream_get2 s (Z.of_nat n) = Ret (None, s)).
Proof.
  intros S. pose proof (readable s S) as R. pose proof (sane_verify s S) as V. split.
  - intros w. case_decide as Hn.
    + destruct (get_be_spec s (width2_bytes w) S Hn) as (s' & E & S' & P').
      exists s'. split; [|done].
      destruct w; cbn [get_field2 width2_bytes] in *;
        unfold stream_getc2, stream_getw2, stream_getl2, stream_getq2;
        rewrite V, R, (proj2 (Z.ltb_ge _ _)) by lia;
        rewrite ?next_byte_be by apply S; by rewrite E.
    + destruct w; simpl in *; unfold stream_getc2, stream_getw2, stream_getl2, stream_getq2;
        rewrite V, R, (proj2 (Z.ltb_lt _ _)) by lia; done.
  - intros n. unfold stream_get2. rewrite V, R. case_decide as Hn.
    + rewrite (proj2 (Z.ltb_ge _ _)) by lia. eexists. split.
      * rewrite <- pending_take by done. unfold read_bytes, bytes_at. by rewrite Nat2Z.id.
      * by apply advance.
    + by rewrite (proj2 (Z.ltb_lt _ _)) by lia.
Qed.

Lemma stream_get2_total_witness :
  exists s', stream_getw2 (mkStream 1 3 4 false [9; 1; 2; 0]) = Ret (Some 258, s').
Proof.
  assert (sane (mkStream 1 3 4 false [9; 1; 2; 0])) as S.
  { split; simpl; try lia. repeat constructor; lia. }
  destruct (stream_get2_total _ S) as [H _]. specialize (H W2).
  destruct (decide _) as [_|n]; [|exfalso; apply n; vm_compute; lia].
  destruct H as (s' & E & _). exists s'. exact E.
Defined.

(** ** Bulk writes *)

Lemma check_size s n :
  sane s -> 0 <= n < 9223372036854775808 -> CHECK_SIZE s n = Z.min n (size s - endp s).
Proof.
  intros [? ? ? ? ?] Hn. unfold CHECK_SIZE. rewrite !u64_small by lia. case_bool; lia.
Qed.

Lemma make_room_small junk s n :
  sane s -> n <= size s - endp s -> make_room junk s n = Ret s.
Proof.
  intros S Hn. unfold make_room. rewrite writeable by done.
  by rewrite (proj2 (Z.ltb_ge _ _)) by lia.
Qed.

(** [stream_write] and [stream_put] append what fits into the present
    buffer and silently drop the rest, whether or not the stream may expand:
    the expansion both functions contain is never reached. *)
Theorem stream_write_truncates (junk : nat -> Z) s src n :
  sane s -> bytes src -> 0 <= n <= Z.of_nat (length src) -> n < 9223372036854775808 ->
  let k := Z.min n (size s - endp s) in
  (exists s', stream_write junk s src n = Ret (k, s') /\ sane s' /\ size s' = size s
     /\ pending s' = pending s ++ take (Z.to_nat k) src)
  /\ (exists s', stream_put junk s (Some src) n = Ret s' /\ sane s' /\ size s' = size s
     /\ pending s' = pending s ++ take (Z.to_nat k) src)
  /\ (exists s', stream_put junk s None n = Ret s' /\ sane s' /\ size s' = size s
     /\ pending s' = pending s ++ replicate (Z.to_nat k) 0).
Proof.
  intros S Hb Hn Hmax k. unfold stream_write, stream_put.
  rewrite check_size by (done || lia). fold k. rewrite sane_verify by done.
  rewrite make_room_small by (done || lia). cbn [mbind outcome_bind].
  assert (0 <= k) as Hk by (destruct S; lia).
  assert (forall d, length d = Z.to_nat k -> bytes d ->
    sane (set_endp (endp s + k) (write_bytes s (endp s) d))
    /\ pending (set_endp (endp s + k) (write_bytes s (endp s) d)) = pending s ++ d) as A.
  { intros d Hd Bd. pose proof (append s d S) as A. rewrite Hd, Z2Nat.id in A by lia.
    apply A; [lia|done]. }
  destruct (A (take (Z.to_nat k) src)) as [A1 A2]; [rewrite length_take; lia|by apply Forall_take|].
  destruct (A (replicate (Z.to_nat k) 0)) as [A3 A4];
    [by rewrite length_replicate|apply Forall_replicate; unfold is_byte; lia|].
  split_and!; eauto 7.
Qed.

Lemma stream_write_truncates_witness :
  exists s', stream_write (fun _ => 0) (mkStream 0 0 2 true [0; 0]) [1; 2; 3] 3 = Ret (2, s').
Proof.
  destruct (stream_write_truncates (fun _ => 0) (mkStream 0 0 2 true [0; 0]) [1; 2; 3] 3)
    as ((s' & E & _) & _).
  - split; simpl; try lia; repeat constructor; lia.
  - repeat constructor; lia.
  - simpl. lia.
  - lia.
  - exists s'. exact E.
Defined.

(** [stream_put_ipv4] on an expandable stream without room for the address
    makes room, but then returns 0 without writing the address. *)
Theorem stream_put_ipv4_dropped (junk : nat -> Z) s l :
  (forall i, is_byte (junk i)) -> sane s -> allow_expansion s = true ->
  size s - endp s < 4 -> size s + 1048576 < 9223372036854775808 ->
  exists s', stream_put_ipv4 junk s l = Ret (0, s') /\ 4 <= size s' - endp s'
    /\ pending s' = pending s.
Proof.
  intros Hj S A Hlt Hm. unfold stream_put_ipv4. rewrite sane_verify by done.
  rewrite writeable by done. rewrite (proj2 (Z.ltb_lt _ _)) by lia.
  destruct (make_room_spec junk Hj s 4 S ltac:(lia) ltac:(auto))
    as (s1 & E & S1 & P1 & _ & _ & R1 & _).
  unfold make_room in E. rewrite writeable, (proj2 (Z.ltb_lt _ _)) in E by (done || lia).
  rewrite A in *. rewrite E. simpl. exists s1. split_and!; [done|lia|done].
Qed.

Lemma stream_put_ipv4_dropped_witness :
  exists s', stream_put_ipv4 (fun _ => 0) (mkStream 0 0 2 true [0; 0]) [1; 2; 3; 4] = Ret (0, s').
Proof.
  destruct (stream_put_ipv4_dropped (fun _ => 0) (mkStream 0 0 2 true [0; 0]) [1; 2; 3; 4])
    as (s' & E & _).
  - unfold is_byte. lia.
  - split; simpl; try lia; repeat constructor; lia.
  - reflexivity.
  - simpl. lia.
  - simpl. lia.
  - exists s'. exact E.
Defined.

(** ** The invariant under every operation *)

Inductive stream_op :=
| OpPut (w : width) (v : Z)
| OpPutAt (w : width) (putp v : Z)
| OpPutBytes (src : option (list Z)) (n : Z)
| OpWrite (ptr : list Z) (n : Z)
| OpPutIpv4 (l : list Z)
| OpPutInAddr (l : list Z)
| OpPutInAddrAt (putp : Z) (l : list Z)
| OpPutIn6AddrAt (putp : Z) (l : list Z)
| OpPutIpaddr (a : ipaddr)
| OpPutPrefix (p : prefix)
| OpRead (input : Z + list Z) (n : Z)
| OpReadTry (input : Z + list Z) (retry : bool) (n : Z)
| OpRecvfrom (input : Z + list Z) (retry : bool) (n : Z)
| OpRecvmsg (input : Z + list Z) (iovlen rest n : Z)
| OpGet (w : width)
| OpGet2 (w : width)
| OpGetBytes (n : Z)
| OpGetBytes2 (n : Z)
| OpGetIpv4
| OpGetIpaddr
| OpSetGetp (pos : Z)
| OpSetEndp (pos : Z)
| OpForwardGetp (n : Z)
| OpForwardGetp2 (n : Z)
| OpRewindGetp (n : Z)
| OpRewindGetp2 (n : Z)
| OpForwardEndp (n : Z)
| OpForwardEndp2 (n : Z)
| OpResize (n : Z)
| OpReset
| OpPulldown
| OpCopy (src : stream)
| OpCopyTo (dest : stream)
| OpDup
| OpDupcat (s2 : stream) (offset : Z)
| OpDupcatInto (s1 : stream) (offset : Z).

Definition put_field_at (w : width) (s : stream) (putp v : Z) : outcome (Z * stream) :=
  match w with
  | W1 => stream_putc_at s putp v
  | W2 => stream_putw_at s putp v
  | W3 => stream_put3_at s putp v
  | W4 => stream_putl_at s putp v
  | W8 => stream_putq_at s putp v
  end.

(** The stream an operation leaves. *)
Definition left {A} (m : outcome (A * stream)) : outcome stream := '(_, s) ← m; Ret s.

(** [stream_dupcat] may return no stream. *)
Definition or_same (s : stream) (m : outcome (option stream)) : outcome stream := o ← m; Ret (default s o).

(** The stream is the one operated on; of a copy, the one that results. *)
Definition run_op (junk : nat -> Z) (op : stream_op) (s : stream) : outcome stream :=
  match op with
  | OpPut w v => left (put_field junk w v s)
  | OpPutAt w putp v => left (put_field_at w s putp v)
  | OpPutBytes src n => stream_put junk s src n
  | OpWrite ptr n => left (stream_write junk s ptr n)
  | OpPutIpv4 l => left (stream_put_ipv4 junk s l)
  | OpPutInAddr l => left (stream_put_in_addr junk s l)
  | OpPutInAddrAt putp l => left (stream_put_in_addr_at s putp l)
  | OpPutIn6AddrAt putp l => left (stream_put_in6_addr_at s putp l)
  | OpPutIpaddr a => left (stream_put_ipaddr junk s a)
  | OpPutPrefix p => left (stream_put_prefix junk s p)
  | OpRead input n => left (stream_read s input n)
  | OpReadTry input retry n => left (stream_read_try s input retry n)
  | OpRecvfrom input retry n => left (stream_recvfrom s input retry n)
  | OpRecvmsg input iovlen rest n => left (stream_recvmsg s input iovlen rest n)
  | OpGet w => left (get_field w s)
  | OpGet2 w => left (get_field2 w s)
  | OpGetBytes n => left (stream_get s n)
  | OpGetBytes2 n => left (stream_get2 s n)
  | OpGetIpv4 => left (stream_get_ipv4 s)
  | OpGetIpaddr => left (stream_get_ipaddr s)
  | OpSetGetp pos => stream_set_getp s pos
  | OpSetEndp pos => stream_set_endp s pos
  | OpForwardGetp n => stream_forward_getp s n
  | OpForwardGetp2 n => left (stream_forward_getp2 s n)
  | OpRewindGetp n => stream_rewind_getp s n
  | OpRewindGetp2 n => left (stream_rewind_getp2 s n)
  | OpForwardEndp n => stream_forward_endp s n
  | OpForwardEndp2 n => left (stream_forward_endp2 s n)
  | OpResize n => left (stream_resize_inplace junk s n)
  | OpReset => stream_reset s
  | OpPulldown => stream_pulldown s
  | OpCopy src => stream_copy s src
  | OpCopyTo dest => stream_copy dest s
  | OpDup => stream_dup junk s
  | OpDupcat s2 offset => or_same s (stream_dupcat junk s s2 offset)
  | OpDupcatInto s1 offset => or_same s (stream_dupcat junk s1 s offset)
  end.

(** Arguments of their C types; buffers hold what their sizes say; other streams
    satisfy the invariant too.  The positions of the [_at] functions and the
    distances of [stream_forward_endp] are less than 2^63, so that they do not wrap
    around when added ([stream_forward_endp_wraps] has one that does); [recvmsg] is
    given one vector, the stream's. *)
Definition op_ok (op : stream_op) : Prop :=
  match op with
  | OpPutAt _ putp _ => 0 <= putp < 9223372036854775808
  | OpPutBytes (Some l) n | OpWrite l n => bytes l /\ 0 <= n <= Z.of_nat (length l) /\ n < 9223372036854775808
  | OpPutBytes None n => 0 <= n < 9223372036854775808
  | OpPutIpv4 l | OpPutInAddr l => bytes l /\ length l = 4%nat
  | OpPutInAddrAt putp l => bytes l /\ length l = 4%nat /\ 0 <= putp < 9223372036854775808
  | OpPutIn6AddrAt putp l => bytes l /\ length l = 16%nat /\ 0 <= putp < 9223372036854775808
  | OpPutIpaddr a => bytes (ip a) /\ length (ip a) = 16%nat
  | OpPutPrefix p => wf_prefix p /\ PSIZE (prefixlen p) <= Z.of_nat (length (val p))
  | OpRead (inr l) n | OpReadTry (inr l) _ n | OpRecvfrom (inr l) _ n => bytes l /\ 0 <= n
  | OpRecvmsg (inr l) _ rest n => bytes l /\ 0 <= n /\ rest = 0
  | OpGetBytes n | OpGetBytes2 n | OpSetGetp n | OpSetEndp n | OpForwardGetp n | OpForwardGetp2 n
  | OpRewindGetp n | OpRewindGetp2 n | OpResize n => 0 <= n < 18446744073709551616
  | OpForwardEndp n | OpForwardEndp2 n => 0 <= n < 9223372036854775808
  | OpCopy s' | OpCopyTo s' => sane s'
  | OpDupcat s' offset | OpDupcatInto s' offset => sane s' /\ 0 <= offset < 18446744073709551616
  | _ => True
  end.

Lemma left_ret {A} (m : outcome (A * stream)) s' :
  left m = Ret s' -> exists r, m = Ret (r, s').
Proof. destruct m as [[r s]|]; [|done]. simpl. intros [= ->]. by exists r. Qed.

Section Invariant.
Context (junk : nat -> Z) (Hjunk : forall i, is_byte (junk i)).

Lemma make_room_ret s n s' :
  sane s -> 0 <= n <= 1048576 -> make_room junk s n = Ret s' ->
  sane s' /\ pending s' = pending s /\ endp s' = endp s /\ endp s' + n <= size s'.
Proof.
  intros S Hn E. destruct (Z.lt_ge_cases (size s - endp s) n) as [Hlt|Hge].
  - destruct (allow_expansion s) eqn:A.
    + destruct (Z.lt_ge_cases (size s + 1048576) 9223372036854775808).
      { destruct (make_room_spec junk Hjunk s n S Hn ltac:(auto))
          as (s2 & E2 & ? & ? & ? & _ & ? & _). assert (s2 = s') as -> by congruence. done. }
      unfold make_room in E. rewrite writeable, (proj2 (Z.ltb_lt _ _)), A in E by (done || lia).
      unfold stream_expand, xrealloc, STREAM_EXPAND_SIZE in E. rewrite writeable in E by done.
      rewrite (u64_small (n - _)) in E by (destruct S; lia).
      set (act := if _ <=? _ then _ else _) in E.
      assert (n - (size s - endp s) <= act <= 1048576) as Hact.
      { unfold act, MIN_STREAM_EXPANSION_SZ. case_bool; destruct S; lia. }
      rewrite (u64_small (size s + act)) in E by (destruct S; lia).
      destruct (Z.ltb_spec (size s + act) 9223372036854775808); [|done]. simpl in E.
      injection E as <-.
      destruct (resize_buf_spec junk Hjunk (size s + act) (data s)) as (_ & _ & R3);
        [destruct S; lia|apply S|].
      destruct R3 as [r Hr]; [destruct S; lia|].
      destruct (grow_spec junk Hjunk s (size s + act) r S) as [S' P']; [destruct S; lia|done|].
      split_and!; [exact S'|exact P'|done|simpl; lia].
    + unfold make_room in E. by rewrite writeable, (proj2 (Z.ltb_lt _ _)), A in E by (done || lia).
  - rewrite make_room_small in E by (done || lia). injection E as <-. split_and!; done || lia.
Qed.

Lemma append_sane s d n :
  sane s -> n = Z.of_nat (length d) -> endp s + n <= size s -> bytes d ->
  sane (set_endp (endp s + n) (write_bytes s (endp s) d)).
Proof. intros S -> Hd Hb. by apply append. Qed.

Lemma put_be_sane n s v r s' :
  sane s -> (n <= 8)%nat -> stream_put_be junk n s v = Ret (r, s') -> sane s'.
Proof.
  intros S Hn E. unfold stream_put_be in E. rewrite sane_verify in E by done.
  destruct (make_room junk s (Z.of_nat n)) as [s1|] eqn:M; [|done].
  destruct (make_room_ret s (Z.of_nat n) s1 S ltac:(lia) M) as (S1 & _ & _ & R1).
  simpl in E. injection E as <- <-. rewrite add_be_spec by (destruct S1; lia).
  apply append_sane; rewrite ?be_bytes_length; auto using be_bytes_bytes.
Qed.

Lemma be_at_sane n s putp v r s' :
  sane s -> (n <= 8)%nat -> 0 <= putp < 9223372036854775808 ->
  stream_be_at n s putp v = Ret (r, s') -> sane s'.
Proof.
  intros S Hn Hp E. unfold stream_be_at in E. rewrite sane_verify in E by done.
  rewrite u64_small in E by lia. unfold GETP_VALID in E. case_bool; [|done].
  simpl in E. injection E as <- <-. rewrite be_at_spec by lia.
  apply write_bytes_sane; [done|lia| |apply be_bytes_bytes].
  rewrite be_bytes_length. destruct S. lia.
Qed.

(** Reading never breaks the invariant. *)
Lemma get_sane w s r s' : sane s -> get_field w s = Ret (r, s') -> sane s'.
Proof.
  intros S E. destruct (decide (width_bytes w <= length (pending s))%nat) as [H|H].
  - destruct (get_field_spec w s S H) as (s2 & E2 & S2 & _). congruence.
  - pose proof (readable s S) as R. destruct w; simpl in *;
      unfold stream_getc, stream_getw, stream_get3, stream_getl, stream_getq in E;
      rewrite sane_verify, R, (proj2 (Z.ltb_lt _ _)) in E by (done || lia); done.
Qed.

Lemma get2_sane w s r s' : sane s -> get_field2 w s = Ret (r, s') -> sane s'.
Proof.
  intros S E. pose proof (readable s S) as R. pose proof (sane_verify s S) as V.
  destruct (decide (width2_bytes w <= length (pending s))%nat) as [Hn|Hn].
  - destruct (get_be_spec s (width2_bytes w) S Hn) as (s1 & E1 & S1 & P1).
    destruct w; cbn [get_field2 width2_bytes] in *;
      unfold stream_getc2, stream_getw2, stream_getl2, stream_getq2 in E;
      rewrite V, R, (proj2 (Z.ltb_ge _ _)) in E by lia;
      rewrite ?next_byte_be in E by apply S; rewrite E1 in E; congruence.
  - destruct w; cbn [get_field2 width2_bytes] in *;
      unfold stream_getc2, stream_getw2, stream_getl2, stream_getq2 in E;
      rewrite V, R, (proj2 (Z.ltb_lt _ _)) in E by lia; congruence.
Qed.

Lemma skip_sane s n : sane s -> 0 <= n <= STREAM_READABLE s -> sane (set_getp (getp s + n) s).
Proof.
  intros S Hn. rewrite readable in Hn by done. replace n with (Z.of_nat (Z.to_nat n)) by lia.
  apply advance; [done|lia].
Qed.

Lemma resize_sane s n r s' :
  sane s -> 0 <= n -> stream_resize_inplace junk s n = Ret (r, s') -> sane s'.
Proof.
  intros S Hn E. unfold stream_resize_inplace, xrealloc in E. rewrite sane_verify in E by done.
  destruct (Z.ltb_spec n 9223372036854775808); [|done]. simpl in E.
  destruct (verify_sane _) in E; [|done]. injection E as <- <-.
  destruct (resize_buf_spec junk Hjunk n (data s)) as (R1 & R2 & _); [done|apply S|].
  destruct S as [? ? ? ? ?]. split; simpl; try done; repeat case_bool; lia.
Qed.

Lemma ipaddr_sane s r s' : sane s -> stream_get_ipaddr s = Ret (r, s') -> sane s'.
Proof.
  intros S E. unfold stream_get_ipaddr in E. rewrite sane_verify in E by done.
  case_bool; [congruence|].
  destruct (stream_getw s) as [[ty s1]|] eqn:Ew; [|done].
  assert (sane s1) as S1 by (by apply (get_sane W2 s ty)).
  cbn [mbind outcome_bind] in E. case_bool; [congruence|].
  set (k := if ty =? AF_INET then _ else _) in E.
  assert (0 <= k) by (unfold k; repeat case_bool; unfold IPV4_MAX_BYTELEN, IPV6_MAX_BYTELEN; lia).
  destruct (Z.ltb_spec (STREAM_READABLE s1) k); [congruence|]. injection E as <- <-.
  apply skip_sane; [done|lia].
Qed.

Lemma read_sane s l n :
  sane s -> bytes l -> 0 <= n <= size s - endp s ->
  let d := take (Z.to_nat n) l in
  sane (set_endp (endp s + Z.of_nat (length d)) (write_bytes s (endp s) d)).
Proof.
  intros S Hl Hn d. apply append_sane; try done.
  - unfold d. rewrite length_take. lia.
  - by apply Forall_take.
Qed.

Lemma put_prefix_sane s p r s' :
  sane s -> wf_prefix p -> PSIZE (prefixlen p) <= Z.of_nat (length (val p)) ->
  stream_put_prefix junk s p = Ret (r, s') -> sane s'.
Proof.
  intros S Wp Hl E. unfold stream_put_prefix in E. rewrite sane_verify in E by done.
  pose proof (wf_len p Wp).
  assert (0 <= PSIZE (prefixlen p) <= 8192) as Hps.
  { unfold PSIZE. split; [apply Z.div_pos; lia|].
    change 8192 with (65543 / 8). apply Z.div_le_mono; lia. }
  destruct (make_room junk s (PSIZE (prefixlen p) + 1)) as [s1|] eqn:M; [|done].
  destruct (make_room_ret s (PSIZE (prefixlen p) + 1) s1 S ltac:(lia) M) as (S1 & _ & _ & R1).
  simpl in E. injection E as <- <-.
  assert (sane (add_byte (u8 (prefixlen p)) s1)) as S2.
  { unfold add_byte. apply (append_sane s1 [_] 1); [done|done|lia|].
    repeat constructor; apply u8_byte. }
  apply (append_sane (add_byte (u8 (prefixlen p)) s1)); try done.
  - rewrite length_take. lia.
  - simpl. lia.
  - apply Forall_take, Wp.
Qed.

Lemma put_sane s src n s' :
  sane s -> op_ok (OpPutBytes src n) -> stream_put junk s src n = Ret s' -> sane s'.
Proof.
  intros S Ok E. unfold stream_put in E. simpl in Ok.
  rewrite check_size, sane_verify, make_room_small in E
    by (try done; destruct src; destruct_and? Ok; lia).
  simpl in E. injection E as <-. destruct src as [l|].
  - destruct Ok as (Hb & Hn & Hm). apply append_sane; [done| |lia|by apply Forall_take].
    rewrite length_take. destruct S; lia.
  - apply append_sane; [done| |lia|apply Forall_replicate; unfold is_byte; lia].
    rewrite length_replicate. destruct S; lia.
Qed.

Lemma write_sane s l n r s' :
  sane s -> op_ok (OpWrite l n) -> stream_write junk s l n = Ret (r, s') -> sane s'.
Proof.
  intros S (Hb & Hn & Hm) E. unfold stream_write in E.
  rewrite check_size, sane_verify, make_room_small in E by (done || lia).
  simpl in E. injection E as <- <-.
  apply append_sane; [done| |lia|by apply Forall_take]. rewrite length_take. destruct S; lia.
Qed.

Lemma put_ipv4_sane s l r s' :
  sane s -> op_ok (OpPutIpv4 l) -> stream_put_ipv4 junk s l = Ret (r, s') -> sane s'.
Proof.
  intros S [Hb Hl] E. unfold stream_put_ipv4 in E. rewrite sane_verify in E by done.
  destruct (STREAM_WRITEABLE s <? 4) eqn:W.
  - destruct (make_room junk s 4) as [s1|] eqn:M.
    + pose proof M as M'. unfold make_room in M'. rewrite W in M'. rewrite M' in E.
      simpl in E. injection E as <- <-. by eapply (make_room_ret s 4).
    + unfold make_room in M. rewrite W in M. by rewrite M in E.
  - rewrite writeable in W by done. bool_to_prop. injection E as <- <-.
    apply append_sane; [done| |lia|by apply Forall_take]. rewrite length_take. lia.
Qed.

Lemma put_in_addr_sane s l r s' :
  sane s -> op_ok (OpPutInAddr l) -> stream_put_in_addr junk s l = Ret (r, s') -> sane s'.
Proof.
  intros S [Hb Hl] E. unfold stream_put_in_addr in E. rewrite sane_verify in E by done.
  destruct (make_room junk s 4) as [s1|] eqn:M; [|done].
  destruct (make_room_ret s 4 s1 S ltac:(lia) M) as (S1 & _ & _ & R1).
  simpl in E. injection E as <- <-. apply append_sane; [done| |lia|by apply Forall_take].
  rewrite length_take. lia.
Qed.

Lemma put_in_addr_at_sane s putp l r s' :
  sane s -> op_ok (OpPutInAddrAt putp l) -> stream_put_in_addr_at s putp l = Ret (r, s') ->
  sane s'.
Proof.
  intros S (Hb & Hl & Hp) E. unfold stream_put_in_addr_at, GETP_VALID in E.
  rewrite sane_verify, u64_small in E by (done || lia). case_bool; [|done].
  injection E as <- <-. apply write_bytes_sane; [done|lia| |by apply Forall_take].
  rewrite length_take. destruct S; lia.
Qed.

Lemma set_getp_sane s g : sane s -> 0 <= g <= endp s -> sane (set_getp g s).
Proof. intros [? ? ? ? ?] Hg. split; simpl; lia || done. Qed.

Lemma set_endp_sane s e : sane s -> getp s <= e <= size s -> sane (set_endp e s).
Proof. intros [? ? ? ? ?] He. split; simpl; lia || done. Qed.

Lemma stream_reads_sane s input n r s' :
  sane s -> op_ok (OpRead input n) ->
  (stream_read s input n = Ret (r, s') \/ exists retry, stream_read_try s input retry n = Ret (r, s')) ->
  sane s'.
Proof.
  intros S Ok E. assert (sane s' \/ exists l, input = inr l /\ n <= size s - endp s /\ s' =
    let d := take (Z.to_nat n) l in
    set_endp (endp s + Z.of_nat (length d)) (write_bytes s (endp s) d)) as [|(l & -> & Hn & ->)].
  { destruct E as [E|[retry E]]; unfold stream_read, stream_read_try in E;
      rewrite sane_verify, writeable in E by done;
      (destruct (Z.ltb_spec (size s - endp s) n); [done|]);
      destruct input as [e|l]; simpl in E; injection E as <- <-; eauto. }
  - done.
  - simpl in Ok. apply read_sane; [done|apply Ok|lia].
Qed.

Lemma pulldown_sane s s' : sane s -> stream_pulldown s = Ret s' -> sane s'.
Proof.
  intros S E. unfold stream_pulldown, stream_reset in E. rewrite sane_verify in E by done.
  pose proof (readable s S) as R. pose proof (pending_length s S) as P.
  case_bool; injection E as <-.
  - destruct S. split; simpl; lia || done.
  - assert (bytes (read_bytes s (getp s) (STREAM_READABLE s))) as Hb
      by (apply Forall_take, Forall_drop, S).
    destruct (write_bytes_sane s 0 (read_bytes s (getp s) (STREAM_READABLE s)) S)
      as [? ? ? ? ?]; [lia| |done|].
    + unfold read_bytes. rewrite length_take, length_drop. destruct S. lia.
    + destruct S. split; simpl in *; lia || done.
Qed.

Lemma put_in6_addr_at_sane s putp l r s' :
  sane s -> op_ok (OpPutIn6AddrAt putp l) -> stream_put_in6_addr_at s putp l = Ret (r, s') -> sane s'.
Proof.
  intros S (Hb & Hl & Hp) E. unfold stream_put_in6_addr_at, GETP_VALID in E.
  rewrite sane_verify, u64_small in E by (done || lia). case_bool; [|done].
  injection E as <- <-. apply write_bytes_sane; [done|lia| |by apply Forall_take].
  rewrite length_take. destruct S; lia.
Qed.

Lemma put_ipaddr_sane s a r s' :
  sane s -> op_ok (OpPutIpaddr a) -> stream_put_ipaddr junk s a = Ret (r, s') -> sane s'.
Proof.
  intros S [Hb Hl] E. unfold stream_put_ipaddr in E.
  destruct (stream_putw junk s (ipa_type a)) as [[n s1]|] eqn:Ew; [|done].
  apply put_be_sane in Ew; [|done|lia]. cbn [mbind outcome_bind] in E.
  destruct (_ =? AF_INET); [|destruct (_ =? AF_INET6)].
  - destruct (stream_put_in_addr junk s1 (ip a)) as [[m s2]|] eqn:Ei; [|done]. injection E as <- <-.
    unfold stream_put_in_addr in Ei. rewrite sane_verify in Ei by done.
    destruct (make_room junk s1 4) as [s3|] eqn:M; [|done].
    destruct (make_room_ret s1 4 s3 Ew ltac:(lia) M) as (S3 & _ & _ & R3).
    simpl in Ei. injection Ei as <- <-. apply append_sane; [done| |lia|by apply Forall_take].
    rewrite length_take. lia.
  - destruct (stream_write junk s1 (ip a) 16) as [[m s2]|] eqn:Ei; [|done]. injection E as <- <-.
    eapply write_sane; [exact Ew| |exact Ei]. split; [done|]. lia.
  - destruct (_ =? AF_UNSPEC); by injection E as <- <-.
Qed.

(** A copy into a buffer that is large enough. *)
Lemma copy_sane dest src s' : sane src -> size dest < 9223372036854775808 -> Z.of_nat (length (data dest)) = size dest ->
  bytes (data dest) -> stream_copy dest src = Ret s' -> sane s'.
Proof.
  intros S H1 H2 H3 E. unfold stream_copy in E. rewrite sane_verify in E by done.
  destruct (Z.leb_spec (endp src) (size dest)); [|done]. cbn in E. injection E as <-.
  assert (Z.of_nat (length (read_bytes src 0 (endp src))) = endp src) as L.
  { unfold read_bytes. rewrite length_take, length_drop. destruct S. lia. }
  apply write_bytes_sane; [|lia|cbn; lia|apply Forall_take, Forall_drop, S].
  destruct S. split; cbn; done || lia.
Qed.

Lemma new_sane n s : stream_new junk n = Ret s -> sane s /\ size s = n /\ endp s = 0 /\ getp s = 0.
Proof.
  unfold stream_new, xmalloc. intros E. destruct (Z.ltb_spec 0 n); [|done]. cbn in E.
  destruct (Z.ltb_spec n 9223372036854775808); [|done]. cbn in E. injection E as <-.
  destruct (resize_buf_spec junk Hjunk n []) as (R1 & R2 & _); [lia|constructor|].
  split; [|done]. split; cbn; done || lia.
Qed.

Lemma dup_sane s s' : sane s -> stream_dup junk s = Ret s' -> sane s'.
Proof.
  intros S E. unfold stream_dup in E. rewrite sane_verify in E by done.
  destruct (stream_new junk (endp s)) as [n|] eqn:En; [|done]. destruct (new_sane _ _ En) as ([? ? ? ? ?] & _).
  cbn in E. eapply copy_sane; [exact S|..|exact E]; done.
Qed.

Lemma dupcat_sane s1 s2 offset o : sane s1 -> sane s2 -> 0 <= offset ->
  stream_dupcat junk s1 s2 offset = Ret o -> forall s', o = Some s' -> sane s'.
Proof.
  intros S1 S2 Ho E s' ->. unfold stream_dupcat in E. rewrite !sane_verify in E by done. cbn in E.
  destruct (Z.ltb_spec (endp s1) offset); [done|].
  rewrite u64_small in E by (destruct S1, S2; lia).
  destruct (stream_new junk (endp s1 + endp s2)) as [n|] eqn:En; [|done]. destruct (new_sane _ _ En) as (Sn & Z1 & Z2 & Z3).
  cbn in E. injection E as <-.
  assert (forall s from k, sane s -> 0 <= from -> 0 <= k -> from + k <= endp s ->
    Z.of_nat (length (read_bytes s from k)) = k /\ bytes (read_bytes s from k)) as L.
  { intros s from k S ? ? ?. unfold read_bytes. rewrite length_take, length_drop. split; [destruct S; lia|apply Forall_take, Forall_drop, S]. }
  destruct (L s1 0 offset S1) as [L1 B1]; [lia..|]. destruct (L s2 0 (endp s2) S2) as [L2 B2]; [destruct S2; lia..|].
  destruct (L s1 offset (endp s1 - offset) S1) as [L3 B3]; [lia..|].
  set (n0 := mkStream _ _ _ _ _). assert (sane n0) as S0 by (destruct Sn; split; cbn; done || lia).
  assert (sane (write_bytes n0 0 (read_bytes s1 0 offset))) as W1.
  { apply write_bytes_sane; [done|lia| |done]. cbn. destruct S2. lia. }
  assert (sane (write_bytes (write_bytes n0 0 (read_bytes s1 0 offset)) offset (read_bytes s2 0 (endp s2)))) as W2.
  { apply write_bytes_sane; [done|lia| |done]. cbn. lia. }
  apply set_endp_sane; [apply write_bytes_sane; [done|destruct S2; lia| |done]; cbn; lia|].
  cbn. destruct S1, S2. lia.
Qed.

(** One operation preserves the invariant. *)
Lemma run_op_sane op s s' :
  sane s -> op_ok op -> run_op junk op s = Ret s' -> sane s'.
Proof.
  intros S Ok E. pose proof (sane_verify s S) as V.
  assert (forall z, 0 <= u64 z) as U by (intros z; apply Z.mod_pos_bound; lia).
  destruct op; cbn [run_op] in E; try (apply left_ret in E as [r E]).
  - rewrite put_field_be in E. eapply put_be_sane; [done| |done]. destruct w; simpl; lia.
  - eapply (be_at_sane (width_bytes w)); [done|destruct w; simpl; lia|exact Ok|]. by destruct w.
  - by eapply put_sane.
  - by eapply write_sane.
  - by eapply put_ipv4_sane.
  - by eapply put_in_addr_sane.
  - by eapply put_in_addr_at_sane.
  - by eapply put_in6_addr_at_sane.
  - by eapply put_ipaddr_sane.
  - eapply put_prefix_sane; [done|apply Ok|apply Ok|done].
  - eapply stream_reads_sane; [done|exact Ok|by left].
  - eapply stream_reads_sane; [done|exact Ok|right; by eexists].
  - eapply stream_reads_sane; [done|exact Ok|right; by eexists].
  - destruct input as [e|l].
    + unfold stream_recvmsg in E. rewrite V in E. destruct (_ <? iovlen); [|done]. destruct (negb _); [|done]. by injection E as <- <-.
    + destruct Ok as (Hb & Hn & ->). eapply (stream_reads_sane s (inr l) n); [done|done|left].
      unfold stream_recvmsg in E. unfold stream_read. rewrite Z.add_0_r in E. destruct (_ <? iovlen); [exact E|].
      by destruct (verify_sane s).
  - by eapply get_sane.
  - by eapply get2_sane.
  - unfold stream_get in E. rewrite V in E. destruct (Z.ltb_spec (STREAM_READABLE s) n); [done|].
    simpl in E, Ok. injection E as <- <-. apply skip_sane; [done|lia].
  - unfold stream_get2 in E. rewrite V in E. simpl in Ok.
    destruct (Z.ltb_spec (STREAM_READABLE s) n); injection E as <- <-; [done|].
    apply skip_sane; [done|lia].
  - unfold stream_get_ipv4 in E. rewrite V in E. destruct (Z.ltb_spec (STREAM_READABLE s) 4); [done|].
    injection E as <- <-. apply skip_sane; [done|lia].
  - by eapply ipaddr_sane.
  - unfold stream_set_getp, GETP_VALID in E. rewrite V in E. simpl in Ok. case_bool; [|done].
    injection E as <-. apply set_getp_sane; [done|lia].
  - unfold stream_set_endp, ENDP_VALID in E. rewrite V in E. case_bool; [|done].
    destruct (Z.ltb_spec pos (getp s)); [done|]. simpl in E. case_bool; [|done].
    injection E as <-. apply set_endp_sane; [done|lia].
  - unfold stream_forward_getp, GETP_VALID in E. rewrite V in E. case_bool; [|done].
    injection E as <-. apply set_getp_sane; auto.
  - unfold stream_forward_getp2, GETP_VALID in E. rewrite V in E.
    destruct (Z.leb_spec (u64 (getp s + n)) (endp s)); simpl in E; injection E as <- <-; [|done].
    apply set_getp_sane; auto.
  - unfold stream_rewind_getp, GETP_VALID in E. rewrite V in E. simpl in Ok.
    destruct (Z.ltb_spec (getp s) n); [done|]. simpl in E. case_bool; [|done].
    bool_to_prop. injection E as <-. apply set_getp_sane; [done|]. destruct S. lia.
  - unfold stream_rewind_getp2, GETP_VALID in E. rewrite V in E. simpl in Ok.
    destruct (Z.ltb_spec (getp s) n); simpl in E; [by injection E as <- <-|].
    case_bool; injection E as <- <-; [done|]. apply set_getp_sane; [done|]. destruct S. lia.
  - unfold stream_forward_endp, ENDP_VALID in E. rewrite V in E. simpl in Ok.
    rewrite u64_small in E by (destruct S; lia). case_bool; [|done].
    injection E as <-. apply set_endp_sane; [done|]. destruct S. lia.
  - unfold stream_forward_endp2, ENDP_VALID in E. rewrite V in E. simpl in Ok.
    rewrite u64_small in E by (destruct S; lia).
    destruct (Z.leb_spec (endp s + n) (size s)); simpl in E; injection E as <- <-; [|done].
    apply set_endp_sane; [done|]. destruct S. lia.
  - eapply resize_sane; [done| |done]. simpl in Ok. lia.
  - unfold stream_reset in E. rewrite V in E. injection E as <-.
    destruct S. split; simpl; lia || done.
  - by eapply pulldown_sane.
  - destruct S. by eapply copy_sane; [exact Ok|..|exact E].
  - destruct Ok. by eapply copy_sane; [exact S|..|exact E].
  - by eapply dup_sane.
  - unfold or_same in E. destruct (stream_dupcat junk s s2 offset) as [o|] eqn:Ed; [|done]. injection E as <-.
    destruct Ok as [S2 Ho]. destruct o as [t|]; [|done]. by apply (dupcat_sane s s2 offset _ S S2 ltac:(lia) Ed).
  - unfold or_same in E. destruct (stream_dupcat junk s1 s offset) as [o|] eqn:Ed; [|done]. injection E as <-.
    destruct Ok as [S2 Ho]. destruct o as [t|]; [|done]. by apply (dupcat_sane s1 s offset _ S2 S ltac:(lia) Ed).
Qed.
End Invariant.

(** A distance that makes the sum wrap around passes the test of
    [stream_forward_endp] and puts the end before the read position. *)
Lemma stream_forward_endp_wraps :
  exists s', stream_forward_endp (mkStream 2 2 4 false [1; 2; 3; 4]) 18446744073709551615 = Ret s'
    /\ endp s' < getp s' /\ verify_sane s' = false.
Proof. eexists. split; [vm_compute; reflexivity|]. split; [vm_compute|]; done. Qed.


(** A run of operations. *)
Fixpoint run_ops (junk : nat -> Z) (ops : list stream_op) (s : stream) : outcome stream :=
  match ops with
  | [] => Ret s
  | op :: ops => s ← run_op junk op s; run_ops junk ops s
  end.

(** C38: the documented invariant [getp <= endp <= size] (with [size] bytes allocated)
    holds after every sequence of operations of stream.c that returns: puts, gets, reads
    from a descriptor, moving the positions, resizing, and the copies [stream_copy],
    [stream_dup] and [stream_dupcat].  The arguments are what their types say, with four
    bounds: positions of the [_at] functions, sizes of [stream_put] and [stream_write],
    and distances of [stream_forward_endp] and [stream_forward_endp2] are less than 2^63
    (a larger distance wraps around and breaks the invariant), and [stream_recvmsg] is
    given one vector. *)
Theorem stream_sane_invariant (junk : nat -> Z) ops s s' :
  (forall i, is_byte (junk i)) -> sane s -> Forall op_ok ops ->
  run_ops junk ops s = Ret s' -> sane s'.
Proof.
  intros Hj. revert s. induction ops as [|op ops IH]; intros s S Ok E; simpl in E; [congruence|].
  apply Forall_cons_1 in Ok as [Ok1 Ok2].
  destruct (run_op junk op s) as [s1|] eqn:E1; [|done]. simpl in E.
  eapply IH; [|done|done]. by eapply (run_op_sane junk Hj op s).
Qed.

Lemma stream_sane_invariant_witness :
  exists s', run_ops (fun _ => 0) [OpPut W2 300; OpGet W1; OpPulldown; OpDup] (mkStream 0 0 1 true [0]) = Ret s'
    /\ sane s'.
Proof.
  destruct (run_ops (fun _ => 0) [OpPut W2 300; OpGet W1; OpPulldown; OpDup] (mkStream 0 0 1 true [0]))
    as [s'|] eqn:E; [|vm_compute in E; discriminate].
  exists s'. split; [reflexivity|].
  apply (stream_sane_invariant (fun _ => 0) _ (mkStream 0 0 1 true [0]) s') in E; [exact E|..].
  - unfold is_byte. lia.
  - split; simpl; try lia; repeat constructor; lia.
  - repeat constructor.
Defined.
