(* ===== verification/LabelManager.v ===== *)
(** * The MPLS label manager (zebra/label_manager.c)

    zebra hands out chunks of MPLS labels to the routing daemons.  The state is
    the list of assigned chunks, kept in label order, and the block of labels
    for dynamic requests.  Labels are [uint32_t]. *)

From S2P Require Import Prelude.

Definition MPLS_LABEL_UNRESERVED_MIN : Z := 16.
Definition MPLS_LABEL_UNRESERVED_MAX : Z := 1048575.
Definition MPLS_LABEL_MAX : Z := 1048575.
Definition MPLS_LABEL_BASE_ANY : Z := 0.
Definition NO_PROTO : Z := 0.

Record label_manager_chunk := mkChunk {
  proto : Z;
  instance : Z;
  session_id : Z;
  keep : Z;
  is_dynamic : bool;
  start : Z;
  end_ : Z
}.

Record label_manager := mkLM {
  lc_list : list label_manager_chunk;
  dynamic_block_start : Z;
  dynamic_block_end : Z
}.

(** The identity of a client: [struct zserv]. *)
Record zserv := mkClient { c_proto : Z; c_instance : Z; c_session : Z }.

Definition label_manager_init : label_manager :=
  mkLM [] MPLS_LABEL_UNRESERVED_MIN MPLS_LABEL_MAX.

Definition set_list (l : list label_manager_chunk) (m : label_manager) : label_manager :=
  mkLM l (dynamic_block_start m) (dynamic_block_end m).

Definition create_label_chunk (c : zserv) (k st en : Z) (dyn : bool) : label_manager_chunk :=
  mkChunk (c_proto c) (c_instance c) (c_session c) k dyn st en.

(** ** Assigning a specific chunk *)

(** Where the scan of [assign_specific_label_chunk] stops: at a used chunk, at
    the node to insert before, at free chunks [first] to [last] to replace, or
    past all chunks. *)
Inductive scan_result :=
| ScanUsed
| ScanInsert (node : nat)
| ScanFree (first : nat) (last : option nat)
| ScanPast.

Fixpoint scan (base en : Z) (node : nat) (first : option nat)
    (l : list label_manager_chunk) : scan_result :=
  match l with
  | [] => match first with Some f => ScanFree f None | None => ScanPast end
  | lmc :: l =>
      if end_ lmc <? base then scan base en (S node) first l
      else if (en <? start lmc) && (match first with None => true | Some _ => false end)
      then ScanInsert node
      else
        let f := match first with Some f => f | None => node end in
        if negb (proto lmc =? NO_PROTO) then ScanUsed
        else if en <=? end_ lmc then ScanFree f (Some node)
        else scan base en (S node) (Some f) l
  end.

Definition assign_specific_label_chunk (m : label_manager) (c : zserv) (k size base : Z)
  : option label_manager_chunk * label_manager :=
  let en := u32 (base + size - 1) in
  if (base <? MPLS_LABEL_UNRESERVED_MIN) || (MPLS_LABEL_UNRESERVED_MAX <? en) then (None, m)
  else if (negb (dynamic_block_start m =? MPLS_LABEL_UNRESERVED_MIN)
           || negb (dynamic_block_end m =? MPLS_LABEL_MAX))
          && (dynamic_block_start m <=? base) && (en <=? dynamic_block_end m)
  then (None, m)
  else
    let lmc := create_label_chunk c k base en false in
    let l := lc_list m in
    match scan base en 0 None l with
    | ScanUsed => (None, m)
    | ScanInsert node => (Some lmc, set_list (take node l ++ lmc :: drop node l) m)
    | ScanFree first (Some last) =>
        (Some lmc, set_list (take first l ++ lmc :: drop (S last) l) m)
    | ScanFree first None => (Some lmc, set_list (take first l ++ [lmc]) m)
    | ScanPast => (Some lmc, set_list (l ++ [lmc]) m)
    end.

(** ** Assigning any chunk *)

(** The outcome of the loop of [assign_label_chunk]: reuse the free chunk at a
    position, squeeze a chunk into the hole before a position, or the last
    chunk inside the block. *)
Inductive search_result :=
| Reuse (node : nat)
| Squeeze (node : nat) (prev_end : Z)
| BlockLast (last : option label_manager_chunk).

Fixpoint search (size block_end : Z) (node : nat) (prev_end : Z)
    (last : option label_manager_chunk) (l : list label_manager_chunk) : search_result :=
  match l with
  | [] => BlockLast last
  | lmc :: l =>
      if start lmc <=? prev_end then search size block_end (S node) prev_end last l
      else if (proto lmc =? NO_PROTO) && (u32 (end_ lmc - start lmc + 1) =? size)
              && (end_ lmc <=? block_end)
      then Reuse node
      else if (size <? u32 (start lmc - prev_end)) && (u32 (prev_end + 1 + size) <=? block_end)
      then Squeeze node prev_end
      else if block_end <? end_ lmc
      then search size block_end (S node) (end_ lmc) last l
      else search size block_end (S node) (end_ lmc) (Some lmc) l
  end.

Definition assign_label_chunk (m : label_manager) (c : zserv) (k size base : Z)
  : option label_manager_chunk * label_manager :=
  if negb (base =? MPLS_LABEL_BASE_ANY) then assign_specific_label_chunk m c k size base
  else
    let l := lc_list m in
    match search size (dynamic_block_end m) 0 (u32 (dynamic_block_start m - 1)) None l with
    | Reuse node =>
        match l !! node with
        | Some lmc =>
            let lmc := create_label_chunk c k (start lmc) (end_ lmc) true in
            (Some lmc, set_list (<[node := lmc]> l) m)
        | None => (None, m)
        end
    | Squeeze node prev_end =>
        let lmc := create_label_chunk c k (u32 (prev_end + 1)) (u32 (prev_end + size)) true in
        (Some lmc, set_list (take node l ++ lmc :: drop node l) m)
    | BlockLast last =>
        let start_free := match last with
                          | None => dynamic_block_start m
                          | Some lmc => u32 (end_ lmc + 1)
                          end in
        if u32 (dynamic_block_end m - size + 1) <? start_free then (None, m)
        else
          let lmc := create_label_chunk c k start_free (u32 (start_free + size - 1)) true in
          (Some lmc, set_list (l ++ [lmc]) m)
    end.

(** ** Releasing *)

Definition owned_by (c : zserv) (lmc : label_manager_chunk) : bool :=
  (proto lmc =? c_proto c) && (instance lmc =? c_instance c) && (session_id lmc =? c_session c).

(** The position of the chunk to release. *)
Fixpoint find_chunk (c : zserv) (st en : Z) (l : list label_manager_chunk) : option nat :=
  match l with
  | [] => None
  | lmc :: l =>
      if negb (start lmc =? st) then S <$> find_chunk c st en l
      else if negb (end_ lmc =? en) then S <$> find_chunk c st en l
      else if negb (owned_by c lmc) then S <$> find_chunk c st en l
      else Some 0%nat
  end.

Definition release_label_chunk (m : label_manager) (c : zserv) (st en : Z)
  : Z * label_manager :=
  match find_chunk c st en (lc_list m) with
  | Some node => (0, set_list (take node (lc_list m) ++ drop (S node) (lc_list m)) m)
  | None => (-1, m)
  end.

(** The loop of [release_daemon_label_chunks] over the chunks that were in the
    list at its start. *)
Fixpoint release_loop (c : zserv) (todo : list label_manager_chunk) (count : Z)
    (m : label_manager) : Z * label_manager :=
  match todo with
  | [] => (count, m)
  | lmc :: todo =>
      if owned_by c lmc && (keep lmc =? 0) then
        let '(ret, m) := release_label_chunk m c (start lmc) (end_ lmc) in
        release_loop c todo (if ret =? 0 then count + 1 else count) m
      else release_loop c todo count m
  end.

Definition release_daemon_label_chunks (m : label_manager) (c : zserv) : Z * label_manager :=
  release_loop c (lc_list m) 0 m.

(** ** Configuration *)

(** [mpls label dynamic-block]; [st] and [en] are 0 when absent.  [true] is
    CMD_SUCCESS. *)
Definition block_conflict (st en : Z) (lmc : label_manager_chunk) : bool :=
  negb (proto lmc =? NO_PROTO) && negb (is_dynamic lmc)
  && (st <=? start lmc) && (end_ lmc <=? en).

Definition mpls_label_dynamic_block (m : label_manager) (no : bool) (st en : Z)
  : bool * label_manager :=
  if no || ((st =? MPLS_LABEL_UNRESERVED_MIN) && (en =? MPLS_LABEL_MAX)) then
    (true, mkLM (lc_list m) MPLS_LABEL_UNRESERVED_MIN MPLS_LABEL_MAX)
  else if (st =? 0) || (en =? 0) then (false, m)
  else if en <? st then (false, m)
  else if existsb (block_conflict st en) (lc_list m) then (false, m)
  else (true, mkLM (lc_list m) st en).

(** ** Invariant: chunks in label order, disjoint, inside the label space and
    owned by a daemon *)

Fixpoint ordered (lo : Z) (l : list label_manager_chunk) : Prop :=
  match l with
  | [] => True
  | c :: l => lo <= start c <= end_ c /\ end_ c <= MPLS_LABEL_UNRESERVED_MAX
              /\ proto c <> NO_PROTO /\ ordered (end_ c + 1) l
  end.

Definition wf_lm (m : label_manager) : Prop := ordered MPLS_LABEL_UNRESERVED_MIN (lc_list m).

Definition overlaps (c : label_manager_chunk) (st en : Z) : Prop :=
  start c <= en /\ st <= end_ c.

(** [m'] is [m] with chunk [c] put in at its place. *)
Definition added (m m' : label_manager) (c : label_manager_chunk) : Prop :=
  exists l1 l2, lc_list m = l1 ++ l2 /\ lc_list m' = l1 ++ c :: l2
    /\ dynamic_block_start m' = dynamic_block_start m
    /\ dynamic_block_end m' = dynamic_block_end m.

Lemma ordered_weaken lo lo' l : lo' <= lo -> ordered lo l -> ordered lo' l.
Proof. destruct l; simpl; intros; intuition lia. Qed.

(** The scan of an ordered list. *)
Lemma scan_spec base en c (Hc : proto c <> NO_PROTO) (Hst : start c = base) (Hen : end_ c = en) l :
  forall lo node, ordered lo l -> lo <= base <= en -> en <= MPLS_LABEL_UNRESERVED_MAX ->
  match scan base en node None l with
  | ScanUsed => Exists (fun x => overlaps x base en) l
  | ScanInsert k => exists l1 l2, l = l1 ++ l2 /\ k = (node + length l1)%nat
                      /\ ordered lo (l1 ++ c :: l2)
  | ScanFree _ _ => False
  | ScanPast => ordered lo (l ++ [c])
  end.
Proof.
  induction l as [|x l IH]; intros lo node O Hb He; simpl.
  { rewrite Hst, Hen. split_and!; done || lia. }
  destruct O as (O1 & O2 & O3 & O4). destruct (Z.ltb_spec (end_ x) base) as [Hlt|Hge].
  - specialize (IH (end_ x + 1) (S node) O4 ltac:(lia) He).
    destruct (scan base en (S node) None l) as [|k|f la|]; try done.
    + by apply Exists_cons_tl.
    + destruct IH as (l1 & l2 & -> & -> & IH). exists (x :: l1), l2.
      split; [done|]. split; [simpl; lia|]. simpl. by split_and!; try lia.
  - destruct (Z.ltb_spec en (start x)) as [Hi|Hi]; simpl.
    + exists [], (x :: l). split; [done|]. split; [simpl; lia|]. simpl. rewrite Hst, Hen.
      split_and!; try done; lia.
    + rewrite (proj2 (Z.eqb_neq _ _) O3). simpl. apply Exists_cons_hd. unfold overlaps. lia.
Qed.

Lemma take_length_app {A} (l1 l2 : list A) :
  take (length l1) (l1 ++ l2) = l1 /\ drop (length l1) (l1 ++ l2) = l2.
Proof. split; [apply take_app_length|apply drop_app_length]. Qed.

(** The request lies in the label space and outside of the dynamic block. *)
Definition request_ok (m : label_manager) (size base : Z) : Prop :=
  MPLS_LABEL_UNRESERVED_MIN <= base /\ base + size - 1 <= MPLS_LABEL_UNRESERVED_MAX
  /\ ~ ((dynamic_block_start m <> MPLS_LABEL_UNRESERVED_MIN
         \/ dynamic_block_end m <> MPLS_LABEL_MAX)
        /\ dynamic_block_start m <= base /\ base + size - 1 <= dynamic_block_end m).

Lemma assign_specific_spec m c k size base :
  wf_lm m -> c_proto c <> NO_PROTO -> 1 <= size -> 0 <= base -> base + size <= 4294967296 ->
  let lmc := create_label_chunk c k base (base + size - 1) false in
  (exists m', assign_specific_label_chunk m c k size base = (Some lmc, m')
     /\ wf_lm m' /\ added m m' lmc /\ request_ok m size base)
  \/ (assign_specific_label_chunk m c k size base = (None, m)
      /\ (~ request_ok m size base
          \/ Exists (fun x => overlaps x base (base + size - 1)) (lc_list m))).
Proof.
  intros W Hp Hs Hb0 Hb lmc. unfold assign_specific_label_chunk. rewrite u32_small by lia.
  destruct ((base <? _) || _) eqn:E1.
  { right. split; [done|left]. intros (? & ? & _). bool_to_prop. lia. }
  destruct ((negb _ || _) && _ && _) eqn:E2.
  { right. split; [done|left]. intros (_ & _ & H). apply H.
    bool_to_prop. rewrite !negb_true_iff, !Z.eqb_neq in *. done. }
  apply not_true_iff_false in E2. assert (request_ok m size base) as R.
  { bool_to_prop. split; [lia|]. split; [lia|]. intros (Hd & ? & ?). apply E2.
    rewrite !andb_true_iff, orb_true_iff, !negb_true_iff, !Z.eqb_neq, !Z.leb_le. tauto. }
  bool_to_prop.
  pose proof (scan_spec base (base + size - 1) lmc Hp eq_refl eq_refl (lc_list m)
    MPLS_LABEL_UNRESERVED_MIN 0 W ltac:(lia) ltac:(lia)) as HS.
  destruct (scan base (base + size - 1) 0 None (lc_list m)) as [|node|f la|].
  - right. auto.
  - left. destruct HS as (l1 & l2 & El & -> & O). rewrite El. simpl.
    destruct (take_length_app l1 l2) as [-> ->]. eexists. split; [done|].
    split; [done|]. split; [|done]. exists l1, l2. by rewrite El.
  - done.
  - left. eexists. split; [done|]. split; [done|]. split; [|done].
    exists (lc_list m), []. by rewrite app_nil_r.
Qed.

(** A request for specific labels.  On a well-formed label manager the
    chunk is granted exactly when it lies in the label space, outside of a
    configured dynamic block, and overlaps no assigned chunk; a granted chunk is
    the requested range, and the chunks stay ordered and disjoint. *)
Theorem assign_specific_correct m c k size base :
  wf_lm m -> c_proto c <> NO_PROTO -> 1 <= size -> 0 < base -> base + size <= 4294967296 ->
  let lmc := create_label_chunk c k base (base + size - 1) false in
  (exists m', assign_label_chunk m c k size base = (Some lmc, m')
     /\ wf_lm m' /\ added m m' lmc /\ request_ok m size base)
  \/ (assign_label_chunk m c k size base = (None, m)
      /\ (~ request_ok m size base
          \/ Exists (fun x => overlaps x base (base + size - 1)) (lc_list m))).
Proof.
  intros W Hp Hs Hb Hm. unfold assign_label_chunk, MPLS_LABEL_BASE_ANY.
  rewrite (proj2 (Z.eqb_neq base 0)) by lia. simpl. apply assign_specific_spec; done || lia.
Qed.

Definition lm_client : zserv := mkClient 9 0 1.
Definition lm_sample : label_manager :=
  mkLM [mkChunk 9 0 1 0 true 16 100; mkChunk 3 0 7 1 false 200 250] 16 1048575.

Lemma lm_sample_wf : wf_lm lm_sample.
Proof. unfold wf_lm. simpl. unfold MPLS_LABEL_UNRESERVED_MIN, MPLS_LABEL_UNRESERVED_MAX, NO_PROTO. lia. Qed.

Lemma assign_specific_correct_witness :
  wf_lm lm_sample /\
  ((exists m', assign_label_chunk lm_sample lm_client 0 10 150
      = (Some (create_label_chunk lm_client 0 150 159 false), m') /\ wf_lm m')
   \/ assign_label_chunk lm_sample lm_client 0 10 150 = (None, lm_sample)).
Proof.
  split; [exact lm_sample_wf|].
  destruct (assign_specific_correct lm_sample lm_client 0 10 150 lm_sample_wf)
    as [(m' & E & W & _)|[E _]]; try lia; [discriminate| |].
  - left. exists m'. split; [exact E|exact W].
  - right. exact E.
Defined.

(** ** Dynamic requests *)

(** The first label past the chunks seen so far. *)
Definition past (lo0 : Z) (last : option label_manager_chunk) : Z :=
  match last with None => lo0 | Some x => end_ x + 1 end.

Lemma search_spec size (Hsize : 1 <= size) mk
  (Hmk : forall a b, proto (mk a b) <> NO_PROTO /\ start (mk a b) = a /\ end_ (mk a b) = b) l :
  forall lo node last, ordered lo l -> MPLS_LABEL_UNRESERVED_MIN <= lo <= 1048576 ->
  past MPLS_LABEL_UNRESERVED_MIN last = lo ->
  match search size MPLS_LABEL_UNRESERVED_MAX node (lo - 1) last l with
  | Reuse _ => False
  | Squeeze k pe => exists l1 l2, l = l1 ++ l2 /\ k = (node + length l1)%nat
      /\ lo - 1 <= pe /\ pe + size <= MPLS_LABEL_UNRESERVED_MAX
      /\ ordered lo (l1 ++ mk (pe + 1) (pe + size) :: l2)
  | BlockLast last' =>
      let e := past MPLS_LABEL_UNRESERVED_MIN last' in
      lo <= e <= 1048576
      /\ (forall s, lo <= s -> s + size - 1 < e -> Exists (fun x => overlaps x s (s + size - 1)) l)
      /\ (forall s, s < e -> e <= s + size - 1 -> lo <= s ->
            Exists (fun x => overlaps x s (s + size - 1)) l)
      /\ (e + size - 1 <= MPLS_LABEL_UNRESERVED_MAX -> ordered lo (l ++ [mk e (e + size - 1)]))
  end.
Proof.
  unfold MPLS_LABEL_UNRESERVED_MIN, MPLS_LABEL_UNRESERVED_MAX.
  induction l as [|x l IH]; intros lo node last O Hlo Hlast; simpl.
  { rewrite Hlast. split_and!; try lia. intros He. destruct (Hmk lo (lo + size - 1)) as (? & -> & ->).
    unfold MPLS_LABEL_UNRESERVED_MAX. split_and!; done || lia. }
  destruct O as (O1 & O2 & O3 & O4). unfold MPLS_LABEL_UNRESERVED_MAX in O2.
  rewrite (proj2 (Z.leb_gt _ _)) by lia. rewrite (proj2 (Z.eqb_neq _ _) O3). simpl.
  rewrite (u32_small (start x - (lo - 1))) by lia.
  destruct ((size <? start x - (lo - 1)) && _) eqn:E.
  { bool_to_prop. exists [], (x :: l). split; [done|]. split; [simpl; lia|].
    split_and!; try lia. simpl. destruct (Hmk (lo - 1 + 1) (lo - 1 + size)) as (? & -> & ->).
    unfold MPLS_LABEL_UNRESERVED_MAX. split_and!; done || lia. }
  assert (start x <= lo - 1 + size) as Hno.
  { apply andb_false_iff in E as [E|E]; bool_to_prop; [lia|].
    destruct (Z.lt_ge_cases (lo - 1 + 1 + size) 4294967296).
    - rewrite u32_small in E by lia. lia.
    - lia. }
  rewrite (proj2 (Z.ltb_ge _ _)) by lia.
  specialize (IH (end_ x + 1) (S node) (Some x) O4 ltac:(lia) eq_refl).
  replace (end_ x + 1 - 1) with (end_ x) in IH by lia.
  destruct (search size 1048575 (S node) (end_ x) (Some x) l) as [?|k pe|last'].
  - done.
  - destruct IH as (l1 & l2 & -> & -> & ? & ? & IH). exists (x :: l1), l2.
    split; [done|]. split; [simpl; lia|]. split; [lia|]. split; [lia|].
    simpl. unfold MPLS_LABEL_UNRESERVED_MAX. by split_and!; try lia.
  - destruct IH as (I1 & I2 & I3 & I4). split; [lia|]. split; [|split].
    + intros s Hs He. destruct (Z.le_gt_cases s (end_ x)).
      * apply Exists_cons_hd. unfold overlaps. lia.
      * apply Exists_cons_tl, I2; lia.
    + intros s Hs He Hl. destruct (Z.le_gt_cases s (end_ x)).
      * apply Exists_cons_hd. unfold overlaps. lia.
      * apply Exists_cons_tl, I3; lia.
    + intros He. simpl. unfold MPLS_LABEL_UNRESERVED_MAX. split_and!; try lia; auto.
Qed.

(** C39: a dynamic request of a client for 1 to 1048576 labels (the size is not checked and
    larger ones wrap around). With the default dynamic block, a well-formed label
    manager grants a chunk of the requested size that overlaps no assigned one,
    keeping the chunks ordered and disjoint; it refuses exactly when no range of
    that size is free. *)
Theorem assign_dynamic_correct m c k size :
  wf_lm m -> c_proto c <> NO_PROTO -> 1 <= size <= 1048576 ->
  dynamic_block_start m = MPLS_LABEL_UNRESERVED_MIN -> dynamic_block_end m = MPLS_LABEL_MAX ->
  (exists st m', assign_label_chunk m c k size MPLS_LABEL_BASE_ANY
     = (Some (create_label_chunk c k st (st + size - 1) true), m')
     /\ wf_lm m' /\ added m m' (create_label_chunk c k st (st + size - 1) true))
  \/ (assign_label_chunk m c k size MPLS_LABEL_BASE_ANY = (None, m)
      /\ forall s, MPLS_LABEL_UNRESERVED_MIN <= s -> s + size - 1 <= MPLS_LABEL_UNRESERVED_MAX ->
           Exists (fun x => overlaps x s (s + size - 1)) (lc_list m)).
Proof.
  intros W Hp Hs Hds Hde. unfold assign_label_chunk. rewrite Z.eqb_refl. simpl.
  rewrite Hds, Hde.
  pose proof (search_spec size ltac:(lia) (fun a b => create_label_chunk c k a b true)
    ltac:(done) (lc_list m) 16 0 None W ltac:(unfold MPLS_LABEL_UNRESERVED_MIN; lia) eq_refl) as HS.
  unfold MPLS_LABEL_MAX, MPLS_LABEL_UNRESERVED_MIN, MPLS_LABEL_UNRESERVED_MAX in *.
  change (u32 (16 - 1)) with (16 - 1).
  destruct (search size 1048575 0 (16 - 1) None (lc_list m)) as [?|node pe|last]; [done| |].
  - destruct HS as (l1 & l2 & El & -> & H1 & H2 & O). left. exists (pe + 1).
    rewrite !u32_small by lia. replace (pe + 1 + size - 1) with (pe + size) by lia.
    rewrite El. simpl. destruct (take_length_app l1 l2) as [-> ->].
    eexists. split; [done|]. split; [done|]. exists l1, l2. by rewrite El.
  - destruct HS as (I1 & I2 & I3 & I4).
    assert (match last with Some lmc => u32 (end_ lmc + 1) | None => 16 end = past 16 last) as ->.
    { destruct last as [x|]; [|done]. simpl in *. apply u32_small. lia. }
    set (e := past 16 last) in *. rewrite u32_small by lia.
    destruct (Z.ltb_spec (1048575 - size + 1) e).
    + right. split; [done|]. intros s Hs1 Hs2.
      destruct (Z.lt_ge_cases (s + size - 1) e); [by apply I2|apply I3; lia].
    + left. rewrite u32_small by lia. exists e. eexists. split; [done|]. split; [apply I4; lia|].
      exists (lc_list m), []. by rewrite app_nil_r.
Qed.

Lemma assign_dynamic_correct_witness :
  (exists st m', assign_label_chunk lm_sample lm_client 0 120 MPLS_LABEL_BASE_ANY
     = (Some (create_label_chunk lm_client 0 st (st + 120 - 1) true), m') /\ wf_lm m')
  \/ assign_label_chunk lm_sample lm_client 0 120 MPLS_LABEL_BASE_ANY = (None, lm_sample).
Proof.
  destruct (assign_dynamic_correct lm_sample lm_client 0 120 lm_sample_wf)
    as [(st & m' & E & W & _)|[E _]]; try lia; try reflexivity; [discriminate| |].
  - left. exists st, m'. split; [exact E|exact W].
  - right. exact E.
Defined.

(** With a configured dynamic block, a dynamic chunk can overlap an
    assigned one.  After block [100, 200] is configured and the static chunk
    [195, 205] (which straddles its end) is granted, a dynamic request for 100
    labels is granted [100, 199]. *)
Theorem dynamic_chunk_overlaps_static :
  let m1 := (mpls_label_dynamic_block label_manager_init false 100 200).2 in
  let m2 := (assign_label_chunk m1 (mkClient 9 0 1) 0 11 195).2 in
  let '(r, m3) := assign_label_chunk m2 (mkClient 3 0 2) 0 100 MPLS_LABEL_BASE_ANY in
  exists a b, lc_list m3 = [a; b] /\ r = Some b /\ overlaps a (start b) (end_ b)
    /\ start b = 100 /\ end_ b = 199 /\ start a = 195 /\ end_ a = 205.
Proof. vm_compute. do 2 eexists. repeat split; discriminate. Qed.

(** ** Releasing *)

Lemma find_chunk_spec c st en l :
  match find_chunk c st en l with
  | Some i => exists x, l !! i = Some x /\ start x = st /\ end_ x = en /\ owned_by c x = true
  | None => forall x, x ∈ l -> ~ (start x = st /\ end_ x = en /\ owned_by c x = true)
  end.
Proof.
  induction l as [|y l IH]; simpl.
  { intros x Hx. by apply elem_of_nil in Hx. }
  assert (match S <$> find_chunk c st en l with
    | Some i => exists x, (y :: l) !! i = Some x /\ start x = st /\ end_ x = en /\ owned_by c x = true
    | None => ~ (start y = st /\ end_ y = en /\ owned_by c y = true) ->
        forall x, x ∈ y :: l -> ~ (start x = st /\ end_ x = en /\ owned_by c x = true)
    end) as IH'.
  { destruct (find_chunk c st en l) as [i|]; simpl; [done|].
    intros Hy x Hx. apply elem_of_cons in Hx as [->|Hx]; auto. }
  destruct (Z.eqb_spec (start y) st) as [E1|E1]; simpl;
    [destruct (Z.eqb_spec (end_ y) en) as [E2|E2]; simpl;
       [destruct (owned_by c y) eqn:E3; simpl; [by exists y|]|]|];
    (destruct (S <$> find_chunk c st en l); [done|]; apply IH'; intuition congruence).
Qed.

(** In an ordered list a chunk is determined by its first label. *)
Lemma ordered_inj lo l i j x y :
  ordered lo l -> l !! i = Some x -> l !! j = Some y -> start x = start y -> i = j.
Proof.
  assert (forall l lo z, ordered lo l -> z ∈ l -> lo <= start z <= end_ z) as Hin.
  { clear. induction l as [|w l IH]; intros lo z O Hz; [by apply elem_of_nil in Hz|].
    destruct O as (? & ? & _ & O). apply elem_of_cons in Hz as [->|Hz]; [done|].
    specialize (IH _ z O Hz). lia. }
  revert lo i j. induction l as [|w l IH]; intros lo i j O Hi Hj E; [done|].
  destruct O as (? & ? & _ & O). destruct i as [|i], j as [|j]; simpl in Hi, Hj; simplify_eq.
  - done.
  - apply elem_of_list_lookup_2 in Hj || apply list_elem_of_lookup_2 in Hj.
    specialize (Hin _ _ _ O Hj). lia.
  - apply elem_of_list_lookup_2 in Hi || apply list_elem_of_lookup_2 in Hi.
    specialize (Hin _ _ _ O Hi). lia.
  - f_equal. by eapply IH.
Qed.

Lemma ordered_remove l1 : forall lo x l2, ordered lo (l1 ++ x :: l2) -> ordered lo (l1 ++ l2).
Proof.
  induction l1 as [|w l1 IH]; intros lo x l2 O; simpl in *.
  - destruct O as (? & _ & _ & O). by eapply ordered_weaken; [|done]; lia.
  - destruct O as (? & ? & ? & O). eauto.
Qed.

Lemma split_at {A} (l : list A) i x :
  l !! i = Some x -> l = take i l ++ x :: drop (S i) l.
Proof. intros H. symmetry. by apply take_drop_middle. Qed.

(** Releasing a chunk.  The chunk with the given range is removed, and 0
    returned, exactly when it is assigned to the caller; otherwise -1 is returned
    and nothing changes.  The invariant is preserved, no other chunk is touched. *)
Theorem release_label_chunk_correct m c st en :
  wf_lm m ->
  (exists l1 x l2, lc_list m = l1 ++ x :: l2 /\ start x = st /\ end_ x = en
     /\ owned_by c x = true
     /\ release_label_chunk m c st en = (0, set_list (l1 ++ l2) m) /\ wf_lm (set_list (l1 ++ l2) m))
  \/ (release_label_chunk m c st en = (-1, m)
      /\ forall x, x ∈ lc_list m -> ~ (start x = st /\ end_ x = en /\ owned_by c x = true)).
Proof.
  intros W. unfold release_label_chunk. pose proof (find_chunk_spec c st en (lc_list m)) as H.
  destruct (find_chunk c st en (lc_list m)) as [i|]; [left|by right].
  destruct H as (x & Hx & E1 & E2 & E3). pose proof (split_at _ _ _ Hx) as E.
  exists (take i (lc_list m)), x, (drop (S i) (lc_list m)). split_and!; try done.
  unfold wf_lm in *. rewrite E in W. by eapply ordered_remove.
Qed.

Lemma release_label_chunk_correct_witness :
  (exists m', release_label_chunk lm_sample lm_client 16 100 = (0, m') /\ wf_lm m')
  \/ release_label_chunk lm_sample lm_client 16 100 = (-1, lm_sample).
Proof.
  destruct (release_label_chunk_correct lm_sample lm_client 16 100 lm_sample_wf)
    as [(l1 & x & l2 & _ & _ & _ & _ & E & W)|[E _]].
  - left. eexists. split; [exact E|exact W].
  - right. exact E.
Defined.

Definition releasable (c : zserv) (x : label_manager_chunk) : bool :=
  owned_by c x && (keep x =? 0).

Lemma release_at m c dn x todo :
  lc_list m = dn ++ x :: todo -> wf_lm m -> owned_by c x = true ->
  release_label_chunk m c (start x) (end_ x) = (0, set_list (dn ++ todo) m).
Proof.
  intros El W Ho. unfold release_label_chunk.
  assert (lc_list m !! length dn = Some x) as Hx.
  { rewrite El. rewrite lookup_app_r by lia. by rewrite Nat.sub_diag. }
  pose proof (find_chunk_spec c (start x) (end_ x) (lc_list m)) as H.
  destruct (find_chunk c (start x) (end_ x) (lc_list m)) as [i|].
  - destruct H as (y & Hy & E1 & _ & _).
    assert (i = length dn) as -> by (eapply (ordered_inj 16 (lc_list m)); [exact W|done..]).
    rewrite El, take_app_length. do 2 f_equal.
    rewrite (drop_app_ge dn) by lia. replace (S (length dn) - length dn)%nat with 1%nat by lia. done.
  - exfalso. eapply H; [|done]. by eapply list_elem_of_lookup_2.
Qed.

Lemma release_loop_spec c todo : forall dn count m,
  lc_list m = dn ++ todo -> wf_lm m ->
  release_loop c todo count m
  = (count + Z.of_nat (length (List.filter (releasable c) todo)),
     set_list (dn ++ List.filter (fun x => negb (releasable c x)) todo) m)
  /\ wf_lm (set_list (dn ++ List.filter (fun x => negb (releasable c x)) todo) m).
Proof.
  induction todo as [|x todo IH]; intros dn count m El W; cbn [release_loop List.filter].
  { rewrite app_nil_r in El. rewrite app_nil_r, <- El. unfold wf_lm. simpl. split; [|done].
    rewrite Z.add_0_r. by destruct m. }
  fold (releasable c x). destruct (releasable c x) eqn:Hr; cbn [negb].
  - assert (owned_by c x = true) as Ho by (by apply andb_true_iff in Hr as [? _]).
    rewrite (release_at m c dn x todo El W Ho). rewrite Z.eqb_refl.
    assert (wf_lm (set_list (dn ++ todo) m)) as W'.
    { unfold wf_lm in *. rewrite El in W. by eapply ordered_remove. }
    destruct (IH dn (count + 1) (set_list (dn ++ todo) m) eq_refl W') as [-> HW].
    split; [|exact HW]. simpl length. unfold set_list. simpl. f_equal. lia.
  - destruct (IH (dn ++ [x]) count m) as [E HW]; [by rewrite <- app_assoc|done|].
    rewrite <- app_assoc in E, HW. split; [exact E|exact HW].
Qed.

(** When a client disconnects, exactly its chunks without the keep flag
    are released, the others stay in order, and the count is returned. *)
Theorem release_daemon_correct m c :
  wf_lm m ->
  release_daemon_label_chunks m c
  = (Z.of_nat (length (List.filter (releasable c) (lc_list m))),
     set_list (List.filter (fun x => negb (releasable c x)) (lc_list m)) m)
  /\ wf_lm (release_daemon_label_chunks m c).2.
Proof.
  intros W. unfold release_daemon_label_chunks.
  destruct (release_loop_spec c (lc_list m) [] 0 m eq_refl W) as [E HW].
  rewrite E. split; [done|exact HW].
Qed.

Lemma release_daemon_correct_witness :
  wf_lm (release_daemon_label_chunks lm_sample lm_client).2.
Proof. apply (release_daemon_correct lm_sample lm_client lm_sample_wf). Defined.
