(* ===== verification/PrefixList.v ===== *)
(** * Prefix lists (lib/plist.c)

    A prefix list holds its entries twice: in a list ordered by sequence number,
    and in a trie over the first bytes of the prefix that speeds up matching.
    The chains of the trie are linked through one [next_best] pointer per entry,
    so an entry that hangs in many slots shares the rest of its chain between
    them; the model keeps this sharing: entries live in a heap, and a chain is
    read through their [next_best] fields.

    A trie table is identified by the bytes that lead to it; [up_chain] and
    [final_chain] are keyed by these bytes followed by the slot.  The doubly
    linked list of entries is the list [items] of their addresses.  The route-map
    notifications, the hooks of the daemons, the flag of the northbound layer that
    marks installed entries, and the removal of a list that became empty (which
    [prefix_list_entry_delete] does on request) are not part of the model. *)

From stdpp Require Import gmap.
From S2P Require Import Prelude Prefix.

Definition PLC_BITS : Z := 8.
Definition PLC_MAXLEVELV4 : nat := 2.
Definition PLC_MAXLEVELV6 : nat := 4.

Inductive prefix_list_type := PREFIX_DENY | PREFIX_PERMIT.

Record prefix_list_entry := mkPle {
  seq : Z;
  ple_type : prefix_list_type;
  ple_prefix : prefix;
  le : Z;
  ge : Z;
  hitcnt : Z;
  next_best : option nat
}.

Record prefix_list := mkPlist {
  heap : gmap nat prefix_list_entry;
  items : list nat;
  up_chain : gmap (list Z) nat;
  final_chain : gmap (list Z) nat;
  tables : gset (list Z);
  count : Z;
  trie_depth : nat
}.

Definition prefix_list_new (depth : nat) : prefix_list := mkPlist ∅ [] ∅ ∅ ∅ 0 depth.

Definition set_heap (h : gmap nat prefix_list_entry) (pl : prefix_list) : prefix_list :=
  mkPlist h (items pl) (up_chain pl) (final_chain pl) (tables pl) (count pl) (trie_depth pl).
Definition set_items (l : list nat) (c : Z) (pl : prefix_list) : prefix_list :=
  mkPlist (heap pl) l (up_chain pl) (final_chain pl) (tables pl) c (trie_depth pl).
Definition set_tables (ts : gset (list Z)) (pl : prefix_list) : prefix_list :=
  mkPlist (heap pl) (items pl) (up_chain pl) (final_chain pl) ts (count pl) (trie_depth pl).
Definition set_next (n : option nat) (e : prefix_list_entry) : prefix_list_entry :=
  mkPle (seq e) (ple_type e) (ple_prefix e) (le e) (ge e) (hitcnt e) n.
Definition set_hits (h : Z) (e : prefix_list_entry) : prefix_list_entry :=
  mkPle (seq e) (ple_type e) (ple_prefix e) (le e) (ge e) h (next_best e).

Definition entry (pl : prefix_list) (id : nat) : outcome prefix_list_entry :=
  match heap pl !! id with Some e => Ret e | None => Abort end.

(** A [struct prefix_list_entry **]: the head of a chain or a [next_best]. *)
Inductive updptr :=
| UpChain (k : list Z)
| FinalChain (k : list Z)
| NextBest (id : nat).

Definition load (pl : prefix_list) (u : updptr) : outcome (option nat) :=
  match u with
  | UpChain k => Ret (up_chain pl !! k)
  | FinalChain k => Ret (final_chain pl !! k)
  | NextBest id => e ← entry pl id; Ret (next_best e)
  end.

Definition store (u : updptr) (v : option nat) (pl : prefix_list) : prefix_list :=
  match u with
  | UpChain k =>
      mkPlist (heap pl) (items pl) (partial_alter (fun _ => v) k (up_chain pl))
        (final_chain pl) (tables pl) (count pl) (trie_depth pl)
  | FinalChain k =>
      mkPlist (heap pl) (items pl) (up_chain pl)
        (partial_alter (fun _ => v) k (final_chain pl)) (tables pl) (count pl) (trie_depth pl)
  | NextBest id => set_heap (alter (set_next v) id (heap pl)) pl
  end.

(** ** The trie *)

(** The slots [trie_walk_affected] visits. *)
Definition affected (validbits : Z) (path : list Z) (byte : Z) : list updptr :=
  if PLC_BITS <? validbits then [FinalChain (path ++ [byte])]
  else
    let mask := 2 ^ (8 - validbits) - 1 in
    let first := Z.land byte (Z.lnot mask) in
    map (fun i => UpChain (path ++ [first + Z.of_nat i]))
      (List.seq 0 (Z.to_nat (byte + mask - first + 1))).

Fixpoint trie_walk_affected (slots : list updptr)
    (fn : updptr -> prefix_list -> outcome prefix_list) (pl : prefix_list)
  : outcome prefix_list :=
  match slots with
  | [] => Ret pl
  | s :: slots => pl ← fn s pl; trie_walk_affected slots fn pl
  end.

(** A chain holds an entry at most once, so the walks are bounded by the number
    of entries. *)
Definition chain_fuel (pl : prefix_list) : nat := S (S (size (heap pl))).

(** The [while] of [trie_install_fn]: [None] when the object is found. *)
Fixpoint install_walk (fuel : nat) (pl : prefix_list) (object : nat)
    (obj : prefix_list_entry) (u : updptr) : outcome (option updptr) :=
  match fuel with
  | O => Abort
  | S fuel =>
      c ← load pl u;
      match c with
      | None => Ret (Some u)
      | Some id =>
          if Nat.eqb id object then Ret None
          else
            e ← entry pl id;
            if prefixlen (ple_prefix e) <? prefixlen (ple_prefix obj) then Ret (Some u)
            else if (prefixlen (ple_prefix e) =? prefixlen (ple_prefix obj))
                    && (seq obj <? seq e)
            then Ret (Some u)
            else install_walk fuel pl object obj (NextBest id)
      end
  end.

Definition trie_install_fn (object : nat) (u : updptr) (pl : prefix_list)
  : outcome prefix_list :=
  obj ← entry pl object;
  r ← install_walk (chain_fuel pl) pl object obj u;
  match r with
  | None => Ret pl
  | Some u =>
      nxt ← load pl u;
      pl ← match next_best obj with
           | None => Ret (store (NextBest object) nxt pl)
           | Some n =>
               assert! (match nxt with Some x => Nat.eqb n x | None => true end) ;; Ret pl
           end;
      Ret (store u (Some object) pl)
  end.

(** The [for] of [trie_uninstall_fn]. *)
Fixpoint uninstall_walk (fuel : nat) (pl : prefix_list) (object : nat) (u : updptr)
  : outcome (option updptr) :=
  match fuel with
  | O => Abort
  | S fuel =>
      c ← load pl u;
      match c with
      | None => Ret None
      | Some id => if Nat.eqb id object then Ret (Some u)
                   else uninstall_walk fuel pl object (NextBest id)
      end
  end.

Definition trie_uninstall_fn (object : nat) (u : updptr) (pl : prefix_list)
  : outcome prefix_list :=
  r ← uninstall_walk (chain_fuel pl) pl object u;
  match r with
  | None => Ret pl
  | Some u => obj ← entry pl object; Ret (store u (next_best obj) pl)
  end.

(** [while (validbits > PLC_BITS && depth > 1)]: descend, creating tables. *)
Fixpoint trie_add_loop (depth : nat) (validbits : Z) (bytes path : list Z) (pl : prefix_list)
  : Z * list Z * list Z * prefix_list :=
  match depth with
  | S (S _ as d) =>
      if PLC_BITS <? validbits then
        let path' := path ++ [byte_at bytes 0] in
        trie_add_loop d (validbits - PLC_BITS) (drop 1 bytes) path'
          (set_tables ({[path']} ∪ tables pl) pl)
      else (validbits, bytes, path, pl)
  | _ => (validbits, bytes, path, pl)
  end.

Definition prefix_list_trie_add (id : nat) (pl : prefix_list) : outcome prefix_list :=
  e ← entry pl id;
  let '(validbits, bytes, path, pl) :=
    trie_add_loop (trie_depth pl) (prefixlen (ple_prefix e)) (val (ple_prefix e)) [] pl in
  trie_walk_affected (affected validbits path (byte_at bytes 0)) (trie_install_fn id) pl.

(** The descent of [prefix_list_trie_del], which asserts that the tables exist. *)
Fixpoint trie_del_loop (depth : nat) (validbits : Z) (bytes path : list Z) (pl : prefix_list)
  : outcome (Z * list Z * list Z) :=
  match depth with
  | S (S _ as d) =>
      if PLC_BITS <? validbits then
        let path' := path ++ [byte_at bytes 0] in
        assert! (bool_decide (path' ∈ tables pl)) ;;
        trie_del_loop d (validbits - PLC_BITS) (drop 1 bytes) path' pl
      else Ret (validbits, bytes, path)
  | _ => Ret (validbits, bytes, path)
  end.

(** [trie_table_empty]: no slot of table [path] leads anywhere. *)
Definition slot_keys (path : list Z) : list (list Z) :=
  map (fun i => path ++ [Z.of_nat i]) (List.seq 0 256).
Definition is_none {A} (o : option A) : bool :=
  match o with None => true | Some _ => false end.
Definition trie_table_empty (pl : prefix_list) (path : list Z) : bool :=
  forallb (fun k => is_none (up_chain pl !! k) && is_none (final_chain pl !! k)
                    && negb (bool_decide (k ∈ tables pl))) (slot_keys path).

(** [for (; depth > 0; depth--)]: free the tables on the path that are empty. *)
Fixpoint free_tables (depth : nat) (path : list Z) (pl : prefix_list) : prefix_list :=
  match depth with
  | O => pl
  | S d =>
      let pl := if trie_table_empty pl (take depth path)
                then set_tables (tables pl ∖ {[take depth path]}) pl else pl in
      free_tables d path pl
  end.

Definition prefix_list_trie_del (id : nat) (pl : prefix_list) : outcome prefix_list :=
  e ← entry pl id;
  '(validbits, bytes, path) ←
    trie_del_loop (trie_depth pl) (prefixlen (ple_prefix e)) (val (ple_prefix e)) [] pl;
  pl ← trie_walk_affected (affected validbits path (byte_at bytes 0)) (trie_uninstall_fn id) pl;
  Ret (free_tables (length path) path pl).

(** ** The list *)

Definition prefix_new_seq_get (pl : prefix_list) : Z :=
  let maxseq := fold_left (fun m id => match heap pl !! id with
                                       | Some e => if m <? seq e then seq e else m
                                       | None => m
                                       end) (items pl) 0 in
  let newseq := maxseq / 5 * 5 + 5 in
  if 4294967295 <? newseq then 4294967295 else newseq.

Definition has_seq (pl : prefix_list) (s : Z) (id : nat) : bool :=
  match heap pl !! id with Some e => seq e =? s | None => false end.

Definition prefix_seq_check (pl : prefix_list) (s : Z) : option nat :=
  List.find (has_seq pl s) (items pl).

Definition prefix_list_entry_delete (id : nat) (pl : prefix_list) : outcome prefix_list :=
  pl ← prefix_list_trie_del id pl;
  let pl := set_items (List.filter (fun x => negb (Nat.eqb x id)) (items pl)) (count pl - 1) pl in
  Ret (set_heap (delete id (heap pl)) pl).

(** Insert before the first entry with a sequence number not below [s]. *)
Fixpoint insert_by_seq (pl : prefix_list) (s : Z) (id : nat) (l : list nat) : list nat :=
  match l with
  | [] => [id]
  | x :: l => match heap pl !! x with
              | Some e => if s <=? seq e then id :: x :: l else x :: insert_by_seq pl s id l
              | None => x :: insert_by_seq pl s id l
              end
  end.

(** [plist->tail && pentry->seq > plist->tail->seq] *)
Definition past_tail (pl : prefix_list) (s : Z) : bool :=
  match items pl !! pred (length (items pl)) with
  | Some t => match heap pl !! t with Some e => seq e <? s | None => false end
  | None => false
  end.

Definition prefix_list_entry_add (id : nat) (pl : prefix_list) : outcome prefix_list :=
  e ← entry pl id;
  let s := if seq e =? -1 then prefix_new_seq_get pl else seq e in
  let pl := set_heap (alter (fun e => mkPle s (ple_type e) (ple_prefix e) (le e) (ge e)
                                        (hitcnt e) (next_best e)) id (heap pl)) pl in
  pl ← (if past_tail pl s then Ret (set_items (items pl ++ [id]) (count pl) pl)
        else
          pl ← match prefix_seq_check pl s with
               | Some replace => prefix_list_entry_delete replace pl
               | None => Ret pl
               end;
          Ret (set_items (insert_by_seq pl s id (items pl)) (count pl) pl));
  pl ← prefix_list_trie_add id pl;
  Ret (set_items (items pl) (count pl + 1) pl).

(** ** Matching *)

Definition prefix_list_entry_match (e : prefix_list_entry) (p : prefix) (address_mode : bool) : bool :=
  if negb (family (ple_prefix e) =? family p) then false
  else if negb (prefix_match (ple_prefix e) p) then false
  else if address_mode then true
  else if (le e =? 0) && (ge e =? 0) then prefixlen (ple_prefix e) =? prefixlen p
  else if negb (le e =? 0) && (le e <? prefixlen p) then false
  else if negb (ge e =? 0) && (prefixlen p <? ge e) then false
  else true.

(** [for (pentry = chain; pentry; pentry = pentry->next_best)] *)
Fixpoint best_in_chain (fuel : nat) (pl : prefix_list) (p : prefix) (address_mode : bool)
    (pentry pbest : option nat) : outcome (option nat) :=
  match fuel with
  | O => Abort
  | S fuel =>
      match pentry with
      | None => Ret pbest
      | Some id =>
          e ← entry pl id;
          skip ← match pbest with
                 | Some b => eb ← entry pl b; Ret (seq eb <? seq e)
                 | None => Ret false
                 end;
          best_in_chain fuel pl p address_mode (next_best e)
            (if negb skip && prefix_list_entry_match e p address_mode then Some id else pbest)
      end
  end.

(** [while (1)] of [prefix_list_apply_ext]; [path] leads to the current table. *)
Fixpoint apply_loop (depth : nat) (pl : prefix_list) (p : prefix) (address_mode : bool)
    (validbits : Z) (bytes path : list Z) (pbest : option nat) : outcome (option nat) :=
  match depth with
  | O => Abort
  | S d =>
      let k := path ++ [byte_at bytes 0] in
      pbest ← best_in_chain (chain_fuel pl) pl p address_mode (up_chain pl !! k) pbest;
      if validbits <=? PLC_BITS then Ret pbest
      else
        match d with
        | S _ =>
            if negb (bool_decide (k ∈ tables pl)) then Ret pbest
            else apply_loop d pl p address_mode (validbits - PLC_BITS) (drop 1 bytes) k pbest
        | O => best_in_chain (chain_fuel pl) pl p address_mode (final_chain pl !! k) pbest
        end
  end.

Definition prefix_list_apply_ext (opl : option prefix_list) (p : prefix) (address_mode : bool)
  : outcome (prefix_list_type * option nat * option prefix_list) :=
  match opl with
  | None => Ret (PREFIX_DENY, None, None)
  | Some pl =>
      if count pl =? 0 then Ret (PREFIX_PERMIT, None, Some pl)
      else
        pbest ← apply_loop (trie_depth pl) pl p address_mode (prefixlen p) (val p) [] None;
        match pbest with
        | None => Ret (PREFIX_DENY, None, Some pl)
        | Some id =>
            e ← entry pl id;
            Ret (ple_type e, Some id,
                 Some (set_heap (alter (fun e => set_hits (u64 (hitcnt e + 1)) e) id (heap pl)) pl))
        end
  end.
