(* ===== verification/PlistChains.v ===== *)
(** * The shared chains of the prefix-list trie

    Every slot of the trie heads a chain of the entries that affect it, longest
    prefix first, then lowest sequence number.  The entries of a chain after [e]
    are less specific than [e] and affect every slot that [e] affects, which is
    why one [next_best] pointer per entry serves all slots.  This file proves
    that [trie_install_fn] and [trie_uninstall_fn], run over the slots of an
    entry, keep these chains, for any assignment [aff] of slots to entries that
    nests in this way. *)

From stdpp Require Import gmap.
From Stdlib Require Import Sorted.
From S2P Require Import Prelude Prefix PrefixList.

(** ** Sorted lists *)

Section Sorted.
Context {A : Type} (R : A -> A -> Prop).
Hypothesis Hirr : forall x, ~ R x x.
Hypothesis Htr : forall x y z, R x y -> R y z -> R x z.

Lemma sorted_not_in x l : StronglySorted R (x :: l) -> x ∉ l.
Proof.
  intros H Hin. apply StronglySorted_inv in H as [_ H].
  rewrite List.Forall_forall in H. apply (Hirr x), H. by apply list_elem_of_In.
Qed.

Lemma sorted_head x l y : StronglySorted R (x :: l) -> y ∈ l -> R x y.
Proof.
  intros H Hin. apply StronglySorted_inv in H as [_ H].
  rewrite List.Forall_forall in H. apply H. by apply list_elem_of_In.
Qed.

(** A sorted list is determined by its members. *)
Lemma sorted_ext : forall l1 l2, StronglySorted R l1 -> StronglySorted R l2 ->
  (forall x, x ∈ l1 <-> x ∈ l2) -> l1 = l2.
Proof.
  induction l1 as [|x l1 IH]; intros [|y l2] S1 S2 H.
  - done.
  - exfalso. apply (not_elem_of_nil y), H, elem_of_cons. by left.
  - exfalso. apply (not_elem_of_nil x), H, elem_of_cons. by left.
  - assert (x = y) as ->.
    { assert (x ∈ y :: l2) as Hx by (apply H, elem_of_cons; by left).
      assert (y ∈ x :: l1) as Hy by (apply H, elem_of_cons; by left).
      apply elem_of_cons in Hx as [?|Hx]; [done|]. apply elem_of_cons in Hy as [?|Hy]; [done|].
      exfalso. apply (Hirr x). eapply Htr; [by eapply (sorted_head x l1)|by eapply (sorted_head y l2)]. }
    f_equal. apply IH; [by apply StronglySorted_inv in S1 as [? _]
                       |by apply StronglySorted_inv in S2 as [? _]|].
    intros z. pose proof (sorted_not_in y l1 S1) as N1. pose proof (sorted_not_in y l2 S2) as N2.
    specialize (H z). rewrite !elem_of_cons in H. split; intros Hz.
    + destruct (proj1 H (or_intror Hz)) as [->|]; done.
    + destruct (proj2 H (or_intror Hz)) as [->|]; done.
Qed.

Lemma sorted_app_inv l1 l2 :
  StronglySorted R (l1 ++ l2) ->
  StronglySorted R l1 /\ StronglySorted R l2 /\ forall x y, x ∈ l1 -> y ∈ l2 -> R x y.
Proof.
  induction l1 as [|z l1 IH]; simpl; intros H.
  - split_and!; [constructor|done|]. intros x y Hx. by apply elem_of_nil in Hx.
  - pose proof (sorted_head z (l1 ++ l2)) as Hz. pose proof H as H'.
    apply StronglySorted_inv in H as [H Hf]. destruct (IH H) as (I1 & I2 & I3). split_and!.
    + constructor; [done|]. by apply Forall_app in Hf as [? _].
    + done.
    + intros x y Hx Hy. apply elem_of_cons in Hx as [->|Hx]; [|by apply I3].
      apply Hz; [done|]. apply elem_of_app. by right.
Qed.

Lemma sorted_app l1 l2 :
  StronglySorted R l1 -> StronglySorted R l2 -> (forall x y, x ∈ l1 -> y ∈ l2 -> R x y) ->
  StronglySorted R (l1 ++ l2).
Proof.
  induction l1 as [|z l1 IH]; simpl; intros H1 H2 H; [done|].
  apply StronglySorted_inv in H1 as [H1 Hf]. constructor.
  - apply IH; [done|done|]. intros x y Hx. apply H, elem_of_cons. by right.
  - apply Forall_app_2; [done|]. rewrite List.Forall_forall. intros y Hy.
    apply H; [apply elem_of_cons; by left|by apply list_elem_of_In].
Qed.

(** Putting an element between its predecessors and its successors. *)
Lemma sorted_insert l1 x l2 :
  StronglySorted R (l1 ++ l2) -> (forall y, y ∈ l1 -> R y x) -> (forall y, y ∈ l2 -> R x y) ->
  StronglySorted R (l1 ++ x :: l2).
Proof.
  intros H H1 H2. apply sorted_app_inv in H as (S1 & S2 & H3). apply sorted_app; [done| |].
  - constructor; [done|]. rewrite List.Forall_forall. intros y Hy. apply H2. by apply list_elem_of_In.
  - intros a b Ha Hb. apply elem_of_cons in Hb as [->|Hb]; auto.
Qed.

Lemma sorted_remove l1 x l2 : StronglySorted R (l1 ++ x :: l2) -> StronglySorted R (l1 ++ l2).
Proof.
  intros H. apply sorted_app_inv in H as (S1 & S2 & H3).
  apply StronglySorted_inv in S2 as [S2 _]. apply sorted_app; [done|done|].
  intros a b Ha Hb. apply H3; [done|]. apply elem_of_cons. by right.
Qed.
End Sorted.

(** ** Chains *)

(** The entries reached from [c] through [next_best]. *)
Fixpoint chain (h : gmap nat prefix_list_entry) (c : option nat) (L : list nat) : Prop :=
  match L with
  | [] => c = None
  | id :: L => c = Some id /\ exists e, h !! id = Some e /\ chain h (next_best e) L
  end.

Definition elen (e : prefix_list_entry) : Z := prefixlen (ple_prefix e).

(** Chain order: longer prefixes first, then lower sequence numbers. *)
Definition bef (e f : prefix_list_entry) : Prop :=
  elen f < elen e \/ (elen f = elen e /\ seq e < seq f).
Definition before (h : gmap nat prefix_list_entry) (a b : nat) : Prop :=
  exists ea eb, h !! a = Some ea /\ h !! b = Some eb /\ bef ea eb.

Lemma before_irr h x : ~ before h x x.
Proof. intros (a & b & Ha & Hb & H). simplify_eq. unfold bef in H. lia. Qed.

Lemma before_trans h x y z : before h x y -> before h y z -> before h x z.
Proof.
  intros (a & b & Ha & Hb & H) (b' & c & Hb' & Hc & H'). simplify_eq. exists a, c.
  split_and!; try done. unfold bef in *. lia.
Qed.

Lemma chain_det h : forall L1 L2 c, chain h c L1 -> chain h c L2 -> L1 = L2.
Proof.
  induction L1 as [|x L1 IH]; intros [|y L2] c H1 H2; simpl in *.
  - done.
  - destruct H2 as (-> & _). done.
  - destruct H1 as (-> & _). done.
  - destruct H1 as (-> & e & He & C1), H2 as (E & e' & He' & C2). simplify_eq. f_equal. eauto.
Qed.

(** The tail of a chain after an element [x] starts at its [next_best]. *)
Lemma chain_tail h L1 : forall c x L2,
  chain h c (L1 ++ x :: L2) -> exists e, h !! x = Some e /\ chain h (next_best e) L2.
Proof.
  induction L1 as [|y L1 IH]; simpl; intros c x L2 H.
  - destruct H as (_ & e & He & H). eauto.
  - destruct H as (_ & e & He & H). eauto.
Qed.

Lemma chain_in h : forall L c x, chain h c L -> x ∈ L -> is_Some (h !! x).
Proof.
  induction L as [|y L IH]; intros c x H Hx; [by apply elem_of_nil in Hx|].
  destruct H as (_ & e & He & H). apply elem_of_cons in Hx as [->|Hx]; eauto.
Qed.

Lemma chain_head h c L : chain h c L -> c = head L.
Proof. destruct L; simpl; [done|]. by intros (-> & _). Qed.

(** A chain is read the same in a heap that agrees on its entries' links. *)
Lemma chain_frame h h2 : forall L c,
  chain h c L ->
  (forall x e, x ∈ L -> h !! x = Some e -> exists e2, h2 !! x = Some e2 /\ next_best e2 = next_best e) ->
  chain h2 c L.
Proof.
  induction L as [|y L IH]; intros c H Hf; simpl in *; [done|].
  destruct H as (-> & e & He & H). split; [done|].
  destruct (Hf y e) as (e2 & He2 & En); [apply elem_of_cons; by left|done|].
  exists e2. split; [done|]. rewrite En. apply IH; [done|].
  intros x ex Hx. apply Hf, elem_of_cons. by right.
Qed.

(** Changing where the last element of a segment points. *)
Lemma chain_redirect h h2 X a c L1 L2 :
  chain h c (X ++ a :: L1) ->
  (forall x e, x ∈ X -> h !! x = Some e -> exists e2, h2 !! x = Some e2 /\ next_best e2 = next_best e) ->
  (exists ea, h2 !! a = Some ea /\ chain h2 (next_best ea) L2) ->
  chain h2 c (X ++ a :: L2).
Proof.
  revert c. induction X as [|y X IH]; intros c H Hf Ha; simpl in *.
  - destruct H as (-> & _). by split.
  - destruct H as (-> & e & He & H). split; [done|].
    destruct (Hf y e) as (e2 & He2 & En); [apply elem_of_cons; by left|done|].
    exists e2. split; [done|]. rewrite En. apply IH; [done| |done].
    intros x ex Hx. apply Hf, elem_of_cons. by right.
Qed.

(** ** Slots *)

#[global] Instance updptr_eq_dec : EqDecision updptr.
Proof. solve_decision. Defined.

Definition head_of (pl : prefix_list) (s : updptr) : option nat :=
  match s with
  | UpChain k => up_chain pl !! k
  | FinalChain k => final_chain pl !! k
  | NextBest _ => None
  end.

Definition is_slot (s : updptr) : Prop :=
  match s with NextBest _ => False | _ => True end.

Lemma load_slot pl s : is_slot s -> load pl s = Ret (head_of pl s).
Proof. by destruct s. Qed.

(** What the trie code leaves alone: everything of an entry but its link. *)
Definition core (e : prefix_list_entry) : prefix_list_entry := set_next None e.

Record same_core (pl pl2 : prefix_list) : Prop := {
  sc_heap : forall id, core <$> heap pl2 !! id = core <$> heap pl !! id;
  sc_items : items pl2 = items pl;
  sc_tables : tables pl2 = tables pl;
  sc_count : count pl2 = count pl;
  sc_depth : trie_depth pl2 = trie_depth pl
}.

Lemma same_core_refl pl : same_core pl pl.
Proof. by split. Qed.

Lemma same_core_trans a b c : same_core a b -> same_core b c -> same_core a c.
Proof.
  intros [H1 H2 H3 H4 H5] [K1 K2 K3 K4 K5]. split; congruence.
Qed.

Lemma same_core_entry pl pl2 id e :
  same_core pl pl2 -> heap pl !! id = Some e ->
  exists e2, heap pl2 !! id = Some e2 /\ seq e2 = seq e /\ ple_prefix e2 = ple_prefix e
    /\ ple_type e2 = ple_type e /\ le e2 = le e /\ ge e2 = ge e /\ hitcnt e2 = hitcnt e.
Proof.
  intros S He. pose proof (sc_heap _ _ S id) as H. rewrite He in H. simpl in H.
  destruct (heap pl2 !! id) as [e2|]; [|done]. simpl in H. injection H as E1 E2 E3 E4 E5 E6.
  exists e2. by split_and!.
Qed.

Lemma same_core_sym pl pl2 : same_core pl pl2 -> same_core pl2 pl.
Proof. intros [? ? ? ? ?]. by split. Qed.

Lemma before_core pl pl2 a b :
  same_core pl pl2 -> before (heap pl) a b -> before (heap pl2) a b.
Proof.
  intros S (ea & eb & Ha & Hb & H).
  destruct (same_core_entry _ _ a ea S Ha) as (ea2 & Ha2 & Sa & Pa & _).
  destruct (same_core_entry _ _ b eb S Hb) as (eb2 & Hb2 & Sb & Pb & _).
  exists ea2, eb2. split_and!; try done. unfold bef, elen in *. by rewrite Sa, Pa, Sb, Pb.
Qed.

Lemma sorted_core pl pl2 L :
  same_core pl pl2 -> StronglySorted (before (heap pl)) L -> StronglySorted (before (heap pl2)) L.
Proof.
  intros S. induction 1 as [|x L H IH Hf]; constructor; [done|].
  eapply List.Forall_impl; [|exact Hf]. intros y. by apply before_core.
Qed.

(** The entry a link write changes. *)
Lemma lookup_set_next (h : gmap nat prefix_list_entry) (id : nat) v (x : nat) :
  alter (set_next v) id h !! x
  = if decide (x = id) then set_next v <$> h !! x else h !! x.
Proof.
  rewrite lookup_alter. case_decide as E1; case_decide as E2; congruence.
Qed.

Lemma store_core u v pl : same_core pl (store u v pl).
Proof.
  destruct u as [k|k|id]; simpl; try (by split). split; try done. intros x. simpl.
  rewrite lookup_set_next. case_decide; [|done]. by destruct (heap pl !! x).
Qed.

Lemma head_of_store pl k v s :
  is_slot k -> head_of (store k v pl) s = if decide (s = k) then v else head_of pl s.
Proof.
  intros Hk. destruct k as [k|k|]; [| |done]; destruct s as [s|s|]; cbn [head_of store up_chain final_chain];
    try (rewrite decide_False by done; done);
    (destruct (decide (s = k)) as [->|];
      [by rewrite lookup_partial_alter_eq, decide_True
      |rewrite lookup_partial_alter_ne, decide_False by congruence; done]).
Qed.

Lemma head_of_store_next pl id v s : head_of (store (NextBest id) v pl) s = head_of pl s.
Proof. by destruct s. Qed.

(** ** Installing *)

Section Install.
Context (aff : nat -> updptr -> Prop).
Context (o : nat) (I : list nat).

(** Entry [id] affects slot [s]; entries after [id] in a chain affect all its
    slots. *)
Definition nested (h : gmap nat prefix_list_entry) : Prop :=
  forall a b ea eb s s', h !! a = Some ea -> h !! b = Some eb -> elen eb <= elen ea ->
    aff a s -> aff b s -> aff a s' -> aff b s'.

Definition distinct (h : gmap nat prefix_list_entry) : Prop :=
  forall a b ea eb, h !! a = Some ea -> h !! b = Some eb -> a ∈ o :: I -> b ∈ o :: I ->
    seq ea = seq eb -> a = b.

(** Between the slots of an installation of [o]: the chains hold the entries
    [I] that affect them, and [o] at least in the slots [P] done. *)
Record installing (pl : prefix_list) (P : updptr -> Prop) : Prop := {
  in_chain : forall s, is_slot s -> exists L, chain (heap pl) (head_of pl s) L
    /\ StronglySorted (before (heap pl)) L
    /\ (forall id, id ∈ L -> id ∈ o :: I /\ aff id s)
    /\ (forall id, id ∈ I -> aff id s -> id ∈ L)
    /\ (P s -> aff o s -> o ∈ L);
  in_next : forall eo, heap pl !! o = Some eo -> next_best eo <> None ->
    exists s L, is_slot s /\ chain (heap pl) (head_of pl s) L /\ o ∈ L
}.

Definition after (u : updptr) (A : list nat) : updptr :=
  match rev A with [] => u | a :: _ => NextBest a end.

Lemma after_cons u x A : after u (x :: A) = after (NextBest x) A.
Proof.
  unfold after. simpl. destruct (rev A) as [|a l] eqn:E; [done|]. done.
Qed.

(** The walk stops behind the entries that go before [o]. *)
Lemma install_walk_spec pl eo : heap pl !! o = Some eo ->
  forall L fuel u c, load pl u = Ret c -> chain (heap pl) c L ->
  StronglySorted (before (heap pl)) L -> (length L < fuel)%nat ->
  (forall x ex, x ∈ L -> x <> o -> heap pl !! x = Some ex -> bef ex eo \/ bef eo ex) ->
  (o ∈ L /\ install_walk fuel pl o eo u = Ret None)
  \/ ((o ∉ L) /\ exists A B, L = A ++ B /\ install_walk fuel pl o eo u = Ret (Some (after u A))
      /\ load pl (after u A) = Ret (head B)
      /\ (forall x, x ∈ A -> before (heap pl) x o) /\ (forall x, x ∈ B -> before (heap pl) o x)).
Proof.
  intros Ho. induction L as [|x L IH]; intros fuel u c Hl Hc S Hf Ht;
    (destruct fuel as [|fuel]; [simpl in Hf; lia|]); cbn [install_walk]; rewrite Hl; simpl in Hc.
  - subst c. right. split; [apply not_elem_of_nil|]. exists [], []. simpl.
    split_and!; try done; intros y Hy; by apply elem_of_nil in Hy.
  - destruct Hc as (-> & ex & Hx & Hc). cbn [mbind outcome_bind].
    destruct (Nat.eqb_spec x o) as [->|Hne].
    { left. split; [apply elem_of_cons; by left|done]. }
    unfold entry. rewrite Hx. cbn [mbind outcome_bind].
    pose proof (StronglySorted_inv S) as [S' Hall]. rewrite List.Forall_forall in Hall.
    destruct (Ht x ex) as [Hb|Hb]; [apply elem_of_cons; by left|done|done| |].
    + assert ((prefixlen (ple_prefix ex) <? prefixlen (ple_prefix eo)) = false) as ->
        by (apply Z.ltb_ge; unfold bef, elen in Hb; lia).
      assert (((prefixlen (ple_prefix ex) =? prefixlen (ple_prefix eo)) && (seq eo <? seq ex)) = false) as ->.
      { apply andb_false_iff. rewrite Z.eqb_neq, Z.ltb_ge. unfold bef, elen in Hb. lia. }
      destruct (IH fuel (NextBest x) (next_best ex)) as [[Hin E]|(Hin & A & B & -> & E & El & HA & HB)];
        try done; [simpl; unfold entry; by rewrite Hx|simpl in Hf; lia
                  |intros y ey Hy; apply Ht, elem_of_cons; by right| |].
      * left. split; [apply elem_of_cons; by right|done].
      * right. split; [rewrite elem_of_cons; intros [->|]; done|].
        exists (x :: A), B. rewrite after_cons. split_and!; try done.
        intros y Hy. apply elem_of_cons in Hy as [->|Hy]; [|by apply HA].
        exists ex, eo. done.
    + right. assert (o ∉ x :: L) as Hno.
      { rewrite elem_of_cons. intros [->|Hin]; [done|].
        apply list_elem_of_In in Hin. specialize (Hall o Hin).
        destruct Hall as (a & b & Ha & Hb' & H). simplify_eq. unfold bef in *. lia. }
      split; [done|]. exists [], (x :: L). unfold after. simpl.
      split_and!; try done.
      * destruct (Z.ltb_spec (prefixlen (ple_prefix ex)) (prefixlen (ple_prefix eo))); [done|].
        assert (((prefixlen (ple_prefix ex) =? prefixlen (ple_prefix eo)) && (seq eo <? seq ex)) = true) as ->; [|done].
        apply andb_true_iff. rewrite Z.eqb_eq, Z.ltb_lt. unfold bef, elen in *. lia.
      * intros y Hy. by apply elem_of_nil in Hy.
      * intros y Hy. apply elem_of_cons in Hy as [->|Hy].
        -- exists eo, ex. done.
        -- eapply before_trans; [by exists eo, ex|]. apply Hall. by apply list_elem_of_In.
Qed.

Lemma elem_split {A} (x : A) l : x ∈ l -> exists l1 l2, l = l1 ++ x :: l2.
Proof. intros H. apply list_elem_of_In, List.in_split in H as (l1 & l2 & ->). eauto. Qed.

Section Step.
Context (pl : prefix_list) (P : updptr -> Prop) (J : installing pl P).
Context (Hn : nested (heap pl)) (HoI : o ∉ I).
Context (eo : prefix_list_entry) (Ho : heap pl !! o = Some eo).
Context (s0 : updptr) (Hs0 : is_slot s0) (Ha0 : aff o s0).
Context (A B : list nat) (HC : chain (heap pl) (head_of pl s0) (A ++ B))
  (HS : StronglySorted (before (heap pl)) (A ++ B)) (HoL : o ∉ A ++ B)
  (HL1 : forall id, id ∈ A ++ B -> id ∈ o :: I /\ aff id s0)
  (HL2 : forall id, id ∈ I -> aff id s0 -> id ∈ A ++ B)
  (HA : forall x, x ∈ A -> before (heap pl) x o) (HB : forall x, x ∈ B -> before (heap pl) o x).

(** Where [o] already hangs, the rest of the chain is the one it gets here. *)
Lemma tail_same s X Y L :
  is_slot s -> chain (heap pl) (head_of pl s) L -> L = X ++ o :: Y -> Y = B.
Proof.
  intros Hs HCs EL. destruct (in_chain pl P J s Hs) as (L' & HC' & HS' & H1 & H2 & _).
  assert (L' = L) as -> by (by eapply chain_det). subst L.
  pose proof (sorted_app_inv _ _ _ HS') as (_ & SY & HXY).
  pose proof (sorted_app_inv _ _ _ HS) as (_ & SB & _).
  destruct (H1 o) as [_ Hao]; [apply elem_of_app; right; apply elem_of_cons; by left|].
  apply (sorted_ext _ (before_irr (heap pl)) (before_trans (heap pl)));
    [by apply StronglySorted_inv in SY as [? _]|done|].
  intros x. split; intros Hx.
  - pose proof (sorted_head _ o Y x SY Hx) as Hox.
    destruct (H1 x) as [HxI Hax]; [apply elem_of_app; right; apply elem_of_cons; by right|].
    apply elem_of_cons in HxI as [->|HxI]; [by apply before_irr in Hox|].
    assert (x ∈ A ++ B) as HxL.
    { apply HL2; [done|]. destruct Hox as (e1 & e2 & E1 & E2 & Hb).
      eapply (Hn o x); [done|done| |exact Hao|exact Hax|exact Ha0]. unfold bef in Hb. lia. }
    apply elem_of_app in HxL as [HxA|]; [|done]. exfalso.
    eapply before_irr, before_trans; [exact Hox|by apply HA].
  - pose proof (HB x Hx) as Hox.
    destruct (HL1 x) as [HxI Hax]; [apply elem_of_app; by right|].
    apply elem_of_cons in HxI as [->|HxI]; [by apply before_irr in Hox|].
    assert (x ∈ X ++ o :: Y) as HxL.
    { apply H2; [done|]. destruct Hox as (e1 & e2 & E1 & E2 & Hb).
      eapply (Hn o x); [done|done| |exact Ha0|exact Hax|exact Hao]. unfold bef in Hb. lia. }
    apply elem_of_app in HxL as [HxX|HxY].
    + exfalso. eapply before_irr, before_trans; [exact Hox|]. apply HXY; [done|].
      apply elem_of_cons. by left.
    + apply elem_of_cons in HxY as [->|]; [by apply before_irr in Hox|done].
Qed.

(** The assertion of [trie_install_fn] holds. *)
Lemma next_agrees : next_best eo = None \/ next_best eo = head B.
Proof.
  destruct (option_cases (next_best eo)) as [E|[n E]]; [by left|right].
  destruct (in_next pl P J eo Ho) as (s & L & Hs & HCs & Hin); [by rewrite E|].
  destruct (elem_split o L Hin) as (X & Y & EL).
  pose proof (tail_same s X Y L Hs HCs EL) as ->. rewrite EL in HCs.
  destruct (chain_tail _ _ _ _ _ HCs) as (e & He & HCt). assert (e = eo) as -> by congruence.
  by apply chain_head in HCt.
Qed.

(** The list after the two assignments at the end of [trie_install_fn]. *)
Definition linked : prefix_list :=
  match next_best eo with None => store (NextBest o) (head B) pl | Some _ => pl end.
Definition hung : prefix_list := store (after s0 A) (Some o) linked.

Lemma linked_lookup x :
  heap linked !! x = if decide (x = o) then Some (set_next (head B) eo) else heap pl !! x.
Proof.
  unfold linked. destruct next_agrees as [E|E].
  - rewrite E. simpl. rewrite lookup_set_next. case_decide; [subst; by rewrite Ho|done].
  - destruct (next_best eo) as [n|] eqn:En.
    + case_decide; [|done]. subst x. rewrite Ho, <- E, <- En. by destruct eo.
    + simpl. rewrite lookup_set_next. case_decide; [subst; by rewrite Ho|done].
Qed.

Lemma linked_head s : head_of linked s = head_of pl s.
Proof. unfold linked. destruct (next_best eo); [done|]. apply head_of_store_next. Qed.

Lemma hung_core : same_core pl hung.
Proof.
  eapply same_core_trans; [|apply store_core]. unfold linked.
  destruct (next_best eo); [apply same_core_refl|apply store_core].
Qed.

(** The entry whose link changes, if it is not the slot itself. *)
Definition pred_of (a : nat) : Prop := exists A0, A = A0 ++ [a].

Lemma hung_lookup x :
  (pred_of x /\ exists ex, heap hung !! x = Some ex /\ next_best ex = Some o)
  \/ (~ pred_of x /\ heap hung !! x = heap linked !! x).
Proof.
  unfold hung, after, pred_of. destruct (rev A) as [|a r] eqn:E.
  - assert (A = []) as EA by (apply (f_equal (@rev nat)) in E; by rewrite rev_involutive in E).
    right. split; [intros (A0 & H); rewrite EA in H; by destruct A0|].
    destruct s0 as [k|k|]; [done|done|]. by destruct Hs0.
  - assert (A = rev r ++ [a]) as EA by (by rewrite <- (rev_involutive A), E).
    simpl. rewrite lookup_set_next. case_decide as Ex.
    + subst x. left. split; [by exists (rev r)|].
      assert (a ∈ A) as Hin by (rewrite EA; apply elem_of_app; right; apply list_elem_of_singleton; done).
      destruct (HA a Hin) as (ea & _ & Hea & _).
      rewrite linked_lookup. assert (a <> o) as Hao.
      { intros ->. apply HoL, elem_of_app. by left. }
      rewrite decide_False, Hea by done. simpl. eexists. split; [done|done].
    + right. split; [|done]. intros (A0 & H). rewrite EA in H.
      apply app_inj_tail in H as [_ ->]. done.
Qed.

Lemma hung_head s :
  head_of hung s = if decide (A = [] /\ s = s0) then Some o else head_of pl s.
Proof.
  unfold hung, after. destruct (rev A) as [|a r] eqn:E.
  - assert (A = []) as -> by (apply (f_equal (@rev nat)) in E; by rewrite rev_involutive in E).
    rewrite head_of_store, linked_head by done.
    destruct (decide (s = s0)); [rewrite decide_True by done|rewrite decide_False by tauto]; done.
  - rewrite head_of_store_next, linked_head. rewrite decide_False; [done|].
    intros [EA _]. by rewrite EA in E.
Qed.

Lemma pred_facts a : pred_of a -> a ∈ A /\ a <> o /\ (a ∉ B)
  /\ exists ea, heap pl !! a = Some ea /\ chain (heap pl) (next_best ea) B.
Proof.
  intros (A0 & EA). assert (a ∈ A) as Hin by (rewrite EA; apply elem_of_app; right; by apply list_elem_of_singleton).
  split_and!.
  - done.
  - intros ->. apply HoL, elem_of_app. by left.
  - intros Hb. pose proof (sorted_app_inv _ _ _ HS) as (_ & _ & H). by apply (before_irr (heap pl) a), H.
  - pose proof HC as HC2. rewrite EA, <- app_assoc in HC2. by apply chain_tail in HC2.
Qed.

Lemma pred_cases : A = [] \/ exists a, pred_of a.
Proof.
  unfold pred_of. destruct (rev A) as [|a r] eqn:E.
  - left. apply (f_equal (@rev nat)) in E. by rewrite rev_involutive in E.
  - right. exists a, (rev r). by rewrite <- (rev_involutive A), E.
Qed.

Lemma pred_unique a b : pred_of a -> pred_of b -> a = b.
Proof. intros (X & E1) (Y & E2). rewrite E1 in E2. by apply app_inj_tail in E2 as [_ ->]. Qed.

Lemma tail_chain : chain (heap pl) (head B) B.
Proof.
  destruct pred_cases as [EA|[a Ha]].
  - pose proof HC as HC2. rewrite EA in HC2. simpl in HC2.
    by rewrite <- (chain_head _ _ _ HC2).
  - destruct (pred_facts a Ha) as (_ & _ & _ & ea & _ & H). by rewrite <- (chain_head _ _ _ H).
Qed.

(** Reading an unchanged segment in the new heap. *)
Lemma hung_keeps x e :
  ~ pred_of x -> x <> o -> heap pl !! x = Some e ->
  exists e2, heap hung !! x = Some e2 /\ next_best e2 = next_best e.
Proof.
  intros Hp Hx He. destruct (hung_lookup x) as [[? _]|[_ ->]]; [done|].
  rewrite linked_lookup, decide_False by done. eauto.
Qed.

Lemma hung_object : exists e2, heap hung !! o = Some e2 /\ next_best e2 = head B.
Proof.
  destruct (hung_lookup o) as [[Hp _]|[_ ->]].
  - by destruct (pred_facts o Hp) as (_ & ? & _).
  - rewrite linked_lookup, decide_True by done. eauto.
Qed.

Lemma hung_tail : chain (heap hung) (Some o) (o :: B).
Proof.
  destruct hung_object as (e2 & He2 & En). split; [done|]. exists e2. split; [done|].
  rewrite En. eapply chain_frame; [exact tail_chain|]. intros x e Hx He. apply hung_keeps; [| |done].
  - intros Hp. by destruct (pred_facts x Hp) as (_ & _ & ? & _).
  - intros ->. apply HoL, elem_of_app. by right.
Qed.

(** [L'] is chain [L] of slot [s] with [o] put in at its place. *)
Definition got_object (s : updptr) (L L' : list nat) : Prop :=
  exists X, L = X ++ B /\ L' = X ++ o :: B /\ (o ∉ L)
    /\ (forall x, x ∈ X -> before (heap pl) x o) /\ aff o s.

Section Slot.
Context (s : updptr) (Hs : is_slot s) (L : list nat).
Context (HCs : chain (heap pl) (head_of pl s) L) (HSs : StronglySorted (before (heap pl)) L).
Context (HLs : forall id, id ∈ L -> id ∈ o :: I /\ aff id s).

(** Nothing of chain [L] before [x] is [x]. *)
Lemma front_ne X x Y y : L = X ++ x :: Y -> y ∈ X -> y <> x.
Proof.
  intros EL Hy ->. rewrite EL in HSs. apply sorted_app_inv in HSs as (_ & _ & H).
  apply (before_irr (heap pl) x), H; [done|]. apply elem_of_cons. by left.
Qed.

Lemma slot_with_object : o ∈ L -> chain (heap hung) (head_of hung s) L /\ s <> s0.
Proof.
  intros Hin. destruct (elem_split o L Hin) as (X & Y & EL).
  pose proof (tail_same s X Y L Hs HCs EL) as EY. subst Y.
  assert (s <> s0) as Hne.
  { intros ->. apply HoL. by rewrite (chain_det _ _ _ _ HC HCs). }
  split; [|done]. rewrite hung_head, decide_False by tauto. rewrite EL in HCs |- *.
  apply (chain_redirect (heap pl) (heap hung) X o _ B B); [done| |].
  - intros x e Hx He. apply hung_keeps; [|by apply (front_ne X o B)|done].
    intros Hp. destruct (pred_facts x Hp) as (_ & _ & _ & ea & Hea & HCa).
    destruct (elem_split x X Hx) as (X1 & X2 & ->). rewrite <- app_assoc in HCs. simpl in HCs.
    destruct (chain_tail _ _ _ _ _ HCs) as (ea' & Hea' & HCt).
    assert (ea' = ea) as -> by congruence. pose proof (chain_det _ _ _ _ HCa HCt) as EB.
    apply HoL, elem_of_app. right. rewrite EB. apply elem_of_app. right. apply elem_of_cons. by left.
  - destruct hung_tail as (_ & e2 & He2 & H). eauto.
Qed.

Lemma slot_with_pred a : pred_of a -> a ∈ L -> o ∉ L ->
  exists L', chain (heap hung) (head_of hung s) L' /\ got_object s L L'.
Proof.
  intros Hp Hin Hno. destruct (elem_split a L Hin) as (X & Y & EL).
  destruct (pred_facts a Hp) as (HaA & Hao & HaB & ea & Hea & HCa).
  pose proof HCs as HCs2. rewrite EL in HCs2.
  destruct (chain_tail _ _ _ _ _ HCs2) as (ea' & Hea' & HCt). assert (ea' = ea) as -> by congruence.
  pose proof (chain_det _ _ _ _ HCa HCt) as EB. subst Y.
  exists (X ++ a :: o :: B). split.
  - rewrite hung_head, decide_False by (intros [EA _]; rewrite EA in HaA; by apply elem_of_nil in HaA).
    apply (chain_redirect (heap pl) (heap hung) X a _ B); [done| |].
    + intros x e Hx He. apply hung_keeps; [| |done].
      * intros Hpx. apply (front_ne X a B x EL Hx). by apply pred_unique.
      * intros ->. apply Hno. rewrite EL. apply elem_of_app. by left.
    + destruct (hung_lookup a) as [[_ (e2 & He2 & En)]|[? _]]; [|done].
      exists e2. split; [done|]. rewrite En. exact hung_tail.
  - exists (X ++ [a]). rewrite <- !app_assoc. split_and!; try done.
    + intros x Hx. apply elem_of_app in Hx as [Hx|Hx].
      * eapply before_trans; [|by apply HA]. pose proof HSs as HS2. rewrite EL in HS2.
        apply sorted_app_inv in HS2 as (_ & _ & H). apply H; [done|]. apply elem_of_cons. by left.
      * apply list_elem_of_singleton in Hx as ->. by apply HA.
    + destruct (HLs a Hin) as [_ Has]. destruct (HL1 a) as [_ Ha1]; [apply elem_of_app; by left|].
      destruct (HA a HaA) as (e1 & e2 & E1 & E2 & Hb).
      eapply (Hn a o); [done|done| |exact Ha1|exact Ha0|exact Has]. unfold bef in Hb. lia.
Qed.

Lemma hung_slot : exists L', chain (heap hung) (head_of hung s) L'
  /\ ((L' = L /\ (s = s0 -> o ∈ L)) \/ got_object s L L').
Proof.
  destruct (decide (o ∈ L)) as [Hin|Hno].
  { destruct (slot_with_object Hin). exists L. auto. }
  destruct pred_cases as [EA|[a Hp]].
  - destruct (decide (s = s0)) as [Es|Es].
    + pose proof HCs as HC2. rewrite Es in HC2. pose proof (chain_det _ _ _ _ HC HC2) as EL.
      rewrite EA in EL. simpl in EL. exists (o :: B). rewrite hung_head, decide_True by done.
      split; [exact hung_tail|]. right. exists []. simpl. rewrite <- EL, Es.
      split_and!; try done; [by rewrite EL|]. intros x Hx. by apply elem_of_nil in Hx.
    + exists L. rewrite hung_head, decide_False by tauto. split; [|by left].
      eapply chain_frame; [exact HCs|]. intros x e Hx He. apply hung_keeps; [|congruence|done].
      intros (A0 & E). rewrite EA in E. by destruct A0.
  - destruct (decide (a ∈ L)) as [Ha|Ha].
    + destruct (slot_with_pred a Hp Ha Hno) as (L' & ? & ?). eauto.
    + assert (s <> s0) as Es.
      { intros Es. apply Ha. pose proof HCs as HC2. rewrite Es in HC2.
        rewrite <- (chain_det _ _ _ _ HC HC2). apply elem_of_app. left. by apply pred_facts. }
      exists L. rewrite hung_head, decide_False by tauto. split; [|left; tauto].
      eapply chain_frame; [exact HCs|]. intros x e Hx He. apply hung_keeps; [|congruence|done].
      intros Hpx. apply Ha. by rewrite <- (pred_unique x a Hpx Hp).
Qed.
End Slot.

Lemma hung_installing : installing hung (fun s => P s \/ s = s0).
Proof.
  split.
  - intros s Hs. destruct (in_chain pl P J s Hs) as (L & HCs & HSs & H1 & H2 & H3).
    destruct (hung_slot s Hs L HCs HSs H1) as (L' & HC' & [[-> Hs00]|(X & EL & -> & Hno & HX & Hao)]).
    + exists L. split; [done|]. split; [by apply (sorted_core _ _ _ hung_core)|].
      split_and!; try done. intros [HP|Es] Ha; auto.
    + exists (X ++ o :: B). split; [done|]. split; [|split_and!].
      * apply (sorted_core _ _ _ hung_core). apply sorted_insert; [by rewrite <- EL|done|done].
      * intros id Hid. apply elem_of_app in Hid as [Hid|Hid].
        { apply H1. rewrite EL. apply elem_of_app. by left. }
        apply elem_of_cons in Hid as [->|Hid]; [split; [apply elem_of_cons; by left|done]|].
        apply H1. rewrite EL. apply elem_of_app. by right.
      * intros id Hid Ha. pose proof (H2 id Hid Ha) as Hin. rewrite EL in Hin.
        apply elem_of_app in Hin as [?|?]; apply elem_of_app; [by left|right].
        apply elem_of_cons. by right.
      * intros _ _. apply elem_of_app. right. apply elem_of_cons. by left.
  - intros e2 He2 _. destruct (hung_slot s0 Hs0 (A ++ B) HC HS HL1) as (L' & HC' & HL').
    exists s0, L'. split_and!; [done|done|].
    destruct HL' as [[-> H]|(X & _ & -> & _)]; [auto|].
    apply elem_of_app. right. apply elem_of_cons. by left.
Qed.
End Step.

(** A sorted chain has no more elements than the heap. *)
Lemma chain_length h c L :
  chain h c L -> StronglySorted (before h) L -> (length L <= size h)%nat.
Proof.
  intros HC HS. assert (NoDup L) as ND.
  { clear HC. induction HS as [|x L HS IH Hf]; [apply NoDup_nil_2|].
    apply NoDup_cons_2; [|done]. eapply (sorted_not_in _ (before_irr h)). by constructor. }
  rewrite <- (size_list_to_set (C:=gset nat)) by done. rewrite <- size_dom.
  apply subseteq_size. intros x Hx. apply elem_of_list_to_set in Hx.
  apply elem_of_dom. by eapply chain_in.
Qed.

Lemma trie_install_fn_spec pl P s0 :
  installing pl P -> nested (heap pl) -> distinct (heap pl) -> o ∉ I -> is_Some (heap pl !! o) ->
  is_slot s0 -> aff o s0 ->
  exists pl', trie_install_fn o s0 pl = Ret pl' /\ same_core pl pl'
    /\ installing pl' (fun s => P s \/ s = s0).
Proof.
  intros J Hn Hd HoI [eo Ho] Hs0 Ha0.
  destruct (in_chain pl P J s0 Hs0) as (L & HC & HS & H1 & H2 & H3).
  unfold trie_install_fn, entry at 1. rewrite Ho. cbn [mbind outcome_bind].
  destruct (install_walk_spec pl eo Ho L (chain_fuel pl) s0 (head_of pl s0))
    as [[Hin E]|(Hno & A & B & -> & E & El & HA & HB)]; try done.
  - by apply load_slot.
  - pose proof (chain_length _ _ _ HC HS). unfold chain_fuel. lia.
  - intros x ex Hx Hne Hex. destruct (H1 x Hx) as [HxI _].
    destruct (Z.lt_trichotomy (elen ex) (elen eo)) as [?|[Eq|?]]; [right; left; done| |left; left; done].
    destruct (Z.lt_trichotomy (seq ex) (seq eo)) as [?|[Es|?]]; [left; by right| |right; by right].
    exfalso. apply Hne. eapply Hd; [done|done|done|apply elem_of_cons; by left|done].
  - rewrite E. exists pl. split_and!; [done|apply same_core_refl|]. split; [|apply J].
    intros s Hs. destruct (in_chain pl P J s Hs) as (L' & HC' & HS' & K1 & K2 & K3).
    exists L'. split_and!; try done. intros [HP| ->] Ha; [auto|].
    by rewrite (chain_det _ _ _ _ HC' HC).
  - rewrite E. cbn [mbind outcome_bind]. rewrite El. cbn [mbind outcome_bind].
    pose proof (next_agrees pl P J Hn eo Ho s0 Ha0 A B HS H1 H2 HA HB) as Hnx.
    exists (hung pl eo s0 A B). split; [|split].
    + unfold hung, linked. destruct (next_best eo) as [n|] eqn:En; [|done].
      destruct Hnx as [?|Hnx]; [done|]. rewrite <- Hnx, Nat.eqb_refl. done.
    + apply hung_core.
    + by apply hung_installing.
Qed.

(** Installing over all slots of [o]. *)
Lemma install_all slots : forall pl P,
  installing pl P -> nested (heap pl) -> distinct (heap pl) -> o ∉ I -> is_Some (heap pl !! o) ->
  (forall s, s ∈ slots -> is_slot s /\ aff o s) ->
  exists pl', trie_walk_affected slots (trie_install_fn o) pl = Ret pl' /\ same_core pl pl'
    /\ installing pl' (fun s => P s \/ s ∈ slots).
Proof.
  induction slots as [|s slots IH]; intros pl P J Hn Hd HoI Ho Hs; cbn [trie_walk_affected].
  { exists pl. split_and!; [done|apply same_core_refl|]. split; [|apply J].
    intros s Hs'. destruct (in_chain pl P J s Hs') as (L' & HC' & HS' & K1 & K2 & K3).
    exists L'. split_and!; try done. intros [HP|Hin]; [auto|by apply elem_of_nil in Hin]. }
  destruct (Hs s) as [Hsl Ha]; [apply elem_of_cons; by left|].
  destruct (trie_install_fn_spec pl P s J Hn Hd HoI Ho Hsl Ha) as (pl1 & -> & C1 & J1).
  cbn [mbind outcome_bind].
  destruct (IH pl1 _ J1) as (pl2 & -> & C2 & J2).
  - intros a b ea eb x y Ha' Hb'.
    destruct (same_core_entry _ _ a ea (same_core_sym _ _ C1) Ha') as (ea0 & Ea & _ & Pa & _).
    destruct (same_core_entry _ _ b eb (same_core_sym _ _ C1) Hb') as (eb0 & Eb & _ & Pb & _).
    unfold elen. rewrite <- Pa, <- Pb. by apply (Hn a b ea0 eb0).
  - intros a b ea eb Ha' Hb'.
    destruct (same_core_entry _ _ a ea (same_core_sym _ _ C1) Ha') as (ea0 & Ea & Sa & _).
    destruct (same_core_entry _ _ b eb (same_core_sym _ _ C1) Hb') as (eb0 & Eb & Sb & _).
    rewrite <- Sa, <- Sb. by apply (Hd a b ea0 eb0).
  - done.
  - destruct Ho as [eo Ho]. destruct (same_core_entry _ _ o eo C1 Ho) as (e & He & _). eauto.
  - intros x Hx. apply Hs, elem_of_cons. by right.
  - exists pl2. split_and!; [done|by eapply same_core_trans|]. split; [|apply J2].
    intros x Hx. destruct (in_chain pl2 _ J2 x Hx) as (L' & HC' & HS' & K1 & K2 & K3).
    exists L'. split_and!; try done. intros [HP|Hin]; [auto|].
    apply elem_of_cons in Hin as [->|Hin]; auto.
Qed.
End Install.

(** ** Uninstalling *)

Section Uninstall.
Context (aff : nat -> updptr -> Prop).
Context (o : nat) (I : list nat).

(** Between the slots of a removal of [o]: [o] may still hang in the slots that
    are not done. *)
Record removing (pl : prefix_list) (P : updptr -> Prop) : Prop := {
  rm_chain : forall s, is_slot s -> exists L, chain (heap pl) (head_of pl s) L
    /\ StronglySorted (before (heap pl)) L
    /\ (forall id, id ∈ L -> id ∈ o :: I /\ aff id s)
    /\ (forall id, id ∈ I -> aff id s -> id ∈ L)
    /\ (P s -> o ∉ L)
}.

Lemma uninstall_walk_spec pl : forall L fuel u c,
  load pl u = Ret c -> chain (heap pl) c L -> (length L < fuel)%nat ->
  ((o ∉ L) /\ uninstall_walk fuel pl o u = Ret None)
  \/ exists A B, L = A ++ o :: B /\ (o ∉ A) /\ uninstall_walk fuel pl o u = Ret (Some (after u A)).
Proof.
  induction L as [|x L IH]; intros fuel u c Hl Hc Hf;
    (destruct fuel as [|fuel]; [simpl in Hf; lia|]); cbn [uninstall_walk]; rewrite Hl; simpl in Hc.
  - subst c. left. split; [apply not_elem_of_nil|done].
  - destruct Hc as (-> & ex & Hx & Hc). cbn [mbind outcome_bind].
    destruct (Nat.eqb_spec x o) as [->|Hne].
    { right. exists [], L. split_and!; [done|apply not_elem_of_nil|done]. }
    destruct (IH fuel (NextBest x) (next_best ex)) as [[Hno E]|(A & B & -> & HA & E)];
      [simpl; unfold entry; by rewrite Hx|done|simpl in Hf; lia| |].
    + left. split; [rewrite elem_of_cons; intros [->|]; done|done].
    + right. exists (x :: A), B. rewrite after_cons. split_and!; try done.
      rewrite elem_of_cons. intros [->|]; done.
Qed.

Section Step.
Context (pl : prefix_list) (P : updptr -> Prop) (J : removing pl P).
Context (HoI : o ∉ I) (eo : prefix_list_entry) (Ho : heap pl !! o = Some eo).
Context (s0 : updptr) (Hs0 : is_slot s0).
Context (A B : list nat) (HC : chain (heap pl) (head_of pl s0) (A ++ o :: B))
  (HS : StronglySorted (before (heap pl)) (A ++ o :: B)).

Definition unhung : prefix_list := store (after s0 A) (next_best eo) pl.

Lemma after_cases :
  (A = [] /\ after s0 A = s0) \/ exists A0 a, A = A0 ++ [a] /\ after s0 A = NextBest a.
Proof.
  unfold after. destruct (rev A) as [|a r] eqn:E.
  - left. split; [|done]. apply (f_equal (@rev nat)) in E. by rewrite rev_involutive in E.
  - right. exists (rev r), a. split; [|done]. by rewrite <- (rev_involutive A), E.
Qed.

Lemma unhung_keeps x : x ∉ A -> heap unhung !! x = heap pl !! x.
Proof.
  intros Hx. unfold unhung. destruct after_cases as [[_ ->]|(A0 & a & EA & ->)]; [by destruct s0|].
  simpl. rewrite lookup_set_next, decide_False; [done|]. intros ->. apply Hx. rewrite EA.
  apply elem_of_app. right. by apply list_elem_of_singleton.
Qed.

Lemma object_tail : chain (heap pl) (next_best eo) B.
Proof. destruct (chain_tail _ _ _ _ _ HC) as (e & He & H). by assert (e = eo) as -> by congruence. Qed.

(** A chain, before and after [o] was taken out at slot [s0]. *)
Lemma unhung_slot s L :
  is_slot s -> chain (heap pl) (head_of pl s) L -> StronglySorted (before (heap pl)) L ->
  exists L', chain (heap unhung) (head_of unhung s) L'
    /\ ((L' = L /\ s <> s0) \/ exists X, L = X ++ o :: B /\ L' = X ++ B).
Proof.
  intros Hs HCs HSs. unfold unhung. destruct after_cases as [[EA ->]|(A0 & a & EA & ->)].
  - assert (heap (store s0 (next_best eo) pl) = heap pl) as Eh by (by destruct s0).
    rewrite head_of_store, Eh by done. destruct (decide (s = s0)) as [Es|Es].
    + pose proof HCs as HC2. rewrite Es in HC2. pose proof (chain_det _ _ _ _ HC HC2) as EL.
      rewrite EA in EL. simpl in EL. exists B. split; [exact object_tail|]. right. exists []. by rewrite <- EL.
    + exists L. split; [done|]. by left.
  - rewrite head_of_store_next. simpl heap.
    assert (a ∈ A) as HaA by (rewrite EA; apply elem_of_app; right; by apply list_elem_of_singleton).
    pose proof HC as HC2. rewrite EA, <- app_assoc in HC2. simpl in HC2.
    destruct (chain_tail _ _ _ _ _ HC2) as (ea & Hea & HCa).
    assert (forall x, x ∈ o :: B -> x <> a) as HaB.
    { intros x Hx ->. apply sorted_app_inv in HS as (_ & _ & H). by apply (before_irr (heap pl) a), H. }
    assert (forall x e, x <> a -> heap pl !! x = Some e -> exists e2,
      alter (set_next (next_best eo)) a (heap pl) !! x = Some e2 /\ next_best e2 = next_best e) as Hk.
    { intros x e Hx He. rewrite lookup_set_next, decide_False by done. eauto. }
    destruct (decide (a ∈ L)) as [Hin|Hno].
    + destruct (elem_split a L Hin) as (X & Y & EL). pose proof HCs as HC3. rewrite EL in HC3.
      destruct (chain_tail _ _ _ _ _ HC3) as (ea' & Hea' & HCt). assert (ea' = ea) as -> by congruence.
      pose proof (chain_det _ _ _ _ HCa HCt) as EY. subst Y. exists (X ++ a :: B). split.
      * apply (chain_redirect (heap pl) _ X a _ (o :: B)); [done| |].
        -- intros x e Hx. apply Hk. intros ->. rewrite EL in HSs.
           apply sorted_app_inv in HSs as (_ & _ & H).
           apply (before_irr (heap pl) a), H; [done|]. apply elem_of_cons. by left.
        -- exists (set_next (next_best eo) ea). split.
           { by rewrite lookup_set_next, decide_True, Hea. }
           simpl. eapply chain_frame; [exact object_tail|]. intros x e Hx. apply Hk, HaB.
           apply elem_of_cons. by right.
      * right. exists (X ++ [a]). by rewrite <- !app_assoc.
    + exists L. split.
      * eapply chain_frame; [exact HCs|]. intros x e Hx. apply Hk. congruence.
      * left. split; [done|]. intros Es. apply Hno. pose proof HCs as HC3. rewrite Es in HC3.
        rewrite <- (chain_det _ _ _ _ HC HC3). apply elem_of_app. by left.
Qed.

Lemma unhung_removing : removing unhung (fun s => P s \/ s = s0).
Proof.
  assert (same_core pl unhung) as SC by apply store_core. split.
  intros s Hs. destruct (rm_chain pl P J s Hs) as (L & HCs & HSs & H1 & H2 & H3).
  destruct (unhung_slot s L Hs HCs HSs) as (L' & HC' & [[-> Hne]|(X & EL & ->)]).
  - exists L. split; [done|]. split; [by apply (sorted_core _ _ _ SC)|]. split_and!; try done.
    intros [HP|?]; [auto|done].
  - exists (X ++ B). split; [done|]. rewrite EL in HSs. split; [|split_and!].
    + apply (sorted_core _ _ _ SC). by eapply sorted_remove.
    + intros id Hid. apply H1. rewrite EL. apply elem_of_app in Hid as [?|?]; apply elem_of_app; [by left|].
      right. apply elem_of_cons. by right.
    + intros id Hid Ha. pose proof (H2 id Hid Ha) as Hin. rewrite EL in Hin.
      apply elem_of_app in Hin as [?|Hin]; apply elem_of_app; [by left|right].
      apply elem_of_cons in Hin as [->|]; done.
    + intros _ Hin. apply sorted_app_inv in HSs as (_ & S2 & H).
      apply elem_of_app in Hin as [Hin|Hin].
      * apply (before_irr (heap pl) o), H; [done|]. apply elem_of_cons. by left.
      * by apply (sorted_not_in _ (before_irr (heap pl)) o B S2).
Qed.
End Step.

Lemma trie_uninstall_fn_spec pl P s0 :
  removing pl P -> o ∉ I -> is_slot s0 ->
  exists pl', trie_uninstall_fn o s0 pl = Ret pl' /\ same_core pl pl'
    /\ removing pl' (fun s => P s \/ s = s0)
    /\ forall x, x ∉ o :: I -> heap pl' !! x = heap pl !! x.
Proof.
  intros J HoI Hs0. destruct (rm_chain pl P J s0 Hs0) as (L & HC & HS & H1 & H2 & H3).
  unfold trie_uninstall_fn.
  destruct (uninstall_walk_spec pl L (chain_fuel pl) s0 (head_of pl s0))
    as [[Hno E]|(A & B & EL & HA & E)]; [by apply load_slot|done| | |]; try rewrite E.
  - pose proof (chain_length _ _ _ HC HS). unfold chain_fuel. lia.
  - exists pl. split_and!; [done|apply same_core_refl| |done]. split. intros s Hs.
    destruct (rm_chain pl P J s Hs) as (L' & HC' & HS' & K1 & K2 & K3).
    exists L'. split_and!; try done. intros [HP| ->]; [auto|].
    by rewrite (chain_det _ _ _ _ HC' HC).
  - subst L. destruct (chain_tail _ _ _ _ _ HC) as (eo & Ho & _).
    cbn [mbind outcome_bind]. unfold entry. rewrite Ho. cbn [mbind outcome_bind].
    exists (unhung pl eo s0 A). split_and!; [done|apply store_core| |].
    + by apply (unhung_removing pl P J HoI eo Ho s0 Hs0 A B).
    + intros x Hx. eapply unhung_keeps; [done..|]. intros Hin. apply Hx, H1, elem_of_app. by left.
Qed.

Lemma uninstall_all slots : forall pl P,
  removing pl P -> o ∉ I -> (forall s, s ∈ slots -> is_slot s) ->
  exists pl', trie_walk_affected slots (trie_uninstall_fn o) pl = Ret pl' /\ same_core pl pl'
    /\ removing pl' (fun s => P s \/ s ∈ slots)
    /\ forall x, x ∉ o :: I -> heap pl' !! x = heap pl !! x.
Proof.
  induction slots as [|s slots IH]; intros pl P J HoI Hs; cbn [trie_walk_affected].
  { exists pl. split_and!; [done|apply same_core_refl| |done]. split. intros s Hs'.
    destruct (rm_chain pl P J s Hs') as (L' & HC' & HS' & K1 & K2 & K3).
    exists L'. split_and!; try done. intros [HP|Hin]; [auto|by apply elem_of_nil in Hin]. }
  assert (is_slot s) as Hsl by (apply Hs, elem_of_cons; by left).
  destruct (trie_uninstall_fn_spec pl P s J HoI Hsl) as (pl1 & -> & C1 & J1 & K1). cbn [mbind outcome_bind].
  destruct (IH pl1 _ J1 HoI) as (pl2 & -> & C2 & J2 & K2); [intros x Hx; apply Hs, elem_of_cons; by right|].
  exists pl2. split_and!; [done|by eapply same_core_trans| |].
  2: { intros x Hx. by rewrite K2, K1. }
  split. intros x Hx. destruct (rm_chain pl2 _ J2 x Hx) as (L' & HC' & HS' & M1 & M2 & M3).
  exists L'. split_and!; try done. intros [HP|Hin]; [auto|].
  apply elem_of_cons in Hin as [->|Hin]; auto.
Qed.
End Uninstall.
