(* ===== verification/PlistFacts.v ===== *)
(** * Correctness of prefix lists

    The trie finds what a walk over the list would find: [prefix_list_apply_ext]
    returns the matching entry with the lowest sequence number.  Adding and
    deleting entries keep list, trie and counters consistent. *)

From stdpp Require Import gmap.
From Stdlib Require Import Sorted.
From S2P Require Import Prelude Prefix TableFacts PrefixList PlistChains.

(** ** The geometry of the trie *)

(** How many levels the trie descends for a prefix of [v] bits. *)
Fixpoint levels (depth : nat) (v : Z) : nat :=
  match depth with
  | S (S _ as d) => if PLC_BITS <? v then S (levels d (v - PLC_BITS)) else 0
  | _ => 0
  end.

Lemma levels_SS d v :
  levels (S (S d)) v = if 8 <? v then S (levels (S d) (v - 8)) else 0%nat.
Proof. done. Qed.

Lemma levels_spec depth v :
  (levels depth v <= pred depth)%nat
  /\ (levels depth v <> 0%nat -> 8 * Z.of_nat (levels depth v) < v)
  /\ (v - 8 * Z.of_nat (levels depth v) <= 8 \/ levels depth v = pred depth).
Proof.
  revert v. induction depth as [|d IH]; intros v; [simpl; lia|].
  destruct d as [|d]; [simpl; lia|]. rewrite levels_SS.
  destruct (Z.ltb_spec 8 v) as [Hv|Hv]; [|simpl; lia].
  specialize (IH (v - 8)). revert IH. generalize (levels (S d) (v - 8)). intros n (H1 & H2 & H3).
  rewrite Nat2Z.inj_succ. simpl Nat.pred in H1, H3 |- *. split_and!; [lia| |destruct H3; [left|right]; lia].
  intros _. destruct n; [lia|]. specialize (H2 ltac:(lia)). lia.
Qed.

(** The bytes that lead to the table at level [n]. *)
Lemma drop_cons_byte (l : list Z) n :
  (n < length l)%nat -> take n l ++ [byte_at (drop n l) 0] = take (S n) l.
Proof.
  intros H. destruct (lookup_lt_is_Some_2 l n H) as [b Hb].
  rewrite (take_S_r l n b Hb). f_equal. unfold byte_at. rewrite lookup_drop, Nat.add_0_r, Hb. done.
Qed.

(** The tables a descent passes. *)
Fixpoint path_tables (n : nat) (bytes : list Z) (done_ : nat) : gset (list Z) :=
  match n with
  | O => ∅
  | S n => {[take (S done_) bytes]} ∪ path_tables n bytes (S done_)
  end.

Lemma elem_path_tables n bytes : forall j k,
  k ∈ path_tables n bytes j <-> exists i, (j < i <= j + n)%nat /\ k = take i bytes.
Proof.
  induction n as [|n IH]; intros j k; simpl.
  - split; [intros H; by apply not_elem_of_empty in H|]. intros (i & ? & _). lia.
  - rewrite elem_of_union, elem_of_singleton, IH. split.
    + intros [->|(i & Hi & ->)]; [exists (S j); split; [lia|done]|exists i; split; [lia|done]].
    + intros (i & Hi & ->). destruct (decide (i = S j)) as [->|]; [by left|right; exists i; split; [lia|done]].
Qed.

Lemma trie_add_loop_SS d v bytes path pl :
  trie_add_loop (S (S d)) v bytes path pl
  = if 8 <? v then trie_add_loop (S d) (v - 8) (drop 1 bytes) (path ++ [byte_at bytes 0])
                     (set_tables ({[path ++ [byte_at bytes 0]]} ∪ tables pl) pl)
    else (v, bytes, path, pl).
Proof. done. Qed.

Lemma trie_del_loop_SS d v bytes path pl :
  trie_del_loop (S (S d)) v bytes path pl
  = if 8 <? v then assert! (bool_decide (path ++ [byte_at bytes 0] ∈ tables pl)) ;;
                   trie_del_loop (S d) (v - 8) (drop 1 bytes) (path ++ [byte_at bytes 0]) pl
    else Ret (v, bytes, path).
Proof. done. Qed.

Lemma trie_add_loop_spec bytes depth : forall v j pl,
  (j + pred depth < length bytes)%nat ->
  trie_add_loop depth v (drop j bytes) (take j bytes) pl
  = (v - 8 * Z.of_nat (levels depth v), drop (j + levels depth v) bytes,
     take (j + levels depth v) bytes,
     set_tables (path_tables (levels depth v) bytes j ∪ tables pl) pl).
Proof.
  assert (forall pl j v, (v, drop j bytes, take j bytes, pl)
    = (v - 8 * Z.of_nat 0, drop (j + 0) bytes, take (j + 0) bytes,
       set_tables (path_tables 0 bytes j ∪ tables pl) pl)) as Base.
  { intros pl j v. rewrite Nat.add_0_r, Z.mul_0_r, Z.sub_0_r. simpl.
    rewrite (left_id_L ∅ (∪)). by destruct pl. }
  induction depth as [|d IH]; intros v j pl Hj; [apply Base|].
  destruct d as [|d]; [apply Base|]. rewrite levels_SS, trie_add_loop_SS.
  destruct (Z.ltb_spec 8 v); [|apply Base].
  rewrite drop_drop, drop_cons_byte by (simpl in Hj; lia). rewrite Nat.add_1_r.
  rewrite IH by (simpl in *; lia). set (lv := levels (S d) (v - 8)).
  replace (j + S lv)%nat with (S j + lv)%nat by lia. 
  replace (v - 8 * Z.of_nat (S lv)) with (v - 8 - 8 * Z.of_nat lv) by lia. f_equal.
  - unfold set_tables. simpl. f_equal. set_solver.
Qed.

Lemma trie_del_loop_spec bytes pl depth : forall v j,
  (j + pred depth < length bytes)%nat ->
  (forall i, (j < i <= j + levels depth v)%nat -> take i bytes ∈ tables pl) ->
  trie_del_loop depth v (drop j bytes) (take j bytes) pl
  = Ret (v - 8 * Z.of_nat (levels depth v), drop (j + levels depth v) bytes,
         take (j + levels depth v) bytes).
Proof.
  assert (forall j v, Ret (v, drop j bytes, take j bytes)
    = Ret (v - 8 * Z.of_nat 0, drop (j + 0) bytes, take (j + 0) bytes)) as Base.
  { intros j v. by rewrite Nat.add_0_r, Z.mul_0_r, Z.sub_0_r. }
  induction depth as [|d IH]; intros v j Hj Ht; [apply Base|].
  destruct d as [|d]; [apply Base|]. rewrite levels_SS in *. rewrite trie_del_loop_SS.
  destruct (Z.ltb_spec 8 v); [|apply Base].
  rewrite drop_drop, drop_cons_byte by (simpl in Hj; lia). rewrite Nat.add_1_r.
  rewrite bool_decide_true by (apply Ht; lia).
  rewrite IH; [|simpl in *; lia|intros i Hi; apply Ht; lia].
  set (lv := levels (S d) (v - 8)).
  replace (j + S lv)%nat with (S j + lv)%nat by lia. 
  by replace (v - 8 * Z.of_nat (S lv)) with (v - 8 - 8 * Z.of_nat lv) by lia.
Qed.

(** Prefix [p] affects slot [s]. *)
Definition aff (depth : nat) (p : prefix) (s : updptr) : Prop :=
  let lv := levels depth (prefixlen p) in
  let v := prefixlen p - 8 * Z.of_nat lv in
  match s with
  | UpChain k => v <= 8 /\ exists b, k = take lv (val p) ++ [b] /\ is_byte b
                   /\ b / 2 ^ (8 - v) = byte_at (val p) lv / 2 ^ (8 - v)
  | FinalChain k => 8 < v /\ k = take (S lv) (val p)
  | NextBest _ => False
  end.

Definition depth_ok (depth : nat) : Prop := (1 <= depth <= 4)%nat.

Lemma levels_room depth p :
  depth_ok depth -> ip_prefix p -> (levels depth (prefixlen p) < length (val p))%nat
  /\ (pred depth < length (val p))%nat
  /\ 0 <= prefixlen p - 8 * Z.of_nat (levels depth (prefixlen p)).
Proof.
  intros Hd Hp. destruct (levels_spec depth (prefixlen p)) as (H1 & H2 & _).
  pose proof (ip_size p Hp) as Hs. pose proof (ip_len p Hp). unfold depth_ok, addr_len in *.
  assert (4 <= length (val p))%nat by (case_bool; lia).
  split_and!; lia.
Qed.

(** Prefixes that share a slot nest: the shorter one affects every slot of the
    longer one. *)
Lemma aff_nested depth p q s s' :
  depth_ok depth -> ip_prefix p -> ip_prefix q -> prefixlen q <= prefixlen p ->
  aff depth p s -> aff depth q s -> aff depth p s' -> aff depth q s'.
Proof.
  intros Hd Hp Hq Hle. destruct (levels_room depth p Hd Hp) as (Lp & _ & Vp).
  destruct (levels_room depth q Hd Hq) as (Lq & _ & Vq). unfold aff.
  set (lp := levels depth (prefixlen p)) in *. set (lq := levels depth (prefixlen q)) in *.
  destruct s as [k|k|]; [| |done].
  - intros (Hv & b & Ek & Hb & Eb) (Hw & c & Ec & Hc & Eq).
    rewrite Ek in Ec. apply app_inj_tail in Ec as [Et <-].
    assert (lp = lq) as El.
    { apply (f_equal length) in Et. rewrite !length_take in Et. lia. }
    destruct s' as [k'|k'|]; [|lia|done]. intros (_ & b' & -> & Hb' & Eb'). split; [done|].
    exists b'. split; [by rewrite Et|]. split; [done|].
    set (m := 8 - (prefixlen p - 8 * Z.of_nat lp)) in *.
    assert (forall x, x / 2 ^ (8 - (prefixlen q - 8 * Z.of_nat lq))
      = x / 2 ^ m / 2 ^ (prefixlen p - prefixlen q)) as Hx.
    { intros x. rewrite Z.div_div by (try apply Z.pow_pos_nonneg; try apply Z.pow_nonzero; lia).
      rewrite <- Z.pow_add_r by (unfold m; lia). do 2 f_equal. unfold m. lia. }
    rewrite !Hx in Eq |- *. congruence.
  - intros (Hv & Ek) (Hw & Ek2). destruct s' as [k'|k'|]; [lia| |done].
    intros (_ & ->). split; [done|]. congruence.
Qed.

(** The slots [trie_walk_affected] visits for a masked prefix are the ones it
    affects. *)
Lemma low_bits_zero p lv v :
  ip_prefix p -> masked p -> prefixlen p = 8 * Z.of_nat lv + v -> 0 <= v <= 8 ->
  (lv < length (val p))%nat -> byte_at (val p) lv mod 2 ^ (8 - v) = 0.
Proof.
  intros Hp Hm Hl Hv Hlv. apply Z.bits_inj'. intros j Hj. rewrite Z.bits_0.
  destruct (Z.lt_ge_cases j (8 - v)) as [H|H]; [|by rewrite Z.mod_pow2_bits_high by lia].
  rewrite Z.mod_pow2_bits_low by lia. specialize (Hm (Z.of_nat lv * 8 + (7 - j))).
  rewrite addr_bit_at, Nat2Z.id in Hm by lia. replace (7 - (7 - j)) with j in Hm by lia.
  apply Hm. pose proof (ip_size p Hp). lia.
Qed.

Lemma block_member b m x :
  0 <= m -> b mod 2 ^ m = 0 -> b <= x < b + 2 ^ m <-> x / 2 ^ m = b / 2 ^ m.
Proof.
  intros Hm Hb. assert (0 < 2 ^ m) as Hp by (apply Z.pow_pos_nonneg; lia).
  generalize dependent (2 ^ m). intros M Hb HM.
  pose proof (Z.div_mod b M ltac:(lia)). pose proof (Z.div_mod x M ltac:(lia)).
  pose proof (Z.mod_pos_bound x M HM). split; [|nia].
  intros Hx. symmetry. apply (Z.div_unique x M (b / M) (x - b)); lia.
Qed.

Lemma affected_spec depth p s :
  depth_ok depth -> ip_prefix p -> masked p ->
  let lv := levels depth (prefixlen p) in
  s ∈ affected (prefixlen p - 8 * Z.of_nat lv) (take lv (val p)) (byte_at (drop lv (val p)) 0)
  <-> aff depth p s.
Proof.
  intros Hd Hp Hm. cbv zeta. destruct (levels_room depth p Hd Hp) as (Hlv & _ & Hv). unfold aff.
  set (lv := levels depth (prefixlen p)) in *. set (v := prefixlen p - 8 * Z.of_nat lv) in *.
  unfold affected, PLC_BITS. rewrite byte_at_drop, Nat.add_0_r.
  destruct (Z.ltb_spec 8 v) as [H8|H8].
  - rewrite list_elem_of_singleton.
    replace (take lv (val p) ++ [byte_at (val p) lv]) with (take (S lv) (val p)).
    2: { rewrite <- drop_cons_byte, byte_at_drop, Nat.add_0_r by done. done. }
    destruct s as [k|k|]; split; try done; try lia; [by intros [= ->]|by intros [_ ->]].
  - assert (byte_at (val p) lv mod 2 ^ (8 - v) = 0) as Hz by (apply low_bits_zero; try done; lia).
    pose proof (byte_at_range (val p) lv (ip_bytes p Hp)) as Hb.
    set (b := byte_at (val p) lv) in *. assert (0 < 2 ^ (8 - v)) as Hpos by (apply Z.pow_pos_nonneg; lia).
    assert (Z.land b (Z.lnot (2 ^ (8 - v) - 1)) = b) as ->.
    { replace (2 ^ (8 - v) - 1) with (Z.ones (8 - v)) by (rewrite Z.ones_equiv; lia).
      rewrite <- Z.ldiff_land, Z.ldiff_ones_r, Z.shiftl_mul_pow2, Z.shiftr_div_pow2 by lia.
      pose proof (Z.div_mod b (2 ^ (8 - v)) ltac:(lia)). lia. }
    rewrite list_elem_of_In, List.in_map_iff. split.
    + intros (i & <- & Hi%List.in_seq). split; [lia|]. exists (b + Z.of_nat i).
      rewrite <- (block_member b (8 - v)) by (done || lia). split; [done|]. split; [|lia].
      split; [unfold is_byte in Hb; lia|]. pose proof (Z.div_mod b (2 ^ (8 - v)) ltac:(lia)) as Hdm.
      assert (256 = 2 ^ (8 - v) * 2 ^ v) as E by (rewrite <- Z.pow_add_r by lia; by replace (8 - v + v) with 8 by lia).
      unfold is_byte in Hb. assert (b / 2 ^ (8 - v) < 2 ^ v) by (apply Z.div_lt_upper_bound; lia). nia.
    + destruct s as [k|k|]; [|lia|done]. intros (_ & x & -> & Hx & Ex).
      rewrite <- (block_member b (8 - v)) in Ex by (done || lia). exists (Z.to_nat (x - b)). split.
      * rewrite Z2Nat.id by lia. by replace (b + (x - b)) with x by lia.
      * apply List.in_seq. lia.
Qed.

(** Where a prefix that [p] matches hangs. *)
Lemma agree_byte_eq len a b i :
  bytes a -> bytes b -> agree len a b -> 8 * Z.of_nat (S i) <= len -> byte_at a i = byte_at b i.
Proof.
  intros Ha Hb H Hl. apply byte_eq_bits; [by apply byte_at_range..|]. intros k Hk.
  specialize (H (Z.of_nat i * 8 + k)). rewrite !addr_bit_at, Nat2Z.id in H by lia. apply H. lia.
Qed.

Lemma agree_take len a b i :
  bytes a -> bytes b -> agree len a b -> 8 * Z.of_nat i <= len ->
  (i <= length a)%nat -> (i <= length b)%nat -> take i a = take i b.
Proof.
  intros Ha Hb H. induction i as [|i IH]; intros Hl La Lb; [done|].
  rewrite <- !(drop_cons_byte _ i), IH, !byte_at_drop, Nat.add_0_r by lia.
  by rewrite (agree_byte_eq len a b i) by (done || lia).
Qed.

Lemma agree_byte_div len a b i v :
  bytes a -> bytes b -> agree len a b -> len = 8 * Z.of_nat i + v -> 0 <= v <= 8 ->
  byte_at b i / 2 ^ (8 - v) = byte_at a i / 2 ^ (8 - v).
Proof.
  intros Ha Hb H -> Hv. apply Z.bits_inj'. intros j Hj. rewrite !Z.div_pow2_bits by lia.
  destruct (Z.lt_ge_cases (j + (8 - v)) 8).
  - specialize (H (Z.of_nat i * 8 + (7 - (j + (8 - v))))).
    rewrite !addr_bit_at, Nat2Z.id in H by lia.
    replace (7 - (7 - (j + (8 - v)))) with (j + (8 - v)) in H by lia. symmetry. apply H. lia.
  - rewrite !byte_bits_high by (done || by apply byte_at_range). done.
Qed.

Lemma matched_slot depth q p :
  depth_ok depth -> ip_prefix q -> ip_prefix p -> family q = family p ->
  covers_prefix q p ->
  let lv := levels depth (prefixlen q) in
  (prefixlen q - 8 * Z.of_nat lv <= 8 -> aff depth q (UpChain (take (S lv) (val p))))
  /\ (8 < prefixlen q - 8 * Z.of_nat lv -> aff depth q (FinalChain (take (S lv) (val p))))
  /\ forall i, (i <= lv)%nat -> take i (val q) = take i (val p).
Proof.
  intros Hd Hq Hp Hf [Hle Hag]. cbv zeta. destruct (levels_room depth q Hd Hq) as (Hlv & _ & Hv).
  pose proof (ip_size q Hq) as Sq. pose proof (ip_size p Hp) as Sp.
  rewrite Hf in Sq. unfold aff. set (lv := levels depth (prefixlen q)) in *.
  assert (forall i, 8 * Z.of_nat i <= prefixlen q -> (i <= S lv)%nat -> take i (val q) = take i (val p)) as Ht.
  { intros i Hi Hl. eapply agree_take; eauto using ip_bytes; lia. }
  split_and!.
  - intros H8. split; [done|]. exists (byte_at (val p) lv). split_and!.
    + rewrite Ht by lia. rewrite <- (drop_cons_byte (val p)), byte_at_drop, Nat.add_0_r by lia. done.
    + apply byte_at_range, Hp.
    + eapply agree_byte_div; eauto using ip_bytes; lia.
  - intros H8. split; [done|]. symmetry. apply Ht; lia.
  - intros i Hi. apply Ht; lia.
Qed.

(** ** The invariant *)

Definition affid (depth : nat) (h : gmap nat prefix_list_entry) (id : nat) (s : updptr) : Prop :=
  exists e, h !! id = Some e /\ ip_prefix (ple_prefix e) /\ aff depth (ple_prefix e) s.

(** Every slot heads the chain of the entries of [I] that affect it. *)
Definition chains (I : list nat) (pl : prefix_list) : Prop :=
  forall s, is_slot s -> exists L, chain (heap pl) (head_of pl s) L
    /\ StronglySorted (before (heap pl)) L
    /\ forall id, id ∈ L <-> id ∈ I /\ affid (trie_depth pl) (heap pl) id s.

(** The tables on the way to the slots of the entries of [I] exist. *)
Definition tabled (I : list nat) (pl : prefix_list) : Prop :=
  forall id e i, id ∈ I -> heap pl !! id = Some e ->
    (1 <= i <= levels (trie_depth pl) (elen e))%nat -> take i (val (ple_prefix e)) ∈ tables pl.

Definition stored (f : Z) (I : list nat) (pl : prefix_list) : Prop :=
  forall id, id ∈ I -> exists e, heap pl !! id = Some e /\ okp f (ple_prefix e).

Definition seq_lt (h : gmap nat prefix_list_entry) (a b : nat) : Prop :=
  exists ea eb, h !! a = Some ea /\ h !! b = Some eb /\ seq ea < seq eb.

(** A consistent prefix list of family [f]. *)
Record wf_plist (f : Z) (pl : prefix_list) : Prop := {
  wf_depth : depth_ok (trie_depth pl);
  wf_stored : stored f (items pl) pl;
  wf_sorted : StronglySorted (seq_lt (heap pl)) (items pl);
  wf_chains : chains (items pl) pl;
  wf_tables : tabled (items pl) pl;
  wf_count : count pl = Z.of_nat (length (items pl))
}.

(** ** Matching *)

Definition matches (pl : prefix_list) (p : prefix) (am : bool) (id : nat) : bool :=
  match heap pl !! id with Some e => prefix_list_entry_match e p am | None => false end.

(** The reference: walk the list in the order of the sequence numbers. *)
Definition linear_apply (pl : prefix_list) (p : prefix) (am : bool)
  : outcome (prefix_list_type * option nat * option prefix_list) :=
  match items pl with
  | [] => Ret (PREFIX_PERMIT, None, Some pl)
  | _ =>
      match List.find (matches pl p am) (items pl) with
      | None => Ret (PREFIX_DENY, None, Some pl)
      | Some id =>
          e ← entry pl id;
          Ret (ple_type e, Some id,
               Some (set_heap (alter (fun e => set_hits (u64 (hitcnt e + 1)) e) id (heap pl)) pl))
      end
  end.

Lemma entry_some pl id e : heap pl !! id = Some e -> entry pl id = Ret e.
Proof. unfold entry. by intros ->. Qed.

Section Apply.
Context (f : Z) (pl : prefix_list) (W : wf_plist f pl).
Context (p : prefix) (Hp : ip_prefix p) (am : bool).

Lemma item_entry id : id ∈ items pl -> exists e, heap pl !! id = Some e /\ okp f (ple_prefix e).
Proof. apply (wf_stored f pl W). Qed.

Definition seq_le (a b : nat) : Prop :=
  forall ea eb, heap pl !! a = Some ea -> heap pl !! b = Some eb -> seq ea <= seq eb.

(** [r] is the best match among the entries [V]. *)
Definition best (V : nat -> Prop) (r : option nat) : Prop :=
  match r with
  | None => forall id, id ∈ items pl -> V id -> matches pl p am id = false
  | Some b => b ∈ items pl /\ matches pl p am b = true
      /\ forall id, id ∈ items pl -> V id -> matches pl p am id = true -> seq_le b id
  end.

Lemma best_weaken V V' r : (forall id, id ∈ items pl -> matches pl p am id = true -> V' id -> V id) ->
  best V r -> best V' r.
Proof.
  intros H. destruct r as [b|]; simpl.
  - intros (? & ? & K). split_and!; try done. intros id ? ? ?. apply K; eauto.
  - intros K id Hi Hv. destruct (matches pl p am id) eqn:E; [|done]. rewrite <- E. apply K; eauto.
Qed.

Lemma best_in_chain_spec L : forall fuel c V r,
  chain (heap pl) c L -> (forall id, id ∈ L -> id ∈ items pl) -> (length L < fuel)%nat -> best V r ->
  exists r', best_in_chain fuel pl p am c r = Ret r' /\ best (fun id => V id \/ id ∈ L) r'.
Proof.
  induction L as [|x L IH]; intros fuel c V r HC HL Hf Hb;
    (destruct fuel as [|fuel]; [simpl in Hf; lia|]); cbn [best_in_chain].
  - simpl in HC. subst c. exists r. split; [done|]. eapply best_weaken; [|exact Hb].
    intros id _ _ [?|Hin]; [done|by apply elem_of_nil in Hin].
  - destruct HC as (-> & e & He & HC). rewrite (entry_some pl x e He). cbn [mbind outcome_bind].
    assert (x ∈ items pl) as Hx by (apply HL, elem_of_cons; by left).
    assert (forall id, id ∈ L -> id ∈ items pl) as HL' by (intros; apply HL, elem_of_cons; by right).
    assert (matches pl p am x = prefix_list_entry_match e p am) as Hm by (unfold matches; by rewrite He).
    assert (forall r', best (fun id => V id \/ id = x) r' ->
      exists r2, best_in_chain fuel pl p am (next_best e) r' = Ret r2
        /\ best (fun id => V id \/ id ∈ x :: L) r2) as Go.
    { intros r' Hr'. destruct (IH fuel (next_best e) _ r' HC HL' ltac:(simpl in Hf; lia) Hr') as (r2 & E & H2).
      exists r2. split; [done|]. eapply best_weaken; [|exact H2].
      intros id _ _ [?|[->|?]%elem_of_cons]; tauto. }
    destruct r as [b|].
    + destruct Hb as (Hbi & Hbm & Hb). destruct (item_entry b Hbi) as (eb & Heb & _).
      rewrite (entry_some pl b eb Heb). cbn [mbind outcome_bind]. apply Go.
      destruct (Z.ltb_spec (seq eb) (seq e)) as [Hlt|Hge]; simpl.
      * split_and!; try done. intros id Hi [Hv| ->] Hmt; [auto|]. intros ea ex Ha Hxe.
        simplify_eq. lia.
      * rewrite <- Hm. destruct (matches pl p am x) eqn:Ex; simpl.
        -- split_and!; try done. intros id Hi [Hv| ->] Hmt ea ei Ha Hie; simplify_eq; [|lia].
           pose proof (Hb id Hi Hv Hmt eb ei Heb Hie). lia.
        -- split_and!; try done. intros id Hi [Hv| ->] Hmt; [auto|congruence].
    + cbn [mbind outcome_bind negb andb]. apply Go. rewrite <- Hm. destruct (matches pl p am x) eqn:Ex; simpl.
      * split_and!; try done. intros id Hi [Hv| ->] Hmt ea ei Ha Hie; [|simplify_eq; lia].
        rewrite (Hb id Hi Hv) in Hmt. done.
      * intros id Hi [Hv| ->]; [auto|done].
Qed.

(** Searching the chain of one slot. *)
Lemma best_in_slot s V r :
  is_slot s -> best V r ->
  exists r', best_in_chain (chain_fuel pl) pl p am (head_of pl s) r = Ret r'
    /\ best (fun id => V id \/ affid (trie_depth pl) (heap pl) id s) r'.
Proof.
  intros Hs Hb. destruct (wf_chains f pl W s Hs) as (L & HC & HS & HL).
  destruct (best_in_chain_spec L (chain_fuel pl) _ V r HC) as (r' & E & Hr'); [|  |done|].
  - intros id Hid. by apply HL.
  - pose proof (chain_length _ _ _ HC HS). unfold chain_fuel. lia.
  - exists r'. split; [done|]. eapply best_weaken; [|exact Hr']. intros id Hi _ [?|?]; [by left|].
    right. apply HL. by split.
Qed.

(** What a match says about the place of the entry. *)
Lemma matched_entry id : id ∈ items pl -> matches pl p am id = true ->
  exists e, heap pl !! id = Some e
  /\ let lv := levels (trie_depth pl) (elen e) in
     (elen e - 8 * Z.of_nat lv <= 8 ->
        affid (trie_depth pl) (heap pl) id (UpChain (take (S lv) (val p))))
     /\ (8 < elen e - 8 * Z.of_nat lv ->
        affid (trie_depth pl) (heap pl) id (FinalChain (take (S lv) (val p))))
     /\ (forall i, (1 <= i <= lv)%nat -> take i (val p) ∈ tables pl)
     /\ elen e <= prefixlen p /\ (lv <> 0%nat -> 8 * Z.of_nat lv < elen e)
     /\ (lv <= pred (trie_depth pl))%nat
     /\ (elen e - 8 * Z.of_nat lv <= 8 \/ lv = pred (trie_depth pl)).
Proof.
  intros Hi Hm. destruct (item_entry id Hi) as (e & He & Hip & Hmk & Hf). exists e. split; [done|].
  unfold matches in Hm. rewrite He in Hm. unfold prefix_list_entry_match in Hm.
  destruct (Z.eqb_spec (family (ple_prefix e)) (family p)) as [Hff|]; [|done]. simpl in Hm.
  destruct (prefix_match (ple_prefix e) p) eqn:Em; [|done]. clear Hm.
  assert (covers_prefix (ple_prefix e) p) as Hc by (apply (okp_match f); [by split_and!|done|done]).
  destruct (matched_slot (trie_depth pl) (ple_prefix e) p (wf_depth f pl W) Hip Hp Hff Hc) as (H1 & H2 & H3).
  destruct (levels_spec (trie_depth pl) (elen e)) as (K1 & K2 & K3). unfold elen in *. split_and!; try done.
  - intros H. exists e. auto.
  - intros H. exists e. auto.
  - intros i Hii. rewrite <- H3 by lia. by apply (wf_tables f pl W id e).
  - apply Hc.
Qed.

(** The entries found above level [j]. *)
Definition above (j : nat) (id : nat) : Prop :=
  exists e, heap pl !! id = Some e /\ (levels (trie_depth pl) (elen e) < j)%nat.

Lemma apply_loop_spec d : forall j r,
  trie_depth pl = (j + S d)%nat -> best (above j) r ->
  exists r', apply_loop (S d) pl p am (prefixlen p - 8 * Z.of_nat j) (drop j (val p)) (take j (val p)) r = Ret r'
    /\ best (fun _ => True) r'.
Proof.
  assert (4 <= length (val p))%nat as Hl4.
  { pose proof (ip_size p Hp) as Hs. unfold addr_len in Hs. destruct (family p =? AF_INET); lia. }
  pose proof (wf_depth f pl W) as HD. unfold depth_ok in HD.
  induction d as [|d IH]; intros j r Ej Hb; unfold apply_loop; fold apply_loop;
    rewrite drop_cons_byte by lia; cbv zeta;
    destruct (best_in_slot (UpChain (take (S j) (val p))) _ r Logic.I Hb) as (r1 & E1 & Hb1);
    simpl head_of in E1; rewrite E1; cbn [mbind outcome_bind]; unfold PLC_BITS;
    (destruct (Z.leb_spec (prefixlen p - 8 * Z.of_nat j) 8) as [Hv|Hv];
     [exists r1; split; [done|]; eapply best_weaken; [|exact Hb1]; intros id Hi Hm _;
      destruct (matched_entry id Hi Hm) as (e & He & M1 & M2 & M3 & M4 & M5 & M6 & M7);
      destruct (Nat.lt_trichotomy (levels (trie_depth pl) (elen e)) j) as [?|[Eq|?]];
        [left; by exists e|right; rewrite <- Eq; apply M1; lia|lia]|]).
  - destruct (best_in_slot (FinalChain (take (S j) (val p))) _ r1 Logic.I Hb1) as (r2 & E2 & Hb2).
    simpl head_of in E2. rewrite E2. exists r2. split; [done|]. eapply best_weaken; [|exact Hb2].
    intros id Hi Hm _. destruct (matched_entry id Hi Hm) as (e & He & M1 & M2 & M3 & M4 & M5 & M6 & M7).
    destruct (decide (levels (trie_depth pl) (elen e) = j)) as [Eq|].
    + destruct (Z.le_gt_cases (elen e - 8 * Z.of_nat j) 8); rewrite Eq in *;
        [left; right; apply M1; lia|right; apply M2; lia].
    + left. left. exists e. split; [done|]. lia.
  - case_bool_decide as Ht.
    + cbn [negb]. destruct (IH (S j) r1) as (r' & E & Hr'); [lia| |].
      * eapply best_weaken; [|exact Hb1]. intros id Hi Hm (e0 & He0 & Hlv).
        destruct (matched_entry id Hi Hm) as (e & He & M1 & M2 & M3 & M4 & M5 & M6 & M7).
        assert (e0 = e) as E0 by congruence. rewrite E0 in Hlv.
        destruct (decide (levels (trie_depth pl) (elen e) = j)) as [Eq|].
        -- right. rewrite <- Eq. apply M1. lia.
        -- left. exists e. split; [done|]. lia.
      * exists r'. split; [|done]. rewrite <- E. rewrite drop_drop, Nat.add_1_r.
        by replace (prefixlen p - 8 * Z.of_nat (S j)) with (prefixlen p - 8 * Z.of_nat j - 8) by lia.
    + cbn [negb]. exists r1. split; [done|]. eapply best_weaken; [|exact Hb1]. intros id Hi Hm _.
      destruct (matched_entry id Hi Hm) as (e & He & M1 & M2 & M3 & M4 & M5 & M6 & M7).
      destruct (Nat.lt_trichotomy (levels (trie_depth pl) (elen e)) j) as [?|[Eq|?]].
      * left. by exists e.
      * right. rewrite <- Eq. apply M1. lia.
      * exfalso. apply Ht, M3. lia.
Qed.

(** The best of all entries is the first one in the list. *)
Lemma find_sorted (P : nat -> bool) l b :
  StronglySorted (seq_lt (heap pl)) l -> b ∈ l -> P b = true ->
  (forall id, id ∈ l -> P id = true -> seq_le b id) -> List.find P l = Some b.
Proof.
  induction 1 as [|x l HS IH Hf]; intros Hb HP Hmin; [by apply elem_of_nil in Hb|]. simpl.
  destruct (P x) eqn:Ex.
  - apply elem_of_cons in Hb as [->|Hb]; [done|]. exfalso.
    rewrite List.Forall_forall in Hf. apply list_elem_of_In in Hb. destruct (Hf b Hb) as (ex & eb & Hx & Hbb & Hlt).
    assert (seq_le b x) as H by (apply Hmin; [apply elem_of_cons; by left|done]).
    specialize (H eb ex Hbb Hx). lia.
  - apply elem_of_cons in Hb as [->|Hb]; [congruence|]. apply IH; try done.
    intros id Hid. apply Hmin, elem_of_cons. by right.
Qed.

Lemma best_find r : best (fun _ => True) r -> List.find (matches pl p am) (items pl) = r.
Proof.
  destruct r as [b|]; simpl.
  - intros (Hi & Hm & H). apply find_sorted; [apply (wf_sorted f pl W)|done|done|]. auto.
  - intros H. destruct (List.find _ _) as [x|] eqn:E; [|done]. apply List.find_some in E as [Hin Hm].
    rewrite H in Hm; [done| |done]. by apply list_elem_of_In.
Qed.
End Apply.

(** C14: on a consistent list and for an IP prefix the trie search of [prefix_list_apply_ext]
    returns, with the same effect on the hit counter, what a walk over the list in
    the order of the sequence numbers returns: the type of the first matching entry,
    deny when none matches, permit when the list is empty; it never fails. *)
Theorem prefix_list_apply_linear f pl p am :
  wf_plist f pl -> ip_prefix p ->
  prefix_list_apply_ext (Some pl) p am = linear_apply pl p am
  /\ linear_apply pl p am <> Abort.
Proof.
  intros W Hp. unfold prefix_list_apply_ext, linear_apply. rewrite (wf_count f pl W).
  destruct (items pl) as [|i l] eqn:Ei; [done|]. rewrite <- Ei.
  destruct (Z.eqb_spec (Z.of_nat (length (items pl))) 0); [by rewrite Ei in *|].
  pose proof (wf_depth f pl W) as HD. unfold depth_ok in HD.
  destruct (apply_loop_spec f pl W p Hp am (pred (trie_depth pl)) 0 None) as (r & E & Hr);
    [lia|intros id _ (e & _ & ?); lia|].
  replace (S (pred (trie_depth pl))) with (trie_depth pl) in E by lia.
  rewrite Z.mul_0_r, Z.sub_0_r in E. change (drop 0 (val p)) with (val p) in E.
  change (take 0 (val p)) with (@nil Z) in E. rewrite E. cbn [mbind outcome_bind].
  rewrite (best_find f pl W p am r Hr). split; [done|].
  destruct r as [b|]; [|done]. destruct Hr as (Hb & _).
  destruct (item_entry f pl W b Hb) as (e & He & _). by rewrite (entry_some pl b e He).
Qed.
