(* ===== verification/PlistUpdate.v ===== *)
(** * Updating prefix lists

    Adding and deleting an entry keep the list, the trie and the counter of a
    prefix list consistent: the chains of all slots hold exactly the entries
    that affect them, and the tables on the way to every entry survive the
    freeing of empty tables. *)

From stdpp Require Import gmap.
From Stdlib Require Import Sorted.
From S2P Require Import Prelude Prefix TableFacts PrefixList PlistChains PlistFacts.

(** ** Frames *)

Lemma affid_core pl pl2 depth id s :
  same_core pl pl2 -> affid depth (heap pl) id s -> affid depth (heap pl2) id s.
Proof.
  intros C (e & He & Hp & Ha). destruct (same_core_entry _ _ id e C He) as (e2 & He2 & _ & Ep & _).
  exists e2. rewrite Ep. auto.
Qed.

Lemma affid_nested depth (h : gmap nat prefix_list_entry) :
  depth_ok depth -> nested (affid depth h) h.
Proof.
  intros Hd a b ea eb s s' Ha Hb Hle (e1 & H1 & P1 & A1) (e2 & H2 & P2 & A2) (e3 & H3 & P3 & A3).
  simplify_eq. exists eb. split_and!; try done.
  by apply (aff_nested depth (ple_prefix ea) (ple_prefix eb) s s').
Qed.

Lemma aff_is_slot depth p s : aff depth p s -> is_slot s.
Proof. by destruct s. Qed.

(** ** The trie *)

(** What an update leaves alone besides the trie. *)
Record kept (pl pl2 : prefix_list) : Prop := {
  kp_heap : forall id, core <$> heap pl2 !! id = core <$> heap pl !! id;
  kp_items : items pl2 = items pl;
  kp_count : count pl2 = count pl;
  kp_depth : trie_depth pl2 = trie_depth pl
}.

Lemma same_core_kept pl pl2 ts : same_core (set_tables ts pl) pl2 -> kept pl pl2.
Proof. intros [H1 H2 H3 H4 H5]. by split. Qed.

Lemma kept_entry pl pl2 id e :
  kept pl pl2 -> heap pl !! id = Some e ->
  exists e2, heap pl2 !! id = Some e2 /\ seq e2 = seq e /\ ple_prefix e2 = ple_prefix e
    /\ ple_type e2 = ple_type e /\ le e2 = le e /\ ge e2 = ge e /\ hitcnt e2 = hitcnt e.
Proof.
  intros K He. pose proof (kp_heap pl pl2 K id) as H. rewrite He in H.
  destruct (heap pl2 !! id) as [e2|]; [|done]. exists e2. split; [done|].
  simpl in H. injection H as ?. unfold core, set_next in *. simplify_eq. by split_and!.
Qed.

Lemma kept_sym pl pl2 : kept pl pl2 -> kept pl2 pl.
Proof. intros [? ? ? ?]. by split. Qed.

Lemma trie_add_spec f pl I o eo :
  depth_ok (trie_depth pl) -> chains I pl -> tabled I pl -> o ∉ I ->
  heap pl !! o = Some eo -> okp f (ple_prefix eo) -> next_best eo = None ->
  distinct o I (heap pl) ->
  exists pl2, prefix_list_trie_add o pl = Ret pl2 /\ kept pl pl2
    /\ chains (o :: I) pl2 /\ tabled (o :: I) pl2.
Proof.
  intros Hd HC HT HoI Ho (Hip & Hmk & _) Hnx Hdis. unfold prefix_list_trie_add.
  rewrite (entry_some pl o eo Ho). cbn [mbind outcome_bind].
  destruct (levels_room (trie_depth pl) _ Hd Hip) as (_ & Hroom & _).
  pose proof (trie_add_loop_spec (val (ple_prefix eo)) (trie_depth pl) (prefixlen (ple_prefix eo)) 0 pl Hroom) as E.
  change (drop 0 (val (ple_prefix eo))) with (val (ple_prefix eo)) in E.
  change (take 0 (val (ple_prefix eo))) with (@nil Z) in E. rewrite E. clear E. rewrite !Nat.add_0_l.
  set (lv := levels (trie_depth pl) (prefixlen (ple_prefix eo))).
  set (pl1 := set_tables _ pl).
  assert (forall s, affid (trie_depth pl) (heap pl) o s ->
    s ∈ affected (prefixlen (ple_prefix eo) - 8 * Z.of_nat lv) (take lv (val (ple_prefix eo)))
          (byte_at (drop lv (val (ple_prefix eo))) 0)) as Hslots.
  { intros s (e & He & _ & Ha). simplify_eq. by apply affected_spec. }
  destruct (install_all (affid (trie_depth pl) (heap pl)) o I _ pl1 (fun _ => False)
    ltac:(split; [|simpl; intros; congruence]; intros s Hs; destruct (HC s Hs) as (L & L1 & L2 & L3);
          exists L; split_and!; [done|done|intros id Hid; apply L3 in Hid as [? ?]; split; [apply elem_of_cons; by right|done]
            |intros id Hi Ha; by apply L3|done])
    (affid_nested _ _ Hd) Hdis HoI ltac:(by exists eo)
    ltac:(intros s Hs; apply affected_spec in Hs; [|done..]; split; [by eapply aff_is_slot|by exists eo]))
    as (pl2 & E & SC & J).
  exists pl2. split; [exact E|]. pose proof (same_core_kept _ _ _ SC) as K. split; [done|].
  assert (trie_depth pl2 = trie_depth pl) as Ed by apply K. split.
  - intros s Hs. destruct (in_chain _ _ _ _ _ J s Hs) as (L & L1 & L2 & L3 & L4 & L5).
    exists L. split_and!; [done|done|]. intros id. rewrite Ed. split.
    + intros Hid. apply L3 in Hid as [? Ha]. split; [done|]. by apply (affid_core pl1 pl2).
    + intros [Hid Ha]. apply (affid_core pl2 pl1) in Ha; [|by apply same_core_sym].
      apply elem_of_cons in Hid as [->|Hid]; [|by apply L4]. apply L5; [|done]. right. by apply Hslots.
  - intros id e i Hid He Hi. destruct (kept_entry _ _ id e (kept_sym _ _ K) He) as (e0 & He0 & _ & Ep & _).
    rewrite <- Ep. unfold elen in Hi. rewrite <- Ep, Ed in Hi. rewrite (sc_tables _ _ SC).
    apply elem_of_union. apply elem_of_cons in Hid as [->|Hid].
    + simplify_eq. left. apply elem_path_tables. exists i. split; [fold lv in Hi; lia|done].
    + right. by apply (HT id e0).
Qed.

(** Freeing the empty tables keeps the ones that are needed. *)
Lemma slot_key_of path b : is_byte b -> path ++ [b] ∈ slot_keys path.
Proof.
  intros Hb. apply list_elem_of_In, List.in_map_iff. exists (Z.to_nat b). unfold is_byte in Hb.
  rewrite Z2Nat.id by lia. split; [done|]. apply List.in_seq. lia.
Qed.

Lemma not_empty pl path k :
  trie_table_empty pl path = true -> k ∈ slot_keys path ->
  up_chain pl !! k = None /\ final_chain pl !! k = None /\ (k ∉ tables pl).
Proof.
  unfold trie_table_empty. rewrite List.forallb_forall. intros H Hk%list_elem_of_In.
  specialize (H k Hk). destruct (up_chain pl !! k), (final_chain pl !! k); try done.
  split_and!; try done. simpl in H. by case_bool_decide.
Qed.

Lemma chain_member I pl s id :
  chains I pl -> is_slot s -> id ∈ I -> affid (trie_depth pl) (heap pl) id s -> head_of pl s <> None.
Proof.
  intros HC Hs Hi Ha E. destruct (HC s Hs) as ([|x L] & H1 & _ & H3).
  - by apply (elem_of_nil id), H3.
  - rewrite E in H1. by destruct H1.
Qed.

Section Free.
Context (f : Z) (I : list nat).

(** A table on the way to an entry is not empty. *)
Lemma needed_table pl id e i :
  depth_ok (trie_depth pl) -> stored f I pl -> chains I pl -> tabled I pl ->
  id ∈ I -> heap pl !! id = Some e -> (1 <= i <= levels (trie_depth pl) (elen e))%nat ->
  trie_table_empty pl (take i (val (ple_prefix e))) = false.
Proof.
  intros Hd HS HC HT Hi He Hlv. destruct (trie_table_empty _ _) eqn:E; [exfalso|done].
  destruct (HS id Hi) as (e' & He' & Hip & _). assert (e' = e) as -> by congruence.
  set (q := ple_prefix e) in *. destruct (levels_room (trie_depth pl) q Hd Hip) as (Hl & _ & Hv).
  assert (affid (trie_depth pl) (heap pl) id (UpChain (take (S (levels (trie_depth pl) (prefixlen q))) (val q)))
          \/ affid (trie_depth pl) (heap pl) id (FinalChain (take (S (levels (trie_depth pl) (prefixlen q))) (val q))))
    as Ha.
  { assert (covers_prefix q q) as Hc by (split; [lia|apply agree_refl]).
    destruct (matched_slot (trie_depth pl) q q Hd Hip Hip eq_refl Hc) as (H1 & H2 & _).
    destruct (Z.le_gt_cases (prefixlen q - 8 * Z.of_nat (levels (trie_depth pl) (prefixlen q))) 8);
      [left|right]; exists e; auto. }
  assert (take (S i) (val q) ∈ slot_keys (take i (val q))) as Hk.
  { unfold elen in Hlv. fold q in Hlv. rewrite <- drop_cons_byte, byte_at_drop, Nat.add_0_r by lia.
    apply slot_key_of, byte_at_range, Hip. }
  destruct (not_empty _ _ _ E Hk) as (E1 & E2 & E3). unfold elen in Hlv. fold q in Hlv.
  destruct (decide (i = levels (trie_depth pl) (prefixlen q))) as [Ei|Ei].
  - rewrite <- Ei in Ha. destruct Ha as [Ha|Ha];
      by eapply (chain_member I pl _ id HC) in Ha.
  - apply E3, (HT id e); [done|done|]. unfold elen. fold q. lia.
Qed.

Lemma free_tables_spec path : forall d pl,
  depth_ok (trie_depth pl) -> stored f I pl -> chains I pl -> tabled I pl -> (d <= length path)%nat ->
  exists ts, free_tables d path pl = set_tables ts pl /\ tabled I (set_tables ts pl).
Proof.
  induction d as [|d IH]; intros pl Hd HS HC HT Hl; cbn [free_tables].
  { exists (tables pl). by destruct pl. }
  destruct (trie_table_empty pl (take (S d) path)) eqn:E; [|apply IH; try done; lia].
  destruct (IH (set_tables (tables pl ∖ {[take (S d) path]}) pl)) as (ts & E2 & H2); try done; [|lia|].
  - intros id e i Hi He Hlv. simpl in *. apply elem_of_difference. split; [by apply (HT id e)|].
    rewrite elem_of_singleton. intros Et. rewrite <- Et in E.
    by rewrite (needed_table pl id e i) in E.
  - exists ts. rewrite E2. by destruct pl.
Qed.
End Free.

Lemma trie_del_spec f pl I J o :
  depth_ok (trie_depth pl) -> stored f J pl -> chains J pl -> tabled J pl ->
  o ∈ J -> (forall id, id ∈ I <-> id ∈ J /\ id <> o) ->
  exists pl2, prefix_list_trie_del o pl = Ret pl2 /\ kept pl pl2 /\ chains I pl2 /\ tabled I pl2
    /\ forall id, id ∉ J -> heap pl2 !! id = heap pl !! id.
Proof.
  intros Hd HS HC HT HoJ HI. destruct (HS o HoJ) as (eo & Ho & Hip & Hmk & _).
  unfold prefix_list_trie_del. rewrite (entry_some pl o eo Ho). cbn [mbind outcome_bind].
  destruct (levels_room (trie_depth pl) _ Hd Hip) as (_ & Hroom & _).
  pose proof (trie_del_loop_spec (val (ple_prefix eo)) pl (trie_depth pl) (prefixlen (ple_prefix eo)) 0 Hroom
    ltac:(intros i Hi; apply (HT o eo); [done|done|unfold elen; lia])) as E.
  change (drop 0 (val (ple_prefix eo))) with (val (ple_prefix eo)) in E.
  change (take 0 (val (ple_prefix eo))) with (@nil Z) in E. rewrite E. clear E.
  cbn [mbind outcome_bind]. rewrite !Nat.add_0_l.
  set (lv := levels (trie_depth pl) (prefixlen (ple_prefix eo))).
  assert (o ∉ I) as HoI by (intros H; by apply HI in H as [_ ?]).
  destruct (uninstall_all (affid (trie_depth pl) (heap pl)) o I
    (affected (prefixlen (ple_prefix eo) - 8 * Z.of_nat lv) (take lv (val (ple_prefix eo)))
          (byte_at (drop lv (val (ple_prefix eo))) 0)) pl (fun _ => False)) as (pl1 & -> & SC & R & Hk).
  { split. intros s Hs. destruct (HC s Hs) as (L & L1 & L2 & L3). exists L. split_and!; try done.
    - intros id Hid. apply L3 in Hid as [HJ ?]. split; [|done]. apply elem_of_cons.
      destruct (decide (id = o)); [by left|right]. by apply HI.
    - intros id Hi Ha. apply L3. split; [by apply HI|done]. }
  { done. }
  { intros s Hs. apply affected_spec in Hs; [|done..]. by eapply aff_is_slot. }
  cbn [mbind outcome_bind].
  assert (trie_depth pl1 = trie_depth pl) as Ed by apply SC.
  assert (chains I pl1) as HC1.
  { intros s Hs. destruct (rm_chain _ _ _ _ _ R s Hs) as (L & L1 & L2 & L3 & L4 & L5).
    exists L. split_and!; try done. intros id. rewrite Ed. split.
    - intros Hid. destruct (L3 id Hid) as [Hin Ha]. split; [|by apply (affid_core pl pl1)].
      apply elem_of_cons in Hin as [->|]; [|done]. exfalso. apply L5; [right|done].
      destruct Ha as (e & He & _ & Ha). simplify_eq. by apply affected_spec.
    - intros [Hid Ha]. apply L4; [done|]. by apply (affid_core pl1 pl); [apply same_core_sym|]. }
  assert (stored f I pl1) as HS1.
  { intros id Hi. apply HI in Hi as [Hj _]. destruct (HS id Hj) as (e & He & Hok).
    destruct (same_core_entry _ _ id e SC He) as (e2 & He2 & _ & Ep & _). exists e2. by rewrite Ep. }
  assert (tabled I pl1) as HT1.
  { intros id e i Hi He Hlv. destruct (same_core_entry _ _ id e (same_core_sym _ _ SC) He) as (e0 & He0 & _ & Ep & _).
    rewrite <- Ep, (sc_tables _ _ SC). apply (HT id e0); [by apply HI|done|].
    unfold elen in *. by rewrite Ep, <- Ed. }
  destruct (free_tables_spec f I (take lv (val (ple_prefix eo))) (length (take lv (val (ple_prefix eo)))) pl1)
    as (ts & -> & HT2); try done; [by rewrite Ed|].
  exists (set_tables ts pl1). split_and!; try done.
  - destruct SC as [S1 S2 S3 S4 S5]. by split.
  - intros id Hid. apply Hk. rewrite elem_of_cons. intros [->|Hi]; [done|]. by apply HI in Hi as [? _].
Qed.

(** ** The list *)

Lemma seq_lt_irr h x : ~ seq_lt h x x.
Proof. intros (a & b & Ha & Hb & H). simplify_eq. lia. Qed.

(** Chains and orders in a heap without [o]. *)
Lemma before_delete h o a b : a <> o -> b <> o -> before h a b -> before (delete o h) a b.
Proof.
  intros Ha Hb (ea & eb & Ea & Eb & H). exists ea, eb. rewrite !lookup_delete_ne by done. auto.
Qed.

Lemma seq_lt_delete h o a b : a <> o -> b <> o -> seq_lt h a b -> seq_lt (delete o h) a b.
Proof.
  intros Ha Hb (ea & eb & Ea & Eb & H). exists ea, eb. rewrite !lookup_delete_ne by done. auto.
Qed.

Lemma sorted_impl {A} (R S : A -> A -> Prop) l :
  (forall x y, x ∈ l -> y ∈ l -> R x y -> S x y) -> StronglySorted R l -> StronglySorted S l.
Proof.
  intros H HR. induction HR as [|x l HR IH Hf]; [constructor|].
  assert (forall y, y ∈ l -> y ∈ x :: l) as Hin by (intros; apply elem_of_cons; by right).
  constructor; [apply IH; auto|]. rewrite List.Forall_forall in Hf |- *. intros y Hy.
  apply H; [apply elem_of_cons; by left|apply Hin; by apply list_elem_of_In|auto].
Qed.

Lemma sorted_filter {A} (R : A -> A -> Prop) (P : A -> bool) l :
  StronglySorted R l -> StronglySorted R (List.filter P l).
Proof.
  induction 1 as [|x l HR IH Hf]; simpl; [constructor|]. destruct (P x); [|done].
  constructor; [done|]. rewrite List.Forall_forall in Hf |- *. intros y [Hy _]%List.filter_In. auto.
Qed.

(** Everything of a list but one entry: the others keep all but their link. *)
Definition others_kept (o : nat) (pl pl2 : prefix_list) : Prop :=
  forall id, id <> o -> core <$> heap pl2 !! id = core <$> heap pl !! id.

Lemma core_lookup (h h2 : gmap nat prefix_list_entry) id e :
  core <$> h2 !! id = core <$> h !! id -> h !! id = Some e ->
  exists e2, h2 !! id = Some e2 /\ seq e2 = seq e /\ ple_prefix e2 = ple_prefix e.
Proof.
  intros H He. rewrite He in H. destruct (h2 !! id) as [e2|]; [|done]. exists e2.
  simpl in H. injection H as ?. unfold core, set_next in *. by simplify_eq.
Qed.

Lemma seq_lt_core (h h2 : gmap nat prefix_list_entry) a b :
  core <$> h2 !! a = core <$> h !! a -> core <$> h2 !! b = core <$> h !! b ->
  seq_lt h a b -> seq_lt h2 a b.
Proof.
  intros Ha Hb (ea & eb & Ea & Eb & H).
  destruct (core_lookup _ _ _ _ Ha Ea) as (ea2 & Ea2 & Sa & _).
  destruct (core_lookup _ _ _ _ Hb Eb) as (eb2 & Eb2 & Sb & _).
  exists ea2, eb2. split_and!; try done. lia.
Qed.

Definition without (o : nat) (l : list nat) : list nat :=
  List.filter (fun x => negb (Nat.eqb x o)) l.

Lemma elem_without o l id : id ∈ without o l <-> id ∈ l /\ id <> o.
Proof.
  unfold without. rewrite !list_elem_of_In, List.filter_In, negb_true_iff, Nat.eqb_neq. done.
Qed.

Lemma length_without o l : NoDup l -> o ∈ l -> S (length (without o l)) = length l.
Proof.
  induction 1 as [|x l Hx Hl IH]; intros Ho; [by apply elem_of_nil in Ho|]. unfold without in *. simpl.
  apply elem_of_cons in Ho as [->|Ho].
  - rewrite Nat.eqb_refl. simpl. f_equal. clear IH. induction Hl as [|y l Hy Hl IH]; [done|]. simpl.
    apply not_elem_of_cons in Hx as [Hne Hx]. destruct (Nat.eqb_spec y x); [congruence|]. simpl. f_equal. auto.
  - destruct (Nat.eqb_spec x o) as [->|]; [done|]. simpl. f_equal. auto.
Qed.

Lemma sorted_nodup h l : StronglySorted (seq_lt h) l -> NoDup l.
Proof.
  induction 1 as [|x l HS IH Hf]; [apply NoDup_nil_2|]. apply NoDup_cons_2; [|done].
  eapply (sorted_not_in _ (seq_lt_irr h)). by constructor.
Qed.

(** Changing the heap outside the entries of the chains. *)
Lemma chains_agree I pl h :
  chains I pl -> (forall id, id ∈ I -> h !! id = heap pl !! id) -> chains I (set_heap h pl).
Proof.
  intros HC Hh s Hs. destruct (HC s Hs) as (L & H1 & H2 & H3). exists L.
  assert (forall x, x ∈ L -> h !! x = heap pl !! x) as HL by (intros x Hx; apply Hh, H3, Hx).
  split_and!.
  - replace (head_of _ s) with (head_of pl s) by (by destruct s).
    eapply chain_frame; [exact H1|]. intros x e Hx He. exists e. simpl. by rewrite HL.
  - eapply sorted_impl; [|exact H2]. intros x y Hx Hy. unfold before. simpl. by rewrite !HL.
  - intros id. rewrite H3. unfold affid. simpl.
    split; intros [Hi H]; (split; [done|]); [by rewrite Hh|by rewrite Hh in H].
Qed.

Lemma wf_agree f pl h :
  wf_plist f pl -> (forall id, id ∈ items pl -> h !! id = heap pl !! id) -> wf_plist f (set_heap h pl).
Proof.
  intros [Wd Ws Wo Wc Wt Wn] Hh. split; try done.
  - intros id Hi. simpl. rewrite Hh by done. by apply Ws.
  - eapply sorted_impl; [|exact Wo]. intros x y Hx Hy. unfold seq_lt. simpl. by rewrite !Hh.
  - by apply chains_agree.
  - intros id e i Hi He. simpl in *. rewrite Hh in He by done. by apply (Wt id e).
Qed.

Lemma entry_delete_spec f pl o :
  wf_plist f pl -> o ∈ items pl ->
  exists pl2, prefix_list_entry_delete o pl = Ret pl2 /\ wf_plist f pl2
    /\ items pl2 = without o (items pl) /\ heap pl2 !! o = None /\ others_kept o pl pl2
    /\ trie_depth pl2 = trie_depth pl
    /\ forall id, id ∉ items pl -> heap pl2 !! id = heap pl !! id.
Proof.
  intros [Wd Ws Wo Wc Wt Wn] Ho. unfold prefix_list_entry_delete.
  destruct (trie_del_spec f pl (without o (items pl)) (items pl) o Wd Ws Wc Wt Ho (elem_without o (items pl)))
    as (pl1 & -> & K & HC & HT & Hk). cbn [mbind outcome_bind].
  destruct K as [K1 K2 K3 K4]. eexists. split; [done|]. fold (without o (items pl1)). rewrite K2.
  assert (o ∉ without o (items pl)) as Hno by (rewrite elem_without; tauto).
  split_and!; simpl; try done.
  - split; simpl.
    + by rewrite K4.
    + intros id [Hi Hne]%elem_without. destruct (Ws id Hi) as (e & He & Hok).
      destruct (core_lookup _ _ _ _ (K1 id) He) as (e2 & He2 & _ & Ep). exists e2.
      simpl. rewrite lookup_delete_ne by done. by rewrite Ep.
    + eapply sorted_impl; [|eapply sorted_filter, Wo]. intros x y [Hx Nx]%elem_without [Hy Ny]%elem_without H.
      apply seq_lt_delete; [done|done|]. by apply (seq_lt_core (heap pl)).
    + apply (chains_agree _ _ (delete o (heap pl1)) HC). intros id Hi. rewrite lookup_delete_ne; [done|congruence].
    + intros id e i Hi He. simpl in *. rewrite lookup_delete_ne in He by (intros ->; done). by apply (HT id e).
    + rewrite K3, Wn, <- (length_without o (items pl)); [|by eapply sorted_nodup|done]. lia.
  - apply lookup_delete_eq.
  - intros id Hne. simpl. by rewrite lookup_delete_ne.
  - intros id Hi. rewrite lookup_delete_ne by (by intros ->). auto.
Qed.

Lemma sorted_seq_inj (h : gmap nat prefix_list_entry) l a b ea eb :
  StronglySorted (seq_lt h) l -> a ∈ l -> b ∈ l ->
  h !! a = Some ea -> h !! b = Some eb -> seq ea = seq eb -> a = b.
Proof.
  intros HS Ha Hb Ea Eb Es. induction HS as [|x l HS IH Hf]; [by apply elem_of_nil in Ha|].
  rewrite List.Forall_forall in Hf.
  apply elem_of_cons in Ha as [->|Ha], Hb as [->|Hb]; auto.
  - apply list_elem_of_In, Hf in Hb as (? & ? & ? & ? & ?). simplify_eq. lia.
  - apply list_elem_of_In, Hf in Ha as (? & ? & ? & ? & ?). simplify_eq. lia.
Qed.

(** The last part of an addition: the entry is in the list, and goes into the
    trie. *)
Lemma add_step f pl o eo ins :
  wf_plist f pl -> o ∉ items pl -> heap pl !! o = Some eo -> okp f (ple_prefix eo) ->
  next_best eo = None -> StronglySorted (seq_lt (heap pl)) ins ->
  (forall id, id ∈ ins <-> id = o \/ id ∈ items pl) -> length ins = S (length (items pl)) ->
  exists pl2, prefix_list_trie_add o (set_items ins (count pl) pl) = Ret pl2
    /\ wf_plist f (set_items (items pl2) (count pl2 + 1) pl2) /\ items pl2 = ins
    /\ forall id, core <$> heap pl2 !! id = core <$> heap pl !! id.
Proof.
  intros [Wd Ws Wo Wc Wt Wn] Ho He Hok Hnx HS Hin Hlen.
  assert (forall id, id ∈ o :: items pl -> id ∈ ins) as Hsub.
  { intros id Hid. apply Hin. by apply elem_of_cons in Hid. }
  destruct (trie_add_spec f (set_items ins (count pl) pl) (items pl) o eo Wd Wc Wt Ho He Hok Hnx)
    as (pl2 & E & K & HC & HT).
  { intros a b ea eb Ea Eb Ha Hb Es. eapply (sorted_seq_inj (heap pl)); eauto. }
  destruct K as [K1 K2 K3 K4]. simpl in *. exists pl2. split_and!; try done.
  assert (forall id, id ∈ o :: items pl <-> id ∈ ins) as Hiff.
  { intros id. split; [apply Hsub|]. intros Hi. apply elem_of_cons. by apply Hin. }
  split; simpl; rewrite ?K2, ?K3.
  - by rewrite K4.
  - intros id Hi. assert (exists e, heap pl !! id = Some e /\ okp f (ple_prefix e)) as (e & E1 & E2).
    { apply Hin in Hi as [->|Hi]; [eauto|by apply Ws]. }
    destruct (core_lookup _ _ _ _ (K1 id) E1) as (e2 & He2 & _ & Ep). exists e2. by rewrite Ep.
  - eapply sorted_impl; [|exact HS]. intros x y _ _. by apply seq_lt_core.
  - intros s Hs. destruct (HC s Hs) as (L & H1 & H2 & H3). exists L. split_and!; [by destruct s|done|].
    intros id. rewrite <- Hiff. apply H3.
  - intros id e i Hi%Hiff. by apply HT.
  - rewrite Wn, Hlen. lia.
Qed.

Lemma sorted_lookup {A} (R : A -> A -> Prop) l i j x y :
  StronglySorted R l -> l !! i = Some x -> l !! j = Some y -> (i < j)%nat -> R x y.
Proof.
  intros HS. revert i j. induction HS as [|z l HS IH Hf]; intros i j Hi Hj Hlt; [done|].
  destruct j as [|j]; [lia|]. rewrite List.Forall_forall in Hf. destruct i as [|i]; simpl in *.
  - simplify_eq. apply Hf, list_elem_of_In. by eapply list_elem_of_lookup_2.
  - apply (IH i j); try done. lia.
Qed.

(** Where the list takes the entry. *)
Section Insert.
Context (pl : prefix_list) (o : nat) (eo : prefix_list_entry) (Ho : heap pl !! o = Some eo).

Lemma insert_by_seq_spec l :
  StronglySorted (seq_lt (heap pl)) l ->
  (forall id, id ∈ l -> exists e, heap pl !! id = Some e /\ seq e <> seq eo) ->
  StronglySorted (seq_lt (heap pl)) (insert_by_seq pl (seq eo) o l)
  /\ (forall id, id ∈ insert_by_seq pl (seq eo) o l <-> id = o \/ id ∈ l)
  /\ length (insert_by_seq pl (seq eo) o l) = S (length l).
Proof.
  induction 1 as [|x l HS IH Hf]; intros Hne; simpl.
  { split_and!; [repeat constructor| |done]. intros id. rewrite list_elem_of_singleton, elem_of_nil. tauto. }
  destruct (Hne x) as (e & He & Hs); [apply elem_of_cons; by left|]. rewrite He.
  rewrite List.Forall_forall in Hf. destruct (Z.leb_spec (seq eo) (seq e)) as [Hle|Hgt].
  - split_and!; [|intros id; rewrite !elem_of_cons; tauto|done]. constructor.
    + constructor; [done|]. by apply List.Forall_forall.
    + constructor; [exists eo, e; split_and!; try done; lia|]. apply List.Forall_forall. intros y Hy.
      destruct (Hf y Hy) as (ex & ey & Ex & Ey & Hlt). simplify_eq. exists eo, ey. split_and!; try done. lia.
  - destruct IH as (I1 & I2 & I3); [intros id Hid; apply Hne, elem_of_cons; by right|]. split_and!.
    + constructor; [done|]. apply List.Forall_forall. intros y Hy%list_elem_of_In.
      apply I2 in Hy as [->|Hy]; [exists e, eo; split_and!; try done; lia|]. by apply Hf, list_elem_of_In.
    + intros id. rewrite !elem_of_cons, I2. tauto.
    + simpl. by rewrite I3.
Qed.

Lemma past_tail_spec l :
  StronglySorted (seq_lt (heap pl)) l -> past_tail (set_items l (count pl) pl) (seq eo) = true ->
  (forall id, id ∈ l -> exists e, heap pl !! id = Some e /\ seq e < seq eo).
Proof.
  unfold past_tail. simpl. intros HS Ht id Hid.
  destruct (l !! pred (length l)) as [t|] eqn:El; [|done].
  destruct (heap pl !! t) as [et|] eqn:Et; [|done]. apply Z.ltb_lt in Ht.
  apply list_elem_of_lookup in Hid as (i & Hi).
  destruct (decide (i = pred (length l))) as [->|Hn]; [simplify_eq; eauto|].
  assert (seq_lt (heap pl) id t) as (e1 & e2 & E1 & E2 & Hlt).
  { apply (sorted_lookup _ _ i (pred (length l)) _ _ HS Hi El).
    apply lookup_lt_Some in Hi. lia. }
  simplify_eq. exists e1. split; [done|]. lia.
Qed.
End Insert.

(** ** Addition and deletion *)

Definition new_seq (pl : prefix_list) (e : prefix_list_entry) : Z :=
  if seq e =? -1 then prefix_new_seq_get pl else seq e.
Definition set_seq (s : Z) (e : prefix_list_entry) : prefix_list_entry :=
  mkPle s (ple_type e) (ple_prefix e) (le e) (ge e) (hitcnt e) (next_best e).

(** The part of [prefix_list_entry_add] that replaces an entry with the same
    number. *)
Lemma replace_spec f pl s :
  wf_plist f pl ->
  exists pl2, match prefix_seq_check pl s with
              | Some r => prefix_list_entry_delete r pl
              | None => Ret pl
              end = Ret pl2
    /\ wf_plist f pl2 /\ trie_depth pl2 = trie_depth pl
    /\ (forall id, id ∈ items pl2 <-> id ∈ items pl /\ has_seq pl s id = false)
    /\ (forall id, id ∈ items pl2 -> core <$> heap pl2 !! id = core <$> heap pl !! id)
    /\ (forall id, id ∉ items pl -> heap pl2 !! id = heap pl !! id).
Proof.
  intros W. unfold prefix_seq_check. destruct (List.find _ _) as [r|] eqn:E.
  - apply List.find_some in E as [Hr Es]. apply list_elem_of_In in Hr.
    destruct (entry_delete_spec f pl r W Hr) as (pl2 & E2 & W2 & I2 & _ & O2 & D2 & H2).
    exists pl2. split_and!; try done.
    + intros id. rewrite I2, elem_without. split; intros [Hi Hs]; (split; [done|]).
      * destruct (has_seq pl s id) eqn:Eid; [|done]. exfalso. apply Hs. unfold has_seq in *.
        destruct (heap pl !! id) as [e1|] eqn:E1; [|done]. destruct (heap pl !! r) as [e3|] eqn:E3; [|done].
        apply (sorted_seq_inj _ _ _ _ e1 e3 (wf_sorted f pl W)); try done. lia.
      * intros ->. congruence.
    + intros id Hid. apply O2. rewrite I2, elem_without in Hid. tauto.
  - exists pl. split_and!; try done. intros id. split; [|tauto]. intros Hi. split; [done|].
    by apply (List.find_none _ _ E), list_elem_of_In.
Qed.

Lemma new_entry_facts f pl o eo (s : Z) :
  wf_plist f pl -> o ∉ items pl -> heap pl !! o = Some eo ->
  wf_plist f (set_heap (alter (set_seq s) o (heap pl)) pl)
  /\ alter (set_seq s) o (heap pl) !! o = Some (set_seq s eo)
  /\ forall id, id <> o -> alter (set_seq s) o (heap pl) !! id = heap pl !! id.
Proof.
  intros W Ho He. assert (forall id, id <> o -> alter (set_seq s) o (heap pl) !! id = heap pl !! id) as Hne.
  { intros id Hid. by rewrite lookup_alter_ne. }
  split_and!; [|by rewrite lookup_alter_eq, He|done].
  apply wf_agree; [done|]. intros id Hi. apply Hne. by intros ->.
Qed.

(** C22: adding a new entry (its links empty, its prefix masked and of the family
    of the list) to a consistent list succeeds, trips no assertion and leaves a
    consistent list; the entry gets its own or the next free sequence number,
    replaces an entry with the same number, and all other entries stay as they
    were. *)
Theorem prefix_list_entry_add_correct f pl o eo :
  wf_plist f pl -> o ∉ items pl -> heap pl !! o = Some eo -> okp f (ple_prefix eo) ->
  next_best eo = None ->
  exists pl2, prefix_list_entry_add o pl = Ret pl2 /\ wf_plist f pl2
    /\ (forall id, id ∈ items pl2 <->
          id = o \/ (id ∈ items pl /\ has_seq pl (new_seq pl eo) id = false))
    /\ core <$> heap pl2 !! o = Some (core (set_seq (new_seq pl eo) eo))
    /\ forall id, id ∈ items pl2 -> id <> o -> core <$> heap pl2 !! id = core <$> heap pl !! id.
Proof.
  intros W Ho He Hok Hnx. unfold prefix_list_entry_add.
  rewrite (entry_some pl o eo He). cbn [mbind outcome_bind]. fold (new_seq pl eo).
  set (s := new_seq pl eo). fold (set_seq s). destruct (new_entry_facts f pl o eo s W Ho He) as (W0 & He0 & Hne).
  set (h0 := alter (set_seq s) o (heap pl)) in *.
  assert (forall id, id <> o -> has_seq (set_heap h0 pl) s id = has_seq pl s id) as Hhs.
  { intros id Hid. unfold has_seq. simpl. by rewrite Hne. }
  destruct (past_tail (set_heap h0 pl) s) eqn:Et.
  - cbn [mbind outcome_bind].
    assert (forall id, id ∈ items pl -> exists e, h0 !! id = Some e /\ seq e < s) as Hlow.
    { apply (past_tail_spec (set_heap h0 pl) (set_seq s eo) (items pl) (wf_sorted _ _ W0)). exact Et. }
    destruct (add_step f (set_heap h0 pl) o (set_seq s eo) (items (set_heap h0 pl) ++ [o]) W0 Ho He0 Hok Hnx)
      as (pl2 & -> & W2 & I2 & C2).
    + apply sorted_app; [apply W0|repeat constructor|]. intros x y Hx Hy.
      apply list_elem_of_singleton in Hy as ->. destruct (Hlow x Hx) as (e & E1 & Hlt).
      by exists e, (set_seq s eo).
    + intros id. rewrite elem_of_app, list_elem_of_singleton. simpl. tauto.
    + rewrite length_app. simpl. lia.
    + cbn [mbind outcome_bind]. eexists. split; [done|]. simpl in *. split_and!; try done.
      * intros id. rewrite I2, elem_of_app, list_elem_of_singleton. split; [|tauto].
        intros [Hi| ->]; [right|by left]. split; [done|]. destruct (Hlow id Hi) as (e & E1 & Hlt).
        unfold has_seq. rewrite <- Hne, E1 by (by intros ->). lia.
      * by rewrite C2, He0.
      * intros id _ Hid. by rewrite C2, Hne.
  - destruct (replace_spec f (set_heap h0 pl) s W0) as (pl1 & -> & W1 & D1 & I1 & C1 & H1).
    cbn [mbind outcome_bind]. simpl in I1, C1, H1.
    assert (heap pl1 !! o = Some (set_seq s eo)) as He1 by (by rewrite H1).
    assert (o ∉ items pl1) as Ho1 by (rewrite I1; tauto).
    destruct (insert_by_seq_spec pl1 o (set_seq s eo) He1 (items pl1) (wf_sorted _ _ W1)) as (S1 & M1 & L1).
    { intros id Hi. destruct (wf_stored _ _ W1 id Hi) as (e & E1 & _). exists e. split; [done|].
      intros Es. pose proof (proj1 (I1 id) Hi) as [Hi0 Hs]. unfold has_seq in Hs. simpl in Hs.
      destruct (core_lookup _ _ _ _ (eq_sym (C1 id Hi)) E1) as (e0 & E0 & Es0 & _). rewrite E0 in Hs.
      simpl in Es. lia. }
    destruct (add_step f pl1 o (set_seq s eo) _ W1 Ho1 He1 Hok Hnx S1 M1 L1) as (pl2 & E2 & W2 & I2 & C2).
    simpl in E2. rewrite E2. cbn [mbind outcome_bind]. eexists. split; [done|]. simpl in *. split_and!; try done.
    + intros id. rewrite I2, M1, I1. split; (intros [?|[Hi Hs]]; [by left|right]; split; [done|]);
        [rewrite <- Hhs|rewrite Hhs]; done || (intros ->; done).
    + by rewrite C2, He1.
    + intros id Hi Hid. rewrite C2. rewrite I2, M1 in Hi. destruct Hi as [?|Hi]; [done|].
      rewrite C1 by done. by rewrite Hne.
Qed.

(** Deleting an entry of a consistent list succeeds: the search for its
    tables trips no assertion, the list stays consistent without the entry, and
    the other entries stay as they were. *)
Theorem prefix_list_entry_delete_correct f pl o :
  wf_plist f pl -> o ∈ items pl ->
  exists pl2, prefix_list_entry_delete o pl = Ret pl2 /\ wf_plist f pl2
    /\ (forall id, id ∈ items pl2 <-> id ∈ items pl /\ id <> o)
    /\ heap pl2 !! o = None
    /\ forall id, id <> o -> core <$> heap pl2 !! id = core <$> heap pl !! id.
Proof.
  intros W Ho. destruct (entry_delete_spec f pl o W Ho) as (pl2 & E & W2 & I2 & H2 & O2 & _).
  exists pl2. split_and!; try done. intros id. rewrite I2. apply elem_without.
Qed.

(** ** A list at work *)

Lemma wf_empty f h depth : depth_ok depth -> wf_plist f (set_heap h (prefix_list_new depth)).
Proof.
  intros Hd. split; simpl; try done.
  - intros id Hi. by apply elem_of_nil in Hi.
  - constructor.
  - intros s Hs. exists []. split_and!; [by destruct s|constructor|]. intros id. split.
    + intros Hi. by apply elem_of_nil in Hi.
    + intros [Hi _]. by apply elem_of_nil in Hi.
  - intros id e i Hi. by apply elem_of_nil in Hi.
Qed.

(** [seq 5 permit 10.16.0.0/12 le 24], and an entry [seq 5 deny 10.0.0.0/8] that
    is not in the list yet. *)
Definition permit_12 : prefix_list_entry :=
  mkPle 5 PREFIX_PERMIT (mkPrefix AF_INET 12 [10; 16; 0; 0]) 24 0 0 None.
Definition deny_8 : prefix_list_entry :=
  mkPle 5 PREFIX_DENY (mkPrefix AF_INET 8 [10; 0; 0; 0]) 0 0 0 None.
Definition empty_list : prefix_list :=
  set_heap {[1%nat := deny_8; 0%nat := permit_12]} (prefix_list_new PLC_MAXLEVELV4).
Definition one_entry : prefix_list :=
  match prefix_list_trie_add 0 (set_items [0%nat] 0 empty_list) with
  | Ret pl => set_items (items pl) (count pl + 1) pl
  | Abort => empty_list
  end.

Lemma okp_v4 len a b c d :
  0 <= len <= 32 -> is_byte a -> is_byte b -> is_byte c -> is_byte d ->
  (forallb (fun i => negb (addr_bit [a; b; c; d] (Z.of_nat i))) (List.seq (Z.to_nat len) (32 - Z.to_nat len))) = true ->
  okp AF_INET (mkPrefix AF_INET len [a; b; c; d]).
Proof.
  intros Hl Ha Hb Hc Hd Hm. split_and!; [by apply ip_prefix_v4| |done]. intros i Hi. simpl in Hi.
  change (addr_len AF_INET) with 32 in Hi. rewrite List.forallb_forall in Hm. simpl.
  specialize (Hm (Z.to_nat i)). rewrite Z2Nat.id in Hm by lia. apply negb_true_iff, Hm, List.in_seq. lia.
Qed.

Lemma one_entry_wf : wf_plist AF_INET one_entry.
Proof.
  destruct (add_step AF_INET empty_list 0 permit_12 [0%nat]) as (pl2 & E & W & _).
  - apply wf_empty. unfold depth_ok, PLC_MAXLEVELV4. lia.
  - by apply not_elem_of_nil.
  - reflexivity.
  - apply okp_v4; [lia|unfold is_byte; lia..|reflexivity].
  - reflexivity.
  - repeat constructor.
  - intros id. rewrite list_elem_of_singleton. split; [by left|]. intros [?|Hi]; [done|by apply not_elem_of_nil in Hi].
  - reflexivity.
  - unfold one_entry. change 0 with (count empty_list). by rewrite E.
Qed.

Lemma prefix_list_apply_linear_witness :
  wf_plist AF_INET one_entry
  /\ prefix_list_apply_ext (Some one_entry) (mkPrefix AF_INET 20 [10; 17; 16; 0]) false
     = linear_apply one_entry (mkPrefix AF_INET 20 [10; 17; 16; 0]) false
  /\ List.find (matches one_entry (mkPrefix AF_INET 20 [10; 17; 16; 0]) false) (items one_entry) = Some 0%nat.
Proof.
  split; [exact one_entry_wf|]. split; [|vm_compute; reflexivity].
  apply (prefix_list_apply_linear AF_INET one_entry (mkPrefix AF_INET 20 [10; 17; 16; 0]) false one_entry_wf).
  apply ip_prefix_v4; unfold is_byte; lia.
Defined.

Lemma prefix_list_entry_add_correct_witness :
  wf_plist AF_INET one_entry /\ has_seq one_entry (new_seq one_entry deny_8) 0 = true
  /\ exists pl2, prefix_list_entry_add 1 one_entry = Ret pl2 /\ wf_plist AF_INET pl2.
Proof.
  split; [exact one_entry_wf|]. split; [vm_compute; reflexivity|].
  destruct (prefix_list_entry_add_correct AF_INET one_entry 1 deny_8 one_entry_wf) as (pl2 & E & W & _).
  - vm_compute. intros H. apply list_elem_of_singleton in H. done.
  - vm_compute. reflexivity.
  - apply okp_v4; [lia|unfold is_byte; lia..|reflexivity].
  - reflexivity.
  - exists pl2. by split.
Defined.

Lemma prefix_list_entry_delete_correct_witness :
  wf_plist AF_INET one_entry
  /\ exists pl2, prefix_list_entry_delete 0 one_entry = Ret pl2 /\ heap pl2 !! 0%nat = None.
Proof.
  split; [exact one_entry_wf|].
  destruct (prefix_list_entry_delete_correct AF_INET one_entry 0 one_entry_wf) as (pl2 & E & _ & _ & H & _).
  - vm_compute. by apply list_elem_of_singleton.
  - exists pl2. by split.
Defined.
