(* ===== verification/IdAlloc.v ===== *)
(** * The ID number allocator (lib/id_alloc.c)

    An allocator hands out 32-bit numbers.  It keeps a bit per number in pages of
    1024, found through a two-level directory; the pages with free numbers are
    linked through their [next_has_free] fields.  A page is identified by its
    place in the directory.  The log messages of the error paths are not part of
    the model. *)

From stdpp Require Import gmap.
From S2P Require Import Prelude.

Definition IDALLOC_INVALID : Z := 0.
Definition UINT32_MAX : Z := 4294967295.

Definition ID_DIR (id : Z) : Z := Z.land (Z.shiftr id 24) (Z.shiftl 1 8 - 1).
Definition ID_SUBDIR (id : Z) : Z := Z.land (Z.shiftr id 17) (Z.shiftl 1 7 - 1).
Definition ID_PAGE (id : Z) : Z := Z.land (Z.shiftr id 10) (Z.shiftl 1 7 - 1).
Definition ID_WORD (id : Z) : Z := Z.land (Z.shiftr id 5) (Z.shiftl 1 5 - 1).
Definition ID_OFFSET (id : Z) : Z := Z.land (Z.shiftr id 0) (Z.shiftl 1 5 - 1).

Definition page_key : Type := Z * Z * Z.
Definition key_of (id : Z) : page_key := (ID_DIR id, ID_SUBDIR id, ID_PAGE id).

Record id_alloc_page := mkPage {
  allocated_mask : list Z;
  full_word_mask : Z;
  base_value : Z;
  next_has_free : option page_key
}.

Record id_alloc := mkAlloc {
  dirs : gset Z;
  subdirs : gset (Z * Z);
  pages : gmap page_key id_alloc_page;
  has_free : option page_key;
  allocated : Z;
  capacity : Z
}.

(** [idalloc_free_to_pool] and its kin keep the numbers in a stack. *)
Definition id_alloc_pool : Type := list Z.

Definition set_pages (ps : gmap page_key id_alloc_page) (a : id_alloc) : id_alloc :=
  mkAlloc (dirs a) (subdirs a) ps (has_free a) (allocated a) (capacity a).
Definition set_has_free (k : option page_key) (a : id_alloc) : id_alloc :=
  mkAlloc (dirs a) (subdirs a) (pages a) k (allocated a) (capacity a).
Definition set_allocated (n : Z) (a : id_alloc) : id_alloc :=
  mkAlloc (dirs a) (subdirs a) (pages a) (has_free a) n (capacity a).
Definition put_page (k : page_key) (p : id_alloc_page) (a : id_alloc) : id_alloc :=
  set_pages (<[k := p]> (pages a)) a.

Definition word_at (p : id_alloc_page) (w : Z) : Z := byte_at (allocated_mask p) (Z.to_nat w).
Definition set_word (w v : Z) (p : id_alloc_page) : id_alloc_page :=
  mkPage (<[Z.to_nat w := v]> (allocated_mask p)) (full_word_mask p) (base_value p) (next_has_free p).
Definition set_full (v : Z) (p : id_alloc_page) : id_alloc_page :=
  mkPage (allocated_mask p) v (base_value p) (next_has_free p).
Definition set_next_free (k : option page_key) (p : id_alloc_page) : id_alloc_page :=
  mkPage (allocated_mask p) (full_word_mask p) (base_value p) k.

(** [ffs]: one more than the position of the lowest bit, 0 when there is none. *)
Definition FFS32 (x : Z) : Z :=
  match List.find (fun i => Z.testbit x (Z.of_nat i)) (seq 0 32) with
  | Some i => Z.of_nat i + 1
  | None => 0
  end.

Definition find_or_create_page (a : id_alloc) (id : Z) (create : bool)
  : option page_key * id_alloc :=
  let d := ID_DIR id in
  let s := ID_SUBDIR id in
  let k := key_of id in
  if negb (bool_decide (d ∈ dirs a)) && negb create then (None, a)
  else
    let a := mkAlloc ({[d]} ∪ dirs a) (subdirs a) (pages a) (has_free a) (allocated a) (capacity a) in
    if negb (bool_decide ((d, s) ∈ subdirs a)) && negb create then (None, a)
    else
      let a := mkAlloc (dirs a) ({[(d, s)]} ∪ subdirs a) (pages a) (has_free a) (allocated a)
                 (capacity a) in
      match pages a !! k with
      | Some _ => (Some k, a)
      | None =>
          if create then
            (Some k,
             mkAlloc (dirs a) (subdirs a)
               (<[k := mkPage (replicate 32 0) 0 id (has_free a)]> (pages a))
               (Some k) (allocated a) (u32 (capacity a + Z.shiftl 1 10)))
          else (None, a)
      end.

Definition idalloc_free (a : id_alloc) (id : Z) : id_alloc :=
  match find_or_create_page a id false with
  | (None, a) => a
  | (Some k, a) =>
      match pages a !! k with
      | None => a
      | Some p =>
          let word := ID_WORD id in
          let offset := ID_OFFSET id in
          if Z.land (word_at p word) (Z.shiftl 1 offset) =? 0 then a
          else
            let old_word := word_at p word in
            let p := set_word word (Z.land old_word (u32 (Z.lnot (Z.shiftl 1 offset)))) p in
            let a := set_allocated (u32 (allocated a - 1)) (put_page k p a) in
            if old_word =? UINT32_MAX then
              let old_word_mask := full_word_mask p in
              let p := set_full (Z.land old_word_mask (u32 (Z.lnot (Z.shiftl 1 word)))) p in
              let a := put_page k p a in
              if old_word_mask =? UINT32_MAX then
                set_has_free (Some k) (put_page k (set_next_free (has_free a) p) a)
              else a
            else a
      end
  end.

Definition create_next_page (a : id_alloc) : option page_key * id_alloc :=
  if (capacity a =? 0) && bool_decide (0 ∈ dirs a) then (None, a)
  else find_or_create_page a (capacity a) true.

(** The [while (itr)] of [reserve_bit]. *)
Fixpoint unlink_loop (fuel : nat) (itr : option page_key) (k : page_key) (nx : option page_key)
    (a : id_alloc) : outcome id_alloc :=
  match fuel with
  | O => Abort
  | S fuel =>
      match itr with
      | None => Ret a
      | Some i =>
          match pages a !! i with
          | None => Abort
          | Some p =>
              if bool_decide (next_has_free p = Some k) then Ret (put_page i (set_next_free nx p) a)
              else unlink_loop fuel (next_has_free p) k nx a
          end
      end
  end.

Definition reserve_bit (a : id_alloc) (k : page_key) (word offset : Z) : outcome id_alloc :=
  match pages a !! k with
  | None => Abort
  | Some p =>
      let p := set_word word (Z.lor (word_at p word) (Z.shiftl 1 offset)) p in
      let a := set_allocated (u32 (allocated a + 1)) (put_page k p a) in
      if word_at p word =? UINT32_MAX then
        let p := set_full (Z.lor (full_word_mask p) (Z.shiftl 1 word)) p in
        let a := put_page k p a in
        if full_word_mask p =? UINT32_MAX then
          if bool_decide (has_free a = Some k) then Ret (set_has_free (next_has_free p) a)
          else unlink_loop (S (size (pages a))) (has_free a) k (next_has_free p) a
        else Ret a
      else Ret a
  end.

(** After the creation of a page. *)
Definition allocate_from (a : id_alloc) : outcome (Z * id_alloc) :=
  match has_free a with
  | None => Ret (IDALLOC_INVALID, a)
  | Some k =>
      match pages a !! k with
      | None => Abort
      | Some p =>
          let word := FFS32 (u32 (Z.lnot (full_word_mask p))) - 1 in
          if (word <? 0) || (32 <=? word) then Ret (IDALLOC_INVALID, a)
          else
            let offset := FFS32 (u32 (Z.lnot (word_at p word))) - 1 in
            if (offset <? 0) || (32 <=? offset) then Ret (IDALLOC_INVALID, a)
            else
              let return_value := u32 (base_value p + word * 32 + offset) in
              a ← reserve_bit a k word offset; Ret (return_value, a)
      end
  end.

Definition idalloc_allocate (a : id_alloc) : outcome (Z * id_alloc) :=
  allocate_from (match has_free a with None => snd (create_next_page a) | Some _ => a end).

(** [while (alloc->capacity <= id) create_next_page(alloc);], given [fuel]
    rounds: [None] when they are used up. *)
Fixpoint grow_loop (fuel : nat) (a : id_alloc) (id : Z) : option id_alloc :=
  match fuel with
  | O => None
  | S fuel => if capacity a <=? id then grow_loop fuel (snd (create_next_page a)) id else Some a
  end.

(** After the loop of [idalloc_reserve]. *)
Definition reserve_in (a : id_alloc) (id : Z) : outcome (Z * id_alloc) :=
  match find_or_create_page a id false with
  | (None, _) => Abort
  | (Some k, a) =>
      match pages a !! k with
      | None => Abort
      | Some p =>
          if negb (Z.land (word_at p (ID_WORD id)) (Z.shiftl 1 (ID_OFFSET id)) =? 0)
          then Ret (IDALLOC_INVALID, a)
          else a ← reserve_bit a k (ID_WORD id) (ID_OFFSET id); Ret (id, a)
      end
  end.

Definition idalloc_reserve (fuel : nat) (a : id_alloc) (id : Z) : outcome (Z * id_alloc) :=
  match grow_loop fuel a id with
  | None => Abort
  | Some a => reserve_in a id
  end.

Definition idalloc_new : outcome id_alloc :=
  '(_, a) ← idalloc_reserve 2 (mkAlloc ∅ ∅ ∅ None 0 0) IDALLOC_INVALID; Ret a.

Definition idalloc_free_to_pool (pool : id_alloc_pool) (id : Z) : id_alloc_pool := id :: pool.

Fixpoint idalloc_drain_pool (a : option id_alloc) (pool : id_alloc_pool) : option id_alloc * id_alloc_pool :=
  match pool with
  | [] => (a, [])
  | id :: next => idalloc_drain_pool (a ← a; Some (idalloc_free a id)) next
  end.

Definition idalloc_allocate_prefer_pool (a : id_alloc) (pool : id_alloc_pool)
  : outcome (Z * id_alloc * id_alloc_pool) :=
  match pool with
  | id :: next => Ret (id, a, next)
  | [] => '(r, a) ← idalloc_allocate a; Ret (r, a, [])
  end.

(** ** Bits of a word *)

Definition u32_word (w : Z) : Prop := 0 <= w <= UINT32_MAX.

Lemma word_high w k : u32_word w -> 32 <= k -> Z.testbit w k = false.
Proof.
  unfold u32_word, UINT32_MAX. intros [H0 H1] Hk.
  destruct (decide (w = 0)) as [->|]; [apply Z.bits_0|].
  apply Z.bits_above_log2; [lia|]. assert (Z.log2 w < 32); [|lia]. apply Z.log2_lt_pow2; lia.
Qed.

Lemma word_of_bits w : 0 <= w -> (forall k, 32 <= k -> Z.testbit w k = false) -> u32_word w.
Proof.
  intros H0 H. split; [done|]. unfold UINT32_MAX.
  destruct (decide (w = 0)) as [->|Hn]; [lia|].
  assert (Z.log2 w < 32).
  { destruct (Z.lt_ge_cases (Z.log2 w) 32); [done|]. pose proof (H (Z.log2 w) ltac:(done)) as E.
    rewrite Z.bit_log2 in E by lia. done. }
  assert (w < 2 ^ 32) by (apply Z.log2_lt_pow2; lia). lia.
Qed.

Lemma full_bits w : u32_word w -> w = UINT32_MAX <-> forall k, 0 <= k < 32 -> Z.testbit w k = true.
Proof.
  intros Hw. split.
  - intros -> k Hk. change UINT32_MAX with (Z.ones 32). by apply Z.ones_spec_low.
  - intros H. apply Z.bits_inj'. intros k Hk. destruct (Z.lt_ge_cases k 32).
    + rewrite H by lia. change UINT32_MAX with (Z.ones 32). symmetry. by apply Z.ones_spec_low.
    + rewrite word_high by done. symmetry. apply word_high; [by split|done].
Qed.

Lemma not_testbit w k : 0 <= k < 32 -> Z.testbit (u32 (Z.lnot w)) k = negb (Z.testbit w k).
Proof.
  intros Hk. unfold u32. change 4294967296 with (2 ^ 32).
  rewrite Z.mod_pow2_bits_low by lia. by rewrite Z.lnot_spec by lia.
Qed.

(** The first free bit of a word that is not full. *)
Lemma ffs_free w :
  u32_word w -> w <> UINT32_MAX ->
  exists k, FFS32 (u32 (Z.lnot w)) = k + 1 /\ 0 <= k < 32 /\ Z.testbit w k = false.
Proof.
  intros Hw Hne. unfold FFS32. destruct (List.find _ _) as [i|] eqn:E.
  - apply List.find_some in E as [Hi Hb]. apply List.in_seq in Hi.
    rewrite not_testbit in Hb by lia. exists (Z.of_nat i). split_and!; [done|lia|lia|].
    by apply negb_true_iff.
  - exfalso. apply Hne, full_bits; [done|]. intros k Hk.
    pose proof (List.find_none _ _ E (Z.to_nat k)) as H. cbv beta in H. rewrite Z2Nat.id, not_testbit in H by lia.
    apply negb_false_iff, H, List.in_seq. lia.
Qed.

Lemma set_bit_spec w k j :
  0 <= k -> 0 <= j -> Z.testbit (Z.lor w (Z.shiftl 1 k)) j = Z.testbit w j || (j =? k).
Proof.
  intros Hk Hj. rewrite Z.lor_spec, Z.shiftl_1_l, Z.pow2_bits_eqb by lia. by rewrite (Z.eqb_sym k).
Qed.

Lemma clear_bit_spec w k j :
  0 <= k < 32 -> 0 <= j < 32 ->
  Z.testbit (Z.land w (u32 (Z.lnot (Z.shiftl 1 k)))) j = Z.testbit w j && negb (j =? k).
Proof.
  intros Hk Hj. rewrite Z.land_spec, not_testbit, Z.shiftl_1_l, Z.pow2_bits_eqb by lia.
  by rewrite (Z.eqb_sym k).
Qed.

Lemma set_bit_word w k : u32_word w -> 0 <= k < 32 -> u32_word (Z.lor w (Z.shiftl 1 k)).
Proof.
  intros Hw Hk. apply word_of_bits.
  - apply Z.lor_nonneg. split; [apply Hw|]. apply Z.shiftl_nonneg. lia.
  - intros j Hj. rewrite set_bit_spec, word_high by (done || lia). simpl. lia.
Qed.

Lemma clear_bit_word w k : u32_word w -> u32_word (Z.land w k).
Proof.
  intros Hw. apply word_of_bits.
  - apply Z.land_nonneg. left. apply Hw.
  - intros j Hj. by rewrite Z.land_spec, word_high.
Qed.

Lemma test_bit_land w k : 0 <= k -> (Z.land w (Z.shiftl 1 k) =? 0) = negb (Z.testbit w k).
Proof.
  intros Hk. rewrite Z.shiftl_1_l. destruct (Z.testbit w k) eqn:E; simpl.
  - apply Z.eqb_neq. intros H. apply (f_equal (fun z => Z.testbit z k)) in H.
    rewrite Z.land_spec, E, Z.pow2_bits_true, Z.bits_0 in H by lia. done.
  - apply Z.eqb_eq, Z.bits_inj'. intros j Hj. rewrite Z.land_spec, Z.pow2_bits_eqb, Z.bits_0 by lia.
    destruct (Z.eqb_spec k j) as [->|]; [by rewrite E|apply andb_false_r].
Qed.

(** ** The parts of a number *)

Definition is_id (id : Z) : Prop := 0 <= id < 4294967296.

Lemma id_parts id :
  0 <= id -> ID_DIR id = id / 16777216 mod 256 /\ ID_SUBDIR id = id / 131072 mod 128
  /\ ID_PAGE id = id / 1024 mod 128 /\ ID_WORD id = id / 32 mod 32 /\ ID_OFFSET id = id mod 32.
Proof.
  intros H. unfold ID_DIR, ID_SUBDIR, ID_PAGE, ID_WORD, ID_OFFSET.
  rewrite Z.shiftr_0_r, !Z.shiftr_div_pow2 by lia.
  change (Z.shiftl 1 8 - 1) with (Z.ones 8). change (Z.shiftl 1 7 - 1) with (Z.ones 7).
  change (Z.shiftl 1 5 - 1) with (Z.ones 5). rewrite !Z.land_ones by lia. by split_and!.
Qed.

Lemma key_inj x y : is_id x -> is_id y -> key_of x = key_of y -> x / 1024 = y / 1024.
Proof.
  unfold is_id, key_of. intros Hx Hy [= H1 H2 H3].
  destruct (id_parts x) as (Dx & Sx & Px & _); [lia|]. destruct (id_parts y) as (Dy & Sy & Py & _); [lia|].
  rewrite Dx, Dy in H1. rewrite Sx, Sy in H2. rewrite Px, Py in H3. clear -Hx Hy H1 H2 H3.
  Z.to_euclidean_division_equations. lia.
Qed.

Lemma key_page id : is_id id -> key_of id = key_of (id / 1024 * 1024).
Proof.
  unfold is_id, key_of. intros H. destruct (id_parts id) as (-> & -> & -> & _); [lia|].
  assert (0 <= id / 1024) by (apply Z.div_pos; lia).
  destruct (id_parts (id / 1024 * 1024)) as (-> & -> & -> & _); [lia|].
  f_equal; [f_equal|]; Z.to_euclidean_division_equations; lia.
Qed.

(** The number that bit [w], [o] of page [n] stands for. *)
Lemma id_split id : is_id id -> id = id / 1024 * 1024 + ID_WORD id * 32 + ID_OFFSET id
  /\ 0 <= ID_WORD id < 32 /\ 0 <= ID_OFFSET id < 32.
Proof.
  unfold is_id. intros H. destruct (id_parts id) as (_ & _ & _ & -> & ->); [lia|].
  Z.to_euclidean_division_equations; lia.
Qed.

Lemma id_join n w o :
  0 <= n < 4194304 -> 0 <= w < 32 -> 0 <= o < 32 ->
  is_id (n * 1024 + w * 32 + o) /\ (n * 1024 + w * 32 + o) / 1024 = n
  /\ ID_WORD (n * 1024 + w * 32 + o) = w /\ ID_OFFSET (n * 1024 + w * 32 + o) = o.
Proof.
  intros Hn Hw Ho. unfold is_id. split; [lia|].
  destruct (id_parts (n * 1024 + w * 32 + o)) as (_ & _ & _ & -> & ->); [lia|].
  Z.to_euclidean_division_equations; lia.
Qed.
