(* ===== verification/IdAllocFacts.v ===== *)
(** * Correctness of the ID allocator

    The pages of an allocator in use cover an initial range of the numbers, a
    page is on the free list exactly when it has a free number, and the
    operations change the set of allocated numbers as they promise. *)

From stdpp Require Import gmap.
From S2P Require Import Prelude IdAlloc.

(** ** Linked lists *)

Section Linked.
Context {K : Type}.
Implicit Types (nxt : K -> option (option K)) (L A B : list K).

(** [L] is what one meets from [c] on. *)
Fixpoint linked nxt (c : option K) L : Prop :=
  match L with
  | [] => c = None
  | x :: L => c = Some x /\ exists d, nxt x = Some d /\ linked nxt d L
  end.

Lemma linked_ext nxt nxt2 L : forall c,
  linked nxt c L -> (forall x, x ∈ L -> nxt2 x = nxt x) -> linked nxt2 c L.
Proof.
  induction L as [|x L IH]; intros c Hl Hx; simpl in *; [done|].
  destruct Hl as (-> & d & Hd & Hl). split; [done|]. exists d.
  rewrite Hx by (apply elem_of_cons; by left). split; [done|]. apply IH; [done|].
  intros y Hy. apply Hx, elem_of_cons. by right.
Qed.

Lemma linked_tail nxt A : forall c x B,
  linked nxt c (A ++ x :: B) -> exists d, nxt x = Some d /\ linked nxt d B.
Proof.
  induction A as [|y A IH]; simpl; intros c x B H.
  - destruct H as (_ & d & ? & ?). eauto.
  - destruct H as (_ & d & _ & H). eauto.
Qed.

(** Taking the element after [a] out. *)
Lemma linked_unlink nxt nxt2 A a k B : forall c d,
  linked nxt c (A ++ a :: k :: B) -> NoDup (A ++ a :: k :: B) -> nxt k = Some d ->
  nxt2 a = Some d -> (forall x, x ∈ A ++ B -> nxt2 x = nxt x) ->
  linked nxt2 c (A ++ a :: B).
Proof.
  induction A as [|y A IH]; simpl; intros c d Hl Hn Hk Ha Hx.
  - destruct Hl as (-> & e & He & Hl). split; [done|]. exists d. split; [done|].
    destruct Hl as (-> & e2 & He2 & Hl). simplify_eq. eapply linked_ext; [done|]. auto.
  - destruct Hl as (-> & e & He & Hl). apply NoDup_cons_1_2 in Hn. split; [done|]. exists e.
    rewrite Hx by (apply elem_of_cons; by left). split; [done|]. eapply IH; try done.
    intros x Hin. apply Hx, elem_of_cons. by right.
Qed.
End Linked.

(** ** The invariant *)

Record page_ok (i : Z) (p : id_alloc_page) : Prop := {
  ok_len : length (allocated_mask p) = 32%nat;
  ok_words : forall w, 0 <= w < 32 -> u32_word (word_at p w);
  ok_mask : u32_word (full_word_mask p);
  ok_full : forall w, 0 <= w < 32 ->
    Z.testbit (full_word_mask p) w = (word_at p w =? UINT32_MAX);
  ok_base : base_value p = i * 1024
}.

Definition page_next (ps : gmap page_key id_alloc_page) (k : page_key) : option (option page_key) :=
  next_has_free <$> ps !! k.

(** [n] pages exist, and [F] is the list of those with free numbers. *)
Record wf (a : id_alloc) (n : Z) (F : list page_key) : Prop := {
  wf_n : 0 <= n <= 4194304;
  wf_cap : capacity a = u32 (n * 1024);
  wf_page : forall i, 0 <= i < n -> exists p, pages a !! key_of (i * 1024) = Some p /\ page_ok i p;
  wf_dom : forall k p, pages a !! k = Some p -> exists i, 0 <= i < n /\ k = key_of (i * 1024);
  wf_dirs : forall i, 0 <= i < n ->
    ID_DIR (i * 1024) ∈ dirs a /\ (ID_DIR (i * 1024), ID_SUBDIR (i * 1024)) ∈ subdirs a;
  wf_dir0 : 0 ∈ dirs a -> 0 < n;
  wf_chain : linked (page_next (pages a)) (has_free a) F;
  wf_nodup : NoDup F;
  wf_free : forall k, k ∈ F <-> exists p, pages a !! k = Some p /\ full_word_mask p <> UINT32_MAX
}.

Definition wf_alloc (a : id_alloc) : Prop := exists n F, wf a n F.

Definition is_alloc (a : id_alloc) (id : Z) : bool :=
  match pages a !! key_of id with
  | Some p => Z.testbit (word_at p (ID_WORD id)) (ID_OFFSET id)
  | None => false
  end.

Lemma page_id i : 0 <= i < 4194304 -> is_id (i * 1024) /\ i * 1024 / 1024 = i.
Proof. intros H. unfold is_id. rewrite Z.div_mul by lia. lia. Qed.

Lemma key_page_inj i j : 0 <= i < 4194304 -> 0 <= j < 4194304 ->
  key_of (i * 1024) = key_of (j * 1024) -> i = j.
Proof.
  intros Hi Hj E. destruct (page_id i Hi) as [A1 A2]. destruct (page_id j Hj) as [B1 B2].
  apply key_inj in E; [|done|done]. lia.
Qed.

Lemma id_page_range id : is_id id -> 0 <= id / 1024 < 4194304.
Proof. unfold is_id. intros H. Z.to_euclidean_division_equations; lia. Qed.

Section Inv.
Context (a : id_alloc) (n : Z) (F : list page_key) (W : wf a n F).

Lemma page_at id : is_id id -> id / 1024 < n ->
  exists p, pages a !! key_of id = Some p /\ page_ok (id / 1024) p.
Proof.
  intros Hi Hn. rewrite key_page by done. apply (wf_page a n F W).
  pose proof (id_page_range id Hi). lia.
Qed.

Lemma no_page_at id : is_id id -> n <= id / 1024 -> pages a !! key_of id = None.
Proof.
  intros Hi Hn. destruct (pages a !! key_of id) as [p|] eqn:E; [|done].
  destruct (wf_dom a n F W _ _ E) as (i & Hi2 & Ek). pose proof (wf_n a n F W).
  destruct (page_id i) as [P1 P2]; [lia|]. apply key_inj in Ek; [|done|done]. lia.
Qed.

Lemma find_page id : is_id id ->
  find_or_create_page a id false = (if id / 1024 <? n then Some (key_of id) else None, a).
Proof.
  intros Hi. pose proof (id_page_range id Hi) as Hr. unfold find_or_create_page.
  destruct (Z.ltb_spec (id / 1024) n) as [Hn|Hn].
  - destruct (page_at id Hi Hn) as (p & Hp & _).
    destruct (wf_dirs a n F W (id / 1024)) as [H1 H2]; [lia|].
    pose proof (key_page id Hi) as E. unfold key_of in E. injection E as E1 E2 E3.
    rewrite <- E1 in H1, H2. rewrite <- E2 in H2.
    rewrite bool_decide_true by done. cbn [negb andb subdirs]. rewrite bool_decide_true by done.
    cbn [negb andb pages]. rewrite Hp. f_equal. destruct a as [ds ss ps hf al cp]. simpl in *.
    f_equal; set_solver.
  - case_bool_decide as H1; [|done]. cbn [negb andb subdirs].
    assert ({[ID_DIR id]} ∪ dirs a = dirs a) as -> by set_solver.
    case_bool_decide as H2; cbn [negb andb pages dirs].
    + rewrite (no_page_at id Hi Hn).
      assert ({[(ID_DIR id, ID_SUBDIR id)]} ∪ subdirs a = subdirs a) as -> by set_solver. by destruct a.
    + by destruct a.
Qed.

Lemma empty_page_ok i : page_ok i (mkPage (replicate 32 0) 0 (i * 1024) (has_free a)).
Proof.
  assert (forall w, 0 <= w < 32 -> word_at (mkPage (replicate 32 0) 0 (i * 1024) (has_free a)) w = 0) as H0.
  { intros w Hw. unfold word_at, byte_at. cbn [allocated_mask]. by rewrite lookup_replicate_2 by lia. }
  split; try done.
  - intros w Hw. rewrite H0 by done. by split.
  - intros w Hw. rewrite H0 by done. cbn [full_word_mask]. by rewrite Z.bits_0.
Qed.

Lemma create_full : n = 4194304 -> create_next_page a = (None, a).
Proof.
  intros ->. unfold create_next_page. rewrite (wf_cap a _ F W). change (u32 (4194304 * 1024)) with 0.
  destruct (wf_dirs a _ F W 0) as [H _]; [lia|]. change (ID_DIR (0 * 1024)) with 0 in H.
  by rewrite bool_decide_true.
Qed.

Lemma create_page : n < 4194304 ->
  let k := key_of (n * 1024) in
  let a' := mkAlloc ({[ID_DIR (n * 1024)]} ∪ dirs a) ({[(ID_DIR (n * 1024), ID_SUBDIR (n * 1024))]} ∪ subdirs a)
              (<[k := mkPage (replicate 32 0) 0 (n * 1024) (has_free a)]> (pages a)) (Some k)
              (allocated a) (u32 (n * 1024 + 1024)) in
  create_next_page a = (Some k, a') /\ wf a' (n + 1) (k :: F)
  /\ forall id, is_id id -> is_alloc a' id = is_alloc a id.
Proof.
  intros Hn. cbv zeta. pose proof (wf_n a n F W) as Hn0.
  assert (is_id (n * 1024) /\ n * 1024 / 1024 = n) as [Hid Hdiv] by (apply page_id; lia).
  assert (capacity a = n * 1024) as Ec by (rewrite (wf_cap a n F W); apply u32_small; unfold is_id in Hid; lia).
  assert (pages a !! key_of (n * 1024) = None) as Hnone by (apply no_page_at; [done|lia]).
  set (k := key_of (n * 1024)) in *. set (pg := mkPage (replicate 32 0) 0 (n * 1024) (has_free a)).
  split_and!.
  - unfold create_next_page. rewrite Ec. destruct ((n * 1024 =? 0) && bool_decide (0 ∈ dirs a)) eqn:E0.
    { apply andb_true_iff in E0 as [E1 E2]. apply bool_decide_eq_true in E2.
      pose proof (wf_dir0 a n F W E2). lia. }
    unfold find_or_create_page. rewrite !andb_false_r. cbn [pages]. fold k. rewrite Hnone.
    cbn [dirs subdirs pages has_free allocated capacity]. by rewrite Ec.
  - assert (forall i, 0 <= i < n -> key_of (i * 1024) <> k) as Hne.
    { intros i Hi E. apply key_page_inj in E; lia. }
    split; cbn [dirs subdirs pages has_free allocated capacity].
    + lia.
    + f_equal. lia.
    + intros i Hi. destruct (decide (i = n)) as [->|Hin].
      * exists pg. split; [apply lookup_insert_eq|apply empty_page_ok].
      * destruct (wf_page a n F W i) as (p & Hp & Hok); [lia|]. exists p. split; [|done].
        rewrite lookup_insert_ne; [done|]. apply not_eq_sym, Hne. lia.
    + intros k' p H. destruct (decide (k' = k)) as [->|Hk]; [exists n; split; [lia|done]|].
      rewrite lookup_insert_ne in H by done. destruct (wf_dom a n F W _ _ H) as (i & Hi & ->).
      exists i. split; [lia|done].
    + intros i Hi. destruct (decide (i = n)) as [->|Hin]; [set_solver|].
      destruct (wf_dirs a n F W i) as [H1 H2]; [lia|]. set_solver.
    + intros _. lia.
    + split; [done|]. exists (has_free a). split; [unfold page_next; by rewrite lookup_insert_eq|].
      eapply linked_ext; [apply (wf_chain a n F W)|]. intros x Hx. unfold page_next.
      rewrite lookup_insert_ne; [done|]. intros <-. apply (wf_free a n F W) in Hx as (p & Hp & _). congruence.
    + apply NoDup_cons_2; [|apply (wf_nodup a n F W)]. intros Hx.
      apply (wf_free a n F W) in Hx as (p & Hp & _). congruence.
    + intros k'. rewrite elem_of_cons, (wf_free a n F W). destruct (decide (k' = k)) as [->|Hk].
      * rewrite lookup_insert_eq. split; [intros _; by exists pg|by left].
      * rewrite lookup_insert_ne by done. split; [intros [?|?]; done|by right].
  - intros id Hi. unfold is_alloc. cbn [pages]. destruct (decide (key_of id = k)) as [->|Hk].
    + rewrite lookup_insert_eq, Hnone. destruct (id_split id Hi) as (_ & Hw & Ho).
      unfold word_at, byte_at, pg. cbn [allocated_mask]. rewrite lookup_replicate_2 by lia. apply Z.bits_0.
    + by rewrite lookup_insert_ne.
Qed.
End Inv.

(** ** Changing one page *)

Definition drop_next (p : id_alloc_page) : id_alloc_page := set_next_free None p.

Lemma drop_next_lookup (ps ps2 : gmap page_key id_alloc_page) k p :
  drop_next <$> ps2 !! k = drop_next <$> ps !! k -> ps !! k = Some p ->
  exists p2, ps2 !! k = Some p2 /\ allocated_mask p2 = allocated_mask p
    /\ full_word_mask p2 = full_word_mask p /\ base_value p2 = base_value p.
Proof.
  intros H Hp. rewrite Hp in H. destruct (ps2 !! k) as [p2|]; [|done]. exists p2.
  simpl in H. injection H as ?. unfold drop_next, set_next_free in *. by simplify_eq.
Qed.

Lemma page_ok_core i p p2 :
  allocated_mask p2 = allocated_mask p -> full_word_mask p2 = full_word_mask p ->
  base_value p2 = base_value p -> page_ok i p -> page_ok i p2.
Proof.
  intros E1 E2 E3 [H1 H2 H3 H4 H5]. assert (forall w, word_at p2 w = word_at p w) as Ew.
  { intros w. unfold word_at. by rewrite E1. }
  split; [congruence| |congruence| |congruence]; intros w Hw; rewrite Ew, ?E2; auto.
Qed.

Section Change.
Context (a : id_alloc) (n : Z) (F : list page_key) (W : wf a n F).
Context (i : Z) (Hi : 0 <= i < n) (p : id_alloc_page) (Hp : pages a !! key_of (i * 1024) = Some p).
Let k := key_of (i * 1024).

Lemma change_page p' ps' hf F' al :
  ps' !! k = Some p' -> page_ok i p' ->
  (forall k', k' <> k -> drop_next <$> ps' !! k' = drop_next <$> pages a !! k') ->
  linked (page_next ps') hf F' -> NoDup F' ->
  (forall k', k' ∈ F' <-> (k' = k /\ full_word_mask p' <> UINT32_MAX) \/ (k' <> k /\ k' ∈ F)) ->
  wf (mkAlloc (dirs a) (subdirs a) ps' hf al (capacity a)) n F'
  /\ forall id, is_id id ->
       is_alloc (mkAlloc (dirs a) (subdirs a) ps' hf al (capacity a)) id
       = if id / 1024 =? i then Z.testbit (word_at p' (ID_WORD id)) (ID_OFFSET id) else is_alloc a id.
Proof.
  intros Hk Hok Hdrop HC HN HF. destruct W as [W1 W2 W3 W4 W5 W6 W7 W8 W9]. split.
  - split; cbn [dirs subdirs pages has_free allocated capacity]; try done.
    + intros j Hj. destruct (decide (key_of (j * 1024) = k)) as [E|E].
      * rewrite E. apply key_page_inj in E as ->; [by exists p'|lia|lia].
      * destruct (W3 j Hj) as (q & Hq & Hqok).
        destruct (drop_next_lookup _ _ _ _ (Hdrop _ E) Hq) as (q2 & Hq2 & E1 & E2 & E3).
        exists q2. split; [done|]. by eapply page_ok_core.
    + intros k' q Hq. destruct (decide (k' = k)) as [->|Hne]; [by exists i|].
      destruct (drop_next_lookup _ _ _ _ (eq_sym (Hdrop _ Hne)) Hq) as (q2 & Hq2 & _). by eapply W4.
    + intros k'. rewrite HF. destruct (decide (k' = k)) as [->|Hne].
      * rewrite Hk. split; [intros [[_ H]|[? _]]; [by exists p'|done]|].
        intros (q & [= <-] & H). by left.
      * rewrite W9. split.
        -- intros [[? _]|[_ (q & Hq & H)]]; [done|].
           destruct (drop_next_lookup _ _ _ _ (Hdrop _ Hne) Hq) as (q2 & Hq2 & _ & E2 & _).
           exists q2. split; [done|congruence].
        -- intros (q & Hq & H). right. split; [done|].
           destruct (drop_next_lookup _ _ _ _ (eq_sym (Hdrop _ Hne)) Hq) as (q2 & Hq2 & _ & E2 & _).
           exists q2. split; [done|congruence].
  - intros id Hid. unfold is_alloc. cbn [pages].
    destruct (Z.eqb_spec (id / 1024) i) as [E|E].
    + assert (key_of id = k) as -> by (unfold k; by rewrite <- E, <- key_page). by rewrite Hk.
    + assert (key_of id <> k) as Hne.
      { intros Ek. apply E. destruct (page_id i) as [P1 P2]; [lia|]. apply key_inj in Ek; [|done|done]. lia. }
      pose proof (Hdrop _ Hne) as Hd. destruct (option_cases (pages a !! key_of id)) as [Eq|[q Eq]]; rewrite Eq.
      * rewrite Eq in Hd. by destruct (ps' !! key_of id).
      * destruct (drop_next_lookup _ _ _ _ Hd Eq) as (q2 & -> & E1 & _). unfold word_at. by rewrite E1.
Qed.

(** The common case: the page keeps its place on the free list. *)
Lemma put_page_spec p' al :
  page_ok i p' -> next_has_free p' = next_has_free p ->
  (full_word_mask p' = UINT32_MAX <-> full_word_mask p = UINT32_MAX) ->
  wf (set_allocated al (put_page k p' a)) n F
  /\ forall id, is_id id -> is_alloc (set_allocated al (put_page k p' a)) id
       = if id / 1024 =? i then Z.testbit (word_at p' (ID_WORD id)) (ID_OFFSET id) else is_alloc a id.
Proof.
  intros Hok Hnx Hfull. apply (change_page p' (<[k := p']> (pages a)) (has_free a) F al); try done.
  - apply lookup_insert_eq.
  - intros k' Hne. by rewrite lookup_insert_ne.
  - eapply linked_ext; [apply (wf_chain a n F W)|]. intros x _. unfold page_next.
    destruct (decide (x = k)) as [->|Hne]; [|by rewrite lookup_insert_ne].
    rewrite lookup_insert_eq. fold k in Hp. rewrite Hp. simpl. by rewrite Hnx.
  - apply (wf_nodup a n F W).
  - intros k'. destruct (decide (k' = k)) as [->|Hne]; [|tauto]. rewrite (wf_free a n F W). fold k in Hp.
    rewrite Hp. split.
    + intros (q & [= <-] & H). left. tauto.
    + intros [[_ H]|[? _]]; [|done]. exists p. tauto.
Qed.
End Change.

(** ** Marking and clearing a bit *)

Lemma word_at_set w v p j :
  length (allocated_mask p) = 32%nat -> 0 <= w < 32 -> 0 <= j < 32 ->
  word_at (set_word w v p) j = if j =? w then v else word_at p j.
Proof.
  intros Hl Hw Hj. unfold word_at, set_word. cbn [allocated_mask]. rewrite byte_at_insert by lia.
  destruct (Z.eqb_spec j w) as [->|Hne]; [by rewrite decide_True by lia|by rewrite decide_False by lia].
Qed.

(** A page whose word [w] was changed together with its bit in the mask of full
    words. *)
Lemma set_word_ok i p w v m :
  page_ok i p -> 0 <= w < 32 -> u32_word v -> u32_word m ->
  (forall j, 0 <= j < 32 -> Z.testbit m j
     = if j =? w then v =? UINT32_MAX else Z.testbit (full_word_mask p) j) ->
  page_ok i (set_full m (set_word w v p)).
Proof.
  intros [H1 H2 H3 H4 H5] Hw Hv Hm Hb.
  assert (forall j, 0 <= j < 32 -> word_at (set_full m (set_word w v p)) j
    = if j =? w then v else word_at p j) as Hword by (intros j Hj; by apply word_at_set).
  split; try done.
  - simpl. by rewrite length_insert.
  - intros j Hj. rewrite Hword by done. destruct (j =? w); auto.
  - intros j Hj. rewrite Hword, Hb by done. destruct (j =? w); auto.
Qed.

Lemma same_full i p w v :
  page_ok i p -> 0 <= w < 32 -> u32_word v -> (v =? UINT32_MAX) = (word_at p w =? UINT32_MAX) ->
  page_ok i (set_word w v p).
Proof.
  intros Hok Hw Hv Hs. change (set_word w v p) with (set_full (full_word_mask p) (set_word w v p)).
  apply set_word_ok; try done; [apply Hok|]. intros j Hj. destruct (Z.eqb_spec j w) as [->|]; [|done].
  rewrite Hs. by apply Hok.
Qed.

(** Numbers of page [i]. *)
Lemma id_eqb id i w o :
  is_id id -> 0 <= i < 4194304 -> 0 <= w < 32 -> 0 <= o < 32 ->
  (id =? i * 1024 + w * 32 + o) = (id / 1024 =? i) && (ID_WORD id =? w) && (ID_OFFSET id =? o).
Proof.
  intros Hid Hi Hw Ho. destruct (id_split id Hid) as (E & _). destruct (id_join i w o Hi Hw Ho) as (_ & J1 & J2 & J3).
  destruct (Z.eqb_spec id (i * 1024 + w * 32 + o)) as [->|Hne].
  - rewrite J1, J2, J3, !Z.eqb_refl. done.
  - symmetry. apply not_true_iff_false. intros H. bool_to_prop. apply Hne. lia.
Qed.

Lemma free_length a n F : wf a n F -> (length F <= size (pages a))%nat.
Proof.
  intros W. rewrite <- (size_list_to_set (C:=gset page_key)) by apply (wf_nodup a n F W).
  rewrite <- size_dom. apply subseteq_size. intros x Hx. apply elem_of_list_to_set in Hx.
  apply (wf_free a n F W) in Hx as (p & Hp & _). apply elem_of_dom. eauto.
Qed.

(** Walking the free list to the page before [k]. *)
Lemma unlink_loop_spec a k nx A : forall fuel c x B q,
  linked (page_next (pages a)) c (A ++ x :: k :: B) -> NoDup (A ++ x :: k :: B) ->
  pages a !! x = Some q -> (length A < fuel)%nat ->
  unlink_loop fuel c k nx a = Ret (put_page x (set_next_free nx q) a).
Proof.
  induction A as [|y A IH]; intros fuel c x B q HC HN Hq Hf;
    (destruct fuel as [|fuel]; [simpl in Hf; lia|]); cbn [unlink_loop]; simpl in HC.
  - destruct HC as (-> & d & Hd & HC). rewrite Hq. unfold page_next in Hd. rewrite Hq in Hd.
    injection Hd as <-. destruct HC as (-> & _). by rewrite bool_decide_true.
  - destruct HC as (-> & d & Hd & HC). unfold page_next in Hd.
    destruct (pages a !! y) as [py|]; [|done]. injection Hd as <-. simpl in HN.
    apply NoDup_cons_1_2 in HN as HN2.
    rewrite bool_decide_false.
    + apply (IH fuel _ x B q); try done. simpl in Hf. lia.
    + intros E. rewrite E in HC. destruct A as [|z A]; simpl in HC.
      * destruct HC as ([= ->] & _). simpl in HN2. apply NoDup_cons_1_1 in HN2. set_solver.
      * destruct HC as ([= ->] & _). simpl in HN2. apply NoDup_cons_1_1 in HN2. set_solver.
Qed.

Lemma remove_elem {A} (L1 L2 : list A) k : NoDup (L1 ++ k :: L2) ->
  NoDup (L1 ++ L2) /\ forall x, x ∈ L1 ++ L2 <-> x <> k /\ x ∈ L1 ++ k :: L2.
Proof.
  intros H. apply list.NoDup_app in H as (N1 & N2 & N3). pose proof (NoDup_cons_1_1 _ _ N3) as N4.
  apply NoDup_cons_1_2 in N3. split.
  - apply list.NoDup_app. split_and!; try done. intros x Hx Hx2. apply (N2 x Hx), elem_of_cons. by right.
  - intros x. rewrite !elem_of_app, elem_of_cons. split; [|tauto]. intros [Hx|Hx].
    + split; [|by left]. intros ->. apply (N2 k Hx), elem_of_cons. by left.
    + split; [|tauto]. by intros ->.
Qed.

Section Reserve.
Context (a : id_alloc) (n : Z) (F : list page_key) (W : wf a n F).
Context (i : Z) (Hi : 0 <= i < n) (p : id_alloc_page) (Hp : pages a !! key_of (i * 1024) = Some p).
Let k := key_of (i * 1024).

Lemma page_here : page_ok i p.
Proof. destruct (wf_page a n F W i Hi) as (q & Hq & Hok). congruence. Qed.

Lemma unlink_full p' al :
  page_ok i p' -> next_has_free p' = next_has_free p -> full_word_mask p' = UINT32_MAX ->
  full_word_mask p <> UINT32_MAX ->
  exists ps hf F', 
    (if bool_decide (has_free (set_allocated al (put_page k p' a)) = Some k)
     then Ret (set_has_free (next_has_free p') (set_allocated al (put_page k p' a)))
     else unlink_loop (S (size (pages (set_allocated al (put_page k p' a)))))
            (has_free (set_allocated al (put_page k p' a))) k (next_has_free p')
            (set_allocated al (put_page k p' a)))
    = Ret (mkAlloc (dirs a) (subdirs a) ps hf al (capacity a))
    /\ wf (mkAlloc (dirs a) (subdirs a) ps hf al (capacity a)) n F'
    /\ forall id, is_id id -> is_alloc (mkAlloc (dirs a) (subdirs a) ps hf al (capacity a)) id
       = if id / 1024 =? i then Z.testbit (word_at p' (ID_WORD id)) (ID_OFFSET id) else is_alloc a id.
Proof.
  intros Hok Hnx Hfull Hnf. fold k in Hp.
  assert (k ∈ F) as HkF by (apply (wf_free a n F W); by exists p).
  apply list_elem_of_In, List.in_split in HkF as (A & B & EF).
  pose proof (wf_chain a n F W) as HC. pose proof (wf_nodup a n F W) as HN. rewrite EF in HC, HN.
  destruct (remove_elem A B k HN) as [HN2 Hmem].
  destruct (linked_tail _ _ _ _ _ HC) as (d & Hd & HB). unfold page_next in Hd. rewrite Hp in Hd.
  injection Hd as <-. assert (forall x, x ∈ A ++ B -> x <> k) as Hne by (intros x Hx; by apply Hmem).
  assert (forall x, page_next (<[k := p']> (pages a)) x = page_next (pages a) x) as Hsame.
  { intros x. unfold page_next. destruct (decide (x = k)) as [->|Hx]; [|by rewrite lookup_insert_ne].
    rewrite lookup_insert_eq, Hp. simpl. by rewrite Hnx. }
  assert (forall k', k' ∈ A ++ B <-> (k' = k /\ full_word_mask p' <> UINT32_MAX) \/ (k' <> k /\ k' ∈ F)) as HF'.
  { intros k'. rewrite Hmem, EF. tauto. }
  unfold set_allocated, put_page, set_pages, set_has_free. cbn [dirs subdirs pages has_free allocated capacity].
  destruct (decide (A = [])) as [EA|EA].
  - rewrite EA in *. simpl in HC, HF', Hne. destruct HC as (Eh & _).
    rewrite bool_decide_true by done. exists (<[k:=p']> (pages a)), (next_has_free p'), B. split; [done|].
    apply (change_page a n F W i Hi p'); try done.
    + apply lookup_insert_eq.
    + intros k' Hk'. by rewrite lookup_insert_ne.
    + rewrite Hnx. eapply linked_ext; [exact HB|]. auto.
  - destruct (exists_last EA) as (A0 & x & EA2). rewrite EA2, <- app_assoc in HC, HN. simpl in HC, HN.
    assert (x ∈ A ++ B) as Hx by (rewrite EA2, !elem_of_app, list_elem_of_singleton; tauto).
    assert (has_free a <> Some k) as Hh.
    { intros Eh. destruct A as [|y A']; [done|].  pose proof (wf_chain a n F W) as HC2. rewrite EF in HC2. destruct HC2 as (Ey & _).
      apply (Hne y); [apply elem_of_cons; by left|congruence]. }
    rewrite bool_decide_false by done.
    assert (x ∈ F) as HxF by (apply HF' in Hx; tauto). apply (wf_free a n F W) in HxF as (q & Hq & _).
    assert (<[k:=p']> (pages a) !! x = Some q) as Hq2 by (rewrite lookup_insert_ne; [done|apply not_eq_sym; auto]).
    rewrite (unlink_loop_spec _ k (next_has_free p') A0 _ _ x B q); cbn [pages]; try done.
    + unfold put_page, set_pages. cbn [dirs subdirs pages has_free allocated capacity].
      eexists _, _, (A ++ B). split; [done|]. apply (change_page a n F W i Hi p'); try done.
      * rewrite lookup_insert_ne, lookup_insert_eq; auto.
      * intros k' Hk'. destruct (decide (k' = x)) as [->|Hkx].
        { rewrite lookup_insert_eq. fold k. rewrite Hq. done. }
        by rewrite !lookup_insert_ne.
      * rewrite EA2, <- app_assoc. simpl.
        apply (linked_unlink (page_next (pages a)) _ A0 x k B (has_free a) (next_has_free p')); try done.
        -- unfold page_next. by rewrite Hp, Hnx.
        -- unfold page_next. by rewrite lookup_insert_eq.
        -- intros y Hy. rewrite <- (Hsame y). unfold page_next. rewrite lookup_insert_ne; [done|]. intros <-.
           apply list.NoDup_app in HN as (_ & N2 & N3). apply elem_of_app in Hy as [Hy|Hy].
           ++ apply (N2 x Hy), elem_of_cons. by left.
           ++ apply NoDup_cons_1_1 in N3. apply N3, elem_of_cons. by right.
    + eapply linked_ext; [exact HC|]. intros y _. apply Hsame.
    + rewrite map_size_insert_Some by (by exists p). pose proof (free_length a n F W) as HL.
      rewrite EF, EA2, !length_app in HL. simpl in HL. lia.
Qed.
Context (w o : Z) (Hw : 0 <= w < 32) (Ho : 0 <= o < 32).

(** What a page with a different word [w] means for the set of numbers. *)
Lemma word_changed p' v (f : bool -> bool -> bool) :
  (forall j, 0 <= j < 32 -> word_at p' j = if j =? w then v else word_at p j) ->
  (forall b, f b false = b) ->
  (forall j, 0 <= j < 32 -> Z.testbit v j = f (Z.testbit (word_at p w) j) (j =? o)) ->
  forall id, is_id id ->
    (if id / 1024 =? i then Z.testbit (word_at p' (ID_WORD id)) (ID_OFFSET id) else is_alloc a id)
    = f (is_alloc a id) (id =? i * 1024 + w * 32 + o).
Proof.
  intros Hword Hf Hv id Hid. pose proof (wf_n a n F W). rewrite id_eqb by (done || lia).
  destruct (id_split id Hid) as (_ & Hiw & Hio).
  destruct (Z.eqb_spec (id / 1024) i) as [E|E]; [|by rewrite Hf].
  assert (is_alloc a id = Z.testbit (word_at p (ID_WORD id)) (ID_OFFSET id)) as ->.
  { unfold is_alloc. assert (key_of id = key_of (i * 1024)) as -> by (by rewrite <- E, <- key_page). by rewrite Hp. }
  rewrite Hword by done. destruct (Z.eqb_spec (ID_WORD id) w) as [->|Hne]; simpl; [by apply Hv|by rewrite Hf].
Qed.
End Reserve.

Lemma put_twice k p1 p2 al a :
  put_page k p2 (set_allocated al (put_page k p1 a)) = set_allocated al (put_page k p2 a).
Proof. unfold put_page, set_allocated, set_pages. simpl. by rewrite insert_insert_eq. Qed.

Lemma reserve_bit_spec a n F i p w o :
  wf a n F -> 0 <= i < n -> pages a !! key_of (i * 1024) = Some p -> 0 <= w < 32 -> 0 <= o < 32 ->
  Z.testbit (word_at p w) o = false ->
  exists a' F', reserve_bit a (key_of (i * 1024)) w o = Ret a' /\ wf a' n F'
    /\ forall id, is_id id -> is_alloc a' id = is_alloc a id || (id =? i * 1024 + w * 32 + o).
Proof.
  intros W Hi Hp Hw Ho Hbit. pose proof (page_here a n F W i Hi p Hp) as Hok.
  assert (word_at p w <> UINT32_MAX) as Hnf.
  { intros E. rewrite full_bits in E by (by apply Hok). rewrite E in Hbit; done. }
  assert (Z.testbit (full_word_mask p) w = false) as Hfw by (rewrite (ok_full i p Hok) by done; lia).
  assert (full_word_mask p <> UINT32_MAX) as Hpf.
  { intros E. rewrite full_bits in E by apply Hok. rewrite E in Hfw; done. }
  set (v := Z.lor (word_at p w) (Z.shiftl 1 o)).
  assert (u32_word v) as Hv by (apply set_bit_word; [by apply Hok|done]).
  assert (forall m j, 0 <= j < 32 -> word_at (set_full m (set_word w v p)) j = if j =? w then v else word_at p j)
    as Hword by (intros m j Hj; apply word_at_set; [apply Hok|done..]).
  assert (forall m id, is_id id ->
    (if id / 1024 =? i then Z.testbit (word_at (set_full m (set_word w v p)) (ID_WORD id)) (ID_OFFSET id) else is_alloc a id)
    = is_alloc a id || (id =? i * 1024 + w * 32 + o)) as Hids.
  { intros m. apply (word_changed a n F W i Hi p Hp w o Hw Ho _ v orb); [apply Hword|apply orb_false_r|].
    intros j Hj. apply set_bit_spec; lia. }
  unfold reserve_bit. rewrite Hp. fold v.
  rewrite word_at_set, Z.eqb_refl by (done || apply Hok).
  destruct (Z.eqb_spec v UINT32_MAX) as [Ev|Ev].
  - cbn [full_word_mask set_word]. set (m := Z.lor (full_word_mask p) (Z.shiftl 1 w)). rewrite put_twice.
    assert (page_ok i (set_full m (set_word w v p))) as Hok2.
    { apply set_word_ok; try done; [apply set_bit_word; [apply Hok|done]|]. intros j Hj.
      unfold m. rewrite set_bit_spec by lia. destruct (Z.eqb_spec j w) as [->|]; [|apply orb_false_r].
      rewrite orb_true_r. by rewrite Ev. }
    cbn [full_word_mask set_full set_word].
    destruct (Z.eqb_spec m UINT32_MAX) as [Em|Em].
    + destruct (unlink_full a n F W i Hi p Hp (set_full m (set_word w v p)) (u32 (allocated a + 1)) Hok2 eq_refl Em Hpf)
        as (ps & hf & F' & E & W' & H'). eexists _, F'. split; [exact E|]. split; [done|].
      intros id Hid. rewrite H', Hids by done. done.
    + destruct (put_page_spec a n F W i Hi p Hp (set_full m (set_word w v p)) (u32 (allocated a + 1)) Hok2 eq_refl) as [W' H'].
      { split; [done|done]. }
      eexists _, F. split; [done|]. split; [done|]. intros id Hid. rewrite H', Hids by done. done.
  - assert (page_ok i (set_word w v p)) as Hok2 by (apply same_full; try done; lia).
    destruct (put_page_spec a n F W i Hi p Hp (set_word w v p) (u32 (allocated a + 1)) Hok2 eq_refl) as [W' H'];
      [done|]. eexists _, F. split; [done|]. split; [done|].
    intros id Hid. rewrite H' by done. apply (Hids (full_word_mask p) id Hid).
Qed.

(** ** The operations *)

Lemma allocate_from_spec a n k F :
  wf a n (k :: F) ->
  exists r a', allocate_from a = Ret (r, a') /\ wf_alloc a' /\ is_id r /\ is_alloc a r = false
    /\ forall id, is_id id -> is_alloc a' id = is_alloc a id || (id =? r).
Proof.
  intros W. pose proof (wf_chain _ _ _ W) as HC. destruct HC as (Eh & _). unfold allocate_from. rewrite Eh.
  assert (k ∈ k :: F) as Hk by (apply elem_of_cons; by left).
  apply (wf_free _ _ _ W) in Hk as (p & Hp & Hnf). rewrite Hp.
  destruct (wf_dom _ _ _ W _ _ Hp) as (i & Hi & ->). pose proof (page_here _ _ _ W i Hi p Hp) as Hok.
  pose proof (wf_n _ _ _ W). cbv zeta.
  destruct (ffs_free (full_word_mask p) (ok_mask i p Hok) Hnf) as (w & -> & Hw & Hfw).
  replace (w + 1 - 1) with w by lia. rewrite (ok_full i p Hok) in Hfw by done.
  assert (word_at p w <> UINT32_MAX) as Hnw by lia.
  destruct (ffs_free (word_at p w) (ok_words i p Hok w Hw) Hnw) as (o & -> & Ho & Hfo).
  replace (o + 1 - 1) with o by lia.
  destruct (Z.ltb_spec w 0); [lia|]. destruct (Z.leb_spec 32 w); [lia|].
  destruct (Z.ltb_spec o 0); [lia|]. destruct (Z.leb_spec 32 o); [lia|]. cbn [orb].
  destruct (reserve_bit_spec a n _ i p w o W Hi Hp Hw Ho Hfo) as (a' & F' & -> & W' & H').
  cbn [mbind outcome_bind]. rewrite (ok_base i p Hok).
  destruct (id_join i w o) as (Hid & J1 & J2 & J3); [lia|done|done|].
  rewrite u32_small by (unfold is_id in Hid; lia). exists (i * 1024 + w * 32 + o), a'.
  split_and!; try done; [by exists n, F'|].
  unfold is_alloc. rewrite key_page, J1, J2, J3 by done. by rewrite Hp.
Qed.

(** No free list, no free number. *)
Lemma all_taken a id : wf a 4194304 [] -> is_id id -> is_alloc a id = true.
Proof.
  intros W Hid. pose proof (id_page_range id Hid).
  destruct (page_at a _ [] W id Hid) as (p & Hp & Hok); [lia|]. unfold is_alloc. rewrite Hp.
  destruct (id_split id Hid) as (_ & Hiw & Hio). apply full_bits; [by apply Hok| |done].
  assert (full_word_mask p = UINT32_MAX) as Ef.
  { destruct (decide (full_word_mask p = UINT32_MAX)); [done|]. exfalso.
    apply (elem_of_nil (key_of id)), (wf_free _ _ _ W). by exists p. }
  rewrite full_bits in Ef by apply Hok. specialize (Ef _ Hiw). rewrite (ok_full _ p Hok) in Ef by done. lia.
Qed.

(** On a consistent allocator in which 0 is reserved, as [idalloc_new] makes
    it, [idalloc_allocate] returns a nonzero number that was not allocated and
    marks exactly that one; it returns [IDALLOC_INVALID] only when all 2^32
    numbers are allocated, and then changes nothing. *)
Theorem idalloc_allocate_fresh a :
  wf_alloc a -> is_alloc a IDALLOC_INVALID = true ->
  exists r a', idalloc_allocate a = Ret (r, a') /\ wf_alloc a' /\
    ((r = IDALLOC_INVALID /\ a' = a /\ forall id, is_id id -> is_alloc a id = true)
     \/ (r <> IDALLOC_INVALID /\ is_id r /\ is_alloc a r = false
         /\ forall id, is_id id -> is_alloc a' id = is_alloc a id || (id =? r))).
Proof.
  intros (n & F & W) Hres.
  assert (forall r, is_alloc a r = false -> r <> IDALLOC_INVALID) as Hnz by (intros r Hr ->; congruence).
  unfold idalloc_allocate. pose proof (wf_chain _ _ _ W) as HC. destruct F as [|k F].
  - simpl in HC. rewrite HC. destruct (decide (n = 4194304)) as [->|En].
    + rewrite (create_full a _ [] W eq_refl). unfold allocate_from. simpl. rewrite HC.
      exists IDALLOC_INVALID, a. split_and!; [done|by exists 4194304, []|]. left. split_and!; try done.
      intros id. by apply all_taken.
    + pose proof (wf_n _ _ _ W). destruct (create_page a n [] W) as (E & W1 & H1); [lia|].
      rewrite E. cbn [snd]. destruct (allocate_from_spec _ _ _ _ W1) as (r & a' & E2 & W2 & Hr & Hf & H2).
      rewrite H1 in Hf by done. exists r, a'. split; [exact E2|]. split; [done|]. right. split_and!; auto.
      intros id Hid. by rewrite H2, H1.
  - destruct HC as (-> & HC). destruct (allocate_from_spec _ _ _ _ W) as (r & a' & E2 & W2 & Hr & Hf & H2).
    exists r, a'. split; [exact E2|]. split; [done|]. right. split_and!; auto.
Qed.

Lemma free_bit_spec a n F i p w o :
  wf a n F -> 0 <= i < n -> pages a !! key_of (i * 1024) = Some p -> 0 <= w < 32 -> 0 <= o < 32 ->
  let k := key_of (i * 1024) in
  let v := Z.land (word_at p w) (u32 (Z.lnot (Z.shiftl 1 o))) in
  let p1 := set_word w v p in
  let a1 := set_allocated (u32 (allocated a - 1)) (put_page k p1 a) in
  let p2 := set_full (Z.land (full_word_mask p) (u32 (Z.lnot (Z.shiftl 1 w)))) p1 in
  let a2 := put_page k p2 a1 in
  Z.testbit (word_at p w) o = true ->
  exists F', let a' := if word_at p w =? UINT32_MAX then
              if full_word_mask p =? UINT32_MAX
              then set_has_free (Some k) (put_page k (set_next_free (has_free a2) p2) a2)
              else a2
            else a1 in
    wf a' n F' /\ forall id, is_id id ->
      is_alloc a' id = is_alloc a id && negb (id =? i * 1024 + w * 32 + o).
Proof.
  intros W Hi Hp Hw Ho. cbv zeta. intros Hbit. pose proof (page_here a n F W i Hi p Hp) as Hok.
  set (v := Z.land (word_at p w) (u32 (Z.lnot (Z.shiftl 1 o)))).
  assert (u32_word v) as Hv by (apply clear_bit_word; by apply Hok).
  assert (v <> UINT32_MAX) as Hnv.
  { intros E. rewrite full_bits in E by done. specialize (E o Ho). unfold v in E.
    rewrite clear_bit_spec, Z.eqb_refl, andb_false_r in E by done. done. }
  assert (forall m nx j, 0 <= j < 32 -> word_at (set_next_free nx (set_full m (set_word w v p))) j
    = if j =? w then v else word_at p j) as Hword by (intros m nx j Hj; apply word_at_set; [apply Hok|done..]).
  assert (forall m nx id, is_id id ->
    (if id / 1024 =? i then Z.testbit (word_at (set_next_free nx (set_full m (set_word w v p))) (ID_WORD id)) (ID_OFFSET id)
     else is_alloc a id) = is_alloc a id && negb (id =? i * 1024 + w * 32 + o)) as Hids.
  { intros m nx. apply (word_changed a n F W i Hi p Hp w o Hw Ho _ v (fun b c => b && negb c));
      [apply Hword|intros b; apply andb_true_r|]. intros j Hj. by apply clear_bit_spec. }
  rewrite !put_twice. set (m := Z.land (full_word_mask p) (u32 (Z.lnot (Z.shiftl 1 w)))).
  destruct (Z.eqb_spec (word_at p w) UINT32_MAX) as [Ew|Ew].
  - assert (u32_word m) as Hm by (apply clear_bit_word; apply Hok).
    assert (m <> UINT32_MAX) as Hnm.
    { intros E. rewrite full_bits in E by done. specialize (E w Hw). unfold m in E.
      rewrite clear_bit_spec, Z.eqb_refl, andb_false_r in E by done. done. }
    assert (page_ok i (set_full m (set_word w v p))) as Hok2.
    { apply set_word_ok; try done. intros j Hj. unfold m. rewrite clear_bit_spec by done.
      destruct (Z.eqb_spec j w) as [->|]; [|apply andb_true_r]. rewrite andb_false_r. lia. }
    destruct (Z.eqb_spec (full_word_mask p) UINT32_MAX) as [Ef|Ef].
    + exists (key_of (i * 1024) :: F).
      cbn [has_free set_allocated put_page set_pages set_has_free dirs subdirs pages capacity allocated].
      assert (key_of (i * 1024) ∉ F) as HnF.
      { intros H. apply (wf_free a n F W) in H as (q & Hq & H). congruence. }
      destruct (change_page a n F W i Hi (set_next_free (has_free a) (set_full m (set_word w v p)))
        (<[key_of (i * 1024) := set_next_free (has_free a) (set_full m (set_word w v p))]> (pages a))
        (Some (key_of (i * 1024))) (key_of (i * 1024) :: F) (u32 (allocated a - 1))) as [W' H'].
      * apply lookup_insert_eq.
      * by apply (page_ok_core i (set_full m (set_word w v p))).
      * intros k' Hk'. by rewrite lookup_insert_ne.
      * split; [done|]. exists (has_free a). split; [unfold page_next; by rewrite lookup_insert_eq|].
        eapply linked_ext; [apply (wf_chain a n F W)|]. intros x Hx. unfold page_next.
        rewrite lookup_insert_ne; [done|]. by intros <-.
      * apply NoDup_cons_2; [done|apply W].
      * intros k'. rewrite elem_of_cons. destruct (decide (k' = key_of (i * 1024))) as [->|]; [|tauto].
        split; [intros _; left; by split|by left].
      * split; [exact W'|]. intros id Hid. rewrite <- (Hids m (has_free a) id Hid). by apply H'.
    + exists F. destruct (put_page_spec a n F W i Hi p Hp (set_full m (set_word w v p)) (u32 (allocated a - 1)) Hok2 eq_refl)
        as [W' H']; [by split|]. split; [done|]. intros id Hid.
      rewrite <- (Hids m (next_has_free p) id Hid). by apply H'.
  - assert (page_ok i (set_word w v p)) as Hok2 by (apply same_full; try done; lia).
    exists F. destruct (put_page_spec a n F W i Hi p Hp (set_word w v p) (u32 (allocated a - 1)) Hok2 eq_refl)
      as [W' H']; [done|]. split; [done|]. intros id Hid.
    rewrite <- (Hids (full_word_mask p) (next_has_free p) id Hid). by apply H'.
Qed.

Lemma idalloc_free_spec a id :
  wf_alloc a -> is_id id ->
  wf_alloc (idalloc_free a id)
  /\ forall x, is_id x -> is_alloc (idalloc_free a id) x = is_alloc a x && negb (x =? id).
Proof.
  intros (n & F & W) Hid. unfold idalloc_free. rewrite (find_page a n F W id Hid).
  destruct (id_split id Hid) as (Eid & Hw & Ho). pose proof (id_page_range id Hid).
  assert (is_alloc a id = false -> wf_alloc a
    /\ forall x, is_id x -> is_alloc a x = is_alloc a x && negb (x =? id)) as Same.
  { intros E. split; [by exists n, F|]. intros x Hx. destruct (Z.eqb_spec x id) as [->|]; [by rewrite E|].
    by rewrite andb_true_r. }
  destruct (Z.ltb_spec (id / 1024) n) as [Hn|Hn].
  - destruct (page_at a n F W id Hid Hn) as (p & Hp & Hok). rewrite Hp. rewrite test_bit_land by lia.
    assert (is_alloc a id = Z.testbit (word_at p (ID_WORD id)) (ID_OFFSET id)) as Ea by (unfold is_alloc; by rewrite Hp).
    destruct (Z.testbit (word_at p (ID_WORD id)) (ID_OFFSET id)) eqn:Eb; cbn [negb]; [|by apply Same].
    rewrite key_page in Hp |- * by done.
    destruct (free_bit_spec a n F (id / 1024) p (ID_WORD id) (ID_OFFSET id) W ltac:(lia) Hp Hw Ho Eb) as (F' & W' & H').
    rewrite <- Eid in H'. split; [by exists n, F'|exact H'].
  - apply Same. unfold is_alloc. by rewrite (no_page_at a n F W id Hid Hn).
Qed.

(** C40: on a consistent allocator [idalloc_free] makes exactly the given number
    free, and nothing else changes; freeing a number that is not allocated or
    that no page covers changes nothing. *)
Theorem idalloc_free_correct a id :
  wf_alloc a -> is_id id ->
  wf_alloc (idalloc_free a id)
  /\ (forall x, is_id x -> is_alloc (idalloc_free a id) x = is_alloc a x && negb (x =? id))
  /\ (is_alloc a id = false -> idalloc_free a id = a).
Proof.
  intros Hwf Hid. destruct (idalloc_free_spec a id Hwf Hid) as [H1 H2]. split_and!; try done.
  intros Ha. destruct Hwf as (n & F & W). unfold idalloc_free. rewrite (find_page a n F W id Hid).
  destruct (Z.ltb_spec (id / 1024) n) as [Hn|Hn]; [|done].
  destruct (page_at a n F W id Hid Hn) as (p & Hp & _). rewrite Hp.
  destruct (id_split id Hid) as (_ & Hw & Ho). rewrite test_bit_land by lia.
  unfold is_alloc in Ha. rewrite Hp in Ha. by rewrite Ha.
Qed.

(** The loop of [idalloc_reserve]. *)
Lemma grow_loop_spec id : is_id id -> id < 4294966272 -> forall fuel a n F,
  wf a n F -> n < 4194304 -> id / 1024 + 1 - n < Z.of_nat fuel -> 0 < Z.of_nat fuel ->
  exists a' n' F', grow_loop fuel a id = Some a' /\ wf a' n' F' /\ id / 1024 < n' < 4194304
    /\ forall x, is_id x -> is_alloc a' x = is_alloc a x.
Proof.
  intros Hid Hmax. pose proof (Z.div_mod id 1024 ltac:(lia)) as D1.
  pose proof (Z.mod_pos_bound id 1024 ltac:(lia)) as D2.
  induction fuel as [|fuel IH]; intros a n F W Hn Hf Hf0; [lia|]. cbn [grow_loop].
  pose proof (wf_n a n F W). rewrite (wf_cap a n F W), u32_small by lia.
  destruct (Z.leb_spec (n * 1024) id) as [Hle|Hgt].
  - assert (n <= id / 1024) by (apply Z.div_le_lower_bound; lia).
    destruct (create_page a n F W Hn) as (E & W1 & K1). rewrite E. cbn [snd].
    assert (id / 1024 < 4194303) by (apply Z.div_lt_upper_bound; unfold is_id in Hid; lia).
    destruct (IH _ (n + 1) _ W1) as (a' & n' & F' & E2 & W2 & Hn2 & K2); [lia|lia|lia|].
    exists a', n', F'. split_and!; try done; try lia. intros x Hx. by rewrite K2, K1.
  - exists a, n, F. assert (id / 1024 < n) by (apply Z.div_lt_upper_bound; lia). by split_and!.
Qed.

(** While the allocator has not grown over all 2^32 numbers, and for a number
    outside the last page, the loop of [idalloc_reserve] ends (after at most one
    round per page up to the number), and the number is then reserved; a number
    that is already allocated gives [IDALLOC_INVALID] and stays allocated. *)
Theorem idalloc_reserve_correct a id fuel :
  wf_alloc a -> (capacity a = 0 -> pages a = ∅) -> is_id id -> id < 4294966272 ->
  id / 1024 + 1 < Z.of_nat fuel ->
  exists a', idalloc_reserve fuel a id = Ret (if is_alloc a id then IDALLOC_INVALID else id, a')
    /\ wf_alloc a' /\ forall x, is_id x -> is_alloc a' x = is_alloc a x || (x =? id).
Proof.
  intros (n & F & W) Hcap Hid Hmax Hf. pose proof (id_page_range id Hid) as Hr. pose proof (wf_n a n F W) as Hn.
  assert (n < 4194304) as Hlt.
  { destruct (decide (n = 4194304)) as [->|]; [|lia]. destruct (wf_page _ _ _ W 0) as (p & Hp & _); [lia|].
    rewrite Hcap in Hp by (by rewrite (wf_cap _ _ _ W)). done. }
  destruct (grow_loop_spec id Hid Hmax fuel a n F W Hlt) as (a1 & n1 & F1 & E1 & W1 & Hn1 & H1); [lia|lia|].
  unfold idalloc_reserve. rewrite E1. unfold reserve_in. rewrite (find_page a1 n1 F1 W1 id Hid).
  destruct (Z.ltb_spec (id / 1024) n1); [|lia].
  destruct (page_at a1 n1 F1 W1 id Hid) as (p & Hp & Hok); [lia|]. rewrite Hp.
  destruct (id_split id Hid) as (Eid & Hw & Ho). rewrite test_bit_land, negb_involutive by lia.
  assert (is_alloc a id = Z.testbit (word_at p (ID_WORD id)) (ID_OFFSET id)) as Ea.
  { rewrite <- H1 by done. unfold is_alloc. by rewrite Hp. }
  destruct (Z.testbit (word_at p (ID_WORD id)) (ID_OFFSET id)) eqn:Eb; rewrite Ea.
  - exists a1. split_and!; [done|by exists n1, F1|]. intros x Hx. rewrite H1 by done.
    destruct (Z.eqb_spec x id) as [->|]; [by rewrite Ea|by rewrite orb_false_r].
  - rewrite key_page in Hp |- * by done.
    destruct (reserve_bit_spec a1 n1 F1 (id / 1024) p (ID_WORD id) (ID_OFFSET id) W1 ltac:(lia) Hp Hw Ho Eb)
      as (a' & F' & -> & W' & H'). cbn [mbind outcome_bind].
    exists a'. split_and!; [done|by exists n1, F'|]. intros x Hx. rewrite H', H1 by done. by rewrite <- Eid.
Qed.

(** For a number of the last page the loop of [idalloc_reserve] never ends:
    the capacity wraps to 0 when the last page is created, and 0 is not above
    the number. *)
Theorem idalloc_reserve_diverges a id :
  wf_alloc a -> is_id id -> 4294966272 <= id -> forall fuel, idalloc_reserve fuel a id = Abort.
Proof.
  intros Hwf Hid Hmax fuel. unfold idalloc_reserve. assert (grow_loop fuel a id = None) as ->; [|done].
  revert a Hwf. induction fuel as [|fuel IH]; intros a (n & F & W); [done|]. cbn [grow_loop].
  pose proof (wf_n a n F W) as Hn. assert (capacity a <= id) as Hc.
  { rewrite (wf_cap a n F W). destruct (decide (n = 4194304)) as [->|].
    - change (u32 (4194304 * 1024)) with 0. unfold is_id in Hid. lia.
    - rewrite u32_small by lia. lia. }
  rewrite (proj2 (Z.leb_le _ _) Hc). apply IH. destruct (decide (n = 4194304)) as [E|E].
  - rewrite (create_full a n F W E). by exists n, F.
  - destruct (create_page a n F W) as (E2 & W2 & _); [lia|]. rewrite E2. eexists _, _. exact W2.
Qed.

(** The holding pool.  Draining a pool frees exactly its numbers and empties
    it; a number given to the pool is the next one [idalloc_allocate_prefer_pool]
    hands out, and the allocator does not change for it. *)
Theorem idalloc_pool_correct a pool :
  wf_alloc a -> Forall is_id pool ->
  (exists a', idalloc_drain_pool (Some a) pool = (Some a', []) /\ wf_alloc a'
     /\ forall x, is_id x -> is_alloc a' x = is_alloc a x && negb (bool_decide (x ∈ pool)))
  /\ forall id, idalloc_allocate_prefer_pool a (idalloc_free_to_pool pool id) = Ret (id, a, pool).
Proof.
  intros Hwf Hp. split; [|done]. revert a Hwf.
  induction Hp as [|id pool Hid Hp IH]; intros a Hwf; cbn [idalloc_drain_pool].
  - exists a. split_and!; try done. intros x _. by rewrite andb_true_r.
  - simpl. destruct (idalloc_free_spec a id Hwf Hid) as [W1 H1].
    destruct (IH _ W1) as (a' & E & W' & H'). exists a'. split_and!; try done. intros x Hx.
    rewrite H', H1 by done. rewrite <- andb_assoc. f_equal. rewrite <- negb_orb. f_equal.
    destruct (Z.eqb_spec x id) as [->|Hne]; simpl.
    + symmetry. apply bool_decide_true, elem_of_cons. by left.
    + apply bool_decide_ext. rewrite elem_of_cons. tauto.
Qed.

(** ** An allocator in use *)

Lemma empty_wf : wf (mkAlloc ∅ ∅ ∅ None 0 0) 0 [].
Proof.
  split; cbn [dirs subdirs pages has_free allocated capacity]; try done; try lia.
  - apply NoDup_nil_2.
  - intros k. rewrite lookup_empty. split; [intros H; by apply elem_of_nil in H|]. by intros (p & ? & _).
Qed.

(** The allocator [idalloc_new] returns. *)
Definition fresh_alloc : id_alloc :=
  match idalloc_new with Ret a => a | Abort => mkAlloc ∅ ∅ ∅ None 0 0 end.

Lemma fresh_wf : wf_alloc fresh_alloc.
Proof.
  destruct (create_page _ _ _ empty_wf ltac:(lia)) as (E & W1 & _).
  destruct (reserve_bit_spec _ _ _ 0 (mkPage (replicate 32 0) 0 0 None) 0 0 W1) as (a' & F' & E2 & W' & _);
    [lia|reflexivity|lia|lia|reflexivity|].
  assert (idalloc_new = Ret a') as E3.
  { revert E2. vm_compute. intros E2. exact E2. }
  unfold fresh_alloc. rewrite E3. eexists _, _. exact W'.
Qed.

Lemma idalloc_allocate_fresh_witness :
  is_alloc fresh_alloc IDALLOC_INVALID = true
  /\ exists r a', idalloc_allocate fresh_alloc = Ret (r, a') /\ wf_alloc a'.
Proof.
  assert (is_alloc fresh_alloc IDALLOC_INVALID = true) as H by (vm_compute; reflexivity).
  split; [exact H|]. destruct (idalloc_allocate_fresh fresh_alloc fresh_wf H) as (r & a' & E & W & _).
  exists r, a'. split; [exact E|exact W].
Defined.

Lemma idalloc_free_correct_witness :
  wf_alloc (idalloc_free fresh_alloc 0) /\ is_alloc fresh_alloc 0 = true
  /\ is_alloc (idalloc_free fresh_alloc 0) 0 = false.
Proof.
  assert (is_id 0) as H0 by (unfold is_id; lia).
  destruct (idalloc_free_correct fresh_alloc 0 fresh_wf H0) as (W & E & _).
  split; [exact W|]. split; [vm_compute; reflexivity|]. rewrite (E 0 H0). vm_compute. reflexivity.
Defined.

Lemma idalloc_reserve_correct_witness :
  exists a', idalloc_reserve 5 fresh_alloc 2100 = Ret (2100, a') /\ wf_alloc a'.
Proof.
  destruct (idalloc_reserve_correct fresh_alloc 2100 5 fresh_wf) as (a' & E & W & _).
  - vm_compute. discriminate.
  - unfold is_id. lia.
  - lia.
  - change (2100 / 1024) with 2. lia.
  - exists a'. split; [|exact W]. rewrite E. vm_compute is_alloc. reflexivity.
Defined.

Lemma idalloc_reserve_diverges_witness : idalloc_reserve 1000 fresh_alloc 4294967295 = Abort.
Proof.
  apply (idalloc_reserve_diverges fresh_alloc 4294967295 fresh_wf); [unfold is_id; lia|lia].
Defined.

Lemma idalloc_pool_correct_witness :
  exists a', idalloc_drain_pool (Some fresh_alloc) [7; 0] = (Some a', []) /\ wf_alloc a'.
Proof.
  assert (Forall is_id [7; 0]) as H by (repeat constructor; unfold is_id; lia).
  destruct (idalloc_pool_correct fresh_alloc [7; 0] fresh_wf H) as [(a' & E & W & _) _].
  exists a'. split; [exact E|exact W].
Defined.
