(* ===== verification/BfdState.v ===== *)
(** * The state of a BFD session (bfdd/bfd.h)

    The fields of [struct bfd_session] the protocol works on, the packets and the
    notifications it produces, and the update of single fields.  A pending timer
    event is the delay in microseconds it was scheduled with.  Addresses, names,
    interfaces, profiles, wall-clock times and round-trip samples are not part of
    the model. *)

From S2P Require Import Prelude.

Definition PTM_BFD_ADM_DOWN : Z := 0.
Definition PTM_BFD_DOWN : Z := 1.
Definition PTM_BFD_INIT : Z := 2.
Definition PTM_BFD_UP : Z := 3.

Definition BD_CONTROL_EXPIRED : Z := 1.
Definition BD_ECHO_FAILED : Z := 2.
Definition BD_NEIGHBOR_DOWN : Z := 3.
Definition BD_PATH_DOWN : Z := 5.
Definition BD_ADMIN_DOWN : Z := 7.

Definition BFD_MODE_TYPE_BFD : Z := 0.
Definition BFD_MODE_TYPE_SBFD_ECHO : Z := 1.
Definition BFD_MODE_TYPE_SBFD_INIT : Z := 2.

Definition BFD_DEFDETECTMULT : Z := 3.
Definition BFD_DEFDESIREDMINTX : Z := 300 * 1000.
Definition BFD_DEFREQUIREDMINRX : Z := 300 * 1000.
Definition BFD_DEF_DES_MIN_ECHO_TX : Z := 50 * 1000.
Definition BFD_DEF_REQ_MIN_ECHO_RX : Z := 50 * 1000.
Definition BFD_DEF_SLOWTX : Z := 1000 * 1000.
Definition SBFD_ECHO_DEF_SLOWTX : Z := 1000 * 1000.
Definition BFD_DEF_MHOP_TTL : Z := 254.
Definition BFD_PKT_LEN : Z := 24.
Definition BFD_TTL_VAL : Z := 255.
Definition BFD_VERSION : Z := 1.

Record bfd_timers := mkTimers {
  desired_min_tx : Z;
  required_min_rx : Z;
  required_min_echo : Z
}.

Record bfd_config_timers := mkConfigTimers {
  cfg_desired_min_tx : Z;
  cfg_required_min_rx : Z;
  cfg_desired_min_echo_tx : Z;
  cfg_required_min_echo_rx : Z
}.

(** The bits of [enum bfd_session_flags] the protocol reads. *)
Record bfd_session_flags := mkFlags {
  ECHO : bool;
  ECHO_ACTIVE : bool;
  MH : bool;
  IPV6 : bool;
  SHUTDOWN : bool;
  CBIT : bool;
  PASSIVE : bool;
  MAC_SET : bool
}.

Record bfd_session_stats := mkStats {
  rx_ctrl_pkt : Z;
  tx_ctrl_pkt : Z;
  tx_echo_pkt : Z;
  session_up : Z;
  session_down : Z
}.

(** A control packet; multi-byte fields in host order. *)
Record bfd_pkt := mkPkt {
  diag : Z;
  pkt_flags : Z;
  pkt_detect_mult : Z;
  len : Z;
  pkt_my_discr : Z;
  pkt_remote_discr : Z;
  pkt_timers : bfd_timers
}.

(** What a session tells the outside: control and echo packets sent, and state
    changes reported to the clients. *)
Inductive output :=
| SendControl (cp : bfd_pkt)
| SendEcho
| Notify (state : Z).

(** [sock] and [has_vrf] say whether the session has a socket and a VRF,
    [bdc] whether it is offloaded to a data plane, [send_ok] whether the kernel
    takes the packets; [random_calls] counts the calls to [frr_weak_random]. *)
Record bfd_session := mkSession {
  ses_state : Z;
  my_discr : Z;
  remote_discr : Z;
  local_diag : Z;
  demand_mode : Z;
  detect_mult : Z;
  remote_detect_mult : Z;
  mh_ttl : Z;
  remote_cbit : Z;
  timers : bfd_config_timers;
  cur_timers : bfd_timers;
  detect_TO : Z;
  echo_recvtimer_ev : option Z;
  recvtimer_ev : option Z;
  xmt_TO : Z;
  echo_xmt_TO : Z;
  xmttimer_ev : option Z;
  echo_xmttimer_ev : option Z;
  echo_detect_TO : Z;
  polling : Z;
  bdc : bool;
  sock : bool;
  flags : bfd_session_flags;
  stats : bfd_session_stats;
  remote_diag : Z;
  remote_timers : bfd_timers;
  bfd_mode : Z;
  has_vrf : bool;
  send_ok : bool;
  random_calls : nat;
  out : list output
}.

(** ** Updates of single fields *)

Definition set_ses_state (v : Z) (s : bfd_session) : bfd_session :=
  mkSession v (my_discr s) (remote_discr s) (local_diag s) (demand_mode s) (detect_mult s)
    (remote_detect_mult s) (mh_ttl s) (remote_cbit s) (timers s) (cur_timers s) (detect_TO s)
    (echo_recvtimer_ev s) (recvtimer_ev s) (xmt_TO s) (echo_xmt_TO s) (xmttimer_ev s)
    (echo_xmttimer_ev s) (echo_detect_TO s) (polling s) (bdc s) (sock s) (flags s) (stats s)
    (remote_diag s) (remote_timers s) (bfd_mode s) (has_vrf s) (send_ok s) (random_calls s)
    (out s).
Definition set_remote_discr (v : Z) (s : bfd_session) : bfd_session :=
  mkSession (ses_state s) (my_discr s) v (local_diag s) (demand_mode s) (detect_mult s)
    (remote_detect_mult s) (mh_ttl s) (remote_cbit s) (timers s) (cur_timers s) (detect_TO s)
    (echo_recvtimer_ev s) (recvtimer_ev s) (xmt_TO s) (echo_xmt_TO s) (xmttimer_ev s)
    (echo_xmttimer_ev s) (echo_detect_TO s) (polling s) (bdc s) (sock s) (flags s) (stats s)
    (remote_diag s) (remote_timers s) (bfd_mode s) (has_vrf s) (send_ok s) (random_calls s)
    (out s).
Definition set_local_diag (v : Z) (s : bfd_session) : bfd_session :=
  mkSession (ses_state s) (my_discr s) (remote_discr s) v (demand_mode s) (detect_mult s)
    (remote_detect_mult s) (mh_ttl s) (remote_cbit s) (timers s) (cur_timers s) (detect_TO s)
    (echo_recvtimer_ev s) (recvtimer_ev s) (xmt_TO s) (echo_xmt_TO s) (xmttimer_ev s)
    (echo_xmttimer_ev s) (echo_detect_TO s) (polling s) (bdc s) (sock s) (flags s) (stats s)
    (remote_diag s) (remote_timers s) (bfd_mode s) (has_vrf s) (send_ok s) (random_calls s)
    (out s).
Definition set_demand_mode (v : Z) (s : bfd_session) : bfd_session :=
  mkSession (ses_state s) (my_discr s) (remote_discr s) (local_diag s) v (detect_mult s)
    (remote_detect_mult s) (mh_ttl s) (remote_cbit s) (timers s) (cur_timers s) (detect_TO s)
    (echo_recvtimer_ev s) (recvtimer_ev s) (xmt_TO s) (echo_xmt_TO s) (xmttimer_ev s)
    (echo_xmttimer_ev s) (echo_detect_TO s) (polling s) (bdc s) (sock s) (flags s) (stats s)
    (remote_diag s) (remote_timers s) (bfd_mode s) (has_vrf s) (send_ok s) (random_calls s)
    (out s).
Definition set_remote_detect_mult (v : Z) (s : bfd_session) : bfd_session :=
  mkSession (ses_state s) (my_discr s) (remote_discr s) (local_diag s) (demand_mode s)
    (detect_mult s) v (mh_ttl s) (remote_cbit s) (timers s) (cur_timers s) (detect_TO s)
    (echo_recvtimer_ev s) (recvtimer_ev s) (xmt_TO s) (echo_xmt_TO s) (xmttimer_ev s)
    (echo_xmttimer_ev s) (echo_detect_TO s) (polling s) (bdc s) (sock s) (flags s) (stats s)
    (remote_diag s) (remote_timers s) (bfd_mode s) (has_vrf s) (send_ok s) (random_calls s)
    (out s).
Definition set_remote_cbit (v : Z) (s : bfd_session) : bfd_session :=
  mkSession (ses_state s) (my_discr s) (remote_discr s) (local_diag s) (demand_mode s)
    (detect_mult s) (remote_detect_mult s) (mh_ttl s) v (timers s) (cur_timers s) (detect_TO s)
    (echo_recvtimer_ev s) (recvtimer_ev s) (xmt_TO s) (echo_xmt_TO s) (xmttimer_ev s)
    (echo_xmttimer_ev s) (echo_detect_TO s) (polling s) (bdc s) (sock s) (flags s) (stats s)
    (remote_diag s) (remote_timers s) (bfd_mode s) (has_vrf s) (send_ok s) (random_calls s)
    (out s).
Definition set_timers (v : bfd_config_timers) (s : bfd_session) : bfd_session :=
  mkSession (ses_state s) (my_discr s) (remote_discr s) (local_diag s) (demand_mode s)
    (detect_mult s) (remote_detect_mult s) (mh_ttl s) (remote_cbit s) v (cur_timers s)
    (detect_TO s) (echo_recvtimer_ev s) (recvtimer_ev s) (xmt_TO s) (echo_xmt_TO s)
    (xmttimer_ev s) (echo_xmttimer_ev s) (echo_detect_TO s) (polling s) (bdc s) (sock s)
    (flags s) (stats s) (remote_diag s) (remote_timers s) (bfd_mode s) (has_vrf s) (send_ok s)
    (random_calls s) (out s).
Definition set_cur_timers (v : bfd_timers) (s : bfd_session) : bfd_session :=
  mkSession (ses_state s) (my_discr s) (remote_discr s) (local_diag s) (demand_mode s)
    (detect_mult s) (remote_detect_mult s) (mh_ttl s) (remote_cbit s) (timers s) v (detect_TO s)
    (echo_recvtimer_ev s) (recvtimer_ev s) (xmt_TO s) (echo_xmt_TO s) (xmttimer_ev s)
    (echo_xmttimer_ev s) (echo_detect_TO s) (polling s) (bdc s) (sock s) (flags s) (stats s)
    (remote_diag s) (remote_timers s) (bfd_mode s) (has_vrf s) (send_ok s) (random_calls s)
    (out s).
Definition set_detect_TO (v : Z) (s : bfd_session) : bfd_session :=
  mkSession (ses_state s) (my_discr s) (remote_discr s) (local_diag s) (demand_mode s)
    (detect_mult s) (remote_detect_mult s) (mh_ttl s) (remote_cbit s) (timers s) (cur_timers s)
    v (echo_recvtimer_ev s) (recvtimer_ev s) (xmt_TO s) (echo_xmt_TO s) (xmttimer_ev s)
    (echo_xmttimer_ev s) (echo_detect_TO s) (polling s) (bdc s) (sock s) (flags s) (stats s)
    (remote_diag s) (remote_timers s) (bfd_mode s) (has_vrf s) (send_ok s) (random_calls s)
    (out s).
Definition set_echo_recvtimer_ev (v : option Z) (s : bfd_session) : bfd_session :=
  mkSession (ses_state s) (my_discr s) (remote_discr s) (local_diag s) (demand_mode s)
    (detect_mult s) (remote_detect_mult s) (mh_ttl s) (remote_cbit s) (timers s) (cur_timers s)
    (detect_TO s) v (recvtimer_ev s) (xmt_TO s) (echo_xmt_TO s) (xmttimer_ev s)
    (echo_xmttimer_ev s) (echo_detect_TO s) (polling s) (bdc s) (sock s) (flags s) (stats s)
    (remote_diag s) (remote_timers s) (bfd_mode s) (has_vrf s) (send_ok s) (random_calls s)
    (out s).
Definition set_recvtimer_ev (v : option Z) (s : bfd_session) : bfd_session :=
  mkSession (ses_state s) (my_discr s) (remote_discr s) (local_diag s) (demand_mode s)
    (detect_mult s) (remote_detect_mult s) (mh_ttl s) (remote_cbit s) (timers s) (cur_timers s)
    (detect_TO s) (echo_recvtimer_ev s) v (xmt_TO s) (echo_xmt_TO s) (xmttimer_ev s)
    (echo_xmttimer_ev s) (echo_detect_TO s) (polling s) (bdc s) (sock s) (flags s) (stats s)
    (remote_diag s) (remote_timers s) (bfd_mode s) (has_vrf s) (send_ok s) (random_calls s)
    (out s).
Definition set_xmt_TO (v : Z) (s : bfd_session) : bfd_session :=
  mkSession (ses_state s) (my_discr s) (remote_discr s) (local_diag s) (demand_mode s)
    (detect_mult s) (remote_detect_mult s) (mh_ttl s) (remote_cbit s) (timers s) (cur_timers s)
    (detect_TO s) (echo_recvtimer_ev s) (recvtimer_ev s) v (echo_xmt_TO s) (xmttimer_ev s)
    (echo_xmttimer_ev s) (echo_detect_TO s) (polling s) (bdc s) (sock s) (flags s) (stats s)
    (remote_diag s) (remote_timers s) (bfd_mode s) (has_vrf s) (send_ok s) (random_calls s)
    (out s).
Definition set_echo_xmt_TO (v : Z) (s : bfd_session) : bfd_session :=
  mkSession (ses_state s) (my_discr s) (remote_discr s) (local_diag s) (demand_mode s)
    (detect_mult s) (remote_detect_mult s) (mh_ttl s) (remote_cbit s) (timers s) (cur_timers s)
    (detect_TO s) (echo_recvtimer_ev s) (recvtimer_ev s) (xmt_TO s) v (xmttimer_ev s)
    (echo_xmttimer_ev s) (echo_detect_TO s) (polling s) (bdc s) (sock s) (flags s) (stats s)
    (remote_diag s) (remote_timers s) (bfd_mode s) (has_vrf s) (send_ok s) (random_calls s)
    (out s).
Definition set_xmttimer_ev (v : option Z) (s : bfd_session) : bfd_session :=
  mkSession (ses_state s) (my_discr s) (remote_discr s) (local_diag s) (demand_mode s)
    (detect_mult s) (remote_detect_mult s) (mh_ttl s) (remote_cbit s) (timers s) (cur_timers s)
    (detect_TO s) (echo_recvtimer_ev s) (recvtimer_ev s) (xmt_TO s) (echo_xmt_TO s) v
    (echo_xmttimer_ev s) (echo_detect_TO s) (polling s) (bdc s) (sock s) (flags s) (stats s)
    (remote_diag s) (remote_timers s) (bfd_mode s) (has_vrf s) (send_ok s) (random_calls s)
    (out s).
Definition set_echo_xmttimer_ev (v : option Z) (s : bfd_session) : bfd_session :=
  mkSession (ses_state s) (my_discr s) (remote_discr s) (local_diag s) (demand_mode s)
    (detect_mult s) (remote_detect_mult s) (mh_ttl s) (remote_cbit s) (timers s) (cur_timers s)
    (detect_TO s) (echo_recvtimer_ev s) (recvtimer_ev s) (xmt_TO s) (echo_xmt_TO s)
    (xmttimer_ev s) v (echo_detect_TO s) (polling s) (bdc s) (sock s) (flags s) (stats s)
    (remote_diag s) (remote_timers s) (bfd_mode s) (has_vrf s) (send_ok s) (random_calls s)
    (out s).
Definition set_echo_detect_TO (v : Z) (s : bfd_session) : bfd_session :=
  mkSession (ses_state s) (my_discr s) (remote_discr s) (local_diag s) (demand_mode s)
    (detect_mult s) (remote_detect_mult s) (mh_ttl s) (remote_cbit s) (timers s) (cur_timers s)
    (detect_TO s) (echo_recvtimer_ev s) (recvtimer_ev s) (xmt_TO s) (echo_xmt_TO s)
    (xmttimer_ev s) (echo_xmttimer_ev s) v (polling s) (bdc s) (sock s) (flags s) (stats s)
    (remote_diag s) (remote_timers s) (bfd_mode s) (has_vrf s) (send_ok s) (random_calls s)
    (out s).
Definition set_polling (v : Z) (s : bfd_session) : bfd_session :=
  mkSession (ses_state s) (my_discr s) (remote_discr s) (local_diag s) (demand_mode s)
    (detect_mult s) (remote_detect_mult s) (mh_ttl s) (remote_cbit s) (timers s) (cur_timers s)
    (detect_TO s) (echo_recvtimer_ev s) (recvtimer_ev s) (xmt_TO s) (echo_xmt_TO s)
    (xmttimer_ev s) (echo_xmttimer_ev s) (echo_detect_TO s) v (bdc s) (sock s) (flags s)
    (stats s) (remote_diag s) (remote_timers s) (bfd_mode s) (has_vrf s) (send_ok s)
    (random_calls s) (out s).
Definition set_flags (v : bfd_session_flags) (s : bfd_session) : bfd_session :=
  mkSession (ses_state s) (my_discr s) (remote_discr s) (local_diag s) (demand_mode s)
    (detect_mult s) (remote_detect_mult s) (mh_ttl s) (remote_cbit s) (timers s) (cur_timers s)
    (detect_TO s) (echo_recvtimer_ev s) (recvtimer_ev s) (xmt_TO s) (echo_xmt_TO s)
    (xmttimer_ev s) (echo_xmttimer_ev s) (echo_detect_TO s) (polling s) (bdc s) (sock s) v
    (stats s) (remote_diag s) (remote_timers s) (bfd_mode s) (has_vrf s) (send_ok s)
    (random_calls s) (out s).
Definition set_stats (v : bfd_session_stats) (s : bfd_session) : bfd_session :=
  mkSession (ses_state s) (my_discr s) (remote_discr s) (local_diag s) (demand_mode s)
    (detect_mult s) (remote_detect_mult s) (mh_ttl s) (remote_cbit s) (timers s) (cur_timers s)
    (detect_TO s) (echo_recvtimer_ev s) (recvtimer_ev s) (xmt_TO s) (echo_xmt_TO s)
    (xmttimer_ev s) (echo_xmttimer_ev s) (echo_detect_TO s) (polling s) (bdc s) (sock s)
    (flags s) v (remote_diag s) (remote_timers s) (bfd_mode s) (has_vrf s) (send_ok s)
    (random_calls s) (out s).
Definition set_remote_diag (v : Z) (s : bfd_session) : bfd_session :=
  mkSession (ses_state s) (my_discr s) (remote_discr s) (local_diag s) (demand_mode s)
    (detect_mult s) (remote_detect_mult s) (mh_ttl s) (remote_cbit s) (timers s) (cur_timers s)
    (detect_TO s) (echo_recvtimer_ev s) (recvtimer_ev s) (xmt_TO s) (echo_xmt_TO s)
    (xmttimer_ev s) (echo_xmttimer_ev s) (echo_detect_TO s) (polling s) (bdc s) (sock s)
    (flags s) (stats s) v (remote_timers s) (bfd_mode s) (has_vrf s) (send_ok s)
    (random_calls s) (out s).
Definition set_remote_timers (v : bfd_timers) (s : bfd_session) : bfd_session :=
  mkSession (ses_state s) (my_discr s) (remote_discr s) (local_diag s) (demand_mode s)
    (detect_mult s) (remote_detect_mult s) (mh_ttl s) (remote_cbit s) (timers s) (cur_timers s)
    (detect_TO s) (echo_recvtimer_ev s) (recvtimer_ev s) (xmt_TO s) (echo_xmt_TO s)
    (xmttimer_ev s) (echo_xmttimer_ev s) (echo_detect_TO s) (polling s) (bdc s) (sock s)
    (flags s) (stats s) (remote_diag s) v (bfd_mode s) (has_vrf s) (send_ok s) (random_calls s)
    (out s).
Definition set_random_calls (v : nat) (s : bfd_session) : bfd_session :=
  mkSession (ses_state s) (my_discr s) (remote_discr s) (local_diag s) (demand_mode s)
    (detect_mult s) (remote_detect_mult s) (mh_ttl s) (remote_cbit s) (timers s) (cur_timers s)
    (detect_TO s) (echo_recvtimer_ev s) (recvtimer_ev s) (xmt_TO s) (echo_xmt_TO s)
    (xmttimer_ev s) (echo_xmttimer_ev s) (echo_detect_TO s) (polling s) (bdc s) (sock s)
    (flags s) (stats s) (remote_diag s) (remote_timers s) (bfd_mode s) (has_vrf s) (send_ok s) v
    (out s).
Definition set_out (v : list output) (s : bfd_session) : bfd_session :=
  mkSession (ses_state s) (my_discr s) (remote_discr s) (local_diag s) (demand_mode s)
    (detect_mult s) (remote_detect_mult s) (mh_ttl s) (remote_cbit s) (timers s) (cur_timers s)
    (detect_TO s) (echo_recvtimer_ev s) (recvtimer_ev s) (xmt_TO s) (echo_xmt_TO s)
    (xmttimer_ev s) (echo_xmttimer_ev s) (echo_detect_TO s) (polling s) (bdc s) (sock s)
    (flags s) (stats s) (remote_diag s) (remote_timers s) (bfd_mode s) (has_vrf s) (send_ok s)
    (random_calls s) v.
Definition set_ECHO (v : bool) (s : bfd_session) : bfd_session :=
  let f := flags s in
  set_flags (mkFlags v (ECHO_ACTIVE f) (MH f) (IPV6 f) (SHUTDOWN f) (CBIT f) (PASSIVE f)
    (MAC_SET f)) s.
Definition set_ECHO_ACTIVE (v : bool) (s : bfd_session) : bfd_session :=
  let f := flags s in
  set_flags (mkFlags (ECHO f) v (MH f) (IPV6 f) (SHUTDOWN f) (CBIT f) (PASSIVE f) (MAC_SET f)) s.
Definition set_SHUTDOWN (v : bool) (s : bfd_session) : bfd_session :=
  let f := flags s in
  set_flags (mkFlags (ECHO f) (ECHO_ACTIVE f) (MH f) (IPV6 f) v (CBIT f) (PASSIVE f) (MAC_SET f)) s.
Definition set_PASSIVE (v : bool) (s : bfd_session) : bfd_session :=
  let f := flags s in
  set_flags (mkFlags (ECHO f) (ECHO_ACTIVE f) (MH f) (IPV6 f) (SHUTDOWN f) (CBIT f) v
    (MAC_SET f)) s.
Definition set_MAC_SET (v : bool) (s : bfd_session) : bfd_session :=
  let f := flags s in
  set_flags (mkFlags (ECHO f) (ECHO_ACTIVE f) (MH f) (IPV6 f) (SHUTDOWN f) (CBIT f) (PASSIVE f)
    v) s.
Definition count_rx_ctrl_pkt (s : bfd_session) : bfd_session :=
  let t := stats s in
  set_stats (mkStats (u64 (rx_ctrl_pkt t + 1)) (tx_ctrl_pkt t) (tx_echo_pkt t) (session_up t)
    (session_down t)) s.
Definition count_tx_ctrl_pkt (s : bfd_session) : bfd_session :=
  let t := stats s in
  set_stats (mkStats (rx_ctrl_pkt t) (u64 (tx_ctrl_pkt t + 1)) (tx_echo_pkt t) (session_up t)
    (session_down t)) s.
Definition count_tx_echo_pkt (s : bfd_session) : bfd_session :=
  let t := stats s in
  set_stats (mkStats (rx_ctrl_pkt t) (tx_ctrl_pkt t) (u64 (tx_echo_pkt t + 1)) (session_up t)
    (session_down t)) s.
Definition count_session_up (s : bfd_session) : bfd_session :=
  let t := stats s in
  set_stats (mkStats (rx_ctrl_pkt t) (tx_ctrl_pkt t) (tx_echo_pkt t) (u64 (session_up t + 1))
    (session_down t)) s.
Definition count_session_down (s : bfd_session) : bfd_session :=
  let t := stats s in
  set_stats (mkStats (rx_ctrl_pkt t) (tx_ctrl_pkt t) (tx_echo_pkt t) (session_up t)
    (u64 (session_down t + 1))) s.
Definition emit (x : output) (s : bfd_session) : bfd_session := set_out (out s ++ [x]) s.
