(* ===== verification/Bfd.v ===== *)
(** * The BFD protocol (bfdd/bfd.c, bfdd/bfd_packet.c, bfdd/event.c)

    The state machine, the timers and the packet handler of a BFD session.  The
    session a packet belongs to is given (the lookup by discriminator and
    addresses is not modelled); so is what the environment decides: whether the
    VRF is the right one, and whether the peer's MAC address gets known.  The
    messages to an offloading data plane, the echo sockets of a VRF, the counter of
    received echo packets and the log are left out.  Seamless BFD (S-BFD) is modelled
    for initiators and for echo sessions; reflectors, which have no session, are not. *)

From S2P Require Import Prelude BfdState.

(** ** Timers (event.c) *)

(** Timers are not started for a session that is shut down or has no socket. *)
Definition deactivated (s : bfd_session) : bool := SHUTDOWN (flags s) || negb (sock s).

Definition bfd_recvtimer_delete (s : bfd_session) : bfd_session := set_recvtimer_ev None s.
Definition bfd_echo_recvtimer_delete (s : bfd_session) : bfd_session := set_echo_recvtimer_ev None s.
Definition bfd_xmttimer_delete (s : bfd_session) : bfd_session := set_xmttimer_ev None s.
Definition bfd_echo_xmttimer_delete (s : bfd_session) : bfd_session := set_echo_xmttimer_ev None s.

Definition bfd_recvtimer_update (s : bfd_session) : bfd_session :=
  let s := bfd_recvtimer_delete s in
  if deactivated s then s else set_recvtimer_ev (Some (detect_TO s)) s.
Definition bfd_echo_recvtimer_update (s : bfd_session) : bfd_session :=
  let s := bfd_echo_recvtimer_delete s in
  if deactivated s then s else set_echo_recvtimer_ev (Some (echo_detect_TO s)) s.
Definition bfd_xmttimer_update (s : bfd_session) (jitter : Z) : bfd_session :=
  let s := bfd_xmttimer_delete s in
  if deactivated s then s else set_xmttimer_ev (Some jitter) s.
Definition bfd_echo_xmttimer_update (s : bfd_session) (jitter : Z) : bfd_session :=
  let s := bfd_echo_xmttimer_delete s in
  if deactivated s then s else set_echo_xmttimer_ev (Some jitter) s.

(** The timers of S-BFD sessions are the same events with other callbacks. *)
Definition sbfd_init_recvtimer_delete (s : bfd_session) : bfd_session := set_recvtimer_ev None s.
Definition sbfd_echo_recvtimer_delete (s : bfd_session) : bfd_session := set_echo_recvtimer_ev None s.
Definition sbfd_init_xmttimer_delete (s : bfd_session) : bfd_session := set_xmttimer_ev None s.
Definition sbfd_echo_xmttimer_delete (s : bfd_session) : bfd_session := set_echo_xmttimer_ev None s.

Definition sbfd_init_recvtimer_update (s : bfd_session) : bfd_session :=
  let s := sbfd_init_recvtimer_delete s in
  if deactivated s then s else set_recvtimer_ev (Some (detect_TO s)) s.
Definition sbfd_echo_recvtimer_update (s : bfd_session) : bfd_session :=
  let s := sbfd_echo_recvtimer_delete s in
  if deactivated s then s else set_echo_recvtimer_ev (Some (echo_detect_TO s)) s.
Definition sbfd_init_xmttimer_update (s : bfd_session) (jitter : Z) : bfd_session :=
  let s := sbfd_init_xmttimer_delete s in
  if deactivated s then s else set_xmttimer_ev (Some jitter) s.
Definition sbfd_echo_xmttimer_update (s : bfd_session) (jitter : Z) : bfd_session :=
  let s := sbfd_echo_xmttimer_delete s in
  if deactivated s then s else set_echo_xmttimer_ev (Some jitter) s.

(** ** Packets *)

Definition BFD_GETVER (d : Z) : Z := Z.land (Z.shiftr d 5) 7.
Definition BFD_GETSTATE (f : Z) : Z := Z.land (Z.shiftr f 6) 3.
Definition BFD_GETPBIT (f : Z) : bool := negb (Z.land f 32 =? 0).
Definition BFD_GETFBIT (f : Z) : bool := negb (Z.land f 16 =? 0).
Definition BFD_GETCBIT (f : Z) : bool := negb (Z.land f 8 =? 0).
Definition BFD_GETABIT (f : Z) : bool := negb (Z.land f 4 =? 0).
Definition BFD_GETMBIT (f : Z) : bool := negb (Z.land f 1 =? 0).

(** The packet [ptm_bfd_snd] builds. *)
Definition control_packet (s : bfd_session) (fbit : bool) : bfd_pkt :=
  let f := Z.lor 0 (if ses_state s =? 0 then 0 else Z.shiftl (Z.land (ses_state s) 3) 6) in
  let f := if CBIT (flags s) then Z.lor f 8 else f in
  let f := if fbit then Z.lor f 16 else f in
  let f := if negb fbit && negb (polling s =? 0) then Z.lor f 32 else f in
  mkPkt (Z.lor (local_diag s) (Z.shiftl (Z.land BFD_VERSION 7) 5)) f (detect_mult s) BFD_PKT_LEN
    (my_discr s) (remote_discr s)
    (if negb (polling s =? 0)
     then mkTimers (cfg_desired_min_tx (timers s)) (cfg_required_min_rx (timers s))
            (cfg_required_min_echo_rx (timers s))
     else mkTimers (desired_min_tx (cur_timers s)) (required_min_rx (cur_timers s))
            (cfg_required_min_echo_rx (timers s))).

Definition ptm_bfd_snd (s : bfd_session) (fbit : bool) : bfd_session :=
  if (remote_discr s =? 0) && PASSIVE (flags s) then s
  else if send_ok s then count_tx_ctrl_pkt (emit (SendControl (control_packet s fbit)) s)
  else s.

Definition ptm_bfd_echo_fp_snd (s : bfd_session) : bfd_session :=
  if negb (has_vrf s) then s
  else if negb (MAC_SET (flags s)) then s
  else
    let s := set_ECHO_ACTIVE true s in
    if send_ok s then count_tx_echo_pkt (emit SendEcho s) else s.

Definition ptm_bfd_echo_snd (s : bfd_session) : bfd_session :=
  if negb (has_vrf s) then s
  else
    let s := set_ECHO_ACTIVE true s in
    if send_ok s then count_tx_echo_pkt (emit SendEcho s) else s.

(** The packet [ptm_sbfd_initiator_snd] builds, with the demand bit. *)
Definition initiator_packet (s : bfd_session) (fbit : bool) : bfd_pkt :=
  let f := Z.lor 0 (if ses_state s =? 0 then 0 else Z.shiftl (Z.land (ses_state s) 3) 6) in
  let f := if CBIT (flags s) then Z.lor f 8 else f in
  let f := Z.lor f 2 in
  let f := if fbit then Z.lor f 16 else f in
  let f := if negb fbit && negb (polling s =? 0) then Z.lor f 32 else f in
  mkPkt (Z.lor (local_diag s) (Z.shiftl (Z.land BFD_VERSION 7) 5)) f (detect_mult s) BFD_PKT_LEN
    (my_discr s) (remote_discr s)
    (mkTimers (if negb (polling s =? 0) then cfg_desired_min_tx (timers s) else desired_min_tx (cur_timers s)) 0 0).

Definition ptm_sbfd_initiator_snd (s : bfd_session) (fbit : bool) : bfd_session :=
  if send_ok s then count_tx_ctrl_pkt (emit (SendControl (initiator_packet s fbit)) s) else s.

Definition ptm_sbfd_echo_snd (s : bfd_session) : bfd_session :=
  if send_ok s then set_ECHO_ACTIVE true (emit SendEcho s) else s.

Definition ptm_bfd_notify (s : bfd_session) (state : Z) : bfd_session := emit (Notify state) s.

(** ** Sessions going up and down (bfd.c) *)

Section Protocol.
(** The [n]-th result of [frr_weak_random]. *)
Context (weak_random : nat -> Z).

Definition ptm_bfd_start_xmt_timer (s : bfd_session) (is_echo : bool) : bfd_session :=
  let xmt := if is_echo then echo_xmt_TO s else xmt_TO s in
  let maxpercent := if detect_mult s =? 1 then 16 else 26 in
  let jitter := u64 (xmt * (75 + weak_random (random_calls s) mod maxpercent)) / 100 in
  let s := set_random_calls (S (random_calls s)) s in
  if (bfd_mode s =? BFD_MODE_TYPE_SBFD_ECHO) || (bfd_mode s =? BFD_MODE_TYPE_SBFD_INIT) then
    if is_echo then sbfd_echo_xmttimer_update s jitter else sbfd_init_xmttimer_update s jitter
  else if is_echo then bfd_echo_xmttimer_update s jitter else bfd_xmttimer_update s jitter.

Definition ptm_bfd_echo_xmt_TO (s : bfd_session) : bfd_session :=
  let s := if negb (IPV6 (flags s)) then ptm_bfd_echo_fp_snd s else ptm_bfd_echo_snd s in
  ptm_bfd_start_xmt_timer s true.

Definition ptm_bfd_xmt_TO (s : bfd_session) (fbit : bool) : bfd_session :=
  ptm_bfd_start_xmt_timer (ptm_bfd_snd s fbit) false.

Definition ptm_bfd_echo_stop (s : bfd_session) : bfd_session :=
  let s := set_echo_xmt_TO 0 s in
  let s := set_echo_detect_TO 0 s in
  let s := set_ECHO_ACTIVE false s in
  bfd_echo_recvtimer_delete (bfd_echo_xmttimer_delete s).

Definition ptm_bfd_echo_start (s : bfd_session) : bfd_session :=
  let s := set_echo_detect_TO (u64 (remote_detect_mult s * echo_xmt_TO s)) s in
  if 0 <? echo_detect_TO s then ptm_bfd_echo_xmt_TO (bfd_echo_recvtimer_update s) else s.

Definition bfd_set_polling (s : bfd_session) : bfd_session := set_polling 1 s.

Definition bs_set_slow_timers (s : bfd_session) : bfd_session :=
  let s := set_cur_timers (mkTimers BFD_DEF_SLOWTX BFD_DEF_SLOWTX 0) s in
  let s := set_detect_TO (BFD_DEFDETECTMULT * BFD_DEF_SLOWTX) s in
  let s := set_xmt_TO BFD_DEF_SLOWTX s in
  if bfd_mode s =? BFD_MODE_TYPE_SBFD_ECHO then
    let s := set_echo_xmt_TO SBFD_ECHO_DEF_SLOWTX s in
    set_timers (mkConfigTimers (cfg_desired_min_tx (timers s)) (cfg_required_min_rx (timers s))
                  BFD_DEFDESIREDMINTX BFD_DEFDESIREDMINTX) s
  else s.

Definition ptm_bfd_sess_up (s : bfd_session) : bfd_session :=
  let old_state := ses_state s in
  let s := set_local_diag 0 s in
  let s := set_ses_state PTM_BFD_UP s in
  let s := bfd_set_polling s in
  let s := ptm_bfd_snd s false in
  let s := ptm_bfd_notify s (ses_state s) in
  if negb (old_state =? ses_state s) then count_session_up s else s.

Definition ptm_bfd_sess_dn (s : bfd_session) (d : Z) : bfd_session :=
  let old_state := ses_state s in
  let s := set_local_diag d s in
  let s := set_remote_discr 0 s in
  let s := set_ses_state PTM_BFD_DOWN s in
  let s := set_polling 0 s in
  let s := set_demand_mode 0 s in
  let s := if sock s then ptm_bfd_snd s false else s in
  let s := bs_set_slow_timers s in
  let s := if old_state =? PTM_BFD_UP then ptm_bfd_notify s PTM_BFD_DOWN else s in
  let s := if ECHO_ACTIVE (flags s) then ptm_bfd_echo_stop s else s in
  let s := if PASSIVE (flags s) then bfd_xmttimer_delete (bfd_recvtimer_delete s) else s in
  let s := if negb (old_state =? ses_state s) then count_session_down s else s in
  set_MAC_SET false s.

(** ** S-BFD sessions going up and down *)

Definition ptm_sbfd_echo_xmt_TO (s : bfd_session) : bfd_session :=
  ptm_bfd_start_xmt_timer (ptm_sbfd_echo_snd s) true.

Definition ptm_sbfd_init_xmt_TO (s : bfd_session) (fbit : bool) : bfd_session :=
  ptm_bfd_start_xmt_timer (ptm_sbfd_initiator_snd s fbit) false.

Definition ptm_sbfd_init_reset (s : bfd_session) : bfd_session :=
  let s := set_xmt_TO BFD_DEF_SLOWTX s in
  let s := set_detect_TO 0 s in
  ptm_sbfd_init_xmt_TO s false.

Definition ptm_sbfd_echo_reset (s : bfd_session) : bfd_session :=
  let s := set_echo_xmt_TO SBFD_ECHO_DEF_SLOWTX s in
  let s := set_echo_detect_TO 0 s in
  ptm_sbfd_echo_xmt_TO s.

Definition ptm_sbfd_sess_up (s : bfd_session) : bfd_session :=
  let old_state := ses_state s in
  let s := set_local_diag 0 s in
  let s := set_ses_state PTM_BFD_UP s in
  let s := ptm_bfd_notify s (ses_state s) in
  if negb (old_state =? ses_state s) then count_session_up s else s.

Definition ptm_sbfd_init_sess_dn (s : bfd_session) (d : Z) : bfd_session :=
  let old_state := ses_state s in
  let s := set_local_diag d s in
  let s := set_ses_state PTM_BFD_DOWN s in
  let s := set_polling 0 s in
  let s := set_demand_mode 0 s in
  let s := if sock s then ptm_sbfd_init_reset s else s in
  let s := bs_set_slow_timers s in
  let s := if old_state =? PTM_BFD_UP then ptm_bfd_notify s PTM_BFD_DOWN else s in
  let s := if PASSIVE (flags s) then sbfd_init_xmttimer_delete (sbfd_init_recvtimer_delete s) else s in
  if negb (old_state =? ses_state s) then count_session_down s else s.

Definition ptm_sbfd_echo_sess_dn (s : bfd_session) (d : Z) : bfd_session :=
  let old_state := ses_state s in
  let s := set_local_diag d s in
  let s := set_remote_discr 0 s in
  let s := set_ses_state PTM_BFD_DOWN s in
  let s := set_polling 0 s in
  let s := set_demand_mode 0 s in
  let s := if old_state =? PTM_BFD_UP then ptm_bfd_notify s PTM_BFD_DOWN else s in
  let s := ptm_sbfd_echo_reset s in
  if negb (old_state =? ses_state s) then count_session_down s else s.

Definition sbfd_down_handler (s : bfd_session) (nstate : Z) : bfd_session :=
  if nstate =? PTM_BFD_UP then ptm_sbfd_sess_up s else s.

Definition sbfd_up_handler (s : bfd_session) (nstate : Z) : bfd_session :=
  if (nstate =? PTM_BFD_ADM_DOWN) || (nstate =? PTM_BFD_DOWN) then
    if bfd_mode s =? BFD_MODE_TYPE_SBFD_ECHO then ptm_sbfd_echo_sess_dn s BD_ECHO_FAILED
    else ptm_sbfd_init_sess_dn s BD_ECHO_FAILED
  else s.

Definition sbfd_echo_state_handler (s : bfd_session) (nstate : Z) : bfd_session :=
  if ses_state s =? PTM_BFD_DOWN then sbfd_down_handler s nstate
  else if ses_state s =? PTM_BFD_UP then sbfd_up_handler s nstate
  else s.

Definition sbfd_initiator_state_handler (s : bfd_session) (nstate : Z) : bfd_session :=
  if ses_state s =? PTM_BFD_DOWN then sbfd_down_handler s nstate
  else if ses_state s =? PTM_BFD_UP then sbfd_up_handler s nstate
  else s.

(** ** The state machine *)

Definition bs_down_handler (s : bfd_session) (nstate : Z) : bfd_session :=
  if nstate =? PTM_BFD_DOWN then
    let s := set_ses_state PTM_BFD_INIT s in
    if PASSIVE (flags s) then ptm_bfd_xmt_TO s false else s
  else if nstate =? PTM_BFD_INIT then ptm_bfd_sess_up s
  else s.

Definition bs_init_handler (s : bfd_session) (nstate : Z) : bfd_session :=
  if nstate =? PTM_BFD_ADM_DOWN then ptm_bfd_sess_dn s BD_NEIGHBOR_DOWN
  else if (nstate =? PTM_BFD_INIT) || (nstate =? PTM_BFD_UP) then ptm_bfd_sess_up s
  else s.

Definition bs_up_handler (s : bfd_session) (nstate : Z) : bfd_session :=
  if (nstate =? PTM_BFD_ADM_DOWN) || (nstate =? PTM_BFD_DOWN)
  then ptm_bfd_sess_dn s BD_NEIGHBOR_DOWN
  else s.

Definition bs_state_handler (s : bfd_session) (nstate : Z) : bfd_session :=
  if ses_state s =? PTM_BFD_ADM_DOWN then s
  else if ses_state s =? PTM_BFD_DOWN then bs_down_handler s nstate
  else if ses_state s =? PTM_BFD_INIT then bs_init_handler s nstate
  else if ses_state s =? PTM_BFD_UP then bs_up_handler s nstate
  else s.

(** ** Timer negotiation *)

Definition bs_echo_timer_handler (s : bfd_session) : bfd_session :=
  if negb (ECHO (flags s)) || MH (flags s) || negb (ses_state s =? PTM_BFD_UP) then s
  else if required_min_echo (remote_timers s) =? 0 then
    if ECHO_ACTIVE (flags s) then ptm_bfd_echo_stop s else s
  else
    let old_timer := u32 (echo_xmt_TO s) in
    let s := if cfg_desired_min_echo_tx (timers s) <? required_min_echo (remote_timers s)
             then set_echo_xmt_TO (required_min_echo (remote_timers s)) s
             else set_echo_xmt_TO (cfg_desired_min_echo_tx (timers s)) s in
    if negb (ECHO_ACTIVE (flags s)) || negb (old_timer =? echo_xmt_TO s)
    then ptm_bfd_echo_start s else s.

Definition bs_final_handler (s : bfd_session) : bfd_session :=
  let old_xmt_TO := xmt_TO s in
  let s := set_cur_timers (mkTimers (cfg_desired_min_tx (timers s)) (cfg_required_min_rx (timers s))
                             (required_min_echo (cur_timers s))) s in
  if negb (demand_mode s =? 0) then s
  else
    let s := if required_min_rx (remote_timers s) <? cfg_desired_min_tx (timers s)
             then set_xmt_TO (cfg_desired_min_tx (timers s)) s
             else set_xmt_TO (required_min_rx (remote_timers s)) s in
    if (ses_state s =? PTM_BFD_UP) && (old_xmt_TO <? xmt_TO s) then set_xmt_TO old_xmt_TO s
    else ptm_bfd_start_xmt_timer s false.

(** ** Receiving a control packet *)

Definition bfd_check_auth (cp : bfd_pkt) : bool := negb (BFD_GETABIT (pkt_flags cp)).

(** The packet is dropped before the session is looked up. *)
Definition malformed (is_mhop : bool) (ttl mlen : Z) (cp : bfd_pkt) : bool :=
  (mlen <? BFD_PKT_LEN)
  || (negb is_mhop && negb (ttl =? BFD_TTL_VAL))
  || negb (BFD_GETVER (diag cp) =? BFD_VERSION)
  || (pkt_detect_mult cp =? 0)
  || (len cp <? BFD_PKT_LEN) || (mlen <? len cp)
  || BFD_GETMBIT (pkt_flags cp)
  || (pkt_my_discr cp =? 0).

(** The packet is dropped for session [s]. *)
Definition refused (s : bfd_session) (wrong_vrf is_mhop : bool) (ttl : Z) (cp : bfd_pkt) : bool :=
  wrong_vrf
  || ((pkt_remote_discr cp =? 0) && negb (ses_state s =? PTM_BFD_DOWN)
      && negb (ses_state s =? PTM_BFD_ADM_DOWN))
  || (is_mhop && (ttl <? mh_ttl s)).

(** What an accepted packet says about the peer. *)
Definition learn (s : bfd_session) (cp : bfd_pkt) : bfd_session :=
  let s := set_remote_diag (Z.land (diag cp) 31) s in
  let s := set_remote_timers (pkt_timers cp) s in
  let s := set_remote_detect_mult (pkt_detect_mult cp) s in
  set_remote_cbit (if BFD_GETCBIT (pkt_flags cp) then 1 else 0) s.

(** From the state switch on. *)
Definition process_packet (s : bfd_session) (cp : bfd_pkt) : bfd_session :=
  let s := bs_state_handler s (BFD_GETSTATE (pkt_flags cp)) in
  let s := if negb (polling s =? 0) && BFD_GETFBIT (pkt_flags cp)
           then bs_final_handler (set_polling 0 s) else s in
  let s := if desired_min_tx (remote_timers s) <? required_min_rx (cur_timers s)
           then set_detect_TO (u32 (remote_detect_mult s * required_min_rx (cur_timers s))) s
           else set_detect_TO (u32 (remote_detect_mult s * desired_min_tx (remote_timers s))) s in
  let s := bfd_recvtimer_update s in
  let s := bs_echo_timer_handler s in
  if BFD_GETPBIT (pkt_flags cp) then ptm_bfd_snd (bs_final_handler s) true else s.

(** The packet of a reflector, for the S-BFD session that waits for it. *)
Definition process_reflected (s : bfd_session) (cp : bfd_pkt) : bfd_session :=
  let s := sbfd_initiator_state_handler s PTM_BFD_UP in
  let s := if negb (xmt_TO s =? cfg_desired_min_tx (timers s))
           then ptm_bfd_start_xmt_timer (set_xmt_TO (cfg_desired_min_tx (timers s)) s) false else s in
  let s := set_detect_TO (u64 (detect_mult s * xmt_TO s)) s in
  let s := sbfd_init_recvtimer_update s in
  if negb (polling s =? 0) && BFD_GETFBIT (pkt_flags cp) then
    let s := set_polling 0 s in
    set_cur_timers (mkTimers (cfg_desired_min_tx (timers s)) (cfg_required_min_rx (timers s))
                      (required_min_echo (cur_timers s))) s
  else s.

Definition bfd_recv_cb (s : bfd_session) (wrong_vrf is_mhop mac_known : bool) (ttl mlen : Z)
    (cp : bfd_pkt) : bfd_session :=
  if malformed is_mhop ttl mlen cp then s
  else if refused s wrong_vrf is_mhop ttl cp then s
  else
    let s := if negb is_mhop && mac_known then set_MAC_SET true s else s in
    let s := count_rx_ctrl_pkt s in
    let s := set_remote_discr (pkt_my_discr cp) s in
    if negb (bfd_check_auth cp) then s
    else
      let s := learn s cp in
      if bfd_mode s =? BFD_MODE_TYPE_SBFD_INIT then process_reflected s cp else process_packet s cp.

(** [ptm_bfd_process_echo_pkt], once the session is found. *)
Definition ptm_bfd_process_echo_pkt (s : bfd_session) : bfd_session :=
  if negb (ECHO_ACTIVE (flags s)) then s
  else
    let s := set_echo_detect_TO (u64 (remote_detect_mult s * echo_xmt_TO s)) s in
    if bfd_mode s =? BFD_MODE_TYPE_SBFD_ECHO then
      let s := sbfd_echo_state_handler s PTM_BFD_UP in
      let s := if negb (echo_xmt_TO s =? cfg_desired_min_echo_tx (timers s))
               then ptm_bfd_start_xmt_timer (set_echo_xmt_TO (cfg_desired_min_echo_tx (timers s)) s) true else s in
      let s := set_echo_detect_TO (u64 (detect_mult s * echo_xmt_TO s)) s in
      if 0 <? echo_detect_TO s then sbfd_echo_recvtimer_update s else s
    else if 0 <? echo_detect_TO s then bfd_echo_recvtimer_update s else s.

(** ** Timers and configuration *)

(** The timer has fired: its event is gone when the callback runs. *)
Definition bfd_recvtimer_cb (s : bfd_session) : bfd_session :=
  let s := set_recvtimer_ev None s in
  if (ses_state s =? PTM_BFD_INIT) || (ses_state s =? PTM_BFD_UP)
  then ptm_bfd_sess_dn s BD_CONTROL_EXPIRED else s.

Definition bfd_echo_recvtimer_cb (s : bfd_session) : bfd_session :=
  let s := set_echo_recvtimer_ev None s in
  if (ses_state s =? PTM_BFD_INIT) || (ses_state s =? PTM_BFD_UP)
  then ptm_bfd_sess_dn s BD_ECHO_FAILED else s.

Definition bfd_xmt_cb (s : bfd_session) : bfd_session :=
  ptm_bfd_xmt_TO (set_xmttimer_ev None s) false.

Definition bfd_echo_xmt_cb (s : bfd_session) : bfd_session :=
  let s := set_echo_xmttimer_ev None s in
  if 0 <? echo_xmt_TO s then ptm_bfd_echo_xmt_TO s else s.

(** The same timers in S-BFD sessions. *)
Definition sbfd_init_recvtimer_cb (s : bfd_session) : bfd_session :=
  let s := set_recvtimer_ev None s in
  if (ses_state s =? PTM_BFD_INIT) || (ses_state s =? PTM_BFD_UP)
  then ptm_sbfd_init_sess_dn s BD_PATH_DOWN else s.

Definition sbfd_echo_recvtimer_cb (s : bfd_session) : bfd_session :=
  let s := set_echo_recvtimer_ev None s in
  if (ses_state s =? PTM_BFD_INIT) || (ses_state s =? PTM_BFD_UP)
  then ptm_sbfd_echo_sess_dn s BD_PATH_DOWN else s.

Definition sbfd_init_xmt_cb (s : bfd_session) : bfd_session :=
  ptm_sbfd_init_xmt_TO (set_xmttimer_ev None s) false.

Definition sbfd_echo_xmt_cb (s : bfd_session) : bfd_session :=
  let s := set_echo_xmttimer_ev None s in
  if 0 <? echo_xmt_TO s then ptm_sbfd_echo_xmt_TO s else s.

Definition bfd_set_echo (s : bfd_session) (echo : bool) : bfd_session :=
  if echo then
    if ECHO (flags s) then s
    else
      let s := set_ECHO true s in
      if negb (bdc s) then bs_echo_timer_handler s else s
  else
    if negb (ECHO (flags s)) then s
    else
      let s := set_ECHO false s in
      if negb (bdc s) then ptm_bfd_echo_stop s else s.

Definition bfd_set_shutdown (s : bfd_session) (shutdown : bool) : bfd_session :=
  let is_shutdown := if ses_state s =? PTM_BFD_UP then false else SHUTDOWN (flags s) in
  if shutdown then
    if is_shutdown then s
    else
      let s := set_SHUTDOWN true s in
      let s := set_local_diag BD_ADMIN_DOWN s in
      if bdc s then ptm_bfd_notify (set_ses_state PTM_BFD_ADM_DOWN s) PTM_BFD_ADM_DOWN
      else
        let s := bfd_recvtimer_delete s in
        let s := bfd_echo_recvtimer_delete s in
        let s := bfd_xmttimer_delete s in
        let s := bfd_echo_xmttimer_delete s in
        let s := set_ses_state PTM_BFD_ADM_DOWN s in
        let s := ptm_bfd_notify s (ses_state s) in
        if sock s then ptm_bfd_snd s false else s
  else
    if negb is_shutdown then s
    else
      let s := set_SHUTDOWN false s in
      if bdc s then ptm_bfd_notify (set_ses_state PTM_BFD_DOWN s) PTM_BFD_DOWN
      else
        let s := set_ses_state PTM_BFD_DOWN s in
        let s := ptm_bfd_notify s (ses_state s) in
        if PASSIVE (flags s) then bfd_xmttimer_delete (bfd_recvtimer_delete s)
        else
          let s := bfd_recvtimer_update s in
          bfd_xmttimer_update s (xmt_TO s).

Definition bfd_set_passive_mode (s : bfd_session) (passive : bool) : bfd_session :=
  if passive then
    let s := set_PASSIVE true s in
    if negb (ses_state s =? PTM_BFD_DOWN) then s
    else bfd_xmttimer_delete (bfd_recvtimer_delete s)
  else
    let s := set_PASSIVE false s in
    if negb (ses_state s =? PTM_BFD_DOWN) then s
    else bfd_recvtimer_update (bfd_xmttimer_update s (xmt_TO s)).
End Protocol.

(** A new session; its discriminator, socket and VRF are set when it is enabled. *)
Definition bfd_session_new (mode discr : Z) (sock_ vrf : bool) : bfd_session :=
  let s := mkSession PTM_BFD_DOWN discr 0 0 0 BFD_DEFDETECTMULT 0 BFD_DEF_MHOP_TTL 0
    (mkConfigTimers BFD_DEFDESIREDMINTX BFD_DEFREQUIREDMINRX BFD_DEF_DES_MIN_ECHO_TX
       BFD_DEF_REQ_MIN_ECHO_RX)
    (mkTimers 0 0 0) 0 None None 0 0 None None 0 0 false sock_
    (mkFlags false false false false false false false false) (mkStats 0 0 0 0 0)
    0 (mkTimers 0 0 0) mode vrf true 0 [] in
  let s := bs_set_slow_timers s in
  set_remote_detect_mult BFD_DEFDETECTMULT (set_remote_timers (cur_timers s) s).
