(* ===== verification/BfdFacts.v ===== *)
(** * Correctness of the BFD protocol

    The state machine follows RFC 5880, a session that is up is always guarded by
    its detection timer, and two systems that exchange packets bring a session
    up. *)

From stdpp Require Import relations.
From S2P Require Import Prelude BfdState Bfd.

(** ** What the helpers leave alone *)

(** The part of a session the state machine works on. *)
Definition view (s : bfd_session) : Z * Z * bool * bool * bool * option Z :=
  (ses_state s, remote_discr s, SHUTDOWN (flags s), bdc s, sock s, recvtimer_ev s).

Lemma view_eq s st rd sh b so rt : view s = (st, rd, sh, b, so, rt) ->
  ses_state s = st /\ remote_discr s = rd /\ SHUTDOWN (flags s) = sh /\ bdc s = b /\ sock s = so
  /\ recvtimer_ev s = rt.
Proof. unfold view. intros [= ? ? ? ? ? ?]. by repeat split. Qed.

(** The notifications among the outputs. *)
Definition notes (l : list output) : list Z :=
  flat_map (fun x => match x with Notify st => [st] | _ => [] end) l.

Lemma notes_app l1 l2 : notes (l1 ++ l2) = notes l1 ++ notes l2.
Proof. apply flat_map_app. Qed.

(** Effects on the view, the diagnostic and the notifications, per helper. *)
Definition silent (s s' : bfd_session) : Prop :=
  view s' = view s /\ local_diag s' = local_diag s /\ notes (out s') = notes (out s)
  /\ PASSIVE (flags s') = PASSIVE (flags s) /\ my_discr s' = my_discr s
  /\ detect_mult s' = detect_mult s /\ mh_ttl s' = mh_ttl s /\ bfd_mode s' = bfd_mode s.

Lemma silent_refl s : silent s s.
Proof. by repeat split. Qed.

Lemma silent_trans s1 s2 s3 : silent s1 s2 -> silent s2 s3 -> silent s1 s3.
Proof.
  intros (A1 & A2 & A3 & A4 & A5 & A6 & A7 & A8) (B1 & B2 & B3 & B4 & B5 & B6 & B7 & B8).
  repeat split; congruence.
Qed.

Create HintDb bfd.
#[export] Hint Resolve silent_refl : bfd.

(** Decides the effect of a helper by cases on its conditions. *)
Ltac bfd_cases :=
  repeat match goal with
  | |- context [if ?b then _ else _] => destruct b eqn:?
  end.
Ltac bfd_silent :=
  bfd_cases; unfold silent, view; simpl; rewrite ?notes_app; simpl; rewrite ?app_nil_r; by repeat split.

Lemma snd_silent s b : silent s (ptm_bfd_snd s b).
Proof. unfold ptm_bfd_snd. bfd_silent. Qed.

Lemma fp_snd_silent s : silent s (ptm_bfd_echo_fp_snd s).
Proof. unfold ptm_bfd_echo_fp_snd. cbv zeta. bfd_silent. Qed.

Lemma echo_snd_silent s : silent s (ptm_bfd_echo_snd s).
Proof. unfold ptm_bfd_echo_snd. cbv zeta. bfd_silent. Qed.

Lemma echo_stop_silent s : silent s (ptm_bfd_echo_stop s).
Proof. unfold ptm_bfd_echo_stop, bfd_echo_recvtimer_delete, bfd_echo_xmttimer_delete. bfd_silent. Qed.

Lemma xmttimer_silent s j : silent s (bfd_xmttimer_update s j).
Proof. unfold bfd_xmttimer_update, bfd_xmttimer_delete. cbv zeta. bfd_silent. Qed.

Lemma echo_xmttimer_silent s j : silent s (bfd_echo_xmttimer_update s j).
Proof. unfold bfd_echo_xmttimer_update, bfd_echo_xmttimer_delete. cbv zeta. bfd_silent. Qed.

Lemma echo_recvtimer_silent s : silent s (bfd_echo_recvtimer_update s).
Proof. unfold bfd_echo_recvtimer_update, bfd_echo_recvtimer_delete. cbv zeta. bfd_silent. Qed.

Lemma slow_timers_silent s : silent s (bs_set_slow_timers s).
Proof. unfold bs_set_slow_timers. cbv zeta. bfd_silent. Qed.

Section Protocol.
Context (weak_random : nat -> Z).

(** The mode decides only which callback the timer has. *)
Lemma start_xmt_modes s b : exists jitter, let s1 := set_random_calls (S (random_calls s)) s in
  ptm_bfd_start_xmt_timer weak_random s b = if b then bfd_echo_xmttimer_update s1 jitter else bfd_xmttimer_update s1 jitter.
Proof.
  unfold ptm_bfd_start_xmt_timer. cbv zeta.
  exists (u64 ((if b then echo_xmt_TO s else xmt_TO s)
               * (75 + weak_random (random_calls s) mod (if detect_mult s =? 1 then 16 else 26))) / 100).
  destruct (_ || _), b; reflexivity.
Qed.

Lemma start_xmt_silent s b : silent s (ptm_bfd_start_xmt_timer weak_random s b).
Proof.
  destruct (start_xmt_modes s b) as [j ->]. destruct b.
  - eapply silent_trans; [|apply echo_xmttimer_silent]. bfd_silent.
  - eapply silent_trans; [|apply xmttimer_silent]. bfd_silent.
Qed.

Lemma init_xmt_TO_silent s b : silent s (ptm_sbfd_init_xmt_TO weak_random s b).
Proof. eapply silent_trans; [|apply start_xmt_silent]. unfold ptm_sbfd_initiator_snd. bfd_silent. Qed.

Lemma sbfd_echo_xmt_TO_silent s : silent s (ptm_sbfd_echo_xmt_TO weak_random s).
Proof. eapply silent_trans; [|apply start_xmt_silent]. unfold ptm_sbfd_echo_snd. bfd_silent. Qed.

Lemma xmt_TO_silent s b : silent s (ptm_bfd_xmt_TO weak_random s b).
Proof. eapply silent_trans; [apply snd_silent|apply start_xmt_silent]. Qed.

Lemma echo_xmt_TO_silent s : silent s (ptm_bfd_echo_xmt_TO weak_random s).
Proof.
  unfold ptm_bfd_echo_xmt_TO. cbv zeta. eapply silent_trans; [|apply start_xmt_silent].
  destruct (negb _); [apply fp_snd_silent|apply echo_snd_silent].
Qed.

Lemma echo_start_silent s : silent s (ptm_bfd_echo_start weak_random s).
Proof.
  unfold ptm_bfd_echo_start. cbv zeta. destruct (0 <? _); [|bfd_silent].
  eapply silent_trans; [|apply echo_xmt_TO_silent]. eapply silent_trans; [|apply echo_recvtimer_silent].
  bfd_silent.
Qed.

Lemma echo_handler_silent s : silent s (bs_echo_timer_handler weak_random s).
Proof.
  unfold bs_echo_timer_handler. cbv zeta. destruct (_ || _ || _); [apply silent_refl|].
  destruct (_ =? 0); [destruct (ECHO_ACTIVE _); [apply echo_stop_silent|apply silent_refl]|].
  match goal with |- context [if ?b then set_echo_xmt_TO ?x s else ?y] => set (s1 := if b then set_echo_xmt_TO x s else y) end.
  assert (silent s s1) as H1 by (unfold s1; bfd_silent).
  destruct (_ || _); [|done]. eapply silent_trans; [exact H1|apply echo_start_silent].
Qed.

Lemma final_silent s : silent s (bs_final_handler weak_random s).
Proof.
  unfold bs_final_handler. cbv zeta. destruct (negb _); [bfd_silent|].
  match goal with |- context [if (_ <? _) then set_xmt_TO ?x ?t else ?y] =>
    set (s1 := if _ <? _ then set_xmt_TO x t else y) end.
  assert (silent s s1) as H1 by (unfold s1; bfd_silent).
  destruct (_ && _); eapply silent_trans; try exact H1; [bfd_silent|apply start_xmt_silent].
Qed.
End Protocol.
#[export] Hint Resolve snd_silent echo_stop_silent xmttimer_silent slow_timers_silent start_xmt_silent
  xmt_TO_silent echo_handler_silent final_silent : bfd.

(** ** Up and down *)

(** Everything of [silent] except what the state machine changes. *)
Definition moved (s s' : bfd_session) (st rd d : Z) (rt : option Z) (l : list Z) : Prop :=
  view s' = (st, rd, SHUTDOWN (flags s), bdc s, sock s, rt) /\ local_diag s' = d
  /\ notes (out s') = notes (out s) ++ l
  /\ PASSIVE (flags s') = PASSIVE (flags s) /\ my_discr s' = my_discr s
  /\ detect_mult s' = detect_mult s /\ mh_ttl s' = mh_ttl s /\ bfd_mode s' = bfd_mode s.

Lemma silent_moved s s' : silent s s' ->
  moved s s' (ses_state s) (remote_discr s) (local_diag s) (recvtimer_ev s) [].
Proof.
  intros (A1 & A2 & A3 & A4 & A5 & A6 & A7 & A8). unfold moved. rewrite app_nil_r. by repeat split.
Qed.

Lemma moved_silent s s1 s2 st rd d rt l :
  moved s s1 st rd d rt l -> silent s1 s2 -> moved s s2 st rd d rt l.
Proof.
  intros (A1 & A2 & A3 & A4 & A5 & A6 & A7 & A8) (B1 & B2 & B3 & B4 & B5 & B6 & B7 & B8).
  repeat split; congruence.
Qed.

Ltac bfd_moved :=
  unfold moved, view in *; simpl in *; rewrite ?notes_app; simpl; rewrite ?app_nil_r; by repeat split.

Lemma sess_up_moved s :
  moved s (ptm_bfd_sess_up s) PTM_BFD_UP (remote_discr s) 0 (recvtimer_ev s) [PTM_BFD_UP].
Proof.
  unfold ptm_bfd_sess_up. cbv zeta. set (s1 := bfd_set_polling _).
  assert (moved s s1 PTM_BFD_UP (remote_discr s) 0 (recvtimer_ev s) []) as H1 by bfd_moved.
  pose proof (moved_silent _ _ _ _ _ _ _ _ H1 (snd_silent s1 false)) as H2.
  set (s2 := ptm_bfd_snd s1 false) in *. destruct H2 as (A1 & A2 & A3 & A4 & A5 & A6 & A7 & A8).
  assert (ses_state s2 = PTM_BFD_UP) as E by (unfold view in A1; congruence).
  assert (moved s (ptm_bfd_notify s2 (ses_state s2)) PTM_BFD_UP (remote_discr s) 0 (recvtimer_ev s) [PTM_BFD_UP]) as H3.
  { unfold moved. repeat split; try done. simpl. rewrite notes_app, A3, app_nil_r. simpl. by rewrite E. }
  destruct (negb _); [|done]. eapply moved_silent; [exact H3|]. bfd_silent.
Qed.

Lemma sess_dn_moved s d :
  moved s (ptm_bfd_sess_dn s d) PTM_BFD_DOWN 0 d
    (if PASSIVE (flags s) then None else recvtimer_ev s)
    (if ses_state s =? PTM_BFD_UP then [PTM_BFD_DOWN] else []).
Proof.
  unfold ptm_bfd_sess_dn. cbv zeta. set (s1 := set_demand_mode 0 _).
  assert (moved s s1 PTM_BFD_DOWN 0 d (recvtimer_ev s) []) as H1 by bfd_moved.
  set (s2 := bs_set_slow_timers _).
  assert (silent s1 s2) as S2.
  { unfold s2. eapply silent_trans; [|apply slow_timers_silent]. destruct (sock s1); auto with bfd. }
  pose proof (moved_silent _ _ _ _ _ _ _ _ H1 S2) as (A1 & A2 & A3 & A4 & A5 & A6 & A7 & A8).
  set (s3 := if ses_state s =? PTM_BFD_UP then ptm_bfd_notify s2 PTM_BFD_DOWN else s2).
  assert (moved s s3 PTM_BFD_DOWN 0 d (recvtimer_ev s) (if ses_state s =? PTM_BFD_UP then [PTM_BFD_DOWN] else [])) as H3.
  { unfold s3. destruct (ses_state s =? PTM_BFD_UP); [|by repeat split].
    unfold moved. repeat split; try done. simpl. by rewrite notes_app, A3, app_nil_r. }
  set (s4 := if ECHO_ACTIVE (flags s3) then ptm_bfd_echo_stop s3 else s3).
  assert (silent s3 s4) as S4 by (unfold s4; destruct (ECHO_ACTIVE _); auto with bfd).
  pose proof (moved_silent _ _ _ _ _ _ _ _ H3 S4) as H4. pose proof H4 as (B1 & B2 & B3 & B4 & B5 & B6 & B7 & B8).
  rewrite B4.
  set (s5 := if PASSIVE (flags s) then bfd_xmttimer_delete (bfd_recvtimer_delete s4) else s4).
  assert (moved s s5 PTM_BFD_DOWN 0 d (if PASSIVE (flags s) then None else recvtimer_ev s)
    (if ses_state s =? PTM_BFD_UP then [PTM_BFD_DOWN] else [])) as H5.
  { unfold s5. destruct (PASSIVE (flags s)) eqn:EP; [|done]. unfold view in B1. injection B1 as ?????.
    unfold moved, view. simpl. repeat split; congruence. }
  eapply moved_silent; [exact H5|]. bfd_silent.
Qed.

(** S-BFD: an initiator keeps the discriminator of the reflector. *)
Lemma sbfd_sess_up_moved s :
  moved s (ptm_sbfd_sess_up s) PTM_BFD_UP (remote_discr s) 0 (recvtimer_ev s) [PTM_BFD_UP].
Proof. unfold ptm_sbfd_sess_up. cbv zeta. destruct (negb _); bfd_moved. Qed.

Lemma sbfd_init_sess_dn_moved weak_random s d :
  moved s (ptm_sbfd_init_sess_dn weak_random s d) PTM_BFD_DOWN (remote_discr s) d
    (if PASSIVE (flags s) then None else recvtimer_ev s)
    (if ses_state s =? PTM_BFD_UP then [PTM_BFD_DOWN] else []).
Proof.
  unfold ptm_sbfd_init_sess_dn. cbv zeta. set (s1 := set_demand_mode 0 _).
  assert (moved s s1 PTM_BFD_DOWN (remote_discr s) d (recvtimer_ev s) []) as H1 by bfd_moved.
  set (s2 := bs_set_slow_timers _).
  assert (silent s1 s2) as S2.
  { unfold s2. eapply silent_trans; [|apply slow_timers_silent]. destruct (sock s1); [|apply silent_refl].
    unfold ptm_sbfd_init_reset. cbv zeta. eapply silent_trans; [|apply init_xmt_TO_silent]. bfd_silent. }
  pose proof (moved_silent _ _ _ _ _ _ _ _ H1 S2) as (A1 & A2 & A3 & A4 & A5 & A6 & A7 & A8).
  set (s3 := if ses_state s =? PTM_BFD_UP then ptm_bfd_notify s2 PTM_BFD_DOWN else s2).
  assert (moved s s3 PTM_BFD_DOWN (remote_discr s) d (recvtimer_ev s) (if ses_state s =? PTM_BFD_UP then [PTM_BFD_DOWN] else [])) as H3.
  { unfold s3. destruct (ses_state s =? PTM_BFD_UP); [|by repeat split].
    unfold moved. repeat split; try done. simpl. by rewrite notes_app, A3, app_nil_r. }
  pose proof H3 as (B1 & B2 & B3 & B4 & B5 & B6 & B7 & B8). rewrite B4.
  set (s5 := if PASSIVE (flags s) then sbfd_init_xmttimer_delete (sbfd_init_recvtimer_delete s3) else s3).
  assert (moved s s5 PTM_BFD_DOWN (remote_discr s) d (if PASSIVE (flags s) then None else recvtimer_ev s)
    (if ses_state s =? PTM_BFD_UP then [PTM_BFD_DOWN] else [])) as H5.
  { unfold s5. destruct (PASSIVE (flags s)) eqn:EP; [|done]. unfold view in B1. injection B1 as ?????.
    unfold moved, view. simpl. repeat split; congruence. }
  eapply moved_silent; [exact H5|]. bfd_silent.
Qed.

Lemma sbfd_echo_sess_dn_moved weak_random s d :
  moved s (ptm_sbfd_echo_sess_dn weak_random s d) PTM_BFD_DOWN 0 d (recvtimer_ev s)
    (if ses_state s =? PTM_BFD_UP then [PTM_BFD_DOWN] else []).
Proof.
  unfold ptm_sbfd_echo_sess_dn. cbv zeta.
  set (s2 := if ses_state s =? PTM_BFD_UP then ptm_bfd_notify _ _ else _).
  assert (moved s s2 PTM_BFD_DOWN 0 d (recvtimer_ev s) (if ses_state s =? PTM_BFD_UP then [PTM_BFD_DOWN] else [])) as H2
    by (unfold s2; destruct (ses_state s =? PTM_BFD_UP); bfd_moved).
  eapply moved_silent; [exact H2|]. eapply silent_trans; [|bfd_silent].
  unfold ptm_sbfd_echo_reset. cbv zeta. eapply silent_trans; [|apply sbfd_echo_xmt_TO_silent]. bfd_silent.
Qed.

(** ** The state machine *)

Definition is_state (st : Z) : Prop := 0 <= st <= 3.

(** The state switch of RFC 5880, section 6.8.6, for the state [received] in a
    packet. *)
Definition rfc_next (local received : Z) : Z :=
  if local =? PTM_BFD_ADM_DOWN then local
  else if received =? PTM_BFD_ADM_DOWN then PTM_BFD_DOWN
  else if local =? PTM_BFD_DOWN then
    if received =? PTM_BFD_DOWN then PTM_BFD_INIT
    else if received =? PTM_BFD_INIT then PTM_BFD_UP else local
  else if local =? PTM_BFD_INIT then
    if (received =? PTM_BFD_INIT) || (received =? PTM_BFD_UP) then PTM_BFD_UP else local
  else if received =? PTM_BFD_DOWN then PTM_BFD_DOWN else local.

Definition goes_down (old new : Z) : bool := (new =? PTM_BFD_DOWN) && negb (old =? PTM_BFD_DOWN).
Definition goes_up (old new : Z) : bool := (new =? PTM_BFD_UP) && negb (old =? PTM_BFD_UP).

(** What the clients are told of a change from [old] to [new]. *)
Definition reported (old new : Z) : list Z :=
  if goes_up old new then [PTM_BFD_UP]
  else if goes_down old new && (old =? PTM_BFD_UP) then [PTM_BFD_DOWN] else [].

Lemma state_cases st : is_state st ->
  st = PTM_BFD_ADM_DOWN \/ st = PTM_BFD_DOWN \/ st = PTM_BFD_INIT \/ st = PTM_BFD_UP.
Proof. unfold is_state, PTM_BFD_ADM_DOWN, PTM_BFD_DOWN, PTM_BFD_INIT, PTM_BFD_UP. lia. Qed.

Section Machine.
Context (weak_random : nat -> Z).

Lemma state_handler_moved s n :
  is_state (ses_state s) -> is_state n ->
  let new := rfc_next (ses_state s) n in
  moved s (bs_state_handler weak_random s n) new
    (if goes_down (ses_state s) new then 0 else remote_discr s)
    (if goes_up (ses_state s) new then 0
     else if goes_down (ses_state s) new then BD_NEIGHBOR_DOWN else local_diag s)
    (if goes_down (ses_state s) new && PASSIVE (flags s) then None else recvtimer_ev s)
    (reported (ses_state s) new).
Proof.
  intros Hs Hn. cbv zeta. pose proof (sess_up_moved s) as Hup. pose proof (sess_dn_moved s BD_NEIGHBOR_DOWN) as Hdn.
  assert (silent s s) as Hid by apply silent_refl. apply silent_moved in Hid.
  assert (moved s (bs_down_handler weak_random s PTM_BFD_DOWN) PTM_BFD_INIT (remote_discr s) (local_diag s) (recvtimer_ev s) [])
    as Hinit.
  { unfold bs_down_handler. simpl.
    assert (moved s (set_ses_state PTM_BFD_INIT s) PTM_BFD_INIT (remote_discr s) (local_diag s) (recvtimer_ev s) [])
      as H1 by bfd_moved.
    destruct (PASSIVE (flags s)); [|done]. eapply moved_silent; [exact H1|apply xmt_TO_silent]. }
  unfold bs_state_handler, rfc_next.
  destruct (state_cases _ Hs) as [Es|[Es|[Es|Es]]], (state_cases _ Hn) as [En|[En|[En|En]]];
    rewrite Es, En in *; simpl; try exact Hid; try exact Hup; try exact Hinit; try exact Hdn.
Qed.

(** C31: the switch of the state machine is that of RFC 5880, section 6.8.6.  A
    packet with state [n] moves the session to [rfc_next]; a session that comes
    up has its diagnostic cleared, one that goes down records that the neighbor
    signalled it; and the clients are told exactly that a session came up, or
    went down after it was up. *)
Theorem bs_state_handler_rfc s n :
  is_state (ses_state s) -> is_state n ->
  let s' := bs_state_handler weak_random s n in
  let new := rfc_next (ses_state s) n in
  ses_state s' = new
  /\ local_diag s' = (if goes_up (ses_state s) new then 0
                      else if goes_down (ses_state s) new then BD_NEIGHBOR_DOWN else local_diag s)
  /\ notes (out s') = notes (out s) ++ reported (ses_state s) new.
Proof.
  intros Hs Hn. destruct (state_handler_moved s n Hs Hn) as (H1 & H2 & H3 & _).
  split_and!; [|exact H2|exact H3]. unfold view in H1. congruence.
Qed.
End Machine.

(** ** No timer runs in a deactivated session *)

Definition quiet (s : bfd_session) : Prop :=
  deactivated s = true ->
  recvtimer_ev s = None /\ echo_recvtimer_ev s = None /\ xmttimer_ev s = None
  /\ echo_xmttimer_ev s = None.

Ltac bfd_quiet :=
  unfold quiet, deactivated in *; simpl in *; bfd_cases; simpl in *; intuition congruence.

Lemma quiet_snd s b : quiet s -> quiet (ptm_bfd_snd s b).
Proof. unfold ptm_bfd_snd. intros H. bfd_cases; exact H. Qed.

Lemma quiet_echo_stop s : quiet s -> quiet (ptm_bfd_echo_stop s).
Proof. unfold ptm_bfd_echo_stop, bfd_echo_recvtimer_delete, bfd_echo_xmttimer_delete. intros H. bfd_quiet. Qed.

Lemma quiet_slow s : quiet s -> quiet (bs_set_slow_timers s).
Proof. unfold bs_set_slow_timers. cbv zeta. intros H. bfd_cases; exact H. Qed.

Lemma quiet_recvtimer s : quiet s -> quiet (bfd_recvtimer_update s).
Proof. unfold bfd_recvtimer_update, bfd_recvtimer_delete. intros H. bfd_quiet. Qed.

Lemma quiet_xmttimer s j : quiet s -> quiet (bfd_xmttimer_update s j).
Proof. unfold bfd_xmttimer_update, bfd_xmttimer_delete. intros H. bfd_quiet. Qed.

Lemma quiet_echo_xmttimer s j : quiet s -> quiet (bfd_echo_xmttimer_update s j).
Proof. unfold bfd_echo_xmttimer_update, bfd_echo_xmttimer_delete. intros H. bfd_quiet. Qed.

Lemma quiet_echo_recvtimer s : quiet s -> quiet (bfd_echo_recvtimer_update s).
Proof. unfold bfd_echo_recvtimer_update, bfd_echo_recvtimer_delete. intros H. bfd_quiet. Qed.

Section Quiet.
Context (weak_random : nat -> Z).

Lemma quiet_start_xmt s b : quiet s -> quiet (ptm_bfd_start_xmt_timer weak_random s b).
Proof.
  intros H. destruct (start_xmt_modes weak_random s b) as [j ->]. destruct b.
  - apply quiet_echo_xmttimer. exact H.
  - apply quiet_xmttimer. exact H.
Qed.

Lemma quiet_xmt_TO s b : quiet s -> quiet (ptm_bfd_xmt_TO weak_random s b).
Proof. intros H. by apply quiet_start_xmt, quiet_snd. Qed.

Lemma quiet_echo_xmt_TO s : quiet s -> quiet (ptm_bfd_echo_xmt_TO weak_random s).
Proof.
  intros H. unfold ptm_bfd_echo_xmt_TO. cbv zeta. apply quiet_start_xmt.
  unfold ptm_bfd_echo_fp_snd, ptm_bfd_echo_snd. cbv zeta. bfd_cases; exact H.
Qed.

Lemma quiet_echo_handler s : quiet s -> quiet (bs_echo_timer_handler weak_random s).
Proof.
  intros H. unfold bs_echo_timer_handler, ptm_bfd_echo_start. cbv zeta.
  destruct (_ || _ || _); [done|]. destruct (_ =? 0).
  { destruct (ECHO_ACTIVE _); [by apply quiet_echo_stop|done]. }
  match goal with |- context [if ?b then set_echo_xmt_TO ?x s else ?y] => set (s1 := if b then set_echo_xmt_TO x s else y) end.
  assert (quiet s1) as H1 by (unfold s1; bfd_cases; exact H).
  destruct (_ || _); [|done]. destruct (0 <? _); [|exact H1].
  apply quiet_echo_xmt_TO, quiet_echo_recvtimer. exact H1.
Qed.

Lemma quiet_final s : quiet s -> quiet (bs_final_handler weak_random s).
Proof.
  intros H. unfold bs_final_handler. cbv zeta. destruct (negb _); [exact H|].
  match goal with |- context [if (_ <? _) then set_xmt_TO ?x ?t else ?y] =>
    set (s1 := if _ <? _ then set_xmt_TO x t else y) end.
  assert (quiet s1) as H1 by (unfold s1; bfd_cases; exact H).
  destruct (_ && _); [exact H1|]. by apply quiet_start_xmt.
Qed.

Lemma quiet_sess_up s : quiet s -> quiet (ptm_bfd_sess_up s).
Proof.
  intros H. unfold ptm_bfd_sess_up. cbv zeta. set (s1 := bfd_set_polling _).
  assert (quiet (ptm_bfd_snd s1 false)) as H1 by (apply quiet_snd; exact H). bfd_cases; exact H1.
Qed.

Lemma quiet_sess_dn s d : quiet s -> quiet (ptm_bfd_sess_dn s d).
Proof.
  intros H. unfold ptm_bfd_sess_dn. cbv zeta. set (s1 := set_demand_mode 0 _).
  set (s2 := bs_set_slow_timers _).
  assert (quiet s2) as H2 by (apply quiet_slow; destruct (sock s1); [apply quiet_snd|]; exact H).
  set (s3 := if ses_state s =? PTM_BFD_UP then ptm_bfd_notify s2 PTM_BFD_DOWN else s2).
  assert (quiet s3) as H3 by (unfold s3; bfd_cases; exact H2).
  set (s4 := if ECHO_ACTIVE (flags s3) then ptm_bfd_echo_stop s3 else s3).
  assert (quiet s4) as H4 by (unfold s4; destruct (ECHO_ACTIVE _); [by apply quiet_echo_stop|done]).
  set (s5 := if PASSIVE (flags s4) then bfd_xmttimer_delete (bfd_recvtimer_delete s4) else s4).
  assert (quiet s5) as H5 by (unfold s5; bfd_quiet).
  bfd_cases; exact H5.
Qed.

Lemma quiet_init_xmt_TO s b : quiet s -> quiet (ptm_sbfd_init_xmt_TO weak_random s b).
Proof. intros H. apply quiet_start_xmt. unfold ptm_sbfd_initiator_snd. bfd_cases; exact H. Qed.

Lemma quiet_sbfd_echo_xmt_TO s : quiet s -> quiet (ptm_sbfd_echo_xmt_TO weak_random s).
Proof. intros H. apply quiet_start_xmt. unfold ptm_sbfd_echo_snd. bfd_cases; exact H. Qed.

Lemma quiet_sbfd_init_sess_dn s d : quiet s -> quiet (ptm_sbfd_init_sess_dn weak_random s d).
Proof.
  intros H. unfold ptm_sbfd_init_sess_dn. cbv zeta. set (s1 := set_demand_mode 0 _).
  set (s2 := bs_set_slow_timers _).
  assert (quiet s2) as H2 by (apply quiet_slow; destruct (sock s1); [apply quiet_init_xmt_TO|]; exact H).
  set (s3 := if ses_state s =? PTM_BFD_UP then ptm_bfd_notify s2 PTM_BFD_DOWN else s2).
  assert (quiet s3) as H3 by (unfold s3; bfd_cases; exact H2).
  set (s5 := if PASSIVE (flags s3) then sbfd_init_xmttimer_delete (sbfd_init_recvtimer_delete s3) else s3).
  assert (quiet s5) as H5 by (unfold s5, sbfd_init_xmttimer_delete, sbfd_init_recvtimer_delete; bfd_quiet).
  bfd_cases; exact H5.
Qed.

Lemma quiet_sbfd_echo_sess_dn s d : quiet s -> quiet (ptm_sbfd_echo_sess_dn weak_random s d).
Proof.
  intros H. unfold ptm_sbfd_echo_sess_dn. cbv zeta.
  set (s2 := if ses_state s =? PTM_BFD_UP then ptm_bfd_notify _ _ else _).
  assert (quiet s2) as H2 by (unfold s2; bfd_cases; exact H).
  assert (quiet (ptm_sbfd_echo_reset weak_random s2)) as H3 by (apply quiet_sbfd_echo_xmt_TO; exact H2).
  bfd_cases; exact H3.
Qed.

Lemma quiet_state_handler s n : quiet s -> quiet (bs_state_handler weak_random s n).
Proof.
  intros H. unfold bs_state_handler, bs_down_handler, bs_init_handler, bs_up_handler. cbv zeta.
  bfd_cases; try exact H; try (by apply quiet_sess_up); try (by apply quiet_sess_dn).
  apply quiet_xmt_TO. exact H.
Qed.
End Quiet.

(** ** The invariant of a session *)

Definition active (st : Z) : Prop := st = PTM_BFD_INIT \/ st = PTM_BFD_UP.

Record inv (s : bfd_session) : Prop := {
  iv_state : is_state (ses_state s);
  iv_admin : SHUTDOWN (flags s) = true <-> ses_state s = PTM_BFD_ADM_DOWN;
  iv_bdc : bdc s = false;
  iv_discr : active (ses_state s) -> remote_discr s <> 0;
  iv_guard : active (ses_state s) -> sock s = true -> recvtimer_ev s <> None;
  iv_quiet : quiet s
}.

(** The invariant but for [quiet] is a matter of the view. *)
Lemma inv_view s s' : inv s -> view s' = view s -> quiet s' -> inv s'.
Proof.
  intros [H1 H2 H3 H4 H5 H6] E Hq. destruct (view_eq _ _ _ _ _ _ _ E) as (E1 & E2 & E3 & E4 & E5 & E6).
  split; rewrite ?E1, ?E2, ?E3, ?E4, ?E5, ?E6; done.
Qed.

Lemma inv_silent s s' : inv s -> silent s s' -> quiet s' -> inv s'.
Proof. intros H (E & _). by apply (inv_view s). Qed.

(** A session that is not administratively down goes down. *)
Lemma inv_down s s' d rt l :
  inv s -> ses_state s <> PTM_BFD_ADM_DOWN -> moved s s' PTM_BFD_DOWN 0 d rt l -> quiet s' -> inv s'.
Proof.
  intros [H1 H2 H3 H4 H5 H6] Hne (E & _) Hq. destruct (view_eq _ _ _ _ _ _ _ E) as (E1 & E2 & E3 & E4 & E5 & E6).
  split; rewrite ?E1, ?E2, ?E3, ?E4, ?E5, ?E6; try done.
  - split; [|done]. intros Hs. by apply H2 in Hs.
  - by intros [?|?].
  - by intros [?|?].
Qed.

Section Steps.
Context (weak_random : nat -> Z).

Lemma getstate_state f : is_state (BFD_GETSTATE f).
Proof.
  unfold BFD_GETSTATE, is_state. change 3 with (Z.ones 2) at 1 2. rewrite Z.land_ones by lia.
  pose proof (Z.mod_pos_bound (Z.shiftr f 6) (2 ^ 2) ltac:(lia)). change (2 ^ 2) with 4 in *.
  change (Z.ones 2) with 3. lia.
Qed.

(** A packet that passed the checks: the state after it, and the timer. *)
Lemma process_packet_spec s cp :
  is_state (ses_state s) -> quiet s ->
  let new := rfc_next (ses_state s) (BFD_GETSTATE (pkt_flags cp)) in
  let s' := process_packet weak_random s cp in
  quiet s' /\ exists t, moved s s' new
    (if goes_down (ses_state s) new then 0 else remote_discr s)
    (if goes_up (ses_state s) new then 0
     else if goes_down (ses_state s) new then BD_NEIGHBOR_DOWN else local_diag s)
    (if deactivated s then None else Some t) (reported (ses_state s) new).
Proof.
  intros Hs Hq. cbv zeta. pose proof (state_handler_moved weak_random s _ Hs (getstate_state (pkt_flags cp))) as M1.
  cbv zeta in M1. pose proof (quiet_state_handler weak_random s (BFD_GETSTATE (pkt_flags cp)) Hq) as Q1.
  unfold process_packet. cbv zeta. set (s1 := bs_state_handler _ _ _) in *.
  set (s2 := if negb (polling s1 =? 0) && _ then _ else s1).
  assert (silent s1 s2 /\ quiet s2) as [L2 Q2].
  { unfold s2. destruct (negb (polling s1 =? 0) && BFD_GETFBIT (pkt_flags cp)); [|split; [apply silent_refl|done]]. split.
    - eapply silent_trans; [|apply final_silent]. bfd_silent.
    - apply quiet_final. exact Q1. }
  set (s3 := if desired_min_tx _ <? _ then _ else _).
  assert (silent s2 s3 /\ quiet s3) as [L3 Q3].
  { unfold s3. split; [bfd_silent|bfd_cases; exact Q2]. }
  pose proof (moved_silent _ _ _ _ _ _ _ _ (moved_silent _ _ _ _ _ _ _ _ M1 L2) L3)
    as (A1 & A2 & A3 & A4 & A5 & A6 & A7 & A8).
  pose proof (quiet_recvtimer s3 Q3) as Q4. set (s4 := bfd_recvtimer_update s3) in *.
  set (new := rfc_next (ses_state s) (BFD_GETSTATE (pkt_flags cp))) in *.
  assert (exists t, moved s s4 new (if goes_down (ses_state s) new then 0 else remote_discr s)
    (if goes_up (ses_state s) new then 0
     else if goes_down (ses_state s) new then BD_NEIGHBOR_DOWN else local_diag s)
    (if deactivated s then None else Some t) (reported (ses_state s) new)) as (t & M4).
  { exists (detect_TO s3).
    destruct (view_eq _ _ _ _ _ _ _ A1) as (E1 & E2 & E3 & E4 & E5 & E6).
    unfold s4, bfd_recvtimer_update, bfd_recvtimer_delete, deactivated, moved, view. simpl. rewrite E3, E5.
    destruct (SHUTDOWN (flags s) || negb (sock s)); simpl; repeat split; congruence. }
  pose proof (quiet_echo_handler weak_random s4 Q4) as Q5.
  pose proof (moved_silent _ _ _ _ _ _ _ _ M4 (echo_handler_silent weak_random s4)) as M5.
  destruct (BFD_GETPBIT _); [|split; [done|]; by exists t].
  split; [by apply quiet_snd, quiet_final|]. exists t.
  eapply moved_silent; [|apply snd_silent]. eapply moved_silent; [exact M5|apply final_silent].
Qed.

Lemma rfc_state a b : is_state a -> is_state b ->
  is_state (rfc_next a b) /\ (rfc_next a b = PTM_BFD_ADM_DOWN <-> a = PTM_BFD_ADM_DOWN).
Proof.
  intros Ha Hb. destruct (state_cases a Ha) as [->|[->|[->| ->]]], (state_cases b Hb) as [->|[->|[->| ->]]];
    vm_compute; repeat split; done.
Qed.

(** The packet of a reflector brings the session of an initiator up, or leaves it. *)
Lemma process_reflected_spec s cp :
  quiet s ->
  let new := if ses_state s =? PTM_BFD_DOWN then PTM_BFD_UP else ses_state s in
  let s' := process_reflected weak_random s cp in
  quiet s' /\ moved s s' new (remote_discr s)
    (if ses_state s =? PTM_BFD_DOWN then 0 else local_diag s)
    (if deactivated s then None else Some (u64 (detect_mult s * cfg_desired_min_tx (timers s))))
    (if ses_state s =? PTM_BFD_DOWN then [PTM_BFD_UP] else []).
Proof.
  intros Hq. cbv zeta. unfold process_reflected. cbv zeta. set (s1 := sbfd_initiator_state_handler _ _ _).
  assert (moved s s1 (if ses_state s =? PTM_BFD_DOWN then PTM_BFD_UP else ses_state s) (remote_discr s)
    (if ses_state s =? PTM_BFD_DOWN then 0 else local_diag s) (recvtimer_ev s) (if ses_state s =? PTM_BFD_DOWN then [PTM_BFD_UP] else [])
    /\ quiet s1 /\ timers s1 = timers s) as (M1 & Q1 & T1).
  { unfold s1, sbfd_initiator_state_handler, sbfd_down_handler, sbfd_up_handler.
    destruct (ses_state s =? PTM_BFD_DOWN).
    - split; [apply sbfd_sess_up_moved|]. change (PTM_BFD_UP =? PTM_BFD_UP) with true. cbv iota.
      unfold ptm_sbfd_sess_up. cbv zeta. destruct (negb _); (split; [exact Hq|done]).
    - change (_ || _) with false. cbv iota. destruct (ses_state s =? PTM_BFD_UP);
        (split; [apply silent_moved, silent_refl|by split]). }
  clearbody s1. set (want := cfg_desired_min_tx (timers s1)).
  set (s2 := if negb (xmt_TO s1 =? want) then _ else s1).
  assert (silent s1 s2 /\ quiet s2 /\ xmt_TO s2 = want) as (L2 & Q2 & X2).
  { unfold s2. destruct (Z.eqb_spec (xmt_TO s1) want) as [E|E]; cbn [negb].
    - split; [apply silent_refl|by split].
    - split; [eapply silent_trans; [|apply start_xmt_silent]; bfd_silent|]. split; [by apply quiet_start_xmt|].
      destruct (start_xmt_modes weak_random (set_xmt_TO want s1) false) as [j ->].
      unfold bfd_xmttimer_update, bfd_xmttimer_delete. cbv zeta. by destruct (deactivated _). }
  clearbody s2. pose proof (moved_silent _ _ _ _ _ _ _ _ M1 L2) as (A1 & A2 & A3 & A4 & A5 & A6 & A7 & A8).
  destruct (view_eq _ _ _ _ _ _ _ A1) as (E1 & E2 & E3 & E4 & E5 & E6).
  set (s3 := set_detect_TO _ s2). pose proof (quiet_recvtimer s3 Q2) as Q4.
  change (bfd_recvtimer_update s3) with (sbfd_init_recvtimer_update s3) in Q4. set (s4 := sbfd_init_recvtimer_update s3) in *.
  assert (moved s s4 (if ses_state s =? PTM_BFD_DOWN then PTM_BFD_UP else ses_state s) (remote_discr s)
    (if ses_state s =? PTM_BFD_DOWN then 0 else local_diag s)
    (if deactivated s then None else Some (u64 (detect_mult s * cfg_desired_min_tx (timers s))))
    (if ses_state s =? PTM_BFD_DOWN then [PTM_BFD_UP] else [])) as M4.
  { unfold s4, sbfd_init_recvtimer_update, sbfd_init_recvtimer_delete, deactivated, moved, view. simpl. rewrite E3, E5.
    destruct (SHUTDOWN (flags s) || negb (sock s)); simpl; repeat split; try congruence.
    rewrite E1, E2, E3, E4, E5, A6, X2. unfold want. by rewrite T1. }
  clearbody s4. destruct (negb (polling s4 =? 0) && BFD_GETFBIT (pkt_flags cp)); [|done]. split; [exact Q4|]. exact M4.
Qed.

(** The session after a packet, in terms of its view. *)
Lemma inv_taken s s2 s' rd new d t l :
  inv s -> view s2 = (ses_state s, rd, SHUTDOWN (flags s), bdc s, sock s, recvtimer_ev s) ->
  quiet s' -> moved s2 s' new (if goes_down (ses_state s) new then 0 else rd) d (if deactivated s2 then None else Some t) l ->
  rd <> 0 -> is_state new -> (new = PTM_BFD_ADM_DOWN <-> ses_state s = PTM_BFD_ADM_DOWN) -> inv s'.
Proof.
  intros [H1 H2 H3 H4 H5 H6] V2 Q3 (M & _) Hd R1 R2. destruct (view_eq _ _ _ _ _ _ _ V2) as (E1 & E2 & E3 & E4 & E5 & E6).
  destruct (view_eq _ _ _ _ _ _ _ M) as (F1 & F2 & F3 & F4 & F5 & F6).
  rewrite E3 in F3. rewrite E4 in F4. rewrite E5 in F5. unfold deactivated in F6. rewrite E3, E5 in F6.
  split; rewrite ?F1, ?F2, ?F3, ?F4, ?F5, ?F6; try done.
  - rewrite R2. done.
  - intros [Ha|Ha]; rewrite Ha; done.
  - intros Ha ->. destruct (SHUTDOWN (flags s)) eqn:Es; [|done]. exfalso.
    assert (ses_state s = PTM_BFD_ADM_DOWN) as Ead by (by apply H2). apply R2 in Ead.
    rewrite Ead in Ha. by destruct Ha.
Qed.

Lemma inv_recv s wv mh mac ttl mlen cp :
  inv s -> inv (bfd_recv_cb weak_random s wv mh mac ttl mlen cp).
Proof.
  intros H. unfold bfd_recv_cb. destruct (malformed mh ttl mlen cp) eqn:Em; [done|].
  destruct (refused s wv mh ttl cp); [done|]. cbv zeta.
  assert (pkt_my_discr cp <> 0) as Hd by (unfold malformed in Em; rewrite !orb_false_iff in Em; lia).
  set (s1 := set_remote_discr _ _).
  assert (view s1 = (ses_state s, pkt_my_discr cp, SHUTDOWN (flags s), bdc s, sock s, recvtimer_ev s)) as V1
    by (unfold s1; destruct (negb mh && mac); done).
  assert (quiet s1) as Q1 by (pose proof (iv_quiet s H) as Q; unfold s1; destruct (negb mh && mac); exact Q).
  destruct H as [H1 H2 H3 H4 H5 H6]. destruct (negb (bfd_check_auth cp)).
  - destruct (view_eq _ _ _ _ _ _ _ V1) as (E1 & E2 & E3 & E4 & E5 & E6). split; rewrite ?E1, ?E2, ?E3, ?E4, ?E5, ?E6; done.
  - set (s2 := learn s1 cp). assert (view s2 = view s1) as V2 by done.
    assert (quiet s2) as Q2 by exact Q1. rewrite V1 in V2. destruct (view_eq _ _ _ _ _ _ _ V2) as (E1 & E2 & _).
    destruct (bfd_mode s2 =? BFD_MODE_TYPE_SBFD_INIT).
    + destruct (process_reflected_spec s2 cp Q2) as (Q3 & M). rewrite E1, E2 in M.
      eapply (inv_taken s s2); [by split|exact V2|exact Q3| |exact Hd|..].
      * replace (if goes_down _ _ then 0 else pkt_my_discr cp) with (pkt_my_discr cp); [exact M|].
        destruct (state_cases _ H1) as [->|[->|[->| ->]]]; done.
      * destruct (state_cases _ H1) as [->|[->|[->| ->]]]; by split.
      * destruct (state_cases _ H1) as [->|[->|[->| ->]]]; done.
    + destruct (process_packet_spec s2 cp) as (Q3 & t & M); [by rewrite E1|done|]. rewrite E1, E2 in M.
      destruct (rfc_state (ses_state s) (BFD_GETSTATE (pkt_flags cp)) H1 (getstate_state _)) as [R1 R2].
      by eapply (inv_taken s s2); [by split|exact V2|exact Q3|exact M|..].
Qed.

(** What can happen to a session.  A timer may have either of its two callbacks,
    whatever the mode of the session is; the packets that make an S-BFD echo session
    come up without a peer are left out. *)
Inductive bfd_step : bfd_session -> bfd_session -> Prop :=
| step_packet s wrong_vrf is_mhop mac_known ttl mlen cp :
    bfd_step s (bfd_recv_cb weak_random s wrong_vrf is_mhop mac_known ttl mlen cp)
| step_recvtimer s t : recvtimer_ev s = Some t -> bfd_step s (bfd_recvtimer_cb s)
| step_echo_recvtimer s t : echo_recvtimer_ev s = Some t -> bfd_step s (bfd_echo_recvtimer_cb s)
| step_xmttimer s t : xmttimer_ev s = Some t -> bfd_step s (bfd_xmt_cb weak_random s)
| step_echo_xmttimer s t : echo_xmttimer_ev s = Some t -> bfd_step s (bfd_echo_xmt_cb weak_random s)
| step_sbfd_recvtimer s t : recvtimer_ev s = Some t -> bfd_step s (sbfd_init_recvtimer_cb weak_random s)
| step_sbfd_echo_recvtimer s t : echo_recvtimer_ev s = Some t -> bfd_step s (sbfd_echo_recvtimer_cb weak_random s)
| step_sbfd_xmttimer s t : xmttimer_ev s = Some t -> bfd_step s (sbfd_init_xmt_cb weak_random s)
| step_sbfd_echo_xmttimer s t : echo_xmttimer_ev s = Some t -> bfd_step s (sbfd_echo_xmt_cb weak_random s)
| step_echo_packet s : bfd_mode s <> BFD_MODE_TYPE_SBFD_ECHO -> bfd_step s (ptm_bfd_process_echo_pkt weak_random s)
| step_echo s b : bfd_step s (bfd_set_echo weak_random s b)
| step_shutdown s b : bfd_step s (bfd_set_shutdown s b)
| step_passive s b : bfd_step s (bfd_set_passive_mode s b)
| step_timers s t : bfd_step s (bfd_set_polling (set_timers t s)).

Lemma inv_expired s s1 d :
  inv s -> ses_state s1 = ses_state s -> SHUTDOWN (flags s1) = SHUTDOWN (flags s) -> bdc s1 = bdc s ->
  quiet s1 -> active (ses_state s) -> inv (ptm_bfd_sess_dn s1 d).
Proof.
  intros H E1 E2 E3 Q Ha. destruct (sess_dn_moved s1 d) as (M & _).
  destruct (view_eq _ _ _ _ _ _ _ M) as (F1 & F2 & F3 & F4 & F5 & F6).
  destruct H as [H1 H2 H3 H4 H5 H6]. split; rewrite ?F1, ?F2, ?F3, ?F4, ?F5, ?F6; try done.
  - rewrite E2. split; [|done]. intros Hs. apply H2 in Hs. rewrite Hs in Ha. by destruct Ha.
  - congruence.
  - by intros [?|?].
  - by intros [?|?].
  - by apply quiet_sess_dn.
Qed.

Lemma active_eqb st : ((st =? PTM_BFD_INIT) || (st =? PTM_BFD_UP)) = true <-> active st.
Proof. unfold active. rewrite orb_true_iff, !Z.eqb_eq. done. Qed.

(** Timer expiry. *)
Lemma inv_recvtimer s : inv s -> inv (bfd_recvtimer_cb s).
Proof.
  intros H. unfold bfd_recvtimer_cb. cbv zeta. destruct (_ || _) eqn:Ea.
  - apply active_eqb in Ea. apply (inv_expired s); try done. pose proof (iv_quiet s H). bfd_quiet.
  - destruct H as [H1 H2 H3 H4 H5 H6]. split; try done.
    + intros Ha. apply active_eqb in Ha. simpl in *. congruence.
    + bfd_quiet.
Qed.

Lemma inv_echo_recvtimer s : inv s -> inv (bfd_echo_recvtimer_cb s).
Proof.
  intros H. assert (quiet (set_echo_recvtimer_ev None s)) as Q by (pose proof (iv_quiet s H); bfd_quiet).
  unfold bfd_echo_recvtimer_cb. cbv zeta. destruct (_ || _) eqn:Ea.
  - apply active_eqb in Ea. by apply (inv_expired s).
  - by apply (inv_view s).
Qed.

Lemma inv_xmt s : inv s -> inv (bfd_xmt_cb weak_random s).
Proof.
  intros H. assert (quiet (set_xmttimer_ev None s)) as Q by (pose proof (iv_quiet s H); bfd_quiet).
  apply (inv_silent s); [done| |by apply quiet_xmt_TO].
  eapply silent_trans; [|apply xmt_TO_silent]. bfd_silent.
Qed.

Lemma inv_echo_xmt s : inv s -> inv (bfd_echo_xmt_cb weak_random s).
Proof.
  intros H. assert (quiet (set_echo_xmttimer_ev None s)) as Q by (pose proof (iv_quiet s H); bfd_quiet).
  unfold bfd_echo_xmt_cb. cbv zeta. destruct (0 <? _); [|by apply (inv_view s)].
  apply (inv_silent s); [done| |by apply quiet_echo_xmt_TO].
  eapply silent_trans; [|apply echo_xmt_TO_silent]. bfd_silent.
Qed.

(** The same for S-BFD. *)
Lemma inv_sbfd_recvtimer s : inv s -> inv (sbfd_init_recvtimer_cb weak_random s).
Proof.
  intros H. unfold sbfd_init_recvtimer_cb. cbv zeta. destruct (_ || _) eqn:Ea.
  - apply active_eqb in Ea. set (s1 := set_recvtimer_ev None s). destruct (sbfd_init_sess_dn_moved weak_random s1 BD_PATH_DOWN) as (M & _).
    assert (quiet s1) as Q by (pose proof (iv_quiet s H); unfold s1; bfd_quiet).
    destruct (view_eq _ _ _ _ _ _ _ M) as (F1 & F2 & F3 & F4 & F5 & F6). destruct H as [H1 H2 H3 H4 H5 H6].
    split; rewrite ?F1, ?F2, ?F3, ?F4, ?F5, ?F6; try done; try (by intros [?|?]).
    + split; [|done]. intros Hs. apply H2 in Hs. simpl in Ea. rewrite Hs in Ea. by destruct Ea.
    + by apply quiet_sbfd_init_sess_dn.
  - destruct H as [H1 H2 H3 H4 H5 H6]. split; try done.
    + intros Ha. apply active_eqb in Ha. simpl in *. congruence.
    + bfd_quiet.
Qed.

Lemma inv_sbfd_echo_recvtimer s : inv s -> inv (sbfd_echo_recvtimer_cb weak_random s).
Proof.
  intros H. set (s1 := set_echo_recvtimer_ev None s).
  assert (quiet s1) as Q by (pose proof (iv_quiet s H); unfold s1; bfd_quiet).
  assert (inv s1) as I1 by (by apply (inv_view s)).
  unfold sbfd_echo_recvtimer_cb. cbv zeta. fold s1. destruct (_ || _) eqn:Ea; [|done]. apply active_eqb in Ea.
  eapply (inv_down s1); [done| |apply sbfd_echo_sess_dn_moved|by apply quiet_sbfd_echo_sess_dn].
  intros E. rewrite E in Ea. by destruct Ea.
Qed.

Lemma inv_sbfd_xmt s : inv s -> inv (sbfd_init_xmt_cb weak_random s).
Proof.
  intros H. assert (quiet (set_xmttimer_ev None s)) as Q by (pose proof (iv_quiet s H); bfd_quiet).
  apply (inv_silent s); [done| |by apply quiet_init_xmt_TO].
  eapply silent_trans; [|apply init_xmt_TO_silent]. bfd_silent.
Qed.

Lemma inv_sbfd_echo_xmt s : inv s -> inv (sbfd_echo_xmt_cb weak_random s).
Proof.
  intros H. assert (quiet (set_echo_xmttimer_ev None s)) as Q by (pose proof (iv_quiet s H); bfd_quiet).
  unfold sbfd_echo_xmt_cb. cbv zeta. destruct (0 <? _); [|by apply (inv_view s)].
  apply (inv_silent s); [done| |by apply quiet_sbfd_echo_xmt_TO].
  eapply silent_trans; [|apply sbfd_echo_xmt_TO_silent]. bfd_silent.
Qed.

Lemma inv_echo_packet s : bfd_mode s <> BFD_MODE_TYPE_SBFD_ECHO -> inv s -> inv (ptm_bfd_process_echo_pkt weak_random s).
Proof.
  intros Hm H. pose proof (iv_quiet s H) as Q. unfold ptm_bfd_process_echo_pkt. destruct (negb _); [done|]. cbv zeta.
  change (bfd_mode (set_echo_detect_TO _ s)) with (bfd_mode s). rewrite (proj2 (Z.eqb_neq _ _) Hm).
  destruct (0 <? _); [|by apply (inv_view s)].
  apply (inv_silent s); [done| |by apply quiet_echo_recvtimer]. eapply silent_trans; [|apply echo_recvtimer_silent]. bfd_silent.
Qed.

(** Configuration. *)
Lemma inv_echo s b : inv s -> inv (bfd_set_echo weak_random s b).
Proof.
  intros H. pose proof (iv_quiet s H) as Q. unfold bfd_set_echo. cbv zeta.
  destruct b, (ECHO (flags s)); try done; simpl; destruct (negb (bdc s)).
  - apply (inv_silent s); [done| |by apply quiet_echo_handler].
    eapply silent_trans; [|apply echo_handler_silent]. bfd_silent.
  - by apply (inv_view s).
  - apply (inv_silent s); [done| |by apply quiet_echo_stop].
    eapply silent_trans; [|apply echo_stop_silent]. bfd_silent.
  - by apply (inv_view s).
Qed.

Lemma inv_shutdown s b : inv s -> inv (bfd_set_shutdown s b).
Proof.
  intros H. pose proof H as [H1 H2 H3 H4 H5 H6]. unfold bfd_set_shutdown. cbv zeta.
  set (is_sh := if ses_state s =? PTM_BFD_UP then false else SHUTDOWN (flags s)). destruct b.
  - destruct is_sh; [done|]. simpl. rewrite H3. set (s1 := ptm_bfd_notify _ _).
    assert (inv s1) as I1 by (split; unfold quiet; simpl; try done; by intros [?|?]).
    destruct (sock _); [|done]. apply (inv_silent s1); [done|apply snd_silent|]. apply quiet_snd, I1.
  - destruct is_sh eqn:Eis; [|done]. simpl. rewrite H3.
    assert (SHUTDOWN (flags s) = true) as Hsh by (unfold is_sh in Eis; by destruct (_ =? _)).
    assert (quiet s) as Q by done. specialize (Q ltac:(unfold deactivated; by rewrite Hsh)).
    set (s1 := ptm_bfd_notify _ _). assert (quiet s1) as Q1 by (intros _; exact Q).
    assert (view s1 = (PTM_BFD_DOWN, remote_discr s, false, bdc s, sock s, recvtimer_ev s)) as V1 by done.
    assert (forall s2 rt, view s2 = (PTM_BFD_DOWN, remote_discr s, false, bdc s, sock s, rt) -> quiet s2 -> inv s2) as Go.
    { intros s2 rt V2 Q2. destruct (view_eq _ _ _ _ _ _ _ V2) as (E1 & E2 & E3 & E4 & E5 & E6).
      split; rewrite ?E1, ?E2, ?E3, ?E4, ?E5, ?E6; try done; by intros [?|?]. }
    destruct (PASSIVE _).
    + eapply Go; [done|]. intros _. simpl. by destruct Q as (_ & ? & _ & ?).
    + set (s2 := bfd_recvtimer_update s1). assert (quiet s2) as Q2 by (by apply quiet_recvtimer).
      assert (exists rt, view s2 = (PTM_BFD_DOWN, remote_discr s, false, bdc s, sock s, rt)) as [rt V2].
      { unfold s2, bfd_recvtimer_update, bfd_recvtimer_delete. cbv zeta.
        destruct (deactivated _); by eexists. }
      apply (Go _ rt); [|by apply quiet_xmttimer]. by destruct (xmttimer_silent s2 (xmt_TO s2)) as (-> & _).
Qed.

Lemma inv_passive s b : inv s -> inv (bfd_set_passive_mode s b).
Proof.
  intros H. pose proof H as [H1 H2 H3 H4 H5 H6]. unfold bfd_set_passive_mode. cbv zeta.
  destruct b; simpl; destruct (Z.eqb_spec (ses_state s) PTM_BFD_DOWN) as [E|E]; simpl;
    try (by apply (inv_view s)).
  - split; simpl; rewrite ?E; try done; try (by intros [?|?]).
    + by rewrite <- E.
    + bfd_quiet.
  - set (s1 := set_PASSIVE false s). assert (quiet s1) as Q1 by exact H6.
    assert (silent s1 (bfd_xmttimer_update s1 (xmt_TO s))) as (V1 & _) by apply xmttimer_silent.
    assert (quiet (bfd_xmttimer_update s1 (xmt_TO s))) as Q2 by (by apply quiet_xmttimer).
    set (s2 := bfd_xmttimer_update s1 (xmt_TO s)) in *.
    destruct (view_eq s2 _ _ _ _ _ _ V1) as (E1 & E2 & E3 & E4 & E5 & E6). simpl in *.
    unfold bfd_recvtimer_update, bfd_recvtimer_delete. cbv zeta.
    split; [..|apply (quiet_recvtimer s2 Q2)]; destruct (deactivated _); simpl;
      rewrite ?E1, ?E3, ?E4; try done; rewrite E; by intros [?|?].
Qed.

Lemma inv_step s s' : bfd_step s s' -> inv s -> inv s'.
Proof.
  intros Hst H. destruct Hst.
  - by apply inv_recv.
  - by apply inv_recvtimer.
  - by apply inv_echo_recvtimer.
  - by apply inv_xmt.
  - by apply inv_echo_xmt.
  - by apply inv_sbfd_recvtimer.
  - by apply inv_sbfd_echo_recvtimer.
  - by apply inv_sbfd_xmt.
  - by apply inv_sbfd_echo_xmt.
  - by apply inv_echo_packet.
  - by apply inv_echo.
  - by apply inv_shutdown.
  - by apply inv_passive.
  - apply (inv_view s); [done|done|]. exact (iv_quiet s H).
Qed.

Lemma new_silent mode discr so vrf :
  inv (bfd_session_new mode discr so vrf) /\ ses_state (bfd_session_new mode discr so vrf) = PTM_BFD_DOWN.
Proof.
  unfold bfd_session_new, bs_set_slow_timers. cbv zeta. simpl bfd_mode.
  destruct (mode =? BFD_MODE_TYPE_SBFD_ECHO); simpl; (split; [|done]);
    (split; simpl; [by split|done|done|by intros [?|?]|by intros [?|?]|done]).
Qed.

(** C32: whatever packets arrive, timers fire (those of S-BFD initiators and echo sessions
    included) and settings change, a session that is not offloaded keeps its
    invariant: it is in one of the four states; it is administratively down exactly
    when it is shut down, and then, as without a socket, no timer runs; and while it
    is in Init or Up it knows the peer's discriminator and its detection timer runs,
    so a silent peer takes it down. (The echo packets that bring S-BFD echo sessions
    up are left out.) *)
Theorem bfd_session_invariant mode discr so vrf s :
  rtc bfd_step (bfd_session_new mode discr so vrf) s ->
  is_state (ses_state s)
  /\ (SHUTDOWN (flags s) = true <-> ses_state s = PTM_BFD_ADM_DOWN)
  /\ (active (ses_state s) -> remote_discr s <> 0)
  /\ (active (ses_state s) -> sock s = true ->
      recvtimer_ev s <> None /\ ses_state (bfd_recvtimer_cb s) = PTM_BFD_DOWN)
  /\ quiet s.
Proof.
  intros Hr. assert (inv s) as [H1 H2 H3 H4 H5 H6].
  { destruct (new_silent mode discr so vrf) as [Hi _]. induction Hr as [|x y z Hxy _ IH]; [done|].
    apply IH. by apply (inv_step x). }
  split_and!; try done. intros Ha Hso. split; [auto|]. unfold bfd_recvtimer_cb. cbv zeta.
  replace (_ || _) with true by (symmetry; by apply active_eqb).
  destruct (sess_dn_moved (set_recvtimer_ev None s) BD_CONTROL_EXPIRED) as (M & _).
  by destruct (view_eq _ _ _ _ _ _ _ M) as (? & _).
Qed.
End Steps.
