(* ===== verification/BfdExchange.v ===== *)
(** * BFD sessions in exchange

    Two sessions that hear each other come up; the detection time of a session;
    and the consequences of two deviations from RFC 5880. *)

From S2P Require Import Prelude BfdState Bfd BfdFacts.

Section Exchange.
Context (weak_random : nat -> Z).

(** ** The handshake *)

(** A session that takes part: consistent, neither shut down nor passive, with a
    usable discriminator, multiplier and diagnostic, and not the initiator of an S-BFD
    session, which talks to a reflector. *)
Record peer_ok (s : bfd_session) : Prop := {
  po_mode : bfd_mode s <> BFD_MODE_TYPE_SBFD_INIT;
  po_inv : inv s;
  po_admin : ses_state s <> PTM_BFD_ADM_DOWN;
  po_passive : PASSIVE (flags s) = false;
  po_discr : my_discr s <> 0;
  po_mult : detect_mult s <> 0;
  po_diag : 0 <= local_diag s < 32
}.

(** Session [b] receives the packet that session [a] sends next. *)
Definition deliver (a b : bfd_session) : bfd_session :=
  bfd_recv_cb weak_random b false false false BFD_TTL_VAL BFD_PKT_LEN (control_packet a false).

Lemma packet_flags a : is_state (ses_state a) ->
  BFD_GETSTATE (pkt_flags (control_packet a false)) = ses_state a
  /\ BFD_GETMBIT (pkt_flags (control_packet a false)) = false
  /\ BFD_GETABIT (pkt_flags (control_packet a false)) = false.
Proof.
  intros Hs. unfold control_packet. cbv zeta. cbn [pkt_flags].
  destruct (state_cases _ Hs) as [E|[E|[E|E]]]; rewrite E; destruct (CBIT _), (negb (polling a =? 0));
    vm_compute; by repeat split.
Qed.

Lemma packet_version d : 0 <= d < 32 -> BFD_GETVER (Z.lor d 32) = 1.
Proof.
  intros H. unfold BFD_GETVER. rewrite Z.shiftr_lor. change (Z.shiftr 32 5) with 1.
  rewrite Z.shiftr_div_pow2 by lia. rewrite Z.div_small by (change (2 ^ 5) with 32; lia). done.
Qed.

Lemma packet_formed a : peer_ok a -> malformed false BFD_TTL_VAL BFD_PKT_LEN (control_packet a false) = false.
Proof.
  intros [_ Hi Ha Hp Hd Hm Hg]. destruct (packet_flags a (iv_state a Hi)) as (_ & Hmb & _).
  unfold malformed. rewrite Hmb. unfold control_packet. cbn [diag pkt_detect_mult len pkt_my_discr].
  change (Z.shiftl (Z.land BFD_VERSION 7) 5) with 32. rewrite packet_version by done.
  destruct (Z.eqb_spec (detect_mult a) 0); [done|]. destruct (Z.eqb_spec (my_discr a) 0); [done|]. done.
Qed.

(** What the state machine sees of a session: its state, and whether it knows the
    peer's discriminator. *)
Definition abs (s : bfd_session) : Z * bool := (ses_state s, negb (remote_discr s =? 0)).

Definition abs_active (st : Z) : bool := (st =? PTM_BFD_INIT) || (st =? PTM_BFD_UP).

Definition abs_deliver (a b : Z * bool) : Z * bool :=
  if negb (snd a) && abs_active (fst b) then b
  else let new := rfc_next (fst b) (fst a) in (new, negb (goes_down (fst b) new)).

Lemma rfc_not_admin x y : is_state x -> is_state y -> x <> PTM_BFD_ADM_DOWN -> rfc_next x y <> PTM_BFD_ADM_DOWN.
Proof. intros Hx Hy Hne E. by apply (rfc_state x y Hx Hy) in E. Qed.

(** A packet the session takes. *)
Lemma recv_accepted s ttl mlen cp :
  malformed false ttl mlen cp = false -> refused s false false ttl cp = false ->
  bfd_check_auth cp = true -> inv s -> bfd_mode s <> BFD_MODE_TYPE_SBFD_INIT ->
  let s' := bfd_recv_cb weak_random s false false false ttl mlen cp in
  let new := rfc_next (ses_state s) (BFD_GETSTATE (pkt_flags cp)) in
  ses_state s' = new
  /\ remote_discr s' = (if goes_down (ses_state s) new then 0 else pkt_my_discr cp)
  /\ local_diag s' = (if goes_up (ses_state s) new then 0
                      else if goes_down (ses_state s) new then BD_NEIGHBOR_DOWN else local_diag s)
  /\ PASSIVE (flags s') = PASSIVE (flags s) /\ my_discr s' = my_discr s
  /\ detect_mult s' = detect_mult s /\ bfd_mode s' = bfd_mode s.
Proof.
  intros Hm Hr Ha Hi Hmode. cbv zeta. unfold bfd_recv_cb. rewrite Hm, Hr, Ha. cbv zeta. cbn [negb andb].
  set (s2 := learn _ _). assert (bfd_mode s2 = bfd_mode s) as E5 by done. rewrite E5, (proj2 (Z.eqb_neq _ _) Hmode).
  assert (view s2 = (ses_state s, pkt_my_discr cp, SHUTDOWN (flags s), bdc s, sock s, recvtimer_ev s)) as V2 by done.
  assert (local_diag s2 = local_diag s /\ PASSIVE (flags s2) = PASSIVE (flags s) /\ my_discr s2 = my_discr s
          /\ detect_mult s2 = detect_mult s) as (E1 & E2 & E3 & E4) by done.
  assert (quiet s2) as Q2 by exact (iv_quiet s Hi). clearbody s2.
  destruct (view_eq _ _ _ _ _ _ _ V2) as (F1 & F2 & _).
  destruct (process_packet_spec weak_random s2 cp) as (_ & t & M1 & M2 & M3 & M4 & M5 & M6 & _ & M8);
    [rewrite F1; apply Hi|done|].
  destruct (view_eq _ _ _ _ _ _ _ M1) as (G1 & G2 & _). rewrite F1, ?F2, ?E1 in *. split_and!; congruence.
Qed.

Lemma peer_refused a b :
  peer_ok b ->
  refused b false false BFD_TTL_VAL (control_packet a false) = negb (snd (abs a)) && abs_active (fst (abs b)).
Proof.
  intros Hb. unfold refused, abs, abs_active. cbn [pkt_remote_discr control_packet fst snd orb andb].
  rewrite negb_involutive, orb_false_r. pose proof (po_admin b Hb) as Hne.
  destruct (remote_discr a =? 0); [|done]. simpl.
  destruct (state_cases _ (iv_state b (po_inv b Hb))) as [E|[E|[E|E]]]; rewrite E in *; done.
Qed.

Lemma deliver_spec a b :
  peer_ok a -> peer_ok b -> peer_ok (deliver a b) /\ abs (deliver a b) = abs_deliver (abs a) (abs b).
Proof.
  intros Ha Hb. pose proof (po_inv a Ha) as Ia. pose proof (po_inv b Hb) as Ib.
  assert (inv (deliver a b)) as Inew by (by apply inv_recv).
  destruct (packet_flags a (iv_state a Ia)) as (Hgs & _ & Hab).
  pose proof (packet_formed a Ha) as Hf. pose proof (peer_refused a b Hb) as Hr.
  assert (bfd_check_auth (control_packet a false) = true) as Hau by (unfold bfd_check_auth; by rewrite Hab).
  assert (pkt_my_discr (control_packet a false) = my_discr a) as Hmd by done.
  unfold deliver in *. set (cp := control_packet a false) in *. clearbody cp. unfold abs_deliver.
  destruct (negb (snd (abs a)) && abs_active (fst (abs b))) eqn:Eref.
  { assert (bfd_recv_cb weak_random b false false false BFD_TTL_VAL BFD_PKT_LEN cp = b) as ->; [|done].
    unfold bfd_recv_cb. by rewrite Hf, Hr. }
  destruct (recv_accepted b BFD_TTL_VAL BFD_PKT_LEN cp Hf Hr Hau Ib (po_mode b Hb)) as (F1 & F2 & F3 & F4 & F5 & F6 & F7).
  set (s' := bfd_recv_cb _ _ _ _ _ _ _ _) in *. clearbody s'. rewrite Hgs in *. rewrite Hmd in F2.
  destruct Hb as [B0 _ B1 B2 B3 B4 B5]. cbn [fst snd abs]. split.
  - split; try done; try congruence.
    + rewrite F1. apply rfc_not_admin; [apply Ib|apply Ia|done].
    + rewrite F3. destruct (goes_up _ _); [lia|]. destruct (goes_down _ _); [unfold BD_NEIGHBOR_DOWN; lia|done].
  - unfold abs. rewrite F1, F2. f_equal. pose proof (po_discr a Ha).
    destruct (goes_down _ _); [done|]. by destruct (Z.eqb_spec (my_discr a) 0).
Qed.

(** One packet each way. *)
Definition exchange (p : bfd_session * bfd_session) : bfd_session * bfd_session :=
  let b := deliver (fst p) (snd p) in (deliver b (fst p), b).

Definition abs_exchange (p : (Z * bool) * (Z * bool)) : (Z * bool) * (Z * bool) :=
  let b := abs_deliver (fst p) (snd p) in (abs_deliver b (fst p), b).

Lemma exchange_spec n : forall p, peer_ok (fst p) -> peer_ok (snd p) ->
  let q := Nat.iter n exchange p in
  peer_ok (fst q) /\ peer_ok (snd q)
  /\ (abs (fst q), abs (snd q)) = Nat.iter n abs_exchange (abs (fst p), abs (snd p)).
Proof.
  intros p Ha Hb. cbv zeta. induction n as [|n IH]; [done|].
  simpl. destruct IH as (H1 & H2 & E). rewrite <- E. set (q := Nat.iter n exchange p) in *.
  unfold exchange, abs_exchange. cbn [fst snd]. destruct (deliver_spec _ _ H1 H2) as [O1 E1].
  destruct (deliver_spec _ _ O1 H1) as [O2 E2]. by rewrite E2, E1.
Qed.

(** From every pair of states three exchanges suffice; an active session knows its
    peer. *)
Lemma abs_converges x kx y ky :
  is_state x -> is_state y -> x <> PTM_BFD_ADM_DOWN -> y <> PTM_BFD_ADM_DOWN ->
  (active x -> kx = true) -> (active y -> ky = true) ->
  Nat.iter 3 abs_exchange ((x, kx), (y, ky)) = ((PTM_BFD_UP, true), (PTM_BFD_UP, true)).
Proof.
  intros Hx Hy Nx Ny Kx Ky.
  destruct (state_cases x Hx) as [->|[->|[->| ->]]]; [done|..]; try rewrite Kx by (by (left + right));
    (destruct (state_cases y Hy) as [->|[->|[->| ->]]]; [done|..]); try rewrite Ky by (by (left + right));
    try destruct kx; try destruct ky; vm_compute; done.
Qed.

Lemma abs_stays n : Nat.iter n abs_exchange ((PTM_BFD_UP, true), (PTM_BFD_UP, true))
  = ((PTM_BFD_UP, true), (PTM_BFD_UP, true)).
Proof. induction n as [|n IH]; [done|]. simpl. by rewrite IH. Qed.

Lemma abs_known s : inv s -> active (ses_state s) -> snd (abs s) = true.
Proof.
  intros H Ha. unfold abs. simpl. pose proof (iv_discr s H Ha). by destruct (Z.eqb_spec (remote_discr s) 0).
Qed.

(** C15: two sessions that are neither shut down nor passive nor S-BFD initiators, with
    usable discriminators, multipliers and diagnostics, and hear each other's
    packets are both up after three exchanges, whatever states they start in, and
    stay up. *)
Theorem bfd_handshake_converges a b n :
  peer_ok a -> peer_ok b -> (3 <= n)%nat ->
  ses_state (fst (Nat.iter n exchange (a, b))) = PTM_BFD_UP
  /\ ses_state (snd (Nat.iter n exchange (a, b))) = PTM_BFD_UP.
Proof.
  intros Ha Hb Hn. destruct (exchange_spec n (a, b) Ha Hb) as (_ & _ & E). cbn [fst snd] in E.
  assert (Nat.iter 3 abs_exchange (abs a, abs b) = ((PTM_BFD_UP, true), (PTM_BFD_UP, true))) as E3.
  { destruct Ha as [_ Ia A1 _ _ _ _], Hb as [_ Ib B1 _ _ _ _].
    apply (abs_converges (ses_state a) (snd (abs a)) (ses_state b) (snd (abs b)));
      [apply Ia|apply Ib|done|done|by apply abs_known|by apply abs_known]. }
  assert (Nat.iter n abs_exchange (abs a, abs b) = ((PTM_BFD_UP, true), (PTM_BFD_UP, true))) as En.
  { replace n with ((n - 3) + 3)%nat by lia. by rewrite Nat.iter_add, E3, abs_stays. }
  rewrite En in E. unfold abs in E. injection E as E1 _ E2 _. by split.
Qed.

(** ** The detection time *)

(** The part of a session the detection time depends on. *)
Definition timing (s : bfd_session) : Z * Z * bfd_timers * Z * Z :=
  (required_min_rx (cur_timers s), polling s, remote_timers s, remote_detect_mult s,
   cfg_required_min_rx (timers s)).

Ltac bfd_timing := cbv zeta; bfd_cases; reflexivity.

Lemma snd_timing s b : timing (ptm_bfd_snd s b) = timing s.
Proof. unfold ptm_bfd_snd. bfd_timing. Qed.

Lemma start_xmt_timing s b : timing (ptm_bfd_start_xmt_timer weak_random s b) = timing s.
Proof.
  destruct (start_xmt_modes weak_random s b) as [j ->]. unfold bfd_echo_xmttimer_update, bfd_xmttimer_update. bfd_timing.
Qed.

Lemma sess_up_timing s :
  timing (ptm_bfd_sess_up s)
  = (required_min_rx (cur_timers s), 1, remote_timers s, remote_detect_mult s, cfg_required_min_rx (timers s)).
Proof.
  unfold ptm_bfd_sess_up. cbv zeta. set (s1 := bfd_set_polling _).
  assert (forall s2, timing (if negb (ses_state s =? ses_state s2) then count_session_up s2 else s2) = timing s2) as H
    by (intros s2; bfd_timing).
  rewrite H. change (timing (ptm_bfd_notify ?x ?y)) with (timing x). by rewrite snd_timing.
Qed.

Lemma sess_dn_timing s d :
  timing (ptm_bfd_sess_dn s d)
  = (BFD_DEF_SLOWTX, 0, remote_timers s, remote_detect_mult s, cfg_required_min_rx (timers s)).
Proof.
  unfold ptm_bfd_sess_dn. cbv zeta. set (s1 := set_demand_mode 0 _).
  set (s2 := bs_set_slow_timers _).
  assert (timing s2 = (BFD_DEF_SLOWTX, 0, remote_timers s, remote_detect_mult s, cfg_required_min_rx (timers s))) as H2.
  { assert (timing (if sock s1 then ptm_bfd_snd s1 false else s1) = timing s1) as E
      by (destruct (sock s1); [apply snd_timing|done]).
    unfold s2. set (s0 := if sock s1 then _ else _) in *. clearbody s0. unfold timing in E.
    injection E as E1 E2 E3 E4 E5. unfold bs_set_slow_timers, timing. cbv zeta.
    destruct (_ =? BFD_MODE_TYPE_SBFD_ECHO); simpl; rewrite E2, E3, E4, E5; done. }
  rewrite <- H2. clearbody s2. clear. unfold ptm_bfd_echo_stop. bfd_timing.
Qed.

Lemma state_handler_timing s n :
  is_state (ses_state s) -> is_state n ->
  let new := rfc_next (ses_state s) n in
  timing (bs_state_handler weak_random s n)
  = (if goes_down (ses_state s) new then BFD_DEF_SLOWTX else required_min_rx (cur_timers s),
     if goes_up (ses_state s) new then 1 else if goes_down (ses_state s) new then 0 else polling s,
     remote_timers s, remote_detect_mult s, cfg_required_min_rx (timers s)).
Proof.
  intros Hs Hn. cbv zeta. pose proof (sess_up_timing s) as Hup. pose proof (sess_dn_timing s BD_NEIGHBOR_DOWN) as Hdn.
  assert (timing (bs_down_handler weak_random s PTM_BFD_DOWN) = timing s) as Hinit.
  { change (bs_down_handler weak_random s PTM_BFD_DOWN)
      with (if PASSIVE (flags s) then ptm_bfd_xmt_TO weak_random (set_ses_state PTM_BFD_INIT s) false
            else set_ses_state PTM_BFD_INIT s).
    destruct (PASSIVE (flags s)); [|done]. unfold ptm_bfd_xmt_TO. by rewrite start_xmt_timing, snd_timing. }
  unfold bs_state_handler, rfc_next.
  destruct (state_cases _ Hs) as [Es|[Es|[Es|Es]]], (state_cases _ Hn) as [En|[En|[En|En]]];
    rewrite Es, En in *; simpl; try reflexivity; try exact Hup; try exact Hinit; try exact Hdn.
Qed.

Lemma final_timing s :
  timing (bs_final_handler weak_random s)
  = (cfg_required_min_rx (timers s), polling s, remote_timers s, remote_detect_mult s, cfg_required_min_rx (timers s)).
Proof.
  unfold bs_final_handler. cbv zeta. destruct (negb _); [done|].
  destruct (_ && _); [bfd_timing|]. rewrite start_xmt_timing. bfd_timing.
Qed.

(** The receive interval in force after a packet: the slow one when the session
    goes down, the configured one when a poll completes. *)
Definition rx_in_force (s : bfd_session) (cp : bfd_pkt) : Z :=
  let new := rfc_next (ses_state s) (BFD_GETSTATE (pkt_flags cp)) in
  let polled := if goes_up (ses_state s) new then true
                else if goes_down (ses_state s) new then false else negb (polling s =? 0) in
  if polled && BFD_GETFBIT (pkt_flags cp) then cfg_required_min_rx (timers s)
  else if goes_down (ses_state s) new then BFD_DEF_SLOWTX else required_min_rx (cur_timers s).

Lemma silent_recvtimer s s' : silent s s' -> recvtimer_ev s' = recvtimer_ev s.
Proof. intros (E & _). unfold view in E. congruence. Qed.

Lemma process_packet_timer s cp :
  is_state (ses_state s) -> deactivated s = false -> 
  recvtimer_ev (process_packet weak_random s cp)
  = Some (u32 (remote_detect_mult s * Z.max (rx_in_force s cp) (desired_min_tx (remote_timers s)))).
Proof.
  intros Hs Hd. pose proof (state_handler_timing s _ Hs (getstate_state (pkt_flags cp))) as T1.
  pose proof (state_handler_moved weak_random s _ Hs (getstate_state (pkt_flags cp))) as (M1 & _).
  destruct (view_eq _ _ _ _ _ _ _ M1) as (_ & _ & E3 & _ & E5 & _).
  unfold process_packet. cbv zeta. set (s1 := bs_state_handler _ _ _) in *.
  set (s2 := if negb (polling s1 =? 0) && BFD_GETFBIT (pkt_flags cp) then _ else s1).
  assert (timing s2 = (rx_in_force s cp, polling s2, remote_timers s, remote_detect_mult s, cfg_required_min_rx (timers s))
    /\ silent s1 s2) as [T2 L2].
  { cbv zeta in T1. unfold timing in T1. injection T1 as A1 A2 A3 A4 A5.
    unfold s2, rx_in_force. cbv zeta.
    set (new := rfc_next (ses_state s) (BFD_GETSTATE (pkt_flags cp))) in *.
    replace (if goes_up (ses_state s) new then true else if goes_down (ses_state s) new then false else negb (polling s =? 0))
      with (negb (polling s1 =? 0)) by (rewrite A2; destruct (goes_up _ _); [done|]; by destruct (goes_down _ _)).
    destruct (negb (polling s1 =? 0) && BFD_GETFBIT (pkt_flags cp)).
    - split.
      + assert (polling (bs_final_handler weak_random (set_polling 0 s1)) = 0) as ->.
        { pose proof (final_timing (set_polling 0 s1)) as F. unfold timing in F. simpl in F. congruence. }
        rewrite final_timing. simpl. congruence.
      + eapply silent_trans; [|apply final_silent]. bfd_silent.
    - split; [|apply silent_refl]. unfold timing. congruence. }
  clearbody s2. unfold timing in T2. injection T2 as B1 B2 B3 B4.
  destruct L2 as (V2 & _). unfold view in V2. injection V2 as _ _ F3 _ F5 _.
  assert (deactivated s2 = false) as D2 by (unfold deactivated in *; congruence).
  assert (forall s3, deactivated s3 = false -> recvtimer_ev (bfd_recvtimer_update s3) = Some (detect_TO s3)) as Hup.
  { intros s3 D3. unfold bfd_recvtimer_update, bfd_recvtimer_delete. cbv zeta.
    change (deactivated (set_recvtimer_ev None s3)) with (deactivated s3). by rewrite D3. }
  set (s3 := if desired_min_tx _ <? _ then _ else _).
  assert (deactivated s3 = false) as D3 by (unfold s3; destruct (_ <? _); exact D2).
  assert (detect_TO s3 = u32 (remote_detect_mult s * Z.max (rx_in_force s cp) (desired_min_tx (remote_timers s)))) as Edt.
  { unfold s3. rewrite B1, B2, B3. destruct (Z.ltb_spec (desired_min_tx (remote_timers s)) (rx_in_force s cp)); simpl.
    - rewrite Z.max_l by lia. done.
    - rewrite Z.max_r by lia. done. }
  clearbody s3. pose proof (Hup s3 D3) as R3. set (s4 := bfd_recvtimer_update s3) in *.
  destruct (BFD_GETPBIT _).
  - rewrite (silent_recvtimer _ _ (snd_silent _ _)), (silent_recvtimer _ _ (final_silent _ _)).
    by rewrite (silent_recvtimer _ _ (echo_handler_silent _ _)), R3, Edt.
  - by rewrite (silent_recvtimer _ _ (echo_handler_silent _ _)), R3, Edt.
Qed.

(** The detection time after a packet: the initiator of an S-BFD session uses its own
    multiplier and transmit interval. *)
Definition detection_time (s : bfd_session) (cp : bfd_pkt) : Z :=
  if bfd_mode s =? BFD_MODE_TYPE_SBFD_INIT then detect_mult s * cfg_desired_min_tx (timers s)
  else pkt_detect_mult cp * Z.max (rx_in_force s cp) (desired_min_tx (pkt_timers cp)).

(** C33: a control packet that is well-formed, passes the checks of its session and its
    authentication, and whose session is neither shut down nor without a socket,
    arms the detection timer with the peer's multiplier times the larger of the
    peer's transmit interval and the own receive interval in force (RFC 5880,
    section 6.8.4), as long as the product fits 32 bits; the multiplication wraps
    beyond that. In the session of an S-BFD initiator it is the own multiplier times
    the own transmit interval, in 64 bits. *)
Theorem bfd_detection_time s is_mhop mac ttl mlen cp :
  inv s -> deactivated s = false ->
  malformed is_mhop ttl mlen cp = false -> refused s false is_mhop ttl cp = false ->
  bfd_check_auth cp = true ->
  let t := detection_time s cp in
  let s' := bfd_recv_cb weak_random s false is_mhop mac ttl mlen cp in
  recvtimer_ev s' = Some (if bfd_mode s =? BFD_MODE_TYPE_SBFD_INIT then u64 t else u32 t)
  /\ (0 <= t < 4294967296 -> recvtimer_ev s' = Some t).
Proof.
  intros Hi Hd Hm Hr Ha. cbv zeta.
  assert (recvtimer_ev (bfd_recv_cb weak_random s false is_mhop mac ttl mlen cp)
    = Some (if bfd_mode s =? BFD_MODE_TYPE_SBFD_INIT then u64 (detection_time s cp) else u32 (detection_time s cp))) as E.
  { unfold bfd_recv_cb, detection_time. rewrite Hm, Hr, Ha. cbv zeta. cbn [negb]. set (s2 := learn _ _).
    assert (ses_state s2 = ses_state s /\ deactivated s2 = deactivated s /\ rx_in_force s2 cp = rx_in_force s cp
      /\ remote_detect_mult s2 = pkt_detect_mult cp /\ remote_timers s2 = pkt_timers cp
      /\ bfd_mode s2 = bfd_mode s /\ detect_mult s2 = detect_mult s /\ timers s2 = timers s)
      as (E1 & E2 & E3 & E4 & E5 & E6 & E7 & E8).
    { unfold s2. destruct (negb is_mhop && mac); by repeat split. }
    assert (quiet s2) as Q2 by (pose proof (iv_quiet s Hi); unfold s2; destruct (negb is_mhop && mac); done).
    clearbody s2. rewrite E6. destruct (_ =? _).
    - destruct (process_reflected_spec weak_random s2 cp Q2) as (_ & M & _).
      destruct (view_eq _ _ _ _ _ _ _ M) as (_ & _ & _ & _ & _ & ->). by rewrite E2, Hd, E7, E8.
    - rewrite process_packet_timer; [|rewrite E1; apply Hi|congruence]. by rewrite E3, E4, E5. }
  rewrite E. split; [done|]. intros Ht. destruct (_ =? _); [rewrite u64_small by lia|rewrite u32_small by done]; done.
Qed.

(** The detection time of a peer that announces the interval 1431655766 us
    with multiplier 3 is 2 us: the product 4294967298 wraps. *)
Theorem bfd_detection_time_wraps :
  recvtimer_ev (bfd_recv_cb weak_random (bfd_session_new BFD_MODE_TYPE_BFD 1 true true) false false false
    BFD_TTL_VAL BFD_PKT_LEN (mkPkt 32 64 3 24 7 0 (mkTimers 1431655766 1000000 0))) = Some 2.
Proof. vm_compute. reflexivity. Qed.

(** While a session is up, [bs_final_handler] never lengthens the transmit
    interval: a peer that requires a longer interval, and completes a poll for
    it, is still sent packets at the old, shorter one. *)
Theorem bs_final_handler_never_slows s :
  ses_state s = PTM_BFD_UP -> demand_mode s = 0 ->
  xmt_TO s < required_min_rx (remote_timers s) ->
  xmt_TO (bs_final_handler weak_random s) = xmt_TO s
  /\ xmttimer_ev (bs_final_handler weak_random s) = xmttimer_ev s.
Proof.
  intros Hup Hdm Hlt. unfold bs_final_handler. cbv zeta. simpl. rewrite Hdm. simpl.
  set (s1 := if _ <? _ then _ else _).
  assert (ses_state s1 = PTM_BFD_UP /\ xmttimer_ev s1 = xmttimer_ev s /\ xmt_TO s < xmt_TO s1) as (E1 & E2 & E3).
  { unfold s1. destruct (Z.ltb_spec (required_min_rx (remote_timers s)) (cfg_desired_min_tx (timers s)));
      simpl; (split; [done|]); (split; [done|]); lia. }
  rewrite E1. rewrite (proj2 (Z.ltb_lt _ _) E3). simpl. done.
Qed.

(** A session whose detection timer expires sends one packet that says it is
    down, but with a zero discriminator, and a peer that is up refuses such a
    packet: it does not learn that its neighbor went down until its own timer
    expires.  RFC 5880, section 6.8.6, refuses a zero discriminator only when the
    state in the packet is not Down or AdminDown. *)
Theorem bfd_down_signal_refused a b :
  ses_state a = PTM_BFD_UP -> sock a = true -> send_ok a = true -> PASSIVE (flags a) = false ->
  ses_state b = PTM_BFD_UP ->
  exists cp, out (bfd_recvtimer_cb a) = out a ++ [SendControl cp; Notify PTM_BFD_DOWN]
    /\ BFD_GETSTATE (pkt_flags cp) = PTM_BFD_DOWN
    /\ forall wrong_vrf is_mhop mac ttl mlen,
         bfd_recv_cb weak_random b wrong_vrf is_mhop mac ttl mlen cp = b.
Proof.
  intros Ha Hso Hsk Hp Hb. unfold bfd_recvtimer_cb. cbv zeta. simpl ses_state. rewrite Ha. simpl.
  unfold ptm_bfd_sess_dn. cbv zeta. set (s1 := set_demand_mode 0 _).
  exists (control_packet s1 false). split_and!.
  - simpl sock. rewrite Hso. unfold ptm_bfd_snd. simpl remote_discr. simpl flags. rewrite Hp. simpl send_ok.
    rewrite Hsk. simpl ses_state. rewrite Ha. change (PTM_BFD_UP =? PTM_BFD_UP) with true.
    unfold bs_set_slow_timers, ptm_bfd_echo_stop. cbv zeta. bfd_cases; simpl; first [discriminate|by rewrite <- app_assoc].
  - apply packet_flags. by split.
  - intros. unfold bfd_recv_cb. destruct (malformed _ _ _ _); [done|].
    assert (refused b wrong_vrf is_mhop ttl (control_packet s1 false) = true) as ->; [|done].
    unfold refused. simpl. rewrite Hb. by rewrite orb_true_r.
Qed.
End Exchange.

(** ** Two systems *)

Definition no_random : nat -> Z := fun _ => 0.
Definition system (discr : Z) : bfd_session := bfd_session_new BFD_MODE_TYPE_BFD discr true true.

Lemma system_ok discr : discr <> 0 -> peer_ok (system discr).
Proof.
  intros Hd. destruct (new_silent BFD_MODE_TYPE_BFD discr true true) as [Hi Hs].
  split; try done.
Qed.

(** A session that came up: after the handshake with its peer. *)
Definition up_system : bfd_session := fst (Nat.iter 3 (exchange no_random) (system 1, system 2)).

Lemma up_system_inv : inv up_system.
Proof.
  destruct (exchange_spec no_random 3 (system 1, system 2)) as ([_ H _ _ _ _ _] & _); [by apply system_ok..|].
  exact H.
Qed.

Lemma bs_state_handler_rfc_witness :
  ses_state (bs_state_handler no_random (system 1) PTM_BFD_DOWN) = PTM_BFD_INIT.
Proof.
  assert (is_state (ses_state (system 1))) as H1 by (vm_compute; split; discriminate).
  assert (is_state PTM_BFD_DOWN) as H2 by (vm_compute; split; discriminate).
  destruct (bs_state_handler_rfc no_random (system 1) PTM_BFD_DOWN H1 H2) as (E & _).
  rewrite E. vm_compute. reflexivity.
Defined.

Lemma bfd_handshake_converges_witness :
  peer_ok (system 1) /\ peer_ok (system 2)
  /\ ses_state (fst (Nat.iter 3 (exchange no_random) (system 1, system 2))) = PTM_BFD_UP.
Proof.
  assert (peer_ok (system 1)) as H1 by (apply system_ok; lia).
  assert (peer_ok (system 2)) as H2 by (apply system_ok; lia).
  split; [exact H1|]. split; [exact H2|].
  apply (bfd_handshake_converges no_random (system 1) (system 2) 3 H1 H2). lia.
Defined.

Lemma bfd_session_invariant_witness :
  quiet (bfd_set_shutdown (system 1) true)
  /\ ses_state (bfd_set_shutdown (system 1) true) = PTM_BFD_ADM_DOWN.
Proof.
  destruct (bfd_session_invariant no_random BFD_MODE_TYPE_BFD 1 true true (bfd_set_shutdown (system 1) true))
    as (_ & _ & _ & _ & H).
  - eapply relations.rtc_l; [apply step_shutdown|apply relations.rtc_refl].
  - split; [exact H|vm_compute; reflexivity].
Defined.

Lemma bfd_detection_time_witness :
  recvtimer_ev (bfd_recv_cb no_random (system 1) false false false 255 24 (control_packet (system 2) false))
  = Some 3000000.
Proof.
  destruct (bfd_detection_time no_random (system 1) false false 255 24 (control_packet (system 2) false)
    (po_inv _ (system_ok 1 ltac:(lia)))) as [_ H]; [vm_compute; reflexivity..|].
  etransitivity; [apply H; vm_compute; split; [discriminate|reflexivity]|]. vm_compute. reflexivity.
Defined.

Lemma bs_final_handler_never_slows_witness :
  xmt_TO (bs_final_handler no_random (set_remote_timers (mkTimers 1000000 5000000 0) up_system)) = 300000.
Proof.
  destruct (bs_final_handler_never_slows no_random (set_remote_timers (mkTimers 1000000 5000000 0) up_system))
    as [E _]; [vm_compute; reflexivity..|].
  rewrite E. vm_compute. reflexivity.
Defined.

Lemma bfd_down_signal_refused_witness :
  exists cp, BFD_GETSTATE (pkt_flags cp) = PTM_BFD_DOWN
    /\ bfd_recv_cb no_random up_system false false false 255 24 cp = up_system.
Proof.
  destruct (bfd_down_signal_refused no_random up_system up_system) as (cp & _ & E & H);
    [vm_compute; reflexivity..|].
  exists cp. split; [exact E|apply H].
Defined.
