(* ===== verification/AsPath.v ===== *)
(** * BGP AS paths (bgpd/bgp_aspath.c)

    An AS path is a list of segments; a segment has a type (sequence, set and
    their confederation variants) and an array of AS numbers.  The length field
    of [struct assegment] is an [unsigned short]: it is the length of the list
    here, and the one place where it can wrap, the growth of a segment, cuts the
    list where the C code forgets the rest ([fit16]).

    The functions of the C file that change a path in place return the same
    pointer; here they return the new value.  The JSON copy of a path is left
    out.  The text form is built in [AsPathText], the wire form in
    [AsPathWire], the table of shared paths in [AsPathIntern]. *)

From stdpp Require Import sorting.
From S2P Require Import Prelude.

Definition AS_SET : Z := 1.
Definition AS_SEQUENCE : Z := 2.
Definition AS_CONFED_SEQUENCE : Z := 3.
Definition AS_CONFED_SET : Z := 4.
Definition AS_SEGMENT_MAX : Z := 255.
Definition BGP_AS_ZERO : Z := 0.
Definition BGP_AS_MAX : Z := 65535.
Definition BGP_AS_TRANS : Z := 23456.

Definition BGP_AS_IS_PRIVATE (asn : Z) : bool :=
  (64512 <=? asn) && (asn <=? 65535)
  || (4200000000 <=? asn) && (asn <=? 4294967294).

Record assegment := mkSeg { seg_type : Z; seg_as : list Z }.

#[global] Instance assegment_eq_dec : EqDecision assegment.
Proof. solve_decision. Defined.

(** [seg->length] *)
Definition slen (s : assegment) : Z := Z.of_nat (length (seg_as s)).

Inductive asnotation_mode :=
| ASNOTATION_PLAIN | ASNOTATION_DOT | ASNOTATION_DOTPLUS | ASNOTATION_UNDEFINED.

#[global] Instance asnotation_mode_eq_dec : EqDecision asnotation_mode.
Proof. solve_decision. Defined.

(** [str] is the text built by [aspath_make_str_count], without its NUL. *)
Record aspath := mkAspath {
  refcnt : Z;
  segments : list assegment;
  str : option (list Z);
  str_len : Z;
  count : Z;
  asnotation : asnotation_mode
}.

Definition set_segments (l : list assegment) (a : aspath) : aspath :=
  mkAspath (refcnt a) l (str a) (str_len a) (count a) (asnotation a).
Definition set_count (c : Z) (a : aspath) : aspath :=
  mkAspath (refcnt a) (segments a) (str a) (str_len a) c (asnotation a).
Definition set_refcnt (c : Z) (a : aspath) : aspath :=
  mkAspath c (segments a) (str a) (str_len a) (count a) (asnotation a).
Definition set_str (s : option (list Z)) (n : Z) (a : aspath) : aspath :=
  mkAspath (refcnt a) (segments a) s n (count a) (asnotation a).

Definition is_set_type (t : Z) : bool := (t =? AS_SET) || (t =? AS_CONFED_SET).
Definition is_confed_type (t : Z) : bool := (t =? AS_CONFED_SEQUENCE) || (t =? AS_CONFED_SET).

(** ** Segments *)

(** [seg->length += num] for an [unsigned short]: the entries from the wrapped
    length on are not reachable any more. *)
Definition fit16 (l : list Z) : list Z := take (Z.to_nat (u16 (Z.of_nat (length l)))) l.

Definition assegment_prepend_asns (seg : assegment) (asnum : Z) (num : nat) : assegment :=
  if (num =? 0)%nat then seg
  else if AS_SEGMENT_MAX <=? Z.of_nat num then seg
  else mkSeg (seg_type seg) (fit16 (replicate num asnum ++ seg_as seg)).

Definition assegment_append_asns (seg : assegment) (asnos : list Z) : assegment :=
  mkSeg (seg_type seg) (fit16 (seg_as seg ++ asnos)).

(** The loop that weeds out duplicates; [last] is [seg->as[tail]]. *)
Fixpoint weed (last : Z) (l : list Z) : list Z :=
  match l with
  | [] => []
  | x :: r => if last =? x then weed last r else x :: weed x r
  end.

(** [qsort] by [int_cmp], then [weed]. *)
Definition sort_uniq (l : list Z) : list Z :=
  match merge_sort Z.le l with
  | [] => []
  | x :: r => x :: weed x r
  end.

Definition normalise_set (seg : assegment) : assegment :=
  if is_set_type (seg_type seg) then mkSeg (seg_type seg) (sort_uniq (seg_as seg)) else seg.

Definition ASSEGMENT_TYPES_PACKABLE (x y : assegment) : bool :=
  (seg_type x =? seg_type y) && (seg_type x =? AS_SEQUENCE).
Definition ASSEGMENTS_PACKABLE (x y : assegment) : bool :=
  ASSEGMENT_TYPES_PACKABLE x y && (slen x + slen y <=? AS_SEGMENT_MAX).

(** The two nested loops as one: [pin] is the pinned segment, and the next
    segment is either appended to it or becomes the pinned one. *)
Fixpoint normalise_from (pin : assegment) (rest : list assegment) : list assegment :=
  match rest with
  | [] => [pin]
  | seg :: rest' =>
      if ASSEGMENT_TYPES_PACKABLE pin seg
      then normalise_from (assegment_append_asns pin (seg_as seg)) rest'
      else pin :: normalise_from (normalise_set seg) rest'
  end.

Definition assegment_normalise (head : list assegment) : list assegment :=
  match head with
  | [] => []
  | seg :: rest => normalise_from (normalise_set seg) rest
  end.

(** [assegment_count_asns (seg, 0)] *)
Definition assegment_count_asns (l : list assegment) : Z :=
  fold_right (fun seg n => slen seg + n) 0 l.

(** ** Reading a path *)

Definition hop_weight (seg : assegment) : Z :=
  if seg_type seg =? AS_SEQUENCE then slen seg
  else if seg_type seg =? AS_SET then 1 else 0.

Definition aspath_count_hops_internal (l : list assegment) : Z :=
  fold_right (fun seg n => hop_weight seg + n) 0 l.

Definition confed_weight (seg : assegment) : Z :=
  if seg_type seg =? AS_CONFED_SEQUENCE then slen seg
  else if seg_type seg =? AS_CONFED_SET then 1 else 0.

Definition aspath_count_confeds (a : aspath) : Z :=
  fold_right (fun seg n => confed_weight seg + n) 0 (segments a).

Definition aspath_count_hops (a : aspath) : Z := count a.

Definition aspath_check_as_sets (a : aspath) : bool :=
  existsb (fun seg => is_set_type (seg_type seg)) (segments a).

Definition aspath_check_as_zero (a : aspath) : bool :=
  existsb (fun seg => existsb (Z.eqb BGP_AS_ZERO) (seg_as seg)) (segments a).

(** [ASSEGMENT_SIZE] *)
Definition ASSEGMENT_SIZE (n : Z) (use32bit : bool) : Z := 2 + n * (if use32bit then 4 else 2).

Definition aspath_size (a : aspath) : Z :=
  fold_right (fun seg n => ASSEGMENT_SIZE (slen seg) true + n) 0 (segments a).

Definition highest_step (highest asn : Z) : Z :=
  if (highest <? asn) && negb (BGP_AS_IS_PRIVATE asn) then asn else highest.
Definition aspath_highest (a : aspath) : Z :=
  fold_left (fun h seg => fold_left highest_step (seg_as seg) h) (segments a) 0.

Definition aspath_leftmost (a : aspath) : Z :=
  match segments a with
  | seg :: _ =>
      match seg_as seg with
      | x :: _ => if seg_type seg =? AS_SEQUENCE then x else 0
      | [] => 0
      end
  | [] => 0
  end.

Definition aspath_has_as4 (a : aspath) : bool :=
  existsb (fun seg => existsb (fun x => BGP_AS_MAX <? x) (seg_as seg)) (segments a).

(** [seg->as[0]]: an empty segment has no array to read from. *)
Definition as0 (seg : assegment) : outcome Z :=
  match seg_as seg with x :: _ => Ret x | [] => Abort end.

Definition aspath_firstas_check (a : aspath) (asno : Z) : outcome bool :=
  match segments a with
  | [] => Ret false
  | seg :: _ =>
      if seg_type seg =? AS_SEQUENCE then x ← as0 seg; Ret (x =? asno) else Ret false
  end.

Definition aspath_get_first_as (a : aspath) : outcome Z :=
  match segments a with
  | [] => Ret 0
  | seg :: _ => as0 seg
  end.

Definition last_step (last_as : Z) (seg : assegment) : Z :=
  if (seg_type seg =? AS_SEQUENCE) || (seg_type seg =? AS_CONFED_SEQUENCE)
  then fold_left (fun _ x => x) (seg_as seg) last_as else last_as.
Definition aspath_get_last_as (a : aspath) : Z := fold_left last_step (segments a) 0.

Definition count_as (asno : Z) (l : list Z) : Z :=
  fold_right (fun x n => if x =? asno then 1 + n else n) 0 l.

Definition aspath_loop_check (a : aspath) (asno : Z) : Z :=
  fold_right (fun seg n => count_as asno (seg_as seg) + n) 0 (segments a).

Definition aspath_loop_check_confed (a : aspath) (asno : Z) : Z :=
  fold_right (fun seg n =>
    (if is_confed_type (seg_type seg) then 0 else count_as asno (seg_as seg)) + n)
    0 (segments a).

Definition aspath_private_as_check (a : aspath) : bool :=
  match segments a with
  | [] => false
  | l => forallb (fun seg => forallb BGP_AS_IS_PRIVATE (seg_as seg)) l
  end.

Definition aspath_confed_check (a : aspath) : bool :=
  existsb (fun seg => is_confed_type (seg_type seg)) (segments a).

Definition aspath_left_confed_check (a : aspath) : bool :=
  match segments a with
  | [] => false
  | seg :: _ => is_confed_type (seg_type seg)
  end.

Fixpoint skip_confeds (l : list assegment) : list assegment :=
  match l with
  | seg :: r => if is_confed_type (seg_type seg) then skip_confeds r else l
  | [] => []
  end.

(** [None] is a NULL argument. *)
Definition aspath_cmp_left (a1 a2 : option aspath) : outcome bool :=
  match a1, a2 with
  | Some a1, Some a2 =>
      match segments a1, segments a2 with
      | [], [] => Ret true
      | l1, l2 =>
          match skip_confeds l1, skip_confeds l2 with
          | s1 :: _, s2 :: _ =>
              if (seg_type s1 =? AS_SEQUENCE) && (seg_type s2 =? AS_SEQUENCE)
              then x ← as0 s1; y ← as0 s2; Ret (x =? y)
              else Ret false
          | _, _ => Ret false
          end
      end
  | _, _ => Ret false
  end.

Definition aspath_cmp_left_confed (a1 a2 : option aspath) : outcome bool :=
  match a1, a2 with
  | Some a1, Some a2 =>
      match segments a1, segments a2 with
      | s1 :: _, s2 :: _ =>
          if negb (seg_type s1 =? AS_CONFED_SEQUENCE) || negb (seg_type s2 =? AS_CONFED_SEQUENCE)
          then Ret false
          else x ← as0 s1; y ← as0 s2; Ret (x =? y)
      | _, _ => Ret false
      end
  | _, _ => Ret false
  end.

(** [aspath_cmp]: the two chains are walked in step. *)
Fixpoint segs_cmp (l1 l2 : list assegment) : bool :=
  match l1, l2 with
  | [], [] => true
  | s1 :: r1, s2 :: r2 =>
      (seg_type s1 =? seg_type s2) && (slen s1 =? slen s2)
      && forallb (fun '(x, y) => x =? y) (zip (seg_as s1) (seg_as s2))
      && segs_cmp r1 r2
  | _, _ => false
  end.

Definition aspath_cmp (a1 a2 : aspath) : bool :=
  bool_decide (asnotation a1 = asnotation a2) && segs_cmp (segments a1) (segments a2).
