(* ===== verification/AsPathText.v ===== *)
(** * AS numbers and AS paths as text (lib/asn.c, bgpd/bgp_aspath.c)

    Printing an AS number in the plain, dot and dot+ notations, reading one
    back, printing a path into a buffer that grows by segment, and the token
    loop that reads a path.  C strings are lists of character codes without the
    NUL; reading at the end of the list is reading the NUL. *)

From S2P Require Import Prelude AsPath.

(** ** Characters *)

Definition isdigit (c : Z) : bool := (48 <=? c) && (c <=? 57).
Definition isspace (c : Z) : bool := (c =? 32) || (9 <=? c) && (c <=? 13).
Definition starts_digit (l : list Z) : bool :=
  match l with c :: _ => isdigit c | [] => false end.
Definition starts_with (c : Z) (l : list Z) : bool :=
  match l with x :: _ => x =? c | [] => false end.

(** [printf] of an unsigned number, least significant digit last. *)
Fixpoint print_digits (fuel : nat) (n : Z) : list Z :=
  match fuel with
  | O => []
  | S k => (if n <? 10 then [] else print_digits k (n / 10)) ++ [48 + n mod 10]
  end.
(** A 32-bit number has at most ten digits. *)
Definition print_u (n : Z) : list Z := print_digits 10 n.

(** ** AS numbers *)

Definition asn_asn2asdot (asn : Z) : list Z :=
  let high := Z.land (Z.shiftr asn 16) 0xffff in
  let low := Z.land asn 0xffff in
  print_u high ++ [46] ++ print_u low.

Definition asn_asn2string (asn : Z) (mode : asnotation_mode) : list Z :=
  match mode with
  | ASNOTATION_PLAIN => print_u asn
  | ASNOTATION_DOT => if asn <? 65535 then print_u asn else asn_asn2asdot asn
  | _ => asn_asn2asdot asn
  end.

(** [ASN_FORMAT] with the extensions of [printfrr] it names. *)
Definition ASN_FORMAT (mode : asnotation_mode) (asn : Z) : list Z :=
  asn_asn2string asn
    match mode with
    | ASNOTATION_DOT => ASNOTATION_DOT
    | ASNOTATION_DOTPLUS => ASNOTATION_DOTPLUS
    | _ => ASNOTATION_PLAIN
    end.

(** The digit loop: [None] is the overflow exit; the pointer stays where the
    loop left it. *)
Fixpoint digits_loop (max acc : Z) (p : list Z) : option Z * list Z :=
  match p with
  | c :: r =>
      if isdigit c then
        let temp_val := acc * 10 + (c - 48) in
        if max <? temp_val then (None, p) else digits_loop max temp_val r
      else (Some acc, p)
  | [] => (Some acc, [])
  end.

Record asn_result := mkAsn {
  asn_ret : bool;
  asn_value : option Z;
  asn_next : list Z;
  asn_partial : bool;
  asn_mode : asnotation_mode
}.

Section Asn.
(** The static flag [relax_as_zero]. *)
Context (relax_as_zero : bool).

(** [next] and [partial] say whether those pointers are given. *)
Definition asn_str2asn_internal (asstring : list Z) (next partial : bool) : asn_result :=
  let fail p part := mkAsn false None p part ASNOTATION_PLAIN in
  if negb (starts_digit asstring) then fail asstring false
  else if starts_with 48 asstring && starts_digit (drop 1 asstring) then fail asstring false
  else
    match digits_loop 4294967295 0 asstring with
    | (None, p) => fail p false
    | (Some high, p) =>
        if starts_with 46 p then
          let p := drop 1 p in
          if match p with [] => partial | _ => false end then fail p true
          else if starts_with 48 p && starts_digit (drop 1 p) then fail p false
          else
            match digits_loop 65535 0 p with
            | (None, p) => fail p false
            | (Some low, p) =>
                if negb next && match p with [] => false | c :: _ => negb (isdigit c) end
                then fail p false
                else if 65535 <? high then fail p false
                else if negb relax_as_zero && (high =? 0) && (low =? 0) then fail p partial
                else mkAsn true (Some (u32 (u32 (Z.shiftl high 16) + low))) p false
                       (if high =? 0 then ASNOTATION_DOTPLUS else ASNOTATION_DOT)
            end
        else if negb relax_as_zero && (high =? 0) then fail p false
        else mkAsn true (Some high) p false ASNOTATION_PLAIN
    end.

Definition asn_str2asn (s : list Z) : bool * option Z :=
  let r := asn_str2asn_internal s false false in (asn_ret r, asn_value r).

Definition asn_str2asn_parse (s : list Z) : list Z * option Z * bool :=
  let r := asn_str2asn_internal s true false in (asn_next r, asn_value r, asn_ret r).

Inductive match_type := no_match | partly_match | exact_match.

Definition asn_str2asn_match (s : list Z) : match_type :=
  let r := asn_str2asn_internal s false true in
  if asn_ret r && negb (asn_partial r) then exact_match
  else if asn_partial r then partly_match else no_match.

Definition asn_str2asn_notation (s : list Z) : bool * option Z * asnotation_mode :=
  let r := asn_str2asn_internal s false false in (asn_ret r, asn_value r, asn_mode r).
End Asn.

(** ** Printing a path *)

(** The table of delimiters; [end_] is [AS_SEG_END]. *)
Definition aspath_delimiter_char (type : Z) (end_ : bool) : Z :=
  if type =? AS_SET then (if end_ then 125 else 123)
  else if type =? AS_CONFED_SET then (if end_ then 93 else 91)
  else if type =? AS_CONFED_SEQUENCE then (if end_ then 41 else 40)
  else 32.

(** The buffer [str_buf], its allocated size [str_size] and the fill [len]. *)
Record strbuf := mkBuf { str_size : Z; len : Z; str_buf : list Z }.

(** [len += snprintf (str_buf + len, str_size - len, ...)]: at most
    [str_size - len - 1] characters are written, the full length is returned. *)
Definition snprintf_at (b : strbuf) (t : list Z) : strbuf :=
  mkBuf (str_size b) (len b + Z.of_nat (length t))
    (str_buf b ++ take (Z.to_nat (str_size b - len b - 1)) t).

Definition separator (type : Z) : option Z :=
  if is_set_type type then Some 44
  else if (type =? AS_SEQUENCE) || (type =? AS_CONFED_SEQUENCE) then Some 32
  else None.

Definition ASN_STR_LEN : Z := 12.
Definition ASPATH_STR_DEFAULT_LEN : Z := 32.
Definition SEGMENT_STR_LEN (seg : assegment) : Z := slen seg * ASN_STR_LEN + 2 + 1 + 1.

Fixpoint put_asn_texts (mode : asnotation_mode) (sep : Z) (l : list Z) (b : strbuf) : strbuf :=
  match l with
  | [] => b
  | x :: r =>
      let b := snprintf_at b (ASN_FORMAT mode x) in
      match r with
      | [] => b
      | _ => put_asn_texts mode sep r (snprintf_at b [sep])
      end
  end.

Fixpoint make_str_loop (mode : asnotation_mode) (l : list assegment) (b : strbuf)
  : option strbuf :=
  match l with
  | [] => Some b
  | seg :: rest =>
      match separator (seg_type seg) with
      | None => None
      | Some sep =>
          let b := if str_size b <? len b + SEGMENT_STR_LEN seg
                   then mkBuf (len b + SEGMENT_STR_LEN seg) (len b) (str_buf b) else b in
          let b := if seg_type seg =? AS_SEQUENCE then b
                   else snprintf_at b [aspath_delimiter_char (seg_type seg) false] in
          let b := put_asn_texts mode sep (seg_as seg) b in
          let b := if seg_type seg =? AS_SEQUENCE then b
                   else snprintf_at b [aspath_delimiter_char (seg_type seg) true] in
          let b := match rest with [] => b | _ => snprintf_at b [32] end in
          make_str_loop mode rest b
      end
  end.

Definition aspath_make_str_count (a : aspath) : outcome aspath :=
  match segments a with
  | [] => Ret (set_str (Some []) 0 a)
  | l =>
      let size := Z.max (assegment_count_asns l * ASN_STR_LEN + 2 + 1) ASPATH_STR_DEFAULT_LEN in
      match make_str_loop (asnotation a) l (mkBuf size 0 []) with
      | None => Ret (set_str None 0 a)
      | Some b =>
          assert! (len b <? str_size b) ;;
          Ret (set_str (Some (str_buf b)) (u16 (len b)) a)
      end
  end.

Definition aspath_str_update (a : aspath) : outcome aspath := aspath_make_str_count a.

(** ** Reading a path *)

Definition aspath_new (mode : asnotation_mode) : aspath := mkAspath 0 [] None 0 0 mode.

(** Change the last segment of a chain. *)
Fixpoint at_last (f : assegment -> list assegment) (l : list assegment) : list assegment :=
  match l with
  | [] => []
  | [seg] => f seg
  | seg :: r => seg :: at_last f r
  end.

Definition aspath_as_add (a : aspath) (asno : Z) : aspath :=
  set_segments (at_last (fun seg => [assegment_append_asns seg [asno]]) (segments a)) a.

Definition aspath_segment_add (a : aspath) (type : Z) : aspath :=
  set_segments (match segments a with
                | [] => [mkSeg type []]
                | l => at_last (fun seg => [seg; mkSeg type []]) l
                end) a.

Inductive as_token :=
| as_token_asval (asno : Z)
| as_token_set_start | as_token_set_end
| as_token_confed_seq_start | as_token_confed_seq_end
| as_token_confed_set_start | as_token_confed_set_end
| as_token_unknown.

Fixpoint skip_separators (p : list Z) : list Z :=
  match p with
  | c :: r => if isspace c || (c =? 44) then skip_separators r else p
  | [] => []
  end.

Definition char_token (c : Z) : option as_token :=
  if c =? 123 then Some as_token_set_start
  else if c =? 125 then Some as_token_set_end
  else if c =? 40 then Some as_token_confed_seq_start
  else if c =? 41 then Some as_token_confed_seq_end
  else if c =? 91 then Some as_token_confed_set_start
  else if c =? 93 then Some as_token_confed_set_end
  else None.

Definition aspath_gettoken (relax : bool) (buf : list Z) : option (as_token * list Z) :=
  match skip_separators buf with
  | [] => None
  | c :: r =>
      match char_token c with
      | Some t => Some (t, r)
      | None =>
          let '(p, asno, found) := asn_str2asn_parse relax (c :: r) in
          Some (match asno with
                | Some v => if found then as_token_asval v else as_token_unknown
                | None => as_token_unknown
                end, p)
      end
  end.

(** The token loop.  A token takes at least one character, so the length of the
    text is enough fuel. *)
Fixpoint str2aspath_loop (relax : bool) (fuel : nat) (p : list Z)
    (a : aspath) (as_type : Z) (needtype : bool) : option aspath :=
  match aspath_gettoken relax p with
  | None => Some a
  | Some (tok, p) =>
      match fuel with
      | O => None
      | S k =>
          let open_ t := str2aspath_loop relax k p (aspath_segment_add a t) t false in
          match tok with
          | as_token_asval asno =>
              let a := if needtype then aspath_segment_add a as_type else a in
              str2aspath_loop relax k p (aspath_as_add a asno) as_type false
          | as_token_set_start => open_ AS_SET
          | as_token_confed_seq_start => open_ AS_CONFED_SEQUENCE
          | as_token_confed_set_start => open_ AS_CONFED_SET
          | as_token_set_end | as_token_confed_seq_end | as_token_confed_set_end =>
              str2aspath_loop relax k p a AS_SEQUENCE true
          | as_token_unknown => None
          end
      end
  end.

Definition aspath_str2aspath (relax : bool) (s : list Z) (mode : asnotation_mode)
  : outcome (option aspath) :=
  match str2aspath_loop relax (length s) s (aspath_new mode) AS_SEQUENCE true with
  | None => Ret None
  | Some a => a ← aspath_make_str_count a; Ret (Some a)
  end.
