(* ===== verification/AsPathOps.v ===== *)
(** * Operations on AS paths (bgpd/bgp_aspath.c)

    Copying, prepending, replacing, filtering, aggregating and reconciling
    paths.  Each operation rebuilds the text and the hop count of its result as
    the C code does; the text is built by [AsPathText]. *)

From S2P Require Import Prelude AsPath AsPathText.

(** [aspath_str_update (a, false); a->count = aspath_count_hops_internal (a)] *)
Definition refresh (a : aspath) : outcome aspath :=
  a ← aspath_str_update a;
  Ret (set_count (aspath_count_hops_internal (segments a)) a).

(** [buflen] is an [unsigned short]: the copy of a text of 65535 characters or
    more is cut and has no NUL. *)
Definition aspath_dup (a : aspath) : aspath :=
  match str a with
  | None => mkAspath 0 (segments a) None 0 0 ASNOTATION_PLAIN
  | Some s =>
      let buflen := u16 (str_len a + 1) in
      mkAspath 0 (segments a)
        (Some (if 0 <? str_len a then take (Z.to_nat buflen) s else []))
        (str_len a) (count a) (asnotation a)
  end.

(** ** Adding AS numbers *)

(** At the right end, called with one AS number. *)
Definition aspath_add_asns_rightmost (a : aspath) (asno type : Z) : outcome aspath :=
  refresh (set_segments
    match segments a with
    | [] => [mkSeg type [asno]]
    | l => at_last (fun last =>
             if (seg_type last =? type) && (slen last + 1 <=? AS_SEGMENT_MAX)
             then [assegment_append_asns last [asno]]
             else [last; mkSeg type [asno]]) l
    end a).

(** At the left end.  [assegment_new] takes the number as an [unsigned short]. *)
Definition aspath_add_asns (a : aspath) (asno type : Z) (num : nat) : outcome aspath :=
  refresh (set_segments
    match segments a with
    | seg :: rest =>
        if seg_type seg =? type then assegment_prepend_asns seg asno num :: rest
        else if slen seg =? 0 then mkSeg type (fit16 (replicate num asno)) :: rest
        else mkSeg type (fit16 (replicate num asno)) :: seg :: rest
    | [] => [mkSeg type (fit16 (replicate num asno))]
    end a).

Definition aspath_add_seq_n (a : aspath) (asno : Z) (num : nat) : outcome aspath :=
  aspath_add_asns a asno AS_SEQUENCE num.
Definition aspath_add_seq (a : aspath) (asno : Z) : outcome aspath :=
  aspath_add_asns a asno AS_SEQUENCE 1.
Definition aspath_add_confed_seq (a : aspath) (asno : Z) : outcome aspath :=
  aspath_add_asns a asno AS_CONFED_SEQUENCE 1.

(** ** Removing segments *)

(** The walk that unlinks the segments whose type satisfies [drop_type]; the
    text and the count are rebuilt only when one was removed. *)
Definition delete_segments (drop_type : Z -> bool) (a : aspath) : outcome aspath :=
  match segments a with
  | [] => Ret a
  | l =>
      let keep := List.filter (fun seg => negb (drop_type (seg_type seg))) l in
      if existsb (fun seg => drop_type (seg_type seg)) l
      then refresh (set_segments keep a) else Ret a
  end.

Definition aspath_delete_confed_seq : aspath -> outcome aspath := delete_segments is_confed_type.
Definition aspath_delete_as_set_seq : aspath -> outcome aspath := delete_segments is_set_type.

(** ** Joining paths *)

Definition aspath_merge (as1 as2 : aspath) : outcome aspath :=
  refresh (set_segments (segments as1 ++ segments as2) as2).

(** The type of the last segment of a chain. *)
Fixpoint last_type (l : list assegment) : option Z :=
  match l with
  | [] => None
  | [seg] => Some (seg_type seg)
  | _ :: r => last_type r
  end.

(** Prepend [as1] to [as2]; the result is [as2] changed. *)
Definition aspath_prepend (as1 as2 : aspath) : outcome aspath :=
  match segments as2, last_type (segments as1) with
  | [], _ => refresh (set_segments (segments as1) as2)
  | _, None => Ret as2
  | head2 :: _, Some t1 =>
      as2 ← (if (t1 =? AS_SEQUENCE) && (seg_type head2 =? AS_CONFED_SEQUENCE)
             then aspath_delete_confed_seq as2 else Ret as2);
      match segments as2 with
      | [] => refresh (set_segments (segments as1) as2)
      | seg2 :: rest2 =>
          if negb (t1 =? seg_type seg2) then aspath_merge as1 as2
          else if t1 =? AS_SEQUENCE then
            refresh (set_segments
              (at_last (fun tail => [assegment_append_asns tail (seg_as seg2)]) (segments as1)
               ++ rest2) as2)
          else aspath_merge as1 as2
      end
  end.

(** ** Replacing AS numbers *)

Definition map_asns (f : Z -> Z) (l : list assegment) : list assegment :=
  map (fun seg => mkSeg (seg_type seg) (map f (seg_as seg))) l.

Definition replace_asns (f : Z -> Z) (a : aspath) : outcome aspath :=
  let new := aspath_dup a in
  refresh (set_segments (map_asns f (segments new)) new).

Definition aspath_replace_specific_asn (a : aspath) (target_asn our_asn : Z) : outcome aspath :=
  replace_asns (fun x => if x =? target_asn then our_asn else x) a.

Definition aspath_replace_all_asn (a : aspath) (our_asn : Z) : outcome aspath :=
  replace_asns (fun _ => our_asn) a.

Definition aspath_replace_private_asns (a : aspath) (asn peer_asn : Z) : outcome aspath :=
  replace_asns (fun x => if BGP_AS_IS_PRIVATE x && negb (x =? peer_asn) then asn else x) a.

(** ** Removing AS numbers *)

(** The counting pass of [aspath_remove_private_asns]. *)
Definition public_count (l : list Z) : nat :=
  length (List.filter (fun x => negb (BGP_AS_IS_PRIVATE x)) l).

Definition remove_private_seg (peer_asn : Z) (seg : assegment) : assegment :=
  if (public_count (seg_as seg) =? length (seg_as seg))%nat then seg
  else mkSeg (seg_type seg)
         (List.filter (fun x => negb (BGP_AS_IS_PRIVATE x) || (x =? peer_asn)) (seg_as seg)).

(** The new path is zeroed memory, so its notation is the plain one. *)
Definition aspath_remove_private_asns (a : aspath) (peer_asn : Z) : outcome aspath :=
  refresh (mkAspath 0 (map (remove_private_seg peer_asn) (segments a)) None 0 0 ASNOTATION_PLAIN).

(** The search of the exclusion list for one AS number. *)
Definition excluded (ex : list assegment) (x : Z) : bool :=
  existsb (fun seg => existsb (Z.eqb x) (seg_as seg)) ex.

Definition aspath_filter_exclude (source exclude_list : aspath) : outcome aspath :=
  let keep seg :=
    mkSeg (seg_type seg)
      (List.filter (fun x => negb (excluded (segments exclude_list) x)) (seg_as seg)) in
  refresh (set_segments
    (List.filter (fun seg => negb (slen seg =? 0)) (map keep (segments source)))
    (aspath_new (asnotation source))).

Definition aspath_filter_exclude_all (source : aspath) : outcome aspath :=
  refresh (aspath_new (asnotation source)).

(** ** Regular expressions

    [regexec r s] is the match of the compiled expression [r] against the text
    of one AS number.  An AS path access list is the list of the expressions of
    its entries. *)
Section Regex.
Context {regex : Type} (regexec : regex -> list Z -> bool).
(** What [malloc] leaves in an array. *)
Context (uninit : nat -> Z).

(** The text [snprintfrr] puts into the buffer of 32 bytes. *)
Definition asn_text (a : aspath) (x : Z) : list Z :=
  take 31 (ASN_FORMAT (asnotation a) x).

(** Every expression is tried on the array the ones before it left. *)
Definition aspath_replace_regex_asn (a : aspath) (acl : list regex) (our_asn : Z)
  : outcome aspath :=
  let new := aspath_dup a in
  let pass r seg :=
    mkSeg (seg_type seg)
      (map (fun x => if regexec r (asn_text new x) then our_asn else x) (seg_as seg)) in
  refresh (set_segments
    (map (fun seg => fold_left (fun s r => pass r s) acl seg) (segments new)) new).

(** One pass over a segment: matched numbers become 0 and are counted.  A
    number that was 0 before is not counted, but is not copied either: the end
    of the new array then stays as [malloc] left it. *)
Definition acl_pass (a : aspath) (r : regex) (st : list Z * nat) : list Z * nat :=
  let hit x := negb (x =? 0) && regexec r (asn_text a x) in
  (map (fun x => if hit x then 0 else x) st.1,
   (st.2 + length (List.filter hit st.1))%nat).

Definition acl_segment (a : aspath) (acls : list (list regex)) (seg : assegment)
  : list assegment :=
  let '(l, nb_as_del) :=
    fold_left (fun st r => acl_pass a r st) (concat acls) (seg_as seg, 0%nat) in
  if (nb_as_del =? length (seg_as seg))%nat then []
  else if negb (nb_as_del =? 0)%nat
  then
    let kept := List.filter (fun x => negb (x =? 0)) l in
    let new_len := (length (seg_as seg) - nb_as_del)%nat in
    [mkSeg (seg_type seg) (kept ++ map uninit (seq (length kept) (new_len - length kept)))]
  else [mkSeg (seg_type seg) l].

(** [acls] is the list of lists from [acl_list] on. *)
Definition aspath_filter_exclude_acl (source : aspath) (acls : list (list regex))
  : outcome aspath :=
  refresh (set_segments (concat (map (acl_segment source acls) (segments source))) source).
End Regex.

(** ** Aggregation *)

(** The number of leading AS numbers two arrays share. *)
Fixpoint match_len (l1 l2 : list Z) : nat :=
  match l1, l2 with
  | x :: r1, y :: r2 => if x =? y then S (match_len r1 r2) else O
  | _, _ => O
  end.

(** The common leading sequence: the segments built, what is left of both
    chains, and [match], the part of the first of them that is shared. *)
Fixpoint common_lead (l1 l2 : list assegment)
  : list assegment * list assegment * list assegment * nat :=
  match l1, l2 with
  | s1 :: r1, s2 :: r2 =>
      if negb (seg_type s1 =? seg_type s2) then ([], l1, l2, O)
      else
        let m := match_len (seg_as s1) (seg_as s2) in
        let lead := if (m =? 0)%nat then []
                    else [assegment_append_asns (mkSeg (seg_type s1) []) (take m (seg_as s1))] in
        if (m =? length (seg_as s1))%nat && (length (seg_as s1) =? length (seg_as s2))%nat
        then let '(lead', r1', r2', m') := common_lead r1 r2 in (lead ++ lead', r1', r2', m')
        else (lead, l1, l2, m)
  | _, _ => ([], l1, l2, O)
  end.

Fixpoint add_set (t : Z) (l : list Z) (a : aspath) : outcome aspath :=
  match l with
  | [] => Ret a
  | x :: r => a ← aspath_add_asns_rightmost a x t; add_set t r a
  end.

(** One of the two loops that make sets of the rest; [from] counts for the
    first segment only. *)
Fixpoint add_rest (from : nat) (l : list assegment) (a : aspath) : outcome aspath :=
  match l with
  | [] => Ret a
  | seg :: r =>
      a ← add_set (if is_confed_type (seg_type seg) then AS_CONFED_SET else AS_SET)
            (drop from (seg_as seg)) a;
      add_rest 0 r a
  end.

Definition aspath_aggregate (as1 as2 : aspath) : outcome aspath :=
  let '(lead, r1, r2, m) := common_lead (segments as1) (segments as2) in
  let a := set_segments lead (aspath_new (asnotation as1)) in
  a ← add_rest m r1 a;
  a ← add_rest m r2 a;
  refresh (set_segments (assegment_normalise (segments a)) a).

(** ** AS4 reconciliation (RFC 6793) *)

(** The loop that copies the leading hops of AS_PATH. *)
Fixpoint copy_hops (l : list assegment) (hops cpasns : Z) : outcome (list assegment) :=
  match l with
  | [] => Ret []
  | seg :: r =>
      if hops <=? 0 then Ret []
      else
        let '(hops, cpasns) :=
          if is_set_type (seg_type seg) then (hops - 1, slen seg)
          else if seg_type seg =? AS_CONFED_SEQUENCE then
            let hops := if hops <? slen seg then slen seg else hops in
            (hops - slen seg, Z.min (slen seg) hops)
          else if seg_type seg =? AS_SEQUENCE then (hops - slen seg, Z.min (slen seg) hops)
          else (hops, cpasns) in
        assert! (cpasns <=? slen seg) ;;
        rest ← copy_hops r hops cpasns;
        Ret (assegment_append_asns (mkSeg (seg_type seg) []) (take (Z.to_nat cpasns) (seg_as seg))
             :: rest)
  end.

(** [hops] is computed in unsigned arithmetic and stored in an [int].  Without a
    segment to copy from, [newpath] is NULL and so is what [aspath_merge]
    returns. *)
Definition aspath_reconcile_as4 (a as4path : aspath) : outcome aspath :=
  let hops := s32 (u32 (aspath_count_hops a + aspath_count_confeds a) - aspath_count_hops as4path) in
  let hops := if hops <? 0 then s32 (aspath_count_hops a) else hops in
  if hops =? 0 then aspath_str_update (aspath_dup as4path)
  else
    l ← copy_hops (segments a) hops 0;
    match l with
    | [] => Abort
    | _ =>
        merged ← aspath_merge (set_segments l (aspath_new (asnotation a))) (aspath_dup as4path);
        refresh (set_segments (assegment_normalise (segments merged)) merged)
    end.
