(* ===== verification/AsPathWire.v ===== *)
(** * The wire form of AS paths (bgpd/bgp_aspath.c)

    Reading the segments of an AS_PATH attribute from a stream and writing them
    to one.  AS numbers take two or four octets; a number that does not fit two
    octets is written as AS_TRANS. *)

From S2P Require Import Prelude Stream AsPath.

(** ** Reading *)

Fixpoint get_asns (use32bit : bool) (n : nat) (s : stream) : outcome (list Z * stream) :=
  match n with
  | O => Ret ([], s)
  | S k =>
      '(x, s) ← (if use32bit then stream_getl s else stream_getw s);
      '(l, s) ← get_asns use32bit k s;
      Ret (x :: l, s)
  end.

Definition valid_type (t : Z) : bool :=
  (t =? AS_SEQUENCE) || (t =? AS_SET) || (t =? AS_CONFED_SEQUENCE) || (t =? AS_CONFED_SET).

(** The loop over the segments; [None] is the result -1.  A segment takes at
    least one octet, so [length] is enough fuel. *)
Fixpoint parse_loop (fuel : nat) (s : stream) (length bytes : Z) (use32bit : bool)
  : outcome (option (list assegment) * stream) :=
  if length <=? bytes then Ret (Some [], s)
  else
    match fuel with
    | O => Abort
    | S k =>
        if length - bytes <=? 2 then Ret (None, s)
        else
          '(type, s) ← stream_getc s;
          '(seglen, s) ← stream_getc s;
          let seg_size := ASSEGMENT_SIZE seglen use32bit in
          if (length <? bytes + seg_size) || (seglen =? 0) then Ret (None, s)
          else if negb (valid_type type) then Ret (None, s)
          else
            '(asns, s) ← get_asns use32bit (Z.to_nat seglen) s;
            '(rest, s) ← parse_loop k s length (bytes + seg_size) use32bit;
            Ret (match rest with
                 | Some l => Some (mkSeg type asns :: l)
                 | None => None
                 end, s)
    end.

Definition assegments_parse (s : stream) (length : Z) (use32bit : bool)
  : outcome (option (list assegment) * stream) :=
  if length =? 0 then Ret (Some [], s)
  else if (STREAM_READABLE s <? length) || (STREAM_READABLE s <? 2) || negb (length mod 2 =? 0)
  then Ret (None, s)
  else
    '(head, s) ← parse_loop (Z.to_nat length) s length 0 use32bit;
    Ret (match head with Some l => Some (assegment_normalise l) | None => None end, s).

(** ** Writing *)

Section Put.
Context (junk : nat -> Z).

Fixpoint put_asns (s : stream) (l : list Z) (use32bit : bool) : outcome stream :=
  match l with
  | [] => Ret s
  | x :: r =>
      '(_, s) ← (if use32bit then stream_putl junk s x
                 else if x <=? BGP_AS_MAX then stream_putw junk s x
                 else stream_putw junk s BGP_AS_TRANS);
      put_asns s r use32bit
  end.

Definition assegment_data_put (s : stream) (l : list Z) (use32bit : bool) : outcome stream :=
  assert! (Z.of_nat (length l) <=? AS_SEGMENT_MAX) ;;
  put_asns s l use32bit.

Definition assegment_header_put (s : stream) (type length : Z) : outcome (Z * stream) :=
  assert! (length <=? AS_SEGMENT_MAX) ;;
  '(_, s) ← stream_putc junk s type;
  lenp ← stream_get_endp s;
  '(_, s) ← stream_putc junk s length;
  Ret (lenp, s).

(** The loop that splits a segment of more than 255 AS numbers; [l] is what is
    left of the array, the result the part for the final header.  A round takes
    255 numbers, so the length of the array is enough fuel. *)
Fixpoint put_split (fuel : nat) (s : stream) (type : Z) (l : list Z) (bytes : Z) (use32bit : bool)
  : outcome (stream * list Z * Z) :=
  if AS_SEGMENT_MAX <? Z.of_nat (length l) then
    match fuel with
    | O => Abort
    | S k =>
        '(_, s) ← assegment_header_put s type AS_SEGMENT_MAX;
        s ← assegment_data_put s (take 255 l) use32bit;
        put_split k s type (drop 255 l) (bytes + ASSEGMENT_SIZE AS_SEGMENT_MAX use32bit) use32bit
    end
  else Ret (s, l, bytes).

(** The loop that packs the following sequences under the header at [lenp];
    [final] is [seg->length - written]. *)
Fixpoint put_packed (s : stream) (seg : assegment) (final lenp : Z) (next : list assegment)
    (asns_packed : Z) (use32bit : bool) : outcome (stream * list assegment * Z) :=
  match next with
  | nseg :: rest =>
      if ASSEGMENTS_PACKABLE seg nseg then
        s ← assegment_data_put s (seg_as nseg) use32bit;
        '(_, s) ← stream_putc_at s lenp (final + slen nseg);
        put_packed s seg final lenp rest (asns_packed + slen nseg) use32bit
      else Ret (s, next, asns_packed)
  | [] => Ret (s, [], asns_packed)
  end.

(** The loop over the segments, one round per segment at most. *)
Fixpoint put_loop (fuel : nat) (s : stream) (l : list assegment) (bytes : Z) (use32bit : bool)
  : outcome (Z * stream) :=
  match l with
  | [] => Ret (bytes, s)
  | seg :: next =>
      if ASSEGMENT_SIZE (slen seg) use32bit <=? STREAM_WRITEABLE s then
        match fuel with
        | O => Abort
        | S k =>
            '(s, final, bytes) ←
              put_split (length (seg_as seg)) s (seg_type seg) (seg_as seg) bytes use32bit;
            let flen := Z.of_nat (length final) in
            '(lenp, s) ← assegment_header_put s (seg_type seg) flen;
            s ← assegment_data_put s final use32bit;
            '(s, next, asns_packed) ← put_packed s seg flen lenp next 0 use32bit;
            put_loop k s next (bytes + ASSEGMENT_SIZE (flen + asns_packed) use32bit) use32bit
        end
      else Ret (bytes, s)
  end.

Definition aspath_put (s : stream) (a : aspath) (use32bit : bool) : outcome (Z * stream) :=
  match segments a with
  | [] => Ret (0, s)
  | seg :: _ =>
      if slen seg =? 0 then Ret (0, s)
      else put_loop (length (segments a)) s (segments a) 0 use32bit
  end.
End Put.
