(* ===== verification/AsPathTextFacts.v ===== *)
(** * The text of AS paths: facts

    The buffer in which a path is printed never overflows, so every operation
    that refreshes a path returns; and reading the text of a path gives the path
    back. *)

From S2P Require Import Prelude AsPath AsPathText AsPathOps.

(** ** The text of a path as a specification *)

Fixpoint join (sep : list Z) (l : list (list Z)) : list Z :=
  match l with
  | [] => []
  | [t] => t
  | t :: r => t ++ sep ++ join sep r
  end.

Definition seg_text (mode : asnotation_mode) (seg : assegment) : list Z :=
  let d e := if seg_type seg =? AS_SEQUENCE then []
             else [aspath_delimiter_char (seg_type seg) e] in
  d false ++ join [default 32 (separator (seg_type seg))] (map (ASN_FORMAT mode) (seg_as seg))
  ++ d true.

Definition text_of (mode : asnotation_mode) (l : list assegment) : list Z :=
  join [32] (map (seg_text mode) l).

Definition typed (seg : assegment) : Prop := is_Some (separator (seg_type seg)).
#[global] Instance typed_dec seg : Decision (typed seg).
Proof. unfold typed. apply _. Defined.

(** What refreshing leaves in a path. *)
Definition refreshed (a : aspath) : aspath :=
  let ok := bool_decide (Forall typed (segments a)) in
  mkAspath (refcnt a) (segments a)
    (if ok then Some (text_of (asnotation a) (segments a)) else None)
    (if ok then u16 (Z.of_nat (length (text_of (asnotation a) (segments a)))) else 0)
    (aspath_count_hops_internal (segments a)) (asnotation a).

(** ** Lengths *)

Lemma print_digits_length fuel : forall n k,
  0 <= n < 10 ^ Z.of_nat (S k) -> (length (print_digits fuel n) <= S k)%nat.
Proof.
  induction fuel as [|fuel IH]; intros n k Hn; cbn [print_digits]; [simpl; lia|].
  rewrite length_app. simpl length. case_bool; [simpl; lia|].
  destruct k as [|k]; [simpl in Hn; lia|].
  specialize (IH (n / 10) k). rewrite Nat2Z.inj_succ, Z.pow_succ_r in Hn by lia.
  assert (0 <= n / 10 < 10 ^ Z.of_nat (S k)).
  { split; [apply Z.div_pos; lia|apply Z.div_lt_upper_bound; lia]. }
  specialize (IH H). lia.
Qed.

Lemma print_digits_fuel fuel : forall n, (length (print_digits fuel n) <= fuel)%nat.
Proof.
  induction fuel as [|fuel IH]; intros n; cbn [print_digits]; [done|].
  rewrite length_app. simpl length. case_bool; [simpl; lia|].
  specialize (IH (n / 10)). lia.
Qed.

Lemma print_u16_length n : 0 <= n < 65536 -> (length (print_u n) <= 5)%nat.
Proof. intros Hn. apply print_digits_length. simpl. lia. Qed.

Lemma land_u16 n : 0 <= Z.land n 0xffff < 65536.
Proof. change 0xffff with (Z.ones 16). rewrite Z.land_ones by lia. apply Z.mod_pos_bound. lia. Qed.

Lemma asn_text_length mode x : (length (ASN_FORMAT mode x) <= 11)%nat.
Proof.
  assert (length (print_u x) <= 10)%nat by apply print_digits_fuel.
  assert (length (asn_asn2asdot x) <= 11)%nat.
  { unfold asn_asn2asdot. rewrite !length_app. simpl length.
    pose proof (print_u16_length _ (land_u16 (Z.shiftr x 16))).
    pose proof (print_u16_length _ (land_u16 x)). lia. }
  unfold ASN_FORMAT, asn_asn2string. destruct mode; try case_bool; lia.
Qed.

(** ** The buffer *)

(** A buffer holds its text and has room for the NUL. *)
Record buf_ok (b : strbuf) (t : list Z) : Prop := {
  bo_text : str_buf b = t;
  bo_len : len b = Z.of_nat (length t);
  bo_room : len b < str_size b
}.

Lemma snprintf_ok b t x :
  buf_ok b t -> len b + Z.of_nat (length x) < str_size b ->
  buf_ok (snprintf_at b x) (t ++ x) /\ str_size (snprintf_at b x) = str_size b.
Proof.
  intros [Ht Hl Hr] Hx. split; [|done]. split; simpl.
  - rewrite Ht, take_ge by lia. done.
  - rewrite length_app. lia.
  - done.
Qed.

Lemma put_asns_ok mode sep l : forall b t,
  buf_ok b t -> len b + 12 * Z.of_nat (length l) < str_size b ->
  buf_ok (put_asn_texts mode sep l b) (t ++ join [sep] (map (ASN_FORMAT mode) l))
  /\ str_size (put_asn_texts mode sep l b) = str_size b
  /\ len (put_asn_texts mode sep l b) <= len b + 12 * Z.of_nat (length l).
Proof.
  induction l as [|x r IH]; intros b t B Hl; cbn [put_asn_texts map].
  { simpl. rewrite app_nil_r. split_and!; [done|done|lia]. }
  pose proof (asn_text_length mode x) as Lx. simpl length in Hl.
  destruct (snprintf_ok b t (ASN_FORMAT mode x) B ltac:(lia)) as [B1 S1].
  destruct r as [|y r']; [simpl; split_and!; [done|done|simpl; lia]|].
  destruct (snprintf_ok _ _ [sep] B1) as [B2 S2]; [rewrite S1; simpl; lia|].
  destruct (IH _ _ B2) as (B3 & S3 & L3); [rewrite S2, S1; simpl in *; lia|].
  split_and!.
  - cbn [join map] in *. rewrite <- !app_assoc in B3. exact B3.
  - by rewrite S3, S2.
  - etrans; [exact L3|]. simpl in *. lia.
Qed.

(** The room that was made for a segment is enough for its text. *)
Lemma seg_text_length mode seg : Z.of_nat (length (seg_text mode seg)) + 1 < SEGMENT_STR_LEN seg.
Proof.
  unfold seg_text, SEGMENT_STR_LEN, slen, ASN_STR_LEN.
  assert (forall sep l, Z.of_nat (length (join [sep] (map (ASN_FORMAT mode) l)))
                        <= 12 * Z.of_nat (length l)) as J.
  { intros sep l. induction l as [|x r IH]; [done|]. cbn [map join].
    pose proof (asn_text_length mode x). destruct r; [simpl; lia|].
    cbn [map] in *. rewrite !length_app. simpl length in *. lia. }
  specialize (J (default 32 (separator (seg_type seg))) (seg_as seg)).
  rewrite !length_app. case_bool; simpl length; [|lia].
  destruct (seg_as seg) as [|x r]; simpl length in *; lia.
Qed.

Lemma when_ok (c : bool) b t x :
  buf_ok b t -> len b + 1 < str_size b ->
  let b' := if c then b else snprintf_at b [x] in
  buf_ok b' (t ++ if c then [] else [x]) /\ str_size b' = str_size b /\ len b' <= len b + 1.
Proof.
  intros B H. destruct c; simpl.
  - rewrite app_nil_r. split_and!; [done|done|lia].
  - destruct (snprintf_ok b t [x] B) as [B1 S1]; [simpl; lia|]. split_and!; [done|done|lia].
Qed.

Lemma make_str_loop_ok mode l : forall b t,
  buf_ok b t -> Forall typed l ->
  exists b', make_str_loop mode l b = Some b' /\ buf_ok b' (t ++ text_of mode l).
Proof.
  induction l as [|seg rest IH]; intros b t B T; cbn [make_str_loop].
  { exists b. unfold text_of. simpl. by rewrite app_nil_r. }
  apply Forall_cons_1 in T as [[sep Hsep] T]. rewrite Hsep.
  set (b0 := if _ <? _ then _ else b).
  assert (buf_ok b0 t /\ len b0 + SEGMENT_STR_LEN seg <= str_size b0) as [B0 H0].
  { unfold b0. unfold SEGMENT_STR_LEN, slen, ASN_STR_LEN. destruct B as [? ? ?].
    case_bool; simpl; (split; [split; simpl; lia || done|lia]). }
  clearbody b0. unfold SEGMENT_STR_LEN, ASN_STR_LEN, slen in H0.
  set (cs := seg_type seg =? AS_SEQUENCE) in *.
  destruct (when_ok cs b0 t (aspath_delimiter_char (seg_type seg) false) B0 ltac:(lia))
    as (B1 & S1 & L1).
  destruct (put_asns_ok mode sep (seg_as seg) _ _ B1 ltac:(lia)) as (B2 & S2 & L2).
  destruct (when_ok cs _ _ (aspath_delimiter_char (seg_type seg) true) B2 ltac:(lia))
    as (B3 & S3 & L3).
  assert (t ++ seg_text mode seg = ((t ++ (if cs then [] else [aspath_delimiter_char (seg_type seg) false]))
     ++ join [sep] (map (ASN_FORMAT mode) (seg_as seg)))
     ++ (if cs then [] else [aspath_delimiter_char (seg_type seg) true])) as Et.
  { unfold seg_text. rewrite Hsep. fold cs. simpl. by rewrite <- !app_assoc. }
  rewrite <- Et in B3. destruct rest as [|seg2 rest].
  - simpl. eexists. by split.
  - destruct (snprintf_ok _ _ [32] B3) as [B4 S4]; [simpl; lia|].
    destruct (IH _ _ B4 T) as (b' & E' & B'). exists b'. split; [exact E'|].
    unfold text_of in *. cbn [map join] in *. by rewrite <- !app_assoc in B'.
Qed.

Lemma make_str_loop_bad mode l : forall b, ~ Forall typed l -> make_str_loop mode l b = None.
Proof.
  induction l as [|seg rest IH]; intros b T; cbn [make_str_loop]; [by destruct T|].
  destruct (separator (seg_type seg)) as [sep|] eqn:E; [|done].
  apply IH. intros T'. apply T. constructor; [by eexists|done].
Qed.

Lemma make_str_spec a :
  aspath_make_str_count a
  = Ret (set_str (str (refreshed a)) (str_len (refreshed a)) a).
Proof.
  unfold aspath_make_str_count, refreshed. cbn [str str_len].
  destruct (segments a) as [|seg rest] eqn:E.
  { rewrite bool_decide_eq_true_2 by constructor. done. }
  set (b0 := mkBuf _ 0 []). assert (buf_ok b0 []) as B0.
  { split; simpl; try done. unfold ASPATH_STR_DEFAULT_LEN. lia. }
  case_bool_decide as T.
  - destruct (make_str_loop_ok (asnotation a) (seg :: rest) b0 [] B0 T) as (b & -> & [Bt Bl Br]).
    rewrite (proj2 (Z.ltb_lt _ _)) by done. by rewrite Bt, Bl.
  - by rewrite make_str_loop_bad.
Qed.

(** Refreshing a path always returns. *)
Lemma refresh_spec a : refresh a = Ret (refreshed a).
Proof. unfold refresh, aspath_str_update. rewrite make_str_spec. done. Qed.

(** ** Reading numbers back *)

Lemma isdigit_mod n : isdigit (48 + n mod 10) = true.
Proof.
  pose proof (Z.mod_pos_bound n 10 ltac:(lia)). unfold isdigit.
  rewrite !(proj2 (Z.leb_le _ _)) by lia. done.
Qed.

Lemma digits_loop_print max fuel : forall n acc r,
  0 <= acc -> 0 <= n < 10 ^ Z.of_nat fuel ->
  acc * 10 ^ Z.of_nat (length (print_digits fuel n)) + n <= max ->
  digits_loop max acc (print_digits fuel n ++ r)
  = digits_loop max (acc * 10 ^ Z.of_nat (length (print_digits fuel n)) + n) r.
Proof.
  induction fuel as [|fuel IH]; intros n acc r Ha Hn Hm.
  { simpl in *. f_equal. lia. }
  cbn [print_digits] in *. rewrite length_app, Nat2Z.inj_add in *. simpl (length [_]) in *.
  change (Z.of_nat 1) with 1 in *. rewrite Z.pow_add_r, Z.pow_1_r in * by lia.
  pose proof (Z.div_mod n 10 ltac:(lia)). pose proof (Z.mod_pos_bound n 10 ltac:(lia)).
  assert (forall acc', 0 <= acc' -> acc' * 10 + n mod 10 <= max ->
    digits_loop max acc' ([48 + n mod 10] ++ r) = digits_loop max (acc' * 10 + n mod 10) r) as Last.
  { intros acc' Ha' Hm'. cbn [app digits_loop]. rewrite isdigit_mod.
    replace (acc' * 10 + (48 + n mod 10 - 48)) with (acc' * 10 + n mod 10) by lia.
    by rewrite (proj2 (Z.ltb_ge _ _)) by lia. }
  rewrite <- app_assoc. destruct (n <? 10) eqn:E; bool_to_prop.
  - rewrite Z.mod_small in * by lia. simpl in *. rewrite Last by lia. f_equal; lia.
  - rewrite Nat2Z.inj_succ, Z.pow_succ_r in Hn by lia.
    assert (0 <= 10 ^ Z.of_nat (length (print_digits fuel (n / 10)))) by (apply Z.pow_nonneg; lia).
    rewrite IH; [|done| |nia].
    + rewrite Last by nia. f_equal. nia.
    + split; [apply Z.div_pos; lia|apply Z.div_lt_upper_bound; lia].
Qed.

Lemma print_digits_head fuel : forall n, 0 <= n < 10 ^ Z.of_nat (S fuel) ->
  exists c r, print_digits (S fuel) n = c :: r /\ isdigit c = true
    /\ (c = 48 -> n = 0 /\ r = []).
Proof.
  induction fuel as [|fuel IH]; intros n Hn; cbn [print_digits] in *.
  - assert (n < 10) by (simpl in Hn; lia). rewrite (proj2 (Z.ltb_lt _ _)) by lia.
    eexists _, _. split; [done|]. split; [apply isdigit_mod|].
    rewrite Z.mod_small by lia. intros. split; [lia|done].
  - case_bool.
    + eexists _, _. split; [done|]. split; [apply isdigit_mod|].
      rewrite Z.mod_small by lia. intros. split; [lia|done].
    + rewrite Nat2Z.inj_succ, Z.pow_succ_r in Hn by lia.
      destruct (IH (n / 10)) as (c & r & E & Hd & Hz).
      { split; [apply Z.div_pos; lia|apply Z.div_lt_upper_bound; lia]. }
      cbn [print_digits] in E. rewrite E. eexists _, _. split; [done|]. split; [done|].
      intros ->. destruct (Hz eq_refl) as [Hz0 _].
      pose proof (Z.div_str_pos n 10 ltac:(lia)). lia.
Qed.

(** A text that ends a number. *)
Definition ends_number (r : list Z) : Prop := starts_digit r = false.
Definition ends_asn (r : list Z) : Prop := starts_digit r = false /\ starts_with 46 r = false.

Lemma digits_loop_end max acc r : ends_number r -> digits_loop max acc r = (Some acc, r).
Proof. destruct r as [|c r]; [done|]. unfold ends_number. cbn [starts_digit digits_loop]. by intros ->. Qed.

Lemma digits_loop_u max n r :
  0 <= n < 10 ^ 10 -> n <= max -> ends_number r ->
  digits_loop max 0 (print_u n ++ r) = (Some n, r).
Proof.
  intros Hn Hm Hr. unfold print_u. rewrite digits_loop_print; [|lia|done|].
  - rewrite Z.mul_0_l, Z.add_0_l. by apply digits_loop_end.
  - rewrite Z.mul_0_l. lia.
Qed.

(** No leading zero is printed. *)
Lemma print_u_start n r :
  0 <= n < 10 ^ 10 -> ends_number r ->
  starts_digit (print_u n ++ r) = true
  /\ starts_with 48 (print_u n ++ r) && starts_digit (drop 1 (print_u n ++ r)) = false.
Proof.
  intros Hn Hr. destruct (print_digits_head 9 n Hn) as (c & t & E & Hd & Hz).
  unfold print_u. rewrite E. simpl. split; [done|].
  destruct (Z.eqb_spec c 48) as [->|]; [|done]. destruct (Hz eq_refl) as [_ ->].
  simpl. by rewrite drop_0.
Qed.

Lemma u32_digits x : 0 <= x < 4294967296 -> 0 <= x < 10 ^ 10.
Proof. intros. change (10 ^ 10) with 10000000000. lia. Qed.

Lemma asdot_parts x :
  0 <= x < 4294967296 ->
  Z.land (Z.shiftr x 16) 0xffff = x / 65536 /\ Z.land x 0xffff = x mod 65536
  /\ u32 (u32 (Z.shiftl (x / 65536) 16) + x mod 65536) = x
  /\ 0 <= x / 65536 < 65536 /\ 0 <= x mod 65536 < 65536.
Proof.
  intros Hx. change 0xffff with (Z.ones 16). rewrite !Z.land_ones by lia.
  change (2 ^ 16) with 65536. rewrite Z.shiftr_div_pow2, Z.shiftl_mul_pow2 by lia.
  change (2 ^ 16) with 65536.
  pose proof (Z.div_mod x 65536 ltac:(lia)). pose proof (Z.mod_pos_bound x 65536 ltac:(lia)).
  assert (0 <= x / 65536 < 65536).
  { split; [apply Z.div_pos; lia|apply Z.div_lt_upper_bound; lia]. }
  rewrite (Z.mod_small (x / 65536)) by lia. rewrite (u32_small (x / 65536 * 65536)), u32_small by lia. split_and!; lia.
Qed.

Lemma asn_parse_print relax mode x r :
  0 < x < 4294967296 -> ends_asn r ->
  asn_str2asn_parse relax (ASN_FORMAT mode x ++ r) = (r, Some x, true).
Proof.
  intros Hx [Hr Hdot]. pose proof (u32_digits x ltac:(lia)) as Hx10.
  assert (asn_str2asn_parse relax (print_u x ++ r) = (r, Some x, true)) as Plain.
  { unfold asn_str2asn_parse, asn_str2asn_internal.
    destruct (print_u_start x r Hx10 Hr) as [-> ->]. simpl.
    rewrite digits_loop_u by (done || lia). rewrite Hdot.
    rewrite (proj2 (Z.eqb_neq x 0)) by lia. by rewrite andb_false_r. }
  assert (asn_str2asn_parse relax (asn_asn2asdot x ++ r) = (r, Some x, true)) as Dot.
  { unfold asn_asn2asdot, asn_str2asn_parse, asn_str2asn_internal.
    destruct (asdot_parts x ltac:(lia)) as (-> & -> & Ex & Hh & Hl).
    set (h := x / 65536) in *. set (l := x mod 65536) in *. rewrite <- !app_assoc.
    destruct (print_u_start h ([46] ++ print_u l ++ r)) as [-> ->]; [lia|done|]. simpl negb.
    cbn match. rewrite digits_loop_u by (done || lia). cbn [app starts_with].
    rewrite Z.eqb_refl. cbn [drop]. rewrite drop_0.
    destruct (print_u_start l r) as [Hs ->]; [lia|done|].
    assert (match print_u l ++ r with [] => false | _ => false end = false) as ->
      by (by destruct (print_u l ++ r)).
    rewrite digits_loop_u by (done || lia). simpl.
    rewrite (proj2 (Z.ltb_ge _ _)) by lia.
    assert ((negb relax && (h =? 0)) && (l =? 0) = false) as ->.
    { destruct (Z.eqb_spec h 0), (Z.eqb_spec l 0); rewrite ?andb_false_r; try done.
      exfalso. assert (x = 65536 * h + l) by (apply Z.div_mod; lia). lia. }
    by rewrite Ex. }
  unfold ASN_FORMAT, asn_asn2string. destruct mode; try done. by case_bool.
Qed.

Lemma asn_text_head mode x r :
  0 <= x < 4294967296 -> ends_number r ->
  exists c t, ASN_FORMAT mode x ++ r = c :: t /\ isdigit c = true.
Proof.
  intros Hx Hr. assert (forall n r', 0 <= n < 10 ^ 10 -> exists c t, print_u n ++ r' = c :: t /\ isdigit c = true) as P.
  { intros n r' Hn. destruct (print_digits_head 9 n Hn) as (c & t & E & Hd & _).
    unfold print_u. rewrite E. eexists _, _. by split. }
  assert (exists c t, asn_asn2asdot x ++ r = c :: t /\ isdigit c = true).
  { unfold asn_asn2asdot. rewrite <- app_assoc. apply P.
    pose proof (land_u16 (Z.shiftr x 16)). change (10 ^ 10) with 10000000000. lia. }
  pose proof (P x r (u32_digits x Hx)).
  unfold ASN_FORMAT, asn_asn2string. destruct mode; try done. by case_bool.
Qed.

Lemma gettoken_asn relax mode x r :
  0 < x < 4294967296 -> ends_asn r ->
  aspath_gettoken relax (ASN_FORMAT mode x ++ r) = Some (as_token_asval x, r).
Proof.
  intros Hx Hr. destruct (asn_text_head mode x r ltac:(lia) (proj1 Hr)) as (c & t & E & Hd).
  pose proof (asn_parse_print relax mode x r Hx Hr) as P. rewrite E in *.
  unfold aspath_gettoken, isdigit in *. bool_to_prop. cbn [skip_separators].
  assert (isspace c || (c =? 44) = false) as ->.
  { unfold isspace. rewrite !(proj2 (Z.eqb_neq _ _)), (proj2 (Z.leb_gt c 13)) by lia.
    by rewrite andb_false_r. }
  unfold char_token. rewrite !(proj2 (Z.eqb_neq _ _)) by lia. by rewrite P.
Qed.

Lemma asn_text_nonempty mode x r :
  0 < x < 4294967296 -> ends_number r -> (length r < length (ASN_FORMAT mode x ++ r))%nat.
Proof.
  intros Hx Hr. rewrite length_app. enough (ASN_FORMAT mode x <> []).
  { destruct (ASN_FORMAT mode x); [done|simpl; lia]. }
  intros E. destruct (asn_text_head mode x [] ltac:(lia) eq_refl) as (c & t & E' & _).
  by rewrite E in E'.
Qed.

(** ** Reading paths back *)

Lemma at_last_app f l seg : at_last f (l ++ [seg]) = l ++ f seg.
Proof.
  induction l as [|x r IH]; [done|]. cbn [app at_last].
  destruct (r ++ [seg]) eqn:E; [by destruct r|]. by rewrite IH.
Qed.

Lemma fit16_id l : Z.of_nat (length l) <= 65535 -> fit16 l = l.
Proof. intros H. unfold fit16. rewrite u16_small by lia. apply take_ge. lia. Qed.

Section Reading.
Context (relax : bool) (mode : asnotation_mode).

Definition path_of (l : list assegment) : aspath := set_segments l (aspath_new mode).

(** The loop returns [r] from here, whatever the fuel. *)
Definition accepts (p : list Z) (a : aspath) (as_type : Z) (needtype : bool) (r : aspath) : Prop :=
  forall fuel, (length p <= fuel)%nat -> str2aspath_loop relax fuel p a as_type needtype = Some r.

Lemma as_add_last l t pre x :
  Z.of_nat (length pre) < 65535 ->
  aspath_as_add (path_of (l ++ [mkSeg t pre])) x = path_of (l ++ [mkSeg t (pre ++ [x])]).
Proof.
  intros H. unfold aspath_as_add, path_of, set_segments. cbn [segments].
  rewrite at_last_app. unfold assegment_append_asns. cbn [seg_type seg_as].
  by rewrite fit16_id by (rewrite length_app; simpl; lia).
Qed.

Lemma segment_add_last l t : aspath_segment_add (path_of l) t = path_of (l ++ [mkSeg t []]).
Proof.
  unfold aspath_segment_add, path_of, set_segments. cbn [segments].
  destruct l as [|x r] using rev_ind; [done|]. clear IHr.
  destruct (r ++ [x]) eqn:E; [by destruct r|]. rewrite <- E, at_last_app, <- app_assoc. done.
Qed.

Lemma accepts_end a ty need : accepts [] a ty need a.
Proof. intros fuel _. by destruct fuel. Qed.

Lemma accepts_sep c p a ty need r :
  c = 32 \/ c = 44 -> accepts p a ty need r -> accepts (c :: p) a ty need r.
Proof.
  intros Hc H fuel Hf. specialize (H fuel ltac:(simpl in Hf; lia)).
  assert (aspath_gettoken relax (c :: p) = aspath_gettoken relax p) as E by (by destruct Hc as [-> | ->]).
  destruct fuel; cbn [str2aspath_loop] in *; by rewrite E.
Qed.

Lemma accepts_open t p a ty need r :
  t = AS_SET \/ t = AS_CONFED_SEQUENCE \/ t = AS_CONFED_SET ->
  accepts p (aspath_segment_add a t) t false r ->
  accepts (aspath_delimiter_char t false :: p) a ty need r.
Proof.
  intros Ht H [|fuel] Hf; [simpl in Hf; lia|]. specialize (H fuel ltac:(simpl in Hf; lia)).
  destruct Ht as [-> |[-> | ->]]; exact H.
Qed.

Lemma accepts_close t p a ty need r :
  t = AS_SET \/ t = AS_CONFED_SEQUENCE \/ t = AS_CONFED_SET ->
  accepts p a AS_SEQUENCE true r ->
  accepts (aspath_delimiter_char t true :: p) a ty need r.
Proof.
  intros Ht H [|fuel] Hf; [simpl in Hf; lia|]. specialize (H fuel ltac:(simpl in Hf; lia)).
  destruct Ht as [-> |[-> | ->]]; exact H.
Qed.

Lemma accepts_asn x p l t pre ty r :
  0 < x < 4294967296 -> ends_asn p -> Z.of_nat (length pre) < 65535 ->
  accepts p (path_of (l ++ [mkSeg t (pre ++ [x])])) ty false r ->
  accepts (ASN_FORMAT mode x ++ p) (path_of (l ++ [mkSeg t pre])) ty false r.
Proof.
  intros Hx Hp Hl H fuel Hf. pose proof (asn_text_nonempty mode x p Hx (proj1 Hp)).
  destruct fuel as [|fuel]; [lia|]. cbn [str2aspath_loop].
  rewrite gettoken_asn by done. rewrite as_add_last by done. apply H. lia.
Qed.

(** A sequence opens with its first AS number. *)
Lemma accepts_seq x p l ty r :
  0 < x < 4294967296 -> ends_asn p ->
  accepts (ASN_FORMAT mode x ++ p) (path_of (l ++ [mkSeg ty []])) ty false r ->
  accepts (ASN_FORMAT mode x ++ p) (path_of l) ty true r.
Proof.
  intros Hx Hp H fuel Hf. specialize (H fuel Hf). destruct fuel; cbn [str2aspath_loop] in *.
  - by rewrite gettoken_asn in * by done.
  - rewrite gettoken_asn in * by done. by rewrite segment_add_last.
Qed.

Definition asn_ok (x : Z) : Prop := 0 < x < 4294967296.

Lemma accepts_asns sep xs : forall p l t pre ty r,
  sep = 32 \/ sep = 44 -> Forall asn_ok xs -> ends_asn p -> Z.of_nat (length pre) + Z.of_nat (length xs) <= 65535 ->
  accepts p (path_of (l ++ [mkSeg t (pre ++ xs)])) ty false r ->
  accepts (join [sep] (map (ASN_FORMAT mode) xs) ++ p) (path_of (l ++ [mkSeg t pre])) ty false r.
Proof.
  induction xs as [|x xs IH]; intros p l t pre ty r Hs Hx Hp Hl H.
  { simpl. by rewrite app_nil_r in H. }
  apply Forall_cons_1 in Hx as [Hx Hxs]. simpl in Hl.
  destruct xs as [|y xs]; [apply accepts_asn; done || lia|].
  cbn [map join]. rewrite <- !app_assoc. apply accepts_asn; [done| |lia|].
  - destruct Hs as [-> | ->]; done.
  - apply accepts_sep; [done|]. apply (IH p l t (pre ++ [x])); try done.
    + rewrite length_app. simpl in *. lia.
    + by rewrite <- app_assoc.
Qed.
End Reading.

(** A path that can be told from its text: AS numbers are not 0, no segment is
    empty, and no two sequences follow each other. *)
Record seg_printable (seg : assegment) : Prop := {
  sp_type : typed seg;
  sp_asns : Forall asn_ok (seg_as seg);
  sp_some : seg_as seg <> [];
  sp_len : slen seg <= 65535
}.
Definition not_both_seq (x y : assegment) : Prop := ASSEGMENT_TYPES_PACKABLE x y = false.

Fixpoint no_seq_run (l : list assegment) : Prop :=
  match l with
  | x :: (y :: _) as r => not_both_seq x y /\ no_seq_run r
  | _ => True
  end.

Definition printable (l : list assegment) : Prop := Forall seg_printable l /\ no_seq_run l.

Lemma typed_cases seg :
  typed seg -> seg_type seg = AS_SEQUENCE
  \/ (seg_type seg = AS_SET \/ seg_type seg = AS_CONFED_SEQUENCE \/ seg_type seg = AS_CONFED_SET).
Proof.
  intros [sep H]. unfold separator, is_set_type in H. repeat case_bool; try done; lia.
Qed.

Lemma separator_char seg : default 32 (separator (seg_type seg)) = 32 \/ default 32 (separator (seg_type seg)) = 44.
Proof. unfold separator. repeat case_bool; simpl; auto. Qed.

Section PathReading.
Context (relax : bool) (mode : asnotation_mode).

(** One segment: a sequence leaves the loop inside of it, the other types leave
    it before the next segment. *)
Lemma accepts_segment seg p l ty need r :
  seg_printable seg -> ends_asn p ->
  (seg_type seg = AS_SEQUENCE -> need = true /\ ty = AS_SEQUENCE) ->
  accepts relax p (path_of mode (l ++ [seg])) AS_SEQUENCE
    (negb (seg_type seg =? AS_SEQUENCE)) r ->
  accepts relax (seg_text mode seg ++ p) (path_of mode l) ty need r.
Proof.
  intros [Ht Hx Hne Hl] Hp Hn H. unfold seg_text. pose proof (separator_char seg) as Hs.
  set (sep := default 32 _) in *. unfold slen in Hl. clearbody sep.
  destruct seg as [t xs]. cbn [seg_type seg_as] in *.
  destruct (typed_cases _ Ht) as [E|E]; cbn [seg_type] in E.
  - destruct (Hn E) as [-> ->]. rewrite E, Z.eqb_refl in *. cbn [negb] in H.
    rewrite app_nil_l, app_nil_r. destruct xs as [|x xs]; [done|].
    assert (accepts relax (join [sep] (map (ASN_FORMAT mode) (x :: xs)) ++ p)
      (path_of mode (l ++ [mkSeg AS_SEQUENCE []])) AS_SEQUENCE false r) as A.
    { by apply accepts_asns. }
    apply Forall_cons_1 in Hx as [Hx _]. cbn [map join] in *.
    destruct (map (ASN_FORMAT mode) xs); [by apply accepts_seq|].
    rewrite <- !app_assoc in *. apply accepts_seq; [done| |done].
    destruct Hs as [-> | ->]; done.
  - assert ((t =? AS_SEQUENCE) = false) as Eb by (destruct E as [-> |[-> | ->]]; done).
    rewrite Eb in *. cbn [negb] in H. rewrite <- !app_assoc. simpl app.
    apply accepts_open; [done|]. rewrite segment_add_last.
    apply accepts_asns; [done|done| |done|by apply accepts_close].
    destruct E as [-> |[-> | ->]]; done.
Qed.

Lemma accepts_path l : forall base ty need,
  printable l ->
  (forall seg rest, l = seg :: rest -> seg_type seg = AS_SEQUENCE -> need = true /\ ty = AS_SEQUENCE) ->
  accepts relax (text_of mode l) (path_of mode base) ty need (path_of mode (base ++ l)).
Proof.
  induction l as [|seg rest IH]; intros base ty need [Hp Hr] Hn.
  { rewrite app_nil_r. apply accepts_end. }
  apply Forall_cons_1 in Hp as [Hp Hps]. specialize (Hn seg rest eq_refl).
  unfold text_of. cbn [map join]. destruct rest as [|seg2 rest].
  - rewrite <- (app_nil_r (seg_text mode seg)). cbn [map].
    apply accepts_segment; try done. apply accepts_end.
  - cbn [map]. apply accepts_segment; try done. apply accepts_sep; [by left|].
    destruct Hr as [Hb Hr]. unfold text_of in IH. cbn [map] in IH.
    replace (base ++ seg :: seg2 :: rest) with ((base ++ [seg]) ++ seg2 :: rest)
      by (by rewrite <- app_assoc).
    apply IH; [done|]. intros seg3 r3 [= <- <-] E2. split; [|done].
    unfold not_both_seq, ASSEGMENT_TYPES_PACKABLE in Hb. rewrite E2 in Hb.
    destruct (seg_type seg =? AS_SEQUENCE); [done|done].
Qed.

End PathReading.

Lemma printable_typed l : printable l -> Forall typed l.
Proof. intros [H _]. revert H. apply Forall_impl. by intros seg []. Qed.

(** C27: a path without adjacent sequences, whose segments are of known types, with between 1
    and 65535 AS numbers other than 0, is printed within its buffer, and reading the
    text back gives a path with the same segments, notation and text; but its hop
    count is 0, whatever its segments are. *)
Theorem aspath_text_roundtrip relax a :
  printable (segments a) ->
  exists a' s b, aspath_make_str_count a = Ret a' /\ str a' = Some s
    /\ aspath_str2aspath relax s (asnotation a) = Ret (Some b)
    /\ segments b = segments a /\ asnotation b = asnotation a /\ str b = Some s
    /\ count b = 0.
Proof.
  intros Hp. pose proof (printable_typed _ Hp) as Ht. set (mode := asnotation a).
  eexists _, (text_of mode (segments a)), (set_str _ _ (path_of mode (segments a))).
  split; [apply make_str_spec|]. split.
  { unfold refreshed. simpl. by rewrite bool_decide_eq_true_2. }
  unfold aspath_str2aspath.
  pose proof (accepts_path relax mode (segments a) [] AS_SEQUENCE true Hp ltac:(done) _ (le_n _)) as E.
  change (path_of mode []) with (aspath_new mode) in E. rewrite E. simpl.
  rewrite make_str_spec. split; [done|]. split_and!; try done.
  unfold refreshed. simpl. by rewrite bool_decide_eq_true_2.
Qed.

Lemma aspath_text_roundtrip_witness :
  let a := mkAspath 1 [mkSeg AS_CONFED_SEQUENCE [65001]; mkSeg AS_SEQUENCE [1; 70000];
                       mkSeg AS_SET [7; 65535]] None 0 3 ASNOTATION_DOT in
  exists s b, aspath_str2aspath false s ASNOTATION_DOT = Ret (Some b)
    /\ segments b = segments a /\ s = [40;54;53;48;48;49;41;32;49;32;49;46;52;52;54;52;32;123;55;44;48;46;54;53;53;51;53;125].
Proof.
  intros a. assert (printable (segments a)) as Hp.
  { split; [|done]. repeat constructor; try done; try (by eexists); lia. }
  destruct (aspath_text_roundtrip false a Hp) as (a' & s & b & E & Es & Eb & Eseg & _).
  exists s, b. split; [exact Eb|]. split; [exact Eseg|].
  vm_compute in E. injection E as <-. by injection Es as <-.
Defined.
