(* ===== verification/AsPathFacts.v ===== *)
(** * AS paths: facts

    The meaning of a chain of segments is a list of hops ([hops_of]): every AS
    number of a sequence is a hop, a set is one, a confederation sequence is
    one group.  Normalising computes a canonical form for it, and the operations
    that join paths act on it by concatenation. *)

From stdpp Require Import sorting gmap.
From S2P Require Import Prelude AsPath AsPathText AsPathOps AsPathTextFacts.

(** ** The meaning of a path *)

Inductive hop :=
| Hop (x : Z)
| Group (t : Z) (l : list Z)
| SetOf (t : Z) (s : gset Z).

Definition seg_hops (seg : assegment) : list hop :=
  if seg_type seg =? AS_SEQUENCE then map Hop (seg_as seg)
  else if is_set_type (seg_type seg) then [SetOf (seg_type seg) (list_to_set (seg_as seg))]
  else [Group (seg_type seg) (seg_as seg)].

Definition hops_of (l : list assegment) : list hop := concat (map seg_hops l).

(** The AS numbers of a path. *)
Definition asns (l : list assegment) : list Z := concat (map seg_as l).

Lemma hops_of_app l1 l2 : hops_of (l1 ++ l2) = hops_of l1 ++ hops_of l2.
Proof. unfold hops_of. by rewrite map_app, concat_app. Qed.

Lemma hops_of_cons seg l : hops_of (seg :: l) = seg_hops seg ++ hops_of l.
Proof. done. Qed.

Lemma asns_app l1 l2 : asns (l1 ++ l2) = asns l1 ++ asns l2.
Proof. unfold asns. by rewrite map_app, concat_app. Qed.

Lemma asns_length l : Z.of_nat (length (asns l)) = assegment_count_asns l.
Proof.
  induction l as [|seg l IH]; [done|]. unfold asns, slen in *. simpl.
  rewrite length_app. unfold slen. lia.
Qed.

(** ** Sorting and weeding a set *)

Lemma weed_elem last l x : In x (last :: weed last l) <-> In x (last :: l).
Proof.
  revert last. induction l as [|y l IH]; intros last; [done|]. cbn [weed].
  destruct (Z.eqb_spec last y) as [->|].
  - rewrite IH. simpl. tauto.
  - simpl. specialize (IH y). simpl in IH. tauto.
Qed.

Lemma weed_sorted last l :
  StronglySorted Z.le (last :: l) -> StronglySorted Z.lt (last :: weed last l).
Proof.
  revert last. induction l as [|y l IH]; intros last H; [repeat constructor|]. cbn [weed].
  apply StronglySorted_inv in H as [H Hall]. apply Forall_cons_1 in Hall as [Hy Hall].
  destruct (Z.eqb_spec last y) as [->|Hne]; [by apply IH|].
  specialize (IH y H). constructor; [done|].
  apply StronglySorted_inv in IH as [_ Hlt]. constructor; [lia|].
  eapply Forall_impl; [|exact Hlt]. simpl. lia.
Qed.

Lemma sort_uniq_elem l x : In x (sort_uniq l) <-> In x l.
Proof.
  unfold sort_uniq. pose proof (merge_sort_Permutation Z.le l) as P.
  destruct (merge_sort Z.le l) as [|y r].
  - apply Permutation_nil in P. by subst.
  - rewrite weed_elem. split; apply Permutation_in; [done|by symmetry].
Qed.

Lemma sort_uniq_sorted l : StronglySorted Z.lt (sort_uniq l).
Proof.
  unfold sort_uniq. assert (StronglySorted Z.le (merge_sort Z.le l)) as H.
  { apply StronglySorted_merge_sort; typeclasses eauto || (intros ? ?; lia). }
  destruct (merge_sort Z.le l); [constructor|by apply weed_sorted].
Qed.

Lemma sorted_lt_unique l1 l2 :
  StronglySorted Z.lt l1 -> StronglySorted Z.lt l2 -> (forall x, In x l1 <-> In x l2) -> l1 = l2.
Proof.
  intros S1 S2 H. assert (forall l, StronglySorted Z.lt l -> NoDup l) as Hnd.
  { induction 1 as [|x l _ IH Hx]; constructor; [|done].
    rewrite list_elem_of_In. intros Hin. rewrite Forall_forall in Hx.
    specialize (Hx x Hin). lia. }
  assert (AntiSymm (=) Z.lt) by (intros ? ?; lia).
  apply (StronglySorted_unique Z.lt); try done.
  apply NoDup_Permutation; auto. intros x. by rewrite !list_elem_of_In.
Qed.

Lemma sort_uniq_id l : StronglySorted Z.lt l -> sort_uniq l = l.
Proof.
  intros H. apply sorted_lt_unique; [apply sort_uniq_sorted|done|apply sort_uniq_elem].
Qed.

Lemma list_to_set_sort_uniq l : (list_to_set (sort_uniq l) : gset Z) = list_to_set l.
Proof.
  apply set_eq. intros x. rewrite !elem_of_list_to_set, !list_elem_of_In. apply sort_uniq_elem.
Qed.

Lemma sort_uniq_nil l : sort_uniq l = [] <-> l = [].
Proof.
  split; [|by intros ->]. intros H. destruct l as [|x l]; [done|].
  assert (In x (sort_uniq (x :: l))) by (apply sort_uniq_elem; by left). by rewrite H in *.
Qed.

Lemma weed_length last l : (length (weed last l) <= length l)%nat.
Proof. revert last. induction l as [|y l IH]; intros last; [done|]. cbn [weed].
  pose proof (IH last). pose proof (IH y). case_bool; simpl; lia. Qed.

Lemma sort_uniq_length l : (length (sort_uniq l) <= length l)%nat.
Proof.
  unfold sort_uniq. pose proof (Permutation_length (merge_sort_Permutation Z.le l)) as P.
  destruct (merge_sort Z.le l) as [|y r]; simpl in *; [lia|].
  pose proof (weed_length y r). lia.
Qed.

(** ** Normalising *)

(** Canonical chains: no sequence is empty or follows another, sets are strictly
    increasing. *)
Record seg_normal (seg : assegment) : Prop := {
  sn_seq : seg_type seg = AS_SEQUENCE -> seg_as seg <> [];
  sn_set : is_set_type (seg_type seg) = true -> StronglySorted Z.lt (seg_as seg)
}.
Definition normal (l : list assegment) : Prop := Forall seg_normal l /\ no_seq_run l.

Definition seqs_nonempty (l : list assegment) : Prop :=
  Forall (fun seg => seg_type seg = AS_SEQUENCE -> seg_as seg <> []) l.

Lemma normalise_set_hops seg : seg_hops (normalise_set seg) = seg_hops seg.
Proof.
  unfold normalise_set, seg_hops. destruct (is_set_type (seg_type seg)) eqn:E; [|by rewrite E].
  cbn [seg_type seg_as]. rewrite E. case_bool; [|by rewrite list_to_set_sort_uniq].
  rewrite Heqb in E. done.
Qed.

Lemma normalise_set_normal seg :
  (seg_type seg = AS_SEQUENCE -> seg_as seg <> []) -> seg_normal (normalise_set seg).
Proof.
  intros H. unfold normalise_set. case_bool; split; cbn [seg_type seg_as]; intros E; try done.
  - by rewrite E in *.
  - apply sort_uniq_sorted.
  - by apply H.
  - congruence.
Qed.

Lemma normalise_set_type seg : seg_type (normalise_set seg) = seg_type seg.
Proof. unfold normalise_set. by case_bool. Qed.

Lemma normalise_set_length seg : slen (normalise_set seg) <= slen seg.
Proof.
  unfold normalise_set, slen. pose proof (sort_uniq_length (seg_as seg)). case_bool; simpl; lia.
Qed.

Lemma normalise_set_id seg : seg_normal seg -> normalise_set seg = seg.
Proof.
  intros [_ H]. unfold normalise_set. case_bool; [|done]. rewrite sort_uniq_id by auto.
  by destruct seg.
Qed.

Lemma packable_spec x y :
  ASSEGMENT_TYPES_PACKABLE x y = true <-> seg_type x = AS_SEQUENCE /\ seg_type y = AS_SEQUENCE.
Proof.
  unfold ASSEGMENT_TYPES_PACKABLE. rewrite andb_true_iff, !Z.eqb_eq. intuition congruence.
Qed.

Lemma packable_types x y x' y' :
  seg_type x = seg_type x' -> seg_type y = seg_type y' ->
  ASSEGMENT_TYPES_PACKABLE x y = ASSEGMENT_TYPES_PACKABLE x' y'.
Proof. unfold ASSEGMENT_TYPES_PACKABLE. by intros -> ->. Qed.

Lemma append_asns_small seg l :
  slen seg + Z.of_nat (length l) <= 65535 ->
  assegment_append_asns seg l = mkSeg (seg_type seg) (seg_as seg ++ l).
Proof.
  intros H. unfold assegment_append_asns, slen in *. by rewrite fit16_id by (rewrite length_app; lia).
Qed.

Lemma assegment_count_nonneg l : 0 <= assegment_count_asns l.
Proof. rewrite <- asns_length. lia. Qed.

Lemma normalise_from_spec rest : forall pin,
  seg_normal pin -> seqs_nonempty rest -> slen pin + assegment_count_asns rest <= 65535 ->
  normal (normalise_from pin rest)
  /\ hops_of (normalise_from pin rest) = seg_hops pin ++ hops_of rest
  /\ exists l, normalise_from pin rest = mkSeg (seg_type pin) (seg_as pin ++ l) :: tail (normalise_from pin rest).
Proof.
  induction rest as [|seg rest IH]; intros pin Hp Hs Hl; cbn [normalise_from].
  { split_and!.
    - split; [by constructor|done].
    - done.
    - exists []. rewrite app_nil_r. by destruct pin. }
  apply Forall_cons_1 in Hs as [Hs Hss]. cbn [assegment_count_asns fold_right] in Hl.
  change (fold_right _ 0 rest) with (assegment_count_asns rest) in Hl.
  pose proof (assegment_count_nonneg rest).
  destruct (ASSEGMENT_TYPES_PACKABLE pin seg) eqn:E.
  - apply packable_spec in E as [E1 E2]. rewrite append_asns_small by (unfold slen in *; lia).
    destruct (IH (mkSeg (seg_type pin) (seg_as pin ++ seg_as seg))) as (N & Hh & l & El).
    + split; cbn [seg_type seg_as]; intros Et; [|by rewrite E1 in Et].
      pose proof (sn_seq _ Hp E1). by destruct (seg_as pin).
    + done.
    + unfold slen in *. simpl. rewrite length_app. lia.
    + split_and!; [done| |].
      * rewrite Hh, hops_of_cons. unfold seg_hops. cbn [seg_type seg_as]. rewrite E1, E2.
        simpl. by rewrite map_app, <- app_assoc.
      * exists (seg_as seg ++ l). rewrite El at 1. cbn [seg_type seg_as]. by rewrite <- app_assoc.
  - pose proof (normalise_set_length seg).
    destruct (IH (normalise_set seg)) as ((N & Nr) & Hh & l & El).
    + by apply normalise_set_normal.
    + done.
    + unfold slen in *. lia.
    + split_and!.
      * split; [by constructor|]. rewrite El in *. split; [|done].
        unfold not_both_seq. rewrite <- E. apply packable_types; [done|].
        cbn [seg_type]. apply normalise_set_type.
      * rewrite !hops_of_cons, Hh. by rewrite normalise_set_hops.
      * exists []. rewrite app_nil_r. by destruct pin.
Qed.

Lemma normalise_spec l :
  seqs_nonempty l -> assegment_count_asns l <= 65535 ->
  normal (assegment_normalise l) /\ hops_of (assegment_normalise l) = hops_of l.
Proof.
  intros Hs Hl. destruct l as [|seg rest]; [by repeat split|]. cbn [assegment_normalise].
  apply Forall_cons_1 in Hs as [Hs Hss]. cbn [assegment_count_asns fold_right] in Hl.
  change (fold_right _ 0 rest) with (assegment_count_asns rest) in Hl.
  pose proof (normalise_set_length seg).
  destruct (normalise_from_spec rest (normalise_set seg)) as (N & Hh & _); try done.
  - by apply normalise_set_normal.
  - lia.
  - split; [done|]. by rewrite Hh, normalise_set_hops.
Qed.

(** On canonical chains the meaning determines the chain. *)
Lemma seg_hops_not_hop seg :
  seg_type seg <> AS_SEQUENCE -> exists h, seg_hops seg = [h] /\ forall x, h <> Hop x.
Proof.
  intros H. unfold seg_hops. rewrite (proj2 (Z.eqb_neq _ _)) by done.
  case_bool; eexists; split; done.
Qed.

Lemma seg_hops_inj s1 s2 :
  seg_normal s1 -> seg_normal s2 -> seg_type s1 <> AS_SEQUENCE -> seg_type s2 <> AS_SEQUENCE ->
  seg_hops s1 = seg_hops s2 -> s1 = s2.
Proof.
  intros [_ N1] [_ N2] H1 H2. unfold seg_hops. rewrite !(proj2 (Z.eqb_neq _ _)) by done.
  destruct s1 as [t1 l1], s2 as [t2 l2]. cbn [seg_type seg_as] in *.
  destruct (is_set_type t1) eqn:E1, (is_set_type t2) eqn:E2; intros [= -> E]; [|congruence..].
  f_equal. apply sorted_lt_unique; auto. intros x.
  rewrite <- !list_elem_of_In, <- !(elem_of_list_to_set (C := gset Z)). by rewrite E.
Qed.

Lemma map_hop_span xs ys r1 r2 :
  (forall x t, r1 <> Hop x :: t) -> (forall x t, r2 <> Hop x :: t) ->
  map Hop xs ++ r1 = map Hop ys ++ r2 -> xs = ys /\ r1 = r2.
Proof.
  revert ys. induction xs as [|x xs IH]; intros [|y ys] H1 H2 E; simpl in *; try done.
  - by destruct (H1 y (map Hop ys ++ r2)).
  - by destruct (H2 x (map Hop xs ++ r1)).
  - injection E as -> E. destruct (IH ys H1 H2 E) as [-> ->]. done.
Qed.

(** What follows a sequence does not start with a hop of a sequence. *)
Lemma rest_no_hop seg rest :
  no_seq_run (seg :: rest) -> seg_type seg = AS_SEQUENCE -> forall x t, hops_of rest <> Hop x :: t.
Proof.
  intros Hr Hs x t. destruct rest as [|s2 rest]; [done|]. destruct Hr as [Hb _].
  rewrite hops_of_cons. destruct (seg_hops_not_hop s2) as (h & -> & Hh).
  - intros E. unfold not_both_seq in Hb. by rewrite (proj2 (packable_spec _ _)) in Hb.
  - intros [= -> _]. by apply (Hh x).
Qed.

Lemma normal_tail seg rest : normal (seg :: rest) -> seg_normal seg /\ normal rest.
Proof.
  intros [H Hr]. apply Forall_cons_1 in H as [Hs H]. split; [done|]. split; [done|].
  destruct rest; [done|apply Hr].
Qed.

Lemma normal_hops_nil l : normal l -> hops_of l = [] -> l = [].
Proof.
  intros N E. destruct l as [|seg l]; [done|]. apply normal_tail in N as [[Hn _] _].
  rewrite hops_of_cons in E. apply app_eq_nil in E as [E _].
  destruct (decide (seg_type seg = AS_SEQUENCE)) as [Hs|Hs].
  - unfold seg_hops in E. rewrite Hs in E. simpl in E. apply map_eq_nil in E. by destruct (Hn Hs).
  - destruct (seg_hops_not_hop seg Hs) as (h & Eh & _). congruence.
Qed.

Lemma normal_inj l1 : forall l2, normal l1 -> normal l2 -> hops_of l1 = hops_of l2 -> l1 = l2.
Proof.
  induction l1 as [|s1 l1 IH]; intros l2 N1 N2 E; [by symmetry; apply normal_hops_nil|].
  destruct l2 as [|s2 l2]; [by apply normal_hops_nil|].
  pose proof (proj2 N1) as R1. pose proof (proj2 N2) as R2.
  apply normal_tail in N1 as [Hs1 N1]. apply normal_tail in N2 as [Hs2 N2].
  rewrite !hops_of_cons in E.
  destruct (decide (seg_type s1 = AS_SEQUENCE)) as [T1|T1],
           (decide (seg_type s2 = AS_SEQUENCE)) as [T2|T2].
  - unfold seg_hops in E. rewrite T1, T2 in E. simpl in E.
    apply map_hop_span in E as [Ea Er]; [|by eapply rest_no_hop..].
    f_equal; [|by apply IH]. destruct s1, s2. simpl in *. congruence.
  - exfalso. destruct (seg_hops_not_hop s2 T2) as (h & Eh & Hh). rewrite Eh in E.
    unfold seg_hops in E. rewrite T1 in E. simpl in E. pose proof (sn_seq _ Hs1 T1).
    destruct (seg_as s1) as [|x xs]; [done|]. injection E as <- _. by apply (Hh x).
  - exfalso. destruct (seg_hops_not_hop s1 T1) as (h & Eh & Hh). rewrite Eh in E.
    unfold seg_hops in E. rewrite T2 in E. simpl in E. pose proof (sn_seq _ Hs2 T2).
    destruct (seg_as s2) as [|x xs]; [done|]. injection E as -> _. by apply (Hh x).
  - destruct (seg_hops_not_hop s1 T1) as (h1 & E1 & _).
    destruct (seg_hops_not_hop s2 T2) as (h2 & E2 & _).
    rewrite E1, E2 in E. injection E as Eh E. f_equal; [|by apply IH].
    apply seg_hops_inj; congruence.
Qed.

Lemma normalise_same l1 l2 : seqs_nonempty l1 -> seqs_nonempty l2 ->
  assegment_count_asns l1 <= 65535 -> assegment_count_asns l2 <= 65535 ->
  hops_of l1 = hops_of l2 -> assegment_normalise l1 = assegment_normalise l2.
Proof.
  intros H1 H2 L1 L2 E. destruct (normalise_spec l1 H1 L1) as [N1 E1]. destruct (normalise_spec l2 H2 L2) as [N2 E2].
  apply normal_inj; try done. congruence.
Qed.

Lemma normalise_id l : seqs_nonempty l -> assegment_count_asns l <= 65535 -> normal l -> assegment_normalise l = l.
Proof. intros H L N. destruct (normalise_spec l H L) as [N1 E1]. by apply normal_inj. Qed.

(** C28: for chains without empty sequences and with at most 65535 AS numbers,
    [assegment_normalise] gives every AS path one representation, as its comment
    asks: two chains are normalised to the same chain exactly when they have the
    same hops, and a canonical chain is left alone. *)
Theorem assegment_normalise_canonical l1 l2 :
  seqs_nonempty l1 -> seqs_nonempty l2 ->
  assegment_count_asns l1 <= 65535 -> assegment_count_asns l2 <= 65535 ->
  (assegment_normalise l1 = assegment_normalise l2 <-> hops_of l1 = hops_of l2)
  /\ (normal l1 -> assegment_normalise l1 = l1).
Proof.
  intros H1 H2 L1 L2. destruct (normalise_spec l1 H1 L1) as [N1 E1].
  destruct (normalise_spec l2 H2 L2) as [N2 E2]. split; [split|].
  - intros E. by rewrite <- E1, <- E2, E.
  - by apply normalise_same.
  - by apply normalise_id.
Qed.

Lemma assegment_normalise_canonical_witness :
  assegment_normalise [mkSeg AS_SEQUENCE [1]; mkSeg AS_SEQUENCE [2]; mkSeg AS_SET [9; 4; 9]]
  = assegment_normalise [mkSeg AS_SEQUENCE [1; 2]; mkSeg AS_SET [4; 9]].
Proof.
  apply (assegment_normalise_canonical
    [mkSeg AS_SEQUENCE [1]; mkSeg AS_SEQUENCE [2]; mkSeg AS_SET [9; 4; 9]]
    [mkSeg AS_SEQUENCE [1; 2]; mkSeg AS_SET [4; 9]]);
    [repeat constructor; done..|vm_compute; done|vm_compute; done|].
  vm_compute. reflexivity.
Defined.
