(* ===== verification/AsPathJoin.v ===== *)
(** * Joining, filtering, aggregating and reconciling AS paths: facts

    Each operation of [AsPathOps] in terms of the hops or the AS numbers of the
    paths it works on. *)

From stdpp Require Import gmap.
From S2P Require Import Prelude AsPath AsPathText AsPathOps AsPathTextFacts AsPathFacts.

(** ** Hop counts *)

Definition hop_count (h : hop) : Z :=
  match h with
  | Hop _ => 1
  | SetOf t _ => if t =? AS_SET then 1 else 0
  | Group _ _ => 0
  end.
Definition hops_count (l : list hop) : Z := fold_right (fun h n => hop_count h + n) 0 l.

Lemma hops_count_app l1 l2 : hops_count (l1 ++ l2) = hops_count l1 + hops_count l2.
Proof. induction l1 as [|h l1 IH]; simpl; [done|]. rewrite IH. lia. Qed.

Lemma hops_count_seg seg : hops_count (seg_hops seg) = hop_weight seg.
Proof.
  unfold seg_hops, hop_weight, slen, is_set_type.
  destruct (seg_type seg =? AS_SEQUENCE) eqn:E.
  - induction (seg_as seg) as [|x l IH]; [done|]. simpl in *. lia.
  - destruct (seg_type seg =? AS_SET) eqn:E1; simpl; [by rewrite E1|].
    destruct (seg_type seg =? AS_CONFED_SET); simpl; [by rewrite E1|done].
Qed.

Lemma count_hops_spec l : aspath_count_hops_internal l = hops_count (hops_of l).
Proof.
  induction l as [|seg l IH]; [done|]. rewrite hops_of_cons, hops_count_app, hops_count_seg.
  simpl. rewrite <- IH. done.
Qed.

Lemma refreshed_segments a : segments (refreshed a) = segments a.
Proof. done. Qed.

(** The path keeps the count and the text of its segments. *)
Record path_ok (a : aspath) : Prop := {
  po_count : count a = aspath_count_hops_internal (segments a);
  po_types : Forall typed (segments a);
  po_str : str a = Some (text_of (asnotation a) (segments a));
  po_str_len : str_len a = u16 (Z.of_nat (length (text_of (asnotation a) (segments a))))
}.

Lemma refreshed_ok a : Forall typed (segments a) -> path_ok (refreshed a).
Proof.
  intros H. split; try done; unfold refreshed; simpl; by rewrite bool_decide_eq_true_2.
Qed.

(** ** Prepending *)

Lemma last_type_app l seg : last_type (l ++ [seg]) = Some (seg_type seg).
Proof.
  induction l as [|x l IH]; [done|]. cbn [app last_type].
  destruct (l ++ [seg]) eqn:E; [by destruct l|done].
Qed.

Lemma last_type_snoc l t : last_type l = Some t -> exists l' seg, l = l' ++ [seg] /\ seg_type seg = t.
Proof.
  destruct l as [|x l _] using rev_ind; [done|]. rewrite last_type_app. intros [= <-]. eauto.
Qed.

Definition strip_confed (l : list assegment) : list assegment :=
  List.filter (fun seg => negb (is_confed_type (seg_type seg))) l.

Lemma filter_all {A} (f : A -> bool) l :
  existsb f l = false -> List.filter (fun x => negb (f x)) l = l.
Proof.
  induction l as [|x l IH]; [done|]. simpl. intros H. apply orb_false_iff in H as [-> H2].
  simpl. f_equal. auto.
Qed.

Lemma Forall_filter {A} (P : A -> Prop) f l : Forall P l -> Forall P (List.filter f l).
Proof. induction 1; simpl; [done|]. case_bool; auto. Qed.

(** Deleting segments refreshes the path exactly when it changes it. *)
Lemma delete_segments_spec f a :
  exists a', delete_segments f a = Ret a'
    /\ segments a' = List.filter (fun seg => negb (f (seg_type seg))) (segments a)
    /\ asnotation a' = asnotation a /\ (path_ok a -> path_ok a').
Proof.
  unfold delete_segments. destruct (segments a) as [|seg r] eqn:E; [exists a; by rewrite E|].
  rewrite <- E. destruct (existsb _ _) eqn:Ex.
  - rewrite refresh_spec. eexists. split; [done|]. split; [done|]. split; [done|].
    intros P. apply refreshed_ok. simpl. apply Forall_filter, P.
  - exists a. split; [done|]. split; [|done]. symmetry.
    apply (filter_all (fun seg => f (seg_type seg))). done.
Qed.

(** The part of [aspath_prepend] after the confederation segments. *)
Lemma prepend_stage as1 as2 l1 seg1 :
  segments as1 = l1 ++ [seg1] ->
  assegment_count_asns (segments as1) + assegment_count_asns (segments as2) <= 65535 ->
  path_ok as1 -> path_ok as2 ->
  exists a,
    match segments as2 with
    | [] => refresh (set_segments (segments as1) as2)
    | seg2 :: rest2 =>
        if negb (seg_type seg1 =? seg_type seg2) then aspath_merge as1 as2
        else if seg_type seg1 =? AS_SEQUENCE then
          refresh (set_segments
            (at_last (fun tail => [assegment_append_asns tail (seg_as seg2)]) (segments as1)
             ++ rest2) as2)
        else aspath_merge as1 as2
    end = Ret a /\ path_ok a
    /\ hops_of (segments a) = hops_of (segments as1) ++ hops_of (segments as2).
Proof.
  intros E1 Hl P1 P2. pose proof (po_types _ P1) as T1. pose proof (po_types _ P2) as T2.
  assert (exists a, aspath_merge as1 as2 = Ret a /\ path_ok a
    /\ hops_of (segments a) = hops_of (segments as1) ++ hops_of (segments as2)) as M.
  { unfold aspath_merge. rewrite refresh_spec. eexists. split; [done|]. split.
    - apply refreshed_ok. simpl. by apply Forall_app_2.
    - apply hops_of_app. }
  destruct (segments as2) as [|seg2 rest2] eqn:E2.
  { rewrite refresh_spec. eexists. split; [done|]. split; [by apply refreshed_ok|].
    simpl. by rewrite app_nil_r. }
  case_bool; [done|]. case_bool; [|done]. rewrite refresh_spec. eexists. split; [done|].
  rewrite E1, at_last_app in *.
  assert (slen seg1 + slen seg2 <= 65535) as Hs.
  { rewrite <- !asns_length in Hl. unfold asns in Hl. rewrite map_app, concat_app in Hl.
    simpl in Hl. rewrite !length_app in Hl. unfold slen. lia. }
  rewrite append_asns_small by done. apply Forall_app in T1 as [T1 T1'].
  apply Forall_cons_1 in T1' as [T1' _]. apply Forall_cons_1 in T2 as [T2 T2']. split.
  - apply refreshed_ok. simpl. rewrite <- app_assoc. apply Forall_app_2; [done|].
    by constructor.
  - cbn [segments refreshed set_segments]. rewrite !hops_of_app, !hops_of_cons, <- !app_assoc.
    f_equal. unfold seg_hops.
    cbn [seg_type seg_as]. rewrite <- Heqb, Heqb0, Z.eqb_refl, map_app. simpl.
    by rewrite <- app_assoc.
Qed.

Lemma count_filter f l : assegment_count_asns (List.filter f l) <= assegment_count_asns l.
Proof.
  induction l as [|seg l IH]; [done|]. simpl. case_bool; simpl; unfold slen; lia.
Qed.

(** [aspath_prepend] concatenates the hops of the two paths, so the hop
    counts add up.  When the first path ends in a sequence and the second starts
    with a confederation sequence, the confederation segments of the second are
    dropped first.  The result keeps its text and count up to date. *)
Theorem aspath_prepend_hops as1 as2 :
  assegment_count_asns (segments as1) + assegment_count_asns (segments as2) <= 65535 ->
  path_ok as1 -> path_ok as2 ->
  let s2 := match segments as2 with
            | seg :: _ => if (seg_type seg =? AS_CONFED_SEQUENCE)
                             && bool_decide (last_type (segments as1) = Some AS_SEQUENCE)
                          then strip_confed (segments as2) else segments as2
            | [] => []
            end in
  exists a, aspath_prepend as1 as2 = Ret a /\ path_ok a
    /\ hops_of (segments a) = hops_of (segments as1) ++ hops_of s2
    /\ count a = count as1 + hops_count (hops_of s2).
Proof.
  intros Hl P1 P2. cbv zeta. unfold aspath_prepend, aspath_delete_confed_seq.
  assert (forall a, path_ok a -> hops_of (segments a) = hops_of (segments as1) ++ hops_of (segments as2) ->
    count a = count as1 + hops_count (hops_of (segments as2))) as Hc.
  { intros a Pa E. rewrite (po_count _ Pa), (po_count _ P1), !count_hops_spec, E. apply hops_count_app. }
  destruct (segments as2) as [|seg2 rest2] eqn:E2.
  { rewrite refresh_spec. eexists. split; [done|].
    assert (hops_of (segments as1) = hops_of (segments as1) ++ []) as Eh by (by rewrite app_nil_r).
    split; [apply refreshed_ok, P1|]. split; [exact Eh|]. by apply Hc; [apply refreshed_ok, P1|]. }
  rewrite <- E2 in *.
  destruct (last_type (segments as1)) as [t1|] eqn:Et.
  2: { rewrite bool_decide_eq_false_2 by done. rewrite andb_false_r.
       assert (segments as1 = []) as E1 by (by destruct (segments as1) as [|? ?] using rev_ind; [|rewrite last_type_app in Et]).
       exists as2. split; [done|]. split; [done|]. rewrite E1. split; [done|].
       apply Hc; [done|by rewrite E1]. }
  destruct (last_type_snoc _ _ Et) as (l1 & seg1 & E1 & T1).
  assert ((t1 =? AS_SEQUENCE) && (seg_type seg2 =? AS_CONFED_SEQUENCE)
    = (seg_type seg2 =? AS_CONFED_SEQUENCE) && bool_decide (Some t1 = Some AS_SEQUENCE)) as ->.
  { rewrite andb_comm. f_equal. destruct (Z.eqb_spec t1 AS_SEQUENCE) as [->|].
    - by rewrite bool_decide_eq_true_2.
    - rewrite bool_decide_eq_false_2; congruence. }
  destruct (_ && bool_decide _).
  - destruct (delete_segments_spec is_confed_type as2) as (as2' & -> & E' & _ & P').
    simpl. destruct (prepend_stage as1 as2' l1 seg1 E1) as (a & Ea & Pa & Ha); auto.
    + rewrite E'. pose proof (count_filter (fun seg => negb (is_confed_type (seg_type seg))) (segments as2)).
      lia.
    + exists a. rewrite <- T1. fold (strip_confed (segments as2)) in E'. rewrite <- E'.
      split_and!; try done. rewrite (po_count _ Pa), (po_count _ P1), !count_hops_spec, Ha.
      apply hops_count_app.
  - simpl. destruct (prepend_stage as1 as2 l1 seg1 E1) as (a & Ea & Pa & Ha); auto.
    exists a. rewrite <- T1. split_and!; auto.
Qed.

Lemma aspath_prepend_hops_witness :
  let p l c s := mkAspath 0 l (Some s) (Z.of_nat (length s)) c ASNOTATION_PLAIN in
  exists a, aspath_prepend (p [mkSeg AS_SEQUENCE [1; 2]] 2 [49; 32; 50])
              (p [mkSeg AS_CONFED_SEQUENCE [9]; mkSeg AS_SEQUENCE [3]] 1 [40; 57; 41; 32; 51]) = Ret a
    /\ hops_of (segments a) = [Hop 1; Hop 2; Hop 3] /\ count a = 3.
Proof.
  intros p.
  destruct (aspath_prepend_hops (p [mkSeg AS_SEQUENCE [1; 2]] 2 [49; 32; 50])
              (p [mkSeg AS_CONFED_SEQUENCE [9]; mkSeg AS_SEQUENCE [3]] 1 [40; 57; 41; 32; 51]))
    as (a & E & _ & H & C).
  - vm_compute. done.
  - split; try reflexivity. repeat constructor; by eexists.
  - split; try reflexivity. repeat constructor; by eexists.
  - exists a. split; [exact E|]. split; [exact H|exact C].
Defined.

(** ** Filters *)

Lemma asns_filter f l :
  asns (map (fun seg => mkSeg (seg_type seg) (List.filter f (seg_as seg))) l) = List.filter f (asns l).
Proof.
  induction l as [|seg l IH]; [done|]. unfold asns in *. simpl. by rewrite IH, filter_app.
Qed.

Lemma asns_drop_empty l : asns (List.filter (fun seg => negb (slen seg =? 0)) l) = asns l.
Proof.
  induction l as [|seg l IH]; [done|]. unfold asns in *. simpl. case_bool; simpl; rewrite IH; [done|].
  unfold slen in *. by destruct (seg_as seg).
Qed.

Lemma excluded_spec ex x : excluded ex x = bool_decide (x ∈ asns ex).
Proof.
  unfold excluded. induction ex as [|seg ex IH]; [done|]. simpl. rewrite IH.
  unfold asns. simpl.
  destruct (existsb (Z.eqb x) (seg_as seg)) eqn:E; symmetry.
  - apply existsb_exists in E as (y & Hy & E). apply Z.eqb_eq in E as <-.
    apply bool_decide_eq_true_2. apply list_elem_of_In, in_or_app. by left.
  - simpl. apply bool_decide_ext. rewrite !list_elem_of_In, in_app_iff. split; [|by right].
    intros [H|H]; [|done]. exfalso.
    assert (existsb (Z.eqb x) (seg_as seg) = true) as E'; [|congruence].
    apply existsb_exists. exists x. split; [done|apply Z.eqb_refl].
Qed.

Lemma remove_private_spec peer seg :
  remove_private_seg peer seg
  = mkSeg (seg_type seg) (List.filter (fun x => negb (BGP_AS_IS_PRIVATE x) || (x =? peer)) (seg_as seg)).
Proof.
  unfold remove_private_seg. case_bool; [|done]. apply Nat.eqb_eq in Heqb.
  destruct seg as [t l]. cbn [seg_type seg_as] in *. f_equal. unfold public_count in Heqb.
  induction l as [|x l IH]; [done|]. simpl in *.
  pose proof (List.filter_length_le (fun x => negb (BGP_AS_IS_PRIVATE x)) l).
  destruct (BGP_AS_IS_PRIVATE x); simpl in *; [lia|]. f_equal. apply IH. lia.
Qed.

(** The filters drop exactly the AS numbers they should, and keep the others
    in order: [aspath_filter_exclude] those of the exclusion list (and then the
    segments left empty), [aspath_remove_private_asns] the private ones except
    the peer's. [aspath_delete_confed_seq] leaves the hops outside of
    confederations and the hop count alone, and no confederation segment. *)
Theorem aspath_filters_exact a ex peer :
  (exists b, aspath_filter_exclude a ex = Ret b
     /\ asns (segments b) = List.filter (fun x => negb (bool_decide (x ∈ asns (segments ex)))) (asns (segments a))
     /\ Forall (fun seg => seg_as seg <> []) (segments b)
     /\ count b = aspath_count_hops_internal (segments b))
  /\ (exists b, aspath_remove_private_asns a peer = Ret b
     /\ asns (segments b)
        = List.filter (fun x => negb (BGP_AS_IS_PRIVATE x) || (x =? peer)) (asns (segments a))
     /\ count b = aspath_count_hops_internal (segments b))
  /\ (exists b, aspath_delete_confed_seq a = Ret b
     /\ aspath_confed_check b = false
     /\ hops_of (segments b) = hops_of (strip_confed (segments a))
     /\ aspath_count_hops_internal (segments b) = aspath_count_hops_internal (segments a)
     /\ forall x, aspath_loop_check b x = aspath_loop_check_confed a x).
Proof.
  split_and!.
  - unfold aspath_filter_exclude. rewrite refresh_spec. eexists. split; [done|].
    cbn [segments refreshed set_segments count]. split_and!; [| |done].
    + rewrite asns_drop_empty, asns_filter. apply List.filter_ext. intros x. by rewrite excluded_spec.
    + apply List.Forall_forall. intros seg Hs. apply filter_In in Hs as [_ Hs].
      intros E. unfold slen in Hs. by rewrite E in Hs.
  - unfold aspath_remove_private_asns. rewrite refresh_spec. eexists. split; [done|].
    cbn [segments refreshed count]. split; [|done].
    rewrite <- asns_filter. f_equal. apply map_ext. apply remove_private_spec.
  - destruct (delete_segments_spec is_confed_type a) as (b & E & Eb & _). exists b.
    split; [exact E|]. unfold aspath_confed_check, aspath_loop_check, aspath_loop_check_confed.
    rewrite Eb. fold (strip_confed (segments a)). clear E Eb. split_and!; [|done| |].
    + apply not_true_is_false. intros H. apply existsb_exists in H as (seg & Hs & H).
      apply filter_In in Hs as [_ Hs]. by rewrite H in Hs.
    + induction (segments a) as [|seg l IH]; [done|]. simpl. rewrite <- IH.
      destruct (is_confed_type (seg_type seg)) eqn:Ec; [|done]. unfold is_confed_type in Ec.
      bool_to_prop. destruct Ec as [Ec|Ec]; bool_to_prop; unfold hop_weight; by rewrite Ec.
    + intros x. induction (segments a) as [|seg l IH]; [done|]. simpl. rewrite <- IH.
      destruct (is_confed_type (seg_type seg)); simpl; lia.
Qed.
