(* ===== verification/AsPathAggregate.v ===== *)
(** * Aggregating and reconciling AS paths: facts

    Aggregation keeps every AS number of both paths, so that loops stay
    detectable, and keeps as sequences only what both paths share at their
    start.  Reconciliation with AS4_PATH replaces the end of the path hop by
    hop. *)

From stdpp Require Import gmap.
From S2P Require Import Prelude AsPath AsPathText AsPathOps AsPathTextFacts AsPathFacts AsPathJoin.

(** ** AS numbers of a path as a property of its hops *)

Definition hop_has (x : Z) (h : hop) : Prop :=
  match h with
  | Hop y => y = x
  | Group _ l => In x l
  | SetOf _ s => x ∈ s
  end.
Definition hop_confed (h : hop) : bool :=
  match h with
  | Hop _ => false
  | Group t _ | SetOf t _ => is_confed_type t
  end.
Definition is_hop (h : hop) : bool := match h with Hop _ => true | _ => false end.
(** The hops that come from sequences. *)
Definition seq_hops (l : list hop) : list hop := List.filter is_hop l.

Lemma seg_hops_has seg x : Exists (hop_has x) (seg_hops seg) <-> In x (seg_as seg).
Proof.
  rewrite List.Exists_exists. unfold seg_hops. repeat case_bool.
  - split.
    + intros (h & Hh & Hx). apply in_map_iff in Hh as (y & <- & Hy). simpl in Hx. by subst.
    + intros Hx. exists (Hop x). split; [by apply in_map|done].
  - split.
    + intros (h & [<-|[]] & Hx). simpl in Hx. by apply elem_of_list_to_set, list_elem_of_In in Hx.
    + intros Hx. eexists. split; [by left|]. simpl. by apply elem_of_list_to_set, list_elem_of_In.
  - split.
    + by intros (h & [<-|[]] & Hx).
    + intros Hx. eexists. split; [by left|]. done.
Qed.

Lemma seg_hops_confed seg : Forall (fun h => hop_confed h = is_confed_type (seg_type seg)) (seg_hops seg).
Proof.
  unfold seg_hops. case_bool; [|case_bool; repeat constructor].
  rewrite Heqb. apply List.Forall_forall. intros h Hh. by apply in_map_iff in Hh as (y & <- & _).
Qed.

Lemma asns_hops l x : In x (asns l) <-> Exists (hop_has x) (hops_of l).
Proof.
  induction l as [|seg l IH]; [by split; [|rewrite Exists_nil]|].
  unfold asns in *. simpl. rewrite in_app_iff, IH, hops_of_cons, Exists_app, seg_hops_has. done.
Qed.

Lemma nc_asns_hops l x :
  In x (asns (strip_confed l)) <-> Exists (fun h => hop_confed h = false /\ hop_has x h) (hops_of l).
Proof.
  induction l as [|seg l IH]; [by split; [|rewrite Exists_nil]|].
  rewrite hops_of_cons, Exists_app, <- IH.
  assert (Exists (fun h => hop_confed h = false /\ hop_has x h) (seg_hops seg)
          <-> is_confed_type (seg_type seg) = false /\ In x (seg_as seg)) as ->.
  { rewrite <- seg_hops_has, !List.Exists_exists. pose proof (seg_hops_confed seg) as C.
    rewrite List.Forall_forall in C. split.
    - intros (h & Hh & Hc & Hx). rewrite (C h Hh) in Hc. eauto.
    - intros [Hc (h & Hh & Hx)]. exists h. rewrite (C h Hh). done. }
  unfold asns. simpl. destruct (is_confed_type (seg_type seg)); simpl.
  - split; [by right|]. intros [[? _]|?]; done.
  - rewrite in_app_iff. tauto.
Qed.

Lemma count_as_pos x l : 0 <= count_as x l /\ (0 < count_as x l <-> In x l).
Proof.
  induction l as [|y l [IH0 IH]]; simpl; [lia|]. destruct (Z.eqb_spec y x) as [->|Hne].
  - split; [lia|]. split; [by left|lia].
  - split; [done|]. rewrite IH. split; [by right|]. by intros [|].
Qed.

Lemma loop_check_pos a x : 0 < aspath_loop_check a x <-> In x (asns (segments a)).
Proof.
  unfold aspath_loop_check, asns.
  assert (0 <= fold_right (fun seg n => count_as x (seg_as seg) + n) 0 (segments a)
    /\ (0 < fold_right (fun seg n => count_as x (seg_as seg) + n) 0 (segments a)
        <-> In x (concat (map seg_as (segments a))))) as [_ H]; [|exact H].
  induction (segments a) as [|seg l [IH0 IH]]; simpl; [lia|].
  destruct (count_as_pos x (seg_as seg)) as [H0 H]. rewrite in_app_iff, <- IH, <- H. lia.
Qed.

Lemma loop_check_confed_strip a x :
  aspath_loop_check_confed a x = aspath_loop_check (set_segments (strip_confed (segments a)) a) x.
Proof.
  unfold aspath_loop_check_confed, aspath_loop_check. cbn [segments set_segments].
  induction (segments a) as [|seg l IH]; [done|]. simpl. rewrite IH.
  destruct (is_confed_type (seg_type seg)); simpl; lia.
Qed.

Lemma loop_check_confed_pos a x :
  0 < aspath_loop_check_confed a x <-> In x (asns (strip_confed (segments a))).
Proof. rewrite loop_check_confed_strip. apply loop_check_pos. Qed.

(** ** Adding to the right *)

(** [l'] extends [l] by the AS numbers [xs] in sets of type [t]. *)
Record extends (t : Z) (xs : list Z) (l l' : list assegment) : Prop := {
  ex_asns : asns l' = asns l ++ xs;
  ex_nc : asns (strip_confed l') = asns (strip_confed l) ++ (if is_confed_type t then [] else xs);
  ex_seq : seq_hops (hops_of l') = seq_hops (hops_of l);
  ex_typed : Forall typed l -> Forall typed l';
  ex_some : seqs_nonempty l -> seqs_nonempty l'
}.

Lemma extends_nil t l : extends t [] l l.
Proof. split; try done; rewrite ?app_nil_r; [done|]. case_bool; by rewrite app_nil_r. Qed.

Lemma extends_trans t xs ys l1 l2 l3 : extends t xs l1 l2 -> extends t ys l2 l3 -> extends t (xs ++ ys) l1 l3.
Proof.
  intros [A1 N1 S1 T1 E1] [A2 N2 S2 T2 E2]. split; auto.
  - by rewrite A2, A1, app_assoc.
  - rewrite N2, N1, <- app_assoc. by case_bool.
  - congruence.
Qed.

Lemma strip_confed_app l1 l2 : strip_confed (l1 ++ l2) = strip_confed l1 ++ strip_confed l2.
Proof. apply List.filter_app. Qed.

Lemma seq_hops_app l1 l2 : seq_hops (l1 ++ l2) = seq_hops l1 ++ seq_hops l2.
Proof. apply List.filter_app. Qed.

Lemma set_type_cases t : is_set_type t = true -> t = AS_SET \/ t = AS_CONFED_SET.
Proof. unfold is_set_type. intros H. bool_to_prop. destruct H; bool_to_prop; auto. Qed.

Lemma set_seg_facts t xs :
  is_set_type t = true ->
  typed (mkSeg t xs) /\ seq_hops (hops_of [mkSeg t xs]) = []
  /\ asns (strip_confed [mkSeg t xs]) = (if is_confed_type t then [] else xs) /\ t <> AS_SEQUENCE.
Proof.
  intros H. destruct (set_type_cases t H) as [-> | ->]; split_and!; try done; try by eexists.
  unfold asns. simpl. by rewrite app_nil_r.
Qed.

Lemma add_rightmost_spec a x t :
  is_set_type t = true ->
  exists a', aspath_add_asns_rightmost a x t = Ret a' /\ extends t [x] (segments a) (segments a')
    /\ asnotation a' = asnotation a.
Proof.
  intros Ht. unfold aspath_add_asns_rightmost. rewrite refresh_spec. eexists. split; [done|].
  split; [|done]. cbn [segments refreshed set_segments].
  assert (forall l, extends t [x] l (l ++ [mkSeg t [x]])) as New.
  { intros l. destruct (set_seg_facts t [x] Ht) as (F1 & F2 & F3 & F4). split.
    - by rewrite asns_app.
    - by rewrite strip_confed_app, asns_app, F3.
    - by rewrite hops_of_app, seq_hops_app, F2, app_nil_r.
    - intros H. apply Forall_app_2; [done|]. by constructor.
    - intros H. apply Forall_app_2; [done|]. by constructor. }
  destruct (segments a) as [|seg l _] using rev_ind; [apply (New [])|].
  destruct (l ++ [seg]) eqn:E; [by destruct l|]. rewrite <- E, at_last_app. clear E.
  case_bool; [|replace (l ++ [seg; mkSeg t [x]]) with ((l ++ [seg]) ++ [mkSeg t [x]])
                 by (by rewrite <- app_assoc); apply New].
  unfold AS_SEGMENT_MAX in *. rewrite append_asns_small by (simpl; lia). rewrite H.
  destruct seg as [t' xs]. cbn [seg_type seg_as] in *. subst t'.
  destruct (set_seg_facts t xs Ht) as (F1 & F2 & F3 & F4).
  destruct (set_seg_facts t (xs ++ [x]) Ht) as (G1 & G2 & G3 & _). split.
  - rewrite !asns_app. unfold asns at 2 4. simpl. by rewrite !app_nil_r, app_assoc.
  - rewrite !strip_confed_app, !asns_app, F3, G3. case_bool; by rewrite ?app_nil_r, ?app_assoc.
  - by rewrite !hops_of_app, !seq_hops_app, F2, G2.
  - intros H2. apply Forall_app in H2 as [H2 _]. apply Forall_app_2; [done|]. by constructor.
  - intros H2. apply Forall_app in H2 as [H2 _]. apply Forall_app_2; [done|].
    constructor; [done|constructor].
Qed.

Lemma add_set_spec t xs : forall a,
  is_set_type t = true ->
  exists a', add_set t xs a = Ret a' /\ extends t xs (segments a) (segments a')
    /\ asnotation a' = asnotation a.
Proof.
  induction xs as [|x xs IH]; intros a Ht; cbn [add_set].
  { exists a. split_and!; [done|apply extends_nil|done]. }
  destruct (add_rightmost_spec a x t Ht) as (a1 & -> & E1 & N1). simpl.
  destruct (IH a1 Ht) as (a2 & -> & E2 & N2). exists a2. split_and!; [done| |congruence].
  by apply (extends_trans t [x] xs _ (segments a1)).
Qed.

(** What the two set loops add. *)
Definition rest_asns (from : nat) (l : list assegment) : list Z :=
  match l with [] => [] | seg :: r => drop from (seg_as seg) ++ asns r end.
Definition rest_nc (from : nat) (l : list assegment) : list Z :=
  match l with
  | [] => []
  | seg :: r => (if is_confed_type (seg_type seg) then [] else drop from (seg_as seg))
                ++ asns (strip_confed r)
  end.

Lemma rest_zero l : rest_asns 0 l = asns l /\ rest_nc 0 l = asns (strip_confed l).
Proof.
  destruct l as [|seg r]; [done|]. unfold rest_asns, rest_nc, asns. simpl. rewrite drop_0.
  split; [done|]. by destruct (is_confed_type (seg_type seg)).
Qed.

Lemma add_rest_spec l : forall from a,
  exists a', add_rest from l a = Ret a'
    /\ asns (segments a') = asns (segments a) ++ rest_asns from l
    /\ asns (strip_confed (segments a')) = asns (strip_confed (segments a)) ++ rest_nc from l
    /\ seq_hops (hops_of (segments a')) = seq_hops (hops_of (segments a))
    /\ (Forall typed (segments a) -> Forall typed (segments a'))
    /\ (seqs_nonempty (segments a) -> seqs_nonempty (segments a'))
    /\ asnotation a' = asnotation a.
Proof.
  induction l as [|seg r IH]; intros from a; cbn [add_rest].
  { exists a. simpl. rewrite !app_nil_r. by split_and!. }
  set (t := if is_confed_type (seg_type seg) then AS_CONFED_SET else AS_SET).
  assert (is_set_type t = true /\ is_confed_type t = is_confed_type (seg_type seg)) as [Ht Hc].
  { unfold t. by destruct (is_confed_type (seg_type seg)). }
  destruct (add_set_spec t (drop from (seg_as seg)) a Ht) as (a1 & -> & [A1 N1 S1 T1 E1] & M1).
  simpl. destruct (IH 0%nat a1) as (a2 & -> & A2 & N2 & S2 & T2 & E2 & M2). exists a2.
  destruct (rest_zero r) as [R1 R2]. rewrite R1 in A2. rewrite R2 in N2.
  split_and!; auto; try congruence.
  - rewrite A2, A1. simpl. by rewrite app_assoc.
  - rewrite N2, N1, Hc. simpl. by rewrite <- app_assoc.
Qed.

(** ** The common lead *)

Lemma match_len_spec l1 : forall l2,
  take (match_len l1 l2) l1 = take (match_len l1 l2) l2
  /\ (match_len l1 l2 <= length l1)%nat /\ (match_len l1 l2 <= length l2)%nat.
Proof.
  induction l1 as [|x r1 IH]; intros [|y r2]; simpl; try (split_and!; done || lia).
  destruct (Z.eqb_spec x y) as [->|]; [|simpl; split_and!; done || lia].
  destruct (IH r2) as (E & L1 & L2). simpl. rewrite E. split_and!; done || lia.
Qed.

(** The lead and what is left of a chain make up the chain. *)
Record lead_of (lead : list assegment) (m : nat) (l r : list assegment) (q : list hop) : Prop := {
  ld_asns : asns l = asns lead ++ rest_asns m r;
  ld_nc : asns (strip_confed l) = asns (strip_confed lead) ++ rest_nc m r;
  ld_hops : exists hs, hops_of l = q ++ hs
}.

Lemma lead_none l : lead_of [] 0 l l [].
Proof.
  destruct (rest_zero l) as [E1 E2]. split; simpl; [by rewrite E1|by rewrite E2|by eexists].
Qed.

(** A segment of which the first [m] numbers are shared. *)
Lemma lead_partial seg r m :
  lead_of [mkSeg (seg_type seg) (take m (seg_as seg))] m (seg :: r) (seg :: r)
    (if seg_type seg =? AS_SEQUENCE then map Hop (take m (seg_as seg)) else []).
Proof.
  split.
  - unfold asns. simpl. by rewrite app_nil_r, app_assoc, take_drop.
  - unfold rest_nc, asns. simpl. destruct (is_confed_type (seg_type seg)); simpl; [done|].
    by rewrite app_nil_r, app_assoc, take_drop.
  - rewrite hops_of_cons. unfold seg_hops. destruct (seg_type seg =? AS_SEQUENCE); [|by eexists].
    exists (map Hop (drop m (seg_as seg)) ++ hops_of r).
    by rewrite app_assoc, <- map_app, take_drop.
Qed.

(** A segment that is shared as a whole. *)
Lemma lead_whole seg lead m l r q :
  lead_of lead m l r q -> lead_of (seg :: lead) m (seg :: l) r (seg_hops seg ++ q).
Proof.
  intros [A N [hs H]]. split.
  - unfold asns in *. simpl. by rewrite A, app_assoc.
  - unfold asns in *. simpl. destruct (is_confed_type (seg_type seg)); simpl; by rewrite N, ?app_assoc.
  - exists hs. by rewrite hops_of_cons, H, app_assoc.
Qed.

Lemma match_all s1 s2 :
  seg_type s1 = seg_type s2 -> match_len (seg_as s1) (seg_as s2) = length (seg_as s1) ->
  length (seg_as s1) = length (seg_as s2) -> s1 = s2.
Proof.
  intros Et Em El. destruct (match_len_spec (seg_as s1) (seg_as s2)) as (E & _).
  rewrite Em in E. rewrite take_ge, El, take_ge in E by lia. destruct s1, s2. simpl in *. congruence.
Qed.

Lemma common_lead_spec l1 : forall l2 lead r1 r2 m,
  assegment_count_asns l1 <= 65535 -> Forall typed l1 -> Forall (fun seg => seg_as seg <> []) l1 ->
  common_lead l1 l2 = (lead, r1, r2, m) ->
  exists q, lead_of lead m l1 r1 q /\ lead_of lead m l2 r2 q
    /\ seq_hops (hops_of lead) = seq_hops q /\ Forall typed lead /\ seqs_nonempty lead.
Proof.
  induction l1 as [|s1 t1 IH]; intros l2 lead r1 r2 m Hc Ht He E; cbn [common_lead] in E.
  { injection E as <- <- <- <-. exists []. split_and!; try constructor; try apply lead_none. }
  destruct l2 as [|s2 t2].
  { injection E as <- <- <- <-. exists []. split_and!; try constructor; try apply lead_none. }
  apply Forall_cons_1 in Ht as [Ht Hts]. apply Forall_cons_1 in He as [He Hes].
  cbn [assegment_count_asns fold_right] in Hc. change (fold_right _ 0 t1) with (assegment_count_asns t1) in Hc.
  pose proof (assegment_count_nonneg t1). destruct (match_len_spec (seg_as s1) (seg_as s2)) as (Em & L1 & _).
  destruct (Z.eqb_spec (seg_type s1) (seg_type s2)) as [Et|]; simpl negb in E; cbn match in E.
  2: { injection E as <- <- <- <-. exists []. split_and!; try constructor; try apply lead_none. }
  set (k := match_len (seg_as s1) (seg_as s2)) in *.
  assert (assegment_append_asns (mkSeg (seg_type s1) []) (take k (seg_as s1))
          = mkSeg (seg_type s1) (take k (seg_as s1))) as Ea.
  { apply append_asns_small. unfold slen in *. simpl. rewrite length_take. lia. }
  rewrite Ea in E. destruct (_ && _) eqn:Ew.
  - apply andb_true_iff in Ew as [E1 E2]. apply Nat.eqb_eq in E1, E2.
    rewrite E1, take_ge in E by lia.
    destruct (common_lead t1 t2) as [[[lead' r1'] r2'] m'] eqn:Ec. injection E as <- <- <- <-.
    destruct (IH t2 lead' r1' r2' m') as (q & Q1 & Q2 & Q3 & Q4 & Q5); try done; [unfold slen in *; lia|].
    destruct (Nat.eqb_spec (length (seg_as s1)) 0) as [E0|_]; [by destruct (seg_as s1)|].
    assert (mkSeg (seg_type s1) (seg_as s1) = s1) as Es by (by destruct s1). rewrite Es.
    rewrite <- (match_all s1 s2 Et E1 E2). exists (seg_hops s1 ++ q).
    split_and!; try (by apply lead_whole); try (by constructor).
    simpl app. by rewrite hops_of_cons, !seq_hops_app, Q3.
  - injection E as <- <- <- <-. destruct (Nat.eqb_spec k 0) as [E0|E0].
    { rewrite E0. exists []. split_and!; try constructor; try apply lead_none. }
    exists (if seg_type s1 =? AS_SEQUENCE then map Hop (take k (seg_as s1)) else []).
    split; [apply lead_partial|]. split; [rewrite Em, Et; apply lead_partial|]. split_and!.
    + rewrite hops_of_cons, app_nil_r. unfold seg_hops. cbn [seg_type seg_as].
      destruct (seg_type s1 =? AS_SEQUENCE); [done|]. by case_bool.
    + constructor; [exact Ht|done].
    + constructor; [|constructor]. intros _. cbn [seg_as].
      destruct (seg_as s1); [done|]. by destruct k.
Qed.

Lemma normalise_from_typed rest : forall pin,
  typed pin -> Forall typed rest -> Forall typed (normalise_from pin rest).
Proof.
  induction rest as [|seg rest IH]; intros pin Hp Hr; cbn [normalise_from]; [by constructor|].
  apply Forall_cons_1 in Hr as [Hs Hr]. case_bool; [by apply IH|].
  constructor; [done|]. apply IH; [|done]. unfold typed in *. by rewrite normalise_set_type.
Qed.

Lemma normalise_typed l : Forall typed l -> Forall typed (assegment_normalise l).
Proof.
  destruct l as [|seg l]; [done|]. intros H. apply Forall_cons_1 in H as [Hs H].
  apply normalise_from_typed; [|done]. unfold typed in *. by rewrite normalise_set_type.
Qed.

(** C29: the aggregate of two paths with segments of known types, those of the first not
    empty, and together at most 65535 AS numbers, contains exactly the AS numbers of
    both, with those outside of confederations kept apart, so that
    [aspath_loop_check] and [aspath_loop_check_confed] find what they found in
    either path; its sequences are those of a common start of both paths, in order;
    it is normalised and keeps its text and count. *)
Theorem aspath_aggregate_covers as1 as2 :
  Forall typed (segments as1) -> Forall typed (segments as2) ->
  Forall (fun seg => seg_as seg <> []) (segments as1) ->
  assegment_count_asns (segments as1) + assegment_count_asns (segments as2) <= 65535 ->
  exists a, aspath_aggregate as1 as2 = Ret a /\ path_ok a /\ normal (segments a)
    /\ (forall x, 0 < aspath_loop_check a x
                  <-> 0 < aspath_loop_check as1 x \/ 0 < aspath_loop_check as2 x)
    /\ (forall x, 0 < aspath_loop_check_confed a x
                  <-> 0 < aspath_loop_check_confed as1 x \/ 0 < aspath_loop_check_confed as2 x)
    /\ exists q r1 r2, hops_of (segments as1) = q ++ r1 /\ hops_of (segments as2) = q ++ r2
         /\ seq_hops (hops_of (segments a)) = seq_hops q.
Proof.
  intros T1 T2 E1 Hc. unfold aspath_aggregate.
  pose proof (assegment_count_nonneg (segments as1)). pose proof (assegment_count_nonneg (segments as2)).
  destruct (common_lead (segments as1) (segments as2)) as [[[lead r1] r2] m] eqn:El.
  assert (assegment_count_asns (segments as1) <= 65535) as Hc1 by lia.
  destruct (common_lead_spec _ _ _ _ _ _ Hc1 T1 E1 El)
    as (q & [A1 N1 [h1 H1]] & [A2 N2 [h2 H2]] & Q & Tl & Sl).
  set (a0 := set_segments lead (aspath_new (asnotation as1))).
  destruct (add_rest_spec r1 m a0) as (a1 & -> & B1 & C1 & D1 & F1 & G1 & _). simpl.
  destruct (add_rest_spec r2 m a1) as (a2 & -> & B2 & C2 & D2 & F2 & G2 & _). simpl.
  change (segments a0) with lead in *. rewrite refresh_spec. eexists. split; [done|].
  assert (assegment_count_asns (segments a2) <= 65535) as L.
  { rewrite <- !asns_length in *. rewrite B2, B1.
    apply (f_equal length) in A1, A2. rewrite !length_app in *. lia. }
  destruct (normalise_spec (segments a2) ltac:(auto) L) as [Nn Hn].
  assert (Forall typed (segments a2)) as T by auto.
  split_and!.
  - apply refreshed_ok. cbn [segments set_segments]. by apply normalise_typed.
  - exact Nn.
  - intros x. rewrite !loop_check_pos. cbn [segments refreshed set_segments].
    rewrite asns_hops, Hn, <- asns_hops, B2, B1, A1, A2.
    rewrite !in_app_iff. tauto.
  - intros x. rewrite !loop_check_confed_pos. cbn [segments refreshed set_segments].
    rewrite nc_asns_hops, Hn, <- nc_asns_hops, C2, C1, N1, N2.
    rewrite !in_app_iff. tauto.
  - exists q, h1, h2. split_and!; try done. cbn [segments refreshed set_segments].
    by rewrite Hn, D2, D1.
Qed.

Lemma aspath_aggregate_covers_witness :
  let p l := mkAspath 0 l None 0 0 ASNOTATION_PLAIN in
  exists a, aspath_aggregate (p [mkSeg AS_SEQUENCE [1; 2; 3]]) (p [mkSeg AS_SEQUENCE [1; 5]]) = Ret a
    /\ 0 < aspath_loop_check a 5 /\ segments a = [mkSeg AS_SEQUENCE [1]; mkSeg AS_SET [2; 3; 5]].
Proof.
  intros p.
  destruct (aspath_aggregate_covers (p [mkSeg AS_SEQUENCE [1; 2; 3]]) (p [mkSeg AS_SEQUENCE [1; 5]]))
    as (a & E & _ & _ & L & _).
  - repeat constructor. by eexists.
  - repeat constructor. by eexists.
  - by repeat constructor.
  - vm_compute. done.
  - exists a. split; [exact E|]. split; [apply L; right; vm_compute; done|].
    vm_compute in E. by injection E as <-.
Defined.

(** ** AS4 reconciliation *)

(** Outside of confederations. *)
Definition plain (seg : assegment) : Prop := seg_type seg = AS_SEQUENCE \/ seg_type seg = AS_SET.

Lemma plain_typed l : Forall plain l -> Forall typed l.
Proof. apply Forall_impl. intros seg [E|E]; unfold typed; rewrite E; by eexists. Qed.

Lemma plain_no_confed l : Forall plain l -> fold_right (fun seg n => confed_weight seg + n) 0 l = 0.
Proof.
  induction 1 as [|seg l [E|E] _ IH]; simpl; [done|..]; unfold confed_weight at 1; rewrite E; simpl; lia.
Qed.

Lemma plain_hop_count l : Forall plain l -> Forall (fun h => hop_count h = 1) (hops_of l).
Proof.
  induction 1 as [|seg l H _ IH]; [constructor|]. rewrite hops_of_cons.
  apply Forall_app_2; [|done]. unfold seg_hops. destruct H as [-> | ->]; simpl; [|by repeat constructor].
  apply List.Forall_forall. intros h Hh. by apply in_map_iff in Hh as (x & <- & _).
Qed.

Lemma hops_count_ones l : Forall (fun h => hop_count h = 1) l -> hops_count l = Z.of_nat (length l).
Proof. induction 1; simpl; lia. Qed.

Lemma copy_hops_spec l : forall k c,
  Forall plain l -> seqs_nonempty l -> assegment_count_asns l <= 65535 ->
  exists out, copy_hops l k c = Ret out /\ hops_of out = take (Z.to_nat k) (hops_of l)
    /\ Forall plain out /\ seqs_nonempty out
    /\ assegment_count_asns out <= assegment_count_asns l
    /\ (0 < k -> l <> [] -> out <> []).
Proof.
  induction l as [|seg r IH]; intros k c Hp Hs Hc; cbn [copy_hops].
  { exists []. split_and!; try done. by destruct (Z.to_nat k). }
  apply Forall_cons_1 in Hp as [Hp Hps]. apply Forall_cons_1 in Hs as [Hs Hss].
  cbn [assegment_count_asns fold_right] in *. change (fold_right _ 0 r) with (assegment_count_asns r) in *.
  pose proof (assegment_count_nonneg r) as H0. assert (0 <= slen seg) as L0 by (unfold slen; lia).
  destruct (Z.leb_spec k 0) as [Hk|Hk].
  { exists []. rewrite Z2Nat.nonpos by lia. split_and!; try done; [constructor|simpl; lia|intros; lia]. }
  rewrite hops_of_cons. destruct Hp as [E|E]; rewrite E; unfold is_set_type; simpl.
  - rewrite (proj2 (Z.leb_le _ _)) by lia.
    destruct (IH (k - slen seg) (Z.min (slen seg) k)) as (out & -> & Ho & P & S & C & _); try done; [lia|].
    simpl. rewrite append_asns_small by (unfold slen in *; simpl; rewrite length_take; lia).
    eexists. split; [done|]. split_and!; try done.
    + rewrite hops_of_cons, Ho. unfold seg_hops. cbn [seg_type seg_as]. rewrite E. simpl.
      rewrite take_app, length_map. f_equal.
      * rewrite <- firstn_map. unfold slen. destruct (Z.le_gt_cases (Z.of_nat (length (seg_as seg))) k).
        -- rewrite Z.min_l, Nat2Z.id, !take_ge by (rewrite ?length_map; lia). done.
        -- by rewrite Z.min_r by lia.
      * f_equal. unfold slen. lia.
    + constructor; [by left|done].
    + constructor; [|done]. intros _. cbn [seg_as app]. specialize (Hs E).
      unfold slen in *. destruct (seg_as seg); [done|]. simpl length in *.
      destruct (Z.to_nat (Z.min _ k)) eqn:Ez; [lia|done].
    + simpl. unfold slen in *. simpl. rewrite length_take. lia.
  - rewrite Z.leb_refl.
    destruct (IH (k - 1) (slen seg)) as (out & -> & Ho & P & S & C & _); try done; [lia|].
    simpl. rewrite append_asns_small by (unfold slen in *; simpl; rewrite length_take; lia).
    unfold slen. rewrite Nat2Z.id, take_ge by lia.
    eexists. split; [done|]. split_and!; try done.
    + rewrite hops_of_cons, Ho. unfold seg_hops. cbn [seg_type seg_as]. rewrite E. simpl.
      destruct (Z.to_nat k) eqn:Ez; [lia|]. simpl. f_equal. f_equal. lia.
    + constructor; [by right|done].
    + by constructor.
    + simpl. unfold slen in *. simpl. lia.
Qed.

Definition nonempty (l : list assegment) : Prop := Forall (fun seg => seg_as seg <> []) l.

Lemma nonempty_seqs l : nonempty l -> seqs_nonempty l.
Proof. apply Forall_impl. auto. Qed.

Lemma count_le l : nonempty l -> 0 <= aspath_count_hops_internal l <= assegment_count_asns l.
Proof.
  induction 1 as [|seg l H _ IH]; [done|]. simpl. unfold hop_weight.
  assert (1 <= slen seg) by (unfold slen; destruct (seg_as seg); [done|simpl length; lia]).
  repeat case_bool; lia.
Qed.

(** C30: for paths without empty segments, with their text and count up to date and together
    at most 65535 AS numbers, and an AS_PATH without confederation segments,
    [aspath_reconcile_as4] keeps the leading hops of AS_PATH that AS4_PATH lacks and
    continues with all hops of AS4_PATH, so the hop count stays that of AS_PATH;
    when AS4_PATH has more hops than AS_PATH, all hops of both are kept. *)
Theorem aspath_reconcile_hops a a4 :
  path_ok a -> path_ok a4 -> Forall plain (segments a) ->
  nonempty (segments a) -> nonempty (segments a4) ->
  assegment_count_asns (segments a) + assegment_count_asns (segments a4) <= 65535 ->
  let k := if count a <? count a4 then count a else count a - count a4 in
  exists r, aspath_reconcile_as4 a a4 = Ret r
    /\ hops_of (segments r) = take (Z.to_nat k) (hops_of (segments a)) ++ hops_of (segments a4)
    /\ count r = k + count a4.
Proof.
  intros P P4 Hp Hn Hn4 Hc k. pose proof (po_count _ P) as Ec. pose proof (po_count _ P4) as Ec4.
  pose proof (count_le _ Hn) as B. pose proof (count_le _ Hn4) as B4. rewrite <- Ec in B. rewrite <- Ec4 in B4.
  pose proof (assegment_count_nonneg (segments a)). pose proof (assegment_count_nonneg (segments a4)).
  unfold aspath_reconcile_as4, aspath_count_confeds, aspath_count_hops. rewrite plain_no_confed by done.
  rewrite Z.add_0_r, u32_small, !s32_small by lia.
  assert ((if count a - count a4 <? 0 then count a else count a - count a4) = k) as ->.
  { unfold k. repeat case_bool; lia. }
  assert (0 <= k <= count a) as Hk by (unfold k; case_bool; lia).
  assert (segments (aspath_dup a4) = segments a4) as Ed by (unfold aspath_dup; by destruct (str a4)).
  destruct (Z.eqb_spec k 0) as [E0|E0].
  { unfold aspath_str_update. rewrite make_str_spec. eexists. split; [done|].
    rewrite E0. cbn [segments count set_str]. rewrite Ed. split; [done|].
    unfold aspath_dup. by rewrite (po_str _ P4). }
  destruct (copy_hops_spec (segments a) k 0) as (out & -> & Ho & Po & So & Co & Ne); try done.
  { by apply nonempty_seqs. }
  { lia. }
  cbn [mbind outcome_bind]. destruct out as [|o out'] eqn:Eo.
  { exfalso. apply Ne; [lia| |done]. intros E. rewrite E in *. simpl in *. lia. }
  rewrite <- Eo in *. unfold aspath_merge. rewrite refresh_spec. cbn [mbind outcome_bind].
  rewrite refresh_spec. eexists. split; [done|].
  cbn [segments count refreshed set_segments]. rewrite Ed.
  destruct (normalise_spec (out ++ segments a4)) as [_ E].
  { apply Forall_app_2; [done|by apply nonempty_seqs]. }
  { rewrite <- !asns_length, asns_app, length_app in *. lia. }
  rewrite count_hops_spec, E, hops_of_app, Ho. split; [done|].
  rewrite hops_count_app, <- (count_hops_spec (segments a4)), <- Ec4. f_equal.
  pose proof (plain_hop_count _ Hp) as Ones. rewrite hops_count_ones by (by apply Forall_take).
  rewrite length_take. rewrite count_hops_spec, hops_count_ones in Ec by done. lia.
Qed.

Lemma aspath_reconcile_hops_witness :
  let p l c s := mkAspath 0 l (Some s) (Z.of_nat (length s)) c ASNOTATION_PLAIN in
  exists r, aspath_reconcile_as4 (p [mkSeg AS_SEQUENCE [1; 23456; 23456]] 3
                [49; 32; 50; 51; 52; 53; 54; 32; 50; 51; 52; 53; 54])
              (p [mkSeg AS_SEQUENCE [70000; 70001]] 2 [55; 48; 48; 48; 48; 32; 55; 48; 48; 48; 49]) = Ret r
    /\ hops_of (segments r) = [Hop 1; Hop 70000; Hop 70001] /\ count r = 3.
Proof.
  intros p. edestruct aspath_reconcile_hops as (r & E & H & C);
    [| | | | | |exists r; split; [exact E|]; split; [exact H|exact C]].
  - split; try reflexivity. repeat constructor; by eexists.
  - split; try reflexivity. repeat constructor; by eexists.
  - by repeat constructor.
  - by repeat constructor.
  - by repeat constructor.
  - vm_compute. done.
Defined.
