(* ===== verification/AsPathWireFacts.v ===== *)
(** * The wire form of AS paths: facts

    What [aspath_put] writes is what [assegments_parse] reads, for paths without
    adjacent sequences; and the case in which it is not. *)

From stdpp Require Import sorting.
From S2P Require Import Prelude Stream StreamFacts AsPath AsPathOps AsPathTextFacts AsPathFacts AsPathWire.

(** ** The wire form as a specification *)

Definition as_trans (use32bit : bool) (x : Z) : Z :=
  if use32bit then x else if x <=? BGP_AS_MAX then x else BGP_AS_TRANS.
Definition as_width (use32bit : bool) : nat := if use32bit then 4 else 2.
Definition as_wire (use32bit : bool) (x : Z) : list Z :=
  be_bytes (as_width use32bit) (as_trans use32bit x).
Definition asns_wire (use32bit : bool) (l : list Z) : list Z := concat (map (as_wire use32bit) l).
Definition seg_wire (use32bit : bool) (seg : assegment) : list Z :=
  be_bytes 1 (seg_type seg) ++ be_bytes 1 (slen seg) ++ asns_wire use32bit (seg_as seg).
Definition segs_wire (use32bit : bool) (l : list assegment) : list Z :=
  concat (map (seg_wire use32bit) l).

(** A segment cut into pieces of at most 255 AS numbers. *)
Fixpoint chunks (fuel : nat) (l : list Z) : list (list Z) :=
  match fuel with
  | O => [l]
  | S k => if AS_SEGMENT_MAX <? Z.of_nat (length l)
           then take 255 l :: chunks k (drop 255 l) else [l]
  end.
Definition split_seg (seg : assegment) : list assegment :=
  map (mkSeg (seg_type seg)) (chunks (length (seg_as seg)) (seg_as seg)).
Definition split_segs (l : list assegment) : list assegment := concat (map split_seg l).

Lemma asns_wire_length u l :
  Z.of_nat (length (asns_wire u l)) = Z.of_nat (length l) * (if u then 4 else 2).
Proof.
  induction l as [|x l IH]; [done|]. unfold asns_wire in *. simpl. rewrite length_app, Nat2Z.inj_add, IH.
  unfold as_wire. rewrite be_bytes_length. destruct u; simpl as_width; lia.
Qed.

Lemma seg_wire_length u seg : Z.of_nat (length (seg_wire u seg)) = ASSEGMENT_SIZE (slen seg) u.
Proof.
  unfold seg_wire, ASSEGMENT_SIZE. rewrite !length_app, !be_bytes_length.
  rewrite !Nat2Z.inj_add, asns_wire_length. unfold slen. lia.
Qed.

Lemma segs_wire_app u l1 l2 : segs_wire u (l1 ++ l2) = segs_wire u l1 ++ segs_wire u l2.
Proof. unfold segs_wire. by rewrite map_app, concat_app. Qed.

Lemma segs_wire_one u seg : segs_wire u [seg] = seg_wire u seg.
Proof. unfold segs_wire. cbn [map concat]. apply app_nil_r. Qed.

(** ** Writing *)

Section Writing.
Context (junk : nat -> Z) (Hjunk : forall i, is_byte (junk i)).

(** [s'] is [s] with [d] appended, in room that was there. *)
Record puts (s : stream) (d : list Z) (s' : stream) : Prop := {
  pu_sane : sane s';
  pu_pending : pending s' = pending s ++ d;
  pu_endp : endp s' = endp s + Z.of_nat (length d);
  pu_size : size s' = size s
}.

Lemma puts_refl s : sane s -> puts s [] s.
Proof. intros S. split; try done; [by rewrite app_nil_r|simpl; lia]. Qed.

Lemma puts_trans s1 d1 s2 d2 s3 : puts s1 d1 s2 -> puts s2 d2 s3 -> puts s1 (d1 ++ d2) s3.
Proof.
  intros [S1 P1 E1 Z1] [S2 P2 E2 Z2]. split; [done| | |lia].
  - by rewrite P2, P1, app_assoc.
  - rewrite length_app. lia.
Qed.

Definition room (s : stream) (d : list Z) : Prop := endp s + Z.of_nat (length d) <= size s.

Lemma room_rest s d1 s' d2 : puts s d1 s' -> room s (d1 ++ d2) -> room s' d2.
Proof. intros [_ _ E Z] H. unfold room in *. rewrite length_app in H. lia. Qed.

Lemma room_first s d1 d2 : room s (d1 ++ d2) -> room s d1.
Proof. unfold room. rewrite length_app. lia. Qed.

Lemma put_be_puts n v s :
  sane s -> (n <= 8)%nat -> room s (be_bytes n v) ->
  exists s', stream_put_be junk n s v = Ret (Z.of_nat n, s') /\ puts s (be_bytes n v) s'.
Proof.
  intros S Hn R. unfold room in R. rewrite be_bytes_length in R.
  destruct (stream_put_be_spec junk Hjunk n v s S Hn) as (s' & E & S' & P & En & Z & _); [lia|].
  assert (size s' = size s) as Es.
  { unfold stream_put_be, make_room in E. rewrite sane_verify, writeable, (proj2 (Z.ltb_ge _ _)) in E by (done || lia).
    injection E as <-. by rewrite add_be_spec by (destruct S; lia). }
  exists s'. split; [done|]. split; try done; rewrite ?be_bytes_length; lia.
Qed.

Lemma put_asns_puts u l : forall s,
  sane s -> room s (asns_wire u l) ->
  exists s', put_asns junk s l u = Ret s' /\ puts s (asns_wire u l) s'.
Proof.
  induction l as [|x l IH]; intros s S R; cbn [put_asns].
  { exists s. split; [done|]. by apply puts_refl. }
  change (asns_wire u (x :: l)) with (as_wire u x ++ asns_wire u l) in *.
  assert (exists s1, (if u then stream_putl junk s x
            else if x <=? BGP_AS_MAX then stream_putw junk s x else stream_putw junk s BGP_AS_TRANS)
            = Ret (Z.of_nat (as_width u), s1) /\ puts s (as_wire u x) s1) as (s1 & -> & P1).
  { unfold as_wire, as_trans in *. apply room_first in R.
    destruct u; [|case_bool]; apply put_be_puts; try done; simpl; lia. }
  simpl. destruct (IH s1) as (s2 & -> & P2); [apply P1|by eapply room_rest|].
  exists s2. split; [done|]. by eapply puts_trans.
Qed.

Lemma data_put_puts u l s :
  sane s -> Z.of_nat (length l) <= 255 -> room s (asns_wire u l) ->
  exists s', assegment_data_put junk s l u = Ret s' /\ puts s (asns_wire u l) s'.
Proof.
  intros S Hl R. unfold assegment_data_put, AS_SEGMENT_MAX.
  rewrite (proj2 (Z.leb_le _ _)) by lia. by apply put_asns_puts.
Qed.

Lemma header_put_puts s t n :
  sane s -> n <= 255 -> room s (be_bytes 1 t ++ be_bytes 1 n) ->
  exists lenp s', assegment_header_put junk s t n = Ret (lenp, s')
    /\ puts s (be_bytes 1 t ++ be_bytes 1 n) s'.
Proof.
  intros S Hn R. unfold assegment_header_put, AS_SEGMENT_MAX. rewrite (proj2 (Z.leb_le _ _)) by lia.
  destruct (put_be_puts 1 t s) as (s1 & E1 & P1); [done|lia|by eapply room_first|].
  unfold stream_putc. rewrite E1. cbn [mbind outcome_bind].
  unfold stream_get_endp. rewrite sane_verify by apply P1. cbn [mbind outcome_bind].
  destruct (put_be_puts 1 n s1) as (s2 & E2 & P2); [apply P1|lia|by eapply room_rest|].
  rewrite E2. cbn [mbind outcome_bind]. eexists _, _. split; [done|]. by eapply puts_trans.
Qed.

(** One piece of a segment: header and data. *)
Lemma piece_puts {A} u s t l (k : Z -> stream -> outcome A) :
  sane s -> Z.of_nat (length l) <= 255 -> room s (seg_wire u (mkSeg t l)) ->
  exists lenp s', ('(lenp, s) ← assegment_header_put junk s t (Z.of_nat (length l));
            s ← assegment_data_put junk s l u; k lenp s) = k lenp s'
    /\ puts s (seg_wire u (mkSeg t l)) s'.
Proof.
  intros S Hl R. unfold seg_wire, slen in *. cbn [seg_type seg_as] in *. rewrite app_assoc in *.
  destruct (header_put_puts s t (Z.of_nat (length l))) as (lenp & s1 & -> & P1);
    [done|done|by eapply room_first|]. cbn [mbind outcome_bind].
  destruct (data_put_puts u l s1) as (s2 & -> & P2); [apply P1|done|by eapply room_rest|].
  exists lenp, s2. split; [done|]. by eapply puts_trans.
Qed.

Lemma chunks_concat fuel : forall l, concat (chunks fuel l) = l.
Proof.
  induction fuel as [|k IH]; intros l; cbn [chunks]; [apply app_nil_r|].
  case_bool; cbn [concat]; [by rewrite IH, take_drop|apply app_nil_r].
Qed.

Lemma chunks_length fuel : forall l, Z.of_nat (length l) <= Z.of_nat fuel ->
  Forall (fun c => Z.of_nat (length c) <= 255) (chunks fuel l).
Proof.
  induction fuel as [|k IH]; intros l Hl; cbn [chunks]; [constructor; [lia|done]|].
  unfold AS_SEGMENT_MAX. case_bool; [|constructor; [lia|done]].
  constructor; [rewrite length_take; lia|]. apply IH. rewrite length_drop. lia.
Qed.

Lemma chunks_nonempty fuel : forall l, l <> [] -> Forall (fun c => c <> []) (chunks fuel l).
Proof.
  induction fuel as [|k IH]; intros l Hl; cbn [chunks]; [by repeat constructor|].
  unfold AS_SEGMENT_MAX. case_bool; [|by repeat constructor]. constructor.
  - intros E. apply (f_equal length) in E. rewrite length_take in E. cbn [length] in E. lia.
  - apply IH. intros E. apply (f_equal length) in E. rewrite length_drop in E. cbn [length] in E. lia.
Qed.

(** Cutting only adds headers. *)
Lemma split_wire_length u t fuel : forall l,
  ASSEGMENT_SIZE (Z.of_nat (length l)) u
  <= Z.of_nat (length (segs_wire u (map (mkSeg t) (chunks fuel l)))).
Proof.
  assert (forall c, Z.of_nat (length (segs_wire u [mkSeg t c])) = ASSEGMENT_SIZE (Z.of_nat (length c)) u) as One.
  { intros c. unfold segs_wire. cbn [map concat]. by rewrite app_nil_r, seg_wire_length. }
  induction fuel as [|k IH]; intros l; cbn [chunks map].
  { rewrite One. lia. }
  unfold AS_SEGMENT_MAX. case_bool; cbn [map]; [|rewrite One; lia].
  change (mkSeg t (take 255 l) :: ?x) with ([mkSeg t (take 255 l)] ++ x).
  rewrite segs_wire_app, length_app. specialize (IH (drop 255 l)). specialize (One (take 255 l)).
  unfold ASSEGMENT_SIZE in *. rewrite length_take in One. rewrite length_drop in IH.
  destruct u; lia.
Qed.

Lemma put_split_puts u t fuel : forall s l bytes,
  Z.of_nat (length l) <= Z.of_nat fuel -> sane s ->
  room s (segs_wire u (map (mkSeg t) (chunks fuel l))) ->
  exists s' init final,
    put_split junk fuel s t l bytes u
    = Ret (s', final, bytes + Z.of_nat (length (segs_wire u (map (mkSeg t) init))))
    /\ puts s (segs_wire u (map (mkSeg t) init)) s'
    /\ chunks fuel l = init ++ [final] /\ Z.of_nat (length final) <= 255.
Proof.
  induction fuel as [|k IH]; intros s l bytes Hl S R.
  { exists s, [], l. cbn [put_split]. unfold AS_SEGMENT_MAX. rewrite (proj2 (Z.ltb_ge _ _)) by lia.
    split_and!; [by rewrite Z.add_0_r|by apply puts_refl|done|lia]. }
  cbn [put_split chunks] in *. unfold AS_SEGMENT_MAX in *. destruct (255 <? _) eqn:E; bool_to_prop.
  2: { exists s, [], l. split_and!; [by rewrite Z.add_0_r|by apply puts_refl|done|lia]. }
  set (c := take 255 l) in *. assert (Z.of_nat (length c) = 255) as Lc by (unfold c; rewrite length_take; lia).
  cbn [map] in R. change (mkSeg t c :: ?x) with ([mkSeg t c] ++ x) in R.
  rewrite segs_wire_app in R. unfold segs_wire at 1 in R. cbn [map concat] in R. rewrite app_nil_r in R.
  rewrite <- Lc.
  destruct (piece_puts u s t c (fun _ s => put_split junk k s t (drop 255 l)
     (bytes + ASSEGMENT_SIZE (Z.of_nat (length c)) u) u)) as (lenp & s1 & -> & P1);
    [done|lia|by eapply room_first|].
  destruct (IH s1 (drop 255 l) (bytes + ASSEGMENT_SIZE (Z.of_nat (length c)) u))
    as (s2 & init & final & -> & P2 & Ec & Lf).
  { rewrite length_drop. lia. }
  { apply P1. }
  { by eapply room_rest. }
  exists s2, (c :: init), final. rewrite Ec. split_and!; try done.
  - do 2 f_equal. cbn [map]. unfold segs_wire. cbn [map concat]. rewrite length_app, Nat2Z.inj_add, seg_wire_length.
    unfold slen. cbn [seg_as]. lia.
  - by eapply puts_trans.
  - lia.
Qed.

Lemma put_packed_none u s seg final lenp next p :
  no_seq_run (seg :: next) -> put_packed junk s seg final lenp next p u = Ret (s, next, p).
Proof.
  intros H. destruct next as [|nseg rest]; [done|]. cbn [put_packed]. destruct H as [H _].
  unfold ASSEGMENTS_PACKABLE. unfold not_both_seq in H. by rewrite H.
Qed.

Lemma put_loop_puts u l : forall fuel s bytes,
  (length l <= fuel)%nat -> sane s -> no_seq_run l -> room s (segs_wire u (split_segs l)) ->
  exists s', put_loop junk fuel s l bytes u
             = Ret (bytes + Z.of_nat (length (segs_wire u (split_segs l))), s')
    /\ puts s (segs_wire u (split_segs l)) s'.
Proof.
  induction l as [|seg next IH]; intros fuel s bytes Hf S Hr R; cbn [put_loop].
  { exists s. rewrite Z.add_0_r by done. destruct fuel; (split; [done|by apply puts_refl]). }
  destruct fuel as [|k]; [simpl in Hf; lia|]. cbn [put_loop].
  change (split_segs (seg :: next)) with (split_seg seg ++ split_segs next) in *.
  rewrite segs_wire_app in R. pose proof (room_first _ _ _ R) as R1. unfold split_seg in *.
  pose proof (split_wire_length u (seg_type seg) (length (seg_as seg)) (seg_as seg)) as Hw.
  rewrite writeable by done. unfold room in R1. rewrite (proj2 (Z.leb_le _ _)) by (unfold slen; lia).
  destruct (put_split_puts u (seg_type seg) (length (seg_as seg)) s (seg_as seg) bytes)
    as (s1 & init & final & -> & P1 & Ec & Lf); [lia|done|exact R1|]. cbn [mbind outcome_bind].
  rewrite Ec, map_app, segs_wire_app in *. cbn [map] in *.
  rewrite segs_wire_one, <- ?app_assoc in *.
  assert (no_seq_run next) as Hn by (destruct next; [done|apply Hr]).
  pose proof (room_rest _ _ _ _ P1 R) as R2.
  destruct (piece_puts u s1 (seg_type seg) final (fun lenp s =>
     '(s, next, asns_packed) ← put_packed junk s seg (Z.of_nat (length final)) lenp next 0 u;
     put_loop junk k s next (bytes + Z.of_nat (length (segs_wire u (map (mkSeg (seg_type seg)) init)))
       + ASSEGMENT_SIZE (Z.of_nat (length final) + asns_packed) u) u)) as (lenp & s2 & -> & P2);
    [apply P1|done|by eapply room_first|].
  rewrite put_packed_none by done. cbn [mbind outcome_bind]. rewrite Z.add_0_r.
  destruct (IH k s2 (bytes + Z.of_nat (length (segs_wire u (map (mkSeg (seg_type seg)) init)))
       + ASSEGMENT_SIZE (Z.of_nat (length final)) u)) as (s3 & -> & P3);
    [simpl in Hf; lia|apply P2|done|by eapply room_rest|].
  exists s3. split.
  - do 2 f_equal. rewrite segs_wire_app, segs_wire_one, !length_app.
    pose proof (seg_wire_length u (mkSeg (seg_type seg) final)). unfold slen in *. simpl in *. lia.
  - rewrite segs_wire_app, segs_wire_one, <- app_assoc.
    eapply puts_trans; [done|]. by eapply puts_trans.
Qed.
End Writing.

(** ** Reading *)

Lemma get_field_put w v rest s :
  sane s -> pending s = be_bytes (width_bytes w) v ++ rest ->
  0 <= v < 2 ^ (8 * Z.of_nat (width_bytes w)) ->
  exists s', get_field w s = Ret (v, s') /\ sane s' /\ pending s' = rest.
Proof.
  intros S P Hv. destruct (get_field_spec w s S) as (s' & E & S' & P').
  { rewrite P, length_app, be_bytes_length. lia. }
  exists s'. rewrite P, take_app_length', drop_app_length' in * by (by rewrite be_bytes_length).
  rewrite be_value_bytes, Z.mod_small in E by done. done.
Qed.

Definition u32_asn (x : Z) : Prop := 0 <= x < 4294967296.

Lemma as_trans_range u x : u32_asn x -> 0 <= as_trans u x < 2 ^ (8 * Z.of_nat (as_width u)).
Proof.
  intros H. unfold u32_asn, as_trans, BGP_AS_TRANS, BGP_AS_MAX in *.
  destruct u; simpl; [lia|]. case_bool; lia.
Qed.

Lemma get_asns_spec u l : forall s rest,
  sane s -> Forall u32_asn l -> pending s = asns_wire u l ++ rest ->
  exists s', get_asns u (length l) s = Ret (map (as_trans u) l, s') /\ sane s' /\ pending s' = rest.
Proof.
  induction l as [|x l IH]; intros s rest S R P; cbn [get_asns length map].
  { by exists s. }
  apply Forall_cons_1 in R as [Rx R].
  change (asns_wire u (x :: l)) with (as_wire u x ++ asns_wire u l) in P. rewrite <- app_assoc in P.
  assert (exists s1, (if u then stream_getl s else stream_getw s) = Ret (as_trans u x, s1)
            /\ sane s1 /\ pending s1 = asns_wire u l ++ rest) as (s1 & -> & S1 & P1).
  { pose proof (as_trans_range u x Rx) as Hr. unfold as_wire in P.
    destruct u; [apply (get_field_put W4)|apply (get_field_put W2)]; done. }
  cbn [mbind outcome_bind]. destruct (IH s1 rest S1 R P1) as (s2 & -> & S2 & P2).
  cbn [mbind outcome_bind]. by exists s2.
Qed.

(** A segment as it can be on the wire. *)
Record seg_wired (seg : assegment) : Prop := {
  sw_type : valid_type (seg_type seg) = true;
  sw_len : 1 <= slen seg <= 255;
  sw_asns : Forall u32_asn (seg_as seg)
}.

Lemma valid_type_byte t : valid_type t = true -> 0 <= t < 256.
Proof.
  unfold valid_type. rewrite !orb_true_iff, !Z.eqb_eq.
  unfold AS_SET, AS_SEQUENCE, AS_CONFED_SEQUENCE, AS_CONFED_SET. lia.
Qed.

Lemma segs_wire_count u l : Forall seg_wired l ->
  Z.of_nat (length l) * 2 <= Z.of_nat (length (segs_wire u l)).
Proof.
  induction 1 as [|seg l [_ H _] _ IH]; [done|].
  change (segs_wire u (seg :: l)) with (seg_wire u seg ++ segs_wire u l).
  rewrite length_app. pose proof (seg_wire_length u seg). unfold ASSEGMENT_SIZE in *.
  simpl length. destruct u; lia.
Qed.

Lemma parse_loop_spec u l : forall fuel s rest total bytes,
  Forall seg_wired l -> sane s -> pending s = segs_wire u l ++ rest ->
  (length l <= fuel)%nat -> total = bytes + Z.of_nat (length (segs_wire u l)) ->
  exists s', parse_loop fuel s total bytes u = Ret (Some (map_asns (as_trans u) l), s')
    /\ sane s' /\ pending s' = rest.
Proof.
  induction l as [|seg l IH]; intros fuel s rest total bytes W S P Hf Ht.
  { exists s. simpl in Ht. destruct fuel; cbn [parse_loop]; rewrite (proj2 (Z.leb_le _ _)) by lia; done. }
  apply Forall_cons_1 in W as [[Wt Wl Wa] W]. destruct fuel as [|k]; [simpl in Hf; lia|].
  change (segs_wire u (seg :: l)) with (seg_wire u seg ++ segs_wire u l) in *.
  rewrite length_app in Ht. pose proof (seg_wire_length u seg) as Ls.
  assert (3 <= ASSEGMENT_SIZE (slen seg) u) as L3 by (unfold ASSEGMENT_SIZE; destruct u; lia).
  cbn [parse_loop]. rewrite (proj2 (Z.leb_gt _ _)) by lia. rewrite (proj2 (Z.leb_gt _ _)) by lia.
  unfold seg_wire in P. rewrite <- !app_assoc in P.
  destruct (get_field_put W1 (seg_type seg) _ s S P) as (s1 & E1 & S1 & P1).
  { by apply valid_type_byte. }
  simpl in E1. rewrite E1. cbn [mbind outcome_bind].
  destruct (get_field_put W1 (slen seg) _ s1 S1 P1) as (s2 & E2 & S2 & P2).
  { simpl. lia. }
  simpl in E2. rewrite E2. cbn [mbind outcome_bind].
  rewrite (proj2 (Z.ltb_ge _ _)), (proj2 (Z.eqb_neq _ _)), Wt by lia. cbn [orb negb].
  replace (Z.to_nat (slen seg)) with (length (seg_as seg)) by (unfold slen; lia).
  destruct (get_asns_spec u (seg_as seg) s2 _ S2 Wa P2) as (s3 & -> & S3 & P3). cbn [mbind outcome_bind].
  destruct (IH k s3 rest total (bytes + ASSEGMENT_SIZE (slen seg) u)) as (s4 & -> & S4 & P4);
    [done|done|done|simpl in Hf; lia|lia|].
  cbn [mbind outcome_bind]. by exists s4.
Qed.

(** ** The round trip *)

(** A path that survives: AS numbers fit 32 bits, no segment is empty, and only
    sequences are longer than 255 (a longer set or confederation sequence is cut
    and not joined again). *)
Record seg_ok (seg : assegment) : Prop := {
  so_type : valid_type (seg_type seg) = true;
  so_some : seg_as seg <> [];
  so_asns : Forall u32_asn (seg_as seg);
  so_len : seg_type seg <> AS_SEQUENCE -> slen seg <= 255
}.

Lemma split_seg_short seg : slen seg <= 255 -> split_seg seg = [seg].
Proof.
  intros H. unfold split_seg, slen, AS_SEGMENT_MAX in *. destruct seg as [t l]. cbn [seg_type seg_as] in *.
  destruct (length l) eqn:E; cbn [chunks]; [done|]. unfold AS_SEGMENT_MAX.
  by rewrite (proj2 (Z.ltb_ge _ _)) by lia.
Qed.

Lemma split_seg_wired seg : seg_ok seg -> Forall seg_wired (split_seg seg).
Proof.
  intros [Ht Hs Ha _]. unfold split_seg.
  pose proof (chunks_length (length (seg_as seg)) (seg_as seg) ltac:(lia)) as L.
  pose proof (chunks_nonempty (length (seg_as seg)) (seg_as seg) Hs) as N.
  assert (Forall u32_asn (concat (chunks (length (seg_as seg)) (seg_as seg)))) as A
    by (by rewrite chunks_concat).
  induction (chunks _ _) as [|c cs IH]; [constructor|]. cbn [map concat] in *.
  apply Forall_cons_1 in L as [Lc L]. apply Forall_cons_1 in N as [Nc N].
  apply Forall_app in A as [Ac A]. constructor; [|by apply IH]. split; try done.
  unfold slen. cbn [seg_as]. destruct c; [done|]. simpl length in *. lia.
Qed.

Lemma split_segs_wired l : Forall seg_ok l -> Forall seg_wired (split_segs l).
Proof.
  induction 1 as [|seg l H _ IH]; [constructor|]. unfold split_segs. cbn [map concat].
  apply Forall_app_2; [by apply split_seg_wired|done].
Qed.

Lemma map_asns_app f l1 l2 : map_asns f (l1 ++ l2) = map_asns f l1 ++ map_asns f l2.
Proof. apply map_app. Qed.

Lemma chunk_hops f cs :
  hops_of (map_asns f (map (mkSeg AS_SEQUENCE) cs)) = map Hop (map f (concat cs)).
Proof.
  induction cs as [|c cs IH]; [done|]. cbn [map concat]. rewrite !map_app, <- IH. done.
Qed.

Lemma count_chunks t cs : assegment_count_asns (map (mkSeg t) cs) = Z.of_nat (length (concat cs)).
Proof.
  induction cs as [|c cs IH]; [done|]. simpl. rewrite IH, length_app. unfold slen. simpl. lia.
Qed.

(** Cutting sequences does not change the hops. *)
Lemma split_segs_hops f l : Forall seg_ok l -> hops_of (map_asns f (split_segs l)) = hops_of (map_asns f l).
Proof.
  induction 1 as [|seg l H _ IH]; [done|].
  change (split_segs (seg :: l)) with (split_seg seg ++ split_segs l).
  change (map_asns f (seg :: l)) with (map_asns f [seg] ++ map_asns f l).
  rewrite map_asns_app, !hops_of_app, IH. f_equal.
  destruct (decide (seg_type seg = AS_SEQUENCE)) as [E|E]; [|by rewrite split_seg_short by (by apply H)].
  destruct seg as [t xs]. cbn [seg_type] in E. subst t. unfold split_seg. cbn [seg_type seg_as].
  rewrite chunk_hops, chunks_concat. unfold hops_of, map_asns, seg_hops. simpl. by rewrite app_nil_r.
Qed.

Lemma map_asns_count f l : assegment_count_asns (map_asns f l) = assegment_count_asns l.
Proof.
  induction l as [|seg l IH]; [done|]. unfold map_asns, assegment_count_asns in *. simpl.
  rewrite IH. unfold slen. simpl. by rewrite length_map.
Qed.

Lemma split_segs_count l : assegment_count_asns (split_segs l) = assegment_count_asns l.
Proof.
  assert (forall l1 l2, assegment_count_asns (l1 ++ l2) = assegment_count_asns l1 + assegment_count_asns l2) as App.
  { intros l1 l2. rewrite <- !asns_length, asns_app, length_app. lia. }
  induction l as [|seg l IH]; [done|].
  change (split_segs (seg :: l)) with (split_seg seg ++ split_segs l). rewrite App, IH.
  unfold split_seg. by rewrite count_chunks, chunks_concat.
Qed.

Lemma wired_nonempty f l : Forall seg_wired l -> seqs_nonempty (map_asns f l).
Proof.
  intros H. apply List.Forall_forall. intros seg Hs. apply in_map_iff in Hs as (s & <- & Hs).
  rewrite List.Forall_forall in H. destruct (H s Hs) as [_ L _]. unfold slen in L.
  cbn [seg_as]. intros _. destruct (seg_as s); [simpl in L; lia|done].
Qed.

Lemma segs_wire_even u l : Z.of_nat (length (segs_wire u l)) mod 2 = 0.
Proof.
  induction l as [|x l IH]; [done|].
  change (segs_wire u (x :: l)) with (seg_wire u x ++ segs_wire u l).
  rewrite length_app, Nat2Z.inj_add, seg_wire_length. unfold ASSEGMENT_SIZE.
  rewrite Z.add_mod, IH by lia. destruct u; rewrite Z.add_0_r, Z.mod_mod by lia.
  - replace (2 + slen x * 4) with ((1 + slen x * 2) * 2) by lia. apply Z.mod_mul. lia.
  - replace (2 + slen x * 2) with ((1 + slen x) * 2) by lia. apply Z.mod_mul. lia.
Qed.

(** Reading segments off a stream. *)
Lemma assegments_parse_spec u l s rest : Forall seg_wired l -> sane s -> pending s = segs_wire u l ++ rest ->
  exists s', assegments_parse s (Z.of_nat (length (segs_wire u l))) u
             = Ret (Some (assegment_normalise (map_asns (as_trans u) l)), s')
    /\ sane s' /\ pending s' = rest.
Proof.
  intros W S P. pose proof (segs_wire_count u l W) as Hc. pose proof (segs_wire_even u l) as He.
  destruct (parse_loop_spec u l (Z.to_nat (Z.of_nat (length (segs_wire u l)))) s rest (Z.of_nat (length (segs_wire u l))) 0 W S P)
    as (s' & E & S' & P'); [lia|lia|].
  exists s'. split; [|done]. unfold assegments_parse. rewrite readable, P, length_app by done.
  destruct (Z.eqb_spec (Z.of_nat (length (segs_wire u l))) 0) as [E0|E0].
  { destruct l; [|simpl length in *; lia]. simpl in E. injection E as <-. done. }
  rewrite !(proj2 (Z.ltb_ge _ _)), He by (destruct l; [done|simpl length in *; lia]). simpl orb. cbn match. by rewrite E.
Qed.

(** Reading what was written. *)
Lemma put_parse (junk : nat -> Z) (Hjunk : forall i, is_byte (junk i)) u a s :
  Forall seg_ok (segments a) -> no_seq_run (segments a) -> sane s -> pending s = [] ->
  room s (segs_wire u (split_segs (segments a))) ->
  exists n s1 s2, aspath_put junk s a u = Ret (n, s1)
    /\ assegments_parse s1 n u
       = Ret (Some (assegment_normalise (map_asns (as_trans u) (split_segs (segments a)))), s2)
    /\ n = Z.of_nat (length (segs_wire u (split_segs (segments a)))) /\ sane s2 /\ pending s2 = [].
Proof.
  intros W Hr S P R. pose proof (split_segs_wired _ W) as Ws. set (l := split_segs (segments a)) in *.
  assert (exists s1, aspath_put junk s a u = Ret (Z.of_nat (length (segs_wire u l)), s1)
            /\ puts s (segs_wire u l) s1) as (s1 & E1 & P1).
  { unfold aspath_put. destruct (segments a) as [|seg rest] eqn:E; [by exists s; split; [|apply puts_refl]|].
    rewrite <- E. apply Forall_cons_1 in W as [[_ Hs _ _] _]. unfold slen.
    destruct (seg_as seg) as [|x xs]; [done|]. cbn [length]. rewrite (proj2 (Z.eqb_neq _ _)) by lia.
    destruct (put_loop_puts junk Hjunk u (segments a) (length (segments a)) s 0) as (s1 & E1 & P1);
      rewrite ?E; try done. exists s1. rewrite E in E1, P1. split; [exact E1|exact P1]. }
  destruct P1 as [S1 Pp _ _]. rewrite P in Pp. simpl in Pp.
  destruct (assegments_parse_spec u l s1 [] Ws S1) as (s2 & E2 & S2 & P2); [by rewrite app_nil_r|].
  by eexists _, s1, s2.
Qed.

(** C24: for a path without adjacent sequences and without empty segments, of segments of
    known types, sets and confederation segments of at most 255 numbers and at most
    65535 numbers in all, and an empty stream with room for it: written by
    [aspath_put] and read back by [assegments_parse], it is normalised to the same
    path, with AS_TRANS for the numbers that do not fit two octets; with four octets
    a canonical path comes back unchanged. Sequences longer than 255 are cut for the
    wire and joined again. (Adjacent sequences are packed wrongly:
    [aspath_put_packs_wrong].) *)
Theorem aspath_wire_roundtrip (junk : nat -> Z) u a s :
  (forall i, is_byte (junk i)) ->
  Forall seg_ok (segments a) -> no_seq_run (segments a) ->
  assegment_count_asns (segments a) <= 65535 -> sane s -> pending s = [] ->
  endp s + Z.of_nat (length (segs_wire u (split_segs (segments a)))) <= size s ->
  exists n s1 s2, aspath_put junk s a u = Ret (n, s1)
    /\ assegments_parse s1 n u
       = Ret (Some (assegment_normalise (map_asns (as_trans u) (segments a))), s2)
    /\ pending s2 = []
    /\ (u = true -> normal (segments a) ->
        assegment_normalise (map_asns (as_trans u) (segments a)) = segments a).
Proof.
  intros Hj W Hr Hc S P R. pose proof (split_segs_wired _ W) as Ws.
  destruct (put_parse junk Hj u a s W Hr S P R) as (n & s1 & s2 & E1 & E2 & _ & _ & P2).
  assert (seqs_nonempty (map_asns (as_trans u) (segments a))) as N.
  { apply List.Forall_forall. intros seg Hs. apply in_map_iff in Hs as (x & <- & Hx).
    rewrite List.Forall_forall in W. destruct (W x Hx) as [_ H _ _]. cbn [seg_as].
    intros _. by destruct (seg_as x). }
  exists n, s1, s2. split; [done|]. split_and!; [|done|].
  - rewrite E2. do 3 f_equal. apply normalise_same;
      rewrite ?map_asns_count, ?split_segs_count; try done.
    + by apply wired_nonempty.
    + by apply split_segs_hops.
  - intros -> Hn. assert (map_asns (as_trans true) (segments a) = segments a) as ->.
    { clear. induction (segments a) as [|seg l IH]; [done|]. unfold map_asns in *. simpl.
      rewrite IH. f_equal. destruct seg. by rewrite map_id. }
    apply normalise_id; try done. revert W. apply Forall_impl. by intros seg [_ H _ _].
Qed.

Lemma aspath_wire_roundtrip_witness :
  let a := mkAspath 0 [mkSeg AS_SEQUENCE (replicate 300 7); mkSeg AS_SET [3; 70000]] None 0 301 ASNOTATION_PLAIN in
  exists n s1 s2, aspath_put (fun _ => 0) (mkStream 0 0 1300 false (replicate 1300 0)) a true = Ret (n, s1)
    /\ assegments_parse s1 n true = Ret (Some (segments a), s2).
Proof.
  intros a.
  destruct (aspath_wire_roundtrip (fun _ => 0) true a (mkStream 0 0 1300 false (replicate 1300 0)))
    as (n & s1 & s2 & E1 & E2 & _ & E3).
  - intros _. unfold is_byte. lia.
  - constructor; [|constructor; [|constructor]]; split; try done; cbn [seg_as].
    + apply Forall_replicate. unfold u32_asn. lia.
    + repeat constructor; lia.
  - by split.
  - vm_compute. done.
  - split; try (vm_compute; done). apply Forall_replicate. unfold is_byte. lia.
  - reflexivity.
  - vm_compute. done.
  - exists n, s1, s2. split; [exact E1|]. rewrite E2. rewrite E3; [done|done|].
    split; [|by split]. constructor; [|constructor; [|constructor]]; split; cbn [seg_type seg_as]; intros E; try discriminate E.
    + intros [=].
    + repeat constructor; done.
Defined.

(** Three or more sequences in a row, which the packing loop of [aspath_put]
    allows for, are written under a header that counts only the first two
    pieces.  They arise from normal paths: excluding the sets of 1 {2} 3 {4} 5
    gives such a path, and a peer refuses what is written for it. *)
Theorem aspath_put_packs_wrong :
  let p l := mkAspath 0 l None 0 0 ASNOTATION_PLAIN in
  let source := p [mkSeg AS_SEQUENCE [1]; mkSeg AS_SET [2]; mkSeg AS_SEQUENCE [3];
                   mkSeg AS_SET [4]; mkSeg AS_SEQUENCE [5]] in
  assegment_normalise (segments source) = segments source
  /\ exists b s1 s2, aspath_filter_exclude source (p [mkSeg AS_SEQUENCE [2; 4]]) = Ret b
    /\ aspath_put (fun _ => 0) (mkStream 0 0 64 false (replicate 64 0)) b true = Ret (14, s1)
    /\ pending s1 = [2; 2; 0; 0; 0; 1; 0; 0; 0; 3; 0; 0; 0; 5]
    /\ assegments_parse s1 14 true = Ret (None, s2).
Proof.
  intros p source. split; [vm_compute; reflexivity|].
  do 3 eexists. split; [vm_compute; reflexivity|]. split; [vm_compute; reflexivity|].
  split; vm_compute; reflexivity.
Qed.
