(* ===== verification/Hash.v ===== *)
(** * Hash tables (lib/hash.c)

    A table of chains whose number is a power of two and doubles as entries are
    added.  The head of a chain records the length of the chain; the table
    counts its entries, its empty chains and the squares of the chain lengths.
    The key and comparison functions of a table are parameters, as they are in
    the C code. *)

From S2P Require Import Prelude.

(** ** The table *)

Record hash_bucket (D : Type) := mkBucket { b_len : Z; b_key : Z; b_data : D }.
Arguments mkBucket {D}. Arguments b_len {D}. Arguments b_key {D}. Arguments b_data {D}.

Record hash (D : Type) := mkHash {
  index : list (list (hash_bucket D));
  hsize : Z;
  max_size : Z;
  hcount : Z;
  empty : Z;
  ssq : Z
}.
Arguments mkHash {D}. Arguments index {D}. Arguments hsize {D}. Arguments max_size {D}.
Arguments hcount {D}. Arguments empty {D}. Arguments ssq {D}.

Definition HASH_INITIAL_SIZE : Z := 256.
Definition HASH_THRESHOLD (used size : Z) : bool := size <? used.

Section Hash.
Context {D : Type} (hash_key : D -> Z) (hash_cmp : D -> D -> bool).

Definition hash_create_size (size : Z) : outcome (hash D) :=
  assert! (Z.land size (u32 (size - 1)) =? 0) ;;
  Ret (mkHash (replicate (Z.to_nat size) []) size 0 0 size 0).

Definition hash_create : outcome (hash D) := hash_create_size HASH_INITIAL_SIZE.

(** [hash_update_ssq]: adds or subtracts, in a 64-bit counter. *)
Definition hash_update_ssq (s old new : Z) : Z :=
  let adjust := (new + old) * (new - old) in
  if adjust <? 0 then u64 (s - - adjust) else u64 (s + adjust).

Definition head_len (chain : list (hash_bucket D)) : Z :=
  match chain with b :: _ => b_len b | [] => 0 end.
Definition set_head_len (n : Z) (chain : list (hash_bucket D)) : list (hash_bucket D) :=
  match chain with b :: r => mkBucket n (b_key b) (b_data b) :: r | [] => [] end.

Definition chain_at (ix : list (list (hash_bucket D))) (i : Z) : list (hash_bucket D) :=
  default [] (ix !! Z.to_nat i).

(** Put a bucket at the head of chain [i] of [ix], with the statistics. *)
Definition push (ix : list (list (hash_bucket D))) (emp sq : Z) (i : Z) (key : Z) (data : D)
  : list (list (hash_bucket D)) * Z * Z :=
  let chain := chain_at ix i in
  let oldlen := head_len chain in
  let newlen := oldlen + 1 in
  (<[Z.to_nat i := mkBucket newlen key data :: set_head_len 0 chain]> ix,
   (if newlen =? 1 then u64 (emp - 1) else emp),
   hash_update_ssq sq oldlen newlen).

(** The loops of [hash_expand] over all buckets of the old table, in order. *)
Fixpoint rehash (new_size : Z) (bs : list (hash_bucket D))
    (st : list (list (hash_bucket D)) * Z * Z) : list (list (hash_bucket D)) * Z * Z :=
  match bs with
  | [] => st
  | b :: r =>
      let '(ix, emp, sq) := st in
      rehash new_size r (push ix emp sq (Z.land (b_key b) (u32 (new_size - 1))) (b_key b) (b_data b))
  end.

Definition hash_expand (h : hash D) : hash D :=
  let new_size := u32 (hsize h * 2) in
  if negb (max_size h =? 0) && (max_size h <? new_size) then h
  else
    let '(ix, emp, sq) :=
      rehash new_size (concat (index h)) (replicate (Z.to_nat new_size) [], new_size, ssq h) in
    mkHash ix new_size (max_size h) (hcount h) emp sq.

(** The search of a chain. *)
Definition matches (key : Z) (data : D) (b : hash_bucket D) : bool :=
  (b_key b =? key) && hash_cmp (b_data b) data.

Definition hindex (h : hash D) (key : Z) : Z := Z.land key (u32 (hsize h - 1)).

(** [None] is the result NULL; [alloc_func] is absent for [hash_lookup]. *)
Definition hash_get (h : hash D) (data : D) (alloc_func : option (D -> option D))
  : option D * hash D :=
  match alloc_func with
  | None =>
      if hcount h =? 0 then (None, h)
      else
        let key := hash_key data in
        (option_map b_data (find (matches key data) (chain_at (index h) (hindex h key))), h)
  | Some alloc =>
      let key := hash_key data in
      match find (matches key data) (chain_at (index h) (hindex h key)) with
      | Some b => (Some (b_data b), h)
      | None =>
          match alloc data with
          | None => (None, h)
          | Some newdata =>
              let h := if HASH_THRESHOLD (hcount h + 1) (hsize h) then hash_expand h else h in
              let '(ix, emp, sq) := push (index h) (empty h) (ssq h) (hindex h key) key newdata in
              (Some newdata, mkHash ix (hsize h) (max_size h) (hcount h + 1) emp sq)
          end
      end
  end.

Definition hash_lookup (h : hash D) (data : D) : option D := (hash_get h data None).1.

Definition hash_alloc_intern (arg : D) : option D := Some arg.

(** The walk of [hash_release]: the bucket found and the chain without it. *)
Fixpoint unlink (key : Z) (data : D) (chain : list (hash_bucket D))
  : option (D * list (hash_bucket D)) :=
  match chain with
  | [] => None
  | b :: r =>
      if matches key data b then Some (b_data b, r)
      else match unlink key data r with
           | Some (d, r') => Some (d, b :: r')
           | None => None
           end
  end.

Definition hash_release (h : hash D) (data : D) : option D * hash D :=
  let key := hash_key data in
  let i := hindex h key in
  let chain := chain_at (index h) i in
  match unlink key data chain with
  | None => (None, h)
  | Some (ret, chain') =>
      let oldlen := head_len chain in
      let newlen := oldlen - 1 in
      (Some ret,
       mkHash (<[Z.to_nat i := set_head_len newlen chain']> (index h)) (hsize h) (max_size h)
         (hcount h - 1)
         (match chain' with [] => u64 (empty h + 1) | _ => empty h end)
         (hash_update_ssq (ssq h) oldlen newlen))
  end.

(** The data in the order of [hash_iterate] and [hash_walk]. *)
Definition hash_to_list (h : hash D) : list D := map b_data (concat (index h)).

Definition hash_clean (h : hash D) : hash D :=
  mkHash (map (fun _ => []) (index h)) (hsize h) (max_size h)
    (hcount h - Z.of_nat (length (concat (index h)))) (hsize h) 0.

(** [hash_walk] with a callback that threads a state; the boolean is
    [HASHWALK_ABORT]. *)
Fixpoint hash_walk_loop {S} (func : D -> S -> S * bool) (l : list D) (s : S) : S :=
  match l with
  | [] => s
  | d :: r => let '(s, abort) := func d s in if abort then s else hash_walk_loop func r s
  end.
Definition hash_walk {S} (func : D -> S -> S * bool) (h : hash D) (s : S) : S :=
  hash_walk_loop func (hash_to_list h) s.
Definition hash_iterate {S} (func : D -> S -> S) (h : hash D) (s : S) : S :=
  fold_left (fun s d => func d s) (hash_to_list h) s.
End Hash.
