(* ===== verification/HashFacts.v ===== *)
(** * Hash tables: facts

    A table is a set of data up to the comparison of its owner.  What an owner
    promises about its functions is the class [HashFns]; the theorems here are
    proved against it. *)

From Stdlib Require Import Sorting.Permutation.
From S2P Require Import Prelude Hash.

(** What [hash_key] and [hash_cmp] must satisfy. *)
Class HashFns {D} (hash_key : D -> Z) (hash_cmp : D -> D -> bool) : Prop := {
  cmp_refl x : hash_cmp x x = true;
  cmp_sym x y : hash_cmp x y = true -> hash_cmp y x = true;
  cmp_trans x y z : hash_cmp x y = true -> hash_cmp y z = true -> hash_cmp x z = true;
  cmp_key x y : hash_cmp x y = true -> hash_key x = hash_key y;
  key_range x : 0 <= hash_key x < 4294967296
}.

Section Facts.
Context {D : Type} (hash_key : D -> Z) (hash_cmp : D -> D -> bool).
Context `{HF : !HashFns hash_key hash_cmp}.
Implicit Types (ix : list (list (hash_bucket D))) (c : list (hash_bucket D)).

Definition kd (b : hash_bucket D) : Z * D := (b_key b, b_data b).

Definition is_empty c : bool := match c with [] => true | _ => false end.
Definition empties ix : Z := Z.of_nat (length (List.filter is_empty ix)).

(** A chain holds buckets of its index, and its head knows its length. *)
Record chain_ok (n : Z) (i : nat) c : Prop := {
  co_keys : Forall (fun b => b_key b = hash_key (b_data b)
                             /\ Z.land (b_key b) (n - 1) = Z.of_nat i) c;
  co_len : head_len c = Z.of_nat (length c)
}.

Record index_ok (n : Z) ix (emp : Z) : Prop := {
  io_pow : exists k, 0 <= k < 32 /\ n = 2 ^ k;
  io_len : Z.of_nat (length ix) = n;
  io_chain i c : ix !! i = Some c -> chain_ok n i c;
  io_empty : emp = empties ix
}.

(** No two entries are equal for the owner. *)
Definition distinct (l : list D) : Prop := ForallOrdPairs (fun x y => hash_cmp x y = false) l.

Record hash_ok (h : hash D) : Prop := {
  ho_index : index_ok (hsize h) (index h) (empty h);
  ho_count : hcount h = Z.of_nat (length (hash_to_list h));
  ho_distinct : distinct (hash_to_list h)
}.

(** ** Lists of chains *)

Lemma chain_split_at {A} (l : list A) i x :
  l !! i = Some x -> l = take i l ++ x :: drop (S i) l /\ forall y, <[i := y]> l = take i l ++ y :: drop (S i) l.
Proof.
  intros H. split; [by rewrite take_drop_middle|]. intros y. apply insert_take_drop.
  by eapply lookup_lt_Some.
Qed.

Lemma concat_split {A} (l : list (list A)) i x y :
  l !! i = Some x -> Permutation (concat l) (x ++ concat (take i l ++ drop (S i) l))
  /\ Permutation (concat (<[i := y]> l)) (y ++ concat (take i l ++ drop (S i) l)).
Proof.
  intros H. destruct (chain_split_at l i x H) as [E E']. rewrite E'. rewrite E at 1.
  rewrite !concat_app. cbn [concat]. split; rewrite !app_assoc;
    (apply Permutation_app_tail, Permutation_app_comm).
Qed.

Lemma empties_insert ix i x y :
  ix !! i = Some x ->
  empties (<[i := y]> ix)
  = empties ix - (if is_empty x then 1 else 0) + (if is_empty y then 1 else 0).
Proof.
  intros H. destruct (chain_split_at ix i x H) as [E E']. rewrite E'. unfold empties. rewrite E at 3.
  rewrite !List.filter_app, !length_app. cbn [List.filter].
  destruct (is_empty x), (is_empty y); simpl length; lia.
Qed.

Lemma empties_range ix : 0 <= empties ix <= Z.of_nat (length ix).
Proof. unfold empties. pose proof (List.filter_length_le is_empty ix). lia. Qed.

Lemma empties_pos ix i : ix !! i = Some [] -> 1 <= empties ix.
Proof.
  intros H. destruct (chain_split_at ix i [] H) as [E _]. unfold empties. rewrite E.
  rewrite List.filter_app, length_app. simpl. lia.
Qed.

Lemma size_mask n : (exists k, 0 <= k < 32 /\ n = 2 ^ k) -> 0 < n < 4294967296 /\ u32 (n - 1) = n - 1.
Proof.
  intros (k & Hk & ->). assert (0 < 2 ^ k < 2 ^ 32) as H.
  { split; [apply Z.pow_pos_nonneg; lia|apply Z.pow_lt_mono_r; lia]. }
  change (2 ^ 32) with 4294967296 in H. split; [lia|]. apply u32_small. lia.
Qed.

Lemma mask_range n key : (exists k, 0 <= k < 32 /\ n = 2 ^ k) -> 0 <= Z.land key (n - 1) < n.
Proof.
  intros (k & Hk & ->). replace (2 ^ k - 1) with (Z.ones k) by (rewrite Z.ones_equiv; lia).
  rewrite Z.land_ones by lia. apply Z.mod_pos_bound, Z.pow_pos_nonneg; lia.
Qed.

Lemma index_lookup n ix emp key :
  index_ok n ix emp ->
  ix !! Z.to_nat (Z.land key (n - 1)) = Some (chain_at ix (Z.land key (n - 1)))
  /\ chain_ok n (Z.to_nat (Z.land key (n - 1))) (chain_at ix (Z.land key (n - 1))).
Proof.
  intros I. pose proof (mask_range n key (io_pow _ _ _ I)) as R. pose proof (io_len _ _ _ I) as L.
  destruct (lookup_lt_is_Some_2 ix (Z.to_nat (Z.land key (n - 1)))) as [c Hc]; [lia|].
  unfold chain_at. rewrite Hc. simpl. split; [done|]. by eapply io_chain.
Qed.

(** ** Adding a bucket *)

Lemma set_head_kd m c : map kd (set_head_len m c) = map kd c.
Proof. by destruct c. Qed.

Lemma chain_push n i c key d :
  chain_ok n i c -> key = hash_key d -> Z.land key (n - 1) = Z.of_nat i ->
  chain_ok n i (mkBucket (head_len c + 1) key d :: set_head_len 0 c).
Proof.
  intros [K L] Hk Hm. split.
  - constructor; [done|]. destruct c as [|b r]; [done|]. apply Forall_cons_1 in K as [K1 K2].
    by constructor.
  - simpl. rewrite L. destruct c; simpl length; lia.
Qed.

Lemma push_spec n ix emp sq key d :
  index_ok n ix emp -> key = hash_key d ->
  exists ix' emp' sq', push ix emp sq (Z.land key (n - 1)) key d = (ix', emp', sq')
    /\ index_ok n ix' emp' /\ Permutation (map kd (concat ix')) ((key, d) :: map kd (concat ix)).
Proof.
  intros I Hk. unfold push. set (i := Z.land key (n - 1)).
  destruct (index_lookup n ix emp key I) as [Hc Cok]. fold i in Hc, Cok.
  set (c := chain_at ix i) in *. eexists _, _, _. split; [done|].
  pose proof (mask_range n key (io_pow _ _ _ I)) as R. fold i in R.
  destruct (size_mask n (io_pow _ _ _ I)) as [Hn _]. pose proof (io_len _ _ _ I) as L.
  split; [split|].
  - apply I.
  - by rewrite length_insert.
  - intros j c' Hj. destruct (decide (j = Z.to_nat i)) as [->|Hne].
    + rewrite list_lookup_insert_eq in Hj by lia. injection Hj as <-.
      apply chain_push; [done|done|]. unfold i. lia.
    + rewrite list_lookup_insert_ne in Hj by done. by eapply io_chain.
  - rewrite (empties_insert _ _ c) by done. rewrite (io_empty _ _ _ I), (co_len _ _ _ Cok).
    pose proof (empties_range ix). destruct c as [|b r] eqn:E; cbn [is_empty length].
    + pose proof (empties_pos _ _ Hc). simpl. rewrite u64_small by lia. lia.
    + rewrite (proj2 (Z.eqb_neq _ _)) by lia. lia.
  - destruct (concat_split ix (Z.to_nat i) c (mkBucket (head_len c + 1) key d :: set_head_len 0 c) Hc)
      as [P1 P2].
    rewrite P2, P1, !map_app. simpl. by rewrite set_head_kd.
Qed.

Lemma rehash_spec n bs : forall ix emp sq,
  index_ok n ix emp -> Forall (fun b => b_key b = hash_key (b_data b)) bs ->
  exists ix' emp' sq', rehash n bs (ix, emp, sq) = (ix', emp', sq') /\ index_ok n ix' emp'
    /\ Permutation (map kd (concat ix')) (map kd bs ++ map kd (concat ix)).
Proof.
  induction bs as [|b bs IH]; intros ix emp sq I K; cbn [rehash].
  { eexists _, _, _. by split_and!. }
  apply Forall_cons_1 in K as [Kb K]. destruct (size_mask n (io_pow _ _ _ I)) as [_ ->].
  destruct (push_spec n ix emp sq (b_key b) (b_data b) I Kb) as (ix1 & emp1 & sq1 & -> & I1 & P1).
  destruct (IH ix1 emp1 sq1 I1 K) as (ix2 & emp2 & sq2 & -> & I2 & P2).
  eexists _, _, _. split; [done|]. split; [done|]. rewrite P2, P1. cbn [map app].
  symmetry. apply Permutation_middle.
Qed.

Lemma index_ok_new n : (exists k, 0 <= k < 32 /\ n = 2 ^ k) -> index_ok n (replicate (Z.to_nat n) []) n.
Proof.
  intros H. destruct (size_mask n H) as [Hn _]. split; [done| | |].
  - rewrite length_replicate. lia.
  - intros i c Hi. apply lookup_replicate in Hi as [-> _]. split; [constructor|done].
  - unfold empties. replace (List.filter is_empty (replicate (Z.to_nat n) [])) with (replicate (Z.to_nat n) (@nil (hash_bucket D))).
    + rewrite length_replicate. lia.
    + induction (Z.to_nat n) as [|m IH]; [done|]. simpl. by rewrite <- IH.
Qed.

Lemma concat_keys n ix emp :
  index_ok n ix emp -> Forall (fun b => b_key b = hash_key (b_data b)) (concat ix).
Proof.
  intros I. apply List.Forall_forall. intros b Hb. apply in_concat in Hb as (c & Hc & Hb).
  apply list_elem_of_In, list_elem_of_lookup in Hc as [i Hi].
  pose proof (co_keys _ _ _ (io_chain _ _ _ I i c Hi)) as K. rewrite List.Forall_forall in K.
  by apply K.
Qed.

Lemma concat_nils n : concat (replicate n (@nil (hash_bucket D))) = [].
Proof. by induction n. Qed.

(** Elements as key and data pairs. *)
Definition entries (h : hash D) : list (Z * D) := map kd (concat (index h)).

Lemma entries_data h : map snd (entries h) = hash_to_list h.
Proof. unfold entries, hash_to_list. by rewrite map_map. Qed.

Lemma expand_spec h :
  index_ok (hsize h) (index h) (empty h) -> hsize h < 2147483648 ->
  index_ok (hsize (hash_expand h)) (index (hash_expand h)) (empty (hash_expand h))
  /\ Permutation (entries (hash_expand h)) (entries h) /\ hcount (hash_expand h) = hcount h.
Proof.
  intros I Hs. unfold hash_expand. destruct (size_mask _ (io_pow _ _ _ I)) as [Hn _].
  rewrite u32_small by lia. case_bool; [done|].
  assert (exists k, 0 <= k < 32 /\ hsize h * 2 = 2 ^ k) as Hp.
  { destruct (io_pow _ _ _ I) as (k & Hk & E). exists (k + 1). rewrite Z.pow_add_r, <- E by lia.
    split; [|lia]. split; [lia|]. assert (2 ^ k < 2 ^ 31) as H2 by (change (2 ^ 31) with 2147483648; lia).
    apply Z.pow_lt_mono_r_iff in H2; lia. }
  destruct (rehash_spec (hsize h * 2) (concat (index h)) _ _ (ssq h) (index_ok_new _ Hp)
              (concat_keys _ _ _ I)) as (ix & emp & sq & -> & I' & P).
  rewrite concat_nils, app_nil_r in P. split_and!; done.
Qed.

(** ** Searching *)

Lemma distinct_perm l1 l2 : Permutation l1 l2 -> distinct l1 -> distinct l2.
Proof.
  assert (forall x y, hash_cmp x y = false -> hash_cmp y x = false) as Sym.
  { intros x y H. apply not_true_is_false. intros E. apply cmp_sym in E. congruence. }
  induction 1 as [|x l1 l2 P IH|x y l|l1 l2 l3 _ IH1 _ IH2]; intros H; auto.
  - inversion H; subst. constructor; [|by apply IH].
    rewrite List.Forall_forall in *. intros z Hz. apply H2. by eapply Permutation_in; [symmetry|].
  - inversion H as [|? ? Hy H']; subst. inversion H' as [|? ? Hx H'']; subst.
    inversion Hy; subst. repeat constructor; auto.
Qed.

Lemma find_chain h d :
  hash_ok h ->
  match find (matches hash_cmp (hash_key d) d) (chain_at (index h) (hindex h (hash_key d))) with
  | Some b => In (b_data b) (hash_to_list h) /\ hash_cmp (b_data b) d = true
  | None => forall e, In e (hash_to_list h) -> hash_cmp e d = false
  end.
Proof.
  intros [I _ _]. unfold hindex. destruct (size_mask _ (io_pow _ _ _ I)) as [_ ->].
  destruct (index_lookup _ _ _ (hash_key d) I) as [Hc _].
  set (i := Z.land (hash_key d) (hsize h - 1)) in *. set (c := chain_at (index h) i) in *.
  assert (forall b, In b c -> In b (concat (index h))) as Hin.
  { intros b Hb. apply in_concat. exists c. split; [|done]. apply list_elem_of_In, list_elem_of_lookup. eauto. }
  destruct (find _ c) as [b|] eqn:E.
  - apply find_some in E as [Hb E]. unfold matches in E. apply andb_true_iff in E as [_ E].
    split; [|done]. unfold hash_to_list. by apply in_map, Hin.
  - intros e He. apply not_true_is_false. intros Hcmp. unfold hash_to_list in He.
    apply in_map_iff in He as (b & <- & Hb). pose proof (concat_keys _ _ _ I) as K.
    rewrite List.Forall_forall in K. pose proof (K b Hb) as Kb.
    apply in_concat in Hb as (c' & Hc' & Hb). apply list_elem_of_In, list_elem_of_lookup in Hc' as [j Hj].
    assert (b_key b = hash_key d) as Ek by (rewrite Kb; by apply cmp_key).
    assert (j = Z.to_nat i) as ->.
    { pose proof (co_keys _ _ _ (io_chain _ _ _ I j c' Hj)) as Kc. rewrite List.Forall_forall in Kc.
      destruct (Kc b Hb) as [_ M]. rewrite Ek in M. unfold i. lia. }
    assert (c' = c) as -> by congruence.
    pose proof (find_none _ _ E b Hb) as N. unfold matches in N. rewrite Ek, Z.eqb_refl, Hcmp in N. done.
Qed.

(** An element of a set of distinct elements is determined by comparison. *)
Lemma distinct_unique l x y d :
  distinct l -> In x l -> In y l -> hash_cmp x d = true -> hash_cmp y d = true -> x = y.
Proof.
  intros H Hx Hy Cx Cy. assert (hash_cmp x y = true /\ hash_cmp y x = true) as [C1 C2].
  { split; eapply cmp_trans; eauto using cmp_sym. }
  induction H as [|z l Hz H IH]; [done|]. rewrite List.Forall_forall in Hz.
  destruct Hx as [->|Hx], Hy as [->|Hy]; [done| | |by apply IH].
  - rewrite (Hz y Hy) in C1. done.
  - rewrite (Hz x Hx) in C2. done.
Qed.

Lemma in_count_pos h x : hash_ok h -> In x (hash_to_list h) -> hcount h <> 0.
Proof. intros H Hx. rewrite (ho_count _ H). destruct (hash_to_list h); [done|simpl length; lia]. Qed.

Lemma lookup_spec h d :
  hash_ok h ->
  match hash_lookup hash_key hash_cmp h d with
  | Some e => In e (hash_to_list h) /\ hash_cmp e d = true
  | None => forall e, In e (hash_to_list h) -> hash_cmp e d = false
  end.
Proof.
  intros H. unfold hash_lookup, hash_get. destruct (Z.eqb_spec (hcount h) 0) as [E|_].
  - simpl. intros e He. by destruct (in_count_pos h e H).
  - pose proof (find_chain h d H). simpl. by destruct (find _ _).
Qed.

Lemma get_spec h d alloc :
  hash_ok h -> hsize h < 2147483648 ->
  match hash_lookup hash_key hash_cmp h d with
  | Some e => hash_get hash_key hash_cmp h d (Some alloc) = (Some e, h)
  | None =>
      match alloc d with
      | None => hash_get hash_key hash_cmp h d (Some alloc) = (None, h)
      | Some n => hash_cmp n d = true ->
          exists h', hash_get hash_key hash_cmp h d (Some alloc) = (Some n, h') /\ hash_ok h'
            /\ Permutation (hash_to_list h') (n :: hash_to_list h)
      end
  end.
Proof.
  intros H Hs. pose proof (lookup_spec h d H) as L. pose proof (find_chain h d H) as F.
  unfold hash_get. destruct (find _ _) as [b|] eqn:E.
  { destruct F as [Fi Fc]. destruct (hash_lookup _ _ h d) as [e|].
    - destruct L as [Li Lc]. by rewrite (distinct_unique _ _ _ _ (ho_distinct _ H) Fi Li Fc Lc).
    - rewrite L in Fc by done. done. }
  destruct (hash_lookup _ _ h d) as [e|]; [destruct L as [Li Lc]; rewrite F in Lc by done; done|].
  destruct (alloc d) as [n|]; [|done]. intros Hn.
  set (h1 := if HASH_THRESHOLD _ _ then _ else h).
  assert (index_ok (hsize h1) (index h1) (empty h1) /\ Permutation (entries h1) (entries h)
          /\ hcount h1 = hcount h) as (I1 & P1 & C1).
  { unfold h1. case_bool; [by apply expand_spec, Hs; apply H|]. split_and!; [apply H|done|done]. }
  clearbody h1. unfold hindex. destruct (size_mask _ (io_pow _ _ _ I1)) as [_ ->].
  destruct (push_spec _ _ _ (ssq h1) (hash_key d) n I1) as (ix & emp & sq & -> & I' & P').
  { symmetry. by apply cmp_key. }
  eexists. split; [done|].
  assert (Permutation (map b_data (concat ix)) (n :: hash_to_list h)) as P.
  { rewrite <- (entries_data h). replace (map b_data (concat ix)) with (map snd (map kd (concat ix)))
      by (by rewrite map_map). by rewrite P', <- P1. }
  split; [|exact P]. split; simpl; [done| |].
  - unfold hash_to_list. simpl. rewrite P. simpl length. rewrite C1, (ho_count _ H). lia.
  - unfold hash_to_list. simpl. eapply distinct_perm; [symmetry; exact P|].
    constructor; [|apply H]. apply List.Forall_forall. intros e He.
    apply not_true_is_false. intros C. assert (hash_cmp e d = true) as Ce.
    { eapply cmp_trans; [by apply cmp_sym|done]. }
    rewrite L in Ce; done.
Qed.

(** ** Releasing *)

Lemma unlink_spec key d c :
  match unlink hash_cmp key d c with
  | Some (x, c') => exists c1 b c2, c = c1 ++ b :: c2 /\ c' = c1 ++ c2 /\ x = b_data b
      /\ find (matches hash_cmp key d) c = Some b
  | None => find (matches hash_cmp key d) c = None
  end.
Proof.
  induction c as [|b r IH]; [done|]. cbn [unlink find].
  destruct (matches hash_cmp key d b) eqn:E; [by exists [], b, r|].
  destruct (unlink hash_cmp key d r) as [[x c']|]; [|done].
  destruct IH as (c1 & b' & c2 & -> & -> & -> & F). by exists (b :: c1), b', c2.
Qed.

Lemma chain_unlink n i c1 b c2 m :
  chain_ok n i (c1 ++ b :: c2) -> m = head_len (c1 ++ b :: c2) - 1 ->
  chain_ok n i (set_head_len m (c1 ++ c2)).
Proof.
  intros [K L] ->. apply Forall_app in K as [K1 K2]. apply Forall_cons_1 in K2 as [_ K2].
  assert (Forall (fun b => b_key b = hash_key (b_data b) /\ Z.land (b_key b) (n - 1) = Z.of_nat i) (c1 ++ c2)) as K
    by (by apply Forall_app_2).
  assert (length (c1 ++ b :: c2) = S (length (c1 ++ c2))) as Ln by (rewrite !length_app; simpl; lia).
  rewrite L, Ln. destruct (c1 ++ c2) as [|x r]; [by split|]. apply Forall_cons_1 in K as [Kx K].
  split; [by constructor|]. simpl. lia.
Qed.

Lemma release_spec h d :
  hash_ok h ->
  match hash_lookup hash_key hash_cmp h d with
  | Some e => exists h', hash_release hash_key hash_cmp h d = (Some e, h') /\ hash_ok h'
      /\ Permutation (hash_to_list h) (e :: hash_to_list h')
  | None => hash_release hash_key hash_cmp h d = (None, h)
  end.
Proof.
  intros H. pose proof (lookup_spec h d H) as L. pose proof (find_chain h d H) as F.
  unfold hash_release. set (i := hindex h (hash_key d)) in *.
  pose proof (unlink_spec (hash_key d) d (chain_at (index h) i)) as U.
  destruct (unlink _ _ _ _) as [[x c']|].
  2: { rewrite U in F. destruct (hash_lookup _ _ h d) as [e|]; [|done].
       destruct L as [Li Lc]. by rewrite F in Lc. }
  destruct U as (c1 & b & c2 & Ec & -> & -> & U). rewrite U in F. destruct F as [Fi Fc].
  destruct (hash_lookup _ _ h d) as [e|]; [|by rewrite L in Fc].
  destruct L as [Li Lc]. rewrite <- (distinct_unique _ _ _ _ (ho_distinct _ H) Fi Li Fc Lc).
  pose proof (ho_index _ H) as I. unfold hindex in i. destruct (size_mask _ (io_pow _ _ _ I)) as [Hn Em].
  unfold i in *. rewrite Em in *. clear i. set (i := Z.land (hash_key d) (hsize h - 1)) in *.
  destruct (index_lookup _ _ _ (hash_key d) I) as [Hc Cok]. fold i in Hc, Cok.
  set (c := chain_at (index h) i) in *. set (m := head_len c - 1).
  eexists. split; [done|].
  destruct (concat_split (index h) (Z.to_nat i) c (set_head_len m (c1 ++ c2)) Hc) as [P1 P2].
  assert (Permutation (hash_to_list h)
            (b_data b :: map b_data (concat (<[Z.to_nat i := set_head_len m (c1 ++ c2)]> (index h))))) as P.
  { unfold hash_to_list. rewrite P1, P2, Ec, !map_app. cbn [map].
    replace (map b_data (set_head_len m (c1 ++ c2))) with (map b_data (c1 ++ c2)) by (by destruct (c1 ++ c2)).
    rewrite map_app, <- !app_assoc. symmetry. apply Permutation_middle. }
  split; [|exact P]. pose proof (io_len _ _ _ I) as Li'. pose proof (mask_range _ (hash_key d) (io_pow _ _ _ I)) as R.
  fold i in R. split; simpl.
  - split.
    + apply I.
    + by rewrite length_insert.
    + intros j c' Hj. destruct (decide (j = Z.to_nat i)) as [->|Hne].
      * rewrite list_lookup_insert_eq in Hj by lia. injection Hj as <-.
        rewrite Ec in Cok. eapply chain_unlink; [exact Cok|]. unfold m. by rewrite Ec.
      * rewrite list_lookup_insert_ne in Hj by done. by eapply io_chain.
    + rewrite (empties_insert _ _ c) by done. pose proof (empties_range (index h)).
      rewrite (io_empty _ _ _ I). assert (is_empty c = false) as -> by (rewrite Ec; by destruct c1).
      destruct (c1 ++ c2) as [|y r]; simpl; [rewrite u64_small by lia|]; lia.
  - rewrite (ho_count _ H), P. unfold hash_to_list. simpl. lia.
  - pose proof (distinct_perm _ _ P (ho_distinct _ H)) as Dd. by inversion Dd.
Qed.

(** C19: a hash table of less than 2^31 chains is a set up to the comparison of its owner (an
    equivalence that the hash key respects): the lookup returns the entry equal to
    its argument exactly when there is one; [hash_get] returns it or adds the
    allocated one, which has to equal the argument, growing the table when needed;
    [hash_release] removes exactly it; the counts of entries, of empty chains and of
    the length of every chain stay right. *)
Theorem hash_refines_set h d alloc :
  hash_ok h -> hsize h < 2147483648 ->
  match hash_lookup hash_key hash_cmp h d with
  | Some e =>
      In e (hash_to_list h) /\ hash_cmp e d = true
      /\ hash_get hash_key hash_cmp h d (Some alloc) = (Some e, h)
      /\ exists h', hash_release hash_key hash_cmp h d = (Some e, h') /\ hash_ok h'
           /\ Permutation (hash_to_list h) (e :: hash_to_list h')
  | None =>
      (forall e, In e (hash_to_list h) -> hash_cmp e d = false)
      /\ hash_release hash_key hash_cmp h d = (None, h)
      /\ match alloc d with
         | None => hash_get hash_key hash_cmp h d (Some alloc) = (None, h)
         | Some n => hash_cmp n d = true ->
             exists h', hash_get hash_key hash_cmp h d (Some alloc) = (Some n, h') /\ hash_ok h'
               /\ Permutation (hash_to_list h') (n :: hash_to_list h)
         end
  end.
Proof.
  intros H Hs. pose proof (lookup_spec h d H) as L. pose proof (get_spec h d alloc H Hs) as G.
  pose proof (release_spec h d H) as R. destruct (hash_lookup _ _ h d) as [e|].
  - destruct L. by split_and!.
  - by split_and!.
Qed.
End Facts.

(** The table only depends on what the functions say of its entries. *)
Lemma hash_ok_ext {D} (key key' : D -> Z) (cmp cmp' : D -> D -> bool) (h : hash D) :
  (forall x, In x (hash_to_list h) -> key x = key' x) ->
  (forall x y, In x (hash_to_list h) -> In y (hash_to_list h) -> cmp x y = cmp' x y) ->
  hash_ok key cmp h -> hash_ok key' cmp' h.
Proof.
  intros Hk Hc [[P L C E] N Dd]. split; [split|done|]; try done.
  - intros i c Hi. destruct (C i c Hi) as [K Ln]. split; [|done].
    rewrite List.Forall_forall in *. intros b Hb. destruct (K b Hb) as [K1 K2]. split; [|done].
    rewrite K1. apply Hk. unfold hash_to_list. apply in_map, in_concat. exists c. split; [|done].
    apply list_elem_of_In, list_elem_of_lookup. eauto.
  - revert Hc Dd. generalize (hash_to_list h). intros l. induction l as [|x l IH]; intros Hc Dd; [constructor|].
    inversion Dd as [|? ? Hx Hl]; subst. constructor.
    + rewrite List.Forall_forall in *. intros y Hy. rewrite <- Hc; [by apply Hx|by left|by right].
    + apply IH; [|done]. intros. apply Hc; by right.
Qed.

(** An owner with integers as data. *)
#[local] Instance Z_hash_fns : HashFns u32 Z.eqb.
Proof.
  split.
  - intros x. apply Z.eqb_refl.
  - intros x y. by rewrite Z.eqb_sym.
  - intros x y z. rewrite !Z.eqb_eq. congruence.
  - intros x y. rewrite Z.eqb_eq. congruence.
  - intros x. apply Z.mod_pos_bound. lia.
Qed.

Lemma hash_refines_set_witness :
  exists h', hash_get u32 Z.eqb (mkHash [[]] 1 0 0 1 0) 7 (Some hash_alloc_intern) = (Some 7, h')
    /\ Permutation (hash_to_list h') [7].
Proof.
  assert (hash_ok u32 Z.eqb (mkHash [[]] 1 0 0 1 0)) as H.
  { split; [split|done|constructor]; simpl; try done; [by exists 0|].
    intros [|i] c Hc; [|done]. injection Hc as <-. by split. }
  pose proof (hash_refines_set u32 Z.eqb (mkHash [[]] 1 0 0 1 0) 7 hash_alloc_intern H ltac:(done)) as R.
  destruct R as (_ & _ & (h' & E & _ & P)); [done|]. exists h'. split; [exact E|exact P].
Defined.

(** The sum of the squares of the chain lengths, which [ssq] stands for. *)
Definition squares {D} (h : hash D) : Z :=
  fold_right (fun c n => Z.of_nat (length c) * Z.of_nat (length c) + n) 0 (index h).

(** [hash_expand] adds the squares of the new chains without dropping those of
    the old ones: after the first growth [ssq] is not the sum of the squares any
    more. *)
Lemma hash_expand_ssq_drifts :
  let add h d := (hash_get u32 Z.eqb h d (Some hash_alloc_intern)).2 in
  let h1 := add (mkHash [[]] 1 0 0 1 0) 0 in
  let h2 := add h1 1 in
  ssq h1 = squares h1 /\ squares h2 = 2 /\ ssq h2 = 3.
Proof. vm_compute. done. Qed.
