(* ===== verification/AsPathIntern.v ===== *)
(** * Shared AS paths (bgpd/bgp_aspath.c)

    Equal AS paths are stored once, in the hash table [ashash], with a count of
    their holders.  Paths live in a heap; the table holds addresses and compares
    what is stored there, so it is a client of [Hash] through [HashFns].  The count of
    holders, an [unsigned long], is a number without bound here: 2^64 holders do not fit
    in memory. *)

From stdpp Require Import gmap.
From Stdlib Require Import Sorting.Permutation.
From S2P Require Import Prelude Stream AsPath AsPathText AsPathOps AsPathWire.
From S2P Require Import AsPathTextFacts AsPathFacts AsPathJoin Hash HashFacts.

Record as_state := mkAs {
  paths : gmap nat aspath;
  next_path : nat;
  ashash : hash nat
}.

Definition set_paths (m : gmap nat aspath) (st : as_state) : as_state :=
  mkAs m (next_path st) (ashash st).
Definition set_ashash (h : hash nat) (st : as_state) : as_state :=
  mkAs (paths st) (next_path st) h.
(** [XCALLOC] of a path. *)
Definition new_path (a : aspath) (st : as_state) : nat * as_state :=
  (next_path st, mkAs (<[next_path st := a]> (paths st)) (S (next_path st)) (ashash st)).

Definition path_at (st : as_state) (p : nat) : outcome aspath :=
  match paths st !! p with Some a => Ret a | None => Abort end.

Section Intern.
(** [jhash (data, length, 2334325)] of lib/jhash.c: any function of the bytes. *)
Context (jhash : list Z -> Z).

(** [aspath_key_make] and [aspath_cmp] on addresses. *)
Definition aspath_key_make (st : as_state) (p : nat) : Z :=
  match paths st !! p with
  | Some a => u32 (jhash (take (Z.to_nat (str_len a)) (default [] (str a))))
  | None => 0
  end.
Definition path_cmp (st : as_state) (p q : nat) : bool :=
  match paths st !! p, paths st !! q with
  | Some a, Some b => aspath_cmp a b
  | _, _ => (p =? q)%nat
  end.

(** [ashash] with its functions. *)
Definition ashash_get (st : as_state) (p : nat) (alloc : nat -> option nat) : option nat * as_state :=
  let '(r, h) := hash_get (aspath_key_make st) (path_cmp st) (ashash st) p (Some alloc) in
  (r, set_ashash h st).

Definition aspath_intern (st : as_state) (p : nat) : outcome (nat * as_state) :=
  a ← path_at st p;
  assert! (refcnt a =? 0) ;;
  assert! (match str a with Some _ => true | None => false end) ;;
  match ashash_get st p hash_alloc_intern with
  | (None, _) => Abort
  | (Some q, st) =>
      let st := if (q =? p)%nat then st else set_paths (delete p (paths st)) st in
      b ← path_at st q;
      Ret (q, set_paths (<[q := set_refcnt (refcnt b + 1) b]> (paths st)) st)
  end.

(** The holder's pointer is reset to NULL when the path is freed: the result
    [false]. *)
Definition aspath_unintern (st : as_state) (p : nat) : outcome (bool * as_state) :=
  a ← path_at st p;
  let n := if refcnt a =? 0 then 0 else refcnt a - 1 in
  let st := set_paths (<[p := set_refcnt n a]> (paths st)) st in
  if n =? 0 then
    match hash_release (aspath_key_make st) (path_cmp st) (ashash st) p with
    | (None, _) => Abort
    | (Some _, h) => Ret (false, set_ashash h (set_paths (delete p (paths st)) st))
    end
  else Ret (true, st).

(** The temporary path on the stack gets an address of its own;
    [aspath_key_make] builds its text.  [None] is the result NULL. *)
Definition aspath_parse (st : as_state) (s : stream) (length : Z) (use32bit : bool)
    (mode : asnotation_mode) : outcome (option nat * stream * as_state) :=
  if negb (length mod 2 =? 0) then Ret (None, s, st)
  else
    '(segs, s) ← assegments_parse s length use32bit;
    match segs with
    | None => Ret (None, s, st)
    | Some l =>
        a ← aspath_str_update (mkAspath 0 l None 0 (aspath_count_hops_internal l) mode);
        let '(tmp, st) := new_path a st in
        let new := next_path st in
        assert! (match str a with Some _ => true | None => false end) ;;
        let st' := mkAs (<[new := a]> (paths st)) (S new) (ashash st) in
        match ashash_get st' tmp (fun _ => Some new) with
        | (None, _) => Abort
        | (Some q, st) =>
            let st := set_paths (delete tmp (if (q =? new)%nat then paths st else delete new (paths st))) st in
            b ← path_at st q;
            Ret (Some q, s, set_paths (<[q := set_refcnt (refcnt b + 1) b]> (paths st)) st)
        end
    end.

(** ** The invariant *)

Record as_ok (st : as_state) : Prop := {
  ak_paths p a : paths st !! p = Some a -> path_ok a /\ (p < next_path st)%nat /\ 0 <= refcnt a;
  ak_hash : hash_ok (aspath_key_make st) (path_cmp st) (ashash st);
  ak_held p : In p (hash_to_list (ashash st)) <-> exists a, paths st !! p = Some a /\ 0 < refcnt a
}.

Lemma segs_cmp_eq l1 : forall l2, segs_cmp l1 l2 = true <-> l1 = l2.
Proof.
  assert (forall xs ys, length xs = length ys ->
    forallb (fun '(x, y) => x =? y) (zip xs ys) = true <-> xs = ys) as Z.
  { induction xs as [|x xs IH]; intros [|y ys] L; simpl in *; try done; try lia.
    rewrite andb_true_iff, Z.eqb_eq, IH by lia. split; [by intros [-> ->]|by intros [= -> ->]]. }
  induction l1 as [|[t1 a1] r1 IH]; intros [|[t2 a2] r2]; try done.
  cbn [segs_cmp seg_type seg_as]. unfold slen. cbn [seg_as].
  rewrite !andb_true_iff, !Z.eqb_eq, IH. split.
  - intros [[[-> L] E] ->]. apply Z in E; [|lia]. by subst.
  - intros [= -> -> ->]. split_and!; try done. by apply Z.
Qed.

Lemma aspath_cmp_eq a b :
  aspath_cmp a b = true <-> asnotation a = asnotation b /\ segments a = segments b.
Proof. unfold aspath_cmp. by rewrite andb_true_iff, bool_decide_eq_true, segs_cmp_eq. Qed.

(** Equal paths have equal texts, so the table finds them. *)
#[local] Instance path_fns st :
  (forall p a, paths st !! p = Some a -> path_ok a) -> HashFns (aspath_key_make st) (path_cmp st).
Proof.
  intros Ok. unfold path_cmp, aspath_key_make. split.
  - intros x. destruct (paths st !! x); [by apply aspath_cmp_eq|apply Nat.eqb_refl].
  - intros x y. destruct (paths st !! x), (paths st !! y); rewrite ?Nat.eqb_eq, ?aspath_cmp_eq;
      intros; intuition congruence.
  - intros x y z. destruct (paths st !! x) eqn:Ex, (paths st !! y) eqn:Ey, (paths st !! z) eqn:Ez;
      rewrite ?Nat.eqb_eq, ?aspath_cmp_eq; intros; subst; try congruence; intuition congruence.
  - intros x y. destruct (paths st !! x) as [a|] eqn:Ex, (paths st !! y) as [b|] eqn:Ey; try done;
      rewrite ?Nat.eqb_eq, ?aspath_cmp_eq; intros H; subst; try congruence.
    destruct H as [Hm Hs]. pose proof (Ok _ _ Ex) as Pa. pose proof (Ok _ _ Ey) as Pb.
    rewrite (po_str_len _ Pa), (po_str_len _ Pb), (po_str _ Pa), (po_str _ Pb), Hm, Hs. done.
  - intros x. destruct (paths st !! x); [apply Z.mod_pos_bound; lia|lia].
Qed.

Section Ops.
Context (st : as_state) (Ok : as_ok st).

Lemma ok_fns : HashFns (aspath_key_make st) (path_cmp st).
Proof. apply path_fns. intros p a H. by apply (ak_paths _ Ok) in H as [? _]. Qed.

(** Interned paths that are equal are the same. *)
Lemma interned_unique p q a b :
  paths st !! p = Some a -> paths st !! q = Some b -> 0 < refcnt a -> 0 < refcnt b ->
  segments a = segments b -> asnotation a = asnotation b -> p = q.
Proof.
  intros Hp Hq Ra Rb Es En. pose proof ok_fns.
  eapply (distinct_unique (aspath_key_make st) (path_cmp st) _ p q p (ho_distinct _ _ _ (ak_hash _ Ok))).
  - apply (ak_held _ Ok). eauto.
  - apply (ak_held _ Ok). eauto.
  - apply cmp_refl.
  - unfold path_cmp. rewrite Hp, Hq. by apply aspath_cmp_eq.
Qed.

(** Changing only counts and private paths leaves the table as it is. *)
Lemma ok_change st' :
  next_path st' = next_path st ->
  hash_ok (aspath_key_make st) (path_cmp st) (ashash st') ->
  (forall p a, paths st' !! p = Some a -> 0 <= refcnt a
     /\ exists b, paths st !! p = Some b /\ segments a = segments b /\ asnotation a = asnotation b
          /\ str a = str b /\ str_len a = str_len b /\ count a = count b) ->
  (forall p, In p (hash_to_list (ashash st')) <-> exists a, paths st' !! p = Some a /\ 0 < refcnt a) ->
  as_ok st'.
Proof.
  intros Hn H Hp Hi.
  assert (forall p, In p (hash_to_list (ashash st')) -> exists a b, paths st' !! p = Some a
    /\ paths st !! p = Some b /\ segments a = segments b /\ asnotation a = asnotation b
    /\ str a = str b /\ str_len a = str_len b) as Hin.
  { intros p Hin. apply Hi in Hin as (a & Ha & _). destruct (Hp p a Ha) as (_ & b & Hb & E1 & E2 & E3 & E4 & _).
    eauto 10. }
  split; [| |exact Hi].
  - intros p a Ha. destruct (Hp p a Ha) as (R & b & Hb & E1 & E2 & E3 & E4 & E5).
    destruct (ak_paths _ Ok p b Hb) as ([P1 P2 P3 P4] & Hlt & _). rewrite Hn. split_and!; try done.
    split; rewrite ?E1, ?E2, ?E3, ?E4, ?E5; done.
  - revert H. apply hash_ok_ext.
    + intros p Hin'. destruct (Hin p Hin') as (a & b & Ha & Hb & _ & _ & E3 & E4).
      unfold aspath_key_make. by rewrite Ha, Hb, E3, E4.
    + intros p q Hp' Hq'. destruct (Hin p Hp') as (a & b & Ha & Hb & E1 & E2 & _).
      destruct (Hin q Hq') as (a' & b' & Ha' & Hb' & E1' & E2' & _).
      unfold path_cmp, aspath_cmp. by rewrite Ha, Hb, Ha', Hb', E1, E2, E1', E2'.
Qed.

Lemma change_self p a b n :
  paths st !! p = Some b -> a = set_refcnt n b -> 0 <= n ->
  0 <= refcnt a /\ exists b, paths st !! p = Some b /\ segments a = segments b
    /\ asnotation a = asnotation b /\ str a = str b /\ str_len a = str_len b /\ count a = count b.
Proof. intros Hp -> Hn. split; [done|]. by exists b. Qed.

Lemma change_none p a :
  paths st !! p = Some a ->
  0 <= refcnt a /\ exists b, paths st !! p = Some b /\ segments a = segments b
    /\ asnotation a = asnotation b /\ str a = str b /\ str_len a = str_len b /\ count a = count b.
Proof. intros Hp. split; [by apply (ak_paths _ Ok) in Hp as (_ & _ & ?)|]. by exists a. Qed.

(** Looking up the private path [p], with the private copy [n] of it to add:
    the path [q] that is found or added, and the state after its holder is
    counted and the private paths that are not used are freed. *)
Lemma hold_spec p n a c :
  hsize (ashash st) < 2147483648 ->
  paths st !! p = Some a -> refcnt a = 0 -> paths st !! n = Some c -> refcnt c = 0 ->
  segments c = segments a -> asnotation c = asnotation a ->
  exists q h b, hash_get (aspath_key_make st) (path_cmp st) (ashash st) p (Some (fun _ => Some n)) = (Some q, h)
    /\ paths st !! q = Some b /\ segments b = segments a /\ asnotation b = asnotation a
    /\ (q = n \/ q <> p /\ q <> n /\ 0 < refcnt b)
    /\ forall m,
         (forall r, m !! r = if decide (r = q) then Some (set_refcnt (refcnt b + 1) b)
                             else if decide (r = p \/ r = n) then None else paths st !! r) ->
         as_ok (mkAs m (next_path st) h).
Proof.
  intros Hs Hp Ha Hn Hc Es En. pose proof ok_fns as F.
  assert (path_cmp st n p = true) as Cn by (unfold path_cmp; rewrite Hn, Hp; by apply aspath_cmp_eq).
  assert (forall r, r = p \/ r = n -> ~ exists b, paths st !! r = Some b /\ 0 < refcnt b) as Priv.
  { intros r Hr (b & Hb & Rb). destruct Hr as [-> | ->]; rewrite Hb in *; simplify_eq; lia. }
  pose proof (lookup_spec _ _ (ashash st) p (ak_hash _ Ok)) as L.
  pose proof (get_spec _ _ (ashash st) p (fun _ => Some n) (ak_hash _ Ok) Hs) as G.
  assert (forall q h b m, paths st !! q = Some b -> hash_ok (aspath_key_make st) (path_cmp st) h ->
    (forall r, In r (hash_to_list h) <-> r = q \/ In r (hash_to_list (ashash st))) ->
    (forall r, m !! r = if decide (r = q) then Some (set_refcnt (refcnt b + 1) b)
               else if decide (r = p \/ r = n) then None else paths st !! r) ->
    as_ok (mkAs m (next_path st) h)) as Done.
  { intros q h b m Hb Hh Hi Hm. destruct (ak_paths _ Ok q b Hb) as (_ & _ & Rb).
    apply ok_change; cbn [ashash paths next_path]; try done.
    - intros r x Hr. rewrite Hm in Hr. case_decide; [subst; injection Hr as <-; eapply change_self; [done|done|simpl; lia]|].
      case_decide; [done|]. by apply change_none.
    - intros r. rewrite Hi, (ak_held _ Ok), Hm. case_decide as Hq; [subst r|].
      + split; [|by left]. intros _. eexists. split; [done|]. simpl. lia.
      + split.
        * intros [|H]; [done|]. case_decide as Hr; [by destruct (Priv r Hr)|done].
        * intros H. right. case_decide; [by destruct H as (? & ? & _)|done]. }
  destruct (hash_lookup _ _ _ p) as [q|].
  - destruct L as [Li Lc]. pose proof (proj1 (ak_held _ Ok q) Li) as (b & Hb & Rb). exists q, (ashash st), b.
    unfold path_cmp in Lc. rewrite Hb, Hp in Lc. apply aspath_cmp_eq in Lc as [Ln Ls].
    split; [done|]. split_and!; try done.
    + right. split_and!; try done; intros ->; [by apply (Priv p (or_introl eq_refl)); eauto|].
      apply (Priv n (or_intror eq_refl)). eauto.
    + intros m Hm. eapply Done; try done; [apply (ak_hash _ Ok)|]. intros r. split; [by right|].
      by intros [->|].
  - destruct G as (h & -> & Hh & Pm); [done|]. exists n, h, c. split; [done|]. split_and!; try done; [by left|].
    intros m Hm. eapply Done; try done. intros r. split.
    + intros H. apply (Permutation_in _ Pm) in H as [->|]; [by left|by right].
    + intros H. apply (Permutation_in _ (Permutation_sym Pm)). destruct H as [->|]; [by left|by right].
Qed.

Lemma intern_spec p a :
  hsize (ashash st) < 2147483648 -> paths st !! p = Some a -> refcnt a = 0 ->
  exists q st' b, aspath_intern st p = Ret (q, st') /\ as_ok st'
    /\ paths st' !! q = Some b /\ segments b = segments a /\ asnotation b = asnotation a
    /\ refcnt b = 1 + match paths st !! q with Some b0 => refcnt b0 | None => 0 end
    /\ (q <> p -> paths st' !! p = None)
    /\ forall r, r <> p -> r <> q -> paths st' !! r = paths st !! r.
Proof.
  intros Hs Hp Ha. destruct (ak_paths _ Ok p a Hp) as (Pa & _ & _).
  destruct (hold_spec p p a a Hs Hp Ha Hp Ha eq_refl eq_refl)
    as (q & h & b & G & Hb & Es & En & Hq & Done).
  unfold aspath_intern, path_at, ashash_get. rewrite Hp. cbn [mbind outcome_bind].
  rewrite Ha, (po_str _ Pa). cbn [Z.eqb].
  change hash_alloc_intern with (fun x : nat => Some x).
  assert (hash_get (aspath_key_make st) (path_cmp st) (ashash st) p (Some (fun x => Some x)) = (Some q, h)) as ->.
  { unfold hash_get in *. exact G. }
  set (m0 := if (q =? p)%nat then paths st else delete p (paths st)).
  assert (m0 !! q = Some b) as E0.
  { unfold m0. destruct (Nat.eqb_spec q p); [done|]. by rewrite lookup_delete_ne. }
  exists q, (mkAs (<[q := set_refcnt (refcnt b + 1) b]> m0) (next_path st) h), (set_refcnt (refcnt b + 1) b).
  assert (forall r, <[q := set_refcnt (refcnt b + 1) b]> m0 !! r
    = if decide (r = q) then Some (set_refcnt (refcnt b + 1) b)
      else if decide (r = p \/ r = p) then None else paths st !! r) as Hm.
  { intros r. case_decide as Hr; [subst; apply lookup_insert_eq|]. rewrite lookup_insert_ne by done.
    unfold m0. destruct (Nat.eqb_spec q p) as [->|Hqp].
    - rewrite decide_False by tauto. done.
    - case_decide as Hp'; [destruct Hp' as [-> | ->]; apply lookup_delete_eq|]. by rewrite lookup_delete_ne by (intros <-; tauto). }
  cbn [paths]. split.
  { unfold m0 in *. destruct (q =? p)%nat; cbn [set_ashash set_paths paths]; by rewrite E0. }
  split; [by apply Done|]. split; [apply lookup_insert_eq|]. split_and!; try done.
  - rewrite Hb. simpl. lia.
  - intros Hne. rewrite Hm, decide_False, decide_True by auto. done.
  - intros r H1 H2. rewrite Hm, !decide_False by tauto. done.
Qed.

Lemma unintern_spec p a :
  paths st !! p = Some a -> 0 < refcnt a ->
  exists st', aspath_unintern st p = Ret (1 <? refcnt a, st') /\ as_ok st'
    /\ paths st' !! p = (if 1 <? refcnt a then Some (set_refcnt (refcnt a - 1) a) else None)
    /\ forall r, r <> p -> paths st' !! r = paths st !! r.
Proof.
  intros Hp Ha. unfold aspath_unintern, path_at. rewrite Hp. cbn [mbind outcome_bind].
  rewrite (proj2 (Z.eqb_neq (refcnt a) 0)) by lia.
  set (st1 := set_paths (<[p := set_refcnt (refcnt a - 1) a]> (paths st)) st).
  destruct (Z.ltb_spec 1 (refcnt a)) as [H1|H1].
  - rewrite (proj2 (Z.eqb_neq _ _)) by lia. eexists. split; [done|]. split_and!.
    + apply ok_change; try done; cbn [set_paths set_ashash ashash paths next_path st1].
      * apply (ak_hash _ Ok).
      * intros r c Hr. unfold st1 in Hr. cbn [set_paths paths] in Hr. destruct (decide (r = p)) as [->|Hrp].
        -- rewrite lookup_insert_eq in Hr. injection Hr as <-. eapply change_self; [done|done|simpl; lia].
        -- rewrite lookup_insert_ne in Hr by done. by apply change_none.
      * intros r. rewrite (ak_held _ Ok). unfold st1. cbn [set_paths paths].
        destruct (decide (r = p)) as [->|Hrp]; [|by rewrite lookup_insert_ne].
        rewrite lookup_insert_eq, Hp. split; intros _; eexists; (split; [done|]); simpl; lia.
    + apply lookup_insert_eq.
    + intros r Hr. unfold st1. cbn [set_paths paths]. by rewrite lookup_insert_ne.
  - assert (refcnt a - 1 = 0) as E by lia. rewrite E. cbn [Z.eqb].
    assert (forall q, aspath_key_make st1 q = aspath_key_make st q) as Ek.
    { intros q. unfold aspath_key_make, st1. cbn [set_paths paths].
      destruct (decide (q = p)) as [->|Hq]; [by rewrite lookup_insert_eq, Hp|by rewrite lookup_insert_ne]. }
    assert (forall q r, path_cmp st1 q r = path_cmp st q r) as Ec.
    { intros q r. unfold path_cmp, st1. cbn [set_paths paths].
      destruct (decide (q = p)) as [->|Hq], (decide (r = p)) as [->|Hr];
        rewrite ?lookup_insert_eq, ?lookup_insert_ne, ?Hp by done; done. }
    assert (HashFns (aspath_key_make st1) (path_cmp st1)) as F.
    { pose proof ok_fns as [F1 F2 F3 F4 F5]. split; intros *; rewrite ?Ec, ?Ek; eauto. }
    assert (hash_ok (aspath_key_make st1) (path_cmp st1) (ashash st1)) as H.
    { eapply hash_ok_ext; [| |apply (ak_hash _ Ok)]; intros; by rewrite ?Ek, ?Ec. }
    pose proof (lookup_spec _ _ (ashash st1) p H) as L. pose proof (release_spec _ _ (ashash st1) p H) as R.
    assert (In p (hash_to_list (ashash st1))) as Hin by (apply (ak_held _ Ok); eauto).
    destruct (hash_lookup _ _ _ p) as [q|]; [|specialize (L p Hin); by rewrite cmp_refl in L].
    destruct L as [Li Lc]. assert (q = p) as ->.
    { eapply (distinct_unique _ _ _ q p p (ho_distinct _ _ _ H)); try done. apply cmp_refl. }
    destruct R as (h' & -> & Hh & Pm). eexists. split; [done|].
    assert (forall r, In r (hash_to_list h') <-> r <> p /\ In r (hash_to_list (ashash st))) as Hmem.
    { pose proof (distinct_perm _ _ _ _ Pm (ho_distinct _ _ _ H)) as Dd. inversion Dd as [|? ? Hd _]; subst.
      rewrite List.Forall_forall in Hd. intros r. split.
      - intros Hr. split; [intros ->; specialize (Hd p Hr); by rewrite cmp_refl in Hd|].
        apply (Permutation_in _ (Permutation_sym Pm)). by right.
      - intros [Hne Hr]. apply (Permutation_in _ Pm) in Hr as [|]; [congruence|done]. }
    cbn [set_ashash set_paths paths st1]. split_and!.
    + apply ok_change; cbn [set_paths set_ashash ashash paths next_path st1]; try done.
      * revert Hh. apply hash_ok_ext; intros; by rewrite ?Ek, ?Ec.
      * intros r c Hr. rewrite delete_insert_eq in Hr. apply lookup_delete_Some in Hr as [_ Hr].
        by apply change_none.
      * intros r. rewrite Hmem, (ak_held _ Ok), delete_insert_eq.
        destruct (decide (r = p)) as [->|Hrp].
        -- rewrite lookup_delete_eq. split; [by intros [? _]|by intros (? & ? & _)].
        -- rewrite lookup_delete_ne by done. split; [by intros [_ ?]|done].
    + rewrite delete_insert_eq. apply lookup_delete_eq.
    + intros r Hr. rewrite delete_insert_eq. by apply lookup_delete_ne.
Qed.

(** A new private path. *)
Lemma ok_new a :
  path_ok a -> refcnt a = 0 ->
  as_ok (mkAs (<[next_path st := a]> (paths st)) (S (next_path st)) (ashash st)).
Proof.
  intros Pa Ra. assert (forall p b, paths st !! p = Some b -> p <> next_path st) as Old.
  { intros p b Hb. apply (ak_paths _ Ok) in Hb as (_ & ? & _). lia. }
  split; cbn [paths next_path ashash].
  - intros p b Hb. destruct (decide (p = next_path st)) as [->|Hne].
    + rewrite lookup_insert_eq in Hb. injection Hb as <-. split_and!; [done|lia|lia].
    + rewrite lookup_insert_ne in Hb by done. apply (ak_paths _ Ok) in Hb as (? & ? & ?).
      split_and!; [done|lia|done].
  - revert Ok. intros [_ H Hi]. revert H.
    assert (forall p, In p (hash_to_list (ashash st)) ->
      <[next_path st := a]> (paths st) !! p = paths st !! p) as E.
    { intros p Hp. apply Hi in Hp as (b & Hb & _). rewrite lookup_insert_ne; [done|].
      intros <-. by apply (Old _ _ Hb). }
    apply hash_ok_ext.
    + intros p Hp. unfold aspath_key_make. cbn [paths]. by rewrite E.
    + intros p q Hp Hq. unfold path_cmp. cbn [paths]. by rewrite !E.
  - intros p. rewrite (ak_held _ Ok). destruct (decide (p = next_path st)) as [->|Hne].
    + rewrite lookup_insert_eq. split.
      * intros (b & Hb & _). by destruct (Old _ _ Hb).
      * intros (b & [= <-] & Hb). lia.
    + by rewrite lookup_insert_ne.
Qed.
End Ops.

Lemma parse_spec st s len u mode l s' :
  as_ok st -> hsize (ashash st) < 2147483648 -> len mod 2 = 0 ->
  assegments_parse s len u = Ret (Some l, s') -> Forall typed l ->
  exists q st' b, aspath_parse st s len u mode = Ret (Some q, s', st') /\ as_ok st'
    /\ paths st' !! q = Some b /\ segments b = l /\ asnotation b = mode
    /\ refcnt b = 1 + match paths st !! q with Some b0 => refcnt b0 | None => 0 end
    /\ forall r c, paths st !! r = Some c -> r <> q -> paths st' !! r = Some c.
Proof.
  intros Ok Hs He E T. unfold aspath_parse. rewrite He, E. cbn [Z.eqb negb mbind outcome_bind].
  unfold aspath_str_update. rewrite make_str_spec. cbn [mbind outcome_bind].
  set (a := set_str _ _ _).
  assert (path_ok a) as Pa.
  { unfold a, refreshed. split; simpl; try done; by rewrite bool_decide_eq_true_2. }
  unfold new_path. cbn [next_path paths ashash]. set (tmp := next_path st). set (new := S tmp).
  rewrite (po_str _ Pa). cbn match.
  pose proof (ok_new st Ok a Pa eq_refl) as Ok1. pose proof (ok_new _ Ok1 a Pa eq_refl) as Ok2.
  cbn [paths next_path ashash] in Ok2. fold tmp new in Ok2.
  set (st2 := mkAs _ (S new) _) in *.
  assert (new <> tmp) as Hnt by (unfold new; lia).
  assert (paths st2 !! tmp = Some a /\ paths st2 !! new = Some a) as [Ht Hn].
  { unfold st2. cbn [paths]. split; [rewrite lookup_insert_ne by done|]; apply lookup_insert_eq. }
  destruct (hold_spec st2 Ok2 tmp new a a Hs Ht eq_refl Hn eq_refl eq_refl eq_refl)
    as (q & h & b & G & Hb & Es & En & Hq & Done).
  unfold ashash_get. fold st2. rewrite G.
  assert (q <> tmp) as Hqt by (destruct Hq as [-> |[? _]]; done).
  set (m0 := delete tmp (if (q =? new)%nat then paths st2 else delete new (paths st2))).
  assert (forall r, m0 !! r = if decide (r = tmp) then None
            else if decide (r = new /\ q <> new) then None else paths st2 !! r) as Hm0.
  { intros r. unfold m0. case_decide as H1; [subst; apply lookup_delete_eq|].
    rewrite lookup_delete_ne by done. destruct (Nat.eqb_spec q new).
    - by rewrite decide_False by tauto.
    - case_decide as H2; [destruct H2 as [-> _]; apply lookup_delete_eq|].
      apply lookup_delete_ne. intros <-. tauto. }
  assert (m0 !! q = Some b) as E0 by (rewrite Hm0, !decide_False by tauto; done).
  exists q, (mkAs (<[q := set_refcnt (refcnt b + 1) b]> m0) (S new) h), (set_refcnt (refcnt b + 1) b).
  split; [unfold path_at, set_ashash, set_paths; cbn [paths]; fold m0; by rewrite E0|].
  assert (forall r, r <> tmp -> r <> new -> paths st2 !! r = paths st !! r) as Hold.
  { intros r H1 H2. unfold st2. cbn [paths]. by rewrite !lookup_insert_ne by done. }
  assert (forall r c, paths st !! r = Some c -> r <> tmp /\ r <> new) as Lt.
  { intros r c Hr. apply (ak_paths _ Ok) in Hr as (_ & ? & _). unfold new, tmp. lia. }
  split.
  { apply Done. intros r. destruct (decide (r = q)) as [->|Hr]; [apply lookup_insert_eq|].
    rewrite lookup_insert_ne, Hm0 by done. destruct (decide (r = tmp)), (decide (r = new /\ q <> new)),
      (decide (r = tmp \/ r = new)); try done; exfalso; destruct Hq as [->|]; tauto. }
  cbn [paths]. split; [apply lookup_insert_eq|]. split_and!; [done|done| |].
  - simpl. destruct Hq as [->|(_ & Hqn & _)].
    + rewrite Hn in Hb. injection Hb as <-. destruct (paths st !! new) eqn:Ex; [|done].
      by destruct (Lt _ _ Ex).
    + rewrite <- Hold, Hb by done. lia.
  - intros r c Hr Hrq. destruct (Lt r c Hr). rewrite lookup_insert_ne, Hm0, !decide_False by tauto || done.
    by rewrite Hold.
Qed.

(** C18: equal paths are held once, in a table of less than 2^31 chains: [aspath_intern] and
    [aspath_parse] (of an even number of bytes that are well-formed segments) return
    the interned path that equals theirs when there is one and else a new one, with
    one more holder; [aspath_unintern] drops a holder and frees the path with its
    last one; no other path changes, and interned paths that are equal have the same
    address. *)
Theorem aspath_sharing_correct st :
  as_ok st -> hsize (ashash st) < 2147483648 ->
  (forall p q a b, paths st !! p = Some a -> paths st !! q = Some b -> 0 < refcnt a -> 0 < refcnt b ->
     segments a = segments b -> asnotation a = asnotation b -> p = q)
  /\ (forall p a, paths st !! p = Some a -> refcnt a = 0 ->
     exists q st' b, aspath_intern st p = Ret (q, st') /\ as_ok st'
       /\ paths st' !! q = Some b /\ segments b = segments a /\ asnotation b = asnotation a
       /\ refcnt b = 1 + match paths st !! q with Some b0 => refcnt b0 | None => 0 end
       /\ (q <> p -> paths st' !! p = None)
       /\ forall r, r <> p -> r <> q -> paths st' !! r = paths st !! r)
  /\ (forall s len u mode l s', len mod 2 = 0 -> assegments_parse s len u = Ret (Some l, s') ->
     Forall typed l ->
     exists q st' b, aspath_parse st s len u mode = Ret (Some q, s', st') /\ as_ok st'
       /\ paths st' !! q = Some b /\ segments b = l /\ asnotation b = mode
       /\ refcnt b = 1 + match paths st !! q with Some b0 => refcnt b0 | None => 0 end
       /\ forall r c, paths st !! r = Some c -> r <> q -> paths st' !! r = Some c)
  /\ (forall p a, paths st !! p = Some a -> 0 < refcnt a ->
     exists st', aspath_unintern st p = Ret (1 <? refcnt a, st') /\ as_ok st'
       /\ paths st' !! p = (if 1 <? refcnt a then Some (set_refcnt (refcnt a - 1) a) else None)
       /\ forall r, r <> p -> paths st' !! r = paths st !! r).
Proof.
  intros Ok Hs. split_and!.
  - intros *. by apply interned_unique.
  - intros p a. by apply intern_spec.
  - intros *. by apply parse_spec.
  - intros p a. by apply unintern_spec.
Qed.
End Intern.

Lemma aspath_sharing_correct_witness :
  let a := mkAspath 0 [mkSeg AS_SEQUENCE [1]] (Some [49]) 1 1 ASNOTATION_PLAIN in
  let st := mkAs {[ 0%nat := a ]} 1 (mkHash [[]] 1 0 0 1 0) in
  exists q st', aspath_intern (fun _ => 5) st 0%nat = Ret (q, st').
Proof.
  intros a st. destruct (aspath_sharing_correct (fun _ => 5) st) as (_ & H & _).
  - split.
    + intros p b Hb. cbn [paths st] in Hb. apply lookup_singleton_Some in Hb as [<- <-]. split_and!; [|simpl; lia|done].
      split; try done. repeat constructor. by eexists.
    + split; [split|done|constructor]; simpl; try done; [by exists 0|].
      intros [|i] c Hc; [|done]. injection Hc as <-. by split.
    + intros p. split; [done|]. intros (b & Hb & Rb). cbn [paths st] in Hb. apply lookup_singleton_Some in Hb as [_ <-].
      simpl in Rb. lia.
  - done.
  - destruct (H 0%nat a) as (q & st' & _ & E & _); [apply lookup_singleton_eq|done|]. by exists q, st'.
Defined.
