(* ===== verification/BgpPath.v ===== *)
(** * Paths of the BGP daemon and what their comparison reads

    The data of [struct attr], [struct peer], [struct bgp_path_info] and
    [struct bgp] that the decision process uses (bgpd/bgp_attr.h, bgpd/bgpd.h,
    bgpd/bgp_route.h), and the small functions on them.  A pointer that the code
    compares with another one ([pi == new_select], [peer == bgp->peer_self]) is a
    number, [pi_id] and [pe_id]; every path has a peer and an AS path.  The
    parent of an imported path is stored in the path: nothing here changes it.

    Addresses are their bytes in memory, in network order.  The sign is all that
    C promises of the result of [memcmp]: its value is the field of a class, so
    that code which looks at more than the sign can be told apart. *)

From S2P Require Import Prelude Prefix AsPath.

(** ** Flags *)

Definition CHECK_FLAG (v f : Z) : bool := negb (Z.land v f =? 0).
Definition SET_FLAG (v f : Z) : Z := Z.lor v f.
Definition UNSET_FLAG (v f : Z) : Z := Z.ldiff v f.

Definition BGP_PATH_DAMPED : Z := Z.shiftl 1 1.
Definition BGP_PATH_HISTORY : Z := Z.shiftl 1 2.
Definition BGP_PATH_SELECTED : Z := Z.shiftl 1 3.
Definition BGP_PATH_VALID : Z := Z.shiftl 1 4.
Definition BGP_PATH_DMED_CHECK : Z := Z.shiftl 1 6.
Definition BGP_PATH_DMED_SELECTED : Z := Z.shiftl 1 7.
Definition BGP_PATH_STALE : Z := Z.shiftl 1 8.
Definition BGP_PATH_REMOVED : Z := Z.shiftl 1 9.
Definition BGP_PATH_COUNTED : Z := Z.shiftl 1 10.
Definition BGP_PATH_MULTIPATH : Z := Z.shiftl 1 11.
Definition BGP_PATH_MULTIPATH_CHG : Z := Z.shiftl 1 12.
Definition BGP_PATH_LINK_BW_CHG : Z := Z.shiftl 1 15.
Definition BGP_PATH_UNSORTED : Z := Z.shiftl 1 19.
Definition BGP_PATH_MULTIPATH_NEW : Z := Z.shiftl 1 20.
Definition BGP_PATH_UNUSEABLE : Z :=
  Z.lor BGP_PATH_HISTORY (Z.lor BGP_PATH_DAMPED BGP_PATH_REMOVED).

Definition BGP_FLAG_ALWAYS_COMPARE_MED : Z := Z.shiftl 1 0.
Definition BGP_FLAG_DETERMINISTIC_MED : Z := Z.shiftl 1 1.
Definition BGP_FLAG_MED_MISSING_AS_WORST : Z := Z.shiftl 1 2.
Definition BGP_FLAG_MED_CONFED : Z := Z.shiftl 1 3.
Definition BGP_FLAG_COMPARE_ROUTER_ID : Z := Z.shiftl 1 5.
Definition BGP_FLAG_ASPATH_IGNORE : Z := Z.shiftl 1 6.
Definition BGP_FLAG_ASPATH_CONFED : Z := Z.shiftl 1 11.
Definition BGP_FLAG_ASPATH_MULTIPATH_RELAX : Z := Z.shiftl 1 12.
Definition BGP_FLAG_PEERTYPE_MULTIPATH_RELAX : Z := Z.shiftl 1 29.
Definition BGP_FLAG_COMPARE_AIGP : Z := Z.shiftl 1 32.
Definition BGP_CONFIG_CONFEDERATION : Z := Z.shiftl 1 1.
Definition PEER_FLAG_ACCEPT_OWN : Z := Z.shiftl 1 63.
Definition PEER_STATUS_NSF_WAIT : Z := Z.shiftl 1 6.

Definition BGP_ATTR_MULTI_EXIT_DISC : Z := 4.
Definition BGP_ATTR_LOCAL_PREF : Z := 5.
Definition BGP_ATTR_COMMUNITIES : Z := 8.
Definition BGP_ATTR_ORIGINATOR_ID : Z := 9.
Definition BGP_ATTR_CLUSTER_LIST : Z := 10.
Definition BGP_ATTR_AIGP : Z := 26.
Definition ATTR_FLAG_BIT (x : Z) : Z := Z.shiftl 1 (x - 1).

Definition BGP_ATTR_NH_MP_PREFER_GLOBAL : Z := 4.
Definition ATTR_EVPN_FLAG_STICKY : Z := 1.
Definition ATTR_ES_PROXY_ADVERT : Z := 1.
Definition ATTR_ES_IS_LOCAL : Z := 2.
Definition BGP_ATTR_NHLEN_IPV4 : Z := 4.
Definition BGP_ATTR_NHLEN_VPNV4 : Z := 12.
Definition BGP_ATTR_NHLEN_IPV6_GLOBAL : Z := 16.
Definition BGP_ATTR_NHLEN_IPV6_GLOBAL_AND_LL : Z := 32.
Definition BGP_ATTR_NHLEN_VPNV6_GLOBAL : Z := 24.
Definition NEXTHOP_TYPE_BLACKHOLE : Z := 6.

Definition COMMUNITY_ACCEPT_OWN : Z := 0xFFFF0001.
Definition COMMUNITY_LLGR_STALE : Z := 0xFFFF0006.
Definition BGP_MED_MAX : Z := 4294967295.

Definition AFI_IP : Z := 1.
Definition SAFI_UNICAST : Z := 1.
Definition SAFI_MPLS_VPN : Z := 3.
Definition SAFI_EVPN : Z := 5.
Definition BGP_EVPN_MAC_IP_ROUTE : Z := 2.

Definition ZEBRA_ROUTE_BGP : Z := 10.
Definition BGP_ROUTE_NORMAL : Z := 0.
Definition BGP_ROUTE_STATIC : Z := 1.
Definition BGP_ROUTE_AGGREGATE : Z := 2.
Definition BGP_ROUTE_REDISTRIBUTE : Z := 3.
Definition BGP_ROUTE_IMPORTED : Z := 5.
Definition ZEBRA_EBGP_DISTANCE_DEFAULT : Z := 20.
Definition ZEBRA_IBGP_DISTANCE_DEFAULT : Z := 200.
Definition Established : Z := 6.

(** ** Data *)

Inductive bgp_path_selection_reason :=
| bgp_path_selection_none
| bgp_path_selection_first
| bgp_path_selection_evpn_sticky_mac
| bgp_path_selection_evpn_seq
| bgp_path_selection_evpn_local_path
| bgp_path_selection_evpn_non_proxy
| bgp_path_selection_evpn_lower_ip
| bgp_path_selection_admin_distance
| bgp_path_selection_weight
| bgp_path_selection_local_pref
| bgp_path_selection_accept_own
| bgp_path_selection_local_route
| bgp_path_selection_aigp
| bgp_path_selection_confed_as_path
| bgp_path_selection_as_path
| bgp_path_selection_origin
| bgp_path_selection_med
| bgp_path_selection_peer
| bgp_path_selection_confed
| bgp_path_selection_igp_metric
| bgp_path_selection_older
| bgp_path_selection_router_id
| bgp_path_selection_cluster_length
| bgp_path_selection_stale
| bgp_path_selection_local_configured
| bgp_path_selection_neighbor_ip
| bgp_path_selection_default.

#[global] Instance reason_eq_dec : EqDecision bgp_path_selection_reason.
Proof. solve_decision. Defined.

Inductive bgp_peer_sort :=
| BGP_PEER_UNSPECIFIED | BGP_PEER_IBGP | BGP_PEER_EBGP | BGP_PEER_INTERNAL | BGP_PEER_CONFED.

#[global] Instance peer_sort_eq_dec : EqDecision bgp_peer_sort.
Proof. solve_decision. Defined.

Definition sort_is (a b : bgp_peer_sort) : bool := bool_decide (a = b).

Definition BGP_PEER_EBGP_OAD : Z := 1.

Record sockunion := mkSu { sa_family : Z; sa_addr : list Z }.

(** [at_cluster] is the length of the cluster list that
    [bgp_attr_get_cluster] returns; [at_community] is [None] for NULL. *)
Record attr := mkAttr {
  at_aspath : aspath;
  at_community : option (list Z);
  at_flag : Z;
  at_nexthop : list Z;
  at_med : Z;
  at_local_pref : Z;
  at_nh_flags : Z;
  at_origin : Z;
  at_es_flags : Z;
  at_distance : Z;
  at_mp_nexthop_global : list Z;
  at_mp_nexthop_local : list Z;
  at_mp_nexthop_global_in : list Z;
  at_mp_nexthop_len : Z;
  at_originator_id : list Z;
  at_weight : Z;
  at_evpn_flags : Z;
  at_mm_seqnum : Z;
  at_esi : list Z;
  at_nh_type : Z;
  at_aigp_metric : Z;
  at_cluster : Z
}.

(** [pe_bgp_self] is [peer->bgp->peer_self]; [pe_ifp] the index of the
    interface, [pe_su] and [pe_su_remote] the addresses of its connection,
    [pe_status] the state of the connection. *)
Record peer := mkPeer {
  pe_id : Z;
  pe_bgp_self : Z;
  pe_sort : bgp_peer_sort;
  pe_sub_sort : Z;
  pe_as : Z;
  pe_remote_id : list Z;
  pe_su : sockunion;
  pe_su_remote : option sockunion;
  pe_ifp : option Z;
  pe_sflags : Z;
  pe_status : Z;
  pe_af_flags : Z -> Z -> Z
}.

Record vrfleak (P : Type) := mkLeak { vl_parent : option P; vl_bgp_orig : option Z }.
Arguments mkLeak {P}. Arguments vl_parent {P}. Arguments vl_bgp_orig {P}.

(** [vl_bgp_orig] is the [vrf_id] of the instance; [ex_labels] the label
    array, each label as its bytes. *)
Record path_extra (P : Type) := mkExtra {
  ex_igpmetric : Z;
  ex_labels : option (list (list Z));
  ex_vrfleak : option (vrfleak P)
}.
Arguments mkExtra {P}. Arguments ex_igpmetric {P}. Arguments ex_labels {P}.
Arguments ex_vrfleak {P}.

(** [struct bgp_path_info_mpath]; the aggregated attribute is left out. *)
Record path_mpath := mkMpath { mp_count : Z; mp_flags : Z; mp_cum_bw : Z }.

Inductive bgp_path_info := mkPath {
  pi_id : Z;
  pi_net : prefix;
  pi_peer : peer;
  pi_attr : attr;
  pi_extra : option (path_extra bgp_path_info);
  pi_mpath : option path_mpath;
  pi_flags : Z;
  pi_type : Z;
  pi_sub_type : Z;
  pi_reason : bgp_path_selection_reason
}.

Definition set_flags (f : Z) (p : bgp_path_info) : bgp_path_info :=
  mkPath (pi_id p) (pi_net p) (pi_peer p) (pi_attr p) (pi_extra p) (pi_mpath p)
    f (pi_type p) (pi_sub_type p) (pi_reason p).
Definition set_reason (r : bgp_path_selection_reason) (p : bgp_path_info) : bgp_path_info :=
  mkPath (pi_id p) (pi_net p) (pi_peer p) (pi_attr p) (pi_extra p) (pi_mpath p)
    (pi_flags p) (pi_type p) (pi_sub_type p) r.
Definition set_mpath (m : option path_mpath) (p : bgp_path_info) : bgp_path_info :=
  mkPath (pi_id p) (pi_net p) (pi_peer p) (pi_attr p) (pi_extra p) m
    (pi_flags p) (pi_type p) (pi_sub_type p) (pi_reason p).

Definition flag_on (f : Z) (p : bgp_path_info) : bgp_path_info :=
  set_flags (SET_FLAG (pi_flags p) f) p.
Definition flag_off (f : Z) (p : bgp_path_info) : bgp_path_info :=
  set_flags (UNSET_FLAG (pi_flags p) f) p.
Definition has_flag (f : Z) (p : bgp_path_info) : bool := CHECK_FLAG (pi_flags p) f.

(** The instance.  [bgp_distance_match] is the entry of [bgp_distance_table]
    that covers an address (its distance and the name of its access list),
    [bgp_access_list] the verdict of a named list on a prefix ([None] when there
    is no such list), [bgp_backdoor] whether a prefix is a backdoor network. *)
Record bgp := mkBgp {
  bgp_flags : Z;
  bgp_config : Z;
  bgp_default_local_pref : Z;
  bgp_peer_self : Z;
  bgp_distance_match : Z -> Z -> prefix -> option (Z * option Z);
  bgp_access_list : Z -> Z -> prefix -> option bool;
  bgp_backdoor : Z -> Z -> prefix -> bool;
  bgp_distance_local : Z -> Z -> Z;
  bgp_distance_ebgp : Z -> Z -> Z;
  bgp_distance_ibgp : Z -> Z -> Z
}.

Record maxpaths_cfg := mkMaxpaths {
  maxpaths_ebgp : Z;
  maxpaths_ibgp : Z;
  same_clusterlen : bool
}.

Definition bgp_flag (b : bgp) (f : Z) : bool := CHECK_FLAG (bgp_flags b) f.

(** ** [memcmp], of which the sign is specified *)

Class Memcmp := {
  c_memcmp : list Z -> list Z -> nat -> Z;
  c_memcmp_sgn : forall a b n, Z.sgn (c_memcmp a b n) = memcmp a b n
}.

(** ** Helpers *)

Definition bgp_attr_exists (a : attr) (id : Z) : bool := CHECK_FLAG (at_flag a) (ATTR_FLAG_BIT id).

Definition bgp_med_value (a : attr) (b : bgp) : Z :=
  if bgp_attr_exists a BGP_ATTR_MULTI_EXIT_DISC then at_med a
  else if bgp_flag b BGP_FLAG_MED_MISSING_AS_WORST then BGP_MED_MAX else 0.

(** The loop of [bgp_get_imported_bpi_ultimate]. *)
Fixpoint follow_parent (p : bgp_path_info) : bgp_path_info :=
  match pi_extra p with
  | Some ex =>
      match ex_vrfleak ex with
      | Some vl => match vl_parent vl with Some q => follow_parent q | None => p end
      | None => p
      end
  | None => p
  end.

Definition bgp_get_imported_bpi_ultimate (p : bgp_path_info) : bgp_path_info :=
  if pi_sub_type p =? BGP_ROUTE_IMPORTED then follow_parent p else p.

Definition bgp_zebra_announce_eligible (p : bgp_path_info) : bool :=
  (pi_type p =? ZEBRA_ROUTE_BGP)
  && ((pi_sub_type p =? BGP_ROUTE_NORMAL) || (pi_sub_type p =? BGP_ROUTE_AGGREGATE)
      || (pi_sub_type p =? BGP_ROUTE_IMPORTED)).

Definition community_include (com : list Z) (v : Z) : bool := existsb (Z.eqb v) com.

Definition bgp_aigp_metric_total (p : bgp_path_info) : Z :=
  let aigp := at_aigp_metric (pi_attr p) in
  if pe_id (pi_peer p) =? pe_bgp_self (pi_peer p) then aigp
  else match pi_extra p with Some ex => u64 (aigp + ex_igpmetric ex) | None => aigp end.

Definition BGP_CLUSTER_LIST_LENGTH (a : attr) : Z :=
  if bgp_attr_exists a BGP_ATTR_CLUSTER_LIST then at_cluster a else 0.

Definition bgp_is_valid_label (label : list Z) : bool := CHECK_FLAG (byte_at label 2) 2.

Definition bgp_path_info_has_valid_label (p : bgp_path_info) : bool :=
  match pi_extra p with
  | Some ex =>
      match ex_labels ex with
      | Some (l :: _) => bgp_is_valid_label l
      | _ => false
      end
  | None => false
  end.

Definition bgp_evpn_is_esi_valid (esi : list Z) : bool :=
  negb (memcmp esi (replicate 10 0) 10 =? 0).
Definition bgp_evpn_attr_is_proxy (a : attr) : bool := CHECK_FLAG (at_es_flags a) ATTR_ES_PROXY_ADVERT.
Definition bgp_evpn_attr_is_local_es (a : attr) : bool := CHECK_FLAG (at_es_flags a) ATTR_ES_IS_LOCAL.
Definition bgp_evpn_is_path_local (b : bgp) (p : bgp_path_info) : bool :=
  (pe_id (pi_peer p) =? bgp_peer_self b) && (pi_type p =? ZEBRA_ROUTE_BGP)
  && (pi_sub_type p =? BGP_ROUTE_STATIC).

Definition sockunion2hostprefix (su : sockunion) : option prefix :=
  if sa_family su =? AF_INET then Some (mkPrefix AF_INET IPV4_MAX_BITLEN (sa_addr su))
  else if sa_family su =? AF_INET6 then Some (mkPrefix AF_INET6 IPV6_MAX_BITLEN (sa_addr su))
  else None.

(** The default distance, by the kind of the peer. *)
Definition default_distance (b : bgp) (afi safi : Z) (sort : bgp_peer_sort) : Z :=
  let or_default (d def : Z) := if negb (d =? 0) then d else def in
  match sort with
  | BGP_PEER_EBGP => or_default (bgp_distance_ebgp b afi safi) ZEBRA_EBGP_DISTANCE_DEFAULT
  | BGP_PEER_IBGP => or_default (bgp_distance_ibgp b afi safi) ZEBRA_IBGP_DISTANCE_DEFAULT
  | _ => or_default (bgp_distance_local b afi safi) ZEBRA_IBGP_DISTANCE_DEFAULT
  end.

(** The prefix of all zeros that is matched when an aggregate has no address. *)
Definition bgp_distance_apply (b : bgp) (p : prefix) (pinfo : bgp_path_info) (afi safi : Z) : Z :=
  let backdoor_or_default (sort : bgp_peer_sort) :=
    if bgp_backdoor b afi safi p
    then default_distance b afi safi BGP_PEER_UNSPECIFIED
    else default_distance b afi safi sort in
  if negb (at_distance (pi_attr pinfo) =? 0) then at_distance (pi_attr pinfo)
  else
    let peer := pi_peer (bgp_get_imported_bpi_ultimate pinfo) in
    let q := if pi_sub_type pinfo =? BGP_ROUTE_AGGREGATE
             then Some (mkPrefix AF_UNSPEC 0 (replicate 16 0))
             else sockunion2hostprefix (pe_su peer) in
    match q with
    | None => 0
    | Some q =>
        match bgp_distance_match b afi safi q with
        | Some (distance, Some alist) =>
            match bgp_access_list b afi alist p with
            | Some true => distance
            | _ => backdoor_or_default (pe_sort peer)
            end
        | Some (distance, None) => distance
        | None => backdoor_or_default (pe_sort peer)
        end
    end.

Section Compare.
Context `{Memcmp}.

(** [IPV4_ADDR_CMP] and [IPV6_ADDR_CMP] *)
Definition IPV4_ADDR_CMP (a b : list Z) : Z := c_memcmp a b 4.
Definition IPV6_ADDR_CMP (a b : list Z) : Z := c_memcmp a b 16.

Definition sockunion_cmp (su1 su2 : sockunion) : Z :=
  if sa_family su2 <? sa_family su1 then 1
  else if sa_family su1 <? sa_family su2 then -1
  else if sa_family su1 =? AF_INET then
    let a1 := ntohl_bytes (sa_addr su1) in
    let a2 := ntohl_bytes (sa_addr su2) in
    if a1 =? a2 then 0 else if a2 <? a1 then 1 else -1
  else if sa_family su1 =? AF_INET6 then IPV6_ADDR_CMP (sa_addr su1) (sa_addr su2)
  else 0.

Definition bgp_interface_same (ifp1 ifp2 : option Z) : bool :=
  match ifp1, ifp2 with
  | None, None => true
  | Some i, Some j => i =? j
  | _, _ => false
  end.

(** The address that stands for a global and link-local pair. *)
Definition preferred_nexthop (a : attr) : list Z :=
  if CHECK_FLAG (at_nh_flags a) BGP_ATTR_NH_MP_PREFER_GLOBAL
  then at_mp_nexthop_global a else at_mp_nexthop_local a.

(** The part of [bgp_path_info_nexthop_cmp] for equal lengths. *)
Definition mp_nexthop_cmp_same (p1 p2 : bgp_path_info) : Z :=
  let a1 := pi_attr p1 in
  let a2 := pi_attr p2 in
  let len := at_mp_nexthop_len a1 in
  if (len =? BGP_ATTR_NHLEN_IPV4) || (len =? BGP_ATTR_NHLEN_VPNV4)
  then IPV4_ADDR_CMP (at_mp_nexthop_global_in a1) (at_mp_nexthop_global_in a2)
  else if (len =? BGP_ATTR_NHLEN_IPV6_GLOBAL) || (len =? BGP_ATTR_NHLEN_VPNV6_GLOBAL)
  then IPV6_ADDR_CMP (at_mp_nexthop_global a1) (at_mp_nexthop_global a2)
  else if len =? BGP_ATTR_NHLEN_IPV6_GLOBAL_AND_LL then
    if negb (CHECK_FLAG (at_nh_flags a1) BGP_ATTR_NH_MP_PREFER_GLOBAL)
       && negb (CHECK_FLAG (at_nh_flags a2) BGP_ATTR_NH_MP_PREFER_GLOBAL)
       && negb (bgp_interface_same (pe_ifp (pi_peer p1)) (pe_ifp (pi_peer p2)))
    then 1
    else IPV6_ADDR_CMP (preferred_nexthop a1) (preferred_nexthop a2)
  else 0.

Definition leak_vrf (p : bgp_path_info) : option Z :=
  ex ← pi_extra p; vl ← ex_vrfleak ex; vl_bgp_orig vl.

Definition bgp_path_info_nexthop_cmp (p1 p2 : bgp_path_info) : Z :=
  let a1 := pi_attr p1 in
  let a2 := pi_attr p2 in
  let compare :=
    let c := IPV4_ADDR_CMP (at_nexthop a1) (at_nexthop a2) in
    if negb (c =? 0) then c
    else if at_mp_nexthop_len a1 =? at_mp_nexthop_len a2 then mp_nexthop_cmp_same p1 p2
    else if (at_mp_nexthop_len a1 =? BGP_ATTR_NHLEN_IPV6_GLOBAL)
            || (at_mp_nexthop_len a1 =? BGP_ATTR_NHLEN_IPV6_GLOBAL_AND_LL) then
      let c := IPV6_ADDR_CMP (at_mp_nexthop_global a1) (at_mp_nexthop_global a2) in
      if negb (c =? 0) then c
      else if at_mp_nexthop_len a1 <? at_mp_nexthop_len a2 then -1 else 1
    else 0 in
  if (compare =? 0) && negb (at_nh_type a1 =? NEXTHOP_TYPE_BLACKHOLE) then
    match leak_vrf p1, leak_vrf p2 with
    | Some v1, Some v2 => if v1 =? v2 then 0 else 1
    | _, _ => 0
    end
  else compare.

End Compare.
