(* ===== verification/BgpDecision.v ===== *)
(** * Comparison of two BGP paths (bgpd/bgp_route.c, [bgp_path_info_cmp])

    One definition per step of the function, in its order.  A step that may end
    the comparison gives [Some (ret, reason)]: [ret] is 1 when [new] is
    preferred, 0 when [exist] is, and [reason] is [None] where the code returns
    without writing [*reason].  The debug output and the counter of runs are left
    out. *)

From S2P Require Import Prelude Prefix AsPath BgpPath.

Definition decision : Type := option (Z * option bgp_path_selection_reason).

(** What a call leaves behind: its value, [*paths_eq] and [*reason]. *)
Record cmp_result := mkCmp {
  cmp_ret : Z;
  cmp_paths_eq : bool;
  cmp_reason : bgp_path_selection_reason
}.

Definition win (r : bgp_path_selection_reason) : decision := Some (1, Some r).
Definition lose (r : bgp_path_selection_reason) : decision := Some (0, Some r).

Definition prefer_lower (r : bgp_path_selection_reason) (n e : Z) : decision :=
  if n <? e then win r else if e <? n then lose r else None.
Definition prefer_higher (r : bgp_path_selection_reason) (n e : Z) : decision :=
  prefer_lower r e n.
Definition prefer_true (r : bgp_path_selection_reason) (n e : bool) : decision :=
  if n && negb e then win r else if negb n && e then lose r else None.

(** The next step is taken when a step does not decide. *)
Definition otherwise (d : decision) (k : decision) : decision :=
  match d with Some _ => d | None => k end.
Infix "<else>" := otherwise (at level 60, right associativity).

Section Steps.
Context `{Memcmp}.
Variables (b : bgp) (afi safi : Z).

Definition has_community (a : attr) (v : Z) : bool :=
  match at_community a with Some c => community_include c v | None => false end.

Definition cmp_llgr (new exist : bgp_path_info) : decision :=
  if has_community (pi_attr new) COMMUNITY_LLGR_STALE then Some (0, None)
  else if has_community (pi_attr exist) COMMUNITY_LLGR_STALE then Some (1, None)
  else None.

(** ** MAC mobility, for EVPN MAC/IP routes *)

Definition is_macip (p : bgp_path_info) : bool :=
  byte_at (val (pi_net p)) 0 =? BGP_EVPN_MAC_IP_ROUTE.

Definition same_esi (a1 a2 : attr) : bool :=
  bgp_evpn_is_esi_valid (at_esi a1) && (memcmp (at_esi a1) (at_esi a2) 10 =? 0).

Definition cmp_evpn (new exist : bgp_path_info) : decision :=
  let na := pi_attr new in
  let ea := pi_attr exist in
  if negb ((safi =? SAFI_EVPN) && is_macip new) then None
  else
    prefer_true bgp_path_selection_evpn_sticky_mac
      (CHECK_FLAG (at_evpn_flags na) ATTR_EVPN_FLAG_STICKY)
      (CHECK_FLAG (at_evpn_flags ea) ATTR_EVPN_FLAG_STICKY)
    <else>
    (if same_esi na ea then
       if bgp_evpn_is_path_local b new then win bgp_path_selection_evpn_local_path
       else if bgp_evpn_is_path_local b exist then lose bgp_path_selection_evpn_local_path
       else None
     else None)
    <else>
    prefer_higher bgp_path_selection_evpn_seq (at_mm_seqnum na) (at_mm_seqnum ea)
    <else>
    (if same_esi na ea && bgp_evpn_attr_is_local_es na
        && negb (eqb (bgp_evpn_attr_is_proxy ea) (bgp_evpn_attr_is_proxy na))
     then if negb (bgp_evpn_attr_is_proxy na)
          then win bgp_path_selection_evpn_non_proxy
          else lose bgp_path_selection_evpn_non_proxy
     else None)
    <else>
    prefer_lower bgp_path_selection_evpn_lower_ip (bgp_path_info_nexthop_cmp new exist) 0.

(** ** Step 0: admin distance against a redistributed path *)

Definition bgp_path_info_cmp_distance (new exist : bgp_path_info) (new_redist : bool) : Z :=
  let p := pi_net new in
  let new_distance :=
    if new_redist then at_distance (pi_attr new) else bgp_distance_apply b p new afi safi in
  let exist_distance :=
    if new_redist then bgp_distance_apply b p exist afi safi else at_distance (pi_attr exist) in
  if new_distance <? exist_distance then 1
  else if exist_distance <? new_distance then 0 else -1.

Definition is_self_redist (p : bgp_path_info) : bool :=
  (pe_id (pi_peer p) =? bgp_peer_self b) && (pi_sub_type p =? BGP_ROUTE_REDISTRIBUTE).

Definition cmp_admin_distance (new exist : bgp_path_info) : decision :=
  let new_redist := is_self_redist new && bgp_zebra_announce_eligible exist in
  if new_redist || (is_self_redist exist && bgp_zebra_announce_eligible new) then
    let ret := bgp_path_info_cmp_distance new exist new_redist in
    if 0 <=? ret then Some (ret, Some bgp_path_selection_admin_distance) else None
  else None.

(** ** Steps 1 to 3.5 *)

Definition cmp_weight (new exist : bgp_path_info) : decision :=
  prefer_higher bgp_path_selection_weight (at_weight (pi_attr new)) (at_weight (pi_attr exist)).

Definition local_pref (a : attr) : Z :=
  if bgp_attr_exists a BGP_ATTR_LOCAL_PREF then at_local_pref a else bgp_default_local_pref b.

Definition cmp_local_pref (new exist : bgp_path_info) : decision :=
  prefer_higher bgp_path_selection_local_pref (local_pref (pi_attr new)) (local_pref (pi_attr exist)).

(** [COMMUNITIES] set and no community list would be a read through NULL;
    the attribute bit is only set together with the list. *)
Definition accept_own (a : attr) : bool :=
  bgp_attr_exists a BGP_ATTR_COMMUNITIES && has_community a COMMUNITY_ACCEPT_OWN.

Definition cmp_accept_own (new exist : bgp_path_info) : decision :=
  if (safi =? SAFI_MPLS_VPN)
     && (CHECK_FLAG (pe_af_flags (pi_peer new) afi safi) PEER_FLAG_ACCEPT_OWN
         || CHECK_FLAG (pe_af_flags (pi_peer exist) afi safi) PEER_FLAG_ACCEPT_OWN)
  then prefer_true bgp_path_selection_accept_own
         (accept_own (pi_attr new)) (accept_own (pi_attr exist))
  else None.

Definition local_origin (p : bgp_path_info) : bool :=
  negb ((pi_sub_type p =? BGP_ROUTE_NORMAL) || (pi_sub_type p =? BGP_ROUTE_IMPORTED)).

Definition cmp_local_route (new exist : bgp_path_info) : decision :=
  prefer_true bgp_path_selection_local_route (local_origin new) (local_origin exist).

Definition cmp_aigp (new exist : bgp_path_info) : decision :=
  if bgp_attr_exists (pi_attr new) BGP_ATTR_AIGP && bgp_attr_exists (pi_attr exist) BGP_ATTR_AIGP
     && bgp_flag b BGP_FLAG_COMPARE_AIGP
  then prefer_lower bgp_path_selection_aigp
         (bgp_aigp_metric_total new) (bgp_aigp_metric_total exist)
  else None.

(** ** Steps 4 to 6: from here on an imported path stands for its origin *)

Definition hops (p : bgp_path_info) : Z := aspath_count_hops (at_aspath (pi_attr p)).
Definition confeds (p : bgp_path_info) : Z := aspath_count_confeds (at_aspath (pi_attr p)).

Definition cmp_aspath (new exist : bgp_path_info) : decision :=
  if bgp_flag b BGP_FLAG_ASPATH_IGNORE then None
  else if bgp_flag b BGP_FLAG_ASPATH_CONFED
  then prefer_lower bgp_path_selection_confed_as_path
         (hops new + confeds new) (hops exist + confeds exist)
  else prefer_lower bgp_path_selection_as_path (hops new) (hops exist).

Definition cmp_origin (new exist : bgp_path_info) : decision :=
  prefer_lower bgp_path_selection_origin (at_origin (pi_attr new)) (at_origin (pi_attr exist)).

(** [a || f()] of C: the call is made only when [a] is false. *)
Definition or_call (a : bool) (f : outcome bool) : outcome bool := if a then Ret true else f.

Definition med_comparable (new exist : bgp_path_info) : outcome bool :=
  let np := at_aspath (pi_attr new) in
  let ep := at_aspath (pi_attr exist) in
  let internal_as_route := (hops new =? 0) && (hops exist =? 0) in
  let confed_as_route := (0 <? confeds new) && (0 <? confeds exist) && internal_as_route in
  let configured := bgp_flag b BGP_FLAG_ALWAYS_COMPARE_MED
                    || (bgp_flag b BGP_FLAG_MED_CONFED && confed_as_route) in
  l ← or_call configured (aspath_cmp_left (Some np) (Some ep));
  c ← or_call l (aspath_cmp_left_confed (Some np) (Some ep));
  Ret (c || internal_as_route).

Definition cmp_med (new exist : bgp_path_info) : outcome decision :=
  m ← med_comparable new exist;
  Ret (if (m : bool)
       then prefer_lower bgp_path_selection_med
              (bgp_med_value (pi_attr new) b) (bgp_med_value (pi_attr exist) b)
       else None).

(** ** Steps 7 to 11 *)

(** The peer of a path after the imported ones were replaced: the code looks
    once more for the origin. *)
Definition origin_peer (p : bgp_path_info) : peer := pi_peer (bgp_get_imported_bpi_ultimate p).

Definition sort_of (p : bgp_path_info) : bgp_peer_sort := pe_sort (origin_peer p).

Definition beats_by_sort (x y : bgp_path_info) : bool :=
  sort_is (sort_of x) BGP_PEER_EBGP
  && (sort_is (sort_of y) BGP_PEER_IBGP || sort_is (sort_of y) BGP_PEER_CONFED
      || (pe_sub_sort (origin_peer y) =? BGP_PEER_EBGP_OAD)).

(** The result of a peer type check: [peer_sort_ret], -1 while undecided.  The
    second test overrides the first one. *)
Definition sort_ret (first second : bool) (old : Z) : Z :=
  if second then 0 else if first then 1 else old.

(** Step 7 returns at once unless the types of peers are relaxed: the first
    test that holds decides. *)
Definition cmp_peer_type (new exist : bgp_path_info) : decision :=
  if bgp_flag b BGP_FLAG_PEERTYPE_MULTIPATH_RELAX then None
  else if beats_by_sort new exist then win bgp_path_selection_peer
  else if beats_by_sort exist new then lose bgp_path_selection_peer
  else None.

Definition igp_metric (p : bgp_path_info) : Z :=
  match pi_extra p with Some ex => ex_igpmetric ex | None => 0 end.

Definition compares_clusters (mpath_cfg : option maxpaths_cfg) (new exist : bgp_path_info) : bool :=
  sort_is (sort_of new) BGP_PEER_IBGP && sort_is (sort_of exist) BGP_PEER_IBGP
  && match mpath_cfg with None => true | Some c => same_clusterlen c end.

Definition cluster_len (p : bgp_path_info) : Z := BGP_CLUSTER_LIST_LENGTH (pi_attr p).

(** Steps 8 and 9: the pair ([newm], [existm]) that step 11 looks at;
    [igp_metric_ret] is then [newm < existm]. *)
Definition igp_pair (mpath_cfg : option maxpaths_cfg) (new exist : bgp_path_info) : Z * Z :=
  if (igp_metric new =? igp_metric exist) && compares_clusters mpath_cfg new exist
  then (cluster_len new, cluster_len exist)
  else (igp_metric new, igp_metric exist).

Definition confed_beats (x y : bgp_path_info) : bool :=
  CHECK_FLAG (bgp_config b) BGP_CONFIG_CONFEDERATION
  && sort_is (sort_of x) BGP_PEER_CONFED && sort_is (sort_of y) BGP_PEER_IBGP.

(** Step 10, when it returns at once. *)
Definition cmp_confed (new exist : bgp_path_info) : decision :=
  if bgp_flag b BGP_FLAG_PEERTYPE_MULTIPATH_RELAX then None
  else if confed_beats new exist then win bgp_path_selection_confed
  else if confed_beats exist new then lose bgp_path_selection_confed
  else None.

(** Steps 7 and 10 when the types of peers are relaxed: [peer_sort_ret] and the
    reason they leave. *)
Definition relaxed_sort_ret (new exist : bgp_path_info) : Z :=
  if bgp_flag b BGP_FLAG_PEERTYPE_MULTIPATH_RELAX
  then sort_ret (confed_beats new exist) (confed_beats exist new)
         (sort_ret (beats_by_sort new exist) (beats_by_sort exist new) (-1))
  else -1.

Definition relaxed_reason (new exist : bgp_path_info) (old : bgp_path_selection_reason) :
    bgp_path_selection_reason :=
  if negb (bgp_flag b BGP_FLAG_PEERTYPE_MULTIPATH_RELAX) then old
  else if confed_beats new exist || confed_beats exist new then bgp_path_selection_confed
  else if beats_by_sort new exist || beats_by_sort exist new then bgp_path_selection_peer
  else old.

(** Step 11, for equal metrics: whether the two may be used together. *)
Definition multipath_eq (new exist : bgp_path_info) : bool :=
  if negb (eqb (bgp_path_info_has_valid_label new) (bgp_path_info_has_valid_label exist)) then false
  else if bgp_flag b BGP_FLAG_ASPATH_MULTIPATH_RELAX then true
  else if sort_is (sort_of new) BGP_PEER_IBGP
  then aspath_cmp (at_aspath (pi_attr new)) (at_aspath (pi_attr exist))
  else pe_as (origin_peer new) =? pe_as (origin_peer exist).

(** ** Steps 12 to 15 *)

Definition cmp_oldest (new exist : bgp_path_info) : decision :=
  if negb (bgp_flag b BGP_FLAG_COMPARE_ROUTER_ID)
     && sort_is (sort_of new) BGP_PEER_EBGP && sort_is (sort_of exist) BGP_PEER_EBGP
  then if has_flag BGP_PATH_SELECTED new then win bgp_path_selection_older
       else if has_flag BGP_PATH_SELECTED exist then lose bgp_path_selection_older
       else None
  else None.

Definition router_id (p : bgp_path_info) : Z :=
  ntohl_bytes (if bgp_attr_exists (pi_attr p) BGP_ATTR_ORIGINATOR_ID
               then at_originator_id (pi_attr p) else pe_remote_id (origin_peer p)).

Definition cmp_router_id (new exist : bgp_path_info) : decision :=
  prefer_lower bgp_path_selection_router_id (router_id new) (router_id exist).

Definition cmp_cluster_length (new exist : bgp_path_info) : decision :=
  prefer_lower bgp_path_selection_cluster_length (cluster_len new) (cluster_len exist).

Definition cmp_stale (new exist : bgp_path_info) : decision :=
  if has_flag BGP_PATH_STALE exist then win bgp_path_selection_stale
  else if has_flag BGP_PATH_STALE new then lose bgp_path_selection_stale
  else None.

Definition cmp_neighbor (new exist : bgp_path_info) : decision :=
  match pe_su_remote (origin_peer new), pe_su_remote (origin_peer exist) with
  | None, _ => lose bgp_path_selection_local_configured
  | _, None => win bgp_path_selection_local_configured
  | Some n, Some e =>
      let ret := sockunion_cmp n e in
      if ret =? 1 then lose bgp_path_selection_neighbor_ip
      else if ret =? -1 then win bgp_path_selection_neighbor_ip
      else None
  end.

(** ** The whole comparison *)

(** Everything up to step 3.5. *)
Definition cmp_local_steps (new exist : bgp_path_info) : decision :=
  cmp_llgr new exist <else> cmp_evpn new exist <else> cmp_admin_distance new exist
  <else> cmp_weight new exist <else> cmp_local_pref new exist <else> cmp_accept_own new exist
  <else> cmp_local_route new exist <else> cmp_aigp new exist.

(** The tie-breakers from step 12 on; the last resort prefers [new]. *)
Definition cmp_tie (new exist : bgp_path_info) : decision :=
  cmp_oldest new exist <else> cmp_router_id new exist <else> cmp_cluster_length new exist
  <else> cmp_stale new exist <else> cmp_neighbor new exist
  <else> win bgp_path_selection_default.

Definition conclude (paths_eq : bool) (old : bgp_path_selection_reason) (d : decision)
    (k : cmp_result) : cmp_result :=
  match d with
  | Some (ret, r) => mkCmp ret paths_eq (default old r)
  | None => k
  end.

(** From step 7 on; [reason] is what [*reason] holds. *)
Definition cmp_from_peer_type (mpath_cfg : option maxpaths_cfg) (new exist : bgp_path_info)
    (reason : bgp_path_selection_reason) : cmp_result :=
  conclude false reason (cmp_peer_type new exist <else> cmp_confed new exist)
    (let reason := relaxed_reason new exist reason in
     let peer_sort_ret := relaxed_sort_ret new exist in
     let '(newm, existm) := igp_pair mpath_cfg new exist in
     if newm =? existm then
       let paths_eq := multipath_eq new exist in
       if 0 <=? peer_sort_ret then mkCmp peer_sort_ret paths_eq reason
       else conclude paths_eq reason (cmp_tie new exist) (mkCmp 1 paths_eq reason)
     else if peer_sort_ret <? 0
     then mkCmp (if newm <? existm then 1 else 0) false bgp_path_selection_igp_metric
     else mkCmp peer_sort_ret false reason).

Definition cmp_paths (mpath_cfg : option maxpaths_cfg) (new exist : bgp_path_info)
    (reason : bgp_path_selection_reason) : outcome cmp_result :=
  match cmp_local_steps new exist with
  | Some (ret, r) => Ret (mkCmp ret false (default reason r))
  | None =>
      let new := bgp_get_imported_bpi_ultimate new in
      let exist := bgp_get_imported_bpi_ultimate exist in
      match cmp_aspath new exist <else> cmp_origin new exist with
      | Some (ret, r) => Ret (mkCmp ret false (default reason r))
      | None =>
          med ← cmp_med new exist;
          Ret (conclude false reason med (cmp_from_peer_type mpath_cfg new exist reason))
      end
  end.

Definition bgp_path_info_cmp (mpath_cfg : option maxpaths_cfg) (new exist : option bgp_path_info)
    (reason : bgp_path_selection_reason) : outcome cmp_result :=
  match new, exist with
  | None, _ => Ret (mkCmp 0 false bgp_path_selection_none)
  | Some _, None => Ret (mkCmp 1 false bgp_path_selection_first)
  | Some n, Some e => cmp_paths mpath_cfg n e reason
  end.

(** -1 when [new] is preferred, 1 when [exist] is, 0 when they may be used
    together. *)
Definition bgp_path_info_cmp_compatible (new exist : option bgp_path_info)
    (reason : bgp_path_selection_reason) : outcome (Z * bgp_path_selection_reason) :=
  r ← bgp_path_info_cmp None new exist reason;
  Ret (if cmp_paths_eq r then 0 else if cmp_ret r =? 1 then -1 else 1, cmp_reason r).

End Steps.

(** The comparison that the EVPN code calls. *)
Definition AFI_L2VPN : Z := 3.
Definition bgp_evpn_path_info_cmp `{Memcmp} (b : bgp) (new exist : bgp_path_info) :
    outcome (Z * bool) :=
  r ← bgp_path_info_cmp b AFI_L2VPN SAFI_EVPN None (Some new) (Some exist) bgp_path_selection_none;
  Ret (cmp_ret r, cmp_paths_eq r).
