(* ===== verification/BgpDecisionFacts.v ===== *)
(** * The order of the decision process

    For paths learned from internal and external peers, and a configuration that
    compares the MED always and does not keep the oldest path, the comparison is
    the lexicographic order on a list of criteria.  It is then a total preorder;
    the second part gives the configurations and paths for which it is not. *)

From S2P Require Import Prelude Prefix AsPath BgpPath BgpDecision.

(** ** Criteria *)

(** The criteria of a path, most important first: the smaller number is
    preferred, and the reason is the one reported when it decides. *)
Definition criteria : Type := list (bgp_path_selection_reason * Z).

(** The first difference decides; without one [new] is preferred. *)
Fixpoint first_difference (new exist : criteria) : Z * bgp_path_selection_reason :=
  match new, exist with
  | (r, n) :: new', (_, e) :: exist' =>
      if n <? e then (1, r) else if e <? n then (0, r) else first_difference new' exist'
  | _, _ => (1, bgp_path_selection_default)
  end.

Section Order.
Context `{Memcmp}.
Variables (b : bgp) (afi safi : Z) (cfg : option maxpaths_cfg).

Definition hops_criterion (u : bgp_path_info) : bgp_path_selection_reason * Z :=
  if bgp_flag b BGP_FLAG_ASPATH_IGNORE then (bgp_path_selection_as_path, 0)
  else if bgp_flag b BGP_FLAG_ASPATH_CONFED
  then (bgp_path_selection_confed_as_path, hops u + confeds u)
  else (bgp_path_selection_as_path, hops u).

Definition clusters_on : bool := match cfg with None => true | Some c => same_clusterlen c end.

Definition neighbor (u : bgp_path_info) : Z :=
  match pe_su_remote (origin_peer u) with Some su => ntohl_bytes (sa_addr su) | None => 0 end.

Definition criteria_head (p : bgp_path_info) : criteria :=
  let u := bgp_get_imported_bpi_ultimate p in
  [ (bgp_path_selection_weight, - at_weight (pi_attr p));
    (bgp_path_selection_local_pref, - local_pref b (pi_attr p));
    hops_criterion u;
    (bgp_path_selection_origin, at_origin (pi_attr u));
    (bgp_path_selection_med, bgp_med_value (pi_attr u) b) ].

Definition criteria_sort (p : bgp_path_info) : criteria :=
  let u := bgp_get_imported_bpi_ultimate p in
  [ (bgp_path_selection_peer, if sort_is (sort_of u) BGP_PEER_EBGP then 0 else 1);
    (bgp_path_selection_igp_metric, igp_metric u);
    (bgp_path_selection_igp_metric,
      if clusters_on && sort_is (sort_of u) BGP_PEER_IBGP then cluster_len u else 0) ].

Definition criteria_tie (p : bgp_path_info) : criteria :=
  let u := bgp_get_imported_bpi_ultimate p in
  [ (bgp_path_selection_router_id, router_id u);
    (bgp_path_selection_cluster_length, cluster_len u);
    (bgp_path_selection_neighbor_ip, neighbor u) ].

Definition path_criteria (p : bgp_path_info) : criteria :=
  criteria_head p ++ criteria_sort p ++ criteria_tie p.

(** The configuration, and the paths, for which the criteria say everything. *)
Record plain_config : Prop := {
  pc_med : bgp_flag b BGP_FLAG_ALWAYS_COMPARE_MED = true;
  pc_router_id : bgp_flag b BGP_FLAG_COMPARE_ROUTER_ID = true;
  pc_aigp : bgp_flag b BGP_FLAG_COMPARE_AIGP = false;
  pc_relax : bgp_flag b BGP_FLAG_PEERTYPE_MULTIPATH_RELAX = false;
  pc_confed : CHECK_FLAG (bgp_config b) BGP_CONFIG_CONFEDERATION = false;
  pc_evpn : safi <> SAFI_EVPN;
  pc_vpn : safi <> SAFI_MPLS_VPN
}.

Record plain_path (p : bgp_path_info) : Prop := {
  pp_llgr : has_community (pi_attr p) COMMUNITY_LLGR_STALE = false;
  pp_origin : local_origin p = false;
  pp_sort : sort_of (bgp_get_imported_bpi_ultimate p) = BGP_PEER_EBGP
            \/ sort_of (bgp_get_imported_bpi_ultimate p) = BGP_PEER_IBGP;
  pp_oad : pe_sub_sort (origin_peer (bgp_get_imported_bpi_ultimate p)) <> BGP_PEER_EBGP_OAD;
  pp_stale : has_flag BGP_PATH_STALE (bgp_get_imported_bpi_ultimate p) = false;
  pp_remote : exists su,
    pe_su_remote (origin_peer (bgp_get_imported_bpi_ultimate p)) = Some su
    /\ sa_family su = AF_INET
}.

(** ** Steps that do not decide *)

Lemma plain_not_redist p : plain_path p -> is_self_redist b p = false.
Proof.
  intros Hp. unfold is_self_redist.
  pose proof (pp_origin p Hp) as Ho. unfold local_origin in Ho.
  apply negb_false_iff in Ho. apply orb_true_iff in Ho.
  destruct Ho as [E|E]; apply Z.eqb_eq in E; rewrite E, andb_false_r; reflexivity.
Qed.

Lemma plain_local_steps new exist :
  plain_config -> plain_path new -> plain_path exist ->
  cmp_local_steps b afi safi new exist
  = otherwise (cmp_weight new exist) (cmp_local_pref b new exist).
Proof.
  intros Hc Hn He. unfold cmp_local_steps.
  unfold cmp_llgr. rewrite (pp_llgr _ Hn), (pp_llgr _ He).
  unfold cmp_evpn. rewrite (proj2 (Z.eqb_neq _ _) (pc_evpn Hc)).
  unfold cmp_admin_distance. rewrite (plain_not_redist _ Hn), (plain_not_redist _ He).
  unfold cmp_accept_own. rewrite (proj2 (Z.eqb_neq _ _) (pc_vpn Hc)).
  unfold cmp_local_route. rewrite (pp_origin _ Hn), (pp_origin _ He).
  unfold cmp_aigp. rewrite (pc_aigp Hc), andb_false_r. simpl.
  unfold cmp_weight, cmp_local_pref, prefer_higher, prefer_lower.
  repeat case_bool; reflexivity.
Qed.

Lemma plain_med new exist :
  plain_config ->
  cmp_med b new exist
  = Ret (prefer_lower bgp_path_selection_med
           (bgp_med_value (pi_attr new) b) (bgp_med_value (pi_attr exist) b)).
Proof. intros Hc. unfold cmp_med, med_comparable. rewrite (pc_med Hc). reflexivity. Qed.

(** Steps 12 to 15, on the origins of plain paths. *)
Lemma plain_tie p q :
  plain_config -> plain_path p -> plain_path q ->
  let u := bgp_get_imported_bpi_ultimate p in
  let v := bgp_get_imported_bpi_ultimate q in
  cmp_tie b u v
  = Some (fst (first_difference (criteria_tie p) (criteria_tie q)),
          Some (snd (first_difference (criteria_tie p) (criteria_tie q)))).
Proof.
  intros Hc Hp Hq u v. unfold cmp_tie, cmp_oldest. rewrite (pc_router_id Hc).
  unfold cmp_stale.
  rewrite (pp_stale _ Hp : has_flag _ u = _), (pp_stale _ Hq : has_flag _ v = _).
  destruct (pp_remote _ Hp) as (su & Hsu & Hfu). destruct (pp_remote _ Hq) as (sv & Hsv & Hfv).
  fold u in Hsu. fold v in Hsv.
  unfold cmp_neighbor, sockunion_cmp. rewrite Hsu, Hsv, Hfu, Hfv.
  unfold criteria_tie. fold u v. unfold neighbor. rewrite Hsu, Hsv.
  unfold cmp_router_id, cmp_cluster_length, prefer_lower. cbn [first_difference otherwise negb andb].
  rewrite Z.ltb_irrefl, Z.eqb_refl.
  repeat (case_bool; cbn [otherwise win lose fst snd]; try reflexivity; try lia).
Qed.

(** A prefix of criteria that agree says nothing; one that differs decides. *)
Lemma first_difference_app c1 c2 t1 t2 :
  map fst c1 = map fst c2 ->
  first_difference (c1 ++ t1) (c2 ++ t2)
  = if bool_decide (c1 = c2) then first_difference t1 t2 else first_difference c1 c2.
Proof.
  revert c2. induction c1 as [|[r n] c1 IH]; intros [|[r' e] c2] Hm; simplify_eq/=; auto.
  rewrite IH by done. repeat case_bool; try lia;
    repeat case_bool_decide; simplify_eq; try lia; try done.
  assert (n = e) as -> by lia. congruence.
Qed.

Lemma plain_from_peer_type p q reason :
  plain_config -> plain_path p -> plain_path q ->
  let u := bgp_get_imported_bpi_ultimate p in
  let v := bgp_get_imported_bpi_ultimate q in
  let d := first_difference (criteria_sort p ++ criteria_tie p) (criteria_sort q ++ criteria_tie q) in
  cmp_from_peer_type b cfg u v reason
  = mkCmp (fst d) (bool_decide (criteria_sort p = criteria_sort q) && multipath_eq b u v) (snd d).
Proof.
  intros Hc Hp Hq u v d. unfold d. rewrite first_difference_app by reflexivity.
  pose proof (plain_tie p q Hc Hp Hq) as Ht. cbv zeta in Ht. fold u v in Ht.
  unfold cmp_from_peer_type, cmp_confed, confed_beats, cmp_peer_type, beats_by_sort.
  unfold relaxed_sort_ret, relaxed_reason, igp_pair, compares_clusters.
  rewrite (pc_relax Hc), (pc_confed Hc), Ht. clear Ht.
  rewrite (proj2 (Z.eqb_neq _ _) (pp_oad _ Hp : pe_sub_sort (origin_peer u) <> _)).
  rewrite (proj2 (Z.eqb_neq _ _) (pp_oad _ Hq : pe_sub_sort (origin_peer v) <> _)).
  unfold criteria_sort. fold u v. fold clusters_on.
  generalize (first_difference (criteria_tie p) (criteria_tie q)) as tie.
  generalize (multipath_eq b u v) as eq.
  destruct (pp_sort _ Hp : sort_of u = _ \/ sort_of u = _) as [-> | ->];
    destruct (pp_sort _ Hq : sort_of v = _ \/ sort_of v = _) as [-> | ->];
    generalize (igp_metric u) (igp_metric v) (cluster_len u) (cluster_len v);
    clear; intros iu iv cu cv eq [tr tx]; destruct clusters_on; simpl;
    repeat (case_bool_decide || case_bool); simplify_eq/=; try lia; try reflexivity;
    exfalso; match goal with H : _ <> _ |- _ => apply H end; repeat first [lia | f_equal].
Qed.

(** Whether the two paths agree on everything that multipath asks for. *)
Definition may_share (p q : bgp_path_info) : bool :=
  bool_decide (criteria_head p = criteria_head q) && bool_decide (criteria_sort p = criteria_sort q)
  && multipath_eq b (bgp_get_imported_bpi_ultimate p) (bgp_get_imported_bpi_ultimate q).

Lemma cmp_paths_criteria p q reason :
  plain_config -> plain_path p -> plain_path q ->
  let d := first_difference (path_criteria p) (path_criteria q) in
  cmp_paths b afi safi cfg p q reason = Ret (mkCmp (fst d) (may_share p q) (snd d)).
Proof.
  intros Hc Hp Hq d. unfold d, may_share, cmp_paths.
  rewrite plain_local_steps by done. cbv zeta. rewrite plain_med by done.
  cbn [mbind outcome_bind]. rewrite plain_from_peer_type by done.
  set (u := bgp_get_imported_bpi_ultimate p). set (v := bgp_get_imported_bpi_ultimate q).
  rewrite <- andb_assoc. fold u v. unfold path_criteria. rewrite (first_difference_app (criteria_head p) (criteria_head q))
    by (unfold criteria_head, hops_criterion; simpl; repeat case_bool; done).
  generalize (first_difference (criteria_sort p ++ criteria_tie p) (criteria_sort q ++ criteria_tie q)) as rest.
  generalize (bool_decide (criteria_sort p = criteria_sort q) && multipath_eq b u v) as eq.
  intros eq [tr tx]. cbn [fst snd]. unfold criteria_head, hops_criterion. fold u v.
  unfold cmp_weight, cmp_local_pref, cmp_aspath, cmp_origin, prefer_higher, prefer_lower.
  generalize (at_weight (pi_attr p)) (at_weight (pi_attr q)) (local_pref b (pi_attr p))
    (local_pref b (pi_attr q)) (bgp_med_value (pi_attr u) b) (bgp_med_value (pi_attr v) b)
    (at_origin (pi_attr u)) (at_origin (pi_attr v)) (hops u) (hops v) (confeds u) (confeds v).
  intros wp wq lp lq mu mv ou ov hu hv cu cv. clear.
  destruct (bgp_flag b BGP_FLAG_ASPATH_IGNORE), (bgp_flag b BGP_FLAG_ASPATH_CONFED);
    cbn [first_difference]; repeat (case_bool; cbn [otherwise win lose conclude]; try lia);
    repeat case_bool_decide; simplify_eq/=; try lia; try reflexivity;
    exfalso; match goal with H : _ <> _ |- _ => apply H end; repeat first [lia | f_equal].
Qed.
End Order.
