(* ===== verification/BgpBest.v ===== *)
(** * Selection of the best path of a destination
      (bgpd/bgp_route.c, [bgp_best_selection]; bgpd/bgp_mpath.c)

    The paths of a destination form one linked list.  Paths that changed since
    the last run are at its head, marked [BGP_PATH_UNSORTED]; the selection takes
    them off and inserts each one before the first path it beats.  The list is a
    Rocq list here, a path is identified by its [pi_id]; paths that are freed are
    collected in [d_reaped].  The lock count of the node is kept because freeing
    the node under the loop is excluded by an assertion.

    The debug output, the counters of the peers, the merged attribute of a
    multipath route and the identifiers of addpath are left out. *)

From S2P Require Import Prelude Prefix AsPath BgpPath BgpDecision.

(** [struct bgp_dest], with the paths that were released. *)
Record bgp_dest := mkDest {
  d_info : list bgp_path_info;
  d_reason : bgp_path_selection_reason;
  d_lock : Z;
  d_reaped : list bgp_path_info
}.

Definition set_info (l : list bgp_path_info) (d : bgp_dest) : bgp_dest :=
  mkDest l (d_reason d) (d_lock d) (d_reaped d).
Definition set_dreason (r : bgp_path_selection_reason) (d : bgp_dest) : bgp_dest :=
  mkDest (d_info d) r (d_lock d) (d_reaped d).

Definition BGP_PATH_HOLDDOWN (p : bgp_path_info) : bool :=
  negb (has_flag BGP_PATH_VALID p) || has_flag BGP_PATH_UNUSEABLE p.

(** The lock that the path held on the node is given up; the code asserts that
    the node is still there. *)
Definition release (p : bgp_path_info) (d : bgp_dest) : outcome bgp_dest :=
  assert! negb (d_lock d =? 1) ;;
  Ret (mkDest (d_info d) (d_reason d) (d_lock d - 1) (d_reaped d ++ [p])).

Section Selection.
Context `{Memcmp}.
Variables (b : bgp) (afi safi : Z) (mpath_cfg : maxpaths_cfg).

Definition peer_established (pe : peer) : bool := pe_status pe =? Established.

(** The peer is not this instance itself, does not wait for a graceful restart
    and has no session. *)
Definition peer_down (p : bgp_path_info) : bool :=
  let pe := pi_peer p in
  negb (pe_id pe =? bgp_peer_self b)
  && negb (CHECK_FLAG (pe_sflags pe) PEER_STATUS_NSF_WAIT)
  && negb (peer_established pe).

Definition usable (p : bgp_path_info) : bool := negb (BGP_PATH_HOLDDOWN p) && negb (peer_down p).

Definition compare (new exist : bgp_path_info) (reason : bgp_path_selection_reason) :
    outcome cmp_result :=
  bgp_path_info_cmp b afi safi (Some mpath_cfg) (Some new) (Some exist) reason.

(** ** Deterministic MED: the best path of each neighboring AS is marked *)

Definition dmed_skip (p : bgp_path_info) : bool := has_flag BGP_PATH_DMED_CHECK p || negb (usable p).

Definition same_neighbor_as (p q : bgp_path_info) : outcome bool :=
  let a := at_aspath (pi_attr p) in
  let c := at_aspath (pi_attr q) in
  l ← aspath_cmp_left (Some a) (Some c);
  or_call l (aspath_cmp_left_confed (Some a) (Some c)).

(** The paths after [pi1], and the index of [new_select]. *)
Fixpoint dmed_inner (idx : list nat) (pi1 sel : nat) (d : bgp_dest) : outcome (nat * bgp_dest) :=
  match idx with
  | [] => Ret (sel, d)
  | j :: idx' =>
      match d_info d !! pi1, d_info d !! j, d_info d !! sel with
      | Some p1, Some p2, Some s =>
          if dmed_skip p2 then dmed_inner idx' pi1 sel d
          else
            same ← same_neighbor_as p1 p2;
            if negb same then dmed_inner idx' pi1 sel d
            else
              r ← compare p2 s (d_reason d);
              let d := set_dreason (cmp_reason r) d in
              let '(sel, l) :=
                if cmp_ret r =? 0 then (sel, d_info d)
                else (j, alter (flag_off BGP_PATH_DMED_SELECTED) sel (d_info d)) in
              dmed_inner idx' pi1 sel (set_info (alter (flag_on BGP_PATH_DMED_CHECK) j l) d)
      | _, _, _ => Ret (sel, d)
      end
  end.

Fixpoint dmed_outer (idx : list nat) (n : nat) (d : bgp_dest) : outcome bgp_dest :=
  match idx with
  | [] => Ret d
  | i :: idx' =>
      match d_info d !! i with
      | Some p1 =>
          if dmed_skip p1 then dmed_outer idx' n d
          else
            sd ← dmed_inner (seq (S i) (n - S i)) i i d;
            let '(sel, d) := (sd : nat * bgp_dest) in
            dmed_outer idx' n
              (set_info (alter (fun p => flag_on BGP_PATH_DMED_SELECTED (flag_on BGP_PATH_DMED_CHECK p))
                           sel (d_info d)) d)
      | None => Ret d
      end
  end.

Definition dmed_pass (d : bgp_dest) : outcome bgp_dest :=
  if bgp_flag b BGP_FLAG_DETERMINISTIC_MED then
    let l := map (fun p => flag_off BGP_PATH_DMED_CHECK (flag_off BGP_PATH_DMED_SELECTED p)) (d_info d) in
    dmed_outer (seq 0 (length l)) (length l) (set_info l d)
  else Ret d.

(** ** Taking the changed paths off the list *)

Definition must_sort (p : bgp_path_info) : bool := has_flag BGP_PATH_UNSORTED p || peer_down p.

Fixpoint pull_unsorted (l : list bgp_path_info) : list bgp_path_info * list bgp_path_info :=
  match l with
  | p :: l' => if must_sort p then let '(u, r) := pull_unsorted l' in (p :: u, r) else ([], l)
  | [] => ([], [])
  end.

Definition last_selected (u : list bgp_path_info) : option Z :=
  fold_left (fun o p => if has_flag BGP_PATH_SELECTED p then Some (pi_id p) else o) u None.

Definition find_old_select (u rest : list bgp_path_info) : option Z :=
  match last_selected u, rest with
  | Some i, _ => Some i
  | None, p :: _ => if has_flag BGP_PATH_SELECTED p then Some (pi_id p) else None
  | None, [] => None
  end.

(** ** Inserting one path *)

(** What the scan of the list finds: the list with [first] inserted, which is
    then [dest->info] or not, or the list without it. *)
Inductive scan := Inserted (first : bgp_path_info) (at_head : bool) | NotInserted.

Definition is_old (old_select : option Z) (p : bgp_path_info) : bool :=
  bool_decide (old_select = Some (pi_id p)).

(** The mark is removed from [first] when it has its place; nothing reads the
    mark before that. *)
Definition settled (first : bgp_path_info) : bgp_path_info := flag_off BGP_PATH_UNSORTED first.

(** The loop over [look_thru].  [seen] is the part already passed. *)
Fixpoint look_thru (old_select : option Z) (first : bgp_path_info)
    (seen l : list bgp_path_info) (any : bool) (d : bgp_dest) :
    outcome (bool * scan * bgp_dest) :=
  match l with
  | [] => Ret (any, NotInserted, set_info seen d)
  | x :: l' =>
      if BGP_PATH_HOLDDOWN x then
        if has_flag BGP_PATH_REMOVED x && negb (is_old old_select x)
        then d ← release x d; look_thru old_select first seen l' any d
        else look_thru old_select first (seen ++ [x]) l' any d
      else if peer_down x then look_thru old_select first (seen ++ [x]) l' any d
      else
        let x := flag_off BGP_PATH_DMED_CHECK x in
        r ← compare first x (d_reason d);
        if cmp_ret r =? 0
        then look_thru old_select first (seen ++ [set_reason (cmp_reason r) x]) l' true d
        else
          let first := settled (set_reason (cmp_reason r) first) in
          Ret (true, Inserted first (match seen with [] => true | _ => false end),
               set_info (seen ++ first :: x :: l') d)
  end.

(** The loop over the unsorted list, with the paths held to the side. *)
Record sorting := mkSorting {
  s_dest : bgp_dest;
  s_holddown : list bgp_path_info;
  s_any : bool
}.

Definition hold_aside (p : bgp_path_info) (s : sorting) : sorting :=
  mkSorting (s_dest s) (settled p :: s_holddown s) (s_any s).

(** Where a path goes that beats nothing. *)
Definition place_unbeaten (first : bgp_path_info) (any : bool) (d : bgp_dest) : bgp_dest :=
  let first := settled (if any then first else set_reason bgp_path_selection_first first) in
  set_dreason (pi_reason first)
    (set_info (if any then d_info d ++ [first] else first :: d_info d) d).

Definition insert_one (old_select : option Z) (first : bgp_path_info) (s : sorting) :
    outcome sorting :=
  if BGP_PATH_HOLDDOWN first then
    if negb (is_old old_select first) && has_flag BGP_PATH_REMOVED first
    then d ← release first (s_dest s); Ret (mkSorting d (s_holddown s) (s_any s))
    else Ret (hold_aside first s)
  else if peer_down first then Ret (hold_aside first s)
  else
    let first := flag_off BGP_PATH_DMED_CHECK first in
    r ← look_thru old_select first [] (d_info (s_dest s)) (s_any s) (s_dest s);
    let '(any, found, d) := (r : bool * scan * bgp_dest) in
    let d :=
      match found with
      | NotInserted => place_unbeaten first any d
      | Inserted f true => set_dreason (pi_reason f) d
      | Inserted _ false => d
      end in
    Ret (mkSorting d (s_holddown s) any).

Fixpoint insert_all (old_select : option Z) (u : list bgp_path_info) (s : sorting) :
    outcome sorting :=
  match u with
  | [] => Ret s
  | first :: u' => s ← insert_one old_select first s; insert_all old_select u' s
  end.

(** ** The best path *)

Definition chosen_reason (l : list bgp_path_info) (p : bgp_path_info) : bgp_path_selection_reason :=
  if bool_decide (pi_reason p = bgp_path_selection_none) then bgp_path_selection_first
  else match l with [_] => bgp_path_selection_first | _ => pi_reason p end.

(** The first path that is not in holddown. *)
Definition choose (d : bgp_dest) : option Z * bgp_dest :=
  match list_find (fun p => BGP_PATH_HOLDDOWN p = false) (d_info d) with
  | Some (i, p) =>
      let r := chosen_reason (d_info d) p in
      (Some (pi_id p), set_dreason r (set_info (alter (set_reason r) i (d_info d)) d))
  | None => (None, set_dreason bgp_path_selection_none d)
  end.

(** ** Paths that may be used together with the best one *)

Definition find_path (i : option Z) (l : list bgp_path_info) : option bgp_path_info :=
  i ← i; snd <$> list_find (fun p => pi_id p = i) l.

(** The loop over the list, by index: whether a comparison was made, and the
    number of candidates. *)
Fixpoint mark_multipath (idx : list nat) (best : Z) (first_reason : bool) (n : Z) (d : bgp_dest) :
    outcome (Z * bgp_dest) :=
  match idx with
  | [] => Ret (n, d)
  | i :: idx' =>
      match d_info d !! i, find_path (Some best) (d_info d) with
      | Some p, Some s =>
          let mark := set_info (alter (flag_on BGP_PATH_MULTIPATH_NEW) i (d_info d)) d in
          if pi_id p =? best then mark_multipath idx' best first_reason (n + 1) mark
          else if negb (usable p) then mark_multipath idx' best first_reason n d
          else
            r ← compare p s (d_reason d);
            let d' := if cmp_paths_eq r then mark else d in
            let d' := if first_reason then set_dreason (cmp_reason r) d' else d' in
            mark_multipath idx' best false (if cmp_paths_eq r then n + 1 else n) d'
      | _, _ => Ret (n, d)
      end
  end.

Definition multipath_pass (best : option Z) (d : bgp_dest) : outcome (Z * bgp_dest) :=
  match best with
  | Some i =>
      if (1 <? maxpaths_ebgp mpath_cfg) || (1 <? maxpaths_ibgp mpath_cfg)
      then mark_multipath (seq 0 (length (d_info d))) i true 0 d
      else Ret (0, d)
  | None => Ret (0, d)
  end.

(** ** The whole selection, up to the update of the multipath flags *)

Record selection := mkSelection {
  sel_old : option Z;
  sel_new : option Z;
  sel_candidates : Z;
  sel_dest : bgp_dest
}.

(** The list is sorted and the paths held to the side are put back. *)
Definition sort_paths (d : bgp_dest) : outcome (option Z * option Z * bgp_dest) :=
  let '(u, rest) := pull_unsorted (d_info d) in
  let old_select := find_old_select u rest in
  s ← insert_all old_select u (mkSorting (set_info rest d) [] false);
  let '(new_select, d) :=
    match u with
    | [] => (old_select, s_dest s)
    | _ => choose (s_dest s)
    end in
  Ret (old_select, new_select, set_info (d_info d ++ s_holddown s) d).

Definition select_paths (d : bgp_dest) : outcome selection :=
  d ← dmed_pass d;
  r ← sort_paths d;
  let '(old_select, new_select, d) := (r : option Z * option Z * bgp_dest) in
  m ← multipath_pass new_select d;
  let '(n, d) := (m : Z * bgp_dest) in
  Ret (mkSelection old_select new_select n d).

End Selection.
