(* ===== verification/BgpMpath.v ===== *)
(** * Multipath flags of a destination (bgpd/bgp_mpath.c)

    After the selection the flags of the paths from the best one on are brought
    up to date with the candidates it marked.  [linkbw] is the bandwidth that the
    extended communities of a path carry, if any ([ecommunity_linkbw_present] on
    the two kinds of lists). *)

From S2P Require Import Prelude Prefix AsPath BgpPath BgpDecision BgpBest.

Definition BGP_MP_LB_PRESENT : Z := 1.
Definition BGP_MP_LB_ALL : Z := 2.

Definition bgp_path_info_mpath_count (p : bgp_path_info) : Z :=
  match pi_mpath p with Some m => mp_count m | None => 1 end.
Definition bgp_path_info_mpath_cumbw (p : bgp_path_info) : Z :=
  match pi_mpath p with Some m => mp_cum_bw m | None => 0 end.

(** [bgp_path_info_mpath_get]: allocated on first use. *)
Definition bgp_path_info_mpath_get (p : bgp_path_info) : path_mpath :=
  default (mkMpath 1 0 0) (pi_mpath p).

Definition bgp_path_info_mpath_count_set (p : bgp_path_info) (count : Z) : bgp_path_info :=
  if (count =? 0) && bool_decide (pi_mpath p = None) then p
  else
    let m := bgp_path_info_mpath_get p in
    set_mpath (Some (mkMpath count (mp_flags m) (mp_cum_bw m))) p.

Definition put_flag (c : bool) (v f : Z) : Z := if c then SET_FLAG v f else UNSET_FLAG v f.

Definition bgp_path_info_mpath_lb_update (p : bgp_path_info) (set all_paths_lb : bool) (cum_bw : Z) :
    bgp_path_info :=
  if bool_decide (pi_mpath p = None) && (negb set || (cum_bw =? 0) && negb all_paths_lb) then p
  else
    let m := bgp_path_info_mpath_get p in
    set_mpath
      (Some (if set
             then mkMpath (mp_count m)
                    (put_flag all_paths_lb
                       (put_flag (negb (cum_bw =? 0)) (mp_flags m) BGP_MP_LB_PRESENT)
                       BGP_MP_LB_ALL)
                    cum_bw
             else mkMpath (mp_count m) 0 0)) p.

(** The best path of the last run gives up its multipath record. *)
Definition retire (p : bgp_path_info) : bgp_path_info :=
  let p := if u16 (bgp_path_info_mpath_count p) =? 1 then flag_on BGP_PATH_MULTIPATH p else p in
  let p := bgp_path_info_mpath_count_set p 0 in
  let p := bgp_path_info_mpath_lb_update p false false 0 in
  set_mpath None p.

Section Update.
Variable linkbw : bgp_path_info -> option Z.

(** The variables of the walk. *)
Record walk := mkWalk {
  w_count : Z;
  w_changed : bool;
  w_cum_bw : Z;
  w_all_lb : bool
}.

Definition add_bw (p : bgp_path_info) (w : walk) (changed : bool) : walk :=
  match linkbw p with
  | Some bw => mkWalk (u16 (w_count w + 1)) changed (u64 (w_cum_bw w + bw)) (w_all_lb w)
  | None => mkWalk (u16 (w_count w + 1)) changed (w_cum_bw w) false
  end.

Definition drop_flags (p : bgp_path_info) : bgp_path_info :=
  flag_off BGP_PATH_MULTIPATH_NEW (flag_off BGP_PATH_MULTIPATH p).

(** The walk from the best path to the end of the list. *)
Fixpoint walk_paths (best maxpaths : Z) (l : list bgp_path_info) (w : walk) :
    list bgp_path_info * walk :=
  match l with
  | [] => ([], w)
  | x :: l' =>
      let old_mpath := has_flag BGP_PATH_MULTIPATH x in
      let new_mpath := has_flag BGP_PATH_MULTIPATH_NEW x in
      let x' := flag_off BGP_PATH_MULTIPATH_NEW x in
      if maxpaths <=? w_count w then (map drop_flags (x' :: l'), w)
      else
        let '(y, w') :=
          if negb old_mpath && negb new_mpath then (flag_off BGP_PATH_MULTIPATH x', w)
          else if new_mpath
          then (if pi_id x =? best then x' else flag_on BGP_PATH_MULTIPATH x',
                add_bw x w (w_changed w || negb old_mpath))
          else (flag_off BGP_PATH_MULTIPATH x', mkWalk (w_count w) true (w_cum_bw w) (w_all_lb w)) in
        let '(r, w'') := walk_paths best maxpaths l' w' in
        (y :: r, w'')
  end.

(** What is recorded in the best path. *)
Definition record_mpath (w : walk) (old_count old_cum_bw : Z) (p : bgp_path_info) : bgp_path_info :=
  let p :=
    if (1 <? w_count w) || bool_decide (pi_mpath p <> None)
    then bgp_path_info_mpath_lb_update (bgp_path_info_mpath_count_set p (w_count w))
           true (w_all_lb w) (w_cum_bw w)
    else p in
  let p := if w_count w =? 1 then flag_off BGP_PATH_MULTIPATH p else p in
  let p := if w_changed w || negb (bgp_path_info_mpath_count p =? old_count)
           then flag_on BGP_PATH_MULTIPATH_CHG p else p in
  if negb (w_count w =? old_count) || negb (old_cum_bw =? w_cum_bw w)
  then flag_on BGP_PATH_LINK_BW_CHG p else p.

Fixpoint split_at_id (i : Z) (l : list bgp_path_info) : list bgp_path_info * list bgp_path_info :=
  match l with
  | [] => ([], [])
  | x :: l' => if pi_id x =? i then ([], l) else let '(a, r) := split_at_id i l' in (x :: a, r)
  end.

Definition update_id (i : Z) (f : bgp_path_info -> bgp_path_info) (l : list bgp_path_info) :
    list bgp_path_info :=
  map (fun p => if pi_id p =? i then f p else p) l.

Definition bgp_path_info_mpath_update (cfg : maxpaths_cfg) (new_best old_best : option Z)
    (l : list bgp_path_info) : list bgp_path_info :=
  let old := find_path old_best l in
  let old_count := match old with Some p => u16 (bgp_path_info_mpath_count p) | None => 0 end in
  let old_cum_bw := match old with Some p => bgp_path_info_mpath_cumbw p | None => 0 end in
  let l := match old_best with Some i => update_id i retire l | None => l end in
  match new_best with
  | None => l
  | Some i =>
      let '(before, from) := split_at_id i l in
      match from with
      | [] => l
      | best :: _ =>
          let maxpaths := if sort_is (pe_sort (pi_peer best)) BGP_PEER_IBGP
                          then maxpaths_ibgp cfg else maxpaths_ebgp cfg in
          let '(r, w) := walk_paths i maxpaths from (mkWalk 0 false 0 true) in
          before ++ match r with
                    | best' :: rest => record_mpath w old_count old_cum_bw best' :: rest
                    | [] => []
                    end
      end
  end.

End Update.

(** ** [bgp_best_selection] *)

Definition bgp_best_selection `{Memcmp} (linkbw : bgp_path_info -> option Z)
    (b : bgp) (afi safi : Z) (cfg : maxpaths_cfg) (d : bgp_dest) : outcome selection :=
  s ← select_paths b afi safi cfg d;
  Ret (mkSelection (sel_old s) (sel_new s) (sel_candidates s)
         (set_info (bgp_path_info_mpath_update linkbw cfg (sel_new s) (sel_old s)
                      (d_info (sel_dest s))) (sel_dest s))).

(** ** Changes of the list outside of the selection *)

(** [bgp_path_info_add]: the node is locked once more. *)
Definition bgp_path_info_add (p : bgp_path_info) (d : bgp_dest) : bgp_dest :=
  mkDest (flag_on BGP_PATH_UNSORTED p :: d_info d) (d_reason d) (d_lock d + 1) (d_reaped d).

(** [bgp_process]: a path that changed moves to the head of the list. *)
Definition bgp_process (i : Z) (d : bgp_dest) : bgp_dest :=
  let '(before, from) := split_at_id i (d_info d) in
  match from with
  | p :: after => set_info (flag_on BGP_PATH_UNSORTED p :: before ++ after) d
  | [] => d
  end.

Definition bgp_path_info_reap (i : Z) (d : bgp_dest) : bgp_dest :=
  let '(before, from) := split_at_id i (d_info d) in
  match from with
  | p :: after => mkDest (before ++ after) (d_reason d) (d_lock d - 1) (d_reaped d ++ [p])
  | [] => d
  end.
