(* ===== verification/BgpBestFacts.v ===== *)
(** * The selection keeps the list of paths sorted and takes the best one

    What the selection needs from the comparison is an interface, [PathOrder]:
    a transitive order that the comparison decides.  The theorems here are proved
    against it; the comparison of [BgpDecision] provides it for the paths of
    [BgpDecisionFacts]. *)

From Stdlib Require Import Sorted.
From S2P Require Import Prelude Prefix AsPath BgpPath BgpDecision BgpBest BgpMpath.

(** ** What the selection does not change *)

(** The flags that say whether a path can be used, and whether it is stale. *)
Definition watched : Z :=
  Z.lor BGP_PATH_VALID (Z.lor BGP_PATH_UNUSEABLE BGP_PATH_STALE).

(** A path without its reason, its multipath record and the flags that the
    selection works with. *)
Definition core (p : bgp_path_info) : bgp_path_info :=
  set_mpath None (set_reason bgp_path_selection_none (set_flags (Z.land (pi_flags p) watched) p)).

Lemma land_ldiff_off x f w : Z.land f w = 0 -> Z.land (Z.ldiff x f) w = Z.land x w.
Proof.
  intros E. apply Z.bits_inj. intros n. rewrite !Z.land_spec, Z.ldiff_spec.
  apply (f_equal (fun z => Z.testbit z n)) in E. rewrite Z.land_spec, Z.bits_0 in E.
  destruct (Z.testbit x n), (Z.testbit f n), (Z.testbit w n); simpl in *; congruence.
Qed.

Lemma land_lor_off x f w : Z.land f w = 0 -> Z.land (Z.lor x f) w = Z.land x w.
Proof. intros E. rewrite Z.land_lor_distr_l, E. apply Z.lor_0_r. Qed.

Lemma core_off f p : Z.land f watched = 0 -> core (flag_off f p) = core p.
Proof. intros E. unfold core, flag_off, set_flags, UNSET_FLAG. simpl. by rewrite land_ldiff_off. Qed.

Lemma core_on f p : Z.land f watched = 0 -> core (flag_on f p) = core p.
Proof. intros E. unfold core, flag_on, set_flags, SET_FLAG. simpl. by rewrite land_lor_off. Qed.

Lemma core_reason r p : core (set_reason r p) = core p.
Proof. reflexivity. Qed.

Lemma core_mpath m p : core (set_mpath m p) = core p.
Proof. reflexivity. Qed.

Lemma core_settled p : core (settled p) = core p.
Proof. by apply core_off. Qed.

Lemma core_idem p : core (core p) = core p.
Proof. unfold core, set_flags. simpl. by rewrite <- Z.land_assoc, Z.land_diag. Qed.

Lemma has_flag_core f p : Z.land watched f = f -> has_flag f (core p) = has_flag f p.
Proof. intros E. unfold has_flag, CHECK_FLAG. simpl. by rewrite <- Z.land_assoc, E. Qed.

Lemma holddown_core p : BGP_PATH_HOLDDOWN (core p) = BGP_PATH_HOLDDOWN p.
Proof. unfold BGP_PATH_HOLDDOWN. by rewrite !has_flag_core. Qed.

Lemma usable_core b p : usable b (core p) = usable b p.
Proof. unfold usable. by rewrite holddown_core. Qed.

Lemma id_core p : pi_id (core p) = pi_id p.
Proof. reflexivity. Qed.

(** The paths the selection chooses among, in the order of the list. *)
Definition candidates (b : bgp) (l : list bgp_path_info) : list bgp_path_info :=
  List.filter (usable b) (map core l).

Lemma candidates_app b l1 l2 : candidates b (l1 ++ l2) = candidates b l1 ++ candidates b l2.
Proof. unfold candidates. by rewrite map_app, List.filter_app. Qed.

Lemma candidates_cons b p l :
  candidates b (p :: l) = (if usable b p then [core p] else []) ++ candidates b l.
Proof. unfold candidates. simpl. rewrite usable_core. by destruct (usable b p). Qed.

Lemma elem_candidates b q l :
  q ∈ candidates b l <-> exists p, p ∈ l /\ q = core p /\ usable b p = true.
Proof.
  unfold candidates. rewrite !list_elem_of_In, filter_In, in_map_iff. split.
  - intros [(p & <- & Hp) Hu]. exists p. rewrite usable_core in Hu. by rewrite list_elem_of_In.
  - intros (p & Hp & -> & Hu). rewrite usable_core. apply list_elem_of_In in Hp. eauto.
Qed.

(** ** The interface to the comparison *)

Class PathOrder (cmp : bgp_path_info -> bgp_path_info -> bgp_path_selection_reason ->
                       outcome cmp_result) := {
  good : bgp_path_info -> Prop;
  le : bgp_path_info -> bgp_path_info -> Prop;
  le_trans : forall p q r, le p q -> le q r -> le p r;
  le_cmp : forall p q r, good (core p) -> good (core q) ->
    exists c, cmp p q r = Ret c /\ (if cmp_ret c =? 0 then le (core q) (core p)
                                    else le (core p) (core q))
}.

#[export] Instance le_transitive cmp `{PathOrder cmp} : Transitive le.
Proof. exact le_trans. Qed.

(** A path is inserted before the first one it beats. *)
Lemma StronglySorted_insert {A} (R : A -> A -> Prop) `{!Transitive R} l1 f x l2 :
  StronglySorted R (l1 ++ x :: l2) -> Forall (fun y => R y f) l1 -> R f x ->
  StronglySorted R (l1 ++ f :: x :: l2).
Proof.
  intros Hs Hl Hf. induction l1 as [|y l1 IH]; simpl in *.
  - constructor; [done|]. apply StronglySorted_inv in Hs as [_ Hx]. constructor; [done|].
    eapply List.Forall_impl; [|exact Hx]. intros z Hz. by transitivity x.
  - apply StronglySorted_inv in Hs as [Hs Hy]. apply Forall_cons_1 in Hl as [Hyf Hl].
    constructor; [by apply IH|]. apply Forall_app in Hy as [H1 H2].
    apply Forall_app_2; [done|]. by constructor.
Qed.

Lemma StronglySorted_snoc {A} (R : A -> A -> Prop) l f :
  StronglySorted R l -> Forall (fun y => R y f) l -> StronglySorted R (l ++ [f]).
Proof.
  induction 1 as [|y l Hs IH Hy]; intros Hl; simpl; [by repeat constructor|].
  apply Forall_cons_1 in Hl as [Hyf Hl]. constructor; [by apply IH|].
  apply Forall_app_2; [done|]. by constructor.
Qed.

Lemma StronglySorted_sublist {A} (R : A -> A -> Prop) l1 l2 :
  sublist l1 l2 -> StronglySorted R l2 -> StronglySorted R l1.
Proof.
  induction 1 as [|x l1 l2 Hs IH|x l1 l2 Hs IH]; intros H; [done| |].
  - apply StronglySorted_inv in H as [H Hx]. constructor; [by apply IH|].
    rewrite List.Forall_forall in *. intros y Hy. apply Hx.
    apply list_elem_of_In. apply list_elem_of_In in Hy. by eapply elem_of_sublist.
  - apply StronglySorted_inv in H as [H _]. by apply IH.
Qed.

Section Facts.
Context `{Memcmp} (b : bgp) (afi safi : Z) (cfg : maxpaths_cfg)
        `{!PathOrder (compare b afi safi cfg)}.

Definition sorted (l : list bgp_path_info) : Prop := StronglySorted le (candidates b l).
Definition all_good (l : list bgp_path_info) : Prop := Forall good (candidates b l).

(** A path that may be freed. *)
Definition removable (old : option Z) (p : bgp_path_info) : Prop :=
  has_flag BGP_PATH_REMOVED p = true /\ is_old old p = false.

(** [d'] is [d] with the paths [freed] released. *)
Record released (old : option Z) (d d' : bgp_dest) (freed : list bgp_path_info) : Prop := {
  rel_reaped : d_reaped d' = d_reaped d ++ freed;
  rel_lock : d_lock d' = d_lock d - Z.of_nat (length freed);
  rel_removed : Forall (removable old) freed
}.

Lemma released_refl old d l r : released old d (set_dreason r (set_info l d)) [].
Proof. split; simpl; [by rewrite app_nil_r|lia|constructor]. Qed.

Lemma released_info old d d' l freed : released old d d' freed -> released old d (set_info l d') freed.
Proof. intros [H1 H2 H3]. by split. Qed.

Lemma released_reason old d d' r freed :
  released old d d' freed -> released old d (set_dreason r d') freed.
Proof. intros [H1 H2 H3]. by split. Qed.

Lemma release_ok old p d :
  1 < d_lock d -> removable old p ->
  exists d', release p d = Ret d' /\ released old d d' [p] /\ d_info d' = d_info d.
Proof.
  intros Hl Hr. unfold release. case_bool; [|lia].
  eexists. split; [done|]. split; [|done]. split; simpl; [done|lia|by constructor].
Qed.

Lemma released_trans old d d1 d2 f1 f2 :
  released old d d1 f1 -> released old d1 d2 f2 -> released old d d2 (f1 ++ f2).
Proof.
  intros [A1 A2 A3] [B1 B2 B3]. split.
  - by rewrite B1, A1, app_assoc.
  - rewrite length_app. lia.
  - by apply Forall_app_2.
Qed.

Lemma candidates_freed x : BGP_PATH_HOLDDOWN x = true -> candidates b [x] = [].
Proof. intros E. rewrite candidates_cons. unfold usable. by rewrite E. Qed.

Lemma candidates_unusable x : usable b x = false -> candidates b [x] = [].
Proof. intros E. rewrite candidates_cons, E. done. Qed.

(** What the scan for the place of [first] leaves. *)
Definition scan_post (old : option Z) (first : bgp_path_info) (l : list bgp_path_info)
    (d : bgp_dest) (any : bool) (sc : scan) (d' : bgp_dest) : Prop :=
  exists freed, released old d d' freed /\ sorted (d_info d') /\
  match sc with
  | Inserted f _ => core f = core first /\ any = true /\
      map core (d_info d') ++ map core freed ≡ₚ core first :: map core l
  | NotInserted =>
      Forall (fun y => le y (core first)) (candidates b (d_info d')) /\
      (any = false -> candidates b (d_info d') = []) /\
      map core (d_info d') ++ map core freed ≡ₚ map core l
  end.

(** Passing over a path leaves the list the same, up to what does not matter. *)
Lemma step_over seen x y l :
  core y = core x -> map core ((seen ++ [y]) ++ l) = map core (seen ++ x :: l).
Proof. intros E. rewrite !map_app. simpl. by rewrite E, <- app_assoc. Qed.

Lemma candidates_map l1 l2 : map core l1 = map core l2 -> candidates b l1 = candidates b l2.
Proof. unfold candidates. by intros ->. Qed.

Lemma scan_post_map old first l1 l2 d any sc d' :
  map core l1 = map core l2 ->
  scan_post old first l1 d any sc d' -> scan_post old first l2 d any sc d'.
Proof. unfold scan_post. by intros ->. Qed.

(** The induction hypothesis of the scan, with the freed path put back. *)
Lemma scan_post_freed old first seen x l d d1 any sc d' :
  released old d d1 [x] -> scan_post old first (seen ++ l) d1 any sc d' ->
  scan_post old first (seen ++ x :: l) d any sc d'.
Proof.
  intros Hr (f & Hf & Hs & Hp). exists ([x] ++ f). split; [by eapply released_trans|].
  split; [done|].
  assert (Hx : map core (seen ++ x :: l) ≡ₚ core x :: map core (seen ++ l))
    by (rewrite !map_app; simpl; by rewrite <- Permutation_middle).
  assert (Hm : forall m, m ++ map core ([x] ++ f) ≡ₚ core x :: m ++ map core f)
    by (intros m; simpl; by rewrite <- Permutation_middle).
  destruct sc as [g h|]; rewrite Hm, Hx.
  - destruct Hp as (E1 & E2 & ->). split; [done|]. split; [done|]. apply perm_swap.
  - destruct Hp as (H1 & H2 & ->). done.
Qed.

Lemma inserted_sorted seen f x l r first :
  usable b first = true -> usable b x = true -> core f = core first -> core r = core x ->
  StronglySorted le (candidates b seen ++ [core x] ++ candidates b l) ->
  Forall (fun y => le y (core first)) (candidates b seen) -> le (core first) (core x) ->
  StronglySorted le (candidates b seen ++ candidates b (f :: r :: l)).
Proof.
  intros Hu Hx Ef Er Hs Hl Hle. rewrite !candidates_cons.
  rewrite <- (usable_core b f), <- (usable_core b r), Ef, Er, !usable_core, Hu, Hx.
  by apply (StronglySorted_insert le).
Qed.

Lemma look_thru_spec old first l : forall seen any d,
  good (core first) -> usable b first = true ->
  sorted (seen ++ l) -> all_good (seen ++ l) ->
  Forall (fun y => le y (core first)) (candidates b seen) ->
  (any = false -> candidates b seen = []) ->
  Z.of_nat (length l) < d_lock d ->
  exists any' sc d',
    look_thru b afi safi cfg old first seen l any d = Ret (any', sc, d')
    /\ scan_post old first (seen ++ l) d any' sc d'.
Proof.
  induction l as [|x l IH]; intros seen any d Hg Hu Hs Ha Hle Hany Hlock.
  { rewrite app_nil_r in *. eexists _, _, _. split; [done|]. exists []. split; [|split].
    - apply (released_refl _ d seen (d_reason d)).
    - done.
    - simpl. rewrite app_nil_r. auto. }
  cbn [look_thru]. rewrite length_cons in Hlock.
  assert (Hskip : forall y any', core y = core x ->
    Forall (fun z => le z (core first)) (candidates b [x]) ->
    (any' = false -> any = false /\ candidates b [x] = []) ->
    exists a sc d', look_thru b afi safi cfg old first (seen ++ [y]) l any' d = Ret (a, sc, d')
      /\ scan_post old first (seen ++ x :: l) d a sc d').
  { intros y any' Ey Hx Hn. pose proof (step_over seen x y l Ey) as Em.
    assert (Ec : candidates b [y] = candidates b [x]) by (apply candidates_map; simpl; by rewrite Ey).
    destruct (IH (seen ++ [y]) any' d) as (a & sc & d' & E & Hp); auto.
    - unfold sorted. by rewrite (candidates_map _ _ Em).
    - unfold all_good. by rewrite (candidates_map _ _ Em).
    - rewrite candidates_app, Ec. by apply Forall_app_2.
    - intros E. destruct (Hn E) as [E1 E2]. by rewrite candidates_app, Ec, E2, Hany.
    - lia.
    - eexists _, _, _. split; [exact E|]. by eapply scan_post_map. }
  destruct (BGP_PATH_HOLDDOWN x) eqn:Eh.
  { pose proof (candidates_freed x Eh) as Ec.
    destruct (has_flag BGP_PATH_REMOVED x && negb (is_old old x)) eqn:Er.
    - bool_to_prop. destruct (release_ok old x d) as (d1 & -> & Hr & _); [lia|by split|].
      cbn [mbind outcome_bind]. unfold sorted, all_good in Hs, Ha.
      change (x :: l) with ([x] ++ l) in Hs, Ha. rewrite !candidates_app, Ec in Hs, Ha.
      destruct (IH seen any d1) as (a & sc & d' & -> & Hp); auto.
      + unfold sorted. by rewrite candidates_app.
      + unfold all_good. by rewrite candidates_app.
      + destruct Hr as [_ Hl _]. simpl in Hl. lia.
      + eexists _, _, _. split; [done|]. by eapply scan_post_freed.
    - apply Hskip; rewrite ?Ec; auto. }
  destruct (peer_down b x) eqn:Ed.
  { assert (Ec : candidates b [x] = []) by (apply candidates_unusable; unfold usable; by rewrite Eh, Ed).
    apply Hskip; rewrite ?Ec; auto. }
  assert (Eu : usable b x = true) by (unfold usable; by rewrite Eh, Ed).
  assert (Ec : candidates b [x] = [core x]) by (by rewrite candidates_cons, Eu).
  set (x' := flag_off BGP_PATH_DMED_CHECK x).
  assert (Ex : core x' = core x) by (by apply core_off).
  unfold sorted, all_good in Hs, Ha. change (x :: l) with ([x] ++ l) in Hs, Ha.
  rewrite !candidates_app, Ec in Hs, Ha.
  destruct (le_cmp first x' (d_reason d)) as (c & -> & Hc); [done| |].
  { rewrite Ex. apply Forall_app in Ha as [_ Ha]. by apply Forall_cons_1 in Ha as [Ha _]. }
  cbn [mbind outcome_bind]. rewrite Ex in Hc. destruct (cmp_ret c =? 0) eqn:E0.
  { apply Hskip; [by rewrite core_reason| |done]. rewrite Ec. by constructor. }
  eexists _, _, _. split; [done|]. exists []. split; [apply (released_refl _ d _ (d_reason d))|].
  split; [|split; [by rewrite core_settled, core_reason|split; [done|]]].
  - unfold sorted. cbn [d_info set_info]. rewrite !candidates_app.
    apply (inserted_sorted _ _ x _ _ first); auto. by rewrite core_settled, core_reason.
  - cbn [d_info set_info]. rewrite app_nil_r, !map_app. cbn [map].
    rewrite core_settled, core_reason, Ex, <- Permutation_middle. done.
Qed.
(** ** The loop over the unsorted paths *)

(** A path that can be compared, if it is a candidate. *)
Definition fit (q : bgp_path_info) : Prop := usable b q = true -> good q.

Lemma all_good_fit l : all_good l <-> Forall fit (map core l).
Proof.
  unfold all_good, candidates, fit. induction (map core l) as [|q m IH]; simpl; [done|].
  rewrite (List.Forall_cons_iff (fun q => _ -> _)), <- IH.
  destruct (usable b q); rewrite ?List.Forall_cons_iff; intuition congruence.
Qed.

Section Run.
Variables (old : option Z) (d0 : bgp_dest) (l0 rest0 : list bgp_path_info).
Hypothesis (Hfit : Forall fit (map core l0)) (Hlock0 : Z.of_nat (length l0) < d_lock d0).

(** Nothing is lost: every path of [l0] is in the list, held to the side, freed
    or still to be inserted.  The list holds paths of [rest0] and candidates. *)
Record sorting_inv (s : sorting) (rem : list bgp_path_info) : Prop := {
  si_sorted : sorted (d_info (s_dest s));
  si_hold : candidates b (s_holddown s) = [];
  si_from : Forall (fun q => usable b q = true \/ q ∈ map core rest0)
              (map core (d_info (s_dest s)));
  si_all : exists freed, released old d0 (s_dest s) freed /\
    map core (d_info (s_dest s)) ++ map core (s_holddown s) ++ map core freed ++ map core rem
    ≡ₚ map core l0
}.

Lemma inv_lock s rem :
  sorting_inv s rem ->
  Z.of_nat (length (d_info (s_dest s))) + Z.of_nat (length rem) < d_lock (s_dest s).
Proof.
  intros [_ _ _ (f & Hf & Hp)]. apply Permutation_length in Hp.
  rewrite !length_app, !length_map in Hp. destruct Hf as [_ Hl _]. lia.
Qed.

Lemma inv_fit s rem :
  sorting_inv s rem -> all_good (d_info (s_dest s)) /\ Forall fit (map core rem).
Proof.
  intros [_ _ _ (f & Hf & Hp)]. rewrite all_good_fit.
  pose proof (Permutation_Forall (symmetry Hp) Hfit) as Ha.
  rewrite !Forall_app in Ha. tauto.
Qed.

Lemma hold_aside_inv first s rem :
  usable b first = false -> sorting_inv s (first :: rem) -> sorting_inv (hold_aside first s) rem.
Proof.
  intros Hu [H1 H2 H3 (f & Hf & Hp)]. split; [done| |done|].
  - simpl. rewrite candidates_cons, H2. unfold settled.
    by rewrite <- usable_core, core_settled, usable_core, Hu.
  - exists f. split; [done|]. rewrite <- Hp. cbn [hold_aside s_holddown s_dest map].
    rewrite core_settled. solve_Permutation.
Qed.

(** Where a path goes that beat nothing. *)
Lemma place_unbeaten_sorted first any d :
  usable b first = true -> sorted (d_info d) ->
  Forall (fun y => le y (core first)) (candidates b (d_info d)) ->
  (any = false -> candidates b (d_info d) = []) ->
  sorted (d_info (place_unbeaten first any d))
  /\ map core (d_info (place_unbeaten first any d)) ≡ₚ core first :: map core (d_info d).
Proof.
  intros Hu Hs Hle Hany. unfold place_unbeaten, sorted. cbn [d_info set_dreason set_info].
  set (f := settled _).
  assert (Ef : core f = core first) by (unfold f; rewrite core_settled; by destruct any).
  assert (Hf : candidates b [f] = [core first])
    by (rewrite candidates_cons, <- usable_core, Ef, usable_core, Hu; done).
  destruct any.
  - rewrite candidates_app, Hf, map_app. split; [by apply StronglySorted_snoc|].
    simpl. rewrite Ef. solve_Permutation.
  - change (f :: d_info d) with ([f] ++ d_info d).
    rewrite candidates_app, Hf, Hany by done. split; [repeat constructor|]. simpl. by rewrite Ef.
Qed.

(** The place of [first], with the list it leaves. *)
Lemma insert_place first s rem :
  usable b first = true -> sorting_inv s (first :: rem) ->
  exists any sc d1, look_thru b afi safi cfg old (flag_off BGP_PATH_DMED_CHECK first) []
      (d_info (s_dest s)) (s_any s) (s_dest s) = Ret (any, sc, d1)
    /\ scan_post old first (d_info (s_dest s)) (s_dest s) any sc d1.
Proof.
  intros Hu Hi. set (f := flag_off BGP_PATH_DMED_CHECK first).
  assert (Ef : core f = core first) by (by apply core_off).
  assert (Uf : usable b f = true) by (by rewrite <- usable_core, Ef, usable_core).
  pose proof (inv_lock _ _ Hi) as Hl. rewrite length_cons in Hl.
  destruct (inv_fit _ _ Hi) as [Hg Hrem]. simpl in Hrem. apply Forall_cons_1 in Hrem as [Hgf _].
  destruct (look_thru_spec old f (d_info (s_dest s)) [] (s_any s) (s_dest s))
    as (a & sc & d1 & E & Hp); auto.
  - rewrite Ef. apply Hgf. by rewrite usable_core.
  - by apply si_sorted with (first :: rem).
  - lia.
  - exists a, sc, d1. split; [done|]. unfold scan_post in *. by rewrite Ef in Hp.
Qed.

Lemma insert_one_inv first s rem :
  sorting_inv s (first :: rem) ->
  exists s', insert_one b afi safi cfg old first s = Ret s' /\ sorting_inv s' rem.
Proof.
  intros Hi. unfold insert_one. destruct (BGP_PATH_HOLDDOWN first) eqn:Eh.
  { assert (Hu : usable b first = false) by (unfold usable; by rewrite Eh).
    case_bool; [|eexists; split; [done|]; by apply hold_aside_inv].
    pose proof (inv_lock _ _ Hi) as Hl. rewrite length_cons in Hl.
    destruct (release_ok old first (s_dest s)) as (d1 & -> & Hr & Ei); [lia|by split|].
    eexists. split; [done|]. destruct Hi as [Hs1 Hh1 Hr1 (f & Hf & Hp)].
    split; [simpl; by rewrite Ei|done|simpl; by rewrite Ei|].
    exists (f ++ [first]). split; [by eapply released_trans|]. rewrite <- Hp. simpl.
    rewrite Ei, map_app. simpl. solve_Permutation. }
  destruct (peer_down b first) eqn:Ed.
  { eexists. split; [done|]. apply hold_aside_inv; [|done]. unfold usable. by rewrite Eh, Ed. }
  assert (Hu : usable b first = true) by (unfold usable; by rewrite Eh, Ed).
  destruct (insert_place first s rem Hu Hi) as (a & sc & d1 & -> & f & Hf & Hs & Hp).
  cbn [mbind outcome_bind]. eexists. split; [done|]. destruct Hi as [Hs1 Hh1 Hr1 (f0 & Hf0 & Hp0)].
  pose proof (released_trans _ _ _ _ _ _ Hf0 Hf) as Hr.
  assert (Hfin : forall d2, released old d1 d2 [] -> sorted (d_info d2) ->
    map core (d_info d2) ++ map core f ≡ₚ core first :: map core (d_info (s_dest s)) ->
    sorting_inv (mkSorting d2 (s_holddown s) a) rem).
  { intros d2 Hr2 Hs2 Hp2. split; [done|done| |].
    { assert (Ha : Forall (fun q => usable b q = true \/ q ∈ map core rest0)
               (map core (d_info d2) ++ map core f)).
      { rewrite Hp2. constructor; [left; by rewrite usable_core|done]. }
      by apply Forall_app in Ha as [Ha _]. }
    exists ((f0 ++ f) ++ []).
    split; [by eapply released_trans|]. rewrite <- Hp0, app_nil_r, map_app. simpl.
    transitivity (map core (s_holddown s) ++ map core f0 ++ map core rem
                  ++ (map core (d_info d2) ++ map core f)); [solve_Permutation|].
    rewrite Hp2. solve_Permutation. }
  destruct sc as [g [|]|].
  - apply Hfin; [apply (released_refl _ d1 (d_info d1))|done|by destruct Hp as (_ & _ & Hp)].
  - apply Hfin; [|done|by destruct Hp as (_ & _ & Hp)].
    destruct d1. apply (released_refl _ (mkDest _ _ _ _) _ _).
  - destruct Hp as (Hle & Hany & Hp).
    destruct (place_unbeaten_sorted (flag_off BGP_PATH_DMED_CHECK first) a d1) as [Hs2 Hp2].
    + by rewrite <- usable_core, core_off, usable_core.
    + done.
    + by rewrite core_off.
    + done.
    + rewrite core_off in Hp2 by done. apply Hfin; [|done|].
      * apply (released_refl _ d1).
      * rewrite Hp2, <- Hp. done.
Qed.

Lemma insert_all_inv u : forall s,
  sorting_inv s u -> exists s', insert_all b afi safi cfg old u s = Ret s' /\ sorting_inv s' [].
Proof.
  induction u as [|first u IH]; intros s Hi; [by exists s|]. cbn [insert_all].
  destruct (insert_one_inv _ _ _ Hi) as (s1 & -> & Hi1). cbn [mbind outcome_bind]. by apply IH.
Qed.
End Run.

(** ** The whole pass *)

Lemma pull_unsorted_app l : fst (pull_unsorted b l) ++ snd (pull_unsorted b l) = l.
Proof.
  induction l as [|p l IH]; simpl; [done|]. destruct (must_sort b p); [|done].
  destruct (pull_unsorted b l) as [u r]. simpl in *. by rewrite IH.
Qed.

(** The part of the list that the last run sorted. *)
Definition settled_part (d : bgp_dest) : list bgp_path_info := snd (pull_unsorted b (d_info d)).
Definition changed_part (d : bgp_dest) : list bgp_path_info := fst (pull_unsorted b (d_info d)).

(** No path of the sorted part is valid while its peer is down. *)
Definition no_ghosts (d : bgp_dest) : Prop :=
  Forall (fun p => BGP_PATH_HOLDDOWN p = false -> peer_down b p = false) (settled_part d).

Lemma candidates_suffix l1 l2 : sorted (l1 ++ l2) -> sorted l2.
Proof.
  unfold sorted. rewrite candidates_app. apply StronglySorted_sublist. by apply sublist_inserts_l.
Qed.

Lemma sorted_dest l d : sorted l -> d_info d = l -> sorted (settled_part d).
Proof.
  intros Hs <-. unfold settled_part. rewrite <- (pull_unsorted_app (d_info d)) in Hs.
  by eapply candidates_suffix.
Qed.

Lemma map_core_alter f i l : (forall p, core (f p) = core p) -> map core (alter f i l) = map core l.
Proof. intros E. revert i. induction l as [|p l IH]; intros [|i]; simpl; [done|done|by rewrite E|].
  f_equal. apply IH.
Qed.

Lemma candidates_holddown l : Forall (fun p => BGP_PATH_HOLDDOWN p <> false) l -> candidates b l = [].
Proof.
  induction 1 as [|p l Hp Hl IH]; [done|]. rewrite candidates_cons, IH. unfold usable.
  by destruct (BGP_PATH_HOLDDOWN p).
Qed.

(** The first path that is not in holddown is the first candidate. *)
Lemma choose_spec d :
  sorted (d_info d) ->
  let '(new, d') := choose d in
  map core (d_info d') = map core (d_info d) /\
  (forall old, released old d d' []) /\
  (Forall (fun q => BGP_PATH_HOLDDOWN q = false -> usable b q = true) (map core (d_info d)) ->
   match new with
   | Some i => exists p others, candidates b (d_info d') = p :: others /\ pi_id p = i
                 /\ Forall (le p) others
   | None => candidates b (d_info d') = []
   end).
Proof.
  intros Hs. unfold choose.
  destruct (list_find _ _) as [[i p]|] eqn:E.
  - apply list_find_Some in E as (Hi & Hp & Hb). set (r := chosen_reason _ _).
    assert (Em : map core (alter (set_reason r) i (d_info d)) = map core (d_info d))
      by (by apply map_core_alter).
    split; [done|]. split; [intros; apply (released_refl _ d)|]. intros Ha. simpl.
    rewrite (candidates_map _ _ Em). unfold sorted in Hs.
    assert (Hn : candidates b (take i (d_info d)) = []).
    { apply candidates_holddown, Forall_lookup. intros j q Hq.
      apply lookup_take_Some in Hq as [Hq Hj]. by apply (Hb j). }
    assert (Hu : usable b p = true).
    { apply list_elem_of_lookup_2 in Hi. rewrite List.Forall_forall in Ha. rewrite <- usable_core.
      apply Ha; [|by rewrite holddown_core]. apply in_map. by apply list_elem_of_In. }
    rewrite <- (take_drop_middle _ _ _ Hi) in Hs |- *.
    rewrite candidates_app, Hn, candidates_cons, Hu in Hs |- *. simpl in *.
    apply StronglySorted_inv in Hs as [_ Hs]. eauto.
  - apply list_find_None in E. split; [done|]. split; [intros; apply (released_refl _ d (d_info d))|].
    intros _. simpl. by apply candidates_holddown.
Qed.

Theorem sort_paths_spec d :
  sorted (settled_part d) -> all_good (d_info d) -> Z.of_nat (length (d_info d)) < d_lock d ->
  exists old new d' freed,
    sort_paths b afi safi cfg d = Ret (old, new, d')
    /\ released old d d' freed
    /\ map core (d_info d') ++ map core freed ≡ₚ map core (d_info d)
    /\ sorted (d_info d')
    /\ (changed_part d <> [] -> no_ghosts d ->
        match new with
        | Some i => exists p others, candidates b (d_info d') = p :: others /\ pi_id p = i
                      /\ Forall (le p) others
        | None => candidates b (d_info d') = []
        end).
Proof.
  intros Hs Hg Hl. unfold sort_paths, no_ghosts, changed_part, settled_part in *.
  pose proof (pull_unsorted_app (d_info d)) as Ea.
  destruct (pull_unsorted b (d_info d)) as [u rest]. simpl in *.
  set (old := find_old_select u rest). apply all_good_fit in Hg.
  destruct (insert_all_inv old d (d_info d) rest Hg Hl u (mkSorting (set_info rest d) [] false))
    as (s & -> & [Hs' Hh Hfrom (f & Hf & Hp)]).
  { split; [done|done|simpl; apply List.Forall_forall; intros; right; by apply list_elem_of_In|].
    exists []. split; [apply (released_refl _ d rest (d_reason d))|]. simpl.
    rewrite <- Ea, map_app. solve_Permutation. }
  cbn [mbind outcome_bind]. simpl in Hp. rewrite app_nil_r in Hp.
  assert (Hh2 : forall l, candidates b (l ++ s_holddown s) = candidates b l)
    by (intros l; by rewrite candidates_app, Hh, app_nil_r).
  destruct u as [|p0 u].
  { eexists _, _, _, f. split; [done|]. split; [by apply released_info|].
    cbn [d_info set_info]. rewrite map_app, <- app_assoc. split; [done|].
    split; [unfold sorted; by rewrite Hh2|done]. }
  pose proof (choose_spec (s_dest s) Hs') as Hc. destruct (choose (s_dest s)) as [new d1].
  destruct Hc as (Em & Hr & Hc). eexists _, _, _, (f ++ []). split; [done|].
  split; [by eapply released_info, released_trans|]. cbn [d_info set_info].
  rewrite app_nil_r, map_app, <- app_assoc, Em. split; [done|].
  split; [unfold sorted; rewrite Hh2, (candidates_map _ _ Em); done|].
  intros _ Hng. rewrite Hh2. apply Hc. eapply Forall_impl; [|exact Hfrom].
  intros q [Hq|Hq] Hd; [done|]. apply list_elem_of_In, in_map_iff in Hq as (p & <- & Hp').
  rewrite usable_core. unfold usable. rewrite holddown_core in Hd. rewrite Hd.
  rewrite List.Forall_forall in Hng. by rewrite (Hng p Hp' Hd).
Qed.
End Facts.
