(* ===== verification/BgpSelect.v ===== *)
(** * The whole selection: deterministic MED, sorting, multipath

    The passes around the sorting only change flags, reasons and multipath
    records: the theorem of [BgpBestFacts] carries over to
    [bgp_best_selection]. *)

From stdpp Require Import sets.
From Stdlib Require Import Sorted.
From S2P Require Import Prelude Prefix AsPath BgpPath BgpDecision BgpBest BgpMpath BgpBestFacts.

(** ** Deterministic MED only marks paths *)

Definition strip (p : bgp_path_info) : bgp_path_info :=
  flag_off BGP_PATH_DMED_SELECTED (flag_off BGP_PATH_DMED_CHECK p).

Lemma flag_off_ldiff f g p : flag_off f (flag_off g p) = flag_off (Z.lor g f) p.
Proof. unfold flag_off, set_flags, UNSET_FLAG. simpl. f_equal. apply Z.ldiff_ldiff_l. Qed.

Lemma ldiff_lor_sub x f g : Z.ldiff f g = 0 -> Z.ldiff (Z.lor x f) g = Z.ldiff x g.
Proof.
  intros E. apply Z.bits_inj. intros n. rewrite !Z.ldiff_spec, Z.lor_spec.
  apply (f_equal (fun z => Z.testbit z n)) in E. rewrite Z.ldiff_spec, Z.bits_0 in E.
  destruct (Z.testbit x n), (Z.testbit f n), (Z.testbit g n); simpl in *; congruence.
Qed.

Definition dmed_bits : Z := Z.lor BGP_PATH_DMED_CHECK BGP_PATH_DMED_SELECTED.

Lemma strip_off p : strip p = flag_off dmed_bits p.
Proof. apply flag_off_ldiff. Qed.

Lemma strip_flag_off f p : Z.ldiff f dmed_bits = 0 -> strip (flag_off f p) = strip p.
Proof.
  intros E. rewrite !strip_off, flag_off_ldiff.
  replace (Z.lor f dmed_bits) with dmed_bits; [done|].
  apply Z.bits_inj. intros n. apply (f_equal (fun z => Z.testbit z n)) in E.
  rewrite Z.ldiff_spec, Z.bits_0 in E. rewrite Z.lor_spec.
  destruct (Z.testbit f n), (Z.testbit dmed_bits n); simpl in *; congruence.
Qed.

Lemma strip_flag_on f p : Z.ldiff f dmed_bits = 0 -> strip (flag_on f p) = strip p.
Proof.
  intros E. rewrite !strip_off. unfold flag_off, flag_on, set_flags, UNSET_FLAG, SET_FLAG. simpl.
  by rewrite ldiff_lor_sub.
Qed.

Lemma strip_check_on p : strip (flag_on BGP_PATH_DMED_CHECK p) = strip p.
Proof. by apply strip_flag_on. Qed.

Lemma strip_selected_off p : strip (flag_off BGP_PATH_DMED_SELECTED p) = strip p.
Proof. by apply strip_flag_off. Qed.

Lemma has_flag_strip f p : Z.land dmed_bits f = 0 -> has_flag f (strip p) = has_flag f p.
Proof.
  intros E. rewrite strip_off. unfold has_flag, CHECK_FLAG, flag_off, UNSET_FLAG. simpl.
  by rewrite land_ldiff_off.
Qed.

Lemma core_strip p : core (strip p) = core p.
Proof. rewrite strip_off. by apply core_off. Qed.

Lemma strip_core p q : strip p = strip q -> core p = core q.
Proof. intros E. by rewrite <- (core_strip p), E, core_strip. Qed.

Lemma must_sort_strip b p : must_sort b (strip p) = must_sort b p.
Proof. unfold must_sort. by rewrite has_flag_strip. Qed.

Lemma cons_inv {A} (x y : A) l k : x :: l = y :: k -> x = y /\ l = k.
Proof. by inversion 1. Qed.

Lemma map_strip_core l1 l2 : map strip l1 = map strip l2 -> map core l1 = map core l2.
Proof.
  revert l2. induction l1 as [|p l1 IH]; intros [|q l2] E; try done.
  simpl in E |- *. apply cons_inv in E as [E1 E2].
  f_equal; [by apply strip_core|by apply IH].
Qed.

Lemma pull_strip b l : forall m, map strip l = map strip m ->
  map strip (fst (pull_unsorted b l)) = map strip (fst (pull_unsorted b m))
  /\ map strip (snd (pull_unsorted b l)) = map strip (snd (pull_unsorted b m)).
Proof.
  induction l as [|p l IH]; intros [|q m] E; try done.
  apply cons_inv in E as [E1 E2]. simpl.
  assert (Em : must_sort b p = must_sort b q)
    by (rewrite <- (must_sort_strip b p), <- (must_sort_strip b q); by f_equal).
  rewrite Em. destruct (must_sort b q); [|split; [done|]; cbn [snd map]; by f_equal].
  specialize (IH m E2).
  destruct (pull_unsorted b l), (pull_unsorted b m). cbn [fst snd map] in *.
  destruct IH. split; [by f_equal|done].
Qed.

Lemma map_alter_strip f i l : (forall p, strip (f p) = strip p) -> map strip (alter f i l) = map strip l.
Proof.
  intros E. revert i. induction l as [|p l IH]; intros [|i]; simpl; [done|done|by rewrite E|].
  f_equal. apply IH.
Qed.

(** No segment of the AS path is empty. *)
Definition wf_segs (p : bgp_path_info) : Prop :=
  Forall (fun s => seg_as s <> []) (segments (at_aspath (pi_attr p))).

Lemma skip_confeds_forall (P : assegment -> Prop) l : Forall P l -> Forall P (skip_confeds l).
Proof. induction 1; simpl; [done|]. case_bool; [done|by constructor]. Qed.

Lemma as0_ok s : seg_as s <> [] -> exists x, as0 s = Ret x.
Proof. unfold as0. destruct (seg_as s); [done|eauto]. Qed.

Lemma aspath_cmp_left_ok a1 a2 :
  Forall (fun s => seg_as s <> []) (segments a1) -> Forall (fun s => seg_as s <> []) (segments a2) ->
  exists r, aspath_cmp_left (Some a1) (Some a2) = Ret r.
Proof.
  intros H1 H2. unfold aspath_cmp_left.
  apply skip_confeds_forall in H1, H2. revert H1 H2.
  destruct (segments a1) as [|s1 l1], (segments a2) as [|s2 l2]; [eauto|..];
    intros H1 H2; repeat case_match; eauto;
    match goal with
    | H1 : Forall _ (?x :: _), H2 : Forall _ (?y :: _) |- _ =>
        apply Forall_cons_1 in H1 as [H1 _], H2 as [H2 _];
        destruct (as0_ok _ H1) as [? ->], (as0_ok _ H2) as [? ->]; simpl; eauto
    end.
Qed.

Lemma aspath_cmp_left_confed_ok a1 a2 :
  Forall (fun s => seg_as s <> []) (segments a1) -> Forall (fun s => seg_as s <> []) (segments a2) ->
  exists r, aspath_cmp_left_confed (Some a1) (Some a2) = Ret r.
Proof.
  intros H1 H2. unfold aspath_cmp_left_confed. repeat case_match; eauto.
  apply Forall_cons_1 in H1 as [H1 _], H2 as [H2 _].
  destruct (as0_ok _ H1) as [? ->], (as0_ok _ H2) as [? ->]. simpl. eauto.
Qed.

Lemma same_neighbor_as_ok p q : wf_segs p -> wf_segs q -> exists r, same_neighbor_as p q = Ret r.
Proof.
  intros Hp Hq. unfold same_neighbor_as.
  destruct (aspath_cmp_left_ok _ _ Hp Hq) as [l ->]. cbn [mbind outcome_bind].
  unfold or_call. destruct l; [eauto|]. by apply aspath_cmp_left_confed_ok.
Qed.

Section Whole.
Context `{Memcmp} (linkbw : bgp_path_info -> option Z) (b : bgp) (afi safi : Z)
        (cfg : maxpaths_cfg) `{!PathOrder (compare b afi safi cfg)}.

(** Every path can be compared with every other one. *)
Definition sound (l : list bgp_path_info) : Prop :=
  Forall (fun q => good q /\ wf_segs q) (map core l).

Lemma sound_map l1 l2 : map core l1 = map core l2 -> sound l1 -> sound l2.
Proof. unfold sound. by intros ->. Qed.

Lemma sound_lookup l i p : sound l -> l !! i = Some p -> good (core p) /\ wf_segs p.
Proof.
  intros Hs Hi. apply list_elem_of_lookup_2, list_elem_of_In, (in_map core) in Hi.
  unfold sound in Hs. rewrite List.Forall_forall in Hs. exact (Hs _ Hi).
Qed.

Lemma sound_all_good l : sound l -> all_good b afi safi cfg l.
Proof.
  intros Hs. apply all_good_fit. eapply Forall_impl; [|exact Hs]. intros q [Hq _] _. done.
Qed.

(** Only marks of the deterministic pass, and the reason, change. *)
Definition marked (d d' : bgp_dest) : Prop :=
  map strip (d_info d') = map strip (d_info d) /\ d_lock d' = d_lock d /\ d_reaped d' = d_reaped d.

Lemma marked_trans d1 d2 d3 : marked d1 d2 -> marked d2 d3 -> marked d1 d3.
Proof. unfold marked. intuition congruence. Qed.

Lemma marked_sound d d' : marked d d' -> sound (d_info d) -> sound (d_info d').
Proof. intros [E _]. apply sound_map. symmetry. by apply map_strip_core. Qed.

Lemma marked_alter f i r d :
  (forall p, strip (f p) = strip p) ->
  marked d (set_info (alter f i (d_info d)) (set_dreason r d)).
Proof. intros E. split; [by apply map_alter_strip|done]. Qed.

Lemma dmed_inner_marks idx pi1 : forall sel d,
  sound (d_info d) ->
  exists sel' d', dmed_inner b afi safi cfg idx pi1 sel d = Ret (sel', d') /\ marked d d'.
Proof.
  induction idx as [|j idx IH]; intros sel d Hs; [by exists sel, d|]. cbn [dmed_inner].
  destruct (d_info d !! pi1) as [p1|] eqn:E1; [|by exists sel, d].
  destruct (d_info d !! j) as [p2|] eqn:E2; [|by exists sel, d].
  destruct (d_info d !! sel) as [s|] eqn:E3; [|by exists sel, d].
  destruct (dmed_skip b p2); [by apply IH|].
  destruct (sound_lookup _ _ _ Hs E1) as [_ W1]. destruct (sound_lookup _ _ _ Hs E2) as [G2 W2].
  destruct (sound_lookup _ _ _ Hs E3) as [G3 _].
  destruct (same_neighbor_as_ok _ _ W1 W2) as [same ->]. cbn [mbind outcome_bind].
  destruct same; cbn [negb]; [|by apply IH].
  destruct (le_cmp p2 s (d_reason d) G2 G3) as (c & -> & _). cbn [mbind outcome_bind].
  set (r := cmp_reason c).
  destruct (cmp_ret c =? 0).
  - pose proof (marked_alter (flag_on BGP_PATH_DMED_CHECK) j r d
                  strip_check_on) as Hm.
    edestruct (IH sel) as (s' & d' & -> & Hd'); [by eapply marked_sound|].
    exists s', d'. split; [done|]. eapply marked_trans; [exact Hm|]. exact Hd'.
  - pose proof (marked_alter (flag_off BGP_PATH_DMED_SELECTED) sel r d
                  strip_selected_off) as Hm1.
    pose proof (marked_alter (flag_on BGP_PATH_DMED_CHECK) j r
                  (set_info (alter (flag_off BGP_PATH_DMED_SELECTED) sel (d_info d)) (set_dreason r d))
                  strip_check_on) as Hm2.
    pose proof (marked_trans _ _ _ Hm1 Hm2) as Hm.
    edestruct (IH j) as (s' & d' & E & Hd'); [by eapply marked_sound|].
    exists s', d'. split; [exact E|]. by eapply marked_trans.
Qed.

Lemma dmed_outer_marks idx n : forall d,
  sound (d_info d) ->
  exists d', dmed_outer b afi safi cfg idx n d = Ret d' /\ marked d d'.
Proof.
  induction idx as [|i idx IH]; intros d Hs; [by exists d|]. cbn [dmed_outer].
  destruct (d_info d !! i) as [p1|]; [|by exists d].
  destruct (dmed_skip b p1); [by apply IH|].
  destruct (dmed_inner_marks (seq (S i) (n - S i)) i i d Hs) as (sel & d1 & -> & H1).
  cbn [mbind outcome_bind].
  set (f := fun p => flag_on BGP_PATH_DMED_SELECTED (flag_on BGP_PATH_DMED_CHECK p)).
  assert (Hf : forall p, strip (f p) = strip p) by (intros p; unfold f; by rewrite !strip_flag_on).
  pose proof (marked_trans _ _ _ H1 (marked_alter f sel (d_reason d1) d1 Hf)) as Hm.
  edestruct IH as (d' & E & Hd'); [by eapply marked_sound|].
  exists d'. split; [|by eapply marked_trans].
  rewrite <- E. destruct d1. reflexivity.
Qed.

Lemma dmed_pass_marks d :
  sound (d_info d) -> exists d', dmed_pass b afi safi cfg d = Ret d' /\ marked d d'.
Proof.
  intros Hs. unfold dmed_pass. case_bool; [|by exists d].
  set (l := map _ (d_info d)).
  assert (Hm : marked d (set_info l d)).
  { split; [|done]. unfold l. simpl. rewrite map_map. apply map_ext. intros p.
    by rewrite !strip_flag_off. }
  destruct (dmed_outer_marks (seq 0 (length l)) (length l) (set_info l d)) as (d' & E & Hd').
  - by eapply marked_sound.
  - exists d'. split; [exact E|]. by eapply marked_trans.
Qed.

(** ** Multipath only marks paths *)

Definition recorded (d d' : bgp_dest) : Prop :=
  map core (d_info d') = map core (d_info d) /\ d_lock d' = d_lock d /\ d_reaped d' = d_reaped d.

Lemma recorded_trans d1 d2 d3 : recorded d1 d2 -> recorded d2 d3 -> recorded d1 d3.
Proof. unfold recorded. intuition congruence. Qed.

Lemma marked_recorded d d' : marked d d' -> recorded d d'.
Proof. intros (E & H1 & H2). split; [by apply map_strip_core|done]. Qed.

Lemma find_path_sound i l s : sound l -> find_path i l = Some s -> good (core s).
Proof.
  unfold find_path. destruct i as [i|]; [|done]. simpl. intros Hs.
  destruct (list_find _ l) as [[k q]|] eqn:E; [|done]. intros Eq. simplify_eq/=.
  apply list_find_Some in E as (Hk & _). by destruct (sound_lookup _ _ _ Hs Hk).
Qed.

Lemma mark_recorded i d :
  recorded d (set_info (alter (flag_on BGP_PATH_MULTIPATH_NEW) i (d_info d)) d).
Proof. split; [|done]. apply map_core_alter. intros p. by apply core_on. Qed.

Lemma mark_multipath_records idx best : forall fr n d,
  sound (d_info d) ->
  exists n' d', mark_multipath b afi safi cfg idx best fr n d = Ret (n', d') /\ recorded d d'.
Proof.
  induction idx as [|i idx IH]; intros fr n d Hs; [by exists n, d|]. cbn [mark_multipath].
  destruct (d_info d !! i) as [p|] eqn:E1; [|by exists n, d].
  destruct (find_path (Some best) (d_info d)) as [s|] eqn:E2; [|by exists n, d].
  assert (Hstep : forall d1 fr' n', recorded d d1 ->
    exists n'' d', mark_multipath b afi safi cfg idx best fr' n' d1 = Ret (n'', d') /\ recorded d d').
  { intros d1 fr' n' H1.
    destruct (IH fr' n' d1) as (n'' & d' & E & Hd).
    - eapply sound_map; [|exact Hs]. by destruct H1 as [-> _].
    - exists n'', d'. split; [done|]. by eapply recorded_trans. }
  pose proof (mark_recorded i d) as Hm.
  destruct (pi_id p =? best); [by apply Hstep|]. destruct (usable b p); [|by apply Hstep].
  destruct (sound_lookup _ _ _ Hs E1) as [Gp _].
  destruct (le_cmp p s (d_reason d) Gp (find_path_sound _ _ _ Hs E2)) as (c & -> & _).
  cbn [negb mbind outcome_bind]. apply Hstep. by destruct (cmp_paths_eq c), fr.
Qed.

Lemma multipath_pass_records best d :
  sound (d_info d) ->
  exists n d', multipath_pass b afi safi cfg best d = Ret (n, d') /\ recorded d d'.
Proof.
  intros Hs. unfold multipath_pass. destruct best as [i|]; [|by exists 0, d].
  case_bool; [by apply mark_multipath_records|by exists 0, d].
Qed.

Lemma core_count_set p n : core (bgp_path_info_mpath_count_set p n) = core p.
Proof. unfold bgp_path_info_mpath_count_set. by case_bool. Qed.

Lemma core_lb_update p s a c : core (bgp_path_info_mpath_lb_update p s a c) = core p.
Proof. unfold bgp_path_info_mpath_lb_update. by case_bool. Qed.

Lemma core_retire p : core (retire p) = core p.
Proof.
  unfold retire. rewrite core_mpath, core_lb_update, core_count_set.
  case_bool; [by apply core_on|done].
Qed.

Lemma core_record w c o p : core (record_mpath w c o p) = core p.
Proof.
  unfold record_mpath. set (p1 := if _ || _ then _ else p).
  assert (E1 : core p1 = core p)
    by (unfold p1; case_bool; [by rewrite core_lb_update, core_count_set|done]).
  rewrite <- E1. clearbody p1. clear E1.
  repeat case_bool; rewrite ?core_on, ?core_off by done; done.
Qed.

Lemma walk_paths_core best m l : forall w,
  map core (fst (walk_paths linkbw best m l w)) = map core l.
Proof.
  induction l as [|x l IH]; intros w; cbn [walk_paths]; [done|].
  assert (Hd : forall p, core (drop_flags p) = core p)
    by (intros p; unfold drop_flags; by rewrite !core_off).
  case_bool.
  - cbn [fst map]. rewrite Hd, core_off by done. f_equal. rewrite map_map. by apply map_ext.
  - match goal with |- context [let '(_, _) := ?e in let '(_, _) := _ in _] =>
      assert (Ey : core (fst e) = core x)
        by (repeat case_bool; cbn [fst]; rewrite ?core_on, ?core_off by done; done);
      destruct e as [y w1] end.
    specialize (IH w1). destruct (walk_paths linkbw best m l w1) as [r w2].
    cbn [fst map] in *. by rewrite Ey, IH.
Qed.

Lemma split_at_id_app i l : fst (split_at_id i l) ++ snd (split_at_id i l) = l.
Proof.
  induction l as [|x l IH]; simpl; [done|]. case_bool; [done|].
  destruct (split_at_id i l). simpl in *. by rewrite IH.
Qed.

Lemma update_id_core i f l : (forall p, core (f p) = core p) -> map core (update_id i f l) = map core l.
Proof. intros E. unfold update_id. rewrite map_map. apply map_ext. intros p. by case_bool. Qed.

Lemma mpath_update_core new old l :
  map core (bgp_path_info_mpath_update linkbw cfg new old l) = map core l.
Proof.
  unfold bgp_path_info_mpath_update. set (l1 := match old with Some i => _ | None => l end).
  assert (E1 : map core l1 = map core l)
    by (unfold l1; destruct old; [by apply update_id_core, core_retire|done]).
  rewrite <- E1. destruct new as [i|]; [|done].
  pose proof (split_at_id_app i l1) as Ea. destruct (split_at_id i l1) as [before from].
  cbn [fst snd] in Ea. destruct from as [|best rest]; [done|].
  match goal with |- context [walk_paths linkbw i ?m (best :: rest) ?w] =>
    pose proof (walk_paths_core i m (best :: rest) w) as Ew;
    destruct (walk_paths linkbw i m (best :: rest) w) as [r wr] end.
  rewrite <- Ea, !map_app. f_equal. cbn [fst] in Ew. rewrite <- Ew.
  destruct r as [|best' r]; [done|]. cbn [map]. by rewrite core_record.
Qed.

(** ** The selection *)

Lemma marked_parts d d' :
  marked d d' ->
  map core (settled_part b d') = map core (settled_part b d)
  /\ (changed_part b d <> [] -> changed_part b d' <> []).
Proof.
  intros (E & _). destruct (pull_strip b _ _ E) as [E1 E2]. split; [by apply map_strip_core|].
  unfold changed_part. destruct (fst (pull_unsorted b (d_info d))), (fst (pull_unsorted b (d_info d')));
    done.
Qed.

(** The chosen path is the first candidate of the list, and no other candidate
    is preferred to it. *)
Definition picks (l : list bgp_path_info) (new : option Z) : Prop :=
  match new with
  | Some i => exists p others, candidates b l = p :: others /\ pi_id p = i /\ Forall (le p) others
  | None => candidates b l = []
  end.

Lemma no_ghosts_map d d' :
  map core (settled_part b d') = map core (settled_part b d) -> no_ghosts b d -> no_ghosts b d'.
Proof.
  unfold no_ghosts. intros E Hn. apply Forall_lookup. intros i p Hi Hp.
  assert (Hc : map core (settled_part b d') !! i = Some (core p)) by (by rewrite list_lookup_fmap, Hi).
  rewrite E, list_lookup_fmap in Hc.
  destruct (settled_part b d !! i) as [q|] eqn:Eq; [|done]. apply Some_inj in Hc.
  change (peer_down b p) with (peer_down b (core p)). rewrite <- Hc.
  apply (Forall_lookup_1 _ _ _ _ Hn Eq). by rewrite <- holddown_core, Hc, holddown_core.
Qed.

Lemma sound_perm l freed l0 : map core l ++ map core freed ≡ₚ map core l0 -> sound l0 -> sound l.
Proof.
  unfold sound. intros E Hs. rewrite <- E in Hs. by apply Forall_app in Hs as [Hs _].
Qed.

Lemma recorded_released old d d1 d2 freed :
  recorded d1 d2 -> released old d d1 freed -> released old d d2 freed.
Proof. intros (_ & E1 & E2) [H1 H2 H3]. split; congruence. Qed.

Lemma released_marked old d d1 d2 freed :
  marked d d1 -> released old d1 d2 freed -> released old d d2 freed.
Proof. intros (_ & E1 & E2) [H1 H2 H3]. split; congruence. Qed.

Theorem best_selection_spec d :
  sorted b afi safi cfg (settled_part b d) -> sound (d_info d) -> Z.of_nat (length (d_info d)) < d_lock d ->
  exists s freed,
    bgp_best_selection linkbw b afi safi cfg d = Ret s
    /\ released (sel_old s) d (sel_dest s) freed
    /\ map core (d_info (sel_dest s)) ++ map core freed ≡ₚ map core (d_info d)
    /\ sorted b afi safi cfg (d_info (sel_dest s))
    /\ (changed_part b d <> [] -> no_ghosts b d -> picks (d_info (sel_dest s)) (sel_new s)).
Proof.
  intros Hs Hg Hl. unfold bgp_best_selection, select_paths.
  destruct (dmed_pass_marks d Hg) as (d1 & -> & Hm). cbn [mbind outcome_bind].
  destruct (marked_parts _ _ Hm) as [Ep Ec]. pose proof (marked_sound _ _ Hm Hg) as Hg1.
  pose proof (marked_recorded _ _ Hm) as (E1 & El & _).
  destruct (sort_paths_spec b afi safi cfg d1) as (old & new & d2 & f & -> & Hr & Hp & Hs2 & Hpick).
  { unfold sorted. by rewrite (candidates_map _ _ _ Ep). }
  { by apply sound_all_good. }
  { apply (f_equal length) in E1. rewrite !length_map in E1. lia. }
  cbn [mbind outcome_bind]. rewrite E1 in Hp.
  destruct (multipath_pass_records new d2) as (n & d3 & -> & H3).
  { eapply sound_perm; [exact Hp|done]. }
  cbn [mbind outcome_bind]. eexists _, f. split; [done|]. cbn [sel_old sel_new sel_dest].
  assert (H4 : recorded d2 (set_info (bgp_path_info_mpath_update linkbw cfg new old (d_info d3)) d3)).
  { destruct H3 as (E3 & E4 & E5). split; [|done]. cbn [d_info set_info].
    by rewrite mpath_update_core. }
  split; [by eapply recorded_released, released_marked|]. destruct H4 as (E4 & _). rewrite E4.
  split; [done|]. unfold picks, sorted. rewrite (candidates_map _ _ _ E4). split; [done|].
  intros Hc Hn. apply Hpick; [by apply Ec|]. by eapply no_ghosts_map.
Qed.

(** ** The destination over time *)

(** What changes the list of paths between two selections: a new path, a path
    that gets new data and is scheduled, the flag of the selected path, and the
    removal of a path after the selection. *)
Inductive dest_step : bgp_dest -> bgp_dest -> Prop :=
| step_add p d :
    good (core p) -> wf_segs p -> pi_id p ∉ map pi_id (d_info d) ->
    dest_step d (bgp_path_info_add p d)
| step_change i p d :
    good (core p) -> wf_segs p -> pi_id p = i -> i ∈ map pi_id (d_info d) ->
    dest_step d (bgp_process i (set_info (update_id i (fun _ => p) (d_info d)) d))
| step_selected i d : dest_step d (set_info (update_id i (flag_on BGP_PATH_SELECTED) (d_info d)) d)
| step_unselected i d : dest_step d (set_info (update_id i (flag_off BGP_PATH_SELECTED) (d_info d)) d)
| step_reap i d : dest_step d (bgp_path_info_reap i d)
| step_select d s :
    bgp_best_selection linkbw b afi safi cfg d = Ret s -> dest_step d (sel_dest s).

Definition new_dest (locks : Z) : bgp_dest := mkDest [] bgp_path_selection_none locks [].

Inductive dest_reachable : bgp_dest -> Prop :=
| reach_new locks : 1 <= locks -> dest_reachable (new_dest locks)
| reach_step d d' : dest_reachable d -> dest_step d d' -> dest_reachable d'.

Record dest_inv (d : bgp_dest) : Prop := {
  di_sorted : sorted b afi safi cfg (settled_part b d);
  di_sound : sound (d_info d);
  di_lock : Z.of_nat (length (d_info d)) < d_lock d;
  di_ids : NoDup (map pi_id (d_info d))
}.

Lemma ids_core l : map pi_id l = map pi_id (map core l).
Proof. rewrite map_map. by apply map_ext. Qed.

Lemma candidates_sublist l1 l2 : sublist l1 l2 -> sublist (candidates b l1) (candidates b l2).
Proof.
  induction 1 as [|p l1 l2 Hs IH|p l1 l2 Hs IH]; [done| |]; rewrite !candidates_cons;
    destruct (usable b p); simpl; by try constructor.
Qed.

Lemma sorted_sublist l1 l2 : sublist l1 l2 -> sorted b afi safi cfg l2 -> sorted b afi safi cfg l1.
Proof. intros Hs. by apply StronglySorted_sublist, candidates_sublist. Qed.

Lemma pull_sublist l : sublist (snd (pull_unsorted b l)) l.
Proof.
  rewrite <- (pull_unsorted_app b l) at 2. by apply sublist_inserts_l.
Qed.

(** Taking a path out of the list takes it out of the sorted part. *)
Lemma pull_delete p l1 l2 :
  sublist (snd (pull_unsorted b (l1 ++ l2))) (snd (pull_unsorted b (l1 ++ p :: l2))).
Proof.
  induction l1 as [|x l1 IH]; simpl.
  - destruct (must_sort b p); [by destruct (pull_unsorted b l2)|].
    simpl. constructor. apply pull_sublist.
  - destruct (must_sort b x); [by destruct (pull_unsorted b (l1 ++ l2)), (pull_unsorted b (l1 ++ p :: l2))|].
    simpl. constructor. apply sublist_app; [done|]. by constructor.
Qed.

Lemma split_at_id_spec i l before from :
  split_at_id i l = (before, from) ->
  l = before ++ from /\ (forall p, p ∈ before -> pi_id p <> i)
  /\ match from with [] => True | p :: _ => pi_id p = i end.
Proof.
  revert before from. induction l as [|x l IH]; intros before from E; simplify_eq/=.
  { split; [done|]. split; [set_solver|done]. }
  revert E. case_bool; intros E; simplify_eq/=; [split; [done|]; split; [set_solver|done]|].
  destruct (split_at_id i l) as [a r]. destruct (IH a r eq_refl) as (-> & H1 & H2). simplify_eq/=.
  split; [done|]. split; [|done]. intros q [->|Hq]%elem_of_cons; auto.
Qed.

(** With distinct identifiers the change hits one path. *)
Lemma update_split i p l before q after :
  NoDup (map pi_id l) -> l = before ++ q :: after -> pi_id q = i -> pi_id p = i ->
  split_at_id i (update_id i (fun _ => p) l) = (before, p :: after).
Proof.
  intros Hn -> Hq Hp. rewrite map_app in Hn. simpl in Hn.
  apply list.NoDup_app in Hn as (_ & Hb & Hn). apply list.NoDup_cons in Hn as [Ha _].
  assert (Hid : forall m, i ∉ map pi_id m -> update_id i (fun _ => p) m = m).
  { induction m as [|x m IH]; simpl; [done|]. intros Hi. apply not_elem_of_cons in Hi as [Hx Hm].
    case_bool; [congruence|]. by rewrite IH. }
  unfold update_id in *. rewrite map_app. simpl. rewrite Hq, Z.eqb_refl.
  rewrite Hid, (Hid after); [| |].
  - clear -Hb Hp Hq. induction before as [|x m IH]; simpl.
    + rewrite Hp, Z.eqb_refl. done.
    + case_bool; [exfalso; apply (Hb (pi_id x)); simpl; [left|]; rewrite Heqb, <- Hq; left|].
      rewrite IH; [done|]. intros y Hy. apply Hb. by right.
  - by rewrite Hq in Ha.
  - intros Hi. apply (Hb i); [done|]. rewrite Hq. left.
Qed.

Lemma sound_app l1 l2 : sound (l1 ++ l2) <-> sound l1 /\ sound l2.
Proof. unfold sound. by rewrite map_app, Forall_app. Qed.

Lemma sound_cons p l : sound (p :: l) <-> (good (core p) /\ wf_segs p) /\ sound l.
Proof. unfold sound. simpl. apply List.Forall_cons_iff. Qed.

(** A path with new data goes to the front. *)
Lemma changed_front p l r :
  sorted b afi safi cfg (snd (pull_unsorted b l)) -> d_info r = flag_on BGP_PATH_UNSORTED p :: l ->
  sorted b afi safi cfg (settled_part b r).
Proof.
  intros Hs E. unfold settled_part. rewrite E. simpl.
  assert (Hm : must_sort b (flag_on BGP_PATH_UNSORTED p) = true).
  { unfold must_sort, has_flag, CHECK_FLAG, flag_on, SET_FLAG. simpl.
    rewrite Z.land_lor_distr_l. apply orb_true_iff. left. apply negb_true_iff, Z.eqb_neq.
    intros E0. apply Z.lor_eq_0_iff in E0 as [_ E0]. done. }
  rewrite Hm. by destruct (pull_unsorted b l).
Qed.

Lemma inv_add p d :
  good (core p) -> wf_segs p -> pi_id p ∉ map pi_id (d_info d) -> dest_inv d ->
  dest_inv (bgp_path_info_add p d).
Proof.
  intros Hg Hw Hi [H1 H2 H3 H4]. split.
  - by eapply changed_front.
  - apply sound_cons. rewrite core_on by done. done.
  - simpl. lia.
  - by constructor.
Qed.

(** The list without one of its paths. *)
Lemma inv_delete d before p after :
  dest_inv d -> d_info d = before ++ p :: after ->
  sorted b afi safi cfg (snd (pull_unsorted b (before ++ after)))
  /\ sound (before ++ after)
  /\ NoDup (pi_id p :: map pi_id (before ++ after)).
Proof.
  intros [H1 H2 H3 H4] E. unfold settled_part in H1. rewrite E in *. split; [|split].
  - eapply sorted_sublist; [apply pull_delete|exact H1].
  - rewrite sound_app, sound_cons in H2. rewrite sound_app. tauto.
  - revert H4. rewrite !map_app. simpl. by rewrite <- Permutation_middle.
Qed.

Lemma inv_change i p d :
  good (core p) -> wf_segs p -> pi_id p = i -> i ∈ map pi_id (d_info d) -> dest_inv d ->
  dest_inv (bgp_process i (set_info (update_id i (fun _ => p) (d_info d)) d)).
Proof.
  intros Hg Hw Hi Hin Hd. apply list_elem_of_In, in_map_iff in Hin as (q & Hq & Hin).
  apply list_elem_of_In, list_elem_of_split in Hin as (before & after & E).
  unfold bgp_process. cbn [d_info set_info].
  rewrite (update_split i p _ before q after); [|by destruct Hd|done|done|done].
  destruct (inv_delete _ _ _ _ Hd E) as (H1 & H2 & H3). rewrite Hq, <- Hi in H3. split.
  - by eapply changed_front.
  - apply sound_cons. rewrite core_on by done. done.
  - destruct Hd as [_ _ Hl _]. rewrite E, length_app in Hl. simpl in *. rewrite length_app. lia.
  - done.
Qed.

Lemma inv_reap i d : dest_inv d -> dest_inv (bgp_path_info_reap i d).
Proof.
  intros Hd. unfold bgp_path_info_reap.
  destruct (split_at_id i (d_info d)) as [before from] eqn:E.
  apply split_at_id_spec in E as (E & _ & Hf). destruct from as [|p after]; [done|].
  destruct (inv_delete _ _ _ _ Hd E) as (H1 & H2 & H3). split; [done|done| |].
  - destruct Hd as [_ _ Hl _]. rewrite E, length_app in Hl. simpl in *. rewrite length_app. lia.
  - by apply list.NoDup_cons in H3 as [_ H3].
Qed.

(** A flag that the selection does not look at. *)
Lemma inv_flag f i d :
  (forall p, core (f p) = core p) -> (forall p, must_sort b (f p) = must_sort b p) ->
  dest_inv d -> dest_inv (set_info (update_id i f (d_info d)) d).
Proof.
  intros Hc Hm [H1 H2 H3 H4]. pose proof (update_id_core i f (d_info d) Hc) as E. split.
  - unfold sorted, settled_part in *. cbn [d_info set_info].
    set (g := fun p => if pi_id p =? i then f p else p).
    assert (Hp : snd (pull_unsorted b (map g (d_info d))) = map g (snd (pull_unsorted b (d_info d)))).
    { clear -Hm g. induction (d_info d) as [|x l IH]; simpl; [done|].
      assert (Eg : must_sort b (g x) = must_sort b x) by (unfold g; by case_bool).
      rewrite Eg. destruct (must_sort b x); [|done].
      destruct (pull_unsorted b (map g l)), (pull_unsorted b l). done. }
    unfold update_id. fold g. rewrite Hp.
    rewrite (candidates_map _ _ (snd (pull_unsorted b (d_info d)))); [done|].
    by apply update_id_core.
  - eapply sound_map; [|exact H2]. symmetry. exact E.
  - simpl. unfold update_id. by rewrite length_map.
  - cbn [d_info set_info]. by rewrite ids_core, E, <- ids_core.
Qed.

Lemma inv_select d s :
  bgp_best_selection linkbw b afi safi cfg d = Ret s -> dest_inv d -> dest_inv (sel_dest s).
Proof.
  intros E [H1 H2 H3 H4].
  destruct (best_selection_spec d H1 H2 H3) as (s' & f & E' & Hr & Hp & Hs & _).
  rewrite E' in E. simplify_eq. split.
  - by eapply sorted_dest.
  - by eapply sound_perm.
  - apply Permutation_length in Hp. rewrite length_app, !length_map in Hp. destruct Hr. lia.
  - rewrite ids_core in H4 |- *. rewrite <- Hp, map_app in H4.
    by apply list.NoDup_app in H4 as [H4 _].
Qed.

Lemma selected_flag f p :
  Z.land f BGP_PATH_UNSORTED = 0 ->
  must_sort b (flag_on f p) = must_sort b p /\ must_sort b (flag_off f p) = must_sort b p.
Proof.
  intros E. unfold must_sort, has_flag, CHECK_FLAG, flag_on, flag_off, SET_FLAG, UNSET_FLAG. simpl.
  by rewrite land_lor_off, land_ldiff_off.
Qed.

Lemma inv_reachable d : dest_reachable d -> dest_inv d.
Proof.
  induction 1 as [locks Hl|d d' Hd IH Hs].
  - split; [constructor|constructor|simpl; lia|constructor].
  - inversion Hs; subst.
    + by apply inv_add.
    + by apply inv_change.
    + apply inv_flag; [intros; by apply core_on|intros; by apply selected_flag|done].
    + apply inv_flag; [intros; by apply core_off|intros; by apply selected_flag|done].
    + by apply inv_reap.
    + by eapply inv_select.
Qed.
End Whole.
