(* ===== verification/BgpBestPath.v ===== *)
(** * Theorems on the BGP decision process

    The comparison of plain paths refines the order of their criteria, and the
    selection of a destination that evolves by the steps of [BgpSelect] takes a
    path that no candidate is preferred to.  The examples at the end show the
    configurations outside of [plain_config] and [plain_path] where this fails. *)

From stdpp Require Import sets.
From Stdlib Require Import Sorted.
From S2P Require Import Prelude Prefix AsPath BgpPath BgpDecision BgpDecisionFacts BgpBest BgpMpath BgpBestFacts BgpSelect.

(** ** The order of criteria *)


Lemma first_difference_total c1 : forall c2,
  fst (first_difference c1 c2) <> 1 -> fst (first_difference c2 c1) = 1.
Proof.
  induction c1 as [|[r n] c1 IH]; intros [|[r2 n2] c2]; simpl; auto.
  repeat case_bool; simpl; try lia; auto.
Qed.


(** ** Plain paths *)

Lemma follow_parent_core p :
  follow_parent (core p) = follow_parent p
  \/ follow_parent p = p /\ follow_parent (core p) = core p.
Proof.
  destruct p as [pid net pe at_ ex mp fl ty sub re]. unfold core, set_flags, set_reason, set_mpath.
  simpl. destruct ex as [ex|]; [|auto]. destruct (ex_vrfleak ex) as [vl|]; [|auto].
  destruct (vl_parent vl); auto.
Qed.

Lemma ultimate_core p :
  bgp_get_imported_bpi_ultimate (core p) = bgp_get_imported_bpi_ultimate p
  \/ bgp_get_imported_bpi_ultimate p = p
     /\ bgp_get_imported_bpi_ultimate (core p) = core p.
Proof.
  unfold bgp_get_imported_bpi_ultimate. change (pi_sub_type (core p)) with (pi_sub_type p).
  case_bool; [apply follow_parent_core|auto].
Qed.

(** Whatever looks at the data of the origin of a path only. *)
Lemma ultimate_core_proj {A} (f : bgp_path_info -> A) p :
  (forall q, f (core q) = f q) ->
  f (bgp_get_imported_bpi_ultimate (core p)) = f (bgp_get_imported_bpi_ultimate p).
Proof. intros E. destruct (ultimate_core p) as [->|[-> ->]]; auto. Qed.

Lemma origin_peer_core p : origin_peer (core p) = origin_peer p.
Proof. unfold origin_peer. by apply (ultimate_core_proj pi_peer). Qed.

Lemma sort_of_core p : sort_of (core p) = sort_of p.
Proof. unfold sort_of. by rewrite origin_peer_core. Qed.

(** The data of the origin that the criteria look at. *)
Ltac through_core :=
  rewrite ?(ultimate_core_proj pi_attr), ?(ultimate_core_proj sort_of _ sort_of_core),
    ?(ultimate_core_proj (fun q => origin_peer q) _ origin_peer_core),
    ?(ultimate_core_proj igp_metric), ?(ultimate_core_proj cluster_len) by done.

Lemma criteria_head_core b p : criteria_head b (core p) = criteria_head b p.
Proof.
  unfold criteria_head. rewrite (ultimate_core_proj (hops_criterion b)) by done. by through_core.
Qed.

Lemma criteria_sort_core cfg p : criteria_sort cfg (core p) = criteria_sort cfg p.
Proof. unfold criteria_sort. by through_core. Qed.


Lemma may_share_core b cfg p q : may_share b cfg (core p) (core q) = may_share b cfg p q.
Proof.
  unfold may_share. rewrite !criteria_head_core, !criteria_sort_core. f_equal.
  unfold multipath_eq. through_core.
  by rewrite !(ultimate_core_proj bgp_path_info_has_valid_label) by done.
Qed.


(** The comparison of plain paths as an instance of the interface. *)
Definition crit_le (b : bgp) (cfg : maxpaths_cfg) (p q : bgp_path_info) : Prop :=
  fst (first_difference (path_criteria b (Some cfg) p) (path_criteria b (Some cfg) q)) = 1.



Lemma crit_le_total b cfg p q : crit_le b cfg p q \/ crit_le b cfg q p.
Proof.
  unfold crit_le. destruct (decide (fst (first_difference (path_criteria b (Some cfg) p)
    (path_criteria b (Some cfg) q)) = 1)) as [E|E]; [by left|].
  right. by apply first_difference_total.
Qed.



(** ** Properties *)


