(* ===== verification/BgpSamples.v ===== *)
(** * Concrete paths for the decision process

    Two implementations of [memcmp], a few peers and paths, and what the code
    does with them outside of the conditions of [BgpBestPath]. *)

From S2P Require Import Prelude Prefix AsPath BgpPath BgpDecision BgpDecisionFacts BgpBest BgpMpath BgpBestFacts BgpSelect BgpBestPath.

(** ** Two implementations of [memcmp] *)

Lemma memcmp_sgn n : forall a b, Z.sgn (memcmp a b n) = memcmp a b n.
Proof.
  induction n as [|n IH]; intros a b; cbn [memcmp]; [done|]. case_bool; [apply IH|].
  unfold numcmp. by repeat case_bool.
Qed.

Definition sign_memcmp : Memcmp := {| c_memcmp := memcmp; c_memcmp_sgn a b n := memcmp_sgn n a b |}.

(** The difference of the first bytes that differ. *)
Fixpoint memcmp_difference (a b : list Z) (n : nat) : Z :=
  match n with
  | O => 0
  | S n' =>
      let c := byte_at a 0 - byte_at b 0 in
      if c =? 0 then memcmp_difference (drop 1 a) (drop 1 b) n' else c
  end.

Lemma memcmp_difference_sgn n : forall a b, Z.sgn (memcmp_difference a b n) = memcmp a b n.
Proof.
  induction n as [|n IH]; intros a b; cbn [memcmp memcmp_difference]; [done|].
  unfold numcmp. repeat case_bool; try lia; apply IH.
Qed.

Definition difference_memcmp : Memcmp :=
  {| c_memcmp := memcmp_difference; c_memcmp_sgn a b n := memcmp_difference_sgn n a b |}.

(** ** Samples *)

Definition sample_attr (asns : list Z) (med : Z) : attr :=
  mkAttr (mkAspath 0 [mkSeg AS_SEQUENCE asns] None 0 (Z.of_nat (length asns)) ASNOTATION_PLAIN)
    None (ATTR_FLAG_BIT BGP_ATTR_MULTI_EXIT_DISC) [10; 0; 0; 1] med 100 0 0 0 0 [] [] [] 0 [] 0 0 0
    (replicate 10 0) 1 0 0.

Definition sample_peer (i : Z) (sort : bgp_peer_sort) (sub asn : Z) (remote : sockunion) (status : Z) :
    peer :=
  mkPeer i 0 sort sub asn [1; 1; 1; 1] remote (Some remote) None 0 status (fun _ _ => 0).

Definition v4 (x : Z) : sockunion := mkSu AF_INET [192; 168; 0; x].
Definition v6 (x : Z) : sockunion := mkSu AF_INET6 (replicate 15 0 ++ [x]).

Definition sample_path (i : Z) (pe : peer) (a : attr) (igp flags : Z) : bgp_path_info :=
  mkPath i net10_8 pe a (Some (mkExtra igp None None)) None flags ZEBRA_ROUTE_BGP BGP_ROUTE_NORMAL
    bgp_path_selection_none.

Definition sample_bgp (flags : Z) : bgp :=
  mkBgp flags 0 100 0 (fun _ _ _ => None) (fun _ _ _ => None) (fun _ _ _ => false)
    (fun _ _ => 0) (fun _ _ => 0) (fun _ _ => 0).

Definition plain_bgp : bgp :=
  sample_bgp (Z.lor BGP_FLAG_ALWAYS_COMPARE_MED BGP_FLAG_COMPARE_ROUTER_ID).
Definition one_path : maxpaths_cfg := mkMaxpaths 1 1 false.
Definition four_paths : maxpaths_cfg := mkMaxpaths 4 4 false.
Definition no_linkbw : bgp_path_info -> option Z := fun _ => None.

(** Path [i] from an external peer of AS [asn]. *)
Definition ebgp_path (i asn med igp : Z) : bgp_path_info :=
  sample_path i (sample_peer i BGP_PEER_EBGP 0 asn (v4 i) Established) (sample_attr [asn; 64500] med)
    igp BGP_PATH_VALID.



(** ** Witnesses *)




(** ** What happens outside of the plain cases *)

(** Both peers are external and in the same administrative domain
    ([BGP_PEER_EBGP_OAD]): whichever path is new wins, although the one has the
    better metric. *)
Definition oad_path (i igp : Z) : bgp_path_info :=
  sample_path i (sample_peer i BGP_PEER_EBGP BGP_PEER_EBGP_OAD 65001 (v4 i) Established)
    (sample_attr [65001; 64500] 10) igp BGP_PATH_VALID.

Definition v6_path (i : Z) : bgp_path_info :=
  sample_path i (sample_peer i BGP_PEER_EBGP 0 65001 (v6 i) Established)
    (sample_attr [65001; 64500] 10) 5 BGP_PATH_VALID.

Definition beats `{Memcmp} (b : bgp) (p q : bgp_path_info) : outcome Z :=
  r ← bgp_path_info_cmp b AFI_IP SAFI_UNICAST None (Some p) (Some q) bgp_path_selection_none;
  Ret (cmp_ret r).

(** The comparison is not antisymmetric.  Of two paths from peers of the
    same administrative domain (OAD) each is preferred to the other one, whatever
    their IGP metrics; the same holds for two paths that differ only in the IPv6
    address of the neighbor when [memcmp] returns a difference other than 1 and
    -1, since the code asks for these two values. *)
Theorem bgp_decision_not_antisymmetric :
  @beats sign_memcmp plain_bgp (oad_path 1 5) (oad_path 2 9) = Ret 1
  /\ @beats sign_memcmp plain_bgp (oad_path 2 9) (oad_path 1 5) = Ret 1
  /\ @beats difference_memcmp plain_bgp (v6_path 1) (v6_path 5) = Ret 1
  /\ @beats difference_memcmp plain_bgp (v6_path 5) (v6_path 1) = Ret 1
  /\ @beats sign_memcmp plain_bgp (v6_path 5) (v6_path 1) = Ret 0.
Proof. vm_compute. repeat split. Qed.

(** Three paths, two of them from the same AS. *)
Definition dmed_bgp : bgp := sample_bgp (Z.lor BGP_FLAG_DETERMINISTIC_MED BGP_FLAG_COMPARE_ROUTER_ID).
Definition med1 : bgp_path_info := ebgp_path 1 65001 10 30.
Definition med2 : bgp_path_info := ebgp_path 2 65001 20 10.
Definition med3 : bgp_path_info := ebgp_path 3 65002 0 20.

Definition dest_of (l : list bgp_path_info) : bgp_dest :=
  foldr bgp_path_info_add (new_dest 1) l.

Definition chosen (b : bgp) (l : list bgp_path_info) : outcome (option Z) :=
  s ← @bgp_best_selection sign_memcmp no_linkbw b AFI_IP SAFI_UNICAST one_path (dest_of l);
  Ret (sel_new s).

(** With "bgp deterministic-med" the selected path still depends on the
    order in which the paths arrived: the pass that marks the best path of each
    neighboring AS has no influence on the sorting.  Of three paths that beat
    each other in a cycle because of the MED, path 3, which is the best one among
    the best of each AS, is chosen in one order and path 1 in another. *)
Theorem bgp_deterministic_med_order_dependent :
  @beats sign_memcmp dmed_bgp med1 med2 = Ret 1
  /\ @beats sign_memcmp dmed_bgp med2 med3 = Ret 1
  /\ @beats sign_memcmp dmed_bgp med3 med1 = Ret 1
  /\ chosen dmed_bgp [med1; med2; med3] = Ret (Some 3)
  /\ chosen dmed_bgp [med2; med3; med1] = Ret (Some 1).
Proof. vm_compute. repeat split. Qed.

(** A valid path of a peer without a session can be chosen: the last loop of
    the selection only looks for a path that is not in holddown. *)
Definition damped : bgp_path_info :=
  flag_on BGP_PATH_DAMPED (ebgp_path 4 65004 0 1).
Definition lost : bgp_path_info :=
  sample_path 5 (sample_peer 5 BGP_PEER_EBGP 0 65005 (v4 5) 3) (sample_attr [65005] 0) 1 BGP_PATH_VALID.
Definition withdrawn : bgp_path_info :=
  flag_off BGP_PATH_VALID (flag_on BGP_PATH_REMOVED (flag_on BGP_PATH_UNSORTED (ebgp_path 6 65006 0 1))).

Theorem best_path_of_lost_peer :
  match @bgp_best_selection sign_memcmp no_linkbw plain_bgp AFI_IP SAFI_UNICAST one_path
          (mkDest [withdrawn; damped; lost] bgp_path_selection_none 4 []) with
  | Ret s => sel_new s = Some 5 /\ usable plain_bgp lost = false
  | Abort => False
  end.
Proof. vm_compute. repeat split. Qed.
