(* ===== verification/BgpMultipath.v ===== *)
(** * Which paths share the traffic with the best one

    The selection marks the paths that are equal to the best one for multipath
    ([mark_multipath]); the update then flags the first of them, as many as are
    configured ([walk_paths]). *)

From stdpp Require Import sets.
From S2P Require Import Prelude Prefix AsPath BgpPath BgpDecision BgpDecisionFacts BgpBest BgpMpath BgpBestFacts BgpSelect BgpBestPath BgpSamples.

Definition with_flag (f : Z) (l : list bgp_path_info) : list Z :=
  map pi_id (List.filter (has_flag f) l).









Section Walk.
Variable linkbw : bgp_path_info -> option Z.
Variables best maxpaths : Z.
Hypothesis Hmax : 0 <= maxpaths <= 65535.



End Walk.

(** ** Marking the candidates *)

Section Mark.
Context `{Memcmp} (b : bgp) (afi safi : Z) (cfg : maxpaths_cfg)
        `{!PathOrder (compare b afi safi cfg)}.
Variable share : bgp_path_info -> bgp_path_info -> bool.
Hypothesis Hshare : forall p q r, good (core p) -> good (core q) ->
  exists c, compare b afi safi cfg p q r = Ret c /\ cmp_paths_eq c = share (core p) (core q).







End Mark.

(** ** The passes before do not mark candidates *)

Section Keep.
Context `{Memcmp} (b : bgp) (afi safi : Z) (cfg : maxpaths_cfg).
Variable P : bgp_path_info -> Prop.
Hypothesis P_off : forall f p, P p -> P (flag_off f p).
Hypothesis P_reason : forall r p, P p -> P (set_reason r p).
Hypothesis P_check : forall p, P p -> P (flag_on BGP_PATH_DMED_CHECK p).
Hypothesis P_selected : forall p, P p -> P (flag_on BGP_PATH_DMED_SELECTED p).









End Keep.

(** ** The flags after the update *)





Section Exact.
Context `{Memcmp} (linkbw : bgp_path_info -> option Z) (b : bgp) (afi safi : Z) (cfg : maxpaths_cfg)
        `{!PathOrder (compare b afi safi cfg)}.
Variable share : bgp_path_info -> bgp_path_info -> bool.
Hypothesis Hshare : forall p q r, good (core p) -> good (core q) ->
  exists c, compare b afi safi cfg p q r = Ret c /\ cmp_paths_eq c = share (core p) (core q).









End Exact.

(** ** Properties *)



(** Three equal paths, of which two may be used. *)
Definition two_of_three : maxpaths_cfg := mkMaxpaths 2 2 false.




(** A path that is best keeps the flag [BGP_PATH_MULTIPATH] of the run in which
    it was the only path. *)
Theorem best_path_flagged_multipath :
  let first := ebgp_path 1 65001 10 5 in
  let run d := @bgp_best_selection sign_memcmp no_linkbw plain_bgp AFI_IP SAFI_UNICAST two_of_three d in
  match run (dest_of [first]) with
  | Ret s1 =>
      let selected := set_info (update_id 1 (flag_on BGP_PATH_SELECTED) (d_info (sel_dest s1))) (sel_dest s1) in
      match run (bgp_path_info_add (ebgp_path 2 65001 10 5) selected) with
      | Ret s2 => sel_new s2 = Some 1 /\ with_flag BGP_PATH_MULTIPATH (d_info (sel_dest s2)) = [1; 2]
      | Abort => False
      end
  | Abort => False
  end.
Proof. vm_compute. split; reflexivity. Qed.
