(* ===== verification/OspfLsa.v ===== *)
(** * OSPF link state advertisements and their databases
      (ospfd/ospf_lsa.c, ospf_lsdb.c, the lists of ospf_flood.c)

    A database is a table for each type of LSA, ordered by link state identifier
    and advertising router; here one list, ordered by type first, with one entry
    for each key.  The code compares LSAs of a table by their address; since an
    LSA is a value here, [ospf_lsdb_delete] compares the values.

    The clock enters as the number of seconds since an LSA was received. *)

From S2P Require Import Prelude.

Definition OSPF_MIN_LSA : Z := 1.
Definition OSPF_MAX_LSA : Z := 12.
Definition OSPF_ROUTER_LSA : Z := 1.
Definition OSPF_NETWORK_LSA : Z := 2.
Definition OSPF_SUMMARY_LSA : Z := 3.
Definition OSPF_ASBR_SUMMARY_LSA : Z := 4.
Definition OSPF_AS_EXTERNAL_LSA : Z := 5.
Definition OSPF_AS_NSSA_LSA : Z := 7.
Definition OSPF_OPAQUE_LINK_LSA : Z := 9.
Definition OSPF_OPAQUE_AREA_LSA : Z := 10.
Definition OSPF_OPAQUE_AS_LSA : Z := 11.
Definition OSPF_LSA_MAXAGE : Z := 3600.
Definition OSPF_LSA_MAXAGE_DIFF : Z := 900.
Definition DO_NOT_AGE : Z := 0x8000.
Definition OSPF_LSA_HEADER_SIZE : Z := 20.

Definition CHECK_FLAG (v f : Z) : bool := negb (Z.land v f =? 0).
Definition UNSET_FLAG (v f : Z) : Z := Z.land v (Z.lnot f).
Definition SET_FLAG (v f : Z) : Z := Z.lor v f.

Definition IS_OPAQUE_LSA (type : Z) : bool :=
  (type =? OSPF_OPAQUE_LINK_LSA) || (type =? OSPF_OPAQUE_AREA_LSA) || (type =? OSPF_OPAQUE_AS_LSA).

(** [struct lsa_header], in host order. *)
Record lsa_header := mkLsah {
  ls_age : Z;
  ls_options : Z;
  ls_type : Z;
  ls_id : Z;
  ls_adv_router : Z;
  ls_seqnum : Z;
  ls_checksum : Z;
  ls_length : Z
}.

(** [lsa_since] is the time since [tv_recv]; [lsa_this_oi] says that
    the LSA belongs to the interface at hand; the others are [OSPF_LSA_SELF], [OSPF_LSA_DISCARD] and
    [OSPF_LSA_LOCAL_XLT]. *)
Record ospf_lsa := mkLsa {
  lsa_data : lsa_header;
  lsa_since : Z;
  lsa_this_oi : bool;
  lsa_self : bool;
  lsa_discard : bool;
  lsa_local_xlt : bool
}.

#[global] Instance lsa_header_eq_dec : EqDecision lsa_header.
Proof. solve_decision. Defined.
#[global] Instance ospf_lsa_eq_dec : EqDecision ospf_lsa.
Proof. solve_decision. Defined.

(** ** Age *)

Definition IS_LSA_AGE_DNA (l : ospf_lsa) : bool := CHECK_FLAG (ls_age (lsa_data l)) DO_NOT_AGE.
Definition LS_AGE_RAW (l : ospf_lsa) : Z := UNSET_FLAG (ls_age (lsa_data l)) DO_NOT_AGE.

Definition get_age (l : ospf_lsa) : Z :=
  if IS_LSA_AGE_DNA l && negb (lsa_self l) then LS_AGE_RAW l else LS_AGE_RAW l + lsa_since l.

Definition LS_AGE (l : ospf_lsa) : Z :=
  if OSPF_LSA_MAXAGE <? get_age l then OSPF_LSA_MAXAGE else get_age l.
Definition IS_LSA_MAXAGE (l : ospf_lsa) : bool := LS_AGE l =? OSPF_LSA_MAXAGE.

(** ** Which of two instances is more recent *)

(** Positive when [l1] is, negative when [l2] is. *)
Definition ospf_lsa_more_recent (l1 l2 : option ospf_lsa) : Z :=
  match l1, l2 with
  | None, None => 0
  | None, Some _ => -1
  | Some _, None => 1
  | Some l1, Some l2 =>
      let x := s32 (ls_seqnum (lsa_data l1)) in
      let y := s32 (ls_seqnum (lsa_data l2)) in
      if y <? x then 1
      else if x <? y then -1
      else
        let r := ls_checksum (lsa_data l1) - ls_checksum (lsa_data l2) in
        if negb (r =? 0) then r
        else if IS_LSA_MAXAGE l1 && negb (IS_LSA_MAXAGE l2) then 1
        else if negb (IS_LSA_MAXAGE l1) && IS_LSA_MAXAGE l2 then -1
        else if OSPF_LSA_MAXAGE_DIFF <? LS_AGE l1 - LS_AGE l2 then -1
        else if OSPF_LSA_MAXAGE_DIFF <? LS_AGE l2 - LS_AGE l1 then 1
        else 0
  end.

(** ** Databases *)

(** The table of an LSA and its key there ([ls_prefix_set]). *)
Definition ls_key (type id adv_router : Z) : Z :=
  type * 18446744073709551616 + id * 4294967296 + adv_router.

Definition lsa_key (h : lsa_header) : Z := ls_key (ls_type h) (ls_id h) (ls_adv_router h).
Definition key_of (l : ospf_lsa) : Z := lsa_key (lsa_data l).

Fixpoint ospf_lsdb_add (l : ospf_lsa) (db : list ospf_lsa) : list ospf_lsa :=
  match db with
  | [] => [l]
  | x :: db' =>
      if key_of l <? key_of x then l :: db
      else if key_of l =? key_of x then l :: db'
      else x :: ospf_lsdb_add l db'
  end.

Definition ospf_lsdb_delete (l : ospf_lsa) (db : list ospf_lsa) : list ospf_lsa :=
  List.filter (fun x => negb (bool_decide (x = l))) db.

Definition ospf_lsdb_lookup (k : Z) (db : list ospf_lsa) : option ospf_lsa :=
  List.find (fun x => key_of x =? k) db.

(** The database of the area and the one of the instance. *)
Record ospf_lsdb := mkLsdb { area_lsdb : list ospf_lsa; as_lsdb : list ospf_lsa }.

Definition table_of (type : Z) (db : list ospf_lsa) : list ospf_lsa :=
  List.filter (fun x => ls_type (lsa_data x) =? type) db.

Definition ROUTER_LSDB (o : ospf_lsdb) : list ospf_lsa := table_of OSPF_ROUTER_LSA (area_lsdb o).
Definition NETWORK_LSDB (o : ospf_lsdb) : list ospf_lsa := table_of OSPF_NETWORK_LSA (area_lsdb o).
Definition SUMMARY_LSDB (o : ospf_lsdb) : list ospf_lsa := table_of OSPF_SUMMARY_LSA (area_lsdb o).
Definition ASBR_SUMMARY_LSDB (o : ospf_lsdb) : list ospf_lsa :=
  table_of OSPF_ASBR_SUMMARY_LSA (area_lsdb o).
Definition NSSA_LSDB (o : ospf_lsdb) : list ospf_lsa := table_of OSPF_AS_NSSA_LSA (area_lsdb o).
Definition OPAQUE_LINK_LSDB (o : ospf_lsdb) : list ospf_lsa :=
  table_of OSPF_OPAQUE_LINK_LSA (area_lsdb o).
Definition OPAQUE_AREA_LSDB (o : ospf_lsdb) : list ospf_lsa :=
  table_of OSPF_OPAQUE_AREA_LSA (area_lsdb o).
Definition EXTERNAL_LSDB (o : ospf_lsdb) : list ospf_lsa := table_of OSPF_AS_EXTERNAL_LSA (as_lsdb o).
Definition OPAQUE_AS_LSDB (o : ospf_lsdb) : list ospf_lsa := table_of OSPF_OPAQUE_AS_LSA (as_lsdb o).

Definition ospf_lsa_lookup (o : ospf_lsdb) (type id adv_router : Z) : option ospf_lsa :=
  if (type =? OSPF_ROUTER_LSA) || (type =? OSPF_NETWORK_LSA) || (type =? OSPF_SUMMARY_LSA)
     || (type =? OSPF_ASBR_SUMMARY_LSA) || (type =? OSPF_AS_NSSA_LSA)
     || (type =? OSPF_OPAQUE_LINK_LSA) || (type =? OSPF_OPAQUE_AREA_LSA)
  then ospf_lsdb_lookup (ls_key type id adv_router) (area_lsdb o)
  else if (type =? OSPF_AS_EXTERNAL_LSA) || (type =? OSPF_OPAQUE_AS_LSA)
  then ospf_lsdb_lookup (ls_key type id adv_router) (as_lsdb o)
  else None.

Definition ospf_lsa_lookup_by_header (o : ospf_lsdb) (h : lsa_header) : option ospf_lsa :=
  ospf_lsa_lookup o (ls_type h) (ls_id h) (ls_adv_router h).

(** [ospf_ls_request_new]: an LSA received now, of which only the header is
    known. *)
Definition ospf_ls_request_new (h : lsa_header) : ospf_lsa := mkLsa h 0 false false false false.
