(* ===== verification/OspfIsm.v ===== *)
(** * OSPF interfaces: election of the designated router and the interface state
      machine (ospfd/ospf_ism.c)

    An interface keeps the table of its neighbors, in the order of their keys;
    the router itself is one of them ([nbr_self], found by its [n_id]), and the
    designated routers of the interface are the ones that this entry declares.
    Addresses and router identifiers are numbers in host order: comparing the
    bytes in network order compares the numbers.

    Calls into other parts of the daemon (origination of LSAs, the area border
    status, packets, events put on the queue) are recorded in [oi_out], in their
    order.  Timers are booleans: whether they run. *)

From S2P Require Import Prelude OspfLsa.

Definition OSPF_IFTYPE_POINTOPOINT : Z := 1.
Definition OSPF_IFTYPE_BROADCAST : Z := 2.
Definition OSPF_IFTYPE_NBMA : Z := 3.
Definition OSPF_IFTYPE_POINTOMULTIPOINT : Z := 4.
Definition OSPF_IFTYPE_VIRTUALLINK : Z := 5.

Inductive ism_state :=
| ISM_DependUpon | ISM_Down | ISM_Loopback | ISM_Waiting | ISM_PointToPoint
| ISM_DROther | ISM_Backup | ISM_DR.

Inductive ism_event :=
| ISM_NoEvent | ISM_InterfaceUp | ISM_WaitTimer | ISM_BackupSeen | ISM_NeighborChange
| ISM_LoopInd | ISM_UnloopInd | ISM_InterfaceDown.

Inductive nsm_state :=
| NSM_DependUpon | NSM_Deleted | NSM_Down | NSM_Attempt | NSM_Init | NSM_TwoWay
| NSM_ExStart | NSM_Exchange | NSM_Loading | NSM_Full.

Inductive nsm_event :=
| NSM_NoEvent | NSM_HelloReceived | NSM_Start | NSM_TwoWayReceived | NSM_NegotiationDone
| NSM_ExchangeDone | NSM_BadLSReq | NSM_LoadingDone | NSM_AdjOK | NSM_SeqNumberMismatch
| NSM_OneWayReceived | NSM_KillNbr | NSM_InactivityTimer | NSM_LLDown.

#[global] Instance ism_state_eq_dec : EqDecision ism_state.
Proof. solve_decision. Defined.
#[global] Instance nsm_state_eq_dec : EqDecision nsm_state.
Proof. solve_decision. Defined.

(** The numbers of the states, for the comparisons with [<]. *)
Definition ism_num (s : ism_state) : Z :=
  match s with
  | ISM_DependUpon => 0 | ISM_Down => 1 | ISM_Loopback => 2 | ISM_Waiting => 3
  | ISM_PointToPoint => 4 | ISM_DROther => 5 | ISM_Backup => 6 | ISM_DR => 7
  end.

Definition nsm_num (s : nsm_state) : Z :=
  match s with
  | NSM_DependUpon => 0 | NSM_Deleted => 1 | NSM_Down => 2 | NSM_Attempt => 3 | NSM_Init => 4
  | NSM_TwoWay => 5 | NSM_ExStart => 6 | NSM_Exchange => 7 | NSM_Loading => 8 | NSM_Full => 9
  end.

Definition ism_is (a b : ism_state) : bool := bool_decide (a = b).
Definition nsm_is (a b : nsm_state) : bool := bool_decide (a = b).
Definition nsm_ge (a b : nsm_state) : bool := nsm_num b <=? nsm_num a.

(** A Database Description packet, with the headers that it carries. *)
Record ospf_db_desc_packet := mkDD {
  dd_mtu : Z;
  dd_options : Z;
  dd_flags : Z;
  dd_seqnum : Z;
  dd_headers : list lsa_header
}.

(** [last_recv] of a neighbor. *)
Record dd_received := mkReceived { rv_options : Z; rv_flags : Z; rv_seqnum : Z }.

(** What the state machines ask of the rest of the daemon; [n] is a neighbor. *)
Inductive effect :=
| SetMulticast
| CheckAbrStatus
| ScheduleAbrTask
| RouterLsaUpdate
| VlRouterLsaUpdate
| NetworkLsaUpdate
| NetworkLsaFlush
| OpaqueIsmChange (old : ism_state)
| OpaqueNsmChange (n : Z) (old : nsm_state)
| ScheduleNsm (n : Z) (ev : nsm_event)
| ScheduleIsm (ev : ism_event)
| DbDescSend (n : Z) (dd : ospf_db_desc_packet)
| LsReqSend (n : Z) (requests : list (Z * Z * Z))
| LsUpdSend (n : Z) (lsas : list ospf_lsa)
| ProactiveArp (n : Z)
| FifoFlush
| NbmaIfUpdate
| GrCheckAdjs.

(** [n_db_sum], [n_ls_req] and [n_ls_rxmt] are the database summary, request and
    retransmission lists (the last one in the order of its additions);
    [n_helper] says that this router helps the neighbor through a graceful
    restart.  The priority is an [int]: -1 before the first Hello. *)
Record ospf_neighbor := mkNbr {
  n_id : Z;
  n_address : Z;
  n_router_id : Z;
  n_priority : Z;
  n_d_router : Z;
  n_bd_router : Z;
  n_state : nsm_state;
  n_options : Z;
  n_dd_seqnum : Z;
  n_dd_flags : Z;
  n_db_sum : list ospf_lsa;
  n_ls_req : list ospf_lsa;
  n_ls_rxmt : list ospf_lsa;
  n_ls_req_last : option ospf_lsa;
  n_last_recv : dd_received;
  n_last_send : option ospf_db_desc_packet;
  n_t_inactivity : bool;
  n_t_db_desc : bool;
  n_t_ls_req : bool;
  n_t_ls_rxmt : bool;
  n_t_hello_reply : bool;
  n_crypt_seqnum : Z;
  n_state_change : Z;
  n_helper : bool
}.

Definition set_n_id (v : Z) (x : ospf_neighbor) : ospf_neighbor :=
  mkNbr v (n_address x) (n_router_id x) (n_priority x) (n_d_router x) (n_bd_router x)
    (n_state x) (n_options x) (n_dd_seqnum x) (n_dd_flags x) (n_db_sum x) (n_ls_req x)
    (n_ls_rxmt x) (n_ls_req_last x) (n_last_recv x) (n_last_send x) (n_t_inactivity x)
    (n_t_db_desc x) (n_t_ls_req x) (n_t_ls_rxmt x) (n_t_hello_reply x) (n_crypt_seqnum x)
    (n_state_change x) (n_helper x).
Definition set_n_address (v : Z) (x : ospf_neighbor) : ospf_neighbor :=
  mkNbr (n_id x) v (n_router_id x) (n_priority x) (n_d_router x) (n_bd_router x) (n_state x)
    (n_options x) (n_dd_seqnum x) (n_dd_flags x) (n_db_sum x) (n_ls_req x) (n_ls_rxmt x)
    (n_ls_req_last x) (n_last_recv x) (n_last_send x) (n_t_inactivity x) (n_t_db_desc x)
    (n_t_ls_req x) (n_t_ls_rxmt x) (n_t_hello_reply x) (n_crypt_seqnum x)
    (n_state_change x) (n_helper x).
Definition set_n_router_id (v : Z) (x : ospf_neighbor) : ospf_neighbor :=
  mkNbr (n_id x) (n_address x) v (n_priority x) (n_d_router x) (n_bd_router x) (n_state x)
    (n_options x) (n_dd_seqnum x) (n_dd_flags x) (n_db_sum x) (n_ls_req x) (n_ls_rxmt x)
    (n_ls_req_last x) (n_last_recv x) (n_last_send x) (n_t_inactivity x) (n_t_db_desc x)
    (n_t_ls_req x) (n_t_ls_rxmt x) (n_t_hello_reply x) (n_crypt_seqnum x)
    (n_state_change x) (n_helper x).
Definition set_n_priority (v : Z) (x : ospf_neighbor) : ospf_neighbor :=
  mkNbr (n_id x) (n_address x) (n_router_id x) v (n_d_router x) (n_bd_router x) (n_state x)
    (n_options x) (n_dd_seqnum x) (n_dd_flags x) (n_db_sum x) (n_ls_req x) (n_ls_rxmt x)
    (n_ls_req_last x) (n_last_recv x) (n_last_send x) (n_t_inactivity x) (n_t_db_desc x)
    (n_t_ls_req x) (n_t_ls_rxmt x) (n_t_hello_reply x) (n_crypt_seqnum x)
    (n_state_change x) (n_helper x).
Definition set_n_d_router (v : Z) (x : ospf_neighbor) : ospf_neighbor :=
  mkNbr (n_id x) (n_address x) (n_router_id x) (n_priority x) v (n_bd_router x) (n_state x)
    (n_options x) (n_dd_seqnum x) (n_dd_flags x) (n_db_sum x) (n_ls_req x) (n_ls_rxmt x)
    (n_ls_req_last x) (n_last_recv x) (n_last_send x) (n_t_inactivity x) (n_t_db_desc x)
    (n_t_ls_req x) (n_t_ls_rxmt x) (n_t_hello_reply x) (n_crypt_seqnum x)
    (n_state_change x) (n_helper x).
Definition set_n_bd_router (v : Z) (x : ospf_neighbor) : ospf_neighbor :=
  mkNbr (n_id x) (n_address x) (n_router_id x) (n_priority x) (n_d_router x) v (n_state x)
    (n_options x) (n_dd_seqnum x) (n_dd_flags x) (n_db_sum x) (n_ls_req x) (n_ls_rxmt x)
    (n_ls_req_last x) (n_last_recv x) (n_last_send x) (n_t_inactivity x) (n_t_db_desc x)
    (n_t_ls_req x) (n_t_ls_rxmt x) (n_t_hello_reply x) (n_crypt_seqnum x)
    (n_state_change x) (n_helper x).
Definition set_n_state (v : nsm_state) (x : ospf_neighbor) : ospf_neighbor :=
  mkNbr (n_id x) (n_address x) (n_router_id x) (n_priority x) (n_d_router x) (n_bd_router x) v
    (n_options x) (n_dd_seqnum x) (n_dd_flags x) (n_db_sum x) (n_ls_req x) (n_ls_rxmt x)
    (n_ls_req_last x) (n_last_recv x) (n_last_send x) (n_t_inactivity x) (n_t_db_desc x)
    (n_t_ls_req x) (n_t_ls_rxmt x) (n_t_hello_reply x) (n_crypt_seqnum x)
    (n_state_change x) (n_helper x).
Definition set_n_options (v : Z) (x : ospf_neighbor) : ospf_neighbor :=
  mkNbr (n_id x) (n_address x) (n_router_id x) (n_priority x) (n_d_router x) (n_bd_router x)
    (n_state x) v (n_dd_seqnum x) (n_dd_flags x) (n_db_sum x) (n_ls_req x) (n_ls_rxmt x)
    (n_ls_req_last x) (n_last_recv x) (n_last_send x) (n_t_inactivity x) (n_t_db_desc x)
    (n_t_ls_req x) (n_t_ls_rxmt x) (n_t_hello_reply x) (n_crypt_seqnum x)
    (n_state_change x) (n_helper x).
Definition set_n_dd_seqnum (v : Z) (x : ospf_neighbor) : ospf_neighbor :=
  mkNbr (n_id x) (n_address x) (n_router_id x) (n_priority x) (n_d_router x) (n_bd_router x)
    (n_state x) (n_options x) v (n_dd_flags x) (n_db_sum x) (n_ls_req x) (n_ls_rxmt x)
    (n_ls_req_last x) (n_last_recv x) (n_last_send x) (n_t_inactivity x) (n_t_db_desc x)
    (n_t_ls_req x) (n_t_ls_rxmt x) (n_t_hello_reply x) (n_crypt_seqnum x)
    (n_state_change x) (n_helper x).
Definition set_n_dd_flags (v : Z) (x : ospf_neighbor) : ospf_neighbor :=
  mkNbr (n_id x) (n_address x) (n_router_id x) (n_priority x) (n_d_router x) (n_bd_router x)
    (n_state x) (n_options x) (n_dd_seqnum x) v (n_db_sum x) (n_ls_req x) (n_ls_rxmt x)
    (n_ls_req_last x) (n_last_recv x) (n_last_send x) (n_t_inactivity x) (n_t_db_desc x)
    (n_t_ls_req x) (n_t_ls_rxmt x) (n_t_hello_reply x) (n_crypt_seqnum x)
    (n_state_change x) (n_helper x).
Definition set_n_db_sum (v : list ospf_lsa) (x : ospf_neighbor) : ospf_neighbor :=
  mkNbr (n_id x) (n_address x) (n_router_id x) (n_priority x) (n_d_router x) (n_bd_router x)
    (n_state x) (n_options x) (n_dd_seqnum x) (n_dd_flags x) v (n_ls_req x) (n_ls_rxmt x)
    (n_ls_req_last x) (n_last_recv x) (n_last_send x) (n_t_inactivity x) (n_t_db_desc x)
    (n_t_ls_req x) (n_t_ls_rxmt x) (n_t_hello_reply x) (n_crypt_seqnum x)
    (n_state_change x) (n_helper x).
Definition set_n_ls_req (v : list ospf_lsa) (x : ospf_neighbor) : ospf_neighbor :=
  mkNbr (n_id x) (n_address x) (n_router_id x) (n_priority x) (n_d_router x) (n_bd_router x)
    (n_state x) (n_options x) (n_dd_seqnum x) (n_dd_flags x) (n_db_sum x) v (n_ls_rxmt x)
    (n_ls_req_last x) (n_last_recv x) (n_last_send x) (n_t_inactivity x) (n_t_db_desc x)
    (n_t_ls_req x) (n_t_ls_rxmt x) (n_t_hello_reply x) (n_crypt_seqnum x)
    (n_state_change x) (n_helper x).
Definition set_n_ls_rxmt (v : list ospf_lsa) (x : ospf_neighbor) : ospf_neighbor :=
  mkNbr (n_id x) (n_address x) (n_router_id x) (n_priority x) (n_d_router x) (n_bd_router x)
    (n_state x) (n_options x) (n_dd_seqnum x) (n_dd_flags x) (n_db_sum x) (n_ls_req x) v
    (n_ls_req_last x) (n_last_recv x) (n_last_send x) (n_t_inactivity x) (n_t_db_desc x)
    (n_t_ls_req x) (n_t_ls_rxmt x) (n_t_hello_reply x) (n_crypt_seqnum x)
    (n_state_change x) (n_helper x).
Definition set_n_ls_req_last (v : option ospf_lsa) (x : ospf_neighbor) : ospf_neighbor :=
  mkNbr (n_id x) (n_address x) (n_router_id x) (n_priority x) (n_d_router x) (n_bd_router x)
    (n_state x) (n_options x) (n_dd_seqnum x) (n_dd_flags x) (n_db_sum x) (n_ls_req x)
    (n_ls_rxmt x) v (n_last_recv x) (n_last_send x) (n_t_inactivity x) (n_t_db_desc x)
    (n_t_ls_req x) (n_t_ls_rxmt x) (n_t_hello_reply x) (n_crypt_seqnum x)
    (n_state_change x) (n_helper x).
Definition set_n_last_recv (v : dd_received) (x : ospf_neighbor) : ospf_neighbor :=
  mkNbr (n_id x) (n_address x) (n_router_id x) (n_priority x) (n_d_router x) (n_bd_router x)
    (n_state x) (n_options x) (n_dd_seqnum x) (n_dd_flags x) (n_db_sum x) (n_ls_req x)
    (n_ls_rxmt x) (n_ls_req_last x) v (n_last_send x) (n_t_inactivity x) (n_t_db_desc x)
    (n_t_ls_req x) (n_t_ls_rxmt x) (n_t_hello_reply x) (n_crypt_seqnum x)
    (n_state_change x) (n_helper x).
Definition set_n_last_send (v : option ospf_db_desc_packet) (x : ospf_neighbor) : ospf_neighbor :=
  mkNbr (n_id x) (n_address x) (n_router_id x) (n_priority x) (n_d_router x) (n_bd_router x)
    (n_state x) (n_options x) (n_dd_seqnum x) (n_dd_flags x) (n_db_sum x) (n_ls_req x)
    (n_ls_rxmt x) (n_ls_req_last x) (n_last_recv x) v (n_t_inactivity x) (n_t_db_desc x)
    (n_t_ls_req x) (n_t_ls_rxmt x) (n_t_hello_reply x) (n_crypt_seqnum x)
    (n_state_change x) (n_helper x).
Definition set_n_t_inactivity (v : bool) (x : ospf_neighbor) : ospf_neighbor :=
  mkNbr (n_id x) (n_address x) (n_router_id x) (n_priority x) (n_d_router x) (n_bd_router x)
    (n_state x) (n_options x) (n_dd_seqnum x) (n_dd_flags x) (n_db_sum x) (n_ls_req x)
    (n_ls_rxmt x) (n_ls_req_last x) (n_last_recv x) (n_last_send x) v (n_t_db_desc x)
    (n_t_ls_req x) (n_t_ls_rxmt x) (n_t_hello_reply x) (n_crypt_seqnum x)
    (n_state_change x) (n_helper x).
Definition set_n_t_db_desc (v : bool) (x : ospf_neighbor) : ospf_neighbor :=
  mkNbr (n_id x) (n_address x) (n_router_id x) (n_priority x) (n_d_router x) (n_bd_router x)
    (n_state x) (n_options x) (n_dd_seqnum x) (n_dd_flags x) (n_db_sum x) (n_ls_req x)
    (n_ls_rxmt x) (n_ls_req_last x) (n_last_recv x) (n_last_send x) (n_t_inactivity x) v
    (n_t_ls_req x) (n_t_ls_rxmt x) (n_t_hello_reply x) (n_crypt_seqnum x)
    (n_state_change x) (n_helper x).
Definition set_n_t_ls_req (v : bool) (x : ospf_neighbor) : ospf_neighbor :=
  mkNbr (n_id x) (n_address x) (n_router_id x) (n_priority x) (n_d_router x) (n_bd_router x)
    (n_state x) (n_options x) (n_dd_seqnum x) (n_dd_flags x) (n_db_sum x) (n_ls_req x)
    (n_ls_rxmt x) (n_ls_req_last x) (n_last_recv x) (n_last_send x) (n_t_inactivity x)
    (n_t_db_desc x) v (n_t_ls_rxmt x) (n_t_hello_reply x) (n_crypt_seqnum x)
    (n_state_change x) (n_helper x).
Definition set_n_t_ls_rxmt (v : bool) (x : ospf_neighbor) : ospf_neighbor :=
  mkNbr (n_id x) (n_address x) (n_router_id x) (n_priority x) (n_d_router x) (n_bd_router x)
    (n_state x) (n_options x) (n_dd_seqnum x) (n_dd_flags x) (n_db_sum x) (n_ls_req x)
    (n_ls_rxmt x) (n_ls_req_last x) (n_last_recv x) (n_last_send x) (n_t_inactivity x)
    (n_t_db_desc x) (n_t_ls_req x) v (n_t_hello_reply x) (n_crypt_seqnum x)
    (n_state_change x) (n_helper x).
Definition set_n_t_hello_reply (v : bool) (x : ospf_neighbor) : ospf_neighbor :=
  mkNbr (n_id x) (n_address x) (n_router_id x) (n_priority x) (n_d_router x) (n_bd_router x)
    (n_state x) (n_options x) (n_dd_seqnum x) (n_dd_flags x) (n_db_sum x) (n_ls_req x)
    (n_ls_rxmt x) (n_ls_req_last x) (n_last_recv x) (n_last_send x) (n_t_inactivity x)
    (n_t_db_desc x) (n_t_ls_req x) (n_t_ls_rxmt x) v (n_crypt_seqnum x) (n_state_change x)
    (n_helper x).
Definition set_n_crypt_seqnum (v : Z) (x : ospf_neighbor) : ospf_neighbor :=
  mkNbr (n_id x) (n_address x) (n_router_id x) (n_priority x) (n_d_router x) (n_bd_router x)
    (n_state x) (n_options x) (n_dd_seqnum x) (n_dd_flags x) (n_db_sum x) (n_ls_req x)
    (n_ls_rxmt x) (n_ls_req_last x) (n_last_recv x) (n_last_send x) (n_t_inactivity x)
    (n_t_db_desc x) (n_t_ls_req x) (n_t_ls_rxmt x) (n_t_hello_reply x) v (n_state_change x)
    (n_helper x).
Definition set_n_state_change (v : Z) (x : ospf_neighbor) : ospf_neighbor :=
  mkNbr (n_id x) (n_address x) (n_router_id x) (n_priority x) (n_d_router x) (n_bd_router x)
    (n_state x) (n_options x) (n_dd_seqnum x) (n_dd_flags x) (n_db_sum x) (n_ls_req x)
    (n_ls_rxmt x) (n_ls_req_last x) (n_last_recv x) (n_last_send x) (n_t_inactivity x)
    (n_t_db_desc x) (n_t_ls_req x) (n_t_ls_rxmt x) (n_t_hello_reply x) (n_crypt_seqnum x) v
    (n_helper x).
Definition set_n_helper (v : bool) (x : ospf_neighbor) : ospf_neighbor :=
  mkNbr (n_id x) (n_address x) (n_router_id x) (n_priority x) (n_d_router x) (n_bd_router x)
    (n_state x) (n_options x) (n_dd_seqnum x) (n_dd_flags x) (n_db_sum x) (n_ls_req x)
    (n_ls_rxmt x) (n_ls_req_last x) (n_last_recv x) (n_last_send x) (n_t_inactivity x)
    (n_t_db_desc x) (n_t_ls_req x) (n_t_ls_rxmt x) (n_t_hello_reply x) (n_crypt_seqnum x)
    (n_state_change x) v.

(** [oi_router_id], [oi_restarting] and the counters of the area are fields of
    the instance and the area; [oi_vl_full] is the counter of the transit area of
    a virtual link, when it is known.  [oi_priority] is the configured priority. *)
Record ospf_interface := mkOi {
  oi_type : Z;
  oi_state : ism_state;
  oi_address : Z;
  oi_router_id : Z;
  oi_priority : Z;
  oi_nbr_self : Z;
  oi_nbrs : list ospf_neighbor;
  oi_full_nbrs : Z;
  oi_area_full_nbrs : Z;
  oi_area_act_ints : Z;
  oi_vl_full : option Z;
  oi_network_lsa_self : bool;
  oi_restarting : bool;
  oi_external_routing : Z;
  oi_p2mp_non_broadcast : bool;
  oi_t_hello : bool;
  oi_t_wait : bool;
  oi_t_ls_ack : bool;
  oi_state_change : Z;
  oi_out : list effect
}.

Definition set_oi_type (v : Z) (x : ospf_interface) : ospf_interface :=
  mkOi v (oi_state x) (oi_address x) (oi_router_id x) (oi_priority x) (oi_nbr_self x)
    (oi_nbrs x) (oi_full_nbrs x) (oi_area_full_nbrs x) (oi_area_act_ints x) (oi_vl_full x)
    (oi_network_lsa_self x) (oi_restarting x) (oi_external_routing x)
    (oi_p2mp_non_broadcast x) (oi_t_hello x) (oi_t_wait x) (oi_t_ls_ack x)
    (oi_state_change x) (oi_out x).
Definition set_oi_state (v : ism_state) (x : ospf_interface) : ospf_interface :=
  mkOi (oi_type x) v (oi_address x) (oi_router_id x) (oi_priority x) (oi_nbr_self x)
    (oi_nbrs x) (oi_full_nbrs x) (oi_area_full_nbrs x) (oi_area_act_ints x) (oi_vl_full x)
    (oi_network_lsa_self x) (oi_restarting x) (oi_external_routing x)
    (oi_p2mp_non_broadcast x) (oi_t_hello x) (oi_t_wait x) (oi_t_ls_ack x)
    (oi_state_change x) (oi_out x).
Definition set_oi_address (v : Z) (x : ospf_interface) : ospf_interface :=
  mkOi (oi_type x) (oi_state x) v (oi_router_id x) (oi_priority x) (oi_nbr_self x) (oi_nbrs x)
    (oi_full_nbrs x) (oi_area_full_nbrs x) (oi_area_act_ints x) (oi_vl_full x)
    (oi_network_lsa_self x) (oi_restarting x) (oi_external_routing x)
    (oi_p2mp_non_broadcast x) (oi_t_hello x) (oi_t_wait x) (oi_t_ls_ack x)
    (oi_state_change x) (oi_out x).
Definition set_oi_router_id (v : Z) (x : ospf_interface) : ospf_interface :=
  mkOi (oi_type x) (oi_state x) (oi_address x) v (oi_priority x) (oi_nbr_self x) (oi_nbrs x)
    (oi_full_nbrs x) (oi_area_full_nbrs x) (oi_area_act_ints x) (oi_vl_full x)
    (oi_network_lsa_self x) (oi_restarting x) (oi_external_routing x)
    (oi_p2mp_non_broadcast x) (oi_t_hello x) (oi_t_wait x) (oi_t_ls_ack x)
    (oi_state_change x) (oi_out x).
Definition set_oi_priority (v : Z) (x : ospf_interface) : ospf_interface :=
  mkOi (oi_type x) (oi_state x) (oi_address x) (oi_router_id x) v (oi_nbr_self x) (oi_nbrs x)
    (oi_full_nbrs x) (oi_area_full_nbrs x) (oi_area_act_ints x) (oi_vl_full x)
    (oi_network_lsa_self x) (oi_restarting x) (oi_external_routing x)
    (oi_p2mp_non_broadcast x) (oi_t_hello x) (oi_t_wait x) (oi_t_ls_ack x)
    (oi_state_change x) (oi_out x).
Definition set_oi_nbr_self (v : Z) (x : ospf_interface) : ospf_interface :=
  mkOi (oi_type x) (oi_state x) (oi_address x) (oi_router_id x) (oi_priority x) v (oi_nbrs x)
    (oi_full_nbrs x) (oi_area_full_nbrs x) (oi_area_act_ints x) (oi_vl_full x)
    (oi_network_lsa_self x) (oi_restarting x) (oi_external_routing x)
    (oi_p2mp_non_broadcast x) (oi_t_hello x) (oi_t_wait x) (oi_t_ls_ack x)
    (oi_state_change x) (oi_out x).
Definition set_oi_nbrs (v : list ospf_neighbor) (x : ospf_interface) : ospf_interface :=
  mkOi (oi_type x) (oi_state x) (oi_address x) (oi_router_id x) (oi_priority x)
    (oi_nbr_self x) v (oi_full_nbrs x) (oi_area_full_nbrs x) (oi_area_act_ints x)
    (oi_vl_full x) (oi_network_lsa_self x) (oi_restarting x) (oi_external_routing x)
    (oi_p2mp_non_broadcast x) (oi_t_hello x) (oi_t_wait x) (oi_t_ls_ack x)
    (oi_state_change x) (oi_out x).
Definition set_oi_full_nbrs (v : Z) (x : ospf_interface) : ospf_interface :=
  mkOi (oi_type x) (oi_state x) (oi_address x) (oi_router_id x) (oi_priority x)
    (oi_nbr_self x) (oi_nbrs x) v (oi_area_full_nbrs x) (oi_area_act_ints x) (oi_vl_full x)
    (oi_network_lsa_self x) (oi_restarting x) (oi_external_routing x)
    (oi_p2mp_non_broadcast x) (oi_t_hello x) (oi_t_wait x) (oi_t_ls_ack x)
    (oi_state_change x) (oi_out x).
Definition set_oi_area_full_nbrs (v : Z) (x : ospf_interface) : ospf_interface :=
  mkOi (oi_type x) (oi_state x) (oi_address x) (oi_router_id x) (oi_priority x)
    (oi_nbr_self x) (oi_nbrs x) (oi_full_nbrs x) v (oi_area_act_ints x) (oi_vl_full x)
    (oi_network_lsa_self x) (oi_restarting x) (oi_external_routing x)
    (oi_p2mp_non_broadcast x) (oi_t_hello x) (oi_t_wait x) (oi_t_ls_ack x)
    (oi_state_change x) (oi_out x).
Definition set_oi_area_act_ints (v : Z) (x : ospf_interface) : ospf_interface :=
  mkOi (oi_type x) (oi_state x) (oi_address x) (oi_router_id x) (oi_priority x)
    (oi_nbr_self x) (oi_nbrs x) (oi_full_nbrs x) (oi_area_full_nbrs x) v (oi_vl_full x)
    (oi_network_lsa_self x) (oi_restarting x) (oi_external_routing x)
    (oi_p2mp_non_broadcast x) (oi_t_hello x) (oi_t_wait x) (oi_t_ls_ack x)
    (oi_state_change x) (oi_out x).
Definition set_oi_vl_full (v : option Z) (x : ospf_interface) : ospf_interface :=
  mkOi (oi_type x) (oi_state x) (oi_address x) (oi_router_id x) (oi_priority x)
    (oi_nbr_self x) (oi_nbrs x) (oi_full_nbrs x) (oi_area_full_nbrs x) (oi_area_act_ints x)
    v (oi_network_lsa_self x) (oi_restarting x) (oi_external_routing x)
    (oi_p2mp_non_broadcast x) (oi_t_hello x) (oi_t_wait x) (oi_t_ls_ack x)
    (oi_state_change x) (oi_out x).
Definition set_oi_network_lsa_self (v : bool) (x : ospf_interface) : ospf_interface :=
  mkOi (oi_type x) (oi_state x) (oi_address x) (oi_router_id x) (oi_priority x)
    (oi_nbr_self x) (oi_nbrs x) (oi_full_nbrs x) (oi_area_full_nbrs x) (oi_area_act_ints x)
    (oi_vl_full x) v (oi_restarting x) (oi_external_routing x) (oi_p2mp_non_broadcast x)
    (oi_t_hello x) (oi_t_wait x) (oi_t_ls_ack x) (oi_state_change x) (oi_out x).
Definition set_oi_restarting (v : bool) (x : ospf_interface) : ospf_interface :=
  mkOi (oi_type x) (oi_state x) (oi_address x) (oi_router_id x) (oi_priority x)
    (oi_nbr_self x) (oi_nbrs x) (oi_full_nbrs x) (oi_area_full_nbrs x) (oi_area_act_ints x)
    (oi_vl_full x) (oi_network_lsa_self x) v (oi_external_routing x)
    (oi_p2mp_non_broadcast x) (oi_t_hello x) (oi_t_wait x) (oi_t_ls_ack x)
    (oi_state_change x) (oi_out x).
Definition set_oi_external_routing (v : Z) (x : ospf_interface) : ospf_interface :=
  mkOi (oi_type x) (oi_state x) (oi_address x) (oi_router_id x) (oi_priority x)
    (oi_nbr_self x) (oi_nbrs x) (oi_full_nbrs x) (oi_area_full_nbrs x) (oi_area_act_ints x)
    (oi_vl_full x) (oi_network_lsa_self x) (oi_restarting x) v (oi_p2mp_non_broadcast x)
    (oi_t_hello x) (oi_t_wait x) (oi_t_ls_ack x) (oi_state_change x) (oi_out x).
Definition set_oi_p2mp_non_broadcast (v : bool) (x : ospf_interface) : ospf_interface :=
  mkOi (oi_type x) (oi_state x) (oi_address x) (oi_router_id x) (oi_priority x)
    (oi_nbr_self x) (oi_nbrs x) (oi_full_nbrs x) (oi_area_full_nbrs x) (oi_area_act_ints x)
    (oi_vl_full x) (oi_network_lsa_self x) (oi_restarting x) (oi_external_routing x) v
    (oi_t_hello x) (oi_t_wait x) (oi_t_ls_ack x) (oi_state_change x) (oi_out x).
Definition set_oi_t_hello (v : bool) (x : ospf_interface) : ospf_interface :=
  mkOi (oi_type x) (oi_state x) (oi_address x) (oi_router_id x) (oi_priority x)
    (oi_nbr_self x) (oi_nbrs x) (oi_full_nbrs x) (oi_area_full_nbrs x) (oi_area_act_ints x)
    (oi_vl_full x) (oi_network_lsa_self x) (oi_restarting x) (oi_external_routing x)
    (oi_p2mp_non_broadcast x) v (oi_t_wait x) (oi_t_ls_ack x) (oi_state_change x)
    (oi_out x).
Definition set_oi_t_wait (v : bool) (x : ospf_interface) : ospf_interface :=
  mkOi (oi_type x) (oi_state x) (oi_address x) (oi_router_id x) (oi_priority x)
    (oi_nbr_self x) (oi_nbrs x) (oi_full_nbrs x) (oi_area_full_nbrs x) (oi_area_act_ints x)
    (oi_vl_full x) (oi_network_lsa_self x) (oi_restarting x) (oi_external_routing x)
    (oi_p2mp_non_broadcast x) (oi_t_hello x) v (oi_t_ls_ack x) (oi_state_change x)
    (oi_out x).
Definition set_oi_t_ls_ack (v : bool) (x : ospf_interface) : ospf_interface :=
  mkOi (oi_type x) (oi_state x) (oi_address x) (oi_router_id x) (oi_priority x)
    (oi_nbr_self x) (oi_nbrs x) (oi_full_nbrs x) (oi_area_full_nbrs x) (oi_area_act_ints x)
    (oi_vl_full x) (oi_network_lsa_self x) (oi_restarting x) (oi_external_routing x)
    (oi_p2mp_non_broadcast x) (oi_t_hello x) (oi_t_wait x) v (oi_state_change x) (oi_out x).
Definition set_oi_state_change (v : Z) (x : ospf_interface) : ospf_interface :=
  mkOi (oi_type x) (oi_state x) (oi_address x) (oi_router_id x) (oi_priority x)
    (oi_nbr_self x) (oi_nbrs x) (oi_full_nbrs x) (oi_area_full_nbrs x) (oi_area_act_ints x)
    (oi_vl_full x) (oi_network_lsa_self x) (oi_restarting x) (oi_external_routing x)
    (oi_p2mp_non_broadcast x) (oi_t_hello x) (oi_t_wait x) (oi_t_ls_ack x) v (oi_out x).
Definition set_oi_out (v : list effect) (x : ospf_interface) : ospf_interface :=
  mkOi (oi_type x) (oi_state x) (oi_address x) (oi_router_id x) (oi_priority x)
    (oi_nbr_self x) (oi_nbrs x) (oi_full_nbrs x) (oi_area_full_nbrs x) (oi_area_act_ints x)
    (oi_vl_full x) (oi_network_lsa_self x) (oi_restarting x) (oi_external_routing x)
    (oi_p2mp_non_broadcast x) (oi_t_hello x) (oi_t_wait x) (oi_t_ls_ack x)
    (oi_state_change x) v.

(** ** The neighbor table *)

Definition nbr_update (n : Z) (f : ospf_neighbor -> ospf_neighbor) (oi : ospf_interface) :
    ospf_interface :=
  set_oi_nbrs (map (fun x => if n_id x =? n then f x else x) (oi_nbrs oi)) oi.

Definition nbr_find (n : Z) (oi : ospf_interface) : option ospf_neighbor :=
  find (fun x => n_id x =? n) (oi_nbrs oi).

Definition emit (e : effect) (oi : ospf_interface) : ospf_interface :=
  set_oi_out (oi_out oi ++ [e]) oi.

(** [DR(oi)], [BDR(oi)] and [PRIORITY(oi)]: what [nbr_self] declares. *)
Definition self_field (f : ospf_neighbor -> Z) (oi : ospf_interface) : Z :=
  match nbr_find (oi_nbr_self oi) oi with Some x => f x | None => 0 end.
Definition DR : ospf_interface -> Z := self_field n_d_router.
Definition BDR : ospf_interface -> Z := self_field n_bd_router.
Definition PRIORITY : ospf_interface -> Z := self_field n_priority.

Definition set_DR (a : Z) (oi : ospf_interface) : ospf_interface :=
  nbr_update (oi_nbr_self oi) (set_n_d_router a) oi.
Definition set_BDR (a : Z) (oi : ospf_interface) : ospf_interface :=
  nbr_update (oi_nbr_self oi) (set_n_bd_router a) oi.

Definition NBR_IS_DR (x : ospf_neighbor) : bool := n_address x =? n_d_router x.
Definition NBR_IS_BDR (x : ospf_neighbor) : bool := n_address x =? n_bd_router x.

(** ** Election *)

(** The loop of [ospf_dr_election_sub]: highest priority, then highest router
    identifier. *)
Definition better_router (best x : ospf_neighbor) : bool :=
  (n_priority best <? n_priority x)
  || (n_priority best =? n_priority x) && (n_router_id best <? n_router_id x).

Fixpoint election_loop (best : ospf_neighbor) (l : list ospf_neighbor) : ospf_neighbor :=
  match l with
  | [] => best
  | x :: l' => election_loop (if better_router best x then x else best) l'
  end.

Definition ospf_dr_election_sub (routers : list ospf_neighbor) : option ospf_neighbor :=
  match routers with
  | [] => None
  | x :: l => Some (election_loop x l)
  end.

Definition router_addr (x : option ospf_neighbor) : Z :=
  match x with Some x => n_address x | None => 0 end.

(** The eligible routers are looked at again in every election, since
    [nbr_self] is one of them and its fields change. *)
Definition ospf_dr_eligible_routers (oi : ospf_interface) : list ospf_neighbor :=
  List.filter (fun x => negb (n_router_id x =? 0) && (0 <? n_priority x) && nsm_ge (n_state x) NSM_TwoWay)
    (oi_nbrs oi).

(** The last eligible router whose address is [a]. *)
Definition last_with_address (a : Z) (l : list ospf_neighbor) : option ospf_neighbor :=
  fold_left (fun o x => if n_address x =? a then Some x else o) l None.

Definition ospf_elect_dr (oi : ospf_interface) : ospf_interface :=
  let el_list := ospf_dr_eligible_routers oi in
  let dr_list := List.filter NBR_IS_DR el_list in
  let bdr := last_with_address (BDR oi) el_list in
  let dr := match dr_list with [] => bdr | _ => ospf_dr_election_sub dr_list end in
  set_DR (router_addr dr) oi.

Definition ospf_elect_bdr (oi : ospf_interface) : ospf_interface :=
  let el_list := ospf_dr_eligible_routers oi in
  let no_dr_list := List.filter (fun x => negb (NBR_IS_DR x)) el_list in
  let bdr_list := List.filter NBR_IS_BDR no_dr_list in
  let bdr := match bdr_list with
             | [] => ospf_dr_election_sub no_dr_list
             | _ => ospf_dr_election_sub bdr_list
             end in
  set_BDR (router_addr bdr) oi.

Definition ospf_ism_state (oi : ospf_interface) : ism_state :=
  if DR oi =? oi_address oi then ISM_DR
  else if BDR oi =? oi_address oi then ISM_Backup
  else ISM_DROther.

(** Events for the neighbors that are at least 2-Way, this router excepted. *)
Definition ospf_dr_change (oi : ospf_interface) : ospf_interface :=
  fold_left (fun o x =>
      if negb (n_router_id x =? 0) && nsm_ge (n_state x) NSM_TwoWay
         && negb (n_router_id x =? oi_router_id oi)
      then emit (ScheduleNsm (n_id x) NSM_AdjOK) o else o)
    (oi_nbrs oi) oi.

Definition elect_both (oi : ospf_interface) : ospf_interface := ospf_elect_dr (ospf_elect_bdr oi).

Definition ospf_dr_election (oi : ospf_interface) : ism_state * ospf_interface :=
  let old_state := oi_state oi in
  let first := elect_both oi in
  let new_state := ospf_ism_state first in
  let again := negb (ism_is new_state old_state)
               && negb (ism_is new_state ISM_DROther && (ism_num old_state <? ism_num ISM_DROther)) in
  let second := if again then elect_both first else first in
  let changed := negb (DR oi =? DR second) || negb (BDR oi =? BDR second) in
  (ospf_ism_state second, if changed then ospf_dr_change second else second).

(** ** The interface state machine *)

Definition OSPF_IF_NON_BROADCAST (oi : ospf_interface) : bool :=
  (oi_type oi =? OSPF_IFTYPE_NBMA)
  || (oi_type oi =? OSPF_IFTYPE_POINTOMULTIPOINT) && oi_p2mp_non_broadcast oi.

Definition ism_timer_set (oi : ospf_interface) : ospf_interface :=
  let timers (hello wait : bool) oi := set_oi_t_wait wait (set_oi_t_hello hello oi) in
  match oi_state oi with
  | ISM_Down | ISM_Loopback => set_oi_t_ls_ack false (timers false false oi)
  | ISM_Waiting => set_oi_t_ls_ack false (timers true true oi)
  | ISM_PointToPoint | ISM_DROther | ISM_Backup | ISM_DR => timers true false oi
  | ISM_DependUpon => oi
  end.

Definition ism_interface_up (oi : ospf_interface) : ism_state * ospf_interface :=
  let next :=
    if (oi_type oi =? OSPF_IFTYPE_POINTOPOINT) || (oi_type oi =? OSPF_IFTYPE_POINTOMULTIPOINT)
       || (oi_type oi =? OSPF_IFTYPE_VIRTUALLINK)
    then ISM_PointToPoint
    else if PRIORITY oi =? 0 then ISM_DROther else ISM_Waiting in
  (next, if OSPF_IF_NON_BROADCAST oi then emit NbmaIfUpdate oi else oi).

(** The actions of the table. *)
Inductive ism_func :=
| ism_ignore | F_interface_up | ism_loop_ind | F_interface_down | F_election.

(** The table: one row per state. *)
Definition ISM (s : ism_state) (e : ism_event) : ism_func * ism_state :=
  match s, e with
  | ISM_DependUpon, _ => (ism_ignore, ISM_DependUpon)
  | _, ISM_NoEvent => (ism_ignore, ISM_DependUpon)
  | _, ISM_InterfaceDown => (F_interface_down, ISM_Down)
  | ISM_Down, ISM_InterfaceUp => (F_interface_up, ISM_DependUpon)
  | ISM_Down, ISM_LoopInd => (ism_loop_ind, ISM_Loopback)
  | ISM_Down, _ => (ism_ignore, ISM_Down)
  | ISM_Loopback, ISM_UnloopInd => (ism_ignore, ISM_Down)
  | ISM_Loopback, _ => (ism_ignore, ISM_Loopback)
  | _, ISM_LoopInd => (ism_loop_ind, ISM_Loopback)
  | ISM_Waiting, (ISM_WaitTimer | ISM_BackupSeen) => (F_election, ISM_DependUpon)
  | (ISM_DROther | ISM_Backup | ISM_DR), ISM_NeighborChange => (F_election, ISM_DependUpon)
  | s, _ => (ism_ignore, s)
  end.

(** [ospf_network_lsa_update]: nothing is originated while restarting, or for a
    network without a full neighbor; an LSA that exists is refreshed. *)
Definition ospf_network_lsa_update (oi : ospf_interface) : ospf_interface :=
  if oi_restarting oi then oi
  else if oi_network_lsa_self oi then emit NetworkLsaUpdate oi
  else if oi_full_nbrs oi =? 0 then oi
  else set_oi_network_lsa_self true (emit NetworkLsaUpdate oi).

(** The self originated network LSA is withdrawn. *)
Definition flush_network_lsa (oi : ospf_interface) : ospf_interface :=
  set_oi_network_lsa_self false (if oi_network_lsa_self oi then emit NetworkLsaFlush oi else oi).

Definition ism_change_state (state : ism_state) (oi : ospf_interface) : ospf_interface :=
  let old := oi_state oi in
  let oi := set_oi_state_change (u32 (oi_state_change oi + 1)) (set_oi_state state oi) in
  let oi := emit SetMulticast oi in
  let oi := if ism_is old ISM_Down || ism_is state ISM_Down then emit CheckAbrStatus oi else oi in
  let oi :=
    if ism_is state ISM_Down
    then if 0 <? oi_area_act_ints oi then set_oi_area_act_ints (oi_area_act_ints oi - 1) oi else oi
    else if ism_is old ISM_Down then set_oi_area_act_ints (u32 (oi_area_act_ints oi + 1)) oi
    else oi in
  let oi := emit RouterLsaUpdate oi in
  let oi :=
    if negb (ism_is old ISM_DR) && ism_is state ISM_DR then ospf_network_lsa_update oi
    else if ism_is old ISM_DR && negb (ism_is state ISM_DR) then flush_network_lsa oi
    else oi in
  emit CheckAbrStatus (emit (OpaqueIsmChange old) oi).

(** [ospf_ism_event], given the result of the action: 0 is [ISM_DependUpon],
    and the table is read in the state that the action leaves. *)
Definition ism_finish (e : ism_event) (func_state : ism_state) (oi : ospf_interface) : ospf_interface :=
  let next :=
    if ism_is func_state ISM_DependUpon then snd (ISM (oi_state oi) e) else func_state in
  ism_timer_set (if ism_is next (oi_state oi) then oi else ism_change_state next oi).

(** Every event but InterfaceDown, whose action ends in the neighbor state
    machine. *)
Definition ism_event_local (e : ism_event) (oi : ospf_interface) : ospf_interface :=
  match fst (ISM (oi_state oi) e) with
  | F_interface_up => let '(s, oi) := ism_interface_up oi in ism_finish e s oi
  | F_election => let '(s, oi) := ospf_dr_election oi in ism_finish e s oi
  | _ => ism_finish e ISM_DependUpon oi
  end.
