(* ===== verification/OspfElection.v ===== *)
(** * The election of OSPF designated routers, and agreement

    What one election computes from the neighbor table, as a function of the
    entries ([elected_bdr], [elected_dr]), and that the code computes it.  The
    result depends on what the eligible routers declare, not on the order of the
    table.

    The election as a function of which routers declare themselves designated
    ([D]) and backup ([B]), over a fixed set [R] of routers, and what happens when
    every router of the network elects: after one round they agree on the
    designated router, after another one on the backup, and then nothing changes.

    The routers are entries of a neighbor table, known by their addresses. *)
From S2P Require Import Prelude OspfIsm.

(** ** The best router of a list *)

(** What the choice looks at. *)
Definition ident (x : ospf_neighbor) : Z * Z * Z * Z :=
  (n_id x, n_address x, n_router_id x, n_priority x).

Lemma better_router_ident x y x' y' :
  ident x = ident x' -> ident y = ident y' -> better_router x y = better_router x' y'.
Proof. unfold ident, better_router. intros E1 E2. injection E1 as _ _ -> ->. by injection E2 as _ _ -> ->. Qed.

Lemma election_loop_ident l1 : forall l2 x y,
  ident x = ident y -> map ident l1 = map ident l2 ->
  ident (election_loop x l1) = ident (election_loop y l2).
Proof.
  induction l1 as [|a l1 IH]; intros [|c l2] x y E El; try done.
  cbn [map] in El. injection El as Ea El. cbn [election_loop].
  assert (Eac : ident a = ident c) by (unfold ident; congruence).
  apply IH; [|done]. rewrite (better_router_ident x a y c E Eac). by case_bool.
Qed.

Lemma election_sub_ident l1 l2 :
  map ident l1 = map ident l2 ->
  router_addr (ospf_dr_election_sub l1) = router_addr (ospf_dr_election_sub l2).
Proof.
  destruct l1 as [|x l1], l2 as [|y l2]; try done. intros E.
  assert (E1 : ident x = ident y) by (cbn [map] in E; congruence).
  assert (E2 : map ident l1 = map ident l2) by (cbn [map] in E; congruence).
  pose proof (election_loop_ident l1 l2 x y E1 E2) as El. unfold ident in El. simpl. congruence.
Qed.

(** The one chosen is in the list, and nobody is better. *)
Lemma better_router_trans x y z :
  better_router x y = false -> better_router y z = false -> better_router x z = false.
Proof.
  unfold better_router. rewrite !orb_false_iff, !andb_false_iff. intros [? ?] [? ?].
  bool_to_prop. split; [apply Z.ltb_ge; lia|].
  destruct (Z.eqb_spec (n_priority x) (n_priority z)); [|by left]. right. apply Z.ltb_ge.
  destruct H0 as [H0|H0], H2 as [H2|H2]; bool_to_prop; lia.
Qed.

Lemma better_router_irrefl x : better_router x x = false.
Proof. unfold better_router. by rewrite !Z.ltb_irrefl, andb_false_r. Qed.

Lemma better_router_asym x y : better_router x y = true -> better_router y x = false.
Proof.
  unfold better_router. rewrite orb_true_iff, andb_true_iff, orb_false_iff, andb_false_iff.
  intros [?|[? ?]]; bool_to_prop; split; try (apply Z.ltb_ge; lia);
    [left; apply Z.eqb_neq; lia|right; apply Z.ltb_ge; lia].
Qed.

Lemma election_loop_best l : forall x,
  (election_loop x l = x \/ election_loop x l ∈ l)
  /\ better_router (election_loop x l) x = false
  /\ (forall y, y ∈ l -> better_router (election_loop x l) y = false).
Proof.
  induction l as [|a l IH]; intros x; simpl.
  { split; [by left|]. split; [apply better_router_irrefl|]. intros y Hy. by apply elem_of_nil in Hy. }
  destruct (IH (if better_router x a then a else x)) as (Hin & Hx & Hl).
  set (r := election_loop _ l) in *.
  assert (Hax : better_router r a = false /\ better_router r x = false).
  { destruct (better_router x a) eqn:E; [|by split; [eapply better_router_trans|]].
    split; [done|]. eapply better_router_trans; [exact Hx|]. by apply better_router_asym. }
  split; [|split; [apply Hax|]].
  - destruct Hin as [->|Hin]; [|right; by right]. case_bool; [right; left|by left].
  - intros y [->|Hy]%elem_of_cons; [apply Hax|by apply Hl].
Qed.

Lemma election_sub_best l x :
  ospf_dr_election_sub l = Some x -> x ∈ l /\ forall y, y ∈ l -> better_router x y = false.
Proof.
  destruct l as [|a l]; simpl; [done|]. intros E. simplify_eq.
  destruct (election_loop_best l a) as (Hin & Ha & Hl). split.
  - destruct Hin as [->|Hin]; [left|by right].
  - intros y [->|Hy]%elem_of_cons; auto.
Qed.

(** ** One election, on the neighbor table *)

Definition eligible_routers (l : list ospf_neighbor) : list ospf_neighbor :=
  List.filter (fun x => negb (n_router_id x =? 0) && (0 <? n_priority x) && nsm_ge (n_state x) NSM_TwoWay) l.

Definition not_dr (l : list ospf_neighbor) : list ospf_neighbor :=
  List.filter (fun x => negb (NBR_IS_DR x)) (eligible_routers l).
Definition declared_bdr (l : list ospf_neighbor) : list ospf_neighbor :=
  List.filter NBR_IS_BDR (not_dr l).
Definition declared_dr (l : list ospf_neighbor) : list ospf_neighbor :=
  List.filter NBR_IS_DR (eligible_routers l).

Definition elected_bdr (l : list ospf_neighbor) : Z :=
  router_addr (match declared_bdr l with
               | [] => ospf_dr_election_sub (not_dr l)
               | _ => ospf_dr_election_sub (declared_bdr l)
               end).

Definition elected_dr (l : list ospf_neighbor) (bdr : Z) : Z :=
  router_addr (match declared_dr l with
               | [] => last_with_address bdr (eligible_routers l)
               | _ => ospf_dr_election_sub (declared_dr l)
               end).

(** [nbr_self] declares the result. *)
Definition redeclare (n d bd : Z) (l : list ospf_neighbor) : list ospf_neighbor :=
  map (fun x => if n_id x =? n then set_n_bd_router bd (set_n_d_router d x) else x) l.

Definition declare_bdr (n bd : Z) (l : list ospf_neighbor) : list ospf_neighbor :=
  map (fun x => if n_id x =? n then set_n_bd_router bd x else x) l.

Lemma filter_map_ident (p q : ospf_neighbor -> bool) f l :
  (forall x, ident (f x) = ident x) -> (forall x, x ∈ l -> p (f x) = q x) ->
  map ident (List.filter p (map f l)) = map ident (List.filter q l).
Proof.
  intros Hf Hp. induction l as [|x l IH]; simpl; [done|].
  rewrite Hp by left. assert (IH' := IH ltac:(intros y Hy; apply Hp; by right)).
  destruct (q x); simpl; [|done]. f_equal; [apply Hf|done].
Qed.

Lemma filter_filter {A} (p q : A -> bool) l :
  List.filter p (List.filter q l) = List.filter (fun x => q x && p x) l.
Proof. induction l as [|x l IH]; simpl; [done|]. destruct (q x); simpl; [by rewrite IH|done]. Qed.

Lemma declare_bdr_dr n bd l :
  map ident (declared_dr (declare_bdr n bd l)) = map ident (declared_dr l).
Proof.
  unfold declared_dr, eligible_routers, declare_bdr. rewrite !filter_filter.
  apply filter_map_ident; intros x; by case_bool.
Qed.

Lemma last_with_address_ident a l1 l2 :
  map ident l1 = map ident l2 ->
  router_addr (last_with_address a l1) = router_addr (last_with_address a l2).
Proof.
  intros E. unfold last_with_address.
  assert (G : forall o1 o2, router_addr o1 = router_addr o2 ->
    router_addr (fold_left (fun o x => if n_address x =? a then Some x else o) l1 o1)
    = router_addr (fold_left (fun o x => if n_address x =? a then Some x else o) l2 o2)).
  { revert l2 E. induction l1 as [|x l1 IH]; intros [|y l2] E o1 o2 Eo; try done.
    assert (E1 : n_address x = n_address y) by (cbn [map] in E; unfold ident in E; congruence).
    assert (E2 : map ident l1 = map ident l2) by (cbn [map] in E; congruence).
    simpl. apply IH; [done|]. rewrite E1. case_bool; [simpl; congruence|done]. }
  by apply G.
Qed.

Lemma declare_bdr_eligible n bd l :
  map ident (eligible_routers (declare_bdr n bd l)) = map ident (eligible_routers l).
Proof. unfold eligible_routers, declare_bdr. apply filter_map_ident; intros x; by case_bool. Qed.

Lemma elected_dr_declare_bdr n bd l b :
  elected_dr (declare_bdr n bd l) b = elected_dr l b.
Proof.
  unfold elected_dr. pose proof (declare_bdr_dr n bd l) as E.
  destruct (declared_dr (declare_bdr n bd l)) as [|x m], (declared_dr l) as [|y k];
    try discriminate E.
  - apply last_with_address_ident, declare_bdr_eligible.
  - by apply election_sub_ident.
Qed.

Lemma find_map_id n f (l : list ospf_neighbor) :
  (forall x, n_id (f x) = n_id x) ->
  find (fun x => n_id x =? n) (map (fun x => if n_id x =? n then f x else x) l)
  = f <$> find (fun x => n_id x =? n) l.
Proof.
  intros Hf. induction l as [|x l IH]; simpl; [done|].
  destruct (n_id x =? n) eqn:E; simpl; [by rewrite Hf, E|]. by rewrite E.
Qed.

(** The election in the code. *)
Lemma elect_both_nbrs oi x :
  nbr_find (oi_nbr_self oi) oi = Some x ->
  let l := oi_nbrs oi in
  elect_both oi
  = set_oi_nbrs (redeclare (oi_nbr_self oi) (elected_dr l (elected_bdr l)) (elected_bdr l) l) oi.
Proof.
  intros Hx l. unfold elect_both. set (o1 := ospf_elect_bdr oi).
  assert (E1 : o1 = set_oi_nbrs (declare_bdr (oi_nbr_self oi) (elected_bdr l) l) oi) by done.
  assert (Hb : BDR o1 = elected_bdr l).
  { rewrite E1. unfold BDR, self_field, nbr_find, declare_bdr. cbn [oi_nbrs oi_nbr_self set_oi_nbrs].
    rewrite find_map_id by done. unfold nbr_find in Hx. fold l in Hx. by rewrite Hx. }
  assert (E2 : ospf_elect_dr o1 = set_DR (elected_dr (oi_nbrs o1) (BDR o1)) o1) by done.
  rewrite E2, Hb, E1. unfold set_DR, nbr_update. cbn [oi_nbrs oi_nbr_self set_oi_nbrs].
  rewrite elected_dr_declare_bdr. destruct oi as [] eqn:Eo. unfold set_oi_nbrs. cbn. f_equal.
  unfold declare_bdr, redeclare. rewrite map_map. apply map_ext. intros y.
  destruct (n_id y =? _) eqn:E; simpl; rewrite E; reflexivity.
Qed.

Definition el (x : ospf_neighbor) : bool := negb (n_router_id x =? 0) && (0 <? n_priority x).

(** The address of the best eligible router with [P]; 0 when there is none. *)
Definition best (R : list ospf_neighbor) (P : Z -> bool) : Z :=
  router_addr (ospf_dr_election_sub (List.filter (fun x => el x && P (n_address x)) R)).

Definition bdr_of (R : list ospf_neighbor) (D B : Z -> bool) : Z :=
  let b := best R (fun a => negb (D a) && B a) in
  if b =? 0 then best R (fun a => negb (D a)) else b.

Definition dr_of (R : list ospf_neighbor) (D B : Z -> bool) : Z :=
  let d := best R D in if d =? 0 then bdr_of R D B else d.

Definition upd (f : Z -> bool) (i : Z) (v : bool) (a : Z) : bool := if a =? i then v else f a.

Definition role (i d b : Z) : ism_state :=
  if d =? i then ISM_DR else if b =? i then ISM_Backup else ISM_DROther.

Definition reelects (old new : ism_state) : bool :=
  negb (ism_is new old) && negb (ism_is new ISM_DROther && (ism_num old <? ism_num ISM_DROther)).

(** What router [i] in state [s] elects. *)
Definition elect_at (R : list ospf_neighbor) (D B : Z -> bool) (i : Z) (s : ism_state) : Z * Z :=
  let d := dr_of R D B in
  let b := bdr_of R D B in
  if reelects s (role i d b)
  then let D' := upd D i (d =? i) in let B' := upd B i (b =? i) in (dr_of R D' B', bdr_of R D' B')
  else (d, b).

Section agreement.
Context (R : list ospf_neighbor).
Context (HR : NoDup (map n_address R)) (Hid : NoDup (map n_router_id R)).
Context (Hz : Forall (fun x => n_address x <> 0) R).

(** [a] is the address of an eligible router. *)
Definition eligible (a : Z) : Prop := exists x, x ∈ R /\ el x = true /\ n_address x = a.

Lemma eligible_nonzero a : eligible a -> a <> 0.
Proof. intros (x & Hx & _ & <-). apply list_elem_of_In in Hx. by apply (proj1 (Forall_forall _ _) Hz). Qed.

Lemma addr_inj x y : x ∈ R -> y ∈ R -> n_address x = n_address y -> x = y.
Proof.
  intros (i & Hi)%list_elem_of_lookup (j & Hj)%list_elem_of_lookup E.
  assert (i = j); [|naive_solver].
  apply (NoDup_lookup _ _ _ (n_address x) HR); rewrite list_lookup_fmap; [by rewrite Hi|].
  by rewrite Hj, E.
Qed.

Lemma rid_inj x y : x ∈ R -> y ∈ R -> n_router_id x = n_router_id y -> x = y.
Proof.
  intros (i & Hi)%list_elem_of_lookup (j & Hj)%list_elem_of_lookup E.
  assert (i = j); [|naive_solver].
  apply (NoDup_lookup _ _ _ (n_router_id x) Hid); rewrite list_lookup_fmap; [by rewrite Hi|].
  by rewrite Hj, E.
Qed.

Lemma elem_filter_el P x :
  x ∈ List.filter (fun x => el x && P (n_address x)) R
  <-> x ∈ R /\ el x = true /\ P (n_address x) = true.
Proof. rewrite list_elem_of_In, filter_In, <- list_elem_of_In, andb_true_iff. naive_solver. Qed.

Lemma best_cases P :
  (best R P = 0 /\ forall a, eligible a -> P a = false)
  \/ (eligible (best R P) /\ P (best R P) = true
      /\ exists x, x ∈ R /\ n_address x = best R P
         /\ forall y, y ∈ R -> el y = true -> P (n_address y) = true -> better_router x y = false).
Proof.
  unfold best. set (L := List.filter _ R).
  destruct (ospf_dr_election_sub L) as [x|] eqn:E.
  - right. apply election_sub_best in E as [Hx Hb]. apply elem_filter_el in Hx as (Hx & He & HP).
    simpl. split; [by exists x|]. split; [done|]. exists x. split_and!; [done..|].
    intros y Hy Hy1 Hy2. apply Hb. by apply elem_filter_el.
  - left. split; [done|]. intros a (x & Hx & He & <-).
    destruct (P (n_address x)) eqn:HP; [|done].
    assert (HL : x ∈ L) by by apply elem_filter_el.
    destruct L; [by apply elem_of_nil in HL|done].
Qed.

Lemma better_antisym x y :
  x ∈ R -> y ∈ R -> better_router x y = false -> better_router y x = false -> x = y.
Proof.
  intros Hx Hy. unfold better_router. rewrite !orb_false_iff, !andb_false_iff.
  intros [? ?] [? ?]. apply rid_inj; [done..|]. bool_to_prop.
  repeat match goal with H : _ \/ _ |- _ => destruct H end; bool_to_prop; lia.
Qed.

(** The four facts about [best] that the rest needs. *)
Lemma best_none P : best R P = 0 <-> forall a, eligible a -> P a = false.
Proof.
  destruct (best_cases P) as [[E H]|(He & HP & _)]; [tauto|]. split.
  - intros E. by apply eligible_nonzero in He.
  - intros H. apply H in He. congruence.
Qed.

Lemma best_some P : best R P <> 0 -> eligible (best R P) /\ P (best R P) = true.
Proof. destruct (best_cases P) as [[E _]|(He & HP & _)]; [done|tauto]. Qed.

(** The best of a set is the best of every subset that it is in. *)
Lemma best_subset P Q :
  best R P <> 0 -> Q (best R P) = true -> (forall a, eligible a -> Q a = true -> P a = true) ->
  best R Q = best R P.
Proof.
  intros Hn HQ Hsub. destruct (best_cases P) as [[E _]|(He & HP & x & Hx & Ex & Hb)]; [done|].
  destruct (best_cases Q) as [[_ H]|(He' & HQ' & y & Hy & Ey & Hb')].
  { rewrite (H _ He) in HQ. done. }
  rewrite <- Ex, <- Ey. f_equal.
  destruct He as (x' & Hx' & Hel & Ex'). assert (x' = x) as -> by (apply addr_inj; congruence).
  destruct He' as (y' & Hy' & Hel' & Ey'). assert (y' = y) as -> by (apply addr_inj; congruence).
  apply better_antisym; [done..| |].
  - apply Hb'; [done..|]. by rewrite Ex.
  - apply Hb; [done..|]. apply Hsub; [by exists y|]. by rewrite Ey.
Qed.

Lemma best_ext P Q : (forall a, eligible a -> P a = Q a) -> best R P = best R Q.
Proof.
  intros H. destruct (Z.eq_dec (best R Q) 0) as [E|E].
  - rewrite E. apply best_none. intros a Ha. rewrite H by done. by apply best_none with (a := a) in E.
  - apply best_subset; [done| |].
    + rewrite H by by apply best_some. by apply best_some.
    + intros a Ha HP. by rewrite <- H.
Qed.

(** ** The backup *)

Lemma bdr_some D B : bdr_of R D B <> 0 -> eligible (bdr_of R D B) /\ D (bdr_of R D B) = false.
Proof.
  unfold bdr_of. destruct (Z.eqb_spec (best R (fun a => negb (D a) && B a)) 0) as [_|E]; intros Hn.
  - apply best_some in Hn as [? ?]. by bool_to_prop.
  - apply best_some in E as [? ?]. by bool_to_prop.
Qed.

Lemma bdr_none D B : bdr_of R D B = 0 <-> forall a, eligible a -> D a = true.
Proof.
  split.
  - intros E a Ha. unfold bdr_of in E. revert E. case_bool; [|done].
    rewrite best_none. intros E. by apply negb_false_iff, E.
  - intros H. destruct (Z.eq_dec (bdr_of R D B) 0) as [|(He & HD)%bdr_some]; [done|].
    rewrite H in HD by done. done.
Qed.

Lemma bdr_ext D D' B B' :
  (forall a, eligible a -> D a = D' a) ->
  (forall a, eligible a -> D a = false -> B a = B' a) -> bdr_of R D B = bdr_of R D' B'.
Proof.
  intros HD HB. unfold bdr_of.
  rewrite (best_ext (fun a => negb (D a) && B a) (fun a => negb (D' a) && B' a)),
    (best_ext (fun a => negb (D a)) (fun a => negb (D' a))); [done|..]; intros a Ha.
  - by rewrite HD.
  - rewrite <- HD by done. destruct (D a) eqn:E; [done|]. simpl. auto.
Qed.

(** The backup declares itself, or nobody did. *)
Lemma bdr_declared D B :
  bdr_of R D B <> 0 ->
  B (bdr_of R D B) = true \/ forall a, eligible a -> D a = false -> B a = false.
Proof.
  unfold bdr_of. intros Hn.
  destruct (Z.eqb_spec (best R (fun a => negb (D a) && B a)) 0) as [E|E].
  - right. intros a Ha HD. pose proof (proj1 (best_none _) E a Ha) as H. simpl in H.
    by rewrite HD in H.
  - left. apply best_some in E as [_ E]. by bool_to_prop.
Qed.

(** The backup stays when nobody new declares itself. *)
Lemma bdr_stable D B B' :
  let b := bdr_of R D B in
  (forall a, eligible a -> D a = false -> B' a = true -> B a = true \/ a = b) ->
  (b <> 0 -> B' b = true \/ forall a, eligible a -> D a = false -> B a = false) ->
  bdr_of R D B' = b.
Proof.
  intros b H1 H2. destruct (Z.eq_dec b 0) as [E|E].
  { rewrite E. apply bdr_none. by apply (bdr_none D B). }
  destruct (bdr_some D B E) as [He HD]. fold b in He, HD.
  destruct (B' b) eqn:HB.
  - assert (Hq : best R (fun a => negb (D a) && B' a) = b).
    { unfold b, bdr_of in *. revert E H1 HB HD.
      destruct (Z.eqb_spec (best R (fun a => negb (D a) && B a)) 0); simpl; intros E H1 HB HD.
      - apply best_subset; [done|by rewrite HD, HB|]. intros a _ [? _]%andb_true_iff. done.
      - apply best_subset; [done|by rewrite HD, HB|]. intros a Ha ?. bool_to_prop.
        apply andb_true_iff. split; [by apply negb_true_iff|].
        destruct (H1 a Ha) as [?| ->]; [done..|].
        apply best_some in E as [_ E]. by bool_to_prop. }
    unfold bdr_of at 1. rewrite Hq. by destruct (Z.eqb_spec b 0).
  - destruct (H2 E) as [|Hno]; [done|].
    assert (Hq : best R (fun a => negb (D a) && B' a) = 0).
    { apply best_none. intros a Ha. destruct (D a) eqn:Da; [done|]. simpl.
      destruct (B' a) eqn:Ba; [|done]. destruct (H1 a Ha Da Ba) as [?| ->]; [|congruence].
      by rewrite (Hno a Ha Da) in *. }
    unfold b, bdr_of. rewrite Hq.
    assert (best R (fun a => negb (D a) && B a) = 0) as ->; [|done].
    apply best_none. intros a Ha. destruct (D a) eqn:Da; [done|]. by apply Hno.
Qed.

Lemma bdr_stable_upd D B i :
  bdr_of R D (upd B i (bdr_of R D B =? i)) = bdr_of R D B.
Proof.
  apply bdr_stable.
  - intros a _ _. unfold upd. destruct (Z.eqb_spec a i) as [->|]; [|by left].
    rewrite Z.eqb_eq. by right.
  - intros Hn. unfold upd. destruct (Z.eqb_spec (bdr_of R D B) i); [by left|].
    by apply bdr_declared.
Qed.

Lemma bdr_stable_all D B : bdr_of R D (fun a => bdr_of R D B =? a) = bdr_of R D B.
Proof.
  apply bdr_stable.
  - intros a _ _ E. right. lia.
  - intros _. left. apply Z.eqb_refl.
Qed.

(** ** One election *)

Lemma eligible_cases a : eligible a \/ ~ eligible a.
Proof.
  destruct (decide (Exists (fun x => el x = true /\ n_address x = a) R)) as [H|H].
  - left. apply list.Exists_exists in H as (x & Hx & ? & ?). by exists x.
  - right. intros (x & Hx & ? & ?). apply H. apply list.Exists_exists. by exists x.
Qed.

Lemma best_single P d :
  eligible d -> P d = true -> (forall a, eligible a -> P a = true -> a = d) -> best R P = d.
Proof.
  intros He HP H. destruct (Z.eq_dec (best R P) 0) as [E|[E1 E2]%best_some]; [|by apply H].
  rewrite (proj1 (best_none P) E d He) in HP. done.
Qed.

Lemma dr_eligible D B : dr_of R D B <> 0 -> eligible (dr_of R D B).
Proof.
  unfold dr_of. destruct (Z.eqb_spec (best R D) 0) as [_|E]; intros H.
  - by apply bdr_some.
  - by apply best_some.
Qed.

Lemma dr_none D B : dr_of R D B = 0 -> forall a, ~ eligible a.
Proof.
  unfold dr_of. destruct (Z.eqb_spec (best R D) 0) as [E|E]; [|done].
  rewrite bdr_none. intros H a Ha. pose proof (proj1 (best_none _) E a Ha). rewrite H in *; done.
Qed.

Lemma elect_nobody D B i s : (forall a, ~ eligible a) -> elect_at R D B i s = (0, 0).
Proof.
  intros H.
  assert (Hb : forall D B, bdr_of R D B = 0) by (intros; apply bdr_none; intros a Ha; by destruct (H a)).
  assert (Hd : forall D B, dr_of R D B = 0).
  { intros D' B'. unfold dr_of. case_bool; [apply Hb|]. exfalso.
    assert (best R D' = 0) by (apply best_none; intros a Ha; by destruct (H a)). done. }
  unfold elect_at. rewrite !Hd, !Hb. by case_bool.
Qed.

(** Some router declares itself designated. *)
Lemma elect_declared D B i s :
  best R D <> 0 ->
  (eligible i -> D i = true -> i <> best R D -> best R (fun a => negb (D a) && B a) <> 0) ->
  elect_at R D B i s = (best R D, bdr_of R D B).
Proof.
  intros Hn Hi. set (d := best R D) in *. destruct (best_some D Hn) as [Hd HDd]. fold d in Hd, HDd.
  assert (Edr : dr_of R D B = d) by (unfold dr_of; fold d; by destruct (Z.eqb_spec d 0)).
  unfold elect_at. rewrite Edr. case_bool; [|done].
  set (b := bdr_of R D B). set (D' := upd D i (d =? i)). set (B' := upd B i (b =? i)).
  assert (Ed : best R D' = d).
  { apply best_subset; [done| |].
    - fold d. unfold D', upd. by destruct (Z.eqb_spec d i).
    - intros a _. unfold D', upd. destruct (Z.eqb_spec a i) as [->|]; [|done].
      intros E%Z.eqb_eq. by rewrite <- E. }
  assert (Edr' : dr_of R D' B' = d) by (unfold dr_of; rewrite Ed; by destruct (Z.eqb_spec d 0)).
  rewrite Edr'. f_equal.
  assert (Hcase : (eligible i /\ D i = true /\ i <> d) \/ (eligible i -> D i = (d =? i))).
  { destruct (D i) eqn:Di, (Z.eqb_spec d i) as [Ei|Ei]; [by right| |by rewrite <- Ei, HDd in Di|by right].
    destruct (eligible_cases i) as [He|He]; [left; auto|right; intros; by destruct He]. }
  destruct Hcase as [(He & HDi & Hid')|Hcase].
  - specialize (Hi He HDi Hid'). unfold b, bdr_of in *. destruct (Z.eqb_spec (best R (fun a => negb (D a) && B a)) 0); [done|].
    set (b0 := best R (fun a => negb (D a) && B a)) in *.
    pose proof (best_some _ Hi) as [Hb0 Hb1]. fold b0 in Hb0, Hb1. bool_to_prop.
    assert (Hbi : b0 <> i) by congruence.
    assert (Hq : best R (fun a => negb (D' a) && B' a) = b0).
    { apply best_subset; [done| |].
      - fold b0. unfold D', B', upd. destruct (Z.eqb_spec b0 i); [done|]. by apply andb_true_iff; split; [apply negb_true_iff|].
      - intros a _. unfold D', B', upd. destruct (Z.eqb_spec a i) as [->|]; [|done].
        destruct (Z.eqb_spec b0 i); [done|]. by rewrite andb_false_r. }
    rewrite Hq. by destruct (Z.eqb_spec b0 0).
  - rewrite (bdr_ext D' D B' B'); [apply bdr_stable_upd| |done].
    intros a Ha. unfold D', upd. destruct (Z.eqb_spec a i) as [->|]; [|done]. symmetry. auto.
Qed.

(** A designated router that loses looks for a backup with itself. *)
Lemma elect_loser D B i :
  best R D <> 0 -> eligible i -> D i = true -> i <> best R D ->
  best R (fun a => negb (D a) && B a) = 0 ->
  elect_at R D B i ISM_DR = (best R D, best R (fun a => negb (D a) || (a =? i))).
Proof.
  intros Hn He HDi Hi H0. set (d := best R D) in *.
  destruct (best_some D Hn) as [Hd HDd]. fold d in Hd, HDd.
  assert (Edr : dr_of R D B = d) by (unfold dr_of; fold d; by destruct (Z.eqb_spec d 0)).
  assert (Hre : reelects ISM_DR (role i (dr_of R D B) (bdr_of R D B)) = true).
  { rewrite Edr. unfold role. destruct (Z.eqb_spec d i); [congruence|]. by case_bool. }
  unfold elect_at. rewrite Hre, Edr.
  set (b := bdr_of R D B). set (D' := upd D i (d =? i)). set (B' := upd B i (b =? i)).
  assert (Hbi : b <> i).
  { intros Eb. assert (Hb : b <> 0) by (rewrite Eb; by apply eligible_nonzero).
    apply bdr_some in Hb as [_ Hb]. fold b in Hb. congruence. }
  assert (Ed : best R D' = d).
  { apply best_subset; [done| |].
    - fold d. unfold D', upd. by destruct (Z.eqb_spec d i).
    - intros a _. unfold D', upd. destruct (Z.eqb_spec a i) as [->|]; [|done].
      intros E%Z.eqb_eq. by rewrite <- E. }
  f_equal; [unfold dr_of; rewrite Ed; by destruct (Z.eqb_spec d 0)|].
  unfold bdr_of. assert (best R (fun a => negb (D' a) && B' a) = 0) as ->.
  { apply best_none. intros a Ha. unfold D', B', upd. destruct (Z.eqb_spec a i) as [->|].
    - destruct (Z.eqb_spec b i); [done|]. apply andb_false_r.
    - by apply (proj1 (best_none _) H0 a). }
  simpl. apply best_ext. intros a Ha. unfold D', upd. destruct (Z.eqb_spec a i) as [->|].
  - rewrite orb_true_r. destruct (Z.eqb_spec d i); [congruence|done].
  - by rewrite orb_false_r.
Qed.

(** Nobody declares itself designated: the backup takes over. *)
Lemma elect_promoted D B s :
  best R D = 0 -> let m := bdr_of R D B in m <> 0 -> s <> ISM_DR ->
  elect_at R D B m s = (m, bdr_of R (fun a => a =? m) B).
Proof.
  intros H0 m Hm Hs. destruct (bdr_some D B Hm) as [He HD]. fold m in He, HD.
  assert (Edr : dr_of R D B = m) by (unfold dr_of; by rewrite H0).
  unfold elect_at. rewrite Edr. fold m.
  assert (reelects s (role m m m) = true) as ->.
  { unfold role, reelects. rewrite Z.eqb_refl. unfold ism_is at 2. simpl. rewrite andb_true_r.
    unfold ism_is. by rewrite bool_decide_eq_false_2. }
  rewrite Z.eqb_refl. set (D' := upd D m true).
  assert (HD' : forall a, eligible a -> D' a = (a =? m)).
  { intros a Ha. unfold D', upd. destruct (Z.eqb_spec a m); [done|]. by apply (proj1 (best_none D) H0). }
  f_equal.
  - unfold dr_of. rewrite (best_single D' m); [by destruct (Z.eqb_spec m 0)|done| |].
    + rewrite HD' by done. apply Z.eqb_refl.
    + intros a Ha. rewrite HD' by done. lia.
  - apply bdr_ext; [done|]. intros a Ha. rewrite HD' by done. unfold upd.
    destruct (Z.eqb_spec a m); done.
Qed.

Lemma elect_other D B i s :
  best R D = 0 -> let m := bdr_of R D B in m <> 0 -> i <> m ->
  elect_at R D B i s = (m, m).
Proof.
  intros H0 m Hm Hi. assert (Edr : dr_of R D B = m) by (unfold dr_of; by rewrite H0).
  unfold elect_at. rewrite Edr. fold m. case_bool; [|done].
  destruct (Z.eqb_spec m i) as [|_]; [congruence|].
  assert (H0' : forall a, eligible a -> upd D i false a = D a).
  { intros a Ha. unfold upd. case_bool; [|done]. symmetry. by apply (proj1 (best_none D) H0). }
  assert (Hb : bdr_of R (upd D i false) (upd B i false) = m).
  { rewrite (bdr_ext _ D _ (upd B i (bdr_of R D B =? i))); [apply bdr_stable_upd|done|].
    intros a _ _. unfold upd. fold m. by destruct (Z.eqb_spec m i). }
  unfold dr_of. rewrite Hb. rewrite (best_ext _ D H0'), H0. done.
Qed.
(** ** Rounds *)

(** Whether [i] declares itself designated, loses, and nobody is backup. *)
Lemma loser_cases D B i :
  (eligible i /\ D i = true /\ i <> best R D /\ best R (fun a => negb (D a) && B a) = 0)
  \/ (eligible i -> D i = true -> i <> best R D -> best R (fun a => negb (D a) && B a) <> 0).
Proof.
  destruct (eligible_cases i); [|by right].
  destruct (D i); [|by right]. destruct (Z.eq_dec i (best R D)); [by right|].
  destruct (Z.eq_dec (best R (fun a => negb (D a) && B a)) 0); [by left|by right].
Qed.

Lemma round_unchanged_declared D B D1 B1 i :
  best R D <> 0 ->
  (eligible i -> D i = true -> i <> best R D -> best R (fun a => negb (D a) && B a) <> 0) ->
  D1 i = (best R D =? i) -> B1 i = (bdr_of R D B =? i) ->
  (forall a, eligible a -> a <> i -> D1 a = D a /\ B1 a = B a) ->
  bdr_of R D1 B1 = bdr_of R D B.
Proof.
  intros Hn H HD1i HB1i Hun. destruct (best_some D Hn) as [Hd HDd].
  destruct (eligible_cases i) as [He|He].
  2:{ apply bdr_ext; intros a Ha; [|intros _]; apply Hun; try done; congruence. }
  destruct (D i) eqn:HDi, (Z.eqb_spec (best R D) i) as [Ei|Ei];
    [| |by rewrite Ei, HDi in HDd|].
  2:{ (* it declared itself, and a backup is declared *)
    specialize (H He eq_refl (not_eq_sym Ei)). unfold bdr_of in HB1i |- *.
    set (b0 := best R (fun a => negb (D a) && B a)) in *.
    destruct (best_some _ H) as [Hb0 Hb1]. fold b0 in Hb0, Hb1. bool_to_prop.
    assert (Hbi : b0 <> i) by congruence.
    destruct (Z.eqb_spec b0 0); [done|].
    assert (Hq : best R (fun a => negb (D1 a) && B1 a) = b0).
    { destruct (Hun b0 Hb0 Hbi) as [E1 E2]. apply best_subset; [done|fold b0; rewrite E1, E2, H0; done|].
      intros a Ha. destruct (Z.eq_dec a i) as [->|Hne].
      - rewrite HB1i. destruct (Z.eqb_spec b0 i); [done|]. by rewrite andb_false_r.
      - destruct (Hun a Ha Hne) as [-> ->]. done. }
    rewrite Hq. by destruct (Z.eqb_spec b0 0). }
  all: assert (HDD : forall a, eligible a -> D1 a = D a) by
    (intros a Ha; destruct (Z.eq_dec a i) as [->|Hne]; [congruence|by apply Hun]).
  all: rewrite (bdr_ext D1 D B1 B1) by done; apply bdr_stable.
  all: try (intros a Ha HDa HBa; destruct (Z.eq_dec a i) as [->|Hne];
    [right; rewrite HB1i in HBa; lia|left; by rewrite <- (proj2 (Hun a Ha Hne))]).
  all: intros Hb; destruct (Z.eq_dec (bdr_of R D B) i) as [Eb|Hne];
    [left; rewrite Eb, HB1i; lia|].
  all: rewrite (proj2 (Hun _ (proj1 (bdr_some D B Hb)) Hne)); by apply bdr_declared.
Qed.

(** After a round every router declares the same designated router. *)
Lemma round_dr D B i s :
  ism_is s ISM_DR = D i -> fst (elect_at R D B i s) = dr_of R D B.
Proof.
  intros Hs. unfold dr_of. destruct (Z.eqb_spec (best R D) 0) as [H0|Hn].
  - destruct (Z.eq_dec (bdr_of R D B) 0) as [E|E].
    + rewrite elect_nobody; [done|]. apply (dr_none D B). unfold dr_of. by rewrite H0.
    + destruct (Z.eq_dec i (bdr_of R D B)) as [->|Hi]; [|by rewrite elect_other].
      rewrite elect_promoted; [done..|]. intros ->. destruct (bdr_some D B E) as [_ HD].
      rewrite HD in Hs. done.
  - destruct (loser_cases D B i) as [(He & HDi & Hi & H0)|H]; [|by rewrite elect_declared].
    rewrite HDi in Hs. unfold ism_is in Hs. apply bool_decide_eq_true in Hs as ->.
    by rewrite elect_loser.
Qed.

(** Once it is agreed, everybody elects the same backup. *)
Lemma elect_settled D B d i s :
  d = 0 /\ (forall a, ~ eligible a) \/ eligible d ->
  (forall a, eligible a -> D a = (d =? a)) ->
  elect_at R D B i s = (d, bdr_of R D B).
Proof.
  intros [[-> Hno]|Hd] HD.
  - rewrite elect_nobody by done. f_equal. symmetry. apply bdr_none. intros a Ha. by destruct (Hno a).
  - assert (Ed : best R D = d).
    { apply best_single; [done|by rewrite HD, Z.eqb_refl|]. intros a Ha. rewrite HD by done. lia. }
    rewrite elect_declared; rewrite ?Ed; [done|by apply eligible_nonzero|].
    intros Hi. rewrite HD by done. intros E%Z.eqb_eq. congruence.
Qed.

(** A router that no change of the others makes elect again already declares
    the backup that they elect. *)
Lemma round_unchanged D B D1 B1 i s :
  ism_is s ISM_DR = D i ->
  D1 i = (dr_of R D B =? i) -> B1 i = (snd (elect_at R D B i s) =? i) ->
  (forall a, eligible a -> D1 a = (dr_of R D B =? a)) ->
  (forall a, eligible a -> a <> i -> D1 a = D a /\ B1 a = B a) ->
  snd (elect_at R D B i s) = bdr_of R D1 B1.
Proof.
  intros Hs HD1i HB1i HD1 Hun. set (d := dr_of R D B) in *.
  destruct (Z.eq_dec (best R D) 0) as [H0|Hn].
  - destruct (Z.eq_dec (bdr_of R D B) 0) as [E|E].
    + assert (Hno : forall a, ~ eligible a) by (apply (dr_none D B); unfold dr_of; by rewrite H0).
      rewrite elect_nobody by done. symmetry. apply bdr_none. intros a Ha. by destruct (Hno a).
    + destruct (bdr_some D B E) as [He HD]. assert (Edm : d = bdr_of R D B) by (unfold d, dr_of; by rewrite H0).
      destruct (Z.eq_dec i (bdr_of R D B)) as [Ei|Hi].
      * subst i. rewrite elect_promoted; [|done..|intros ->; by rewrite HD in Hs].
        simpl. apply bdr_ext.
        -- intros a Ha. rewrite HD1, Edm by done. apply Z.eqb_sym.
        -- intros a Ha Hne. symmetry. apply Hun; [done|]. lia.
      * exfalso. destruct (Hun (bdr_of R D B) He) as [E1 _]; [congruence|].
        rewrite HD1, HD, Edm, Z.eqb_refl in E1 by done. done.
  - assert (Ed : d = best R D) by (unfold d, dr_of; by destruct (Z.eqb_spec (best R D) 0)).
    destruct (loser_cases D B i) as [(He & HDi & Hi & H0)|H].
    + rewrite HDi in Hs. unfold ism_is in Hs. apply bool_decide_eq_true in Hs as ->.
      rewrite elect_loser in * by done. simpl in *.
      set (bi := best R (fun a => negb (D a) || (a =? i))) in *.
      assert (Hbi : bdr_of R D1 (fun _ => false) = bi).
      { unfold bdr_of. assert (best R (fun a => negb (D1 a) && false) = 0) as ->.
        { apply best_none. intros. apply andb_false_r. }
        apply best_ext. intros a Ha. destruct (Z.eqb_spec a i) as [->|Hne].
        - rewrite orb_true_r, HD1i. destruct (Z.eqb_spec d i); [congruence|done].
        - by rewrite orb_false_r, (proj1 (Hun a Ha Hne)). }
      rewrite <- Hbi. symmetry. apply bdr_stable; [|by right].
      intros a Ha HDa HBa. right. destruct (Z.eqb_spec a i) as [->|Hne].
      * rewrite HB1i in HBa. lia.
      * destruct (Hun a Ha Hne) as [E1 E2]. rewrite E1 in HDa. rewrite E2 in HBa.
        pose proof (proj1 (best_none _) H0 a Ha) as E3. simpl in E3. by rewrite HDa, HBa in E3.
    + rewrite elect_declared in * by done. simpl in *.
      symmetry. apply (round_unchanged_declared D B D1 B1 i); [done..|by rewrite <- Ed|done|done].
Qed.
End agreement.
