(* ===== verification/OspfNsm.v ===== *)
(** * OSPF neighbors: the neighbor state machine and Hello packets
      (ospfd/ospf_nsm.c, ospf_neighbor.c, the Hello part of ospf_packet.c)

    The events of a neighbor are executed on the interface that holds it, since
    they count its full adjacencies, originate its network LSA and make it elect
    designated routers again.  An [assert] of the code that fails gives [Abort].

    The instance, the random number that starts a database exchange
    and the configured intervals are arguments.  Polling of NBMA neighbors, BFD
    sessions and the tables of acknowledgements are left out. *)

From S2P Require Import Prelude OspfLsa OspfIsm.

(** ** Constants *)

Definition OSPF_OPTION_MT : Z := 1.
Definition OSPF_OPTION_E : Z := 2.
Definition OSPF_OPTION_NP : Z := 8.
Definition OSPF_OPTION_O : Z := 64.
Definition OSPF_DD_FLAG_MS : Z := 1.
Definition OSPF_DD_FLAG_M : Z := 2.
Definition OSPF_DD_FLAG_I : Z := 4.
Definition OSPF_AREA_DEFAULT : Z := 0.
Definition OSPF_AREA_STUB : Z := 1.
Definition OSPF_AREA_NSSA : Z := 2.
Definition OSPF_HELLO_MIN_SIZE : Z := 20.
Definition OSPF_DB_DESC_MIN_SIZE : Z := 8.
Definition OSPF_LS_REQ_MIN_SIZE : Z := 0.
Definition OSPF_LSA_KEY_SIZE : Z := 12.
Definition OSPF_OPTION_DC : Z := 32.

(** The configuration that packets carry and check. *)
Record hello_conf := mkHelloConf {
  c_prefixlen : Z;
  c_v_hello : Z;
  c_v_wait : Z;
  c_fast_hello : bool;
  c_opaque : bool;
  c_flood_reduction : bool;
  c_unnumbered : bool;
  c_packet_max : Z;
  c_mtu : Z;
  c_mtu_ignore : bool
}.

(** The instance: its databases and its configuration. *)
Record ospf_instance := mkOspf { o_lsdb : ospf_lsdb; o_conf : hello_conf }.

Definition OPTIONS : ospf_interface -> Z := self_field n_options.

(** ** The lists of a neighbor *)

(** [ospf_ls_retransmit_add]: a more recent instance replaces an older one and
    goes to the end of the list; the timer runs once there is something to
    retransmit. *)
Definition ospf_ls_retransmit_add (l : ospf_lsa) (x : ospf_neighbor) : ospf_neighbor :=
  let old := List.find (fun y => key_of y =? key_of l) (n_ls_rxmt x) in
  if ospf_lsa_more_recent old (Some l) <? 0 then
    let rest := match old with Some o => ospf_lsdb_delete o (n_ls_rxmt x) | None => n_ls_rxmt x end in
    set_n_t_ls_rxmt true (set_n_ls_rxmt (rest ++ [l]) x)
  else x.

Definition ospf_db_summary_add (x : ospf_neighbor) (l : ospf_lsa) : ospf_neighbor :=
  if (ls_type (lsa_data l) =? OSPF_OPAQUE_LINK_LSA) && negb (lsa_this_oi l) then x
  else if lsa_local_xlt l then x
  else if IS_LSA_MAXAGE l then ospf_ls_retransmit_add l x
  else set_n_db_sum (ospf_lsdb_add l (n_db_sum x)) x.

Definition LSDB_LOOP (l : list ospf_lsa) (x : ospf_neighbor) : ospf_neighbor :=
  fold_left ospf_db_summary_add l x.

(** ** Timers *)

Definition nsm_stop_exchange (x : ospf_neighbor) : ospf_neighbor :=
  set_n_t_ls_req false (set_n_t_ls_rxmt false (set_n_t_db_desc false x)).

Definition nsm_timer_set (x : ospf_neighbor) : ospf_neighbor :=
  match n_state x with
  | NSM_Deleted | NSM_Down =>
      nsm_stop_exchange (set_n_t_hello_reply false (set_n_t_inactivity false x))
  | NSM_Attempt | NSM_Init | NSM_TwoWay => nsm_stop_exchange x
  | NSM_ExStart => set_n_t_ls_req false (set_n_t_ls_rxmt false (set_n_t_db_desc true x))
  | NSM_Exchange =>
      if CHECK_FLAG (n_dd_flags x) OSPF_DD_FLAG_MS then x else set_n_t_db_desc false x
  | NSM_Loading | NSM_Full | NSM_DependUpon => set_n_t_db_desc false x
  end.

(** The inactivity timer expires: it is started again for a neighbor that this
    router helps through a restart. *)
Definition ospf_inactivity_timer (n : Z) (oi : ospf_interface) : ospf_interface :=
  let oi := nbr_update n (set_n_t_inactivity false) oi in
  match nbr_find n oi with
  | None => oi
  | Some x =>
      if n_helper x then nbr_update n (set_n_t_inactivity true) oi
      else emit (ScheduleNsm n NSM_InactivityTimer) oi
  end.

(** ** The actions of the state machine *)

Definition nsm_should_adj (x : ospf_neighbor) (oi : ospf_interface) : bool :=
  (oi_type oi =? OSPF_IFTYPE_POINTOPOINT) || (oi_type oi =? OSPF_IFTYPE_POINTOMULTIPOINT)
  || (oi_type oi =? OSPF_IFTYPE_VIRTUALLINK)
  || (oi_address oi =? DR oi) || (oi_address oi =? BDR oi)
  || (n_address x =? DR oi) || (n_address x =? BDR oi).

Definition nsm_hello_received (n : Z) (x : ospf_neighbor) (oi : ospf_interface) :
    nsm_state * ospf_interface :=
  let oi := nbr_update n (set_n_t_inactivity true) oi in
  (NSM_DependUpon, if nsm_ge (n_state x) NSM_Exchange then oi else emit (ProactiveArp n) oi).

Definition nsm_start (n : Z) (oi : ospf_interface) : nsm_state * ospf_interface :=
  (NSM_DependUpon, emit (ProactiveArp n) (nbr_update n (set_n_t_inactivity true) oi)).

Definition nsm_twoway_received (n : Z) (x : ospf_neighbor) (oi : ospf_interface) :
    nsm_state * ospf_interface :=
  if nsm_should_adj x oi then (NSM_ExStart, emit (ProactiveArp n) oi) else (NSM_TwoWay, oi).

(** The databases that are summarised for the neighbor; [normal] says that
    external routes are: not on a virtual link, not in a stub area or NSSA. *)
Definition summarise (db : ospf_lsdb) (normal : bool) (x : ospf_neighbor) : ospf_neighbor :=
  let x := LSDB_LOOP (SUMMARY_LSDB db) (LSDB_LOOP (NETWORK_LSDB db) (LSDB_LOOP (ROUTER_LSDB db) x)) in
  let x := if CHECK_FLAG (n_options x) OSPF_OPTION_O
           then LSDB_LOOP (OPAQUE_AREA_LSDB db) (LSDB_LOOP (OPAQUE_LINK_LSDB db) x) else x in
  let x := if CHECK_FLAG (n_options x) OSPF_OPTION_NP then LSDB_LOOP (NSSA_LSDB db) x else x in
  let x := if normal then LSDB_LOOP (EXTERNAL_LSDB db) (LSDB_LOOP (ASBR_SUMMARY_LSDB db) x) else x in
  if CHECK_FLAG (n_options x) OSPF_OPTION_O && normal then LSDB_LOOP (OPAQUE_AS_LSDB db) x else x.

Definition nsm_negotiation_done (ospf : ospf_instance) (n : Z) (oi : ospf_interface) :
    nsm_state * ospf_interface :=
  let normal := negb (oi_type oi =? OSPF_IFTYPE_VIRTUALLINK)
                && (oi_external_routing oi =? OSPF_AREA_DEFAULT) in
  (NSM_DependUpon, nbr_update n (summarise (o_lsdb ospf) normal) (emit (ProactiveArp n) oi)).

(** [ospf_make_ls_req]: the requests that fit into a packet, and the last one.
    [broken] is the type of LSA whose table was left because the packet is
    full. *)
Fixpoint ls_req_fill (packet_max length : Z) (broken : option Z) (l : list ospf_lsa) : list ospf_lsa :=
  match l with
  | [] => []
  | x :: l' =>
      if bool_decide (broken = Some (ls_type (lsa_data x)))
      then ls_req_fill packet_max length broken l'
      else if packet_max <? length + OSPF_LSA_KEY_SIZE
      then ls_req_fill packet_max length (Some (ls_type (lsa_data x))) l'
      else x :: ls_req_fill packet_max (length + OSPF_LSA_KEY_SIZE) broken l'
  end.

(** A request as it is in a packet: type, identifier and advertising router. *)
Definition ls_request (h : lsa_header) : Z * Z * Z := (ls_type h, ls_id h, ls_adv_router h).

(** [ospf_ls_req_send]: without a request no packet is sent and the timer is not
    started. *)
Definition ospf_ls_req_send (ospf : ospf_instance) (n : Z) (oi : ospf_interface) : ospf_interface :=
  match nbr_find n oi with
  | None => oi
  | Some x =>
      match ls_req_fill (c_packet_max (o_conf ospf)) OSPF_LS_REQ_MIN_SIZE None (n_ls_req x) with
      | [] => oi
      | reqs =>
          nbr_update n (fun x => set_n_t_ls_req true (set_n_ls_req_last (list.last reqs) x))
            (emit (LsReqSend n (map (fun l => ls_request (lsa_data l)) reqs)) oi)
      end
  end.

Definition nsm_exchange_done (ospf : ospf_instance) (n : Z) (x : ospf_neighbor) (oi : ospf_interface) :
    nsm_state * ospf_interface :=
  match n_ls_req x with
  | [] => (NSM_Full, oi)
  | _ => (NSM_Loading, if n_t_ls_req x then oi else ospf_ls_req_send ospf n oi)
  end.

Definition nsm_adj_ok (n : Z) (x : ospf_neighbor) (oi : ospf_interface) :
    nsm_state * ospf_interface :=
  let adj := nsm_should_adj x oi in
  if nsm_is (n_state x) NSM_TwoWay && adj then (NSM_ExStart, emit (ProactiveArp n) oi)
  else if nsm_ge (n_state x) NSM_ExStart && negb adj then (NSM_TwoWay, oi)
  else (n_state x, oi).

Definition nsm_clear_adj (x : ospf_neighbor) : ospf_neighbor :=
  let x := set_n_db_sum [] x in
  let x := match n_ls_req x with [] => x | _ => set_n_ls_req_last None (set_n_ls_req [] x) end in
  let x := match n_ls_rxmt x with
           | [] => x
           | _ => set_n_ls_req_last None (set_n_t_ls_rxmt false (set_n_ls_rxmt [] x))
           end in
  set_n_options (UNSET_FLAG (n_options x) OSPF_OPTION_O) x.

(** The last neighbor that is up takes the packets of the interface with it. *)
Definition nsm_kill_nbr (n : Z) (oi : ospf_interface) : outcome (nsm_state * ospf_interface) :=
  assert! negb (n =? oi_nbr_self oi) ;;
  let others := List.filter (fun y => negb (n_id y =? n) && negb (n_id y =? oi_nbr_self oi)) (oi_nbrs oi) in
  Ret (NSM_DependUpon,
       if existsb (fun y => nsm_num NSM_Down <? nsm_num (n_state y)) others then oi
       else emit FifoFlush oi).

(** ** The table *)

Inductive nsm_func :=
| NF_null | NF_hello_received | NF_start | NF_twoway_received | NF_negotiation_done
| NF_exchange_done | NF_adj_ok | NF_kill_nbr.

Definition NSM (s : nsm_state) (e : nsm_event) : nsm_func * nsm_state :=
  match s, e with
  | (NSM_DependUpon | NSM_Deleted), _ => (NF_null, s)
  | _, NSM_NoEvent => (NF_null, NSM_DependUpon)
  | _, (NSM_KillNbr | NSM_InactivityTimer | NSM_LLDown) => (NF_kill_nbr, NSM_Deleted)
  | (NSM_Down | NSM_Attempt | NSM_Init), NSM_HelloReceived => (NF_hello_received, NSM_Init)
  | _, NSM_HelloReceived => (NF_hello_received, s)
  | NSM_Down, NSM_Start => (NF_start, NSM_Attempt)
  | NSM_Init, NSM_TwoWayReceived => (NF_twoway_received, NSM_DependUpon)
  | NSM_ExStart, NSM_NegotiationDone => (NF_negotiation_done, NSM_Exchange)
  | NSM_Exchange, NSM_ExchangeDone => (NF_exchange_done, NSM_DependUpon)
  | NSM_Loading, NSM_LoadingDone => (NF_null, NSM_Full)
  | (NSM_TwoWay | NSM_ExStart | NSM_Exchange | NSM_Loading | NSM_Full), NSM_AdjOK =>
      (NF_adj_ok, NSM_DependUpon)
  | (NSM_Exchange | NSM_Loading | NSM_Full), (NSM_BadLSReq | NSM_SeqNumberMismatch) =>
      (NF_null, NSM_ExStart)
  | (NSM_TwoWay | NSM_ExStart | NSM_Exchange | NSM_Loading | NSM_Full), NSM_OneWayReceived =>
      (NF_null, NSM_Init)
  | _, _ => (NF_null, s)
  end.

Definition nsm_call (ospf : ospf_instance) (f : nsm_func) (n : Z) (x : ospf_neighbor) (oi : ospf_interface) :
    outcome (nsm_state * ospf_interface) :=
  match f with
  | NF_null => Ret (NSM_DependUpon, oi)
  | NF_hello_received => Ret (nsm_hello_received n x oi)
  | NF_start => Ret (nsm_start n oi)
  | NF_twoway_received => Ret (nsm_twoway_received n x oi)
  | NF_negotiation_done => Ret (nsm_negotiation_done ospf n oi)
  | NF_exchange_done => Ret (nsm_exchange_done ospf n x oi)
  | NF_adj_ok => Ret (nsm_adj_ok n x oi)
  | NF_kill_nbr => nsm_kill_nbr n oi
  end.

(** ** A change of state *)

Definition crosses_twoway (old new : nsm_state) : bool :=
  negb (Bool.eqb (nsm_ge old NSM_TwoWay) (nsm_ge new NSM_TwoWay)).

(** The adjacencies of a virtual link count in its transit area. *)
Definition vl_count (up : bool) (oi : ospf_interface) : ospf_interface :=
  match oi_vl_full oi with
  | Some c =>
      if oi_type oi =? OSPF_IFTYPE_VIRTUALLINK then
        if up then
          let c' := u32 (c + 1) in
          let oi := set_oi_vl_full (Some c') oi in
          if c' =? 1 then emit ScheduleAbrTask oi else oi
        else if 0 <? c then
          let oi := set_oi_vl_full (Some (c - 1)) oi in
          if c - 1 =? 0 then emit ScheduleAbrTask oi else oi
        else oi
      else oi
  | None => oi
  end.

(** The neighbor becomes, or stops being, fully adjacent. *)
Definition nsm_full_change (up helper : bool) (oi : ospf_interface) : ospf_interface :=
  let d := if up then 1 else -1 in
  let oi := set_oi_area_full_nbrs (u32 (oi_area_full_nbrs oi + d))
              (set_oi_full_nbrs (u32 (oi_full_nbrs oi + d)) oi) in
  let oi := vl_count up (emit CheckAbrStatus oi) in
  let oi := if helper then oi else emit RouterLsaUpdate oi in
  let oi := match oi_vl_full oi with
            | Some _ => if oi_type oi =? OSPF_IFTYPE_VIRTUALLINK then emit VlRouterLsaUpdate oi else oi
            | None => oi
            end in
  let oi :=
    if negb helper && ism_is (oi_state oi) ISM_DR then
      if oi_network_lsa_self oi && (oi_full_nbrs oi =? 0) then flush_network_lsa oi
      else ospf_network_lsa_update oi
    else oi in
  if up && oi_restarting oi then emit GrCheckAdjs oi else oi.

(** The database exchange starts over. *)
Definition nsm_start_exchange (rnd : Z) (x : ospf_neighbor) : ospf_neighbor :=
  set_n_dd_flags (Z.lor OSPF_DD_FLAG_I (Z.lor OSPF_DD_FLAG_M OSPF_DD_FLAG_MS))
    (set_n_dd_seqnum (if n_dd_seqnum x =? 0 then rnd else u32 (n_dd_seqnum x + 1)) x).

(** ** Database Description packets *)

(** The header of an LSA with its age of now. *)
Definition adv_header (l : ospf_lsa) : lsa_header :=
  let h := lsa_data l in
  mkLsah (if IS_LSA_AGE_DNA l then SET_FLAG (LS_AGE l) DO_NOT_AGE else LS_AGE l)
    (ls_options h) (ls_type h) (ls_id h) (ls_adv_router h) (ls_seqnum h) (ls_checksum h) (ls_length h).

(** The walk over the summary list: the headers put into the packet, and what is
    left of the list.  A full packet ends the walk of a table, [broken], not of
    the later ones. *)
Fixpoint dd_fill (opaque : bool) (packet_max length : Z) (broken : option Z) (l : list ospf_lsa) :
    list lsa_header * list ospf_lsa :=
  match l with
  | [] => ([], [])
  | x :: l' =>
      let type := ls_type (lsa_data x) in
      if bool_decide (broken = Some type) then
        let '(hs, rest) := dd_fill opaque packet_max length broken l' in (hs, x :: rest)
      else if IS_OPAQUE_LSA type && negb opaque then dd_fill opaque packet_max length broken l'
      else if lsa_discard x then dd_fill opaque packet_max length broken l'
      else if packet_max <? length + OSPF_LSA_HEADER_SIZE then
        let '(hs, rest) := dd_fill opaque packet_max length (Some type) l' in (hs, x :: rest)
      else
        let '(hs, rest) := dd_fill opaque packet_max (length + OSPF_LSA_HEADER_SIZE) broken l' in
        (adv_header x :: hs, rest)
  end.

Definition dd_own_options (c : hello_conf) (oi : ospf_interface) : Z :=
  let options := if c_opaque c then SET_FLAG (OPTIONS oi) OSPF_OPTION_O else OPTIONS oi in
  if c_flood_reduction c then SET_FLAG options OSPF_OPTION_DC else options.

(** [ospf_make_db_desc]: the packet, the flags of the neighbor and the rest of
    its summary list. *)
Definition ospf_make_db_desc (c : hello_conf) (x : ospf_neighbor) (oi : ospf_interface) :
    outcome (ospf_db_desc_packet * Z * list ospf_lsa) :=
  let mtu := if oi_type oi =? OSPF_IFTYPE_VIRTUALLINK then 0 else c_mtu c in
  let options := dd_own_options c oi in
  let '(hs, rest) := dd_fill (CHECK_FLAG options OSPF_OPTION_O) (c_packet_max c)
                       OSPF_DB_DESC_MIN_SIZE None (n_db_sum x) in
  match rest with
  | [] =>
      if nsm_ge (n_state x) NSM_Exchange then
        let flags := UNSET_FLAG (n_dd_flags x) OSPF_DD_FLAG_M in
        Ret (mkDD mtu options flags (n_dd_seqnum x) hs, flags, [])
      else
        assert! CHECK_FLAG (n_dd_flags x) OSPF_DD_FLAG_M ;;
        Ret (mkDD mtu options (n_dd_flags x) (n_dd_seqnum x) hs, n_dd_flags x, [])
  | _ => Ret (mkDD mtu options (n_dd_flags x) (n_dd_seqnum x) hs, n_dd_flags x, rest)
  end.

(** What a sent packet leaves in the neighbor. *)
Definition dd_sent (dd : ospf_db_desc_packet) (flags : Z) (rest : list ospf_lsa) (x : ospf_neighbor) :
    ospf_neighbor :=
  set_n_last_send (Some dd) (set_n_dd_flags flags (set_n_db_sum rest x)).

Definition ospf_db_desc_send (ospf : ospf_instance) (n : Z) (oi : ospf_interface) :
    outcome ospf_interface :=
  match nbr_find n oi with
  | None => Ret oi
  | Some x =>
      '(dd, flags, rest) ← ospf_make_db_desc (o_conf ospf) x oi;
      Ret (nbr_update n (dd_sent dd flags rest) (emit (DbDescSend n dd) oi))
  end.

(** ** A change of state, continued *)

Definition nsm_change_state (ospf : ospf_instance) (rnd n : Z) (x : ospf_neighbor) (state : nsm_state)
    (oi : ospf_interface) : outcome ospf_interface :=
  let old := n_state x in
  let oi := nbr_update n (fun x => set_n_state_change (u32 (n_state_change x + 1)) (set_n_state state x)) oi in
  let oi := match oi_state oi with
            | ISM_DROther | ISM_Backup | ISM_DR =>
                if crosses_twoway old state then ism_event_local ISM_NeighborChange oi else oi
            | _ => oi
            end in
  let oi := if negb (Bool.eqb (nsm_is old NSM_Full) (nsm_is state NSM_Full))
            then nsm_full_change (nsm_is state NSM_Full) (n_helper x) oi else oi in
  let oi := emit (OpaqueNsmChange n old) oi in
  let oi := if (nsm_num NSM_ExStart <? nsm_num old) && (nsm_num state <=? nsm_num NSM_ExStart)
            then nbr_update n nsm_clear_adj oi else oi in
  oi ← (if nsm_is state NSM_ExStart
        then ospf_db_desc_send ospf n (nbr_update n (nsm_start_exchange rnd) oi)
        else Ret oi);
  Ret (if nsm_is state NSM_Down then nbr_update n (set_n_crypt_seqnum 0) oi else oi).

Definition ospf_nbr_delete (n : Z) (oi : ospf_interface) : ospf_interface :=
  set_oi_nbrs (List.filter (fun x => negb (n_id x =? n)) (oi_nbrs oi)) oi.

(** [ospf_nsm_event].  An event for a neighbor that is gone was cancelled. *)
Definition ospf_nsm_event (ospf : ospf_instance) (rnd n : Z) (e : nsm_event) (oi : ospf_interface) :
    outcome ospf_interface :=
  match nbr_find n oi with
  | None => Ret oi
  | Some x =>
      let '(f, table_state) := NSM (n_state x) e in
      '(func_state, oi) ← nsm_call ospf f n x oi;
      let next := match f with
                  | NF_null => table_state
                  | _ => if nsm_is table_state NSM_DependUpon then func_state else table_state
                  end in
      assert! negb (nsm_is next NSM_DependUpon) ;;
      oi ← (if nsm_is next (n_state x) then Ret oi else nsm_change_state ospf rnd n x next oi);
      let oi := nbr_update n nsm_timer_set oi in
      Ret (if nsm_is next NSM_Deleted then ospf_nbr_delete n oi else oi)
  end.

(** ** The table of neighbors *)

(** Entries are kept in the order of their keys. *)
Fixpoint nbr_insert (x : ospf_neighbor) (l : list ospf_neighbor) : list ospf_neighbor :=
  match l with
  | [] => [x]
  | y :: l' => if n_id x <? n_id y then x :: l else y :: nbr_insert x l'
  end.

Definition by_router_id (oi : ospf_interface) : bool :=
  (oi_type oi =? OSPF_IFTYPE_VIRTUALLINK) || (oi_type oi =? OSPF_IFTYPE_POINTOPOINT).

Definition ospf_nbr_new (key : Z) : ospf_neighbor :=
  mkNbr key 0 0 (-1) 0 0 NSM_Down 0 0 (Z.lor OSPF_DD_FLAG_MS (Z.lor OSPF_DD_FLAG_M OSPF_DD_FLAG_I))
    [] [] [] None (mkReceived 0 0 0) None false false false false false 0 0 false.

(** [crypt] is the sequence number of a packet with cryptographic
    authentication. *)
Definition ospf_nbr_add (key src : Z) (crypt : option Z) : ospf_neighbor :=
  let x := set_n_address src (ospf_nbr_new key) in
  match crypt with Some c => set_n_crypt_seqnum c x | None => x end.

(** [ospf_nbr_get]: the key of the neighbor, and the table with its entry. *)
Definition ospf_nbr_get (router_id src : Z) (crypt : option Z) (oi : ospf_interface) :
    Z * ospf_interface :=
  let key := if by_router_id oi then router_id else src in
  let oi := match nbr_find key oi with
            | Some x =>
                if OSPF_IF_NON_BROADCAST oi && nsm_is (n_state x) NSM_Attempt
                then nbr_update key (set_n_address src) oi else oi
            | None => set_oi_nbrs (nbr_insert (ospf_nbr_add key src crypt) (oi_nbrs oi)) oi
            end in
  (key, nbr_update key (set_n_router_id router_id) oi).

(** [ospf_nbr_self_reset], [ospf_nbr_add_self], once no neighbor is left. *)
Definition ospf_nbr_add_self (oi : ospf_interface) : ospf_interface :=
  let key := if by_router_id oi then oi_router_id oi else oi_address oi in
  let options := if oi_external_routing oi =? OSPF_AREA_DEFAULT then OSPF_OPTION_E
                 else if oi_external_routing oi =? OSPF_AREA_NSSA then OSPF_OPTION_NP else 0 in
  let x := set_n_options options (set_n_state NSM_TwoWay
             (set_n_router_id (oi_router_id oi) (set_n_priority (oi_priority oi)
               (set_n_address (oi_address oi) (ospf_nbr_new key))))) in
  let oi := set_oi_nbr_self key oi in
  match nbr_find key oi with
  | Some _ => oi
  | None => set_oi_nbrs (nbr_insert x (oi_nbrs oi)) oi
  end.

Definition ospf_nbr_self_reset (oi : ospf_interface) : ospf_interface :=
  ospf_nbr_add_self (ospf_nbr_delete (oi_nbr_self oi) oi).

(** ** The interface goes down *)

Fixpoint kill_all (ospf : ospf_instance) (rnd : Z) (ids : list Z) (oi : ospf_interface) : outcome ospf_interface :=
  match ids with
  | [] => Ret oi
  | n :: ids' =>
      oi ← ospf_nsm_event ospf rnd n NSM_KillNbr oi;
      kill_all ospf rnd ids' oi
  end.

Definition ospf_if_cleanup (ospf : ospf_instance) (rnd : Z) (oi : ospf_interface) : outcome ospf_interface :=
  let ids := List.filter (fun n => negb (n =? oi_nbr_self oi)) (map n_id (oi_nbrs oi)) in
  oi ← kill_all ospf rnd ids oi;
  Ret (ospf_nbr_self_reset oi).

(** [ospf_ism_event], for every event. *)
Definition ospf_ism_event (ospf : ospf_instance) (rnd : Z) (e : ism_event) (oi : ospf_interface) :
    outcome ospf_interface :=
  match fst (ISM (oi_state oi) e) with
  | F_interface_down =>
      oi ← ospf_if_cleanup ospf rnd oi;
      Ret (ism_finish e ISM_DependUpon oi)
  | _ => Ret (ism_event_local e oi)
  end.

(** ** Hello packets *)

Record ospf_hello_packet := mkHello {
  h_src : Z;
  h_router_id : Z;
  h_masklen : Z;
  h_hello_interval : Z;
  h_dead_interval : Z;
  h_options : Z;
  h_priority : Z;
  h_d_router : Z;
  h_bd_router : Z;
  h_neighbors : list Z;
  h_crypt : option Z
}.

(** The neighbors that the Hello lists; [None] when the packet gets too long. *)
Fixpoint hello_neighbors (packet_max length : Z) (oi : ospf_interface) (l : list ospf_neighbor) :
    option (list Z) :=
  match l with
  | [] => Some []
  | x :: l' =>
      if (n_router_id x =? 0) || nsm_is (n_state x) NSM_Attempt || nsm_is (n_state x) NSM_Down
         || (n_router_id x =? oi_router_id oi)
      then hello_neighbors packet_max length oi l'
      else if packet_max <? length + 4 then None
      else cons (n_router_id x) <$> hello_neighbors packet_max (length + 4) oi l'
  end.

(** Some listed neighbor takes this router for both designated routers. *)
Definition seen_as_both (oi : ospf_interface) (x : ospf_neighbor) : bool :=
  negb ((n_router_id x =? 0) || nsm_is (n_state x) NSM_Attempt || nsm_is (n_state x) NSM_Down
        || (n_router_id x =? oi_router_id oi))
  && negb (n_d_router x =? 0) && (n_d_router x =? oi_address oi) && (n_bd_router x =? oi_address oi).

(** [ospf_make_hello]: the packet and the interface, whose options follow the
    flood reduction configuration. *)
Definition ospf_make_hello (c : hello_conf) (crypt : option Z) (oi : ospf_interface) :
    option ospf_hello_packet * ospf_interface :=
  let options := if c_flood_reduction c then Z.lor (OPTIONS oi) OSPF_OPTION_DC
                 else UNSET_FLAG (OPTIONS oi) OSPF_OPTION_DC in
  let oi := nbr_update (oi_nbr_self oi) (set_n_options options) oi in
  let masklen := if negb (c_unnumbered c && (oi_type oi =? OSPF_IFTYPE_POINTOPOINT))
                    && negb (oi_type oi =? OSPF_IFTYPE_VIRTUALLINK) then c_prefixlen c else 0 in
  (ns ← hello_neighbors (c_packet_max c) OSPF_HELLO_MIN_SIZE oi (oi_nbrs oi);
   Some (mkHello (oi_address oi) (oi_router_id oi) masklen
           (if c_fast_hello c then 0 else c_v_hello c) (c_v_wait c) options (PRIORITY oi) (DR oi)
           (if existsb (seen_as_both oi) (oi_nbrs oi) then 0 else BDR oi) ns crypt),
   oi).

(** The tests that drop a Hello, and the options that it is taken to have. *)
Definition hello_accepted (c : hello_conf) (h : ospf_hello_packet) (oi : ospf_interface) : option Z :=
  if h_router_id h =? oi_router_id oi then None
  else if negb (oi_type oi =? OSPF_IFTYPE_POINTOPOINT) && negb (oi_type oi =? OSPF_IFTYPE_VIRTUALLINK)
          && negb ((oi_type oi =? OSPF_IFTYPE_POINTOMULTIPOINT) && (c_prefixlen c =? 32))
          && negb (c_prefixlen c =? h_masklen h) then None
  else if negb (c_v_wait c =? h_dead_interval h) then None
  else if negb (c_fast_hello c) && negb (c_v_hello c =? h_hello_interval h) then None
  else if CHECK_FLAG (h_options h) OSPF_OPTION_MT then None
  else
    let options := if c_opaque c && CHECK_FLAG (h_options h) OSPF_OPTION_O
                   then UNSET_FLAG (h_options h) OSPF_OPTION_O else h_options h in
    if oi_external_routing oi =? OSPF_AREA_NSSA then
      if CHECK_FLAG (OPTIONS oi) OSPF_OPTION_NP && CHECK_FLAG options OSPF_OPTION_NP
         && negb (CHECK_FLAG (OPTIONS oi) OSPF_OPTION_E) && negb (CHECK_FLAG options OSPF_OPTION_E)
      then Some options else None
    else if negb (Bool.eqb (CHECK_FLAG (OPTIONS oi) OSPF_OPTION_E) (CHECK_FLAG options OSPF_OPTION_E))
    then None
    else Some options.

(** What the neighbor declares is written down. *)
Definition set_declared (h : ospf_hello_packet) (x : ospf_neighbor) : ospf_neighbor :=
  set_n_bd_router (h_bd_router h) (set_n_d_router (h_d_router h) (set_n_priority (h_priority h) x)).

(** The interface events that a Hello from [x] causes. *)
Definition hello_ism_events (h : ospf_hello_packet) (x : ospf_neighbor) (oi : ospf_interface) :
    list ism_event :=
  let addr := n_address x in
  (if (addr =? h_d_router h) && (h_bd_router h =? 0) && ism_is (oi_state oi) ISM_Waiting
   then [ISM_BackupSeen] else [])
  ++ (if ism_is (oi_state oi) ISM_Waiting && (addr =? h_bd_router h) then [ISM_BackupSeen] else [])
  ++ (if negb (Bool.eqb (addr =? h_d_router h) (addr =? n_d_router x)) then [ISM_NeighborChange] else [])
  ++ (if negb (Bool.eqb (addr =? h_bd_router h) (addr =? n_bd_router x)) then [ISM_NeighborChange] else [])
  ++ (if (0 <=? n_priority x) && negb (n_priority x =? h_priority h) then [ISM_NeighborChange] else []).

Definition emit_all (l : list effect) (oi : ospf_interface) : ospf_interface :=
  set_oi_out (oi_out oi ++ l) oi.

(** [ospf_hello]. *)
Definition ospf_hello (c : hello_conf) (h : ospf_hello_packet) (oi : ospf_interface) : ospf_interface :=
  match hello_accepted c h oi with
  | None => oi
  | Some options =>
      let '(n, oi) := ospf_nbr_get (h_router_id h) (h_src h) (h_crypt h) oi in
      match nbr_find n oi with
      | None => oi
      | Some x =>
          let oi := emit (ScheduleNsm n NSM_HelloReceived) oi in
          let oi := if (oi_type oi =? OSPF_IFTYPE_NBMA) && (PRIORITY oi =? 0) && (0 <? h_priority h)
                       && negb (DR oi =? h_src h) && negb (BDR oi =? h_src h)
                    then nbr_update n (set_n_t_hello_reply true) oi else oi in
          if (oi_type oi =? OSPF_IFTYPE_NBMA)
             && (nsm_is (n_state x) NSM_Down || nsm_is (n_state x) NSM_Attempt) then
            nbr_update n (set_declared h) (emit (ScheduleNsm n NSM_OneWayReceived) oi)
          else if bool_decide (oi_router_id oi ∈ h_neighbors h) then
            let oi := nbr_update n (fun x => set_n_options (Z.lor (n_options x) options) x)
                        (emit (ScheduleNsm n NSM_TwoWayReceived) oi) in
            let oi := if n_helper x then oi else emit_all (map ScheduleIsm (hello_ism_events h x oi)) oi in
            let oi := nbr_update n (set_declared h) oi in
            if oi_restarting oi && ism_is (oi_state oi) ISM_Waiting && (h_d_router h =? oi_address oi)
            then set_DR (h_d_router h) oi else oi
          else
            let oi := if n_helper x then oi else emit (ScheduleNsm n NSM_OneWayReceived) oi in
            nbr_update n (set_declared h) oi
      end
  end.
