(* ===== verification/OspfStation.v ===== *)
(** * One router of a broadcast network

    Looking up a neighbor after an update, and that the packet sent when a
    neighbor enters ExStart never fails the assertion of [ospf_make_db_desc].

    An interface whose neighbors are all at least 2-Way: what its election
    computes from the bits that the neighbors declare ([bits]), and that neighbor
    events leave everything that the election looks at alone ([same]). *)
From S2P Require Import Prelude OspfLsa OspfIsm OspfElection OspfNsm.

Lemma nbr_find_update n f oi :
  (forall x, n_id (f x) = n_id x) -> nbr_find n (nbr_update n f oi) = f <$> nbr_find n oi.
Proof. intros Hf. unfold nbr_find, nbr_update. by apply find_map_id. Qed.

Lemma nbr_find_emit n e oi : nbr_find n (emit e oi) = nbr_find n oi.
Proof. done. Qed.

Lemma make_db_desc_more c x oi :
  CHECK_FLAG (n_dd_flags x) OSPF_DD_FLAG_M = true ->
  exists dd flags rest, ospf_make_db_desc c x oi = Ret (dd, flags, rest).
Proof.
  intros H. unfold ospf_make_db_desc. destruct (dd_fill _ _ _ _ _) as [hs [|l rest]]; [|eauto].
  case_bool; [eauto|]. rewrite H. eauto.
Qed.

(** The first packet of an exchange. *)
Lemma start_exchange_send ospf rnd n oi :
  exists oi', ospf_db_desc_send ospf n (nbr_update n (nsm_start_exchange rnd) oi) = Ret oi'
    /\ (oi' = nbr_update n (nsm_start_exchange rnd) oi
        \/ exists dd flags rest,
             oi' = nbr_update n (dd_sent dd flags rest)
                     (emit (DbDescSend n dd) (nbr_update n (nsm_start_exchange rnd) oi))).
Proof.
  unfold ospf_db_desc_send. rewrite nbr_find_update by done.
  destruct (nbr_find n oi) as [x|]; [|eauto]. cbn [fmap option_fmap option_map].
  destruct (make_db_desc_more (o_conf ospf) (nsm_start_exchange rnd x)
              (nbr_update n (nsm_start_exchange rnd) oi) eq_refl) as (dd & flags & rest & ->).
  cbn. eauto 10.
Qed.

(** With nothing to describe the list stays empty. *)
Lemma start_exchange_send_empty ospf rnd n x oi :
  nbr_find n oi = Some x -> n_db_sum x = [] ->
  exists dd flags,
    ospf_db_desc_send ospf n (nbr_update n (nsm_start_exchange rnd) oi)
    = Ret (nbr_update n (dd_sent dd flags [])
             (emit (DbDescSend n dd) (nbr_update n (nsm_start_exchange rnd) oi))).
Proof.
  intros Hx He. unfold ospf_db_desc_send. rewrite nbr_find_update, Hx by done.
  cbn [fmap option_fmap option_map]. unfold ospf_make_db_desc.
  change (n_db_sum (nsm_start_exchange rnd x)) with (n_db_sum x). rewrite He. cbn [dd_fill].
  case_bool; cbn; eauto.
Qed.

Lemma clear_adj_lists x :
  n_db_sum (nsm_clear_adj x) = [] /\ n_ls_req (nsm_clear_adj x) = [] /\ n_ls_rxmt (nsm_clear_adj x) = [].
Proof.
  unfold nsm_clear_adj. cbv zeta. destruct (n_ls_req (set_n_db_sum [] x)) eqn:E1; cbn in E1; cbn;
    destruct (n_ls_rxmt x) eqn:E2; cbn; auto.
Qed.

Lemma clear_adj_other x :
  n_id (nsm_clear_adj x) = n_id x /\ n_state (nsm_clear_adj x) = n_state x
  /\ n_helper (nsm_clear_adj x) = n_helper x.
Proof.
  unfold nsm_clear_adj. cbv zeta. destruct (n_ls_req (set_n_db_sum [] x)); cbn;
    destruct (n_ls_rxmt x); cbn; auto.
Qed.

(** ** The routers of the network *)

(** [R] lists the routers, as entries of a neighbor table; the key of an entry
    on a broadcast network is its address. *)
Record network (R : list ospf_neighbor) : Prop := mkNetwork {
  net_addresses : NoDup (map n_address R);
  net_router_ids : NoDup (map n_router_id R);
  net_nonzero : Forall (fun x => n_address x <> 0) R;
  net_router_id_nonzero : Forall (fun x => n_router_id x <> 0) R;
  net_keys : Forall (fun x => n_id x = n_address x) R
}.

(** An entry that is up. *)
Definition entry_up (x : ospf_neighbor) : Prop :=
  nsm_ge (n_state x) NSM_TwoWay = true /\ n_helper x = false.

(** [oi] is the interface of one of the routers, with all of them in its table. *)
Record member (R : list ospf_neighbor) (oi : ospf_interface) : Prop := mkMember {
  mem_type : oi_type oi = OSPF_IFTYPE_BROADCAST;
  mem_self : oi_nbr_self oi = oi_address oi;
  mem_in : (oi_address oi, oi_router_id oi) ∈ map (fun x => (n_address x, n_router_id x)) R;
  mem_table : map ident (oi_nbrs oi) = map ident R;
  mem_up : Forall entry_up (oi_nbrs oi);
  mem_restarting : oi_restarting oi = false;
  mem_area : oi_external_routing oi = OSPF_AREA_DEFAULT;
  mem_options : CHECK_FLAG (OPTIONS oi) OSPF_OPTION_E = true
                /\ CHECK_FLAG (OPTIONS oi) OSPF_OPTION_MT = false
}.

(** Which routers declare themselves in the table of [oi]. *)
Definition bits (D B : Z -> bool) (oi : ospf_interface) : Prop :=
  Forall (fun x => NBR_IS_DR x = D (n_address x) /\ NBR_IS_BDR x = B (n_address x)) (oi_nbrs oi).

Lemma map_ident_lookup l R x :
  map ident l = map ident R -> x ∈ l -> exists y, y ∈ R /\ ident x = ident y.
Proof.
  intros E Hx. assert (H : ident x ∈ map ident l) by (apply list_elem_of_In, in_map; by apply list_elem_of_In).
  rewrite E in H. apply list_elem_of_In, in_map_iff in H as (y & Ey & Hy).
  exists y. by rewrite list_elem_of_In.
Qed.

Lemma filter_ident (p q : ospf_neighbor -> bool) : forall l R,
  map ident l = map ident R ->
  (forall x y, x ∈ l -> y ∈ R -> ident x = ident y -> p x = q y) ->
  map ident (List.filter p l) = map ident (List.filter q R).
Proof.
  induction l as [|x l IH]; intros [|y R] E H; try done.
  assert (E1 : ident x = ident y) by (cbn [map] in E; congruence).
  assert (E2 : map ident l = map ident R) by (cbn [map] in E; congruence).
  cbn [List.filter]. rewrite (H x y) by (done || left).
  assert (IH' := IH R E2 ltac:(intros; apply H; try done; by right)).
  destruct (q y); cbn [map]; [by f_equal|done].
Qed.

Lemma el_ident x y : ident x = ident y -> el x = el y.
Proof. unfold ident, el. intros E. by injection E as _ _ -> ->. Qed.

(** The best router of a part of the table. *)
Lemma best_table R oi (p : ospf_neighbor -> bool) P :
  member R oi ->
  (forall x, x ∈ oi_nbrs oi -> p x = el x && P (n_address x)) ->
  router_addr (ospf_dr_election_sub (List.filter p (oi_nbrs oi))) = best R P.
Proof.
  intros Hm Hp. apply election_sub_ident, filter_ident; [apply Hm|].
  intros x y Hx _ E. rewrite Hp by done. rewrite (el_ident x y E).
  unfold ident in E. by injection E as _ -> _ _.
Qed.

Lemma eligible_up oi x :
  Forall entry_up (oi_nbrs oi) -> x ∈ oi_nbrs oi ->
  negb (n_router_id x =? 0) && (0 <? n_priority x) && nsm_ge (n_state x) NSM_TwoWay = el x.
Proof.
  intros Hu Hx. rewrite Forall_forall in Hu. apply list_elem_of_In in Hx.
  destruct (Hu x Hx) as [-> _]. by rewrite andb_true_r.
Qed.

Lemma bits_at D B oi x :
  bits D B oi -> x ∈ oi_nbrs oi -> NBR_IS_DR x = D (n_address x) /\ NBR_IS_BDR x = B (n_address x).
Proof. unfold bits. rewrite Forall_forall. intros H Hx. apply list_elem_of_In in Hx. auto. Qed.

Lemma router_addr_nonzero l x :
  Forall (fun x => n_address x <> 0) l -> ospf_dr_election_sub l = Some x -> n_address x <> 0.
Proof.
  intros H E%election_sub_best. destruct E as [E _]. rewrite Forall_forall in H.
  apply list_elem_of_In in E. auto.
Qed.

Lemma sub_nil_iff l : ospf_dr_election_sub l = None <-> l = [].
Proof. by destruct l. Qed.

(** A choice between a list and another one that is used when it is empty. *)
Lemma sub_or (l : list ospf_neighbor) (o : option ospf_neighbor) :
  Forall (fun x => n_address x <> 0) l ->
  router_addr (match l with [] => o | _ => ospf_dr_election_sub l end)
  = if router_addr (ospf_dr_election_sub l) =? 0 then router_addr o else router_addr (ospf_dr_election_sub l).
Proof.
  intros H. destruct l as [|a l]; [done|].
  destruct (ospf_dr_election_sub (a :: l)) as [x|] eqn:E; [|done].
  apply router_addr_nonzero in E; [|done]. cbn [router_addr]. by destruct (Z.eqb_spec (n_address x) 0).
Qed.

Lemma nbrs_nonzero R oi p :
  network R -> member R oi -> Forall (fun x => n_address x <> 0) (List.filter p (oi_nbrs oi)).
Proof.
  intros Hn Hm. apply Forall_forall. intros x Hx. apply filter_In in Hx as [Hx _].
  apply list_elem_of_In in Hx.
  destruct (map_ident_lookup _ R x (mem_table _ _ Hm) Hx) as (y & Hy & E).
  pose proof (net_nonzero _ Hn) as Hz. rewrite Forall_forall in Hz. apply list_elem_of_In in Hy.
  unfold ident in E. injection E as _ -> _ _. auto.
Qed.

(** ** The table elects what the declared bits say *)

Lemma filter_filter_and {A} (p q : A -> bool) l :
  List.filter p (List.filter q l) = List.filter (fun x => q x && p x) l.
Proof. apply filter_filter. Qed.

Lemma elected_bdr_table R D B oi :
  network R -> member R oi -> bits D B oi -> elected_bdr (oi_nbrs oi) = bdr_of R D B.
Proof.
  intros Hn Hm Hb. unfold elected_bdr, declared_bdr, not_dr, eligible_routers.
  rewrite !filter_filter. rewrite sub_or by by eapply nbrs_nonzero.
  rewrite (best_table R oi _ (fun a => negb (D a) && B a) Hm),
    (best_table R oi _ (fun a => negb (D a)) Hm); [done|..];
    intros x Hx; rewrite (eligible_up oi x) by (done || apply Hm);
    destruct (bits_at D B oi x Hb Hx) as [-> E]; [|rewrite E]; by rewrite ?andb_assoc.
Qed.

Lemma last_with_address_spec a l :
  match last_with_address a l with
  | Some x => x ∈ l /\ n_address x = a
  | None => forall x, x ∈ l -> n_address x <> a
  end.
Proof.
  unfold last_with_address.
  assert (G : forall l o,
    match fold_left (fun o x => if n_address x =? a then Some x else o) l o with
    | Some x => o = Some x \/ (x ∈ l /\ n_address x = a)
    | None => o = None /\ forall x, x ∈ l -> n_address x <> a
    end).
  { clear l. induction l as [|y l IH]; intros o; simpl.
    - destruct o; [by left|]. split; [done|]. intros x Hx. by apply elem_of_nil in Hx.
    - specialize (IH (if n_address y =? a then Some y else o)).
      destruct (fold_left _ l _) as [x|].
      + destruct IH as [IH|[Hx Ex]]; [|right; split; [by right|done]].
        destruct (Z.eqb_spec (n_address y) a) as [E|_]; [|by left].
        right. assert (x = y) as -> by congruence. split; [left|done].
      + destruct IH as [E H]. destruct (Z.eqb_spec (n_address y) a) as [|Hne]; [done|].
        split; [done|]. intros x [->|Hx]%elem_of_cons; auto. }
  specialize (G l None). destruct (fold_left _ l None); [|tauto]. by destruct G.
Qed.

Lemma elected_dr_table R D B oi :
  network R -> member R oi -> bits D B oi ->
  elected_dr (oi_nbrs oi) (elected_bdr (oi_nbrs oi)) = dr_of R D B.
Proof.
  intros Hn Hm Hb. rewrite (elected_bdr_table R D B) by done.
  unfold elected_dr.
  assert (Edd : declared_dr (oi_nbrs oi) = _) by (unfold declared_dr, eligible_routers; apply filter_filter).
  rewrite Edd.
  rewrite sub_or by by eapply nbrs_nonzero.
  rewrite (best_table R oi _ D Hm).
  2:{ intros x Hx. rewrite (eligible_up oi x) by (done || apply Hm).
      destruct (bits_at D B oi x Hb Hx) as [-> _]. done. }
  unfold dr_of. destruct (Z.eqb_spec (best R D) 0) as [_|_]; [|done].
  pose proof (last_with_address_spec (bdr_of R D B) (eligible_routers (oi_nbrs oi))) as H.
  destruct (last_with_address _ _) as [x|]; [apply H|]. simpl.
  destruct (Z.eq_dec (bdr_of R D B) 0) as [|E]; [done|].
  destruct (bdr_some R D B E) as [(y & Hy & Hel & Ey) _]. exfalso.
  destruct (map_ident_lookup R (oi_nbrs oi) y (eq_sym (mem_table _ _ Hm)) Hy) as (x & Hx & Ex).
  apply (H x).
  - unfold eligible_routers. apply list_elem_of_In, filter_In. split; [by apply list_elem_of_In|].
    rewrite (eligible_up oi x) by (done || apply Hm). by rewrite <- (el_ident _ _ Ex).
  - unfold ident in Ex. congruence.
Qed.

(** ** What an operation leaves alone *)

Definition conf (oi : ospf_interface) :=
  (oi_type oi, oi_nbr_self oi, oi_address oi, oi_router_id oi, oi_restarting oi, oi_external_routing oi).

(** Effects that are not events for a state machine, and those of a member whose
    neighbors are all up. *)
Definition plain (e : effect) : Prop :=
  match e with ScheduleIsm _ | ScheduleNsm _ _ => False | _ => True end.
Definition nbr_event (i : Z) (e : effect) : Prop :=
  match e with
  | ScheduleIsm _ => False
  | ScheduleNsm n ev => n <> i /\ ev ∈ [NSM_HelloReceived; NSM_TwoWayReceived; NSM_AdjOK]
  | _ => True
  end.

Lemma plain_nbr_event i e : plain e -> nbr_event i e.
Proof. by destruct e. Qed.

(** The operation keeps the identity and the table of the interface, and its
    effects are [P]. *)
Record moved (P : effect -> Prop) (oi oi' : ospf_interface) : Prop := mkMoved {
  mv_conf : conf oi' = conf oi;
  mv_nbrs : oi_nbrs oi' = oi_nbrs oi;
  mv_out : exists es, oi_out oi' = oi_out oi ++ es /\ Forall P es
}.

Create HintDb moved.

Lemma moved_refl P oi : moved P oi oi.
Proof. split; [done..|]. exists []. by rewrite app_nil_r. Qed.

Lemma moved_trans P a b c : moved P a b -> moved P b c -> moved P a c.
Proof.
  intros [? ? (e1 & E1 & F1)] [? ? (e2 & E2 & F2)]. split; [congruence..|].
  exists (e1 ++ e2). rewrite E2, E1, app_assoc. split; [done|]. by apply Forall_app_2.
Qed.

Lemma moved_emit (P : effect -> Prop) e o a : P e -> moved P o a -> moved P o (emit e a).
Proof.
  intros He [? ? (es & E & F)]. split; [done..|]. exists (es ++ [e]). cbn.
  rewrite E, app_assoc. split; [done|]. apply Forall_app_2; [done|]. by constructor.
Qed.

Lemma moved_if P o (c : bool) a b : moved P o a -> moved P o b -> moved P o (if c then a else b).
Proof. by destruct c. Qed.

(** A setter of another field. *)
Lemma moved_set P o a a' :
  conf a' = conf a -> oi_nbrs a' = oi_nbrs a -> oi_out a' = oi_out a -> moved P o a -> moved P o a'.
Proof. intros E1 E2 E3 [? ? ?]. split; [congruence..|]. by rewrite E3. Qed.

Lemma moved_weaken (P Q : effect -> Prop) oi oi' :
  (forall e, P e -> Q e) -> moved P oi oi' -> moved Q oi oi'.
Proof.
  intros H [? ? (es & ? & F)]. split; [done..|]. exists es. split; [done|].
  eapply Forall_impl; [exact H|done].
Qed.

#[export] Hint Resolve moved_refl moved_if : moved.
#[export] Hint Extern 1 (moved _ _ (emit _ _)) => apply moved_emit; [exact I|] : moved.
#[export] Hint Extern 2 (moved _ _ (?f _ ?x)) => apply (moved_set _ _ x); [reflexivity..|] : moved.

Lemma network_lsa_update_moved o a : moved plain o a -> moved plain o (ospf_network_lsa_update a).
Proof. intros H. unfold ospf_network_lsa_update. auto 8 with moved. Qed.

Lemma flush_network_lsa_moved o a : moved plain o a -> moved plain o (flush_network_lsa a).
Proof. intros H. unfold flush_network_lsa. auto 8 with moved. Qed.
#[export] Hint Resolve network_lsa_update_moved flush_network_lsa_moved | 0 : moved.

Lemma ism_change_state_moved s oi : moved plain oi (ism_change_state s oi).
Proof. unfold ism_change_state. cbv zeta. auto 20 with moved. Qed.

Lemma ism_change_state_state s oi : oi_state (ism_change_state s oi) = s.
Proof.
  unfold ism_change_state, ospf_network_lsa_update, flush_network_lsa. cbv zeta.
  repeat match goal with |- context [if ?b then _ else _] =>
    progress change (oi_state (emit ?e ?x)) with (oi_state x) || destruct b end; reflexivity.
Qed.

Lemma ism_timer_set_moved o a : moved plain o a -> moved plain o (ism_timer_set a).
Proof. intros H. unfold ism_timer_set. destruct (oi_state a); auto 8 with moved. Qed.

Lemma ism_timer_set_state oi : oi_state (ism_timer_set oi) = oi_state oi.
Proof. unfold ism_timer_set. by destruct (oi_state oi) eqn:E. Qed.

(** The action chose the next state. *)
Lemma ism_finish_moved e s oi :
  s <> ISM_DependUpon ->
  moved plain oi (ism_finish e s oi) /\ oi_state (ism_finish e s oi) = s.
Proof.
  intros Hs. unfold ism_finish. set (b := ism_is s ISM_DependUpon).
  assert (b = false) as -> by by apply bool_decide_eq_false_2.
  split.
  - apply ism_timer_set_moved. case_bool; [apply moved_refl|apply ism_change_state_moved].
  - rewrite ism_timer_set_state. unfold ism_is. case_bool_decide; [by symmetry|apply ism_change_state_state].
Qed.

(** ** Entries of the table *)

Section member.
Context (R : list ospf_neighbor) (Hn : network R).

Lemma entry_facts oi x :
  member R oi -> x ∈ oi_nbrs oi ->
  n_id x = n_address x /\ n_address x <> 0 /\ n_router_id x <> 0
  /\ exists y, y ∈ R /\ ident x = ident y.
Proof.
  intros Hm Hx. destruct (map_ident_lookup _ R x (mem_table _ _ Hm) Hx) as (y & Hy & E).
  pose proof (net_keys _ Hn) as K. pose proof (net_nonzero _ Hn) as Z1.
  pose proof (net_router_id_nonzero _ Hn) as Z2. rewrite Forall_forall in K, Z1, Z2.
  pose proof (proj1 (list_elem_of_In _ _) Hy) as Hy'.
  assert (E' := E). unfold ident in E'. injection E' as -> -> -> _.
  split_and!; [by apply K|by apply Z1|by apply Z2|by exists y].
Qed.

Lemma nodup_ids oi : member R oi -> NoDup (map n_id (oi_nbrs oi)).
Proof.
  intros Hm. assert (E : map n_id (oi_nbrs oi) = map n_address R).
  { transitivity (map (fun i => fst (fst (fst i))) (map ident (oi_nbrs oi))); [by rewrite map_map|].
    rewrite (mem_table _ _ Hm), map_map. apply map_ext_in. intros x Hx. simpl.
    pose proof (net_keys _ Hn) as K. rewrite Forall_forall in K. auto. }
  rewrite E. apply Hn.
Qed.

Lemma find_entry oi x :
  member R oi -> x ∈ oi_nbrs oi -> nbr_find (n_address x) oi = Some x.
Proof.
  intros Hm Hx. pose proof (nodup_ids oi Hm) as Hnd. unfold nbr_find.
  destruct (entry_facts oi x Hm Hx) as (Ek & _). rewrite <- Ek. clear Ek Hm.
  induction (oi_nbrs oi) as [|y l IH]; [by apply elem_of_nil in Hx|].
  cbn [map] in Hnd. apply list.NoDup_cons in Hnd as [Hni Hnd]. cbn [find].
  apply elem_of_cons in Hx as [->|Hx]; [by rewrite Z.eqb_refl|].
  destruct (Z.eqb_spec (n_id y) (n_id x)) as [E|_]; [|auto].
  destruct Hni. rewrite E. apply list_elem_of_In, in_map. by apply list_elem_of_In.
Qed.

Lemma self_entry oi :
  member R oi ->
  exists x, x ∈ oi_nbrs oi /\ n_id x = oi_address oi /\ n_address x = oi_address oi
    /\ n_router_id x = oi_router_id oi /\ nbr_find (oi_nbr_self oi) oi = Some x.
Proof.
  intros Hm. pose proof (mem_in _ _ Hm) as Hin.
  apply list_elem_of_In, in_map_iff in Hin as (y & Ey & Hy). apply list_elem_of_In in Hy.
  destruct (map_ident_lookup R (oi_nbrs oi) y (eq_sym (mem_table _ _ Hm)) Hy) as (x & Hx & Ex).
  exists x. destruct (entry_facts oi x Hm Hx) as (Ek & _).
  unfold ident in Ex. injection Ex as _ E1 E2 _. injection Ey as E3 E4.
  assert (Ea : n_address x = oi_address oi) by congruence.
  split_and!; [done|congruence..|]. rewrite (mem_self _ _ Hm), <- Ea. by apply find_entry.
Qed.

(** The entry with the key of the router is its own. *)
Lemma self_unique oi x :
  member R oi -> x ∈ oi_nbrs oi -> n_router_id x = oi_router_id oi <-> n_id x = oi_address oi.
Proof.
  intros Hm Hx. destruct (self_entry oi Hm) as (y & Hy & Ei & Ea & Er & Ef).
  destruct (entry_facts oi x Hm Hx) as (Ek & _ & _ & x' & Hx' & Ex).
  destruct (entry_facts oi y Hm Hy) as (_ & _ & _ & y' & Hy' & Ey).
  unfold ident in Ex, Ey. injection Ex as _ Ex1 Ex2 _. injection Ey as _ Ey1 Ey2 _.
  split; intros E.
  - assert (x' = y') as -> by (eapply rid_inj; [apply Hn|done|done|congruence]). congruence.
  - assert (x' = y') as -> by (eapply addr_inj; [apply Hn|done|done|congruence]). congruence.
Qed.

Lemma member_change oi oi' :
  member R oi -> conf oi' = conf oi -> map ident (oi_nbrs oi') = map ident (oi_nbrs oi) ->
  Forall entry_up (oi_nbrs oi') -> OPTIONS oi' = OPTIONS oi -> member R oi'.
Proof.
  intros [? ? ? ? ? ? ? ?] E Et Hu Eo. unfold conf in E. injection E as E1 E2 E3 E4 E5 E6.
  split; [congruence..|done|congruence|congruence|by rewrite Eo].
Qed.

Lemma member_moved P oi oi' : member R oi -> moved P oi oi' -> member R oi'.
Proof.
  intros Hm [E1 E2 _]. assert (E : oi_nbr_self oi' = oi_nbr_self oi) by (unfold conf in E1; congruence).
  eapply member_change; [done..|by rewrite E2|by rewrite E2; apply Hm|].
  unfold OPTIONS, self_field, nbr_find. by rewrite E, E2.
Qed.

Lemma self_field_moved P f oi oi' : moved P oi oi' -> self_field f oi' = self_field f oi.
Proof.
  intros [E1 E2 _]. unfold self_field, nbr_find. rewrite E2.
  assert (oi_nbr_self oi' = oi_nbr_self oi) as -> by (unfold conf in E1; congruence). done.
Qed.

Lemma bits_moved P D B oi oi' : moved P oi oi' -> bits D B oi -> bits D B oi'.
Proof. intros [_ E _]. unfold bits. by rewrite E. Qed.
End member.
