(* ===== verification/OspfLan.v ===== *)
(** * Routers on a broadcast network exchange Hellos

    What one election, one neighbor event and one Hello packet do to a member of
    the network.

    Every router of the network runs the code of ospf_ism.c, ospf_nsm.c and
    ospf_packet.c on its own interface: it sends a Hello, receives the Hellos of
    the others, and runs the events that this put on its queue. *)
From S2P Require Import Prelude OspfLsa OspfIsm OspfElection OspfNsm OspfStation.

(** ** Neighbor events *)

(** An entry as the election sees it; the entry of the router itself ([s]) does
    not change. *)
Record nbr_same (s : Z) (x y : ospf_neighbor) : Prop := mkNbrSame {
  ns_ident : ident x = ident y;
  ns_dr : n_d_router x = n_d_router y;
  ns_bdr : n_bd_router x = n_bd_router y;
  ns_up : entry_up x -> entry_up y;
  ns_self : n_id x = s -> x = y
}.

Record same (oi oi' : ospf_interface) : Prop := mkSame {
  sm_conf : conf oi' = conf oi;
  sm_state : oi_state oi' = oi_state oi;
  sm_nbrs : Forall2 (nbr_same (oi_nbr_self oi)) (oi_nbrs oi) (oi_nbrs oi');
  sm_out : exists es, oi_out oi' = oi_out oi ++ es /\ Forall plain es
}.

Lemma nbr_same_refl s x : nbr_same s x x.
Proof. done. Qed.

Lemma nbr_same_trans s x y z : nbr_same s x y -> nbr_same s y z -> nbr_same s x z.
Proof.
  intros [A1 A2 A3 A4 A5] [B1 B2 B3 B4 B5]. split; [congruence..|auto|].
  intros E. rewrite (A5 E). apply B5. by rewrite <- (A5 E).
Qed.

Lemma same_refl oi : same oi oi.
Proof.
  split; [done..| |exists []; by rewrite app_nil_r].
  induction (oi_nbrs oi); constructor; auto using nbr_same_refl.
Qed.

Lemma same_trans a b c : same a b -> same b c -> same a c.
Proof.
  intros [A1 A2 A3 (e1 & A4 & F1)] [B1 B2 B3 (e2 & B4 & F2)].
  assert (E : oi_nbr_self b = oi_nbr_self a) by (unfold conf in A1; congruence).
  split; [congruence..| |exists (e1 ++ e2); rewrite B4, A4, app_assoc; split; [done|by apply Forall_app_2]].
  rewrite E in B3. revert B3. generalize (oi_nbrs c). revert A3. generalize (oi_nbrs b).
  induction (oi_nbrs a) as [|x l IH]; intros l1 H1 l2 H2; inversion H1; subst; inversion H2; subst; constructor;
    eauto using nbr_same_trans.
Qed.

Create HintDb same.

Lemma same_emit e o a : plain e -> same o a -> same o (emit e a).
Proof.
  intros He [? ? ? (es & E & F)]. split; [done..|]. exists (es ++ [e]). cbn.
  rewrite E, app_assoc. split; [done|]. apply Forall_app_2; [done|]. by constructor.
Qed.

Lemma same_if o (c : bool) a b : same o a -> same o b -> same o (if c then a else b).
Proof. by destruct c. Qed.

Lemma same_set o a a' :
  conf a' = conf a -> oi_state a' = oi_state a -> oi_nbrs a' = oi_nbrs a -> oi_out a' = oi_out a ->
  same o a -> same o a'.
Proof. intros E1 E2 E3 E4 [? ? ? ?]. split; [congruence..|by rewrite E3|by rewrite E4]. Qed.

(** A change of an entry that keeps what the election sees. *)
Definition keeps (f : ospf_neighbor -> ospf_neighbor) : Prop :=
  forall x, ident x = ident (f x) /\ n_d_router x = n_d_router (f x)
            /\ n_bd_router x = n_bd_router (f x) /\ (entry_up x -> entry_up (f x)).

Lemma same_update n f o a : n <> oi_nbr_self o -> keeps f -> same o a -> same o (nbr_update n f a).
Proof.
  intros Hne Hf Ha. apply (same_trans _ a); [done|].
  assert (E : oi_nbr_self a = oi_nbr_self o) by (pose proof (sm_conf _ _ Ha); unfold conf in *; congruence).
  split; [done..| |exists []; by rewrite app_nil_r]. rewrite E.
  unfold nbr_update. cbn [oi_nbrs set_oi_nbrs]. induction (oi_nbrs a) as [|x l IH]; constructor; [|done].
  destruct (Z.eqb_spec (n_id x) n) as [Ex|_]; [|apply nbr_same_refl].
  destruct (Hf x) as (? & ? & ? & ?). split; [done..|]. congruence.
Qed.

#[export] Hint Resolve same_refl same_if : same.
#[export] Hint Extern 1 (same _ (emit _ _)) => apply same_emit; [exact I|] : same.
#[export] Hint Extern 1 (same _ (nbr_update _ _ _)) => apply same_update; [assumption|done|] : same.
#[export] Hint Extern 3 (same _ (?f _ ?x)) => apply (same_set _ x); [reflexivity..|] : same.
#[export] Hint Extern 3 (same _ (?f ?x)) => progress unfold f : same.

Section steps.
Context (R : list ospf_neighbor) (Hn : network R).

(** ** Declaring *)

Definition declare (d b : Z) (oi : ospf_interface) : ospf_interface :=
  set_oi_nbrs (redeclare (oi_nbr_self oi) d b (oi_nbrs oi)) oi.

Lemma redeclare_ident n d b l : map ident (redeclare n d b l) = map ident l.
Proof. unfold redeclare. rewrite map_map. apply map_ext. intros x. by case_bool. Qed.

Lemma redeclare_up n d b l : Forall entry_up l -> Forall entry_up (redeclare n d b l).
Proof.
  intros H. apply Forall_forall. intros y Hy. apply in_map_iff in Hy as (x & <- & Hx).
  rewrite Forall_forall in H. specialize (H x Hx). by case_bool.
Qed.

Lemma self_field_declare f d b oi x :
  nbr_find (oi_nbr_self oi) oi = Some x ->
  self_field f (declare d b oi) = f (set_n_bd_router b (set_n_d_router d x)).
Proof.
  intros E. unfold self_field, nbr_find, declare, redeclare. cbn [oi_nbrs oi_nbr_self set_oi_nbrs].
  rewrite (find_map_id _ (fun x => set_n_bd_router b (set_n_d_router d x))) by done.
  unfold nbr_find in E. by rewrite E.
Qed.

Lemma member_declare d b oi : member R oi -> member R (declare d b oi).
Proof.
  intros Hm. destruct (self_entry R Hn oi Hm) as (x & _ & _ & _ & _ & E).
  eapply member_change; [done|done|apply redeclare_ident|apply redeclare_up, Hm|].
  unfold OPTIONS. rewrite (self_field_declare n_options d b oi x E).
  unfold self_field. by rewrite E.
Qed.

Lemma declared_is d b oi : member R oi -> DR (declare d b oi) = d /\ BDR (declare d b oi) = b.
Proof.
  intros Hm. destruct (self_entry R Hn oi Hm) as (x & _ & _ & _ & _ & E).
  unfold DR, BDR. by rewrite !(self_field_declare _ d b oi x E).
Qed.

Lemma bits_declare D B d b oi :
  let i := oi_address oi in
  member R oi -> bits D B oi ->
  bits (upd D i (d =? i)) (upd B i (b =? i)) (declare d b oi).
Proof.
  intros i Hm Hb. unfold bits. apply Forall_forall. intros y Hy.
  apply in_map_iff in Hy as (x & <- & Hx). apply list_elem_of_In in Hx.
  destruct (entry_facts R Hn oi x Hm Hx) as (Ek & _).
  destruct (bits_at D B oi x Hb Hx) as [E1 E2]. unfold upd.
  rewrite (mem_self _ _ Hm). fold i. rewrite Ek.
  destruct (Z.eqb_spec (n_address x) i) as [Ei|Ei]; unfold NBR_IS_DR, NBR_IS_BDR; cbn.
  - rewrite Ei, Z.eqb_refl. split; apply Z.eqb_sym.
  - destruct (Z.eqb_spec (n_address x) i); done.
Qed.

Lemma declare_twice d b d' b' oi : declare d b (declare d' b' oi) = declare d b oi.
Proof.
  unfold declare. destruct oi. unfold set_oi_nbrs. cbn. f_equal.
  unfold redeclare. rewrite map_map. apply map_ext. intros x.
  destruct (n_id x =? _) eqn:E; cbn; rewrite E; reflexivity.
Qed.

(** ** An election *)

Lemma elect_both_member D B oi :
  member R oi -> bits D B oi -> elect_both oi = declare (dr_of R D B) (bdr_of R D B) oi.
Proof.
  intros Hm Hb. destruct (self_entry R Hn oi Hm) as (x & _ & _ & _ & _ & E).
  rewrite (elect_both_nbrs oi x E). unfold declare.
  by rewrite (elected_dr_table R D B oi Hn Hm Hb), (elected_bdr_table R D B oi Hn Hm Hb).
Qed.

Lemma ism_state_declare d b oi :
  member R oi -> ospf_ism_state (declare d b oi) = role (oi_address oi) d b.
Proof.
  intros Hm. unfold ospf_ism_state. destruct (declared_is d b oi Hm) as [-> ->]. done.
Qed.

(** The events for the neighbors. *)
Lemma dr_change_moved oi :
  member R oi -> moved (nbr_event (oi_address oi)) oi (ospf_dr_change oi).
Proof.
  intros Hm. unfold ospf_dr_change.
  assert (G : forall l o, (forall x, x ∈ l -> x ∈ oi_nbrs oi) -> moved (nbr_event (oi_address oi)) oi o ->
    moved (nbr_event (oi_address oi)) oi
      (fold_left (fun o x => if negb (n_router_id x =? 0) && nsm_ge (n_state x) NSM_TwoWay
                                && negb (n_router_id x =? oi_router_id oi)
                             then emit (ScheduleNsm (n_id x) NSM_AdjOK) o else o) l o)).
  { induction l as [|x l IH]; intros o Hl Ho; [done|]. cbn [fold_left]. apply IH.
    { intros y Hy. apply Hl. by right. }
    destruct (_ && _ && _) eqn:E; [|done]. bool_to_prop. apply moved_emit; [|done]. split; [|by do 2 right; left].
    intros Ei. apply H0. apply (self_unique R Hn oi x Hm); [|done]. apply Hl. left. }
  apply G; [done|apply moved_refl].
Qed.

Lemma dr_election_member D B oi :
  let i := oi_address oi in
  let '(d, b) := elect_at R D B i (oi_state oi) in
  member R oi -> bits D B oi ->
  fst (ospf_dr_election oi) = role i d b
  /\ moved (nbr_event i) (declare d b oi) (snd (ospf_dr_election oi)).
Proof.
  intros i. destruct (elect_at R D B i (oi_state oi)) as [d b] eqn:Ee. intros Hm Hb.
  assert (H : (if reelects (oi_state oi) (ospf_ism_state (elect_both oi))
               then elect_both (elect_both oi) else elect_both oi) = declare d b oi).
  { rewrite (elect_both_member D B oi) by done. rewrite ism_state_declare by done. fold i.
    unfold elect_at in Ee. destruct (reelects _ _); [|by injection Ee as <- <-].
    injection Ee as <- <-.
    rewrite (elect_both_member (upd D i (dr_of R D B =? i)) (upd B i (bdr_of R D B =? i)));
      [apply declare_twice|by apply member_declare|by apply bits_declare]. }
  unfold ospf_dr_election. unfold reelects in H. rewrite H. cbn [fst snd].
  split; [by apply ism_state_declare|]. case_bool; [|apply moved_refl].
  by apply (dr_change_moved (declare d b oi)), member_declare.
Qed.

(** One election event, as the state machine runs it. *)
Lemma elect_step D B e oi :
  let i := oi_address oi in
  let '(d, b) := elect_at R D B i (oi_state oi) in
  member R oi -> bits D B oi -> fst (ISM (oi_state oi) e) = F_election ->
  let oi' := ism_event_local e oi in
  member R oi' /\ bits (upd D i (d =? i)) (upd B i (b =? i)) oi'
  /\ DR oi' = d /\ BDR oi' = b /\ oi_state oi' = role i d b
  /\ moved (nbr_event i) (declare d b oi) oi'.
Proof.
  intros i. pose proof (dr_election_member D B oi) as H. fold i in H. cbv zeta in H.
  destruct (elect_at R D B i (oi_state oi)) as [d b]. intros Hm Hb He oi'.
  destruct (H Hm Hb) as [E1 M1]. unfold oi', ism_event_local. rewrite He.
  destruct (ospf_dr_election oi) as [s o]. cbn [fst snd] in E1, M1. subst s.
  assert (Hr : role i d b <> ISM_DependUpon) by (unfold role; repeat case_bool; done).
  destruct (ism_finish_moved e (role i d b) o Hr) as [M2 E2].
  assert (M : moved (nbr_event i) (declare d b oi) (ism_finish e (role i d b) o)).
  { eapply moved_trans; [exact M1|]. eapply moved_weaken; [|exact M2]. apply plain_nbr_event. }
  pose proof (member_declare d b oi Hm) as Hm'. pose proof (declared_is d b oi Hm) as [Ed Eb].
  split_and!; [by eapply member_moved|by eapply bits_moved, bits_declare| | |done|done].
  - unfold DR. by rewrite (self_field_moved _ _ _ _ M).
  - unfold BDR. by rewrite (self_field_moved _ _ _ _ M).
Qed.
(** ** A neighbor event *)

Lemma keeps_state (s : nsm_state) (f : ospf_neighbor -> Z) :
  nsm_ge s NSM_TwoWay = true -> keeps (fun x => set_n_state_change (f x) (set_n_state s x)).
Proof. intros H x. split_and!; [done..|]. intros [? ?]. by split. Qed.

Lemma keeps_timers : keeps nsm_timer_set.
Proof. intros x. unfold nsm_timer_set. destruct (n_state x) eqn:E; [..|case_bool| |]; done. Qed.

Lemma vl_count_same up o a : same o a -> same o (vl_count up a).
Proof. intros H. unfold vl_count. destruct (oi_vl_full a); auto 10 with same. Qed.

Lemma network_lsa_same o a : same o a -> same o (ospf_network_lsa_update a).
Proof. intros H. unfold ospf_network_lsa_update. auto 10 with same. Qed.

Lemma flush_same o a : same o a -> same o (flush_network_lsa a).
Proof. intros H. unfold flush_network_lsa. auto 10 with same. Qed.

Lemma full_change_same up helper o a : same o a -> same o (nsm_full_change up helper a).
Proof.
  intros H. unfold nsm_full_change. cbv zeta.
  set (a1 := vl_count _ _). assert (H1 : same o a1) by (apply vl_count_same; auto 10 with same).
  clearbody a1. set (a2 := if helper then _ else _). assert (H2 : same o a2) by (unfold a2; auto with same).
  clearbody a2. destruct (oi_vl_full a2); auto 12 using flush_same, network_lsa_same with same.
Qed.

Lemma keeps_clear : keeps nsm_clear_adj.
Proof.
  intros x. unfold nsm_clear_adj. cbv zeta.
  destruct (n_ls_req (set_n_db_sum [] x)); cbn; destruct (n_ls_rxmt x); done.
Qed.

(** The first packet of an exchange changes nothing that an election looks at. *)
Lemma start_send_same ospf rnd n o a :
  n <> oi_nbr_self o -> same o a ->
  exists a', ospf_db_desc_send ospf n (nbr_update n (nsm_start_exchange rnd) a) = Ret a' /\ same o a'.
Proof.
  intros Hne Ha. destruct (start_exchange_send ospf rnd n a) as (a' & E & H). exists a'. split; [done|].
  destruct H as [->|(dd & flags & rest & ->)]; auto 10 with same.
Qed.

Lemma change_state_same ospf rnd n x s o a :
  n <> oi_nbr_self o -> entry_up x -> nsm_ge s NSM_TwoWay = true ->
  same o a -> exists a', nsm_change_state ospf rnd n x s a = Ret a' /\ same o a'.
Proof.
  intros Hne [Hx _] Hs Ha. unfold nsm_change_state. cbv zeta.
  assert (Hc : crosses_twoway (n_state x) s = false) by (unfold crosses_twoway; by rewrite Hx, Hs).
  rewrite Hc. set (a1 := nbr_update n _ a).
  assert (H1 : same o a1) by (apply same_update; [done|by apply keeps_state|done]).
  clearbody a1.
  assert (E2 : match oi_state a1 with ISM_DROther | ISM_Backup | ISM_DR => a1 | _ => a1 end = a1)
    by by destruct (oi_state a1).
  rewrite E2. clear E2. rename a1 into a2, H1 into H2. set (a3 := if negb _ then nsm_full_change _ _ a2 else a2).
  assert (H3 : same o a3) by (unfold a3; auto using full_change_same with same).
  clearbody a3. set (a4 := if _ && _ then _ else emit _ a3).
  assert (H4 : same o a4).
  { unfold a4. apply same_if; [apply same_update; [done|apply keeps_clear|]|]; auto with same. }
  clearbody a4. destruct (nsm_is s NSM_ExStart).
  - destruct (start_send_same ospf rnd n o a4 Hne H4) as (a5 & -> & H5). cbn [mbind outcome_bind].
    eexists. split; [reflexivity|]. auto 10 with same.
  - cbn [mbind outcome_bind]. eexists. split; [reflexivity|]. auto 10 with same.
Qed.

Lemma self_not_other oi n : member R oi -> n <> oi_address oi -> n <> oi_nbr_self oi.
Proof. intros Hm. by rewrite (mem_self _ _ Hm). Qed.

(** The tail of [ospf_nsm_event] for a neighbor that stays up. *)
Lemma nsm_tail_same ospf rnd n x next o a :
  n <> oi_nbr_self o -> entry_up x -> nsm_ge next NSM_TwoWay = true -> same o a ->
  exists a', (if nsm_is next (n_state x) then Ret a else nsm_change_state ospf rnd n x next a) = Ret a'
    /\ same o (nbr_update n nsm_timer_set a').
Proof.
  intros Hne Hx Hs Ha.
  assert (exists a', (if nsm_is next (n_state x) then Ret a else nsm_change_state ospf rnd n x next a) = Ret a'
            /\ same o a') as (a' & E & H) by (case_bool; eauto using change_state_same).
  exists a'. split; [done|]. apply same_update; [done|apply keeps_timers|done].
Qed.

Lemma nsm_event_same ospf rnd n ev oi :
  member R oi -> n <> oi_address oi ->
  ev ∈ [NSM_HelloReceived; NSM_TwoWayReceived; NSM_AdjOK] ->
  exists oi', ospf_nsm_event ospf rnd n ev oi = Ret oi' /\ same oi oi'.
Proof.
  intros Hm Hne Hev. apply (self_not_other oi n Hm) in Hne. unfold ospf_nsm_event.
  destruct (nbr_find n oi) as [x|] eqn:Ex; [|eauto using same_refl].
  assert (Hx : entry_up x).
  { apply find_some in Ex as [Ex _]. pose proof (mem_up _ _ Hm) as Hu. rewrite Forall_forall in Hu. auto. }
  assert (Hnxt : exists f s, NSM (n_state x) ev = (f, s) /\ exists fs o', nsm_call ospf f n x oi = Ret (fs, o')
    /\ same oi o' /\ let next := match f with NF_null => s
           | _ => if nsm_is s NSM_DependUpon then fs else s end in nsm_ge next NSM_TwoWay = true).
  { destruct Hx as [Hx Hh]. apply list_elem_of_In in Hev. destruct Hev as [<-|[<-|[<-|[]]]].
    - exists NF_hello_received, (n_state x). split; [by destruct (n_state x)|]. eexists _, _.
      split; [reflexivity|]. split; [auto 10 with same|]. by destruct (n_state x).
    - exists NF_null, (n_state x). split; [by destruct (n_state x)|]. eexists _, _.
      split; [reflexivity|]. by split; [apply same_refl|].
    - exists NF_adj_ok, NSM_DependUpon. split; [by destruct (n_state x)|]. cbn [nsm_call].
      unfold nsm_adj_ok. destruct (nsm_is (n_state x) NSM_TwoWay && nsm_should_adj x oi);
        [|destruct (nsm_ge (n_state x) NSM_ExStart && negb (nsm_should_adj x oi))];
        eexists _, _; (split; [reflexivity|]; split; [auto 10 with same|done]). }
  destruct Hnxt as (f & s & -> & fs & o' & -> & Hs & Hge). cbn [mbind outcome_bind].
  set (next := match f with NF_null => s | _ => _ end) in *. cbv zeta in Hge.
  destruct (nsm_tail_same ospf rnd n x next oi o' Hne Hx Hge Hs) as (a' & Ea & Ht).
  destruct next; try discriminate Hge; cbn [nsm_is bool_decide negb];
    rewrite Ea; cbn; eexists; (split; [reflexivity|exact Ht]).
Qed.
End steps.

(** ** The network *)

(** The events of the queue are run in their order. *)
Fixpoint run_events (ospf : ospf_instance) (rnd : Z) (q : list effect) (oi : ospf_interface) :
    outcome ospf_interface :=
  match q with
  | [] => Ret oi
  | ScheduleNsm n e :: q' => oi ← ospf_nsm_event ospf rnd n e oi; run_events ospf rnd q' oi
  | ScheduleIsm e :: q' => oi ← ospf_ism_event ospf rnd e oi; run_events ospf rnd q' oi
  | _ :: q' => run_events ospf rnd q' oi
  end.

(** The queue, and what running it puts on the queue, [k] times. *)
Fixpoint drain (k : nat) (ospf : ospf_instance) (rnd : Z) (oi : ospf_interface) : outcome ospf_interface :=
  match k with
  | O => Ret oi
  | S k' => oi ← run_events ospf rnd (oi_out oi) (set_oi_out [] oi); drain k' ospf rnd oi
  end.

(** Every router elects: its wait timer expires, or its neighbors changed. *)
Definition elect_round (ospf : ospf_instance) (rnd : Z) (lan : list ospf_interface) :
    outcome (list ospf_interface) :=
  mapM (fun oi =>
      oi ← ospf_ism_event ospf rnd (if ism_is (oi_state oi) ISM_Waiting then ISM_WaitTimer else ISM_NeighborChange)
             (set_oi_out [] oi);
      drain 1 ospf rnd oi) lan.

(** Every router sends a Hello and receives the Hellos of all. *)
Definition hello_round (c : hello_conf) (ospf : ospf_instance) (rnd : Z) (lan : list ospf_interface) :
    outcome (list ospf_interface) :=
  let sent := map (ospf_make_hello c None) lan in
  let hellos := omap fst sent in
  mapM (fun oi => drain 2 ospf rnd (fold_left (fun o h => ospf_hello c h o) hellos (set_oi_out [] oi)))
    (map snd sent).

Fixpoint hello_rounds (k : nat) (c : hello_conf) (ospf : ospf_instance) (rnd : Z) (lan : list ospf_interface) :
    outcome (list ospf_interface) :=
  match k with
  | O => Ret lan
  | S k' => lan ← hello_round c ospf rnd lan; hello_rounds k' c ospf rnd lan
  end.

Lemma mapM_outcome {A B} (f : A -> outcome B) (P : A -> B -> Prop) l :
  (forall x, x ∈ l -> exists y, f x = Ret y /\ P x y) ->
  exists l', mapM f l = Ret l' /\ Forall2 P l l'.
Proof.
  induction l as [|x l IH]; intros H; [exists []; by split|].
  destruct (H x ltac:(left)) as (y & E & Hy).
  destruct IH as (l' & E' & Hl'); [intros z Hz; apply H; by right|].
  exists (y :: l'). split; [|by constructor]. simpl. rewrite E. cbn [mbind outcome_bind]. by rewrite E'.
Qed.

Lemma Forall2_right {A B} (Q : A -> B -> Prop) (P : B -> Prop) l l' :
  Forall2 (fun x y => Q x y /\ P y) l l' -> Forall P l'.
Proof. induction 1 as [|x y l l' [_ H]]; by constructor. Qed.

(** ** Events *)

Section lan.
Context (R : list ospf_neighbor) (Hn : network R).

Lemma same_member oi oi' : member R oi -> same oi oi' -> member R oi'.
Proof.
  intros Hm [E1 E2 E3 _]. eapply member_change; [done|done| | |].
  - clear -E3. induction E3 as [|x y l l' H]; [done|]. cbn [map]. by rewrite (ns_ident _ _ _ H), IHE3.
  - pose proof (mem_up _ _ Hm) as Hu. clear -E3 Hu. induction E3 as [|x y l l' H]; [done|].
    inversion Hu; subst. constructor; [by apply H|auto].
  - unfold OPTIONS, self_field, nbr_find.
    assert (oi_nbr_self oi' = oi_nbr_self oi) as -> by (unfold conf in E1; congruence).
    clear -E3. induction E3 as [|x y l l' H]; [done|]. cbn [find].
    assert (n_id x = n_id y) as <- by (pose proof (ns_ident _ _ _ H) as E; unfold ident in E; congruence).
    destruct (Z.eqb_spec (n_id x) (oi_nbr_self oi)) as [E|_]; [by rewrite (ns_self _ _ _ H E)|done].
Qed.

Lemma same_self_field f oi oi' :
  (forall x y, nbr_same (oi_nbr_self oi) x y -> f x = f y) -> same oi oi' ->
  self_field f oi' = self_field f oi.
Proof.
  intros Hf [E1 _ E3 _]. unfold self_field, nbr_find.
  assert (oi_nbr_self oi' = oi_nbr_self oi) as -> by (unfold conf in E1; congruence).
  revert E3. generalize (oi_nbr_self oi) at 2 3. intros s E3.
  induction E3 as [|x y l l' H]; [done|]. cbn [find].
  assert (n_id x = n_id y) as -> by (pose proof (ns_ident _ _ _ H) as E; unfold ident in E; congruence).
  case_bool; [symmetry; by apply Hf|done].
Qed.

Lemma same_DR oi oi' : same oi oi' -> DR oi' = DR oi /\ BDR oi' = BDR oi.
Proof. intros H. split; eapply same_self_field; try done; intros x y Hxy; apply Hxy. Qed.

Lemma same_bits D B oi oi' : same oi oi' -> bits D B oi -> bits D B oi'.
Proof.
  intros [_ _ E3 _] Hb. unfold bits in *. induction E3 as [|x y l l' H]; [done|].
  inversion Hb as [|? ? Hx Hl]; subst. constructor; [|auto].
  destruct H as [Hi Hd Hbd _ _]. unfold ident in Hi. injection Hi as _ Ha _ _.
  unfold NBR_IS_DR, NBR_IS_BDR in *. by rewrite <- Ha, <- Hd, <- Hbd.
Qed.

Lemma same_address oi oi' : same oi oi' -> oi_address oi' = oi_address oi.
Proof. intros [E _ _ _]. unfold conf in E. congruence. Qed.

(** A queue of neighbor events. *)
Lemma run_nbr_events ospf rnd q : forall oi,
  member R oi -> Forall (nbr_event (oi_address oi)) q ->
  exists oi', run_events ospf rnd q oi = Ret oi' /\ same oi oi'.
Proof.
  induction q as [|e q IH]; intros oi Hm Hq; [exists oi; eauto using same_refl|].
  inversion Hq as [|? ? He Hq']; subst.
  destruct e; try (by apply IH); [|by destruct He]. destruct He as [Hne Hev]. cbn [run_events].
  destruct (nsm_event_same R ospf rnd n ev oi Hm Hne Hev) as (o & -> & Ho). cbn [mbind outcome_bind].
  destruct (IH o) as (o' & -> & Ho'); [by eapply same_member|by rewrite (same_address _ _ Ho)|].
  exists o'. split; [done|by eapply same_trans].
Qed.
(** ** Elections *)

(** A router that takes part in elections: what it declares, its state. *)
Record voter (d b : Z) (oi : ospf_interface) : Prop := mkVoter {
  vt_member : member R oi;
  vt_dr : DR oi = d;
  vt_bdr : BDR oi = b;
  vt_state : oi_state oi = role (oi_address oi) d b
}.

Lemma voter_same d b oi oi' : voter d b oi -> same oi oi' -> voter d b oi'.
Proof.
  intros [Hm Hd Hb Hs] H. destruct (same_DR _ _ H) as [E1 E2].
  split; [by eapply same_member|congruence..|].
  by rewrite (sm_state _ _ H), (same_address _ _ H).
Qed.

Definition plain_queue (oi : ospf_interface) : Prop := Forall plain (oi_out oi).

(** The tables of others entries do not change in an election. *)
Definition others (P : ospf_neighbor -> Prop) (oi : ospf_interface) : Prop :=
  Forall (fun x => n_id x <> oi_nbr_self oi -> P x) (oi_nbrs oi).

(** A property of entries that only looks at what they declare. *)
Definition declares (Q : Z -> Z -> Prop) (x : ospf_neighbor) : Prop := Q (n_d_router x) (n_bd_router x).

Lemma others_same Q oi oi' : same oi oi' -> others (declares Q) oi -> others (declares Q) oi'.
Proof.
  intros [E _ E3 _] H. unfold others in *.
  assert (oi_nbr_self oi' = oi_nbr_self oi) as -> by (unfold conf in E; congruence).
  revert E3 H. generalize (oi_nbr_self oi). intros s E3 H.
  induction E3 as [|x y l l' Hxy]; [done|]. inversion H as [|? ? Hx Hl]; subst.
  constructor; [|auto]. destruct Hxy as [Hi Hd Hb _ _]. unfold ident in Hi. injection Hi as Hid _ _ _.
  unfold declares. rewrite <- Hd, <- Hb, <- Hid. exact Hx.
Qed.

Lemma others_moved P Q oi oi' : moved P oi oi' -> others (declares Q) oi -> others (declares Q) oi'.
Proof.
  intros [E1 E2 _]. unfold others. rewrite E2.
  by assert (oi_nbr_self oi' = oi_nbr_self oi) as -> by (unfold conf in E1; congruence).
Qed.

Lemma others_declare Q d b oi : others (declares Q) oi -> others (declares Q) (declare d b oi).
Proof.
  unfold others, declare. cbn [oi_nbrs oi_nbr_self set_oi_nbrs]. intros H.
  apply Forall_forall. intros y Hy. apply in_map_iff in Hy as (x & <- & Hx).
  rewrite Forall_forall in H. specialize (H x Hx).
  destruct (Z.eqb_spec (n_id x) (oi_nbr_self oi)) as [E|E]; cbn; [done|auto].
Qed.

(** One election of a member, then the events that it causes. *)
Lemma elect_and_drain ospf rnd D B Q e oi :
  let i := oi_address oi in
  let '(d, b) := elect_at R D B i (oi_state oi) in
  member R oi -> bits D B oi -> others (declares Q) oi -> oi_out oi = [] ->
  fst (ISM (oi_state oi) e) = F_election ->
  exists oi', (o ← ospf_ism_event ospf rnd e oi; drain 1 ospf rnd o) = Ret oi'
    /\ voter d b oi' /\ bits (upd D i (d =? i)) (upd B i (b =? i)) oi'
    /\ others (declares Q) oi' /\ plain_queue oi' /\ oi_address oi' = i.
Proof.
  intros i. pose proof (elect_step R Hn D B e oi) as H. cbv zeta in H. fold i in H.
  destruct (elect_at R D B i (oi_state oi)) as [d b]. intros Hm Hb Ho Eo He.
  destruct (H Hm Hb He) as (Hm1 & Hb1 & Hd1 & Hbd1 & Hs1 & M1).
  unfold ospf_ism_event. rewrite He. cbn [mbind outcome_bind drain].
  set (o1 := ism_event_local e oi) in *.
  assert (Ei : oi_address o1 = i) by (pose proof (mv_conf _ _ _ M1) as E; by injection E).
  assert (Hq : Forall (nbr_event i) (oi_out o1)).
  { destruct (mv_out _ _ _ M1) as (es & -> & F). cbn. by rewrite Eo. }
  destruct (run_nbr_events ospf rnd (oi_out o1) (set_oi_out [] o1)) as (o2 & E2 & S2).
  { eapply member_change; [exact Hm1|done..|apply Hm1|done]. }
  { change (oi_address (set_oi_out [] o1)) with (oi_address o1). by rewrite Ei. }
  rewrite E2. cbn [mbind outcome_bind]. exists o2. split; [done|].
  assert (V1 : voter d b (set_oi_out [] o1)).
  { split; [|done|done|]; [eapply member_change; [exact Hm1|done..|apply Hm1|done]|]. cbn. by rewrite Ei. }
  split_and!.
  - by eapply voter_same.
  - eapply same_bits; [exact S2|]. exact Hb1.
  - eapply others_same; [exact S2|]. change (others (declares Q) o1).
    eapply others_moved; [exact M1|]. by apply others_declare.
  - unfold plain_queue. destruct (sm_out _ _ S2) as (es & -> & F). done.
  - rewrite (same_address _ _ S2). done.
Qed.
(** ** The queue of a round of Hellos *)

Definition hello_event (i : Z) (e : effect) : Prop :=
  nbr_event i e \/ e = ScheduleIsm ISM_NeighborChange.

Lemma bits_ext D B D' B' oi :
  (forall a, D a = D' a) -> (forall a, B a = B' a) -> bits D B oi -> bits D' B' oi.
Proof.
  intros HD HB H. unfold bits in *. eapply Forall_impl; [|exact H]. intros x [? ?].
  by rewrite <- HD, <- HB.
Qed.

Lemma upd_same f i v a : f i = v -> upd f i v a = f a.
Proof. intros <-. unfold upd. by destruct (Z.eqb_spec a i) as [->|]. Qed.

Lemma upd_upd f i v w a : upd (upd f i v) i w a = upd f i w a.
Proof. unfold upd. by case_bool. Qed.

Lemma role_elects i d b : fst (ISM (role i d b) ISM_NeighborChange) = F_election.
Proof. unfold role. by repeat case_bool. Qed.

Definition agreed (d : Z) : Prop := d = 0 /\ (forall a, ~ eligible R a) \/ eligible R d.

(** One election where the designated router is agreed on. *)
Lemma settled_step D B Q d b0 b oi :
  let i := oi_address oi in
  agreed d -> (forall a, eligible R a -> D a = (d =? a)) -> D i = (d =? i) -> B i = (b0 =? i) ->
  b = b0 \/ b = bdr_of R D B ->
  voter d b oi -> bits D (upd B i (b =? i)) oi -> others (declares Q) oi ->
  let b' := bdr_of R D B in
  let oi' := ism_event_local ISM_NeighborChange oi in
  voter d b' oi' /\ bits D (upd B i (b' =? i)) oi' /\ others (declares Q) oi'
  /\ oi_address oi' = i /\ exists es, oi_out oi' = oi_out oi ++ es /\ Forall (nbr_event i) es.
Proof.
  intros i Hd HD HDi HBi Hbb [Hm Ed Eb Es] Hb Ho b' oi'.
  pose proof (elect_step R Hn D (upd B i (b =? i)) ISM_NeighborChange oi) as H. cbv zeta in H. fold i oi' in H.
  rewrite (elect_settled R (net_addresses _ Hn) (net_router_ids _ Hn) (net_nonzero _ Hn) D _ d) in H by done.
  assert (Ebd : bdr_of R D (upd B i (b =? i)) = b').
  { destruct Hbb as [->| ->].
    - apply (bdr_ext R (net_addresses _ Hn) (net_router_ids _ Hn) (net_nonzero _ Hn)); [done|].
      intros a _ _. by apply upd_same.
    - apply (bdr_stable_upd R (net_addresses _ Hn) (net_router_ids _ Hn) (net_nonzero _ Hn)). }
  rewrite Ebd in H. destruct (H Hm Hb) as (Hm1 & Hb1 & Hd1 & Hbd1 & Hs1 & M1).
  { rewrite Es. apply role_elects. }
  assert (Ei : oi_address oi' = i) by (pose proof (mv_conf _ _ _ M1) as E; by injection E).
  split_and!; [by split; rewrite ?Ei| | |done|].
  - eapply bits_ext; [..|exact Hb1]; intros a; [by apply upd_same|apply upd_upd].
  - eapply others_moved; [exact M1|]. by apply others_declare.
  - exact (mv_out _ _ _ M1).
Qed.

Lemma run_settled ospf rnd D B Q d b0 q : forall b oi,
  let i := oi_address oi in
  agreed d -> (forall a, eligible R a -> D a = (d =? a)) -> D i = (d =? i) -> B i = (b0 =? i) ->
  b = b0 \/ b = bdr_of R D B -> Forall (hello_event i) q ->
  voter d b oi -> bits D (upd B i (b =? i)) oi -> others (declares Q) oi ->
  exists oi' b', run_events ospf rnd q oi = Ret oi' /\ voter d b' oi'
    /\ bits D (upd B i (b' =? i)) oi' /\ others (declares Q) oi' /\ oi_address oi' = i
    /\ (b' = b /\ ScheduleIsm ISM_NeighborChange ∉ q \/ b' = bdr_of R D B)
    /\ exists es, oi_out oi' = oi_out oi ++ es /\ Forall (nbr_event i) es.
Proof.
  induction q as [|e q IH]; intros b oi i Hd HD HDi HBi Hbb Hq V Hb Ho.
  { exists oi, b. split_and!; try done; [left; split; [done|by apply not_elem_of_nil]|].
    exists []. by rewrite app_nil_r. }
  inversion Hq as [|? ? He Hq']; subst.
  assert (Hplain : plain e -> run_events ospf rnd (e :: q) oi = run_events ospf rnd q oi) by by destruct e.
  assert (Hev : plain e \/ (exists n ev, e = ScheduleNsm n ev /\ n <> i
                  /\ ev ∈ [NSM_HelloReceived; NSM_TwoWayReceived; NSM_AdjOK])
                \/ e = ScheduleIsm ISM_NeighborChange).
  { destruct He as [He| ->]; [|by right; right]. destruct e; try (by left).
    right. left. destruct He. eauto. }
  destruct Hev as [He'|[(n & ev & -> & Hne & Hev)| ->]].
  - rewrite Hplain by done. destruct (IH b oi) as (o & b' & ? & ? & ? & ? & ? & Hc & ?); try done.
    exists o, b'. split_and!; try done. destruct Hc as [[? ?]|?]; [left|by right].
    split; [done|]. rewrite not_elem_of_cons. split; [by intros <-|done].
  - cbn [run_events]. destruct (nsm_event_same R ospf rnd n ev oi (vt_member _ _ _ V) Hne Hev) as (o1 & -> & S1).
    cbn [mbind outcome_bind]. pose proof (same_address _ _ S1) as Ei. fold i in Ei.
    destruct (IH b o1) as (o & b' & ? & ? & ? & ? & ? & Hc & es & Ees & Fes);
      rewrite ?Ei; try done; [by eapply voter_same|by eapply same_bits|by eapply others_same|].
    rewrite Ei in *. exists o, b'. split_and!; try done.
    + destruct Hc as [[? ?]|?]; [left|by right]. split; [done|]. rewrite not_elem_of_cons. by split.
    + destruct (sm_out _ _ S1) as (es1 & Ees1 & Fes1). exists (es1 ++ es).
      rewrite Ees, Ees1, app_assoc. split; [done|]. apply Forall_app_2; [|done].
      eapply Forall_impl; [apply plain_nbr_event|done].
  - cbn [run_events]. unfold ospf_ism_event. rewrite (vt_state _ _ _ V). fold i. rewrite role_elects.
    cbn [mbind outcome_bind].
    destruct (settled_step D B Q d b0 b oi) as (V1 & B1 & O1 & Ei & es1 & Ees1 & Fes1); try done. fold i in Ei.
    set (o1 := ism_event_local _ oi) in *.
    destruct (IH (bdr_of R D B) o1) as (o & b' & ? & ? & ? & ? & ? & Hc & es & Ees & Fes);
      rewrite ?Ei; try done; [by right|].
    rewrite Ei in *. exists o, b'. split_and!; try done.
    + right. by destruct Hc as [[? _]|?].
    + exists (es1 ++ es). rewrite Ees, Ees1, app_assoc. split; [done|]. by apply Forall_app_2.
Qed.
End lan.
