(* ===== verification/OspfHello.v ===== *)
(** * The Hello packets of a broadcast network

    What the Hello of a member carries, and what receiving it does. *)

From S2P Require Import Prelude OspfLsa OspfIsm OspfElection OspfNsm OspfStation OspfLan.

(** ** Flags *)

Lemma check_flag_lor v f g : Z.land g f = 0 -> CHECK_FLAG (Z.lor v g) f = CHECK_FLAG v f.
Proof. intros E. unfold CHECK_FLAG. by rewrite Z.land_lor_distr_l, E, Z.lor_0_r. Qed.

Lemma check_flag_unset v f g : Z.land (Z.lnot g) f = f -> CHECK_FLAG (UNSET_FLAG v g) f = CHECK_FLAG v f.
Proof. intros E. unfold CHECK_FLAG, UNSET_FLAG. by rewrite <- Z.land_assoc, E. Qed.

Section hello.
Context (R : list ospf_neighbor) (Hn : network R) (c : hello_conf).
Context (Hsize : OSPF_HELLO_MIN_SIZE + 4 * Z.of_nat (length R) <= c_packet_max c).

(** ** Sending *)

Lemma up_listed x : entry_up x -> nsm_is (n_state x) NSM_Attempt = false /\ nsm_is (n_state x) NSM_Down = false.
Proof. intros [H _]. by destruct (n_state x). Qed.

Lemma hello_neighbors_all oi l : forall len,
  Forall (fun x => entry_up x /\ n_router_id x <> 0) l ->
  len + 4 * Z.of_nat (length l) <= c_packet_max c ->
  hello_neighbors (c_packet_max c) len oi l
  = Some (List.filter (fun r => negb (r =? oi_router_id oi)) (map n_router_id l)).
Proof.
  induction l as [|x l IH]; intros len Hl Hlen; [done|].
  inversion Hl as [|? ? [Hu Hr] Hl']; subst. cbn [hello_neighbors map List.filter].
  destruct (up_listed x Hu) as [-> ->]. destruct (Z.eqb_spec (n_router_id x) 0) as [|_]; [done|].
  cbn [orb]. cbn [length] in Hlen. destruct (n_router_id x =? oi_router_id oi); cbn [negb].
  - apply IH; [done|lia].
  - destruct (Z.ltb_spec (c_packet_max c) (len + 4)); [lia|]. by rewrite IH by (done || lia).
Qed.

(** What the Hello of a router says. *)
Record hello_of (oi : ospf_interface) (h : ospf_hello_packet) : Prop := mkHelloOf {
  ho_src : h_src h = oi_address oi;
  ho_router_id : h_router_id h = oi_router_id oi;
  ho_masklen : h_masklen h = c_prefixlen c;
  ho_hello : c_fast_hello c = false -> h_hello_interval h = c_v_hello c;
  ho_dead : h_dead_interval h = c_v_wait c;
  ho_options : CHECK_FLAG (h_options h) OSPF_OPTION_E = true
               /\ CHECK_FLAG (h_options h) OSPF_OPTION_MT = false;
  ho_priority : h_priority h = PRIORITY oi;
  ho_dr : h_d_router h = DR oi;
  ho_bdr : h_bd_router h = BDR oi
           \/ h_bd_router h = 0 /\ Exists (fun x => seen_as_both oi x = true) (oi_nbrs oi);
  ho_neighbors : forall r, r ∈ map n_router_id R -> r <> oi_router_id oi -> r ∈ h_neighbors h
}.

(** The router's own options follow the configuration. *)
Definition relabel (o : Z) (oi : ospf_interface) : ospf_interface :=
  nbr_update (oi_nbr_self oi) (set_n_options o) oi.

Lemma relabel_self_field f o oi x :
  nbr_find (oi_nbr_self oi) oi = Some x -> self_field f (relabel o oi) = f (set_n_options o x).
Proof.
  intros E. unfold self_field, nbr_find, relabel, nbr_update. cbn [oi_nbrs oi_nbr_self set_oi_nbrs].
  rewrite find_map_id by done. unfold nbr_find in E. by rewrite E.
Qed.

Lemma relabel_forall (P : ospf_neighbor -> Prop) o oi :
  (forall x, P x -> P (set_n_options o x)) -> Forall P (oi_nbrs oi) -> Forall P (oi_nbrs (relabel o oi)).
Proof.
  intros HP H. apply Forall_forall. intros y Hy. apply in_map_iff in Hy as (x & <- & Hx).
  rewrite Forall_forall in H. case_bool; auto.
Qed.

Lemma relabel_member o oi :
  CHECK_FLAG o OSPF_OPTION_E = true -> CHECK_FLAG o OSPF_OPTION_MT = false ->
  member R oi -> member R (relabel o oi).
Proof.
  intros HE HM Hm. destruct (self_entry R Hn oi Hm) as (x & _ & _ & _ & _ & Ef).
  destruct Hm as [? ? ? Ht Hu ? ? ?]. split; try done.
  - rewrite <- Ht. unfold relabel, nbr_update. cbn. rewrite map_map. apply map_ext. intros y. by case_bool.
  - by apply relabel_forall.
  - unfold OPTIONS. by rewrite (relabel_self_field n_options o oi x Ef).
Qed.

Lemma relabel_self o oi (f : ospf_neighbor -> Z) :
  member R oi -> (forall x, f (set_n_options o x) = f x) -> self_field f (relabel o oi) = self_field f oi.
Proof.
  intros Hm Hf. destruct (self_entry R Hn oi Hm) as (x & _ & _ & _ & _ & Ef).
  rewrite (relabel_self_field f o oi x Ef), Hf. unfold self_field. by rewrite Ef.
Qed.

Lemma make_hello_member oi :
  member R oi ->
  exists h o, ospf_make_hello c None oi = (Some h, relabel o oi) /\ hello_of oi h
    /\ member R (relabel o oi).
Proof.
  intros Hm. destruct (self_entry R Hn oi Hm) as (x & _ & _ & _ & _ & Ef).
  unfold ospf_make_hello. set (o := if c_flood_reduction c then _ else _).
  destruct (mem_options _ _ Hm) as [HE HM].
  assert (Ho : CHECK_FLAG o OSPF_OPTION_E = true /\ CHECK_FLAG o OSPF_OPTION_MT = false).
  { unfold o. case_bool; [rewrite !check_flag_lor by done|rewrite !check_flag_unset by done]; done. }
  cbv zeta. fold (relabel o oi). pose proof (relabel_member o oi (proj1 Ho) (proj2 Ho) Hm) as Hm'.
  rewrite hello_neighbors_all.
  - cbn [mbind option_bind]. eexists _, o. split; [reflexivity|]. split; [|done].
    split; cbn; try done.
    + change (oi_type (relabel o oi)) with (oi_type oi). by rewrite (mem_type _ _ Hm), andb_false_r.
    + by intros ->.
    + unfold PRIORITY. by apply relabel_self.
    + unfold DR. by apply relabel_self.
    + destruct (existsb _ _) eqn:Ex; [right|left; unfold BDR; by apply relabel_self].
      split; [done|]. apply existsb_exists in Ex as (y & Hy & Sy).
      apply in_map_iff in Hy as (z & <- & Hz). apply list.Exists_exists. exists z.
      split; [by apply list_elem_of_In|]. revert Sy. by case_bool.
    + intros r Hr Hne. apply list_elem_of_In, filter_In.
      split; [|apply negb_true_iff; by apply Z.eqb_neq].
      assert (E : map n_router_id (oi_nbrs (relabel o oi)) = map n_router_id R).
      { transitivity (map (fun i => snd (fst i)) (map ident (oi_nbrs (relabel o oi)))); [by rewrite map_map|].
        by rewrite (mem_table _ _ Hm'), map_map. }
      cbn in E. rewrite E. by apply list_elem_of_In.
  - apply Forall_forall. intros y Hy. split.
    + pose proof (mem_up _ _ Hm') as Hu. rewrite Forall_forall in Hu. auto.
    + apply (entry_facts R Hn (relabel o oi) y Hm'). by apply list_elem_of_In.
  - assert (El : length (oi_nbrs (relabel o oi)) = length R).
    { rewrite <- (length_map ident), (mem_table _ _ Hm'). apply length_map. }
    rewrite El. exact Hsize.
Qed.
(** ** Receiving *)

Lemma entries_agree o1 o2 x y :
  member R o1 -> member R o2 -> x ∈ oi_nbrs o1 -> y ∈ oi_nbrs o2 -> n_address x = n_address y ->
  ident x = ident y.
Proof.
  intros H1 H2 Hx Hy E.
  destruct (entry_facts R Hn o1 x H1 Hx) as (_ & _ & _ & x' & Hx' & Ex).
  destruct (entry_facts R Hn o2 y H2 Hy) as (_ & _ & _ & y' & Hy' & Ey).
  rewrite Ex, Ey. f_equal. apply (addr_inj R (net_addresses _ Hn)); [done..|].
  unfold ident in Ex, Ey. congruence.
Qed.

Lemma nbr_update_id n f oi :
  (forall x, x ∈ oi_nbrs oi -> n_id x = n -> f x = x) -> nbr_update n f oi = oi.
Proof.
  intros H. unfold nbr_update. assert (E : map (fun x => if n_id x =? n then f x else x) (oi_nbrs oi) = oi_nbrs oi).
  { rewrite <- (map_id (oi_nbrs oi)) at 2. apply map_ext_in. intros x Hx.
    destruct (Z.eqb_spec (n_id x) n); [apply H; [by apply list_elem_of_In|done]|done]. }
  rewrite E. by destruct oi.
Qed.

Lemma emit_emit_all e oi : emit e oi = emit_all [e] oi.
Proof. done. Qed.

Lemma emit_all_app p q oi : emit_all q (emit_all p oi) = emit_all (p ++ q) oi.
Proof. unfold emit_all, set_oi_out. cbn. by rewrite app_assoc. Qed.

Lemma update_emit_all n f q oi : nbr_update n f (emit_all q oi) = emit_all q (nbr_update n f oi).
Proof. done. Qed.

Lemma update_update n f g oi :
  (forall x, n_id (f x) = n_id x) ->
  nbr_update n g (nbr_update n f oi) = nbr_update n (fun x => g (f x)) oi.
Proof.
  intros Hf. unfold nbr_update, set_oi_nbrs. cbn. f_equal. rewrite map_map. apply map_ext. intros x.
  destruct (n_id x =? n) eqn:E; [by rewrite Hf, E|by rewrite E].
Qed.

Lemma set_out_emit_all q n f oi :
  set_oi_out (oi_out oi ++ q) (nbr_update n f oi) = emit_all q (nbr_update n f oi).
Proof. done. Qed.

Lemma hello_from_self oi h : h_router_id h = oi_router_id oi -> ospf_hello c h oi = oi.
Proof. intros E. unfold ospf_hello, hello_accepted. by rewrite E, Z.eqb_refl. Qed.

Lemma hello_accepted_member from oi h :
  member R oi -> hello_of from h -> oi_router_id from <> oi_router_id oi ->
  exists o, hello_accepted c h oi = Some o.
Proof.
  intros Hm Hh Hne. destruct Hh as [_ Er Em Eh Ed [HE HM] _ _ _ _]. unfold hello_accepted.
  rewrite Er. destruct (Z.eqb_spec (oi_router_id from) (oi_router_id oi)); [done|].
  rewrite Em, Z.eqb_refl, Ed, Z.eqb_refl, HM, (mem_area _ _ Hm). cbn [negb]. rewrite andb_false_r.
  set (o := if c_opaque c && _ then _ else _).
  assert (HE' : CHECK_FLAG o OSPF_OPTION_E = true).
  { unfold o. case_bool; [by rewrite check_flag_unset|done]. }
  change (OSPF_AREA_DEFAULT =? OSPF_AREA_NSSA) with false. cbv iota.
  rewrite HE', (proj1 (mem_options _ _ Hm)). cbn [Bool.eqb negb].
  destruct (c_fast_hello c); cbn [negb andb]; [by exists o|].
  rewrite Eh, Z.eqb_refl by done. by exists o.
Qed.

Lemma ospf_hello_other from oi h :
  member R from -> member R oi -> hello_of from h -> oi_address from <> oi_address oi ->
  let j := oi_address from in
  exists y o, y ∈ oi_nbrs oi /\ n_id y = j /\ n_address y = j /\ n_priority y = h_priority h
    /\ ospf_hello c h oi
       = set_oi_out (oi_out oi ++ [ScheduleNsm j NSM_HelloReceived; ScheduleNsm j NSM_TwoWayReceived]
                     ++ map ScheduleIsm (hello_ism_events h y oi))
           (nbr_update j (fun x => set_declared h (set_n_options (Z.lor (n_options x) o) x)) oi).
Proof.
  intros Hf Hm Hh Hne j.
  destruct (self_entry R Hn from Hf) as (x & Hx & _ & Ax & Rx & Fx).
  assert (HxR : exists y, y ∈ oi_nbrs oi /\ ident y = ident x).
  { destruct (entry_facts R Hn from x Hf Hx) as (_ & _ & _ & x' & Hx' & Ex).
    destruct (map_ident_lookup R (oi_nbrs oi) x' (eq_sym (mem_table _ _ Hm)) Hx') as (y & Hy & Ey).
    exists y. split; [done|]. congruence. }
  destruct HxR as (y & Hy & Ey). unfold ident in Ey. injection Ey as Ei Ea Er Ep.
  assert (Ay : n_address y = j) by (unfold j; congruence).
  destruct (entry_facts R Hn oi y Hm Hy) as (Ky & _).
  assert (Hrid : oi_router_id from <> oi_router_id oi).
  { rewrite <- Rx, <- Er. rewrite (self_unique R Hn oi y Hm Hy). rewrite Ky, Ay. exact Hne. }
  destruct (hello_accepted_member from oi h Hm Hh Hrid) as (o & Eacc). exists y, o.
  assert (Ef : nbr_find j oi = Some y) by (rewrite <- Ay; by apply (find_entry R Hn)).
  assert (Hup : entry_up y).
  { pose proof (mem_up _ _ Hm) as Hu. rewrite Forall_forall in Hu. apply Hu. by apply list_elem_of_In. }
  split_and!; [done|congruence|done| |].
  { rewrite (ho_priority _ _ Hh). unfold PRIORITY, self_field. by rewrite Fx. }
  assert (Eg : ospf_nbr_get (h_router_id h) (h_src h) (h_crypt h) oi = (j, oi)).
  { unfold ospf_nbr_get.
    assert (by_router_id oi = false) as -> by (unfold by_router_id; by rewrite (mem_type _ _ Hm)).
    assert (OSPF_IF_NON_BROADCAST oi = false) as ->
      by (unfold OSPF_IF_NON_BROADCAST; by rewrite (mem_type _ _ Hm)).
    rewrite (ho_src _ _ Hh). fold j. rewrite Ef. cbn [andb]. f_equal. apply nbr_update_id.
    intros z Hz Ez. assert (z = y) as ->.
    { assert (nbr_find j oi = Some z); [|congruence].
      destruct (entry_facts R Hn oi z Hm Hz) as (Kz & _). rewrite <- Ez, Kz. by apply (find_entry R Hn). }
    rewrite (ho_router_id _ _ Hh), <- Rx, <- Er. by destruct y. }
  unfold ospf_hello. rewrite Eacc, Eg, Ef.
  change (oi_type (emit _ oi)) with (oi_type oi). rewrite (mem_type _ _ Hm).
  change (OSPF_IFTYPE_BROADCAST =? OSPF_IFTYPE_NBMA) with false. cbn [andb].
  change (oi_type (emit _ oi)) with (oi_type oi). rewrite (mem_type _ _ Hm).
  change (OSPF_IFTYPE_BROADCAST =? OSPF_IFTYPE_NBMA) with false. cbn [andb].
  rewrite bool_decide_eq_true_2.
  2:{ apply (ho_neighbors _ _ Hh); [|by apply not_eq_sym].
      pose proof (mem_in _ _ Hm) as Hin. apply list_elem_of_In, in_map_iff in Hin as (z & Ez & Hz).
      injection Ez as _ Ez. change (oi_router_id (emit _ oi)) with (oi_router_id oi).
      rewrite <- Ez. by apply list_elem_of_In, in_map. }
  destruct Hup as [_ ->]. rewrite !emit_emit_all, !update_emit_all, !emit_all_app.
  rewrite update_update by done.
  change (oi_restarting (emit_all _ _)) with (oi_restarting oi). rewrite (mem_restarting _ _ Hm). cbn [andb].
  by rewrite set_out_emit_all.
Qed.
(** The entries of a member that have key [j] are one. *)
Lemma entry_unique oi x y : member R oi -> x ∈ oi_nbrs oi -> y ∈ oi_nbrs oi -> n_id x = n_id y -> x = y.
Proof.
  intros Hm Hx Hy E. assert (Some x = Some y) by
    (rewrite <- (find_entry R Hn oi x Hm Hx), <- (find_entry R Hn oi y Hm Hy);
     destruct (entry_facts R Hn oi x Hm Hx) as (<- & _);
     destruct (entry_facts R Hn oi y Hm Hy) as (<- & _); by rewrite E).
  congruence.
Qed.

Lemma update_other_self_field n f g oi :
  (forall x, n_id (f x) = n_id x) -> n <> oi_nbr_self oi ->
  self_field g (nbr_update n f oi) = self_field g oi.
Proof.
  intros Hf Hne. unfold self_field, nbr_find, nbr_update. cbn [oi_nbrs oi_nbr_self set_oi_nbrs].
  induction (oi_nbrs oi) as [|x l IH]; [done|]. cbn [map find].
  destruct (Z.eqb_spec (n_id x) n) as [E|_]; [|by case_bool]. rewrite Hf, E.
  by destruct (Z.eqb_spec n (oi_nbr_self oi)).
Qed.

(** No interface event: the Hello says what the table says. *)
Lemma hello_events_spec h y oi :
  oi_state oi <> ISM_Waiting -> n_priority y = h_priority h ->
  Forall (eq ISM_NeighborChange) (hello_ism_events h y oi)
  /\ (hello_ism_events h y oi = [] ->
      NBR_IS_DR y = (h_d_router h =? n_address y) /\ NBR_IS_BDR y = (h_bd_router h =? n_address y)).
Proof.
  intros Hw Hp. unfold hello_ism_events, NBR_IS_DR, NBR_IS_BDR.
  assert (ism_is (oi_state oi) ISM_Waiting = false) as -> by by apply bool_decide_eq_false_2.
  rewrite andb_false_r. cbn [andb app]. rewrite Hp, Z.eqb_refl, andb_false_r, app_nil_r.
  rewrite (Z.eqb_sym (h_d_router h)), (Z.eqb_sym (h_bd_router h)).
  destruct (n_address y =? h_d_router h), (n_address y =? n_d_router y), (n_address y =? h_bd_router h),
    (n_address y =? n_bd_router y); cbn; split; try done; repeat constructor.
Qed.

(** The entries that a router heard of declare [d]. *)
Definition heard (d : Z) (S : list Z) (oi : ospf_interface) : Prop :=
  Forall (fun x => n_id x <> oi_nbr_self oi -> n_address x ∈ S -> n_d_router x = d) (oi_nbrs oi).

(** One Hello of another router. *)
Lemma hello_receive from h d b D B S oi :
  member R from -> hello_of from h -> h_d_router h = d ->
  let i := oi_address oi in
  let j := oi_address from in
  j <> i -> voter R d b oi -> bits D B oi -> heard d S oi ->
  let oi' := ospf_hello c h oi in
  voter R d b oi' /\ bits (upd D j (h_d_router h =? j)) (upd B j (h_bd_router h =? j)) oi'
  /\ heard d (S ++ [j]) oi' /\ oi_address oi' = i
  /\ exists es, oi_out oi' = oi_out oi ++ es /\ Forall (hello_event i) es
     /\ (ScheduleIsm ISM_NeighborChange ∉ es -> D j = (h_d_router h =? j) /\ B j = (h_bd_router h =? j)).
Proof.
  intros Hf Hh Ehd i j Hji V Hb Hhd oi'. destruct V as [Hm Ed Eb Es].
  destruct (ospf_hello_other from oi h Hf Hm Hh Hji) as (y & o & Hy & Iy & Ay & Py & E).
  fold j in E, Iy, Ay. unfold oi'. rewrite E. clear oi'.
  set (f := fun x => set_declared h (set_n_options (Z.lor (n_options x) o) x)). fold f in E.
  assert (Hself : j <> oi_nbr_self oi) by by rewrite (mem_self _ _ Hm).
  assert (Hent : forall z, z ∈ oi_nbrs oi -> n_id z = j -> z = y).
  { intros z Hz Ez. apply (entry_unique oi); [done..|congruence]. }
  set (o1 := nbr_update j f oi).
  assert (Hsf : forall g, self_field g o1 = self_field g oi) by
    (intros g; by apply update_other_self_field).
  assert (Hm1 : member R o1).
  { apply (member_change R oi); [done|done| | |exact (Hsf n_options)].
    - unfold o1, nbr_update. cbn. rewrite map_map. apply map_ext_in. intros z Hz%list_elem_of_In.
      destruct (Z.eqb_spec (n_id z) j) as [Ez|]; [|done]. rewrite (Hent z Hz Ez). unfold ident, f. cbn. by rewrite Py.
    - apply Forall_forall. intros z Hz. apply in_map_iff in Hz as (w & <- & Hw).
      pose proof (mem_up _ _ Hm) as Hu. rewrite Forall_forall in Hu. specialize (Hu w Hw). by case_bool. }
  assert (Hs : oi_state oi <> ISM_Waiting) by (rewrite Es; unfold role; by repeat case_bool).
  destruct (hello_events_spec h y oi Hs Py) as [Hev Hnone].
  destruct (bits_at D B oi y Hb Hy) as [By1 By2]. rewrite Ay in By1, By2, Hnone.
  split_and!.
  - split; [|exact (eq_trans (Hsf n_d_router) Ed)|exact (eq_trans (Hsf n_bd_router) Eb)|exact Es].
    apply (member_change R o1); [done..|apply Hm1|done].
  - apply Forall_forall. intros z Hz. apply in_map_iff in Hz as (w & <- & Hw%list_elem_of_In).
    destruct (entry_facts R Hn oi w Hm Hw) as (Kw & _). destruct (bits_at D B oi w Hb Hw) as [E1 E2].
    unfold upd. rewrite Kw. destruct (Z.eqb_spec (n_address w) j) as [Ew|Ew].
    + unfold NBR_IS_DR, NBR_IS_BDR, f. cbn. rewrite Ew, Z.eqb_refl. split; apply Z.eqb_sym.
    + destruct (Z.eqb_spec (n_address w) j); done.
  - apply Forall_forall. intros z Hz. apply in_map_iff in Hz as (w & <- & Hw).
    unfold heard in Hhd. rewrite Forall_forall in Hhd. specialize (Hhd w Hw).
    apply list_elem_of_In in Hw. destruct (entry_facts R Hn oi w Hm Hw) as (Kw & _).
    destruct (Z.eqb_spec (n_id w) j) as [Ew|Ew]; [done|]. intros Hne Hin. apply Hhd; [done|].
    apply elem_of_app in Hin as [Hin|Hin]; [done|]. apply list_elem_of_singleton in Hin. congruence.
  - done.
  - eexists. split; [reflexivity|]. split.
    + constructor; [left; split; [done|left]|]. constructor; [left; split; [done|right; left]|].
      apply Forall_forall. intros e He. apply in_map_iff in He as (v & <- & Hv).
      rewrite Forall_forall in Hev. right. by rewrite <- (Hev v Hv).
    + cbn [app]. rewrite !not_elem_of_cons. intros (_ & _ & Hno). rewrite <- By1, <- By2. apply Hnone.
      destruct (hello_ism_events h y oi) as [|v vs]; [done|]. destruct Hno.
      inversion Hev; subst. left.
Qed.
End hello.
