(* ===== verification/OspfConverge.v ===== *)
(** * The routers of a network agree on their designated routers

    From any state of the routers of a broadcast network, one election of
    everybody and one round of Hellos make all of them declare the same
    designated and backup routers, and further Hellos change nothing. *)

From S2P Require Import Prelude OspfLsa OspfIsm OspfElection OspfNsm OspfStation OspfLan OspfHello.

(** What a router hears from the routers [S], over what it knew. *)
Definition over (i : Z) (S : list Z) (F D : Z -> bool) (a : Z) : bool :=
  if negb (a =? i) && bool_decide (a ∈ S) then F a else D a.

(** No router declares the same router for both. *)
Definition sane (d b : Z) : Prop := d = 0 \/ d <> b.

(** A router before the election: it has heard from all, its state is the one of
    what it declares, or it still waits. *)
Record start (R : list ospf_neighbor) (D B : Z -> bool) (oi : ospf_interface) : Prop := mkStart {
  st_member : member R oi;
  st_bits : bits D B oi;
  st_state : oi_state oi ∈ [ISM_Waiting; ISM_DROther; ISM_Backup; ISM_DR];
  st_dr : ism_is (oi_state oi) ISM_DR = D (oi_address oi);
  st_sane : others (declares sane) oi
}.

Section converge.
Context (R : list ospf_neighbor) (Hn : network R) (c : hello_conf).
Context (Hsize : OSPF_HELLO_MIN_SIZE + 4 * Z.of_nat (length R) <= c_packet_max c).

(** A router that takes part, with its table. *)
Record station (d b : Z) (D B : Z -> bool) (Q : Z -> Z -> Prop) (oi : ospf_interface) : Prop := mkStation {
  sn_voter : voter R d b oi;
  sn_bits : bits D B oi;
  sn_dr : D (oi_address oi) = (d =? oi_address oi);
  sn_bdr : B (oi_address oi) = (b =? oi_address oi);
  sn_others : others (declares Q) oi
}.

Lemma router_id_of_address o1 o2 :
  member R o1 -> member R o2 -> oi_address o1 = oi_address o2 -> oi_router_id o1 = oi_router_id o2.
Proof.
  intros H1 H2 E. destruct (self_entry R Hn o1 H1) as (x & Hx & _ & Ax & Rx & _).
  destruct (self_entry R Hn o2 H2) as (y & Hy & _ & Ay & Ry & _).
  assert (Exy : ident x = ident y) by (eapply (entries_agree R Hn o1 o2); try done; congruence).
  unfold ident in Exy. congruence.
Qed.

(** ** Receiving the Hellos of all *)

Lemma over_snoc i S j F D a :
  j <> i -> over i (S ++ [j]) F D a = upd (over i S F D) j (F j) a.
Proof.
  intros Hj. unfold over, upd. destruct (Z.eqb_spec a j) as [->|Hne].
  - destruct (Z.eqb_spec j i); [done|]. rewrite bool_decide_eq_true_2; [done|].
    apply elem_of_app. right. by apply list_elem_of_singleton.
  - assert (bool_decide (a ∈ S ++ [j]) = bool_decide (a ∈ S)) as ->; [|done].
    apply bool_decide_ext. rewrite elem_of_app, list_elem_of_singleton. naive_solver.
Qed.

Lemma over_snoc_self i S F D a : over i (S ++ [i]) F D a = over i S F D a.
Proof.
  unfold over. destruct (Z.eqb_spec a i) as [->|Hne]; [done|]. cbn [negb andb].
  assert (bool_decide (a ∈ S ++ [i]) = bool_decide (a ∈ S)) as ->; [|done].
  apply bool_decide_ext. rewrite elem_of_app, list_elem_of_singleton. naive_solver.
Qed.

Lemma hello_fold d b D B F G oi hs :
  let i := oi_address oi in
  (forall h, h ∈ hs -> exists from, member R from /\ hello_of R c from h /\ h_d_router h = d
     /\ F (oi_address from) = (d =? oi_address from)
     /\ G (oi_address from) = (h_bd_router h =? oi_address from)) ->
  voter R d b oi -> bits D B oi -> oi_out oi = [] ->
  let S := map h_src hs in
  let oi' := fold_left (fun o h => ospf_hello c h o) hs oi in
  voter R d b oi' /\ bits (over i S F D) (over i S G B) oi' /\ heard d S oi' /\ oi_address oi' = i
  /\ Forall (hello_event i) (oi_out oi')
  /\ (ScheduleIsm ISM_NeighborChange ∉ oi_out oi' ->
      forall a, a ∈ S -> a <> i -> D a = F a /\ B a = G a).
Proof.
  intros i. induction hs as [|h hs IH] using rev_ind; intros Hh V Hb Eo.
  { cbn. split_and!; [done| | |done|by rewrite Eo|].
    - eapply bits_ext; [..|exact Hb]; intros a; unfold over;
        by rewrite bool_decide_eq_false_2, andb_false_r by apply not_elem_of_nil.
    - apply Forall_forall. intros x _ _ Hx. by apply elem_of_nil in Hx.
    - intros _ a Ha. by apply elem_of_nil in Ha. }
  destruct IH as (V1 & B1 & H1 & A1 & Q1 & N1); [|done..|].
  { intros h' Hh'. apply Hh. apply elem_of_app. by left. }
  cbv zeta. rewrite fold_left_app, map_app. cbn [fold_left map].
  set (o1 := fold_left _ hs oi) in *.
  destruct (Hh h) as (from & Hf & Ho & Hd & HF & HG); [apply elem_of_app; right; by left|].
  rewrite (ho_src _ _ _ _ Ho). destruct (Z.eq_dec (oi_address from) i) as [Ei|Ei].
  - rewrite hello_from_self.
    2:{ rewrite (ho_router_id _ _ _ _ Ho). apply router_id_of_address; [done|apply V1|congruence]. }
    rewrite Ei. split_and!; [done| | |done|done|].
    + eapply bits_ext; [..|exact B1]; intros a; symmetry; apply over_snoc_self.
    + apply Forall_forall. intros x Hx Hne Hin. pose proof H1 as H1'. unfold heard in H1'.
      rewrite Forall_forall in H1'. apply (H1' x Hx Hne).
      apply elem_of_app in Hin as [?|Hin]; [done|]. apply list_elem_of_singleton in Hin.
      apply list_elem_of_In in Hx. pose proof (vt_member _ _ _ _ V1) as Hm1.
      destruct (entry_facts R Hn o1 x Hm1 Hx) as (Kx & _).
      rewrite (mem_self _ _ Hm1), A1 in Hne. congruence.
    + intros Hno a Ha Hne. apply N1; [done| |done]. apply elem_of_app in Ha as [?|Ha]; [done|].
      by apply list_elem_of_singleton in Ha.
  - assert (Hji : oi_address from <> oi_address o1) by congruence.
    destruct (hello_receive R Hn c from h d b _ _ (map h_src hs) o1 Hf Ho Hd Hji V1 B1 H1)
      as (V2 & B2 & H2 & A2 & es & Q2 & F2 & N2).
    rewrite A1 in *. split_and!; [done| |done|done| |].
    + eapply bits_ext; [..|exact B2]; intros a; rewrite over_snoc by done; unfold upd; case_bool; congruence.
    + rewrite Q2. by apply Forall_app_2.
    + rewrite Q2. intros Hno a Ha Hne. apply not_elem_of_app in Hno as [Hno1 Hno2].
      destruct (decide (a ∈ map h_src hs)) as [|Hnin]; [by apply N1|].
      apply elem_of_app in Ha as [?|Ha]; [done|]. apply list_elem_of_singleton in Ha as ->.
      destruct (N2 Hno2) as [E1 E2]. unfold over in E1, E2.
      rewrite (bool_decide_eq_false_2 (_ ∈ _)), andb_false_r in E1, E2 by done. split; congruence.
Qed.
(** ** A round of Hellos *)

Lemma station_relabel d b D B Q o oi :
  member R (relabel o oi) -> station d b D B Q oi -> station d b D B Q (set_oi_out [] (relabel o oi)).
Proof.
  intros Hm' [[Hm Ed Eb Es] Hb HD HB Ho].
  assert (Hm2 : member R (set_oi_out [] (relabel o oi))).
  { eapply member_change; [exact Hm'|done..|apply Hm'|done]. }
  split; [split; [done| | |done]| |done|done|].
  - change (DR (relabel o oi) = d). rewrite <- Ed. by apply (relabel_self R Hn).
  - change (BDR (relabel o oi) = b). rewrite <- Eb. by apply (relabel_self R Hn).
  - change (bits D B (relabel o oi)). by apply relabel_forall.
  - change (others (declares Q) (relabel o oi)). by apply (relabel_forall (fun x => n_id x <> _ -> declares Q x)).
Qed.

(** The Hello tells whether the router declares itself backup. *)
Lemma hello_bdr_bit d b D B Q oi h :
  station d b D B Q oi -> hello_of R c oi h ->
  (b = oi_address oi -> forall d' b', Q d' b' -> d' = oi_address oi -> b' = oi_address oi -> False) ->
  (h_bd_router h =? oi_address oi) = (b =? oi_address oi).
Proof.
  intros [[Hm Ed Eb Es] _ _ _ Ho] Hh Hq. destruct (ho_bdr _ _ _ _ Hh) as [->|[-> Hex]]; [by rewrite Eb|].
  destruct (self_entry R Hn oi Hm) as (x0 & Hx0 & _ & Ax0 & _).
  destruct (entry_facts R Hn oi x0 Hm Hx0) as (_ & Hz & _). rewrite Ax0 in Hz.
  destruct (Z.eqb_spec 0 (oi_address oi)); [congruence|].
  destruct (Z.eqb_spec b (oi_address oi)) as [E|]; [|done]. exfalso.
  apply list.Exists_exists in Hex as (x & Hx & Sx). unfold seen_as_both in Sx.
  apply andb_true_iff in Sx as [Sx Ebd]. apply andb_true_iff in Sx as [Sx Edr].
  apply andb_true_iff in Sx as [Sx _]. apply negb_true_iff, orb_false_iff in Sx as [_ Sr].
  unfold others in Ho. rewrite Forall_forall in Ho. apply (Hq E (n_d_router x) (n_bd_router x)); [|lia..].
  apply Ho; [by apply list_elem_of_In|]. rewrite (mem_self _ _ Hm).
  intros Ei. apply (self_unique R Hn oi x Hm Hx) in Ei. lia.
Qed.

Lemma bits_ext_in D B D' B' oi :
  (forall x, x ∈ oi_nbrs oi -> D (n_address x) = D' (n_address x) /\ B (n_address x) = B' (n_address x)) ->
  bits D B oi -> bits D' B' oi.
Proof.
  intros H Hb. apply Forall_forall. intros x Hx%list_elem_of_In.
  destruct (bits_at D B oi x Hb Hx) as [-> ->]. by apply H.
Qed.

(** One router receives the Hellos [hs] of all and runs its events. *)
Lemma station_round ospf rnd d b D B Q B1 hs oi :
  let i := oi_address oi in
  agreed R d -> (forall x, x ∈ R -> n_address x ∈ map h_src hs) ->
  (forall h, h ∈ hs -> exists from, member R from /\ hello_of R c from h /\ h_d_router h = d
     /\ B1 (oi_address from) = (h_bd_router h =? oi_address from)) ->
  station d b D B Q oi -> B1 i = (b =? i) -> oi_out oi = [] ->
  let D1 a := d =? a in
  exists oi' b', drain 2 ospf rnd (fold_left (fun o h => ospf_hello c h o) hs oi) = Ret oi'
    /\ oi_address oi' = i
    /\ station d b' D1 (upd B1 i (b' =? i)) (fun d' _ => d' = d) oi' /\ plain_queue oi'
    /\ (b' = bdr_of R D1 B1
        \/ b' = b /\ forall a, eligible R a -> a <> i -> D1 a = D a /\ B1 a = B a).
Proof.
  intros i Hd Hall Hhs [V Hb HD HB Ho] HBi Eo D1.
  destruct (hello_fold d b D B D1 B1 oi hs) as (V1 & Hb1 & Hh1 & A1 & Q1 & N1); [|done..|].
  { intros h Hh. destruct (Hhs h Hh) as (from & ? & ? & ? & ?). by exists from. }
  fold i in Hb1, A1, Q1, N1. set (o1 := fold_left _ hs oi) in *. cbn [drain].
  pose proof (vt_member _ _ _ _ V1) as Hm1.
  assert (HS : forall x, x ∈ oi_nbrs o1 -> n_address x ∈ map h_src hs).
  { intros x Hx. destruct (entry_facts R Hn o1 x Hm1 Hx) as (_ & _ & _ & y & Hy & Ey).
    assert (n_address x = n_address y) as -> by (unfold ident in Ey; congruence). by apply Hall. }
  assert (Hb1' : bits D1 (upd B1 i (b =? i)) (set_oi_out [] o1)).
  { change (bits D1 (upd B1 i (b =? i)) o1). eapply bits_ext_in; [|exact Hb1]. intros x Hx. cbn.
    rewrite upd_same by done. unfold over. rewrite bool_decide_eq_true_2 by by apply HS.
    destruct (Z.eqb_spec (n_address x) i) as [->|]; [|done]. cbn. split; [exact HD|]. by rewrite HBi. }
  assert (Ho1 : others (declares (fun d' _ => d' = d)) (set_oi_out [] o1)).
  { change (others (declares (fun d' _ => d' = d)) o1). apply Forall_forall. intros x Hx Hne.
    unfold heard in Hh1. rewrite Forall_forall in Hh1. apply Hh1; [done..|].
    apply HS. by apply list_elem_of_In. }
  assert (V1' : voter R d b (set_oi_out [] o1)).
  { destruct V1 as [? ? ? ?]. split; [|done..]. eapply member_change; [exact Hm1|done..|apply Hm1|done]. }
  destruct (run_settled R Hn ospf rnd D1 B1 (fun d' _ => d' = d) d b (oi_out o1) b (set_oi_out [] o1))
    as (o2 & b' & E2 & V2 & Hb2 & Ho2 & A2 & Hc & es & Q2 & F2); try done;
    change (oi_address (set_oi_out [] o1)) with (oi_address o1) in *; rewrite ?A1 in *; try done; [by left|].
  rewrite E2. cbn [mbind outcome_bind drain].
  destruct (run_nbr_events R ospf rnd (oi_out o2) (set_oi_out [] o2)) as (o3 & E3 & S3).
  { eapply member_change; [apply V2|done..|apply V2|done]. }
  { change (oi_address (set_oi_out [] o2)) with (oi_address o2). rewrite A2, Q2. done. }
  rewrite E3. cbn [mbind outcome_bind]. pose proof (same_address _ _ S3) as A3. cbn in A3.
  change (oi_address (set_oi_out [] o2)) with (oi_address o2) in A3. rewrite A2 in A3.
  exists o3, b'. split; [done|]. split; [done|]. split_and!.
  - split.
    + eapply voter_same; [|exact S3]. destruct V2 as [Hm2 ? ? ?]. split; [|done..].
      eapply member_change; [exact Hm2|done..|apply Hm2|done].
    + eapply same_bits; [exact S3|exact Hb2].
    + by rewrite A3.
    + rewrite A3. unfold upd. by rewrite Z.eqb_refl.
    + eapply others_same; [exact S3|exact Ho2].
  - unfold plain_queue. destruct (sm_out _ _ S3) as (es3 & -> & F3). done.
  - destruct Hc as [[-> Hno]| ->]; [right|by left]. split; [done|]. intros a (x & Hx & _ & <-) Hne.
    destruct (N1 Hno (n_address x)); auto.
Qed.
(** ** The whole network *)

Lemma hellos_of lan h :
  Forall (member R) lan -> h ∈ omap fst (map (ospf_make_hello c None) lan) ->
  exists oi, oi ∈ lan /\ hello_of R c oi h.
Proof.
  intros Hm Hh. apply list_elem_of_omap in Hh as ([h' o] & Hin & Eh). cbn in Eh. subst h'.
  apply list_elem_of_In, in_map_iff in Hin as (oi & E & Hoi). exists oi.
  split; [by apply list_elem_of_In|]. rewrite Forall_forall in Hm.
  destruct (make_hello_member R Hn c Hsize oi (Hm oi Hoi)) as (h' & o' & E' & Hh' & _). congruence.
Qed.

Lemma hellos_cover lan :
  Forall (member R) lan -> map h_src (omap fst (map (ospf_make_hello c None) lan)) = map oi_address lan.
Proof.
  induction lan as [|oi lan IH]; intros Hm; [done|]. inversion Hm; subst. cbn [map].
  destruct (make_hello_member R Hn c Hsize oi) as (h & o & Emk & Hh & _); [done|]. rewrite Emk.
  cbn [omap list_omap fst map]. f_equal; [by rewrite (ho_src _ _ _ _ Hh)|by apply IH].
Qed.

Definition Dd (d a : Z) : bool := d =? a.
Definition Bb (bb : Z -> Z) (a : Z) : bool := bb a =? a.

(** A router after a round of Hellos in which the routers declare [bb]. *)
Definition after_hello d bb Dt Bt (oi : ospf_interface) : Prop :=
  let i := oi_address oi in
  exists b', station d b' (Dd d) (upd (Bb bb) i (b' =? i)) (fun d' _ => d' = d) oi /\ plain_queue oi
    /\ (b' = bdr_of R (Dd d) (Bb bb)
        \/ b' = bb i /\ forall a, eligible R a -> a <> i -> Dd d a = Dt i a /\ Bb bb a = Bt i a).

Lemma hello_round_ok ospf rnd d bb Dt Bt Q lan :
  agreed R d -> map oi_address lan = map n_address R ->
  Forall (fun oi => let i := oi_address oi in station d (bb i) (Dt i) (Bt i) Q oi) lan ->
  (forall i, i <> 0 -> bb i = i -> forall d' b', Q d' b' -> d' = i -> b' = i -> False) ->
  exists lan', hello_round c ospf rnd lan = Ret lan' /\ map oi_address lan' = map n_address R
    /\ Forall (after_hello d bb Dt Bt) lan'.
Proof.
  intros Hd Eaddr Hlan Hq. unfold hello_round.
  assert (Hm : Forall (member R) lan).
  { eapply Forall_impl; [|exact Hlan]. intros oi H. apply H. }
  pose proof (hellos_cover lan Hm) as Ecov. rewrite Eaddr in Ecov.
  pose proof (hellos_of lan) as Hof. cbv zeta. set (hs := omap fst _) in *.
  rewrite Forall_forall in Hlan, Hm.
  destruct (mapM_outcome
    (fun oi => drain 2 ospf rnd (fold_left (fun o h => ospf_hello c h o) hs (set_oi_out [] oi)))
    (fun oi oi' => oi_address oi' = oi_address oi /\ after_hello d bb Dt Bt oi')
    (map snd (map (ospf_make_hello c None) lan))) as (lan' & E & H2).
  { intros x Hx. rewrite map_map in Hx. apply list_elem_of_In, in_map_iff in Hx as (oi & Ex & Hoi).
    destruct (make_hello_member R Hn c Hsize oi (Hm oi Hoi)) as (h & o & Emk & Hh & Hrel).
    rewrite Emk in Ex. cbn in Ex. subst x.
    destruct (station_round ospf rnd d (bb (oi_address oi)) (Dt (oi_address oi)) (Bt (oi_address oi)) Q (Bb bb) hs
      (set_oi_out [] (relabel o oi))) as (oi' & b' & Er & Ea & Hs & Hp & Hc); try done.
    - intros x Hx. rewrite Ecov. by apply list_elem_of_In, in_map, list_elem_of_In.
    - intros h' Hh'. destruct (Hof h') as (from & Hf & Hho); [by apply Forall_forall|done|].
      apply list_elem_of_In in Hf. exists from. pose proof (Hlan from Hf) as Hsf. cbn in Hsf.
      split_and!; [by apply Hm|done| |].
      + rewrite (ho_dr _ _ _ _ Hho). apply Hsf.
      + unfold Bb. symmetry. eapply hello_bdr_bit; [exact Hsf|done|]. intros Eb.
        apply Hq; [|done]. destruct (self_entry R Hn from (Hm from Hf)) as (x & Hx & _ & <- & _).
        by apply (entry_facts R Hn from x (Hm from Hf)).
    - apply station_relabel; [done|]. by apply Hlan.
    - exists oi'. split; [done|]. split; [done|]. unfold after_hello. rewrite Ea. by exists b'. }
  exists lan'. split; [done|]. split.
  - rewrite <- Eaddr. clear -H2 Hm Hsize Hn. revert lan' H2. induction lan as [|oi lan IH]; intros lan' H2;
      inversion H2; subst; [done|]. cbn [map].
    match goal with H : oi_address _ = _ /\ _ |- _ => destruct H as [-> _] end.
    f_equal. apply IH; [intros; apply Hm; by right|done].
  - exact (Forall2_right _ _ _ _ H2).
Qed.
(** ** The first election *)

Definition state_of (lan : list ospf_interface) (a : Z) : ism_state :=
  match find (fun oi => oi_address oi =? a) lan with Some oi => oi_state oi | None => ISM_Down end.

Lemma state_of_member lan oi :
  NoDup (map oi_address lan) -> oi ∈ lan -> state_of lan (oi_address oi) = oi_state oi.
Proof.
  unfold state_of. induction lan as [|o lan IH]; intros Hnd Hin; [by apply elem_of_nil in Hin|].
  cbn [map] in Hnd. apply list.NoDup_cons in Hnd as [Hni Hnd]. cbn [find].
  apply elem_of_cons in Hin as [->|Hin]; [by rewrite Z.eqb_refl|].
  destruct (Z.eqb_spec (oi_address o) (oi_address oi)) as [E|_]; [|auto].
  destruct Hni. rewrite E. by apply list_elem_of_In, in_map, list_elem_of_In.
Qed.

(** The backup that router [a] elects first. *)
Definition first_bdr (D B : Z -> bool) (lan : list ospf_interface) (a : Z) : Z :=
  snd (elect_at R D B a (state_of lan a)).

Lemma elect_round_ok ospf rnd D B lan :
  map oi_address lan = map n_address R -> Forall (start R D B) lan ->
  let d := dr_of R D B in
  let bb := first_bdr D B lan in
  exists lan', elect_round ospf rnd lan = Ret lan' /\ map oi_address lan' = map n_address R
    /\ Forall (fun oi => let i := oi_address oi in
         station d (bb i) (upd D i (d =? i)) (upd B i (bb i =? i)) sane oi
         /\ ism_is (state_of lan i) ISM_DR = D i) lan'.
Proof.
  intros Eaddr Hst d bb. unfold elect_round.
  assert (Hnd : NoDup (map oi_address lan)) by (rewrite Eaddr; apply Hn).
  destruct (mapM_outcome (fun oi => o ← ospf_ism_event ospf rnd (if ism_is (oi_state oi) ISM_Waiting then ISM_WaitTimer else ISM_NeighborChange) (set_oi_out [] oi); drain 1 ospf rnd o)
    (fun oi oi' => oi_address oi' = oi_address oi /\ let i := oi_address oi' in
       station d (bb i) (upd D i (d =? i)) (upd B i (bb i =? i)) sane oi'
       /\ ism_is (state_of lan i) ISM_DR = D i) lan) as (lan' & E & H2).
  { intros oi Hoi. rewrite Forall_forall in Hst. specialize (Hst oi (proj1 (list_elem_of_In _ _) Hoi)).
    destruct Hst as [Hm Hb Hs Hdr Hsane].
    set (e := if ism_is (oi_state oi) ISM_Waiting then _ else _).
    assert (He : fst (ISM (oi_state (set_oi_out [] oi)) e) = F_election).
    { unfold e. cbn. apply list_elem_of_In in Hs.
      destruct Hs as [<-|[<-|[<-|[<-|[]]]]]; reflexivity. }
    pose proof (elect_and_drain R Hn ospf rnd D B sane e (set_oi_out [] oi)) as H. cbv zeta in H.
    change (oi_address (set_oi_out [] oi)) with (oi_address oi) in H.
    change (oi_state (set_oi_out [] oi)) with (oi_state oi) in *.
    destruct (elect_at R D B (oi_address oi) (oi_state oi)) as [d1 b1] eqn:Ee.
    assert (Hm' : member R (set_oi_out [] oi)) by (eapply member_change; [exact Hm|done..|apply Hm|done]).
    destruct (H Hm' Hb Hsane eq_refl He) as (oi' & Er & V & Hb' & Ho' & _ & Ea).
    assert (Est : state_of lan (oi_address oi) = oi_state oi) by by apply state_of_member.
    assert (Ed : d1 = d).
    { pose proof (round_dr R (net_addresses _ Hn) (net_router_ids _ Hn) (net_nonzero _ Hn) D B
        (oi_address oi) (oi_state oi) Hdr) as Hr. by rewrite Ee in Hr. }
    assert (Eb : bb (oi_address oi) = b1) by (unfold bb, first_bdr; by rewrite Est, Ee).
    exists oi'. split; [done|]. split; [done|]. cbv zeta. rewrite Ea, Eb, Est. subst d1.
    split; [|done]. split; [done|done| | |done]; rewrite Ea; unfold upd; by rewrite Z.eqb_refl. }
  exists lan'. split; [done|]. split.
  - rewrite <- Eaddr. clear -H2. induction H2 as [|x y l l' [H _]]; cbn; congruence.
  - exact (Forall2_right _ _ _ _ H2).
Qed.

(** ** Convergence *)

Definition settled (d b : Z) (oi : ospf_interface) : Prop :=
  DR oi = d /\ BDR oi = b /\ oi_state oi = role (oi_address oi) d b /\ plain_queue oi.

Lemma agreed_dr D B : agreed R (dr_of R D B).
Proof.
  destruct (Z.eq_dec (dr_of R D B) 0) as [E|E].
  - left. split; [done|]. eapply dr_none; [apply Hn|exact E].
  - right. by apply (dr_eligible R).
Qed.

Lemma hello_rounds_stable ospf rnd d b B1 : b = bdr_of R (Dd d) B1 -> agreed R d -> forall k lan,
  map oi_address lan = map n_address R ->
  Forall (fun oi => let i := oi_address oi in
    station d b (Dd d) (upd B1 i (b =? i)) (fun d' _ => d' = d) oi /\ plain_queue oi) lan ->
  exists lan', hello_rounds k c ospf rnd lan = Ret lan' /\ map oi_address lan' = map n_address R
    /\ Forall (settled d b) lan'.
Proof.
  intros Hb Hd. revert B1 Hb.
  assert (Hstab : forall B1, b = bdr_of R (Dd d) B1 -> bdr_of R (Dd d) (Bb (fun _ => b)) = b).
  { intros B1 ->. apply (bdr_stable_all R (net_addresses _ Hn) (net_router_ids _ Hn) (net_nonzero _ Hn)). }
  assert (Hne : forall B1 i, b = bdr_of R (Dd d) B1 -> b = i -> i <> 0 -> d <> i).
  { intros B1 i Eb <- Hi. rewrite Eb in Hi. destruct (bdr_some R (Dd d) B1 Hi) as [_ HD].
    rewrite <- Eb in HD. unfold Dd in HD. lia. }
  intros B1 Hb k. revert B1 Hb. induction k as [|k IH]; intros B1 Hb lan Eaddr Hlan.
  { exists lan. split; [done|]. split; [done|]. eapply Forall_impl; [|exact Hlan].
    intros oi [[[Hm ? ? ?] _ _ _ _] Hq]. done. }
  cbn [hello_rounds].
  destruct (hello_round_ok ospf rnd d (fun _ => b) (fun _ => Dd d) (fun i => upd B1 i (b =? i))
    (fun d' _ => d' = d) lan) as (lan' & -> & Ea' & H'); try done.
  { eapply Forall_impl; [|exact Hlan]. intros oi [H _]. exact H. }
  { intros i Hi Ei d' b' -> Ed _. by apply (Hne B1 i). }
  cbn [mbind outcome_bind]. apply (IH (Bb (fun _ => b))); [by rewrite (Hstab B1)|done|].
  eapply Forall_impl; [|exact H']. intros oi (b' & Hs & Hq & Hc). cbv zeta.
  assert (b' = b) as ->; [|done]. destruct Hc as [->|[-> _]]; [by apply (Hstab B1)|done].
Qed.
End converge.

(** C6: OSPF routers agree on their designated routers.  Take any routers on a
    broadcast network that have each other's Hellos (at least 2-Way, distinct
    addresses and router identifiers, none declaring the same router for both
    roles), each waiting or in the state of what it declares.  Let all run one
    election and then exchange Hellos, every router running ospf_make_hello,
    ospf_hello, the neighbor and the interface state machines on its own queue of
    events.  After one exchange, and after every further one, all of them declare
    the same designated router: the best that declared itself, or else the best
    declared backup, or else the best eligible one.  All declare the same backup,
    another eligible router if there is one.  Each interface is in the state of
    its role, and no event is left on a queue. *)
Theorem ospf_dr_election_converges R c ospf rnd D B lan :
  network R -> OSPF_HELLO_MIN_SIZE + 4 * Z.of_nat (length R) <= c_packet_max c ->
  map oi_address lan = map n_address R -> Forall (start R D B) lan ->
  let d := dr_of R D B in
  exists b,
    (b = 0 /\ (forall a, eligible R a -> a = d) \/ eligible R b /\ b <> d)
    /\ forall k, exists lan',
         (l ← elect_round ospf rnd lan; hello_rounds (S k) c ospf rnd l) = Ret lan'
         /\ map oi_address lan' = map n_address R /\ Forall (settled d b) lan'.
Proof.
  intros Hn Hsize Eaddr Hst d. set (bb := first_bdr R D B lan).
  exists (bdr_of R (Dd d) (Bb bb)). split.
  { destruct (Z.eq_dec (bdr_of R (Dd d) (Bb bb)) 0) as [E|E].
    - left. split; [done|]. pose proof (proj1 (bdr_none R (net_nonzero _ Hn) _ _) E) as E'.
      intros a Ha. specialize (E' a Ha).
      unfold Dd in E'. lia.
    - right. apply bdr_some in E as [? E]. split; [done|]. apply Z.eqb_neq in E. congruence. }
  intros k. destruct (elect_round_ok R Hn ospf rnd D B lan Eaddr Hst) as (lan1 & E1 & A1 & H1).
  fold d bb in H1. rewrite E1. cbn [mbind outcome_bind hello_rounds].
  destruct (hello_round_ok R Hn c Hsize ospf rnd d bb (fun i => upd D i (d =? i)) (fun i => upd B i (bb i =? i))
    sane lan1) as (lan2 & E2 & A2 & H2).
  { by apply agreed_dr. }
  { done. }
  { eapply Forall_impl; [|exact H1]. intros oi [H _]. exact H. }
  { unfold sane. intros i Hi _ d' b' Hs -> ->. lia. }
  rewrite E2. cbn [mbind outcome_bind].
  apply (hello_rounds_stable R Hn c Hsize ospf rnd d _ (Bb bb)); [done|by apply agreed_dr|done|].
  assert (Hcons : forall i, i ∈ map n_address R -> ism_is (state_of lan i) ISM_DR = D i).
  { rewrite <- A1. intros i Hi. apply list_elem_of_In, in_map_iff in Hi as (oi & <- & Hoi).
    rewrite Forall_forall in H1. by apply H1. }
  apply Forall_forall. intros oi Hoi. assert (Hin : oi_address oi ∈ map n_address R).
  { rewrite <- A2. by apply list_elem_of_In, in_map. }
  rewrite Forall_forall in H2. destruct (H2 oi Hoi) as (b' & Hs & Hq & Hc). cbv zeta.
  assert (b' = bdr_of R (Dd d) (Bb bb)) as <-; [|done].
  destruct Hc as [->|[-> Hun]]; [done|]. unfold bb at 1, first_bdr.
  apply (round_unchanged R (net_addresses _ Hn) (net_router_ids _ Hn) (net_nonzero _ Hn)); try done; [by apply Hcons|].
  intros a Ha Hne. specialize (Hun a Ha Hne). unfold upd in Hun.
  by destruct (Z.eqb_spec a (oi_address oi)).
Qed.

(** ** A network of four routers that have just come up *)

Definition ex_entry (a rid prio : Z) : ospf_neighbor :=
  mkNbr a a rid prio 0 0 NSM_TwoWay OSPF_OPTION_E 0 0 [] [] [] None (mkReceived 0 0 0) None
    true false false false false 0 0 false.
Definition ex_routers : list ospf_neighbor :=
  [ex_entry 1 11 1; ex_entry 2 12 1; ex_entry 3 13 2; ex_entry 4 14 0].
Definition ex_interface (a rid prio : Z) : ospf_interface :=
  mkOi OSPF_IFTYPE_BROADCAST ISM_Waiting a rid prio a ex_routers 0 0 1 None false false
    OSPF_AREA_DEFAULT false true true false 0 [].
Definition ex_lan : list ospf_interface :=
  [ex_interface 1 11 1; ex_interface 2 12 1; ex_interface 3 13 2; ex_interface 4 14 0].
Definition ex_conf : hello_conf := mkHelloConf 24 10 40 false true false false 1448 1500 false.
Definition ex_ospf : ospf_instance := mkOspf (mkLsdb [] []) ex_conf.

Lemma ospf_dr_election_converges_witness :
  exists b,
    (b = 0 /\ (forall a, eligible ex_routers a -> a = 3) \/ eligible ex_routers b /\ b <> 3)
    /\ forall k, exists lan',
         (l ← elect_round ex_ospf 77 ex_lan; hello_rounds (S k) ex_conf ex_ospf 77 l) = Ret lan'
         /\ map oi_address lan' = map n_address ex_routers /\ Forall (settled 3 b) lan'.
Proof.
  apply (ospf_dr_election_converges ex_routers ex_conf ex_ospf 77 (fun _ => false) (fun _ => false) ex_lan).
  - split; [apply (bool_decide_unpack _); vm_compute; exact I..| |]; repeat constructor; discriminate.
  - vm_compute. discriminate.
  - reflexivity.
  - repeat constructor; try (cbn; discriminate); try (left; reflexivity); try reflexivity.
Defined.

Example ex_lan_result :
  (fun l => map (fun oi => (DR oi, BDR oi, oi_state oi)) l)
  <$> match (l ← elect_round ex_ospf 77 ex_lan; hello_rounds 1 ex_conf ex_ospf 77 l) with
      | Ret l => Some l | Abort => None end
  = Some [(3, 2, ISM_DROther); (3, 2, ISM_Backup); (3, 2, ISM_DR); (3, 2, ISM_DROther)].
Proof. vm_compute. reflexivity. Qed.
