(* ===== verification/OspfNsmFacts.v ===== *)
(** * The invariant of an OSPF interface and its neighbors

    Every event of the two state machines and every Hello keeps: the counter of
    full adjacencies, the network LSA of the designated router, the lists of a
    neighbor that exchanges nothing, the entry of the router itself. *)

From S2P Require Import Prelude OspfLsa OspfIsm OspfElection OspfNsm OspfStation.

(** ** The invariant *)

Definition is_full (x : ospf_neighbor) : bool := nsm_is (n_state x) NSM_Full.

Definition full_count (l : list ospf_neighbor) : Z := Z.of_nat (length (List.filter is_full l)).

(** An entry between two events. *)
Record nbr_ok (x : ospf_neighbor) : Prop := mkNbrOk {
  no_state : n_state x <> NSM_DependUpon /\ n_state x <> NSM_Deleted;
  no_lists : nsm_num (n_state x) <= nsm_num NSM_ExStart ->
             n_db_sum x = [] /\ n_ls_req x = [] /\ n_ls_rxmt x = [];
  no_helper : n_helper x = false
}.

(** The designated router has a network LSA exactly while it has a full neighbor. *)
Definition lsa_ok (oi : ospf_interface) : Prop :=
  oi_network_lsa_self oi = ism_is (oi_state oi) ISM_DR && negb (oi_full_nbrs oi =? 0).

Record oi_inv (oi : ospf_interface) : Prop := mkOiInv {
  inv_keys : NoDup (map n_id (oi_nbrs oi));
  inv_nbrs : Forall nbr_ok (oi_nbrs oi);
  inv_self : exists x, x ∈ oi_nbrs oi /\ n_id x = oi_nbr_self oi /\ n_state x = NSM_TwoWay;
  inv_count : oi_full_nbrs oi = u32 (full_count (oi_nbrs oi));
  inv_lsa : lsa_ok oi;
  inv_restarting : oi_restarting oi = false;
  inv_state : oi_state oi <> ISM_DependUpon
}.

(** ** What the invariant sees of an entry *)

Definition core (x : ospf_neighbor) :=
  (n_id x, n_state x, n_db_sum x, n_ls_req x, n_ls_rxmt x, n_helper x).

Lemma core_nbr_ok x y : core x = core y -> nbr_ok x -> nbr_ok y.
Proof. unfold core. intros E [A1 A2 A3]. injection E as E1 E2 E3 E4 E5 E6.
  split; [by rewrite <- E2|by rewrite <- E2, <- E3, <- E4, <- E5|congruence].
Qed.

Lemma core_list l l' :
  map core l = map core l' ->
  map n_id l = map n_id l' /\ full_count l = full_count l' /\ (Forall nbr_ok l -> Forall nbr_ok l')
  /\ (forall s k, (exists x, x ∈ l /\ n_id x = k /\ n_state x = s) ->
                  exists x, x ∈ l' /\ n_id x = k /\ n_state x = s).
Proof.
  revert l'. induction l as [|x l IH]; intros [|y l'] E; try done.
  assert (Ex : core x = core y) by (cbn [map] in E; congruence).
  assert (El : map core l = map core l') by (cbn [map] in E; congruence).
  destruct (IH l' El) as (I1 & I2 & I3 & I4). assert (Ex' := Ex). unfold core in Ex'.
  injection Ex' as E1 E2 _ _ _ _.
  split_and!.
  - cbn [map]. by rewrite E1, I1.
  - unfold full_count in *. cbn [List.filter].
    assert (is_full x = is_full y) as -> by (unfold is_full; by rewrite E2).
    destruct (is_full y); cbn [length]; lia.
  - intros H. inversion H; subst. constructor; [by eapply core_nbr_ok|auto].
  - intros s k (z & [->|Hz]%elem_of_cons & Ez & Es).
    + exists y. split_and!; [left|congruence..].
    + destruct (I4 s k) as (w & ? & ? & ?); [eauto|]. exists w. split_and!; [by right|done..].
Qed.

(** An operation that the invariant does not see. *)
Record quiet (oi oi' : ospf_interface) : Prop := mkQuiet {
  qu_core : map core (oi_nbrs oi') = map core (oi_nbrs oi);
  qu_self : oi_nbr_self oi' = oi_nbr_self oi;
  qu_full : oi_full_nbrs oi' = oi_full_nbrs oi;
  qu_restarting : oi_restarting oi' = oi_restarting oi
}.

Lemma quiet_refl oi : quiet oi oi.
Proof. done. Qed.

Lemma quiet_trans a b c : quiet a b -> quiet b c -> quiet a c.
Proof. intros [? ? ? ?] [? ? ? ?]. split; congruence. Qed.

Lemma quiet_inv oi oi' :
  quiet oi oi' -> oi_state oi' <> ISM_DependUpon -> (lsa_ok oi -> lsa_ok oi') -> oi_inv oi -> oi_inv oi'.
Proof.
  intros [Ec Es Ef Er] Hs Hl [I1 I2 I3 I4 I5 I6 I7].
  destruct (core_list _ _ (eq_sym Ec)) as (C1 & C2 & C3 & C4).
  split; [by rewrite <- C1|auto|rewrite Es; auto|congruence|auto|congruence|done].
Qed.

(** A change of one entry that the invariant does not see. *)
Definition inert (f : ospf_neighbor -> ospf_neighbor) : Prop := forall x, core (f x) = core x.

Lemma quiet_update n f oi : inert f -> quiet oi (nbr_update n f oi).
Proof.
  intros Hf. split; [|done..]. unfold nbr_update. cbn. rewrite map_map. apply map_ext. intros x.
  case_bool; [apply Hf|done].
Qed.

(** ** Interface events *)

Lemma ism_change_state_quiet s oi :
  oi_restarting oi = false ->
  quiet oi (ism_change_state s oi) /\ (lsa_ok oi -> lsa_ok (ism_change_state s oi)).
Proof.
  intros Hr. unfold ism_change_state. cbv zeta.
  set (a := if ism_is s ISM_Down then _ else _).
  assert (Ha : quiet oi a /\ oi_state a = s /\ oi_network_lsa_self a = oi_network_lsa_self oi
               /\ oi_restarting a = false).
  { unfold a. repeat case_bool; done. }
  clearbody a. destruct Ha as (Qa & Sa & La & Ra).
  split.
  - apply (quiet_trans _ a); [done|]. unfold ospf_network_lsa_update, flush_network_lsa. cbn.
    repeat case_bool; done.
  - intros Hl. unfold lsa_ok in *. destruct Qa as [_ _ Qf _].
    unfold ospf_network_lsa_update, flush_network_lsa. cbn.
    destruct (ism_is (oi_state oi) ISM_DR) eqn:E1, (ism_is s ISM_DR) eqn:E2; cbn in *;
      rewrite ?Ra, ?Sa, ?E2; cbn; try congruence.
    all: rewrite La, Hl; cbn; rewrite ?Qf; destruct (oi_full_nbrs oi =? 0) eqn:E3; cbn; rewrite ?Sa, ?Qf, ?E2, ?E3; cbn; try congruence.
Qed.

Lemma ism_timer_set_quiet oi :
  quiet oi (ism_timer_set oi) /\ (lsa_ok oi -> lsa_ok (ism_timer_set oi)).
Proof. unfold ism_timer_set, lsa_ok. destruct (oi_state oi) eqn:E; cbn; by rewrite ?E. Qed.

(** [oi'] is [oi] after something that keeps the invariant. *)
Definition steady (oi oi' : ospf_interface) : Prop :=
  oi_restarting oi = false -> oi_state oi <> ISM_DependUpon ->
  quiet oi oi' /\ (lsa_ok oi -> lsa_ok oi') /\ oi_state oi' <> ISM_DependUpon.

Lemma steady_inv oi oi' : steady oi oi' -> oi_inv oi -> oi_inv oi'.
Proof.
  intros H I. destruct (H (inv_restarting _ I) (inv_state _ I)) as (? & ? & ?). by eapply quiet_inv.
Qed.

(** Nothing but entries, as far as they are not seen, and effects. *)
Lemma steady_same oi oi' :
  quiet oi oi' -> oi_state oi' = oi_state oi -> oi_network_lsa_self oi' = oi_network_lsa_self oi ->
  steady oi oi'.
Proof.
  intros Q Es El Hr Hs. split; [done|]. split; [|congruence]. unfold lsa_ok.
  destruct Q as [_ _ Ef _]. congruence.
Qed.

Lemma steady_trans a b c : steady a b -> steady b c -> steady a c.
Proof.
  intros H1 H2 Hr Hs. destruct (H1 Hr Hs) as (Q1 & L1 & S1).
  destruct (H2 ltac:(destruct Q1; congruence) S1) as (Q2 & L2 & S2).
  split; [by eapply quiet_trans|auto].
Qed.

Lemma ism_finish_steady e s oi :
  s <> ISM_DependUpon \/ snd (ISM (oi_state oi) e) <> ISM_DependUpon -> steady oi (ism_finish e s oi).
Proof.
  intros Hs Hr _. unfold ism_finish. set (next := if ism_is s _ then _ else s).
  assert (Hnext : next <> ISM_DependUpon).
  { unfold next, ism_is. case_bool_decide; [|done]. by destruct Hs. }
  set (o := if ism_is next (oi_state oi) then _ else _).
  assert (Ho : quiet oi o /\ (lsa_ok oi -> lsa_ok o) /\ oi_state o = next).
  { unfold o, ism_is. case_bool_decide; [by split; [apply quiet_refl|]|].
    destruct (ism_change_state_quiet next oi Hr). by rewrite ism_change_state_state. }
  destruct Ho as (Qo & Lo & So). destruct (ism_timer_set_quiet o) as [Qt Lt].
  split; [by eapply quiet_trans|]. split; [auto|]. by rewrite ism_timer_set_state, So.
Qed.

Lemma elect_both_steady oi :
  steady oi (elect_both oi) /\ oi_state (elect_both oi) = oi_state oi.
Proof.
  split; [|done]. apply steady_same; [|done..].
  eapply quiet_trans; apply quiet_update; by intros x.
Qed.

Lemma dr_change_steady oi : steady oi (ospf_dr_change oi).
Proof.
  unfold ospf_dr_change. generalize (oi_router_id oi) as rid. intros rid.
  assert (G : forall l o, steady oi o -> steady oi (fold_left (fun o x =>
      if negb (n_router_id x =? 0) && nsm_ge (n_state x) NSM_TwoWay && negb (n_router_id x =? rid)
      then emit (ScheduleNsm (n_id x) NSM_AdjOK) o else o) l o)).
  { induction l as [|x l IH]; intros o Ho; [done|]. cbn [fold_left]. apply IH.
    case_bool; [|done]. eapply steady_trans; [exact Ho|]. by apply steady_same. }
  apply G. by apply steady_same.
Qed.

Lemma dr_election_steady oi :
  fst (ospf_dr_election oi) <> ISM_DependUpon /\ steady oi (snd (ospf_dr_election oi)).
Proof.
  unfold ospf_dr_election. cbn [fst snd]. split; [unfold ospf_ism_state; repeat case_bool; done|].
  set (o := if _ && _ then elect_both _ else _).
  assert (Ho : steady oi o).
  { unfold o. case_bool; [|apply elect_both_steady].
    eapply steady_trans; apply elect_both_steady. }
  case_bool; [|done]. eapply steady_trans; [exact Ho|apply dr_change_steady].
Qed.

Lemma ism_event_local_steady e oi : e <> ISM_NoEvent -> steady oi (ism_event_local e oi).
Proof.
  intros He Hr Hs. cut (steady oi (ism_event_local e oi)); [intros H; by apply H|].
  unfold ism_event_local. destruct (fst (ISM (oi_state oi) e)) eqn:Ef.
  - apply ism_finish_steady. right. by destruct (oi_state oi), e.
  - unfold ism_interface_up. eapply steady_trans; [|apply ism_finish_steady; left; repeat case_bool; done].
    case_bool; by apply steady_same.
  - apply ism_finish_steady. right. by destruct (oi_state oi), e.
  - apply ism_finish_steady. right. by destruct (oi_state oi), e.
  - destruct (dr_election_steady oi) as [Hf Hd]. destruct (ospf_dr_election oi) as [s o]. cbn in Hf, Hd.
    eapply steady_trans; [exact Hd|]. apply ism_finish_steady. by left.
Qed.

(** ** Neighbor events *)

Section work.
(** The key of the router itself and the keys of the table. *)
Context (me : Z) (ks : list Z).

(** The invariant with the entry [x] of [n] being worked on; the counter is
    behind by [delta]. *)
Record working (n delta : Z) (x : ospf_neighbor) (oi : ospf_interface) : Prop := mkWorking {
  wk_keys : NoDup (map n_id (oi_nbrs oi));
  wk_find : nbr_find n oi = Some x;
  wk_others : Forall (fun y => n_id y <> n -> nbr_ok y) (oi_nbrs oi);
  wk_self : n <> oi_nbr_self oi /\ exists y, y ∈ oi_nbrs oi /\ n_id y = oi_nbr_self oi /\ n_state y = NSM_TwoWay;
  wk_count : oi_full_nbrs oi = u32 (full_count (oi_nbrs oi) + delta);
  wk_lsa : lsa_ok oi;
  wk_restarting : oi_restarting oi = false;
  wk_state : oi_state oi <> ISM_DependUpon;
  wk_helper : n_helper x = false;
  wk_frame : oi_nbr_self oi = me /\ map n_id (oi_nbrs oi) = ks
}.

Lemma find_id n oi x : nbr_find n oi = Some x -> x ∈ oi_nbrs oi /\ n_id x = n.
Proof.
  intros E. apply find_some in E as [Hx E]. split; [by apply list_elem_of_In|]. by apply Z.eqb_eq.
Qed.

Lemma inv_working n x oi :
  oi_inv oi -> nbr_find n oi = Some x -> n <> oi_nbr_self oi ->
  oi_nbr_self oi = me -> map n_id (oi_nbrs oi) = ks -> working n 0 x oi /\ nbr_ok x.
Proof.
  intros [I1 I2 I3 I4 I5 I6 I7] E Hne Eme Eks. assert (Hok : nbr_ok x).
  { destruct (find_id n oi x E) as [Hx _]. rewrite Forall_forall in I2. apply I2. by apply list_elem_of_In. }
  split; [|done]. split; try done; [|by rewrite Z.add_0_r|apply Hok].
  eapply Forall_impl; [|exact I2]. by intros y Hy _.
Qed.

Lemma working_inv n x oi : working n 0 x oi -> nbr_ok x -> oi_inv oi.
Proof.
  intros [W1 W2 W3 [_ W4] W5 W6 W7 W8 _ _] Hok. split; try done; [|by rewrite Z.add_0_r in W5].
  apply Forall_forall. intros y Hy. rewrite Forall_forall in W3.
  destruct (Z.eq_dec (n_id y) n) as [E|E]; [|by apply W3].
  assert (y = x) as ->; [|done]. destruct (find_id n oi x W2) as [Hx Ex].
  apply list_elem_of_In in Hy. apply list_elem_of_lookup in Hy as [i Hi].
  apply list_elem_of_lookup in Hx as [j Hj].
  assert (i = j) as ->; [|congruence].
  apply (NoDup_lookup _ _ _ n W1); rewrite list_lookup_fmap; [by rewrite Hi, <- E|by rewrite Hj, <- Ex].
Qed.

Lemma full_count_update n f oi x :
  NoDup (map n_id (oi_nbrs oi)) -> nbr_find n oi = Some x -> (forall y, n_id (f y) = n_id y) ->
  full_count (oi_nbrs (nbr_update n f oi))
  = full_count (oi_nbrs oi) - Z.b2z (is_full x) + Z.b2z (is_full (f x)).
Proof.
  unfold nbr_find, nbr_update, full_count. cbn [oi_nbrs set_oi_nbrs]. intros Hnd E Hf.
  induction (oi_nbrs oi) as [|y l IH]; [done|]. cbn [map] in Hnd. apply list.NoDup_cons in Hnd as [Hni Hnd].
  cbn [find] in E. cbn [map]. destruct (Z.eqb_spec (n_id y) n) as [Ey|Ey].
  - injection E as ->. assert (El : map (fun z => if n_id z =? n then f z else z) l = l).
    { rewrite <- (map_id l) at 2. apply map_ext_in. intros z Hz.
      destruct (Z.eqb_spec (n_id z) n) as [Ez|]; [|done]. destruct Hni. rewrite Ey, <- Ez.
      by apply list_elem_of_In, in_map. }
    rewrite El. cbn [List.filter]. destruct (is_full x), (is_full (f x)); cbn [length Z.b2z]; lia.
  - specialize (IH Hnd E). cbn [List.filter]. destruct (is_full y); cbn [length]; lia.
Qed.

Lemma update_keys n f oi :
  (forall y, n_id (f y) = n_id y) -> map n_id (oi_nbrs (nbr_update n f oi)) = map n_id (oi_nbrs oi).
Proof.
  intros Hf. unfold nbr_update. cbn. rewrite map_map. apply map_ext. intros y. case_bool; [apply Hf|done].
Qed.

(** The entry changes. *)
Lemma working_update n delta x f oi :
  working n delta x oi -> (forall y, n_id (f y) = n_id y) -> n_helper (f x) = n_helper x ->
  working n (delta + Z.b2z (is_full x) - Z.b2z (is_full (f x))) (f x) (nbr_update n f oi).
Proof.
  intros [W1 W2 W3 [Hne (s & Hs & Es & Ss)] W5 W6 W7 W8 W9 W10] Hf Hh. split; try done.
  - by rewrite update_keys.
  - unfold nbr_find, nbr_update. cbn. rewrite find_map_id by done. unfold nbr_find in W2. by rewrite W2.
  - apply Forall_forall. intros y Hy. apply in_map_iff in Hy as (z & <- & Hz).
    rewrite Forall_forall in W3. specialize (W3 z Hz).
    destruct (Z.eqb_spec (n_id z) n) as [E|E]; [rewrite Hf; by intros []|done].
  - split; [done|]. exists s. split_and!; [|done..]. apply list_elem_of_In, in_map_iff. exists s.
    split; [|by apply list_elem_of_In]. destruct (Z.eqb_spec (n_id s) n); [congruence|done].
  - rewrite (full_count_update n f oi x) by done. cbn. rewrite W5. f_equal. lia.
  - congruence.
  - by rewrite update_keys.
Qed.

Lemma core_find l l' n x :
  map core l' = map core l -> find (fun y => n_id y =? n) l = Some x ->
  exists x', find (fun y => n_id y =? n) l' = Some x' /\ core x' = core x.
Proof.
  revert l'. induction l as [|y l IH]; intros [|y' l'] E; try done. cbn [find].
  assert (Ey : core y' = core y) by (cbn [map] in E; congruence).
  assert (El : map core l' = map core l) by (cbn [map] in E; congruence).
  assert (n_id y' = n_id y) as -> by (unfold core in Ey; congruence).
  case_bool; [|by apply IH]. intros Ex. injection Ex as <-. by exists y'.
Qed.

(** The invariant does not see the change. *)
Lemma working_steady n delta x oi oi' :
  working n delta x oi -> steady oi oi' ->
  exists x', working n delta x' oi' /\ core x' = core x.
Proof.
  intros [W1 W2 W3 [Hne W4] W5 W6 W7 W8 W9 [W10 W11]] H. destruct (H W7 W8) as ([Qc Qs Qf Qr] & Hl & Hst).
  destruct (core_list _ _ (eq_sym Qc)) as (C1 & C2 & _ & C4).
  destruct (core_find _ _ n x Qc W2) as (x' & E & Ex). exists x'. split; [|done].
  split; try done; [by rewrite <- C1| |by rewrite Qs; auto|by rewrite <- C2, Qf|auto|congruence| |].
  - clear -Qc W3. revert Qc. generalize (oi_nbrs oi'). induction W3 as [|y l Hy Hl IH]; intros [|y' l'] E; try done.
    assert (Ey : core y' = core y) by (cbn [map] in E; congruence).
    assert (El : map core l' = map core l) by (cbn [map] in E; congruence).
    constructor; [|auto]. intros Hn. eapply core_nbr_ok; [symmetry; exact Ey|]. apply Hy.
    unfold core in Ey. congruence.
  - unfold core in Ex. congruence.
  - split; congruence.
Qed.

(** The fields that the invariant is about. *)
Definition seen (oi : ospf_interface) :=
  (oi_nbrs oi, oi_nbr_self oi, oi_restarting oi, oi_state oi, oi_full_nbrs oi, oi_network_lsa_self oi).

Lemma vl_count_seen up oi : seen (vl_count up oi) = seen oi.
Proof. unfold vl_count. destruct (oi_vl_full oi); [|done]. repeat case_bool; done. Qed.

Lemma full_change_working n delta x (up : bool) oi :
  working n delta x oi -> delta = (if up then -1 else 1) ->
  working n 0 x (nsm_full_change up false oi).
Proof.
  intros W Hd. unfold nsm_full_change. cbv zeta.
  set (d := if up then 1 else -1).
  set (a := vl_count up _).
  assert (Ea : seen a = (oi_nbrs oi, oi_nbr_self oi, false, oi_state oi, u32 (oi_full_nbrs oi + d), oi_network_lsa_self oi)).
  { unfold a. rewrite vl_count_seen, <- (wk_restarting _ _ _ _ W). done. }
  clearbody a. cbn [negb andb]. set (a2 := emit RouterLsaUpdate a).
  set (b := match oi_vl_full a2 with
            | Some _ => if oi_type a2 =? OSPF_IFTYPE_VIRTUALLINK then emit VlRouterLsaUpdate a2 else a2
            | None => a2
            end).
  assert (Eb : seen b = seen a) by (unfold b; destruct (oi_vl_full a2); [case_bool|]; done).
  clearbody b. rewrite Ea in Eb. injection Eb as B1 B2 B3 B4 B5 B6.
  set (e := if ism_is (oi_state b) ISM_DR then
              if oi_network_lsa_self b && (oi_full_nbrs b =? 0) then flush_network_lsa b
              else ospf_network_lsa_update b
            else b).
  assert (Ee : oi_nbrs e = oi_nbrs oi /\ oi_nbr_self e = oi_nbr_self oi /\ oi_restarting e = false
    /\ oi_state e = oi_state oi /\ oi_full_nbrs e = u32 (oi_full_nbrs oi + d) /\ lsa_ok e).
  { unfold e. destruct (ism_is (oi_state b) ISM_DR) eqn:Es.
    - unfold ospf_network_lsa_update, flush_network_lsa, lsa_ok.
      destruct (oi_network_lsa_self b) eqn:El, (oi_full_nbrs b =? 0) eqn:Ef; cbn; rewrite ?B3, ?El, ?Ef; cbn;
        rewrite ?Es, ?Ef; cbn; split_and!; congruence.
    - split_and!; try done. pose proof (wk_lsa _ _ _ _ W) as Hl. unfold lsa_ok in *.
      rewrite B6, Hl, B4, <- B4, Es. done. }
  clearbody e. destruct Ee as (E1 & E2 & E3 & E4 & E5 & E6). rewrite E3, andb_false_r.
  destruct W as [W1 W2 W3 W4 W5 W6 W7 W8 W9 W10].
  split; rewrite ?E1, ?E2, ?E4; try done.
  - unfold nbr_find. by rewrite E1.
  - rewrite E5, W5. unfold u32. rewrite Zplus_mod_idemp_l. f_equal. subst delta d. destruct up; lia.
Qed.

Lemma lists_update_id (f : ospf_neighbor -> ospf_neighbor) x :
  inert f -> n_id (f x) = n_id x /\ n_state (f x) = n_state x /\ n_helper (f x) = n_helper x
  /\ n_db_sum (f x) = n_db_sum x /\ n_ls_req (f x) = n_ls_req x /\ n_ls_rxmt (f x) = n_ls_rxmt x.
Proof. intros H. specialize (H x). unfold core in H. injection H. intros. split_and!; done. Qed.

Lemma working_inert n delta x f oi :
  inert f -> working n delta x oi -> working n delta (f x) (nbr_update n f oi).
Proof.
  intros Hf W. destruct (lists_update_id f x Hf) as (Ei & Es & Eh & _).
  pose proof (working_update n delta x f oi W) as H.
  assert (is_full (f x) = is_full x) as E by (unfold is_full; by rewrite Es). rewrite E in H.
  replace (delta + Z.b2z (is_full x) - Z.b2z (is_full x)) with delta in H by lia.
  apply H; [intros y; by destruct (lists_update_id f y Hf)|done].
Qed.

Lemma working_emit n delta x e oi : working n delta x oi -> working n delta x (emit e oi).
Proof. intros [? ? ? ? ? ? ? ? ? ?]. by split. Qed.

(** The state of [n] changes to [s], with the lists of [x]: what the entry is
    afterwards. *)
Lemma change_state_working ospf rnd n x s oi :
  working n 0 x oi -> n_state x <> s ->
  (nsm_num (n_state x) <= nsm_num NSM_ExStart -> s = NSM_ExStart -> n_db_sum x = []) ->
  exists o x', nsm_change_state ospf rnd n x s oi = Ret o /\ working n 0 x' o /\ n_state x' = s
    /\ (if (nsm_num NSM_ExStart <? nsm_num (n_state x)) && (nsm_num s <=? nsm_num NSM_ExStart)
        then n_db_sum x' = [] /\ n_ls_req x' = [] /\ n_ls_rxmt x' = []
        else n_db_sum x' = n_db_sum x /\ n_ls_req x' = n_ls_req x /\ n_ls_rxmt x' = n_ls_rxmt x).
Proof.
  intros W Hs Hdb. unfold nsm_change_state. cbv zeta.
  set (f := fun y => set_n_state_change _ (set_n_state s y)).
  pose proof (working_update n 0 x f oi W (fun _ => eq_refl) eq_refl) as W1.
  set (delta := 0 + Z.b2z (is_full x) - Z.b2z (is_full (f x))) in W1. set (o1 := nbr_update n f oi) in *.
  set (o2 := match oi_state o1 with
             | ISM_DROther | ISM_Backup | ISM_DR =>
                 if crosses_twoway (n_state x) s then ism_event_local ISM_NeighborChange o1 else o1
             | _ => o1
             end).
  assert (H2 : exists x2, working n delta x2 o2 /\ core x2 = core (f x)).
  { assert (Hst : steady o1 o2).
    { unfold o2. destruct (oi_state o1); try (by apply steady_same);
        (case_bool; [by apply ism_event_local_steady|by apply steady_same]). }
    by apply (working_steady n delta (f x) o1 o2). }
  clearbody o2. destruct H2 as (x2 & W2 & C2).
  set (o3 := if negb _ then nsm_full_change _ _ o2 else o2).
  assert (W3 : working n 0 x2 o3).
  { unfold o3. rewrite (wk_helper _ _ _ _ W). unfold delta, is_full in W2. cbn in W2.
    destruct (nsm_is (n_state x) NSM_Full) eqn:E1, (nsm_is s NSM_Full) eqn:E2; cbn [Bool.eqb negb];
      [exact W2|by apply (full_change_working n 1 x2 false)|by apply (full_change_working n (-1) x2 true)|exact W2]. }
  clearbody o3. apply (working_emit n 0 x2 (OpaqueNsmChange n (n_state x))) in W3. set (o4 := emit _ o3) in *.
  unfold core in C2. injection C2 as C1 C2 C3 C4 C5 C6.
  set (clears := (_ <? _) && (_ <=? _)). set (o5 := if clears then _ else o4).
  assert (H5 : exists x5, working n 0 x5 o5 /\ n_state x5 = s
    /\ if clears then n_db_sum x5 = [] /\ n_ls_req x5 = [] /\ n_ls_rxmt x5 = []
       else n_db_sum x5 = n_db_sum x /\ n_ls_req x5 = n_ls_req x /\ n_ls_rxmt x5 = n_ls_rxmt x).
  { unfold o5. destruct clears; [|exists x2; done].
    destruct (clear_adj_other x2) as (_ & Ec & Eh). destruct (clear_adj_lists x2) as (L1 & L2 & L3).
    exists (nsm_clear_adj x2). split; [|split; [congruence|done]].
    pose proof (working_update n 0 x2 nsm_clear_adj o4 W3
      (fun y => proj1 (clear_adj_other y)) Eh) as W5.
    unfold is_full in W5. by rewrite Ec, Z.add_simpl_r in W5. }
  clearbody o5. destruct H5 as (x5 & W5 & S5 & L5).
  assert (H6 : forall f o, inert f -> working n 0 x5 o -> exists x6, working n 0 x6 (nbr_update n f o) /\ core x6 = core x5).
  { intros g o Hg Wo. exists (g x5). split; [by apply working_inert|apply Hg]. }
  assert (H7 : exists o6 x6, (if nsm_is s NSM_ExStart
      then ospf_db_desc_send ospf n (nbr_update n (nsm_start_exchange rnd) o5) else Ret o5) = Ret o6
      /\ working n 0 x6 o6 /\ core x6 = core x5).
  { destruct (nsm_is s NSM_ExStart) eqn:Ex; [|by exists o5, x5].
    assert (D5 : n_db_sum x5 = []).
    { apply bool_decide_eq_true in Ex. unfold clears in L5. rewrite Ex, Z.leb_refl, andb_true_r in L5.
      destruct (Z.ltb_spec (nsm_num NSM_ExStart) (nsm_num (n_state x))) as [|Hle]; [tauto|].
      destruct L5 as (-> & _). by apply Hdb. }
    destruct (start_exchange_send_empty ospf rnd n x5 o5 (wk_find _ _ _ _ W5) D5) as (dd & fl & ->).
    eexists _, (dd_sent dd fl [] (nsm_start_exchange rnd x5)). split; [reflexivity|].
    split; [|unfold core; cbn; by rewrite D5].
    assert (W6 : working n 0 (nsm_start_exchange rnd x5)
                   (emit (DbDescSend n dd) (nbr_update n (nsm_start_exchange rnd) o5)))
      by (apply working_emit, working_inert; [by intros y|done]).
    pose proof (working_update n 0 _ (dd_sent dd fl []) _ W6 (fun _ => eq_refl) eq_refl) as W7.
    unfold is_full in W7. change (n_state (dd_sent dd fl [] (nsm_start_exchange rnd x5))) with
      (n_state (nsm_start_exchange rnd x5)) in W7. by rewrite Z.add_simpl_r in W7. }
  destruct H7 as (o6 & x6 & -> & W6 & E6). cbn [mbind outcome_bind].
  assert (H8 : exists x7, working n 0 x7 (if nsm_is s NSM_Down then nbr_update n (set_n_crypt_seqnum 0) o6 else o6)
               /\ core x7 = core x6).
  { case_bool; [|by exists x6]. exists (set_n_crypt_seqnum 0 x6). split; [|done].
    apply working_inert; [by intros y|done]. }
  destruct H8 as (x7 & W7 & E7). eexists _, x7. split; [reflexivity|]. split; [done|].
  unfold core in E6, E7. injection E6 as _ E62 E63 E64 E65 _. injection E7 as _ E72 E73 E74 E75 _.
  split; [congruence|]. rewrite E73, E74, E75, E63, E64, E65. exact L5.
Qed.

Lemma change_state_ext ospf rnd n x y s oi :
  n_state x = n_state y -> n_helper x = n_helper y ->
  nsm_change_state ospf rnd n x s oi = nsm_change_state ospf rnd n y s oi.
Proof. intros E1 E2. unfold nsm_change_state. by rewrite E1, E2. Qed.

(** The database goes into the lists of an entry, and nothing else changes. *)
Record kept (x y : ospf_neighbor) : Prop := mkKept {
  kp_id : n_id y = n_id x;
  kp_state : n_state y = n_state x;
  kp_helper : n_helper y = n_helper x
}.

Lemma kept_trans x y z : kept x y -> kept y z -> kept x z.
Proof. intros [? ? ?] [? ? ?]. split; congruence. Qed.

Lemma kept_if x (b : bool) y z : kept x y -> kept x z -> kept x (if b then y else z).
Proof. by destruct b. Qed.

Lemma LSDB_LOOP_kept l x y : kept x y -> kept x (LSDB_LOOP l y).
Proof.
  unfold LSDB_LOOP. revert y. induction l as [|a l IH]; intros y H; [done|]. cbn [fold_left]. apply IH.
  eapply kept_trans; [exact H|]. unfold ospf_db_summary_add, ospf_ls_retransmit_add. repeat case_bool; done.
Qed.

Lemma summarise_kept ospf normal x : kept x (summarise ospf normal x).
Proof.
  unfold summarise. cbv zeta.
  set (x1 := LSDB_LOOP (SUMMARY_LSDB ospf) _). assert (H1 : kept x x1) by by do 3 apply LSDB_LOOP_kept.
  clearbody x1. set (x2 := if CHECK_FLAG (n_options x1) OSPF_OPTION_O then _ else x1).
  assert (H2 : kept x x2) by (apply kept_if; [by do 2 apply LSDB_LOOP_kept|done]).
  clearbody x2. set (x3 := if CHECK_FLAG (n_options x2) OSPF_OPTION_NP then _ else x2).
  assert (H3 : kept x x3) by (apply kept_if; [by apply LSDB_LOOP_kept|done]).
  clearbody x3. set (x4 := if normal then _ else x3).
  assert (H4 : kept x x4) by (apply kept_if; [by do 2 apply LSDB_LOOP_kept|done]).
  clearbody x4. apply kept_if; [by apply LSDB_LOOP_kept|done].
Qed.

(** An action keeps the state; only the one that starts the exchange fills lists. *)
Lemma nsm_call_working ospf f n x oi :
  working n 0 x oi ->
  exists fs o x', nsm_call ospf f n x oi = Ret (fs, o) /\ working n 0 x' o
    /\ n_state x' = n_state x /\ n_helper x' = n_helper x
    /\ (f <> NF_negotiation_done -> core x' = core x).
Proof.
  intros W. assert (Hin : forall g o, inert g -> working n 0 x o ->
    exists x', working n 0 x' (nbr_update n g o) /\ n_state x' = n_state x /\ n_helper x' = n_helper x /\ core x' = core x).
  { intros g o Hg Wo. exists (g x). destruct (lists_update_id g x Hg) as (_ & -> & -> & _).
    split; [by apply working_inert|done]. }
  destruct f; cbn [nsm_call].
  - by exists NSM_DependUpon, oi, x.
  - unfold nsm_hello_received. eexists _, _, (set_n_t_inactivity true x). split; [reflexivity|]. split; [|done].
    case_bool; [|apply working_emit]; apply working_inert; (done || by intros y).
  - unfold nsm_start. eexists _, _, (set_n_t_inactivity true x). split; [reflexivity|]. split; [|done].
    apply working_emit, working_inert; (done || by intros y).
  - unfold nsm_twoway_received. case_bool; eexists _, _, x; (split; [reflexivity|]); split; try done.
    by apply working_emit.
  - unfold nsm_negotiation_done. set (g := summarise _ _). eexists _, _, (g x). split; [reflexivity|].
    pose proof (summarise_kept (o_lsdb ospf) _ x : kept x (g x)) as [_ Es Eh]. split; [|done].
    pose proof (working_update n 0 x g (emit (ProactiveArp n) oi) (working_emit _ _ _ _ _ W)
      (fun y => kp_id _ _ (summarise_kept (o_lsdb ospf) _ y)) Eh) as W'.
    unfold is_full in W'. by rewrite Es, Z.add_simpl_r in W'.
  - unfold nsm_exchange_done, ospf_ls_req_send. destruct (n_ls_req x) as [|r rs] eqn:Er.
    + by exists NSM_Full, oi, x.
    + case_bool; [by exists NSM_Loading, oi, x|]. rewrite (wk_find _ _ _ _ W), Er.
      destruct (ls_req_fill _ _ _ (r :: rs)) as [|q qs] eqn:Ef; [by exists NSM_Loading, oi, x|].
      set (g := fun y => set_n_t_ls_req true _). eexists _, _, (g x).
      split; [reflexivity|]. split; [|done]. apply working_inert; [by intros y|]. by apply working_emit.
  - unfold nsm_adj_ok. repeat case_bool; eexists _, _, x; (split; [reflexivity|]); split; try done.
    by apply working_emit.
  - unfold nsm_kill_nbr. destruct (Z.eqb_spec n (oi_nbr_self oi)) as [E|_]; [by destruct (wk_self _ _ _ _ W)|].
    cbn [negb]. eexists _, _, x. split; [reflexivity|]. split; [|done]. case_bool; [done|by apply working_emit].
Qed.

End work.

(** Where the table leads. *)
Lemma nsm_next_ok s e f fs tab :
  s <> NSM_DependUpon -> s <> NSM_Deleted -> e <> NSM_NoEvent -> NSM s e = (f, tab) ->
  (tab = NSM_DependUpon -> fs <> NSM_DependUpon) ->
  let next := match f with NF_null => tab | _ => if nsm_is tab NSM_DependUpon then fs else tab end in
  next <> NSM_DependUpon /\ (f = NF_negotiation_done -> s = NSM_ExStart /\ next = NSM_Exchange).
Proof.
  intros H1 H2 H3 E Hf. destruct s, e; try done; injection E as <- <-; cbn; split; try done; by apply Hf.
Qed.

Lemma nsm_call_next ospf s e f tab n x oi fs o :
  n_state x = s -> s <> NSM_DependUpon -> e <> NSM_NoEvent -> NSM s e = (f, tab) ->
  nsm_call ospf f n x oi = Ret (fs, o) -> tab = NSM_DependUpon ->
  fs <> NSM_DependUpon /\ fs <> NSM_Deleted \/ s = NSM_Deleted.
Proof.
  intros Es H1 H2 E Ec Et. destruct (decide (s = NSM_Deleted)) as [|Hd]; [by right|]. left.
  destruct s, e; try done; injection E as <- <-; cbn in Ec; try done.
  all: unfold nsm_twoway_received, nsm_exchange_done, nsm_adj_ok in Ec; rewrite ?Es in Ec; cbn in Ec;
    repeat match goal with
    | H : context [if ?b then _ else _] |- _ => destruct b
    | H : context [match ?l with [] => _ | _ => _ end] |- _ => destruct l
    end; by injection Ec as <- _.
Qed.
