(* ===== verification/OspfAdjacency.v ===== *)
(** * Every OSPF interface keeps its invariant

    The events of the two state machines, Hello packets and the changes of the
    lists of a neighbor, as steps of an interface. *)

From S2P Require Import Prelude OspfLsa OspfIsm OspfElection OspfNsm OspfStation OspfConverge OspfNsmFacts.

(** ** One neighbor event *)

Lemma filter_keys n l : map n_id (List.filter (fun y => negb (n_id y =? n)) l) = List.filter (fun k => negb (k =? n)) (map n_id l).
Proof. induction l as [|y l IH]; [done|]. cbn. case_bool; cbn; by rewrite IH. Qed.

Lemma NoDup_filter_bool (p : Z -> bool) l : NoDup l -> NoDup (List.filter p l).
Proof.
  induction 1 as [|k l Hk Hl IH]; cbn; [constructor|]. case_bool; [|done]. constructor; [|done].
  intros Hin. apply Hk. apply list_elem_of_In in Hin. apply filter_In in Hin as [Hin _]. by apply list_elem_of_In.
Qed.

Lemma full_count_delete n oi x :
  NoDup (map n_id (oi_nbrs oi)) -> nbr_find n oi = Some x ->
  full_count (oi_nbrs (ospf_nbr_delete n oi)) = full_count (oi_nbrs oi) - Z.b2z (is_full x).
Proof.
  unfold nbr_find, ospf_nbr_delete, full_count. cbn [oi_nbrs set_oi_nbrs]. intros Hnd E.
  induction (oi_nbrs oi) as [|y l IH]; [done|]. cbn [map] in Hnd. apply list.NoDup_cons in Hnd as [Hni Hnd].
  cbn [find] in E. cbn [List.filter]. destruct (Z.eqb_spec (n_id y) n) as [Ey|Ey]; cbn [negb].
  - injection E as ->. assert (El : List.filter (fun z => negb (n_id z =? n)) l = l).
    { clear IH Hnd. induction l as [|z l IH]; [done|]. cbn. destruct (Z.eqb_spec (n_id z) n) as [Ez|].
      - destruct Hni. rewrite Ey, <- Ez. left.
      - cbn. f_equal. apply IH. intros H. apply Hni. by right. }
    rewrite El. destruct (is_full x); cbn [length Z.b2z]; lia.
  - specialize (IH Hnd E). cbn [List.filter]. destruct (is_full y); cbn [length]; lia.
Qed.

Lemma working_delete me ks n x oi :
  working me ks n 0 x oi -> is_full x = false -> oi_inv (ospf_nbr_delete n oi).
Proof.
  intros [W1 W2 W3 [Hne (s & Hs & Es & Ss)] W5 W6 W7 W8 W9 _] Hf.
  pose proof (full_count_delete n oi x W1 W2) as Ec. rewrite Hf in Ec. cbn [Z.b2z] in Ec.
  split; try done.
  - unfold ospf_nbr_delete. cbn. rewrite filter_keys. by apply NoDup_filter_bool.
  - apply Forall_forall. intros y Hy. apply filter_In in Hy as [Hy Ey]. rewrite Forall_forall in W3.
    apply W3; [done|]. by apply negb_true_iff, Z.eqb_neq in Ey.
  - exists s. split_and!; [|done..]. apply list_elem_of_In, filter_In. split; [by apply list_elem_of_In|].
    apply negb_true_iff, Z.eqb_neq. congruence.
  - rewrite Ec, Z.sub_0_r. cbn. by rewrite W5, Z.add_0_r.
Qed.

Lemma filter_absent n oi :
  nbr_find n oi = None -> List.filter (fun k => negb (k =? n)) (map n_id (oi_nbrs oi)) = map n_id (oi_nbrs oi).
Proof.
  unfold nbr_find. induction (oi_nbrs oi) as [|y l IH]; [done|]. cbn [find map List.filter].
  destruct (n_id y =? n); [done|]. intros E. cbn [negb]. f_equal. auto.
Qed.

(** An entry whose state changed to [s] is in order. *)
Lemma changed_ok x x' s :
  nbr_ok x -> n_state x' = s -> n_helper x' = false -> s <> NSM_DependUpon -> s <> NSM_Deleted ->
  (if (nsm_num NSM_ExStart <? nsm_num (n_state x)) && (nsm_num s <=? nsm_num NSM_ExStart)
   then n_db_sum x' = [] /\ n_ls_req x' = [] /\ n_ls_rxmt x' = []
   else nsm_num s <= nsm_num NSM_ExStart ->
        n_db_sum x' = n_db_sum x /\ n_ls_req x' = n_ls_req x /\ n_ls_rxmt x' = n_ls_rxmt x) ->
  nbr_ok x'.
Proof.
  intros [_ Hl _] Es Hh H1 H2 HL. split; rewrite ?Es; [done| |done]. intros Hs.
  destruct (Z.ltb_spec (nsm_num NSM_ExStart) (nsm_num (n_state x))) as [Hlt|Hge]; cbn [andb] in HL.
  - destruct (Z.leb_spec (nsm_num s) (nsm_num NSM_ExStart)); [done|lia].
  - destruct (Hl Hge) as (E1 & E2 & E3). destruct (HL Hs) as (-> & -> & ->). done.
Qed.

Lemma nsm_event_inv ospf rnd n e oi :
  oi_inv oi -> n <> oi_nbr_self oi -> e <> NSM_NoEvent ->
  exists oi', ospf_nsm_event ospf rnd n e oi = Ret oi' /\ oi_inv oi' /\ oi_nbr_self oi' = oi_nbr_self oi
    /\ (map n_id (oi_nbrs oi') = map n_id (oi_nbrs oi) /\ e <> NSM_KillNbr
        \/ map n_id (oi_nbrs oi') = List.filter (fun k => negb (k =? n)) (map n_id (oi_nbrs oi))).
Proof.
  intros I Hne He. unfold ospf_nsm_event. destruct (nbr_find n oi) as [x|] eqn:Ex.
  2:{ exists oi. split_and!; [done..|]. right. symmetry. by apply filter_absent. }
  destruct (inv_working _ _ n x oi I Ex Hne eq_refl eq_refl) as [W Hok].
  set (me := oi_nbr_self oi) in *. set (ks := map n_id (oi_nbrs oi)) in *. destruct (no_state _ Hok) as [Hs1 Hs2].
  destruct (NSM (n_state x) e) as [f tab] eqn:EN.
  destruct (nsm_call_working me ks ospf f n x oi W) as (fs & o & x' & Ec & W' & Es & Eh & Ecore).
  rewrite Ec. cbn [mbind outcome_bind].
  set (next := match f with NF_null => tab | _ => _ end).
  destruct (nsm_next_ok (n_state x) e f fs tab Hs1 Hs2 He EN) as [Hnext Hneg].
  { intros Et. destruct (nsm_call_next ospf (n_state x) e f tab n x oi fs o) as [[? _]|?]; done. }
  fold next in Hnext, Hneg. unfold nsm_is at 1. rewrite bool_decide_eq_false_2 by done. cbn [negb].
  assert (H1 : exists o1 x1,
    (if nsm_is next (n_state x) then Ret o else nsm_change_state ospf rnd n x next o) = Ret o1
    /\ working me ks n 0 x1 o1 /\ n_state x1 = next /\ (next <> NSM_Deleted -> nbr_ok x1)).
  { unfold nsm_is. case_bool_decide as Enx.
    - exists o, x'. split; [done|]. split; [done|]. split; [congruence|]. intros _. eapply core_nbr_ok; [|exact Hok].
      symmetry. apply Ecore. intros ->. destruct (Hneg eq_refl) as [E1 E2]. congruence.
    - rewrite (change_state_ext ospf rnd n x x') by (by symmetry).
      assert (Hdb : nsm_num (n_state x') <= nsm_num NSM_ExStart -> next = NSM_ExStart -> n_db_sum x' = []).
      { intros Hle En. assert (f <> NF_negotiation_done) as Hf
          by (intros ->; destruct (Hneg eq_refl); congruence).
        specialize (Ecore Hf). unfold core in Ecore. injection Ecore as _ _ -> _ _ _.
        rewrite Es in Hle. by destruct (no_lists _ Hok Hle). }
      destruct (change_state_working me ks ospf rnd n x' next o W') as (o1 & x1 & Eo & W1 & S1 & L1);
        [congruence|done|].
      exists o1, x1. split; [done|]. split; [done|]. split; [done|]. intros Hd.
      apply (changed_ok x x1 next); [done|done|apply (wk_helper _ _ _ _ _ _ W1)|done|done|].
      rewrite Es in L1. destruct (_ && _); [done|]. intros Hle.
      assert (Hf : f <> NF_negotiation_done).
      { intros ->. destruct (Hneg eq_refl) as [_ E2]. rewrite E2 in Hle. by vm_compute in Hle. }
      specialize (Ecore Hf). unfold core in Ecore. injection Ecore as _ _ E3 E4 E5 _.
      by rewrite <- E3, <- E4, <- E5. }
  destruct H1 as (o1 & x1 & -> & W1 & S1 & Hok1). cbn [mbind outcome_bind].
  assert (Hin : inert nsm_timer_set) by (intros y; unfold nsm_timer_set; destruct (n_state y); [..|case_bool| |]; done).
  apply (working_inert me ks n 0 x1 nsm_timer_set o1 Hin) in W1.
  destruct (lists_update_id nsm_timer_set x1 Hin) as (_ & St & _).
  destruct (wk_frame _ _ _ _ _ _ W1) as [F1 F2].
  unfold nsm_is. case_bool_decide as Ed; eexists; (split; [reflexivity|]); (split; [|split; [done|]]).
  - eapply working_delete; [exact W1|]. unfold is_full. by rewrite St, S1, Ed.
  - right. rewrite <- F2. unfold ospf_nbr_delete. cbn. by rewrite filter_keys.
  - eapply working_inv; [exact W1|]. eapply core_nbr_ok; [|by apply Hok1]. symmetry. apply Hin.
  - left. split; [done|]. intros ->. apply Ed. unfold next. destruct (n_state x); done || by injection EN as <- <-.
Qed.

(** ** The interface goes down *)

Lemma kill_all_inv ospf rnd ids : forall oi,
  oi_inv oi -> oi_nbr_self oi ∉ ids ->
  exists oi', kill_all ospf rnd ids oi = Ret oi' /\ oi_inv oi' /\ oi_nbr_self oi' = oi_nbr_self oi
    /\ map n_id (oi_nbrs oi') = List.filter (fun k => negb (bool_decide (k ∈ ids))) (map n_id (oi_nbrs oi)).
Proof.
  induction ids as [|n ids IH]; intros oi I Hself.
  { exists oi. split_and!; [done..|]. symmetry. generalize (map n_id (oi_nbrs oi)). intros l.
    induction l as [|k l IHl]; [done|]. cbn. rewrite bool_decide_eq_false_2 by apply not_elem_of_nil. cbn.
    by rewrite IHl. }
  apply not_elem_of_cons in Hself as [Hne Hself]. cbn [kill_all].
  destruct (nsm_event_inv ospf rnd n NSM_KillNbr oi I (not_eq_sym Hne)) as (o & -> & Io & So & Ko); [done|].
  cbn [mbind outcome_bind]. destruct Ko as [[_ []]|Ko]; [done|].
  destruct (IH o Io) as (o' & -> & Io' & So' & Ko'); [by rewrite So|].
  exists o'. split_and!; [done|done|congruence|]. rewrite Ko', Ko.
  generalize (map n_id (oi_nbrs oi)). intros l. induction l as [|k l IHl]; [done|]. cbn [List.filter].
  destruct (Z.eqb_spec k n) as [->|Hk]; cbn [negb].
  - rewrite (bool_decide_eq_true_2 (n ∈ n :: ids)) by left. cbn [negb]. exact IHl.
  - cbn [List.filter].
    assert (bool_decide (k ∈ n :: ids) = bool_decide (k ∈ ids)) as ->.
    { apply bool_decide_ext. rewrite elem_of_cons. naive_solver. }
    case_bool; [by rewrite IHl|done].
Qed.

(** The entry of the router after a reset. *)
Definition self_key (oi : ospf_interface) : Z := if by_router_id oi then oi_router_id oi else oi_address oi.

Lemma filter_filter_ids (l : list Z) (s : Z) :
  List.filter (fun k => negb (k =? s))
    (List.filter (fun k => negb (bool_decide (k ∈ List.filter (fun n => negb (n =? s)) l))) l) = [].
Proof.
  assert (G : forall m, (forall k, k ∈ m -> k ∈ l) ->
    List.filter (fun k => negb (k =? s))
      (List.filter (fun k => negb (bool_decide (k ∈ List.filter (fun n => negb (n =? s)) l))) m) = []).
  { induction m as [|k m IH]; intros Hm; [done|]. cbn [List.filter].
    assert (IH' := IH ltac:(intros; apply Hm; by right)).
    destruct (Z.eqb_spec k s) as [->|Hk].
    - case_bool; cbn [List.filter]; [|done]. by rewrite Z.eqb_refl.
    - rewrite bool_decide_eq_true_2; [done|]. apply list_elem_of_In, filter_In.
      split; [apply list_elem_of_In, Hm; left|]. by destruct (Z.eqb_spec k s). }
  by apply G.
Qed.

Lemma map_nil {A B} (f : A -> B) l : map f l = [] -> l = [].
Proof. by destruct l. Qed.

Lemma if_cleanup_inv ospf rnd oi :
  oi_inv oi ->
  exists oi', ospf_if_cleanup ospf rnd oi = Ret oi'
    /\ (exists x, oi_nbrs oi' = [x] /\ n_id x = oi_nbr_self oi' /\ n_state x = NSM_TwoWay /\ nbr_ok x
                  /\ n_d_router x = 0 /\ n_bd_router x = 0)
    /\ oi_full_nbrs oi' = 0 /\ lsa_ok oi' /\ oi_restarting oi' = false /\ oi_state oi' <> ISM_DependUpon.
Proof.
  intros I. unfold ospf_if_cleanup. set (ids := List.filter _ _).
  destruct (kill_all_inv ospf rnd ids oi I) as (o & -> & Io & So & Ko).
  { intros Hin%list_elem_of_In. apply filter_In in Hin as [_ Hin]. by rewrite Z.eqb_refl in Hin. }
  cbn [mbind outcome_bind]. eexists. split; [reflexivity|].
  unfold ospf_nbr_self_reset. set (o1 := ospf_nbr_delete (oi_nbr_self o) o).
  assert (E1 : oi_nbrs o1 = []).
  { apply (map_nil n_id). unfold o1, ospf_nbr_delete. cbn. rewrite filter_keys, Ko, So.
    unfold ids. apply filter_filter_ids. }
  assert (Hfull : oi_full_nbrs o = 0).
  { rewrite (inv_count _ Io). assert (Ec : full_count (oi_nbrs o) = 0).
    { assert (Hall : forall y, y ∈ oi_nbrs o -> is_full y = false).
      { intros y Hy. destruct (inv_self _ Io) as (x & Hx & Ex & Sx).
        assert (n_id y = oi_nbr_self o).
        { destruct (Z.eq_dec (n_id y) (oi_nbr_self o)) as [|Hne]; [done|]. exfalso.
          assert (y ∈ oi_nbrs o1); [|rewrite E1 in *; by apply (elem_of_nil y)].
          unfold o1, ospf_nbr_delete. cbn. apply list_elem_of_In, filter_In. split; [by apply list_elem_of_In|].
          by apply negb_true_iff, Z.eqb_neq. }
        assert (y = x) as ->; [|unfold is_full; by rewrite Sx].
        apply list_elem_of_lookup in Hx as [i Hi]. apply list_elem_of_lookup in Hy as [j Hj].
        assert (i = j) as ->; [|congruence].
        apply (NoDup_lookup _ _ _ (oi_nbr_self o) (inv_keys _ Io)); rewrite list_lookup_fmap;
          [by rewrite Hi, <- Ex|by rewrite Hj, <- H]. }
      unfold full_count. clear -Hall. induction (oi_nbrs o) as [|y l IH]; [done|]. cbn.
      rewrite Hall by left. apply IH. intros z Hz. apply Hall. by right. }
    by rewrite Ec. }
  assert (Hseen : oi_full_nbrs o1 = oi_full_nbrs o /\ oi_state o1 = oi_state o /\ oi_restarting o1 = oi_restarting o
                  /\ oi_network_lsa_self o1 = oi_network_lsa_self o) by done.
  clearbody o1. destruct Hseen as (F1 & F2 & F3 & F4). unfold ospf_nbr_add_self. cbv zeta.
  set (key := if by_router_id o1 then _ else _).
  unfold nbr_find. change (oi_nbrs (set_oi_nbr_self key o1)) with (oi_nbrs o1). rewrite E1. cbn [find nbr_insert].
  split; [|split_and!].
  - eexists. split; [reflexivity|]. by split_and!.
  - cbn. congruence.
  - unfold lsa_ok. cbn. rewrite F4, F2, F1. apply (inv_lsa _ Io).
  - cbn. rewrite F3. apply (inv_restarting _ Io).
  - cbn. rewrite F2. apply (inv_state _ Io).
Qed.

Lemma single_inv oi x :
  oi_nbrs oi = [x] -> n_id x = oi_nbr_self oi -> n_state x = NSM_TwoWay -> nbr_ok x ->
  oi_full_nbrs oi = 0 -> lsa_ok oi -> oi_restarting oi = false -> oi_state oi <> ISM_DependUpon -> oi_inv oi.
Proof.
  intros E Ei Es Hok Ef Hl Hr Hst. split; rewrite ?E; try done.
  - apply list.NoDup_singleton.
  - by constructor.
  - exists x. split_and!; [left|done..].
  - rewrite Ef. unfold full_count. cbn. unfold is_full. by rewrite Es.
Qed.

(** Every interface event. *)
Lemma ism_event_inv ospf rnd e oi :
  oi_inv oi -> e <> ISM_NoEvent ->
  exists oi', ospf_ism_event ospf rnd e oi = Ret oi' /\ oi_inv oi'.
Proof.
  intros I He. unfold ospf_ism_event. destruct (fst (ISM (oi_state oi) e)) eqn:Ef;
    try (eexists; split; [reflexivity|]; eapply steady_inv; [|exact I]; by apply ism_event_local_steady).
  destruct (if_cleanup_inv ospf rnd oi I) as (o & -> & (x & Ex & Ix & Sx & Ox & _) & F & L & Rr & Ss).
  cbn [mbind outcome_bind]. eexists. split; [reflexivity|]. eapply steady_inv; [|by eapply single_inv].
  apply ism_finish_steady. right.
  assert (e = ISM_InterfaceDown) as -> by (by destruct (oi_state oi), e). by destruct (oi_state o).
Qed.

(** ** Hello packets *)

Lemma steady_refl oi : steady oi oi.
Proof. by apply steady_same. Qed.

Lemma steady_update n f o a : inert f -> steady o a -> steady o (nbr_update n f a).
Proof.
  intros Hf Ha. eapply steady_trans; [exact Ha|]. apply steady_same; [by apply quiet_update|done..].
Qed.

Lemma steady_emit e o a : steady o a -> steady o (emit e a).
Proof. intros Ha. eapply steady_trans; [exact Ha|]. by apply steady_same. Qed.

Lemma steady_emit_all l o a : steady o a -> steady o (emit_all l a).
Proof. intros Ha. eapply steady_trans; [exact Ha|]. by apply steady_same. Qed.

Lemma steady_if o (b : bool) x y : steady o x -> steady o y -> steady o (if b then x else y).
Proof. by destruct b. Qed.

Create HintDb steady.
#[export] Hint Resolve steady_refl steady_emit steady_emit_all steady_if : steady.
#[export] Hint Extern 1 (steady _ (nbr_update _ _ _)) => apply steady_update; [by intros ?|] : steady.
#[export] Hint Extern 1 (steady _ (set_DR _ _)) => apply steady_update; [by intros ?|] : steady.

Lemma nbr_insert_elem x l y : y ∈ nbr_insert x l <-> y = x \/ y ∈ l.
Proof.
  induction l as [|z l IH]; cbn [nbr_insert].
  - rewrite list_elem_of_singleton. split; [by left|]. intros [?|H]; [done|]. by apply elem_of_nil in H.
  - case_bool; rewrite !elem_of_cons; [done|]. rewrite IH. tauto.
Qed.

Lemma nbr_insert_keys x l : Permutation (map n_id (nbr_insert x l)) (n_id x :: map n_id l).
Proof.
  induction l as [|z l IH]; cbn [nbr_insert]; [done|]. case_bool; [done|]. cbn [map].
  rewrite IH. by constructor.
Qed.

Lemma nbr_insert_count x l : full_count (nbr_insert x l) = full_count (x :: l).
Proof.
  unfold full_count. induction l as [|z l IH]; cbn [nbr_insert]; [done|]. case_bool; [done|].
  cbn [List.filter] in *. destruct (is_full z), (is_full x); cbn [length] in *; lia.
Qed.

Lemma insert_inv x oi :
  oi_inv oi -> nbr_find (n_id x) oi = None -> nbr_ok x -> is_full x = false ->
  oi_inv (set_oi_nbrs (nbr_insert x (oi_nbrs oi)) oi).
Proof.
  intros [I1 I2 I3 I4 I5 I6 I7] Hf Hok Hx. split; cbn [oi_nbrs set_oi_nbrs]; try done.
  - rewrite nbr_insert_keys. apply list.NoDup_cons. split; [|done]. intros Hin.
    apply list_elem_of_In, in_map_iff in Hin as (y & Ey & Hy). unfold nbr_find in Hf.
    pose proof (find_none _ _ Hf y Hy) as E. cbn beta in E. by rewrite Ey, Z.eqb_refl in E.
  - apply Forall_forall. intros y Hy%list_elem_of_In. apply nbr_insert_elem in Hy as [->|Hy]; [done|].
    rewrite Forall_forall in I2. apply I2. by apply list_elem_of_In.
  - destruct I3 as (y & Hy & ? & ?). exists y. split_and!; [|done..]. apply nbr_insert_elem. by right.
  - rewrite nbr_insert_count. unfold full_count. cbn [List.filter]. rewrite Hx. exact I4.
Qed.

Definition hello_key (h : ospf_hello_packet) (oi : ospf_interface) : Z :=
  if by_router_id oi then h_router_id h else h_src h.

Lemma nbr_get_inv rid src crypt oi :
  oi_inv oi -> oi_inv (snd (ospf_nbr_get rid src crypt oi)).
Proof.
  intros I. unfold ospf_nbr_get. set (key := if by_router_id oi then rid else src). cbn [snd].
  assert (I1 : oi_inv match nbr_find key oi with
                      | Some x => if OSPF_IF_NON_BROADCAST oi && nsm_is (n_state x) NSM_Attempt
                                  then nbr_update key (set_n_address src) oi else oi
                      | None => set_oi_nbrs (nbr_insert (ospf_nbr_add key src crypt) (oi_nbrs oi)) oi
                      end).
  { destruct (nbr_find key oi) as [x|] eqn:E.
    - eapply steady_inv; [|exact I]. auto with steady.
    - apply insert_inv; [done|by destruct crypt| |by destruct crypt]. destruct crypt; by split. }
  eapply steady_inv; [|exact I1]. auto with steady.
Qed.

Lemma hello_inv c h oi : oi_inv oi -> oi_inv (ospf_hello c h oi).
Proof.
  intros I. unfold ospf_hello. destruct (hello_accepted c h oi) as [o|]; [|done].
  pose proof (nbr_get_inv (h_router_id h) (h_src h) (h_crypt h) oi I) as I1.
  destruct (ospf_nbr_get _ _ _ oi) as [n o1]. cbn [snd] in I1.
  destruct (nbr_find n o1) as [x|]; [|done]. eapply steady_inv; [|exact I1].
  set (a := emit _ o1). assert (Ha : steady o1 a) by (unfold a; auto with steady). clearbody a.
  set (b := if (_ : bool) then nbr_update n (set_n_t_hello_reply true) a else a).
  assert (Hb : steady o1 b) by (unfold b; auto with steady). clearbody b. cbv zeta.
  auto 12 with steady.
Qed.

(** ** Steps of an interface *)

(** What can happen to an interface: an event of one of its neighbors, an event
    of its own, a Hello, the end of an inactivity timer, and the changes that the
    exchange of databases and flooding make to the lists of a neighbor that is at
    least in state Exchange. *)
Inductive oi_step (c : hello_conf) (oi : ospf_interface) : outcome ospf_interface -> Prop :=
| step_nsm ospf rnd n e :
    n <> oi_nbr_self oi -> e <> NSM_NoEvent -> oi_step c oi (ospf_nsm_event ospf rnd n e oi)
| step_ism ospf rnd e :
    e <> ISM_NoEvent -> oi_step c oi (ospf_ism_event ospf rnd e oi)
| step_hello h : oi_step c oi (Ret (ospf_hello c h oi))
| step_inactivity n : oi_step c oi (Ret (ospf_inactivity_timer n oi))
| step_lists n x db_sum ls_req ls_rxmt :
    nbr_find n oi = Some x -> nsm_ge (n_state x) NSM_Exchange = true ->
    oi_step c oi (Ret (nbr_update n (fun x => set_n_ls_rxmt ls_rxmt (set_n_ls_req ls_req (set_n_db_sum db_sum x))) oi)).

(** An interface as it is created: down, with the entry of the router itself. *)
Record oi_new (oi : ospf_interface) : Prop := mkOiNew {
  new_state : oi_state oi = ISM_Down;
  new_self : exists x, oi_nbrs oi = [x] /\ n_id x = oi_nbr_self oi /\ n_state x = NSM_TwoWay
             /\ n_db_sum x = [] /\ n_ls_req x = [] /\ n_ls_rxmt x = [] /\ n_helper x = false;
  new_count : oi_full_nbrs oi = 0;
  new_lsa : oi_network_lsa_self oi = false;
  new_restarting : oi_restarting oi = false
}.

Inductive oi_reachable (c : hello_conf) : ospf_interface -> Prop :=
| reach_new oi : oi_new oi -> oi_reachable c oi
| reach_step oi oi' : oi_reachable c oi -> oi_step c oi (Ret oi') -> oi_reachable c oi'.

Lemma new_inv oi : oi_new oi -> oi_inv oi.
Proof.
  intros [Es (x & Ex & Ix & Sx & E1 & E2 & E3 & Eh) Ec El Er].
  eapply single_inv; try done; [|unfold lsa_ok; by rewrite El, Es|by rewrite Es].
  split; [by rewrite Sx|done|done].
Qed.

Lemma inactivity_inv n oi : oi_inv oi -> oi_inv (ospf_inactivity_timer n oi).
Proof.
  intros I. eapply steady_inv; [|exact I]. unfold ospf_inactivity_timer. cbv zeta.
  destruct (nbr_find n _); auto with steady.
Qed.

Lemma lists_inv n x db_sum ls_req ls_rxmt oi :
  oi_inv oi -> nbr_find n oi = Some x -> nsm_ge (n_state x) NSM_Exchange = true ->
  oi_inv (nbr_update n (fun x => set_n_ls_rxmt ls_rxmt (set_n_ls_req ls_req (set_n_db_sum db_sum x))) oi).
Proof.
  intros I Ex Hs. set (f := fun x => _).
  assert (Hne : n <> oi_nbr_self oi).
  { intros ->. destruct (inv_self _ I) as (y & Hy & Ey & Sy). destruct (find_id _ _ _ Ex) as [Hx Ix].
    assert (x = y) as ->; [|by rewrite Sy in Hs].
    apply list_elem_of_lookup in Hx as [i Hi]. apply list_elem_of_lookup in Hy as [j Hj].
    assert (i = j) as ->; [|congruence].
    apply (NoDup_lookup _ _ _ (oi_nbr_self oi) (inv_keys _ I)); rewrite list_lookup_fmap;
      [by rewrite Hi, <- Ix|by rewrite Hj, <- Ey]. }
  destruct (inv_working _ _ n x oi I Ex Hne eq_refl eq_refl) as [W Hok].
  pose proof (working_update _ _ n 0 x f oi W (fun _ => eq_refl) eq_refl) as W'.
  unfold is_full in W'. change (n_state (f x)) with (n_state x) in W'. rewrite Z.add_simpl_r in W'.
  eapply working_inv; [exact W'|]. destruct Hok as [H1 _ H3]. split; [done| |done].
  intros Hle. exfalso. change (n_state (f x)) with (n_state x) in Hle.
  unfold nsm_ge in Hs. apply Z.leb_le in Hs. cbn in Hs, Hle. lia.
Qed.

Lemma step_inv c oi r : oi_inv oi -> oi_step c oi r -> exists oi', r = Ret oi' /\ oi_inv oi'.
Proof.
  intros I H. destruct H as [ospf rnd n e Hn He|ospf rnd e He|h|n|n x l1 l2 l3 Ex Hs].
  - destruct (nsm_event_inv ospf rnd n e oi I Hn He) as (o & ? & ? & _). by exists o.
  - by apply ism_event_inv.
  - eexists. split; [reflexivity|]. by apply hello_inv.
  - eexists. split; [reflexivity|]. by apply inactivity_inv.
  - eexists. split; [reflexivity|]. by eapply lists_inv.
Qed.

(** C16: On every OSPF interface that events of its own, of its neighbors and
    Hello packets can lead to, when the router neither restarts gracefully nor
    helps a neighbor to: the counter of full adjacencies is the number of full
    neighbors; the router has a network LSA exactly when it is the designated
    router and has a full neighbor; a neighbor in state ExStart or below has empty
    summary, request and retransmission lists; no deleted neighbor is in the
    table, which has one entry for each key; the router itself is in it.  And no
    event fails an assertion. *)
Theorem ospf_adjacency_invariant c oi :
  oi_reachable c oi ->
  oi_full_nbrs oi = u32 (full_count (oi_nbrs oi))
  /\ oi_network_lsa_self oi = ism_is (oi_state oi) ISM_DR && negb (oi_full_nbrs oi =? 0)
  /\ Forall nbr_ok (oi_nbrs oi) /\ NoDup (map n_id (oi_nbrs oi))
  /\ (exists x, x ∈ oi_nbrs oi /\ n_id x = oi_nbr_self oi /\ n_state x = NSM_TwoWay)
  /\ forall r, oi_step c oi r -> r <> Abort.
Proof.
  intros H. assert (I : oi_inv oi).
  { induction H as [oi Hnew|oi oi' _ IH Hstep]; [by apply new_inv|].
    destruct (step_inv c oi _ IH Hstep) as (o & E & Io). injection E as <-. exact Io. }
  split_and!; try apply I. intros r Hr. by destruct (step_inv c oi r I Hr) as (o & -> & _).
Qed.

(** ** A neighbor becomes fully adjacent to the designated router *)

Definition force (r : outcome ospf_interface) (d : ospf_interface) : ospf_interface :=
  match r with Ret o => o | Abort => d end.

Lemma reach_force c oi r :
  oi_reachable c oi -> oi_step c oi r -> r = Ret (force r oi) -> oi_reachable c (force r oi).
Proof. intros H Hs E. rewrite E in Hs. by eapply reach_step. Qed.

Definition ex_down : ospf_interface :=
  mkOi OSPF_IFTYPE_BROADCAST ISM_Down 2 22 1 2 [ex_entry 2 22 1] 0 0 0 None false false
    OSPF_AREA_DEFAULT false false false false 0 [].
Definition ex_hello : ospf_hello_packet := mkHello 1 11 24 10 40 OSPF_OPTION_E 1 0 0 [22] None.

Definition ex_nsm (e : nsm_event) (oi : ospf_interface) : outcome ospf_interface :=
  ospf_nsm_event ex_ospf 77 1 e oi.

Definition ex_waiting := force (ospf_ism_event ex_ospf 77 ISM_InterfaceUp ex_down) ex_down.
Definition ex_heard := ospf_hello ex_conf ex_hello ex_waiting.
Definition ex_init := force (ex_nsm NSM_HelloReceived ex_heard) ex_heard.
Definition ex_twoway := force (ex_nsm NSM_TwoWayReceived ex_init) ex_init.
Definition ex_elected := force (ospf_ism_event ex_ospf 77 ISM_WaitTimer ex_twoway) ex_twoway.
Definition ex_exstart := force (ex_nsm NSM_AdjOK ex_elected) ex_elected.
Definition ex_exchange := force (ex_nsm NSM_NegotiationDone ex_exstart) ex_exstart.
Definition ex_full := force (ex_nsm NSM_ExchangeDone ex_exchange) ex_exchange.

Lemma ex_nsm_reachable e oi :
  oi_reachable ex_conf oi -> e <> NSM_NoEvent -> (oi_nbr_self oi =? 1) = false ->
  (match ex_nsm e oi with Ret _ => true | Abort => false end) = true ->
  oi_reachable ex_conf (force (ex_nsm e oi) oi).
Proof.
  intros H He Hs Hr. apply reach_force; [done| |by destruct (ex_nsm e oi)].
  apply step_nsm; [lia|done].
Qed.

Lemma ex_ism_reachable e oi :
  oi_reachable ex_conf oi -> e <> ISM_NoEvent ->
  (match ospf_ism_event ex_ospf 77 e oi with Ret _ => true | Abort => false end) = true ->
  oi_reachable ex_conf (force (ospf_ism_event ex_ospf 77 e oi) oi).
Proof.
  intros H He Hr. apply reach_force; [done| |by destruct (ospf_ism_event _ _ _ oi)].
  by apply step_ism.
Qed.

Lemma ex_full_reachable : oi_reachable ex_conf ex_full.
Proof.
  assert (H0 : oi_reachable ex_conf ex_down).
  { apply reach_new. split; try reflexivity. by exists (ex_entry 2 22 1). }
  assert (H1 : oi_reachable ex_conf ex_waiting).
  { apply ex_ism_reachable; [exact H0|discriminate|vm_compute; reflexivity]. }
  assert (H2 : oi_reachable ex_conf ex_heard) by (eapply reach_step; [exact H1|apply step_hello]).
  assert (H3 : oi_reachable ex_conf ex_init).
  { apply ex_nsm_reachable; [exact H2|discriminate|vm_compute; reflexivity..]. }
  assert (H4 : oi_reachable ex_conf ex_twoway).
  { apply ex_nsm_reachable; [exact H3|discriminate|vm_compute; reflexivity..]. }
  assert (H5 : oi_reachable ex_conf ex_elected).
  { apply ex_ism_reachable; [exact H4|discriminate|vm_compute; reflexivity]. }
  assert (H6 : oi_reachable ex_conf ex_exstart).
  { apply ex_nsm_reachable; [exact H5|discriminate|vm_compute; reflexivity..]. }
  assert (H7 : oi_reachable ex_conf ex_exchange).
  { apply ex_nsm_reachable; [exact H6|discriminate|vm_compute; reflexivity..]. }
  apply ex_nsm_reachable; [exact H7|discriminate|vm_compute; reflexivity..].
Qed.

Lemma ospf_adjacency_invariant_witness :
  oi_state ex_full = ISM_DR /\ oi_full_nbrs ex_full = 1 /\ oi_network_lsa_self ex_full = true
  /\ oi_full_nbrs ex_full = u32 (full_count (oi_nbrs ex_full))
  /\ (forall r, oi_step ex_conf ex_full r -> r <> Abort).
Proof.
  destruct (ospf_adjacency_invariant ex_conf ex_full ex_full_reachable) as (H1 & _ & _ & _ & _ & H6).
  split_and!; [vm_compute; reflexivity..|exact H1|exact H6].
Defined.
