(* ===== verification/OspfDbDesc.v ===== *)
(** * Exchange of OSPF databases (ospfd/ospf_packet.c)

    Reception of Database Description packets: the negotiation of master and
    slave, the headers that the neighbor describes, the answer; Link State
    Requests and the updates that answer them.  Packets and scheduled events are
    added to [oi_out].

    An assertion that fails and a dereferenced NULL pointer give [Abort]. *)

From S2P Require Import Prelude OspfLsa OspfIsm OspfNsm.

Definition OSPF_DD_FLAG_ALL : Z := 7.
Definition OSPF_HEADER_SIZE : Z := 24.
Definition OSPF_LS_UPD_MIN_SIZE : Z := 4.

Definition IS_SET_DD_MS (flags : Z) : bool := CHECK_FLAG flags OSPF_DD_FLAG_MS.
Definition IS_SET_DD_M (flags : Z) : bool := CHECK_FLAG flags OSPF_DD_FLAG_M.
Definition IS_SET_DD_I (flags : Z) : bool := CHECK_FLAG flags OSPF_DD_FLAG_I.

(** The size of a packet, without the OSPF header. *)
Definition dd_size (dd : ospf_db_desc_packet) : Z :=
  OSPF_DB_DESC_MIN_SIZE + OSPF_LSA_HEADER_SIZE * Z.of_nat (length (dd_headers dd)).

Definition ospf_nbr_lookup (router_id src : Z) (oi : ospf_interface) : option ospf_neighbor :=
  if by_router_id oi then List.find (fun x => n_router_id x =? router_id) (oi_nbrs oi)
  else nbr_find src oi.

(** ** Timers *)

Definition ospf_db_desc_resend (n : Z) (oi : ospf_interface) : outcome ospf_interface :=
  match nbr_find n oi with
  | None => Ret oi
  | Some x =>
      match n_last_send x with
      | None => Abort
      | Some dd => Ret (emit (DbDescSend n dd) oi)
      end
  end.

Definition ospf_db_desc_timer (n : Z) (oi : ospf_interface) : outcome ospf_interface :=
  oi ← ospf_db_desc_resend n (nbr_update n (set_n_t_db_desc false) oi);
  Ret (nbr_update n (set_n_t_db_desc true) oi).

Definition ospf_ls_req_timer (ospf : ospf_instance) (n : Z) (oi : ospf_interface) : ospf_interface :=
  let oi := nbr_update n (set_n_t_ls_req false) oi in
  let oi := match nbr_find n oi with
            | Some x => match n_ls_req x with [] => oi | _ => ospf_ls_req_send ospf n oi end
            | None => oi
            end in
  nbr_update n (set_n_t_ls_req true) oi.

(** ** The headers of a packet *)

(** A header that makes the exchange start over. *)
Definition dd_refused (external_routing : Z) (x : ospf_neighbor) (h : lsa_header) : bool :=
  (ls_type h <? OSPF_MIN_LSA) || (OSPF_MAX_LSA <=? ls_type h)
  || (IS_OPAQUE_LSA (ls_type h) && negb (CHECK_FLAG (n_options x) OSPF_OPTION_O))
  || (((ls_type h =? OSPF_AS_EXTERNAL_LSA) || (ls_type h =? OSPF_OPAQUE_AS_LSA))
      && (external_routing =? OSPF_AREA_STUB)).

(** A more recent LSA is requested; an LSA that the neighbor has as well is not
    described to it any more. *)
Definition dd_header (db : ospf_lsdb) (h : lsa_header) (x : ospf_neighbor) : ospf_neighbor :=
  let new := ospf_ls_request_new h in
  let find := ospf_lsa_lookup_by_header db h in
  let undescribe x := match find with
                      | Some l => set_n_db_sum (ospf_lsdb_delete l (n_db_sum x)) x
                      | None => x
                      end in
  let r := ospf_lsa_more_recent find (Some new) in
  if r =? -1 then undescribe (set_n_ls_req (ospf_lsdb_add new (n_ls_req x)) x)
  else if r =? 0 then undescribe x
  else x.

(** The loop, and whether it went through all headers. *)
Fixpoint dd_process (db : ospf_lsdb) (external_routing : Z) (hs : list lsa_header) (x : ospf_neighbor) :
    bool * ospf_neighbor :=
  match hs with
  | [] => (true, x)
  | h :: hs' =>
      if dd_refused external_routing x h then (false, x)
      else dd_process db external_routing hs' (dd_header db h x)
  end.

Definition ospf_db_desc_save_current (dd : ospf_db_desc_packet) (x : ospf_neighbor) : ospf_neighbor :=
  set_n_last_recv (mkReceived (dd_options dd) (dd_flags dd) (dd_seqnum dd)) x.

(** Neither side has more to describe. *)
Definition dd_all_done (dd : ospf_db_desc_packet) (n : Z) (oi : ospf_interface) : bool :=
  negb (IS_SET_DD_M (dd_flags dd))
  && match nbr_find n oi with Some x => negb (IS_SET_DD_M (n_dd_flags x)) | None => true end.

(** The answer to a packet whose headers were processed. *)
Definition dd_answer (ospf : ospf_instance) (dd : ospf_db_desc_packet) (n : Z) (master : bool)
    (oi : ospf_interface) : outcome ospf_interface :=
  if master then
    let oi := nbr_update n (fun x => set_n_dd_seqnum (u32 (n_dd_seqnum x + 1)) x) oi in
    if dd_all_done dd n oi then Ret (emit (ScheduleNsm n NSM_ExchangeDone) oi)
    else ospf_db_desc_send ospf n oi
  else
    oi ← ospf_db_desc_send ospf n (nbr_update n (set_n_dd_seqnum (dd_seqnum dd)) oi);
    Ret (if dd_all_done dd n oi then emit (ScheduleNsm n NSM_ExchangeDone) oi else oi).

Definition ospf_db_desc_proc (ospf : ospf_instance) (n : Z) (dd : ospf_db_desc_packet)
    (oi : ospf_interface) : outcome ospf_interface :=
  match nbr_find n oi with
  | None => Ret oi
  | Some x =>
      let '(complete, x) := dd_process (o_lsdb ospf) (oi_external_routing oi) (dd_headers dd) x in
      let oi := nbr_update n (fun _ => x) oi in
      if negb complete then Ret (emit (ScheduleNsm n NSM_SeqNumberMismatch) oi)
      else
        oi ← dd_answer ospf dd n (IS_SET_DD_MS (n_dd_flags x)) oi;
        let oi := nbr_update n (ospf_db_desc_save_current dd) oi in
        Ret (if n_t_ls_req x then oi else ospf_ls_req_send ospf n oi)
  end.

(** ** A Database Description packet *)

Definition ospf_db_desc_is_dup (dd : ospf_db_desc_packet) (x : ospf_neighbor) : bool :=
  (dd_options dd =? rv_options (n_last_recv x)) && (dd_flags dd =? rv_flags (n_last_recv x))
  && (dd_seqnum dd =? rv_seqnum (n_last_recv x)).

Definition set_dd_options (v : Z) (dd : ospf_db_desc_packet) : ospf_db_desc_packet :=
  mkDD (dd_mtu dd) v (dd_flags dd) (dd_seqnum dd) (dd_headers dd).

(** The options that the packet is taken to have. *)
Definition dd_seen_options (c : hello_conf) (oi : ospf_interface) (x : ospf_neighbor) (options : Z) : Z :=
  let options := if (oi_external_routing oi =? OSPF_AREA_NSSA)
                    && CHECK_FLAG (n_options x) OSPF_OPTION_NP
                    && negb (CHECK_FLAG options OSPF_OPTION_NP)
                 then SET_FLAG options OSPF_OPTION_NP else options in
  if CHECK_FLAG options OSPF_OPTION_O && negb (c_opaque c)
  then UNSET_FLAG options OSPF_OPTION_O else options.

(** The negotiation: what becomes of the neighbor, [None] when the packet does
    not settle it. *)
Definition dd_negotiate (own_id : Z) (dd : ospf_db_desc_packet) (x : ospf_neighbor) :
    option ospf_neighbor :=
  if (Z.land (dd_flags dd) OSPF_DD_FLAG_ALL =? OSPF_DD_FLAG_ALL)
     && (dd_size dd =? OSPF_DB_DESC_MIN_SIZE) then
    if own_id <? n_router_id x
    then Some (set_n_dd_flags (UNSET_FLAG (n_dd_flags x) (Z.lor OSPF_DD_FLAG_MS OSPF_DD_FLAG_I))
                 (set_n_dd_seqnum (dd_seqnum dd) x))
    else None
  else if negb (IS_SET_DD_MS (dd_flags dd)) && negb (IS_SET_DD_I (dd_flags dd))
          && (dd_seqnum dd =? n_dd_seqnum x) && (n_router_id x <? own_id)
  then Some (set_n_dd_flags (UNSET_FLAG (n_dd_flags x) OSPF_DD_FLAG_I) x)
  else None.

Definition dd_exstart (ospf : ospf_instance) (rnd n : Z) (dd : ospf_db_desc_packet)
    (oi : ospf_interface) : outcome ospf_interface :=
  match nbr_find n oi with
  | None => Ret oi
  | Some x =>
      match dd_negotiate (oi_router_id oi) dd x with
      | None => Ret oi
      | Some x =>
          let oi := nbr_update n (fun _ => set_n_options (dd_options dd) x) oi in
          oi ← ospf_nsm_event ospf rnd n NSM_NegotiationDone oi;
          ospf_db_desc_proc ospf n dd oi
      end
  end.

(** The tests of a packet in state Exchange. *)
Definition dd_mismatch (dd : ospf_db_desc_packet) (x : ospf_neighbor) : bool :=
  negb (Bool.eqb (IS_SET_DD_MS (dd_flags dd)) (IS_SET_DD_MS (rv_flags (n_last_recv x))))
  || IS_SET_DD_I (dd_flags dd)
  || negb (dd_options dd =? n_options x)
  || negb (dd_seqnum dd =? (if IS_SET_DD_MS (n_dd_flags x) then n_dd_seqnum x
                            else u32 (n_dd_seqnum x + 1))).

Definition dd_exchange (ospf : ospf_instance) (n : Z) (dd : ospf_db_desc_packet) (x : ospf_neighbor)
    (oi : ospf_interface) : outcome ospf_interface :=
  if ospf_db_desc_is_dup dd x then
    if IS_SET_DD_MS (n_dd_flags x) then Ret oi else ospf_db_desc_resend n oi
  else if dd_mismatch dd x then Ret (emit (ScheduleNsm n NSM_SeqNumberMismatch) oi)
  else ospf_db_desc_proc ospf n dd oi.

(** [recent] says that the last packet was sent within the dead interval. *)
Definition dd_loaded (recent : bool) (n : Z) (dd : ospf_db_desc_packet) (x : ospf_neighbor)
    (oi : ospf_interface) : outcome ospf_interface :=
  if ospf_db_desc_is_dup dd x && IS_SET_DD_MS (n_dd_flags x) then Ret oi
  else if ospf_db_desc_is_dup dd x && recent then ospf_db_desc_resend n oi
  else Ret (emit (ScheduleNsm n NSM_SeqNumberMismatch) oi).

Definition ospf_db_desc (ospf : ospf_instance) (rnd : Z) (recent : bool) (router_id src : Z)
    (dd : ospf_db_desc_packet) (oi : ospf_interface) : outcome ospf_interface :=
  let c := o_conf ospf in
  match ospf_nbr_lookup router_id src oi with
  | None => Ret oi
  | Some x =>
      let n := n_id x in
      if negb (c_mtu_ignore c) && (c_mtu c <? dd_mtu dd) then Ret oi
      else if CHECK_FLAG (dd_options dd) OSPF_OPTION_MT then Ret oi
      else
        let dd := set_dd_options (dd_seen_options c oi x (dd_options dd)) dd in
        match n_state x with
        | NSM_Init =>
            oi ← ospf_nsm_event ospf rnd n NSM_TwoWayReceived oi;
            match nbr_find n oi with
            | Some x => if nsm_is (n_state x) NSM_ExStart then dd_exstart ospf rnd n dd oi else Ret oi
            | None => Ret oi
            end
        | NSM_ExStart => dd_exstart ospf rnd n dd oi
        | NSM_Exchange => dd_exchange ospf n dd x oi
        | NSM_Loading | NSM_Full => dd_loaded recent n dd x oi
        | NSM_DependUpon | NSM_Deleted | NSM_Down | NSM_Attempt | NSM_TwoWay => Ret oi
        end
  end.

(** ** A Link State Request packet *)

(** The loop over the requests: the LSAs to send ([upd], of total size
    [length]), [None] for a bad request.  What does not fit is sent at once. *)
Fixpoint ls_req_answer (ospf : ospf_instance) (n : Z) (reqs : list (Z * Z * Z)) (upd : list ospf_lsa)
    (length : Z) (oi : ospf_interface) : option (list ospf_lsa) * ospf_interface :=
  match reqs with
  | [] => (Some upd, oi)
  | (type, id, adv_router) :: reqs' =>
      if (type <? OSPF_MIN_LSA) || (OSPF_MAX_LSA <=? type) then (None, oi)
      else
        match ospf_lsa_lookup (o_lsdb ospf) type id adv_router with
        | None => (None, oi)
        | Some l =>
            let len := ls_length (lsa_data l) in
            if c_packet_max (o_conf ospf) <? length + len
            then ls_req_answer ospf n reqs' [l] (OSPF_HEADER_SIZE + OSPF_LS_UPD_MIN_SIZE + len)
                   (emit (LsUpdSend n upd) oi)
            else ls_req_answer ospf n reqs' (upd ++ [l]) (length + len) oi
        end
  end.

Definition ospf_ls_req (ospf : ospf_instance) (router_id src : Z) (reqs : list (Z * Z * Z))
    (oi : ospf_interface) : ospf_interface :=
  match ospf_nbr_lookup router_id src oi with
  | None => oi
  | Some x =>
      if nsm_ge (n_state x) NSM_Exchange then
        let n := n_id x in
        match ls_req_answer ospf n reqs [] (OSPF_HEADER_SIZE + OSPF_LS_UPD_MIN_SIZE) oi with
        | (None, oi) => emit (ScheduleNsm n NSM_BadLSReq) oi
        | (Some [], oi) => oi
        | (Some upd, oi) => emit (LsUpdSend n upd) oi
        end
      else oi
  end.
