(* ===== verification/OspfDbDescFacts.v ===== *)
(** * Facts on link state advertisements, databases and their descriptions

    [ospf_lsa_more_recent] is antisymmetric, and the header that a router
    advertises compares as the LSA itself; databases are ordered by key, with one
    entry for each.

    What a Database Description packet takes from the summary list ([dd_fill]),
    and what the headers of a packet do to the lists of the receiver
    ([dd_process]).

    What [nsm_negotiation_done] puts on the summary list of a neighbor: the LSAs
    of the tables that it looks at ([shown]), without those that are retransmitted
    or not for this neighbor ([summarised]). *)
From Stdlib Require Import Sorting.Sorted.
From stdpp Require Import sets.
From S2P Require Import Prelude OspfLsa OspfIsm OspfNsm OspfStation OspfDbDesc.

(** ** Age *)

(** Machine widths: a 16-bit age, 32-bit identifiers, a clock that does not go
    back. *)
Record lsa_wf (l : ospf_lsa) : Prop := mkLsaWf {
  wf_age : 0 <= ls_age (lsa_data l) < 65536;
  wf_since : 0 <= lsa_since l;
  wf_id : 0 <= ls_id (lsa_data l) < 4294967296;
  wf_adv : 0 <= ls_adv_router (lsa_data l) < 4294967296
}.

Lemma unset_flag_ldiff v f : UNSET_FLAG v f = Z.ldiff v f.
Proof. unfold UNSET_FLAG. by rewrite Z.ldiff_land. Qed.

Lemma unset_flag_le v f : 0 <= v -> 0 <= UNSET_FLAG v f <= v.
Proof.
  intros H. rewrite unset_flag_ldiff. split; [apply Z.ldiff_nonneg; lia|].
  apply Z.ldiff_le; [done|]. apply Z.bits_inj'. intros i Hi.
  rewrite !Z.ldiff_spec, Z.bits_0. by destruct (Z.testbit v i), (Z.testbit f i).
Qed.

Lemma LS_AGE_range l : lsa_wf l -> 0 <= LS_AGE l <= OSPF_LSA_MAXAGE.
Proof.
  intros [Ha Hs _ _]. unfold LS_AGE, get_age, LS_AGE_RAW.
  pose proof (unset_flag_le (ls_age (lsa_data l)) DO_NOT_AGE ltac:(lia)).
  destruct (IS_LSA_AGE_DNA l && negb (lsa_self l)); case_match; unfold OSPF_LSA_MAXAGE in *; lia.
Qed.

Lemma dna_bits a : 0 <= a < 32768 ->
  CHECK_FLAG a DO_NOT_AGE = false /\ UNSET_FLAG a DO_NOT_AGE = a
  /\ CHECK_FLAG (SET_FLAG a DO_NOT_AGE) DO_NOT_AGE = true /\ UNSET_FLAG (SET_FLAG a DO_NOT_AGE) DO_NOT_AGE = a.
Proof.
  intros Ha. assert (Hb : forall i, 15 <= i -> Z.testbit a i = false).
  { intros i Hi. destruct (Z.eq_dec a 0) as [->|]; [apply Z.bits_0|].
    apply Z.bits_above_log2; [lia|]. enough (Z.log2 a < 15) by lia. apply Z.log2_lt_pow2; lia. }
  assert (Hd : forall i, Z.testbit DO_NOT_AGE i = (i =? 15)).
  { intros i. unfold DO_NOT_AGE. change 0x8000 with (2 ^ 15). rewrite Z.pow2_bits_eqb by lia. apply Z.eqb_sym. }
  assert (Hl : Z.land a DO_NOT_AGE = 0).
  { apply Z.bits_inj'. intros i Hi. rewrite Z.land_spec, Hd, Z.bits_0.
    destruct (Z.eqb_spec i 15) as [->|]; [by rewrite Hb by lia|apply andb_false_r]. }
  unfold CHECK_FLAG, SET_FLAG. rewrite !unset_flag_ldiff, Hl. split_and!; [done|..].
  - apply Z.bits_inj'. intros i Hi. rewrite Z.ldiff_spec, Hd.
    destruct (Z.eqb_spec i 15) as [->|]; [by rewrite Hb by lia|apply andb_true_r].
  - rewrite Z.land_lor_distr_l, Hl, Z.land_diag. done.
  - apply Z.bits_inj'. intros i Hi. rewrite Z.ldiff_spec, Z.lor_spec, Hd.
    destruct (Z.eqb_spec i 15) as [->|]; cbn [negb]; [by rewrite Hb, andb_false_r by lia|].
    by rewrite orb_false_r, andb_true_r.
Qed.

Lemma request_age h :
  LS_AGE (ospf_ls_request_new h) = Z.min OSPF_LSA_MAXAGE (UNSET_FLAG (ls_age h) DO_NOT_AGE).
Proof.
  unfold LS_AGE, get_age, LS_AGE_RAW. cbn [lsa_data lsa_self lsa_since ospf_ls_request_new].
  rewrite Z.add_0_r. destruct (IS_LSA_AGE_DNA _ && negb false); case_match; lia.
Qed.

(** The age that the neighbor computes from an advertised header. *)
Lemma adv_header_age l : lsa_wf l -> LS_AGE (ospf_ls_request_new (adv_header l)) = LS_AGE l.
Proof.
  intros H. pose proof (LS_AGE_range l H) as Ha. rewrite request_age. unfold adv_header. cbn [ls_age].
  destruct (dna_bits (LS_AGE l)) as (_ & E2 & _ & E4); [unfold OSPF_LSA_MAXAGE in Ha; lia|].
  destruct (IS_LSA_AGE_DNA l); rewrite ?E2, ?E4; lia.
Qed.

(** ** Which instance is more recent *)

Lemma more_recent_antisym l1 l2 : ospf_lsa_more_recent l2 l1 = - ospf_lsa_more_recent l1 l2.
Proof.
  destruct l1 as [l1|], l2 as [l2|]; try done. cbn [ospf_lsa_more_recent]. cbv zeta.
  set (x := s32 _). set (y := s32 (ls_seqnum (lsa_data l2))).
  destruct (Z.ltb_spec x y), (Z.ltb_spec y x); try lia.
  destruct (Z.eqb_spec (ls_checksum (lsa_data l1) - ls_checksum (lsa_data l2)) 0),
    (Z.eqb_spec (ls_checksum (lsa_data l2) - ls_checksum (lsa_data l1)) 0); cbn [negb]; try lia.
  destruct (IS_LSA_MAXAGE l1), (IS_LSA_MAXAGE l2); cbn [negb andb]; try done;
    destruct (Z.ltb_spec OSPF_LSA_MAXAGE_DIFF (LS_AGE l1 - LS_AGE l2)),
      (Z.ltb_spec OSPF_LSA_MAXAGE_DIFF (LS_AGE l2 - LS_AGE l1)); try done; unfold OSPF_LSA_MAXAGE_DIFF in *; lia.
Qed.

Lemma more_recent_refl l : ospf_lsa_more_recent l l = 0.
Proof. pose proof (more_recent_antisym l l). lia. Qed.

(** Only the sequence number, the checksum and the age are looked at. *)
Lemma more_recent_ext o l l' :
  ls_seqnum (lsa_data l) = ls_seqnum (lsa_data l') -> ls_checksum (lsa_data l) = ls_checksum (lsa_data l') ->
  LS_AGE l = LS_AGE l' -> ospf_lsa_more_recent o (Some l) = ospf_lsa_more_recent o (Some l').
Proof.
  intros E1 E2 E3. destruct o as [o|]; [|done]. cbn [ospf_lsa_more_recent].
  unfold IS_LSA_MAXAGE. by rewrite E1, E2, E3.
Qed.

Lemma more_recent_advertised o l :
  lsa_wf l ->
  ospf_lsa_more_recent o (Some (ospf_ls_request_new (adv_header l))) = ospf_lsa_more_recent o (Some l).
Proof. intros H. apply more_recent_ext; [done|done|by apply adv_header_age]. Qed.

Lemma adv_header_key l : lsa_key (adv_header l) = key_of l.
Proof. done. Qed.

(** ** Keys *)

Lemma lsa_key_inj l1 l2 : lsa_wf l1 -> lsa_wf l2 -> key_of l1 = key_of l2 ->
  ls_request (lsa_data l1) = ls_request (lsa_data l2).
Proof.
  intros [_ _ ? ?] [_ _ ? ?]. unfold key_of, lsa_key, ls_key, ls_request. intros E.
  assert (ls_type (lsa_data l1) = ls_type (lsa_data l2)) as Et by lia.
  assert (ls_id (lsa_data l1) = ls_id (lsa_data l2)) as Ei by lia.
  rewrite Et, Ei. f_equal. lia.
Qed.

(** ** Databases *)

Definition key_lt (a b : ospf_lsa) : Prop := key_of a < key_of b.

(** Ordered by key: a table for each type. *)
Definition lsdb_ok (db : list ospf_lsa) : Prop := StronglySorted key_lt db.

Lemma lsdb_add_elem l db x :
  lsdb_ok db -> x ∈ ospf_lsdb_add l db <-> x = l \/ x ∈ db /\ key_of x <> key_of l.
Proof.
  induction db as [|y db IH]; intros H; cbn [ospf_lsdb_add].
  { rewrite list_elem_of_singleton. split; [by left|]. intros [?|[Hx _]]; [done|by apply elem_of_nil in Hx]. }
  apply StronglySorted_inv in H as [Hs Hf]. rewrite Forall_forall in Hf.
  assert (Hall : forall z, z ∈ db -> key_of y < key_of z) by (intros z Hz; apply Hf; by apply list_elem_of_In).
  destruct (Z.ltb_spec (key_of l) (key_of y)).
  - rewrite !elem_of_cons. split; [intros [?|[->|Hx]]; [by left|right; split; [by left|lia]|]|].
    + right. split; [by right|]. specialize (Hall x Hx). lia.
    + intros [?|[[?|?] _]]; auto.
  - destruct (Z.eqb_spec (key_of l) (key_of y)) as [E|].
    + rewrite !elem_of_cons. split.
      * intros [?|Hx]; [by left|]. right. split; [by right|]. specialize (Hall x Hx). lia.
      * intros [?|[[->|?] ?]]; auto. congruence.
    + rewrite !elem_of_cons, IH by done. split.
      * intros [->|[?|[? ?]]]; auto.
      * intros [?|[[?|?] ?]]; auto.
Qed.

Lemma lsdb_add_ok l db : lsdb_ok db -> lsdb_ok (ospf_lsdb_add l db).
Proof.
  induction db as [|y db IH]; intros H; cbn [ospf_lsdb_add]; [by constructor|].
  pose proof (StronglySorted_inv H) as [Hs Hf].
  destruct (Z.ltb_spec (key_of l) (key_of y)).
  { constructor; [done|]. constructor; [done|]. eapply Forall_impl; [|exact Hf]. unfold key_lt. lia. }
  destruct (Z.eqb_spec (key_of l) (key_of y)) as [E|].
  { constructor; [done|]. eapply Forall_impl; [|exact Hf]. unfold key_lt. lia. }
  constructor; [by apply IH|]. apply Forall_forall. intros x Hx. apply list_elem_of_In, lsdb_add_elem in Hx; [|done].
  destruct Hx as [->|[Hx _]]; [unfold key_lt; lia|]. rewrite Forall_forall in Hf. by apply Hf, list_elem_of_In.
Qed.

Lemma filter_sorted {A} (R : A -> A -> Prop) (p : A -> bool) l :
  StronglySorted R l -> StronglySorted R (List.filter p l).
Proof.
  induction 1 as [|x l Hs IH Hf]; [constructor|]. cbn [List.filter]. case_match; [|done].
  constructor; [done|]. apply Forall_forall. intros y Hy. apply filter_In in Hy as [Hy _].
  rewrite Forall_forall in Hf. auto.
Qed.

Lemma lsdb_delete_ok l db : lsdb_ok db -> lsdb_ok (ospf_lsdb_delete l db).
Proof. apply filter_sorted. Qed.

Lemma lsdb_delete_elem l db x : x ∈ ospf_lsdb_delete l db <-> x ∈ db /\ x <> l.
Proof.
  unfold ospf_lsdb_delete. rewrite !list_elem_of_In, filter_In, negb_true_iff, bool_decide_eq_false. done.
Qed.

Lemma lsdb_delete_length l db : (length (ospf_lsdb_delete l db) <= length db)%nat.
Proof. unfold ospf_lsdb_delete. induction db as [|x db IH]; cbn; [lia|]. case_match; cbn; lia. Qed.

Lemma lsdb_keys_inj db x y : lsdb_ok db -> x ∈ db -> y ∈ db -> key_of x = key_of y -> x = y.
Proof.
  induction 1 as [|z db Hs IH Hf]; intros Hx Hy E; [by apply elem_of_nil in Hx|].
  rewrite Forall_forall in Hf. unfold key_lt in Hf.
  apply elem_of_cons in Hx as [->|Hx], Hy as [->|Hy]; [done|..|auto].
  - apply list_elem_of_In in Hy. specialize (Hf y Hy). lia.
  - apply list_elem_of_In in Hx. specialize (Hf x Hx). lia.
Qed.

Lemma lsdb_lookup_some k db x : ospf_lsdb_lookup k db = Some x -> x ∈ db /\ key_of x = k.
Proof. intros H. apply find_some in H as [H E]. split; [by apply list_elem_of_In|lia]. Qed.

Lemma lsdb_lookup_elem db x : lsdb_ok db -> x ∈ db -> ospf_lsdb_lookup (key_of x) db = Some x.
Proof.
  intros H Hx. unfold ospf_lsdb_lookup. destruct (find _ db) as [y|] eqn:E.
  - apply lsdb_lookup_some in E as [Hy E]. f_equal. by apply (lsdb_keys_inj db).
  - apply list_elem_of_In in Hx. by apply (find_none _ _ E), Z.eqb_neq in Hx.
Qed.

(** ** Filling a packet *)

(** An LSA that is described, not dropped from the list. *)
Definition sendable (opaque : bool) (l : ospf_lsa) : bool :=
  negb (lsa_discard l) && negb (IS_OPAQUE_LSA (ls_type (lsa_data l)) && negb opaque).

Record filled (opaque : bool) (l sent rest : list ospf_lsa) : Prop := mkFilled {
  fi_sent : sent ⊆ l;
  fi_rest : rest ⊆ l;
  fi_all : forall x, x ∈ l -> sendable opaque x = true -> x ∈ sent \/ x ∈ rest;
  fi_sendable : Forall (fun x => sendable opaque x = true) sent;
  fi_length : (length sent + length rest <= length l)%nat
}.

Lemma filled_drop opaque x l sent rest :
  sendable opaque x = false -> filled opaque l sent rest -> filled opaque (x :: l) sent rest.
Proof.
  intros Hx [H1 H2 H3 H4 H5]. split; [set_solver..| |done|cbn; lia].
  intros y Hy Ey. apply elem_of_cons in Hy as [->|Hy]; [congruence|auto].
Qed.

Lemma filled_keep opaque x l sent rest :
  filled opaque l sent rest -> filled opaque (x :: l) sent (x :: rest).
Proof.
  intros [H1 H2 H3 H4 H5]. split; [set_solver..| |done|cbn; lia].
  intros y Hy Ey. apply elem_of_cons in Hy as [->|Hy]; [right; by left|].
  destruct (H3 y Hy Ey); [by left|right; by right].
Qed.

Lemma filled_send opaque x l sent rest :
  sendable opaque x = true -> filled opaque l sent rest -> filled opaque (x :: l) (x :: sent) rest.
Proof.
  intros Hx [H1 H2 H3 H4 H5]. split; [set_solver..| |by constructor|cbn; lia].
  intros y Hy Ey. apply elem_of_cons in Hy as [->|Hy]; [left; by left|].
  destruct (H3 y Hy Ey); [left; by right|by right].
Qed.

Lemma dd_fill_spec opaque packet_max l : forall length broken hs rest,
  dd_fill opaque packet_max length broken l = (hs, rest) ->
  exists sent, hs = map adv_header sent /\ filled opaque l sent rest.
Proof.
  induction l as [|x l IH]; intros len broken hs rest E; cbn [dd_fill] in E.
  { injection E as <- <-. exists []. split; [done|]. split; [done..| |constructor|done].
    intros x Hx. by apply elem_of_nil in Hx. }
  assert (Hs : sendable opaque x = negb (lsa_discard x) && negb (IS_OPAQUE_LSA (ls_type (lsa_data x)) && negb opaque))
    by done.
  destruct (bool_decide _).
  { destruct (dd_fill _ _ _ _ l) as [hs' rest'] eqn:El. injection E as <- <-.
    destruct (IH _ _ _ _ El) as (sent & -> & H). exists sent. split; [done|by apply filled_keep]. }
  destruct (IS_OPAQUE_LSA _ && negb opaque) eqn:Eo.
  { destruct (IH _ _ _ _ E) as (sent & -> & H). exists sent. split; [done|]. apply filled_drop; [|done].
    by rewrite Hs, andb_false_r. }
  destruct (lsa_discard x) eqn:Ed.
  { destruct (IH _ _ _ _ E) as (sent & -> & H). exists sent. split; [done|]. by apply filled_drop. }
  destruct (packet_max <? _); destruct (dd_fill _ _ _ _ l) as [hs' rest'] eqn:El; injection E as <- <-;
    destruct (IH _ _ _ _ El) as (sent & -> & H).
  - exists sent. split; [done|by apply filled_keep].
  - exists (x :: sent). split; [done|by apply filled_send].
Qed.

(** A packet with room for a header takes at least one LSA off the list. *)
Lemma dd_fill_progress opaque packet_max len l hs rest :
  dd_fill opaque packet_max len None l = (hs, rest) -> len + OSPF_LSA_HEADER_SIZE <= packet_max -> l <> [] ->
  (length rest < length l)%nat.
Proof.
  destruct l as [|x l]; [done|]. intros E Hm _. cbn [dd_fill] in E.
  rewrite bool_decide_eq_false_2 in E by done.
  assert (Hl : forall n b hs' rest', dd_fill opaque packet_max n b l = (hs', rest') -> (length rest' <= length l)%nat).
  { intros n b hs' rest' El. destruct (dd_fill_spec _ _ _ _ _ _ _ El) as (sent & _ & [_ _ _ _ H]). lia. }
  case_match; [apply Hl in E; cbn; lia|]. case_match; [apply Hl in E; cbn; lia|].
  destruct (Z.ltb_spec packet_max (len + OSPF_LSA_HEADER_SIZE)); [lia|].
  destruct (dd_fill _ _ _ _ l) as [hs' rest'] eqn:El. injection E as <- <-. apply Hl in El. cbn. lia.
Qed.

(** ** The headers of a packet *)

(** The instance [y] of the neighbor is one that [db] lacks. *)
Definition wanted (db : ospf_lsdb) (y : ospf_lsa) : Prop :=
  ospf_lsa_more_recent (ospf_lsa_lookup_by_header db (lsa_data y)) (Some y) = -1.

(** The entry of a request list for it. *)
Definition request (y : ospf_lsa) : ospf_lsa := ospf_ls_request_new (adv_header y).

Lemma request_key y : key_of (request y) = key_of y.
Proof. done. Qed.

(** The lists after the headers of [sent], all of them described by a neighbor
    whose LSAs are [U]. *)
Record processed (db : ospf_lsdb) (U sent : list ospf_lsa) (sum0 req0
    sum req : list ospf_lsa) : Prop := mkProcessed {
  pr_ok : lsdb_ok req;
  pr_req : forall l, l ∈ req -> l ∈ req0 \/ exists y, y ∈ sent /\ wanted db y /\ l = request y;
  pr_kept : req0 ⊆ req;
  pr_wanted : forall y, y ∈ sent -> wanted db y -> request y ∈ req;
  pr_sum : sum ⊆ sum0;
  pr_dropped : forall z, z ∈ sum0 -> z ∉ sum -> exists y, y ∈ sent
    /\ ospf_lsa_lookup_by_header db (lsa_data y) = Some z
    /\ (ospf_lsa_more_recent (Some z) (Some y) = -1 \/ ospf_lsa_more_recent (Some z) (Some y) = 0);
  pr_length : (length sum <= length (sum0))%nat
}.

(** What one header does. *)
Lemma dd_header_step db U y x :
  lsdb_ok U -> y ∈ U -> lsa_wf y -> lsdb_ok (n_ls_req x) ->
  (forall l, l ∈ n_ls_req x -> exists u, u ∈ U /\ l = request u) ->
  exists sum req, dd_header db (adv_header y) x = set_n_db_sum sum (set_n_ls_req req x)
    /\ processed db U [y] (n_db_sum x) (n_ls_req x) sum req.
Proof.
  intros HU Hy Wy Hr Hreq. unfold dd_header. cbv zeta. rewrite more_recent_advertised by done.
  change (ospf_lsa_lookup_by_header db (adv_header y)) with (ospf_lsa_lookup_by_header db (lsa_data y)).
  change (ospf_ls_request_new (adv_header y)) with (request y).
  set (find := ospf_lsa_lookup_by_header db (lsa_data y)).
  set (sum := match find with Some l => ospf_lsdb_delete l (n_db_sum x) | None => n_db_sum x end).
  assert (Hsum : sum ⊆ n_db_sum x).
  { unfold sum. destruct find; [|done]. intros z Hz. by apply lsdb_delete_elem in Hz as [? _]. }
  assert (Hdrop : forall z, z ∈ n_db_sum x -> z ∉ sum -> find = Some z).
  { intros z Hz Hn. unfold sum in Hn. destruct find as [l|]; [|done]. f_equal.
    destruct (decide (z = l)) as [->|]; [done|]. destruct Hn. by apply lsdb_delete_elem. }
  assert (Hlen : (length sum <= length (n_db_sum x))%nat).
  { unfold sum. destruct find; [apply lsdb_delete_length|done]. }
  destruct (Z.eqb_spec (ospf_lsa_more_recent find (Some y)) (-1)) as [E|E].
  - exists sum, (ospf_lsdb_add (request y) (n_ls_req x)). split; [unfold sum; by destruct find, x|].
    assert (Hel : forall l, l ∈ ospf_lsdb_add (request y) (n_ls_req x)
                   <-> l = request y \/ l ∈ n_ls_req x /\ key_of l <> key_of (request y))
      by (intros l; by apply lsdb_add_elem).
    split; [by apply lsdb_add_ok|..|done| |done].
    + intros l Hl. apply Hel in Hl as [->|[? _]]; [|by left]. right. exists y. split; [by left|done].
    + intros l Hl. apply Hel. destruct (decide (key_of l = key_of (request y))) as [Ek|]; [|by right].
      left. destruct (Hreq l Hl) as (u & Hu & ->). f_equal. by apply (lsdb_keys_inj U).
    + intros z Hz _. apply list_elem_of_singleton in Hz as ->. apply Hel. by left.
    + intros z Hz Hn. specialize (Hdrop z Hz Hn). exists y. split; [by left|]. split; [done|]. left. by rewrite <- Hdrop.
  - assert (Hw : ~ wanted db y) by done.
    destruct (Z.eqb_spec (ospf_lsa_more_recent find (Some y)) 0) as [E0|E0].
    + exists sum, (n_ls_req x). split; [unfold sum; by destruct find, x|]. split; [done|by left|done|..|done].
      * intros z Hz. by apply list_elem_of_singleton in Hz as ->.
      * done.
      * intros z Hz Hn. specialize (Hdrop z Hz Hn). exists y. split; [by left|]. split; [done|]. right. by rewrite <- Hdrop.
    + exists (n_db_sum x), (n_ls_req x). split; [by destruct x|]. split; [done|by left|done|..|done].
      * intros z Hz. by apply list_elem_of_singleton in Hz as ->.
      * done.
      * done.
Qed.

(** All headers of a packet. *)
Lemma dd_process_spec db ext U sent : forall x,
  lsdb_ok U -> sent ⊆ U -> Forall lsa_wf sent ->
  Forall (fun y => dd_refused ext x (adv_header y) = false) sent -> lsdb_ok (n_ls_req x) ->
  (forall l, l ∈ n_ls_req x -> exists u, u ∈ U /\ l = request u) ->
  exists sum req, dd_process db ext (map adv_header sent) x = (true, set_n_db_sum sum (set_n_ls_req req x))
    /\ processed db U sent (n_db_sum x) (n_ls_req x) sum req.
Proof.
  induction sent as [|y sent IH]; intros x HU Hs Hwf Hrf Hr Hreq; cbn [map dd_process].
  { exists (n_db_sum x), (n_ls_req x). split; [by destruct x|].
    split; [done|by left|done|..|done]; try done. intros y Hy. by apply elem_of_nil in Hy. }
  inversion Hwf as [|? ? Wy Hwf']; inversion Hrf as [|? ? Ry Hrf']; subst. rewrite Ry.
  assert (Hy : y ∈ U) by set_solver.
  destruct (dd_header_step db U y x HU Hy Wy Hr Hreq) as (sum & req & -> & P1).
  set (x1 := set_n_db_sum sum (set_n_ls_req req x)).
  destruct P1 as [A1 A2 A3 A4 A5 A6 A7].
  destruct (IH x1) as (sum2 & req2 & E2 & P2); try done; [set_solver| |].
  { intros l Hl. destruct (A2 l Hl) as [H|(z & Hz & _ & ->)]; [auto|]. apply list_elem_of_singleton in Hz as ->. eauto. }
  destruct P2 as [B1 B2 B3 B4 B5 B6 B7]. exists sum2, req2.
  split; [rewrite E2; unfold x1; by destruct x|]. cbn in B2, B3, B5, B6, B7. split; [done|..].
  - intros l Hl. destruct (B2 l Hl) as [H|(z & Hz & Hw & ->)].
    + destruct (A2 l H) as [?|(z & Hz & Hw & ->)]; [by left|]. right. exists z.
      apply list_elem_of_singleton in Hz as ->. split; [by left|done].
    + right. exists z. split; [by right|done].
  - set_solver.
  - intros z Hz Hw. apply elem_of_cons in Hz as [->|Hz]; [|auto]. apply B3, A4; [by left|done].
  - set_solver.
  - intros z Hz Hn. destruct (decide (z ∈ sum)) as [Hi|Hi].
    + destruct (B6 z Hi Hn) as (u & Hu & ?). exists u. split; [by right|done].
    + destruct (A6 z Hz Hi) as (u & Hu & ?). apply list_elem_of_singleton in Hu as ->. exists y. split; [by left|done].
  - lia.
Qed.

(** ** The tables *)

Definition shown (db : ospf_lsdb) (normal : bool) (options : Z) : list ospf_lsa :=
  ROUTER_LSDB db ++ NETWORK_LSDB db ++ SUMMARY_LSDB db
  ++ (if CHECK_FLAG options OSPF_OPTION_O then OPAQUE_LINK_LSDB db ++ OPAQUE_AREA_LSDB db else [])
  ++ (if CHECK_FLAG options OSPF_OPTION_NP then NSSA_LSDB db else [])
  ++ (if normal then ASBR_SUMMARY_LSDB db ++ EXTERNAL_LSDB db else [])
  ++ (if CHECK_FLAG options OSPF_OPTION_O && normal then OPAQUE_AS_LSDB db else []).

Definition summarised (l : ospf_lsa) : bool :=
  negb ((ls_type (lsa_data l) =? OSPF_OPAQUE_LINK_LSA) && negb (lsa_this_oi l))
  && negb (lsa_local_xlt l) && negb (IS_LSA_MAXAGE l).

(** The LSAs that are described to a neighbor with these options. *)
Definition described (db : ospf_lsdb) (normal : bool) (options : Z) (l : ospf_lsa) : Prop :=
  l ∈ shown db normal options /\ summarised l = true.

(** Databases as the code keeps them. *)
Record db_ok (db : ospf_lsdb) : Prop := mkDbOk {
  db_area : lsdb_ok (area_lsdb db);
  db_as : lsdb_ok (as_lsdb db);
  db_area_wf : Forall lsa_wf (area_lsdb db);
  db_as_wf : Forall lsa_wf (as_lsdb db)
}.

Lemma table_elem type db l : l ∈ table_of type db <-> l ∈ db /\ ls_type (lsa_data l) = type.
Proof. unfold table_of. rewrite !list_elem_of_In, filter_In, Z.eqb_eq. done. Qed.

(** The database that an LSA of a table is looked up in. *)
Definition home (db : ospf_lsdb) (l : ospf_lsa) : list ospf_lsa :=
  if (ls_type (lsa_data l) =? OSPF_AS_EXTERNAL_LSA) || (ls_type (lsa_data l) =? OSPF_OPAQUE_AS_LSA)
  then as_lsdb db else area_lsdb db.

Lemma elem_if {A} (c : bool) (l : list A) x : x ∈ (if c then l else []) -> c = true /\ x ∈ l.
Proof. destruct c; [done|]. intros H. by apply elem_of_nil in H. Qed.

(** Which types are shown, and from where. *)
Lemma shown_elem db normal options l :
  l ∈ shown db normal options ->
  l ∈ home db l /\ OSPF_MIN_LSA <= ls_type (lsa_data l) < OSPF_MAX_LSA
  /\ (IS_OPAQUE_LSA (ls_type (lsa_data l)) = true -> CHECK_FLAG options OSPF_OPTION_O = true)
  /\ ((ls_type (lsa_data l) =? OSPF_AS_EXTERNAL_LSA) || (ls_type (lsa_data l) =? OSPF_OPAQUE_AS_LSA) = true ->
      normal = true)
  /\ ospf_lsa_lookup_by_header db (lsa_data l) = ospf_lsdb_lookup (key_of l) (home db l).
Proof.
  unfold shown. rewrite !elem_of_app. unfold ospf_lsa_lookup_by_header, home.
  intros [H|[H|[H|[H|[H|[H|H]]]]]]; try (apply elem_if in H as [Hc H]); try (apply elem_of_app in H as [H|H]);
    apply table_elem in H as [H E]; unfold key_of, lsa_key; rewrite !E; repeat split; try done; try (intros; congruence);
    by apply andb_true_iff in Hc as [? ?].
Qed.

Lemma shown_lookup db normal options l :
  db_ok db -> l ∈ shown db normal options -> ospf_lsa_lookup_by_header db (lsa_data l) = Some l.
Proof.
  intros [H1 H2 _ _] H. apply shown_elem in H as (Hh & _ & _ & _ & ->). apply lsdb_lookup_elem; [|done].
  unfold home. by case_bool.
Qed.

Lemma shown_wf db normal options l : db_ok db -> l ∈ shown db normal options -> lsa_wf l.
Proof.
  intros [_ _ H1 H2] H. apply shown_elem in H as [H _]. rewrite Forall_forall in H1, H2. unfold home in H.
  case_bool; [apply H2|apply H1]; by apply list_elem_of_In.
Qed.

(** An LSA of a database is found by the header of any LSA with its key. *)
Lemma lookup_by_key db l1 l2 :
  lsa_wf l1 -> lsa_wf l2 -> key_of l1 = key_of l2 ->
  ospf_lsa_lookup_by_header db (lsa_data l1) = ospf_lsa_lookup_by_header db (lsa_data l2).
Proof.
  intros W1 W2 E. pose proof (lsa_key_inj l1 l2 W1 W2 E) as Ek. unfold ls_request in Ek.
  unfold ospf_lsa_lookup_by_header. by injection Ek as -> -> ->.
Qed.

Lemma shown_keys db normal options l1 l2 :
  db_ok db -> l1 ∈ shown db normal options -> l2 ∈ shown db normal options -> key_of l1 = key_of l2 -> l1 = l2.
Proof.
  intros H H1 H2 E. apply (inj Some). rewrite <- (shown_lookup db normal options l1), <- (shown_lookup db normal options l2) by done.
  apply lookup_by_key; [by eapply shown_wf..|done].
Qed.

(** ** The loops *)

Lemma summary_add_fields x l : exists sum rx t,
  ospf_db_summary_add x l = set_n_t_ls_rxmt t (set_n_ls_rxmt rx (set_n_db_sum sum x))
  /\ sum = if summarised l then ospf_lsdb_add l (n_db_sum x) else n_db_sum x.
Proof.
  assert (E0 : x = set_n_t_ls_rxmt (n_t_ls_rxmt x) (set_n_ls_rxmt (n_ls_rxmt x) (set_n_db_sum (n_db_sum x) x)))
    by by destruct x.
  unfold ospf_db_summary_add, summarised.
  destruct (_ && negb (lsa_this_oi l)); [by eauto|]. destruct (lsa_local_xlt l); [by eauto|].
  destruct (IS_LSA_MAXAGE l); cbn [negb andb].
  - unfold ospf_ls_retransmit_add. cbv zeta. destruct (_ <? 0); [|by eauto].
    eexists _, _, _. split; [|reflexivity]. by destruct x.
  - eexists _, _, _. split; [|reflexivity]. by destruct x.
Qed.

Lemma LSDB_LOOP_fields l : forall x,
  lsdb_ok (n_db_sum x) -> (forall y z, y ∈ n_db_sum x ++ l -> z ∈ n_db_sum x ++ l -> key_of y = key_of z -> y = z) ->
  exists sum rx t, LSDB_LOOP l x = set_n_t_ls_rxmt t (set_n_ls_rxmt rx (set_n_db_sum sum x))
    /\ lsdb_ok sum /\ forall y, y ∈ sum <-> y ∈ n_db_sum x \/ y ∈ l /\ summarised y = true.
Proof.
  induction l as [|z l IH]; intros x Hok Hinj; cbn [LSDB_LOOP fold_left].
  { exists (n_db_sum x), (n_ls_rxmt x), (n_t_ls_rxmt x). split; [by destruct x|]. split; [done|].
    intros y. split; [by left|]. intros [?|[Hy _]]; [done|by apply elem_of_nil in Hy]. }
  destruct (summary_add_fields x z) as (sum & rx & t & -> & Es).
  assert (Hsum : lsdb_ok sum /\ forall y, y ∈ sum <-> y ∈ n_db_sum x \/ y = z /\ summarised z = true).
  { subst sum. destruct (summarised z); [|split; [done|naive_solver]]. split; [by apply lsdb_add_ok|].
    intros y. rewrite lsdb_add_elem by done. split; [naive_solver|]. intros [Hy|[-> _]]; [|by left].
    destruct (decide (key_of y = key_of z)) as [Ek|]; [|by right]. left. apply Hinj; [rewrite !elem_of_app, elem_of_cons; auto..|done]. }
  destruct Hsum as [Hok' Hel]. clear Es.
  assert (Hsub : forall u, u ∈ sum ++ l -> u ∈ n_db_sum x ++ z :: l).
  { intros u. rewrite !elem_of_app, elem_of_cons, Hel. clear. tauto. }
  destruct (IH (set_n_t_ls_rxmt t (set_n_ls_rxmt rx (set_n_db_sum sum x)))) as (sum2 & rx2 & t2 & E2 & Hok2 & Hel2).
  - done.
  - cbn. intros u v Hu Hv. apply Hinj; by apply Hsub.
  - exists sum2, rx2, t2. split; [|split; [done|]].
    + unfold LSDB_LOOP in E2. rewrite E2. by destruct x.
    + intros y. rewrite Hel2. cbn. rewrite Hel, elem_of_cons. naive_solver.
Qed.

Lemma LSDB_LOOP_app l1 l2 x : LSDB_LOOP (l1 ++ l2) x = LSDB_LOOP l2 (LSDB_LOOP l1 x).
Proof. apply fold_left_app. Qed.

Lemma LSDB_LOOP_same l : forall x, exists sum rx t,
  LSDB_LOOP l x = set_n_t_ls_rxmt t (set_n_ls_rxmt rx (set_n_db_sum sum x)).
Proof.
  induction l as [|z l IH]; intros x; cbn.
  - exists (n_db_sum x), (n_ls_rxmt x), (n_t_ls_rxmt x). by destruct x.
  - destruct (summary_add_fields x z) as (sum & rx & t & -> & _). unfold LSDB_LOOP in IH.
    destruct (IH (set_n_t_ls_rxmt t (set_n_ls_rxmt rx (set_n_db_sum sum x)))) as (s2 & r2 & t2 & ->).
    exists s2, r2, t2. by destruct x.
Qed.

Lemma LSDB_LOOP_options l x : n_options (LSDB_LOOP l x) = n_options x.
Proof. by destruct (LSDB_LOOP_same l x) as (sum & rx & t & ->). Qed.

Lemma summarise_loop db normal x : summarise db normal x = LSDB_LOOP (shown db normal (n_options x)) x.
Proof.
  unfold summarise, shown. cbv zeta. rewrite !LSDB_LOOP_options.
  destruct (CHECK_FLAG (n_options x) OSPF_OPTION_O) eqn:EO; rewrite ?LSDB_LOOP_options;
    destruct (CHECK_FLAG (n_options x) OSPF_OPTION_NP); rewrite ?LSDB_LOOP_options;
    destruct normal; rewrite ?LSDB_LOOP_options, ?EO; cbn [andb]; by rewrite ?LSDB_LOOP_app.
Qed.

(** The list of a neighbor that had none. *)
Lemma summarise_described db normal x :
  db_ok db -> n_db_sum x = [] ->
  exists sum rx t, summarise db normal x = set_n_t_ls_rxmt t (set_n_ls_rxmt rx (set_n_db_sum sum x))
    /\ lsdb_ok sum /\ forall y, y ∈ sum <-> described db normal (n_options x) y.
Proof.
  intros Hdb Hx. rewrite summarise_loop.
  destruct (LSDB_LOOP_fields (shown db normal (n_options x)) x) as (sum & rx & t & E & Hok & Hel).
  - rewrite Hx. constructor.
  - rewrite Hx. intros y z Hy Hz. by apply (shown_keys db normal (n_options x)).
  - exists sum, rx, t. split; [done|]. split; [done|]. intros y. rewrite Hel, Hx. unfold described.
    split; [intros [H|H]; [by apply elem_of_nil in H|done]|by right].
Qed.
