(* ===== verification/OspfPeer.v ===== *)
(** * One side of a database exchange

    [held] describes an interface by what the exchange with one neighbor looks at:
    the configuration of the interface, the entry of the neighbor, the Database
    Description packets that were sent to it and the events on the queue.  The
    operations of the exchange are described by what they make of it. *)

From S2P Require Import Prelude OspfLsa OspfIsm OspfElection OspfNsm OspfStation OspfLan OspfDbDesc OspfDbDescFacts.

(** ** What the exchange looks at *)

Definition dd_packets (n : Z) (out : list effect) : list ospf_db_desc_packet :=
  omap (fun e => match e with
                 | DbDescSend m dd => if m =? n then Some dd else None
                 | _ => None
                 end) out.

Definition is_event (e : effect) : bool :=
  match e with ScheduleNsm _ _ | ScheduleIsm _ => true | _ => false end.

Definition view (oi : ospf_interface) :=
  (oi_type oi, oi_external_routing oi, oi_router_id oi, oi_address oi, oi_nbr_self oi, OPTIONS oi).

(** Where neighbors are found by their router identifier, it is the key. *)
Definition keyed (oi : ospf_interface) : Prop :=
  by_router_id oi = true -> Forall (fun y => n_id y = n_router_id y) (oi_nbrs oi).

(** [oi] has the configuration of [o] and the neighbor [x] with key [n]; [ps] was
    sent to it, and [ev] are the events on the queue. *)
Record held (o : ospf_interface) (n : Z) (x : ospf_neighbor) (ps : list ospf_db_desc_packet)
    (ev : list effect) (oi : ospf_interface) : Prop := mkHeld {
  hd_view : view oi = view o;
  hd_find : nbr_find n oi = Some x;
  hd_self : n <> oi_nbr_self oi;
  hd_keyed : keyed oi;
  hd_packets : dd_packets n (oi_out oi) = ps;
  hd_events : List.filter is_event (oi_out oi) = ev
}.

Lemma view_conf oi oi' :
  conf oi' = conf oi -> OPTIONS oi' = OPTIONS oi -> view oi' = view oi.
Proof. unfold conf, view. intros E ->. by injection E as -> -> -> -> _ ->. Qed.

Lemma nbr_find_changed m n f oi :
  (forall x, n_id x = n -> n_id (f x) = n) ->
  nbr_find m (nbr_update n f oi) = if m =? n then f <$> nbr_find m oi else nbr_find m oi.
Proof.
  intros Hf. unfold nbr_find, nbr_update. cbn [oi_nbrs set_oi_nbrs].
  induction (oi_nbrs oi) as [|y l IH]; [by destruct (m =? n)|]. cbn [map List.find].
  destruct (Z.eqb_spec (n_id y) n) as [E|E].
  - rewrite (Hf y E), E, (Z.eqb_sym n m). destruct (Z.eqb_spec m n); [done|]. apply IH.
  - destruct (Z.eqb_spec (n_id y) m), (Z.eqb_spec m n); try congruence; exact IH.
Qed.

(** A change of the entry that leaves its identity alone. *)
Definition stays (f : ospf_neighbor -> ospf_neighbor) : Prop :=
  forall y, n_id (f y) = n_id y /\ n_router_id (f y) = n_router_id y.

Lemma held_update o n x ps ev f oi :
  stays f -> held o n x ps ev oi -> held o n (f x) ps ev (nbr_update n f oi).
Proof.
  intros Hf [H1 H2 H3 H4 H5 H6].
  assert (Hid : forall y, n_id (f y) = n_id y) by (intros y; apply Hf).
  assert (Ho : OPTIONS (nbr_update n f oi) = OPTIONS oi).
  { unfold OPTIONS, self_field. change (oi_nbr_self (nbr_update n f oi)) with (oi_nbr_self oi).
    rewrite nbr_find_changed by (intros y <-; apply Hid). by destruct (Z.eqb_spec (oi_nbr_self oi) n). }
  split; try done.
  - rewrite <- H1. by apply view_conf.
  - by rewrite nbr_find_update, H2.
  - intros Hb. change (by_router_id (nbr_update n f oi)) with (by_router_id oi) in Hb. specialize (H4 Hb).
    unfold nbr_update. cbn [oi_nbrs set_oi_nbrs]. apply Forall_forall. intros y Hy.
    apply in_map_iff in Hy as (z & <- & Hz). rewrite Forall_forall in H4. specialize (H4 z Hz).
    destruct (Hf z) as [E1 E2]. case_match; congruence.
Qed.

(** The entry is replaced. *)
Lemma held_replace o n x y ps ev oi :
  n_id y = n_id x -> n_router_id y = n_router_id x ->
  held o n x ps ev oi -> held o n y ps ev (nbr_update n (fun _ => y) oi).
Proof.
  intros E1 E2 [H1 H2 H3 H4 H5 H6].
  assert (Hx : n_id x = n) by (apply find_some in H2 as [_ E]; lia).
  assert (Hl : forall m, nbr_find m (nbr_update n (fun _ => y) oi)
                         = if m =? n then (fun _ => y) <$> nbr_find m oi else nbr_find m oi)
    by (intros m; apply nbr_find_changed; congruence).
  assert (Ho : OPTIONS (nbr_update n (fun _ => y) oi) = OPTIONS oi).
  { unfold OPTIONS, self_field. change (oi_nbr_self (nbr_update n (fun _ => y) oi)) with (oi_nbr_self oi).
    rewrite Hl. destruct (Z.eqb_spec (oi_nbr_self oi) n); [congruence|done]. }
  split; try done.
  - rewrite <- H1. by apply view_conf.
  - by rewrite Hl, Z.eqb_refl, H2.
  - intros Hb. change (by_router_id (nbr_update n (fun _ => y) oi)) with (by_router_id oi) in Hb. specialize (H4 Hb).
    unfold nbr_update. cbn [oi_nbrs set_oi_nbrs]. apply Forall_forall. intros z Hz.
    apply in_map_iff in Hz as (w & <- & Hw). rewrite Forall_forall in H4. case_match; [|auto].
    apply find_some in H2 as [Hi _]. specialize (H4 x Hi). congruence.
Qed.

(** An effect that neither sends a Database Description packet nor schedules an
    event. *)
Definition noise (e : effect) : Prop :=
  match e with ScheduleIsm _ | ScheduleNsm _ _ | DbDescSend _ _ => False | _ => True end.

Lemma noise_packets n es : Forall noise es -> dd_packets n es = [] /\ List.filter is_event es = [].
Proof. induction 1 as [|e es He _ [IH1 IH2]]; [done|]. by destruct e. Qed.

Lemma dd_packets_app n l1 l2 : dd_packets n (l1 ++ l2) = dd_packets n l1 ++ dd_packets n l2.
Proof. apply omap_app. Qed.

Lemma OPTIONS_nbrs oi oi' :
  conf oi' = conf oi -> oi_nbrs oi' = oi_nbrs oi -> OPTIONS oi' = OPTIONS oi.
Proof. unfold conf, OPTIONS, self_field, nbr_find. intros E ->. by injection E as _ -> _. Qed.

(** Effects are added; the rest of the interface that changes is not looked at. *)
Lemma held_extend o n x ps ev es oi oi' :
  conf oi' = conf oi -> oi_nbrs oi' = oi_nbrs oi -> oi_out oi' = oi_out oi ++ es ->
  held o n x ps ev oi -> held o n x (ps ++ dd_packets n es) (ev ++ List.filter is_event es) oi'.
Proof.
  intros Ec En Eo [H1 H2 H3 H4 H5 H6]. split.
  - rewrite <- H1. apply view_conf; [done|by apply OPTIONS_nbrs].
  - unfold nbr_find. by rewrite En.
  - unfold conf in Ec. by injection Ec as _ -> _.
  - intros Hb. rewrite En. apply H4. unfold by_router_id in *. unfold conf in Ec. by injection Ec as <- _.
  - by rewrite Eo, dd_packets_app, H5.
  - by rewrite Eo, filter_app, H6.
Qed.

Lemma held_moved o n x ps ev oi oi' :
  moved noise oi oi' -> held o n x ps ev oi -> held o n x ps ev oi'.
Proof.
  intros [Ec En (es & Eo & F)] H. destruct (noise_packets n es F) as [E1 E2].
  pose proof (held_extend _ _ _ _ _ _ _ _ Ec En Eo H) as H'. by rewrite E1, E2, !app_nil_r in H'.
Qed.

Lemma held_emit o n x ps ev e oi :
  held o n x ps ev oi ->
  held o n x (ps ++ dd_packets n [e]) (ev ++ List.filter is_event [e]) (emit e oi).
Proof. by apply held_extend. Qed.

Lemma held_event o n x ps ev m e oi :
  held o n x ps ev oi -> held o n x ps (ev ++ [ScheduleNsm m e]) (emit (ScheduleNsm m e) oi).
Proof. intros H. apply (held_emit _ _ _ _ _ (ScheduleNsm m e)) in H. by rewrite app_nil_r in H. Qed.

Lemma held_noise o n x ps ev e oi : noise e -> held o n x ps ev oi -> held o n x ps ev (emit e oi).
Proof. intros He. apply held_moved. by apply moved_emit, moved_refl. Qed.

(** The queue is taken away. *)
Lemma held_clear o n x ps ev oi : held o n x ps ev oi -> held o n x [] [] (set_oi_out [] oi).
Proof. intros [H1 H2 H3 H4 H5 H6]. by split. Qed.

Lemma run_events_filter ospf rnd q : forall oi,
  run_events ospf rnd q oi = run_events ospf rnd (List.filter is_event q) oi.
Proof.
  induction q as [|e q IH]; intros oi; [done|]. destruct e; cbn [run_events List.filter is_event]; try apply IH.
  - destruct (ospf_nsm_event _ _ _ _ _); [apply IH|done].
  - destruct (ospf_ism_event _ _ _ _); [apply IH|done].
Qed.

(** The entry is the one that the sender of a packet is looked up to. *)
Lemma held_lookup o n x ps ev router_id src oi :
  held o n x ps ev oi -> n = (if by_router_id oi then router_id else src) ->
  ospf_nbr_lookup router_id src oi = Some x.
Proof.
  intros [_ H2 _ H4 _ _] ->. unfold ospf_nbr_lookup, keyed in *. destruct (by_router_id oi); [|done].
  rewrite <- H2. specialize (H4 eq_refl). unfold nbr_find. clear H2.
  induction H4 as [|y l E _ IH]; [done|]. cbn. by rewrite E, IH.
Qed.

(** ** Events *)

(** Comparisons of known states. *)
Ltac nsm_eval :=
  repeat match goal with
  | |- context [nsm_is ?a ?b] =>
      is_constructor a; is_constructor b;
      let v := eval vm_compute in (nsm_is a b) in change (nsm_is a b) with v
  | |- context [nsm_ge ?a ?b] =>
      is_constructor a; is_constructor b;
      let v := eval vm_compute in (nsm_ge a b) in change (nsm_ge a b) with v
  end; cbn [negb andb orb mbind outcome_bind].

Lemma vl_count_noise up o a : moved noise o a -> moved noise o (vl_count up a).
Proof. intros H. unfold vl_count. destruct (oi_vl_full a); auto 10 with moved. Qed.

Lemma network_lsa_noise o a : moved noise o a -> moved noise o (ospf_network_lsa_update a).
Proof. intros H. unfold ospf_network_lsa_update. auto 10 with moved. Qed.

Lemma flush_noise o a : moved noise o a -> moved noise o (flush_network_lsa a).
Proof. intros H. unfold flush_network_lsa. auto 10 with moved. Qed.

Lemma full_change_noise up helper o a : moved noise o a -> moved noise o (nsm_full_change up helper a).
Proof.
  intros H. unfold nsm_full_change. cbv zeta.
  set (a1 := vl_count _ _). assert (H1 : moved noise o a1) by (apply vl_count_noise; auto 10 with moved).
  clearbody a1. set (a2 := if helper then _ else _). assert (H2 : moved noise o a2) by (unfold a2; auto with moved).
  clearbody a2. destruct (oi_vl_full a2); auto 12 using flush_noise, network_lsa_noise with moved.
Qed.

Definition stated (s : nsm_state) (x : ospf_neighbor) : ospf_neighbor :=
  set_n_state_change (u32 (n_state_change x + 1)) (set_n_state s x).

(** The neighbor moves on in the exchange. *)
Definition forward (old new : nsm_state) : bool :=
  negb (crosses_twoway old new) && negb (nsm_is new NSM_ExStart) && negb (nsm_is new NSM_Down)
  && (nsm_num NSM_ExStart <? nsm_num new).

Lemma change_state_held ospf rnd o n x y s ps ev oi :
  forward (n_state x) s = true -> held o n y ps ev oi ->
  exists oi', nsm_change_state ospf rnd n x s oi = Ret oi' /\ held o n (stated s y) ps ev oi'.
Proof.
  unfold forward. intros Hf H. apply andb_true_iff in Hf as [Hf H4]. apply andb_true_iff in Hf as [Hf H3].
  apply andb_true_iff in Hf as [H1 H2]. apply negb_true_iff in H1, H2, H3. apply Z.ltb_lt in H4.
  unfold nsm_change_state. cbv zeta. rewrite H1, H2, H3. cbn [mbind outcome_bind].
  change (fun z => set_n_state_change (u32 (n_state_change z + 1)) (set_n_state s z)) with (stated s).
  set (a1 := nbr_update n (stated s) oi).
  assert (H5 : held o n (stated s y) ps ev a1) by (apply held_update; [|done]; intros z; done).
  clearbody a1.
  assert (E2 : match oi_state a1 with ISM_DROther | ISM_Backup | ISM_DR => a1 | _ => a1 end = a1)
    by by destruct (oi_state a1).
  rewrite E2. clear E2. destruct (Z.leb_spec (nsm_num s) (nsm_num NSM_ExStart)); [lia|]. rewrite andb_false_r.
  eexists. split; [reflexivity|]. apply held_noise; [done|]. case_bool; [|done].
  eapply held_moved; [|exact H5]. apply full_change_noise, moved_refl.
Qed.

Lemma timer_set_stays : stays nsm_timer_set.
Proof. intros y. unfold nsm_timer_set. destruct (n_state y); [..|case_bool| |]; done. Qed.

(** ** The fields of the entry that the exchange uses *)

Definition dd_part (x : ospf_neighbor) :=
  (n_options x, n_dd_seqnum x, n_dd_flags x, n_db_sum x, n_ls_req x, n_last_recv x).

Lemma timer_set_part x : dd_part (nsm_timer_set x) = dd_part x /\ n_state (nsm_timer_set x) = n_state x.
Proof. unfold nsm_timer_set. destruct (n_state x) eqn:E; [..|case_bool| |]; done. Qed.

(** External LSAs are described. *)
Definition normal_area (o : ospf_interface) : bool :=
  negb (oi_type o =? OSPF_IFTYPE_VIRTUALLINK) && (oi_external_routing o =? OSPF_AREA_DEFAULT).

Lemma view_fields oi o :
  view oi = view o ->
  oi_type oi = oi_type o /\ oi_external_routing oi = oi_external_routing o /\ oi_router_id oi = oi_router_id o
  /\ OPTIONS oi = OPTIONS o.
Proof. unfold view. intros E. by injection E as -> -> -> _ _ ->. Qed.

Lemma summarise_stays db normal : stays (summarise db normal).
Proof.
  intros y. rewrite summarise_loop. by destruct (LSDB_LOOP_same (shown db normal (n_options y)) y) as (? & ? & ? & ->).
Qed.

Lemma negotiation_done_held ospf rnd o n x ps ev oi :
  n_state x = NSM_ExStart -> held o n x ps ev oi ->
  exists oi', ospf_nsm_event ospf rnd n NSM_NegotiationDone oi = Ret oi'
    /\ held o n (nsm_timer_set (stated NSM_Exchange (summarise (o_lsdb ospf) (normal_area o) x))) ps ev oi'.
Proof.
  intros Hs H. unfold ospf_nsm_event. rewrite (hd_find _ _ _ _ _ _ H), Hs.
  cbn [NSM nsm_call mbind outcome_bind]. unfold nsm_negotiation_done.
  destruct (view_fields _ _ (hd_view _ _ _ _ _ _ H)) as (Et & Ee & _ & _). rewrite Et, Ee.
  fold (normal_area o). nsm_eval.
  set (a := nbr_update n _ _).
  assert (Ha : held o n (summarise (o_lsdb ospf) (normal_area o) x) ps ev a).
  { apply held_update; [apply summarise_stays|]. by apply held_noise. }
  destruct (change_state_held ospf rnd o n x _ NSM_Exchange ps ev a ltac:(by rewrite Hs) Ha) as (oi' & E & H').
  rewrite E. nsm_eval.
  eexists. split; [reflexivity|]. apply held_update; [apply timer_set_stays|done].
Qed.

Lemma ls_req_send_held ospf o n x ps ev oi :
  held o n x ps ev oi ->
  exists x', held o n x' ps ev (ospf_ls_req_send ospf n oi) /\ dd_part x' = dd_part x /\ n_state x' = n_state x.
Proof.
  intros H. unfold ospf_ls_req_send. rewrite (hd_find _ _ _ _ _ _ H).
  destruct (ls_req_fill _ _ _ _) as [|r rs] eqn:E; [by exists x|]. eexists. split; [|split].
  - apply (held_update _ _ x _ _ (fun x => set_n_t_ls_req true (set_n_ls_req_last (list.last (r :: rs)) x))); [done|].
    by apply held_noise.
  - done.
  - done.
Qed.

Lemma exchange_done_held ospf rnd o n x ps ev oi :
  n_state x = NSM_Exchange -> held o n x ps ev oi ->
  exists oi' x', ospf_nsm_event ospf rnd n NSM_ExchangeDone oi = Ret oi' /\ held o n x' ps ev oi'
    /\ dd_part x' = dd_part x /\ n_state x' = match n_ls_req x with [] => NSM_Full | _ => NSM_Loading end.
Proof.
  intros Hs H. unfold ospf_nsm_event. rewrite (hd_find _ _ _ _ _ _ H), Hs.
  cbn [NSM nsm_call mbind outcome_bind]. unfold nsm_exchange_done.
  assert (Hc : forall s a y, (s = NSM_Full \/ s = NSM_Loading) -> held o n y ps ev a -> dd_part y = dd_part x ->
    exists oi' x', (oi ← nsm_change_state ospf rnd n x s a; Ret (nbr_update n nsm_timer_set oi)) = Ret oi'
      /\ held o n x' ps ev oi' /\ dd_part x' = dd_part x /\ n_state x' = s).
  { intros s a y Hss Ha Ey.
    destruct (change_state_held ospf rnd o n x y s ps ev a) as (oi' & -> & H');
      [by destruct Hss; subst; rewrite Hs|done|]. cbn. eexists _, _. split; [reflexivity|].
    split; [apply held_update; [apply timer_set_stays|exact H']|].
    destruct (timer_set_part (stated s y)) as [-> ->]. split; [by rewrite <- Ey|done]. }
  destruct (n_ls_req x) eqn:El; [|destruct (n_t_ls_req x)]; repeat nsm_eval.
  - apply (Hc _ _ x); auto.
  - apply (Hc _ _ x); auto.
  - destruct (ls_req_send_held ospf o n x ps ev oi H) as (y & Hy & Ep & _). apply (Hc _ _ y); auto.
Qed.
