(* ===== verification/OspfRoles.v ===== *)
(** * Database Description packets of master and slave

    What the reception of a packet does to the entry of its sender, and what is
    sent in return, for both roles; on top of [OspfPeer].

    The receptions of each role, from the negotiation to the last packet. *)
From S2P Require Import Prelude OspfLsa OspfIsm OspfElection OspfNsm OspfStation OspfLan OspfHello OspfDbDesc.
From S2P Require Import OspfDbDescFacts OspfPeer.

(** ** The next packet *)

Definition dd_flags_after (flags : Z) (rest : list ospf_lsa) : Z :=
  match rest with [] => UNSET_FLAG flags OSPF_DD_FLAG_M | _ => flags end.

Definition dd_mtu_sent (c : hello_conf) (o : ospf_interface) : Z :=
  if oi_type o =? OSPF_IFTYPE_VIRTUALLINK then 0 else c_mtu c.

(** What is put into a packet from the summary list [sum]. *)
Definition dd_take (c : hello_conf) (o : ospf_interface) (sum : list ospf_lsa) :
    list lsa_header * list ospf_lsa :=
  dd_fill (CHECK_FLAG (dd_own_options c o) OSPF_OPTION_O) (c_packet_max c) OSPF_DB_DESC_MIN_SIZE None sum.

Definition dd_next (c : hello_conf) (o : ospf_interface) (flags seqnum : Z) (sum : list ospf_lsa) :
    ospf_db_desc_packet :=
  mkDD (dd_mtu_sent c o) (dd_own_options c o) (dd_flags_after flags (snd (dd_take c o sum))) seqnum
    (fst (dd_take c o sum)).

Lemma dd_own_options_view c oi o : view oi = view o -> dd_own_options c oi = dd_own_options c o.
Proof. intros E. apply view_fields in E as (_ & _ & _ & E). unfold dd_own_options. by rewrite E. Qed.

Lemma db_desc_send_held ospf o n x ps ev oi :
  n_state x = NSM_Exchange -> held o n x ps ev oi ->
  let c := o_conf ospf in
  let dd := dd_next c o (n_dd_flags x) (n_dd_seqnum x) (n_db_sum x) in
  let rest := snd (dd_take c o (n_db_sum x)) in
  exists oi', ospf_db_desc_send ospf n oi = Ret oi'
    /\ held o n (dd_sent dd (dd_flags_after (n_dd_flags x) rest) rest x) (ps ++ [dd]) ev oi'.
Proof.
  intros Hs H. cbv zeta. unfold ospf_db_desc_send. rewrite (hd_find _ _ _ _ _ _ H).
  unfold ospf_make_db_desc, dd_next. pose proof (hd_view _ _ _ _ _ _ H) as Hv.
  rewrite (dd_own_options_view _ _ _ Hv). apply view_fields in Hv as (-> & _). fold (dd_mtu_sent (o_conf ospf) o).
  fold (dd_take (o_conf ospf) o (n_db_sum x)). destruct (dd_take _ _ _) as [hs rest]. cbn [fst snd].
  rewrite Hs. nsm_eval.
  assert (Hh : forall dd flags rest, held o n (dd_sent dd flags rest x) (ps ++ [dd]) ev
                 (nbr_update n (dd_sent dd flags rest) (emit (DbDescSend n dd) oi))).
  { intros dd flags r. apply held_update; [done|]. pose proof (held_emit _ _ _ _ _ (DbDescSend n dd) _ H) as H'.
    cbn in H'. by rewrite Z.eqb_refl, app_nil_r in H'. }
  destruct rest; cbn; eauto.
Qed.

(** ** The rest of a packet *)

Definition received (dd : ospf_db_desc_packet) : dd_received :=
  mkReceived (dd_options dd) (dd_flags dd) (dd_seqnum dd).

Definition more (flags : Z) : bool := IS_SET_DD_M flags.

Lemma save_and_request ospf o n x ps ev dd t oi :
  held o n x ps ev oi ->
  exists x',
    held o n x' ps ev
      (if t : bool then nbr_update n (ospf_db_desc_save_current dd) oi
       else ospf_ls_req_send ospf n (nbr_update n (ospf_db_desc_save_current dd) oi))
    /\ dd_part x' = dd_part (set_n_last_recv (received dd) x) /\ n_state x' = n_state x.
Proof.
  intros H.
  assert (H1 : held o n (ospf_db_desc_save_current dd x) ps ev (nbr_update n (ospf_db_desc_save_current dd) oi))
    by by apply held_update.
  destruct t; [by eauto 10|]. destruct (ls_req_send_held ospf _ _ _ _ _ _ H1) as (x' & H2 & E1 & E2). eauto 10.
Qed.

Section Proc.
  Context (ospf : ospf_instance) (o : ospf_interface) (n : Z) (dd : ospf_db_desc_packet)
    (x : ospf_neighbor) (sum req : list ospf_lsa) (ps : list ospf_db_desc_packet) (ev : list effect)
    (oi : ospf_interface).
Let c := o_conf ospf.
Let x1 := set_n_db_sum sum (set_n_ls_req req x).
Let done_event := [ScheduleNsm n NSM_ExchangeDone].
  Hypothesis (Hheld : held o n x ps ev oi) (Hstate : n_state x = NSM_Exchange)
    (Hproc : dd_process (o_lsdb ospf) (oi_external_routing o) (dd_headers dd) x = (true, x1)).

Lemma proc_start a :
  held o n x1 ps ev a -> nbr_update n (fun _ => x1) oi = a ->
  ospf_db_desc_proc ospf n dd oi
  = (oi ← dd_answer ospf dd n (IS_SET_DD_MS (n_dd_flags x)) a;
     Ret (if n_t_ls_req x1 then nbr_update n (ospf_db_desc_save_current dd) oi
          else ospf_ls_req_send ospf n (nbr_update n (ospf_db_desc_save_current dd) oi))).
Proof using Hheld Hproc.
  intros Ha <-. unfold ospf_db_desc_proc. rewrite (hd_find _ _ _ _ _ _ Hheld).
  destruct (view_fields _ _ (hd_view _ _ _ _ _ _ Hheld)) as (_ & -> & _). rewrite Hproc. done.
Qed.

Lemma proc_entry : held o n x1 ps ev (nbr_update n (fun _ => x1) oi).
Proof using Hheld. by apply (held_replace _ _ x). Qed.

(** The master goes on, or is done. *)
Lemma proc_master :
  IS_SET_DD_MS (n_dd_flags x) = true ->
  exists oi' x', ospf_db_desc_proc ospf n dd oi = Ret oi' /\ n_state x' = NSM_Exchange
    /\ if negb (more (dd_flags dd)) && negb (more (n_dd_flags x))
       then held o n x' ps (ev ++ done_event) oi'
         /\ dd_part x' = (n_options x, u32 (n_dd_seqnum x + 1), n_dd_flags x, sum, req, received dd)
       else let rest := snd (dd_take c o sum) in
         held o n x' (ps ++ [dd_next c o (n_dd_flags x) (u32 (n_dd_seqnum x + 1)) sum]) ev oi'
         /\ dd_part x' = (n_options x, u32 (n_dd_seqnum x + 1), dd_flags_after (n_dd_flags x) rest, rest, req,
                          received dd).
Proof using Hheld Hstate Hproc.
  intros HM. pose proof proc_entry as H1. rewrite (proc_start _ H1 eq_refl), HM. unfold dd_answer.
  set (a1 := nbr_update n (fun _ => x1) oi) in *. clearbody a1.
  set (bump := fun x => set_n_dd_seqnum (u32 (n_dd_seqnum x + 1)) x).
  assert (H2 : held o n (bump x1) ps ev (nbr_update n bump a1)) by by apply held_update.
  set (a2 := nbr_update n bump a1) in *. clearbody a2. unfold dd_all_done. rewrite (hd_find _ _ _ _ _ _ H2).
  change (n_dd_flags (bump x1)) with (n_dd_flags x). fold (more (dd_flags dd)) (more (n_dd_flags x)).
  destruct (negb (more (dd_flags dd)) && negb (more (n_dd_flags x))).
  - pose proof (held_event _ _ _ _ _ n NSM_ExchangeDone _ H2) as H3.
    cbn [mbind outcome_bind].
    destruct (save_and_request ospf _ _ _ _ _ dd (n_t_ls_req x1) _ H3) as (x' & H4 & E1 & E2).
    eexists _, x'. split; [reflexivity|]. split; [by rewrite E2|]. split; [done|]. by rewrite E1.
  - destruct (db_desc_send_held ospf _ _ _ _ _ _ (eq_trans (eq_refl : n_state (bump x1) = n_state x) Hstate) H2)
      as (a3 & -> & H3). cbn [mbind outcome_bind].
    destruct (save_and_request ospf _ _ _ _ _ dd (n_t_ls_req x1) _ H3) as (x' & H4 & E1 & E2).
    eexists _, x'. split; [reflexivity|]. split; [by rewrite E2|]. split; [done|]. by rewrite E1.
Qed.

(** The slave answers, and may be done. *)
Lemma proc_slave :
  IS_SET_DD_MS (n_dd_flags x) = false ->
  let rest := snd (dd_take c o sum) in
  let flags := dd_flags_after (n_dd_flags x) rest in
  exists oi' x', ospf_db_desc_proc ospf n dd oi = Ret oi' /\ n_state x' = NSM_Exchange
    /\ held o n x' (ps ++ [dd_next c o (n_dd_flags x) (dd_seqnum dd) sum])
         (ev ++ if negb (more (dd_flags dd)) && negb (more flags) then done_event else []) oi'
    /\ dd_part x' = (n_options x, dd_seqnum dd, flags, rest, req, received dd).
Proof using Hheld Hstate Hproc.
  intros HM rest flags. pose proof proc_entry as H1. rewrite (proc_start _ H1 eq_refl), HM. unfold dd_answer.
  set (a1 := nbr_update n (fun _ => x1) oi) in *. clearbody a1.
  assert (H2 : held o n (set_n_dd_seqnum (dd_seqnum dd) x1) ps ev (nbr_update n (set_n_dd_seqnum (dd_seqnum dd)) a1))
    by by apply held_update.
  destruct (db_desc_send_held ospf _ _ _ _ _ _ (eq_trans (eq_refl : n_state (set_n_dd_seqnum (dd_seqnum dd) x1) = n_state x) Hstate) H2)
      as (a3 & -> & H3). cbn [mbind outcome_bind].
  assert (Ed : dd_all_done dd n a3 = negb (more (dd_flags dd)) && negb (more flags))
    by (unfold dd_all_done; by rewrite (hd_find _ _ _ _ _ _ H3)).
  rewrite Ed.
  destruct (negb (more (dd_flags dd)) && negb (more flags)); [|rewrite app_nil_r].
  - pose proof (held_event _ _ _ _ _ n NSM_ExchangeDone _ H3) as H4.
    destruct (save_and_request ospf _ _ _ _ _ dd (n_t_ls_req x1) _ H4) as (x' & H5 & E1 & E2).
    eexists _, x'. split; [reflexivity|]. split; [by rewrite E2|]. split; [done|]. by rewrite E1.
  - destruct (save_and_request ospf _ _ _ _ _ dd (n_t_ls_req x1) _ H3) as (x' & H5 & E1 & E2).
    eexists _, x'. split; [reflexivity|]. split; [by rewrite E2|]. split; [done|]. by rewrite E1.
Qed.
End Proc.

(** ** Reception *)

(** The key under which the router [peer] is known. *)
Definition peer_key (o peer : ospf_interface) : Z :=
  if by_router_id o then oi_router_id peer else oi_address peer.

Lemma view_key oi o : view oi = view o -> by_router_id oi = by_router_id o.
Proof. intros E. apply view_fields in E as (E & _). unfold by_router_id. by rewrite E. Qed.

Lemma seen_options_view c oi o x v : view oi = view o -> dd_seen_options c oi x v = dd_seen_options c o x v.
Proof. intros E. apply view_fields in E as (_ & E & _). unfold dd_seen_options. by rewrite E. Qed.

(** A packet of [peer] that is not dropped. *)
Record accepted (c : hello_conf) (mtu options : Z) : Prop := mkAccepted {
  ac_mtu : c_mtu_ignore c = true \/ mtu <= c_mtu c;
  ac_topology : CHECK_FLAG options OSPF_OPTION_MT = false
}.

Lemma db_desc_accepted ospf rnd recent peer dd o x ps ev oi :
  held o (peer_key o peer) x ps ev oi -> accepted (o_conf ospf) (dd_mtu dd) (dd_options dd) ->
  let dd' := set_dd_options (dd_seen_options (o_conf ospf) o x (dd_options dd)) dd in
  (n_state x = NSM_ExStart ->
   ospf_db_desc ospf rnd recent (oi_router_id peer) (oi_address peer) dd oi
   = dd_exstart ospf rnd (peer_key o peer) dd' oi)
  /\ (n_state x = NSM_Exchange ->
   ospf_db_desc ospf rnd recent (oi_router_id peer) (oi_address peer) dd oi
   = dd_exchange ospf (peer_key o peer) dd' x oi).
Proof.
  intros H [Hm Ht] dd'. pose proof (hd_view _ _ _ _ _ _ H) as Hv. unfold ospf_db_desc.
  rewrite (held_lookup _ _ _ _ _ _ _ _ H) by (unfold peer_key; by rewrite (view_key _ _ Hv)).
  assert (Hid : n_id x = peer_key o peer).
  { pose proof (hd_find _ _ _ _ _ _ H) as Hf. apply find_some in Hf as [_ E]. lia. }
  assert (Hg : negb (c_mtu_ignore (o_conf ospf)) && (c_mtu (o_conf ospf) <? dd_mtu dd) = false).
  { destruct Hm as [->|Hm]; [done|]. destruct (Z.ltb_spec (c_mtu (o_conf ospf)) (dd_mtu dd)); [lia|].
    apply andb_false_r. }
  rewrite Hid, Hg, Ht, (seen_options_view _ _ _ _ _ Hv). fold dd'. split; by intros ->.
Qed.

(** The entry of a side, outside of its handlers. *)
Definition at_rest (o : ospf_interface) (n : Z) (x : ospf_neighbor) (oi : ospf_interface) : Prop :=
  exists ps ev, held o n x ps ev oi.

(** The packet is handled, then the events that this put on the queue; what is
    sent to the neighbor is returned. *)
Definition dd_receive (ospf : ospf_instance) (rnd : Z) (recent : bool) (n : Z) (peer : ospf_interface)
    (dd : ospf_db_desc_packet) (oi : ospf_interface) :
    outcome (ospf_interface * list ospf_db_desc_packet) :=
  oi ← ospf_db_desc ospf rnd recent (oi_router_id peer) (oi_address peer) dd (set_oi_out [] oi);
  let sent := dd_packets n (oi_out oi) in
  oi ← run_events ospf rnd (oi_out oi) (set_oi_out [] oi);
  Ret (oi, sent ++ dd_packets n (oi_out oi)).

Lemma receive_quiet ospf rnd recent n peer dd o oi a x ps :
  ospf_db_desc ospf rnd recent (oi_router_id peer) (oi_address peer) dd (set_oi_out [] oi) = Ret a ->
  held o n x ps [] a ->
  exists oi', dd_receive ospf rnd recent n peer dd oi = Ret (oi', ps) /\ at_rest o n x oi'.
Proof.
  intros E H. unfold dd_receive. rewrite E. cbn [mbind outcome_bind].
  rewrite run_events_filter, (hd_events _ _ _ _ _ _ H). cbn [run_events mbind outcome_bind].
  rewrite (hd_packets _ _ _ _ _ _ H). cbn [oi_out set_oi_out dd_packets]. rewrite app_nil_r.
  eexists. split; [reflexivity|]. eexists _, _. by eapply held_clear.
Qed.

Lemma receive_done ospf rnd recent n peer dd o oi a x ps :
  ospf_db_desc ospf rnd recent (oi_router_id peer) (oi_address peer) dd (set_oi_out [] oi) = Ret a ->
  held o n x ps [ScheduleNsm n NSM_ExchangeDone] a -> n_state x = NSM_Exchange ->
  exists oi' x', dd_receive ospf rnd recent n peer dd oi = Ret (oi', ps) /\ at_rest o n x' oi'
    /\ dd_part x' = dd_part x /\ n_state x' = match n_ls_req x with [] => NSM_Full | _ => NSM_Loading end.
Proof.
  intros E H Hs. unfold dd_receive. rewrite E. cbn [mbind outcome_bind].
  rewrite run_events_filter, (hd_events _ _ _ _ _ _ H), (hd_packets _ _ _ _ _ _ H). cbn [run_events].
  destruct (exchange_done_held ospf rnd o n x [] [] _ Hs (held_clear _ _ _ _ _ _ H)) as (oi' & x' & -> & H' & E1 & E2).
  cbn [mbind outcome_bind]. rewrite (hd_packets _ _ _ _ _ _ H'), app_nil_r.
  exists oi', x'. split; [done|]. split; [by eexists _, _|done].
Qed.

(** ** Flags *)

(** The flags of a slave and of a master that have more to describe, or not. *)
Definition slave_flags (m : bool) : Z := if m then OSPF_DD_FLAG_M else 0.
Definition master_flags (m : bool) : Z := Z.lor (slave_flags m) OSPF_DD_FLAG_MS.
Definition first_flags : Z := Z.lor OSPF_DD_FLAG_I (Z.lor OSPF_DD_FLAG_M OSPF_DD_FLAG_MS).

Definition nonempty {A} (l : list A) : bool := match l with [] => false | _ => true end.

Lemma slave_flags_after m rest : dd_flags_after (slave_flags m) rest = slave_flags (m && nonempty rest).
Proof. by destruct m, rest. Qed.
Lemma master_flags_after m rest : dd_flags_after (master_flags m) rest = master_flags (m && nonempty rest).
Proof. by destruct m, rest. Qed.
Lemma more_slave m : more (slave_flags m) = m.
Proof. by destruct m. Qed.
Lemma more_master m : more (master_flags m) = m.
Proof. by destruct m. Qed.

(** ** Options *)

Lemma check_set v f : f <> 0 -> CHECK_FLAG (SET_FLAG v f) f = true.
Proof.
  intros Hf. unfold CHECK_FLAG, SET_FLAG. rewrite Z.land_lor_distr_l, Z.land_diag.
  apply negb_true_iff, Z.eqb_neq. intros E. apply Z.lor_eq_0_iff in E as [_ E]. done.
Qed.

Lemma check_unset v f : CHECK_FLAG (UNSET_FLAG v f) f = false.
Proof.
  unfold CHECK_FLAG, UNSET_FLAG. rewrite <- Z.land_assoc, (Z.land_comm (Z.lnot f)), Z.land_lnot_diag, Z.land_0_r. done.
Qed.

(** The options that were seen are seen again. *)
Lemma seen_options_stable c o x y v :
  n_options y = dd_seen_options c o x v -> dd_seen_options c o y v = dd_seen_options c o x v.
Proof.
  intros E. assert (Enp : CHECK_FLAG (n_options y) OSPF_OPTION_NP
    = CHECK_FLAG (if (oi_external_routing o =? OSPF_AREA_NSSA) && CHECK_FLAG (n_options x) OSPF_OPTION_NP
                     && negb (CHECK_FLAG v OSPF_OPTION_NP) then SET_FLAG v OSPF_OPTION_NP else v) OSPF_OPTION_NP).
  { rewrite E. unfold dd_seen_options. cbv zeta. case_bool; [|done]. by apply check_flag_unset. }
  clear E. unfold dd_seen_options. cbv zeta. rewrite Enp. clear Enp.
  destruct (_ =? _), (CHECK_FLAG (n_options x) _), (CHECK_FLAG v OSPF_OPTION_NP) eqn:Ev; cbn [andb negb];
    rewrite ?check_set, ?Ev by done; done.
Qed.

(** Both sides take each other for capable of opaque LSAs, or neither does. *)
Lemma seen_opaque c o x v :
  CHECK_FLAG (dd_seen_options c o x v) OSPF_OPTION_O = c_opaque c && CHECK_FLAG v OSPF_OPTION_O.
Proof.
  unfold dd_seen_options. cbv zeta. set (w := if _ && _ then SET_FLAG v OSPF_OPTION_NP else v).
  assert (Ew : CHECK_FLAG w OSPF_OPTION_O = CHECK_FLAG v OSPF_OPTION_O).
  { unfold w. case_bool; [|done]. by apply check_flag_lor. }
  rewrite <- Ew. destruct (CHECK_FLAG w OSPF_OPTION_O) eqn:E, (c_opaque c); cbn [andb negb]; rewrite ?check_unset; done.
Qed.

(** Only a router configured for opaque LSAs has the option. *)
Definition opaque_ok (c : hello_conf) (o : ospf_interface) : Prop :=
  CHECK_FLAG (OPTIONS o) OSPF_OPTION_O = true -> c_opaque c = true.

Lemma own_opaque c o : opaque_ok c o -> CHECK_FLAG (dd_own_options c o) OSPF_OPTION_O = c_opaque c.
Proof.
  unfold opaque_ok, dd_own_options. intros H. cbv zeta.
  assert (E : forall v, CHECK_FLAG (if c_flood_reduction c then SET_FLAG v OSPF_OPTION_DC else v) OSPF_OPTION_O
              = CHECK_FLAG v OSPF_OPTION_O) by (intros v; case_bool; [by apply check_flag_lor|done]).
  rewrite E. destruct (c_opaque c); [by apply check_set|]. destruct (CHECK_FLAG _ _); [symmetry; by apply H|done].
Qed.

(** ** The entry of the negotiation *)

Section Role.
  Context (ospf : ospf_instance) (rnd : Z) (recent : bool) (o peer : ospf_interface).
Let c := o_conf ospf.
Let db := o_lsdb ospf.
Let n := peer_key o peer.
  Hypothesis Hdb : db_ok db.

(** A packet that settles who is master is processed in state Exchange, with the
    summary list filled. *)
Lemma exstart_settled dd x x1 oi :
  held o n x [] [] oi -> dd_negotiate (oi_router_id o) dd x = Some x1 ->
  n_id x1 = n_id x -> n_router_id x1 = n_router_id x -> n_state x1 = NSM_ExStart -> n_db_sum x1 = [] ->
  exists a x2 sum, dd_exstart ospf rnd n dd oi = ospf_db_desc_proc ospf n dd a /\ held o n x2 [] [] a
    /\ n_state x2 = NSM_Exchange /\ lsdb_ok sum
    /\ (forall y, y ∈ sum <-> described db (normal_area o) (dd_options dd) y)
    /\ dd_part x2 = (dd_options dd, n_dd_seqnum x1, n_dd_flags x1, sum, n_ls_req x1, n_last_recv x1).
Proof using Hdb.
  intros H Hn E1 E2 Hs Hsum. unfold dd_exstart. rewrite (hd_find _ _ _ _ _ _ H).
  destruct (view_fields _ _ (hd_view _ _ _ _ _ _ H)) as (_ & _ & -> & _). rewrite Hn.
  set (y := set_n_options (dd_options dd) x1).
  assert (Hy : held o n y [] [] (nbr_update n (fun _ => y) oi)) by by apply (held_replace _ _ x).
  destruct (negotiation_done_held ospf rnd o n y [] [] _ Hs Hy) as (a & -> & Ha). cbn [mbind outcome_bind].
  destruct (summarise_described db (normal_area o) y Hdb Hsum) as (sum & rx & t & E & Hok & Hel).
  fold db in Ha. rewrite E in Ha. eexists a, _, sum. split; [done|]. split; [exact Ha|].
  destruct (timer_set_part (stated NSM_Exchange (set_n_t_ls_rxmt t (set_n_ls_rxmt rx (set_n_db_sum sum y)))))
    as [-> ->]. done.
Qed.

(** ** Packets with headers *)

  Context (mtu raw : Z) (x0 : ospf_neighbor).
Let O := dd_seen_options c o x0 raw.
  Hypothesis Haccepted : accepted c mtu raw.

  (** The LSAs of the peer. *)
  Context (U : list ospf_lsa) (told : ospf_lsa -> bool).
  Hypothesis HU : lsdb_ok U.
  Hypothesis Hwf : forall y, y ∈ U -> lsa_wf y.
  Hypothesis Htold : forall x y, n_options x = O -> y ∈ U -> told y = true ->
    dd_refused (oi_external_routing o) x (adv_header y) = false.

Definition requests_from (req : list ospf_lsa) : Prop :=
  lsdb_ok req /\ forall l, l ∈ req -> exists u, u ∈ U /\ l = request u.

Lemma process_told sent x :
  sent ⊆ U -> Forall (fun y => told y = true) sent -> n_options x = O -> requests_from (n_ls_req x) ->
  exists sum req,
    dd_process db (oi_external_routing o) (map adv_header sent) x = (true, set_n_db_sum sum (set_n_ls_req req x))
    /\ processed db U sent (n_db_sum x) (n_ls_req x) sum req.
Proof using HU Hwf Htold.
  intros Hs Ht HO [Hr1 Hr2]. rewrite Forall_forall in Ht. apply dd_process_spec; try done.
  - apply Forall_forall. intros y Hy. apply list_elem_of_In in Hy. auto.
  - apply Forall_forall. intros y Hy. pose proof Hy as Hi. apply list_elem_of_In in Hi. auto.
Qed.

Definition after_exchange (req : list ospf_lsa) : nsm_state :=
  match req with [] => NSM_Full | _ => NSM_Loading end.

Definition entry_is (x : ospf_neighbor) (s : nsm_state) (q flags : Z) (sum req : list ospf_lsa) (r : dd_received) : Prop :=
  n_state x = s /\ dd_part x = (O, q, flags, sum, req, r).

(** The slave processes a packet of the master and answers it. *)
Lemma slave_proc dd oi a x q sum req r ms mm q' sent :
  ospf_db_desc ospf rnd recent (oi_router_id peer) (oi_address peer) dd (set_oi_out [] oi)
  = ospf_db_desc_proc ospf n (mkDD mtu O mm q' (map adv_header sent)) a ->
  held o n x [] [] a -> entry_is x NSM_Exchange q (slave_flags ms) sum req r ->
  sent ⊆ U -> Forall (fun y => told y = true) sent -> requests_from req ->
  exists sum1 req1 oi' x', processed db U sent sum req sum1 req1
    /\ dd_receive ospf rnd recent n peer dd oi = Ret (oi', [dd_next c o (slave_flags ms) q' sum1])
    /\ at_rest o n x' oi'
    /\ let rest := snd (dd_take c o sum1) in
       let ms' := ms && nonempty rest in
       entry_is x' (if negb (more mm) && negb ms' then after_exchange req1 else NSM_Exchange)
         q' (slave_flags ms') rest req1 (mkReceived O mm q').
Proof using HU Hwf Htold.
  intros E H [Hs Hp] Hsent Ht Hreq. unfold dd_part in Hp. injection Hp as Ho Hq Hf Hsum Hr Hl.
  rewrite <- Hr in Hreq. destruct (process_told sent x Hsent Ht Ho Hreq) as (sum1 & req1 & Hproc & P).
  rewrite Hsum, Hr in P.
  set (dd' := mkDD mtu O mm q' (map adv_header sent)) in *.
  destruct (proc_slave ospf o n dd' x sum1 req1 [] [] a H Hs Hproc) as (oi1 & x1 & E1 & Hs1 & H1 & Hp1);
    [rewrite Hf; by destruct ms|].
  rewrite E1 in E. clear E1. rewrite Hf, slave_flags_after, more_slave in *. cbn [dd_flags dd_seqnum app] in *.
  fold c in H1, Hp1. cbn [dd_flags dd'] in H1. exists sum1, req1.
  destruct (negb (more mm) && negb (ms && nonempty (snd (dd_take c o sum1)))) eqn:Ed.
  - destruct (receive_done _ _ _ _ _ _ _ _ _ _ _ E H1 Hs1) as (oi' & x' & E' & R' & Hp' & Hs').
    exists oi', x'.  split; [done|]. split; [done|]. split; [done|]. cbv zeta. rewrite ?Ed.
    split; [|by rewrite Hp', Hp1, Ho]. rewrite Hs'. unfold dd_part in Hp1. by injection Hp1 as _ _ _ _ -> _.
  - destruct (receive_quiet _ _ _ _ _ _ _ _ _ _ _ E H1) as (oi' & E' & R').
    exists oi', x1.  split; [done|]. split; [done|]. split; [done|]. cbv zeta. rewrite ?Ed.
    split; [done|by rewrite Hp1, Ho].
Qed.

(** The master processes an answer: it is done, or sends the next packet. *)
Lemma master_proc dd oi a x q sum req r ms mm q' sent :
  ospf_db_desc ospf rnd recent (oi_router_id peer) (oi_address peer) dd (set_oi_out [] oi)
  = ospf_db_desc_proc ospf n (mkDD mtu O (slave_flags ms) q' (map adv_header sent)) a ->
  held o n x [] [] a -> entry_is x NSM_Exchange q (master_flags mm) sum req r ->
  sent ⊆ U -> Forall (fun y => told y = true) sent -> requests_from req ->
  exists sum1 req1 oi' x', processed db U sent sum req sum1 req1 /\ at_rest o n x' oi'
    /\ if negb ms && negb mm
       then dd_receive ospf rnd recent n peer dd oi = Ret (oi', [])
         /\ entry_is x' (after_exchange req1) (u32 (q + 1)) (master_flags mm) sum1 req1
              (mkReceived O (slave_flags ms) q')
       else let rest := snd (dd_take c o sum1) in
         dd_receive ospf rnd recent n peer dd oi = Ret (oi', [dd_next c o (master_flags mm) (u32 (q + 1)) sum1])
         /\ entry_is x' NSM_Exchange (u32 (q + 1)) (master_flags (mm && nonempty rest)) rest req1
              (mkReceived O (slave_flags ms) q').
Proof using HU Hwf Htold.
  intros E H [Hs Hp] Hsent Ht Hreq. unfold dd_part in Hp. injection Hp as Ho Hq Hf Hsum Hr Hl.
  rewrite <- Hr in Hreq. destruct (process_told sent x Hsent Ht Ho Hreq) as (sum1 & req1 & Hproc & P).
  rewrite Hsum, Hr in P.
  set (dd' := mkDD mtu O (slave_flags ms) q' (map adv_header sent)) in *.
  destruct (proc_master ospf o n dd' x sum1 req1 [] [] a H Hs Hproc) as (oi1 & x1 & E1 & Hs1 & H1);
    [rewrite Hf; by destruct mm|].
  rewrite E1 in E. clear E1. cbv zeta in H1. rewrite Hf, Hq, Ho, master_flags_after, more_master in H1.
  change (dd_flags dd') with (slave_flags ms) in H1. rewrite more_slave in H1. fold c in H1.
  exists sum1, req1.  destruct (negb ms && negb mm); destruct H1 as [H1 Hp1].
  - destruct (receive_done _ _ _ _ _ _ _ _ _ _ _ E H1 Hs1) as (oi' & x' & E' & R' & Hp' & Hs').
    exists oi', x'. split; [done|]. split; [done|]. split; [done|]. split; [|by rewrite Hp', Hp1].
    rewrite Hs'. unfold dd_part in Hp1. by injection Hp1 as _ _ _ _ -> _.
  - destruct (receive_quiet _ _ _ _ _ _ _ _ _ _ _ E H1) as (oi' & E' & R').
    exists oi', x1. split; [done|]. split; [done|]. split; [done|]. by split.
Qed.

(** ** In state Exchange *)

Lemma next_seqnum q : u32 (q + 1) <> q.
Proof. unfold u32. intros E. Z.div_mod_to_equations. lia. Qed.

Lemma exchange_proc dd oi x s q flags sum req r :
  at_rest o n x oi -> entry_is x s q flags sum req r -> s = NSM_Exchange ->
  dd_mtu dd = mtu -> dd_options dd = raw -> dd_seqnum dd <> rv_seqnum r ->
  IS_SET_DD_MS (dd_flags dd) = IS_SET_DD_MS (rv_flags r) -> IS_SET_DD_I (dd_flags dd) = false ->
  dd_seqnum dd = (if IS_SET_DD_MS flags then q else u32 (q + 1)) ->
  ospf_db_desc ospf rnd recent (oi_router_id peer) (oi_address peer) dd (set_oi_out [] oi)
  = ospf_db_desc_proc ospf n (mkDD mtu O (dd_flags dd) (dd_seqnum dd) (dd_headers dd)) (set_oi_out [] oi)
  /\ held o n x [] [] (set_oi_out [] oi).
Proof using Haccepted.
  intros (ps & ev & H) [Hs Hp] -> Em Eo Eq Ems Ei Esq. apply held_clear in H. split; [|done].
  unfold dd_part in Hp. injection Hp as Ho Hq Hf Hsum Hr Hl.
  assert (Hacc : accepted (o_conf ospf) (dd_mtu dd) (dd_options dd)) by by rewrite Em, Eo.
  destruct (db_desc_accepted ospf rnd recent peer dd o x [] [] _ H Hacc) as [_ E]. rewrite (E Hs). clear E.
  rewrite Eo, (seen_options_stable (o_conf ospf) o x0 x raw Ho). fold c O. unfold dd_exchange.
  replace (ospf_db_desc_is_dup _ _) with false; [|unfold ospf_db_desc_is_dup; rewrite Hl; cbn [dd_seqnum set_dd_options];
    destruct (Z.eqb_spec (dd_seqnum dd) (rv_seqnum r)); [done|by rewrite andb_false_r]].
  replace (dd_mismatch _ _) with false.
  - unfold set_dd_options. by rewrite Em.
  - unfold dd_mismatch. cbn [dd_flags dd_options dd_seqnum set_dd_options].
    rewrite Hl, Ems, Ei, Ho, Hf, Hq, <- Esq, !Z.eqb_refl. by destruct (IS_SET_DD_MS (rv_flags r)).
Qed.

Lemma slave_hears oi x q sum req r ms mm sent :
  at_rest o n x oi -> entry_is x NSM_Exchange q (slave_flags ms) sum req r ->
  IS_SET_DD_MS (rv_flags r) = true -> rv_seqnum r = q ->
  sent ⊆ U -> Forall (fun y => told y = true) sent -> requests_from req ->
  exists sum1 req1 oi' x', processed db U sent sum req sum1 req1
    /\ dd_receive ospf rnd recent n peer (mkDD mtu raw (master_flags mm) (u32 (q + 1)) (map adv_header sent)) oi
       = Ret (oi', [dd_next c o (slave_flags ms) (u32 (q + 1)) sum1])
    /\ at_rest o n x' oi'
    /\ let rest := snd (dd_take c o sum1) in
       let ms' := ms && nonempty rest in
       entry_is x' (if negb mm && negb ms' then after_exchange req1 else NSM_Exchange)
         (u32 (q + 1)) (slave_flags ms') rest req1 (mkReceived O (master_flags mm) (u32 (q + 1))).
Proof using HU Hwf Htold Haccepted.
  intros R He Hms Hq Hsent Ht Hreq.
  destruct (exchange_proc (mkDD mtu raw (master_flags mm) (u32 (q + 1)) (map adv_header sent)) oi x _ q _ sum req r R He
              eq_refl eq_refl eq_refl) as [E H].
  - rewrite Hq. apply next_seqnum.
  - rewrite Hms. by destruct mm.
  - by destruct mm.
  - by destruct ms.
  - pose proof (slave_proc _ oi _ x q sum req r ms (master_flags mm) (u32 (q + 1)) sent E H He Hsent Ht Hreq) as P.
    by rewrite more_master in P.
Qed.

Lemma master_hears oi x q sum req r ms mm sent :
  at_rest o n x oi -> entry_is x NSM_Exchange q (master_flags mm) sum req r ->
  IS_SET_DD_MS (rv_flags r) = false -> rv_seqnum r <> q ->
  sent ⊆ U -> Forall (fun y => told y = true) sent -> requests_from req ->
  exists sum1 req1 oi' x', processed db U sent sum req sum1 req1 /\ at_rest o n x' oi'
    /\ let dd := mkDD mtu raw (slave_flags ms) q (map adv_header sent) in
       if negb ms && negb mm
       then dd_receive ospf rnd recent n peer dd oi = Ret (oi', [])
         /\ entry_is x' (after_exchange req1) (u32 (q + 1)) (master_flags mm) sum1 req1
              (mkReceived O (slave_flags ms) q)
       else let rest := snd (dd_take c o sum1) in
         dd_receive ospf rnd recent n peer dd oi = Ret (oi', [dd_next c o (master_flags mm) (u32 (q + 1)) sum1])
         /\ entry_is x' NSM_Exchange (u32 (q + 1)) (master_flags (mm && nonempty rest)) rest req1
              (mkReceived O (slave_flags ms) q).
Proof using HU Hwf Htold Haccepted.
  intros R He Hms Hq Hsent Ht Hreq.
  destruct (exchange_proc (mkDD mtu raw (slave_flags ms) q (map adv_header sent)) oi x _ q _ sum req r R He
              eq_refl eq_refl eq_refl) as [E H]; [done|rewrite Hms; by destruct ms|by destruct ms|by destruct mm|].
  by apply (master_proc _ oi _ x q sum req r ms mm q sent E).
Qed.

(** ** In state ExStart *)

(** The entry of a neighbor with which the exchange starts. *)
Record started (x : ospf_neighbor) : Prop := mkStarted {
  st_state : n_state x = NSM_ExStart;
  st_flags : n_dd_flags x = first_flags;
  st_sum : n_db_sum x = [];
  st_req : n_ls_req x = [];
  st_id : n_router_id x = oi_router_id peer
}.

(** The packet that starts the exchange. *)
Definition first_packet (q : Z) : ospf_db_desc_packet := mkDD mtu raw first_flags q [].

Lemma exstart_proc dd x x1 oi :
  at_rest o n x oi -> started x -> x = x0 -> dd_mtu dd = mtu -> dd_options dd = raw ->
  dd_negotiate (oi_router_id o) (set_dd_options O dd) x = Some x1 ->
  n_id x1 = n_id x -> n_router_id x1 = n_router_id x -> n_state x1 = NSM_ExStart ->
  n_db_sum x1 = [] -> n_ls_req x1 = [] ->
  exists a x2 sum,
    ospf_db_desc ospf rnd recent (oi_router_id peer) (oi_address peer) dd (set_oi_out [] oi)
    = ospf_db_desc_proc ospf n (mkDD mtu O (dd_flags dd) (dd_seqnum dd) (dd_headers dd)) a
    /\ held o n x2 [] [] a /\ lsdb_ok sum /\ (forall y, y ∈ sum <-> described db (normal_area o) O y)
    /\ entry_is x2 NSM_Exchange (n_dd_seqnum x1) (n_dd_flags x1) sum [] (n_last_recv x1).
Proof using Hdb Haccepted.
  intros (ps & ev & H) [Hs _ _ _ _] -> Em Eo Hn E1 E2 Hs1 Hsum Hreq. apply held_clear in H.
  assert (Hacc : accepted (o_conf ospf) (dd_mtu dd) (dd_options dd)) by by rewrite Em, Eo.
  destruct (db_desc_accepted ospf rnd recent peer dd o x0 [] [] _ H Hacc) as [E _]. rewrite (E Hs), Eo. clear E.
  fold c O n. destruct (exstart_settled _ _ _ _ H Hn E1 E2 Hs1 Hsum) as (a & x2 & sum & -> & H2 & Hs2 & Hok & Hel & Hp).
  exists a, x2, sum. split; [unfold set_dd_options; by rewrite Em|]. split; [done|]. split; [done|]. split; [done|].
  split; [done|]. by rewrite Hp, Hreq.
Qed.

Lemma requests_none : requests_from [].
Proof. split; [constructor|]. intros l Hl. by apply elem_of_nil in Hl. Qed.

(** The router with the smaller identifier is the slave. *)
Lemma slave_starts oi q :
  at_rest o n x0 oi -> started x0 -> oi_router_id o < oi_router_id peer ->
  exists sum sum1 req1 oi' x', lsdb_ok sum /\ (forall y, y ∈ sum <-> described db (normal_area o) O y)
    /\ processed db U [] sum [] sum1 req1
    /\ dd_receive ospf rnd recent n peer (first_packet q) oi
       = Ret (oi', [dd_next c o (slave_flags true) q sum1])
    /\ at_rest o n x' oi'
    /\ let rest := snd (dd_take c o sum1) in
       entry_is x' NSM_Exchange q (slave_flags (nonempty rest)) rest req1 (mkReceived O first_flags q).
Proof using Hdb Haccepted HU Hwf Htold.
  intros R Hst Hid. pose proof Hst as [Hs Hf Hsum Hreq Hrid].
  destruct (exstart_proc (first_packet q) x0
    (set_n_dd_flags (UNSET_FLAG (n_dd_flags x0) (Z.lor OSPF_DD_FLAG_MS OSPF_DD_FLAG_I)) (set_n_dd_seqnum q x0)) oi R Hst
    eq_refl eq_refl eq_refl) as (a & x2 & sum & E & H & Hok & Hel & He); try done.
  { unfold dd_negotiate. rewrite Hrid. cbn [first_packet dd_flags set_dd_options].
    change (Z.land first_flags OSPF_DD_FLAG_ALL =? OSPF_DD_FLAG_ALL) with true.
    change (dd_size _ =? OSPF_DB_DESC_MIN_SIZE) with true. cbn [andb]. by destruct (Z.ltb_spec (oi_router_id o) (oi_router_id peer)); [|lia]. }
  assert (He' : entry_is x2 NSM_Exchange q (slave_flags true) sum [] (n_last_recv x0)).
  { destruct He as [He1 He2]. split; [done|]. rewrite He2. cbn [n_dd_flags set_n_dd_flags set_n_dd_seqnum]. by rewrite Hf. }
  destruct (slave_proc _ oi a x2 q sum [] _ true first_flags q [] E H He') as (sum1 & req1 & oi' & x' & P & E' & R' & He1);
    [apply list_subseteq_nil|constructor|apply requests_none|].
  exists sum, sum1, req1, oi', x'. done.
Qed.

(** The first packet of the slave is not an answer. *)
Lemma master_ignores oi q :
  at_rest o n x0 oi -> started x0 -> oi_router_id peer < oi_router_id o ->
  exists oi', dd_receive ospf rnd recent n peer (first_packet q) oi = Ret (oi', []) /\ at_rest o n x0 oi'.
Proof using Haccepted.
  intros (ps & ev & H) [Hs _ _ _ Hrid] Hid. apply held_clear in H.
  destruct (db_desc_accepted ospf rnd recent peer (first_packet q) o x0 [] [] _ H Haccepted) as [E _].
  apply (receive_quiet _ _ _ _ _ _ _ _ (set_oi_out [] oi)); [|done]. rewrite (E Hs). fold n. unfold dd_exstart.
  rewrite (hd_find _ _ _ _ _ _ H). destruct (view_fields _ _ (hd_view _ _ _ _ _ _ H)) as (_ & _ & -> & _).
  unfold dd_negotiate. rewrite Hrid. cbn [first_packet dd_flags set_dd_options].
  change (Z.land first_flags OSPF_DD_FLAG_ALL =? OSPF_DD_FLAG_ALL) with true.
  change (dd_size _ =? OSPF_DB_DESC_MIN_SIZE) with true. cbn [andb].
  by destruct (Z.ltb_spec (oi_router_id o) (oi_router_id peer)); [lia|].
Qed.

(** The answer of the slave makes the other one the master. *)
Lemma master_starts oi ms sent :
  at_rest o n x0 oi -> started x0 -> oi_router_id peer < oi_router_id o ->
  sent ⊆ U -> Forall (fun y => told y = true) sent ->
  let q := n_dd_seqnum x0 in
  exists sum sum1 req1 oi' x', lsdb_ok sum /\ (forall y, y ∈ sum <-> described db (normal_area o) O y)
    /\ processed db U sent sum [] sum1 req1
    /\ dd_receive ospf rnd recent n peer (mkDD mtu raw (slave_flags ms) q (map adv_header sent)) oi
       = Ret (oi', [dd_next c o (master_flags true) (u32 (q + 1)) sum1])
    /\ at_rest o n x' oi'
    /\ let rest := snd (dd_take c o sum1) in
       entry_is x' NSM_Exchange (u32 (q + 1)) (master_flags (nonempty rest)) rest req1
         (mkReceived O (slave_flags ms) q).
Proof using Hdb Haccepted HU Hwf Htold.
  intros R Hst Hid Hsent Ht q. pose proof Hst as [Hs Hf Hsum Hreq Hrid].
  destruct (exstart_proc (mkDD mtu raw (slave_flags ms) q (map adv_header sent)) x0
    (set_n_dd_flags (UNSET_FLAG (n_dd_flags x0) OSPF_DD_FLAG_I) x0) oi R Hst
    eq_refl eq_refl eq_refl) as (a & x2 & sum & E & H & Hok & Hel & He); try done.
  { unfold dd_negotiate. rewrite Hrid. cbn [dd_flags dd_seqnum set_dd_options]. rewrite Z.eqb_refl.
    replace (Z.land (slave_flags ms) OSPF_DD_FLAG_ALL =? OSPF_DD_FLAG_ALL) with false by by destruct ms.
    replace (negb (IS_SET_DD_MS (slave_flags ms)) && negb (IS_SET_DD_I (slave_flags ms))) with true by by destruct ms.
    cbn [andb]. by destruct (Z.ltb_spec (oi_router_id peer) (oi_router_id o)); [|lia]. }
  assert (He' : entry_is x2 NSM_Exchange q (master_flags true) sum [] (n_last_recv x0)).
  { destruct He as [He1 He2]. split; [done|]. rewrite He2. cbn [n_dd_flags set_n_dd_flags]. by rewrite Hf. }
  destruct (master_proc _ oi a x2 q sum [] _ ms true q sent E H He' Hsent Ht requests_none)
    as (sum1 & req1 & oi' & x' & P & R' & He1).
  rewrite andb_false_r in He1. destruct He1 as [E' He1]. exists sum, sum1, req1, oi', x'. done.
Qed.
End Role.
