(* ===== verification/OspfExchange.v ===== *)
(** * Two routers describe their databases to each other

    Both are in state ExStart and have sent their first packet.  Packets are
    delivered in order on each direction; which direction is served next is free.
    Every schedule that is long enough ends the exchange, with one master and one
    slave, and each router requests exactly the LSAs of the other that are more
    recent than its own. *)

From stdpp Require Import sets.
From S2P Require Import Prelude OspfLsa OspfIsm OspfElection OspfNsm OspfStation OspfLan OspfHello OspfDbDesc OspfDbDescFacts OspfPeer OspfRoles.
From Stdlib Require Import Sorting.Sorted.

(** ** Progress of one direction *)

(** The sender has described the LSAs [U], but for [sum]; [sent] is on its way, and
    [req] is the request list of the receiver, whose database is [db]. *)
Record progress (db : ospf_lsdb) (told : ospf_lsa -> bool) (U sum sent req : list ospf_lsa) : Prop := mkProgress {
  pg_sum : sum ⊆ U;
  pg_sent : sent ⊆ U;
  pg_told : Forall (fun y => told y = true) sent;
  pg_ok : lsdb_ok req;
  pg_req : forall l, l ∈ req -> exists y, y ∈ U /\ told y = true /\ wanted db y /\ l = request y;
  pg_cover : forall y, y ∈ U -> told y = true -> wanted db y -> y ∈ sum \/ y ∈ sent \/ request y ∈ req
}.

Lemma progress_start db told U : progress db told U U [] [].
Proof.
  split; [done|apply list_subseteq_nil|constructor|constructor| |auto].
  intros l Hl. by apply elem_of_nil in Hl.
Qed.

Definition told_by (c : hello_conf) (o : ospf_interface) : ospf_lsa -> bool :=
  sendable (CHECK_FLAG (dd_own_options c o) OSPF_OPTION_O).

Lemma progress_send db c o U sum req hs rest :
  progress db (told_by c o) U sum [] req -> dd_take c o sum = (hs, rest) ->
  exists sent, hs = map adv_header sent /\ progress db (told_by c o) U rest sent req.
Proof.
  intros [H1 H2 H3 H4 H5 H6] E. apply dd_fill_spec in E as (sent & -> & [F1 F2 F3 F4 F5]).
  exists sent. split; [done|]. split; [set_solver..|done|done|done|].
  intros y Hy Ht Hw. destruct (H6 y Hy Ht Hw) as [H|[H|H]]; [|by apply elem_of_nil in H|auto].
  destruct (F3 y H Ht); auto.
Qed.

Lemma progress_receive db told U V sum sent req sum0 sum1 req1 :
  progress db told U sum sent req -> processed db V sent sum0 req sum1 req1 -> progress db told U sum [] req1.
Proof.
  intros [H1 H2 H3 H4 H5 H6] [P1 P2 P3 P4 _ _ _]. split; [done|apply list_subseteq_nil|constructor|done|..].
  - intros l Hl. destruct (P2 l Hl) as [H|(y & Hy & Hw & ->)]; [auto|]. exists y. split; [auto|]. split; [|done].
    rewrite Forall_forall in H3. apply H3. by apply list_elem_of_In.
  - intros y Hy Ht Hw. destruct (H6 y Hy Ht Hw) as [H|[H|H]]; auto.
Qed.

(** What the sender drops from its list, since the other has it as well, is not
    wanted there. *)
Lemma progress_drop db_r db_s told U V sum sent req sent_r req_s sum1 req1 :
  (forall y, y ∈ V -> ospf_lsa_lookup_by_header db_r (lsa_data y) = Some y) ->
  (forall y, y ∈ U -> lsa_wf y) -> (forall y, y ∈ V -> lsa_wf y) -> sent_r ⊆ V ->
  progress db_r told U sum sent req -> processed db_s V sent_r sum req_s sum1 req1 ->
  progress db_r told U sum1 sent req.
Proof.
  intros Hlook HwU HwV Hsr [H1 H2 H3 H4 H5 H6] [_ _ _ _ P5 P6 _]. split; [set_solver|done..|].
  intros y Hy Ht Hw. destruct (H6 y Hy Ht Hw) as [H|H]; [|by right].
  destruct (decide (y ∈ sum1)) as [Hi|Hi]; [by left|]. exfalso.
  destruct (P6 y H Hi) as (z & Hz & Hl & Hr). specialize (Hsr z Hz).
  assert (Ek : key_of y = key_of z).
  { unfold ospf_lsa_lookup_by_header, ospf_lsa_lookup in Hl.
    repeat case_match; try done; by apply lsdb_lookup_some in Hl as [_ ?]. }
  unfold wanted in Hw. rewrite (lookup_by_key db_r y z) in Hw by auto. rewrite (Hlook z Hsr) in Hw.
  rewrite more_recent_antisym in Hw. lia.
Qed.

Lemma progress_end db told U req l :
  progress db told U [] [] req ->
  l ∈ req <-> exists y, y ∈ U /\ told y = true /\ wanted db y /\ l = request y.
Proof.
  intros [_ _ _ _ H5 H6]. split; [apply H5|]. intros (y & Hy & Ht & Hw & ->).
  destruct (H6 y Hy Ht Hw) as [H|[H|H]]; [by apply elem_of_nil in H..|done].
Qed.

Lemma progress_requests db told U sum sent req : progress db told U sum sent req -> requests_from U req.
Proof. intros [_ _ _ H4 H5 _]. split; [done|]. intros l Hl. destruct (H5 l Hl) as (y & ? & _ & _ & ->). eauto. Qed.

(** ** The link *)

Record link := mkLink {
  lk_m : ospf_interface;
  lk_s : ospf_interface;
  lk_to_m : list ospf_db_desc_packet;
  lk_to_s : list ospf_db_desc_packet
}.

Section Link.
  Context (om os : ospf_instance) (rnd : Z) (recent : bool).

Definition deliver_m (dd : ospf_db_desc_packet) (q : list ospf_db_desc_packet) (l : link) : outcome link :=
  '(oi, ps) ← dd_receive om rnd recent (peer_key (lk_m l) (lk_s l)) (lk_s l) dd (lk_m l);
  Ret (mkLink oi (lk_s l) q (lk_to_s l ++ ps)).

Definition deliver_s (dd : ospf_db_desc_packet) (q : list ospf_db_desc_packet) (l : link) : outcome link :=
  '(oi, ps) ← dd_receive os rnd recent (peer_key (lk_s l) (lk_m l)) (lk_m l) dd (lk_s l);
  Ret (mkLink (lk_m l) oi (lk_to_m l ++ ps) q).

(** A packet is delivered; [b] decides when both directions have one. *)
Definition dd_step (b : bool) (l : link) : outcome link :=
  match lk_to_m l, lk_to_s l with
  | [], [] => Ret l
  | dd :: q, [] => deliver_m dd q l
  | [], dd :: q => deliver_s dd q l
  | dd1 :: q1, dd2 :: q2 => if b then deliver_m dd1 q1 l else deliver_s dd2 q2 l
  end.

Fixpoint dd_run (sched : list bool) (l : link) : outcome link :=
  match sched with
  | [] => Ret l
  | b :: sched' => l ← dd_step b l; dd_run sched' l
  end.
End Link.

(** ** The sides *)

(** A router [o] that starts an exchange with [peer], its neighbor [x]. *)
Record side_ok (ospf : ospf_instance) (o : ospf_interface) (peer_ospf : ospf_instance) (peer : ospf_interface)
    (x : ospf_neighbor) : Prop := mkSide {
  sd_find : nbr_find (peer_key o peer) o = Some x;
  sd_self : peer_key o peer <> oi_nbr_self o;
  sd_keyed : keyed o;
  sd_started : started peer x;
  sd_accepts : accepted (o_conf ospf) (dd_mtu_sent (o_conf peer_ospf) peer) (dd_own_options (o_conf peer_ospf) peer);
  sd_opaque : opaque_ok (o_conf ospf) o;
  sd_db : db_ok (o_lsdb ospf);
  sd_room : OSPF_DB_DESC_MIN_SIZE + OSPF_LSA_HEADER_SIZE <= c_packet_max (o_conf ospf)
}.

(** The options that [o] sees of its peer. *)
Definition seen (ospf : ospf_instance) (o : ospf_interface) (peer_ospf : ospf_instance) (peer : ospf_interface)
    (x : ospf_neighbor) : Z :=
  dd_seen_options (o_conf ospf) o x (dd_own_options (o_conf peer_ospf) peer).

(** The LSAs that [o] describes to its peer. *)
Definition describes (ospf : ospf_instance) (o : ospf_interface) (peer_ospf : ospf_instance)
    (peer : ospf_interface) (x : ospf_neighbor) (y : ospf_lsa) : Prop :=
  described (o_lsdb ospf) (normal_area o) (seen ospf o peer_ospf peer x) y.

Definition is_summary (ospf : ospf_instance) (o : ospf_interface) (peer_ospf : ospf_instance)
    (peer : ospf_interface) (x : ospf_neighbor) (U : list ospf_lsa) : Prop :=
  lsdb_ok U /\ forall y, y ∈ U <-> describes ospf o peer_ospf peer x y.

Section Side.
  Context (ospf : ospf_instance) (o : ospf_interface) (peer_ospf : ospf_instance) (peer : ospf_interface)
    (x px : ospf_neighbor) (U : list ospf_lsa).
  Hypothesis (Hside : side_ok ospf o peer_ospf peer x) (Hpeer : side_ok peer_ospf peer ospf o px)
    (Harea : oi_external_routing o = oi_external_routing peer)
    (HU : is_summary peer_ospf peer ospf o px U).

Lemma side_at_rest : at_rest o (peer_key o peer) x o.
Proof using Hside. destruct Hside. eexists _, _. by split. Qed.

Lemma summary_wf y : y ∈ U -> lsa_wf y.
Proof using Hpeer HU. intros Hy. apply HU in Hy as [Hy _]. by eapply shown_wf; [apply Hpeer|]. Qed.

Lemma summary_lookup y : y ∈ U -> ospf_lsa_lookup_by_header (o_lsdb peer_ospf) (lsa_data y) = Some y.
Proof using Hpeer HU. intros Hy. apply HU in Hy as [Hy _]. by eapply shown_lookup; [apply Hpeer|]. Qed.

(** What the peer describes is not refused. *)
Lemma summary_told z y :
  n_options z = seen ospf o peer_ospf peer x -> y ∈ U -> told_by (o_conf peer_ospf) peer y = true ->
  dd_refused (oi_external_routing o) z (adv_header y) = false.
Proof using Hside Hpeer Harea HU.
  intros Hz Hy Ht. apply HU in Hy as [Hy _]. apply shown_elem in Hy as (_ & Hr & Ho & Hn & _).
  unfold dd_refused. change (ls_type (adv_header y)) with (ls_type (lsa_data y)).
  destruct (Z.ltb_spec (ls_type (lsa_data y)) OSPF_MIN_LSA), (Z.leb_spec OSPF_MAX_LSA (ls_type (lsa_data y))); try lia.
  cbn [orb]. apply orb_false_iff. split.
  - destruct (IS_OPAQUE_LSA (ls_type (lsa_data y))) eqn:Eo; [|done]. specialize (Ho eq_refl).
    unfold seen in *. rewrite seen_opaque in Ho. rewrite Hz, seen_opaque. apply andb_true_iff in Ho as [H1 H2].
    rewrite own_opaque in * by (apply Hside || apply Hpeer). by rewrite H1, H2.
  - destruct (_ || _); [|done]. specialize (Hn eq_refl). unfold normal_area in Hn.
    apply andb_true_iff in Hn as [_ Hn]. rewrite Harea. apply Z.eqb_eq in Hn. by rewrite Hn.
Qed.
End Side.

(** ** A packet that is sent makes progress *)

Lemma take_length ospf o peer_ospf peer x sum :
  side_ok ospf o peer_ospf peer x ->
  (length (snd (dd_take (o_conf ospf) o sum)) <= length sum)%nat
  /\ (nonempty sum = true -> (length (snd (dd_take (o_conf ospf) o sum)) < length sum)%nat).
Proof.
  intros H. destruct (dd_take (o_conf ospf) o sum) as [hs rest] eqn:E. cbn [snd]. split.
  - apply dd_fill_spec in E as (sent & _ & [_ _ _ _ F]). lia.
  - intros Hs. eapply dd_fill_progress; [exact E|apply H|]. by destruct sum.
Qed.

(** ** The turns of the exchange *)

Section Phases.
  Context (om os : ospf_instance) (rnd : Z) (recent : bool) (m s : ospf_interface) (xm xs : ospf_neighbor).
  Hypothesis (Hm : side_ok om m os s xm) (Hs : side_ok os s om m xs)
    (Harea : oi_external_routing m = oi_external_routing s) (Hid : oi_router_id s < oi_router_id m).
Let nm := peer_key m s.
Let ns := peer_key s m.
Let m_packet := mkDD (dd_mtu_sent (o_conf om) m) (dd_own_options (o_conf om) m).
Let s_packet := mkDD (dd_mtu_sent (o_conf os) s) (dd_own_options (o_conf os) s).
Let told_m := told_by (o_conf om) m.
Let told_s := told_by (o_conf os) s.
Let m_entry := entry_is om m (dd_own_options (o_conf os) s) xm.
Let s_entry := entry_is os s (dd_own_options (o_conf om) m) xs.

Definition budget (sm ss : list ospf_lsa) (mm ms : bool) : nat :=
  (length sm + length ss + Nat.b2n mm + Nat.b2n ms)%nat.

(** A packet of the master is on its way.  [b] bounds the rounds that are left. *)
Definition slave_turn (Um Us : list ospf_lsa) (b : nat) (oim ois : ospf_interface) (pkt : ospf_db_desc_packet) : Prop :=
  exists x y q sm rqm rm mm ss rqs rs ms sent,
    at_rest m nm x oim /\ m_entry x NSM_Exchange (u32 (q + 1)) (master_flags mm) sm rqm rm
    /\ IS_SET_DD_MS (rv_flags rm) = false /\ rv_seqnum rm = q
    /\ at_rest s ns y ois /\ s_entry y NSM_Exchange q (slave_flags ms) ss rqs rs
    /\ IS_SET_DD_MS (rv_flags rs) = true /\ rv_seqnum rs = q
    /\ pkt = m_packet (master_flags mm) (u32 (q + 1)) (map adv_header sent)
    /\ progress (o_lsdb os) told_m Um sm sent rqs /\ progress (o_lsdb om) told_s Us ss [] rqm
    /\ (mm = false -> sm = []) /\ (ms = false -> ss = []) /\ (budget sm ss mm ms <= b)%nat.

(** An answer of the slave is on its way. *)
Definition master_turn (Um Us : list ospf_lsa) (b : nat) (oim ois : ospf_interface) (pkt : ospf_db_desc_packet) : Prop :=
  exists x y q sm rqm rm mm ss rqs rs ms sent,
    at_rest m nm x oim /\ m_entry x NSM_Exchange q (master_flags mm) sm rqm rm
    /\ IS_SET_DD_MS (rv_flags rm) = false /\ rv_seqnum rm <> q
    /\ at_rest s ns y ois
    /\ s_entry y (if negb mm && negb ms then after_exchange rqs else NSM_Exchange) q (slave_flags ms) ss rqs rs
    /\ IS_SET_DD_MS (rv_flags rs) = true /\ rv_seqnum rs = q
    /\ pkt = s_packet (slave_flags ms) q (map adv_header sent)
    /\ progress (o_lsdb os) told_m Um sm [] rqs /\ progress (o_lsdb om) told_s Us ss sent rqm
    /\ (mm = false -> sm = []) /\ (ms = false -> ss = [])
    /\ (budget sm ss mm ms + Nat.b2n (ms && negb mm) <= b)%nat.

Definition finished (Um Us : list ospf_lsa) (oim ois : ospf_interface) : Prop :=
  exists x y qm qs rqm rm rqs rs,
    at_rest m nm x oim /\ m_entry x (after_exchange rqm) qm (master_flags false) [] rqm rm
    /\ at_rest s ns y ois /\ s_entry y (after_exchange rqs) qs (slave_flags false) [] rqs rs
    /\ progress (o_lsdb os) told_m Um [] [] rqs /\ progress (o_lsdb om) told_s Us [] [] rqm.

  Context (Um Us : list ospf_lsa).
  Hypothesis (HUm : is_summary om m os s xm Um) (HUs : is_summary os s om m xs Us).

Lemma slave_step b oim ois pkt :
  slave_turn Um Us b oim ois pkt ->
  exists ois' pkt', dd_receive os rnd recent ns m pkt ois = Ret (ois', [pkt']) /\ master_turn Um Us b oim ois' pkt'.
Proof using Hm Hs Harea Hid HUm HUs.
  intros (x & y & q & sm & rqm & rm & mm & ss & rqs & rs & ms & sent & Rx & Ex & Frm & Qrm & Ry & Ey & Frs & Qrs
          & -> & Pm & Ps & Zm & Zs & Hb).
  destruct (slave_hears os rnd recent s m (dd_mtu_sent (o_conf om) m) (dd_own_options (o_conf om) m) xs
              (sd_accepts _ _ _ _ _ Hs) Um told_m (proj1 HUm) (summary_wf _ _ _ _ _ _ Hm HUm)
              (summary_told os s om m xs xm Um Hs Hm (eq_sym Harea) HUm)
              ois y q ss rqs rs ms mm sent Ry Ey Frs Qrs (pg_sent _ _ _ _ _ _ Pm) (pg_told _ _ _ _ _ _ Pm)
              (progress_requests _ _ _ _ _ _ Pm)) as (ss1 & rqs1 & ois' & y' & P & E & Ry' & Ey').
  pose proof (progress_receive _ _ _ _ _ _ _ _ _ _ Pm P) as Pm'.
  pose proof (progress_drop _ _ _ _ _ _ _ _ _ _ _ _ (summary_lookup _ _ _ _ _ _ Hm HUm)
                (summary_wf _ _ _ _ _ _ Hs HUs) (summary_wf _ _ _ _ _ _ Hm HUm) (pg_sent _ _ _ _ _ _ Pm) Ps P) as Ps1.
  pose proof (take_length _ _ _ _ _ ss1 Hs) as [L1 L2]. pose proof (pr_length _ _ _ _ _ _ _ P) as L3.
  unfold dd_next in E. destruct (dd_take (o_conf os) s ss1) as [hs rest] eqn:Et. cbn [fst snd] in *.
  rewrite slave_flags_after in E. destruct (progress_send _ _ _ _ _ _ _ _ Ps1 Et) as (sent' & -> & Ps').
  exists ois'. eexists. split; [exact E|].
  exists x, y', (u32 (q + 1)), sm, rqm, rm, mm, rest, rqs1, (mkReceived (seen os s om m xs) (master_flags mm) (u32 (q + 1))),
    (ms && nonempty rest), sent'.
  split_and!; try done.
  - rewrite Qrm. intros E1. symmetry in E1. by apply next_seqnum in E1.
  - by destruct mm.
  - intros Hf. destruct ms; [by destruct rest|]. rewrite (Zs eq_refl) in L3. cbn in L3, L1.
    destruct ss1; [|cbn in L3; lia]. by destruct rest; [|cbn in L1; lia].
  - unfold budget in *. destruct ms, rest as [|r rest], mm; cbn [nonempty andb negb Nat.b2n length] in *;
      try (specialize (Zs eq_refl); subst ss); try (assert (nonempty ss1 = true) by (destruct ss1; [cbn in L1; lia|done])); cbn [length] in *; try lia;
      specialize (L2 ltac:(done)); lia.
Qed.

Lemma master_step b oim ois pkt :
  master_turn Um Us b oim ois pkt ->
  exists oim' ps, dd_receive om rnd recent nm s pkt oim = Ret (oim', ps)
    /\ (ps = [] /\ finished Um Us oim' ois
        \/ exists pkt' b', ps = [pkt'] /\ b = S b' /\ slave_turn Um Us b' oim' ois pkt').
Proof using Hm Hs Harea Hid HUm HUs.
  intros (x & y & q & sm & rqm & rm & mm & ss & rqs & rs & ms & sent & Rx & Ex & Frm & Qrm & Ry & Ey & Frs & Qrs
          & -> & Pm & Ps & Zm & Zs & Hb).
  destruct (master_hears om rnd recent m s (dd_mtu_sent (o_conf os) s) (dd_own_options (o_conf os) s) xm
              (sd_accepts _ _ _ _ _ Hm) Us told_s (proj1 HUs) (summary_wf _ _ _ _ _ _ Hs HUs)
              (summary_told om m os s xm xs Us Hm Hs Harea HUs)
              oim x q sm rqm rm ms mm sent Rx Ex Frm Qrm (pg_sent _ _ _ _ _ _ Ps) (pg_told _ _ _ _ _ _ Ps)
              (progress_requests _ _ _ _ _ _ Ps)) as (sm1 & rqm1 & oim' & x' & P & Rx' & Ex').
  pose proof (progress_receive _ _ _ _ _ _ _ _ _ _ Ps P) as Ps'.
  pose proof (progress_drop _ _ _ _ _ _ _ _ _ _ _ _ (summary_lookup _ _ _ _ _ _ Hs HUs)
                (summary_wf _ _ _ _ _ _ Hm HUm) (summary_wf _ _ _ _ _ _ Hs HUs) (pg_sent _ _ _ _ _ _ Ps) Pm P) as Pm1.
  pose proof (take_length _ _ _ _ _ sm1 Hm) as [L1 L2]. pose proof (pr_length _ _ _ _ _ _ _ P) as L3.
  exists oim'. destruct (negb ms && negb mm) eqn:Ed; cbv zeta in Ex'.
  - apply andb_true_iff in Ed as [E1 E2]. apply negb_true_iff in E1, E2. subst ms mm.
    specialize (Zm eq_refl). specialize (Zs eq_refl). subst sm ss. destruct sm1; [|cbn in L3; lia].
    destruct Ex' as [E Ex']. eexists. split; [exact E|]. left. split; [done|].
    eexists x', y, _, _, rqm1, _, rqs, _. split_and!; [exact Rx'|exact Ex'|exact Ry|exact Ey|exact Pm1|exact Ps'].
  - destruct Ex' as [E Ex']. unfold dd_next in E. destruct (dd_take (o_conf om) m sm1) as [hs rest] eqn:Et.
    cbn [fst snd] in *. rewrite master_flags_after in E.
    destruct (progress_send _ _ _ _ _ _ _ _ Pm1 Et) as (sent' & -> & Pm').
    eexists. split; [exact E|]. right. exists (m_packet (master_flags (mm && nonempty rest)) (u32 (q + 1)) (map adv_header sent')).
    assert (Hr : mm = false -> rest = []).
    { intros E1. rewrite (Zm E1) in L3. destruct sm1; [|cbn in L3; lia]. by destruct rest; [|cbn in L1; lia]. }
    destruct b as [|b]; [exfalso|].
    { unfold budget in Hb. destruct mm, ms; cbn in Hb, Ed; try done; lia. }
    exists b. split; [done|]. split; [done|].
    exists x', y, q, rest, rqm1, (mkReceived (seen om m os s xm) (slave_flags ms) q), (mm && nonempty rest), ss, rqs, rs, ms, sent'.
    replace (negb mm && negb ms) with false in Ey by (by rewrite andb_comm).
    split_and!; try done.
    + by destruct ms.
    + intros E1. destruct mm; [by destruct rest|auto].
    + unfold budget in *. destruct mm; [|rewrite (Hr eq_refl)].
      * destruct rest as [|r rest]; cbn [nonempty andb Nat.b2n negb length] in *; [lia|].
        specialize (L2 ltac:(by destruct sm1; [cbn in L1; lia|])). lia.
      * destruct ms; [|done]. cbn [nonempty andb Nat.b2n negb length] in *. lia.
Qed.

End Phases.

(** ** The start *)

Section Start.
  Context (om os : ospf_instance) (rnd : Z) (recent : bool) (m s : ospf_interface) (xm xs : ospf_neighbor).
  Hypothesis (Hm : side_ok om m os s xm) (Hs : side_ok os s om m xs)
    (Harea : oi_external_routing m = oi_external_routing s) (Hid : oi_router_id s < oi_router_id m).
Let nm := peer_key m s.
Let ns := peer_key s m.
Let m_packet := mkDD (dd_mtu_sent (o_conf om) m) (dd_own_options (o_conf om) m).
Let s_packet := mkDD (dd_mtu_sent (o_conf os) s) (dd_own_options (o_conf os) s).
Let told_s := told_by (o_conf os) s.

(** The first answer of the slave is on its way. *)
Definition answer_turn (Us : list ospf_lsa) (oim ois : ospf_interface) (pkt : ospf_db_desc_packet) : Prop :=
  let q := n_dd_seqnum xm in
  exists y ss rs ms sent,
    at_rest m nm xm oim /\ at_rest s ns y ois
    /\ entry_is os s (dd_own_options (o_conf om) m) xs y NSM_Exchange q (slave_flags ms) ss [] rs
    /\ IS_SET_DD_MS (rv_flags rs) = true /\ rv_seqnum rs = q
    /\ pkt = s_packet (slave_flags ms) q (map adv_header sent)
    /\ progress (o_lsdb om) told_s Us ss sent [] /\ (ms = false -> ss = []) /\ (length ss <= length Us)%nat.

Lemma start_slave oim ois :
  at_rest m nm xm oim -> at_rest s ns xs ois ->
  exists Us ois' pkt, is_summary os s om m xs Us
    /\ dd_receive os rnd recent ns m (m_packet first_flags (n_dd_seqnum xm) []) ois = Ret (ois', [pkt])
    /\ answer_turn Us oim ois' pkt.
Proof using Hm Hs Hid.
  intros Rx Ry. set (q := n_dd_seqnum xm).
  assert (Hnil : forall y : ospf_lsa, y ∈ [] -> lsa_wf y) by (intros y Hy; by apply elem_of_nil in Hy).
  destruct (slave_starts os rnd recent s m (sd_db _ _ _ _ _ Hs) (dd_mtu_sent (o_conf om) m)
              (dd_own_options (o_conf om) m) xs (sd_accepts _ _ _ _ _ Hs) [] (fun _ => false)
              (SSorted_nil _) Hnil ltac:(done) ois q Ry (sd_started _ _ _ _ _ Hs) Hid)
    as (Us & ss1 & rq1 & ois' & y & Hok & Hel & P & E & Ry' & Ey).
  assert (HUs : is_summary os s om m xs Us) by done.
  assert (rq1 = []) as ->.
  { destruct rq1 as [|l rq1]; [done|].
    destruct (pr_req _ _ _ _ _ _ _ P l ltac:(by left)) as [H|(z & H & _)]; by apply elem_of_nil in H. }
  assert (Ps1 : progress (o_lsdb om) told_s Us ss1 [] []).
  { eapply progress_drop; [..|apply progress_start|exact P]; [|apply (summary_wf _ _ _ _ _ _ Hs HUs)|exact Hnil|done].
    intros z Hz. by apply elem_of_nil in Hz. }
  pose proof (take_length _ _ _ _ _ ss1 Hs) as [L1 _]. pose proof (pr_length _ _ _ _ _ _ _ P) as L3.
  cbv zeta in Ey. unfold dd_next in E. destruct (dd_take (o_conf os) s ss1) as [hs rest] eqn:Et. cbn [fst snd] in *.
  rewrite slave_flags_after in E. destruct (progress_send _ _ _ _ _ _ _ _ Ps1 Et) as (sent & -> & Ps').
  exists Us, ois'. eexists. split; [done|]. split; [exact E|].
  eexists y, rest, _, (nonempty rest), sent. split_and!; [done|done|exact Ey|done..|by destruct rest|lia].
Qed.

Lemma start_master Us oim ois pkt :
  is_summary os s om m xs Us -> answer_turn Us oim ois pkt ->
  exists Um oim' pkt', is_summary om m os s xm Um
    /\ dd_receive om rnd recent nm s pkt oim = Ret (oim', [pkt'])
    /\ slave_turn om os m s xm xs Um Us (length Um + length Us + 2)%nat oim' ois pkt'.
Proof using Hm Hs Harea Hid.
  intros HUs (y & ss & rs & ms & sent & Rx & Ry & Ey & Frs & Qrs & -> & Ps & Zs & Ls).
  destruct (master_starts om rnd recent m s (sd_db _ _ _ _ _ Hm) (dd_mtu_sent (o_conf os) s)
              (dd_own_options (o_conf os) s) xm (sd_accepts _ _ _ _ _ Hm) Us told_s (proj1 HUs)
              (summary_wf _ _ _ _ _ _ Hs HUs) (summary_told om m os s xm xs Us Hm Hs Harea HUs)
              oim ms sent Rx (sd_started _ _ _ _ _ Hm) Hid (pg_sent _ _ _ _ _ _ Ps) (pg_told _ _ _ _ _ _ Ps))
    as (Um & sm1 & rqm & oim' & x & Hok & Hel & P & E & Rx' & Ex).
  assert (HUm : is_summary om m os s xm Um) by done.
  pose proof (progress_receive _ _ _ _ _ _ _ _ _ _ Ps P) as Ps'.
  assert (Pm1 : progress (o_lsdb os) (told_by (o_conf om) m) Um sm1 [] []).
  { eapply progress_drop; [..|apply progress_start|exact P];
      [apply (summary_lookup _ _ _ _ _ _ Hs HUs)|apply (summary_wf _ _ _ _ _ _ Hm HUm)
      |apply (summary_wf _ _ _ _ _ _ Hs HUs)|apply Ps]. }
  pose proof (take_length _ _ _ _ _ sm1 Hm) as [L1 _]. pose proof (pr_length _ _ _ _ _ _ _ P) as L3.
  cbv zeta in Ex. unfold dd_next in E. destruct (dd_take (o_conf om) m sm1) as [hs rest] eqn:Et. cbn [fst snd] in *.
  rewrite master_flags_after in E. destruct (progress_send _ _ _ _ _ _ _ _ Pm1 Et) as (sent' & -> & Pm').
  exists Um, oim'. eexists. split; [done|]. split; [exact E|].
  eexists x, y, (n_dd_seqnum xm), rest, rqm, _, (nonempty rest), ss, [], rs, ms, sent'.
  split_and!; [done|exact Ex|by destruct ms|done..|by destruct rest|done|].
  unfold budget. destruct (nonempty rest), ms; cbn [Nat.b2n]; lia.
Qed.
End Start.
