(* ===== verification/OspfSync.v ===== *)
(** * The database exchange ends, and what is requested

    Every schedule of [OspfExchange.dd_run] that is long enough ends the exchange;
    which LSAs are then on the request lists, and a pair of databases whose
    difference neither router requests. *)

From S2P Require Import Prelude OspfLsa OspfIsm OspfElection OspfNsm OspfStation OspfLan OspfHello OspfDbDesc OspfDbDescFacts OspfPeer OspfRoles OspfExchange.
From Stdlib Require Import Sorting.Sorted.

(** ** Running a link *)

Section Run.
  Context (om os : ospf_instance) (rnd : Z) (recent : bool) (m s : ospf_interface) (xm xs : ospf_neighbor).
  Hypothesis (Hm : side_ok om m os s xm) (Hs : side_ok os s om m xs)
    (Harea : oi_external_routing m = oi_external_routing s) (Hid : oi_router_id s < oi_router_id m).
Let nm := peer_key m s.
Let ns := peer_key s m.
Let run := dd_run om os rnd recent.

Lemma rest_key oim ois x y :
  at_rest m nm x oim -> at_rest s ns y ois ->
  (forall dd oi, dd_receive om rnd recent (peer_key oim ois) ois dd oi = dd_receive om rnd recent nm s dd oi)
  /\ (forall dd oi, dd_receive os rnd recent (peer_key ois oim) oim dd oi = dd_receive os rnd recent ns m dd oi).
Proof using.
  intros (ps & ev & H1) (ps' & ev' & H2). apply hd_view in H1, H2.
  pose proof (view_key _ _ H1) as K1. pose proof (view_key _ _ H2) as K2.
  unfold view in H1, H2. injection H1 as _ _ R1 A1 _ _. injection H2 as _ _ R2 A2 _ _.
  unfold peer_key, dd_receive, nm, ns, peer_key. by rewrite K1, K2, R1, R2, A1, A2.
Qed.

Lemma step_m b oim ois x y dd q to_s oi' ps :
  at_rest m nm x oim -> at_rest s ns y ois -> dd_receive om rnd recent nm s dd oim = Ret (oi', ps) ->
  to_s = [] \/ b = true ->
  dd_step om os rnd recent b (mkLink oim ois (dd :: q) to_s) = Ret (mkLink oi' ois q (to_s ++ ps)).
Proof using.
  intros H1 H2 E Hb. unfold dd_step, deliver_m. cbn [lk_to_m lk_to_s lk_m lk_s].
  rewrite (proj1 (rest_key _ _ _ _ H1 H2)), E. destruct Hb as [->| ->]; [done|by destruct to_s].
Qed.

Lemma step_s b oim ois x y dd q to_m oi' ps :
  at_rest m nm x oim -> at_rest s ns y ois -> dd_receive os rnd recent ns m dd ois = Ret (oi', ps) ->
  to_m = [] \/ b = false ->
  dd_step om os rnd recent b (mkLink oim ois to_m (dd :: q)) = Ret (mkLink oim oi' (to_m ++ ps) q).
Proof using.
  intros H1 H2 E Hb. unfold dd_step, deliver_s. cbn [lk_to_m lk_to_s lk_m lk_s].
  rewrite (proj2 (rest_key _ _ _ _ H1 H2)), E. destruct Hb as [->| ->]; [done|by destruct to_m].
Qed.

Lemma run_idle sched oim ois : run sched (mkLink oim ois [] []) = Ret (mkLink oim ois [] []).
Proof using. by induction sched as [|b sched IH]. Qed.

Definition ends (Um Us : list ospf_lsa) (sched : list bool) (l : link) : Prop :=
  exists oim ois, run sched l = Ret (mkLink oim ois [] []) /\ finished om os m s xm xs Um Us oim ois.

Lemma run_turns Um Us : is_summary om m os s xm Um -> is_summary os s om m xs Us ->
  forall b sched oim ois pkt, slave_turn om os m s xm xs Um Us b oim ois pkt -> (2 * b + 2 <= length sched)%nat ->
  ends Um Us sched (mkLink oim ois [] [pkt]).
Proof using Hm Hs Harea Hid.
  intros HUm HUs. induction b as [b IH] using lt_wf_ind. intros [|c1 [|c2 sched]] oim ois pkt H Hl; cbn in Hl; [lia..|].
  destruct (slave_step om os rnd recent m s xm xs Hm Hs Harea Hid Um Us HUm HUs _ _ _ _ H) as (ois' & pkt' & E1 & H1).
  pose proof H as (x & y & _ & _ & _ & _ & _ & _ & _ & _ & _ & _ & Rx & _ & _ & _ & Ry & _).
  pose proof H1 as (x1 & y1 & _ & _ & _ & _ & _ & _ & _ & _ & _ & _ & Rx1 & _ & _ & _ & Ry1 & _).
  destruct (master_step om os rnd recent m s xm xs Hm Hs Harea Hid Um Us HUm HUs _ _ _ _ H1) as (oim' & ps & E2 & H2).
  unfold ends, run. cbn [dd_run]. rewrite (step_s c1 _ _ _ _ _ [] [] _ _ Rx Ry E1) by auto. cbn [app mbind outcome_bind].
  rewrite (step_m c2 _ _ _ _ _ [] [] _ _ Rx1 Ry1 E2) by auto. cbn [app mbind outcome_bind].
  destruct H2 as [[-> H2]|(pkt2 & b' & -> & -> & H2)].
  - exists oim', ois'. split; [apply run_idle|done].
  - apply (IH b' ltac:(lia) sched _ _ _ H2). lia.
Qed.

(** The packet that started the exchange. *)
Definition opening (ospf : ospf_instance) (o : ospf_interface) (x : ospf_neighbor) : ospf_db_desc_packet :=
  mkDD (dd_mtu_sent (o_conf ospf) o) (dd_own_options (o_conf ospf) o) (n_dd_flags x) (n_dd_seqnum x) [].

Definition answered (Us : list ospf_lsa) (k : nat) (sched : list bool) (l : link) : Prop :=
  exists Um, is_summary om m os s xm Um /\ ((2 * (length Um + length Us) + k <= length sched)%nat -> ends Um Us sched l).

Lemma run_answer Us oim ois pkt sched :
  is_summary os s om m xs Us -> answer_turn om os m s xm xs Us oim ois pkt ->
  answered Us 7 sched (mkLink oim ois [pkt] []).
Proof using Hm Hs Harea Hid.
  intros HUs H. destruct (start_master om os rnd recent m s xm xs Hm Hs Harea Hid Us oim ois pkt HUs H)
    as (Um & oim' & pkt' & HUm & E & H'). exists Um. split; [done|]. intros Hl.
  destruct sched as [|c sched]; cbn in Hl; [lia|]. destruct H as (y & _ & _ & _ & _ & Rx & Ry & _).
  unfold ends, run. cbn [dd_run]. rewrite (step_m c _ _ _ _ _ [] [] _ _ Rx Ry E) by auto. cbn [app mbind outcome_bind].
  apply (run_turns Um Us HUm HUs _ _ _ _ _ H'). lia.
Qed.

Lemma run_start sched :
  exists Us, is_summary os s om m xs Us
    /\ answered Us 9 sched (mkLink m s [opening os s xs] [opening om m xm]).
Proof using Hm Hs Harea Hid.
  pose proof (side_at_rest _ _ _ _ _ Hm) as Rm. pose proof (side_at_rest _ _ _ _ _ Hs) as Rs.
  destruct (start_slave om os rnd recent m s xm xs Hm Hs Hid m s Rm Rs) as (Us & s' & pkt & HUs & E & H).
  destruct (master_ignores om rnd recent m s _ _ xm (sd_accepts _ _ _ _ _ Hm) m (n_dd_seqnum xs) Rm
              (sd_started _ _ _ _ _ Hm) Hid) as (m' & Ei & Rm').
  pose proof H as (y & ss & rs & ms & sent & _ & Rs' & H').
  assert (H1 : answer_turn om os m s xm xs Us m' s' pkt) by (exists y, ss, rs, ms, sent; split; [done|by split]).
  assert (Eo : opening os s xs = first_packet (dd_mtu_sent (o_conf os) s) (dd_own_options (o_conf os) s) (n_dd_seqnum xs)).
  { unfold opening, first_packet. by rewrite (st_flags _ _ (sd_started _ _ _ _ _ Hs)). }
  assert (Em : opening om m xm = mkDD (dd_mtu_sent (o_conf om) m) (dd_own_options (o_conf om) m) first_flags (n_dd_seqnum xm) []).
  { unfold opening. by rewrite (st_flags _ _ (sd_started _ _ _ _ _ Hm)). }
  exists Us. split; [done|]. rewrite Eo, Em.
  destruct sched as [|c1 [|c2 sched]].
  1,2: destruct (run_answer Us m' s' pkt [] HUs H1) as (Um & HUm & _); exists Um; split; [done|]; cbn; lia.
  destruct (run_answer Us m' s' pkt sched HUs H1) as (Um & HUm & Hrun). exists Um. split; [done|]. intros Hl.
  cbn [length] in Hl. specialize (Hrun ltac:(lia)). unfold ends, run in *. cbn [dd_run]. destruct c1.
  - rewrite (step_m true _ _ _ _ _ [] _ _ _ Rm Rs Ei) by auto. cbn [app mbind outcome_bind].
    by rewrite (step_s c2 _ _ _ _ _ [] [] _ _ Rm' Rs E) by auto.
  - rewrite (step_s false _ _ _ _ _ [] _ _ _ Rm Rs E) by auto. cbn [app mbind outcome_bind].
    by rewrite (step_m c2 _ _ _ _ _ [pkt] [] _ _ Rm Rs' Ei) by auto.
Qed.
End Run.

(** ** What the exchange leaves *)

(** The summary list is at most as long as the databases. *)
Definition lsdb_size (db : ospf_lsdb) : nat := (length (area_lsdb db) + length (as_lsdb db))%nat.

Lemma lsdb_nodup db : lsdb_ok db -> NoDup db.
Proof.
  induction 1 as [|l db _ IH Hf]; constructor; [|done]. intros Hl. apply list_elem_of_In in Hl.
  rewrite Forall_forall in Hf. specialize (Hf l Hl). unfold key_lt in Hf. lia.
Qed.

Lemma summary_length ospf o peer_ospf peer x U :
  is_summary ospf o peer_ospf peer x U -> (length U <= lsdb_size (o_lsdb ospf))%nat.
Proof.
  intros [Hok Hel]. unfold lsdb_size. rewrite <- length_app. apply NoDup_incl_length.
  - apply NoDup_ListNoDup. by apply lsdb_nodup.
  - intros y Hy. apply list_elem_of_In, Hel in Hy as [Hy _]. apply shown_elem in Hy as [Hy _].
    apply list_elem_of_In in Hy. apply in_app_iff. unfold home in Hy. case_match; auto.
Qed.

(** The entry of the peer after the exchange: the role is settled, everything is
    described, and the requests are the more recent LSAs of the peer. *)
Definition exchanged (ospf : ospf_instance) (o : ospf_interface) (peer_ospf : ospf_instance)
    (peer : ospf_interface) (px : ospf_neighbor) (master : bool) (oi : ospf_interface) : Prop :=
  exists z, nbr_find (peer_key o peer) oi = Some z
    /\ IS_SET_DD_MS (n_dd_flags z) = master /\ n_db_sum z = []
    /\ n_state z = match n_ls_req z with [] => NSM_Full | _ => NSM_Loading end
    /\ forall l, l ∈ n_ls_req z <->
         exists y, describes peer_ospf peer ospf o px y /\ told_by (o_conf peer_ospf) peer y = true
           /\ wanted (o_lsdb ospf) y /\ l = request y.

Lemma entry_exchanged ospf o peer_ospf peer x px U z master oi q flags req r :
  at_rest o (peer_key o peer) z oi ->
  entry_is ospf o (dd_own_options (o_conf peer_ospf) peer) x z (after_exchange req) q flags [] req r ->
  IS_SET_DD_MS flags = master -> is_summary peer_ospf peer ospf o px U ->
  progress (o_lsdb ospf) (told_by (o_conf peer_ospf) peer) U [] [] req ->
  exchanged ospf o peer_ospf peer px master oi.
Proof.
  intros (ps & ev & H) [Hs Hp] Hf [_ HU] P. unfold dd_part in Hp. injection Hp as Ho Hq Hfl Hsum Hr Hl.
  exists z. split; [apply H|]. rewrite Hfl, Hr. split_and!; [done..|].
  intros l. rewrite (progress_end _ _ _ _ _ P). setoid_rewrite HU. done.
Qed.

(** C3: a database exchange completes, whatever the order in which the packets of
    the two directions are delivered.  Two routers whose neighbor entries are in
    ExStart, each with its first Database Description packet on its way, with
    well-formed databases, acceptable MTU and options and room for one header in a
    packet: after at most two deliveries for each LSA and nine more no packet is on
    its way, the router with the larger identifier is the master and the other one
    the slave, both have described everything, each is Full when it has nothing to
    request and Loading otherwise, and its request list holds exactly the LSAs
    described by the other for which ospf_lsa_more_recent against its own database
    is -1, although descriptions are dropped from the summary lists on the way. *)
Theorem ospf_exchange_complete om os rnd recent m s xm xs sched
    (Hm : side_ok om m os s xm) (Hs : side_ok os s om m xs)
    (Harea : oi_external_routing m = oi_external_routing s) (Hid : oi_router_id s < oi_router_id m)
    (Hsched : (2 * (lsdb_size (o_lsdb om) + lsdb_size (o_lsdb os)) + 9 <= length sched)%nat) :
  exists oim ois,
    dd_run om os rnd recent sched (mkLink m s [opening os s xs] [opening om m xm]) = Ret (mkLink oim ois [] [])
    /\ exchanged om m os s xs true oim /\ exchanged os s om m xm false ois.
Proof.
  destruct (run_start om os rnd recent m s xm xs Hm Hs Harea Hid sched) as (Us & HUs & Um & HUm & Hrun).
  pose proof (summary_length _ _ _ _ _ _ HUs). pose proof (summary_length _ _ _ _ _ _ HUm).
  destruct Hrun as (oim & ois & E & x & y & qm & qs & rqm & rm & rqs & rs & Rx & Ex & Ry & Ey & Ps & Pm); [lia|].
  exists oim, ois. split; [done|]. split; [by eapply entry_exchanged|by eapply entry_exchanged].
Qed.

(** ** Two routers on a point-to-point link *)

Definition ex_lsa (type id seqnum checksum : Z) : ospf_lsa :=
  mkLsa (mkLsah 10 2 type id 1 seqnum checksum 36) 5 false false false false.

(** Two headers fit into a packet. *)
Definition ex_small_conf : hello_conf := mkHelloConf 24 10 40 false true false false 48 1500 false.

(** The interface of [rid] towards [peer], once Hellos were seen in both directions. *)
Definition ex_p2p (ospf : ospf_instance) (rid peer : Z) : ospf_interface :=
  let self := set_n_state NSM_TwoWay (set_n_options OSPF_OPTION_E (set_n_router_id rid (ospf_nbr_new rid))) in
  let nbr := set_n_state NSM_Init (set_n_options OSPF_OPTION_E (set_n_router_id peer (ospf_nbr_new peer))) in
  let oi := mkOi OSPF_IFTYPE_POINTOPOINT ISM_PointToPoint (rid + 100) rid 1 rid (nbr_insert self [nbr]) 0 0 1 None false
              false OSPF_AREA_DEFAULT false true false false 0 [] in
  match ospf_nsm_event ospf (1000 * rid) peer NSM_TwoWayReceived oi with Ret oi => oi | Abort => oi end.

Definition ex_nbr (oi : ospf_interface) (n : Z) : ospf_neighbor :=
  match nbr_find n oi with Some x => x | None => ospf_nbr_new n end.

Definition ex_ospf_m : ospf_instance :=
  mkOspf (mkLsdb [ex_lsa 1 1 5 100; ex_lsa 1 2 7 200; ex_lsa 2 9 3 300; ex_lsa 3 4 1 400] [ex_lsa 5 8 2 500]) ex_small_conf.
Definition ex_ospf_s : ospf_instance :=
  mkOspf (mkLsdb [ex_lsa 1 1 6 101; ex_lsa 1 2 7 200; ex_lsa 1 3 1 600; ex_lsa 2 9 2 299] [ex_lsa 5 7 4 700]) ex_small_conf.
Definition ex_m := ex_p2p ex_ospf_m 22 11.
Definition ex_s := ex_p2p ex_ospf_s 11 22.

Ltac solve_side :=
  split;
    [vm_compute; reflexivity | vm_compute; discriminate | unfold keyed; intros _; vm_compute; repeat constructor | split; vm_compute; reflexivity
    |split; [right; vm_compute; discriminate|vm_compute; reflexivity] | intros _; reflexivity
    |split; [repeat constructor..| |]; repeat constructor; vm_compute; (discriminate || reflexivity)
    |vm_compute; discriminate].

Lemma ospf_exchange_complete_witness :
  dd_packets 11 (oi_out ex_m) = [opening ex_ospf_m ex_m (ex_nbr ex_m 11)]
  /\ exists oim ois,
    dd_run ex_ospf_m ex_ospf_s 77 true (repeat true 29)
      (mkLink ex_m ex_s [opening ex_ospf_s ex_s (ex_nbr ex_s 22)] [opening ex_ospf_m ex_m (ex_nbr ex_m 11)])
    = Ret (mkLink oim ois [] [])
    /\ exchanged ex_ospf_m ex_m ex_ospf_s ex_s (ex_nbr ex_s 22) true oim
    /\ exchanged ex_ospf_s ex_s ex_ospf_m ex_m (ex_nbr ex_m 11) false ois.
Proof.
  split; [vm_compute; reflexivity|].
  apply (ospf_exchange_complete ex_ospf_m ex_ospf_s 77 true ex_m ex_s (ex_nbr ex_m 11) (ex_nbr ex_s 22)).
  - solve_side.
  - solve_side.
  - reflexivity.
  - reflexivity.
  - apply Nat.leb_le. vm_compute. reflexivity.
Defined.

(** ** A difference that is not requested *)

(** The two routers have instances of a router LSA with the same sequence number
    and different checksums. *)
Definition ex_checksum (checksum : Z) : ospf_instance :=
  mkOspf (mkLsdb [ex_lsa 1 1 5 checksum] []) ex_small_conf.

(** After a complete exchange the databases can still differ.  Both routers have
    an instance of the same LSA with equal sequence numbers; that of the slave has
    the larger checksum, so ospf_lsa_more_recent says that it is the more recent
    one, but its result is the difference of the checksums, not -1, and the master
    does not request it: both routers are Full, with nothing to request. *)
Theorem ospf_checksum_difference_not_requested :
  let om := ex_checksum 100 in
  let os := ex_checksum 300 in
  let m := ex_p2p om 22 11 in
  let s := ex_p2p os 11 22 in
  ospf_lsa_more_recent (ospf_lsa_lookup (o_lsdb om) 1 1 1) (ospf_lsa_lookup (o_lsdb os) 1 1 1) < 0
  /\ exists oim ois x y,
       dd_run om os 77 true (repeat true 13)
         (mkLink m s [opening os s (ex_nbr s 22)] [opening om m (ex_nbr m 11)]) = Ret (mkLink oim ois [] [])
       /\ nbr_find 11 oim = Some x /\ nbr_find 22 ois = Some y
       /\ n_state x = NSM_Full /\ n_state y = NSM_Full /\ n_ls_req x = [] /\ n_ls_req y = [].
Proof.
  split; [vm_compute; reflexivity|].
  eexists _, _, _, _. split; [vm_compute; reflexivity|]. split_and!; reflexivity.
Qed.
