(* ===== verification/OspfSpf.v ===== *)
(** * The shortest-path tree of an OSPF area (ospfd/ospf_spf.c)

    [ospf_spf_calculate] with its two stages: the tree of routers and transit
    networks, and the stub networks of its routers.  The calls that enter a route
    into the new routing table (ospf_route.c) are recorded in [sp_out].

    An LSA is its header with the links of a router LSA and the attached routers and
    mask of a network LSA, of which the code uses the ones that belong to its type; links
    have no TOS metrics.  A vertex is found by the key of its LSA: the vertices are
    a map, and the [stat] of an LSA is whether it is there and in the tree.  The
    queue of candidates is a skip list ordered by [vertex_cmp] and, between equal
    vertices, by their address: [alloc] gives the addresses of vertices in the order
    of their creation.  Addresses of IPv4 are in host order. *)

From stdpp Require Import gmap.
From S2P Require Import Prelude Prefix OspfLsa OspfIsm.

Definition LSA_LINK_TYPE_POINTOPOINT : Z := 1.
Definition LSA_LINK_TYPE_TRANSIT : Z := 2.
Definition LSA_LINK_TYPE_STUB : Z := 3.
Definition LSA_LINK_TYPE_VIRTUALLINK : Z := 4.
Definition ROUTER_LSA_VIRTUAL : Z := 4.
Definition OSPF_VERTEX_ROUTER : Z := 1.
Definition OSPF_VERTEX_NETWORK : Z := 2.

(** ** Data *)

Record router_lsa_link := mkRlink {
  l_link_id : Z;
  l_link_data : Z;
  l_type : Z;
  l_metric : Z
}.

Record area_lsa := mkAlsa {
  al_lsa : ospf_lsa;
  al_flags : Z;
  al_links : list router_lsa_link;
  al_routers : list Z;
  al_mask : Z
}.

Definition al_type (x : area_lsa) : Z := ls_type (lsa_data (al_lsa x)).
Definition al_id (x : area_lsa) : Z := ls_id (lsa_data (al_lsa x)).
Definition al_key (x : area_lsa) : Z := key_of (al_lsa x).

Record vertex_nexthop := mkHop { h_router : Z; h_lsa_pos : Z }.

#[global] Instance vertex_nexthop_eq_dec : EqDecision vertex_nexthop.
Proof. solve_decision. Defined.

(** A vertex as parent is its key. *)
Record vertex_parent := mkParent {
  vp_parent : Z;
  vp_backlink : Z;
  vp_nexthop : vertex_nexthop;
  vp_local_nexthop : option vertex_nexthop
}.

Record vertex := mkVertex {
  vx_lsa : area_lsa;
  vx_addr : Z;
  vx_distance : Z;
  vx_parents : list vertex_parent;
  vx_children : list Z;
  vx_processed : bool
}.

Definition set_vx_distance (d : Z) (x : vertex) : vertex :=
  mkVertex (vx_lsa x) (vx_addr x) d (vx_parents x) (vx_children x) (vx_processed x).
Definition set_vx_parents (l : list vertex_parent) (x : vertex) : vertex :=
  mkVertex (vx_lsa x) (vx_addr x) (vx_distance x) l (vx_children x) (vx_processed x).
Definition set_vx_children (l : list Z) (x : vertex) : vertex :=
  mkVertex (vx_lsa x) (vx_addr x) (vx_distance x) (vx_parents x) l (vx_processed x).
Definition set_vx_processed (b : bool) (x : vertex) : vertex :=
  mkVertex (vx_lsa x) (vx_addr x) (vx_distance x) (vx_parents x) (vx_children x) b.

Definition vx_type (x : vertex) : Z := al_type (vx_lsa x).
Definition vx_key (x : vertex) : Z := al_key (vx_lsa x).

(** An interface: its address and prefix length, the positions of its links in the
    router LSA, the neighbors by router identifier, its index, and the flag of an
    unnumbered address. *)
Record spf_interface := mkSpfOi {
  so_type : Z;
  so_address : Z;
  so_prefixlen : Z;
  so_lsa_pos_beg : Z;
  so_lsa_pos_end : Z;
  so_nbrs : list (Z * Z);
  so_ifindex : Z;
  so_unnumbered : bool
}.

Record ospf_vl_data := mkVl { vl_peer : Z; vl_approved : bool; vl_nexthop : vertex_nexthop }.

Inductive protected_resource :=
| ProtectLink (link : option router_lsa_link)
| ProtectNode (router_id : Z)
| ProtectUndefined.

(** [struct ospf_area], with what is read of [struct ospf]; [ar_local_oiflist] are
    the interfaces of all areas. *)
Record ospf_area := mkArea {
  ar_lsdb : list area_lsa;
  ar_oiflist : list spf_interface;
  ar_vlinks : list ospf_vl_data;
  ar_ti_lfa_enabled : bool;
  ar_protected : option protected_resource;
  ar_reversed : bool;
  ar_root_node : bool;
  ar_dry_run : bool;
  ar_id : Z;
  ar_external_routing : Z;
  ar_local_oiflist : list spf_interface
}.

Inductive spf_effect :=
| IntraAddTransit (v : Z)
| IntraAddRouter (v : Z)
| IntraAddStub (l : router_lsa_link) (v : Z) (parent_is_root : bool) (lsa_pos : Z).

(** [sp_tree] are the vertices in the tree, in the order in which they were
    reached; the others are candidates. *)
Record spf_state := mkSpf {
  sp_vertices : gmap Z vertex;
  sp_tree : list Z;
  sp_created : nat;
  sp_transit : bool;
  sp_out : list spf_effect
}.

(** ** Looking up LSAs *)

Definition lookup_router (a : ospf_area) (id : Z) : option area_lsa :=
  List.find (fun x => al_key x =? ls_key OSPF_ROUTER_LSA id id) (ar_lsdb a).

(** The first network LSA with the identifier, whoever originated it. *)
Definition lookup_network (a : ospf_area) (id : Z) : option area_lsa :=
  List.find (fun x => (al_type x =? OSPF_NETWORK_LSA) && (al_id x =? id)) (ar_lsdb a).

(** ** Links *)

Fixpoint index_of {A} (p : A -> bool) (i : Z) (l : list A) : Z :=
  match l with
  | [] => -1
  | x :: l' => if p x then i else index_of p (i + 1) l'
  end.

(** The index of a link from [w] back to [v], or -1. *)
Definition ospf_lsa_has_link (w v : area_lsa) : Z :=
  if al_type w =? OSPF_NETWORK_LSA then
    if al_type v =? OSPF_NETWORK_LSA then -1 else index_of (fun r => r =? al_id v) 0 (al_routers w)
  else if al_type w =? OSPF_ROUTER_LSA then
    index_of (fun l =>
      if (l_type l =? LSA_LINK_TYPE_POINTOPOINT) || (l_type l =? LSA_LINK_TYPE_VIRTUALLINK)
      then (al_type v =? OSPF_ROUTER_LSA) && (l_link_id l =? al_id v)
      else if l_type l =? LSA_LINK_TYPE_TRANSIT
      then (al_type v =? OSPF_NETWORK_LSA) && (l_link_id l =? al_id v)
      else false) 0 (al_links w)
  else -1.

(** [ospf_get_next_link]: the links from [v] to [w] in their order. *)
Definition next_links (v w : area_lsa) : list router_lsa_link :=
  let type := if al_type w =? OSPF_VERTEX_ROUTER then LSA_LINK_TYPE_POINTOPOINT else LSA_LINK_TYPE_TRANSIT in
  List.filter (fun l => (l_type l =? type) && (l_link_id l =? al_id w)) (al_links v).

Definition match_stub_prefix (lsa : area_lsa) (v_link_addr w_link_addr : Z) : bool :=
  (al_type lsa =? OSPF_ROUTER_LSA)
  && existsb (fun l => (l_type l =? LSA_LINK_TYPE_STUB)
       && (Z.land (l_link_id l) (l_link_data l) =? Z.land v_link_addr (l_link_data l))
       && (Z.land (l_link_id l) (l_link_data l) =? Z.land w_link_addr (l_link_data l))) (al_links lsa).

Definition ospf_spf_is_protected_resource (a : ospf_area) (link : router_lsa_link) (lsa : area_lsa) : bool :=
  match ar_protected a with
  | None | Some (ProtectLink None) | Some ProtectUndefined => false
  | Some (ProtectLink (Some p)) =>
      (l_type link =? LSA_LINK_TYPE_POINTOPOINT)
      && (Z.land (l_link_id p) (l_link_data p) =? Z.land (l_link_data link) (l_link_data p))
      || (l_type link =? LSA_LINK_TYPE_STUB)
         && (l_link_id p =? l_link_id link) && (l_link_data p =? l_link_data link)
  | Some (ProtectNode router_id) =>
      if router_id =? 0 then false
      else if (l_type link =? LSA_LINK_TYPE_POINTOPOINT) && (l_link_id link =? router_id) then true
      else if negb (l_type link =? LSA_LINK_TYPE_STUB) then false
      else existsb (fun l => (l_type l =? LSA_LINK_TYPE_POINTOPOINT) && (l_link_id l =? router_id)
             && (Z.land (l_link_id link) (l_link_data link) =? Z.land (l_link_data l) (l_link_data link)))
             (al_links lsa)
  end.

Definition get_reverse_distance (v : area_lsa) (l : router_lsa_link) (w : option area_lsa) : outcome Z :=
  match w with
  | None => Abort
  | Some w =>
      let distance := match List.find (fun k => (l_type k =? LSA_LINK_TYPE_POINTOPOINT)
                                               && (l_link_id k =? al_id v)) (al_links w) with
                      | Some k => l_metric k
                      | None => 0
                      end in
      Ret (if distance =? 0 then l_metric l else distance)
  end.

(** ** Next hops *)

(** [listnode_add_sort] with [vertex_parent_cmp]. *)
Fixpoint parent_insert (p : vertex_parent) (l : list vertex_parent) : list vertex_parent :=
  match l with
  | [] => [p]
  | x :: l' => if h_router (vp_nexthop p) <? h_router (vp_nexthop x) then p :: l else x :: parent_insert p l'
  end.

Definition ospf_spf_add_parent (v w : vertex) (newhop : vertex_nexthop) (newlhop : option vertex_nexthop)
    (distance : Z) : outcome vertex :=
  assert! negb (distance =? 0) ;;
  assert! (vx_distance w =? 0) || (distance <=? vx_distance w) ;;
  let w := if vx_distance w =? 0 then set_vx_distance distance w else w in
  let w := if distance <? vx_distance w then set_vx_distance distance (set_vx_parents [] w) else w in
  Ret (if existsb (fun p => bool_decide (vp_nexthop p = newhop)) (vx_parents w) then w
       else set_vx_parents
              (parent_insert (mkParent (vx_key v) (ospf_lsa_has_link (vx_lsa w) (vx_lsa v)) newhop newlhop)
                 (vx_parents w)) w).

Definition addr_bytes (a : Z) : list Z := [a / 16777216; (a / 65536) mod 256; (a / 256) mod 256; a mod 256].

Definition ospf_if_lookup_by_lsa_pos (a : ospf_area) (lsa_pos : Z) : option spf_interface :=
  List.find (fun oi => (so_lsa_pos_beg oi <=? lsa_pos) && (lsa_pos <? so_lsa_pos_end oi)) (ar_oiflist a).

Definition ospf_nbr_lookup_by_routerid (oi : spf_interface) (id : Z) : option Z :=
  snd <$> List.find (fun n => fst n =? id) (so_nbrs oi).

Definition ospf_vl_lookup (a : ospf_area) (peer : Z) : option ospf_vl_data :=
  List.find (fun d => vl_peer d =? peer) (ar_vlinks a).

(** The address of the router [w] over the point-to-point link [l] of the root [v]
    at position [lsa_pos]; [oi] is the interface, [None] when another router is the
    root. *)
Definition p2p_nexthop (a : ospf_area) (oi : option spf_interface) (v w : area_lsa) (l : router_lsa_link) :
    option Z :=
  let is_type t := match oi with Some oi => so_type oi =? t | None => false end in
  let host := match oi with Some oi => so_prefixlen oi =? IPV4_MAX_BITLEN | None => false end in
  if ar_ti_lfa_enabled a || is_type OSPF_IFTYPE_POINTOPOINT
     || is_type OSPF_IFTYPE_POINTOMULTIPOINT && host then
    match (if ar_root_node a then oi ← oi; ospf_nbr_lookup_by_routerid oi (l_link_id l) else None) with
    | Some src => Some src
    | None =>
        l_link_data <$> List.find (fun l2 => match_stub_prefix v (l_link_data l) (l_link_data l2)) (next_links w v)
    end
  else
    match oi with
    | Some oi =>
        if so_type oi =? OSPF_IFTYPE_POINTOMULTIPOINT then
          l_link_data <$> List.find (fun l2 =>
            prefix_cmp (fun _ => 0) (mkPrefix AF_INET (so_prefixlen oi) (addr_bytes (l_link_data l2)))
              (mkPrefix AF_INET (so_prefixlen oi) (addr_bytes (so_address oi))) =? 0) (next_links w v)
        else None
    | None => None
    end.

(** The next hop to [w] over the link [l] of the root [v]; [None] when there is
    none. *)
Definition root_nexthop (a : ospf_area) (v w : area_lsa) (l : router_lsa_link) (lsa_pos : Z) :
    option vertex_nexthop :=
  if al_type w =? OSPF_VERTEX_ROUTER then
    if l_type l =? LSA_LINK_TYPE_POINTOPOINT then
      let oi := if ar_root_node a then ospf_if_lookup_by_lsa_pos a lsa_pos else None in
      if ar_root_node a && match oi with None => true | Some _ => false end then None
      else (fun r => mkHop r lsa_pos) <$> p2p_nexthop a oi v w l
    else if l_type l =? LSA_LINK_TYPE_VIRTUALLINK then
      match ospf_vl_lookup a (l_link_id l) with
      | Some d => if vl_approved d then Some (vl_nexthop d) else None
      | None => None
      end
    else None
  else Some (mkHop 0 lsa_pos).

Fixpoint add_parents (v w : vertex) (hops : list (vertex_nexthop * option vertex_nexthop)) (distance : Z) :
    outcome vertex :=
  match hops with
  | [] => Ret w
  | (h, lh) :: hops' =>
      w ← ospf_spf_add_parent v w h lh distance;
      add_parents v w hops' distance
  end.

(** The next hops to [w] through the network [v] that the root is attached to. *)
Definition network_hops (root : Z) (v w : vertex) : list vertex_nexthop :=
  flat_map (fun vp => if vp_parent vp =? root
                      then map (fun l => mkHop (l_link_data l) (h_lsa_pos (vp_nexthop vp)))
                             (next_links (vx_lsa w) (vx_lsa v))
                      else []) (vx_parents v).

(** [ospf_nexthop_calculation]: whether a parent was added, and the vertex [w]. *)
Definition ospf_nexthop_calculation (a : ospf_area) (root : Z) (v w : vertex) (l : option router_lsa_link)
    (distance lsa_pos : Z) : outcome (bool * vertex) :=
  if vx_key v =? root then
    match l with
    | None => Abort
    | Some l =>
        assert! (vx_type w =? OSPF_VERTEX_ROUTER) || (vx_type w =? OSPF_VERTEX_NETWORK) ;;
        match root_nexthop a (vx_lsa v) (vx_lsa w) l lsa_pos with
        | None => Ret (false, w)
        | Some nh =>
            w ← add_parents v w [(nh, Some nh)] distance;
            Ret (true, w)
        end
    end
  else
    let direct := (vx_type v =? OSPF_VERTEX_NETWORK) && existsb (fun vp => vp_parent vp =? root) (vx_parents v) in
    assert! negb direct || (vx_type w =? OSPF_VERTEX_ROUTER) ;;
    let hops := if vx_type v =? OSPF_VERTEX_NETWORK then network_hops root v w else [] in
    match hops with
    | _ :: _ =>
        w ← add_parents v w (map (fun h => (h, Some h)) hops) distance;
        Ret (true, w)
    | [] =>
        let lnh := (fun l => mkHop (l_link_data l) lsa_pos) <$> l in
        w ← add_parents v w (map (fun vp => (vp_nexthop vp, lnh)) (vx_parents v)) distance;
        Ret (match vx_parents v with [] => false | _ => true end, w)
    end.

(** ** The candidates *)

(** The difference of the distances is an [int]. *)
Definition vertex_cmp (v1 v2 : vertex) : Z :=
  if negb (vx_distance v1 =? vx_distance v2) then s32 (u32 (vx_distance v1 - vx_distance v2))
  else if negb (vx_type v1 =? vx_type v2) then
    if vx_type v1 =? OSPF_VERTEX_NETWORK then -1 else if vx_type v1 =? OSPF_VERTEX_ROUTER then 1 else 0
  else 0.

(** The order of the queue. *)
Definition vertex_before (v1 v2 : vertex) : bool :=
  let c := vertex_cmp v1 v2 in
  (c <? 0) || (c =? 0) && (vx_addr v1 <? vx_addr v2).

Definition first_vertex (o : option vertex) (x : vertex) : option vertex :=
  match o with
  | None => Some x
  | Some y => Some (if vertex_before x y then x else y)
  end.

Definition in_tree (k : Z) (st : spf_state) : bool := bool_decide (k ∈ sp_tree st).

Definition candidates (st : spf_state) : list vertex :=
  List.filter (fun x => negb (in_tree (vx_key x) st)) (map snd (map_to_list (sp_vertices st))).

Definition vertex_pqueue_pop (st : spf_state) : option vertex :=
  fold_left first_vertex (candidates st) None.

Definition set_vertex (x : vertex) (st : spf_state) : spf_state :=
  mkSpf (<[vx_key x := x]> (sp_vertices st)) (sp_tree st) (sp_created st) (sp_transit st) (sp_out st).

(** ** The links of a vertex *)

(** [ospf_vertex_new] and the choice between the cases of step (d).  The vertex
    of a failed calculation is dropped again. *)
Definition spf_relax (a : ospf_area) (alloc : nat -> Z) (root : Z) (v : vertex) (l : option router_lsa_link)
    (lsa_pos : Z) (w_lsa : area_lsa) (distance : Z) (st : spf_state) : outcome spf_state :=
  if in_tree (al_key w_lsa) st then Ret st
  else
    match sp_vertices st !! al_key w_lsa with
    | None =>
        let w := mkVertex w_lsa (alloc (sp_created st)) 0 [] [] false in
        let st := mkSpf (sp_vertices st) (sp_tree st) (S (sp_created st)) (sp_transit st) (sp_out st) in
        '(added, w) ← ospf_nexthop_calculation a root v w l distance lsa_pos;
        Ret (if added : bool then set_vertex w st else st)
    | Some w =>
        if vx_distance w <? distance then Ret st
        else
          '(_, w) ← ospf_nexthop_calculation a root v w l distance lsa_pos;
          Ret (set_vertex w st)
    end.

(** An LSA that can be reached from [v]. *)
Definition spf_reachable (v : area_lsa) (w : option area_lsa) : option area_lsa :=
  match w with
  | None => None
  | Some w => if IS_LSA_MAXAGE (al_lsa w) then None
              else if ospf_lsa_has_link w v <? 0 then None else Some w
  end.

(** Where a link of the router [v] leads, and its cost. *)
Definition link_target (a : ospf_area) (v : area_lsa) (l : router_lsa_link) : outcome (option (area_lsa * Z)) :=
  if l_type l =? LSA_LINK_TYPE_STUB then Ret None
  else if ospf_spf_is_protected_resource a l v then Ret None
  else if (l_type l =? LSA_LINK_TYPE_POINTOPOINT) || (l_type l =? LSA_LINK_TYPE_VIRTUALLINK) then
    let w := lookup_router a (l_link_id l) in
    cost ← (if (l_type l =? LSA_LINK_TYPE_POINTOPOINT) && ar_reversed a then get_reverse_distance v l w
            else Ret (l_metric l));
    Ret ((fun w => (w, cost)) <$> spf_reachable v w)
  else if l_type l =? LSA_LINK_TYPE_TRANSIT then
    Ret ((fun w => (w, l_metric l)) <$> spf_reachable v (lookup_network a (l_link_id l)))
  else Ret None.

Fixpoint spf_router_links (a : ospf_area) (alloc : nat -> Z) (root : Z) (v : vertex) (lsa_pos : Z)
    (links : list router_lsa_link) (st : spf_state) : outcome spf_state :=
  match links with
  | [] => Ret st
  | l :: links' =>
      t ← link_target a (vx_lsa v) l;
      st ← match t with
           | None => Ret st
           | Some (w, cost) => spf_relax a alloc root v (Some l) lsa_pos w (u32 (vx_distance v + cost)) st
           end;
      spf_router_links a alloc root v (lsa_pos + 1) links' st
  end.

Fixpoint spf_network_links (a : ospf_area) (alloc : nat -> Z) (root : Z) (v : vertex) (routers : list Z)
    (st : spf_state) : outcome spf_state :=
  match routers with
  | [] => Ret st
  | r :: routers' =>
      st ← match spf_reachable (vx_lsa v) (lookup_router a r) with
           | None => Ret st
           | Some w => spf_relax a alloc root v None (-1) w (vx_distance v) st
           end;
      spf_network_links a alloc root v routers' st
  end.

Definition ospf_spf_next (a : ospf_area) (alloc : nat -> Z) (root : Z) (v : vertex) (st : spf_state) :
    outcome spf_state :=
  let st := if (vx_type v =? OSPF_VERTEX_ROUTER) && CHECK_FLAG (al_flags (vx_lsa v)) ROUTER_LSA_VIRTUAL
            then mkSpf (sp_vertices st) (sp_tree st) (sp_created st) true (sp_out st) else st in
  if vx_type v =? OSPF_ROUTER_LSA then spf_router_links a alloc root v 0 (al_links (vx_lsa v)) st
  else spf_network_links a alloc root v (al_routers (vx_lsa v)) st.

(** ** The calculation *)

(** [ospf_vertex_add_parent]: the vertex becomes a child of its parents. *)
Definition ospf_vertex_add_parent (v : vertex) (st : spf_state) : spf_state :=
  fold_left (fun st vp =>
    match sp_vertices st !! vp_parent vp with
    | Some p => if bool_decide (vx_key v ∈ vx_children p) then st
                else set_vertex (set_vx_children (vx_children p ++ [vx_key v]) p) st
    | None => st
    end) (vx_parents v) st.

(** The vertex is put into the tree, and the route to it into the table. *)
Definition spf_take (v : vertex) (st : spf_state) : spf_state :=
  let st := mkSpf (sp_vertices st) (sp_tree st ++ [vx_key v]) (sp_created st) (sp_transit st) (sp_out st) in
  let st := ospf_vertex_add_parent v st in
  mkSpf (sp_vertices st) (sp_tree st) (sp_created st) (sp_transit st)
    (sp_out st ++ [if vx_type v =? OSPF_VERTEX_ROUTER then IntraAddRouter (vx_key v) else IntraAddTransit (vx_key v)]).

Fixpoint spf_loop (fuel : nat) (a : ospf_area) (alloc : nat -> Z) (root : Z) (v : vertex) (st : spf_state) :
    outcome spf_state :=
  match fuel with
  | O => Abort
  | S fuel' =>
      st ← ospf_spf_next a alloc root v st;
      match vertex_pqueue_pop st with
      | None => Ret st
      | Some v => spf_loop fuel' a alloc root v (spf_take v st)
      end
  end.

Definition ospf_spf_init (alloc : nat -> Z) (root_lsa : area_lsa) : vertex * spf_state :=
  let v := mkVertex root_lsa (alloc 0%nat) 0 [] [] false in
  (v, mkSpf {[ al_key root_lsa := v ]} [al_key root_lsa] 1 false []).

(** The first stage; every vertex is taken once. *)
Definition spf_tree (a : ospf_area) (alloc : nat -> Z) (root_lsa : area_lsa) : outcome spf_state :=
  let '(v, st) := ospf_spf_init alloc root_lsa in
  spf_loop (S (length (ar_lsdb a))) a alloc (al_key root_lsa) v st.

(** ** Stub networks *)

Fixpoint stub_links (a : ospf_area) (v : vertex) (parent_is_root : bool) (lsa_pos : Z)
    (links : list router_lsa_link) : list spf_effect :=
  match links with
  | [] => []
  | l :: links' =>
      (if (l_type l =? LSA_LINK_TYPE_STUB) && negb (ospf_spf_is_protected_resource a l (vx_lsa v))
       then [IntraAddStub l (vx_key v) parent_is_root lsa_pos] else [])
      ++ stub_links a v parent_is_root (lsa_pos + 1) links'
  end.

Definition mark_processed (k : Z) (st : spf_state) : spf_state :=
  match sp_vertices st !! k with
  | Some x => set_vertex (set_vx_processed true x) st
  | None => st
  end.

(** The loop over the children of the vertex [v]; [process] is the recursive call. *)
Fixpoint stub_children (process : Z -> bool -> spf_state -> outcome spf_state) (root : Z) (v : vertex)
    (parent_is_root : bool) (ks : list Z) (st : spf_state) : outcome spf_state :=
  match ks with
  | [] => Ret st
  | c :: ks' =>
      match sp_vertices st !! c with
      | None => Abort
      | Some child =>
          if vx_processed child then stub_children process root v parent_is_root ks' st
          else
            let parent_is_root := if vx_key v =? root then true
                                  else if vx_type v =? OSPF_VERTEX_ROUTER then false else parent_is_root in
            st ← process c parent_is_root st;
            stub_children process root v parent_is_root ks' (mark_processed c st)
      end
  end.

(** The recursion over the children; [fuel] bounds its depth. *)
Fixpoint ospf_spf_process_stubs (fuel : nat) (a : ospf_area) (root k : Z) (parent_is_root : bool)
    (st : spf_state) : outcome spf_state :=
  match fuel, sp_vertices st !! k with
  | O, _ | _, None => Abort
  | S fuel', Some v =>
      let st := if vx_type v =? OSPF_VERTEX_ROUTER
                then mkSpf (sp_vertices st) (sp_tree st) (sp_created st) (sp_transit st)
                       (sp_out st ++ stub_links a v parent_is_root 0 (al_links (vx_lsa v)))
                else st in
      stub_children (ospf_spf_process_stubs fuel' a root) root v parent_is_root (vx_children v) st
  end.

Definition ospf_spf_calculate (a : ospf_area) (alloc : nat -> Z) (root_lsa : option area_lsa) :
    outcome (option spf_state) :=
  match root_lsa with
  | None => Ret None
  | Some root_lsa =>
      st ← spf_tree a alloc root_lsa;
      st ← ospf_spf_process_stubs (S (length (ar_lsdb a))) a (al_key root_lsa) (al_key root_lsa) false st;
      Ret (Some st)
  end.
