(* ===== verification/OspfSpfFacts.v ===== *)
(** * The graph of an area, and next hops: facts

    The links that the calculation follows are the edges of a graph ([edges]), so
    [ospf_spf_next] relaxes the edges of a vertex in their order; what
    [ospf_nexthop_calculation] makes of a vertex. *)

From stdpp Require Import gmap sets.
From S2P Require Import Prelude Prefix OspfLsa OspfIsm OspfNsm OspfDbDescFacts OspfSpf.
From Stdlib Require Import Sorting.Sorted.

(** ** Edges *)

Record edge := mkEdge {
  e_link : option router_lsa_link;
  e_pos : Z;
  e_to : area_lsa;
  e_cost : Z
}.

Fixpoint router_edges (a : ospf_area) (v : area_lsa) (pos : Z) (links : list router_lsa_link) : list edge :=
  match links with
  | [] => []
  | l :: links' =>
      match link_target a v l with
      | Ret (Some (w, cost)) => [mkEdge (Some l) pos w cost]
      | _ => []
      end ++ router_edges a v (pos + 1) links'
  end.

Definition network_edges (a : ospf_area) (v : area_lsa) (routers : list Z) : list edge :=
  omap (fun r => (fun w => mkEdge None (-1) w 0) <$> spf_reachable v (lookup_router a r)) routers.

Definition edges (a : ospf_area) (v : area_lsa) : list edge :=
  if al_type v =? OSPF_ROUTER_LSA then router_edges a v 0 (al_links v) else network_edges a v (al_routers v).

(** An area that the calculation runs on: every LSA has its key for itself, and
    links to routers and networks cost at least one. *)
Record area_ok (a : ospf_area) (root : area_lsa) : Prop := mkAreaOk {
  ao_keys : lsdb_ok (map al_lsa (ar_lsdb a));
  ao_wf : Forall lsa_wf (map al_lsa (ar_lsdb a));
  ao_root : root ∈ ar_lsdb a;
  ao_router : al_type root = OSPF_ROUTER_LSA;
  ao_metric : forall x l, x ∈ ar_lsdb a -> l ∈ al_links x -> l_type l <> LSA_LINK_TYPE_STUB ->
    0 < l_metric l < 65536;
  ao_routers : forall x r, x ∈ ar_lsdb a -> r ∈ al_routers x -> 0 <= r < 4294967296;
  ao_forward : ar_reversed a = false;
  ao_size : Z.of_nat (length (ar_lsdb a)) * 65535 < 2147483648
}.

Section Edges.
  Context (a : ospf_area) (root : area_lsa).
  Hypothesis Hok : area_ok a root.

Lemma area_key_inj x y : x ∈ ar_lsdb a -> y ∈ ar_lsdb a -> al_key x = al_key y -> x = y.
Proof using Hok.
  destruct Hok as [Hs _ _ _ _ _ _ _]. revert Hs. induction (ar_lsdb a) as [|z db IH]; intros Hs Hx Hy E; [by apply elem_of_nil in Hx|].
  apply StronglySorted_inv in Hs as [Hs Hf].
  assert (Hlt : forall u, u ∈ db -> al_key z < al_key u).
  { intros u Hu. rewrite Forall_forall in Hf. apply Hf. apply in_map. by apply list_elem_of_In. }
  apply elem_of_cons in Hx as [->|Hx], Hy as [->|Hy]; [done|..|auto].
  - specialize (Hlt y Hy). lia.
  - specialize (Hlt x Hx). lia.
Qed.

Lemma area_wf x : x ∈ ar_lsdb a -> lsa_wf (al_lsa x).
Proof using Hok.
  intros Hx. pose proof (ao_wf _ _ Hok) as H. rewrite Forall_forall in H. apply H, in_map. by apply list_elem_of_In.
Qed.

Lemma lookup_router_spec id x :
  lookup_router a id = Some x -> x ∈ ar_lsdb a /\ al_key x = ls_key OSPF_ROUTER_LSA id id.
Proof. intros H. apply find_some in H as [H E]. split; [by apply list_elem_of_In|lia]. Qed.

Lemma lookup_network_spec id x :
  lookup_network a id = Some x -> x ∈ ar_lsdb a /\ al_type x = OSPF_NETWORK_LSA /\ al_id x = id.
Proof.
  intros H. apply find_some in H as [H E]. apply andb_true_iff in E as [E1 E2].
  split; [by apply list_elem_of_In|]. by rewrite Z.eqb_eq in E1, E2.
Qed.

Lemma spf_reachable_spec v o w :
  spf_reachable v o = Some w -> o = Some w /\ 0 <= ospf_lsa_has_link w v.
Proof.
  unfold spf_reachable. destruct o as [x|]; [|done]. case_bool; [done|].
  destruct (Z.ltb_spec (ospf_lsa_has_link x v) 0); [done|]. intros E. injection E as ->. split; [done|lia].
Qed.

Lemma has_link_type w v : 0 <= ospf_lsa_has_link w v -> al_type w = OSPF_ROUTER_LSA \/ al_type w = OSPF_NETWORK_LSA.
Proof.
  unfold ospf_lsa_has_link. destruct (Z.eqb_spec (al_type w) OSPF_NETWORK_LSA); [by right|].
  destruct (Z.eqb_spec (al_type w) OSPF_ROUTER_LSA); [by left|]. lia.
Qed.

Lemma index_of_found {A} (p : A -> bool) l : forall i, 0 <= i -> 0 <= index_of p i l -> exists x, x ∈ l /\ p x = true.
Proof.
  induction l as [|x l IH]; intros i Hi H; cbn in H; [lia|]. destruct (p x) eqn:E.
  - exists x. split; [by left|done].
  - destruct (IH (i + 1)) as (y & Hy & Ey); [lia..|]. exists y. split; [by right|done].
Qed.

(** A router that a network leads to has a link to the network. *)
Lemma back_links w v :
  0 <= ospf_lsa_has_link w v -> al_type w = OSPF_ROUTER_LSA -> al_type v = OSPF_NETWORK_LSA -> next_links w v <> [].
Proof.
  intros H Hw Hv. unfold ospf_lsa_has_link in H. rewrite Hw, Hv in H.
  change (OSPF_ROUTER_LSA =? OSPF_NETWORK_LSA) with false in H. change (OSPF_ROUTER_LSA =? OSPF_ROUTER_LSA) with true in H.
  change (OSPF_NETWORK_LSA =? OSPF_ROUTER_LSA) with false in H. cbn [andb] in H.
  apply index_of_found in H as (l & Hl & E); [|lia].
  enough (Hi : l ∈ next_links w v) by (intros En; rewrite En in Hi; by apply elem_of_nil in Hi).
  unfold next_links. rewrite Hv. apply list_elem_of_In, filter_In. apply list_elem_of_In in Hl. split; [done|].
  change (OSPF_NETWORK_LSA =? OSPF_VERTEX_ROUTER) with false.
  destruct ((l_type l =? LSA_LINK_TYPE_POINTOPOINT) || (l_type l =? LSA_LINK_TYPE_VIRTUALLINK)); [done|].
  destruct (l_type l =? LSA_LINK_TYPE_TRANSIT) eqn:Et; [|done]. cbv zeta iota. exact E.
Qed.

(** What is known of an edge of an LSA in the area. *)
Record edge_ok (v : area_lsa) (e : edge) : Prop := mkEdgeOk {
  eo_to : e_to e ∈ ar_lsdb a;
  eo_back : 0 <= ospf_lsa_has_link (e_to e) v;
  eo_type : al_type (e_to e) = OSPF_ROUTER_LSA \/ al_type (e_to e) = OSPF_NETWORK_LSA;
  eo_router : al_type v = OSPF_ROUTER_LSA -> (exists l, e_link e = Some l) /\ 0 < e_cost e < 65536;
  eo_network : al_type v = OSPF_NETWORK_LSA -> al_type (e_to e) = OSPF_ROUTER_LSA /\ e_cost e = 0
}.

Lemma router_edges_ok v links : v ∈ ar_lsdb a -> al_type v = OSPF_ROUTER_LSA -> links ⊆ al_links v ->
  forall pos e, e ∈ router_edges a v pos links -> edge_ok v e.
Proof using Hok.
  intros Hv Ht. induction links as [|l links IH]; intros Hl pos e He; [by apply elem_of_nil in He|].
  cbn [router_edges] in He. apply elem_of_app in He as [He|He]; [|apply (IH ltac:(set_solver) _ _ He)].
  assert (Hli : l ∈ al_links v) by set_solver. clear IH Hl.
  destruct (link_target a v l) as [[[w cost]|]|] eqn:E; [|by apply elem_of_nil in He..].
  apply list_elem_of_singleton in He as ->. unfold link_target in E.
  destruct (Z.eqb_spec (l_type l) LSA_LINK_TYPE_STUB) as [|Hst]; [done|].
  pose proof (ao_metric _ _ Hok v l Hv Hli Hst) as Hm. destruct (ospf_spf_is_protected_resource _ _ _); [done|].
  rewrite (ao_forward _ _ Hok), andb_false_r in E. cbn [mbind outcome_bind] in E.
  assert (Hw : w ∈ ar_lsdb a /\ 0 <= ospf_lsa_has_link w v /\ cost = l_metric l).
  { destruct (_ || _).
    - destruct (spf_reachable v _) as [x|] eqn:Er; [|done]. injection E as -> <-.
      apply spf_reachable_spec in Er as [Er ?]. apply lookup_router_spec in Er as [? _]. done.
    - destruct (_ =? _); [|done]. destruct (spf_reachable v _) as [x|] eqn:Er; [|done]. injection E as -> <-.
      apply spf_reachable_spec in Er as [Er ?]. apply lookup_network_spec in Er as [? _]. done. }
  destruct Hw as (Hw & Hb & ->). split; [done|done|by apply (has_link_type w v)| |].
  - intros _. split; [by eexists|done].
  - intros Hn. rewrite Hn in Ht. done.
Qed.

Lemma edges_ok v e :
  v ∈ ar_lsdb a -> al_type v = OSPF_ROUTER_LSA \/ al_type v = OSPF_NETWORK_LSA -> e ∈ edges a v -> edge_ok v e.
Proof using Hok.
  intros Hv Ht He. unfold edges in He. destruct (Z.eqb_spec (al_type v) OSPF_ROUTER_LSA) as [E|E].
  - by eapply router_edges_ok.
  - destruct Ht as [?|Ht]; [done|]. unfold network_edges in He. apply list_elem_of_omap in He as (r & Hr & He).
    destruct (spf_reachable v _) as [w|] eqn:Er; [|done]. injection He as <-.
    apply spf_reachable_spec in Er as [Er Hb]. apply lookup_router_spec in Er as [Hw Hk].
    pose proof (ao_routers _ _ Hok v r Hv Hr) as Hrange. pose proof (area_wf w Hw) as [_ _ Wi Wa].
    assert (Hrt : al_type w = OSPF_ROUTER_LSA).
    { unfold al_key, key_of, lsa_key, ls_key in Hk. unfold al_type. unfold OSPF_ROUTER_LSA in *. lia. }
    split; [done|done|by left| |done]. intros ?. congruence.
Qed.

(** ** The links of a vertex are its edges *)

Fixpoint relax_all (alloc : nat -> Z) (v : vertex) (es : list edge) (st : spf_state) : outcome spf_state :=
  match es with
  | [] => Ret st
  | e :: es' =>
      st ← spf_relax a alloc (al_key root) v (e_link e) (e_pos e) (e_to e) (vx_distance v + e_cost e) st;
      relax_all alloc v es' st
  end.

Lemma relax_all_app alloc v l1 l2 : forall st,
  relax_all alloc v (l1 ++ l2) st = (st ← relax_all alloc v l1 st; relax_all alloc v l2 st).
Proof. induction l1 as [|e l1 IH]; intros st; [done|]. cbn. destruct (spf_relax _ _ _ _ _ _ _ _ _); [apply IH|done]. Qed.

Lemma link_target_ret v l : exists t, link_target a v l = Ret t.
Proof using Hok.
  unfold link_target. rewrite (ao_forward _ _ Hok), andb_false_r. cbn [mbind outcome_bind].
  repeat case_bool; eauto.
Qed.

Lemma router_links_relax alloc v links : vx_lsa v ∈ ar_lsdb a -> vx_type v = OSPF_ROUTER_LSA ->
  0 <= vx_distance v < 4294967296 - 65536 -> links ⊆ al_links (vx_lsa v) -> forall pos st,
  spf_router_links a alloc (al_key root) v pos links st = relax_all alloc v (router_edges a (vx_lsa v) pos links) st.
Proof using Hok.
  intros Hv Ht Hd. induction links as [|l links IH]; intros Hl pos st; [done|].
  cbn [spf_router_links router_edges]. rewrite relax_all_app.
  destruct (link_target_ret (vx_lsa v) l) as (t & E). 
  assert (Hcost : forall w cost, t = Some (w, cost) -> u32 (vx_distance v + cost) = vx_distance v + cost).
  { intros w cost ->. assert (He : edge_ok (vx_lsa v) (mkEdge (Some l) pos w cost)).
    { apply (router_edges_ok (vx_lsa v) [l] Hv Ht ltac:(set_solver) pos). cbn [router_edges]. rewrite E. by left. }
    destruct (eo_router _ _ He Ht) as [_ Hc]. cbn in Hc. apply u32_small. lia. }
  rewrite E. cbn [mbind outcome_bind]. destruct t as [[w cost]|]; cbn [relax_all e_link e_pos e_to e_cost].
  - rewrite (Hcost w cost eq_refl). destruct (spf_relax _ _ _ _ _ _ _ _ _) as [st'|]; [|done]. cbn [mbind outcome_bind].
    apply IH. set_solver.
  - cbn [mbind outcome_bind]. apply IH. set_solver.
Qed.

Lemma network_links_relax alloc v routers : forall st,
  spf_network_links a alloc (al_key root) v routers st = relax_all alloc v (network_edges a (vx_lsa v) routers) st.
Proof.
  induction routers as [|r routers IH]; intros st; [done|]. cbn [spf_network_links network_edges omap list_omap].
  destruct (spf_reachable _ _) as [w|]; cbn [fmap option_fmap option_map relax_all e_link e_pos e_to e_cost].
  - rewrite Z.add_0_r. destruct (spf_relax _ _ _ _ _ _ _ _ _); [apply IH|done].
  - apply IH.
Qed.

(** The state when the transit capability was noted. *)
Definition noted (v : vertex) (st : spf_state) : spf_state :=
  if (vx_type v =? OSPF_VERTEX_ROUTER) && CHECK_FLAG (al_flags (vx_lsa v)) ROUTER_LSA_VIRTUAL
  then mkSpf (sp_vertices st) (sp_tree st) (sp_created st) true (sp_out st) else st.

Lemma spf_next_relax alloc v st :
  vx_lsa v ∈ ar_lsdb a -> vx_type v = OSPF_ROUTER_LSA \/ vx_type v = OSPF_NETWORK_LSA ->
  0 <= vx_distance v < 4294967296 - 65536 ->
  ospf_spf_next a alloc (al_key root) v st = relax_all alloc v (edges a (vx_lsa v)) (noted v st).
Proof using Hok.
  intros Hv Ht Hd. unfold ospf_spf_next. fold (noted v st). unfold edges, vx_type in *.
  destruct (Z.eqb_spec (al_type (vx_lsa v)) OSPF_ROUTER_LSA).
  - by apply router_links_relax.
  - apply network_links_relax.
Qed.
End Edges.

(** ** Adding parents *)

Definition hops (x : vertex) : list vertex_nexthop := map vp_nexthop (vx_parents x).

(** What is kept of a vertex when its distance and parents change. *)
Definition vx_rest (x : vertex) := (vx_lsa x, vx_addr x, vx_children x, vx_processed x).

(** [w'] is [w] with the next hops [hs] over the parent [k] at distance [d]; those of
    a longer distance are gone. *)
Record merged (k : Z) (hs : list vertex_nexthop) (d : Z) (w w' : vertex) : Prop := mkMerged {
  mg_rest : vx_rest w' = vx_rest w;
  mg_distance : vx_distance w' = d;
  mg_old : vx_distance w = d -> vx_parents w ⊆ vx_parents w';
  mg_new : hs ⊆ hops w';
  mg_from : forall p, p ∈ vx_parents w' ->
    vx_distance w = d /\ p ∈ vx_parents w \/ vp_parent p = k /\ vp_nexthop p ∈ hs
}.

(** The vertex can take a path of length [d]: it is new, or not nearer. *)
Definition takes (d : Z) (w : vertex) : Prop :=
  0 < d /\ (vx_distance w = 0 /\ vx_parents w = [] \/ d <= vx_distance w).

Lemma parent_insert_elem p q l : q ∈ parent_insert p l <-> q = p \/ q ∈ l.
Proof.
  induction l as [|x l IH]; cbn [parent_insert]; [rewrite list_elem_of_singleton, elem_of_nil; tauto|].
  case_bool; rewrite !elem_of_cons, ?IH, ?elem_of_cons; tauto.
Qed.

Lemma add_parent_merged v w h lh d :
  takes d w -> exists w', ospf_spf_add_parent v w h lh d = Ret w' /\ merged (vx_key v) [h] d w w'.
Proof.
  intros [Hd Hw]. unfold ospf_spf_add_parent. destruct (Z.eqb_spec d 0); [lia|]. cbn [negb].
  assert (Ha : (vx_distance w =? 0) || (d <=? vx_distance w) = true).
  { destruct Hw as [[-> _]|Hw]; [done|]. apply orb_true_iff. right. lia. }
  rewrite Ha. clear Ha.
  set (w1 := if vx_distance w =? 0 then set_vx_distance d w else w).
  set (w2 := if d <? vx_distance w1 then set_vx_distance d (set_vx_parents [] w1) else w1).
  assert (H2 : vx_rest w2 = vx_rest w /\ vx_distance w2 = d
    /\ vx_parents w2 = if vx_distance w =? d then vx_parents w else []).
  { unfold w2, w1. destruct (Z.eqb_spec (vx_distance w) 0) as [E|E].
    - destruct Hw as [[_ Hp]|?]; [|lia]. cbn. rewrite Z.ltb_irrefl. cbn. rewrite Hp. by case_bool.
    - destruct Hw as [[? _]|Hw]; [done|]. destruct (Z.ltb_spec d (vx_distance w)); cbn.
      + destruct (Z.eqb_spec (vx_distance w) d); [lia|done].
      + split; [done|]. split; [lia|]. by rewrite (proj2 (Z.eqb_eq (vx_distance w) d)) by lia. }
  clearbody w2. clear w1. destruct H2 as (H21 & H22 & H23). eexists. split; [reflexivity|].
  assert (Hp2 : forall p, p ∈ vx_parents w2 <-> vx_distance w = d /\ p ∈ vx_parents w).
  { intros p. rewrite H23. destruct (Z.eqb_spec (vx_distance w) d); [tauto|]. rewrite elem_of_nil. tauto. }
  destruct (existsb _ (vx_parents w2)) eqn:Ex.
  - apply existsb_exists in Ex as (p & Hp & E). apply bool_decide_eq_true in E. split; [done..| | |].
    + intros E1 q Hq. by apply Hp2.
    + intros q Hq. apply list_elem_of_singleton in Hq as ->. unfold hops. rewrite <- E.
      apply list_elem_of_In, in_map. done.
    + intros q Hq. left. by apply Hp2.
  - split; [by rewrite <- H21|done|..].
    + intros E1 q Hq. cbn. apply parent_insert_elem. right. by apply Hp2.
    + intros q Hq. apply list_elem_of_singleton in Hq as ->. unfold hops. cbn [vx_parents set_vx_parents].
      apply list_elem_of_In, in_map_iff. eexists. split; [|apply list_elem_of_In, parent_insert_elem; by left]. done.
    + intros q Hq. cbn in Hq. apply parent_insert_elem in Hq as [->|Hq]; [|left; by apply Hp2].
      right. split; [done|by left].
Qed.

Lemma merged_trans k hs1 hs2 d w w1 w2 :
  merged k hs1 d w w1 -> merged k hs2 d w1 w2 -> merged k (hs1 ++ hs2) d w w2.
Proof.
  intros [A1 A2 A3 A4 A5] [B1 B2 B3 B4 B5]. specialize (B3 A2). split; [congruence|done|..].
  - intros E q Hq. by apply B3, (A3 E).
  - intros h Hh. apply elem_of_app in Hh as [Hh|Hh]; [|by apply B4]. apply A4 in Hh. unfold hops in *.
    apply list_elem_of_In, in_map_iff in Hh as (p & <- & Hp). apply list_elem_of_In, in_map.
    apply list_elem_of_In, B3. by apply list_elem_of_In.
  - intros p Hp. destruct (B5 p Hp) as [[_ H]|[H1 H2]].
    + destruct (A5 p H) as [?|[? ?]]; [by left|right]. rewrite elem_of_app. auto.
    + right. rewrite elem_of_app. auto.
Qed.

Lemma add_parents_merged v d hs : forall w, hs <> [] -> takes d w ->
  exists w', add_parents v w hs d = Ret w' /\ merged (vx_key v) (map fst hs) d w w'.
Proof.
  induction hs as [|[h lh] hs IH]; intros w Hne Hw; [done|]. cbn [add_parents map fst].
  destruct (add_parent_merged v w h lh d Hw) as (w1 & -> & M1). cbn [mbind outcome_bind].
  destruct hs as [|h2 hs]; [by exists w1|].
  assert (Hw1 : takes d w1) by (split; [apply Hw|right; rewrite (mg_distance _ _ _ _ _ M1); lia]).
  destruct (IH w1 ltac:(done) Hw1) as (w2 & E & M2). exists w2. split; [done|].
  by apply (merged_trans _ [h] _ _ _ _ _ M1).
Qed.

(** ** The next hops that an edge gives *)

(** Those of the root are found from its interfaces; through a network of the root
    they are the addresses on that network; others are inherited (RFC 2328
    16.1.1). *)
Definition next_hops (a : ospf_area) (root : Z) (v : vertex) (e : edge) : list vertex_nexthop :=
  if vx_key v =? root then
    match e_link e with
    | Some l => match root_nexthop a (vx_lsa v) (e_to e) l (e_pos e) with Some h => [h] | None => [] end
    | None => []
    end
  else if (vx_type v =? OSPF_VERTEX_NETWORK) && existsb (fun p => vp_parent p =? root) (vx_parents v) then
    flat_map (fun p => if vp_parent p =? root
                       then map (fun l => mkHop (l_link_data l) (h_lsa_pos (vp_nexthop p)))
                              (next_links (e_to e) (vx_lsa v))
                       else []) (vx_parents v)
  else hops v.

Lemma network_hops_nil root v w :
  existsb (fun p => vp_parent p =? root) (vx_parents v) = false -> network_hops root v w = [].
Proof.
  unfold network_hops. induction (vx_parents v) as [|p l IH]; [done|]. cbn. intros H.
  apply orb_false_iff in H as [-> H]. by apply IH.
Qed.

Lemma network_hops_some root v w :
  existsb (fun p => vp_parent p =? root) (vx_parents v) = true -> next_links (vx_lsa w) (vx_lsa v) <> [] ->
  network_hops root v w <> [].
Proof.
  intros H Hl. apply existsb_exists in H as (p & Hp & E). destruct (next_links _ _) as [|l ls] eqn:En; [done|].
  intros Hn. assert (Hi : In (mkHop (l_link_data l) (h_lsa_pos (vp_nexthop p))) (network_hops root v w)).
  { apply in_flat_map. exists p. split; [done|]. rewrite E, En. by left. }
  by rewrite Hn in Hi.
Qed.

Lemma nexthop_merged a root v w e d :
  edge_ok a (vx_lsa v) e -> vx_lsa w = e_to e -> takes d w ->
  (vx_key v = root -> al_type (vx_lsa v) = OSPF_ROUTER_LSA) ->
  exists added w', ospf_nexthop_calculation a root v w (e_link e) d (e_pos e) = Ret (added, w')
    /\ (next_hops a root v e = [] /\ added = false /\ w' = w
        \/ next_hops a root v e <> [] /\ added = true /\ merged (vx_key v) (next_hops a root v e) d w w').
Proof.
  intros He Hl Hw Hr. unfold ospf_nexthop_calculation, next_hops.
  destruct (Z.eqb_spec (vx_key v) root) as [Ek|Ek].
  { destruct (eo_router _ _ _ He (Hr Ek)) as [[l El] _]. rewrite El.
    assert (Ht : (vx_type w =? OSPF_VERTEX_ROUTER) || (vx_type w =? OSPF_VERTEX_NETWORK) = true).
    { unfold vx_type. rewrite Hl. by destruct (eo_type _ _ _ He) as [-> | ->]. }
    rewrite Ht, Hl. destruct (root_nexthop _ _ _ _ _) as [h|]; [|eauto 10].
    destruct (add_parents_merged v d [(h, Some h)] w ltac:(done) Hw) as (w' & -> & M). cbn [mbind outcome_bind]. eauto 10. }
  destruct (vx_type v =? OSPF_VERTEX_NETWORK) eqn:Et; cbn [andb].
  - destruct (existsb _ (vx_parents v)) eqn:Ex; cbn [negb orb].
    + assert (Hv : al_type (vx_lsa v) = OSPF_NETWORK_LSA) by (apply Z.eqb_eq in Et; done).
      destruct (eo_network _ _ _ He Hv) as [Hto _].
      assert (Hwt : (vx_type w =? OSPF_VERTEX_ROUTER) = true) by (unfold vx_type; by rewrite Hl, Hto).
      rewrite Hwt.
      assert (Eq : flat_map (fun p => if vp_parent p =? root
                       then map (fun l => mkHop (l_link_data l) (h_lsa_pos (vp_nexthop p))) (next_links (e_to e) (vx_lsa v))
                       else []) (vx_parents v) = network_hops root v w) by (unfold network_hops; by rewrite Hl).
      rewrite Eq. clear Eq.
      pose proof (network_hops_some root v w Ex ltac:(rewrite Hl; by apply (back_links _ _ (eo_back _ _ _ He)))) as Hn.
      destruct (network_hops root v w) as [|h hs] eqn:En; [done|]. rewrite <- En in *.
      destruct (add_parents_merged v d (map (fun h => (h, Some h)) (network_hops root v w)) w) as (w' & -> & M);
        [by rewrite En|done|]. cbn [mbind outcome_bind]. rewrite map_map, map_id in M. eauto 10.
    + rewrite (network_hops_nil _ _ _ Ex). unfold hops.
      destruct (vx_parents v) as [|p ps] eqn:Ep; [by eauto 10|]. rewrite <- Ep.
      destruct (add_parents_merged v d (map (fun vp => (vp_nexthop vp, (fun l => mkHop (l_link_data l) (e_pos e)) <$> e_link e))
                 (vx_parents v)) w) as (w' & -> & M); [by rewrite Ep|done|].
      cbn [mbind outcome_bind]. rewrite map_map in M. cbn [fst] in M. rewrite Ep in *. eauto 10.
  - cbn [negb orb]. unfold hops.
      destruct (vx_parents v) as [|p ps] eqn:Ep; [by eauto 10|]. rewrite <- Ep.
      destruct (add_parents_merged v d (map (fun vp => (vp_nexthop vp, (fun l => mkHop (l_link_data l) (e_pos e)) <$> e_link e))
                 (vx_parents v)) w) as (w' & -> & M); [by rewrite Ep|done|].
      cbn [mbind outcome_bind]. rewrite map_map in M. cbn [fst] in M. rewrite Ep in *. eauto 10.
Qed.
