(* ===== verification/OspfSpfTree.v ===== *)
(** * The shortest-path tree

    The invariant of the calculation, that relaxing an edge and taking the nearest
    candidate keep it, and that the loop ends.

    A vertex that is taken is the nearest candidate, so the loop ends with a tree of
    the shortest paths of the graph and, at every vertex, all of the next hops that
    lie on one. *)
From stdpp Require Import gmap sets.
From S2P Require Import Prelude Prefix OspfLsa OspfIsm OspfNsm OspfDbDescFacts OspfSpf OspfSpfFacts.

Section Tree.
  Context (a : ospf_area) (root : area_lsa) (alloc : nat -> Z).
  Hypothesis Hok : area_ok a root.
Local Notation rk := (al_key root).

(** ** The invariant *)

(** All edges of the vertices in the tree are relaxed, those of the last one, [kv],
    as far as [es]. *)
Definition relaxed (kv : Z) (es : list edge) (k : Z) (e : edge) : Prop := k <> kv \/ e ∈ es.

Record spf_inv (kv : Z) (es : list edge) (V : gmap Z vertex) (T : list Z) : Prop := mkSpfInv {
  iv_vertex : forall k x, V !! k = Some x ->
    vx_key x = k /\ vx_lsa x ∈ ar_lsdb a /\ (vx_type x = OSPF_ROUTER_LSA \/ vx_type x = OSPF_NETWORK_LSA);
  iv_root : exists x, V !! rk = Some x /\ vx_lsa x = root /\ vx_distance x = 0 /\ vx_parents x = [];
  iv_tree : NoDup T /\ rk ∈ T /\ forall k, k ∈ T -> is_Some (V !! k);
  iv_range : forall k x, V !! k = Some x ->
    0 <= vx_distance x <= 65535 * Z.of_nat (length T) /\ (k <> rk -> 0 < vx_distance x);
  iv_order : forall k x j y, k ∈ T -> V !! k = Some x -> j ∉ T -> V !! j = Some y ->
    vx_distance x <= vx_distance y
    /\ (vx_type x = OSPF_ROUTER_LSA -> vx_type y = OSPF_NETWORK_LSA -> vx_distance x < vx_distance y);
  iv_done : forall k x e, k ∈ T -> V !! k = Some x -> e ∈ edges a (vx_lsa x) -> relaxed kv es k e ->
    next_hops a rk x e <> [] ->
    exists y, V !! al_key (e_to e) = Some y /\ vx_distance y <= vx_distance x + e_cost e
      /\ (vx_distance y = vx_distance x + e_cost e -> next_hops a rk x e ⊆ hops y);
  iv_parents : forall k y, V !! k = Some y -> k <> rk -> vx_parents y <> [];
  iv_from : forall k y p, V !! k = Some y -> p ∈ vx_parents y ->
    vp_parent p ∈ T /\ exists x e, V !! vp_parent p = Some x /\ e ∈ edges a (vx_lsa x) /\ e_to e = vx_lsa y
      /\ vx_distance y = vx_distance x + e_cost e /\ vp_nexthop p ∈ next_hops a rk x e
}.

(** The vertex whose edges are relaxed is the last one of the tree. *)
Record current (v : vertex) (V : gmap Z vertex) (T : list Z) : Prop := mkCurrent {
  cu_vertex : V !! vx_key v = Some v;
  cu_tree : vx_key v ∈ T;
  cu_last : forall k x, k ∈ T -> V !! k = Some x -> vx_distance x <= vx_distance v
    /\ (vx_type x = OSPF_ROUTER_LSA -> vx_type v = OSPF_NETWORK_LSA -> vx_distance x < vx_distance v);
  cu_range : vx_distance v <= 65535 * (Z.of_nat (length T) - 1)
}.

Lemma inv_edge kv es V T k x e :
  spf_inv kv es V T -> V !! k = Some x -> e ∈ edges a (vx_lsa x) -> edge_ok a (vx_lsa x) e.
Proof using Hok.
  intros H Hx He. destruct (iv_vertex _ _ _ _ H k x Hx) as (_ & H1 & H2). by apply (edges_ok a root Hok).
Qed.

(** An edge does not lead to a vertex that was taken before. *)
Lemma edge_forward kv es V T v e y :
  spf_inv kv es V T -> current v V T -> e ∈ edges a (vx_lsa v) -> al_key (e_to e) ∈ T ->
  V !! al_key (e_to e) = Some y -> vx_distance y < vx_distance v + e_cost e.
Proof using Hok.
  intros H [C1 C2 C3 C4] He Hto Hy. pose proof (inv_edge _ _ _ _ _ _ _ H C1 He) as Ho.
  destruct (C3 _ _ Hto Hy) as [L1 L2]. destruct (iv_vertex _ _ _ _ H _ _ C1) as (_ & _ & [Ht|Ht]).
  - destruct (eo_router _ _ _ Ho Ht) as [_ Hc]. lia.
  - destruct (eo_network _ _ _ Ho Ht) as [Hr ->].
    destruct (iv_vertex _ _ _ _ H _ _ Hy) as (Ky & Dy & _). unfold vx_key in Ky.
    assert (vx_lsa y = e_to e) as E by (apply (area_key_inj a root Hok); [done|apply Ho|done]).
    specialize (L2 ltac:(unfold vx_type; by rewrite E) Ht). lia.
Qed.

Lemma relaxed_more kv es e k e' : relaxed kv (e :: es) k e' -> relaxed kv es k e' \/ k = kv /\ e' = e.
Proof.
  intros [?|He]; [by left; left|]. apply elem_of_cons in He as [->|?]; [|by left; right].
  destruct (decide (k = kv)); [by right|by left; left].
Qed.

(** An edge that changes nothing. *)
Lemma inv_skip es V T v e :
  spf_inv (vx_key v) es V T -> current v V T -> e ∈ edges a (vx_lsa v) ->
  (next_hops a rk v e <> [] -> exists y, V !! al_key (e_to e) = Some y /\ vx_distance y < vx_distance v + e_cost e) ->
  spf_inv (vx_key v) (e :: es) V T.
Proof.
  intros [H1 H2 H3 H4 H5 H6 H7 H8] C He Hn. split; [done..| |done|done].
  intros k x e' Hk Hx Hin Hd Hne. apply relaxed_more in Hd as [Hd|[-> ->]]; [by apply (H6 k)|].
  rewrite (cu_vertex _ _ _ C) in Hx. injection Hx as <-. destruct (Hn Hne) as (y & Hy & Hlt).
  exists y. split; [done|]. split; [lia|]. intros E. lia.
Qed.

(** An edge that gives a vertex outside of the tree a shortest path. *)
Lemma inv_update es V T v e w w' :
  spf_inv (vx_key v) es V T -> current v V T -> e ∈ edges a (vx_lsa v) ->
  let k := al_key (e_to e) in
  let d := vx_distance v + e_cost e in
  k ∉ T -> (V !! k = None \/ V !! k = Some w /\ d <= vx_distance w) ->
  vx_lsa w = e_to e -> next_hops a rk v e <> [] -> merged (vx_key v) (next_hops a rk v e) d w w' -> 0 < d ->
  (V !! k = None -> vx_parents w = []) ->
  spf_inv (vx_key v) (e :: es) (<[k := w']> V) T.
Proof using Hok.
  intros H C He k d Hk Hold Hlsa Hne M Hd0 Hfresh. pose proof H as [H1 H2 H3 H4 H5 H6 H7 H8].
  pose proof (inv_edge _ _ _ _ _ _ _ H (cu_vertex _ _ _ C) He) as Ho. destruct C as [C1 C2 C3 C4].
  destruct M as [M1 M2 M3 M4 M5]. unfold vx_rest in M1. injection M1 as Ml _ _ _.
  assert (Hcost : 0 <= e_cost e <= 65535).
  { destruct (H1 _ _ C1) as (_ & _ & [Ht|Ht]); [destruct (eo_router _ _ _ Ho Ht); lia|].
    destruct (eo_network _ _ _ Ho Ht). lia. }
  assert (Hrk : rk <> k) by (intros E; rewrite <- E in Hk; by apply Hk, H3).
  assert (Hother : forall j, j ∈ T -> <[k := w']> V !! j = V !! j).
  { intros j Hj. apply lookup_insert_ne. intros ->. done. }
  assert (Hw' : vx_key w' = k /\ vx_lsa w' = e_to e) by (unfold vx_key; by rewrite Ml, Hlsa).
  destruct Hw' as [Kw Lw]. split.
  - intros j x Hx. destruct (decide (k = j)) as [<-|]; [|rewrite lookup_insert_ne in Hx by done; eauto].
    rewrite lookup_insert_eq in Hx. injection Hx as <-. split; [done|]. unfold vx_type. rewrite Lw. split; apply Ho.
  - destruct H2 as (x & Hx & ?). exists x. by rewrite lookup_insert_ne.
  - destruct H3 as (? & ? & H3). split; [done|]. split; [done|]. intros j Hj. rewrite Hother by done. auto.
  - intros j x Hx. destruct (decide (k = j)) as [<-|]; [|rewrite lookup_insert_ne in Hx by done; eauto].
    rewrite lookup_insert_eq in Hx. injection Hx as <-. destruct (H4 _ _ C1). lia.
  - intros i x j y Hi Hx Hj Hy. rewrite Hother in Hx by done.
    destruct (decide (k = j)) as [<-|]; [|rewrite lookup_insert_ne in Hy by done; eauto].
    rewrite lookup_insert_eq in Hy. injection Hy as <-. destruct (C3 _ _ Hi Hx) as [L1 L2].
    split; [lia|]. intros Hr Hn. unfold vx_type in Hn. rewrite Lw in Hn.
    destruct (H1 _ _ C1) as (_ & _ & [Ht|Ht]); [destruct (eo_router _ _ _ Ho Ht); lia|].
    destruct (eo_network _ _ _ Ho Ht) as [E1 _]. by rewrite E1 in Hn.
  - intros i x e' Hi Hx Hin Hd Hnx. rewrite Hother in Hx by done.
    apply relaxed_more in Hd as [Hd|[-> ->]].
    + destruct (H6 _ _ _ Hi Hx Hin Hd Hnx) as (y & Hy & Hle & Hsub).
      destruct (decide (k = al_key (e_to e'))) as [E|]; [|exists y; by rewrite lookup_insert_ne].
      rewrite <- E in *. exists w'. rewrite lookup_insert_eq. split; [done|].
      destruct Hold as [Hold|[Hold Hdw]]; [by rewrite Hold in Hy|]. rewrite Hold in Hy. injection Hy as <-.
      split; [lia|]. intros Et. assert (Ew : vx_distance w = d) by lia. intros h Hh.
      apply Hsub in Hh; [|lia]. unfold hops in *. apply list_elem_of_In, in_map_iff in Hh as (p & <- & Hp).
      apply list_elem_of_In, in_map, list_elem_of_In, (M3 Ew). by apply list_elem_of_In.
    + rewrite C1 in Hx. injection Hx as <-. exists w'. rewrite lookup_insert_eq. split; [done|].
      split; [lia|]. intros _. done.
  - intros j y Hy Hj. destruct (decide (k = j)) as [<-|]; [|rewrite lookup_insert_ne in Hy by done; eauto].
    rewrite lookup_insert_eq in Hy. injection Hy as <-. destruct (next_hops a rk v e) as [|h hs] eqn:En; [done|].
    specialize (M4 h ltac:(by left)). unfold hops in M4. intros E. rewrite E in M4. by apply elem_of_nil in M4.
  - intros j y p Hy Hp. destruct (decide (k = j)) as [<-|].
    + rewrite lookup_insert_eq in Hy. injection Hy as <-. destruct (M5 p Hp) as [[Ew Hpw]|[Epv Hh]].
      * destruct Hold as [Hold|[Hold _]]; [rewrite (Hfresh Hold) in Hpw; by apply elem_of_nil in Hpw|].
        destruct (H8 _ _ _ Hold Hpw) as (Ht & x & e' & Hx & Hin & Eto & Edist & Hh). split; [done|].
        exists x, e'. rewrite Hother by done. rewrite Lw, <- Hlsa. split_and!; try done. lia.
      * split; [by rewrite Epv|]. exists v, e. rewrite Epv, Hother by done. split_and!; done.
    + rewrite lookup_insert_ne in Hy by done. destruct (H8 _ _ _ Hy Hp) as (Ht & x & e' & Hx & ?).
      split; [done|]. exists x, e'. by rewrite Hother.
Qed.

(** ** Relaxing the edges of a vertex *)

Lemma edge_distance es V T v e :
  spf_inv (vx_key v) es V T -> current v V T -> e ∈ edges a (vx_lsa v) -> 0 < vx_distance v + e_cost e.
Proof using Hok.
  intros H C He. pose proof (inv_edge _ _ _ _ _ _ _ H (cu_vertex _ _ _ C) He) as Ho.
  destruct (iv_range _ _ _ _ H _ _ (cu_vertex _ _ _ C)) as [L1 L2].
  destruct (iv_vertex _ _ _ _ H _ _ (cu_vertex _ _ _ C)) as (_ & _ & [Ht|Ht]).
  - destruct (eo_router _ _ _ Ho Ht). lia.
  - destruct (eo_network _ _ _ Ho Ht) as [_ ->]. enough (vx_key v <> rk) by (specialize (L2 H0); lia).
    intros E. destruct (iv_root _ _ _ _ H) as (x & Hx & Lx & _). rewrite <- E, (cu_vertex _ _ _ C) in Hx.
    injection Hx as <-. unfold vx_type in Ht. rewrite Lx, (ao_router _ _ Hok) in Ht. done.
Qed.

Lemma relax_step es v e st :
  spf_inv (vx_key v) es (sp_vertices st) (sp_tree st) -> current v (sp_vertices st) (sp_tree st) ->
  e ∈ edges a (vx_lsa v) ->
  exists st', spf_relax a alloc rk v (e_link e) (e_pos e) (e_to e) (vx_distance v + e_cost e) st = Ret st'
    /\ sp_tree st' = sp_tree st /\ sp_out st' = sp_out st
    /\ spf_inv (vx_key v) (e :: es) (sp_vertices st') (sp_tree st') /\ current v (sp_vertices st') (sp_tree st').
Proof using Hok.
  intros H C He. pose proof (inv_edge _ _ _ _ _ _ _ H (cu_vertex _ _ _ C) He) as Ho.
  pose proof (edge_distance _ _ _ _ _ H C He) as Hd. unfold spf_relax, in_tree.
  assert (Hr : vx_key v = rk -> al_type (vx_lsa v) = OSPF_ROUTER_LSA).
  { intros E. destruct (iv_root _ _ _ _ H) as (x & Hx & Lx & _). rewrite <- E, (cu_vertex _ _ _ C) in Hx.
    injection Hx as <-. by rewrite Lx, (ao_router _ _ Hok). }
  case_bool_decide as Hin.
  { exists st. split; [done|]. split; [done|]. split; [done|]. split; [|done]. apply inv_skip; try done. intros _.
    destruct (iv_tree _ _ _ _ H) as (_ & _ & Ht). destruct (Ht _ Hin) as [y Hy]. exists y. split; [done|].
    by eapply edge_forward. }
  assert (Hcur : forall w', vx_key w' = al_key (e_to e) ->
     current v (<[al_key (e_to e) := w']> (sp_vertices st)) (sp_tree st)).
  { intros w' Kw. destruct C as [C1 C2 C3 C4]. split; [|done| |done].
    - rewrite lookup_insert_ne; [done|]. intros E. by rewrite E in Hin.
    - intros k x Hk Hx. apply (C3 k x Hk). rewrite lookup_insert_ne in Hx; [done|]. intros E. by rewrite E in Hin. }
  destruct (sp_vertices st !! al_key (e_to e)) as [w|] eqn:Ew.
  - destruct (iv_vertex _ _ _ _ H _ _ Ew) as (Kw & Dw & _).
    assert (Lw : vx_lsa w = e_to e) by (apply (area_key_inj a root Hok); [done|apply Ho|done]).
    destruct (Z.ltb_spec (vx_distance w) (vx_distance v + e_cost e)) as [Hlt|Hge].
    { exists st. split; [done|]. split; [done|]. split; [done|]. split; [|done]. apply inv_skip; try done. intros _. by exists w. }
    destruct (nexthop_merged a rk v w e (vx_distance v + e_cost e) Ho Lw ltac:(split; [done|by right]) Hr)
      as (added & w' & -> & [(En & -> & ->)|(En & -> & M)]); cbn [mbind outcome_bind].
    + eexists. split; [reflexivity|]. split; [done|]. split; [done|]. unfold set_vertex. cbn [sp_vertices sp_tree]. rewrite Kw, insert_id by done.
      split; [|done]. apply inv_skip; try done.
    + assert (Kw' : vx_key w' = al_key (e_to e)).
      { pose proof (mg_rest _ _ _ _ _ M) as Er. unfold vx_rest in Er. injection Er as Er _ _ _. unfold vx_key. by rewrite Er, Lw. }
      eexists. split; [reflexivity|]. split; [done|]. split; [done|]. unfold set_vertex. cbn [sp_vertices sp_tree]. rewrite Kw'.
      split; [|by apply Hcur]. eapply (inv_update _ _ _ _ _ w); try done; [by right|]. intros E. by rewrite E in Ew.
  - set (w := mkVertex (e_to e) (alloc (sp_created st)) 0 [] [] false).
    destruct (nexthop_merged a rk v w e (vx_distance v + e_cost e) Ho eq_refl ltac:(split; [done|by left]) Hr)
      as (added & w' & -> & [(En & -> & ->)|(En & -> & M)]); cbn [mbind outcome_bind].
    + eexists. split; [reflexivity|]. split; [done|]. split; [done|]. split; [|done]. apply inv_skip; try done.
    + assert (Kw' : vx_key w' = al_key (e_to e)).
      { pose proof (mg_rest _ _ _ _ _ M) as Er. unfold vx_rest in Er. injection Er as Er _ _ _. unfold vx_key. by rewrite Er. }
      eexists. split; [reflexivity|]. split; [done|]. split; [done|]. unfold set_vertex. cbn [sp_vertices sp_tree]. rewrite Kw'.
      split; [|by apply Hcur]. eapply (inv_update _ _ _ _ _ w); try done. by left.
Qed.

Lemma relax_all_inv v es : forall es0 st,
  spf_inv (vx_key v) es0 (sp_vertices st) (sp_tree st) -> current v (sp_vertices st) (sp_tree st) ->
  es ⊆ edges a (vx_lsa v) ->
  exists st', relax_all a root alloc v es st = Ret st' /\ sp_tree st' = sp_tree st /\ sp_out st' = sp_out st
    /\ spf_inv (vx_key v) (rev es ++ es0) (sp_vertices st') (sp_tree st') /\ current v (sp_vertices st') (sp_tree st').
Proof using Hok.
  induction es as [|e es IH]; intros es0 st H C Hs; [by exists st|]. cbn [relax_all].
  destruct (relax_step es0 v e st H C ltac:(set_solver)) as (st1 & E1 & T1 & O1 & H1 & C1). rewrite E1.
  cbn [mbind outcome_bind].
  destruct (IH _ _ H1 C1 ltac:(set_solver)) as (st2 & E2 & T2 & O2 & H2 & C2). exists st2.
  split; [done|]. cbn [rev]. rewrite <- app_assoc. split; [congruence|]. split; [congruence|done].
Qed.

(** ** The nearest candidate *)

(** Networks come before routers at the same distance. *)
Definition rank (x : vertex) : Z :=
  2 * vx_distance x + (if vx_type x =? OSPF_NETWORK_LSA then 0 else 1).

Definition rankable (x : vertex) : Prop :=
  0 <= vx_distance x < 2147483648 /\ (vx_type x = OSPF_ROUTER_LSA \/ vx_type x = OSPF_NETWORK_LSA).

Lemma vertex_cmp_rank x y :
  rankable x -> rankable y ->
  (vertex_cmp x y < 0 <-> rank x < rank y) /\ (vertex_cmp x y = 0 <-> rank x = rank y).
Proof.
  intros [Hx Tx] [Hy Ty]. unfold vertex_cmp, rank. destruct (Z.eqb_spec (vx_distance x) (vx_distance y)) as [E|E]; cbn [negb].
  - rewrite E. destruct Tx as [-> | ->], Ty as [-> | ->]; cbn; lia.
  - assert (Es : s32 (u32 (vx_distance x - vx_distance y)) = vx_distance x - vx_distance y).
    { unfold s32, u32. Z.div_mod_to_equations. lia. }
    rewrite Es. case_match; case_match; lia.
Qed.

Lemma vertex_before_rank x y :
  rankable x -> rankable y ->
  if vertex_before x y then rank x <= rank y else rank y <= rank x.
Proof.
  intros Hx Hy. destruct (vertex_cmp_rank x y Hx Hy) as [H1 H2]. unfold vertex_before.
  destruct (Z.ltb_spec (vertex_cmp x y) 0), (Z.eqb_spec (vertex_cmp x y) 0); cbn [orb andb]; [lia..| |lia].
  case_bool; lia.
Qed.

Lemma first_vertex_spec l : forall o,
  Forall rankable l -> (forall x, o = Some x -> rankable x) ->
  match fold_left first_vertex l o with
  | None => l = [] /\ o = None
  | Some m => (m ∈ l \/ o = Some m) /\ forall x, x ∈ l \/ o = Some x -> rank m <= rank x
  end.
Proof.
  induction l as [|x l IH]; intros o Hl Ho; cbn [fold_left].
  { destruct o as [m|]; [|done]. split; [by right|]. intros x [Hx|E]; [by apply elem_of_nil in Hx|]. injection E as ->. lia. }
  inversion Hl as [|? ? Hx Hl']; subst.
  set (o' := first_vertex o x).
  assert (Ho' : exists y, o' = Some y /\ rankable y /\ (y = x \/ o = Some y) /\ rank y <= rank x
                 /\ forall z, o = Some z -> rank y <= rank z).
  { unfold o', first_vertex. destruct o as [z|]; [|by exists x; split_and!; auto; try lia].
    specialize (Ho z eq_refl). pose proof (vertex_before_rank x z Hx Ho) as Hb.
    destruct (vertex_before x z); eexists; (split; [reflexivity|]); split_and!; auto; try lia;
      intros u Eu; injection Eu as <-; lia. }
  destruct Ho' as (y & Ey & Ry & Hy & Hyx & Hyo). rewrite Ey in *. clear o' Ey.
  specialize (IH (Some y) Hl' ltac:(intros z E; by injection E as <-)).
  destruct (fold_left first_vertex l (Some y)) as [m|]; [|by destruct IH]. destruct IH as [I1 I2]. split.
  - destruct I1 as [?|E]; [left; by right|]. injection E as <-. destruct Hy as [-> | ->]; [left; by left|by right].
  - pose proof (I2 y ltac:(by right)). intros z [Hz|Hz].
    + apply elem_of_cons in Hz as [->|Hz]; [lia|]. apply I2. by left.
    + specialize (Hyo z Hz). lia.
Qed.
End Tree.

(** ** Vertices that differ in their children *)

Definition vx_core (x : vertex) := (vx_lsa x, vx_addr x, vx_distance x, vx_parents x).

Definition alike (V V' : gmap Z vertex) : Prop := forall k, vx_core <$> V !! k = vx_core <$> V' !! k.

#[global] Instance alike_equiv : Equivalence alike.
Proof. split; [by intros V k|by intros V V' H k; rewrite H|intros V V' V'' H H' k; by rewrite H]. Qed.

Lemma alike_insert V k x x' : V !! k = Some x -> vx_core x' = vx_core x -> alike V (<[k := x']> V).
Proof.
  intros Hx E j. destruct (decide (k = j)) as [<-|]; [|by rewrite lookup_insert_ne].
  rewrite lookup_insert_eq, Hx. cbn. by rewrite E.
Qed.

Lemma alike_back V V' k x' : alike V V' -> V' !! k = Some x' -> exists x, V !! k = Some x /\ vx_core x = vx_core x'.
Proof.
  intros H Hx. specialize (H k). rewrite Hx in H. destruct (V !! k) as [x|]; [|done].
  exists x. split; [done|]. by apply (inj Some).
Qed.

(** What is read of a vertex is the same. *)
Lemma core_facts a rk x x' : vx_core x = vx_core x' ->
  vx_lsa x' = vx_lsa x /\ vx_distance x' = vx_distance x /\ vx_parents x' = vx_parents x
  /\ vx_key x' = vx_key x /\ vx_type x' = vx_type x /\ hops x' = hops x
  /\ forall e, next_hops a rk x' e = next_hops a rk x e.
Proof.
  unfold vx_core. intros E. injection E as E1 _ E2 E3. unfold vx_key, vx_type, hops, next_hops, vx_key, vx_type, hops.
  rewrite E1, E2, E3. done.
Qed.

Section Loop.
  Context (a : ospf_area) (root : area_lsa) (alloc : nat -> Z).
  Hypothesis Hok : area_ok a root.
Local Notation rk := (al_key root).
Local Notation inv := (spf_inv a root).

(** Replace a vertex of [V'] in the hypothesis [H] by the one of [V]. *)
Ltac core_back Hal H :=
  let x := fresh "x" in let Hx := fresh "Hx" in let Hc := fresh "Hc" in
  destruct (alike_back _ _ _ _ Hal H) as (x & Hx & Hc);
  let E1 := fresh in let E2 := fresh in let E3 := fresh in let E4 := fresh in let E5 := fresh in
  let E6 := fresh in let E7 := fresh "Hnh" in
  destruct (core_facts a rk _ _ Hc) as (E1 & E2 & E3 & E4 & E5 & E6 & E7);
  rewrite ?E1, ?E2, ?E3, ?E4, ?E5, ?E6, ?E7 in *; clear Hc.

Lemma alike_forth V V' k x : alike V V' -> V !! k = Some x -> exists x', V' !! k = Some x' /\ vx_core x = vx_core x'.
Proof. intros H Hx. destruct (alike_back V' V k x ltac:(by symmetry) Hx) as (x' & ? & ?). by exists x'. Qed.

Lemma inv_alike kv es V V' T : alike V V' -> inv kv es V T -> inv kv es V' T.
Proof.
  intros Hal [H1 H2 H3 H4 H5 H6 H7 H8]. split.
  - intros k x' Hx'. core_back Hal Hx'. eauto.
  - destruct H2 as (x & Hx & ?). destruct (alike_forth _ _ _ _ Hal Hx) as (x' & Hx' & Hc).
    exists x'. destruct (core_facts a rk _ _ Hc) as (-> & -> & -> & _). done.
  - destruct H3 as (? & ? & H3). split_and!; try done. intros k Hk. destruct (H3 k Hk) as [x Hx].
    destruct (alike_forth _ _ _ _ Hal Hx) as (x' & Hx' & _). by exists x'.
  - intros k x' Hx'. core_back Hal Hx'. eauto.
  - intros k x' j y' Hk Hx' Hj Hy'. core_back Hal Hx'. core_back Hal Hy'. eauto.
  - intros k x' e Hk Hx' He Hd Hn. core_back Hal Hx'.
    destruct (H6 _ _ _ Hk ltac:(eassumption) He Hd Hn) as (y & Hy & ?).
    destruct (alike_forth _ _ _ _ Hal Hy) as (y' & Hy' & Hc). exists y'.
    destruct (core_facts a rk _ _ Hc) as (_ & -> & _ & _ & _ & -> & _). done.
  - intros k y' Hy' Hk. core_back Hal Hy'. eauto.
  - intros k y' p Hy' Hp. core_back Hal Hy'.
    destruct (H8 _ _ _ ltac:(eassumption) Hp) as (? & z & e & Hz & ?). split; [done|].
    destruct (alike_forth _ _ _ _ Hal Hz) as (z' & Hz' & Hc). exists z', e.
    destruct (core_facts a rk _ _ Hc) as (-> & -> & _ & _ & _ & _ & ->). done.
Qed.

Lemma current_alike v V V' T : alike V V' -> V' !! vx_key v = Some v -> current v V T -> current v V' T.
Proof.
  intros Hal Hv [C1 C2 C3 C4]. split; [done..| |done]. intros k x' Hk Hx'. core_back Hal Hx'. eauto.
Qed.

(** ** Taking a vertex *)

Definition keyed (V : gmap Z vertex) : Prop := forall k x, V !! k = Some x -> vx_key x = k.

Lemma add_parent_alike v st :
  keyed (sp_vertices st) ->
  alike (sp_vertices st) (sp_vertices (ospf_vertex_add_parent v st))
  /\ sp_tree (ospf_vertex_add_parent v st) = sp_tree st /\ sp_out (ospf_vertex_add_parent v st) = sp_out st
  /\ forall k, (forall p, p ∈ vx_parents v -> vp_parent p <> k) ->
     sp_vertices (ospf_vertex_add_parent v st) !! k = sp_vertices st !! k.
Proof.
  unfold ospf_vertex_add_parent. generalize (vx_key v). intros kv. revert st.
  induction (vx_parents v) as [|p ps IH]; intros st Hk; [by split_and!|]. cbn [fold_left].
  set (st1 := match sp_vertices st !! vp_parent p with Some _ => _ | None => _ end).
  assert (H1 : keyed (sp_vertices st1) /\ alike (sp_vertices st) (sp_vertices st1) /\ sp_tree st1 = sp_tree st
    /\ sp_out st1 = sp_out st /\ forall k, vp_parent p <> k -> sp_vertices st1 !! k = sp_vertices st !! k).
  { unfold st1. destruct (sp_vertices st !! vp_parent p) as [x|] eqn:Ex; [|by split_and!].
    case_bool_decide; [by split_and!|]. unfold set_vertex. cbn.
    change (vx_key (set_vx_children (vx_children x ++ [kv]) x)) with (vx_key x). rewrite (Hk _ _ Ex). split_and!; try done.
    - intros k y Hy. destruct (decide (vp_parent p = k)) as [<-|]; [|rewrite lookup_insert_ne in Hy by done; eauto].
      rewrite lookup_insert_eq in Hy. injection Hy as <-. exact (Hk _ _ Ex).
    - by eapply alike_insert.
    - intros k Hne. by rewrite lookup_insert_ne. }
  clearbody st1. destruct H1 as (K1 & A1 & T1 & O1 & L1). destruct (IH st1 K1) as (A2 & T2 & O2 & L2).
  split_and!; [by etrans|by rewrite T2|by rewrite O2|].
  intros k Hne. rewrite L2 by (intros q Hq; apply Hne; by right). apply L1, Hne. by left.
Qed.

(** All edges of the vertices in the tree are relaxed. *)
Definition settled_edges (V : gmap Z vertex) (T : list Z) : Prop :=
  exists v es, inv (vx_key v) es V T /\ current v V T /\ edges a (vx_lsa v) ⊆ es.

Lemma settled_done V T v es k x e :
  inv (vx_key v) es V T -> current v V T -> edges a (vx_lsa v) ⊆ es ->
  V !! k = Some x -> e ∈ edges a (vx_lsa x) -> relaxed (vx_key v) es k e.
Proof.
  intros H C Hes Hx He. destruct (decide (k = vx_key v)) as [->|]; [right|by left].
  rewrite (cu_vertex _ _ _ C) in Hx. injection Hx as <-. by apply Hes.
Qed.

Lemma candidates_spec st x :
  keyed (sp_vertices st) ->
  x ∈ candidates st <-> sp_vertices st !! vx_key x = Some x /\ vx_key x ∉ sp_tree st.
Proof.
  intros Hk. unfold candidates. rewrite list_elem_of_In, filter_In, in_map_iff. unfold in_tree.
  rewrite negb_true_iff, bool_decide_eq_false. split.
  - intros [([k y] & <- & Hy) Hn]. split; [|done]. apply list_elem_of_In, elem_of_map_to_list in Hy.
    cbn in *. by rewrite (Hk _ _ Hy).
  - intros [Hx Hn]. split; [|done]. exists (vx_key x, x). split; [done|]. by apply list_elem_of_In, elem_of_map_to_list.
Qed.

Lemma tree_length kv es V T : inv kv es V T -> (length T <= length (ar_lsdb a))%nat.
Proof.
  intros H. destruct (iv_tree _ _ _ _ _ _ H) as (Hn & _ & Ht).
  rewrite <- (length_map al_key (ar_lsdb a)). apply NoDup_incl_length; [by apply NoDup_ListNoDup|].
  intros k Hk. apply list_elem_of_In in Hk. destruct (Ht k Hk) as [x Hx].
  destruct (iv_vertex _ _ _ _ _ _ H _ _ Hx) as (<- & Hd & _). apply list_elem_of_In in Hd.
  by apply (in_map al_key) in Hd.
Qed.

Lemma inv_rankable kv es V T k x : inv kv es V T -> V !! k = Some x -> rankable x.
Proof using Hok.
  intros H Hx. destruct (iv_vertex _ _ _ _ _ _ H _ _ Hx) as (_ & _ & Ht). split; [|done].
  destruct (iv_range _ _ _ _ _ _ H _ _ Hx) as [Hr _]. pose proof (tree_length _ _ _ _ H).
  pose proof (ao_size _ _ Hok). lia.
Qed.

(** The vertex with the smallest rank among the candidates is put into the tree. *)
Lemma inv_take v0 es V T v :
  inv (vx_key v0) es V T -> current v0 V T -> edges a (vx_lsa v0) ⊆ es ->
  V !! vx_key v = Some v -> vx_key v ∉ T ->
  (forall x, V !! vx_key x = Some x -> vx_key x ∉ T -> rank v <= rank x) ->
  inv (vx_key v) [] V (T ++ [vx_key v]) /\ current v V (T ++ [vx_key v]).
Proof.
  intros H C Hes Hv Hn Hmin. pose proof (settled_done V T v0 es) as Hdone. pose proof H as [H1 H2 H3 H4 H5 H6 H7 H8].
  assert (Hmin' : forall k x, V !! k = Some x -> k ∉ T -> vx_distance v <= vx_distance x
    /\ (vx_type v = OSPF_ROUTER_LSA -> vx_type x = OSPF_NETWORK_LSA -> vx_distance v < vx_distance x)).
  { intros k x Hx Hk. destruct (H1 _ _ Hx) as (<- & _). specialize (Hmin x Hx Hk). unfold rank in Hmin. split.
    - destruct (_ =? _) in Hmin; destruct (_ =? _) in Hmin; lia.
    - intros E1 E2. rewrite E1, E2 in Hmin. cbn in Hmin. lia. }
  assert (HT : forall k, k ∈ T ++ [vx_key v] <-> k ∈ T \/ k = vx_key v)
    by (intros k; by rewrite elem_of_app, list_elem_of_singleton).
  split; [split; [done|done|..]|split].
  - destruct H3 as (Hnd & Hr & Ht). split_and!.
    + apply list.NoDup_app. split; [done|]. split; [|apply NoDup_singleton]. intros k Hk Hk'.
      apply list_elem_of_singleton in Hk' as ->. done.
    + apply HT. by left.
    + intros k Hk. apply HT in Hk as [?| ->]; eauto.
  - intros k x Hx. rewrite length_app. cbn. destruct (H4 _ _ Hx). split; [lia|done].
  - intros k x j y Hk Hx Hj Hy. rewrite HT in Hj. apply HT in Hk as [Hk| ->].
    + apply (H5 k x j y); tauto.
    + rewrite Hv in Hx. injection Hx as <-. apply (Hmin' j y); tauto.
  - intros k x e Hk Hx He [Hd|Hd] Hne; [|by apply elem_of_nil in Hd]. apply HT in Hk as [Hk| ->]; [|done].
    apply (H6 k x e); try done. by apply (Hdone k x e).
  - done.
  - intros k y p Hy Hp. destruct (H8 _ _ _ Hy Hp) as (? & ?). split; [|done]. apply HT. by left.
  - done.
  - apply HT. by right.
  - intros k x Hk Hx. apply HT in Hk as [Hk| ->]; [by apply (H5 k x (vx_key v) v)|].
    rewrite Hv in Hx. injection Hx as <-. split; [lia|]. intros E1 E2. by rewrite E1 in E2.
  - rewrite length_app. cbn. destruct (H4 _ _ Hv). lia.
Qed.

Lemma inv_keyed kv es V T : inv kv es V T -> keyed V.
Proof. intros H k x Hx. by apply (iv_vertex _ _ _ _ _ _ H). Qed.

Lemma candidates_rankable kv es st :
  inv kv es (sp_vertices st) (sp_tree st) -> Forall rankable (candidates st).
Proof using Hok.
  intros H. apply Forall_forall. intros x Hx.
  apply list_elem_of_In, candidates_spec in Hx as [Hx _]; [by eapply inv_rankable|by eapply inv_keyed].
Qed.

Lemma spf_take_inv v0 es st v :
  inv (vx_key v0) es (sp_vertices st) (sp_tree st) -> current v0 (sp_vertices st) (sp_tree st) ->
  edges a (vx_lsa v0) ⊆ es -> vertex_pqueue_pop st = Some v ->
  inv (vx_key v) [] (sp_vertices (spf_take v st)) (sp_tree (spf_take v st))
  /\ current v (sp_vertices (spf_take v st)) (sp_tree (spf_take v st))
  /\ length (sp_tree (spf_take v st)) = S (length (sp_tree st)).
Proof using Hok.
  intros H C Hes Hpop. pose proof (inv_keyed _ _ _ _ H) as Hk.
  unfold vertex_pqueue_pop in Hpop. pose proof (first_vertex_spec (candidates st) None) as Hf. rewrite Hpop in Hf.
  destruct (Hf (candidates_rankable _ _ _ H) ltac:(done)) as [[Hv|?] Hmin]; [|done]. clear Hf.
  apply candidates_spec in Hv as [Hv Hn]; [|done].
  destruct (inv_take v0 es _ _ v H C Hes Hv Hn) as [Hi Hc].
  { intros x Hx Hnx. apply Hmin. left. by apply candidates_spec. }
  set (st1 := mkSpf (sp_vertices st) (sp_tree st ++ [vx_key v]) (sp_created st) (sp_transit st) (sp_out st)).
  destruct (add_parent_alike v st1 Hk) as (Hal & Ht & _ & Hl). unfold spf_take. fold st1. cbn [sp_vertices sp_tree].
  rewrite Ht. split_and!.
  - by apply (inv_alike _ _ _ _ _ Hal).
  - apply (current_alike _ _ _ _ Hal); [|done]. rewrite Hl; [done|]. intros p Hp E.
    destruct (iv_from _ _ _ _ _ _ H _ _ _ Hv Hp) as [Hp' _]. by rewrite E in Hp'.
  - cbn. rewrite length_app. cbn. lia.
Qed.

Lemma noted_same v st : sp_vertices (noted v st) = sp_vertices st /\ sp_tree (noted v st) = sp_tree st.
Proof. unfold noted. by case_bool. Qed.

Lemma spf_loop_settles fuel : forall v st,
  inv (vx_key v) [] (sp_vertices st) (sp_tree st) -> current v (sp_vertices st) (sp_tree st) ->
  (S (length (ar_lsdb a)) <= fuel + length (sp_tree st))%nat ->
  exists st', spf_loop fuel a alloc rk v st = Ret st' /\ settled_edges (sp_vertices st') (sp_tree st')
    /\ candidates st' = [].
Proof using Hok.
  induction fuel as [|fuel IH]; intros v st H C Hf.
  { pose proof (tree_length _ _ _ _ H). cbn in Hf. lia. }
  cbn [spf_loop]. destruct (noted_same v st) as [Nv Nt].
  rewrite (spf_next_relax a root Hok alloc v st).
  2: by apply (iv_vertex _ _ _ _ _ _ H _ _ (cu_vertex _ _ _ C)).
  2: by apply (iv_vertex _ _ _ _ _ _ H _ _ (cu_vertex _ _ _ C)).
  2: { destruct (inv_rankable _ _ _ _ _ _ H (cu_vertex _ _ _ C)) as [? _]. lia. }
  destruct (relax_all_inv a root alloc Hok v (edges a (vx_lsa v)) [] (noted v st)) as (st1 & -> & T1 & _ & H1 & C1);
    [by rewrite Nv, Nt|by rewrite Nv, Nt|done|]. cbn [mbind outcome_bind].
  assert (Hes : edges a (vx_lsa v) ⊆ rev (edges a (vx_lsa v)) ++ []).
  { intros e He. rewrite app_nil_r. apply list_elem_of_In. rewrite <- in_rev. by apply list_elem_of_In. }
  destruct (vertex_pqueue_pop st1) as [w|] eqn:Ep.
  - destruct (spf_take_inv _ _ _ _ H1 C1 Hes Ep) as (H2 & C2 & L2). apply IH; [done..|]. rewrite L2, T1, Nt. lia.
  - exists st1. split; [done|]. split; [by eexists _, _|]. unfold vertex_pqueue_pop in Ep.
    pose proof (first_vertex_spec (candidates st1) None) as Hfv. rewrite Ep in Hfv.
    by apply Hfv; [eapply candidates_rankable|].
Qed.

Lemma init_inv v st : ospf_spf_init alloc root = (v, st) ->
  inv (vx_key v) [] (sp_vertices st) (sp_tree st) /\ current v (sp_vertices st) (sp_tree st)
  /\ length (sp_tree st) = 1%nat.
Proof using Hok.
  unfold ospf_spf_init. intros E. injection E as <- <-. cbn [sp_vertices sp_tree].
  change (vx_key _) with rk. set (v := mkVertex _ _ _ _ _ _).
  assert (Hs : forall k x, ({[rk := v]} : gmap Z vertex) !! k = Some x -> k = rk /\ x = v).
  { intros k x Hx. by apply lookup_singleton_Some in Hx as [<- <-]. }
  assert (Hv : ({[rk := v]} : gmap Z vertex) !! rk = Some v) by apply lookup_singleton_eq.
  split; [split|split; [split|done]].
  - intros k x Hx. destruct (Hs _ _ Hx) as [-> ->]. split_and!; [done|apply Hok|left; apply Hok].
  - by exists v.
  - split_and!; [apply NoDup_singleton|by left|]. intros k Hk. apply list_elem_of_singleton in Hk as ->. by exists v.
  - intros k x Hx. destruct (Hs _ _ Hx) as [-> ->]. cbn. split; [lia|done].
  - intros k x j y Hk Hx Hj Hy. destruct (Hs _ _ Hy) as [-> _]. by destruct Hj; left.
  - intros k x e Hk Hx He [Hd|Hd]; [|by apply elem_of_nil in Hd]. by destruct (Hs _ _ Hx).
  - intros k y Hy Hk. by destruct (Hs _ _ Hy).
  - intros k y p Hy Hp. destruct (Hs _ _ Hy) as [-> ->]. by apply elem_of_nil in Hp.
  - done.
  - by left.
  - intros k x Hk Hx. destruct (Hs _ _ Hx) as [-> ->]. split; [done|]. intros E1 E2. by rewrite E1 in E2.
  - done.
Qed.

Lemma spf_tree_settles : exists st,
  spf_tree a alloc root = Ret st /\ settled_edges (sp_vertices st) (sp_tree st) /\ candidates st = [].
Proof using Hok.
  unfold spf_tree. destruct (ospf_spf_init alloc root) as [v st] eqn:E.
  destruct (init_inv v st E) as (H & C & L). apply spf_loop_settles; [done..|]. rewrite L. lia.
Qed.
End Loop.
