(* ===== verification/OspfSpfPaths.v ===== *)
(** * The children of vertices, shortest paths and next hops

    A vertex is a child of every parent, once it is in the tree; the routes to the
    vertices are entered in the order of the tree.

    The reference: paths along the edges of an area, from the root, that start at an
    interface of the root.  The calculation finds the shortest of them, and every
    next hop that begins one. *)
From stdpp Require Import gmap sets.
From Stdlib Require Import Sorting.Sorted.
From S2P Require Import Prelude Prefix OspfLsa OspfIsm OspfNsm OspfDbDescFacts OspfSpf OspfSpfFacts OspfSpfTree.

(** ** Relaxing edges leaves the tree alone *)

Lemma add_parent_rest v w h lh d w' : ospf_spf_add_parent v w h lh d = Ret w' -> vx_rest w' = vx_rest w.
Proof.
  unfold ospf_spf_add_parent. case_bool; [|done]. case_bool; [|done].
  intros E. injection E as <-. by repeat case_bool.
Qed.

Lemma add_parents_rest v d hs : forall w w', add_parents v w hs d = Ret w' -> vx_rest w' = vx_rest w.
Proof.
  induction hs as [|[h lh] hs IH]; intros w w' E; cbn [add_parents] in E; [by injection E as <-|].
  destruct (ospf_spf_add_parent v w h lh d) as [w1|] eqn:E1; [|done]. cbn in E.
  rewrite (IH _ _ E). by apply (add_parent_rest v w h lh d).
Qed.

Lemma nexthop_rest a root v w l d pos b w' :
  ospf_nexthop_calculation a root v w l d pos = Ret (b, w') -> vx_rest w' = vx_rest w.
Proof.
  unfold ospf_nexthop_calculation. intros E. destruct (vx_key v =? root).
  - destruct l as [l|]; [|done]. case_bool; [|done]. destruct (root_nexthop _ _ _ _ _) as [h|]; [|by injection E as _ <-].
    destruct (add_parents _ _ _ _) as [w1|] eqn:E1; [|done]. injection E as _ <-. by eapply add_parents_rest.
  - case_bool; [|done]. destruct (if vx_type v =? OSPF_VERTEX_NETWORK then _ else _);
      (destruct (add_parents _ _ _ _) as [w1|] eqn:E1; [|done]); injection E as _ <-; by eapply add_parents_rest.
Qed.

(** A vertex without children that is not processed. *)
Definition childless (x : vertex) : Prop := vx_children x = [] /\ vx_processed x = false.

(** The state [st'] after relaxing: the tree is as before, and the candidates have no
    children when they had none. *)
Definition framed (st st' : spf_state) : Prop :=
  sp_tree st' = sp_tree st /\ sp_out st' = sp_out st
  /\ (forall k, k ∈ sp_tree st -> sp_vertices st' !! k = sp_vertices st !! k)
  /\ (keyed (sp_vertices st) -> keyed (sp_vertices st'))
  /\ ((forall k x, sp_vertices st !! k = Some x -> k ∉ sp_tree st -> childless x) ->
      forall k x, sp_vertices st' !! k = Some x -> k ∉ sp_tree st -> childless x).

#[global] Instance framed_preorder : PreOrder framed.
Proof.
  split; [by intros st; split_and!; auto|]. intros s1 s2 s3 (T1 & O1 & L1 & K1 & C1) (T2 & O2 & L2 & K2 & C2).
  unfold framed. rewrite T2, O2. rewrite T1 in *. split_and!; [done|done|..].
  - intros k Hk. by rewrite L2, L1.
  - auto.
  - intros H. by apply C2, C1.
Qed.

Lemma set_framed st w created : vx_key w ∉ sp_tree st ->
  ((forall k x, sp_vertices st !! k = Some x -> k ∉ sp_tree st -> childless x) -> childless w) ->
  framed st (set_vertex w (mkSpf (sp_vertices st) (sp_tree st) created (sp_transit st) (sp_out st))).
Proof.
  intros Hn Hc. unfold set_vertex. split_and!; cbn; [done|done|..].
  - intros k Hk. apply lookup_insert_ne. by intros <-.
  - intros Hk k x Hx. destruct (decide (vx_key w = k)) as [<-|]; [|rewrite lookup_insert_ne in Hx by done; eauto].
    rewrite lookup_insert_eq in Hx. by injection Hx as <-.
  - intros Hf k x Hx Hk. destruct (decide (vx_key w = k)) as [<-|]; [|rewrite lookup_insert_ne in Hx by done; eauto].
    rewrite lookup_insert_eq in Hx. injection Hx as <-. auto.
Qed.

Lemma relax_framed a alloc root v l pos to d st st' :
  keyed (sp_vertices st) -> spf_relax a alloc root v l pos to d st = Ret st' -> framed st st'.
Proof.
  intros Hk. unfold spf_relax, in_tree. case_bool_decide as Hin; [by intros E; injection E as <-|].
  destruct (sp_vertices st !! al_key to) as [w|] eqn:Ew.
  - case_bool; [by intros E; injection E as <-|].
    destruct (ospf_nexthop_calculation _ _ _ _ _ _ _) as [[b w']|] eqn:En; [|done]. cbn.
    intros E. injection E as <-. apply nexthop_rest in En. unfold vx_rest in En. injection En as El _ Ec Ep.
    assert (Kw : vx_key w' = al_key to) by (rewrite <- (Hk _ _ Ew); unfold vx_key; by rewrite El).
    apply (set_framed st w' (sp_created st)); [by rewrite Kw|]. intros Hf. unfold childless. rewrite Ec, Ep. by apply (Hf _ _ Ew).
  - destruct (ospf_nexthop_calculation _ _ _ _ _ _ _) as [[b w']|] eqn:En; [|done]. cbn.
    intros E. injection E as <-. apply nexthop_rest in En. unfold vx_rest in En. injection En as El _ Ec Ep. destruct b.
    + apply set_framed; [unfold vx_key; by rewrite El|]. intros _. by split.
    + by split_and!; auto.
Qed.

Lemma relax_all_framed a root alloc v es : forall st st',
  keyed (sp_vertices st) -> relax_all a root alloc v es st = Ret st' -> framed st st'.
Proof.
  induction es as [|e es IH]; intros st st' Hk E; cbn [relax_all] in E; [injection E as <-; reflexivity|].
  destruct (spf_relax _ _ _ _ _ _ _ _ _) as [st1|] eqn:E1; [|done]. cbn in E.
  pose proof (relax_framed _ _ _ _ _ _ _ _ _ _ Hk E1) as F1. etrans; [exact F1|].
  apply (IH st1 st'); [|done]. by apply F1.
Qed.

(** ** Becoming a child *)

Lemma add_parent_children v st : keyed (sp_vertices st) -> forall k x',
  sp_vertices (ospf_vertex_add_parent v st) !! k = Some x' ->
  exists x, sp_vertices st !! k = Some x /\ vx_processed x' = vx_processed x
    /\ forall c, c ∈ vx_children x' <->
         c ∈ vx_children x \/ c = vx_key v /\ exists p, p ∈ vx_parents v /\ vp_parent p = k.
Proof.
  unfold ospf_vertex_add_parent. generalize (vx_key v). intros kv. revert st.
  induction (vx_parents v) as [|p ps IH]; intros st Hk k x' Hx'; cbn [fold_left] in Hx'.
  { exists x'. split_and!; [done..|]. intros c. split; [by left|]. intros [?|(_ & p & Hp & _)]; [done|by apply elem_of_nil in Hp]. }
  set (st1 := match sp_vertices st !! vp_parent p with Some _ => _ | None => _ end) in Hx'.
  assert (H1 : keyed (sp_vertices st1) /\ forall j x1, sp_vertices st1 !! j = Some x1 ->
    exists x, sp_vertices st !! j = Some x /\ vx_processed x1 = vx_processed x
      /\ forall c, c ∈ vx_children x1 <-> c ∈ vx_children x \/ c = kv /\ vp_parent p = j).
  { unfold st1. destruct (sp_vertices st !! vp_parent p) as [x|] eqn:Ex.
    2: { split; [done|]. intros j x1 H1. exists x1. split_and!; [done..|]. intros c. split; [by left|].
         intros [?|[_ E]]; [done|]. subst j. by rewrite Ex in H1. }
    case_bool_decide as Hc.
    { split; [done|]. intros j x1 H1. exists x1. split_and!; [done..|]. intros c. split; [by left|].
      intros [?|[-> E]]; [done|]. subst j. rewrite Ex in H1. by injection H1 as <-. }
    unfold set_vertex. cbn. change (vx_key (set_vx_children _ x)) with (vx_key x). rewrite (Hk _ _ Ex).
    split; intros j x1 H1; (destruct (decide (vp_parent p = j)) as [<-|Hne]; [rewrite lookup_insert_eq in H1; injection H1 as <-|
      rewrite lookup_insert_ne in H1 by done]).
    - exact (Hk _ _ Ex).
    - auto.
    - exists x. split_and!; [done..|]. intros c. cbn. rewrite elem_of_app, list_elem_of_singleton. tauto.
    - exists x1. split_and!; [done..|]. intros c. tauto. }
  clearbody st1. destruct H1 as [K1 H1]. destruct (IH st1 K1 k x' Hx') as (x1 & Hx1 & P1 & C1).
  destruct (H1 _ _ Hx1) as (x & Hx & P2 & C2). exists x. split_and!; [done|congruence|]. intros c. rewrite C1, C2. split.
  - intros [[?|[-> E]]|(-> & q & Hq & E)]; [by left|right..].
    + split; [done|]. exists p. split; [by left|done].
    + split; [done|]. exists q. split; [by right|done].
  - intros [?|(-> & q & Hq & E)]; [by left; left|]. apply elem_of_cons in Hq as [->|Hq]; [by left; right|].
    right. split; [done|]. by exists q.
Qed.

(** ** The books of the first stage *)

Definition tree_route (V : gmap Z vertex) (k : Z) : spf_effect :=
  match V !! k with
  | Some x => if vx_type x =? OSPF_VERTEX_ROUTER then IntraAddRouter k else IntraAddTransit k
  | None => IntraAddTransit k
  end.

(** [c] is in the tree and has the vertex [k] as parent. *)
Definition child_of (V : gmap Z vertex) (T : list Z) (k c : Z) : Prop :=
  c ∈ T /\ exists y p, V !! c = Some y /\ p ∈ vx_parents y /\ vp_parent p = k.

Definition dist_at (V : gmap Z vertex) (k : Z) : Z := default 0 (vx_distance <$> V !! k).

(** The tree is in the order of distances. *)
Definition in_order (V : gmap Z vertex) (T : list Z) : Prop := StronglySorted (fun i j => dist_at V i <= dist_at V j) T.

Lemma in_order_ext V V' T : (forall k, k ∈ T -> dist_at V' k = dist_at V k) -> in_order V T -> in_order V' T.
Proof.
  unfold in_order. induction T as [|k T IH]; intros H Hs; [constructor|]. apply StronglySorted_inv in Hs as [Hs Hf].
  constructor; [apply IH; [|done]; intros j Hj; apply H; by right|]. rewrite Forall_forall in *. intros j Hj.
  rewrite !H; [by apply Hf|right; by apply list_elem_of_In|by left].
Qed.

Lemma in_order_snoc V T k : (forall j, j ∈ T -> dist_at V j <= dist_at V k) -> in_order V T -> in_order V (T ++ [k]).
Proof.
  unfold in_order. induction T as [|i T IH]; intros H Hs; cbn; [repeat constructor|].
  apply StronglySorted_inv in Hs as [Hs Hf]. constructor; [apply IH; [|done]; intros j Hj; apply H; by right|].
  rewrite Forall_forall in *. intros j Hj. apply in_app_or in Hj as [Hj|[<-|[]]]; [by apply Hf|]. apply H. by left.
Qed.

Record books (rk : Z) (st : spf_state) : Prop := mkBooks {
  bk_kids : forall k x, sp_vertices st !! k = Some x ->
    vx_processed x = false /\ forall c, c ∈ vx_children x <-> child_of (sp_vertices st) (sp_tree st) k c;
  bk_out : exists ks, sp_tree st = rk :: ks /\ sp_out st = map (tree_route (sp_vertices st)) ks;
  bk_order : in_order (sp_vertices st) (sp_tree st)
}.

Section Books.
  Context (a : ospf_area) (root : area_lsa) (alloc : nat -> Z).
  Hypothesis Hok : area_ok a root.
Local Notation rk := (al_key root).
Local Notation inv := (spf_inv a root).

Lemma routes_ext V V' ks :
  (forall k, k ∈ ks -> vx_lsa <$> V' !! k = vx_lsa <$> V !! k) -> map (tree_route V') ks = map (tree_route V) ks.
Proof.
  intros H. apply map_ext_in. intros k Hk. apply list_elem_of_In, H in Hk. unfold tree_route, vx_type.
  destruct (V' !! k), (V !! k); try done. cbn in Hk. by injection Hk as ->.
Qed.

Lemma books_framed kv es st st' :
  inv kv es (sp_vertices st) (sp_tree st) -> books rk st -> framed st st' -> books rk st'.
Proof.
  intros H [B1 (ks & B2 & B3) B4] (FT & FO & FL & _ & FC).
  assert (Hno : forall k c, k ∉ sp_tree st -> ~ child_of (sp_vertices st) (sp_tree st) k c).
  { intros k c Hk (Hc & y & p & Hy & Hp & <-). by destruct (iv_from _ _ _ _ _ _ H _ _ _ Hy Hp) as [? _]. }
  assert (Hch : forall k c, child_of (sp_vertices st') (sp_tree st') k c <-> child_of (sp_vertices st) (sp_tree st) k c).
  { intros k c. unfold child_of. rewrite FT. split; intros (Hc & y & p & Hy & ?); (split; [done|]); exists y, p;
      [by rewrite <- FL|by rewrite FL]. }
  split.
  - intros k x Hx. destruct (decide (k ∈ sp_tree st)) as [Hk|Hk].
    + rewrite (FL _ Hk) in Hx. destruct (B1 _ _ Hx) as [? Hc]. split; [done|]. intros c. by rewrite Hch.
    + destruct (FC) with k x as [E1 E2]; [|done..|].
      { intros j y Hy Hj. destruct (B1 _ _ Hy) as [? Hc]. split; [|done]. destruct (vx_children y) as [|c cs] eqn:Ec; [done|].
        exfalso. apply (Hno j c Hj), Hc. by left. }
      split; [done|]. intros c. rewrite E1, Hch, elem_of_nil. split; [done|]. by apply Hno.
  - exists ks. rewrite FT, FO. split; [done|]. rewrite B3. apply routes_ext. intros k Hk. rewrite FL; [done|].
    rewrite B2. by right.
  - rewrite FT. apply (in_order_ext (sp_vertices st)); [|done]. intros k Hk. unfold dist_at. by rewrite FL.
Qed.

Lemma books_take st v :
  keyed (sp_vertices st) -> books rk st -> sp_vertices st !! vx_key v = Some v -> vx_key v ∉ sp_tree st ->
  (forall k x, k ∈ sp_tree st -> sp_vertices st !! k = Some x -> vx_distance x <= vx_distance v) ->
  (forall k, k ∈ sp_tree st -> is_Some (sp_vertices st !! k)) -> books rk (spf_take v st).
Proof.
  intros Hk [B1 (ks & B2 & B3) B4] Hv Hn Hord Hlk. unfold spf_take.
  set (st1 := mkSpf (sp_vertices st) (sp_tree st ++ [vx_key v]) (sp_created st) (sp_transit st) (sp_out st)).
  destruct (add_parent_alike v st1 Hk) as (Hal & Ht & Ho & _). pose proof (add_parent_children v st1 Hk) as Hc.
  cbn [sp_vertices sp_tree sp_out st1] in Hal, Ht, Ho, Hc.
  assert (Hlsa : forall k, vx_lsa <$> sp_vertices (ospf_vertex_add_parent v st1) !! k = vx_lsa <$> sp_vertices st !! k).
  { intros k. specialize (Hal k). destruct (sp_vertices st !! k), (sp_vertices (ospf_vertex_add_parent v st1) !! k); try done.
    cbn in *. unfold vx_core in Hal. by injection Hal as -> _ _ _. }
  split; cbn [sp_vertices sp_tree sp_out].
  - intros k x' Hx'. destruct (Hc k x' Hx') as (x & Hx & -> & Hcc). destruct (B1 _ _ Hx) as [Hp Hch].
    split; [done|]. intros c. rewrite Hcc, Hch. unfold child_of. rewrite Ht, elem_of_app, list_elem_of_singleton.
    assert (Hback : forall y', sp_vertices (ospf_vertex_add_parent v st1) !! c = Some y' ->
      exists y, sp_vertices st !! c = Some y /\ vx_parents y' = vx_parents y).
    { intros y' Hy'. destruct (alike_back _ _ _ _ Hal Hy') as (y & Hy & Hcore). exists y. split; [done|].
      by destruct (core_facts a rk _ _ Hcore) as (_ & _ & -> & _). }
    assert (Hforth : forall y, sp_vertices st !! c = Some y ->
      exists y', sp_vertices (ospf_vertex_add_parent v st1) !! c = Some y' /\ vx_parents y' = vx_parents y).
    { intros y Hy. destruct (alike_forth _ _ _ _ Hal Hy) as (y' & Hy' & Hcore). exists y'. split; [done|].
      by destruct (core_facts a rk _ _ Hcore) as (_ & _ & -> & _). }
    split.
    + intros [(Hin & y & p & Hy & Hpy & E)|(-> & p & Hpv & E)].
      * destruct (Hforth y Hy) as (y' & Hy' & Ep). split; [by left|]. exists y', p. by rewrite Ep.
      * destruct (Hforth v Hv) as (y' & Hy' & Ep). split; [by right|]. exists y', p. by rewrite Ep.
    + intros ([Hin| ->] & y' & p & Hy' & Hpy & E); destruct (Hback y' Hy') as (y & Hy & Ep); rewrite Ep in Hpy.
      * left. split; [done|]. by exists y, p.
      * right. split; [done|]. rewrite Hv in Hy. injection Hy as <-. by exists p.
  - exists (ks ++ [vx_key v]). rewrite Ht, Ho, B2, B3. split; [done|]. rewrite map_app. cbn [map].
    rewrite (routes_ext (sp_vertices st) (sp_vertices (ospf_vertex_add_parent v st1)) ks) by (intros; apply Hlsa). f_equal. unfold tree_route, vx_type.
    specialize (Hlsa (vx_key v)). rewrite Hv in Hlsa.
    destruct (sp_vertices (ospf_vertex_add_parent v st1) !! vx_key v); [|done]. cbn in Hlsa. by injection Hlsa as ->.
  - rewrite Ht. apply (in_order_ext (sp_vertices st)).
    + intros k _. unfold dist_at. specialize (Hal k).
      destruct (sp_vertices st !! k), (sp_vertices (ospf_vertex_add_parent v st1) !! k); try done.
      cbn in *. unfold vx_core in Hal. by injection Hal as _ _ -> _.
    + apply in_order_snoc; [|done]. intros j Hj. destruct (Hlk j Hj) as [x Hx]. unfold dist_at. rewrite Hx, Hv. cbn. eauto.
Qed.

Lemma pop_candidate kv es st v :
  inv kv es (sp_vertices st) (sp_tree st) -> vertex_pqueue_pop st = Some v ->
  sp_vertices st !! vx_key v = Some v /\ vx_key v ∉ sp_tree st.
Proof using Hok.
  intros H Hpop. unfold vertex_pqueue_pop in Hpop. pose proof (first_vertex_spec (candidates st) None) as Hf.
  rewrite Hpop in Hf. destruct (Hf (candidates_rankable a root Hok _ _ _ H) ltac:(done)) as [[Hv|?] _]; [|done].
  apply candidates_spec in Hv; [done|]. by eapply inv_keyed.
Qed.

Lemma spf_loop_books fuel : forall v st st',
  inv (vx_key v) [] (sp_vertices st) (sp_tree st) -> current v (sp_vertices st) (sp_tree st) -> books rk st ->
  spf_loop fuel a alloc rk v st = Ret st' -> books rk st'.
Proof using Hok.
  induction fuel as [|fuel IH]; intros v st st' H C B E; [done|]. cbn [spf_loop] in E. destruct (noted_same v st) as [Nv Nt].
  rewrite (spf_next_relax a root Hok alloc v st) in E.
  2: by apply (iv_vertex _ _ _ _ _ _ H _ _ (cu_vertex _ _ _ C)).
  2: by apply (iv_vertex _ _ _ _ _ _ H _ _ (cu_vertex _ _ _ C)).
  2: { destruct (inv_rankable a root Hok _ _ _ _ _ _ H (cu_vertex _ _ _ C)) as [? _]. lia. }
  destruct (relax_all_inv a root alloc Hok v (edges a (vx_lsa v)) [] (noted v st)) as (st1 & E1 & T1 & _ & H1 & C1);
    [by rewrite Nv, Nt|by rewrite Nv, Nt|done|]. rewrite E1 in E. cbn [mbind outcome_bind] in E.
  assert (F : framed (noted v st) st1).
  { apply (relax_all_framed a root alloc v (edges a (vx_lsa v))); [|done]. rewrite Nv. by eapply inv_keyed. }
  assert (B1 : books rk st1).
  { apply (books_framed (vx_key v) [] (noted v st)); [by rewrite Nv, Nt| |done].
    unfold noted. case_bool; [|done]. destruct B as [Bk Bo Bs]. by split. }
  assert (Hes : edges a (vx_lsa v) ⊆ rev (edges a (vx_lsa v)) ++ []).
  { intros e He. rewrite app_nil_r. apply list_elem_of_In. rewrite <- in_rev. by apply list_elem_of_In. }
  destruct (vertex_pqueue_pop st1) as [w|] eqn:Ep; [|by injection E as <-].
  destruct (spf_take_inv a root Hok _ _ _ _ H1 C1 Hes Ep) as (H2 & C2 & _).
  destruct (pop_candidate _ _ _ _ H1 Ep) as [Hw Hn].
  apply (IH w (spf_take w st1) st' H2 C2); [|done].
  apply books_take; try done; [by eapply inv_keyed| |by apply (iv_tree _ _ _ _ _ _ H1)].
  intros k x Hk Hx. by apply (iv_order _ _ _ _ _ _ H1 k x (vx_key w) w).
Qed.

Lemma spf_tree_books st : spf_tree a alloc root = Ret st -> books rk st.
Proof using Hok.
  unfold spf_tree. destruct (ospf_spf_init alloc root) as [v st0] eqn:E.
  destruct (init_inv a root alloc Hok v st0 E) as (H & C & _). apply spf_loop_books; [done..|].
  unfold ospf_spf_init in E. injection E as <- <-. split; cbn [sp_vertices sp_tree sp_out].
  - intros k x Hx. apply lookup_singleton_Some in Hx as [<- <-]. cbn. split; [done|]. intros c.
    rewrite elem_of_nil. split; [done|]. intros (Hc & y & p & Hy & Hp & _).
    apply lookup_singleton_Some in Hy as [_ <-]. by apply elem_of_nil in Hp.
  - by exists [].
  - repeat constructor.
Qed.
End Books.

(** An edge of the root is of use when there is a next hop for it. *)
Definition usable (a : ospf_area) (root u : area_lsa) (e : edge) : Prop :=
  al_key u = al_key root ->
  match e_link e with
  | Some l => is_Some (root_nexthop a u (e_to e) l (e_pos e))
  | None => False
  end.

(** [u] can be reached over links that cost [d] together. *)
Inductive path (a : ospf_area) (root : area_lsa) : area_lsa -> Z -> Prop :=
| path_root : path a root root 0
| path_edge u d e : path a root u d -> e ∈ edges a u -> usable a root u e -> path a root (e_to e) (d + e_cost e).

Definition shortest (a : ospf_area) (root u : area_lsa) (d : Z) : Prop :=
  path a root u d /\ forall d', path a root u d' -> d <= d'.

Section Paths.
  Context (a : ospf_area) (root : area_lsa).
  Hypothesis Hok : area_ok a root.
Local Notation rk := (al_key root).

(** What is true when the loop has ended. *)
  Context (V : gmap Z vertex) (T : list Z).
  Hypothesis Hset : settled_edges a root V T.
  Hypothesis Hall : forall k x, V !! k = Some x -> k ∈ T.

Lemma done_vertex k x : V !! k = Some x ->
  vx_key x = k /\ vx_lsa x ∈ ar_lsdb a /\ (vx_type x = OSPF_ROUTER_LSA \/ vx_type x = OSPF_NETWORK_LSA).
Proof using Hset. destruct Hset as (v & es & H & _). apply H. Qed.

Lemma done_root : exists x, V !! rk = Some x /\ vx_lsa x = root /\ vx_distance x = 0 /\ vx_parents x = [].
Proof using Hset. destruct Hset as (v & es & H & _). apply H. Qed.

Lemma done_edge k x e : V !! k = Some x -> e ∈ edges a (vx_lsa x) -> edge_ok a (vx_lsa x) e.
Proof using Hset Hok. intros Hx He. destruct (done_vertex k x Hx) as (_ & ? & ?). by apply (edges_ok a root Hok). Qed.

Lemma done_lsa u x : u ∈ ar_lsdb a -> V !! al_key u = Some x -> vx_lsa x = u.
Proof using Hset Hok. intros Hu Hx. destruct (done_vertex _ _ Hx) as (? & ? & _). by apply (area_key_inj a root Hok). Qed.

(** The next hops of an edge are none when the edge is of no use. *)
Lemma usable_next_hops k x e : V !! k = Some x -> e ∈ edges a (vx_lsa x) ->
  usable a root (vx_lsa x) e <-> next_hops a rk x e <> [].
Proof using Hset Hok.
  intros Hx He. pose proof (done_edge k x e Hx He) as Ho. unfold usable, next_hops, vx_key.
  destruct (Z.eqb_spec (al_key (vx_lsa x)) rk) as [E|E].
  - destruct (e_link e) as [l|]; [|split; [intros F; by destruct (F E)|done]].
    destruct (root_nexthop _ _ _ _ _); split; intros F; [done|by eexists|by destruct (F E)|done].
  - split; [|done]. intros _.
    assert (Hp : vx_parents x <> []).
    { destruct Hset as (v & es & H & _). destruct (done_vertex k x Hx) as (Ek & _). apply (iv_parents _ _ _ _ _ _ H k x Hx).
      by rewrite <- Ek. }
    destruct (_ && _) eqn:Eb; [|unfold hops; by destruct (vx_parents x)].
    apply andb_true_iff in Eb as [Et Ex]. apply Z.eqb_eq in Et. destruct (eo_network _ _ _ Ho Et) as [Hto _].
    pose proof (network_hops_some rk x (mkVertex (e_to e) 0 0 [] [] false) Ex) as Hn. apply Hn.
    by apply (back_links _ _ (eo_back _ _ _ Ho)).
Qed.

Lemma done_relaxed k x e : V !! k = Some x -> e ∈ edges a (vx_lsa x) -> next_hops a rk x e <> [] ->
  exists y, V !! al_key (e_to e) = Some y /\ vx_distance y <= vx_distance x + e_cost e
    /\ (vx_distance y = vx_distance x + e_cost e -> next_hops a rk x e ⊆ hops y).
Proof using Hset Hall.
  intros Hx He Hn. destruct Hset as (v & es & H & C & Hes). apply (iv_done _ _ _ _ _ _ H k); eauto.
  by apply (settled_done a root V T v es k x e H C Hes).
Qed.

Lemma done_from k y p : V !! k = Some y -> p ∈ vx_parents y ->
  exists x e, V !! vp_parent p = Some x /\ e ∈ edges a (vx_lsa x) /\ e_to e = vx_lsa y
    /\ vx_distance y = vx_distance x + e_cost e /\ vp_nexthop p ∈ next_hops a rk x e.
Proof using Hset. intros Hy Hp. destruct Hset as (v & es & H & _). by apply (iv_from _ _ _ _ _ _ H k y p). Qed.

(** No path is shorter than the distance of a vertex. *)
Lemma path_bound u d : path a root u d -> exists x, V !! al_key u = Some x /\ vx_lsa x = u /\ vx_distance x <= d.
Proof using Hset Hok Hall.
  induction 1 as [|u d e _ (x & Hx & <- & Hle) He Hu].
  { destruct done_root as (x & ? & ? & ? & _). exists x. split_and!; [done|done|lia]. }
  apply (usable_next_hops _ _ _ Hx He) in Hu. destruct (done_relaxed _ _ _ Hx He Hu) as (y & Hy & Hd & _).
  exists y. split_and!; [done| |lia]. apply done_lsa; [|done]. apply (done_edge _ _ _ Hx He).
Qed.

Lemma parent_rank x y e k : V !! k = Some x -> e ∈ edges a (vx_lsa x) -> e_to e = vx_lsa y ->
  vx_distance y = vx_distance x + e_cost e -> rank x < rank y.
Proof using Hset Hok.
  intros Hx He Hto Hd. pose proof (done_edge _ _ _ Hx He) as Ho. unfold rank.
  destruct (done_vertex _ _ Hx) as (_ & _ & [Ht|Ht]).
  - destruct (eo_router _ _ _ Ho Ht) as [_ Hc]. rewrite Ht. cbn. destruct (_ =? _); lia.
  - destruct (eo_network _ _ _ Ho Ht) as [Hr Hc]. unfold vx_type at 2. rewrite <- Hto, Hr, Ht. cbn. lia.
Qed.

(** The distance of a vertex is the length of a path. *)
Lemma vertex_path n : forall k y, rank y < Z.of_nat n -> V !! k = Some y -> path a root (vx_lsa y) (vx_distance y).
Proof using Hset Hok.
  induction n as [|n IH]; intros k y Hn Hy.
  { exfalso. destruct Hset as (v & es & H & _). destruct (iv_range _ _ _ _ _ _ H k y Hy) as [Hr _]. unfold rank in Hn.
    destruct (_ =? _) in Hn; lia. }
  destruct (decide (k = rk)) as [->|Hk].
  { destruct done_root as (x & Hx & E1 & E2 & _). rewrite Hy in Hx. injection Hx as <-. rewrite E1, E2. constructor. }
  destruct Hset as (v & es & H & _). pose proof (iv_parents _ _ _ _ _ _ H k y Hy Hk) as Hp.
  destruct (vx_parents y) as [|p ps] eqn:Ep; [done|].
  destruct (done_from k y p Hy ltac:(rewrite Ep; by left)) as (x & e & Hx & He & Hto & Hd & Hh).
  rewrite <- Hto, Hd. apply (path_edge a root (vx_lsa x)); [|done|].
  - apply (IH (vp_parent p) x); [|done]. pose proof (parent_rank _ _ _ _ Hx He Hto Hd). lia.
  - apply (usable_next_hops _ _ _ Hx He). intros E. rewrite E in Hh. by apply elem_of_nil in Hh.
Qed.
End Paths.

(** What the calculation finds: the vertices are the LSAs that can be reached, each
    once, at the length of their shortest path (an [int] without overflow); their next hops are those of every
    last edge of a shortest path. *)
Definition spf_exact (a : ospf_area) (root : area_lsa) (st : spf_state) : Prop :=
  NoDup (sp_tree st) /\ (forall k, k ∈ sp_tree st -> is_Some (sp_vertices st !! k))
  /\ (forall k x, sp_vertices st !! k = Some x -> k ∈ sp_tree st /\ al_key (vx_lsa x) = k
        /\ vx_lsa x ∈ ar_lsdb a /\ 0 <= vx_distance x < 2147483648)
  /\ (exists x, sp_vertices st !! al_key root = Some x /\ vx_distance x = 0 /\ vx_parents x = [])
  /\ (forall u d, u ∈ ar_lsdb a ->
        (exists x, sp_vertices st !! al_key u = Some x /\ vx_distance x = d) <-> shortest a root u d)
  /\ (forall k y h, sp_vertices st !! k = Some y ->
        h ∈ hops y <-> exists j x e, sp_vertices st !! j = Some x /\ e ∈ edges a (vx_lsa x)
          /\ e_to e = vx_lsa y /\ vx_distance y = vx_distance x + e_cost e /\ h ∈ next_hops a (al_key root) x e).

Lemma spf_tree_exact a root st :
  area_ok a root -> settled_edges a root (sp_vertices st) (sp_tree st) -> candidates st = [] ->
  spf_exact a root st /\ forall k x, sp_vertices st !! k = Some x -> k ∈ sp_tree st.
Proof.
  intros Hok Hset Hc. pose proof Hset as (v & es & H & C & _).
  assert (Hall : forall k x, sp_vertices st !! k = Some x -> k ∈ sp_tree st).
  { intros k x Hx. destruct (decide (k ∈ sp_tree st)) as [|Hn]; [done|]. exfalso.
    pose proof (inv_keyed _ _ _ _ _ _ H) as Hk. pose proof (Hk _ _ Hx) as Ek.
    enough (x ∈ candidates st) by (rewrite Hc in *; by eapply elem_of_nil). apply candidates_spec; [done|]. by rewrite Ek. }
  split; [|done].
  unfold spf_exact. split_and!.
  - apply (iv_tree _ _ _ _ _ _ H).
  - apply (iv_tree _ _ _ _ _ _ H).
  - intros k x Hx. destruct (iv_vertex _ _ _ _ _ _ H k x Hx) as (? & ? & _).
    destruct (inv_rankable a root Hok _ _ _ _ _ _ H Hx) as [? _]. eauto.
  - destruct (iv_root _ _ _ _ _ _ H) as (x & ? & _ & ? & ?). by exists x.
  - intros u d Hu. assert (Hpath : forall x, sp_vertices st !! al_key u = Some x -> path a root u (vx_distance x)).
    { intros x Hx. rewrite <- (done_lsa a root Hok _ _ Hset u x Hu Hx) at 1.
      apply (vertex_path a root Hok _ _ Hset (Z.to_nat (rank x) + 1) _ x ltac:(lia) Hx). }
    split.
    + intros (x & Hx & <-). split; [auto|]. intros d' Hd'.
      destruct (path_bound a root Hok _ _ Hset Hall u d' Hd') as (y & Hy & _ & Hle). rewrite Hx in Hy. by injection Hy as <-.
    + intros [Hd Hmin]. destruct (path_bound a root Hok _ _ Hset Hall u d Hd) as (x & Hx & _ & Hle). exists x.
      split; [done|]. specialize (Hmin _ (Hpath x Hx)). lia.
  - intros k y h Hy. split.
    + intros Hh. apply list_elem_of_In, in_map_iff in Hh as (p & <- & Hp). apply list_elem_of_In in Hp.
      destruct (done_from a root _ _ Hset k y p Hy Hp) as (x & e & ?). by exists (vp_parent p), x, e.
    + intros (j & x & e & Hx & He & Hto & Hd & Hh).
      destruct (done_relaxed a root _ _ Hset Hall j x e Hx He) as (y' & Hy' & _ & Hsub).
      { intros E'. rewrite E' in Hh. by apply elem_of_nil in Hh. }
      destruct (iv_vertex _ _ _ _ _ _ H k y Hy) as (Ek & _). unfold vx_key in Ek. rewrite Hto, Ek, Hy in Hy'.
      injection Hy' as <-. by apply Hsub.
Qed.
