(* ===== verification/OspfSpfStubs.v ===== *)
(** * The second stage, and the whole calculation

    The recursion over the children visits every vertex of the tree once: the stub
    networks of each reached router are entered once, after the routes to the
    routers and networks themselves. *)

From stdpp Require Import gmap sets.
From S2P Require Import Prelude Prefix OspfLsa OspfIsm OspfNsm OspfDbDescFacts OspfSpf OspfSpfFacts OspfSpfTree OspfSpfPaths.
From Stdlib Require Import Sorting.Sorted.

(** ** Visiting the vertices *)

Lemma stub_links_same a x y b l : vx_lsa x = vx_lsa y -> forall i, stub_links a x b i l = stub_links a y b i l.
Proof.
  intros E. induction l as [|k l IH]; intros i; [done|]. cbn. unfold vx_key. by rewrite E, IH.
Qed.

Section Visit.
  Context (a : ospf_area) (rk : Z) (V : gmap Z vertex) (T : list Z).
  Hypothesis Hkey : keyed V.
  Hypothesis Hfalse : forall k x, V !! k = Some x -> vx_processed x = false.
  Hypothesis Htree : forall k, is_Some (V !! k) -> k ∈ T.

Definition rank_at (k : Z) : Z := match V !! k with Some x => rank x | None => -1 end.
Definition kids (k : Z) : list Z := match V !! k with Some x => vx_children x | None => [] end.

  Hypothesis Hkids : forall k c, c ∈ kids k -> is_Some (V !! c) /\ rank_at k < rank_at c.

(** The vertices are those of the tree, and [P] are processed. *)
Definition marked (P : list Z) (st : spf_state) : Prop :=
  forall k, sp_vertices st !! k = (fun x => set_vx_processed (bool_decide (k ∈ P)) x) <$> V !! k.

Definition closed (P : list Z) : Prop := forall k c, k ∈ P -> c ∈ kids k -> c ∈ P.

(** The stub networks of a vertex. *)
Definition stubs_at (kb : Z * bool) : list spf_effect :=
  match V !! fst kb with
  | Some x => if vx_type x =? OSPF_VERTEX_ROUTER then stub_links a x (snd kb) 0 (al_links (vx_lsa x)) else []
  | None => []
  end.

(** The vertices [js] below the rank of [k] were visited. *)
Record visited (k : Z) (P : list Z) (js : list (Z * bool)) (st st' : spf_state) : Prop := mkVisited {
  vi_marked : marked (P ++ map fst js) st';
  vi_tree : sp_tree st' = sp_tree st;
  vi_nodup : NoDup (map fst js);
  vi_new : forall j, j ∈ map fst js -> j ∉ P /\ is_Some (V !! j) /\ rank_at k < rank_at j;
  vi_closed : closed (P ++ map fst js)
}.

(** The vertices of a higher rank than [k]. *)
Definition above (k : Z) : nat := length (List.filter (fun j => rank_at k <? rank_at j) T).

Lemma filter_lt {A} (p q : A -> bool) l x :
  (forall y, p y = true -> q y = true) -> x ∈ l -> q x = true -> p x = false ->
  (length (List.filter p l) < length (List.filter q l))%nat.
Proof.
  intros Hpq. assert (Hle : forall l, (length (List.filter p l) <= length (List.filter q l))%nat).
  { clear l. induction l as [|y l IH]; [done|]. cbn. specialize (Hpq y). destruct (p y), (q y); cbn; lia. }
  induction l as [|y l IH]; intros Hx Hq Hp; [by apply elem_of_nil in Hx|]. cbn.
  apply elem_of_cons in Hx as [->|Hx].
  - rewrite Hq, Hp. cbn. specialize (Hle l). lia.
  - specialize (IH Hx Hq Hp). specialize (Hpq y). destruct (p y), (q y); cbn; lia.
Qed.

Lemma above_kid k c : c ∈ kids k -> (above c < above k)%nat.
Proof using Hkids Htree.
  intros Hc. destruct (Hkids k c Hc) as [Hs Hr]. unfold above. apply (filter_lt _ _ _ c).
  - intros j Hj. lia.
  - by apply Htree.
  - lia.
  - lia.
Qed.

Lemma marked_ext P P' st : (forall k, k ∈ P <-> k ∈ P') -> marked P st -> marked P' st.
Proof. intros H M k. rewrite (M k). by rewrite (bool_decide_ext _ _ (H k)). Qed.

Lemma marked_mark P c st : is_Some (V !! c) -> marked P st -> marked (c :: P) (mark_processed c st).
Proof using Hkey.
  intros [x Hx] M k. unfold mark_processed. rewrite (M c), Hx. cbn.
  change (vx_key (set_vx_processed true (set_vx_processed (bool_decide (c ∈ P)) x))) with (vx_key x). rewrite (Hkey _ _ Hx).
  destruct (decide (c = k)) as [<-|Hne].
  - rewrite lookup_insert_eq, Hx. cbn. by rewrite (bool_decide_eq_true_2 (c ∈ c :: P)) by left.
  - rewrite lookup_insert_ne, (M k) by done. destruct (V !! k) as [y|]; [|done]. cbn. do 2 f_equal.
    apply bool_decide_ext. rewrite elem_of_cons. split; [by right|]. by intros [->|?].
Qed.

Lemma stub_children_visits process k x n :
  V !! k = Some x ->
  (forall c p P st, (above c < n)%nat -> is_Some (V !! c) -> marked P st -> closed P ->
     exists st' js, process c p st = Ret st' /\ visited c P js st st' /\ kids c ⊆ P ++ map fst js
       /\ sp_out st' = sp_out st ++ stubs_at (c, p) ++ flat_map stubs_at js) ->
  (above k <= n)%nat ->
  forall v ks p P st, ks ⊆ kids k -> marked P st -> closed P ->
  exists st' js, stub_children process rk v p ks st = Ret st' /\ visited k P js st st' /\ ks ⊆ P ++ map fst js
    /\ sp_out st' = sp_out st ++ flat_map stubs_at js.
Proof using Hkids Htree Hkey Hfalse.
  intros Hx IHp Hn v ks. induction ks as [|c ks IH]; intros p P st Hks M Hc.
  { exists st, []. cbn. rewrite !app_nil_r. split_and!; try done; [split|set_solver]; cbn; rewrite ?app_nil_r; try done.
    - apply NoDup_nil_2.
    - intros j Hj. by apply elem_of_nil in Hj. }
  assert (Hck : c ∈ kids k) by set_solver. destruct (Hkids k c Hck) as [Hsc Hrc]. pose proof Hsc as [y Hy].
  cbn [stub_children]. rewrite (M c), Hy. cbn [fmap option_fmap option_map vx_processed set_vx_processed].
  case_bool_decide as Hin.
  { destruct (IH p P st ltac:(set_solver) M Hc) as (st' & js & E & Hv & Hs & Ho). exists st', js.
    split_and!; try done. set_solver. }
  set (q := if vx_key v =? rk then true else _). clearbody q.
  pose proof (above_kid k c Hck) as Hab.
  destruct (IHp c q P st ltac:(lia) Hsc M Hc) as (st1 & js1 & -> & [V1 V2 V3 V4 V5] & V6 & V7). cbn [mbind outcome_bind].
  set (P2 := P ++ map fst ((c, q) :: js1)).
  assert (HP2 : forall j, j ∈ c :: P ++ map fst js1 <-> j ∈ P2) by (intros j; unfold P2; cbn; set_solver).
  assert (M2 : marked P2 (mark_processed c st1)) by (apply (marked_ext _ _ _ HP2); by apply marked_mark).
  assert (C2 : closed P2).
  { intros j d Hj Hd. apply HP2. apply HP2, elem_of_cons in Hj as [->|Hj]; right; [by apply V6|by apply (V5 j d)]. }
  destruct (IH q P2 (mark_processed c st1) ltac:(set_solver) M2 C2) as (st2 & js2 & E & [W1 W2 W3 W4 W5] & W6 & W7).
  assert (Hout : sp_out (mark_processed c st1) = sp_out st1 /\ sp_tree (mark_processed c st1) = sp_tree st1)
    by (unfold mark_processed; by destruct (sp_vertices st1 !! c)).
  destruct Hout as [Ho1 Ht1].
  exists st2, (((c, q) :: js1) ++ js2). split; [done|].
  assert (HPa : P ++ map fst (((c, q) :: js1) ++ js2) = P2 ++ map fst js2) by (unfold P2; by rewrite map_app, app_assoc).
  split_and!.
  - split; [by rewrite HPa|by rewrite W2, Ht1| | |by rewrite HPa].
    + rewrite map_app. apply list.NoDup_app. split_and!; [|..|done].
      * cbn. apply list.NoDup_cons. split; [|done]. intros Hj. destruct (V4 c Hj) as (_ & _ & Hr). lia.
      * intros j Hj Hj2. destruct (W4 j Hj2) as (Hp2 & _). apply Hp2. unfold P2. set_solver.
    + intros j Hj. rewrite map_app in Hj. apply elem_of_app in Hj as [Hj|Hj].
      * cbn in Hj. apply elem_of_cons in Hj as [->|Hj]; [done|]. destruct (V4 j Hj) as (? & ? & ?). split_and!; [done..|lia].
      * destruct (W4 j Hj) as (Hp2 & ? & ?). split_and!; [|done..]. intros Hp. apply Hp2. unfold P2. set_solver.
  - rewrite HPa. intros j Hj. apply elem_of_cons in Hj as [->|Hj]; [|by apply W6]. unfold P2. cbn. set_solver.
  - rewrite W7, Ho1, V7, flat_map_app. cbn [flat_map]. by rewrite <- !app_assoc.
Qed.

Lemma process_stubs_visits fuel : forall k p P st,
  (above k < fuel)%nat -> is_Some (V !! k) -> marked P st -> closed P ->
  exists st' js, ospf_spf_process_stubs fuel a rk k p st = Ret st' /\ visited k P js st st' /\ kids k ⊆ P ++ map fst js
    /\ sp_out st' = sp_out st ++ stubs_at (k, p) ++ flat_map stubs_at js.
Proof using Hkids Htree Hkey Hfalse.
  induction fuel as [|fuel IH]; intros k p P st Hf [x Hx] M Hc; [lia|].
  cbn [ospf_spf_process_stubs]. rewrite (M k), Hx. cbn [fmap option_fmap option_map].
  set (v := set_vx_processed _ x). set (st1 := if vx_type v =? OSPF_VERTEX_ROUTER then _ else st).
  assert (H1 : marked P st1 /\ sp_tree st1 = sp_tree st /\ sp_out st1 = sp_out st ++ stubs_at (k, p)).
  { unfold st1, stubs_at. cbn [fst snd]. rewrite Hx. change (vx_type v) with (vx_type x). destruct (_ =? _); [|by rewrite app_nil_r].
    split_and!; [done..|]. cbn [sp_out]. f_equal. by apply stub_links_same. }
  clearbody st1. destruct H1 as (M1 & T1 & O1).
  assert (Hk : vx_children v = kids k) by (unfold kids; by rewrite Hx). rewrite Hk.
  destruct (stub_children_visits (ospf_spf_process_stubs fuel a rk) k x fuel Hx ltac:(intros; by apply IH) ltac:(lia)
    v (kids k) p P st1) as (st' & js & E & [W1 W2 W3 W4 W5] & W6 & W7); [done..|].
  exists st', js. split; [done|]. split_and!; [by split; [|rewrite W2|..]|done|]. by rewrite W7, O1, <- app_assoc.
Qed.
End Visit.

(** ** The calculation *)

Lemma spf_exact_alike a root st st' :
  alike (sp_vertices st) (sp_vertices st') -> sp_tree st' = sp_tree st -> spf_exact a root st -> spf_exact a root st'.
Proof.
  intros Hal Ht (H1 & H1t & H2 & H2r & H3 & H4). unfold spf_exact. rewrite Ht. split_and!; [done|..].
  - intros k Hk. destruct (H1t k Hk) as [x Hx]. destruct (alike_forth _ _ _ _ Hal Hx) as (x' & Hx' & _). by exists x'.
  - intros k x' Hx'. destruct (alike_back _ _ _ _ Hal Hx') as (x & Hx & Hc).
    destruct (core_facts a (al_key root) _ _ Hc) as (-> & -> & _). by apply H2.
  - destruct H2r as (x & Hx & ?). destruct (alike_forth _ _ _ _ Hal Hx) as (x' & Hx' & Hc). exists x'.
    by destruct (core_facts a (al_key root) _ _ Hc) as (_ & -> & -> & _).
  - intros u d Hu. rewrite <- (H3 u d Hu). split.
    + intros (x' & Hx' & E). destruct (alike_back _ _ _ _ Hal Hx') as (x & Hx & Hc).
      destruct (core_facts a (al_key root) _ _ Hc) as (_ & Ed & _). exists x. by rewrite <- Ed.
    + intros (x & Hx & E). destruct (alike_forth _ _ _ _ Hal Hx) as (x' & Hx' & Hc).
      destruct (core_facts a (al_key root) _ _ Hc) as (_ & Ed & _). exists x'. by rewrite Ed.
  - intros k y' h Hy'. destruct (alike_back _ _ _ _ Hal Hy') as (y & Hy & Hc).
    destruct (core_facts a (al_key root) _ _ Hc) as (-> & -> & _ & _ & _ & -> & _). rewrite (H4 k y h Hy). split.
    + intros (j & x & e & Hx & ?). destruct (alike_forth _ _ _ _ Hal Hx) as (x' & Hx' & Hcx). exists j, x', e.
      by destruct (core_facts a (al_key root) _ _ Hcx) as (-> & -> & _ & _ & _ & _ & ->).
    + intros (j & x' & e & Hx' & ?). destruct (alike_back _ _ _ _ Hal Hx') as (x & Hx & Hcx). exists j, x, e.
      destruct (core_facts a (al_key root) _ _ Hcx) as (E1 & E2 & _ & _ & _ & _ & E3). by rewrite <- E1, <- E2, <- E3.
Qed.

Lemma marked_alike V P st : marked V P st -> alike V (sp_vertices st).
Proof. intros M k. rewrite (M k). by destruct (V !! k). Qed.

Section Calculate.
  Context (a : ospf_area) (root : area_lsa) (V : gmap Z vertex) (T : list Z).
  Hypothesis Hok : area_ok a root.
  Hypothesis Hset : settled_edges a root V T.
  Hypothesis Hall : forall k x, V !! k = Some x -> k ∈ T.
  Hypothesis Hbook : forall k x, V !! k = Some x ->
    vx_processed x = false /\ forall c, c ∈ vx_children x <-> child_of V T k c.

Lemma kids_child k c : c ∈ kids V k <-> is_Some (V !! k) /\ child_of V T k c.
Proof using Hbook.
  unfold kids. destruct (V !! k) as [x|] eqn:Ex.
  - rewrite (proj2 (Hbook k x Ex) c). split; [|tauto]. intros H. split; [by eexists|done].
  - rewrite elem_of_nil. split; [done|]. by intros [[? ?] _].
Qed.

Lemma kids_rank k c : c ∈ kids V k -> is_Some (V !! c) /\ rank_at V k < rank_at V c.
Proof using Hbook Hset Hok.
  intros Hc. apply kids_child in Hc as [_ (Hin & y & p & Hy & Hp & <-)].
  destruct (done_from a root V T Hset c y p Hy Hp) as (x & e & Hx & He & Hto & Hd & _). split; [by eexists|].
  unfold rank_at. rewrite Hx, Hy. by apply (parent_rank a root Hok V T Hset x y e (vp_parent p)).
Qed.

(** A closed set with the children of the root has all vertices. *)
Lemma closed_all P n : closed V P -> kids V (al_key root) ⊆ P -> forall k y,
  rank y < Z.of_nat n -> V !! k = Some y -> k <> al_key root -> k ∈ P.
Proof using Hbook Hset Hok Hall.
  intros Hc Hr. induction n as [|n IH]; intros k y Hn Hy Hk.
  { exfalso. destruct Hset as (v & es & H & _). destruct (iv_range _ _ _ _ _ _ H k y Hy) as [Hrg _]. unfold rank in Hn.
    destruct (_ =? _) in Hn; lia. }
  pose proof Hset as (v & es & H & _). pose proof (iv_parents _ _ _ _ _ _ H k y Hy Hk) as Hp.
  destruct (vx_parents y) as [|p ps] eqn:Ep; [done|]. assert (Hpy : p ∈ vx_parents y) by (rewrite Ep; by left).
  destruct (done_from a root V T Hset k y p Hy Hpy) as (x & e & Hx & He & Hto & Hd & _).
  assert (Hkid : k ∈ kids V (vp_parent p)).
  { apply kids_child. split; [by eexists|]. split; [eauto|]. by exists y, p. }
  destruct (decide (vp_parent p = al_key root)) as [E|Hne]; [apply Hr; by rewrite <- E|].
  apply (Hc (vp_parent p) k); [|done]. apply (IH _ x); [|done..].
  pose proof (parent_rank a root Hok V T Hset x y e (vp_parent p) Hx He Hto Hd). lia.
Qed.
End Calculate.

Lemma spf_calculate_spec a root alloc :
  area_ok a root -> exists st ks js, ospf_spf_calculate a alloc (Some root) = Ret (Some st) /\ spf_exact a root st
    /\ sp_tree st = al_key root :: ks /\ in_order (sp_vertices st) (sp_tree st) /\ map fst js ≡ₚ ks
    /\ sp_out st = map (tree_route (sp_vertices st)) ks
                   ++ flat_map (stubs_at a (sp_vertices st)) ((al_key root, false) :: js).
Proof.
  intros Hok. destruct (spf_tree_settles a root alloc Hok) as (st & E & Hset & Hcd).
  destruct (spf_tree_exact a root st Hok Hset Hcd) as [Hex Hall].
  destruct (spf_tree_books a root alloc Hok st E) as [Bk (ks & Bt & Bo) Bs].
  set (V := sp_vertices st) in *. set (T := sp_tree st) in *.
  pose proof Hset as (v & es & H & C & _). pose proof (inv_keyed _ _ _ _ _ _ H) as Hkey.
  assert (Hroot : is_Some (V !! al_key root)) by (destruct (iv_root _ _ _ _ _ _ H) as (x & Hx & _); by exists x).
  assert (Hlen : (above V T (al_key root) < S (length (ar_lsdb a)))%nat).
  { pose proof (tree_length a root _ _ _ _ H). unfold above. pose proof (filter_length_le (fun j => rank_at V (al_key root) <? rank_at V j) T). lia. }
  destruct (process_stubs_visits a (al_key root) V T Hkey ltac:(intros k x Hx; by apply (Bk k x))
    ltac:(intros k [x Hx]; by apply (Hall k x)) (kids_rank a root V T Hok Hset Bk)
    (S (length (ar_lsdb a))) (al_key root) false [] st Hlen Hroot) as (st' & js & E' & [W1 W2 W3 W4 W5] & W6 & W7).
  { intros k. unfold V. destruct (sp_vertices st !! k) as [x|] eqn:Ex; [|done]. cbn.
    pose proof (proj1 (Bk k x Ex)) as Hp. destruct x; cbn in *. by subst. }
  { intros k c Hk. by apply elem_of_nil in Hk. }
  pose proof (marked_alike _ _ _ W1) as Hal. cbn [app] in *.
  exists st', ks, js. unfold ospf_spf_calculate. rewrite E. cbn [mbind outcome_bind]. rewrite E'. cbn [mbind outcome_bind].
  split; [done|]. split; [by apply (spf_exact_alike a root st)|]. split; [by rewrite W2|].
  split.
  { rewrite W2. apply (in_order_ext V); [|done]. intros k _. unfold dist_at. rewrite (W1 k). by destruct (V !! k). }
  destruct (iv_tree _ _ _ _ _ _ H) as (Hnd & _ & Hin). rewrite Bt in Hnd. apply list.NoDup_cons in Hnd as [Hrn Hnd]. split.
  - apply NoDup_Permutation; [done..|]. intros k. split.
    + intros Hk. destruct (W4 k Hk) as (_ & [x Hx] & Hr). pose proof (Hall _ _ Hx) as Ht. rewrite Bt in Ht.
      apply elem_of_cons in Ht as [->|?]; [lia|done].
    + intros Hk. destruct (Hin k) as [y Hy]; [rewrite Bt; by right|].
      apply (closed_all a root V T Hok Hset Hall Bk (map fst js) (Z.to_nat (rank y) + 1) W5 W6 k y); [lia|done|].
      intros ->. done.
  - rewrite W7, Bo. f_equal; [by apply routes_ext; intros k _; rewrite (W1 k); destruct (V !! k)|].
    cbn [flat_map]. assert (Hst : forall kb, stubs_at a (sp_vertices st') kb = stubs_at a V kb).
    { intros kb. unfold stubs_at. rewrite (W1 (fst kb)). destruct (V !! fst kb) as [x|]; [|done]. cbn.
      change (vx_type (set_vx_processed _ x)) with (vx_type x). case_bool; [|done]. by apply stub_links_same. }
    rewrite Hst. f_equal. apply flat_map_ext. intros kb. by rewrite Hst.
Qed.

(** C4: For every area of which each LSA has its own key, where links between routers and
    networks cost between 1 and 65535 and which has at most 32768 LSAs, for a
    calculation that is not reversed (TI-LFA reverse runs are not covered) and every
    placement of the vertices in memory, [ospf_spf_calculate] returns. Its vertices
    are exactly the LSAs with a path from the root, each taken into the tree once,
    at the cost of a shortest path; the next hops of a vertex are exactly those of
    all shortest paths to it (the links of the root, the addresses on a network of
    the root, or the next hops of the vertex before it: equal-cost multipath is
    complete). The tree is in the order of distances. It enters the route to every
    other vertex in the order of the tree, then the stub networks of the root, then
    those of every other router of the tree, each once and for all of its stub
    links. *)
Theorem ospf_spf_calculate_correct a root alloc :
  area_ok a root -> exists st ks js, ospf_spf_calculate a alloc (Some root) = Ret (Some st) /\ spf_exact a root st
    /\ sp_tree st = al_key root :: ks /\ in_order (sp_vertices st) (sp_tree st) /\ map fst js ≡ₚ ks
    /\ sp_out st = map (tree_route (sp_vertices st)) ks
                   ++ flat_map (stubs_at a (sp_vertices st)) ((al_key root, false) :: js).
Proof. apply spf_calculate_spec. Qed.

(** ** An area *)

(** Router 1 has a point-to-point link to router 2 and shares network 100 with router
    3; there are two shortest paths to router 2. *)
Module SpfExample.

Definition head (t id adv : Z) : ospf_lsa := mkLsa (mkLsah 10 2 t id adv 5 100 36) 5 false false false false.

Definition router1 : area_lsa :=
  mkAlsa (head 1 1 1) 0 [mkRlink 2 11 1 10; mkRlink 100 101 2 5; mkRlink 200 4294967288 3 7] [] 0.
Definition router2 : area_lsa := mkAlsa (head 1 2 2) 0 [mkRlink 1 12 1 10; mkRlink 3 22 1 5] [] 0.
Definition router3 : area_lsa :=
  mkAlsa (head 1 3 3) 0 [mkRlink 100 103 2 5; mkRlink 2 23 1 5; mkRlink 208 4294967288 3 7] [] 0.
Definition network100 : area_lsa := mkAlsa (head 2 100 3) 0 [] [1; 3] 4294967288.

Definition area : ospf_area :=
  mkArea [router1; router2; router3; network100] [mkSpfOi 1 11 24 0 1 [(2, 12)] 7 false; mkSpfOi 2 101 24 1 2 [] 8 false] []
    false None false true false 0 0 [].

Lemma area_fits : area_ok area router1.
Proof.
  split; try done.
  - repeat (apply SSorted_cons; [|repeat (apply Forall_cons; split; [vm_compute; reflexivity|])]); try apply SSorted_nil;
      repeat constructor.
  - repeat constructor; cbn; lia.
  - by left.
  - intros x l Hx Hl Ht. cbn in Hx. repeat (apply elem_of_cons in Hx as [->|Hx]); [..|by apply elem_of_nil in Hx];
      cbn in Hl; repeat (apply elem_of_cons in Hl as [->|Hl]; [cbn in Ht |- *; first [lia|done]|]); by apply elem_of_nil in Hl.
  - intros x r Hx Hr. cbn in Hx. repeat (apply elem_of_cons in Hx as [->|Hx]); [..|by apply elem_of_nil in Hx];
      cbn in Hr; repeat (apply elem_of_cons in Hr as [->|Hr]; [lia|]); by apply elem_of_nil in Hr.
Qed.

(** The next hops of router 2 are its own address over the first link and router 3's
    over the second; the stub network of router 3 is entered with its parent, the
    network, on the root. *)
Lemma ospf_spf_calculate_correct_witness :
  exists st ks (js : list (Z * bool)), ospf_spf_calculate area Z.of_nat (Some router1) = Ret (Some st) /\ spf_exact area router1 st
    /\ sp_tree st = al_key router1 :: ks /\ map fst js ≡ₚ ks
    /\ (vx_distance <$> sp_vertices st !! al_key router2) = Some 10
    /\ (hops <$> sp_vertices st !! al_key router2) = Some [mkHop 12 0; mkHop 103 1]
    /\ sp_out st = [IntraAddTransit (al_key network100); IntraAddRouter (al_key router3); IntraAddRouter (al_key router2);
                    IntraAddStub (mkRlink 200 4294967288 3 7) (al_key router1) false 2;
                    IntraAddStub (mkRlink 208 4294967288 3 7) (al_key router3) true 2].
Proof.
  destruct (ospf_spf_calculate_correct area router1 Z.of_nat area_fits) as (st & ks & js & E & H & T & _ & P & _).
  exists st, ks, js. split; [exact E|]. split; [exact H|]. split; [exact T|]. split; [exact P|].
  vm_compute in E. injection E as <-. split; [|split]; vm_compute; reflexivity.
Defined.

(** ** Boundaries of the calculation *)

(** The reverse calculation of TI-LFA stops at a point-to-point link to a router whose
    LSA is not there. *)
Lemma reverse_without_neighbor_aborts :
  ospf_spf_calculate (mkArea [router2] [] [] true None true false false 0 0 []) Z.of_nat (Some router2) = Abort.
Proof. vm_compute. reflexivity. Qed.

(** A link of the root with metric 0 stops the calculation. *)
Definition free_router1 : area_lsa := mkAlsa (head 1 1 1) 0 [mkRlink 2 11 1 0] [] 0.
Lemma zero_metric_aborts :
  ospf_spf_calculate (mkArea [free_router1; router2] [mkSpfOi 1 11 24 0 1 [(2, 12)] 7 false] [] false None false true false 0 0 [])
    Z.of_nat (Some free_router1) = Abort.
Proof. vm_compute. reflexivity. Qed.

(** Router 3 is on a network of the root, and at the same distance behind router 2,
    which is nearer: its stub network is entered as that of a router whose parent is
    not the root. *)
Definition near_router1 : area_lsa := mkAlsa (head 1 1 1) 0 [mkRlink 2 11 1 5; mkRlink 100 101 2 10] [] 0.
Definition near_router2 : area_lsa := mkAlsa (head 1 2 2) 0 [mkRlink 1 12 1 5; mkRlink 3 22 1 5] [] 0.
Lemma parent_is_root_depends_on_order :
  match ospf_spf_calculate (mkArea [near_router1; near_router2; router3; network100]
          [mkSpfOi 1 11 24 0 1 [(2, 12)] 7 false; mkSpfOi 2 101 24 1 2 [] 8 false] [] false None false true false 0 0 []) Z.of_nat (Some near_router1) with
  | Ret (Some st) => (map vp_parent ∘ vx_parents <$> sp_vertices st !! al_key router3)
                       = Some [al_key near_router2; al_key network100]
                     /\ IntraAddStub (mkRlink 208 4294967288 3 7) (al_key router3) false 2 ∈ sp_out st
  | _ => False
  end.
Proof. vm_compute. split; [reflexivity|]. repeat constructor. Qed.
End SpfExample.
