(* ===== verification/OspfRoute.v ===== *)
(** * The routing table of OSPF (ospfd/ospf_route.c)

    The calls by which the shortest-path calculation enters the routes of an area,
    and the installation of a new table: the messages to zebra
    (ospfd/ospf_zebra.c).

    A table has one route per prefix; the table of routers has a list. *)

From stdpp Require Import gmap.
From S2P Require Import Prelude Prefix OspfLsa OspfIsm OspfSpf.

Definition OSPF_DESTINATION_ROUTER : Z := 1.
Definition OSPF_DESTINATION_NETWORK : Z := 2.
Definition OSPF_DESTINATION_DISCARD : Z := 3.
Definition OSPF_PATH_INTRA_AREA : Z := 1.
Definition OSPF_PATH_INTER_AREA : Z := 2.
Definition OSPF_PATH_TYPE1_EXTERNAL : Z := 3.
Definition OSPF_PATH_TYPE2_EXTERNAL : Z := 4.
Definition ROUTER_LSA_BORDER : Z := 1.
Definition ROUTER_LSA_EXTERNAL : Z := 2.
Definition ROUTER_LSA_SHORTCUT : Z := 32.

#[global] Instance prefix_countable : Countable prefix.
Proof.
  refine (inj_countable' (fun p => (family p, prefixlen p, val p)) (fun t => mkPrefix (fst (fst t)) (snd (fst t)) (snd t)) _).
  by intros [].
Defined.

(** ** Data *)

(** [op_backup] is the path of TI-LFA: a next hop and labels. *)
Record ospf_path := mkOpath {
  op_nexthop : Z;
  op_adv_router : Z;
  op_ifindex : Z;
  op_unnumbered : bool;
  op_backup : option (Z * list Z)
}.

(** [or_type2_cost] and [or_tag] belong to external routes, the fields from [or_origin] to
    [or_transit] to the others. *)
Record ospf_route := mkOroute {
  or_type : Z;
  or_id : Z;
  or_path_type : Z;
  or_cost : Z;
  or_origin : lsa_header;
  or_area_id : Z;
  or_external_routing : Z;
  or_options : Z;
  or_flags : Z;
  or_transit : bool;
  or_type2_cost : Z;
  or_tag : Z;
  or_changed : bool;
  or_paths : list ospf_path
}.

Definition set_or_paths (l : list ospf_path) (r : ospf_route) : ospf_route :=
  mkOroute (or_type r) (or_id r) (or_path_type r) (or_cost r) (or_origin r) (or_area_id r) (or_external_routing r)
    (or_options r) (or_flags r) (or_transit r) (or_type2_cost r) (or_tag r) (or_changed r) l.
Definition set_or_cost (c : Z) (r : ospf_route) : ospf_route :=
  mkOroute (or_type r) (or_id r) (or_path_type r) c (or_origin r) (or_area_id r) (or_external_routing r)
    (or_options r) (or_flags r) (or_transit r) (or_type2_cost r) (or_tag r) (or_changed r) (or_paths r).
Definition set_or_origin (o : lsa_header) (r : ospf_route) : ospf_route :=
  mkOroute (or_type r) (or_id r) (or_path_type r) (or_cost r) o (or_area_id r) (or_external_routing r)
    (or_options r) (or_flags r) (or_transit r) (or_type2_cost r) (or_tag r) (or_changed r) (or_paths r).

Notation route_table := (gmap prefix ospf_route).

(** [ospf_route_new] with the fields that all routes of an area have. *)
Definition area_route (a : ospf_area) (v : vertex) (type cost options flags : Z) (transit : bool)
    (paths : list ospf_path) : ospf_route :=
  mkOroute type (al_id (vx_lsa v)) OSPF_PATH_INTRA_AREA cost (lsa_data (al_lsa (vx_lsa v))) (ar_id a)
    (ar_external_routing a) options flags transit 0 0 false paths.

(** ** Next hops *)

Definition ospf_path_exist (plist : list ospf_path) (nexthop : Z) (oi : spf_interface) : bool :=
  existsb (fun p => (op_nexthop p =? nexthop) && (op_ifindex p =? so_ifindex oi)) plist.

(** The path over an interface; in a dry run there is none. *)
Definition path_over (nexthop adv_router : Z) (oi : option spf_interface) : ospf_path :=
  match oi with
  | Some oi => mkOpath nexthop adv_router (so_ifindex oi) (so_unnumbered oi) None
  | None => mkOpath nexthop adv_router 0 false None
  end.

Definition spf_oi (a : ospf_area) (lsa_pos : Z) : option spf_interface :=
  if ar_dry_run a then None else ospf_if_lookup_by_lsa_pos a lsa_pos.

Definition copy_nexthop (a : ospf_area) (v : vertex) (paths : list ospf_path) (vp : vertex_parent) : list ospf_path :=
  let nh := vp_nexthop vp in
  let oi := spf_oi a (h_lsa_pos nh) in
  if match oi with Some oi => negb (ospf_path_exist paths (h_router nh) oi) | None => false end || ar_dry_run a
  then paths ++ [path_over (h_router nh) (ls_adv_router (lsa_data (al_lsa (vx_lsa v)))) oi]
  else paths.

Definition ospf_route_copy_nexthops_from_vertex (a : ospf_area) (paths : list ospf_path) (v : vertex) : list ospf_path :=
  fold_left (copy_nexthop a v) (vx_parents v) paths.

(** ** The routes of an area *)

Definition ipv4_network (id mask : Z) : outcome prefix :=
  apply_mask_ipv4 (mkPrefix AF_INET (ip_masklen (addr_bytes mask)) (addr_bytes id)).

Definition ospf_if_lookup_by_local_addr (a : ospf_area) (address : Z) : bool :=
  existsb (fun oi => negb (so_type oi =? OSPF_IFTYPE_VIRTUALLINK) && (address =? so_address oi)) (ar_local_oiflist a).

Definition ospf_intra_add_transit (a : ospf_area) (v : vertex) (rt : route_table) : outcome route_table :=
  if al_mask (vx_lsa v) =? 0xffffffff then Ret rt
  else
    p ← ipv4_network (al_id (vx_lsa v)) (al_mask (vx_lsa v));
    let r := area_route a v OSPF_DESTINATION_NETWORK (vx_distance v) 0 0 true
               (ospf_route_copy_nexthops_from_vertex a [] v) in
    match rt !! p with
    | Some cur => if (or_cost cur <? vx_distance v) || (al_id (vx_lsa v) <? ls_id (or_origin cur)) then Ret rt
                  else Ret (<[p := r]> rt)
    | None => Ret (<[p := r]> rt)
    end.

(** The paths of a new route to a stub network. *)
Definition stub_paths (a : ospf_area) (root : Z) (v : vertex) (lsa_pos : Z) : list ospf_path :=
  if negb (vx_key v =? root) then ospf_route_copy_nexthops_from_vertex a [] v
  else
    let oi := spf_oi a lsa_pos in
    if match oi with Some _ => true | None => false end || ar_dry_run a then [path_over 0 0 oi] else [].

Definition ospf_intra_add_stub (a : ospf_area) (root : Z) (link : router_lsa_link) (v : vertex) (parent_is_root : bool)
    (lsa_pos : Z) (rt : route_table) : outcome route_table :=
  p ← ipv4_network (l_link_id link) (l_link_data link);
  let lsa := lsa_data (al_lsa (vx_lsa v)) in
  let cost := u32 (vx_distance v + l_metric link) in
  if parent_is_root && (l_link_data link =? 0xffffffff) && ospf_if_lookup_by_local_addr a (l_link_id link) then Ret rt
  else
    match rt !! p with
    | Some cur =>
        if or_cost cur <? cost then Ret rt
        else if cost =? or_cost cur then
          let cur := set_or_paths (ospf_route_copy_nexthops_from_vertex a (or_paths cur) v) cur in
          Ret (<[p := if ls_id (or_origin cur) <? ls_id lsa then set_or_origin lsa cur else cur]> rt)
        else
          Ret (<[p := set_or_origin lsa (set_or_paths (ospf_route_copy_nexthops_from_vertex a [] v)
                        (set_or_cost cost cur))]> rt)
    | None =>
        Ret (<[p := area_route a v OSPF_DESTINATION_NETWORK cost 0 0 false (stub_paths a root v lsa_pos)]> rt)
    end.

(** The tables of routers, the counts of the area, and the calls of
    [ospf_vl_up_check]. *)
Record rtr_state := mkRtrs {
  rs_rtrs : gmap prefix (list ospf_route);
  rs_shortcut : bool;
  rs_abr_count : Z;
  rs_asbr_count : Z;
  rs_vl_checks : list Z
}.

Definition add_router_route (a : ospf_area) (v : vertex) (rtrs : gmap prefix (list ospf_route)) :
    outcome (gmap prefix (list ospf_route)) :=
  p ← ipv4_network (al_id (vx_lsa v)) 0xffffffff;
  let r := area_route a v OSPF_DESTINATION_ROUTER (vx_distance v) (ls_options (lsa_data (al_lsa (vx_lsa v))))
             (al_flags (vx_lsa v)) false (ospf_route_copy_nexthops_from_vertex a [] v) in
  Ret (<[p := default [] (rtrs !! p) ++ [r]]> rtrs).

Definition ospf_intra_add_router (a : ospf_area) (v : vertex) (add_only : bool) (rs : rtr_state) : outcome rtr_state :=
  let flags := al_flags (vx_lsa v) in
  let border := CHECK_FLAG flags ROUTER_LSA_BORDER in
  let external := CHECK_FLAG flags ROUTER_LSA_EXTERNAL in
  if add_only then
    rtrs ← add_router_route a v (rs_rtrs rs);
    Ret (mkRtrs rtrs (rs_shortcut rs) (rs_abr_count rs) (rs_asbr_count rs) (rs_vl_checks rs))
  else
    let checks := if ar_id a =? 0 then rs_vl_checks rs else rs_vl_checks rs ++ [al_id (vx_lsa v)] in
    let shortcut := rs_shortcut rs && CHECK_FLAG flags ROUTER_LSA_SHORTCUT in
    if negb border && negb external then
      Ret (mkRtrs (rs_rtrs rs) shortcut (rs_abr_count rs) (rs_asbr_count rs) checks)
    else
      rtrs ← add_router_route a v (rs_rtrs rs);
      Ret (mkRtrs rtrs shortcut (if border then rs_abr_count rs + 1 else rs_abr_count rs)
             (if external then rs_asbr_count rs + 1 else rs_asbr_count rs) checks).

(** A call of the calculation on the table of networks.  The vertices are those at
    the end: what is read of them is not changed after they enter the tree. *)
Definition spf_enter (a : ospf_area) (root : Z) (V : gmap Z vertex) (rt : route_table) (e : spf_effect) :
    outcome route_table :=
  match e with
  | IntraAddTransit k => match V !! k with Some v => ospf_intra_add_transit a v rt | None => Ret rt end
  | IntraAddStub l k parent_is_root lsa_pos =>
      match V !! k with Some v => ospf_intra_add_stub a root l v parent_is_root lsa_pos rt | None => Ret rt end
  | IntraAddRouter _ => Ret rt
  end.

Fixpoint spf_enter_all (a : ospf_area) (root : Z) (V : gmap Z vertex) (es : list spf_effect) (rt : route_table) :
    outcome route_table :=
  match es with
  | [] => Ret rt
  | e :: es' => rt ← spf_enter a root V rt e; spf_enter_all a root V es' rt
  end.

Definition ospf_prune_unreachable_networks (rt : route_table) : route_table :=
  filter (fun pr => or_paths (snd pr) <> []) rt.

Fixpoint spf_enter_routers (a : ospf_area) (V : gmap Z vertex) (add_only : bool) (es : list spf_effect)
    (rs : rtr_state) : outcome rtr_state :=
  match es with
  | [] => Ret rs
  | e :: es' =>
      rs ← match e with
           | IntraAddRouter k => match V !! k with Some v => ospf_intra_add_router a v add_only rs | None => Ret rs end
           | _ => Ret rs
           end;
      spf_enter_routers a V add_only es' rs
  end.

(** ** Messages to zebra *)

Inductive zapi_nexthop_type := NEXTHOP_TYPE_IPV4_IFINDEX | NEXTHOP_TYPE_IPV4 | NEXTHOP_TYPE_IFINDEX.

(** A next hop, with the backup next hop (address and labels) that its index refers to. *)
Record zapi_nexthop := mkZnh {
  zn_type : zapi_nexthop_type;
  zn_gate : Z;
  zn_ifindex : Z;
  zn_backup : option (Z * list Z)
}.

(** Adding or deleting a route of OSPF; a blackhole has no next hops.  The opaque data
    are the type of path, and the area or the tag. *)
Inductive zapi_route :=
| ZebraAdd (p : prefix) (metric : Z) (tag : option Z) (distance : Z) (nexthops : list zapi_nexthop)
    (opaque : option (Z * option Z))
| ZebraDelete (p : prefix)
| ZebraAddDiscard (p : prefix)
| ZebraDeleteDiscard (p : prefix).

(** [struct ospf] as far as routes are concerned. *)
Record ospf := mkOspf {
  os_restart_in_progress : bool;
  os_send_extra_data : bool;
  os_max_multipath : nat;
  os_distance_intra : Z;
  os_distance_inter : Z;
  os_distance_external : Z;
  os_distance_all : Z;
  os_old_table : option route_table;
  os_new_table : option route_table;
  os_old_external_route : option route_table
}.

Definition ospf_distance_apply (o : ospf) (r : ospf_route) : Z :=
  if negb (os_distance_intra o =? 0) && (or_path_type r =? OSPF_PATH_INTRA_AREA) then os_distance_intra o
  else if negb (os_distance_inter o =? 0) && (or_path_type r =? OSPF_PATH_INTER_AREA) then os_distance_inter o
  else if negb (os_distance_external o =? 0)
          && ((or_path_type r =? OSPF_PATH_TYPE1_EXTERNAL) || (or_path_type r =? OSPF_PATH_TYPE2_EXTERNAL))
  then os_distance_external o
  else os_distance_all o.

(** With [HAVE_NETLINK]. *)
Definition ospf_zebra_add_nexthop (path : ospf_path) : zapi_nexthop :=
  if op_unnumbered path || negb (op_nexthop path =? 0) && negb (op_ifindex path =? 0)
  then mkZnh NEXTHOP_TYPE_IPV4_IFINDEX (op_nexthop path) (op_ifindex path) (op_backup path)
  else if negb (op_nexthop path =? 0) then mkZnh NEXTHOP_TYPE_IPV4 (op_nexthop path) 0 (op_backup path)
  else mkZnh NEXTHOP_TYPE_IFINDEX 0 (op_ifindex path) (op_backup path).

Fixpoint zebra_nexthops (max_multipath : nat) (intra : bool) (paths : list ospf_path) (nexthops : list zapi_nexthop) :
    list zapi_nexthop :=
  match paths with
  | [] => nexthops
  | path :: paths' =>
      if (max_multipath <=? length nexthops)%nat then nexthops
      else if negb intra
              && existsb (fun nh => (zn_gate nh =? op_nexthop path) && (zn_ifindex nh =? op_ifindex path)) nexthops
      then zebra_nexthops max_multipath intra paths' nexthops
      else zebra_nexthops max_multipath intra paths' (nexthops ++ [ospf_zebra_add_nexthop path])
  end.

Definition ROUTE_TAG_MAX : Z := 4294967295.

Definition is_external (r : ospf_route) : bool :=
  (or_path_type r =? OSPF_PATH_TYPE1_EXTERNAL) || (or_path_type r =? OSPF_PATH_TYPE2_EXTERNAL).

Definition ospf_zebra_append_opaque_attr (r : ospf_route) : Z * option Z :=
  (or_path_type r,
   if (or_path_type r =? OSPF_PATH_INTRA_AREA) || (or_path_type r =? OSPF_PATH_INTER_AREA) then Some (or_area_id r)
   else if is_external r then Some (or_tag r) else None).

Definition ospf_zebra_add (o : ospf) (p : prefix) (r : ospf_route) : list zapi_route :=
  if os_restart_in_progress o then []
  else
    let metric := if or_path_type r =? OSPF_PATH_TYPE1_EXTERNAL then u32 (or_cost r + or_type2_cost r)
                  else if or_path_type r =? OSPF_PATH_TYPE2_EXTERNAL then or_type2_cost r else or_cost r in
    let tag := if is_external r && (0 <? or_tag r) && (or_tag r <=? ROUTE_TAG_MAX) then Some (or_tag r) else None in
    [ZebraAdd p metric tag (ospf_distance_apply o r)
       (zebra_nexthops (os_max_multipath o) (or_path_type r =? OSPF_PATH_INTRA_AREA) (or_paths r) [])
       (if os_send_extra_data o then Some (ospf_zebra_append_opaque_attr r) else None)].

Definition ospf_zebra_delete (o : ospf) (p : prefix) : list zapi_route :=
  if os_restart_in_progress o then [] else [ZebraDelete p].
Definition ospf_zebra_add_discard (o : ospf) (p : prefix) : list zapi_route :=
  if os_restart_in_progress o then [] else [ZebraAddDiscard p].
Definition ospf_zebra_delete_discard (o : ospf) (p : prefix) : list zapi_route :=
  if os_restart_in_progress o then [] else [ZebraDeleteDiscard p].

(** ** Installing a table *)

(** The nodes of a table in an order of [route_next]. *)
Definition route_nodes (rt : route_table) : list (prefix * ospf_route) := map_to_list rt.

Definition ospf_route_exist_new_table (rt : route_table) (p : prefix) : bool :=
  match rt !! p with Some _ => true | None => false end.

Definition ospf_route_backup_path_same (b1 b2 : option (Z * list Z)) : bool :=
  match b1, b2 with
  | None, None => true
  | Some (nexthop1, labels1), Some (nexthop2, labels2) => bool_decide (labels1 = labels2) && (nexthop1 =? nexthop2)
  | _, _ => false
  end.

Fixpoint same_paths (l1 l2 : list ospf_path) : bool :=
  match l1, l2 with
  | p1 :: l1', p2 :: l2' =>
      (op_nexthop p1 =? op_nexthop p2) && (op_ifindex p1 =? op_ifindex p2)
      && ospf_route_backup_path_same (op_backup p1) (op_backup p2) && same_paths l1' l2'
  | _, _ => true
  end.

Definition ospf_route_match_same (rt : option route_table) (p : prefix) (newor : ospf_route) : bool :=
  match (rt ← rt; rt !! p) with
  | None => false
  | Some r =>
      if (or_type r =? or_type newor) && (or_cost r =? or_cost newor) then
        if or_changed r then false
        else if or_type r =? OSPF_DESTINATION_NETWORK then
          (length (or_paths r) =? length (or_paths newor))%nat && same_paths (or_paths r) (or_paths newor)
        else true
      else false
  end.

Definition delete_uniq_node (o : ospf) (cmprt : route_table) (pr : prefix * ospf_route) : list zapi_route :=
  let '(p, r) := pr in
  if (or_path_type r =? OSPF_PATH_INTRA_AREA) || (or_path_type r =? OSPF_PATH_INTER_AREA) then
    if ospf_route_exist_new_table cmprt p then []
    else if or_type r =? OSPF_DESTINATION_NETWORK then ospf_zebra_delete o p
    else if or_type r =? OSPF_DESTINATION_DISCARD then ospf_zebra_delete_discard o p
    else []
  else [].

Definition ospf_route_delete_uniq (o : ospf) (rt cmprt : route_table) : list zapi_route :=
  flat_map (delete_uniq_node o cmprt) (route_nodes rt).

(** The messages, and the external routes that are left. *)
Definition ospf_route_delete_same_ext (o : ospf) (external_routes routes : route_table) :
    list zapi_route * route_table :=
  (flat_map (fun pr => if ospf_route_exist_new_table external_routes (fst pr) then ospf_zebra_delete o (fst pr) else [])
     (route_nodes routes),
   filter (fun pr => routes !! fst pr = None) external_routes).

Definition install_node (o : ospf) (old_table : option route_table) (pr : prefix * ospf_route) : list zapi_route :=
  let '(p, r) := pr in
  if or_type r =? OSPF_DESTINATION_NETWORK then
    if ospf_route_match_same old_table p r then [] else ospf_zebra_add o p r
  else if or_type r =? OSPF_DESTINATION_DISCARD then
    if ospf_route_match_same old_table p r then [] else ospf_zebra_add_discard o p
  else [].

Definition ospf_route_install (o : ospf) (rt : route_table) : ospf * list zapi_route :=
  let old_table := os_new_table o in
  let deleted := match old_table with Some old => ospf_route_delete_uniq o old rt | None => [] end in
  let '(ext_deleted, ext) := match os_old_external_route o with
                             | Some ext => let '(m, ext) := ospf_route_delete_same_ext o ext rt in (m, Some ext)
                             | None => ([], None)
                             end in
  (mkOspf (os_restart_in_progress o) (os_send_extra_data o) (os_max_multipath o) (os_distance_intra o) (os_distance_inter o)
     (os_distance_external o) (os_distance_all o) old_table (Some rt) ext,
   deleted ++ ext_deleted ++ flat_map (install_node o old_table) (route_nodes rt)).
