(* ===== verification/OspfRouteInstall.v ===== *)
(** * Installing routes: zebra has the new table

    The net effect of the messages of [ospf_route_install] on what zebra holds for
    OSPF, a map from prefixes: a route of OSPF replaces the one before it. *)

From stdpp Require Import gmap.
From S2P Require Import Prelude Prefix OspfLsa OspfIsm OspfSpf OspfRoute.

Inductive zebra_entry :=
| ZebraRoute (metric : Z) (tag : option Z) (nexthops : list zapi_nexthop)
| ZebraBlackhole.

Definition about (m : zapi_route) : prefix :=
  match m with ZebraAdd p _ _ _ _ _ | ZebraDelete p | ZebraAddDiscard p | ZebraDeleteDiscard p => p end.

Definition entry_of (m : zapi_route) : option zebra_entry :=
  match m with
  | ZebraAdd _ metric tag _ nexthops _ => Some (ZebraRoute metric tag nexthops)
  | ZebraAddDiscard _ => Some ZebraBlackhole
  | ZebraDelete _ | ZebraDeleteDiscard _ => None
  end.

Definition zebra_receive (Z : gmap prefix zebra_entry) (m : zapi_route) : gmap prefix zebra_entry :=
  partial_alter (fun _ => entry_of m) (about m) Z.

Definition zebra_receives (Z : gmap prefix zebra_entry) (ms : list zapi_route) : gmap prefix zebra_entry :=
  fold_left zebra_receive ms Z.

(** What zebra is told of a route. *)
Definition told (o : ospf) (r : ospf_route) : option zebra_entry :=
  if or_type r =? OSPF_DESTINATION_NETWORK then
    match ospf_zebra_add o (mkPrefix 0 0 []) r with m :: _ => entry_of m | [] => None end
  else if or_type r =? OSPF_DESTINATION_DISCARD then Some ZebraBlackhole else None.

(** ** Messages about one prefix *)

Definition entry_after (p : prefix) (s : option zebra_entry) (m : zapi_route) : option zebra_entry :=
  if bool_decide (about m = p) then entry_of m else s.

Lemma zebra_receives_lookup ms p : forall Z, zebra_receives Z ms !! p = fold_left (entry_after p) ms (Z !! p).
Proof.
  induction ms as [|m ms IH]; intros Z; [done|]. cbn. unfold zebra_receives in IH. rewrite IH. f_equal.
  unfold zebra_receive, entry_after. case_bool_decide as E; [subst p; by rewrite lookup_partial_alter_eq|].
  by rewrite lookup_partial_alter_ne.
Qed.

Lemma entry_after_other p ms s : (forall m, m ∈ ms -> about m <> p) -> fold_left (entry_after p) ms s = s.
Proof.
  induction ms as [|m ms IH] in s |- *; intros H; [done|]. cbn. unfold entry_after at 2.
  rewrite bool_decide_eq_false_2 by (apply H; by left). apply IH. intros m' Hm. apply H. by right.
Qed.

Section Nodes.
  Context (f : prefix * ospf_route -> list zapi_route) (p : prefix).
  Hypothesis Hf : forall q r m, m ∈ f (q, r) -> about m = q.

Lemma nodes_other l s : p ∉ map fst l -> fold_left (entry_after p) (flat_map f l) s = s.
Proof using Hf.
  intros Hp. apply entry_after_other. intros m Hm E. apply list_elem_of_In, in_flat_map in Hm as ([q r] & Hq & Hm).
  apply list_elem_of_In, Hf in Hm. apply Hp. subst. apply list_elem_of_In, in_map_iff. by exists (about m, r).
Qed.

(** The messages about a prefix are those of its node. *)
Lemma nodes_entry (rt : route_table) s :
  fold_left (entry_after p) (flat_map f (route_nodes rt)) s
    = match rt !! p with Some r => fold_left (entry_after p) (f (p, r)) s | None => s end.
Proof using Hf.
  unfold route_nodes. assert (Hn : NoDup (map fst (map_to_list rt))) by apply NoDup_fst_map_to_list.
  assert (Hin : forall r, rt !! p = Some r <-> (p, r) ∈ map_to_list rt) by (intros r; by rewrite elem_of_map_to_list).
  destruct (rt !! p) as [r|].
  - assert (H : (p, r) ∈ map_to_list rt) by by apply Hin. clear Hin. revert s Hn H.
    induction (map_to_list rt) as [|[q t] l IH]; intros s Hn H; [by apply elem_of_nil in H|]. cbn [map fst] in Hn.
    apply list.NoDup_cons in Hn as [Hq Hn]. cbn [flat_map]. rewrite fold_left_app. apply elem_of_cons in H as [E|H].
    + injection E as <- <-. by rewrite nodes_other.
    + rewrite (entry_after_other p (f (q, t))); [by apply IH|]. intros m Hm E. apply Hf in Hm. apply Hq. subst.
      apply list_elem_of_In, in_map_iff. exists (about m, r). split; [done|]. by apply list_elem_of_In.
  - apply nodes_other. intros H. apply list_elem_of_In, in_map_iff in H as ([q r] & E & H). cbn in E. subst.
    apply list_elem_of_In, Hin in H. done.
Qed.
End Nodes.

(** ** Next hops of zebra *)

Definition path_key (path : ospf_path) : Z * Z := (op_nexthop path, op_ifindex path).
Definition nexthop_key (nh : zapi_nexthop) : Z * Z := (zn_gate nh, zn_ifindex nh).

Lemma add_nexthop_key path : nexthop_key (ospf_zebra_add_nexthop path) = path_key path.
Proof.
  unfold ospf_zebra_add_nexthop, nexthop_key, path_key.
  destruct (op_unnumbered path), (Z.eqb_spec (op_nexthop path) 0) as [E|], (Z.eqb_spec (op_ifindex path) 0) as [F|];
    cbn; rewrite ?E, ?F; done.
Qed.

(** Without duplicates there are none to remove. *)
Lemma zebra_nexthops_nodup n b paths : forall acc,
  NoDup (map nexthop_key acc ++ map path_key paths) ->
  zebra_nexthops n b paths acc = zebra_nexthops n true paths acc.
Proof.
  induction paths as [|path paths IH]; intros acc Hn; [done|]. cbn [zebra_nexthops]. case_match; [done|].
  assert (Hx : existsb (fun nh => (zn_gate nh =? op_nexthop path) && (zn_ifindex nh =? op_ifindex path)) acc = false).
  { apply not_true_iff_false. intros Hx. apply existsb_exists in Hx as (nh & Hin & E). apply andb_true_iff in E as [E1 E2].
    apply Z.eqb_eq in E1, E2. apply list.NoDup_app in Hn as (_ & Hd & _). apply (Hd (path_key path)); [|by left].
    apply list_elem_of_In, in_map_iff. exists nh. split; [|done]. unfold nexthop_key, path_key. by rewrite E1, E2. }
  rewrite Hx, andb_false_r. cbn [negb andb]. apply IH. rewrite map_app, <- app_assoc. cbn. by rewrite add_nexthop_key.
Qed.

Lemma zebra_nexthops_map n b l1 : forall l2 acc,
  map path_key l1 = map path_key l2 -> map ospf_zebra_add_nexthop l1 = map ospf_zebra_add_nexthop l2 ->
  zebra_nexthops n b l1 acc = zebra_nexthops n b l2 acc.
Proof.
  induction l1 as [|p1 l1 IH]; intros [|p2 l2] acc K E; try done. cbn in K, E. injection E as E1 E2.
  injection K as K1 K2 K3. cbn. rewrite E1, K1, K2. case_match; [done|]. case_match; by apply IH.
Qed.

(** ** Tables *)

(** Routes of a table of networks: of the area or of other areas, the paths over an
    interface agree on whether it is unnumbered, and no path of an intra-area route
    is there twice. *)
Record route_ok (unnumbered : Z -> bool) (r : ospf_route) : Prop := mkRouteOk {
  ro_type : or_type r = OSPF_DESTINATION_NETWORK \/ or_type r = OSPF_DESTINATION_DISCARD;
  ro_path_type : or_path_type r = OSPF_PATH_INTRA_AREA \/ or_path_type r = OSPF_PATH_INTER_AREA;
  ro_flags : forall path, path ∈ or_paths r -> op_unnumbered path = unnumbered (op_ifindex path);
  ro_nodup : or_path_type r = OSPF_PATH_INTRA_AREA -> NoDup (map path_key (or_paths r))
}.

Definition table_ok (unnumbered : Z -> bool) (rt : route_table) : Prop :=
  forall p r, rt !! p = Some r -> route_ok unnumbered r.

(** Zebra holds the table [rt], and the external routes for other prefixes. *)
Definition zebra_has (o : ospf) (rt ext : route_table) (Z : gmap prefix zebra_entry) : Prop :=
  forall p, Z !! p = match rt !! p with Some r => told o r | None => ext !! p ≫= told o end.

Definition apart (rt ext : route_table) : Prop := forall p, is_Some (rt !! p) -> ext !! p = None.

Lemma backup_same_eq b1 b2 : ospf_route_backup_path_same b1 b2 = true -> b1 = b2.
Proof.
  destruct b1 as [[n1 l1]|], b2 as [[n2 l2]|]; try done. cbn. intros H. apply andb_true_iff in H as [H1 H2].
  apply bool_decide_eq_true in H1. apply Z.eqb_eq in H2. by subst.
Qed.

Lemma same_paths_keys l1 : forall l2, length l1 = length l2 -> same_paths l1 l2 = true ->
  map path_key l1 = map path_key l2 /\ map op_backup l1 = map op_backup l2.
Proof.
  induction l1 as [|p1 l1 IH]; intros [|p2 l2] L E; try done. cbn in *. apply andb_true_iff in E as [E E3].
  apply andb_true_iff in E as [E E4]. apply backup_same_eq in E4.
  apply andb_true_iff in E as [E1 E2]. apply Z.eqb_eq in E1, E2. unfold path_key at 1 3. rewrite E1, E2, E4.
  destruct (IH l2) as [-> ->]; [lia|done..].
Qed.

Lemma keys_nexthops unnumbered l1 : forall l2, map path_key l1 = map path_key l2 -> map op_backup l1 = map op_backup l2 ->
  (forall x, x ∈ l1 -> op_unnumbered x = unnumbered (op_ifindex x)) ->
  (forall x, x ∈ l2 -> op_unnumbered x = unnumbered (op_ifindex x)) ->
  map ospf_zebra_add_nexthop l1 = map ospf_zebra_add_nexthop l2.
Proof.
  induction l1 as [|p1 l1 IH]; intros [|p2 l2] E B H1 H2; try done. cbn in *. injection E as E1 E2 E3. injection B as B1 B2. f_equal.
  - unfold ospf_zebra_add_nexthop. rewrite (H1 p1), (H2 p2), E1, E2, B1 by (by left). done.
  - apply IH; [done|done|..]; intros x Hx; [apply H1|apply H2]; by right.
Qed.

Lemma match_same_told unnumbered o old p r r' :
  old !! p = Some r -> route_ok unnumbered r -> route_ok unnumbered r' ->
  ospf_route_match_same (Some old) p r' = true -> told o r = told o r'.
Proof.
  intros Ho [A1 A2 A3 A4] [B1 B2 B3 B4] E. unfold ospf_route_match_same in E. cbn in E. rewrite Ho in E.
  destruct (Z.eqb_spec (or_type r) (or_type r')) as [Et|]; [|done].
  destruct (Z.eqb_spec (or_cost r) (or_cost r')) as [Ec|]; [|done]. cbn in E. destruct (or_changed r); [done|].
  unfold told. rewrite <- Et. destruct (or_type r =? OSPF_DESTINATION_NETWORK); [|done].
  apply andb_true_iff in E as [El Es]. apply Nat.eqb_eq in El. destruct (same_paths_keys _ _ El Es) as [Hk Hb].
  unfold ospf_zebra_add. destruct (os_restart_in_progress o); [done|]. cbn [entry_of].
  assert (Hm : forall x, or_path_type x = OSPF_PATH_INTRA_AREA \/ or_path_type x = OSPF_PATH_INTER_AREA ->
    (or_path_type x =? OSPF_PATH_TYPE1_EXTERNAL) = false /\ (or_path_type x =? OSPF_PATH_TYPE2_EXTERNAL) = false)
    by (intros x [-> | ->]; done).
  unfold is_external. destruct (Hm r A2) as [-> ->], (Hm r' B2) as [-> ->]. cbn [orb andb]. rewrite Ec. do 2 f_equal.
  assert (Hz : forall b, zebra_nexthops (os_max_multipath o) b (or_paths r) [] = zebra_nexthops (os_max_multipath o) b (or_paths r') [])
    by (intros b; apply zebra_nexthops_map; [done|by apply (keys_nexthops unnumbered)]).
  assert (Hx : NoDup (map path_key (or_paths r)) -> forall b b',
    zebra_nexthops (os_max_multipath o) b (or_paths r) [] = zebra_nexthops (os_max_multipath o) b' (or_paths r') []).
  { intros Hn b b'. rewrite (zebra_nexthops_nodup _ b) by done. rewrite (zebra_nexthops_nodup _ b' (or_paths r')); [apply Hz|].
    cbn. by rewrite <- Hk. }
  destruct A2 as [E1|E1]; [by apply Hx, A4|]. destruct B2 as [E2|E2]; [apply Hx; rewrite Hk; by apply B4|].
  rewrite E1, E2. apply Hz.
Qed.

(** ** Installation *)

Lemma about_delete_uniq o new q r m : m ∈ delete_uniq_node o new (q, r) -> about m = q.
Proof.
  unfold delete_uniq_node, ospf_zebra_delete, ospf_zebra_delete_discard. intros H; repeat case_match;
    first [by apply elem_of_nil in H|by apply list_elem_of_singleton in H as ->].
Qed.

Lemma about_install o old q r m : m ∈ install_node o old (q, r) -> about m = q.
Proof.
  unfold install_node, ospf_zebra_add, ospf_zebra_add_discard. intros H; repeat case_match;
    first [by apply elem_of_nil in H|by apply list_elem_of_singleton in H as ->].
Qed.

Lemma about_ext o (ext : route_table) q r m :
  m ∈ (fun pr : prefix * ospf_route => if ospf_route_exist_new_table ext (fst pr) then ospf_zebra_delete o (fst pr) else []) (q, r)
  -> about m = q.
Proof.
  cbn. unfold ospf_zebra_delete. intros H; repeat case_match;
    first [by apply elem_of_nil in H|by apply list_elem_of_singleton in H as ->].
Qed.

Lemma install_entry o old p r s :
  os_restart_in_progress o = false -> or_type r = OSPF_DESTINATION_NETWORK \/ or_type r = OSPF_DESTINATION_DISCARD ->
  fold_left (entry_after p) (install_node o old (p, r)) s
    = if ospf_route_match_same old p r then s else told o r.
Proof.
  intros Hr Ht. unfold install_node, told, ospf_zebra_add, ospf_zebra_add_discard. rewrite Hr.
  destruct Ht as [-> | ->]; cbn -[ospf_route_match_same]; case_match; try done; cbn; unfold entry_after; cbn;
    by rewrite bool_decide_eq_true_2.
Qed.

(** C17: Outside of a graceful restart, for tables of intra-area and inter-area routes
    whose paths agree on which interfaces are unnumbered, with no path twice in an
    intra-area route, and an external table without prefixes of the old one: when zebra
    holds exactly the routes of the old table and of the external table, then after the
    messages of [ospf_route_install] it holds exactly those of the new table and of the
    external routes that the new table does not cover: every route with its metric, tag
    and next hops (with their backup paths), or as a blackhole.  This is so although only
    routes that changed are sent, and the new tables are again apart. *)
Theorem ospf_route_install_correct unnumbered o rt ext Z :
  let old := default ∅ (os_new_table o) in
  os_restart_in_progress o = false -> os_old_external_route o = Some ext ->
  table_ok unnumbered old -> table_ok unnumbered rt -> apart old ext -> zebra_has o old ext Z ->
  let '(o', ms) := ospf_route_install o rt in
  exists ext', os_new_table o' = Some rt /\ os_old_external_route o' = Some ext'
    /\ zebra_has o' rt ext' (zebra_receives Z ms) /\ apart rt ext'
    /\ forall p, ext' !! p = if decide (is_Some (rt !! p)) then None else ext !! p.
Proof.
  intros old Hr He Hold Hnew Hap HZ. unfold ospf_route_install. rewrite He. cbn.
  set (ext' := filter _ ext).
  assert (Hext : forall p, ext' !! p = if decide (is_Some (rt !! p)) then None else ext !! p).
  { intros p. unfold ext'. rewrite map_lookup_filter. cbn. destruct (decide (is_Some (rt !! p))) as [[r E]|E].
    - destruct (ext !! p) as [x|]; [|done]. cbn. rewrite E. by case_guard.
    - apply eq_None_not_Some in E. destruct (ext !! p) as [x|]; [|done]. cbn. rewrite E. by case_guard. }
  exists ext'. split; [done|]. split; [done|]. split; [|split; [|done]].
  2: { intros p Hp. rewrite Hext. by destruct (decide _). }
  intros p. rewrite zebra_receives_lookup, !fold_left_app, Hext.
  rewrite (nodes_entry _ p (about_install o (os_new_table o))), (nodes_entry _ p (about_ext o ext)).
  assert (Hdel : fold_left (entry_after p)
      match os_new_table o with Some old => ospf_route_delete_uniq o old rt | None => [] end (Z !! p)
    = match old !! p, rt !! p with Some _, None => None | _, _ => Z !! p end).
  { unfold old. destruct (os_new_table o) as [old'|]; cbn; [|by rewrite lookup_empty].
    unfold ospf_route_delete_uniq. rewrite (nodes_entry _ p (about_delete_uniq o rt)).
    destruct (old' !! p) as [r|] eqn:Eo; [|done]. unfold delete_uniq_node, ospf_route_exist_new_table.
    destruct (Hold p r Eo) as [Ht Hp _ _]. assert (Hpt : (or_path_type r =? OSPF_PATH_INTRA_AREA) || (or_path_type r =? OSPF_PATH_INTER_AREA) = true)
      by (destruct Hp as [-> | ->]; done). rewrite Hpt. destruct (rt !! p); [done|].
    unfold ospf_zebra_delete, ospf_zebra_delete_discard. rewrite Hr.
    destruct Ht as [-> | ->]; cbn; unfold entry_after; cbn; by rewrite bool_decide_eq_true_2. }
  rewrite Hdel. clear Hdel. pose proof (HZ p) as Hp. specialize (Hap p). unfold old in *.
  change (told _) with (told o).
  destruct (rt !! p) as [r'|] eqn:En.
  - rewrite (install_entry o _ p r' _ Hr (ro_type _ _ (Hnew p r' En))).
    destruct (ospf_route_match_same (os_new_table o) p r') eqn:Em; [|done].
    destruct (os_new_table o) as [old'|] eqn:Eo; [|done]. cbn in *.
    destruct (old' !! p) as [r|] eqn:Er; [|by unfold ospf_route_match_same in Em; cbn in Em; rewrite Er in Em].
    unfold ospf_route_exist_new_table. rewrite (Hap ltac:(by eexists)). cbn. rewrite Hp.
    apply (match_same_told unnumbered o old' p r r' Er (Hold p r Er) (Hnew p r' En) Em).
  - destruct (decide (is_Some None)) as [[? ?]|_]; [done|].
    destruct (default ∅ (os_new_table o) !! p) as [r|]; [|done]. by rewrite (Hap ltac:(by eexists)).
Qed.

(** ** An installation *)

Module InstallExample.

Definition net (x : Z) : prefix := mkPrefix AF_INET 24 [10; 0; x; 0].
Definition no_lsa : lsa_header := mkLsah 0 0 1 1 1 1 0 36.
Definition route (path_type cost : Z) (paths : list ospf_path) : ospf_route :=
  mkOroute OSPF_DESTINATION_NETWORK 1 path_type cost no_lsa 0 0 0 0 false 0 0 false paths.
Definition via (nexthop ifindex : Z) : ospf_path := mkOpath nexthop 1 ifindex false None.

Definition before : route_table := {[ net 1 := route 1 10 [via 5 2]; net 2 := route 1 20 [via 5 2] ]}.
Definition after : route_table := {[ net 1 := route 1 10 [via 5 2]; net 3 := route 2 30 [via 6 3; via 5 2] ]}.
Definition external : route_table := {[ net 3 := route 3 40 [via 7 2]; net 4 := route 3 40 [via 7 2] ]}.
Definition instance : ospf := mkOspf false false 16 0 0 0 0 None (Some before) (Some external).
Definition zebra : gmap prefix zebra_entry :=
  omap (told instance) (before ∪ external).

Lemma before_ok : table_ok (fun _ => false) before.
Proof.
  intros p r H. unfold before, after in H. apply lookup_insert_Some in H as [[_ <-]|[_ H]]; [|apply lookup_singleton_Some in H as [_ <-]];
    (split; [by left|by left|intros x Hx; by apply list_elem_of_singleton in Hx as ->|intros _; apply NoDup_singleton]).
Qed.

Lemma after_ok : table_ok (fun _ => false) after.
Proof.
  intros p r H. unfold before, after in H. apply lookup_insert_Some in H as [[_ <-]|[_ H]]; [|apply lookup_singleton_Some in H as [_ <-]].
  - split; [by left|by left|intros x Hx; by apply list_elem_of_singleton in Hx as ->|intros _; apply NoDup_singleton].
  - split; [by left|by right| |done]. intros x Hx. apply elem_of_cons in Hx as [->|Hx]; [done|]. by apply list_elem_of_singleton in Hx as ->.
Qed.

Lemma before_apart : apart before external.
Proof.
  intros p [r H]. unfold before in H. apply lookup_insert_Some in H as [[<- _]|[_ H]]; [|apply lookup_singleton_Some in H as [<- _]];
    vm_compute; reflexivity.
Qed.

Lemma zebra_before : zebra_has instance before external zebra.
Proof.
  intros p. unfold zebra. rewrite lookup_omap, lookup_union. destruct (before !! p) eqn:E; destruct (external !! p) eqn:E'; try done.
Qed.

(** The unchanged route is not sent; the external route gives way to the new one. *)
Lemma ospf_route_install_correct_witness :
  let '(o', ms) := ospf_route_install instance after in
  zebra_receives zebra ms !! net 1 = Some (ZebraRoute 10 None [mkZnh NEXTHOP_TYPE_IPV4_IFINDEX 5 2 None])
  /\ zebra_receives zebra ms !! net 2 = None
  /\ zebra_receives zebra ms !! net 3
     = Some (ZebraRoute 30 None [mkZnh NEXTHOP_TYPE_IPV4_IFINDEX 6 3 None; mkZnh NEXTHOP_TYPE_IPV4_IFINDEX 5 2 None])
  /\ length ms = 3%nat.
Proof.
  pose proof (ospf_route_install_correct (fun _ => false) instance after external zebra eq_refl eq_refl
    before_ok after_ok before_apart zebra_before) as H.
  destruct (ospf_route_install instance after) as [o' ms] eqn:E. destruct H as (ext' & _ & _ & H & _).
  split; [rewrite (H (net 1)); vm_compute in E; injection E as <- _; vm_compute; reflexivity|].
  vm_compute in E. injection E as _ <-. repeat split; vm_compute; reflexivity.
Defined.

(** A route that turns from an intra-area into an inter-area one at the same cost is not
    sent again, so zebra keeps the distance of intra-area routes. *)
Lemma install_keeps_distance :
  let o := mkOspf false false 16 110 150 0 0 None (Some {[ net 1 := route 1 10 [via 5 2] ]}) None in
  let r := route 2 10 [via 5 2] in
  snd (ospf_route_install o {[ net 1 := r ]}) = []
  /\ ospf_distance_apply o (route 1 10 [via 5 2]) = 110 /\ ospf_distance_apply o r = 150.
Proof. vm_compute. repeat split; reflexivity. Qed.
End InstallExample.
