(* ===== verification/OspfRouteFacts.v ===== *)
(** * The routes of an area are the cheapest

    What each call of the calculation offers for a prefix, and that the table has
    for every prefix the cheapest offer with the next hops of those that cost as
    much. *)

From stdpp Require Import gmap sets.
From S2P Require Import Prelude Prefix OspfLsa OspfIsm OspfNsm OspfDbDescFacts OspfSpf OspfSpfFacts OspfSpfTree OspfSpfPaths OspfSpfStubs OspfRoute OspfRouteInstall.
From Stdlib Require Import Sorting.Sorted.

(** ** Prefixes *)

Lemma masklen_range m : 0 <= m < 4294967296 -> 0 <= ip_masklen (addr_bytes m) <= 32.
Proof.
  intros Hm. unfold ip_masklen. assert (Hb : 0 <= ntohl_bytes (addr_bytes m) < 2 ^ 32).
  { unfold ntohl_bytes, addr_bytes, byte_at. cbn [default lookup list_lookup].
    assert (H : forall b k, 0 <= b < 256 -> 0 <= k <= 24 -> 0 <= Z.shiftl b k < 2 ^ 32).
    { intros b k Hb Hk. rewrite Z.shiftl_mul_pow2 by lia. split; [apply Z.mul_nonneg_nonneg; [lia|apply Z.pow_nonneg; lia]|].
      assert (2 ^ k <= 2 ^ 24) by (apply Z.pow_le_mono_r; lia). change (2 ^ 32) with (256 * 2 ^ 24). nia. }
    cbn. repeat apply lor_bound; try lia; try (apply H; [|lia]);
      first [apply Z.mod_pos_bound; lia|idtac].
    - split; [apply Z.div_pos; lia|apply Z.div_lt_upper_bound; lia].
    - pose proof (Z.mod_pos_bound m 256). lia. }
  destruct (Z.eqb_spec (0xffffffff - ntohl_bytes (addr_bytes m)) 0) as [|Hne]; cbn [negb]; [lia|]. unfold clz32.
  set (t := 0xffffffff - _) in *. assert (Ht : 0 < t < 2 ^ 32) by lia.
  pose proof (Z.log2_nonneg t). assert (Z.log2 t < 32) by (apply Z.log2_lt_pow2; lia). lia.
Qed.

Lemma ipv4_network_ret id m : 0 <= m < 4294967296 -> exists p, ipv4_network id m = Ret p.
Proof.
  intros Hm. pose proof (masklen_range m Hm) as Hr. unfold ipv4_network, apply_mask_ipv4. cbn [prefixlen].
  unfold masklen2ip. assert (E : (0 <=? ip_masklen (addr_bytes m)) && (ip_masklen (addr_bytes m) <=? IPV4_MAX_BITLEN) = true)
    by (apply andb_true_iff; unfold IPV4_MAX_BITLEN; lia).
  rewrite E. cbn [mbind outcome_bind]. by eexists.
Qed.

(** ** Next hops of a vertex *)

(** The paths of next hops, over the interfaces of the router. *)
Definition hop_paths (a : ospf_area) (hs : list vertex_nexthop) : list (Z * Z) :=
  omap (fun h => oi ← ospf_if_lookup_by_lsa_pos a (h_lsa_pos h); Some (h_router h, so_ifindex oi)) hs.

Lemma path_exist_key paths n oi : ospf_path_exist paths n oi = true <-> (n, so_ifindex oi) ∈ map path_key paths.
Proof.
  unfold ospf_path_exist. rewrite existsb_exists, list_elem_of_In, in_map_iff. split; intros (x & H1 & H2); exists x.
  - apply andb_true_iff in H2 as [E1 E2]. apply Z.eqb_eq in E1, E2. unfold path_key. by rewrite E1, E2.
  - unfold path_key in H1. injection H1 as -> ->. by rewrite !Z.eqb_refl.
Qed.

Lemma copy_nexthops_keys a v ps : ar_dry_run a = false -> forall paths,
  let ks := map path_key (fold_left (copy_nexthop a v) ps paths) in
  (forall k, k ∈ ks <-> k ∈ map path_key paths \/ k ∈ hop_paths a (map vp_nexthop ps))
  /\ (NoDup (map path_key paths) -> NoDup ks).
Proof.
  intros Hd. induction ps as [|p ps IH]; intros paths ks; subst ks; cbn [fold_left map hop_paths omap list_omap].
  { split; [|done]. intros k. rewrite elem_of_nil. tauto. }
  set (paths1 := copy_nexthop a v paths p).
  assert (H1 : (forall k, k ∈ map path_key paths1 <-> k ∈ map path_key paths \/ k ∈ hop_paths a [vp_nexthop p])
    /\ (NoDup (map path_key paths) -> NoDup (map path_key paths1))).
  { unfold paths1, copy_nexthop, spf_oi, hop_paths. rewrite Hd, orb_false_r. cbn [omap list_omap].
    destruct (ospf_if_lookup_by_lsa_pos a (h_lsa_pos (vp_nexthop p))) as [oi|]; cbn [mbind option_bind].
    2: { split; [|done]. intros k. rewrite elem_of_nil. tauto. }
    destruct (ospf_path_exist paths (h_router (vp_nexthop p)) oi) eqn:E; cbn [negb].
    - apply path_exist_key in E. split; [|done]. intros k. rewrite list_elem_of_singleton. split; [by left|].
      intros [?| ->]; done.
    - apply not_true_iff_false in E. rewrite path_exist_key in E. rewrite map_app. cbn [map path_over].
      change (path_key (mkOpath _ _ (so_ifindex oi) _ _)) with (h_router (vp_nexthop p), so_ifindex oi). split.
      + intros k. by rewrite elem_of_app.
      + intros Hn. apply list.NoDup_app. split; [done|]. split; [|apply NoDup_singleton].
        intros k Hk Hk'. apply list_elem_of_singleton in Hk' as ->. done. }
  clearbody paths1. destruct H1 as [M1 N1]. destruct (IH paths1) as [M2 N2]. split; [|auto].
  intros k. rewrite M2, M1. unfold hop_paths. cbn [omap list_omap].
  destruct (_ ≫= _) as [x|]; rewrite ?elem_of_cons, ?elem_of_nil; tauto.
Qed.

(** ** Offers *)

Definition ret_of {A} (x : outcome A) : option A := match x with Ret y => Some y | Abort => None end.

(** A stub network that is left out. *)
Definition own_host (a : ospf_area) (l : router_lsa_link) (parent_is_root : bool) : bool :=
  parent_is_root && (l_link_data l =? 0xffffffff) && ospf_if_lookup_by_local_addr a (l_link_id l).

(** The prefix and the cost that a call of the calculation offers. *)
Definition offer (a : ospf_area) (V : gmap Z vertex) (e : spf_effect) : option (prefix * Z) :=
  match e with
  | IntraAddTransit k =>
      v ← V !! k;
      if al_mask (vx_lsa v) =? 0xffffffff then None
      else p ← ret_of (ipv4_network (al_id (vx_lsa v)) (al_mask (vx_lsa v))); Some (p, vx_distance v)
  | IntraAddStub l k parent_is_root _ =>
      v ← V !! k;
      if own_host a l parent_is_root then None
      else p ← ret_of (ipv4_network (l_link_id l) (l_link_data l)); Some (p, vx_distance v + l_metric l)
  | IntraAddRouter _ => None
  end.

(** The next hop and interface of the paths that it offers. *)
Definition offered_paths (a : ospf_area) (root : Z) (V : gmap Z vertex) (e : spf_effect) : list (Z * Z) :=
  match e with
  | IntraAddTransit k => match V !! k with Some v => hop_paths a (hops v) | None => [] end
  | IntraAddStub l k _ lsa_pos =>
      match V !! k with
      | Some v => if k =? root then match ospf_if_lookup_by_lsa_pos a lsa_pos with
                                    | Some oi => [(0, so_ifindex oi)]
                                    | None => []
                                    end
                  else hop_paths a (hops v)
      | None => []
      end
  | IntraAddRouter _ => []
  end.

Definition is_stub (e : spf_effect) : bool := match e with IntraAddStub _ _ _ _ => true | _ => false end.

(** The stub networks of other routers. *)
Definition remote_stub (root : Z) (e : spf_effect) : Prop := exists l k b i, e = IntraAddStub l k b i /\ k <> root.

(** The entry of the prefix [p] after the calls [es]. *)
Record best_entry (a : ospf_area) (root : Z) (V : gmap Z vertex) (es : list spf_effect) (p : prefix) (r : ospf_route) : Prop :=
  mkBestEntry {
  be_cost : exists e, e ∈ es /\ offer a V e = Some (p, or_cost r);
  be_least : forall e c, e ∈ es -> offer a V e = Some (p, c) -> or_cost r <= c;
  be_from : forall x, x ∈ or_paths r -> exists e, e ∈ es /\ offer a V e = Some (p, or_cost r)
    /\ path_key x ∈ offered_paths a root V e;
  be_all : forall e, e ∈ es -> remote_stub root e -> offer a V e = Some (p, or_cost r) ->
    offered_paths a root V e ⊆ map path_key (or_paths r);
  be_nodup : NoDup (map path_key (or_paths r))
}.

Definition best_table (a : ospf_area) (root : Z) (V : gmap Z vertex) (es : list spf_effect) (rt : route_table) : Prop :=
  forall p, match rt !! p with
            | Some r => best_entry a root V es p r
            | None => forall e c, e ∈ es -> offer a V e <> Some (p, c)
            end.

Section Enter.
  Context (a : ospf_area) (root : Z) (V : gmap Z vertex).
  Hypothesis Hdry : ar_dry_run a = false.
  Hypothesis Hkey : keyed V.
Local Notation offer := (offer a V).
Local Notation offered_paths := (offered_paths a root V).
Local Notation best_entry := (best_entry a root V).
Local Notation best_table := (best_table a root V).

(** A call that leaves the entry. *)
Lemma best_skip es e p r :
  best_entry es p r ->
  (forall c, offer e = Some (p, c) -> or_cost r <= c /\ (remote_stub root e -> or_cost r < c)) ->
  best_entry (es ++ [e]) p r.
Proof.
  intros [(e0 & H0 & O0) H2 H3 H4 H5] Hs. split; [exists e0; set_solver|..|done].
  - intros e' c He Ho. apply elem_of_app in He as [He|He]; [eauto|]. apply list_elem_of_singleton in He as ->. by apply Hs.
  - intros x Hx. destruct (H3 x Hx) as (e1 & ? & ? & ?). exists e1. set_solver.
  - intros e' He Hr Ho. apply elem_of_app in He as [He|He]; [eauto|]. apply list_elem_of_singleton in He as ->.
    destruct (Hs _ Ho) as [_ Hlt]. specialize (Hlt Hr). lia.
Qed.

(** A call that makes the entry. *)
Lemma best_new es e p r :
  offer e = Some (p, or_cost r) ->
  (forall e' c, e' ∈ es -> offer e' = Some (p, c) -> or_cost r <= c /\ (remote_stub root e' -> or_cost r < c)) ->
  (forall k, k ∈ map path_key (or_paths r) -> k ∈ offered_paths e) ->
  (remote_stub root e -> offered_paths e ⊆ map path_key (or_paths r)) -> NoDup (map path_key (or_paths r)) ->
  best_entry (es ++ [e]) p r.
Proof.
  intros Ho Hes Hk Hall Hn. assert (He : e ∈ es ++ [e]) by set_solver. split; [by exists e|..|done].
  - intros e' c He' Ho'. apply elem_of_app in He' as [He'|He']; [by apply (Hes e')|].
    apply list_elem_of_singleton in He' as ->. rewrite Ho in Ho'. injection Ho' as <-. lia.
  - intros x Hx. exists e. split; [done|]. split; [done|]. apply Hk. by apply list_elem_of_In, in_map, list_elem_of_In.
  - intros e' He' Hr Ho'. apply elem_of_app in He' as [He'|He'].
    + destruct (Hes e' _ He' Ho') as [_ Hlt]. specialize (Hlt Hr). lia.
    + apply list_elem_of_singleton in He' as ->. auto.
Qed.

(** A call that adds paths. *)
Lemma best_merge es e p r r' :
  best_entry es p r -> offer e = Some (p, or_cost r) -> or_cost r' = or_cost r ->
  (forall k, k ∈ map path_key (or_paths r') ->
     k ∈ map path_key (or_paths r) \/ k ∈ offered_paths e) ->
  map path_key (or_paths r) ⊆ map path_key (or_paths r') ->
  (remote_stub root e -> offered_paths e ⊆ map path_key (or_paths r')) -> NoDup (map path_key (or_paths r')) ->
  best_entry (es ++ [e]) p r'.
Proof.
  intros [(e0 & H0 & O0) H2 H3 H4 H5] Ho Ec Hk Hold Hall Hn. split; rewrite ?Ec; [exists e0; set_solver|..|done].
  - intros e' c He Ho'. apply elem_of_app in He as [He|He]; [eauto|]. apply list_elem_of_singleton in He as ->.
    rewrite Ho in Ho'. injection Ho' as <-. lia.
  - intros x Hx. assert (Hx' : path_key x ∈ map path_key (or_paths r')) by by apply list_elem_of_In, in_map, list_elem_of_In.
    destruct (Hk _ Hx') as [Hx2|Hx2].
    + apply list_elem_of_In, in_map_iff in Hx2 as (y & <- & Hy). apply list_elem_of_In in Hy.
      destruct (H3 y Hy) as (e1 & ? & ? & ?). exists e1. set_solver.
    + exists e. set_solver.
  - intros e' He Hr Ho'. apply elem_of_app in He as [He|He]; [etrans; [by apply (H4 e')|done]|].
    apply list_elem_of_singleton in He as ->. auto.
Qed.

Lemma table_skip es e rt :
  best_table es rt ->
  (forall p c, offer e = Some (p, c) -> exists r, rt !! p = Some r /\ or_cost r <= c /\ (remote_stub root e -> or_cost r < c)) ->
  best_table (es ++ [e]) rt.
Proof.
  intros H Hs p. specialize (H p). destruct (rt !! p) as [r|] eqn:Er.
  - apply best_skip; [done|]. intros c Ho. destruct (Hs p c Ho) as (r' & Er' & ?). rewrite Er in Er'. by injection Er' as <-.
  - intros e' c He Ho. apply elem_of_app in He as [He|He]; [by apply (H e' c)|]. apply list_elem_of_singleton in He as ->.
    destruct (Hs p c Ho) as (r' & Er' & _). by rewrite Er in Er'.
Qed.

Lemma table_set es e rt p c r :
  best_table es rt -> offer e = Some (p, c) -> best_entry (es ++ [e]) p r -> best_table (es ++ [e]) (<[p := r]> rt).
Proof.
  intros H Ho Hr q. destruct (decide (p = q)) as [<-|Hne]; [by rewrite lookup_insert_eq|]. rewrite lookup_insert_ne by done.
  specialize (H q). destruct (rt !! q) as [x|].
  - apply best_skip; [done|]. intros c' Ho'. rewrite Ho in Ho'. by injection Ho' as -> _.
  - intros e' c' He Ho'. apply elem_of_app in He as [He|He]; [by apply (H e' c')|]. apply list_elem_of_singleton in He as ->.
    rewrite Ho in Ho'. by injection Ho' as -> _.
Qed.

(** What the calls say is in range. *)
Definition effect_ok (e : spf_effect) : Prop :=
  match e with
  | IntraAddTransit k => exists v, V !! k = Some v /\ 0 <= al_mask (vx_lsa v) < 4294967296
  | IntraAddStub l k _ _ => exists v, V !! k = Some v /\ 0 <= l_link_data l < 4294967296
      /\ 0 <= vx_distance v + l_metric l < 4294967296
  | IntraAddRouter _ => True
  end.

(** A transit network comes before the stub networks and after nearer ones. *)
Definition after_nearer (es : list spf_effect) (e : spf_effect) : Prop :=
  is_stub e = false -> forall e', e' ∈ es -> is_stub e' = false
    /\ forall p c c', offer e' = Some (p, c') -> offer e = Some (p, c) -> c' <= c.

Lemma not_stub_remote e : is_stub e = false -> ~ remote_stub root e.
Proof. intros H (l & k & b & i & -> & _). done. Qed.

Lemma enter_transit es k rt :
  best_table es rt -> effect_ok (IntraAddTransit k) -> after_nearer es (IntraAddTransit k) ->
  exists rt', spf_enter a root V rt (IntraAddTransit k) = Ret rt' /\ best_table (es ++ [IntraAddTransit k]) rt'.
Proof using Hdry Hkey.
  intros H (v & Hv & Hm) Hafter. specialize (Hafter eq_refl). cbn [spf_enter]. rewrite Hv. unfold ospf_intra_add_transit.
  destruct (al_mask (vx_lsa v) =? 0xffffffff) eqn:Em.
  { exists rt. split; [done|]. apply table_skip; [done|]. intros p c Ho. cbn in Ho. rewrite Hv in Ho. cbn in Ho. by rewrite Em in Ho. }
  destruct (ipv4_network_ret (al_id (vx_lsa v)) _ Hm) as (p & Ep). rewrite Ep. cbn [mbind outcome_bind].
  assert (Ho : offer (IntraAddTransit k) = Some (p, vx_distance v)) by (cbn; rewrite Hv; cbn; by rewrite Em, Ep).
  set (r := area_route a v OSPF_DESTINATION_NETWORK (vx_distance v) 0 0 true (ospf_route_copy_nexthops_from_vertex a [] v)).
  destruct (copy_nexthops_keys a v (vx_parents v) Hdry []) as [Hk Hn].
  assert (Hnew : (forall e' c, e' ∈ es -> offer e' = Some (p, c) -> vx_distance v <= c) ->
     best_table (es ++ [IntraAddTransit k]) (<[p := r]> rt)).
  { intros Hle. apply (table_set _ _ _ _ _ r H Ho). apply best_new; [done|..].
    - intros e' c He' Ho'. split; [by apply (Hle e')|]. intros Hs. by destruct (not_stub_remote e' (proj1 (Hafter e' He')) Hs).
    - intros q Hq. cbn. rewrite Hv. apply Hk in Hq as [Hq|Hq]; [by apply elem_of_nil in Hq|done].
    - intros Hs. by destruct (not_stub_remote (IntraAddTransit k) eq_refl Hs).
    - apply Hn, NoDup_nil_2. }
  pose proof (H p) as Hp. destruct (rt !! p) as [cur|] eqn:Er.
  - assert (Hle : or_cost cur <= vx_distance v).
    { destruct (be_cost _ _ _ _ _ _ Hp) as (e' & He' & Ho'). by apply (proj2 (Hafter e' He') p). }
    destruct (_ || _) eqn:Eb; eexists; (split; [reflexivity|]).
    + apply table_skip; [done|]. intros q c Hq. rewrite Ho in Hq. injection Hq as <- <-. exists cur. split; [done|].
      split; [done|]. intros Hs. by destruct (not_stub_remote (IntraAddTransit k) eq_refl Hs).
    + apply Hnew. intros e' c He' Ho'. pose proof (be_least _ _ _ _ _ _ Hp e' c He' Ho').
      apply orb_false_iff in Eb as [Eb _]. lia.
  - eexists. split; [reflexivity|]. apply Hnew. intros e' c He' Ho'. by destruct (Hp e' c He').
Qed.

Lemma stub_paths_keys v k lsa_pos l b :
  V !! k = Some v -> let ks := map path_key (stub_paths a root v lsa_pos) in
  (forall q, q ∈ ks <-> q ∈ offered_paths (IntraAddStub l k b lsa_pos)) /\ NoDup ks.
Proof using Hdry Hkey.
  intros Hv ks. subst ks. unfold stub_paths, spf_oi. cbn. rewrite Hv, (Hkey _ _ Hv), Hdry.
  destruct (copy_nexthops_keys a v (vx_parents v) Hdry []) as [Hk Hn].
  destruct (k =? root); cbn [negb].
  - rewrite orb_false_r. destruct (ospf_if_lookup_by_lsa_pos a lsa_pos); cbn; [split; [done|apply NoDup_singleton]|].
    split; [done|apply NoDup_nil_2].
  - split; [|apply Hn, NoDup_nil_2]. intros q. rewrite Hk, elem_of_nil. unfold hops. tauto.
Qed.

(** The next hops of the router are offered when it is not the root, which has none. *)
Lemma stub_copy_keys v k lsa_pos l b paths :
  V !! k = Some v -> (k = root -> vx_parents v = []) ->
  let ks := map path_key (ospf_route_copy_nexthops_from_vertex a paths v) in
  let e := IntraAddStub l k b lsa_pos in
  (forall q, q ∈ ks -> q ∈ map path_key paths \/ q ∈ offered_paths e) /\ map path_key paths ⊆ ks
  /\ (remote_stub root e -> offered_paths e ⊆ ks) /\ (NoDup (map path_key paths) -> NoDup ks).
Proof using Hdry Hkey.
  intros Hv Hr ks e. destruct (copy_nexthops_keys a v (vx_parents v) Hdry paths) as [Hk Hn]. subst ks e. cbn. rewrite Hv.
  destruct (Z.eqb_spec k root) as [E|E].
  - assert (En : hop_paths a (map vp_nexthop (vx_parents v)) = []) by (by rewrite (Hr E)).
    split_and!; [|intros q Hq; apply Hk; by left| |done].
    + intros q Hq. apply Hk in Hq as [?|Hq]; [by left|]. rewrite En in Hq. by apply elem_of_nil in Hq.
    + intros (l' & k' & b' & i' & E' & Hne). injection E' as _ <- _ _. done.
  - split_and!; [intros q Hq; by apply Hk|intros q Hq; apply Hk; by left| |done]. intros _ q Hq. apply Hk. by right.
Qed.

Lemma enter_stub es l k b lsa_pos rt :
  let e := IntraAddStub l k b lsa_pos in
  best_table es rt -> effect_ok e -> (forall v, V !! root = Some v -> vx_parents v = []) ->
  exists rt', spf_enter a root V rt e = Ret rt' /\ best_table (es ++ [e]) rt'.
Proof using Hdry Hkey.
  intros e H (v & Hv & Hm & Hd) Hroot. cbn [spf_enter e]. rewrite Hv. unfold ospf_intra_add_stub.
  destruct (ipv4_network_ret (l_link_id l) _ Hm) as (p & Ep). rewrite Ep. cbn [mbind outcome_bind].
  fold (own_host a l b). rewrite (u32_small _ Hd). destruct (own_host a l b) eqn:Eh.
  { exists rt. split; [done|]. apply table_skip; [done|]. intros q c Ho. cbn in Ho. rewrite Hv in Ho. cbn in Ho. by rewrite Eh in Ho. }
  assert (Ho : offer e = Some (p, vx_distance v + l_metric l)) by (cbn; rewrite Hv; cbn; by rewrite Eh, Ep).
  assert (Hpar : k = root -> vx_parents v = []) by (intros ->; auto).
  pose proof (H p) as Hp. destruct (rt !! p) as [cur|] eqn:Er.
  2: { eexists. split; [reflexivity|]. destruct (stub_paths_keys v k lsa_pos l b Hv) as [Hk Hn].
       apply (table_set _ _ _ _ _ _ H Ho). apply best_new; try done.
       - intros e' c He' Ho'. by destruct (Hp e' c He').
       - intros q Hq. by apply Hk.
       - intros _ q Hq. by apply Hk. }
  destruct (Z.ltb_spec (or_cost cur) (vx_distance v + l_metric l)) as [Hlt|Hge].
  { exists rt. split; [done|]. apply table_skip; [done|]. intros q c Hq. rewrite Ho in Hq. injection Hq as <- <-.
    exists cur. split; [done|]. split; [lia|done]. }
  destruct (Z.eqb_spec (vx_distance v + l_metric l) (or_cost cur)) as [Ec|Ec]; eexists; (split; [reflexivity|]);
    apply (table_set _ _ _ _ _ _ H Ho).
  - destruct (stub_copy_keys v k lsa_pos l b (or_paths cur) Hv Hpar) as (K1 & K2 & K3 & K4).
    apply (best_merge _ _ _ cur _ Hp); [by rewrite <- Ec|..]; case_bool; try done; apply K4, (be_nodup _ _ _ _ _ _ Hp).
  - destruct (stub_copy_keys v k lsa_pos l b [] Hv Hpar) as (K1 & K2 & K3 & K4).
    apply best_new; [done|..]; cbn [or_cost or_paths set_or_origin set_or_paths set_or_cost].
    + intros e' c He' Ho'. pose proof (be_least _ _ _ _ _ _ Hp e' c He' Ho'). split; [|intros _]; lia.
    + intros q Hq. destruct (K1 q Hq) as [Hq'|?]; [by apply elem_of_nil in Hq'|done].
    + done.
    + apply K4, NoDup_nil_2.
Qed.
End Enter.

Lemma enter_all_best a root V es : ar_dry_run a = false -> keyed V ->
  (forall v, V !! root = Some v -> vx_parents v = []) -> forall done rt,
  best_table a root V done rt -> (forall e, e ∈ es -> effect_ok V e) ->
  (forall l1 e l2, es = l1 ++ e :: l2 -> after_nearer a V (done ++ l1) e) ->
  exists rt', spf_enter_all a root V es rt = Ret rt' /\ best_table a root V (done ++ es) rt'.
Proof.
  intros Hd Hk Hr. induction es as [|e es IH]; intros done rt Hb He Ha.
  { exists rt. by rewrite app_nil_r. }
  cbn [spf_enter_all]. assert (Hstep : exists rt1, spf_enter a root V rt e = Ret rt1 /\ best_table a root V (done ++ [e]) rt1).
  { pose proof (Ha [] e es eq_refl) as Hae. rewrite app_nil_r in Hae. pose proof (He e ltac:(by left)) as Heo.
    destruct e as [k|k|l k b i]; [by apply enter_transit| |by apply enter_stub].
    exists rt. split; [done|]. by apply table_skip. }
  destruct Hstep as (rt1 & -> & H1). cbn [mbind outcome_bind].
  destruct (IH (done ++ [e]) rt1 H1) as (rt2 & E2 & H2).
  - intros e' He'. apply He. by right.
  - intros l1 e' l2 E. rewrite <- app_assoc. apply (Ha (e :: l1) e' l2). by rewrite E.
  - exists rt2. split; [done|]. by rewrite <- app_assoc in H2.
Qed.

(** ** The calls of the calculation *)

Lemma stub_links_elem a x b links l : l ∈ links -> l_type l = LSA_LINK_TYPE_STUB ->
  ospf_spf_is_protected_resource a l (vx_lsa x) = false ->
  forall i, exists j, IntraAddStub l (vx_key x) b j ∈ stub_links a x b i links.
Proof.
  intros Hl Ht Hp. induction links as [|y links IH]; intros i; [by apply elem_of_nil in Hl|]. cbn [stub_links].
  apply elem_of_cons in Hl as [<-|Hl].
  - exists i. rewrite Ht, Hp. cbn. by left.
  - destruct (IH Hl (i + 1)) as (j & Hj). exists j. apply elem_of_app. by right.
Qed.

Lemma stub_links_inv a x b links : forall i e, e ∈ stub_links a x b i links ->
  exists l j, e = IntraAddStub l (vx_key x) b j /\ l ∈ links /\ l_type l = LSA_LINK_TYPE_STUB.
Proof.
  induction links as [|y links IH]; intros i e He; cbn [stub_links] in He; [by apply elem_of_nil in He|].
  apply elem_of_app in He as [He|He].
  - destruct (_ && _) eqn:E in He; [|by apply elem_of_nil in He]. apply andb_true_iff in E as [E _]. apply Z.eqb_eq in E.
    apply list_elem_of_singleton in He as ->. exists y, i. split_and!; [done|by left|done].
  - destruct (IH _ _ He) as (l & j & -> & ? & ?). exists l, j. split_and!; [done|by right|done].
Qed.

(** Masks and metrics of an area are in their range. *)
Definition fields_ok (a : ospf_area) : Prop := forall x, x ∈ ar_lsdb a ->
  0 <= al_mask x < 4294967296
  /\ forall l, l ∈ al_links x -> l_type l = LSA_LINK_TYPE_STUB -> 0 <= l_link_data l < 4294967296 /\ 0 <= l_metric l < 65536.

(** Every network and every stub network that was reached is entered. *)
Definition all_entered (a : ospf_area) (st : spf_state) : Prop :=
  forall k x, sp_vertices st !! k = Some x ->
    (vx_type x <> OSPF_VERTEX_ROUTER -> IntraAddTransit k ∈ sp_out st)
    /\ (vx_type x = OSPF_VERTEX_ROUTER -> forall l, l ∈ al_links (vx_lsa x) -> l_type l = LSA_LINK_TYPE_STUB ->
        ospf_spf_is_protected_resource a l (vx_lsa x) = false -> exists b i, IntraAddStub l k b i ∈ sp_out st).

Section Routes.
  Context (a : ospf_area) (root : area_lsa) (st : spf_state) (ks : list Z) (js : list (Z * bool)).
  Hypothesis Hok : area_ok a root.
  Hypothesis Hf : fields_ok a.
  Hypothesis Hex : spf_exact a root st.
  Hypothesis Ht : sp_tree st = al_key root :: ks.
  Hypothesis Ho : in_order (sp_vertices st) (sp_tree st).
  Hypothesis Hp : map fst js ≡ₚ ks.
  Hypothesis Hout : sp_out st = map (tree_route (sp_vertices st)) ks
                   ++ flat_map (stubs_at a (sp_vertices st)) ((al_key root, false) :: js).

Lemma exact_keyed : keyed (sp_vertices st).
Proof using Hex. intros k x Hx. by apply Hex in Hx as (_ & ? & _). Qed.

Lemma entered : all_entered a st.
Proof using Hex Ht Ho Hp Hout Hok.
  intros k x Hx. pose proof Hex as (_ & _ & H2 & _). destruct (H2 k x Hx) as (Hk & Ek & Hd & _).
  rewrite Ht in Hk. split.
  - intros Hty. rewrite Hout. apply elem_of_app. left. apply elem_of_cons in Hk as [->|Hk].
    + exfalso. apply Hty. change OSPF_VERTEX_ROUTER with OSPF_ROUTER_LSA. rewrite <- (ao_router _ _ Hok). unfold vx_type. f_equal.
      apply (area_key_inj a root Hok); [done|apply Hok|done].
    + apply list_elem_of_In, in_map_iff. exists k. split; [|by apply list_elem_of_In]. unfold tree_route. rewrite Hx.
      by rewrite (proj2 (Z.eqb_neq _ _) Hty).
  - intros Hty l Hl Hs Hpr. assert (Hb : exists b, (k, b) ∈ (al_key root, false) :: js).
    { apply elem_of_cons in Hk as [->|Hk]; [exists false; by left|]. rewrite <- Hp in Hk.
      apply list_elem_of_In, in_map_iff in Hk as ([k' b] & <- & Hb). exists b. right. by apply list_elem_of_In. }
    destruct Hb as [b Hb]. destruct (stub_links_elem a x b _ l Hl Hs Hpr 0) as (j & Hj). exists b, j. rewrite Hout.
    apply elem_of_app. right. apply list_elem_of_In, in_flat_map. exists (k, b). split; [by apply list_elem_of_In|].
    unfold stubs_at. cbn [fst snd]. rewrite Hx, Hty. apply list_elem_of_In. unfold vx_key in Hj. by rewrite Ek in Hj.
Qed.

Lemma out_inv e : e ∈ sp_out st ->
  (exists k, k ∈ ks /\ e = tree_route (sp_vertices st) k)
  \/ exists k x l b i, sp_vertices st !! k = Some x /\ e = IntraAddStub l k b i /\ l ∈ al_links (vx_lsa x)
       /\ l_type l = LSA_LINK_TYPE_STUB.
Proof using Hex Hout.
  rewrite Hout. intros He. apply elem_of_app in He as [He|He].
  - left. apply list_elem_of_In, in_map_iff in He as (k & <- & Hk). exists k. split; [by apply list_elem_of_In|done].
  - right. apply list_elem_of_In, in_flat_map in He as ([k b] & _ & He). unfold stubs_at in He. cbn [fst snd] in He.
    destruct (sp_vertices st !! k) as [x|] eqn:Ex; [|done]. destruct (_ =? _); [|done].
    apply list_elem_of_In, stub_links_inv in He as (l & j & -> & ? & ?). rewrite (exact_keyed k x Ex).
    by exists k, x, l, b, j.
Qed.

Lemma effects_ok e : e ∈ sp_out st -> effect_ok (sp_vertices st) e.
Proof using Hex Ht Hout Hf.
  pose proof Hex as (_ & H1 & H2 & _). intros He. apply out_inv in He as [(k & Hk & ->)|(k & x & l & b & i & Hx & -> & Hl & Hs)].
  - destruct (H1 k) as [x Hx]; [rewrite Ht; by right|]. unfold tree_route. rewrite Hx. case_bool; [done|].
    exists x. split; [done|]. by apply Hf, (H2 k x Hx).
  - destruct (H2 k x Hx) as (_ & _ & Hd & Hr). destruct (proj2 (Hf _ Hd) l Hl Hs). exists x. split_and!; [done|lia..].
Qed.

Lemma tree_route_stub V k : is_stub (tree_route V k) = false.
Proof. unfold tree_route. repeat case_match; done. Qed.

Lemma tree_route_offer V k p c : offer a V (tree_route V k) = Some (p, c) -> c = dist_at V k.
Proof.
  unfold tree_route, dist_at. destruct (V !! k) as [x|] eqn:Ex; [|cbn; by rewrite Ex].
  case_bool; [done|]. cbn. rewrite Ex. cbn. case_bool; [done|]. destruct (ret_of _); [|done]. cbn. intros E. by injection E as _ <-.
Qed.

Lemma effects_after l1 e l2 : sp_out st = l1 ++ e :: l2 -> after_nearer a (sp_vertices st) l1 e.
Proof using Hout Ht Ho Hex Hp.
  intros E Hs. assert (Hsplit : exists ks1 k ks2, ks = ks1 ++ k :: ks2 /\ l1 = map (tree_route (sp_vertices st)) ks1
    /\ e = tree_route (sp_vertices st) k).
  { assert (Hstub : forall x, x ∈ flat_map (stubs_at a (sp_vertices st)) ((al_key root, false) :: js) -> is_stub x = true).
    { intros x Hx. apply list_elem_of_In, in_flat_map in Hx as ([k b] & _ & Hx). unfold stubs_at in Hx.
      repeat case_match; try done. by apply list_elem_of_In, stub_links_inv in Hx as (? & ? & -> & _). }
    rewrite Hout in E. revert E Hstub. generalize (flat_map (stubs_at a (sp_vertices st)) ((al_key root, false) :: js)).
    intros ss E Hstub. clear - E Hs Hstub. revert l1 E. induction ks as [|k ks' IH]; intros l1 E; cbn in E.
    - exfalso. assert (He : e ∈ ss) by (rewrite E; set_solver). specialize (Hstub e He). congruence.
    - destruct l1 as [|x l1]; cbn in E; injection E as E1 E2.
      + by exists [], k, ks'.
      + destruct (IH _ E2) as (k1 & k' & k2 & -> & -> & ->). exists (k :: k1), k', k2. cbn. by rewrite <- E1. }
  destruct Hsplit as (k1 & k & k2 & Ek & -> & ->). intros e' He'. apply list_elem_of_In, in_map_iff in He' as (j & <- & Hj).
  split; [apply tree_route_stub|]. intros p c c' H1 H2. apply tree_route_offer in H1, H2. subst.
  rewrite Ht in Ho. apply StronglySorted_inv in Ho as [Hs' _]. clear - Hs' Hj.
  induction k1 as [|i k1 IH]; [done|]. cbn in Hs'. apply StronglySorted_inv in Hs' as [Hs' Hf']. destruct Hj as [->|Hj]; [|auto].
  rewrite Forall_forall in Hf'. apply Hf'. apply in_or_app. right. by left.
Qed.
End Routes.

(** C5: For areas of at most 32768 LSAs, each with its own key, where links between routers
    and networks cost between 1 and 65535 and masks and metrics are in their range,
    for a calculation that is neither reversed nor a dry run, and for every
    placement of the vertices in memory: all transit networks and stub networks that
    are reached are offered to the routing table, and when the calculation is over,
    the table has an entry exactly for the prefixes with an offer; its cost is the
    least one (the length of the shortest path to the network, or to the router plus
    the metric of the link); every path of the entry is one of an offer at that
    cost, the next hops of all routers that offer a stub network at that cost are
    there, and no path is there twice. *)
Theorem ospf_intra_routes_cheapest a root alloc :
  area_ok a root -> fields_ok a -> ar_dry_run a = false ->
  exists st rt, ospf_spf_calculate a alloc (Some root) = Ret (Some st) /\ all_entered a st
    /\ spf_enter_all a (al_key root) (sp_vertices st) (sp_out st) ∅ = Ret rt
    /\ best_table a (al_key root) (sp_vertices st) (sp_out st) rt.
Proof.
  intros Hok Hf Hd. destruct (spf_calculate_spec a root alloc Hok) as (st & ks & js & E & Hex & Ht & Ho & Hp & Hout).
  pose proof (exact_keyed a root st Hex) as Hk.
  destruct (enter_all_best a (al_key root) (sp_vertices st) (sp_out st) Hd Hk) with (done := @nil spf_effect) (rt := (∅ : route_table))
    as (rt & Er & Hb).
  - intros v Hv. destruct Hex as (_ & _ & _ & (x & Hx & _ & Hpx) & _). rewrite Hv in Hx. by injection Hx as ->.
  - intros p. rewrite lookup_empty. intros e c He. by apply elem_of_nil in He.
  - by apply (effects_ok a root st ks js).
  - intros l1 e l2 El. by apply (effects_after a root st ks js Hex Ht Ho Hp Hout l1 e l2).
  - exists st, rt. split; [done|]. split; [by apply (entered a root st ks js)|]. done.
Qed.

(** ** Examples *)

Module RouteExample.
Import SpfExample.

Definition net29 (x : Z) : prefix := mkPrefix AF_INET 29 [0; 0; 0; x].

Lemma fields_fit : fields_ok area.
Proof.
  intros x Hx. cbn in Hx. repeat (apply elem_of_cons in Hx as [->|Hx]); [..|by apply elem_of_nil in Hx];
    (split; [cbn; lia|]); intros l Hl Ht; cbn in Hl;
    repeat (apply elem_of_cons in Hl as [->|Hl]; [cbn in Ht |- *; first [lia|done]|]); by apply elem_of_nil in Hl.
Qed.

Definition route_summary (rt : route_table) : list (Z * list (Z * Z)) :=
  map (fun x => match rt !! net29 x with Some r => (or_cost r, map path_key (or_paths r)) | None => (-1, []) end) [96; 200; 208].

Definition routes_of (a : ospf_area) (root : area_lsa) : option (list (Z * list (Z * Z)) * list (Z * list (Z * Z))) :=
  match ospf_spf_calculate a Z.of_nat (Some root) with
  | Ret (Some st) =>
      match spf_enter_all a (al_key root) (sp_vertices st) (sp_out st) ∅ with
      | Ret rt => Some (route_summary rt, route_summary (ospf_prune_unreachable_networks rt))
      | Abort => None
      end
  | _ => None
  end.

Lemma area_routes :
  routes_of area router1 = Some ([(5, [(0, 8)]); (7, []); (12, [(103, 8)])], [(5, [(0, 8)]); (-1, []); (12, [(103, 8)])]).
Proof. vm_compute. reflexivity. Qed.

(** The stub network of router 3 is reached through its address on the shared network. *)
Lemma ospf_intra_routes_cheapest_witness :
  exists st rt, ospf_spf_calculate area Z.of_nat (Some router1) = Ret (Some st)
    /\ best_table area (al_key router1) (sp_vertices st) (sp_out st) rt
    /\ route_summary rt = [(5, [(0, 8)]); (7, []); (12, [(103, 8)])].
Proof.
  destruct (ospf_intra_routes_cheapest area router1 Z.of_nat area_fits fields_fit eq_refl) as (st & rt & E & _ & R & B).
  exists st, rt. split; [exact E|]. split; [exact B|].
  pose proof area_routes as S. unfold routes_of in S. rewrite E, R in S.
  exact (f_equal fst (Some_inj _ _ S)).
Defined.

(** A subnet in two parts: the root has it as a stub network, and reaches the designated
    router of the other part over router 2.  The cheaper stub network takes over the
    entry of the transit network and leaves it without a path, so that it is pruned. *)
Definition split_router1 : area_lsa := mkAlsa (head 1 1 1) 0 [mkRlink 2 11 1 10; mkRlink 96 4294967288 3 1] [] 0.
Definition split_router2 : area_lsa := mkAlsa (head 1 2 2) 0 [mkRlink 1 12 1 10; mkRlink 100 102 2 5] [] 0.
Definition split_router3 : area_lsa := mkAlsa (head 1 3 3) 0 [mkRlink 100 103 2 5] [] 0.
Definition split_network : area_lsa := mkAlsa (head 2 100 3) 0 [] [2; 3] 4294967288.
Definition split_area : ospf_area :=
  mkArea [split_router1; split_router2; split_router3; split_network]
    [mkSpfOi 1 11 24 0 1 [(2, 12)] 7 false; mkSpfOi 2 97 29 1 2 [] 8 false] [] false None false true false 0 0 [].

Lemma own_stub_loses_paths :
  routes_of split_area split_router1 = Some ([(1, []); (-1, []); (-1, [])], [(-1, []); (-1, []); (-1, [])]).
Proof. vm_compute. reflexivity. Qed.
End RouteExample.
