(* ===== verification/BgpAttrData.v ===== *)
(** * Path attributes of BGP

    The data that bgp_attr.c works on: the attributes of an update, the peer it comes
    from and the state of the parser.  Objects that bgpd shares through hash tables
    (AS paths, communities, cluster lists) are values here. *)

From stdpp Require Import base list.
From S2P Require Import Prelude Stream AsPath.

(** ** Constants (bgpd.h, bgp_attr.h) *)

Definition BGP_ATTR_ORIGIN : Z := 1.
Definition BGP_ATTR_AS_PATH : Z := 2.
Definition BGP_ATTR_NEXT_HOP : Z := 3.
Definition BGP_ATTR_MULTI_EXIT_DISC : Z := 4.
Definition BGP_ATTR_LOCAL_PREF : Z := 5.
Definition BGP_ATTR_ATOMIC_AGGREGATE : Z := 6.
Definition BGP_ATTR_AGGREGATOR : Z := 7.
Definition BGP_ATTR_COMMUNITIES : Z := 8.
Definition BGP_ATTR_ORIGINATOR_ID : Z := 9.
Definition BGP_ATTR_CLUSTER_LIST : Z := 10.
Definition BGP_ATTR_MP_REACH_NLRI : Z := 14.
Definition BGP_ATTR_MP_UNREACH_NLRI : Z := 15.
Definition BGP_ATTR_EXT_COMMUNITIES : Z := 16.
Definition BGP_ATTR_AS4_PATH : Z := 17.
Definition BGP_ATTR_AS4_AGGREGATOR : Z := 18.
Definition BGP_ATTR_PMSI_TUNNEL : Z := 22.
Definition BGP_ATTR_ENCAP : Z := 23.
Definition BGP_ATTR_IPV6_EXT_COMMUNITIES : Z := 25.
Definition BGP_ATTR_AIGP : Z := 26.
Definition BGP_ATTR_LINK_STATE : Z := 29.
Definition BGP_ATTR_LARGE_COMMUNITIES : Z := 32.
Definition BGP_ATTR_OTC : Z := 35.
Definition BGP_ATTR_NHC : Z := 39.
Definition BGP_ATTR_PREFIX_SID : Z := 40.

Definition BGP_ATTR_FLAG_OPTIONAL : Z := 128.
Definition BGP_ATTR_FLAG_TRANS : Z := 64.
Definition BGP_ATTR_FLAG_PARTIAL : Z := 32.
Definition BGP_ATTR_FLAG_EXTLEN : Z := 16.

Definition BGP_ATTR_MIN_LEN : Z := 3.
Definition BGP_INVALID_LABEL_INDEX : Z := 4294967295.
Definition ATTR_FLAG_BIT (x : Z) : Z := Z.shiftl 1 (x - 1).

Definition BGP_ORIGIN_IGP : Z := 0.
Definition BGP_ORIGIN_EGP : Z := 1.
Definition BGP_ORIGIN_INCOMPLETE : Z := 2.

Definition BGP_NOTIFY_UPDATE_ERR : Z := 3.
Definition BGP_NOTIFY_UPDATE_MAL_ATTR : Z := 1.
Definition BGP_NOTIFY_UPDATE_UNREC_ATTR : Z := 2.
Definition BGP_NOTIFY_UPDATE_MISS_ATTR : Z := 3.
Definition BGP_NOTIFY_UPDATE_ATTR_FLAG_ERR : Z := 4.
Definition BGP_NOTIFY_UPDATE_ATTR_LENG_ERR : Z := 5.
Definition BGP_NOTIFY_UPDATE_INVAL_ORIGIN : Z := 6.
Definition BGP_NOTIFY_UPDATE_INVAL_NEXT_HOP : Z := 8.
Definition BGP_NOTIFY_UPDATE_OPT_ATTR_ERR : Z := 9.
Definition BGP_NOTIFY_UPDATE_INVAL_NETWORK : Z := 10.
Definition BGP_NOTIFY_UPDATE_MAL_AS_PATH : Z := 11.

Definition SAFI_LABELED_UNICAST : Z := 6.
Definition SAFI_FLOWSPEC : Z := 7.
Definition AFI_MAX : Z := 5.
Definition SAFI_MAX : Z := 11.

(** [enum bgp_attr_parse_ret] *)
Inductive parse_ret :=
| BGP_ATTR_PARSE_PROCEED
| BGP_ATTR_PARSE_ERROR
| BGP_ATTR_PARSE_WITHDRAW
| BGP_ATTR_PARSE_WITHDRAW_IGNORE
| BGP_ATTR_PARSE_ERROR_NOTIFYPLS
| BGP_ATTR_PARSE_MISSING_MANDATORY.
#[global] Instance parse_ret_eq : EqDecision parse_ret.
Proof. solve_decision. Defined.

Inductive peer_sort := BGP_PEER_UNSPECIFIED | BGP_PEER_IBGP | BGP_PEER_EBGP | BGP_PEER_INTERNAL | BGP_PEER_CONFED.
#[global] Instance peer_sort_eq : EqDecision peer_sort.
Proof. solve_decision. Defined.

(** ** Attributes *)

Record srv6_l3service := mkSrv6 {
  sv_sid : list Z;
  sv_sid_flags : Z;
  sv_endpoint_behavior : Z;
  sv_structure : list Z
}.

(** [nc_nh] is the next hop, [nc_tlvs] the characteristics. *)
Record bgp_nhc := mkNhc {
  nc_afi : Z;
  nc_safi : Z;
  nc_nh : list Z;
  nc_tlvs : list (Z * list Z)
}.

(** Addresses are their bytes in network order. *)
Record attr := mkAttr {
  a_flag : Z;
  a_origin : Z;
  a_aspath : option aspath;
  a_nexthop : list Z;
  a_med : Z;
  a_local_pref : Z;
  a_aggregator_as : Z;
  a_aggregator_addr : list Z;
  a_community : option (list Z);
  a_originator_id : list Z;
  a_cluster : option (list Z);
  a_mp_nexthop_len : Z;
  a_mp_nexthop_global : list Z;
  a_mp_nexthop_local : list Z;
  a_mp_nexthop_global_in : list Z;
  a_nh_ifindex : Z;
  a_nh_lla_ifindex : Z;
  a_nh_operstate : bool;
  a_ecommunity : option (list (list Z));
  a_ipv6_ecommunity : option (list (list Z));
  a_lcommunity : option (list (list Z));
  a_encap_tunneltype : Z;
  a_encap_subtlvs : list (Z * list Z);
  a_label_index : Z;
  a_srv6_l3service : option srv6_l3service;
  a_srv6_vpn : option (Z * list Z);
  a_label : list Z;
  a_pmsi_tnl_type : Z;
  a_aigp_metric : Z;
  a_nhc : option bgp_nhc;
  a_link_state : option (list Z);
  a_otc : Z;
  a_transit : option (list Z)
}.

Definition set_a_flag (v : Z) (x : attr) : attr :=
  mkAttr v (a_origin x) (a_aspath x) (a_nexthop x) (a_med x) (a_local_pref x)
    (a_aggregator_as x) (a_aggregator_addr x) (a_community x) (a_originator_id x)
    (a_cluster x) (a_mp_nexthop_len x) (a_mp_nexthop_global x) (a_mp_nexthop_local x)
    (a_mp_nexthop_global_in x) (a_nh_ifindex x) (a_nh_lla_ifindex x) (a_nh_operstate x)
    (a_ecommunity x) (a_ipv6_ecommunity x) (a_lcommunity x) (a_encap_tunneltype x)
    (a_encap_subtlvs x) (a_label_index x) (a_srv6_l3service x) (a_srv6_vpn x) (a_label x)
    (a_pmsi_tnl_type x) (a_aigp_metric x) (a_nhc x) (a_link_state x) (a_otc x)
    (a_transit x).
Definition set_a_origin (v : Z) (x : attr) : attr :=
  mkAttr (a_flag x) v (a_aspath x) (a_nexthop x) (a_med x) (a_local_pref x) (a_aggregator_as x)
    (a_aggregator_addr x) (a_community x) (a_originator_id x) (a_cluster x)
    (a_mp_nexthop_len x) (a_mp_nexthop_global x) (a_mp_nexthop_local x)
    (a_mp_nexthop_global_in x) (a_nh_ifindex x) (a_nh_lla_ifindex x) (a_nh_operstate x)
    (a_ecommunity x) (a_ipv6_ecommunity x) (a_lcommunity x) (a_encap_tunneltype x)
    (a_encap_subtlvs x) (a_label_index x) (a_srv6_l3service x) (a_srv6_vpn x) (a_label x)
    (a_pmsi_tnl_type x) (a_aigp_metric x) (a_nhc x) (a_link_state x) (a_otc x)
    (a_transit x).
Definition set_a_aspath (v : option aspath) (x : attr) : attr :=
  mkAttr (a_flag x) (a_origin x) v (a_nexthop x) (a_med x) (a_local_pref x) (a_aggregator_as x)
    (a_aggregator_addr x) (a_community x) (a_originator_id x) (a_cluster x)
    (a_mp_nexthop_len x) (a_mp_nexthop_global x) (a_mp_nexthop_local x)
    (a_mp_nexthop_global_in x) (a_nh_ifindex x) (a_nh_lla_ifindex x) (a_nh_operstate x)
    (a_ecommunity x) (a_ipv6_ecommunity x) (a_lcommunity x) (a_encap_tunneltype x)
    (a_encap_subtlvs x) (a_label_index x) (a_srv6_l3service x) (a_srv6_vpn x) (a_label x)
    (a_pmsi_tnl_type x) (a_aigp_metric x) (a_nhc x) (a_link_state x) (a_otc x)
    (a_transit x).
Definition set_a_nexthop (v : list Z) (x : attr) : attr :=
  mkAttr (a_flag x) (a_origin x) (a_aspath x) v (a_med x) (a_local_pref x) (a_aggregator_as x)
    (a_aggregator_addr x) (a_community x) (a_originator_id x) (a_cluster x)
    (a_mp_nexthop_len x) (a_mp_nexthop_global x) (a_mp_nexthop_local x)
    (a_mp_nexthop_global_in x) (a_nh_ifindex x) (a_nh_lla_ifindex x) (a_nh_operstate x)
    (a_ecommunity x) (a_ipv6_ecommunity x) (a_lcommunity x) (a_encap_tunneltype x)
    (a_encap_subtlvs x) (a_label_index x) (a_srv6_l3service x) (a_srv6_vpn x) (a_label x)
    (a_pmsi_tnl_type x) (a_aigp_metric x) (a_nhc x) (a_link_state x) (a_otc x)
    (a_transit x).
Definition set_a_med (v : Z) (x : attr) : attr :=
  mkAttr (a_flag x) (a_origin x) (a_aspath x) (a_nexthop x) v (a_local_pref x)
    (a_aggregator_as x) (a_aggregator_addr x) (a_community x) (a_originator_id x)
    (a_cluster x) (a_mp_nexthop_len x) (a_mp_nexthop_global x) (a_mp_nexthop_local x)
    (a_mp_nexthop_global_in x) (a_nh_ifindex x) (a_nh_lla_ifindex x) (a_nh_operstate x)
    (a_ecommunity x) (a_ipv6_ecommunity x) (a_lcommunity x) (a_encap_tunneltype x)
    (a_encap_subtlvs x) (a_label_index x) (a_srv6_l3service x) (a_srv6_vpn x) (a_label x)
    (a_pmsi_tnl_type x) (a_aigp_metric x) (a_nhc x) (a_link_state x) (a_otc x)
    (a_transit x).
Definition set_a_local_pref (v : Z) (x : attr) : attr :=
  mkAttr (a_flag x) (a_origin x) (a_aspath x) (a_nexthop x) (a_med x) v (a_aggregator_as x)
    (a_aggregator_addr x) (a_community x) (a_originator_id x) (a_cluster x)
    (a_mp_nexthop_len x) (a_mp_nexthop_global x) (a_mp_nexthop_local x)
    (a_mp_nexthop_global_in x) (a_nh_ifindex x) (a_nh_lla_ifindex x) (a_nh_operstate x)
    (a_ecommunity x) (a_ipv6_ecommunity x) (a_lcommunity x) (a_encap_tunneltype x)
    (a_encap_subtlvs x) (a_label_index x) (a_srv6_l3service x) (a_srv6_vpn x) (a_label x)
    (a_pmsi_tnl_type x) (a_aigp_metric x) (a_nhc x) (a_link_state x) (a_otc x)
    (a_transit x).
Definition set_a_aggregator_as (v : Z) (x : attr) : attr :=
  mkAttr (a_flag x) (a_origin x) (a_aspath x) (a_nexthop x) (a_med x) (a_local_pref x) v
    (a_aggregator_addr x) (a_community x) (a_originator_id x) (a_cluster x)
    (a_mp_nexthop_len x) (a_mp_nexthop_global x) (a_mp_nexthop_local x)
    (a_mp_nexthop_global_in x) (a_nh_ifindex x) (a_nh_lla_ifindex x) (a_nh_operstate x)
    (a_ecommunity x) (a_ipv6_ecommunity x) (a_lcommunity x) (a_encap_tunneltype x)
    (a_encap_subtlvs x) (a_label_index x) (a_srv6_l3service x) (a_srv6_vpn x) (a_label x)
    (a_pmsi_tnl_type x) (a_aigp_metric x) (a_nhc x) (a_link_state x) (a_otc x)
    (a_transit x).
Definition set_a_aggregator_addr (v : list Z) (x : attr) : attr :=
  mkAttr (a_flag x) (a_origin x) (a_aspath x) (a_nexthop x) (a_med x) (a_local_pref x)
    (a_aggregator_as x) v (a_community x) (a_originator_id x) (a_cluster x)
    (a_mp_nexthop_len x) (a_mp_nexthop_global x) (a_mp_nexthop_local x)
    (a_mp_nexthop_global_in x) (a_nh_ifindex x) (a_nh_lla_ifindex x) (a_nh_operstate x)
    (a_ecommunity x) (a_ipv6_ecommunity x) (a_lcommunity x) (a_encap_tunneltype x)
    (a_encap_subtlvs x) (a_label_index x) (a_srv6_l3service x) (a_srv6_vpn x) (a_label x)
    (a_pmsi_tnl_type x) (a_aigp_metric x) (a_nhc x) (a_link_state x) (a_otc x)
    (a_transit x).
Definition set_a_community (v : option (list Z)) (x : attr) : attr :=
  mkAttr (a_flag x) (a_origin x) (a_aspath x) (a_nexthop x) (a_med x) (a_local_pref x)
    (a_aggregator_as x) (a_aggregator_addr x) v (a_originator_id x) (a_cluster x)
    (a_mp_nexthop_len x) (a_mp_nexthop_global x) (a_mp_nexthop_local x)
    (a_mp_nexthop_global_in x) (a_nh_ifindex x) (a_nh_lla_ifindex x) (a_nh_operstate x)
    (a_ecommunity x) (a_ipv6_ecommunity x) (a_lcommunity x) (a_encap_tunneltype x)
    (a_encap_subtlvs x) (a_label_index x) (a_srv6_l3service x) (a_srv6_vpn x) (a_label x)
    (a_pmsi_tnl_type x) (a_aigp_metric x) (a_nhc x) (a_link_state x) (a_otc x)
    (a_transit x).
Definition set_a_originator_id (v : list Z) (x : attr) : attr :=
  mkAttr (a_flag x) (a_origin x) (a_aspath x) (a_nexthop x) (a_med x) (a_local_pref x)
    (a_aggregator_as x) (a_aggregator_addr x) (a_community x) v (a_cluster x)
    (a_mp_nexthop_len x) (a_mp_nexthop_global x) (a_mp_nexthop_local x)
    (a_mp_nexthop_global_in x) (a_nh_ifindex x) (a_nh_lla_ifindex x) (a_nh_operstate x)
    (a_ecommunity x) (a_ipv6_ecommunity x) (a_lcommunity x) (a_encap_tunneltype x)
    (a_encap_subtlvs x) (a_label_index x) (a_srv6_l3service x) (a_srv6_vpn x) (a_label x)
    (a_pmsi_tnl_type x) (a_aigp_metric x) (a_nhc x) (a_link_state x) (a_otc x)
    (a_transit x).
Definition set_a_cluster (v : option (list Z)) (x : attr) : attr :=
  mkAttr (a_flag x) (a_origin x) (a_aspath x) (a_nexthop x) (a_med x) (a_local_pref x)
    (a_aggregator_as x) (a_aggregator_addr x) (a_community x) (a_originator_id x) v
    (a_mp_nexthop_len x) (a_mp_nexthop_global x) (a_mp_nexthop_local x)
    (a_mp_nexthop_global_in x) (a_nh_ifindex x) (a_nh_lla_ifindex x) (a_nh_operstate x)
    (a_ecommunity x) (a_ipv6_ecommunity x) (a_lcommunity x) (a_encap_tunneltype x)
    (a_encap_subtlvs x) (a_label_index x) (a_srv6_l3service x) (a_srv6_vpn x) (a_label x)
    (a_pmsi_tnl_type x) (a_aigp_metric x) (a_nhc x) (a_link_state x) (a_otc x)
    (a_transit x).
Definition set_a_mp_nexthop_len (v : Z) (x : attr) : attr :=
  mkAttr (a_flag x) (a_origin x) (a_aspath x) (a_nexthop x) (a_med x) (a_local_pref x)
    (a_aggregator_as x) (a_aggregator_addr x) (a_community x) (a_originator_id x)
    (a_cluster x) v (a_mp_nexthop_global x) (a_mp_nexthop_local x)
    (a_mp_nexthop_global_in x) (a_nh_ifindex x) (a_nh_lla_ifindex x) (a_nh_operstate x)
    (a_ecommunity x) (a_ipv6_ecommunity x) (a_lcommunity x) (a_encap_tunneltype x)
    (a_encap_subtlvs x) (a_label_index x) (a_srv6_l3service x) (a_srv6_vpn x) (a_label x)
    (a_pmsi_tnl_type x) (a_aigp_metric x) (a_nhc x) (a_link_state x) (a_otc x)
    (a_transit x).
Definition set_a_mp_nexthop_global (v : list Z) (x : attr) : attr :=
  mkAttr (a_flag x) (a_origin x) (a_aspath x) (a_nexthop x) (a_med x) (a_local_pref x)
    (a_aggregator_as x) (a_aggregator_addr x) (a_community x) (a_originator_id x)
    (a_cluster x) (a_mp_nexthop_len x) v (a_mp_nexthop_local x) (a_mp_nexthop_global_in x)
    (a_nh_ifindex x) (a_nh_lla_ifindex x) (a_nh_operstate x) (a_ecommunity x)
    (a_ipv6_ecommunity x) (a_lcommunity x) (a_encap_tunneltype x) (a_encap_subtlvs x)
    (a_label_index x) (a_srv6_l3service x) (a_srv6_vpn x) (a_label x) (a_pmsi_tnl_type x)
    (a_aigp_metric x) (a_nhc x) (a_link_state x) (a_otc x) (a_transit x).
Definition set_a_mp_nexthop_local (v : list Z) (x : attr) : attr :=
  mkAttr (a_flag x) (a_origin x) (a_aspath x) (a_nexthop x) (a_med x) (a_local_pref x)
    (a_aggregator_as x) (a_aggregator_addr x) (a_community x) (a_originator_id x)
    (a_cluster x) (a_mp_nexthop_len x) (a_mp_nexthop_global x) v (a_mp_nexthop_global_in x)
    (a_nh_ifindex x) (a_nh_lla_ifindex x) (a_nh_operstate x) (a_ecommunity x)
    (a_ipv6_ecommunity x) (a_lcommunity x) (a_encap_tunneltype x) (a_encap_subtlvs x)
    (a_label_index x) (a_srv6_l3service x) (a_srv6_vpn x) (a_label x) (a_pmsi_tnl_type x)
    (a_aigp_metric x) (a_nhc x) (a_link_state x) (a_otc x) (a_transit x).
Definition set_a_mp_nexthop_global_in (v : list Z) (x : attr) : attr :=
  mkAttr (a_flag x) (a_origin x) (a_aspath x) (a_nexthop x) (a_med x) (a_local_pref x)
    (a_aggregator_as x) (a_aggregator_addr x) (a_community x) (a_originator_id x)
    (a_cluster x) (a_mp_nexthop_len x) (a_mp_nexthop_global x) (a_mp_nexthop_local x) v
    (a_nh_ifindex x) (a_nh_lla_ifindex x) (a_nh_operstate x) (a_ecommunity x)
    (a_ipv6_ecommunity x) (a_lcommunity x) (a_encap_tunneltype x) (a_encap_subtlvs x)
    (a_label_index x) (a_srv6_l3service x) (a_srv6_vpn x) (a_label x) (a_pmsi_tnl_type x)
    (a_aigp_metric x) (a_nhc x) (a_link_state x) (a_otc x) (a_transit x).
Definition set_a_nh_ifindex (v : Z) (x : attr) : attr :=
  mkAttr (a_flag x) (a_origin x) (a_aspath x) (a_nexthop x) (a_med x) (a_local_pref x)
    (a_aggregator_as x) (a_aggregator_addr x) (a_community x) (a_originator_id x)
    (a_cluster x) (a_mp_nexthop_len x) (a_mp_nexthop_global x) (a_mp_nexthop_local x)
    (a_mp_nexthop_global_in x) v (a_nh_lla_ifindex x) (a_nh_operstate x) (a_ecommunity x)
    (a_ipv6_ecommunity x) (a_lcommunity x) (a_encap_tunneltype x) (a_encap_subtlvs x)
    (a_label_index x) (a_srv6_l3service x) (a_srv6_vpn x) (a_label x) (a_pmsi_tnl_type x)
    (a_aigp_metric x) (a_nhc x) (a_link_state x) (a_otc x) (a_transit x).
Definition set_a_nh_lla_ifindex (v : Z) (x : attr) : attr :=
  mkAttr (a_flag x) (a_origin x) (a_aspath x) (a_nexthop x) (a_med x) (a_local_pref x)
    (a_aggregator_as x) (a_aggregator_addr x) (a_community x) (a_originator_id x)
    (a_cluster x) (a_mp_nexthop_len x) (a_mp_nexthop_global x) (a_mp_nexthop_local x)
    (a_mp_nexthop_global_in x) (a_nh_ifindex x) v (a_nh_operstate x) (a_ecommunity x)
    (a_ipv6_ecommunity x) (a_lcommunity x) (a_encap_tunneltype x) (a_encap_subtlvs x)
    (a_label_index x) (a_srv6_l3service x) (a_srv6_vpn x) (a_label x) (a_pmsi_tnl_type x)
    (a_aigp_metric x) (a_nhc x) (a_link_state x) (a_otc x) (a_transit x).
Definition set_a_nh_operstate (v : bool) (x : attr) : attr :=
  mkAttr (a_flag x) (a_origin x) (a_aspath x) (a_nexthop x) (a_med x) (a_local_pref x)
    (a_aggregator_as x) (a_aggregator_addr x) (a_community x) (a_originator_id x)
    (a_cluster x) (a_mp_nexthop_len x) (a_mp_nexthop_global x) (a_mp_nexthop_local x)
    (a_mp_nexthop_global_in x) (a_nh_ifindex x) (a_nh_lla_ifindex x) v (a_ecommunity x)
    (a_ipv6_ecommunity x) (a_lcommunity x) (a_encap_tunneltype x) (a_encap_subtlvs x)
    (a_label_index x) (a_srv6_l3service x) (a_srv6_vpn x) (a_label x) (a_pmsi_tnl_type x)
    (a_aigp_metric x) (a_nhc x) (a_link_state x) (a_otc x) (a_transit x).
Definition set_a_ecommunity (v : option (list (list Z))) (x : attr) : attr :=
  mkAttr (a_flag x) (a_origin x) (a_aspath x) (a_nexthop x) (a_med x) (a_local_pref x)
    (a_aggregator_as x) (a_aggregator_addr x) (a_community x) (a_originator_id x)
    (a_cluster x) (a_mp_nexthop_len x) (a_mp_nexthop_global x) (a_mp_nexthop_local x)
    (a_mp_nexthop_global_in x) (a_nh_ifindex x) (a_nh_lla_ifindex x) (a_nh_operstate x) v
    (a_ipv6_ecommunity x) (a_lcommunity x) (a_encap_tunneltype x) (a_encap_subtlvs x)
    (a_label_index x) (a_srv6_l3service x) (a_srv6_vpn x) (a_label x) (a_pmsi_tnl_type x)
    (a_aigp_metric x) (a_nhc x) (a_link_state x) (a_otc x) (a_transit x).
Definition set_a_ipv6_ecommunity (v : option (list (list Z))) (x : attr) : attr :=
  mkAttr (a_flag x) (a_origin x) (a_aspath x) (a_nexthop x) (a_med x) (a_local_pref x)
    (a_aggregator_as x) (a_aggregator_addr x) (a_community x) (a_originator_id x)
    (a_cluster x) (a_mp_nexthop_len x) (a_mp_nexthop_global x) (a_mp_nexthop_local x)
    (a_mp_nexthop_global_in x) (a_nh_ifindex x) (a_nh_lla_ifindex x) (a_nh_operstate x)
    (a_ecommunity x) v (a_lcommunity x) (a_encap_tunneltype x) (a_encap_subtlvs x)
    (a_label_index x) (a_srv6_l3service x) (a_srv6_vpn x) (a_label x) (a_pmsi_tnl_type x)
    (a_aigp_metric x) (a_nhc x) (a_link_state x) (a_otc x) (a_transit x).
Definition set_a_lcommunity (v : option (list (list Z))) (x : attr) : attr :=
  mkAttr (a_flag x) (a_origin x) (a_aspath x) (a_nexthop x) (a_med x) (a_local_pref x)
    (a_aggregator_as x) (a_aggregator_addr x) (a_community x) (a_originator_id x)
    (a_cluster x) (a_mp_nexthop_len x) (a_mp_nexthop_global x) (a_mp_nexthop_local x)
    (a_mp_nexthop_global_in x) (a_nh_ifindex x) (a_nh_lla_ifindex x) (a_nh_operstate x)
    (a_ecommunity x) (a_ipv6_ecommunity x) v (a_encap_tunneltype x) (a_encap_subtlvs x)
    (a_label_index x) (a_srv6_l3service x) (a_srv6_vpn x) (a_label x) (a_pmsi_tnl_type x)
    (a_aigp_metric x) (a_nhc x) (a_link_state x) (a_otc x) (a_transit x).
Definition set_a_encap_tunneltype (v : Z) (x : attr) : attr :=
  mkAttr (a_flag x) (a_origin x) (a_aspath x) (a_nexthop x) (a_med x) (a_local_pref x)
    (a_aggregator_as x) (a_aggregator_addr x) (a_community x) (a_originator_id x)
    (a_cluster x) (a_mp_nexthop_len x) (a_mp_nexthop_global x) (a_mp_nexthop_local x)
    (a_mp_nexthop_global_in x) (a_nh_ifindex x) (a_nh_lla_ifindex x) (a_nh_operstate x)
    (a_ecommunity x) (a_ipv6_ecommunity x) (a_lcommunity x) v (a_encap_subtlvs x)
    (a_label_index x) (a_srv6_l3service x) (a_srv6_vpn x) (a_label x) (a_pmsi_tnl_type x)
    (a_aigp_metric x) (a_nhc x) (a_link_state x) (a_otc x) (a_transit x).
Definition set_a_encap_subtlvs (v : list (Z * list Z)) (x : attr) : attr :=
  mkAttr (a_flag x) (a_origin x) (a_aspath x) (a_nexthop x) (a_med x) (a_local_pref x)
    (a_aggregator_as x) (a_aggregator_addr x) (a_community x) (a_originator_id x)
    (a_cluster x) (a_mp_nexthop_len x) (a_mp_nexthop_global x) (a_mp_nexthop_local x)
    (a_mp_nexthop_global_in x) (a_nh_ifindex x) (a_nh_lla_ifindex x) (a_nh_operstate x)
    (a_ecommunity x) (a_ipv6_ecommunity x) (a_lcommunity x) (a_encap_tunneltype x) v
    (a_label_index x) (a_srv6_l3service x) (a_srv6_vpn x) (a_label x) (a_pmsi_tnl_type x)
    (a_aigp_metric x) (a_nhc x) (a_link_state x) (a_otc x) (a_transit x).
Definition set_a_label_index (v : Z) (x : attr) : attr :=
  mkAttr (a_flag x) (a_origin x) (a_aspath x) (a_nexthop x) (a_med x) (a_local_pref x)
    (a_aggregator_as x) (a_aggregator_addr x) (a_community x) (a_originator_id x)
    (a_cluster x) (a_mp_nexthop_len x) (a_mp_nexthop_global x) (a_mp_nexthop_local x)
    (a_mp_nexthop_global_in x) (a_nh_ifindex x) (a_nh_lla_ifindex x) (a_nh_operstate x)
    (a_ecommunity x) (a_ipv6_ecommunity x) (a_lcommunity x) (a_encap_tunneltype x)
    (a_encap_subtlvs x) v (a_srv6_l3service x) (a_srv6_vpn x) (a_label x)
    (a_pmsi_tnl_type x) (a_aigp_metric x) (a_nhc x) (a_link_state x) (a_otc x)
    (a_transit x).
Definition set_a_srv6_l3service (v : option srv6_l3service) (x : attr) : attr :=
  mkAttr (a_flag x) (a_origin x) (a_aspath x) (a_nexthop x) (a_med x) (a_local_pref x)
    (a_aggregator_as x) (a_aggregator_addr x) (a_community x) (a_originator_id x)
    (a_cluster x) (a_mp_nexthop_len x) (a_mp_nexthop_global x) (a_mp_nexthop_local x)
    (a_mp_nexthop_global_in x) (a_nh_ifindex x) (a_nh_lla_ifindex x) (a_nh_operstate x)
    (a_ecommunity x) (a_ipv6_ecommunity x) (a_lcommunity x) (a_encap_tunneltype x)
    (a_encap_subtlvs x) (a_label_index x) v (a_srv6_vpn x) (a_label x) (a_pmsi_tnl_type x)
    (a_aigp_metric x) (a_nhc x) (a_link_state x) (a_otc x) (a_transit x).
Definition set_a_srv6_vpn (v : option (Z * list Z)) (x : attr) : attr :=
  mkAttr (a_flag x) (a_origin x) (a_aspath x) (a_nexthop x) (a_med x) (a_local_pref x)
    (a_aggregator_as x) (a_aggregator_addr x) (a_community x) (a_originator_id x)
    (a_cluster x) (a_mp_nexthop_len x) (a_mp_nexthop_global x) (a_mp_nexthop_local x)
    (a_mp_nexthop_global_in x) (a_nh_ifindex x) (a_nh_lla_ifindex x) (a_nh_operstate x)
    (a_ecommunity x) (a_ipv6_ecommunity x) (a_lcommunity x) (a_encap_tunneltype x)
    (a_encap_subtlvs x) (a_label_index x) (a_srv6_l3service x) v (a_label x)
    (a_pmsi_tnl_type x) (a_aigp_metric x) (a_nhc x) (a_link_state x) (a_otc x)
    (a_transit x).
Definition set_a_label (v : list Z) (x : attr) : attr :=
  mkAttr (a_flag x) (a_origin x) (a_aspath x) (a_nexthop x) (a_med x) (a_local_pref x)
    (a_aggregator_as x) (a_aggregator_addr x) (a_community x) (a_originator_id x)
    (a_cluster x) (a_mp_nexthop_len x) (a_mp_nexthop_global x) (a_mp_nexthop_local x)
    (a_mp_nexthop_global_in x) (a_nh_ifindex x) (a_nh_lla_ifindex x) (a_nh_operstate x)
    (a_ecommunity x) (a_ipv6_ecommunity x) (a_lcommunity x) (a_encap_tunneltype x)
    (a_encap_subtlvs x) (a_label_index x) (a_srv6_l3service x) (a_srv6_vpn x) v
    (a_pmsi_tnl_type x) (a_aigp_metric x) (a_nhc x) (a_link_state x) (a_otc x)
    (a_transit x).
Definition set_a_pmsi_tnl_type (v : Z) (x : attr) : attr :=
  mkAttr (a_flag x) (a_origin x) (a_aspath x) (a_nexthop x) (a_med x) (a_local_pref x)
    (a_aggregator_as x) (a_aggregator_addr x) (a_community x) (a_originator_id x)
    (a_cluster x) (a_mp_nexthop_len x) (a_mp_nexthop_global x) (a_mp_nexthop_local x)
    (a_mp_nexthop_global_in x) (a_nh_ifindex x) (a_nh_lla_ifindex x) (a_nh_operstate x)
    (a_ecommunity x) (a_ipv6_ecommunity x) (a_lcommunity x) (a_encap_tunneltype x)
    (a_encap_subtlvs x) (a_label_index x) (a_srv6_l3service x) (a_srv6_vpn x) (a_label x) v
    (a_aigp_metric x) (a_nhc x) (a_link_state x) (a_otc x) (a_transit x).
Definition set_a_aigp_metric (v : Z) (x : attr) : attr :=
  mkAttr (a_flag x) (a_origin x) (a_aspath x) (a_nexthop x) (a_med x) (a_local_pref x)
    (a_aggregator_as x) (a_aggregator_addr x) (a_community x) (a_originator_id x)
    (a_cluster x) (a_mp_nexthop_len x) (a_mp_nexthop_global x) (a_mp_nexthop_local x)
    (a_mp_nexthop_global_in x) (a_nh_ifindex x) (a_nh_lla_ifindex x) (a_nh_operstate x)
    (a_ecommunity x) (a_ipv6_ecommunity x) (a_lcommunity x) (a_encap_tunneltype x)
    (a_encap_subtlvs x) (a_label_index x) (a_srv6_l3service x) (a_srv6_vpn x) (a_label x)
    (a_pmsi_tnl_type x) v (a_nhc x) (a_link_state x) (a_otc x) (a_transit x).
Definition set_a_nhc (v : option bgp_nhc) (x : attr) : attr :=
  mkAttr (a_flag x) (a_origin x) (a_aspath x) (a_nexthop x) (a_med x) (a_local_pref x)
    (a_aggregator_as x) (a_aggregator_addr x) (a_community x) (a_originator_id x)
    (a_cluster x) (a_mp_nexthop_len x) (a_mp_nexthop_global x) (a_mp_nexthop_local x)
    (a_mp_nexthop_global_in x) (a_nh_ifindex x) (a_nh_lla_ifindex x) (a_nh_operstate x)
    (a_ecommunity x) (a_ipv6_ecommunity x) (a_lcommunity x) (a_encap_tunneltype x)
    (a_encap_subtlvs x) (a_label_index x) (a_srv6_l3service x) (a_srv6_vpn x) (a_label x)
    (a_pmsi_tnl_type x) (a_aigp_metric x) v (a_link_state x) (a_otc x) (a_transit x).
Definition set_a_link_state (v : option (list Z)) (x : attr) : attr :=
  mkAttr (a_flag x) (a_origin x) (a_aspath x) (a_nexthop x) (a_med x) (a_local_pref x)
    (a_aggregator_as x) (a_aggregator_addr x) (a_community x) (a_originator_id x)
    (a_cluster x) (a_mp_nexthop_len x) (a_mp_nexthop_global x) (a_mp_nexthop_local x)
    (a_mp_nexthop_global_in x) (a_nh_ifindex x) (a_nh_lla_ifindex x) (a_nh_operstate x)
    (a_ecommunity x) (a_ipv6_ecommunity x) (a_lcommunity x) (a_encap_tunneltype x)
    (a_encap_subtlvs x) (a_label_index x) (a_srv6_l3service x) (a_srv6_vpn x) (a_label x)
    (a_pmsi_tnl_type x) (a_aigp_metric x) (a_nhc x) v (a_otc x) (a_transit x).
Definition set_a_otc (v : Z) (x : attr) : attr :=
  mkAttr (a_flag x) (a_origin x) (a_aspath x) (a_nexthop x) (a_med x) (a_local_pref x)
    (a_aggregator_as x) (a_aggregator_addr x) (a_community x) (a_originator_id x)
    (a_cluster x) (a_mp_nexthop_len x) (a_mp_nexthop_global x) (a_mp_nexthop_local x)
    (a_mp_nexthop_global_in x) (a_nh_ifindex x) (a_nh_lla_ifindex x) (a_nh_operstate x)
    (a_ecommunity x) (a_ipv6_ecommunity x) (a_lcommunity x) (a_encap_tunneltype x)
    (a_encap_subtlvs x) (a_label_index x) (a_srv6_l3service x) (a_srv6_vpn x) (a_label x)
    (a_pmsi_tnl_type x) (a_aigp_metric x) (a_nhc x) (a_link_state x) v (a_transit x).
Definition set_a_transit (v : option (list Z)) (x : attr) : attr :=
  mkAttr (a_flag x) (a_origin x) (a_aspath x) (a_nexthop x) (a_med x) (a_local_pref x)
    (a_aggregator_as x) (a_aggregator_addr x) (a_community x) (a_originator_id x)
    (a_cluster x) (a_mp_nexthop_len x) (a_mp_nexthop_global x) (a_mp_nexthop_local x)
    (a_mp_nexthop_global_in x) (a_nh_ifindex x) (a_nh_lla_ifindex x) (a_nh_operstate x)
    (a_ecommunity x) (a_ipv6_ecommunity x) (a_lcommunity x) (a_encap_tunneltype x)
    (a_encap_subtlvs x) (a_label_index x) (a_srv6_l3service x) (a_srv6_vpn x) (a_label x)
    (a_pmsi_tnl_type x) (a_aigp_metric x) (a_nhc x) (a_link_state x) (a_otc x) v.

(** ** The peer *)

(** [pe_sort] is the cached type of the session and [pe_sort_now] what [peer_sort]
    computes anew; [pe_ifp] is the interface of the session with its state, and
    [pe_discard] and [pe_withdraw] are the attributes that [neighbor
    path-attribute] names.  [pe_allow_reserved_ranges] is a setting of the daemon,
    [pe_enabled] the address families of the session. *)
Record peer := mkPeer {
  pe_sort : peer_sort;
  pe_sort_now : peer_sort;
  pe_oad : bool;
  pe_as : Z;
  pe_change_local_as : Z;
  pe_cap_as4_rcv : bool;
  pe_cap_as4_adv : bool;
  pe_cap_restart_rcv : bool;
  pe_enforce_first_as : bool;
  pe_local_as_no_prepend : bool;
  pe_aigp : bool;
  pe_discard : Z -> bool;
  pe_withdraw : Z -> bool;
  pe_ifp : option (Z * bool);
  pe_reject_as_sets : bool;
  pe_allow_martian : bool;
  pe_allow_reserved_ranges : bool;
  pe_max_packet_size : Z;
  pe_enabled : Z -> Z -> bool;
  pe_asnotation : asnotation_mode
}.

Record bgp_nlri := mkNlri { nl_afi : Z; nl_safi : Z; nl_nlri : option Z; nl_length : Z }.

(** Code, subcode and data of a NOTIFICATION. *)
Record notification := mkNotify { nt_code : Z; nt_subcode : Z; nt_data : list Z }.

(** ** The parser *)

(** [p_in] is the packet, [p_discards] counts the attributes that were dropped. *)
Record parser := mkParser {
  p_attr : attr;
  p_in : stream;
  p_notify : list notification;
  p_as4_path : option aspath;
  p_as4_aggregator : Z;
  p_as4_aggregator_addr : list Z;
  p_mp_update : bgp_nlri;
  p_mp_withdraw : bgp_nlri;
  p_discards : Z
}.

Definition set_p_attr (v : attr) (x : parser) : parser :=
  mkParser v (p_in x) (p_notify x) (p_as4_path x) (p_as4_aggregator x) (p_as4_aggregator_addr x)
    (p_mp_update x) (p_mp_withdraw x) (p_discards x).
Definition set_p_in (v : stream) (x : parser) : parser :=
  mkParser (p_attr x) v (p_notify x) (p_as4_path x) (p_as4_aggregator x) (p_as4_aggregator_addr x)
    (p_mp_update x) (p_mp_withdraw x) (p_discards x).
Definition set_p_notify (v : list notification) (x : parser) : parser :=
  mkParser (p_attr x) (p_in x) v (p_as4_path x) (p_as4_aggregator x) (p_as4_aggregator_addr x)
    (p_mp_update x) (p_mp_withdraw x) (p_discards x).
Definition set_p_as4_path (v : option aspath) (x : parser) : parser :=
  mkParser (p_attr x) (p_in x) (p_notify x) v (p_as4_aggregator x) (p_as4_aggregator_addr x)
    (p_mp_update x) (p_mp_withdraw x) (p_discards x).
Definition set_p_as4_aggregator (v : Z) (x : parser) : parser :=
  mkParser (p_attr x) (p_in x) (p_notify x) (p_as4_path x) v (p_as4_aggregator_addr x)
    (p_mp_update x) (p_mp_withdraw x) (p_discards x).
Definition set_p_as4_aggregator_addr (v : list Z) (x : parser) : parser :=
  mkParser (p_attr x) (p_in x) (p_notify x) (p_as4_path x) (p_as4_aggregator x) v (p_mp_update x)
    (p_mp_withdraw x) (p_discards x).
Definition set_p_mp_update (v : bgp_nlri) (x : parser) : parser :=
  mkParser (p_attr x) (p_in x) (p_notify x) (p_as4_path x) (p_as4_aggregator x)
    (p_as4_aggregator_addr x) v (p_mp_withdraw x) (p_discards x).
Definition set_p_mp_withdraw (v : bgp_nlri) (x : parser) : parser :=
  mkParser (p_attr x) (p_in x) (p_notify x) (p_as4_path x) (p_as4_aggregator x)
    (p_as4_aggregator_addr x) (p_mp_update x) v (p_discards x).
Definition set_p_discards (v : Z) (x : parser) : parser :=
  mkParser (p_attr x) (p_in x) (p_notify x) (p_as4_path x) (p_as4_aggregator x)
    (p_as4_aggregator_addr x) (p_mp_update x) (p_mp_withdraw x) v.

(** [struct bgp_attr_parser_args]; [g_startp] is a position in the packet. *)
Record parser_args := mkArgs {
  g_length : Z;
  g_total : Z;
  g_type : Z;
  g_flags : Z;
  g_startp : Z
}.

Definition upd_attr (f : attr -> attr) (p : parser) : parser := set_p_attr (f (p_attr p)) p.

Definition bgp_attr_exists (a : attr) (t : Z) : bool := Z.testbit (a_flag a) (t - 1).
Definition bgp_attr_set (t : Z) (a : attr) : attr := set_a_flag (Z.lor (a_flag a) (ATTR_FLAG_BIT t)) a.
Definition bgp_attr_unset (t : Z) (a : attr) : attr := set_a_flag (Z.ldiff (a_flag a) (ATTR_FLAG_BIT t)) a.

(** The setters that keep the flag in step. *)
Definition present {A} (t : Z) (o : option A) (a : attr) : attr :=
  match o with Some _ => bgp_attr_set t a | None => bgp_attr_unset t a end.
Definition present_list {A} (t : Z) (o : option (list A)) (a : attr) : attr :=
  match o with Some (_ :: _) => bgp_attr_set t a | _ => bgp_attr_unset t a end.

Definition bgp_attr_set_community (o : option (list Z)) (a : attr) : attr :=
  present BGP_ATTR_COMMUNITIES o (set_a_community o a).
Definition bgp_attr_set_lcommunity (o : option (list (list Z))) (a : attr) : attr :=
  present BGP_ATTR_LARGE_COMMUNITIES o (set_a_lcommunity o a).
Definition bgp_attr_set_ecommunity (o : option (list (list Z))) (a : attr) : attr :=
  present_list BGP_ATTR_EXT_COMMUNITIES o (set_a_ecommunity o a).
Definition bgp_attr_set_ipv6_ecommunity (o : option (list (list Z))) (a : attr) : attr :=
  present_list BGP_ATTR_IPV6_EXT_COMMUNITIES o (set_a_ipv6_ecommunity o a).
Definition bgp_attr_set_cluster (o : option (list Z)) (a : attr) : attr :=
  present BGP_ATTR_CLUSTER_LIST o (set_a_cluster o a).
Definition bgp_attr_set_nhc (o : option bgp_nhc) (a : attr) : attr :=
  present BGP_ATTR_NHC o (set_a_nhc o a).
Definition bgp_attr_set_med (m : Z) (a : attr) : attr := bgp_attr_set BGP_ATTR_MULTI_EXIT_DISC (set_a_med m a).
Definition bgp_attr_set_aigp_metric (m : Z) (a : attr) : attr := bgp_attr_set BGP_ATTR_AIGP (set_a_aigp_metric m a).

(** [bgp_notify_send_with_data] *)
Definition notify (subcode : Z) (data : list Z) (p : parser) : parser :=
  set_p_notify (p_notify p ++ [mkNotify BGP_NOTIFY_UPDATE_ERR subcode data]) p.

(** The attributes before parsing: all bytes 0 but two labels. *)
Definition zero4 : list Z := [0; 0; 0; 0].
Definition zero16 : list Z := replicate 16 0.
Definition attr_init : attr :=
  mkAttr 0 0 None zero4 0 0 0 zero4 None zero4 None 0 zero16 zero16 zero4 0 0 false None None None 0 []
    BGP_INVALID_LABEL_INDEX None None [] 0 0 None None 0 None.
