(* ===== verification/BgpAttr.v ===== *)
(** * Parsing the path attributes of BGP (bgpd/bgp_attr.c)

    One definition for each attribute, on the state of the parser.  A read outside of
    the packet is [Abort], like a failed assertion of the stream functions and the use
    of a null pointer.  Of the extended communities only the values are kept, not what
    EVPN extracts from them. *)

From stdpp Require Import base list.
From S2P Require Import Prelude Stream AsPath AsPathText AsPathOps AsPathWire BgpAttrData.

Definition has (flags bit : Z) : bool := negb (Z.land flags bit =? 0).

Definition handled : Type := outcome (parse_ret * parser).
Definition proceed (p : parser) : handled := Ret (BGP_ATTR_PARSE_PROCEED, p).

(** The bytes that are read through [stream_pnt]. *)
Definition peek (s : stream) (n : Z) : outcome (list Z) :=
  assert! (getp s + n <=? endp s) ;; Ret (read_bytes s (getp s) n).

Definition forward (n : Z) (p : parser) : outcome parser :=
  s ← stream_forward_getp (p_in p) n; Ret (set_p_in s p).

(** ** Errors *)

Definition inconsequential (t : Z) : bool :=
  (t =? BGP_ATTR_AS4_AGGREGATOR) || (t =? BGP_ATTR_AGGREGATOR) || (t =? BGP_ATTR_ATOMIC_AGGREGATE)
  || (t =? BGP_ATTR_PREFIX_SID) || (t =? BGP_ATTR_NHC).

Definition bgp_attr_malformed (g : parser_args) (subcode length : Z) (p : parser) : handled :=
  if (g_type g =? BGP_ATTR_MP_REACH_NLRI) || (g_type g =? BGP_ATTR_MP_UNREACH_NLRI)
  then Ret (BGP_ATTR_PARSE_ERROR, notify subcode (read_bytes (p_in p) (g_startp g) length) p)
  else
    s ← stream_set_getp (p_in p) (g_startp g + g_total g);
    let p := set_p_in s p in
    if has (g_flags g) BGP_ATTR_FLAG_TRANS && has (g_flags g) BGP_ATTR_FLAG_OPTIONAL && has (g_flags g) BGP_ATTR_FLAG_PARTIAL
    then Ret (BGP_ATTR_PARSE_WITHDRAW, p)
    else if inconsequential (g_type g) then proceed p
    else Ret (BGP_ATTR_PARSE_WITHDRAW, p).

(** [attr_flags_values]; 0 for the types without an entry. *)
Definition attr_flags_values (t : Z) : Z :=
  if (t =? BGP_ATTR_ORIGIN) || (t =? BGP_ATTR_AS_PATH) || (t =? BGP_ATTR_NEXT_HOP) || (t =? BGP_ATTR_LOCAL_PREF)
     || (t =? BGP_ATTR_ATOMIC_AGGREGATE) then BGP_ATTR_FLAG_TRANS
  else if (t =? BGP_ATTR_MULTI_EXIT_DISC) || (t =? BGP_ATTR_ORIGINATOR_ID) || (t =? BGP_ATTR_CLUSTER_LIST)
     || (t =? BGP_ATTR_MP_REACH_NLRI) || (t =? BGP_ATTR_MP_UNREACH_NLRI) || (t =? BGP_ATTR_AIGP) || (t =? BGP_ATTR_LINK_STATE)
  then BGP_ATTR_FLAG_OPTIONAL
  else if (t =? BGP_ATTR_AGGREGATOR) || (t =? BGP_ATTR_COMMUNITIES) || (t =? BGP_ATTR_EXT_COMMUNITIES) || (t =? BGP_ATTR_AS4_PATH)
     || (t =? BGP_ATTR_AS4_AGGREGATOR) || (t =? BGP_ATTR_PMSI_TUNNEL) || (t =? BGP_ATTR_LARGE_COMMUNITIES) || (t =? BGP_ATTR_OTC)
     || (t =? BGP_ATTR_PREFIX_SID) || (t =? BGP_ATTR_IPV6_EXT_COMMUNITIES) || (t =? BGP_ATTR_NHC)
  then Z.lor BGP_ATTR_FLAG_OPTIONAL BGP_ATTR_FLAG_TRANS
  else 0.

Definition bgp_attr_flag_invalid (pe : peer) (g : parser_args) : bool :=
  let flags := g_flags g in
  let t := g_type g in
  if BGP_ATTR_PREFIX_SID <? t then false
  else if attr_flags_values t =? 0 then false
  else if pe_discard pe t || pe_withdraw pe t then false
  else if negb (has flags BGP_ATTR_FLAG_OPTIONAL) && negb (has flags BGP_ATTR_FLAG_TRANS) then true
  else if has flags BGP_ATTR_FLAG_PARTIAL
          && (negb (has flags BGP_ATTR_FLAG_OPTIONAL) || negb (has flags BGP_ATTR_FLAG_TRANS)) then true
  else
    let mask := if has flags BGP_ATTR_FLAG_OPTIONAL && has flags BGP_ATTR_FLAG_TRANS
                then Z.lor BGP_ATTR_FLAG_EXTLEN BGP_ATTR_FLAG_PARTIAL else BGP_ATTR_FLAG_EXTLEN in
    negb (Z.ldiff flags mask =? attr_flags_values t).

(** The attributes that [neighbor path-attribute] drops. *)
Definition bgp_attr_ignore (pe : peer) (t : Z) (p : parser) : handled :=
  if pe_withdraw pe t then Ret (BGP_ATTR_PARSE_WITHDRAW_IGNORE, p)
  else proceed (set_p_discards (p_discards p + 1) p).

Definition ignored (pe : peer) (g : parser_args) : bool := pe_discard pe (g_type g) || pe_withdraw pe (g_type g).
Definition skip_ignored (pe : peer) (g : parser_args) (length : Z) (p : parser) : handled :=
  p ← forward length p; bgp_attr_ignore pe (g_type g) p.

(** ** Well-known attributes *)

Definition bgp_attr_origin (pe : peer) (g : parser_args) (p : parser) : handled :=
  if negb (g_length g =? 1) then bgp_attr_malformed g BGP_NOTIFY_UPDATE_ATTR_LENG_ERR (g_total g) p
  else
    '(c, s) ← stream_getc (p_in p);
    let p := set_p_in s (upd_attr (set_a_origin c) p) in
    if negb (c =? BGP_ORIGIN_IGP) && negb (c =? BGP_ORIGIN_EGP) && negb (c =? BGP_ORIGIN_INCOMPLETE)
    then bgp_attr_malformed g BGP_NOTIFY_UPDATE_INVAL_ORIGIN (g_total g) p
    else proceed (upd_attr (bgp_attr_set BGP_ATTR_ORIGIN) p).

(** [aspath_parse], without the sharing of equal paths. *)
Definition aspath_parse (s : stream) (length : Z) (use32bit : bool) (mode : asnotation_mode) : outcome (option aspath * stream) :=
  if negb (length mod 2 =? 0) then Ret (None, s)
  else
    '(segs, s) ← assegments_parse s length use32bit;
    match segs with
    | None => Ret (None, s)
    | Some l =>
        a ← aspath_str_update (mkAspath 0 l None 0 (aspath_count_hops_internal l) mode);
        Ret (Some a, s)
    end.

Definition as4_session (pe : peer) : bool := pe_cap_as4_rcv pe && pe_cap_as4_adv pe.

Definition has_as_sets (o : option aspath) : bool := match o with Some a => aspath_check_as_sets a | None => false end.

Definition bgp_attr_aspath (pe : peer) (g : parser_args) (p : parser) : handled :=
  '(o, s) ← aspath_parse (p_in p) (g_length g) (as4_session pe) (pe_asnotation pe);
  let p := set_p_in s (upd_attr (set_a_aspath o) p) in
  match o with
  | None => bgp_attr_malformed g BGP_NOTIFY_UPDATE_MAL_AS_PATH 0 p
  | Some a =>
      if pe_reject_as_sets pe && aspath_check_as_sets a then bgp_attr_malformed g BGP_NOTIFY_UPDATE_MAL_AS_PATH 0 p
      else proceed (upd_attr (bgp_attr_set BGP_ATTR_AS_PATH) p)
  end.

(** The test for sets looks at AS_PATH, which may not be there yet. *)
Definition bgp_attr_as4_path (pe : peer) (g : parser_args) (p : parser) : handled :=
  '(o, s) ← aspath_parse (p_in p) (g_length g) true (pe_asnotation pe);
  let p := set_p_in s (set_p_as4_path o p) in
  match o with
  | None => bgp_attr_malformed g BGP_NOTIFY_UPDATE_MAL_AS_PATH 0 p
  | Some _ =>
      if pe_reject_as_sets pe && has_as_sets (a_aspath (p_attr p))
      then bgp_attr_malformed g BGP_NOTIFY_UPDATE_MAL_AS_PATH 0 p
      else proceed (upd_attr (bgp_attr_set BGP_ATTR_AS4_PATH) p)
  end.

Definition bgp_attr_nexthop (pe : peer) (g : parser_args) (p : parser) : handled :=
  if negb (g_length g =? 4) then bgp_attr_malformed g BGP_NOTIFY_UPDATE_ATTR_LENG_ERR (g_total g) p
  else
    '(a, s) ← stream_get_ipv4 (p_in p);
    proceed (set_p_in s (upd_attr (fun x => bgp_attr_set BGP_ATTR_NEXT_HOP (set_a_nexthop a x)) p)).

Definition bgp_attr_med (pe : peer) (g : parser_args) (p : parser) : handled :=
  if negb (g_length g =? 4) then bgp_attr_malformed g BGP_NOTIFY_UPDATE_ATTR_LENG_ERR (g_total g) p
  else
    '(m, s) ← stream_getl (p_in p);
    proceed (set_p_in s (upd_attr (bgp_attr_set_med m) p)).

Definition bgp_attr_local_pref (pe : peer) (g : parser_args) (p : parser) : handled :=
  let malformed := bgp_attr_malformed g BGP_NOTIFY_UPDATE_ATTR_LENG_ERR (g_total g) in
  if (bool_decide (pe_sort pe = BGP_PEER_IBGP) || pe_oad pe) && negb (g_length g =? 4) then malformed p
  else if bool_decide (pe_sort pe = BGP_PEER_EBGP) && negb (pe_oad pe) then
    '(ok, s) ← stream_forward_getp2 (p_in p) (g_length g);
    if (ok : bool) then proceed (set_p_in s p) else malformed (set_p_in s p)
  else
    '(o, s) ← stream_getl2 (p_in p);
    let p := set_p_in s p in
    match o with
    | Some l => proceed (upd_attr (fun x => bgp_attr_set BGP_ATTR_LOCAL_PREF (set_a_local_pref l x)) p)
    | None => malformed p
    end.

Definition bgp_attr_atomic (pe : peer) (g : parser_args) (p : parser) : handled :=
  if negb (g_length g =? 0) then bgp_attr_malformed g BGP_NOTIFY_UPDATE_ATTR_LENG_ERR (g_total g) p
  else if ignored pe g then skip_ignored pe g (g_length g) p
  else proceed (upd_attr (bgp_attr_set BGP_ATTR_ATOMIC_AGGREGATE) p).

(** The length is that of a session with 4-byte AS numbers both ways, but a capability
    of the peer alone makes the AS number 4 bytes long. *)
Definition bgp_attr_aggregator (pe : peer) (g : parser_args) (p : parser) : handled :=
  if negb (g_length g =? (if as4_session pe then 8 else 6))
  then bgp_attr_malformed g BGP_NOTIFY_UPDATE_ATTR_LENG_ERR (g_total g) p
  else if ignored pe g then skip_ignored pe g (g_length g) p
  else
    '(asn, s) ← (if pe_cap_as4_rcv pe then stream_getl (p_in p) else stream_getw (p_in p));
    '(addr, s) ← stream_get_ipv4 s;
    let p := set_p_in s (upd_attr (fun x => set_a_aggregator_addr addr (set_a_aggregator_as asn x)) p) in
    proceed (if asn =? BGP_AS_ZERO then p else upd_attr (bgp_attr_set BGP_ATTR_AGGREGATOR) p).

Definition bgp_attr_as4_aggregator (pe : peer) (g : parser_args) (p : parser) : handled :=
  if negb (g_length g =? 8) then bgp_attr_malformed g BGP_NOTIFY_UPDATE_ATTR_LENG_ERR 0 p
  else if ignored pe g then skip_ignored pe g (g_length g) p
  else
    '(asn, s) ← stream_getl (p_in p);
    '(addr, s) ← stream_get_ipv4 s;
    let p := set_p_in s (set_p_as4_aggregator_addr addr (set_p_as4_aggregator asn p)) in
    proceed (if asn =? BGP_AS_ZERO then p else upd_attr (bgp_attr_set BGP_ATTR_AS4_AGGREGATOR) p).

(** ** Communities and route reflection *)

(** Cut a list of bytes into values of [n] bytes. *)
Fixpoint chop (fuel n : nat) (l : list Z) : list (list Z) :=
  match fuel with
  | O => []
  | S k => match l with [] => [] | _ => take n l :: chop k n (drop n l) end
  end.
Definition values (n : nat) (l : list Z) : list (list Z) := chop (length l) n l.

Fixpoint be_value_of (l : list Z) : Z :=
  match l with [] => 0 | b :: r => b * 256 ^ Z.of_nat (length r) + be_value_of r end.

(** Each value once, in ascending order. *)
Definition community_parse (l : list Z) : option (list Z) :=
  if negb (Z.of_nat (length l) mod 4 =? 0) then None else Some (sort_uniq (map be_value_of (values 4 l))).

Fixpoint add_val (v : list Z) (l : list (list Z)) : list (list Z) :=
  match l with
  | [] => [v]
  | x :: r => let c := memcmp x v (length v) in
              if c =? 0 then l else if 0 <? c then v :: l else x :: add_val v r
  end.

Definition ecommunity_parse_internal (size : nat) (l : list Z) : option (list (list Z)) :=
  if negb (Z.of_nat (length l) mod Z.of_nat size =? 0) then None
  else Some (fold_left (fun acc v => add_val v acc) (values size l) []).

Definition lcommunity_parse : list Z -> option (list (list Z)) := ecommunity_parse_internal 12.

Definition bgp_attr_community (pe : peer) (g : parser_args) (p : parser) : handled :=
  let malformed := bgp_attr_malformed g BGP_NOTIFY_UPDATE_OPT_ATTR_ERR (g_total g) in
  if g_length g =? 0 then malformed (upd_attr (bgp_attr_set_community None) p)
  else if ignored pe g then skip_ignored pe g (g_length g) p
  else
    l ← peek (p_in p) (g_length g);
    p ← forward (g_length g) (upd_attr (bgp_attr_set_community (community_parse l)) p);
    match a_community (p_attr p) with None => malformed p | Some _ => proceed p end.

Definition bgp_attr_large_community (pe : peer) (g : parser_args) (p : parser) : handled :=
  let malformed := bgp_attr_malformed g BGP_NOTIFY_UPDATE_OPT_ATTR_ERR (g_total g) in
  if g_length g =? 0 then malformed (upd_attr (bgp_attr_set_lcommunity None) p)
  else if ignored pe g then skip_ignored pe g (g_length g) p
  else
    l ← peek (p_in p) (g_length g);
    p ← forward (g_length g) (upd_attr (bgp_attr_set_lcommunity (lcommunity_parse l)) p);
    match a_lcommunity (p_attr p) with None => malformed p | Some _ => proceed p end.

Definition bgp_attr_ext_communities (pe : peer) (g : parser_args) (p : parser) : handled :=
  let malformed := bgp_attr_malformed g BGP_NOTIFY_UPDATE_OPT_ATTR_ERR (g_total g) in
  if g_length g =? 0 then malformed (upd_attr (bgp_attr_set_ecommunity None) p)
  else
    l ← peek (p_in p) (g_length g);
    p ← forward (g_length g) (upd_attr (bgp_attr_set_ecommunity (ecommunity_parse_internal 8 l)) p);
    match a_ecommunity (p_attr p) with None => malformed p | Some _ => proceed p end.

Definition bgp_attr_ipv6_ext_communities (pe : peer) (g : parser_args) (p : parser) : handled :=
  let malformed := bgp_attr_malformed g BGP_NOTIFY_UPDATE_OPT_ATTR_ERR (g_total g) in
  if g_length g =? 0 then malformed (upd_attr (bgp_attr_set_ipv6_ecommunity None) p)
  else if ignored pe g then skip_ignored pe g (g_length g) p
  else
    l ← peek (p_in p) (g_length g);
    p ← forward (g_length g) (upd_attr (bgp_attr_set_ipv6_ecommunity (ecommunity_parse_internal 20 l)) p);
    match a_ipv6_ecommunity (p_attr p) with None => malformed p | Some _ => proceed p end.

Definition bgp_attr_originator_id (pe : peer) (g : parser_args) (p : parser) : handled :=
  if bool_decide (pe_sort pe = BGP_PEER_EBGP) then p ← forward (g_length g) p; proceed p
  else if negb (g_length g =? 4) then bgp_attr_malformed g BGP_NOTIFY_UPDATE_ATTR_LENG_ERR (g_total g) p
  else if ignored pe g then skip_ignored pe g (g_length g) p
  else
    '(a, s) ← stream_get_ipv4 (p_in p);
    proceed (set_p_in s (upd_attr (fun x => bgp_attr_set BGP_ATTR_ORIGINATOR_ID (set_a_originator_id a x)) p)).

Definition bgp_attr_cluster_list (pe : peer) (g : parser_args) (p : parser) : handled :=
  if bool_decide (pe_sort pe = BGP_PEER_EBGP) then p ← forward (g_length g) p; proceed p
  else if (g_length g =? 0) || negb (g_length g mod 4 =? 0)
  then bgp_attr_malformed g BGP_NOTIFY_UPDATE_ATTR_LENG_ERR (g_total g) p
  else if ignored pe g then skip_ignored pe g (g_length g) p
  else
    l ← peek (p_in p) (g_length g);
    p ← forward (g_length g) (upd_attr (bgp_attr_set_cluster (Some l)) p);
    proceed p.

(** ** Multiprotocol reachability (RFC 4760) *)

Definition afi_iana2int (afi : Z) : Z :=
  if afi =? 1 then 1 else if afi =? 2 then 2 else if afi =? 25 then 3 else if afi =? 16388 then 4 else AFI_MAX.
Definition safi_iana2int (safi : Z) : Z :=
  if safi =? 1 then 1 else if safi =? 2 then 2 else if safi =? 128 then 3 else if safi =? 7 then 4
  else if safi =? 70 then 5 else if safi =? 4 then SAFI_LABELED_UNICAST else if safi =? 133 then SAFI_FLOWSPEC
  else if safi =? 71 then 8 else if safi =? 72 then 9 else if safi =? 80 then 10 else SAFI_MAX.
Definition bgp_map_afi_safi_iana2int (pkt_afi pkt_safi : Z) : option (Z * Z) :=
  let afi := afi_iana2int pkt_afi in
  let safi := safi_iana2int pkt_safi in
  if (afi =? AFI_MAX) || (safi =? SAFI_MAX) then None else Some (afi, safi).

(** [IN6_IS_ADDR_LINKLOCAL] *)
Definition is_linklocal (a : list Z) : bool := (byte_at a 0 =? 254) && (Z.land (byte_at a 1) 192 =? 128).

Definition skip_rd (s : stream) : outcome stream := '(_, s) ← stream_getl s; '(_, s) ← stream_getl s; Ret s.

(** A link-local next hop needs the interface of the session. *)
Definition nexthop_interface (pe : peer) (a : list Z) (x : attr) : option attr :=
  if is_linklocal a then
    match pe_ifp pe with
    | None => None
    | Some (i, up) => Some (set_a_nh_operstate up (set_a_nh_ifindex i x))
    end
  else Some x.

(** The next hop of MP_REACH_NLRI, of [n] bytes: [None] when it was read. *)
Definition mp_nexthop (pe : peer) (safi n : Z) (p : parser) : outcome (option parse_ret * parser) :=
  if n =? 0 then Ret (if safi =? SAFI_FLOWSPEC then None else Some BGP_ATTR_PARSE_ERROR_NOTIFYPLS, p)
  else if (n =? 12) || (n =? 4) then
    s ← (if n =? 12 then skip_rd (p_in p) else Ret (p_in p));
    '(a, s) ← stream_get s 4;
    let use x := if bool_decide (a_nexthop x = zero4) then set_a_nexthop a x else x in
    Ret (None, set_p_in s (upd_attr (fun x => use (set_a_mp_nexthop_global_in a x)) p))
  else if (n =? 16) || (n =? 24) then
    s ← (if n =? 24 then skip_rd (p_in p) else Ret (p_in p));
    '(a, s) ← stream_get s 16;
    let p := set_p_in s (upd_attr (set_a_mp_nexthop_global a) p) in
    match nexthop_interface pe a (p_attr p) with
    | None => Ret (Some BGP_ATTR_PARSE_WITHDRAW, p)
    | Some x => Ret (None, set_p_attr x p)
    end
  else if (n =? 32) || (n =? 48) then
    s ← (if n =? 48 then skip_rd (p_in p) else Ret (p_in p));
    '(a, s) ← stream_get s 16;
    let p := set_p_in s (upd_attr (set_a_mp_nexthop_global a) p) in
    match nexthop_interface pe a (p_attr p) with
    | None => Ret (Some BGP_ATTR_PARSE_WITHDRAW, p)
    | Some x =>
        s ← (if n =? 48 then skip_rd (p_in p) else Ret (p_in p));
        '(b, s) ← stream_get s 16;
        let x := set_a_mp_nexthop_local b x in
        let x := if negb (is_linklocal b) then set_a_mp_nexthop_len 16 x else x in
        let p := set_p_in s (set_p_attr x p) in
        match pe_ifp pe with
        | None => Ret (Some BGP_ATTR_PARSE_WITHDRAW, p)
        | Some (i, _) => Ret (None, upd_attr (set_a_nh_lla_ifindex i) p)
        end
    end
  else Ret (Some BGP_ATTR_PARSE_ERROR_NOTIFYPLS, p).

Definition bgp_mp_reach_parse (pe : peer) (g : parser_args) (p : parser) : handled :=
  let length := g_length g in
  let start := getp (p_in p) in
  let left p := length - (getp (p_in p) - start) in
  if (STREAM_READABLE (p_in p) <? length) || (length <? 5) then Ret (BGP_ATTR_PARSE_ERROR_NOTIFYPLS, p)
  else
    '(pkt_afi, s) ← stream_getw (p_in p);
    '(pkt_safi, s) ← stream_getc s;
    match bgp_map_afi_safi_iana2int pkt_afi pkt_safi with
    | None => Ret (BGP_ATTR_PARSE_ERROR, set_p_in s p)
    | Some (afi, safi) =>
        '(n, s) ← stream_getc s;
        let p := set_p_in s (upd_attr (set_a_mp_nexthop_len n) p) in
        if left p <? n then Ret (BGP_ATTR_PARSE_ERROR_NOTIFYPLS, p)
        else
          '(o, p) ← mp_nexthop pe safi n p;
          match o with
          | Some ret => Ret (ret, p)
          | None =>
              if left p =? 0 then Ret (BGP_ATTR_PARSE_ERROR_NOTIFYPLS, p)
              else
                '(_, s) ← stream_getc (p_in p);
                let p := set_p_in s p in
                let nlri_len := u16 (left p) in
                if STREAM_READABLE (p_in p) <? nlri_len then Ret (BGP_ATTR_PARSE_ERROR_NOTIFYPLS, p)
                else if nlri_len =? 0 then
                  bgp_attr_malformed g BGP_NOTIFY_UPDATE_MAL_ATTR 0
                    (set_p_mp_update (mkNlri afi safi (nl_nlri (p_mp_update p)) (nl_length (p_mp_update p))) p)
                else
                  p ← forward nlri_len (set_p_mp_update (mkNlri afi safi (Some (getp (p_in p))) nlri_len) p);
                  proceed (upd_attr (bgp_attr_set BGP_ATTR_MP_REACH_NLRI) p)
          end
    end.

Definition bgp_mp_unreach_parse (pe : peer) (g : parser_args) (p : parser) : handled :=
  let length := g_length g in
  if (STREAM_READABLE (p_in p) <? length) || (length <? 3) then Ret (BGP_ATTR_PARSE_ERROR_NOTIFYPLS, p)
  else
    '(pkt_afi, s) ← stream_getw (p_in p);
    '(pkt_safi, s) ← stream_getc s;
    match bgp_map_afi_safi_iana2int pkt_afi pkt_safi with
    | None => Ret (BGP_ATTR_PARSE_ERROR, set_p_in s p)
    | Some (afi, safi) =>
        let withdraw_len := u16 (length - 3) in
        p ← forward withdraw_len (set_p_in s (set_p_mp_withdraw (mkNlri afi safi (Some (getp s)) withdraw_len) p));
        proceed (upd_attr (bgp_attr_set BGP_ATTR_MP_UNREACH_NLRI) p)
    end.

(** ** Tunnel encapsulation *)

(** The loop runs over the rest of the packet; the 16-bit [length] that it counts
    down can wrap.  [None] is a malformed attribute. *)
Fixpoint encap_loop (fuel : nat) (length : Z) (s : stream) (acc : list (Z * list Z)) : outcome (list (Z * list Z) * option Z * stream) :=
  if STREAM_READABLE s <? 4 then Ret (acc, Some length, s)
  else
    match fuel with
    | O => Abort
    | S k =>
        '(subtype, s) ← stream_getc s;
        '(sublength, s) ← (if subtype <? 128 then stream_getc s else stream_getw s);
        let length := u16 (length - (if subtype <? 128 then 2 else 3)) in
        if length <? sublength then Ret (acc, None, s)
        else if STREAM_READABLE s <? sublength then Ret (acc, None, s)
        else
          '(v, s) ← stream_get s sublength;
          encap_loop k (u16 (length - sublength)) s (acc ++ [(subtype, v)])
    end.

Definition bgp_attr_encap (pe : peer) (g : parser_args) (p : parser) : handled :=
  let malformed := bgp_attr_malformed g BGP_NOTIFY_UPDATE_OPT_ATTR_ERR (g_total g) in
  if ignored pe g then skip_ignored pe g (g_length g) p
  else if negb (has (g_flags g) BGP_ATTR_FLAG_TRANS) || negb (has (g_flags g) BGP_ATTR_FLAG_OPTIONAL) then malformed p
  else if g_length g <? 4 then malformed p
  else
    '(tunneltype, s) ← stream_getw (p_in p);
    '(_, s) ← stream_getw s;
    '(acc, o, s) ← encap_loop (Z.to_nat (STREAM_READABLE s)) (g_length g - 4) s (a_encap_subtlvs (p_attr p));
    let p := set_p_in s (upd_attr (set_a_encap_subtlvs acc) p) in
    match o with
    | None => malformed p
    | Some length =>
        let p := upd_attr (set_a_encap_tunneltype tunneltype) p in
        if negb (length =? 0) then malformed p else proceed (upd_attr (bgp_attr_set BGP_ATTR_ENCAP) p)
    end.

(** ** Prefix SID (RFC 8669 and SRv6 services) *)

Definition tlv_header (s : stream) : outcome (Z * Z * stream) :=
  '(type, s) ← stream_getc s;
  '(length, s) ← stream_getw s;
  Ret (type, length, s).

Definition srv6_of (x : attr) : outcome srv6_l3service := match a_srv6_l3service x with Some v => Ret v | None => Abort end.

Definition bgp_attr_srv6_service_data (pe : peer) (g : parser_args) (p : parser) : handled :=
  let malformed := bgp_attr_malformed g BGP_NOTIFY_UPDATE_ATTR_LENG_ERR (g_total g) in
  if STREAM_READABLE (p_in p) <? 3 then malformed p
  else
    '(type, length, s) ← tlv_header (p_in p);
    let p := set_p_in s p in
    if STREAM_READABLE s <? length then malformed p
    else if length <? 6 then malformed p
    else if type =? 1 then
      if STREAM_READABLE s <? 6 then malformed p
      else
        '(v, s) ← stream_get s 6;
        sv ← srv6_of (p_attr p);
        proceed (set_p_in s (upd_attr
          (set_a_srv6_l3service (Some (mkSrv6 (sv_sid sv) (sv_sid_flags sv) (sv_endpoint_behavior sv) v))) p))
    else
      p ← forward length p;
      proceed p.

Definition bgp_attr_srv6_service (pe : peer) (g : parser_args) (p : parser) : handled :=
  let malformed := bgp_attr_malformed g BGP_NOTIFY_UPDATE_ATTR_LENG_ERR (g_total g) in
  if STREAM_READABLE (p_in p) <? 3 then malformed p
  else
    '(type, length, s) ← tlv_header (p_in p);
    let p := set_p_in s p in
    if STREAM_READABLE s <? length then malformed p
    else if type =? 1 then
      if STREAM_READABLE s <? 21 then malformed p
      else
        '(_, s) ← stream_getc s;
        '(sid, s) ← stream_get s 16;
        '(sid_flags, s) ← stream_getc s;
        '(behavior, s) ← stream_getw s;
        '(_, s) ← stream_getc s;
        let p := set_p_in s p in
        match a_srv6_l3service (p_attr p) with
        | Some _ => bgp_attr_malformed g BGP_NOTIFY_UPDATE_MAL_ATTR (g_total g) p
        | None =>
            let p := upd_attr (set_a_srv6_l3service (Some (mkSrv6 sid sid_flags behavior (replicate 6 0)))) p in
            if 21 <? length then bgp_attr_srv6_service_data pe g p else proceed p
        end
    else
      p ← forward length p;
      proceed p.

(** The ranges of an originator SRGB. *)
Fixpoint skip_srgbs (n : nat) (s : stream) : outcome stream :=
  match n with
  | O => Ret s
  | S k => '(_, s) ← stream_get s 3; '(_, s) ← stream_get s 3; skip_srgbs k s
  end.

Definition bgp_attr_psid_sub (pe : peer) (type length : Z) (g : parser_args) (p : parser) : handled :=
  let malformed := bgp_attr_malformed g BGP_NOTIFY_UPDATE_ATTR_LENG_ERR (g_total g) in
  let s := p_in p in
  if STREAM_READABLE s <? length then malformed p
  else if type =? 1 then
    if negb (length =? 7) then malformed p
    else
      '(_, s) ← stream_getc s;
      '(_, s) ← stream_getw s;
      '(label_index, s) ← stream_getl s;
      if label_index =? BGP_INVALID_LABEL_INDEX
      then bgp_attr_malformed g BGP_NOTIFY_UPDATE_OPT_ATTR_ERR (g_total g) (set_p_in s p)
      else proceed (set_p_in s (upd_attr (set_a_label_index label_index) p))
  else if type =? 2 then
    if negb (length =? 19) then malformed p
    else
      '(_, s) ← stream_getc s;
      '(_, s) ← stream_getw s;
      '(_, s) ← stream_get s 16;
      proceed (set_p_in s p)
  else if type =? 3 then
    if length <? 8 then malformed p
    else
      '(_, s) ← stream_getw s;
      if negb ((length - 2) mod 6 =? 0) then malformed (set_p_in s p)
      else
        s ← skip_srgbs (Z.to_nat ((length - 2) / 6)) s;
        proceed (set_p_in s p)
  else if type =? 4 then
    if negb (length =? 19) then malformed p
    else
      '(_, s) ← stream_getc s;
      '(_, s) ← stream_getc s;
      '(sid_flags, s) ← stream_getc s;
      '(sid, s) ← stream_get s 16;
      let p := set_p_in s p in
      match a_srv6_vpn (p_attr p) with
      | Some _ => bgp_attr_malformed g BGP_NOTIFY_UPDATE_MAL_ATTR (g_total g) p
      | None => proceed (upd_attr (set_a_srv6_vpn (Some (sid_flags, sid))) p)
      end
  else if type =? 5 then
    if STREAM_READABLE s <? 1 then malformed p
    else
      '(_, s) ← stream_getc s;
      bgp_attr_srv6_service pe g (set_p_in s p)
  else
    p ← forward length p;
    proceed p.

(** [parsed] counts the lengths that the TLVs name. *)
Fixpoint psid_loop (fuel : nat) (pe : peer) (g : parser_args) (parsed : Z) (p : parser) : handled :=
  let malformed := bgp_attr_malformed g BGP_NOTIFY_UPDATE_ATTR_LENG_ERR (g_total g) in
  if negb ((0 <? STREAM_READABLE (p_in p)) && (parsed <? g_length g)) then
    proceed (upd_attr (bgp_attr_set BGP_ATTR_PREFIX_SID) p)
  else
    match fuel with
    | O => Abort
    | S k =>
        if STREAM_READABLE (p_in p) <? 3 then malformed p
        else
          '(type, length, s) ← tlv_header (p_in p);
          let p := set_p_in s p in
          if STREAM_READABLE s <? length then malformed p
          else
            '(ret, p) ← bgp_attr_psid_sub pe type length g p;
            if negb (bool_decide (ret = BGP_ATTR_PARSE_PROCEED)) then Ret (ret, p)
            else
              let parsed := parsed + length + 3 in
              if g_length g <? parsed then malformed p else psid_loop k pe g parsed p
    end.

Definition bgp_attr_prefix_sid (pe : peer) (g : parser_args) (p : parser) : handled :=
  if ignored pe g then skip_ignored pe g (g_length g) p
  else psid_loop (Z.to_nat (g_length g)) pe g 0 p.

(** ** The other attributes *)

Definition bgp_attr_pmsi_tunnel (pe : peer) (g : parser_args) (p : parser) : handled :=
  if ignored pe g then skip_ignored pe g (g_length g) p
  else if g_length g <? 5 then bgp_attr_malformed g BGP_NOTIFY_UPDATE_ATTR_LENG_ERR (g_total g) p
  else
    '(_, s) ← stream_getc (p_in p);
    '(tnl_type, s) ← stream_getc s;
    let p := set_p_in s p in
    if 7 <? tnl_type then bgp_attr_malformed g BGP_NOTIFY_UPDATE_OPT_ATTR_ERR (g_total g) p
    else if (tnl_type =? 6) && negb (g_length g =? 9)
    then bgp_attr_malformed g BGP_NOTIFY_UPDATE_ATTR_LENG_ERR (g_total g) p
    else
      '(label, s) ← stream_get s 3;
      p ← forward (g_length g - 5)
            (set_p_in s (upd_attr (fun x => set_a_label label (set_a_pmsi_tnl_type tnl_type (bgp_attr_set BGP_ATTR_PMSI_TUNNEL x))) p));
      proceed p.

Fixpoint aigp_valid (fuel : nat) (l : list Z) : bool :=
  match l with
  | [] => true
  | type :: _ =>
      match fuel with
      | O => false
      | S k =>
          if (length l <? 3)%nat then false
          else
            let tlv_length := byte_at l 1 * 256 + byte_at l 2 in
            if Z.of_nat (length l) <? tlv_length then false
            else if tlv_length <? 3 then false
            else if (type =? 1) && negb (tlv_length =? 11) then false
            else aigp_valid k (drop (Z.to_nat tlv_length) l)
      end
  end.
Definition bgp_attr_aigp_valid (l : list Z) : bool := if (length l <? 3)%nat then false else aigp_valid (length l) l.

Fixpoint aigp_metric (fuel : nat) (l : list Z) : option Z :=
  match l with
  | [] => None
  | type :: _ =>
      match fuel with
      | O => None
      | S k =>
          if type =? 1 then
            let m := be_value_of (take 8 (drop 3 l)) in
            if m =? 18446744073709551615 then None else Some m
          else aigp_metric k (drop (Z.to_nat (byte_at l 1 * 256 + byte_at l 2)) l)
      end
  end.
Definition bgp_attr_aigp_get_tlv_metric (l : list Z) : option Z := aigp_metric (length l) l.

Definition bgp_attr_aigp (pe : peer) (g : parser_args) (p : parser) : handled :=
  let ignore := skip_ignored pe g (g_length g) in
  if bool_decide (pe_sort pe = BGP_PEER_EBGP) && (negb (pe_aigp pe) || negb (pe_oad pe)) then ignore p
  else if ignored pe g then ignore p
  else
    l ← peek (p_in p) (g_length g);
    if negb (bgp_attr_aigp_valid l) then ignore p
    else
      match bgp_attr_aigp_get_tlv_metric l with
      | Some m => ignore (upd_attr (bgp_attr_set_aigp_metric m) p)
      | None => ignore p
      end.

Definition bgp_attr_linkstate (pe : peer) (g : parser_args) (p : parser) : handled :=
  if STREAM_READABLE (p_in p) =? 0 then proceed p
  else
    '(v, s) ← stream_get (p_in p) (g_length g);
    proceed (set_p_in s (upd_attr (fun x => set_a_link_state (Some v) (bgp_attr_set BGP_ATTR_LINK_STATE x)) p)).

Definition bgp_attr_otc (pe : peer) (g : parser_args) (p : parser) : handled :=
  if negb (g_length g =? 4) then bgp_attr_malformed g BGP_NOTIFY_UPDATE_ATTR_LENG_ERR (g_total g) p
  else if ignored pe g then skip_ignored pe g (g_length g) p
  else
    '(otc, s) ← stream_getl (p_in p);
    let p := set_p_in s (upd_attr (set_a_otc otc) p) in
    if otc =? 0 then bgp_attr_malformed g BGP_NOTIFY_UPDATE_MAL_AS_PATH (g_total g) p
    else proceed (upd_attr (bgp_attr_set BGP_ATTR_OTC) p).

(** A well-known attribute is malformed; of the optional ones the transitive ones are
    kept, with the partial bit set in the packet. *)
Definition bgp_attr_unknown (pe : peer) (g : parser_args) (p : parser) : handled :=
  p ← forward (g_length g) p;
  if ignored pe g then bgp_attr_ignore pe (g_type g) p
  else if negb (has (g_flags g) BGP_ATTR_FLAG_OPTIONAL)
  then bgp_attr_malformed g BGP_NOTIFY_UPDATE_UNREC_ATTR (g_total g) p
  else if negb (has (g_flags g) BGP_ATTR_FLAG_TRANS) then proceed p
  else
    let s := p_in p in
    let s := write_bytes s (g_startp g) [Z.lor (byte_at (data s) (Z.to_nat (g_startp g))) BGP_ATTR_FLAG_PARTIAL] in
    let old := default [] (a_transit (p_attr p)) in
    proceed (set_p_in s (upd_attr (set_a_transit (Some (old ++ read_bytes s (g_startp g) (g_total g)))) p)).

(** ** Next hop characteristics *)

(** The TLVs; [None] is a malformed attribute. *)
Fixpoint nhc_loop (fuel : nat) (length : Z) (s : stream) (nhc : bgp_nhc) : outcome (option bgp_nhc * stream) :=
  if (length =? 0) || (STREAM_READABLE s <? 4) then Ret (Some nhc, s)
  else
    match fuel with
    | O => Abort
    | S k =>
        '(code, s) ← stream_getw s;
        '(tlv_length, s) ← stream_getw s;
        if length <? tlv_length then Ret (None, s)
        else if STREAM_READABLE s <? tlv_length then Ret (None, s)
        else
          '(v, s) ← stream_get s tlv_length;
          if (code =? 2) && negb (tlv_length mod 4 =? 0) then Ret (None, s)
          else
            let nhc := if existsb (fun t => fst t =? code) (nc_tlvs nhc) then nhc
                       else mkNhc (nc_afi nhc) (nc_safi nhc) (nc_nh nhc) (nc_tlvs nhc ++ [(code, v)]) in
            nhc_loop k (u16 (length - (tlv_length + 4))) s nhc
    end.

(** [bgp_nhc_free] reads through its argument, which is null before the first one. *)
Definition bgp_attr_nhc (pe : peer) (g : parser_args) (p : parser) : handled :=
  let malformed := bgp_attr_malformed g BGP_NOTIFY_UPDATE_OPT_ATTR_ERR (g_total g) in
  let freed p := match a_nhc (p_attr p) with None => Abort | Some _ => malformed p end in
  let length := g_length g in
  if ignored pe g then skip_ignored pe g length p
  else if length <? 12 then malformed p
  else
    '(pkt_afi, s) ← stream_getw (p_in p);
    '(pkt_safi, s) ← stream_getc s;
    match bgp_map_afi_safi_iana2int pkt_afi pkt_safi with
    | None => Ret (BGP_ATTR_PARSE_ERROR, set_p_in s p)
    | Some (afi, safi) =>
        '(nh_length, s) ← stream_getc s;
        let p := set_p_in s p in
        if (nh_length =? 16) && (length <? 24) then freed p
        else if negb (nh_length =? 4) && negb (nh_length =? 16) then freed p
        else
          '(nh, s) ← stream_get s nh_length;
          let tlvs := match a_nhc (p_attr p) with Some n => nc_tlvs n | None => [] end in
          let p := set_p_in s p in
          if (nh_length =? 16) && is_linklocal nh && match pe_ifp pe with None => true | Some _ => false end
          then proceed p
          else
            '(o, s) ← nhc_loop (Z.to_nat (STREAM_READABLE s)) (length - 4 - nh_length) s (mkNhc afi safi nh tlvs);
            let p := set_p_in s p in
            match o with
            | None => malformed p
            | Some n => proceed (upd_attr (bgp_attr_set_nhc (Some n)) p)
            end
    end.
