(* ===== verification/BgpUpdate.v ===== *)
(** * The attributes and prefixes of an update (bgpd/bgp_attr.c, bgp_packet.c, bgp_route.c)

    [bgp_attr_parse] with the checks over all attributes, and [bgp_update_receive] up
    to the places of the prefixes in the packet.

    [bgp_update_receive] of an established session: first the parts of the packet that
    hold prefixes, then the walk over them, for the IP unicast and multicast parts.
    Prefixes are written with their labels.  Whether [bgp_update] hits the maximum of
    prefixes is the parameter [overflow]. *)
From stdpp Require Import base list.
From S2P Require Import Prelude Prefix Stream AsPath AsPathOps BgpAttrData BgpAttr.

(** ** Checks over all attributes *)

Definition ipv4_martian (pe : peer) (a : list Z) : bool :=
  let b := byte_at a 0 in
  if 240 <=? b then false else if 224 <=? b then true
  else ((b =? 0) || (b =? 127)) && negb (pe_allow_reserved_ranges pe).

Definition bgp_attr_nexthop_valid (pe : peer) (p : parser) : handled :=
  let a := a_nexthop (p_attr p) in
  if ipv4_martian pe a && negb (pe_allow_martian pe)
  then Ret (BGP_ATTR_PARSE_ERROR,
            notify BGP_NOTIFY_UPDATE_INVAL_NEXT_HOP ([BGP_ATTR_FLAG_TRANS; BGP_ATTR_NEXT_HOP; 4] ++ a) p)
  else proceed p.

(** The last missing attribute is the one that is named. *)
Definition bgp_attr_check (pe : peer) (x : attr) (length : Z) : parse_ret :=
  if pe_cap_restart_rcv pe && (a_flag x =? 0) && (length =? 0) then BGP_ATTR_PARSE_WITHDRAW
  else
    let reach := bgp_attr_exists x BGP_ATTR_MP_REACH_NLRI in
    let missing :=
      negb (bgp_attr_exists x BGP_ATTR_ORIGIN) || negb (bgp_attr_exists x BGP_ATTR_AS_PATH)
      || negb (bgp_attr_exists x BGP_ATTR_NEXT_HOP) && negb reach
      || bool_decide (pe_sort pe = BGP_PEER_IBGP) && negb (bgp_attr_exists x BGP_ATTR_LOCAL_PREF) in
    if negb reach && bgp_attr_exists x BGP_ATTR_MP_UNREACH_NLRI
    then if missing then BGP_ATTR_PARSE_MISSING_MANDATORY else BGP_ATTR_PARSE_PROCEED
    else if missing then BGP_ATTR_PARSE_WITHDRAW else BGP_ATTR_PARSE_PROCEED.

Definition munge_aggregator (p : parser) : bool * attr :=
  let x := p_attr p in
  if negb (bgp_attr_exists x BGP_ATTR_AS4_AGGREGATOR) then (false, x)
  else if bgp_attr_exists x BGP_ATTR_AGGREGATOR then
    if negb (a_aggregator_as x =? BGP_AS_TRANS) then (true, x)
    else (false, set_a_aggregator_addr (p_as4_aggregator_addr p) (set_a_aggregator_as (p_as4_aggregator p) x))
  else (false, bgp_attr_set BGP_ATTR_AGGREGATOR (set_a_aggregator_as (p_as4_aggregator p) x)).

(** [true] is an error. *)
Definition bgp_attr_munge_as4_attrs (pe : peer) (p : parser) : outcome (bool * parser) :=
  match a_aspath (p_attr p) with
  | None => Ret (true, p)
  | Some a =>
      if pe_cap_as4_rcv pe then Ret (false, p)
      else
        let '(ignore_as4_path, x) := munge_aggregator p in
        if negb ignore_as4_path && bgp_attr_exists x BGP_ATTR_AS4_PATH then
          match p_as4_path p with
          | None => Ret (true, set_p_attr x p)
          | Some a4 =>
              newpath ← aspath_reconcile_as4 a a4;
              Ret (false, set_p_attr (set_a_aspath (Some newpath) x) p)
          end
        else Ret (false, set_p_attr x p)
  end.

Definition bgp_attr_aspath_check (pe : peer) (p : parser) : handled :=
  let sort := pe_sort_now pe in
  let ebgp := bool_decide (sort = BGP_PEER_EBGP) in
  let withdraw := Ret (BGP_ATTR_PARSE_WITHDRAW, p) in
  match a_aspath (p_attr p) with
  | None => Abort
  | Some a =>
      if bool_decide (sort = BGP_PEER_CONFED) && negb (aspath_left_confed_check a) || ebgp && aspath_confed_check a
      then withdraw
      else
        first ← (if pe_enforce_first_as pe && ebgp then aspath_firstas_check a (pe_as pe) else Ret true);
        if negb first then withdraw
        else if ebgp && aspath_check_as_zero a then withdraw
        else if negb (pe_change_local_as pe =? 0) && negb (pe_local_as_no_prepend pe) then
          a ← aspath_add_seq (aspath_dup a) (pe_change_local_as pe);
          proceed (upd_attr (set_a_aspath (Some a)) p)
        else proceed p
  end.

(** ** The walk over the attributes *)

Definition parse_attribute (pe : peer) (g : parser_args) : parser -> handled :=
  let t := g_type g in
  if t =? BGP_ATTR_ORIGIN then bgp_attr_origin pe g
  else if t =? BGP_ATTR_AS_PATH then bgp_attr_aspath pe g
  else if t =? BGP_ATTR_AS4_PATH then bgp_attr_as4_path pe g
  else if t =? BGP_ATTR_NEXT_HOP then bgp_attr_nexthop pe g
  else if t =? BGP_ATTR_MULTI_EXIT_DISC then bgp_attr_med pe g
  else if t =? BGP_ATTR_LOCAL_PREF then bgp_attr_local_pref pe g
  else if t =? BGP_ATTR_ATOMIC_AGGREGATE then bgp_attr_atomic pe g
  else if t =? BGP_ATTR_AGGREGATOR then bgp_attr_aggregator pe g
  else if t =? BGP_ATTR_AS4_AGGREGATOR then bgp_attr_as4_aggregator pe g
  else if t =? BGP_ATTR_COMMUNITIES then bgp_attr_community pe g
  else if t =? BGP_ATTR_LARGE_COMMUNITIES then bgp_attr_large_community pe g
  else if t =? BGP_ATTR_ORIGINATOR_ID then bgp_attr_originator_id pe g
  else if t =? BGP_ATTR_CLUSTER_LIST then bgp_attr_cluster_list pe g
  else if t =? BGP_ATTR_MP_REACH_NLRI then bgp_mp_reach_parse pe g
  else if t =? BGP_ATTR_MP_UNREACH_NLRI then bgp_mp_unreach_parse pe g
  else if t =? BGP_ATTR_EXT_COMMUNITIES then bgp_attr_ext_communities pe g
  else if t =? BGP_ATTR_ENCAP then bgp_attr_encap pe g
  else if t =? BGP_ATTR_PREFIX_SID then bgp_attr_prefix_sid pe g
  else if t =? BGP_ATTR_PMSI_TUNNEL then bgp_attr_pmsi_tunnel pe g
  else if t =? BGP_ATTR_IPV6_EXT_COMMUNITIES then bgp_attr_ipv6_ext_communities pe g
  else if t =? BGP_ATTR_OTC then bgp_attr_otc pe g
  else if t =? BGP_ATTR_AIGP then bgp_attr_aigp pe g
  else if t =? BGP_ATTR_NHC then bgp_attr_nhc pe g
  else if t =? BGP_ATTR_LINK_STATE then bgp_attr_linkstate pe g
  else bgp_attr_unknown pe g.

Definition is_ebgp (pe : peer) : bool := bool_decide (pe_sort pe = BGP_PEER_EBGP).

(** Too few bytes for a header. *)
Definition short_header (pe : peer) (p : parser) : handled :=
  if negb (is_ebgp pe) then Ret (BGP_ATTR_PARSE_ERROR, notify BGP_NOTIFY_UPDATE_ATTR_LENG_ERR [] p)
  else Ret (BGP_ATTR_PARSE_WITHDRAW, p).

(** An attribute that is longer than what is left; the copy for the NOTIFICATION goes
    into a buffer of the size of a packet. *)
Definition too_long (pe : peer) (startp endp lfl length : Z) (p : parser) : handled :=
  if negb (is_ebgp pe) then
    s ← stream_rewind_getp (p_in p) (1 + lfl);
    '(t, s) ← stream_get s 1;
    '(l, s) ← stream_get s lfl;
    let ndl := Z.min (getp s + length - startp) (STREAM_READABLE s) in
    assert! (ndl + lfl + 1 <=? pe_max_packet_size pe) ;;
    '(v, s) ← stream_get s ndl;
    Ret (BGP_ATTR_PARSE_ERROR, notify BGP_NOTIFY_UPDATE_ATTR_LENG_ERR (t ++ l ++ v) (set_p_in s p))
  else
    p ← forward (endp - getp (p_in p)) p;
    Ret (BGP_ATTR_PARSE_WITHDRAW, p).

(** [seen] are the types so far and [length] is that of the last attribute; [None] is
    the regular end of the loop. *)
Fixpoint attr_loop (fuel : nat) (pe : peer) (endp : Z) (seen : list Z) (length : Z) (p : parser)
  : outcome (option parse_ret * Z * parser) :=
  let startp := getp (p_in p) in
  let done h := '(ret, p) ← (h : handled); Ret (Some ret, length, p) in
  if negb (startp <? endp) then Ret (None, length, p)
  else
    match fuel with
    | O => Abort
    | S k =>
        if endp - startp <? BGP_ATTR_MIN_LEN then done (short_header pe p)
        else
          '(c, s) ← stream_getc (p_in p);
          '(type, s) ← stream_getc s;
          let flag := Z.land 240 c in
          let extlen := has flag BGP_ATTR_FLAG_EXTLEN in
          if extlen && (endp - startp <? BGP_ATTR_MIN_LEN + 1) then done (short_header pe (set_p_in s p))
          else
            '(length, s) ← (if extlen then stream_getw s else stream_getc s);
            let p := set_p_in s p in
            let attr_endp := getp s + length in
            if endp <? attr_endp then done (too_long pe startp endp (if extlen then 2 else 1) length p)
            else if bool_decide (type ∈ seen) then
              if negb (is_ebgp pe) || (type =? BGP_ATTR_MP_REACH_NLRI) || (type =? BGP_ATTR_MP_UNREACH_NLRI)
              then Ret (Some BGP_ATTR_PARSE_ERROR, length, notify BGP_NOTIFY_UPDATE_MAL_ATTR [] p)
              else
                s ← stream_set_getp s attr_endp;
                attr_loop k pe endp seen length (set_p_in s p)
            else
              let seen := type :: seen in
              let g := mkArgs length (u16 (attr_endp - startp)) type flag startp in
              if bgp_attr_flag_invalid pe g then
                '(ret, p) ← bgp_attr_malformed g BGP_NOTIFY_UPDATE_ATTR_FLAG_ERR (g_total g) p;
                if bool_decide (ret = BGP_ATTR_PARSE_PROCEED) then attr_loop k pe endp seen length p
                else
                  p ← forward (endp - getp (p_in p)) p;
                  Ret (Some ret, length, p)
              else
                '(ret, p) ← parse_attribute pe g p;
                match ret with
                | BGP_ATTR_PARSE_ERROR_NOTIFYPLS =>
                    Ret (Some BGP_ATTR_PARSE_ERROR, length, notify BGP_NOTIFY_UPDATE_MAL_ATTR [] p)
                | BGP_ATTR_PARSE_ERROR => Ret (Some BGP_ATTR_PARSE_ERROR, length, p)
                | BGP_ATTR_PARSE_WITHDRAW | BGP_ATTR_PARSE_WITHDRAW_IGNORE =>
                    p ← forward (endp - getp (p_in p)) p;
                    Ret (Some ret, length, p)
                | BGP_ATTR_PARSE_PROCEED | BGP_ATTR_PARSE_MISSING_MANDATORY =>
                    if negb (getp (p_in p) =? attr_endp)
                    then Ret (Some BGP_ATTR_PARSE_ERROR, length, notify BGP_NOTIFY_UPDATE_ATTR_LENG_ERR [] p)
                    else attr_loop k pe endp seen length p
                end
    end.

(** What follows the loop. *)
Definition finish_attributes (pe : peer) (endp length : Z) (p : parser) : handled :=
  let x := p_attr p in
  let p := if (a_mp_nexthop_len x =? 0) || negb (nl_safi (p_mp_update p) =? SAFI_LABELED_UNICAST)
           then upd_attr (set_a_label_index BGP_INVALID_LABEL_INDEX) p else p in
  if negb (getp (p_in p) =? endp) then Ret (BGP_ATTR_PARSE_ERROR, notify BGP_NOTIFY_UPDATE_ATTR_LENG_ERR [] p)
  else
    '(ret, p) ← (if bgp_attr_exists x BGP_ATTR_NEXT_HOP && negb (bgp_attr_exists x BGP_ATTR_MP_REACH_NLRI)
                 then bgp_attr_nexthop_valid pe p else proceed p);
    if negb (bool_decide (ret = BGP_ATTR_PARSE_PROCEED)) then Ret (BGP_ATTR_PARSE_ERROR, p)
    else
      let ret := bgp_attr_check pe (p_attr p) length in
      if negb (bool_decide (ret = BGP_ATTR_PARSE_PROCEED)) then Ret (ret, p)
      else if negb (bgp_attr_exists (p_attr p) BGP_ATTR_AS_PATH) then proceed p
      else
        '(err, p) ← bgp_attr_munge_as4_attrs pe p;
        if (err : bool) then Ret (BGP_ATTR_PARSE_ERROR, notify BGP_NOTIFY_UPDATE_MAL_ATTR [] p)
        else bgp_attr_aspath_check pe p.

(** Attributes that cannot be passed on without the route are dropped. *)
Definition bgp_attr_parse (pe : peer) (size : Z) (p : parser) : handled :=
  let endp := getp (p_in p) + size in
  '(o, length, p) ← attr_loop (Z.to_nat size) pe endp [] 0 p;
  '(ret, p) ← match o with Some ret => Ret (ret, p) | None => finish_attributes pe endp length p end;
  let p := set_p_as4_path None p in
  Ret (ret, if bool_decide (ret = BGP_ATTR_PARSE_PROCEED) then p
            else upd_attr (fun x => set_a_encap_subtlvs [] (set_a_transit None x)) p).

(** ** The parts of the message *)

Definition no_nlri : bgp_nlri := mkNlri 0 0 None 0.
Definition new_parser (s : stream) : parser := mkParser attr_init s [] None 0 zero4 no_nlri no_nlri 0.
Definition ip_unicast (pos len : Z) : bgp_nlri := mkNlri 1 1 (Some pos) len.

(** What is done with the prefixes: [up_attr] are the attributes of the announced
    ones, [None] when they count as withdrawn. *)
Record update := mkUpdate {
  up_attr : option attr;
  up_update : bgp_nlri;
  up_withdraw : bgp_nlri;
  up_mp_update : bgp_nlri;
  up_mp_withdraw : bgp_nlri;
  up_eor : option (Z * Z)
}.

Definition stop (p : parser) : outcome (option update * parser) := Ret (None, p).
Definition mal_attr (p : parser) : outcome (option update * parser) := stop (notify BGP_NOTIFY_UPDATE_MAL_ATTR [] p).

(** The marker at the end of the routes of an address family. *)
Definition end_of_rib (pe : peer) (x : attr) (update_len withdraw_len attribute_len : Z) (mp_update mp_withdraw : bgp_nlri)
  : option (Z * Z) :=
  if (update_len =? 0) && (withdraw_len =? 0) && (nl_length mp_update =? 0) then
    let '(afi, safi) :=
      if attribute_len =? 0 then (1, 1)
      else if bgp_attr_exists x BGP_ATTR_MP_UNREACH_NLRI && (nl_length mp_withdraw =? 0)
      then (nl_afi mp_withdraw, nl_safi mp_withdraw) else (0, 0) in
    if negb (afi =? 0) && pe_enabled pe afi safi then Some (afi, safi) else None
  else None.

(** The prefixes after the attributes. *)
Definition receive_nlri (pe : peer) (end_ withdraw_pos withdraw_len attribute_len : Z) (ret : parse_ret) (p : parser)
  : outcome (option update * parser) :=
  let update_pos := getp (p_in p) in
  let update_len := u16 (end_ - update_pos) in
  let withdrawn := bool_decide (ret = BGP_ATTR_PARSE_WITHDRAW) || bool_decide (ret = BGP_ATTR_PARSE_WITHDRAW_IGNORE) in
  let announced := negb (update_len =? 0) && negb (attribute_len =? 0) && negb (bool_decide (ret = BGP_ATTR_PARSE_MISSING_MANDATORY)) in
  '(valid, p) ← (if announced then
                   p ← forward update_len p;
                   if bgp_attr_exists (p_attr p) BGP_ATTR_MP_REACH_NLRI then bgp_attr_nexthop_valid pe p else proceed p
                 else proceed p);
  if negb (bool_decide (valid = BGP_ATTR_PARSE_PROCEED)) then stop p
  else
    Ret (Some (mkUpdate (if withdrawn then None else Some (p_attr p))
                 (if announced then ip_unicast update_pos update_len else no_nlri)
                 (if 0 <? withdraw_len then ip_unicast withdraw_pos withdraw_len else no_nlri)
                 (p_mp_update p) (p_mp_withdraw p)
                 (end_of_rib pe (p_attr p) update_len withdraw_len attribute_len (p_mp_update p) (p_mp_withdraw p))), p).

(** [None] is [BGP_Stop]: the session is closed. *)
Definition bgp_update_receive (pe : peer) (size : Z) (s : stream) : outcome (option update * parser) :=
  let p := new_parser s in
  let end_ := getp s + size in
  if end_ <? getp s + 2 then mal_attr p
  else
    '(withdraw_len, s) ← stream_getw s;
    let withdraw_pos := getp s in
    if end_ <? getp s + withdraw_len then mal_attr (set_p_in s p)
    else
      s ← (if 0 <? withdraw_len then stream_forward_getp s withdraw_len else Ret s);
      if end_ <? getp s + 2 then mal_attr (set_p_in s p)
      else
        '(attribute_len, s) ← stream_getw s;
        let p := set_p_in s p in
        if end_ <? getp s + attribute_len then mal_attr p
        else
          '(ret, p) ← (if attribute_len =? 0 then proceed p else bgp_attr_parse pe attribute_len p);
          if bool_decide (ret = BGP_ATTR_PARSE_ERROR) then stop p
          else receive_nlri pe end_ withdraw_pos withdraw_len attribute_len ret p.

(** ** Prefixes *)

Inductive nlri_ret :=
| BGP_NLRI_PARSE_OK
| BGP_NLRI_PARSE_ERROR
| BGP_NLRI_PARSE_ERROR_PREFIX_OVERFLOW
| BGP_NLRI_PARSE_ERROR_PACKET_OVERFLOW
| BGP_NLRI_PARSE_ERROR_PREFIX_LENGTH
| BGP_NLRI_PARSE_ERROR_PACKET_LENGTH.
#[global] Instance nlri_ret_eq : EqDecision nlri_ret.
Proof. solve_decision. Defined.

Definition BGP_ADDPATH_ID_LEN : nat := 4.

Definition afi2family (afi : Z) : Z := if afi =? 1 then AF_INET else if afi =? 2 then AF_INET6 else if afi =? 3 then AF_ETHERNET else AF_UNSPEC.
Definition prefix_blen (family : Z) : Z :=
  if family =? AF_INET then IPV4_MAX_BYTELEN else if family =? AF_INET6 then IPV6_MAX_BYTELEN else if family =? AF_ETHERNET then ETH_ALEN else 0.

(** Prefixes that are left out without an error. *)
Definition semantically_wrong (afi safi : Z) (v : list Z) : bool :=
  (safi =? 1)
  && ((afi =? 1) && (224 <=? byte_at v 0) && (byte_at v 0 <? 240)
      || (afi =? 2) && (is_linklocal v || (byte_at v 0 =? 255))).

Section Nlri.
  Context (overflow : list (Z * prefix) -> bool).

(** [l] are the bytes up to [lim], [acc] the prefixes that [bgp_update] or
    [bgp_withdraw] was called with. *)
Fixpoint nlri_loop (fuel : nat) (addpath : bool) (afi safi : Z) (l : list Z) (acc : list (Z * prefix))
  : outcome (nlri_ret * list (Z * prefix)) :=
  match l with
  | [] => Ret (BGP_NLRI_PARSE_OK, acc)
  | _ =>
      match fuel with
      | O => Abort
      | S k =>
          if addpath && (length l <=? BGP_ADDPATH_ID_LEN)%nat then Ret (BGP_NLRI_PARSE_ERROR_PACKET_OVERFLOW, acc)
          else
            let id := if addpath then be_value_of (take BGP_ADDPATH_ID_LEN l) else 0 in
            let l := if addpath then drop BGP_ADDPATH_ID_LEN l else l in
            let plen := byte_at l 0 in
            let l := drop 1 l in
            if prefix_blen (afi2family afi) * 8 <? plen then Ret (BGP_NLRI_PARSE_ERROR_PREFIX_LENGTH, acc)
            else
              let psize := Z.to_nat (PSIZE plen) in
              if (length l <? psize)%nat then Ret (BGP_NLRI_PARSE_ERROR_PACKET_OVERFLOW, acc)
              else if (16 <? psize)%nat then Ret (BGP_NLRI_PARSE_ERROR_PACKET_LENGTH, acc)
              else
                let p := mkPrefix (afi2family afi) plen (take psize l ++ replicate (16 - psize) 0) in
                let l := drop psize l in
                if semantically_wrong afi safi (val p) then nlri_loop k addpath afi safi l acc
                else
                  let acc := acc ++ [(id, p)] in
                  if overflow acc then Ret (BGP_NLRI_PARSE_ERROR_PREFIX_OVERFLOW, acc)
                  else nlri_loop k addpath afi safi l acc
      end
  end.

Definition bgp_nlri_parse_ip (addpath : bool) (s : stream) (packet : bgp_nlri) : outcome (nlri_ret * list (Z * prefix)) :=
  match nl_nlri packet with
  | None => Abort
  | Some pos =>
      assert! (pos + nl_length packet <=? endp s) ;;
      let l := read_bytes s pos (nl_length packet) in
      nlri_loop (length l) addpath (nl_afi packet) (nl_safi packet) l []
  end.

(** ** The prefixes of all parts *)

(** The calls of [bgp_update] (with attributes) and [bgp_withdraw]. *)
Record route_change := mkChange { rc_attr : option attr; rc_afi : Z; rc_safi : Z; rc_prefixes : list (Z * prefix) }.

(** Whether path identifiers are received for an address family, and the parsers for the
    families other than unicast and multicast. *)
  Context (addpath : Z -> Z -> bool).
  Context (other_nlri : stream -> bgp_nlri -> option attr -> bool -> nlri_ret).

Definition bgp_nlri_parse (s : stream) (x : option attr) (packet : bgp_nlri) (mp_withdraw : bool) : outcome (nlri_ret * list route_change) :=
  if (nl_safi packet =? 1) || (nl_safi packet =? 2) then
    '(ret, l) ← bgp_nlri_parse_ip (addpath (nl_afi packet) (nl_safi packet)) s packet;
    Ret (ret, [mkChange (if mp_withdraw then None else x) (nl_afi packet) (nl_safi packet) l])
  else Ret (other_nlri s packet x mp_withdraw, []).

(** The loop over the parts; each comes with the subcode of the NOTIFICATION for an
    error in it, which is the first result. *)
Fixpoint parse_parts (pe : peer) (s : stream) (x : option attr) (parts : list (bgp_nlri * bool * Z)) (acc : list route_change)
  : outcome (option Z * list route_change) :=
  match parts with
  | [] => Ret (None, acc)
  | (packet, mp_withdraw, subcode) :: rest =>
      match nl_nlri packet with
      | None => parse_parts pe s x rest acc
      | Some _ =>
          if negb (pe_enabled pe (nl_afi packet) (nl_safi packet)) || (nl_length packet =? 0) then parse_parts pe s x rest acc
          else
            '(ret, changes) ← bgp_nlri_parse s x packet mp_withdraw;
            if bool_decide (ret = BGP_NLRI_PARSE_OK) || bool_decide (ret = BGP_NLRI_PARSE_ERROR_PREFIX_OVERFLOW)
            then parse_parts pe s x rest (acc ++ changes)
            else Ret (Some subcode, acc ++ changes)
      end
  end.

(** The whole of [bgp_update_receive]: [false] is [BGP_Stop]. *)
Definition update_received (pe : peer) (size : Z) (s : stream) : outcome (bool * list route_change * option (Z * Z) * parser) :=
  '(o, p) ← bgp_update_receive pe size s;
  match o with
  | None => Ret (false, [], None, p)
  | Some u =>
      '(err, changes) ← parse_parts pe (p_in p) (up_attr u)
        [(up_update u, false, BGP_NOTIFY_UPDATE_INVAL_NETWORK); (up_withdraw u, true, BGP_NOTIFY_UPDATE_INVAL_NETWORK);
         (up_mp_update u, false, BGP_NOTIFY_UPDATE_OPT_ATTR_ERR); (up_mp_withdraw u, true, BGP_NOTIFY_UPDATE_OPT_ATTR_ERR)] [];
      match err with
      | Some subcode => Ret (false, changes, None, notify subcode [] p)
      | None => Ret (true, changes, up_eor u, p)
      end
  end.
End Nlri.

(** ** Writing prefixes (bgp_attr.c, bgp_attr.h) *)

Definition BGP_LABEL_BYTES : Z := 3.

Definition label_set_bos (l : list Z) : list Z := <[2%nat := Z.lor (byte_at l 2) 1]> l.

(** The labels that fit the length of one byte, the last of them with the bottom bit. *)
Definition fitting_labels (p : prefix) (labels : list (list Z)) : list (list Z) :=
  let n := Z.of_nat (length labels) in
  if negb (n =? 0) && (256 <=? prefixlen p + BGP_LABEL_BYTES * 8 * n) then
    let k := Z.to_nat ((255 - prefixlen p) / 8 / BGP_LABEL_BYTES) in
    alter label_set_bos (k - 1)%nat (take k labels)
  else labels.

Definition addpath_bytes (id : Z) : list Z := [u8 (Z.shiftr id 24); u8 (Z.shiftr id 16); u8 (Z.shiftr id 8); u8 (Z.shiftr id 0)].

Definition bgp_attr_stream_put_labeled_prefix (junk : nat -> Z) (s : stream) (p : prefix) (labels : list (list Z)) (addpath : bool) (id : Z)
  : outcome (Z * stream) :=
  let labels := fitting_labels p labels in
  let buffer := (if addpath then addpath_bytes id else []) ++ [u8 (prefixlen p + Z.of_nat (length labels) * BGP_LABEL_BYTES * 8)]
                ++ concat (map (take 3) labels) ++ take (Z.to_nat (PSIZE (prefixlen p))) (val p) in
  stream_write junk s buffer (Z.of_nat (length buffer)).

Definition bgp_attr_stream_put_prefix_addpath (junk : nat -> Z) (s : stream) (p : prefix) (addpath : bool) (id : Z) : outcome (Z * stream) :=
  bgp_attr_stream_put_labeled_prefix junk s p [] addpath id.
