(* ===== verification/BgpAttrRead.v ===== *)
(** * Reading attributes and AS paths inside of a packet

    A calculus of postconditions for code that can abort, what the reads of a stream
    do within its bounds, and AS paths that come from a packet.

    [aspath_parse] stays inside of the attribute, and the paths it returns are [fine]:
    they have a known type, no empty segment and few AS numbers, which is what the code
    that works on them afterwards relies on.

    Every handler of an attribute returns, keeps the stream sane, does not move past the
    attribute when it asks for the routes to be withdrawn, and keeps [attr_ok], what the
    checks over all attributes rely on. *)
From stdpp Require Import base list.
From S2P Require Import Prelude Stream StreamFacts AsPath AsPathText AsPathOps AsPathWire AsPathTextFacts AsPathFacts AsPathJoin.
From S2P Require Import AsPathAggregate BgpAttrData BgpAttr.

(** ** Postconditions *)

(** The code returns, with a result that satisfies [Q]. *)
Definition returns {A} (Q : A -> Prop) (m : outcome A) : Prop := match m with Ret a => Q a | Abort => False end.

Lemma returns_bind {A B} (m : outcome A) (f : A -> outcome B) Q :
  returns (fun a => returns Q (f a)) m -> returns Q (m ≫= f).
Proof. by destruct m. Qed.

Lemma returns_mono {A} (m : outcome A) (P Q : A -> Prop) : (forall a, P a -> Q a) -> returns P m -> returns Q m.
Proof. intros H. destruct m; [apply H|done]. Qed.

Lemma returns_inv {A} (m : outcome A) Q : returns Q m -> exists a, m = Ret a /\ Q a.
Proof. destruct m as [a|]; [by exists a|done]. Qed.

(** ** Reads *)

Lemma set_getp_twice j k s : set_getp j (set_getp k s) = set_getp j s.
Proof. done. Qed.

Lemma readable_left s : sane s -> STREAM_READABLE s = endp s - getp s.
Proof. intros H. destruct H. apply u64_small. lia. Qed.

Lemma be_value_at s n : sane s -> 0 <= getp s -> getp s + Z.of_nat n <= endp s ->
  0 <= be_value (bytes_at (data s) (getp s) n) < 2 ^ (8 * Z.of_nat n).
Proof.
  intros [? ? ? Hl Hb] H0 Hn. pose proof (be_value_range (bytes_at (data s) (getp s) n) (bytes_at_bytes _ _ _ Hb)) as H.
  rewrite bytes_at_length in H by lia. done.
Qed.

Definition read_spec (n : nat) (s : stream) (m : outcome (Z * stream)) : Prop :=
  m = Ret (be_value (bytes_at (data s) (getp s) n), set_getp (getp s + Z.of_nat n) s).

Lemma getc_spec s : sane s -> getp s + 1 <= endp s -> read_spec 1 s (stream_getc s).
Proof.
  intros S H. unfold read_spec, stream_getc. rewrite sane_verify, readable_left, (proj2 (Z.ltb_ge _ _)) by (done || lia). cbn [negb].
  rewrite next_byte_be by apply S. by rewrite next_be_0 by (destruct S; lia || done).
Qed.

Lemma getw_spec s : sane s -> getp s + 2 <= endp s -> read_spec 2 s (stream_getw s).
Proof.
  intros S H. unfold read_spec, stream_getw. rewrite sane_verify, readable_left, (proj2 (Z.ltb_ge _ _)) by (done || lia). cbn [negb].
  by rewrite next_be_0 by (destruct S; lia || done).
Qed.

Lemma getl_spec s : sane s -> getp s + 4 <= endp s -> read_spec 4 s (stream_getl s).
Proof.
  intros S H. unfold read_spec, stream_getl. rewrite sane_verify, readable_left, (proj2 (Z.ltb_ge _ _)) by (done || lia). cbn [negb].
  by rewrite next_be_0 by (destruct S; lia || done).
Qed.

Lemma returns_read n s m (Q : Z * stream -> Prop) : read_spec n s m -> sane s -> getp s + Z.of_nat n <= endp s ->
  (forall v, 0 <= v < 2 ^ (8 * Z.of_nat n) -> Q (v, set_getp (getp s + Z.of_nat n) s)) -> returns Q m.
Proof. intros -> S H HQ. apply HQ. apply be_value_at; [done| |done]. destruct S; lia. Qed.

Lemma returns_getc s Q : sane s -> getp s + 1 <= endp s ->
  (forall v, 0 <= v < 256 -> Q (v, set_getp (getp s + 1) s)) -> returns Q (stream_getc s).
Proof. intros S H HQ. by apply (returns_read 1 s); [apply getc_spec|..]. Qed.

Lemma returns_getw s Q : sane s -> getp s + 2 <= endp s ->
  (forall v, 0 <= v < 65536 -> Q (v, set_getp (getp s + 2) s)) -> returns Q (stream_getw s).
Proof. intros S H HQ. by apply (returns_read 2 s); [apply getw_spec|..]. Qed.

Lemma returns_getl s Q : sane s -> getp s + 4 <= endp s ->
  (forall v, 0 <= v < 4294967296 -> Q (v, set_getp (getp s + 4) s)) -> returns Q (stream_getl s).
Proof. intros S H HQ. by apply (returns_read 4 s); [apply getl_spec|..]. Qed.

Lemma returns_getl2 s Q : sane s -> Q (None, s) ->
  (getp s + 4 <= endp s -> forall v, 0 <= v < 4294967296 -> Q (Some v, set_getp (getp s + 4) s)) -> returns Q (stream_getl2 s).
Proof.
  intros S H1 H2. unfold stream_getl2. rewrite sane_verify, readable_left by done. destruct (Z.ltb_spec (endp s - getp s) 4); [done|].
  rewrite next_be_0 by (destruct S; lia || done). apply H2; [lia|]. apply (be_value_at s 4); [done|destruct S; lia|lia].
Qed.

Lemma returns_get s n Q : sane s -> 0 <= n -> getp s + n <= endp s ->
  (forall l, Q (l, set_getp (getp s + n) s)) -> returns Q (stream_get s n).
Proof.
  intros S H0 H HQ. unfold stream_get. rewrite sane_verify, readable_left, (proj2 (Z.ltb_ge _ _)) by (done || lia). apply HQ.
Qed.

Lemma returns_get_ipv4 s Q : sane s -> getp s + 4 <= endp s ->
  (forall l, Q (l, set_getp (getp s + 4) s)) -> returns Q (stream_get_ipv4 s).
Proof.
  intros S H HQ. unfold stream_get_ipv4. rewrite sane_verify, readable_left, (proj2 (Z.ltb_ge _ _)) by (done || lia). apply HQ.
Qed.

Lemma returns_set_getp s k Q : sane s -> k <= endp s -> Q (set_getp k s) -> returns Q (stream_set_getp s k).
Proof. intros S H HQ. unfold stream_set_getp, GETP_VALID. rewrite sane_verify, (proj2 (Z.leb_le _ _)) by (done || lia). done. Qed.

Lemma returns_forward_getp s n Q : sane s -> 0 <= n -> getp s + n <= endp s ->
  Q (set_getp (getp s + n) s) -> returns Q (stream_forward_getp s n).
Proof.
  intros S H0 H HQ. unfold stream_forward_getp, GETP_VALID. rewrite u64_small by (destruct S; lia).
  by rewrite sane_verify, (proj2 (Z.leb_le _ _)) by (done || lia).
Qed.

Lemma returns_forward_getp2 s n Q : sane s -> 0 <= n -> getp s + n <= endp s ->
  Q (true, set_getp (getp s + n) s) -> returns Q (stream_forward_getp2 s n).
Proof.
  intros S H0 H HQ. unfold stream_forward_getp2, GETP_VALID. rewrite u64_small by (destruct S; lia).
  by rewrite sane_verify, (proj2 (Z.leb_le _ _)) by (done || lia).
Qed.

Lemma returns_rewind_getp s n Q : sane s -> 0 <= n <= getp s -> Q (set_getp (getp s - n) s) -> returns Q (stream_rewind_getp s n).
Proof.
  intros S H HQ. unfold stream_rewind_getp, GETP_VALID. rewrite sane_verify, (proj2 (Z.ltb_ge _ _)), (proj2 (Z.leb_le _ _)) by (done || destruct S; lia).
  done.
Qed.

Lemma returns_forward n p Q : sane (p_in p) -> 0 <= n -> getp (p_in p) + n <= endp (p_in p) ->
  Q (set_p_in (set_getp (getp (p_in p) + n) (p_in p)) p) -> returns Q (forward n p).
Proof. intros S H0 H HQ. apply returns_bind. by apply returns_forward_getp. Qed.

Lemma returns_peek s n Q : getp s + n <= endp s -> (forall l, Q l) -> returns Q (peek s n).
Proof. intros H HQ. unfold peek. rewrite (proj2 (Z.leb_le _ _)) by lia. apply HQ. Qed.

(** ** Segments *)

(** The segments of a packet of at most [n] bytes. *)
Record segs_fine (n : Z) (l : list assegment) : Prop := {
  sf_typed : Forall typed l;
  sf_nonempty : nonempty l;
  sf_small : 2 * assegment_count_asns l <= n
}.

Record fine (a : aspath) : Prop := {
  fn_count : count a = aspath_count_hops_internal (segments a);
  fn_segs : segs_fine 65535 (segments a)
}.

Lemma segs_fine_nil n : 0 <= n -> segs_fine n [].
Proof. intros H. by repeat constructor. Qed.

Lemma segs_fine_cons n k seg l : typed seg -> seg_as seg <> [] -> 2 * slen seg <= k ->
  segs_fine n l -> segs_fine (n + k) (seg :: l).
Proof.
  intros T N S [T' N' S']. split; [by constructor|by constructor|].
  cbn [assegment_count_asns fold_right]. change (fold_right _ 0 l) with (assegment_count_asns l). lia.
Qed.

Lemma normalise_set_nonempty seg : seg_as seg <> [] -> seg_as (normalise_set seg) <> [].
Proof. unfold normalise_set. case_bool; [|done]. simpl. by rewrite sort_uniq_nil. Qed.

Lemma normalise_from_fine n rest : forall pin, typed pin -> seg_as pin <> [] -> 2 * slen pin + 2 * assegment_count_asns rest <= n <= 131070 ->
  Forall typed rest -> nonempty rest -> segs_fine n (normalise_from pin rest).
Proof.
  revert n. induction rest as [|seg rest IH]; intros n pin Tp Np B T N; cbn [normalise_from].
  { split; [by constructor|by constructor|]. simpl in *. lia. }
  apply Forall_cons_1 in T as [T Ts]. apply Forall_cons_1 in N as [N Ns].
  cbn [assegment_count_asns fold_right] in B. change (fold_right _ 0 rest) with (assegment_count_asns rest) in B.
  pose proof (assegment_count_nonneg rest). unfold slen in *. case_bool.
  - rewrite append_asns_small by (unfold slen; lia). apply IH; try done; simpl; [|unfold slen; simpl; rewrite length_app; lia].
    by destruct (seg_as pin).
  - pose proof (normalise_set_length seg) as Hl. unfold slen in *.
    replace n with (n - 2 * Z.of_nat (length (seg_as pin)) + 2 * Z.of_nat (length (seg_as pin))) by lia.
    apply segs_fine_cons; [done|done|unfold slen; lia|]. apply IH; try done.
    + unfold typed in *. by rewrite normalise_set_type.
    + by apply normalise_set_nonempty.
    + unfold slen. lia.
Qed.

Lemma normalise_fine n l : n <= 131070 -> segs_fine n l -> segs_fine n (assegment_normalise l).
Proof.
  intros Hn [T N S]. destruct l as [|seg l]; [by split|]. apply Forall_cons_1 in T as [T Ts]. apply Forall_cons_1 in N as [N Ns].
  cbn [assegment_count_asns fold_right] in S. change (fold_right _ 0 l) with (assegment_count_asns l) in S.
  pose proof (normalise_set_length seg). apply normalise_from_fine; try done; [| |lia].
  - unfold typed in *. by rewrite normalise_set_type.
  - by apply normalise_set_nonempty.
Qed.

(** ** Parsing *)

Lemma sane_at s k : sane s -> 0 <= k <= endp s -> sane (set_getp k s).
Proof. intros [] Hk. by split. Qed.

Definition asn_size (u : bool) : Z := if u then 4 else 2.

Lemma returns_get_asns u n : forall s Q, sane s -> getp s + Z.of_nat n * asn_size u <= endp s ->
  (forall l, length l = n -> Q (l, set_getp (getp s + Z.of_nat n * asn_size u) s)) -> returns Q (get_asns u n s).
Proof.
  induction n as [|n IH]; intros s Q Sn B HQ; cbn [get_asns].
  { specialize (HQ [] eq_refl). rewrite Z.add_0_r in HQ. by destruct s. }
  assert (forall v, returns Q ('(l, s') ← get_asns u n (set_getp (getp s + asn_size u) s); Ret (v :: l, s'))) as H.
  { intros v. apply returns_bind. apply IH; [apply sane_at; [done|]| |].
    - destruct Sn, u; simpl asn_size in *; lia.
    - simpl. lia.
    - intros l Hl. simpl. specialize (HQ (v :: l)). simpl in HQ. rewrite Hl in HQ. specialize (HQ eq_refl).
      replace (getp s + asn_size u + Z.of_nat n * asn_size u) with (getp s + Z.of_nat (S n) * asn_size u) by lia. done. }
  apply returns_bind. destruct u; simpl asn_size in *.
  - apply returns_getl; [done|lia|]. intros v _. apply H.
  - apply returns_getw; [done|lia|]. intros v _. apply H.
Qed.

Lemma valid_typed t l : valid_type t = true -> typed (mkSeg t l).
Proof.
  unfold valid_type, typed. intros H. apply orb_true_iff in H as [H|H]; [apply orb_true_iff in H as [H|H]; [apply orb_true_iff in H as [H|H]|]|];
    apply Z.eqb_eq in H as ->; by eexists.
Qed.

(** The read position moves by at most [n], and by exactly [n] with a result. *)
Definition path_read {A} (n : Z) (s : stream) (good : A -> Prop) (r : option A * stream) : Prop :=
  exists k, snd r = set_getp k s /\ getp s <= k <= getp s + n /\ forall a, fst r = Some a -> k = getp s + n /\ good a.

Lemma path_read_none {A} n s k (good : A -> Prop) : getp s <= k <= getp s + n -> path_read n s good (None, set_getp k s).
Proof. intros H. by exists k. Qed.

Lemma set_getp_id s : set_getp (getp s) s = s.
Proof. by destruct s. Qed.

Lemma parse_loop_returns u fuel : forall s total bytes, sane s -> bytes <= total -> total - bytes <= endp s - getp s ->
  total - bytes <= Z.of_nat fuel ->
  returns (path_read (total - bytes) s (segs_fine (total - bytes))) (parse_loop fuel s total bytes u).
Proof.
  induction fuel as [|k IH]; intros s total bytes S H1 H2 H3; cbn [parse_loop];
    (destruct (Z.leb_spec total bytes);
      [exists (getp s); rewrite set_getp_id; split; [done|]; split; [lia|]; intros a [= <-]; split; [lia|]; by apply segs_fine_nil; lia|]); [lia|].
  pose proof S as [? ? ? ? ?].
  case_bool. { rewrite <- (set_getp_id s) at 2. apply path_read_none. lia. }
  apply returns_bind, returns_getc; [done|lia|]. intros t Ht. cbn beta iota.
  apply returns_bind, returns_getc; [apply sane_at; [done|lia]|simpl; lia|]. intros n Hn. cbn beta iota.
  rewrite set_getp_twice. cbn [getp set_getp endp].
  case_bool. { apply path_read_none. lia. }
  case_bool. { apply path_read_none. lia. }
  unfold ASSEGMENT_SIZE in *. change (if u then 4 else 2) with (asn_size u) in *.
  apply returns_bind, returns_get_asns; [apply sane_at; [done|lia]| |].
  { cbn [getp set_getp endp]. rewrite Z2Nat.id by lia. lia. }
  intros l Hl. cbn beta iota. rewrite set_getp_twice. cbn [getp set_getp endp]. rewrite Z2Nat.id by lia.
  assert (2 <= asn_size u) by (destruct u; simpl; lia).
  apply returns_bind. eapply returns_mono; [|apply IH]; [|apply sane_at; [done|nia]|lia|simpl; lia|nia].
  intros [o s'] (e & E & He & Hg). cbn [fst snd getp set_getp endp] in *. subst s'. rewrite set_getp_twice. exists e. cbn [fst snd].
  split; [done|]. split; [nia|]. intros a Ha. destruct o as [r|]; [|done]. destruct (Hg r eq_refl) as [-> F]. injection Ha as <-.
  split; [lia|]. replace (total - bytes) with (total - (bytes + (2 + n * asn_size u)) + (2 + n * asn_size u)) by lia.
  apply segs_fine_cons; [by apply valid_typed| | |done].
  - simpl. intros ->. simpl in Hl. lia.
  - unfold slen. simpl. nia.
Qed.

Lemma returns_aspath_parse s n u mode : sane s -> 0 <= n <= 65535 -> getp s + n <= endp s ->
  returns (path_read n s fine) (aspath_parse s n u mode).
Proof.
  intros S Hn B. unfold aspath_parse, assegments_parse.
  assert (forall A (good : A -> Prop), path_read n s good (None, s)) as Hnone.
  { intros A good. rewrite <- (set_getp_id s) at 2. apply path_read_none. lia. }
  assert (forall l, segs_fine n l -> exists a, aspath_str_update (mkAspath 0 l None 0 (aspath_count_hops_internal l) mode) = Ret a /\ fine a) as Hmk.
  { intros l [T N C]. unfold aspath_str_update. rewrite make_str_spec. eexists. split; [done|]. split; [done|]. split; [done|done|simpl; lia]. }
  case_bool; [apply Hnone|]. apply returns_bind. destruct (Z.eqb_spec n 0) as [->|Hn0].
  { destruct (Hmk [] ltac:(by apply segs_fine_nil)) as (a & Ea & F). cbn beta iota delta [returns]. rewrite Ea. simpl.
    exists (getp s). rewrite set_getp_id. split; [done|]. split; [lia|]. intros b [= <-]. split; [lia|done]. }
  case_bool; [apply Hnone|]. apply returns_bind.
  eapply returns_mono; [|apply (parse_loop_returns u (Z.to_nat n) s n 0)]; [|done|lia|lia|lia].
  rewrite Z.sub_0_r. intros [o s'] (k & E & Hk & Hg). simpl in E. subst s'. cbn [fst] in Hg. destruct o as [l|]; simpl.
  - destruct (Hg l eq_refl) as [-> F]. destruct (Hmk (assegment_normalise l)) as (a & Ea & F').
    { apply normalise_fine; [lia|done]. }
    simpl in Ea. rewrite Ea. simpl. exists (getp s + n). split; [done|]. split; [lia|]. intros b [= <-]. by split.
  - by exists k.
Qed.

(** ** Reconciliation *)

Lemma copy_hops_fine n l : forall k c, n <= 131070 -> segs_fine n l -> 
  exists out, copy_hops l k c = Ret out /\ segs_fine n out /\ (0 < k -> l <> [] -> out <> []).
Proof.
  revert n. induction l as [|seg r IH]; intros n k c Hn [T N S]; cbn [copy_hops].
  { exists []. by split_and!. }
  apply Forall_cons_1 in T as [T Ts]. apply Forall_cons_1 in N as [N Ns].
  cbn [assegment_count_asns fold_right] in S. change (fold_right _ 0 r) with (assegment_count_asns r) in S.
  pose proof (assegment_count_nonneg r) as H0. assert (1 <= slen seg) as L1 by (unfold slen; destruct (seg_as seg); [done|simpl; lia]).
  destruct (Z.leb_spec k 0) as [Hk|Hk].
  { exists []. split; [done|]. split; [apply segs_fine_nil; lia|lia]. }
  assert (forall k' c', 1 <= c' <= slen seg -> exists out, (assert! (c' <=? slen seg) ;; rest ← copy_hops r k' c';
     Ret (assegment_append_asns (mkSeg (seg_type seg) []) (take (Z.to_nat c') (seg_as seg)) :: rest)) = Ret out
     /\ segs_fine n out /\ (0 < k -> seg :: r <> [] -> out <> [])) as Hstep.
  { intros k' c' Hc. rewrite (proj2 (Z.leb_le _ _)) by lia. destruct (IH (n - 2 * slen seg) k' c') as (out & -> & F & _); [lia|by split; [..|lia]|].
    cbn [mbind outcome_bind]. eexists. split; [done|]. split; [|done].
    rewrite append_asns_small by (unfold slen in *; simpl; rewrite length_take; lia).
    replace n with (n - 2 * slen seg + 2 * slen seg) by lia. apply segs_fine_cons; [done| | |done].
    - cbn [seg_as app]. unfold slen in *. destruct (seg_as seg); [done|]. destruct (Z.to_nat c') eqn:Ez; [lia|done].
    - unfold slen in *. simpl. rewrite length_take. lia. }
  destruct (typed_cases seg T) as [E|[E|[E|E]]]; rewrite E in *; unfold is_set_type; cbn -[Z.min Z.sub copy_hops Z.ltb Z.leb];
    apply Hstep; repeat case_bool; lia.
Qed.

Lemma confeds_le a : nonempty (segments a) -> 0 <= aspath_count_confeds a <= assegment_count_asns (segments a).
Proof.
  unfold aspath_count_confeds. induction 1 as [|seg l H _ IH]; [done|]. simpl.
  assert (1 <= slen seg) by (unfold slen; destruct (seg_as seg); [done|simpl length; lia]).
  assert (0 <= confed_weight seg <= slen seg) by (unfold confed_weight; repeat case_bool; lia). lia.
Qed.

Lemma reconcile_fine a a4 : fine a -> fine a4 ->
  exists r, aspath_reconcile_as4 a a4 = Ret r /\ nonempty (segments r).
Proof.
  intros [C F] [C4 F4]. unfold aspath_reconcile_as4, aspath_count_hops.
  assert (segments (aspath_dup a4) = segments a4) as Ed by (unfold aspath_dup; by destruct (str a4)).
  pose proof (count_le _ (sf_nonempty _ _ F)) as B. pose proof (count_le _ (sf_nonempty _ _ F4)) as B4.
  pose proof (confeds_le _ (sf_nonempty _ _ F)) as Bc. pose proof (sf_small _ _ F). pose proof (sf_small _ _ F4).
  rewrite <- C in B. rewrite <- C4 in B4. rewrite u32_small, !s32_small by lia. set (k := if _ <? 0 then _ else _).
  destruct (Z.eqb_spec k 0) as [E0|E0].
  { unfold aspath_str_update. rewrite make_str_spec. eexists. split; [done|]. cbn [segments set_str]. rewrite Ed. apply F4. }
  destruct (copy_hops_fine 65535 (segments a) k 0) as (out & -> & Fo & Ne); [lia|done|]. cbn [mbind outcome_bind].
  assert (0 < k) as Hk by (unfold k in *; case_bool; lia).
  destruct out as [|o out'] eqn:Eo.
  { exfalso. apply Ne; [done| |done]. intros E. rewrite E in *. simpl in *. unfold k in *. case_bool; lia. }
  rewrite <- Eo in *. unfold aspath_merge. rewrite refresh_spec. cbn [mbind outcome_bind]. rewrite refresh_spec.
  eexists. split; [done|]. cbn [segments refreshed set_segments]. rewrite Ed.
  apply (normalise_fine 131070); [lia|]. destruct Fo as [T N S], F4 as [T4 N4 S4].
  split; [by apply Forall_app_2|by apply Forall_app_2|]. rewrite <- !asns_length, asns_app, length_app in *. lia.
Qed.

Lemma firstas_returns a asno : nonempty (segments a) -> exists b, aspath_firstas_check a asno = Ret b.
Proof.
  intros H. unfold aspath_firstas_check. destruct (segments a) as [|seg l]; [by eexists|]. apply Forall_cons_1 in H as [H _].
  case_bool; [|by eexists]. unfold as0. destruct (seg_as seg); [done|]. by eexists.
Qed.

(** ** What the attributes promise *)

(** A part of the packet. *)
Definition nlri_inside (s : stream) (n : bgp_nlri) : Prop :=
  forall pos, nl_nlri n = Some pos -> 0 <= pos /\ 0 <= nl_length n /\ pos + nl_length n <= endp s.

(** No NOTIFICATION was sent, and the multiprotocol prefixes are in the packet. *)
Record calm (p : parser) : Prop := {
  cm_notify : p_notify p = [];
  cm_update : nlri_inside (p_in p) (p_mp_update p);
  cm_withdraw : nlri_inside (p_in p) (p_mp_withdraw p)
}.

Record attr_ok (p : parser) : Prop := {
  ao_calm : calm p;
  ao_origin : bgp_attr_exists (p_attr p) BGP_ATTR_ORIGIN = true -> 0 <= a_origin (p_attr p) <= 2;
  ao_aspath : bgp_attr_exists (p_attr p) BGP_ATTR_AS_PATH = true -> exists a, a_aspath (p_attr p) = Some a /\ fine a;
  ao_as4_path : bgp_attr_exists (p_attr p) BGP_ATTR_AS4_PATH = true -> exists a, p_as4_path p = Some a /\ fine a;
  ao_reach : nl_nlri (p_mp_update p) <> None -> bgp_attr_exists (p_attr p) BGP_ATTR_MP_REACH_NLRI = true
}.

(** The part of the state that [attr_ok] depends on. *)
Definition attr_core (x : attr) : bool * bool * bool * bool * Z * option aspath :=
  (bgp_attr_exists x BGP_ATTR_ORIGIN, bgp_attr_exists x BGP_ATTR_AS_PATH, bgp_attr_exists x BGP_ATTR_AS4_PATH,
   bgp_attr_exists x BGP_ATTR_MP_REACH_NLRI, a_origin x, a_aspath x).
Definition calm_core (p : parser) := (p_notify p, p_mp_update p, p_mp_withdraw p, endp (p_in p)).
Definition core (p : parser) := (attr_core (p_attr p), p_as4_path p, calm_core p).

Lemma calm_same p q : calm_core p = calm_core q -> calm q -> calm p.
Proof. intros [= E1 E2 E3 E4] [H1 H2 H3]. split; unfold nlri_inside in *; rewrite ?E1, ?E2, ?E3, ?E4; done. Qed.

Lemma attr_ok_core p q : core p = core q -> attr_ok q -> attr_ok p.
Proof.
  intros E [H0 H1 H2 H3 H4]. injection E as E1 E2 E3 E4 E5 E6 E7 E8 E9 E10 E11.
  split; [apply (calm_same _ q); [unfold calm_core; congruence|done]|..]; rewrite ?E1, ?E2, ?E3, ?E4, ?E5, ?E6, ?E7, ?E9; done.
Qed.

Lemma attr_ok_update p n : attr_ok p -> nlri_inside (p_in p) n ->
  (nl_nlri n <> None -> bgp_attr_exists (p_attr p) BGP_ATTR_MP_REACH_NLRI = true) -> attr_ok (set_p_mp_update n p).
Proof. intros [[C1 C2 C3] H1 H2 H3 H4] Hn Hr. by split. Qed.

Lemma attr_ok_withdraw p n : attr_ok p -> nlri_inside (p_in p) n -> attr_ok (set_p_mp_withdraw n p).
Proof. intros [[C1 C2 C3] H1 H2 H3 H4] Hn. by split. Qed.

Lemma exists_set t u x : 1 <= t -> 1 <= u -> bgp_attr_exists (bgp_attr_set t x) u = bgp_attr_exists x u || (t =? u).
Proof.
  intros Ht Hu. unfold bgp_attr_exists, bgp_attr_set, ATTR_FLAG_BIT. simpl. rewrite Z.lor_spec, Z.shiftl_1_l, Z.pow2_bits_eqb by lia.
  f_equal. apply Bool.eq_iff_eq_true. rewrite !Z.eqb_eq. lia.
Qed.

Lemma exists_unset t u x : 1 <= t -> 1 <= u -> bgp_attr_exists (bgp_attr_unset t x) u = bgp_attr_exists x u && negb (t =? u).
Proof.
  intros Ht Hu. unfold bgp_attr_exists, bgp_attr_unset, ATTR_FLAG_BIT. simpl. rewrite Z.ldiff_spec, Z.shiftl_1_l, Z.pow2_bits_eqb by lia.
  do 2 f_equal. apply Bool.eq_iff_eq_true. rewrite !Z.eqb_eq. lia.
Qed.

(** The flags of other attributes. *)
Definition other (t : Z) : bool :=
  (1 <=? t) && negb ((t =? BGP_ATTR_ORIGIN) || (t =? BGP_ATTR_AS_PATH) || (t =? BGP_ATTR_AS4_PATH) || (t =? BGP_ATTR_MP_REACH_NLRI)).

Lemma core_set t x : other t = true -> attr_core (bgp_attr_set t x) = attr_core x.
Proof.
  unfold other. intros H. apply andb_true_iff in H as [H1 H2]. bool_to_prop. unfold attr_core. rewrite !exists_set by (done || lia).
  rewrite !(proj2 (Z.eqb_neq _ _)) by lia. by rewrite !orb_false_r.
Qed.

Lemma core_unset t x : other t = true -> attr_core (bgp_attr_unset t x) = attr_core x.
Proof.
  unfold other. intros H. apply andb_true_iff in H as [H1 H2]. bool_to_prop. unfold attr_core. rewrite !exists_unset by (done || lia).
  rewrite !(proj2 (Z.eqb_neq _ _)) by lia. by rewrite !andb_true_r.
Qed.

Lemma core_present {A} t (o : option A) x : other t = true -> attr_core (present t o x) = attr_core x.
Proof. intros H. destruct o; [by apply core_set|by apply core_unset]. Qed.

Lemma core_present_list {A} t (o : option (list A)) x : other t = true -> attr_core (present_list t o x) = attr_core x.
Proof. intros H. destruct o as [[|]|]; [by apply core_unset|by apply core_set|by apply core_unset]. Qed.

Ltac same_core :=
  unfold core, bgp_attr_set_community, bgp_attr_set_lcommunity, bgp_attr_set_ecommunity, bgp_attr_set_ipv6_ecommunity, bgp_attr_set_cluster,
    bgp_attr_set_nhc, bgp_attr_set_med, bgp_attr_set_aigp_metric;
  cbn [p_attr p_as4_path upd_attr set_p_attr set_p_in set_p_as4_aggregator set_p_as4_aggregator_addr set_p_mp_update set_p_mp_withdraw
         set_p_discards notify set_p_notify];
  repeat first [rewrite core_set by done | rewrite core_present by done | rewrite core_present_list by done
    | match goal with |- context [attr_core (?f ?v ?x)] => change (attr_core (f v x)) with (attr_core x) end];
  reflexivity.

(** ** Handlers *)

(** The bytes from [k] on are the same. *)
Definition same_from (k : Z) (s s' : stream) : Prop := drop (Z.to_nat k) (data s) = drop (Z.to_nat k) (data s').

(** What a handler leaves behind; [e] is the end of the attribute. *)
Definition after (e : Z) (p0 : parser) (r : parse_ret * parser) : Prop :=
  let '(ret, p) := r in
  sane (p_in p) /\ endp (p_in p) = endp (p_in p0) /\ same_from e (p_in p) (p_in p0)
  /\ match ret with
     | BGP_ATTR_PARSE_PROCEED | BGP_ATTR_PARSE_MISSING_MANDATORY => attr_ok p
     | BGP_ATTR_PARSE_WITHDRAW | BGP_ATTR_PARSE_WITHDRAW_IGNORE => getp (p_in p) <= e /\ calm p
     | BGP_ATTR_PARSE_ERROR | BGP_ATTR_PARSE_ERROR_NOTIFYPLS => True
     end.

(** The state when a handler starts. *)
Record at_attribute (g : parser_args) (p : parser) : Prop := {
  at_sane : sane (p_in p);
  at_length : 0 <= g_length g <= 65535;
  at_inside : getp (p_in p) + g_length g <= endp (p_in p);
  at_start : 0 <= g_startp g < getp (p_in p);
  at_total : g_startp g + g_total g = getp (p_in p) + g_length g;
  at_ok : attr_ok p
}.

Definition attr_end (g : parser_args) (p : parser) : Z := getp (p_in p) + g_length g.

Lemma readable_at s k : sane s -> 0 <= k <= endp s -> STREAM_READABLE (set_getp k s) = endp s - k.
Proof. intros H1 H2. by rewrite readable_left by (by apply sane_at). Qed.

Section Handlers.
  Context (pe : peer) (g : parser_args) (p0 : parser).
  Context (Hat : at_attribute g p0).

Lemma after_ret ret p : sane (p_in p) -> endp (p_in p) = endp (p_in p0) -> same_from (attr_end g p0) (p_in p) (p_in p0) ->
  match ret with
  | BGP_ATTR_PARSE_PROCEED | BGP_ATTR_PARSE_MISSING_MANDATORY => attr_ok p
  | BGP_ATTR_PARSE_WITHDRAW | BGP_ATTR_PARSE_WITHDRAW_IGNORE => getp (p_in p) <= attr_end g p0 /\ calm p
  | BGP_ATTR_PARSE_ERROR | BGP_ATTR_PARSE_ERROR_NOTIFYPLS => True
  end -> returns (after (attr_end g p0) p0) (Ret (ret, p)).
Proof. intros H1 H2 H3 H4. by split. Qed.

Lemma after_malformed c n p : sane (p_in p) -> endp (p_in p) = endp (p_in p0) -> same_from (attr_end g p0) (p_in p) (p_in p0) ->
  calm p -> (inconsequential (g_type g) = true -> attr_ok p) -> returns (after (attr_end g p0) p0) (bgp_attr_malformed g c n p).
Proof.
  intros S E D C O. destruct Hat as [S0 L0 I0 T0 E0 O0]. unfold bgp_attr_malformed. case_bool; [by split|].
  assert (0 <= g_startp g + g_total g <= endp (p_in p)) as B by (destruct S0; lia).
  apply returns_bind, returns_set_getp; [done|lia|]. assert (sane (set_getp (g_startp g + g_total g) (p_in p))) by by apply sane_at.
  assert (calm (set_p_in (set_getp (g_startp g + g_total g) (p_in p)) p)) by by apply (calm_same _ p).
  repeat case_bool; apply after_ret; simpl; try done; unfold attr_end; try (split; [lia|done]).
  apply (attr_ok_core _ p); [done|auto].
Qed.

Lemma after_ignore t p : sane (p_in p) -> endp (p_in p) = endp (p_in p0) -> same_from (attr_end g p0) (p_in p) (p_in p0) -> getp (p_in p) <= attr_end g p0 -> attr_ok p ->
  returns (after (attr_end g p0) p0) (bgp_attr_ignore pe t p).
Proof.
  intros S E D L O. unfold bgp_attr_ignore. case_bool; apply after_ret; try done; [split; [done|apply O]|by apply (attr_ok_core _ p)].
Qed.

Lemma after_skip p : sane (p_in p) -> endp (p_in p) = endp (p_in p0) -> same_from (attr_end g p0) (p_in p) (p_in p0) -> getp (p_in p) = getp (p_in p0) -> attr_ok p ->
  returns (after (attr_end g p0) p0) (skip_ignored pe g (g_length g) p).
Proof.
  intros S E D G O. destruct Hat as [S0 L0 I0 T0 E0 O0]. apply returns_bind, returns_forward; [done|lia|lia|].
  apply after_ignore; simpl; [|done|done|unfold attr_end; lia|by apply (attr_ok_core _ p)].
  apply sane_at; [done|]. destruct S0. lia.
Qed.
End Handlers.

(** One step of a handler.  All positions are relative to the stream [s] at its start. *)
Ltac positions :=
  cbn beta iota; cbn [p_in upd_attr set_p_attr set_p_in set_p_as4_path set_p_as4_aggregator set_p_as4_aggregator_addr set_p_mp_update
       set_p_mp_withdraw set_p_discards notify set_p_notify p_attr p_as4_path getp endp set_getp];
  rewrite ?set_getp_twice;
  repeat first [rewrite readable_at by first [done|lia] | rewrite readable_left by done | rewrite u16_small by lia].
Ltac inside := solve [done | assumption | cbn [getp endp set_getp]; lia | apply sane_at; [done|lia]].
Ltac head_if :=
  match goal with |- returns _ (if ?b then _ else _) => destruct b eqn:?; bool_to_prop end.
Ltac quiet := match goal with H : attr_ok _ |- _ => eapply calm_same; [|exact (ao_calm _ H)]; reflexivity end.
Ltac keeps := solve [done | intros; (eapply attr_ok_core; [|eassumption]); same_core].
Ltac wp_step :=
  lazymatch goal with
  | |- returns _ (_ ≫= _) => apply returns_bind
  | |- returns _ (stream_getc _) => apply returns_getc; [inside|inside|intros ? ?]
  | |- returns _ (stream_getw _) => apply returns_getw; [inside|inside|intros ? ?]
  | |- returns _ (stream_getl _) => apply returns_getl; [inside|inside|intros ? ?]
  | |- returns _ (stream_get _ _) => apply returns_get; [inside|inside|inside|intros ?]
  | |- returns _ (stream_get_ipv4 _) => apply returns_get_ipv4; [inside|inside|intros ?]
  | |- returns _ (forward _ _) => apply returns_forward; cbn [p_in upd_attr set_p_attr set_p_in set_p_mp_update set_p_mp_withdraw]; [inside|inside|inside|]
  | |- returns _ (peek _ _) => apply returns_peek; [inside|intros ?]
  | |- returns _ (bgp_attr_malformed _ _ _ _) => apply after_malformed; [assumption|inside|inside|inside|quiet|keeps]
  | |- returns _ (skip_ignored _ _ _ _) => apply after_skip; [assumption|inside|inside|inside|inside|keeps]
  | |- returns _ (bgp_attr_ignore _ _ _) => apply after_ignore; [inside|inside|inside|unfold attr_end; cbn [p_in set_p_in upd_attr set_p_attr getp set_getp]; lia|keeps]
  | |- returns _ (proceed _) => apply after_ret; [inside|inside|inside|keeps]
  | |- returns _ (Ret (_, _)) => apply after_ret; [inside|inside|inside|first [exact I | keeps | unfold attr_end; cbn [p_in set_p_in upd_attr set_p_attr getp set_getp]; split; [lia|quiet]]]
  | |- returns _ (Ret _) => cbn [returns]
  | |- returns _ (if _ then _ else _) => head_if
  | |- returns _ (match ?o with Some _ => _ | None => _ end) => destruct o eqn:?
  | |- returns _ (let '(_, _) := ?o in _) => destruct o
  end; positions.
Ltac wp := repeat wp_step.

Ltac start H :=
  pose proof H as [Sn [Ln0 Ln1] In St Tot Ok]; pose proof (sn_getp _ Sn) as [G0 G1].

Definition safe (pe : peer) (g : parser_args) (p : parser) (h : peer -> parser_args -> parser -> handled) : Prop :=
  returns (after (attr_end g p) p) (h pe g p).

Section Each.
  Context (pe : peer) (g : parser_args) (p0 : parser).
  Context (Hat : at_attribute g p0).

Lemma nexthop_safe : safe pe g p0 bgp_attr_nexthop.
Proof. start Hat. unfold safe, bgp_attr_nexthop. wp. Qed.

Lemma med_safe : safe pe g p0 bgp_attr_med.
Proof. start Hat. unfold safe, bgp_attr_med. wp. Qed.

Lemma local_pref_safe : safe pe g p0 bgp_attr_local_pref.
Proof.
  start Hat. unfold safe, bgp_attr_local_pref. wp.
  - apply returns_forward_getp2; [inside|inside|inside|]. positions. wp.
  - apply returns_getl2; [inside|positions; wp|]. intros H v Hv. positions. wp.
Qed.

Lemma atomic_safe : safe pe g p0 bgp_attr_atomic.
Proof. start Hat. unfold safe, bgp_attr_atomic. wp. Qed.

Lemma aggregator_safe : (pe_cap_as4_rcv pe = true -> pe_cap_as4_adv pe = true) -> safe pe g p0 bgp_attr_aggregator.
Proof.
  intros Hcap. start Hat. unfold safe, bgp_attr_aggregator, as4_session. rewrite (Bool.andb_comm (pe_cap_as4_rcv pe)).
  destruct (pe_cap_as4_rcv pe); [rewrite Hcap by done|rewrite Bool.andb_false_r]; cbn [andb]; wp; case_bool; positions; wp.
Qed.

Lemma as4_aggregator_safe : safe pe g p0 bgp_attr_as4_aggregator.
Proof. start Hat. unfold safe, bgp_attr_as4_aggregator. wp. case_bool; positions; wp. Qed.

Lemma community_safe : safe pe g p0 bgp_attr_community.
Proof. start Hat. unfold safe, bgp_attr_community. wp. Qed.

Lemma large_community_safe : safe pe g p0 bgp_attr_large_community.
Proof. start Hat. unfold safe, bgp_attr_large_community. wp. Qed.

Lemma ext_communities_safe : safe pe g p0 bgp_attr_ext_communities.
Proof. start Hat. unfold safe, bgp_attr_ext_communities. wp. Qed.

Lemma ipv6_ext_communities_safe : safe pe g p0 bgp_attr_ipv6_ext_communities.
Proof. start Hat. unfold safe, bgp_attr_ipv6_ext_communities. wp. Qed.

Lemma originator_id_safe : safe pe g p0 bgp_attr_originator_id.
Proof. start Hat. unfold safe, bgp_attr_originator_id. wp. Qed.

Lemma cluster_list_safe : safe pe g p0 bgp_attr_cluster_list.
Proof. start Hat. unfold safe, bgp_attr_cluster_list. wp. Qed.

(** The three attributes that [attr_ok] is about. *)

Lemma origin_safe : g_type g = BGP_ATTR_ORIGIN -> safe pe g p0 bgp_attr_origin.
Proof.
  intros Ht. start Hat. unfold safe, bgp_attr_origin. wp_step; [wp|]. wp_step. wp_step. wp_step.
  - apply after_malformed; [done|inside|inside|inside|quiet|by rewrite Ht].
  - apply after_ret; [inside|inside|inside|]. destruct Ok as [C _ O2 O3 O4]. split; [by apply (calm_same _ p0)|..].
    + intros _. cbn. unfold BGP_ORIGIN_IGP, BGP_ORIGIN_EGP, BGP_ORIGIN_INCOMPLETE in *. cbn. bool_to_prop. lia.
    + cbn [p_attr upd_attr set_p_attr]. by rewrite exists_set, orb_false_r.
    + cbn [p_attr upd_attr set_p_attr]. by rewrite exists_set, orb_false_r.
    + cbn [p_attr upd_attr set_p_attr]. by rewrite exists_set, orb_false_r.
Qed.

Lemma aspath_safe : g_type g = BGP_ATTR_AS_PATH -> safe pe g p0 bgp_attr_aspath.
Proof.
  intros Ht. start Hat. unfold safe, bgp_attr_aspath. wp_step.
  eapply returns_mono; [|by apply returns_aspath_parse]. intros [o s] (k & E & Hk & Hg). cbn [fst snd] in *. subst s.
  assert (forall p, p_in p = set_getp k (p_in p0) -> calm_core p = calm_core p0 -> returns (after (attr_end g p0) p0) (bgp_attr_malformed g BGP_NOTIFY_UPDATE_MAL_AS_PATH 0 p)) as M.
  { intros p Hp Hc. apply after_malformed; rewrite ?Hp; [done|inside|inside|inside|by apply (calm_same _ p0), Ok|by rewrite Ht]. }
  positions. destruct o as [a|]; [|by apply M]. destruct (Hg a eq_refl) as [-> F]. case_bool; [by apply M|].
  apply after_ret; [inside|inside|inside|]. destruct Ok as [C O1 _ O3 O4].
  split; [by apply (calm_same _ p0)|..]; cbn [p_attr upd_attr set_p_attr]; rewrite exists_set by done; rewrite ?orb_false_r; [done| |done|done].
  intros _. by exists a.
Qed.

Lemma as4_path_safe : g_type g = BGP_ATTR_AS4_PATH -> safe pe g p0 bgp_attr_as4_path.
Proof.
  intros Ht. start Hat. unfold safe, bgp_attr_as4_path. wp_step.
  eapply returns_mono; [|by apply returns_aspath_parse]. intros [o s] (k & E & Hk & Hg). cbn [fst snd] in *. subst s.
  assert (forall p, p_in p = set_getp k (p_in p0) -> calm_core p = calm_core p0 -> returns (after (attr_end g p0) p0) (bgp_attr_malformed g BGP_NOTIFY_UPDATE_MAL_AS_PATH 0 p)) as M.
  { intros p Hp Hc. apply after_malformed; rewrite ?Hp; [done|inside|inside|inside|by apply (calm_same _ p0), Ok|by rewrite Ht]. }
  positions. destruct o as [a|]; [|by apply M]. destruct (Hg a eq_refl) as [-> F]. case_bool; [by apply M|].
  apply after_ret; [inside|inside|inside|]. destruct Ok as [C O1 O2 _ O4].
  split; [by apply (calm_same _ p0)|..]; cbn [p_attr upd_attr set_p_attr]; rewrite exists_set by done; rewrite ?orb_false_r; [done|done| |done].
  intros _. by exists a.
Qed.

Lemma pmsi_tunnel_safe : safe pe g p0 bgp_attr_pmsi_tunnel.
Proof. start Hat. unfold safe, bgp_attr_pmsi_tunnel. wp.
Qed.

Lemma aigp_safe : safe pe g p0 bgp_attr_aigp.
Proof. start Hat. unfold safe, bgp_attr_aigp. wp. Qed.

Lemma linkstate_safe : safe pe g p0 bgp_attr_linkstate.
Proof. start Hat. unfold safe, bgp_attr_linkstate. wp. Qed.

Lemma otc_safe : safe pe g p0 bgp_attr_otc.
Proof. start Hat. unfold safe, bgp_attr_otc. wp. Qed.

Lemma mp_unreach_safe : safe pe g p0 bgp_mp_unreach_parse.
Proof.
  start Hat. unfold safe, bgp_mp_unreach_parse. wp. apply after_ret; [inside..|].
  eapply attr_ok_core; [|apply (attr_ok_withdraw p0 (mkNlri z z0 (Some (getp (p_in p0) + 2 + 1)) (g_length g - 3))); [done|]]; [same_core|].
  intros pos [= <-]. cbn [nl_length]. lia.
Qed.

Lemma unknown_safe : safe pe g p0 bgp_attr_unknown.
Proof.
  start Hat. unfold safe, bgp_attr_unknown. wp.
  set (s := write_bytes _ _ _). set (k := getp (p_in p0) + g_length g) in s.
  assert (sane s) as S.
  { apply write_bytes_sane; [apply sane_at; [done|unfold k; lia]|lia|pose proof (sn_endp _ Sn); simpl; lia|].
    constructor; [|constructor]. apply (lor_bound 8); [lia|apply byte_at_range, Sn|]. cbv. by split. }
  apply after_ret; [exact S|done| |keeps].
  unfold same_from, s. cbn [data p_in set_p_in write_bytes set_data memcpy_at set_getp]. apply drop_insert_lt. unfold attr_end. lia.
Qed.

(** *** MP_REACH_NLRI *)

Lemma returns_skip_rd s Q : sane s -> getp s + 8 <= endp s -> Q (set_getp (getp s + 8) s) -> returns Q (skip_rd s).
Proof.
  intros S H HQ. pose proof (sn_getp _ S). unfold skip_rd. apply returns_bind, returns_getl; [done|lia|]. intros v Hv. cbn beta iota.
  apply returns_bind, returns_getl; [apply sane_at; [done|lia]|simpl; lia|]. intros w Hw. cbn beta iota.
  cbn [getp set_getp]. rewrite set_getp_twice. by replace (getp s + 4 + 4) with (getp s + 8) by lia.
Qed.

(** What [mp_nexthop] leaves behind: the position moves by at most [n]. *)
Definition after_nexthop (k n : Z) (r : option parse_ret * parser) : Prop :=
  let '(o, p) := r in
  exists j, p_in p = set_getp j (p_in p0) /\ k <= j <= k + n /\ attr_ok p
  /\ match o with
     | None | Some BGP_ATTR_PARSE_WITHDRAW | Some BGP_ATTR_PARSE_ERROR_NOTIFYPLS => True
     | _ => False
     end.

Lemma core_interface a x y : nexthop_interface pe a x = Some y -> attr_core y = attr_core x.
Proof. unfold nexthop_interface. repeat case_match; intros [= <-]; done. Qed.

Lemma returns_optional_rd (b : bool) s Q : sane s -> getp s + (if b then 8 else 0) <= endp s ->
  Q (set_getp (getp s + (if b then 8 else 0)) s) -> returns Q (if b then skip_rd s else Ret s).
Proof. destruct b; [apply returns_skip_rd|]. intros S H HQ. rewrite Z.add_0_r, set_getp_id in HQ. done. Qed.

Lemma mp_nexthop_safe safi n k p : p_in p = set_getp k (p_in p0) -> 0 <= k -> 0 <= n -> k + n <= endp (p_in p0) -> attr_ok p ->
  returns (after_nexthop k n) (mp_nexthop pe safi n p).
Proof.
  intros Ep Hk Hn Hb Okp. start Hat.
  assert (forall o q j, p_in q = set_getp j (p_in p0) -> k <= j <= k + n -> attr_core (p_attr q) = attr_core (p_attr p) ->
     (p_as4_path q, p_notify q, p_mp_update q, p_mp_withdraw q) = (p_as4_path p, p_notify p, p_mp_update p, p_mp_withdraw p) ->
     match o with None | Some BGP_ATTR_PARSE_WITHDRAW | Some BGP_ATTR_PARSE_ERROR_NOTIFYPLS => True | _ => False end ->
     returns (after_nexthop k n) (Ret (o, q))) as Hret.
  { intros o q j E1 E2 E3 E4 E5. exists j. split; [done|]. split; [done|]. split; [|done]. apply (attr_ok_core _ p); [|done].
    unfold core, calm_core. rewrite E1, E3, Ep. by injection E4 as -> -> -> ->. }
  unfold mp_nexthop. rewrite Ep. case_bool; [apply (Hret _ _ k); [done|lia|done|done|by case_bool]|].
  case_bool; [|case_bool; [|case_bool; [|by apply (Hret _ _ k); [|lia|..]]]].
  - apply returns_bind, returns_optional_rd; [inside|cbn; case_bool; lia|]. cbn [getp set_getp]. rewrite set_getp_twice.
    apply returns_bind, returns_get; [apply sane_at; [done|case_bool; lia]|lia|cbn; case_bool; lia|]. intros l. positions.
    eapply Hret; [done|case_bool; lia| |done|done]. cbn [p_attr set_p_in upd_attr set_p_attr]. by case_match.
  - apply returns_bind, returns_optional_rd; [inside|cbn; case_bool; lia|]. cbn [getp set_getp]. rewrite set_getp_twice.
    apply returns_bind, returns_get; [apply sane_at; [done|case_bool; lia]|lia|cbn; case_bool; lia|]. intros l. positions.
    destruct (nexthop_interface pe l _) as [x|] eqn:E; (eapply Hret; [done|case_bool; lia| |done|done]); [|done].
    by apply core_interface in E.
  - apply returns_bind, returns_optional_rd; [inside|cbn; case_bool; lia|]. cbn [getp set_getp]. rewrite set_getp_twice.
    apply returns_bind, returns_get; [apply sane_at; [done|case_bool; lia]|lia|cbn; case_bool; lia|]. intros l. positions.
    destruct (nexthop_interface pe l _) as [x|] eqn:E; [|eapply Hret; [done|case_bool; lia|done|done|done]].
    apply core_interface in E. cbn [p_attr set_p_in upd_attr set_p_attr p_as4_path] in E.
    apply returns_bind, returns_optional_rd; [apply sane_at; [done|case_bool; lia]|cbn; case_bool; lia|]. cbn [getp set_getp]. rewrite set_getp_twice.
    apply returns_bind, returns_get; [apply sane_at; [done|case_bool; lia]|lia|cbn; case_bool; lia|]. intros l'. positions.
    assert (attr_core (if negb (is_linklocal l') then set_a_mp_nexthop_len 16 (set_a_mp_nexthop_local l' x) else set_a_mp_nexthop_local l' x)
      = attr_core (p_attr p)) as Ec by (case_match; exact E).
    destruct (pe_ifp pe) as [[i up]|]; (eapply Hret; [done|case_bool; lia|exact Ec|done|done]).
Qed.

(** The prefixes of MP_REACH_NLRI, before and after its flag is set. *)
Lemma reach_update_ok p n k f {j} : p_in p = set_getp j (p_in p0) -> attr_ok p -> nlri_inside (p_in p0) n ->
  (nl_nlri n <> None -> bgp_attr_exists (f (p_attr p)) BGP_ATTR_MP_REACH_NLRI = true) -> f = id \/ f = bgp_attr_set BGP_ATTR_MP_REACH_NLRI ->
  attr_ok (upd_attr f (set_p_mp_update n (set_p_in (set_getp k (p_in p0)) p))).
Proof.
  intros Ep [[C1 C2 C3] O1 O2 O3 O4] Hn Hr Hf.
  assert (nlri_inside (p_in p0) (p_mp_withdraw p)) as C3' by (unfold nlri_inside in *; by rewrite Ep in C3).
  destruct Hf as [-> | ->]; split; try done; cbn; by rewrite exists_set, orb_false_r.
Qed.

Lemma mp_reach_safe : safe pe g p0 bgp_mp_reach_parse.
Proof.
  start Hat. unfold safe, bgp_mp_reach_parse. wp.
  - eapply returns_mono; [|eapply (mp_nexthop_safe _ _ (getp (p_in p0) + 2 + 1 + 1)); [done|lia|lia|lia|]].
    { intros [o p] (j & Ep & Hj & Okp & Ho). clear Ok.
      assert (nlri_inside (p_in p0) (mkNlri z z0 (nl_nlri (p_mp_update p)) (nl_length (p_mp_update p)))) as Hold.
      { pose proof (cm_update _ (ao_calm _ Okp)) as Hu. unfold nlri_inside in *. by rewrite Ep in Hu. }
      destruct o as [ret|]; [destruct ret; try done; apply after_ret; rewrite ?Ep; cbn [getp endp set_getp]; try done; first [inside|split; [unfold attr_end; lia|apply Okp]]|].
      rewrite Ep. positions. wp_step; [apply after_ret; rewrite ?Ep; [inside|done|done|done]|]. wp.
      - apply after_malformed; [done|inside|done|done|..]; [apply (ao_calm _ (reach_update_ok p _ (j + 1) id Ep Okp Hold (ao_reach _ Okp) (or_introl eq_refl)))|intros _].
        apply (reach_update_ok p _ (j + 1) id Ep Okp Hold (ao_reach _ Okp)). by left.
      - apply after_ret; [inside|done|done|]. eapply attr_ok_core;
          [|apply (reach_update_ok p (mkNlri z z0 (Some (j + 1)) (g_length g - (j + 1 - getp (p_in p0)))) 0 (bgp_attr_set BGP_ATTR_MP_REACH_NLRI) Ep Okp)]; [done|..].
        + intros pos [= <-]. cbn [nl_length]. lia.
        + intros _. by rewrite exists_set, orb_true_r.
        + by right. }
    by apply (attr_ok_core _ p0).
Qed.

(** *** Tunnel encapsulation *)

(** A loop over the rest of the packet. *)
Definition within {A} (s : stream) (r : A * stream) : Prop := exists j, snd r = set_getp j s /\ getp s <= j <= endp s.

Lemma within_at {A} s k (r : A * stream) : getp s <= k <= endp s -> within (set_getp k s) r -> within s r.
Proof. intros Hk (j & E & Hj). exists j. rewrite E. split; [done|]. simpl in Hj. lia. Qed.

Lemma within_here {A} s (a : A) : sane s -> within s (a, s).
Proof. intros S. exists (getp s). rewrite set_getp_id. split; [done|]. destruct S. lia. Qed.

Lemma encap_loop_within fuel : forall n s acc, sane s -> endp s - getp s <= Z.of_nat fuel -> returns (within s) (encap_loop fuel n s acc).
Proof.
  induction fuel as [|k IH]; intros n s acc S F; pose proof (sn_getp _ S) as [B0 B1]; cbn [encap_loop]; rewrite readable_left by done;
    (case_bool; [by apply within_here|]); [lia|].
  apply returns_bind, returns_getc; [done|lia|]. intros t Ht. cbn beta iota. apply returns_bind.
  assert (forall w v m, 1 <= w <= 2 -> 0 <= v -> returns (within s)
    (if m <? v then Ret (acc, None, set_getp (getp s + 1 + w) s)
     else if STREAM_READABLE (set_getp (getp s + 1 + w) s) <? v then Ret (acc, None, set_getp (getp s + 1 + w) s)
     else '(x, s') ← stream_get (set_getp (getp s + 1 + w) s) v; encap_loop k (u16 (m - v)) s' (acc ++ [(t, x)]))) as H.
  { intros w v m Hw Hv. assert (sane (set_getp (getp s + 1 + w) s)) as S' by (apply sane_at; [done|lia]).
    assert (within s (acc, @None Z, set_getp (getp s + 1 + w) s)) as Hstop by (exists (getp s + 1 + w); split; [done|lia]).
    case_bool; [exact Hstop|]. rewrite readable_at by (done || lia). case_bool; [exact Hstop|].
    apply returns_bind, returns_get; [done|lia|cbn; lia|]. intros l. cbn beta iota. cbn [getp set_getp]. rewrite set_getp_twice.
    eapply returns_mono; [intros r; apply within_at|]; [|apply IH; [apply sane_at; [done|]|]]; cbn [getp set_getp endp]; lia. }
  destruct (t <? 128).
  - apply returns_getc; [inside|inside|]. intros v Hv. cbn beta iota. cbn [getp set_getp]. rewrite set_getp_twice. apply (H 1); lia.
  - apply returns_getw; [inside|inside|]. intros v Hv. cbn beta iota. cbn [getp set_getp]. rewrite set_getp_twice. apply (H 2); lia.
Qed.

Lemma encap_safe : safe pe g p0 bgp_attr_encap.
Proof.
  start Hat. unfold safe, bgp_attr_encap. wp.
  eapply returns_mono; [|apply encap_loop_within; [apply sane_at; [done|lia]|cbn; lia]].
  intros [[acc o] s] (j & E & Hj). cbn [snd getp set_getp endp] in *. subst s. rewrite set_getp_twice. wp.
Qed.

(** *** Prefix SID *)

Lemma returns_tlv_header s Q : sane s -> getp s + 3 <= endp s ->
  (forall t n, 0 <= n < 65536 -> Q (t, n, set_getp (getp s + 3) s)) -> returns Q (tlv_header s).
Proof.
  intros S H HQ. pose proof (sn_getp _ S). unfold tlv_header. apply returns_bind, returns_getc; [done|lia|]. intros v Hv. cbn beta iota.
  apply returns_bind, returns_getw; [apply sane_at; [done|lia]|simpl; lia|]. intros w Hw. cbn beta iota.
  cbn [getp set_getp]. rewrite set_getp_twice. replace (getp s + 1 + 2) with (getp s + 3) by lia. by apply HQ.
Qed.

Lemma returns_skip_srgbs n : forall s Q, sane s -> getp s + Z.of_nat n * 6 <= endp s ->
  Q (set_getp (getp s + Z.of_nat n * 6) s) -> returns Q (skip_srgbs n s).
Proof.
  induction n as [|n IH]; intros s Q Sn B HQ; cbn [skip_srgbs]; pose proof (sn_getp _ Sn) as [G0 G1].
  { rewrite Z.add_0_r, set_getp_id in HQ. done. }
  apply returns_bind, returns_get; [done|lia|lia|]. intros l. positions.
  apply returns_bind, returns_get; [inside|lia|inside|]. intros l'. positions.
  apply IH; [inside|cbn; lia|]. cbn [getp set_getp]. rewrite set_getp_twice.
  by replace (getp s + 3 + 3 + Z.of_nat n * 6) with (getp s + Z.of_nat (S n) * 6) by lia.
Qed.

(** The parser somewhere in the packet. *)
Record along (p : parser) : Prop := {
  al_sane : sane (p_in p);
  al_endp : endp (p_in p) = endp (p_in p0);
  al_same : same_from (attr_end g p0) (p_in p) (p_in p0);
  al_ok : attr_ok p
}.


Ltac move_on H := pose proof H as [Sp Ep Dp Okp]; pose proof (sn_getp _ Sp) as [Gp0 Gp1].
Ltac header := apply returns_bind, returns_tlv_header; [inside|inside|intros ? ? ?]; positions.

Lemma srv6_service_data_safe p : along p -> is_Some (a_srv6_l3service (p_attr p)) ->
  returns (after (attr_end g p0) p0) (bgp_attr_srv6_service_data pe g p).
Proof.
  intros H [sv Hsv]. move_on H. unfold bgp_attr_srv6_service_data, srv6_of. positions. wp_step; [wp|]. header. rewrite Hsv. wp.
Qed.

Lemma srv6_service_safe p : along p -> returns (after (attr_end g p0) p0) (bgp_attr_srv6_service pe g p).
Proof.
  intros H. move_on H. unfold bgp_attr_srv6_service. positions. wp_step; [wp|]. header. wp.
  apply srv6_service_data_safe; [|by eexists]. split; [inside|done|done|keeps].
Qed.

Lemma psid_sub_safe t n p : along p -> 0 <= n -> returns (after (attr_end g p0) p0) (bgp_attr_psid_sub pe t n g p).
Proof.
  intros H Hn. move_on H. unfold bgp_attr_psid_sub. positions. wp.
  - apply returns_skip_srgbs; [inside| |].
    + rewrite Z2Nat.id by (apply Z.div_pos; lia). pose proof (Z.mul_div_le (n - 2) 6). cbn. lia.
    + rewrite Z2Nat.id by (apply Z.div_pos; lia). pose proof (Z.mul_div_le (n - 2) 6).
      assert (0 <= (n - 2) / 6) by (apply Z.div_pos; lia). positions. wp.
  - apply srv6_service_safe. split; [inside|done|done|keeps].
Qed.

Lemma psid_loop_safe fuel : forall parsed p, along p -> g_length g - parsed <= Z.of_nat fuel ->
  returns (after (attr_end g p0) p0) (psid_loop fuel pe g parsed p).
Proof.
  induction fuel as [|k IH]; intros parsed p H F; move_on H; cbn [psid_loop]; positions;
    (destruct (0 <? _) eqn:E1, (parsed <? g_length g) eqn:E2; cbn [negb andb]; bool_to_prop; try (by wp)); [lia|].
  wp_step; [wp|]. header. wp_step; [wp|].
  apply returns_bind. eapply returns_mono; [|apply psid_sub_safe; [split; [inside|done|done|keeps]|lia]].
  intros [ret q] (Sq & Eq & Dq & Hq). 
  destruct (decide (ret = BGP_ATTR_PARSE_PROCEED)) as [->|Hr].
  - rewrite bool_decide_eq_true_2 by done. cbn [negb]. case_bool; [apply after_malformed; try done; apply Hq|]. apply IH; [by split|lia].
  - rewrite bool_decide_eq_false_2 by done. cbn [negb]. by split.
Qed.

Lemma prefix_sid_safe : safe pe g p0 bgp_attr_prefix_sid.
Proof.
  start Hat. unfold safe, bgp_attr_prefix_sid. wp. apply psid_loop_safe; [by split|lia].
Qed.

(** *** Next hop characteristics *)

Lemma nhc_loop_within fuel : forall n s nhc, sane s -> endp s - getp s <= Z.of_nat fuel -> returns (within s) (nhc_loop fuel n s nhc).
Proof.
  induction fuel as [|k IH]; intros n s nhc S F; pose proof (sn_getp _ S) as [B0 B1]; cbn [nhc_loop]; rewrite readable_left by done;
    (case_bool; [by apply within_here|]); [lia|].
  assert (forall x : option bgp_nhc, forall j, getp s <= j <= endp s -> within s (x, set_getp j s)) as Hstop by (intros x j Hj; by exists j).
  apply returns_bind, returns_getw; [done|lia|]. intros c Hc. positions.
  apply returns_bind, returns_getw; [inside|inside|]. intros v Hv. positions.
  head_if; [apply Hstop; lia|]. head_if; [apply Hstop; lia|].
  apply returns_bind, returns_get; [inside|inside|inside|]. intros l. positions.
  head_if; [apply Hstop; lia|].
  eapply returns_mono; [intros r; apply within_at|]; [|apply IH; [apply sane_at; [done|]|]]; cbn [getp set_getp endp]; lia.
Qed.

(** The next hop has the length of an IPv4 or IPv6 address that fits; otherwise the
    code frees what it has not got. *)
Definition nhc_nexthop_ok (p : parser) : Prop :=
  let n := be_value (bytes_at (data (p_in p)) (getp (p_in p) + 3) 1) in n = 4 \/ n = 16 /\ 24 <= g_length g.

Lemma nhc_safe : ignored pe g = true \/ nhc_nexthop_ok p0 \/ g_length g < 12 -> safe pe g p0 bgp_attr_nhc.
Proof.
  intros Hn. start Hat. unfold safe, bgp_attr_nhc. do 2 (wp_step; [wp|]). do 5 wp_step; [|wp].
  destruct Hn as [?|[Hn|?]]; [congruence| |lia]. unfold nhc_nexthop_ok in Hn. cbn zeta in Hn.
  wp_step. apply returns_bind. rewrite getc_spec by inside. cbn [returns]. cbn [getp set_getp data]. change (Z.of_nat 1) with 1.
  replace (getp (p_in p0) + 2 + 1) with (getp (p_in p0) + 3) by lia.
  set (n := be_value _) in *. clearbody n. positions.
  wp; [lia|lia|].
  eapply returns_mono; [|apply nhc_loop_within; [apply sane_at; [done|lia]|cbn; lia]].
  intros [o s] (j & E & Hj). cbn [snd getp set_getp endp] in *. subst s. rewrite set_getp_twice. wp.
Qed.
End Each.
