(* ===== verification/BgpUpdateFacts.v ===== *)
(** * Updates are parsed safely and only sound routes are accepted

    [attr_loop] returns whatever the bytes are, but for one known exception: a next hop
    characteristics attribute whose next hop has the wrong length makes the code read
    through a null pointer.

    But for that exception, and on sessions where not only the peer has the 4-byte AS
    capability ([aggregator_overrun]), [bgp_attr_parse] and [bgp_update_receive] return
    for any bytes, stay inside of the packet and keep the attributes of an accepted route
    sound.

    At the end: packets that bgpd does not handle as it means to, parsed by evaluation. *)
From stdpp Require Import base list.
From S2P Require Import Prelude Stream StreamFacts AsPath AsPathOps AsPathTextFacts AsPathFacts AsPathAggregate BgpAttrData BgpAttr.
From S2P Require Import BgpUpdate BgpAttrRead.

(** ** The exception *)

(** The bytes at [q] are the header of such an attribute. *)
Definition bad_nhc (d : list Z) (q : Z) : bool :=
  let field k n := be_value (bytes_at d (q + k) n) in
  let lfl := if has (Z.land 240 (field 0 1%nat)) BGP_ATTR_FLAG_EXTLEN then 2%nat else 1%nat in
  let len := field 2 lfl in
  let nh := field (5 + Z.of_nat lfl) 1%nat in
  (field 1 1%nat =? BGP_ATTR_NHC) && (12 <=? len) && negb ((nh =? 4) || (nh =? 16) && (24 <=? len)).

Definition nhc_fine (pe : peer) (s : stream) : Prop :=
  pe_discard pe BGP_ATTR_NHC || pe_withdraw pe BGP_ATTR_NHC = true
  \/ forall q, getp s <= q < endp s -> bad_nhc (data s) q = false.

Lemma bytes_at_same k s s' q n : same_from k s s' -> 0 <= k <= q -> bytes_at (data s) q n = bytes_at (data s') q n.
Proof.
  intros H Hk. unfold bytes_at. f_equal.
  replace (Z.to_nat q) with (Z.to_nat k + Z.to_nat (q - k))%nat by lia. by rewrite <- !drop_drop, H.
Qed.

Lemma bad_nhc_same k s s' q : same_from k s s' -> 0 <= k <= q -> bad_nhc (data s) q = bad_nhc (data s') q.
Proof. intros H Hk. unfold bad_nhc. by rewrite !(bytes_at_same k s s') by (done || lia). Qed.

Lemma nhc_fine_on pe s s' : nhc_fine pe s -> 0 <= getp s <= getp s' -> endp s' = endp s -> same_from (getp s') s' s -> nhc_fine pe s'.
Proof.
  intros [H|H] Hg He Hs; [by left|right]. intros q Hq. rewrite (bad_nhc_same (getp s') s' s) by (done || lia). apply H. lia.
Qed.

(** ** One attribute *)

Section Walk.
  Context (pe : peer).
  Context (Hcap : pe_cap_as4_rcv pe = true -> pe_cap_as4_adv pe = true).

Lemma parse_attribute_safe g p : at_attribute g p ->
  (g_type g = BGP_ATTR_NHC -> ignored pe g = true \/ nhc_nexthop_ok g p \/ g_length g < 12) ->
  returns (after (attr_end g p) p) (parse_attribute pe g p).
Proof.
  intros Hat Hnhc. unfold parse_attribute.
  destruct (Z.eqb_spec (g_type g) BGP_ATTR_ORIGIN); [by apply origin_safe|].
  destruct (Z.eqb_spec (g_type g) BGP_ATTR_AS_PATH); [by apply aspath_safe|].
  destruct (Z.eqb_spec (g_type g) BGP_ATTR_AS4_PATH); [by apply as4_path_safe|].
  destruct (g_type g =? BGP_ATTR_NEXT_HOP); [by apply nexthop_safe|].
  destruct (g_type g =? BGP_ATTR_MULTI_EXIT_DISC); [by apply med_safe|].
  destruct (g_type g =? BGP_ATTR_LOCAL_PREF); [by apply local_pref_safe|].
  destruct (g_type g =? BGP_ATTR_ATOMIC_AGGREGATE); [by apply atomic_safe|].
  destruct (g_type g =? BGP_ATTR_AGGREGATOR); [by apply aggregator_safe|].
  destruct (g_type g =? BGP_ATTR_AS4_AGGREGATOR); [by apply as4_aggregator_safe|].
  destruct (g_type g =? BGP_ATTR_COMMUNITIES); [by apply community_safe|].
  destruct (g_type g =? BGP_ATTR_LARGE_COMMUNITIES); [by apply large_community_safe|].
  destruct (g_type g =? BGP_ATTR_ORIGINATOR_ID); [by apply originator_id_safe|].
  destruct (g_type g =? BGP_ATTR_CLUSTER_LIST); [by apply cluster_list_safe|].
  destruct (g_type g =? BGP_ATTR_MP_REACH_NLRI); [by apply mp_reach_safe|].
  destruct (g_type g =? BGP_ATTR_MP_UNREACH_NLRI); [by apply mp_unreach_safe|].
  destruct (g_type g =? BGP_ATTR_EXT_COMMUNITIES); [by apply ext_communities_safe|].
  destruct (g_type g =? BGP_ATTR_ENCAP); [by apply encap_safe|].
  destruct (g_type g =? BGP_ATTR_PREFIX_SID); [by apply prefix_sid_safe|].
  destruct (g_type g =? BGP_ATTR_PMSI_TUNNEL); [by apply pmsi_tunnel_safe|].
  destruct (g_type g =? BGP_ATTR_IPV6_EXT_COMMUNITIES); [by apply ipv6_ext_communities_safe|].
  destruct (g_type g =? BGP_ATTR_OTC); [by apply otc_safe|].
  destruct (g_type g =? BGP_ATTR_AIGP); [by apply aigp_safe|].
  destruct (Z.eqb_spec (g_type g) BGP_ATTR_NHC); [apply nhc_safe; auto|].
  destruct (g_type g =? BGP_ATTR_LINK_STATE); [by apply linkstate_safe|].
  by apply unknown_safe.
Qed.

Lemma malformed_position g c n p : sane (p_in p) -> g_startp g + g_total g <= endp (p_in p) ->
  returns (fun r => getp (p_in (snd r)) = g_startp g + g_total g /\ (fst r = BGP_ATTR_PARSE_PROCEED \/ fst r = BGP_ATTR_PARSE_WITHDRAW)
                    \/ fst r = BGP_ATTR_PARSE_ERROR /\ p_in (snd r) = p_in p)
    (bgp_attr_malformed g c n p).
Proof.
  intros S He. unfold bgp_attr_malformed. case_bool; [by right|]. apply returns_bind, returns_set_getp; [done|lia|].
  repeat case_bool; left; (split; [done|]); first [by left|by right].
Qed.

Lemma returns_and {A} (m : outcome A) (P Q : A -> Prop) : returns P m -> returns Q m -> returns (fun a => P a /\ Q a) m.
Proof. by destruct m. Qed.

(** ** The loop *)

(** The state at the start of an attribute; [e] is the end of all of them. *)
Record walking (e : Z) (p : parser) : Prop := {
  wk_sane : sane (p_in p);
  wk_inside : getp (p_in p) <= e <= endp (p_in p);
  wk_size : e - getp (p_in p) <= 65535;
  wk_packet : endp (p_in p) <= pe_max_packet_size pe;
  wk_ok : attr_ok p;
  wk_nhc : nhc_fine pe (p_in p)
}.

Definition walked (e : Z) (p0 : parser) (r : option parse_ret * Z * parser) : Prop :=
  let '(o, _, p) := r in
  sane (p_in p) /\ endp (p_in p) = endp (p_in p0)
  /\ match o with
     | None => getp (p_in p) = e /\ attr_ok p
     | Some BGP_ATTR_PARSE_ERROR => True
     | Some (BGP_ATTR_PARSE_WITHDRAW | BGP_ATTR_PARSE_WITHDRAW_IGNORE) => e - 2 <= getp (p_in p) <= e /\ calm p
     | Some _ => False
     end.

Lemma walking_on e p p' : walking e p -> sane (p_in p') -> endp (p_in p') = endp (p_in p) -> getp (p_in p) <= getp (p_in p') <= e ->
  same_from (getp (p_in p')) (p_in p') (p_in p) -> attr_ok p' -> walking e p'.
Proof.
  intros [S I Z1 P O N] S' E G D O'. pose proof (sn_getp _ S). split; [done|lia|lia|lia|done|]. by apply (nhc_fine_on _ (p_in p)); try lia.
Qed.

Lemma too_long_returns e startp lfl len p : sane (p_in p) -> endp (p_in p) <= pe_max_packet_size pe ->
  0 <= startp -> 1 <= lfl <= 2 -> getp (p_in p) = startp + 2 + lfl -> getp (p_in p) <= e <= endp (p_in p) -> 0 <= len -> calm p ->
  returns (fun r => walked e p (Some (fst r), 0, snd r)) (too_long pe startp e lfl len p).
Proof.
  intros S P H0 Hl G E Hlen C. pose proof (sn_getp _ S). unfold too_long. case_bool.
  - apply returns_bind, returns_rewind_getp; [done|lia|]. positions.
    apply returns_bind, returns_get; [apply sane_at; [done|lia]|lia|cbn; lia|]. intros t. positions.
    apply returns_bind, returns_get; [apply sane_at; [done|lia]|lia|cbn; lia|]. intros l. positions.
    set (ndl := Z.min _ _). assert (0 <= ndl <= endp (p_in p) - getp (p_in p)) as Hn by (unfold ndl; lia).
    rewrite (proj2 (Z.leb_le _ _)) by lia.
    apply returns_bind, returns_get; [apply sane_at; [done|lia]|lia|cbn; lia|]. intros v. positions.
    split; [apply sane_at; [done|lia]|done].
  - apply returns_bind, returns_forward; [done|lia|lia|]. cbn. split; [apply sane_at; [done|lia]|]. split; [done|].
    split; [lia|by apply (calm_same _ p)].
Qed.

Lemma short_header_returns e p q : sane (p_in p) -> endp (p_in p) = endp (p_in q) -> e - 2 <= getp (p_in p) <= e -> calm p ->
  returns (fun r => walked e q (Some (fst r), 0, snd r)) (short_header pe p).
Proof. intros S E G C. unfold short_header. by case_bool. Qed.

Lemma walked_from e p q r : endp (p_in q) = endp (p_in p) -> walked e q r -> walked e p r.
Proof. intros E. destruct r as [[o n] p']. unfold walked. by rewrite E. Qed.

(** The handler of one attribute and what the loop does with its result. *)
Lemma handled_walks e p0 p ae n (h : handled) (next : parser -> outcome (option parse_ret * Z * parser)) :
  walking e p0 -> getp (p_in p0) <= ae <= e -> endp (p_in p) = endp (p_in p0) -> same_from ae (p_in p) (p_in p0) ->
  returns (after ae p) h ->
  (forall q, walking e q -> getp (p_in q) = ae -> endp (p_in q) = endp (p_in p0) -> returns (walked e p0) (next q)) ->
  returns (walked e p0)
    ('(ret, q) ← h;
     match ret with
     | BGP_ATTR_PARSE_ERROR_NOTIFYPLS => Ret (Some BGP_ATTR_PARSE_ERROR, n, notify BGP_NOTIFY_UPDATE_MAL_ATTR [] q)
     | BGP_ATTR_PARSE_ERROR => Ret (Some BGP_ATTR_PARSE_ERROR, n, q)
     | BGP_ATTR_PARSE_WITHDRAW | BGP_ATTR_PARSE_WITHDRAW_IGNORE =>
         q ← forward (e - getp (p_in q)) q;
         Ret (Some ret, n, q)
     | BGP_ATTR_PARSE_PROCEED | BGP_ATTR_PARSE_MISSING_MANDATORY =>
         if negb (getp (p_in q) =? ae)
         then Ret (Some BGP_ATTR_PARSE_ERROR, n, notify BGP_NOTIFY_UPDATE_ATTR_LENG_ERR [] q)
         else next q
     end).
Proof.
  intros W Hae Ee Es Hh Hnext. pose proof (sn_getp _ (wk_sane _ _ W)). pose proof (wk_inside _ _ W).
  apply returns_bind. eapply returns_mono; [|exact Hh]. intros [ret q] (S & E & D & H').
  assert (endp (p_in q) = endp (p_in p0)) as E' by lia.
  assert (getp (p_in q) = ae -> attr_ok q -> returns (walked e p0) (next q)) as Hgo.
  { intros Hg Hq. apply Hnext; try done. apply (walking_on e p0); try done; [lia|]. rewrite Hg. unfold same_from in *. congruence. }
  destruct ret; cbn [returns]; try (by split); try (case_bool; [by split|by apply Hgo]).
  all: destruct H' as [H1 C]; pose proof (sn_getp _ S); apply returns_bind, returns_forward; [done|lia|lia|]; cbn.
  all: split; [apply sane_at; [done|lia]|]; split; [done|]; split; [lia|by apply (calm_same _ q)].
Qed.

(** The same for an attribute with the wrong flags. *)
Lemma malformed_walks e p0 p g c n m (next : parser -> outcome (option parse_ret * Z * parser)) :
  walking e p0 -> at_attribute g p -> getp (p_in p0) <= getp (p_in p) -> attr_end g p <= e ->
  endp (p_in p) = endp (p_in p0) -> same_from (attr_end g p) (p_in p) (p_in p0) ->
  (forall q, walking e q -> getp (p_in q) = attr_end g p -> endp (p_in q) = endp (p_in p0) -> returns (walked e p0) (next q)) ->
  returns (walked e p0)
    ('(ret, q) ← bgp_attr_malformed g c m p;
     if bool_decide (ret = BGP_ATTR_PARSE_PROCEED) then next q
     else q ← forward (e - getp (p_in q)) q; Ret (Some ret, n, q)).
Proof.
  intros W Hat Hg He Ee Es Hnext. pose proof Hat as [Sn [Ln0 Ln1] In St Tot Ok]. pose proof (wk_inside _ _ W). unfold attr_end in *.
  apply returns_bind. eapply returns_mono; [|apply returns_and;
    [apply (after_malformed g p Hat); [done|done|done|apply Ok|done]|apply malformed_position; [done|lia]]].
  intros [ret q] [(S & E & D & H') Hp]. cbn [fst snd] in Hp. rewrite Tot in Hp. cbn beta iota.
  assert (getp (p_in p) <= getp (p_in q) <= e) as Hq by (destruct Hp as [[-> _]|[_ ->]]; lia).
  assert (calm q -> returns (fun q => sane (p_in q) /\ endp (p_in q) = endp (p_in p0) /\ getp (p_in q) = e /\ calm q) (forward (e - getp (p_in q)) q)) as Hfwd.
  { intros C. pose proof (sn_getp _ S). apply returns_forward; [done|lia|lia|]. cbn.
    split; [apply sane_at; [done|lia]|]. split; [lia|]. split; [lia|by apply (calm_same _ q)]. }
  destruct Hp as [[Hp [-> | ->]]|[-> Hp]].
  - rewrite bool_decide_eq_true_2 by done. apply Hnext; [|done|lia].
    apply (walking_on e p0); [done|done|lia|lia| |done]. rewrite Hp. unfold same_from, attr_end in *. congruence.
  - rewrite bool_decide_eq_false_2 by done. apply returns_bind. eapply returns_mono; [|apply Hfwd, H'].
    intros r (S' & E' & G' & C'). split; [done|]. split; [done|]. split; [lia|done].
  - rewrite bool_decide_eq_false_2 by done. pose proof (sn_getp _ S).
    apply returns_bind, returns_forward; [done|lia|lia|]. split; [apply sane_at; [done|lia]|]. split; [cbn; lia|done].
Qed.

(** The length field of a header, of one byte or two. *)
Lemma length_field s (ext : bool) : let lfl := if ext then 2%nat else 1%nat in sane s -> getp s + Z.of_nat lfl <= endp s ->
  let len := be_value (bytes_at (data s) (getp s) lfl) in
  (if ext then stream_getw s else stream_getc s) = Ret (len, set_getp (getp s + Z.of_nat lfl) s) /\ 0 <= len < 65536.
Proof.
  intros lfl S Hfit len. assert (0 <= len < 2 ^ (8 * Z.of_nat lfl)) as H by (apply be_value_at; [done|apply S|done]).
  split; [|unfold lfl in H; destruct ext; simpl in H; lia].
  unfold len, lfl in *. destruct ext; [by rewrite getw_spec|by rewrite getc_spec].
Qed.

(** What the header at the read position says about next hop characteristics. *)
Lemma nhc_fine_here g p q : nhc_fine pe (p_in p) -> getp (p_in p) < endp (p_in p) ->
  (let d := data (p_in p) in
   let lfl := if has (Z.land 240 (be_value (bytes_at d (getp (p_in p)) 1))) BGP_ATTR_FLAG_EXTLEN then 2%nat else 1%nat in
   g_type g = be_value (bytes_at d (getp (p_in p) + 1) 1) /\ g_length g = be_value (bytes_at d (getp (p_in p) + 2) lfl)
   /\ p_in q = set_getp (getp (p_in p) + 2 + Z.of_nat lfl) (p_in p)) ->
  g_type g = BGP_ATTR_NHC -> ignored pe g = true \/ nhc_nexthop_ok g q \/ g_length g < 12.
Proof.
  cbn zeta. intros [H|H] Hp (Et & El & Eq) Ht; [left; unfold ignored; by rewrite Ht|right].
  specialize (H (getp (p_in p))). unfold bad_nhc in H. rewrite Z.add_0_r, <- Et, <- El, Ht, Z.eqb_refl in H.
  unfold nhc_nexthop_ok. rewrite Eq. cbn [data getp set_getp]. set (lfl := if has _ _ then _ else _) in *.
  replace (getp (p_in p) + 2 + Z.of_nat lfl + 3) with (getp (p_in p) + (5 + Z.of_nat lfl)) by lia.
  set (nh := be_value _) in *. clearbody nh. specialize (H ltac:(lia)).
  destruct (Z.leb_spec 12 (g_length g)); [left|right; lia]. cbn [andb] in H. bool_to_prop. lia.
Qed.

Lemma attr_loop_returns fuel : forall e seen n p, walking e p -> e - getp (p_in p) <= Z.of_nat fuel ->
  returns (walked e p) (attr_loop fuel pe e seen n p).
Proof.
  induction fuel as [|k IH]; intros e seen n p W F; pose proof W as [Sn Ii Zz Pk Ok Nh]; pose proof (sn_getp _ Sn) as [G0 G1]; cbn [attr_loop];
    (case_bool; [by split_and!; [..|lia|]|]); [lia|].
  unfold BGP_ATTR_MIN_LEN. assert (forall h, returns (fun r => walked e p (Some (fst r), 0, snd r)) h -> 
    returns (walked e p) ('(ret, p) ← (h : handled); Ret (Some ret, n, p))) as Done.
  { intros h Hh. apply returns_bind. eapply returns_mono; [|exact Hh]. by intros [ret q]. }
  case_bool. { apply Done, short_header_returns; [done|done|lia|apply Ok]. }
  rewrite (getc_spec (p_in p)) by (done || lia). cbn [mbind outcome_bind]. change (Z.of_nat 1) with 1.
  rewrite getc_spec by first [apply sane_at; [done|lia]|cbn; lia]. cbn [mbind outcome_bind]. cbn [getp data set_getp]. change (Z.of_nat 1) with 1.
  rewrite set_getp_twice. set (flag := Z.land 240 _). set (type := be_value (bytes_at _ (_ + 1) 1)). set (ext := has flag _).
  replace (getp (p_in p) + 1 + 1) with (getp (p_in p) + 2) by lia.
  case_bool. { apply Done, short_header_returns; cbn; [apply sane_at; [done|lia]|done|lia|by apply (calm_same _ p), Ok]. }
  set (lfl := if ext then 2%nat else 1%nat).
  assert (3 + Z.of_nat lfl - 1 <= e - getp (p_in p)) as Hfit by (unfold lfl; destruct ext; bool_to_prop; lia).
  destruct (length_field (set_getp (getp (p_in p) + 2) (p_in p)) ext) as [-> Hlen]; [apply sane_at; [done|lia]|cbn; fold lfl; lia|].
  cbn [getp data set_getp] in *. rewrite set_getp_twice. fold lfl in Hlen |- *. set (len := be_value (bytes_at _ (_ + 2) lfl)) in *.
  replace (if ext then 2 else 1) with (Z.of_nat lfl) by (unfold lfl; by destruct ext).
  assert (1 <= Z.of_nat lfl <= 2) as Hlfl by (unfold lfl; destruct ext; lia).
  cbn [mbind outcome_bind getp set_getp]. set (q := set_p_in _ p).
  assert (sane (p_in q)) as Sq by (apply sane_at; [done|lia]).
  case_bool.
  { apply Done. change (walked e p) with (walked e q). apply too_long_returns; try done; cbn; try lia. by apply (calm_same _ p), Ok. }
  set (ae := getp (p_in p) + 2 + Z.of_nat lfl + len) in *.
  assert (forall j, getp (p_in p) <= j <= e -> walking e (set_p_in (set_getp j (p_in p)) p)) as Walk.
  { intros j Hj. apply (walking_on e p); cbn; try done; [apply sane_at; [done|lia]|by apply (attr_ok_core _ p)]. }
  case_bool.
  { case_bool; [by split|]. apply returns_bind, returns_set_getp; [done|cbn; lia|]. cbn. rewrite set_getp_twice.
    apply (IH e seen len (set_p_in (set_getp ae (p_in p)) p)); [apply Walk|cbn]; lia. }
  set (g := mkArgs len _ type flag (getp (p_in p))).
  assert (at_attribute g q) as Hat.
  { split; cbn; [done|lia|lia|lia| |by apply (attr_ok_core _ p)]. rewrite u16_small by lia. lia. }
  assert (attr_end g q = ae) as Eae by done.
  assert (forall r, walking e r -> getp (p_in r) = ae -> endp (p_in r) = endp (p_in p) ->
    returns (walked e p) (attr_loop k pe e (type :: seen) len r)) as Next.
  { intros r Wr Gr Er. eapply returns_mono; [intros x; by apply (walked_from e p r)|]. apply IH; [done|lia]. }
  case_bool; [apply (malformed_walks e p q g); try done; cbn; lia|].
  eapply (handled_walks e p q ae); try done; [lia|]. rewrite <- Eae. apply parse_attribute_safe; [done|].
  apply (nhc_fine_here g p q); [done|lia|done].
Qed.
End Walk.

(** ** Accepted routes *)

Definition path_checked (pe : peer) (a : aspath) : Prop :=
  (pe_sort_now pe = BGP_PEER_EBGP ->
     aspath_confed_check a = false /\ aspath_check_as_zero a = false
     /\ (pe_enforce_first_as pe = true -> aspath_firstas_check a (pe_as pe) = Ret true))
  /\ (pe_sort_now pe = BGP_PEER_CONFED -> aspath_left_confed_check a = true).

(** The path that is kept, with the local AS of the session in front. *)
Definition path_stored (pe : peer) (a kept : aspath) : Prop :=
  if negb (pe_change_local_as pe =? 0) && negb (pe_local_as_no_prepend pe)
  then aspath_add_seq (aspath_dup a) (pe_change_local_as pe) = Ret kept else kept = a.

Record accepted (pe : peer) (x : attr) : Prop := {
  ac_origin : bgp_attr_exists x BGP_ATTR_ORIGIN = true /\ 0 <= a_origin x <= 2;
  ac_nexthop : bgp_attr_exists x BGP_ATTR_MP_REACH_NLRI = true
    \/ bgp_attr_exists x BGP_ATTR_NEXT_HOP = true /\ ipv4_martian pe (a_nexthop x) && negb (pe_allow_martian pe) = false;
  ac_local_pref : pe_sort pe = BGP_PEER_IBGP -> bgp_attr_exists x BGP_ATTR_LOCAL_PREF = true;
  ac_path : bgp_attr_exists x BGP_ATTR_AS_PATH = true
    /\ exists a kept, a_aspath x = Some kept /\ path_checked pe a /\ path_stored pe a kept
}.

(** The fields that the checks before the AS path read. *)
Definition checked_core (x : attr) :=
  (bgp_attr_exists x BGP_ATTR_ORIGIN, bgp_attr_exists x BGP_ATTR_AS_PATH, bgp_attr_exists x BGP_ATTR_NEXT_HOP,
   bgp_attr_exists x BGP_ATTR_MP_REACH_NLRI, bgp_attr_exists x BGP_ATTR_LOCAL_PREF, a_origin x, a_nexthop x).

Section Checks.
  Context (pe : peer).

Lemma check_proceeds x n : bgp_attr_check pe x n = BGP_ATTR_PARSE_PROCEED ->
  bgp_attr_exists x BGP_ATTR_ORIGIN = true /\ bgp_attr_exists x BGP_ATTR_AS_PATH = true
  /\ (bgp_attr_exists x BGP_ATTR_MP_REACH_NLRI = true \/ bgp_attr_exists x BGP_ATTR_NEXT_HOP = true)
  /\ (pe_sort pe = BGP_PEER_IBGP -> bgp_attr_exists x BGP_ATTR_LOCAL_PREF = true).
Proof.
  unfold bgp_attr_check. case_bool; [done|].
  destruct (bgp_attr_exists x BGP_ATTR_ORIGIN), (bgp_attr_exists x BGP_ATTR_AS_PATH), (bgp_attr_exists x BGP_ATTR_NEXT_HOP),
    (bgp_attr_exists x BGP_ATTR_MP_REACH_NLRI), (bgp_attr_exists x BGP_ATTR_LOCAL_PREF), (bool_decide (pe_sort pe = BGP_PEER_IBGP)) eqn:E;
    cbn [negb orb andb]; intros H; repeat case_bool; try discriminate H; split_and!; auto; intros Hs; by apply bool_decide_eq_false in E.
Qed.

Lemma check_returns x n : bgp_attr_check pe x n = BGP_ATTR_PARSE_PROCEED \/ bgp_attr_check pe x n = BGP_ATTR_PARSE_WITHDRAW
  \/ bgp_attr_check pe x n = BGP_ATTR_PARSE_MISSING_MANDATORY /\ bgp_attr_exists x BGP_ATTR_MP_REACH_NLRI = false.
Proof. unfold bgp_attr_check. destruct (bgp_attr_exists x BGP_ATTR_MP_REACH_NLRI); cbn [negb andb]; repeat case_bool; auto. Qed.

Lemma munge_core p b x : munge_aggregator p = (b, x) -> checked_core x = checked_core (p_attr p) /\ a_aspath x = a_aspath (p_attr p)
  /\ bgp_attr_exists x BGP_ATTR_AS4_PATH = bgp_attr_exists (p_attr p) BGP_ATTR_AS4_PATH.
Proof.
  unfold munge_aggregator. repeat case_bool; intros [= <- <-]; split_and!; try done; unfold checked_core.
  all: rewrite !exists_set by (done || lia); rewrite !orb_false_r; done.
Qed.

(** What reconciling with the 4-byte AS numbers changes. *)
Lemma munge_returns p : attr_ok p -> bgp_attr_exists (p_attr p) BGP_ATTR_AS_PATH = true ->
  returns (fun r => fst r = false /\ calm_core (snd r) = calm_core p /\ p_in (snd r) = p_in p /\ checked_core (p_attr (snd r)) = checked_core (p_attr p)
                    /\ exists a, a_aspath (p_attr (snd r)) = Some a /\ nonempty (segments a)) (bgp_attr_munge_as4_attrs pe p).
Proof.
  intros [C O1 O2 O3] Hx. destruct (O2 Hx) as (a & Ea & Fa). unfold bgp_attr_munge_as4_attrs. rewrite Ea.
  case_bool; [split_and!; try done; exists a; split; [done|apply Fa]|].
  destruct (munge_aggregator p) as [b x] eqn:Em. apply munge_core in Em as (E1 & E2 & E3).
  case_bool; [|split_and!; try done; exists a; split; [by rewrite <- Ea, <- E2|apply Fa]].
  destruct O3 as (a4 & -> & F4); [congruence|]. destruct (reconcile_fine a a4 Fa F4) as (r & -> & Hr).
  cbn. split_and!; try done. by exists r.
Qed.

Definition path_result (p : parser) (a : aspath) (r : parse_ret * parser) : Prop :=
  let '(ret, q) := r in
  calm_core q = calm_core p /\ p_in q = p_in p
  /\ match ret with
     | BGP_ATTR_PARSE_WITHDRAW => True
     | BGP_ATTR_PARSE_PROCEED => checked_core (p_attr q) = checked_core (p_attr p)
         /\ exists kept, a_aspath (p_attr q) = Some kept /\ path_checked pe a /\ path_stored pe a kept
     | _ => False
     end.

Lemma aspath_check_returns p a : a_aspath (p_attr p) = Some a -> nonempty (segments a) ->
  returns (path_result p a) (bgp_attr_aspath_check pe p).
Proof.
  intros Ha Hn. unfold bgp_attr_aspath_check. rewrite Ha.
  destruct (firstas_returns a (pe_as pe) Hn) as [first Ef]. rewrite Ef.
  set (ebgp := bool_decide (pe_sort_now pe = BGP_PEER_EBGP)). case_bool; [done|].
  assert ((if pe_enforce_first_as pe && ebgp then Ret first else Ret true) = Ret (negb (pe_enforce_first_as pe && ebgp) || first)) as ->.
  { by destruct (pe_enforce_first_as pe && ebgp). }
  cbn [mbind outcome_bind]. case_bool; [done|]. case_bool; [done|].
  assert (path_checked pe a) as Hc.
  { split; intros E.
    - assert (ebgp = true) as Hb by (by apply bool_decide_eq_true_2). rewrite Hb in *. rewrite andb_true_r in *. cbn [andb] in *.
      repeat match goal with H : _ \/ _ |- _ => destruct H end; try done; rewrite Ef; split_and!; try done; destruct (pe_enforce_first_as pe), first; done.
    - rewrite E in *. repeat match goal with H : _ \/ _ |- _ => destruct H end; try done; by apply negb_false_iff. }
  unfold path_result, path_stored. case_bool.
  - unfold aspath_add_seq, aspath_add_asns. rewrite refresh_spec. cbn. split_and!; try done. by eexists.
  - cbn. split_and!; try done. by eexists.
Qed.

(** What the checks after the walk leave behind. *)
Definition finished (p0 : parser) (r : parse_ret * parser) : Prop :=
  let '(ret, p) := r in
  p_in p = p_in p0
  /\ match ret with
     | BGP_ATTR_PARSE_PROCEED => calm p /\ accepted pe (p_attr p)
     | BGP_ATTR_PARSE_WITHDRAW => calm p
     | BGP_ATTR_PARSE_MISSING_MANDATORY => calm p /\ nl_nlri (p_mp_update p) = None
     | BGP_ATTR_PARSE_ERROR => True
     | _ => False
     end.

Lemma path_finishes p n : attr_ok p -> bgp_attr_check pe (p_attr p) n = BGP_ATTR_PARSE_PROCEED ->
  (bgp_attr_exists (p_attr p) BGP_ATTR_MP_REACH_NLRI = false -> ipv4_martian pe (a_nexthop (p_attr p)) && negb (pe_allow_martian pe) = false) ->
  returns (finished p)
    ('(err, p) ← bgp_attr_munge_as4_attrs pe p;
     if (err : bool) then Ret (BGP_ATTR_PARSE_ERROR, notify BGP_NOTIFY_UPDATE_MAL_ATTR [] p) else bgp_attr_aspath_check pe p).
Proof.
  intros Ok Hc Hm. apply check_proceeds in Hc as (H1 & H2 & H3 & H4).
  apply returns_bind. eapply returns_mono; [|by apply munge_returns].
  intros [err q] (E1 & E2 & E3 & E4 & a & Ea & Na). cbn [fst snd] in *. subst err.
  eapply returns_mono; [|by apply aspath_check_returns]. intros [ret r] (C1 & C2 & H'). unfold finished. rewrite C2, E3. split; [done|].
  assert (calm r) as Cr by (apply (calm_same _ p); [congruence|apply Ok]).
  destruct ret; try done. destruct H' as (K & kept & Ek & Hk & Hs). split; [done|]. rewrite E4 in K. injection K as K1 K2 K3 K4 K5 K6 K7.
  split; rewrite ?K1, ?K2, ?K3, ?K4, ?K5, ?K6, ?K7; [split; [done|by apply Ok]| |done|split; [done|by exists a, kept]].
  destruct (bgp_attr_exists (p_attr p) BGP_ATTR_MP_REACH_NLRI); [by left|right]. destruct H3; [done|]. auto.
Qed.

Lemma finish_returns n p : attr_ok p -> returns (finished p) (finish_attributes pe (getp (p_in p)) n p).
Proof.
  intros Ok. unfold finish_attributes. set (p1 := if _ || _ then _ else p).
  assert (core p1 = core p /\ checked_core (p_attr p1) = checked_core (p_attr p) /\ p_in p1 = p_in p
    /\ forall m, bgp_attr_check pe (p_attr p1) m = bgp_attr_check pe (p_attr p) m) as (E1 & E2 & E3 & E4).
  { unfold p1. by case_bool. }
  assert (attr_ok p1) as Ok1 by (by apply (attr_ok_core _ p)). rewrite E3, Z.eqb_refl. cbn [negb]. injection E2 as K1 K2 K3 K4 K5 K6 K7.
  assert (forall r, finished p1 r -> finished p r) as Hf by (intros [ret q]; unfold finished; by rewrite E3).
  rewrite <- K3, <- K4. clearbody p1. 
  set (martian := ipv4_martian pe (a_nexthop (p_attr p1)) && negb (pe_allow_martian pe)).
  set (rest := fun q : parser =>
    let ret := bgp_attr_check pe (p_attr q) n in
    if negb (bool_decide (ret = BGP_ATTR_PARSE_PROCEED)) then Ret (ret, q)
    else if negb (bgp_attr_exists (p_attr q) BGP_ATTR_AS_PATH) then proceed q
    else '(err, q) ← bgp_attr_munge_as4_attrs pe q;
         if (err : bool) then Ret (BGP_ATTR_PARSE_ERROR, notify BGP_NOTIFY_UPDATE_MAL_ATTR [] q) else bgp_attr_aspath_check pe q).
  assert ((bgp_attr_exists (p_attr p1) BGP_ATTR_NEXT_HOP = true -> bgp_attr_exists (p_attr p1) BGP_ATTR_MP_REACH_NLRI = false -> martian = false) ->
    returns (finished p) (rest p1)) as Hrest.
  { intros Hm. unfold rest. cbv zeta. case_bool_decide as Hc; cbn [negb].
    - pose proof (check_proceeds _ _ Hc) as (_ & -> & Hn & _). cbn [negb]. eapply returns_mono; [exact Hf|]. apply (path_finishes p1 n); [done|done|].
      intros Hx. apply Hm; [|done]. destruct Hn; congruence.
    - apply Hf. split; [done|]. destruct (check_returns (p_attr p1) n) as [E|[E|[E Hx]]]; rewrite E in *; [done|apply Ok1|]. split; [apply Ok1|].
      destruct (nl_nlri (p_mp_update p1)) eqn:En; [|done]. pose proof (ao_reach _ Ok1) as Hr. rewrite En, Hx in Hr. by discriminate Hr. }
  apply returns_bind. unfold bgp_attr_nexthop_valid. fold martian.
  destruct (bgp_attr_exists (p_attr p1) BGP_ATTR_NEXT_HOP), (bgp_attr_exists (p_attr p1) BGP_ATTR_MP_REACH_NLRI); cbn [andb negb];
    [by apply Hrest| |by apply Hrest|by apply Hrest].
  destruct martian; [cbn [returns]; rewrite bool_decide_eq_false_2 by done; by apply Hf|]. by apply Hrest.
Qed.
End Checks.

(** ** A packet from a peer *)

(** The next [n] bytes of the input buffer are to be parsed.  4-byte AS numbers that the
    peer can send were also offered to it, and no next hop characteristics have a next
    hop of the wrong length. *)
Record received (pe : peer) (n : Z) (s : stream) : Prop := {
  rc_sane : sane s;
  rc_inside : 0 <= n /\ getp s + n <= endp s;
  rc_packet : endp s <= pe_max_packet_size pe <= 65535;
  rc_as4 : pe_cap_as4_rcv pe = true -> pe_cap_as4_adv pe = true;
  rc_nhc : nhc_fine pe s
}.

(** What [bgp_attr_parse] leaves behind. *)
Definition parsed (pe : peer) (n : Z) (s : stream) (r : parse_ret * parser) : Prop :=
  let '(ret, p) := r in
  let e := getp s + n in
  sane (p_in p) /\ endp (p_in p) = endp s
  /\ match ret with
     | BGP_ATTR_PARSE_PROCEED => getp (p_in p) = e /\ calm p /\ accepted pe (p_attr p)
     | BGP_ATTR_PARSE_MISSING_MANDATORY => getp (p_in p) = e /\ calm p /\ nl_nlri (p_mp_update p) = None
     | BGP_ATTR_PARSE_WITHDRAW | BGP_ATTR_PARSE_WITHDRAW_IGNORE => e - 2 <= getp (p_in p) <= e /\ calm p
     | BGP_ATTR_PARSE_ERROR => True
     | BGP_ATTR_PARSE_ERROR_NOTIFYPLS => False
     end.

Lemma new_parser_ok s : attr_ok (new_parser s).
Proof. by repeat split. Qed.

Lemma parse_returns pe n s : received pe n s -> returns (parsed pe n s) (bgp_attr_parse pe n (new_parser s)).
Proof.
  intros [S [H0 Hi] Hp Hc Hn]. unfold bgp_attr_parse. cbn [p_in new_parser].
  apply returns_bind. eapply returns_mono; [|apply (attr_loop_returns pe Hc)].
  2: { split; [done|cbn; lia|cbn; pose proof (sn_getp _ S); lia|cbn; lia|apply new_parser_ok|done]. }
  2: { cbn. lia. }
  intros [[o len] p] (Sp & Ep & H'). cbn beta iota. cbn [p_in new_parser] in Ep. apply returns_bind.
  destruct o as [ret|].
  - destruct ret; try done; cbn; (split; [done|split; [done|]]); destruct H' as [? ?]; (split; [done|by apply (calm_same _ p)]).
  - destruct H' as [G Ok]. rewrite <- G. eapply returns_mono; [|by apply finish_returns].
    intros [ret q] [Eq Hq]. 
    assert (sane (p_in q) /\ endp (p_in q) = endp s /\ getp (p_in q) = getp s + n) as (Sq & E' & G') by (rewrite Eq; done).
    destruct ret; try done; (split; [done|split; [done|]]).
    + split; [done|]. destruct Hq as [C A]. split; [by apply (calm_same _ q)|done].
    + rewrite bool_decide_eq_false_2 by done. cbn. split; [lia|by apply (calm_same _ q)].
    + split; [done|]. destruct Hq as [C N]. split; [by apply (calm_same _ q)|done].
Qed.

(** C9: attributes in a packet no longer than the session allows (at most 65535 bytes), on a
    session where not only the peer has announced the 4-byte AS capability, and
    where no bytes of the packet read as an NHC attribute of 12 or more bytes whose
    next hop length is neither 4 nor 16 (with 24 bytes), unless the peer is
    configured to discard or withdraw NHC attributes (such an attribute crashes the
    daemon: [nhc_null_pointer]): whatever their bytes are, [bgp_attr_parse] returns,
    without a failed assertion of the stream functions, and only reads the packet.
    Unless the session is to be closed it has sent no NOTIFICATION and stands at the
    end of the attributes, or at most two bytes before it when the routes are to be
    withdrawn. *)
Theorem bgp_attr_parse_safe pe n s : received pe n s ->
  exists ret p, bgp_attr_parse pe n (new_parser s) = Ret (ret, p)
  /\ sane (p_in p) /\ endp (p_in p) = endp s
  /\ (ret <> BGP_ATTR_PARSE_ERROR ->
      p_notify p = [] /\ getp s + n - 2 <= getp (p_in p) <= getp s + n
      /\ (ret = BGP_ATTR_PARSE_PROCEED -> getp (p_in p) = getp s + n)).
Proof.
  intros H. destruct (returns_inv _ _ (parse_returns pe n s H)) as ([ret p] & E & S & Ep & H'). exists ret, p.
  split; [done|]. split; [done|]. split; [done|]. intros Hr. destruct ret; try done.
  - destruct H' as (G & C & _). split; [apply C|]. split; [lia|done].
  - destruct H' as (G & C). split; [apply C|]. by split.
  - destruct H' as (G & C). split; [apply C|]. by split.
  - destruct H' as (G & C & _). split; [apply C|]. split; [lia|done].
Qed.

(** C10: attributes in a packet no longer than the session allows (at most 65535 bytes), on a
    session where not only the peer has announced the 4-byte AS capability, and
    where no bytes of the packet read as an NHC attribute of 12 or more bytes whose
    next hop length is neither 4 nor 16 (with 24 bytes), unless the peer is
    configured to discard or withdraw NHC attributes (such an attribute crashes the
    daemon: [nhc_null_pointer]): those that [bgp_attr_parse] accepts have a valid
    origin; an MP_REACH_NLRI attribute (of whose next hop nothing is claimed), or
    else a NEXT_HOP that is not martian unless martian next hops are allowed; from
    an internal peer a local preference; and an AS path that was checked, before the
    local AS is prepended where that is configured: from an external peer it is
    without confederation segments and without AS 0 and starts with the AS of the
    peer if that is enforced, from a confederation peer it starts with a
    confederation segment. *)
Theorem bgp_attr_parse_accepts pe n s p : received pe n s -> bgp_attr_parse pe n (new_parser s) = Ret (BGP_ATTR_PARSE_PROCEED, p) ->
  accepted pe (p_attr p).
Proof. intros H E. pose proof (parse_returns pe n s H) as R. rewrite E in R. apply R. Qed.

(** ** The whole message *)

(** The announced prefixes of an update. *)
Definition announces (u : update) : Prop := nl_nlri (up_update u) <> None \/ nl_nlri (up_mp_update u) <> None.

(** What [bgp_update_receive] hands to the code that walks over the prefixes. *)
Record update_ok (pe : peer) (s : stream) (u : update) : Prop := {
  uo_update : nlri_inside s (up_update u);
  uo_withdraw : nlri_inside s (up_withdraw u);
  uo_mp_update : nlri_inside s (up_mp_update u);
  uo_mp_withdraw : nlri_inside s (up_mp_withdraw u);
  uo_accepted : forall x, up_attr u = Some x -> announces u -> accepted pe x
}.

Definition received_update (pe : peer) (s : stream) (r : option update * parser) : Prop :=
  let '(o, p) := r in
  sane (p_in p) /\ endp (p_in p) = endp s /\ forall u, o = Some u -> p_notify p = [] /\ update_ok pe (p_in p) u.

Lemma stopped pe s p : sane (p_in p) -> endp (p_in p) = endp s -> returns (received_update pe s) (stop p).
Proof. intros S E. by split_and!. Qed.

Lemma nlri_returns pe s end_ wpos wlen n ret p : sane (p_in p) -> endp (p_in p) = endp s -> getp (p_in p) <= end_ <= endp s -> end_ <= 65535 ->
  0 <= wpos -> 0 <= wlen -> wpos + wlen <= endp s -> calm p -> ret <> BGP_ATTR_PARSE_ERROR ->
  (n = 0 -> nl_nlri (p_mp_update p) = None) ->
  (ret = BGP_ATTR_PARSE_PROCEED -> n <> 0 -> accepted pe (p_attr p)) ->
  (ret = BGP_ATTR_PARSE_MISSING_MANDATORY -> nl_nlri (p_mp_update p) = None) -> ret <> BGP_ATTR_PARSE_ERROR_NOTIFYPLS ->
  returns (received_update pe s) (receive_nlri pe end_ wpos wlen n ret p).
Proof.
  intros S E Hend Hmax W0 W1 W2 C Hr Hn0 Hacc Hmiss Hpls. pose proof (sn_getp _ S) as [G0 G1]. unfold receive_nlri.
  rewrite u16_small by lia. set (len := end_ - getp (p_in p)). set (announced := _ && _ && _).
  set (withdrawn := _ || _). cbv zeta.
  assert (forall q, sane (p_in q) -> calm_core q = calm_core p -> p_attr q = p_attr p ->
    received_update pe s (Some (mkUpdate (if withdrawn then None else Some (p_attr q)) (if announced then ip_unicast (getp (p_in p)) len else no_nlri)
      (if 0 <? wlen then ip_unicast wpos wlen else no_nlri) (p_mp_update q) (p_mp_withdraw q)
      (end_of_rib pe (p_attr q) len wlen n (p_mp_update q) (p_mp_withdraw q))), q)) as Hfin.
  { intros q Sq Cq Aq. pose proof (calm_same q p Cq C) as C'. injection Cq as Q1 Q2 Q3 Q4.
    split; [done|]. split; [lia|]. intros u [= <-]. split; [apply C'|]. split; cbn [up_update up_withdraw up_mp_update up_mp_withdraw up_attr].
    - intros pos. case_bool; [|done]. intros [= <-]. cbn. unfold len. lia.
    - intros pos. case_bool; [|done]. intros [= <-]. cbn. lia.
    - apply C'.
    - apply C'.
    - intros x Hx Ha. unfold announces in Ha. cbn [up_update up_mp_update] in Ha. rewrite Q2 in Ha.
      unfold announced, withdrawn in *. rewrite Aq in Hx. destruct ret; try done; [|by cbn in *; rewrite Hmiss, andb_false_r in Ha by done; destruct Ha].
      cbn in Hx. injection Hx as <-. apply Hacc; [done|]. intros ->. rewrite Hn0, andb_false_r in Ha by done. by destruct Ha. }
  apply returns_bind. destruct announced; [|by apply Hfin].
  apply returns_bind, returns_forward; [done|unfold len; lia|unfold len; lia|]. set (q := set_p_in _ p).
  assert (sane (p_in q)) as Sq by (apply sane_at; [done|unfold len; lia]).
  unfold bgp_attr_nexthop_valid. destruct (bgp_attr_exists (p_attr q) BGP_ATTR_MP_REACH_NLRI); [|by apply Hfin].
  destruct (ipv4_martian _ _ && _); [|by apply Hfin]. cbn [returns]. rewrite bool_decide_eq_false_2 by done. by apply stopped.
Qed.

Lemma receive_returns pe n s : received pe n s -> returns (received_update pe s) (bgp_update_receive pe n s).
Proof.
  intros [S [H0 Hi] Hp Hc Hn]. pose proof (sn_getp _ S) as [G0 G1]. unfold bgp_update_receive, mal_attr.
  case_bool; [by apply stopped|]. apply returns_bind, returns_getw; [done|lia|]. intros wlen Hw. positions.
  case_bool; [apply stopped; [inside|done]|].
  set (s2 := if 0 <? wlen then _ else _).
  assert (s2 = Ret (set_getp (getp s + 2 + wlen) s)) as ->.
  { unfold s2. destruct (Z.ltb_spec 0 wlen); [|by replace (getp s + 2 + wlen) with (getp s + 2) by lia].
    unfold stream_forward_getp, GETP_VALID. cbn. rewrite sane_verify, u64_small by (try (apply sane_at; [done|lia]); destruct S; lia).
    by rewrite (proj2 (Z.leb_le _ _)) by lia. }
  cbn [mbind outcome_bind]. positions. case_bool; [apply stopped; [inside|done]|].
  apply returns_bind, returns_getw; [inside|inside|]. intros alen Ha. positions.
  case_bool; [apply stopped; [inside|done]|].
  set (q := set_getp (getp s + 2 + wlen + 2) s). change (set_p_in q (new_parser s)) with (new_parser q).
  assert (received pe alen q) as Hq.
  { split; [inside|split; [lia|cbn; lia]|done|done|apply (nhc_fine_on pe s); cbn; first [done|lia]]. }
  apply returns_bind. destruct (Z.eqb_spec alen 0) as [E0|E0].
  - apply nlri_returns; try done; cbn; try lia. apply Hq.
  - eapply returns_mono; [|by apply parse_returns]. intros [ret p] (Sp & Ep & H'). cbn [endp set_getp q] in Ep, H'. cbn [getp] in H'. cbn beta iota.
    case_bool_decide as Hr; [by apply stopped|].
    destruct ret; try done; destruct H' as (G & H'); [destruct H' as [C A]| | |destruct H' as [C A]];
      apply nlri_returns; try done; cbn [q endp getp set_getp] in *; lia.
Qed.

(** ** A packet *)

(** A buffer that holds just the bytes [l]. *)
Definition buffer (l : list Z) : stream := mkStream 0 (Z.of_nat (length l)) (Z.of_nat (length l)) false l.

(** An external peer in AS 65001 with 4-byte AS numbers. *)
Definition external_peer : peer :=
  mkPeer BGP_PEER_EBGP BGP_PEER_EBGP false 65001 0 true true false true false false (fun _ => false) (fun _ => false) None true false false
    4096 (fun afi safi => (afi =? 1) && (safi =? 1)) ASNOTATION_PLAIN.

(** ORIGIN, AS_PATH and NEXT_HOP. *)
Definition plain_attributes : list Z :=
  [64; 1; 1; 0] ++ [64; 2; 6; 2; 1; 0; 0; 253; 233] ++ [64; 3; 4; 192; 0; 2; 1].

(** An update that announces 192.0.2.0/24. *)
Definition plain_update : list Z := [0; 0; 0; 20] ++ plain_attributes ++ [24; 192; 0; 2].

Lemma buffer_sane l : bytes l -> Z.of_nat (length l) < 9223372036854775808 -> sane (buffer l).
Proof. intros Hb Hl. split; cbn; try done; lia. Qed.

Lemma nhc_fine_search pe s : 0 <= getp s ->
  forallb (fun i => negb (bad_nhc (data s) (Z.of_nat i))) (seq 0 (Z.to_nat (endp s))) = true -> nhc_fine pe s.
Proof.
  intros H0 H. right. intros q Hq. rewrite forallb_forall in H. specialize (H (Z.to_nat q)). rewrite in_seq, Z2Nat.id in H by lia.
  apply negb_true_iff, H. lia.
Qed.

Lemma received_buffer l n : bytes l -> Z.of_nat (length l) <= 4096 -> 0 <= n <= Z.of_nat (length l) ->
  forallb (fun i => negb (bad_nhc l (Z.of_nat i))) (seq 0 (length l)) = true -> received external_peer n (buffer l).
Proof.
  intros Hb Hl Hn Hf. split; [apply buffer_sane; [done|lia]|cbn; lia|cbn; lia|done|].
  apply nhc_fine_search; cbn; [lia|]. by rewrite Nat2Z.id.
Qed.

Lemma bgp_attr_parse_safe_witness :
  exists ret p, bgp_attr_parse external_peer 20 (new_parser (buffer plain_attributes)) = Ret (ret, p) /\ sane (p_in p).
Proof.
  destruct (bgp_attr_parse_safe external_peer 20 (buffer plain_attributes)) as (ret & p & E & S & _).
  - apply received_buffer; [repeat constructor; unfold is_byte; lia|vm_compute; discriminate|vm_compute; split; discriminate|vm_compute; reflexivity].
  - exists ret, p. split; [exact E|exact S].
Defined.

Lemma bgp_attr_parse_accepts_witness :
  exists p, bgp_attr_parse external_peer 20 (new_parser (buffer plain_attributes)) = Ret (BGP_ATTR_PARSE_PROCEED, p)
    /\ accepted external_peer (p_attr p).
Proof.
  eexists. split; [vm_compute; reflexivity|]. apply (bgp_attr_parse_accepts external_peer 20 (buffer plain_attributes)).
  - apply received_buffer; [repeat constructor; unfold is_byte; lia|vm_compute; discriminate|vm_compute; split; discriminate|vm_compute; reflexivity].
  - vm_compute. reflexivity.
Defined.

(** The result of parsing [l], with the position that was reached. *)
Definition parse_result (pe : peer) (l : list Z) : outcome (parse_ret * Z) :=
  '(ret, p) ← bgp_attr_parse pe (Z.of_nat (length l)) (new_parser (buffer l)); Ret (ret, getp (p_in p)).

(** A peer that was told not to negotiate capabilities: it offers 4-byte AS numbers,
    the local side did not. *)
Definition no_capabilities : peer :=
  mkPeer BGP_PEER_EBGP BGP_PEER_EBGP false 65001 0 true false false false false false (fun _ => false) (fun _ => false) None true false false
    4096 (fun _ _ => false) ASNOTATION_PLAIN.
Definition old_peer : peer :=
  mkPeer BGP_PEER_EBGP BGP_PEER_EBGP false 65001 0 false false false false false false (fun _ => false) (fun _ => false) None true false false
    4096 (fun _ _ => false) ASNOTATION_PLAIN.

(** The attributes with 2-byte AS numbers. *)
Definition old_attributes : list Z := [64; 1; 1; 0; 64; 2; 4; 2; 1; 253; 233; 64; 3; 4; 192; 0; 2; 1].

(** Next hop characteristics with a next hop of 5 bytes: a null pointer is read. *)
Lemma nhc_null_pointer : parse_result external_peer (plain_attributes ++ [192; 39; 12; 0; 1; 1; 5; 1; 2; 3; 4; 5; 6; 7; 8]) = Abort.
Proof. vm_compute. reflexivity. Qed.

(** A truncated attribute from an external peer: the two bytes that are left are taken
    for the start of the prefixes, and the withdrawal misses 192.0.2.0/24. *)
Lemma truncated_attribute_shifts :
  parse_result external_peer (plain_attributes ++ [64; 5]) = Ret (BGP_ATTR_PARSE_WITHDRAW, 20)
  /\ (exists u p, bgp_update_receive external_peer 30 (buffer ([0; 0; 0; 22] ++ plain_attributes ++ [64; 5] ++ [24; 192; 0; 2])) = Ret (Some u, p)
      /\ up_attr u = None /\ up_update u = mkNlri 1 1 (Some 24) 6).
Proof. split; [vm_compute; reflexivity|]. eexists _, _. split; [vm_compute; reflexivity|]. split; reflexivity. Qed.

(** An aggregator of 6 bytes is read as one of 8. *)
Lemma aggregator_overrun : parse_result no_capabilities (old_attributes ++ [192; 7; 6; 253; 233; 192; 0; 2; 1]) = Abort.
Proof. vm_compute. reflexivity. Qed.

(** A tunnel encapsulation that is followed by another attribute is malformed. *)
Lemma encap_not_last :
  let encap := [192; 23; 8; 0; 1; 0; 4; 4; 2; 0; 0] in
  parse_result external_peer (plain_attributes ++ encap) = Ret (BGP_ATTR_PARSE_PROCEED, 31)
  /\ parse_result external_peer (encap ++ plain_attributes) = Ret (BGP_ATTR_PARSE_WITHDRAW, 31).
Proof. split; vm_compute; reflexivity. Qed.

(** After a malformed TLV of a prefix SID the parser goes on with the bytes of the next
    attribute, instead of ignoring the attribute; then the session is closed. *)
Lemma prefix_sid_goes_on :
  let sid := [208; 40; 1; 13; 1; 0; 6] ++ replicate 266 0 in
  let others := plain_attributes ++ [208; 99; 1; 44] ++ replicate 300 0 in
  parse_result external_peer (others ++ sid) = Ret (BGP_ATTR_PARSE_PROCEED, 597)
  /\ parse_result external_peer (sid ++ others) = Ret (BGP_ATTR_PARSE_ERROR, 533).
Proof. split; vm_compute; reflexivity. Qed.

(** An unknown address family closes the session without a NOTIFICATION. *)
Lemma unknown_family_closes :
  exists p, bgp_attr_parse external_peer 28 (new_parser (buffer (plain_attributes ++ [128; 15; 5; 0; 99; 1; 0; 0]))) = Ret (BGP_ATTR_PARSE_ERROR, p)
    /\ p_notify p = [].
Proof. eexists. split; [vm_compute; reflexivity|]. reflexivity. Qed.

(** Without AGGREGATOR the address of AS4_AGGREGATOR is lost. *)
Lemma as4_aggregator_address_lost :
  exists p, bgp_attr_parse old_peer 29 (new_parser (buffer (old_attributes
      ++ [192; 18; 8; 0; 1; 0; 0; 192; 0; 2; 9]))) = Ret (BGP_ATTR_PARSE_PROCEED, p)
    /\ a_aggregator_as (p_attr p) = 65536 /\ a_aggregator_addr (p_attr p) = zero4.
Proof. eexists. split; [vm_compute; reflexivity|]. split; reflexivity. Qed.

(** An AS set in AS4_PATH passes the option that rejects AS sets. *)
Lemma as4_path_sets_pass :
  exists p a, bgp_attr_parse old_peer 27 (new_parser (buffer (old_attributes
      ++ [192; 17; 6; 1; 1; 0; 0; 253; 234]))) = Ret (BGP_ATTR_PARSE_PROCEED, p)
    /\ a_aspath (p_attr p) = Some a /\ pe_reject_as_sets old_peer = true /\ aspath_check_as_sets a = true.
Proof. eexists _, _. split; [vm_compute; reflexivity|]. split; [reflexivity|]. split; reflexivity. Qed.

(** An empty MP_REACH_NLRI, which the log calls an end-of-RIB marker, closes the session. *)
Lemma empty_reach_closes :
  exists p, bgp_attr_parse external_peer 32 (new_parser (buffer (plain_attributes ++ [128; 14; 9; 0; 1; 1; 4; 192; 0; 2; 1; 0]))) = Ret (BGP_ATTR_PARSE_ERROR, p)
    /\ map nt_subcode (p_notify p) = [BGP_NOTIFY_UPDATE_MAL_ATTR].
Proof. eexists. split; [vm_compute; reflexivity|]. reflexivity. Qed.

(** Next hop characteristics with a link-local next hop, without an interface: the TLVs
    are not skipped, and the session is closed. *)
Lemma nhc_link_local_closes :
  let nhc := [192; 39; 24; 0; 2; 1; 16; 254; 128] ++ replicate 14 0 ++ [0; 1; 0; 0] in
  parse_result external_peer (plain_attributes ++ nhc) = Ret (BGP_ATTR_PARSE_ERROR, 43).
Proof. vm_compute. reflexivity. Qed.
