(* ===== verification/BgpNlriFacts.v ===== *)
(** * The prefixes of an update

    Walking over a part of the packet returns for any bytes and yields only prefixes of
    the address family with a valid length; prefixes that were written are read back. *)

From stdpp Require Import base list.
From S2P Require Import Prelude Prefix Stream StreamFacts AsPathWireFacts BgpAttrData BgpAttr BgpUpdate BgpAttrRead BgpUpdateFacts.

(** ** Any bytes *)

(** A prefix as it comes out of the packet. *)
Record nlri_typed (addpath : bool) (afi safi : Z) (e : Z * prefix) : Prop := {
  nt_id : 0 <= fst e < 4294967296 /\ (addpath = false -> fst e = 0);
  nt_family : family (snd e) = afi2family afi;
  nt_length : 0 <= prefixlen (snd e) <= prefix_blen (afi2family afi) * 8;
  nt_bytes : bytes (val (snd e)) /\ length (val (snd e)) = 16%nat;
  nt_host : drop (Z.to_nat (PSIZE (prefixlen (snd e)))) (val (snd e)) = replicate (16 - Z.to_nat (PSIZE (prefixlen (snd e)))) 0;
  nt_meaning : semantically_wrong afi safi (val (snd e)) = false
}.

Lemma be_value_of_range l : bytes l -> 0 <= be_value_of l < 256 ^ Z.of_nat (length l).
Proof.
  induction 1 as [|b l Hb _ IH]; [done|]. cbn [be_value_of length]. unfold is_byte in Hb. rewrite Nat2Z.inj_succ, Z.pow_succ_r by lia. nia.
Qed.

Lemma psize_bound n m : 0 <= n <= m * 8 -> 0 <= PSIZE n <= m.
Proof. intros H. unfold PSIZE. split; [apply Z.div_pos; lia|]. apply Z.lt_succ_r, Z.div_lt_upper_bound; lia. Qed.

Lemma blen_small f : prefix_blen f <= 16.
Proof. unfold prefix_blen, IPV4_MAX_BYTELEN, IPV6_MAX_BYTELEN, ETH_ALEN. repeat case_bool; lia. Qed.

Section Parse.
  Context (overflow : list (Z * prefix) -> bool).
  Context (addpath : bool) (afi safi : Z).

Lemma nlri_loop_returns fuel : forall l acc, (length l <= fuel)%nat -> bytes l -> Forall (nlri_typed addpath afi safi) acc ->
  returns (fun r => Forall (nlri_typed addpath afi safi) (snd r)) (nlri_loop overflow fuel addpath afi safi l acc).
Proof.
  induction fuel as [|k IH]; intros l acc Hl Hb Ha; (destruct l as [|b0 l0]; [done|]); [simpl in Hl; lia|]. cbn [nlri_loop].
  set (l := b0 :: l0) in *. destruct (addpath && (length l <=? BGP_ADDPATH_ID_LEN)%nat) eqn:Eid; [done|].
  assert (0 < length l)%nat as H0 by (unfold l; simpl; lia). clearbody l.
  set (id := if addpath then be_value_of _ else 0). set (l1 := if addpath then drop _ l else l).
  assert (bytes l1 /\ (0 < length l1 <= length l)%nat) as [Hb1 Hl1].
  { unfold l1. destruct addpath; [|by split; [|lia]]. cbn [andb] in Eid. apply Nat.leb_gt in Eid.
    split; [by apply Forall_drop|]. rewrite length_drop. unfold BGP_ADDPATH_ID_LEN in *. lia. }
  assert (0 <= id < 4294967296 /\ (addpath = false -> id = 0)) as Hid.
  { unfold id. destruct addpath; [|split; [lia|done]]. split; [|done].
    pose proof (be_value_of_range (take BGP_ADDPATH_ID_LEN l) (Forall_take _ _ _ Hb)) as R.
    assert (256 ^ Z.of_nat (length (take BGP_ADDPATH_ID_LEN l)) <= 256 ^ 4) by (apply Z.pow_le_mono_r; rewrite ?length_take; unfold BGP_ADDPATH_ID_LEN; lia).
    change (256 ^ 4) with 4294967296 in *. lia. }
  pose proof (byte_at_range l1 0 Hb1) as [P0 P1]. set (plen := byte_at l1 0) in *.
  assert (bytes (drop 1 l1)) as Hb2 by (by apply Forall_drop).
  case_bool; [done|]. set (psize := Z.to_nat (PSIZE plen)) in *.
  destruct (Nat.ltb_spec (length (drop 1 l1)) psize); [done|]. destruct (Nat.ltb_spec 16 psize); [done|]. set (q := mkPrefix _ _ _).
  pose proof (blen_small (afi2family afi)).
  assert (length (take psize (drop 1 l1)) = psize) as Ht by (rewrite length_take; lia).
  assert (bytes (drop psize (drop 1 l1)) /\ (length (drop psize (drop 1 l1)) <= k)%nat) as [Hb3 Hl3].
  { split; [by apply Forall_drop|]. rewrite !length_drop. lia. }
  case_bool; [by apply IH|].
  assert (Forall (nlri_typed addpath afi safi) (acc ++ [(id, q)])) as Ha'.
  { apply Forall_app_2; [done|]. constructor; [|done]. split; cbn [fst snd q family prefixlen val]; try done; fold psize.
    - split; [apply Forall_app_2; [by apply Forall_take|apply Forall_replicate; unfold is_byte; lia]|].
      rewrite length_app, Ht, length_replicate. lia.
    - by rewrite drop_app_length'. }
  case_bool; [done|]. by apply IH.
Qed.

(** ** Writing and reading back *)

Definition nlri_bytes (e : Z * prefix) : list Z :=
  (if addpath then addpath_bytes (fst e) else []) ++ prefixlen (snd e) :: take (Z.to_nat (PSIZE (prefixlen (snd e)))) (val (snd e)).

Lemma addpath_bytes_value id : 0 <= id < 4294967296 -> be_value_of (addpath_bytes id) = id.
Proof.
  intros H. unfold addpath_bytes. cbn [be_value_of length]. unfold u8. rewrite !Z.shiftr_div_pow2 by lia.
  change (2 ^ 24) with 16777216. change (2 ^ 16) with 65536. change (2 ^ 8) with 256. change (2 ^ 0) with 1. rewrite Z.div_1_r.
  cbn. Z.div_mod_to_equations. lia.
Qed.

Lemma typed_value e : nlri_typed addpath afi safi e ->
  take (Z.to_nat (PSIZE (prefixlen (snd e)))) (val (snd e)) ++ replicate (16 - Z.to_nat (PSIZE (prefixlen (snd e)))) 0 = val (snd e).
Proof. intros [_ _ _ _ H _]. rewrite <- H. apply take_drop. Qed.

Lemma nlri_loop_one e k rest acc : nlri_typed addpath afi safi e ->
  nlri_loop overflow (S k) addpath afi safi (nlri_bytes e ++ rest) acc
  = if overflow (acc ++ [e]) then Ret (BGP_NLRI_PARSE_ERROR_PREFIX_OVERFLOW, acc ++ [e])
    else nlri_loop overflow k addpath afi safi rest (acc ++ [e]).
Proof.
  intros T. pose proof (typed_value e T) as Hv. destruct e as [id q], T as [[Hi Hi0] Hf Hl [Hb H16] Hh Hm]. cbn [fst snd] in *.
  pose proof (blen_small (afi2family afi)). pose proof (psize_bound (prefixlen q) _ Hl) as [B0 B1].
  set (psize := Z.to_nat (PSIZE (prefixlen q))) in *. assert (length (take psize (val q)) = psize) as Ht by (rewrite length_take; lia).
  set (body := prefixlen q :: take psize (val q) ++ rest).
  assert (nlri_bytes (id, q) ++ rest = (if addpath then addpath_bytes id else []) ++ body) as E.
  { unfold nlri_bytes, body. cbn [fst snd]. by rewrite <- app_assoc. }
  assert ((if addpath then drop BGP_ADDPATH_ID_LEN ((if addpath then addpath_bytes id else []) ++ body)
           else (if addpath then addpath_bytes id else []) ++ body) = body) as E1 by (by destruct addpath).
  assert ((if addpath then be_value_of (take BGP_ADDPATH_ID_LEN ((if addpath then addpath_bytes id else []) ++ body)) else 0) = id) as E2.
  { destruct addpath; [|symmetry; auto]. change (take _ _) with (addpath_bytes id). by apply addpath_bytes_value. }
  assert (addpath && (length ((if addpath then addpath_bytes id else []) ++ body) <=? BGP_ADDPATH_ID_LEN)%nat = false) as E3.
  { destruct addpath; [|done]. apply Nat.leb_gt. rewrite length_app. unfold body. simpl. unfold BGP_ADDPATH_ID_LEN. lia. }
  rewrite E. cbn [nlri_loop]. rewrite E1, E2, E3.
  destruct ((if addpath then addpath_bytes id else []) ++ body) eqn:Eb; [by destruct addpath|].
  change (byte_at body 0) with (prefixlen q). change (drop 1 body) with (take psize (val q) ++ rest). fold psize.
  assert (psize <= 16)%nat as H16' by (unfold psize; lia). clearbody psize.
  rewrite take_app_length', drop_app_length', Hv by done.
  rewrite (proj2 (Z.ltb_ge _ _)), (proj2 (Nat.ltb_ge _ _)), (proj2 (Nat.ltb_ge _ _)) by (rewrite ?length_app; lia).
  cbn [val]. rewrite Hm. destruct q as [f n v]. cbn [family prefixlen val] in *. by subst f.
Qed.

Lemma nlri_loop_all es : forall fuel acc, Forall (nlri_typed addpath afi safi) es -> (length es <= fuel)%nat ->
  (forall l, overflow l = false) -> nlri_loop overflow fuel addpath afi safi (concat (map nlri_bytes es)) acc = Ret (BGP_NLRI_PARSE_OK, acc ++ es).
Proof.
  induction es as [|e es IH]; intros fuel acc T F O; cbn [map concat].
  { rewrite app_nil_r. by destruct fuel. }
  destruct fuel as [|k]; [simpl in F; lia|]. apply Forall_cons_1 in T as [T Ts]. rewrite nlri_loop_one, O by done.
  rewrite IH by (done || simpl in F; lia). by rewrite <- app_assoc.
Qed.
End Parse.

(** For any part of a packet [bgp_nlri_parse_ip] returns and hands on only prefixes
    of its address family: the length is valid, the bytes beyond it are zero, and the
    address is neither multicast nor (for IPv6) link-local. *)
Lemma nlri_parse_ip_returns overflow addpath s packet : sane s -> nlri_inside s packet -> nl_nlri packet <> None ->
  exists ret l, bgp_nlri_parse_ip overflow addpath s packet = Ret (ret, l)
  /\ Forall (nlri_typed addpath (nl_afi packet) (nl_safi packet)) l.
Proof.
  intros S Hin Hn. unfold bgp_nlri_parse_ip. destruct (nl_nlri packet) as [pos|] eqn:E; [|done].
  destruct (Hin pos E) as (H0 & H1 & H2). rewrite (proj2 (Z.leb_le _ _)) by lia. set (l := read_bytes _ _ _).
  destruct (returns_inv _ _ (nlri_loop_returns overflow addpath (nl_afi packet) (nl_safi packet) (length l) l [] (le_n _)
    (Forall_take _ _ _ (Forall_drop _ _ _ (sn_bytes _ S))) ltac:(constructor))) as ([ret r] & Er & Hr).
  by exists ret, r.
Qed.

(** ** All parts of an update *)

Section Parts.
  Context (overflow : list (Z * prefix) -> bool) (addpath : Z -> Z -> bool) (other_nlri : stream -> bgp_nlri -> option attr -> bool -> nlri_ret).
  Context (pe : peer).

Record change_ok (c : route_change) : Prop := {
  co_prefixes : Forall (nlri_typed (addpath (rc_afi c) (rc_safi c)) (rc_afi c) (rc_safi c)) (rc_prefixes c);
  co_accepted : forall x, rc_attr c = Some x -> accepted pe x
}.

(** A part that may be parsed with the attributes [x]. *)
Definition part_ok (s : stream) (x : option attr) (part : bgp_nlri * bool * Z) : Prop :=
  let '(packet, mp_withdraw, _) := part in
  nlri_inside s packet /\ (mp_withdraw = false -> nl_nlri packet <> None -> forall y, x = Some y -> accepted pe y).

Lemma parse_parts_returns s x parts : forall acc, sane s -> Forall (part_ok s x) parts -> Forall change_ok acc ->
  returns (fun r => Forall change_ok (snd r)) (parse_parts overflow addpath other_nlri pe s x parts acc).
Proof.
  induction parts as [|[[packet w] c] parts IH]; intros acc S Hp Ha; cbn [parse_parts]; [done|].
  apply Forall_cons_1 in Hp as [[Hi Hx] Hp]. destruct (nl_nlri packet) as [pos|] eqn:E; [|by apply IH].
  case_bool; [by apply IH|]. apply returns_bind.
  assert (returns (fun r => Forall change_ok (snd r)) (bgp_nlri_parse overflow addpath other_nlri s x packet w)) as Hr.
  { unfold bgp_nlri_parse. case_bool; [|by constructor]. destruct (nlri_parse_ip_returns overflow (addpath (nl_afi packet) (nl_safi packet)) s packet S Hi)
      as (ret & l & -> & Hl); [by rewrite E|]. cbn. constructor; [|constructor]. split; cbn; [done|].
    intros y Hy. destruct w; [done|]. by apply (Hx eq_refl). }
  eapply returns_mono; [|exact Hr]. intros [ret ch] Hc. cbn [snd] in Hc.
  assert (Forall change_ok (acc ++ ch)) as Hac by (by apply Forall_app_2).
  destruct (bool_decide _ || _); [by apply IH|done].
Qed.

(** C8: an update in a packet no longer than the session allows (at most 65535 bytes), on a
    session where not only the peer has announced the 4-byte AS capability, and
    where no bytes of the packet read as an NHC attribute of 12 or more bytes whose
    next hop length is neither 4 nor 16 (with 24 bytes), unless the peer is
    configured to discard or withdraw NHC attributes (such an attribute crashes the
    daemon: [nhc_null_pointer]): whatever its bytes are, it is handled without a
    failed assertion and without leaving the packet, every prefix that is announced
    or withdrawn has the type of its address family, and routes are announced only
    with attributes that were accepted (record [accepted]); an update that is taken
    sends no NOTIFICATION. *)
Theorem update_received_sound n s : received pe n s ->
  exists b changes eor p, update_received overflow addpath other_nlri pe n s = Ret (b, changes, eor, p)
  /\ sane (p_in p) /\ endp (p_in p) = endp s /\ Forall change_ok changes /\ (b = true -> p_notify p = []).
Proof.
  intros H. unfold update_received.
  destruct (returns_inv _ _ (receive_returns pe n s H)) as ([o p] & -> & S & E & Hu). cbn [mbind outcome_bind].
  destruct o as [u|]; [|by eexists _, _, _, _; split_and!; try done; constructor].
  destruct (Hu u eq_refl) as [N [U1 U2 U3 U4 Ac]]. unfold announces in Ac.
  set (parts := [(up_update u, false, _); _; _; _]).
  assert (Forall (part_ok (p_in p) (up_attr u)) parts) as Hparts.
  { unfold parts. repeat apply List.Forall_cons; try apply List.Forall_nil; (split; [done|]); try done; intros _ Hn y Hy; apply Ac; auto. }
  destruct (returns_inv _ _ (parse_parts_returns (p_in p) (up_attr u) parts [] S Hparts ltac:(constructor))) as ([err ch] & -> & Hc).
  cbn [mbind outcome_bind]. destruct err; eexists _, _, _, _; split_and!; try done.
Qed.
End Parts.

(** ** The round trip *)

Section Write.
  Context (junk : nat -> Z).

(** The loop of an update over its prefixes. *)
Fixpoint put_prefixes (s : stream) (addpath : bool) (es : list (Z * prefix)) : outcome stream :=
  match es with
  | [] => Ret s
  | e :: r => '(_, s) ← bgp_attr_stream_put_prefix_addpath junk s (snd e) addpath (fst e); put_prefixes s addpath r
  end.

Lemma nlri_bytes_bytes addpath afi safi e : nlri_typed addpath afi safi e -> bytes (nlri_bytes addpath e).
Proof.
  intros [_ _ Hl [Hb _] _ _]. pose proof (blen_small (afi2family afi)). apply Forall_app_2; [|constructor; [unfold is_byte; lia|by apply Forall_take]].
  destruct addpath; [|constructor]. unfold addpath_bytes. repeat constructor; apply Z.mod_pos_bound; lia.
Qed.

Lemma put_prefix_puts addpath afi safi e s : nlri_typed addpath afi safi e -> sane s -> room s (nlri_bytes addpath e) ->
  exists k s', bgp_attr_stream_put_prefix_addpath junk s (snd e) addpath (fst e) = Ret (k, s') /\ puts s (nlri_bytes addpath e) s'.
Proof.
  intros T S R. pose proof (nlri_bytes_bytes _ _ _ _ T) as Hb. unfold bgp_attr_stream_put_prefix_addpath, bgp_attr_stream_put_labeled_prefix.
  change (fitting_labels (snd e) []) with (@nil (list Z)). cbn [map concat app]. change (Z.of_nat (length []) * BGP_LABEL_BYTES * 8) with 0.
  destruct T as [_ _ Hl _ _ _]. pose proof (blen_small (afi2family afi)).
  replace (u8 (prefixlen (snd e) + 0)) with (prefixlen (snd e)) by (rewrite Z.add_0_r; symmetry; apply Z.mod_small; lia).
  change (_ ++ prefixlen (snd e) :: take (Z.to_nat (PSIZE (prefixlen (snd e)))) (val (snd e))) with (nlri_bytes addpath e). set (d := nlri_bytes addpath e) in *.
  clearbody d. unfold room in R. pose proof S as [S1 S2 S3 S4 S5]. unfold stream_write.
  rewrite check_size, Z.min_l, sane_verify, make_room_small by (done || lia).
  rewrite Nat2Z.id, take_ge by lia. cbn [mbind outcome_bind]. eexists _, _. split; [done|].
  destruct (append s d S R Hb) as [A1 A2]. by split.
Qed.

Lemma put_prefixes_puts addpath afi safi es : forall s, Forall (nlri_typed addpath afi safi) es -> sane s ->
  room s (concat (map (nlri_bytes addpath) es)) ->
  exists s', put_prefixes s addpath es = Ret s' /\ puts s (concat (map (nlri_bytes addpath) es)) s'.
Proof.
  induction es as [|e es IH]; intros s T S R; cbn [put_prefixes map concat] in *; [exists s; split; [done|by apply puts_refl]|].
  apply Forall_cons_1 in T as [T Ts]. destruct (put_prefix_puts addpath afi safi e s T S (room_first _ _ _ R)) as (k & s1 & -> & P1).
  destruct (IH s1 Ts (pu_sane _ _ _ P1) (room_rest _ _ _ _ P1 R)) as (s2 & E2 & P2). exists s2. split; [done|]. by apply (puts_trans s _ s1).
Qed.

(** What was written is found behind the old end of the stream. *)
Lemma puts_read s d s' : sane s -> puts s d s' -> read_bytes s' (endp s) (Z.of_nat (length d)) = d.
Proof.
  intros S [S' P E _]. pose proof (pending_length s S) as L. pose proof (pending_length s' S') as L'. rewrite P, length_app in L'.
  pose proof (sn_getp _ S). pose proof (sn_getp _ S').
  assert (drop (length (pending s)) (pending s') = d) as Hd by (by rewrite P, drop_app_length).
  rewrite <- Hd at 2. unfold pending at 2, read_bytes.
  replace (Z.to_nat (endp s)) with (Z.to_nat (getp s') + length (pending s))%nat by lia. rewrite <- drop_drop.
  rewrite take_drop_commute. f_equal. f_equal. lia.
Qed.
End Write.

(** C25: prefixes of the address family, with host bits clear, not multicast and for IPv6 not
    link-local in unicast, with path identifiers only where they are used, that
    [bgp_attr_stream_put_prefix_addpath] writes to a stream with room for them are
    read back by [bgp_nlri_parse_ip], below the limit of prefixes, with their path
    identifiers and in the same order. *)
Theorem bgp_nlri_roundtrip junk addpath afi safi es s :
  Forall (nlri_typed addpath afi safi) es -> sane s -> room s (concat (map (nlri_bytes addpath) es)) ->
  exists s', put_prefixes junk s addpath es = Ret s' /\ sane s'
  /\ forall overflow, (forall l, overflow l = false) ->
      bgp_nlri_parse_ip overflow addpath s' (mkNlri afi safi (Some (endp s)) (endp s' - endp s)) = Ret (BGP_NLRI_PARSE_OK, es).
Proof.
  intros T S R. destruct (put_prefixes_puts junk addpath afi safi es s T S R) as (s' & E & P). exists s'. split; [done|]. split; [apply P|].
  intros overflow O. set (d := concat (map (nlri_bytes addpath) es)) in *. pose proof (pu_endp _ _ _ P) as Ee.
  unfold bgp_nlri_parse_ip. cbn [nl_nlri nl_length nl_afi nl_safi]. rewrite (proj2 (Z.leb_le _ _)) by lia.
  replace (endp s' - endp s) with (Z.of_nat (length d)) by lia. rewrite (puts_read s d s' S P).
  apply nlri_loop_all; [done| |done]. unfold d. clear. induction es as [|e es IH]; [done|]. cbn [map concat]. rewrite length_app. simpl.
  assert (0 < length (nlri_bytes addpath e))%nat by (unfold nlri_bytes; rewrite length_app; simpl; lia). lia.
Qed.

Definition example_prefix : prefix := mkPrefix AF_INET 24 ([192; 0; 2] ++ replicate 13 0).
Definition empty_stream (n : nat) : stream := mkStream 0 0 (Z.of_nat n) false (replicate n 0).

Lemma empty_stream_sane n : Z.of_nat n < 9223372036854775808 -> sane (empty_stream n).
Proof. intros H. split; cbn; try lia; [by rewrite length_replicate|]. apply Forall_replicate. unfold is_byte. lia. Qed.

Lemma example_typed : nlri_typed true 1 1 (7, example_prefix).
Proof. split; cbn; try lia; try done. split; [|done]. repeat constructor; unfold is_byte; lia. Qed.

Lemma update_received_sound_witness :
  exists b changes eor p, update_received (fun _ => false) (fun _ _ => false) (fun _ _ _ _ => BGP_NLRI_PARSE_OK) external_peer 28 (buffer plain_update)
      = Ret (b, changes, eor, p)
    /\ map rc_prefixes changes = [[(0, example_prefix)]] /\ Forall (change_ok (fun _ _ => false) external_peer) changes.
Proof.
  destruct (update_received_sound (fun _ => false) (fun _ _ => false) (fun _ _ _ _ => BGP_NLRI_PARSE_OK) external_peer 28 (buffer plain_update))
    as (b & changes & eor & p & E & _ & _ & H & _).
  - apply received_buffer; [repeat constructor; unfold is_byte; lia|vm_compute; discriminate|vm_compute; split; discriminate|vm_compute; reflexivity].
  - exists b, changes, eor, p. split; [exact E|]. split; [|exact H]. vm_compute in E. injection E as _ <- _ _. reflexivity.
Defined.

Lemma bgp_nlri_roundtrip_witness :
  exists s', put_prefixes (fun _ => 0) (empty_stream 64) true [(7, example_prefix); (8, example_prefix)] = Ret s'
    /\ bgp_nlri_parse_ip (fun _ => false) true s' (mkNlri 1 1 (Some 0) 16) = Ret (BGP_NLRI_PARSE_OK, [(7, example_prefix); (8, example_prefix)]).
Proof.
  destruct (bgp_nlri_roundtrip (fun _ => 0) true 1 1 [(7, example_prefix); (8, example_prefix)] (empty_stream 64)) as (s' & E & _ & H).
  - constructor; [exact example_typed|]. constructor; [|constructor]. destruct example_typed as [_ H1 H2 H3 H4 H5].
    split; [split; [cbn; lia|discriminate]|exact H1|exact H2|exact H3|exact H4|exact H5].
  - apply empty_stream_sane. vm_compute. reflexivity.
  - vm_compute. discriminate.
  - exists s'. split; [exact E|]. specialize (H (fun _ => false) (fun _ => eq_refl)).
    vm_compute in E. injection E as <-. exact H.
Defined.
