(* ===== verification/BgpPacket.v ===== *)
(** * Writing updates (bgpd/bgp_attr.c, bgp_packet.c, bgp_updgrp_packet.c)

    [bgp_packet_attribute] writes the attributes of a route into an update, with the
    AS path and the flags that the peer is to see; [subgroup_update_packet] and
    [subgroup_withdraw_packet] make messages of a queue of prefixes.  A use of a null
    pointer, a failed assertion and a stream without room are [Abort].

    The encoders for the prefixes of EVPN, flow specifications and link states are the
    parameter [other_prefix].  Attributes of VNC are left out, as in a build without
    it. *)
From stdpp Require Import base list.
From S2P Require Import Prelude Prefix Stream AsPath AsPathOps AsPathWire BgpAttrData BgpAttr BgpUpdate.

(** ** Peers that updates are sent to *)

(** The flags of [struct peer], those of an address family for the one of the update.
    [tx_sort] is what [peer_sort] computes; [tx_remove_private] is any of the four
    flags that remove private AS numbers, [tx_srv6] one of the two for SRv6. *)
Record tx_peer := mkTx {
  tx_sort : peer_sort;
  tx_oad : bool;
  tx_as : Z;
  tx_local_as : Z;
  tx_change_local_as : Z;
  tx_replace_as : bool;
  tx_cap_as4_rcv : bool;
  tx_cap_as4_adv : bool;
  tx_as_path_unchanged : bool;
  tx_rserver_client : bool;
  tx_remove_private : bool;
  tx_send_community : bool;
  tx_send_large_community : bool;
  tx_send_ext_community : bool;
  tx_srv6 : bool;
  tx_enhe : bool;
  tx_aigp : bool;
  tx_send_nhc : bool;
  tx_link_local : bool
}.

(** [struct bgp]: the confederation with its members, the forced MED and the
    cluster. *)
Record tx_bgp := mkTxBgp {
  tb_confed_id : option Z;
  tb_confed_peers : Z -> bool;
  tb_maxmed : option Z;
  tb_cluster_id : option (list Z);
  tb_router_id : list Z
}.

(** The peer that a route comes from. *)
Record tx_from := mkFrom { tf_sort : peer_sort; tf_remote_id : list Z; tf_enhe : bool }.

(** The paths of a multipath route: their number, the identifiers of both ends of the
    session of the first one, and the remote identifiers of the others. *)
Record tx_mpath := mkMpath { tm_count : Z; tm_local_id : list Z; tm_remote_id : list Z; tm_others : list (list Z) }.

(** A prefix with its route distinguisher and labels. *)
Record tx_prefix := mkTxPrefix {
  xp_prefix : prefix;
  xp_rd : list Z;
  xp_labels : list (list Z);
  xp_addpath : bool;
  xp_addpath_id : Z
}.

Definition use32bit (tx : tx_peer) : bool := tx_cap_as4_rcv tx && tx_cap_as4_adv tx.

(** ** The AS path that is sent *)

Definition bgp_append_local_as (tx : tx_peer) : bool := negb (BGP_AS_IS_PRIVATE (tx_local_as tx)) || negb (tx_remove_private tx).

Definition outgoing_path (bg : tx_bgp) (tx : tx_peer) (a : aspath) : outcome aspath :=
  if bool_decide (tx_sort tx = BGP_PEER_EBGP)
     && (negb (tx_as_path_unchanged tx) || bool_decide (segments a = [])) && negb (tx_rserver_client tx) then
    a ← aspath_delete_confed_seq (aspath_dup a);
    match tb_confed_id bg with
    | Some confed_id =>
        if tb_confed_peers bg (tx_as tx) then aspath_add_confed_seq a (tx_local_as tx) else aspath_add_seq a confed_id
    | None =>
        if negb (tx_change_local_as tx =? 0) then
          a ← (if negb (tx_replace_as tx) && bgp_append_local_as tx then aspath_add_seq a (tx_local_as tx) else Ret a);
          aspath_add_seq a (tx_change_local_as tx)
        else aspath_add_seq a (tx_local_as tx)
    end
  else if bool_decide (tx_sort tx = BGP_PEER_CONFED) then aspath_add_confed_seq (aspath_dup a) (tx_local_as tx)
  else Ret a.

(** ** Writers *)

Definition writer : Type := stream -> outcome stream.
Definition andthen (a b : writer) : writer := fun s => s ← a s; b s.
Infix "+>" := andthen (at level 61, left associativity).
Definition nothing : writer := fun s => Ret s.
Definition when (c : bool) (w : writer) : writer := if c then w else nothing.

Section Packet.
  Context (junk : nat -> Z).

Definition discard {A} (m : outcome (A * stream)) : outcome stream := '(_, s) ← m; Ret s.
Definition putc (c : Z) : writer := fun s => discard (stream_putc junk s c).
Definition putw (w : Z) : writer := fun s => discard (stream_putw junk s w).
Definition putl (l : Z) : writer := fun s => discard (stream_putl junk s l).
Definition putq (q : Z) : writer := fun s => discard (stream_putq junk s q).
Definition put (l : list Z) (n : Z) : writer := fun s => stream_put junk s (Some l) n.
Definition put_ipv4 (a : list Z) : writer := fun s => discard (stream_put_ipv4 junk s a).
Definition put_in_addr (a : list Z) : writer := fun s => discard (stream_put_in_addr junk s a).

(** A pointer that must not be null. *)
Definition with_value {A} (o : option A) (w : A -> writer) : writer := fun s => match o with Some a => w a s | None => Abort end.

Definition OPTIONAL_TRANS : Z := Z.lor BGP_ATTR_FLAG_OPTIONAL BGP_ATTR_FLAG_TRANS.

Definition header (flags type length : Z) : writer := putc flags +> putc type +> putc length.

(** The header of an attribute that can be longer than 255 bytes. *)
Definition sized_header (flags type length : Z) : writer :=
  if 255 <? length then putc (Z.lor flags BGP_ATTR_FLAG_EXTLEN) +> putc type +> putw length
  else header flags type length.

(** The length is filled in after the path. *)
Definition put_path (flags type : Z) (a : aspath) (u : bool) : writer := fun s =>
  s ← (putc (Z.lor flags BGP_ATTR_FLAG_EXTLEN) +> putc type) s;
  sizep ← stream_get_endp s;
  s ← putw 0 s;
  '(n, s) ← aspath_put junk s a u;
  discard (stream_putw_at s sizep n).

(** ** The single attributes *)

Definition put_nexthop (tx : tx_peer) (from : option tx_from) (x : attr) : writer :=
  let nh_afi := if a_mp_nexthop_len x <? 4 then 0 else if a_mp_nexthop_len x <? 16 then 1 else 2 in
  if bgp_attr_exists x BGP_ATTR_NEXT_HOP then header BGP_ATTR_FLAG_TRANS BGP_ATTR_NEXT_HOP 4 +> put_ipv4 (a_nexthop x)
  else with_value from (fun f =>
    when (tf_enhe f || (nh_afi =? 2)) (header BGP_ATTR_FLAG_TRANS BGP_ATTR_NEXT_HOP 4 +> put_ipv4 zero4)).

Definition put_med (bg : tx_bgp) (x : attr) : writer :=
  when (bgp_attr_exists x BGP_ATTR_MULTI_EXIT_DISC || bool_decide (tb_maxmed bg <> None))
    (header BGP_ATTR_FLAG_OPTIONAL BGP_ATTR_MULTI_EXIT_DISC 4 +> putl (default (a_med x) (tb_maxmed bg))).

Definition put_local_pref (tx : tx_peer) (x : attr) : writer :=
  when (bool_decide (tx_sort tx = BGP_PEER_IBGP) || bool_decide (tx_sort tx = BGP_PEER_CONFED) || tx_oad tx)
    (header BGP_ATTR_FLAG_TRANS BGP_ATTR_LOCAL_PREF 4 +> putl (a_local_pref x)).

Definition put_atomic (x : attr) : writer :=
  when (bgp_attr_exists x BGP_ATTR_ATOMIC_AGGREGATE) (header BGP_ATTR_FLAG_TRANS BGP_ATTR_ATOMIC_AGGREGATE 0).

Definition UINT16_MAX : Z := 65535.

Definition put_aggregator (tx : tx_peer) (x : attr) : writer :=
  when (bgp_attr_exists x BGP_ATTR_AGGREGATOR)
    (putc OPTIONAL_TRANS +> putc BGP_ATTR_AGGREGATOR
     +> (if use32bit tx then putc 8 +> putl (a_aggregator_as x)
         else putc 6 +> putw (if UINT16_MAX <? a_aggregator_as x then BGP_AS_TRANS else a_aggregator_as x))
     +> put_ipv4 (a_aggregator_addr x)).

(** A community as it is in memory. *)
Definition community_bytes (v : Z) : list Z := [u8 (Z.shiftr v 24); u8 (Z.shiftr v 16); u8 (Z.shiftr v 8); u8 (Z.shiftr v 0)].

Definition put_sized (type : Z) (val : list Z) : writer :=
  let length := Z.of_nat (length val) in
  sized_header OPTIONAL_TRANS type length +> put val length.

Definition put_community (tx : tx_peer) (x : attr) : writer :=
  when (tx_send_community tx && bgp_attr_exists x BGP_ATTR_COMMUNITIES)
    (with_value (a_community x) (fun l => put_sized BGP_ATTR_COMMUNITIES (concat (map community_bytes l)))).

Definition put_large_community (tx : tx_peer) (x : attr) : writer :=
  when (tx_send_large_community tx && bgp_attr_exists x BGP_ATTR_LARGE_COMMUNITIES)
    (with_value (a_lcommunity x) (fun l => put_sized BGP_ATTR_LARGE_COMMUNITIES (concat l))).

(** The length of a cluster list is written in one byte. *)
Definition put_reflection (bg : tx_bgp) (tx : tx_peer) (from : option tx_from) (x : attr) : writer :=
  match from with
  | Some f =>
      when (bool_decide (tx_sort tx = BGP_PEER_IBGP) && bool_decide (tf_sort f = BGP_PEER_IBGP))
        (let own := put_in_addr (default (tb_router_id bg) (tb_cluster_id bg)) in
         header BGP_ATTR_FLAG_OPTIONAL BGP_ATTR_ORIGINATOR_ID 4
         +> put_in_addr (if bgp_attr_exists x BGP_ATTR_ORIGINATOR_ID then a_originator_id x else tf_remote_id f)
         +> putc BGP_ATTR_FLAG_OPTIONAL +> putc BGP_ATTR_CLUSTER_LIST
         +> match a_cluster x with
            | Some l => putc (Z.of_nat (length l) + 4) +> own +> put l (Z.of_nat (length l))
            | None => putc 4 +> own
            end)
  | None => nothing
  end.

Definition bgp_packet_ecommunity_attribute (type : Z) (o : option (list (list Z))) : writer :=
  match o with
  | Some (v :: l) => put_sized type (concat (v :: l))
  | _ => nothing
  end.

Definition put_ext_communities (tx : tx_peer) (x : attr) : writer :=
  when (tx_send_ext_community tx)
    (when (bgp_attr_exists x BGP_ATTR_EXT_COMMUNITIES) (bgp_packet_ecommunity_attribute BGP_ATTR_EXT_COMMUNITIES (a_ecommunity x))
     +> when (bgp_attr_exists x BGP_ATTR_IPV6_EXT_COMMUNITIES)
          (bgp_packet_ecommunity_attribute BGP_ATTR_IPV6_EXT_COMMUNITIES (a_ipv6_ecommunity x))).

Definition put_label_index (safi : Z) (x : attr) : writer :=
  when ((safi =? SAFI_LABELED_UNICAST) && bgp_attr_exists x BGP_ATTR_PREFIX_SID
        && negb (a_label_index x =? BGP_INVALID_LABEL_INDEX))
    (header OPTIONAL_TRANS BGP_ATTR_PREFIX_SID 10 +> putc 1 +> putw 7 +> putc 0 +> putw 0 +> putl (a_label_index x)).

Definition put_srv6 (tx : tx_peer) (afi safi : Z) (srv6_unicast : option srv6_l3service) (x : attr) : writer :=
  when ((afi =? 1) || (afi =? 2))
    (let service :=
       if (safi =? 3) && bool_decide (a_srv6_l3service x <> None) then a_srv6_l3service x
       else if tx_srv6 tx then (if bool_decide (a_srv6_l3service x <> None) then a_srv6_l3service x else srv6_unicast)
       else None in
     match service with
     | Some sv =>
         header OPTIONAL_TRANS BGP_ATTR_PREFIX_SID 37 +> putc 5 +> putw 34 +> putc 0
         +> putc 1 +> putw 30 +> putc 0 +> put (sv_sid sv) 16 +> putc 0 +> putw (sv_endpoint_behavior sv) +> putc 0
         +> putc 1 +> putw 6 +> put (sv_structure sv) 6
     | None =>
         match a_srv6_vpn x with
         | Some (_, sid) =>
             header OPTIONAL_TRANS BGP_ATTR_PREFIX_SID 22 +> putc 4 +> putw 19 +> putc 0 +> putc 1 +> putc 0 +> put sid 16
         | None => nothing
         end
     end).

Definition put_as4_path (tx : tx_peer) (a : aspath) : writer :=
  when (negb (use32bit tx) && aspath_has_as4 a)
    (fun s => a ← aspath_delete_confed_seq (aspath_dup a); put_path OPTIONAL_TRANS BGP_ATTR_AS4_PATH a true s).

Definition put_as4_aggregator (tx : tx_peer) (x : attr) : writer :=
  when (bgp_attr_exists x BGP_ATTR_AGGREGATOR && negb (use32bit tx) && (UINT16_MAX <? a_aggregator_as x))
    (header OPTIONAL_TRANS BGP_ATTR_AS4_AGGREGATOR 8 +> putl (a_aggregator_as x) +> put_ipv4 (a_aggregator_addr x)).

(** [BGP_ENCAP_TYPE_MPLS] is 10; the length of a sub-TLV is written in one byte. *)
Definition bgp_packet_mpattr_tea (x : attr) : writer :=
  let tlvs := a_encap_subtlvs x in
  let attrlenfield := 4 + fold_right (fun t n => 2 + Z.of_nat (length (snd t)) + n) 0 tlvs in
  when (negb ((a_encap_tunneltype x =? 0) || (a_encap_tunneltype x =? 10)) && negb (bool_decide (tlvs = []))
        && (attrlenfield <=? 65535))
    (sized_header OPTIONAL_TRANS BGP_ATTR_ENCAP attrlenfield
     +> putw (a_encap_tunneltype x) +> putw (attrlenfield - 4)
     +> fold_right (fun t w => putc (fst t) +> putc (Z.of_nat (length (snd t))) +> put (snd t) (Z.of_nat (length (snd t))) +> w)
          nothing tlvs).

Definition put_link_state (x : attr) : writer :=
  match a_link_state x with
  | Some l => header BGP_ATTR_FLAG_OPTIONAL BGP_ATTR_LINK_STATE (Z.of_nat (length l)) +> put l (Z.of_nat (length l))
  | None => nothing
  end.

Definition put_pmsi_tunnel (x : attr) : writer :=
  when (bgp_attr_exists x BGP_ATTR_PMSI_TUNNEL)
    (header OPTIONAL_TRANS BGP_ATTR_PMSI_TUNNEL 9 +> putc 0 +> putc (a_pmsi_tnl_type x)
     +> put (a_label x) BGP_LABEL_BYTES +> put_ipv4 (a_nexthop x)).

Definition put_otc (x : attr) : writer :=
  when (bgp_attr_exists x BGP_ATTR_OTC) (header OPTIONAL_TRANS BGP_ATTR_OTC 4 +> putl (a_otc x)).

Definition AIGP_TRANSMIT_ALLOWED (tx : tx_peer) : bool :=
  tx_aigp tx || tx_oad tx || negb (bool_decide (tx_sort tx = BGP_PEER_EBGP)).

Definition put_aigp (tx : tx_peer) (x : attr) : writer :=
  when (bgp_attr_exists x BGP_ATTR_AIGP && AIGP_TRANSMIT_ALLOWED tx)
    (header BGP_ATTR_FLAG_OPTIONAL BGP_ATTR_AIGP 11 +> putc 1 +> putw 11 +> putq (a_aigp_metric x)).

Definition put_transit (x : attr) : writer :=
  match a_transit x with Some l => put l (Z.of_nat (length l)) | None => nothing end.

(** ** Multiprotocol attributes *)

Definition afi_int2iana (afi : Z) : Z := if afi =? 1 then 1 else if afi =? 2 then 2 else if afi =? 3 then 25 else if afi =? 4 then 16388 else 0.
Definition safi_int2iana (safi : Z) : Z :=
  if safi =? 1 then 1 else if safi =? 2 then 2 else if safi =? 3 then 128 else if safi =? 4 then 7
  else if safi =? 5 then 70 else if safi =? SAFI_LABELED_UNICAST then 4 else if safi =? SAFI_FLOWSPEC then 133
  else if safi =? 8 then 71 else if safi =? 9 then 72 else if safi =? 10 then 80 else 0.

(** A pair that does not map leaves the values for IPv4 unicast. *)
Definition bgp_map_afi_safi_int2iana (afi safi : Z) : Z * Z :=
  if (afi =? AFI_MAX) || (safi =? SAFI_MAX) then (1, 1) else (afi_int2iana afi, safi_int2iana safi).
Definition put_family (afi safi : Z) : writer :=
  let '(pkt_afi, pkt_safi) := bgp_map_afi_safi_int2iana afi safi in putw pkt_afi +> putc pkt_safi.

(** [BGP_NEXTHOP_AFI_FROM_NHLEN] *)
Definition nexthop_afi (tx : tx_peer) (afi safi : Z) (x : attr) : Z :=
  if (afi =? 1) && ((safi =? 1) || (safi =? SAFI_LABELED_UNICAST) || (safi =? 3) || (safi =? 2))
  then if tx_enhe tx then 2 else 1
  else if safi =? SAFI_FLOWSPEC then afi
  else if a_mp_nexthop_len x <? 4 then 0 else if a_mp_nexthop_len x <? 16 then 1 else 2.

(** The families of unicast, multicast, labels and link states. *)
Definition plain_safi (safi : Z) : bool :=
  (safi =? 1) || (safi =? 2) || (safi =? SAFI_LABELED_UNICAST) || (safi =? 8) || (safi =? 9) || (safi =? 10).

Definition put_mp_nexthop (tx : tx_peer) (afi safi : Z) (x : attr) : writer := fun s =>
  let nh_afi := nexthop_afi tx afi safi x in
  if nh_afi =? 1 then
    if plain_safi safi then (putc 4 +> put_ipv4 (a_nexthop x)) s
    else if safi =? 3 then (putc 12 +> putl 0 +> putl 0 +> put (a_mp_nexthop_global_in x) 4) s
    else if (safi =? 4) || (safi =? 5) then (putc 4 +> put (a_mp_nexthop_global_in x) 4) s
    else if safi =? SAFI_FLOWSPEC then
      (if a_mp_nexthop_len x =? 0 then putc 0 else putc (a_mp_nexthop_len x) +> put_ipv4 (a_nexthop x)) s
    else Abort
  else if nh_afi =? 2 then
    if plain_safi safi || (safi =? 5) then
      (if a_mp_nexthop_len x =? 32 then putc 32 +> put (a_mp_nexthop_global x) 16 +> put (a_mp_nexthop_local x) 16
       else putc 16 +> put (if tx_link_local tx then a_mp_nexthop_local x else a_mp_nexthop_global x) 16) s
    else if safi =? 3 then
      (putc (if a_mp_nexthop_len x =? 48 then 48 else 24) +> putl 0 +> putl 0 +> put (a_mp_nexthop_global x) 16
       +> when (a_mp_nexthop_len x =? 48) (putl 0 +> putl 0 +> put (a_mp_nexthop_local x) 16)) s
    else if safi =? 4 then (putc 16 +> put (a_mp_nexthop_global x) 16) s
    else if safi =? SAFI_FLOWSPEC then putc 0 s
    else Abort
  else if (nh_afi =? 3) || (nh_afi =? 4) then Ret s
  else Abort.

(** The position of the length, and that of the next hop for later changes of it. *)
Definition bgp_packet_mpattr_start (tx : tx_peer) (afi safi : Z) (x : attr) (s : stream) : outcome (Z * Z * stream) :=
  s ← (putc (Z.lor BGP_ATTR_FLAG_OPTIONAL BGP_ATTR_FLAG_EXTLEN) +> putc BGP_ATTR_MP_REACH_NLRI) s;
  sizep ← stream_get_endp s;
  s ← (putw 0 +> put_family afi safi) s;
  vec ← stream_get_endp s;
  s ← (put_mp_nexthop tx afi safi x +> putc 0) s;
  Ret (sizep, vec, s).

  Context (other_prefix : Z -> Z -> tx_prefix -> option attr -> writer).

(** The labels are one value of 3 bytes for VPNs, zeros without a label. *)
Definition bgp_packet_mpattr_prefix (afi safi : Z) (xp : tx_prefix) (x : option attr) : writer := fun s =>
  let p := xp_prefix xp in
  if safi =? 3 then
    (when (xp_addpath xp) (putl (xp_addpath_id xp)) +> putc (prefixlen p + 88)
     +> (fun s => stream_put junk s (head (xp_labels xp)) BGP_LABEL_BYTES)
     +> put (xp_rd xp) 8 +> put (val p) (PSIZE (prefixlen p))) s
  else if safi =? SAFI_LABELED_UNICAST then
    discard (bgp_attr_stream_put_labeled_prefix junk s p (xp_labels xp) (xp_addpath xp) (xp_addpath_id xp))
  else if (safi =? 1) || (safi =? 2) then
    discard (bgp_attr_stream_put_prefix_addpath junk s p (xp_addpath xp) (xp_addpath_id xp))
  else if safi =? 9 then Ret s
  else if (safi =? 0) || (safi =? 4) || (safi =? SAFI_MAX) || (safi =? 5) && negb (afi =? 3) then Abort
  else other_prefix afi safi xp x s.

Definition bgp_packet_mpattr_end (sizep : Z) : writer := fun s =>
  e ← stream_get_endp s;
  discard (stream_putw_at s sizep (e - sizep - 2)).

Definition bgp_packet_mpunreach_start (afi safi : Z) (s : stream) : outcome (Z * stream) :=
  s ← (putc (Z.lor BGP_ATTR_FLAG_OPTIONAL BGP_ATTR_FLAG_EXTLEN) +> putc BGP_ATTR_MP_UNREACH_NLRI) s;
  attrlen_pnt ← stream_get_endp s;
  s ← (putw 0 +> put_family afi safi) s;
  Ret (attrlen_pnt, s).

(** A withdrawn prefix has the label 0x800000. *)
Definition bgp_packet_mpunreach_prefix (afi safi : Z) (xp : tx_prefix) (x : option attr) : writer :=
  bgp_packet_mpattr_prefix afi safi
    (if (safi =? SAFI_LABELED_UNICAST) || (safi =? 3)
     then mkTxPrefix (xp_prefix xp) (xp_rd xp) [[128; 0; 0]] (xp_addpath xp) (xp_addpath_id xp) else xp) x.
Definition bgp_packet_mpunreach_end : Z -> writer := bgp_packet_mpattr_end.

(** ** Next hop characteristics *)

Definition put_tlv (t : Z * list Z) : writer :=
  putw (fst t) +> putw (Z.of_nat (length (snd t))) +> put (snd t) (Z.of_nat (length (snd t))).

Definition bgp_packet_nhc (tx : tx_peer) (afi safi : Z) (x : attr) (bpi : option tx_mpath) : writer := fun s =>
  match bpi with
  | None => Ret s
  | Some m =>
      if (tm_count m <? 2) && bool_decide (a_nhc x = None) then Ret s
      else
        s ← (putc OPTIONAL_TRANS +> putc BGP_ATTR_NHC) s;
        sizep ← stream_get_endp s;
        s ← (putc 0 +> put_family afi safi
             +> (if nexthop_afi tx afi safi x =? 1 then putc 4 +> put_ipv4 (a_nexthop x)
                 else putc 16 +> put (a_mp_nexthop_global x) 16)
             +> when (1 <? tm_count m)
                  (putw 2 +> putw (u16 (tm_count m * 4 + 4)) +> put_ipv4 (tm_local_id m) +> put_ipv4 (tm_remote_id m)
                   +> fold_right (fun a w => put_ipv4 a +> w) nothing (tm_others m))
             +> match a_nhc x with Some n => fold_right (fun t w => put_tlv t +> w) nothing (nc_tlvs n) | None => nothing end) s;
        e ← stream_get_endp s;
        discard (stream_putc_at s sizep (e - sizep - 1))
  end.

(** ** The attributes of an update *)

Definition ip_unicast_plain (tx : tx_peer) (afi safi : Z) : bool := (afi =? 1) && (safi =? 1) && negb (tx_enhe tx).

Definition put_mp_reach (tx : tx_peer) (afi safi : Z) (xp : option tx_prefix) (x : attr) (s : stream) : outcome (option Z * stream) :=
  match xp with
  | Some xp =>
      if negb (ip_unicast_plain tx afi safi) then
        '(sizep, vec, s) ← bgp_packet_mpattr_start tx afi safi x s;
        s ← (bgp_packet_mpattr_prefix afi safi xp (Some x) +> bgp_packet_mpattr_end sizep) s;
        Ret (Some vec, s)
      else Ret (None, s)
  | None => Ret (None, s)
  end.

(** The position of the length of the next hop, when there is one. *)
Definition put_ip_nexthop (tx : tx_peer) (afi safi : Z) (from : option tx_from) (x : attr) (s : stream) : outcome (option Z * stream) :=
  if ip_unicast_plain tx afi safi then
    start ← stream_get_endp s;
    s ← put_nexthop tx from x s;
    e ← stream_get_endp s;
    Ret (if start <? e then Some (start + 2) else None, s)
  else Ret (None, s).

Definition in_families_of_tea (afi safi : Z) : bool :=
  ((afi =? 1) || (afi =? 2)) && ((safi =? 4) || (safi =? 3)) || (afi =? 3) && (safi =? 5).

(** What follows the next hop. *)
Definition put_other_attributes (bg : tx_bgp) (tx : tx_peer) (a : aspath) (afi safi : Z) (from : option tx_from)
    (srv6_unicast : option srv6_l3service) (bpi : option tx_mpath) (x : attr) : writer :=
  put_med bg x +> put_local_pref tx x +> put_atomic x +> put_aggregator tx x +> put_community tx x +> put_large_community tx x
  +> put_reflection bg tx from x +> put_ext_communities tx x +> put_label_index safi x +> put_srv6 tx afi safi srv6_unicast x
  +> put_as4_path tx a +> put_as4_aggregator tx x +> when (in_families_of_tea afi safi) (bgp_packet_mpattr_tea x)
  +> put_link_state x +> put_pmsi_tunnel x +> put_otc x +> put_aigp tx x
  +> when (tx_send_nhc tx) (bgp_packet_nhc tx afi safi x bpi) +> put_transit x.

(** The number of bytes written, and the position of the next hop. *)
Definition bgp_packet_attribute (bg : tx_bgp) (tx : tx_peer) (x : attr) (xp : option tx_prefix) (afi safi : Z)
    (from : option tx_from) (srv6_unicast : option srv6_l3service) (bpi : option tx_mpath) (s : stream)
  : outcome (Z * option Z * stream) :=
  cp ← stream_get_endp s;
  '(vec, s) ← put_mp_reach tx afi safi xp x s;
  s ← (header BGP_ATTR_FLAG_TRANS BGP_ATTR_ORIGIN 1 +> putc (a_origin x)) s;
  a ← match a_aspath x with Some a => outgoing_path bg tx a | None => Abort end;
  s ← put_path BGP_ATTR_FLAG_TRANS BGP_ATTR_AS_PATH a (use32bit tx) s;
  '(vec', s) ← put_ip_nexthop tx afi safi from x s;
  s ← put_other_attributes bg tx a afi safi from srv6_unicast bpi x s;
  e ← stream_get_endp s;
  Ret (e - cp, match vec' with Some v => Some v | None => vec end, s).

(** ** Update messages (bgp_packet.c, bgp_updgrp_packet.c) *)

Definition BGP_MARKER_SIZE : Z := 16.
Definition BGP_HEADER_SIZE : Z := 19.
Definition BGP_MSG_UPDATE : Z := 2.
Definition BGP_MAX_PACKET_SIZE_OVERFLOW : Z := 1024.
Definition BGP_NLRI_LENGTH : Z := 1.
Definition BGP_TOTAL_ATTR_LEN : Z := 2.
Definition BGP_UNFEASIBLE_LEN : Z := 2.

Fixpoint repeat_writer (n : nat) (w : writer) : writer := match n with O => nothing | S k => w +> repeat_writer k w end.
Definition bgp_packet_set_marker (type : Z) : writer := repeat_writer 16 (putc 255) +> putw 0 +> putc type.
Definition bgp_packet_set_size : writer := fun s => cp ← stream_get_endp s; discard (stream_putw_at s BGP_MARKER_SIZE cp).

Definition bgp_packet_mpattr_prefix_size (afi safi : Z) (p : prefix) : outcome Z :=
  let size := PSIZE (prefixlen p) in
  if (safi =? 0) || (safi =? SAFI_MAX) || (safi =? 4) then Abort
  else if safi =? 3 then Ret (size + 88)
  else if safi =? SAFI_LABELED_UNICAST then Ret 32
  else if safi =? 5 then (if afi =? 3 then Ret (size + 232) else Abort)
  else if safi =? SAFI_FLOWSPEC then Ret (prefixlen p)
  else Ret size.

(** What the updates of a group of peers have in common: the flags of the peers, the
    attributes of the routes, and the peer and the paths they come from. *)
Record subgroup := mkSubgroup {
  sg_bgp : tx_bgp;
  sg_peer : tx_peer;
  sg_afi : Z;
  sg_safi : Z;
  sg_addpath : bool;
  sg_attr : attr;
  sg_from : option tx_from;
  sg_srv6 : option srv6_l3service;
  sg_mpath : option tx_mpath
}.

Definition space_needed (sg : subgroup) (xp : tx_prefix) : outcome Z :=
  n ← bgp_packet_mpattr_prefix_size (sg_afi sg) (sg_safi sg) (xp_prefix xp);
  Ret (BGP_NLRI_LENGTH + (if sg_addpath sg then 4 else 0) + n).

(** The update while it is written: [us_s] is the message, [us_snlri] the attribute with
    the prefixes of other families, and the positions of their lengths. *)
Record upd_state := mkUpd {
  us_s : stream;
  us_snlri : stream;
  us_attr_len : Z;
  us_attrlen_pos : Z;
  us_mpattr_pos : Z;
  us_mpattrlen_pos : Z
}.

Definition space_remaining (u : upd_state) : Z := size (us_s u) - endp (us_s u) - endp (us_snlri u) - BGP_MAX_PACKET_SIZE_OVERFLOW.

(** The header and the attributes, but for the prefixes. *)
Definition start_update (sg : subgroup) (u : upd_state) : outcome upd_state :=
  s ← (bgp_packet_set_marker BGP_MSG_UPDATE +> putw 0) (us_s u);
  attrlen_pos ← stream_get_endp s;
  s ← putw 0 s;
  mpattr_pos ← stream_get_endp s;
  '(n, _, s) ← bgp_packet_attribute (sg_bgp sg) (sg_peer sg) (sg_attr sg) None (sg_afi sg) (sg_safi sg) (sg_from sg) (sg_srv6 sg) (sg_mpath sg) s;
  Ret (mkUpd s (us_snlri u) (u16 n) attrlen_pos mpattr_pos (us_mpattrlen_pos u)).

(** A prefix with labels, and with a path identifier when the group has them. *)
Definition of_group (sg : subgroup) (labels : list (list Z)) (xp : tx_prefix) : tx_prefix :=
  mkTxPrefix (xp_prefix xp) (xp_rd xp) labels (sg_addpath sg) (xp_addpath_id xp).

(** One prefix of an update. *)
Definition add_prefix (sg : subgroup) (xp : tx_prefix) (u : upd_state) : outcome upd_state :=
  if ip_unicast_plain (sg_peer sg) (sg_afi sg) (sg_safi sg) then
    '(_, s) ← bgp_attr_stream_put_prefix_addpath junk (us_s u) (xp_prefix xp) (sg_addpath sg) (xp_addpath_id xp);
    Ret (mkUpd s (us_snlri u) (us_attr_len u) (us_attrlen_pos u) (us_mpattr_pos u) (us_mpattrlen_pos u))
  else
    empty ← stream_empty (us_snlri u);
    '(pos, snlri) ← (if (empty : bool) then
                       '(sizep, _, snlri) ← bgp_packet_mpattr_start (sg_peer sg) (sg_afi sg) (sg_safi sg) (sg_attr sg) (us_snlri u);
                       Ret (sizep, snlri)
                     else Ret (us_mpattrlen_pos u, us_snlri u));
    snlri ← bgp_packet_mpattr_prefix (sg_afi sg) (sg_safi sg) (of_group sg (xp_labels xp) xp) (Some (sg_attr sg)) snlri;
    Ret (mkUpd (us_s u) snlri (us_attr_len u) (us_attrlen_pos u) (us_mpattr_pos u) pos).

(** The loop over the advertisements with the same attributes: what is left of them, and
    [None] when the attributes leave no room for a prefix. *)
Fixpoint update_loop (sg : subgroup) (advs : list tx_prefix) (u : upd_state) : outcome (option (list tx_prefix * upd_state)) :=
  match advs with
  | [] => Ret (Some ([], u))
  | xp :: rest =>
      needed ← space_needed sg xp;
      if space_remaining u <? needed then Ret (Some (advs, u))
      else
        empty ← stream_empty (us_s u);
        u ← (if (empty : bool) then start_update sg u else Ret u);
        if empty && (space_remaining u <? needed) then Ret None
        else
          u ← add_prefix sg xp u;
          update_loop sg rest u
  end.

(** The lengths are filled in and both streams joined. *)
Definition finish_update (u : upd_state) : outcome (option stream) :=
  nothing_written ← stream_empty (us_s u);
  if (nothing_written : bool) then Ret None
  else
    plain ← stream_empty (us_snlri u);
    packet ← (if (plain : bool) then
                s ← discard (stream_putw_at (us_s u) (us_attrlen_pos u) (us_attr_len u));
                stream_dup junk s
              else
                snlri ← bgp_packet_mpattr_end (us_mpattrlen_pos u) (us_snlri u);
                e ← stream_get_endp snlri;
                s ← discard (stream_putw_at (us_s u) (us_attrlen_pos u) (u16 (us_attr_len u + e)));
                o ← stream_dupcat junk s snlri (us_mpattr_pos u);
                match o with Some packet => Ret packet | None => Abort end);
    packet ← bgp_packet_set_size packet;
    Ret (Some packet).

(** The message for the first advertisements of the queue, and the rest of the queue.  The
    queue of packets has room. *)
Definition subgroup_update_packet (sg : subgroup) (work scratch : stream) (advs : list tx_prefix) : outcome (option stream * list tx_prefix) :=
  s ← stream_reset work;
  snlri ← stream_reset scratch;
  o ← update_loop sg advs (mkUpd s snlri 0 0 0 0);
  match o with
  | None => Ret (None, [])
  | Some (rest, u) => packet ← finish_update u; Ret (packet, rest)
  end.

(** ** Withdrawals *)

(** The positions of the lengths of all attributes and of MP_UNREACH_NLRI; there are no
    labels and no attributes. *)
Fixpoint withdraw_loop (sg : subgroup) (advs : list tx_prefix) (s : stream) (attrlen_pos mp_start mplen_pos : Z)
  : outcome (list tx_prefix * stream * Z * Z * Z) :=
  match advs with
  | [] => Ret ([], s, attrlen_pos, mp_start, mplen_pos)
  | xp :: rest =>
      needed ← space_needed sg xp;
      if STREAM_WRITEABLE s - BGP_MAX_PACKET_SIZE_OVERFLOW <? needed + BGP_TOTAL_ATTR_LEN then Ret (advs, s, attrlen_pos, mp_start, mplen_pos)
      else
        first_time ← stream_empty s;
        s ← when first_time (bgp_packet_set_marker BGP_MSG_UPDATE +> putw 0) s;
        if ip_unicast_plain (sg_peer sg) (sg_afi sg) (sg_safi sg) then
          '(_, s) ← bgp_attr_stream_put_prefix_addpath junk s (xp_prefix xp) (sg_addpath sg) (xp_addpath_id xp);
          withdraw_loop sg rest s attrlen_pos mp_start mplen_pos
        else
          '(attrlen_pos, mp_start, mplen_pos, s) ←
            (if (first_time : bool) then
               attrlen_pos ← stream_get_endp s;
               s ← putw 0 s;
               mp_start ← stream_get_endp s;
               '(mplen_pos, s) ← bgp_packet_mpunreach_start (sg_afi sg) (sg_safi sg) s;
               Ret (attrlen_pos, mp_start, mplen_pos, s)
             else Ret (attrlen_pos, mp_start, mplen_pos, s));
          s ← bgp_packet_mpunreach_prefix (sg_afi sg) (sg_safi sg) (of_group sg [] xp) None s;
          withdraw_loop sg rest s attrlen_pos mp_start mplen_pos
  end.

Definition subgroup_withdraw_packet (sg : subgroup) (work : stream) (advs : list tx_prefix) : outcome (option stream * list tx_prefix) :=
  s ← stream_reset work;
  '(rest, s, attrlen_pos, mp_start, mplen_pos) ← withdraw_loop sg advs s 0 0 0;
  empty ← stream_empty s;
  if (empty : bool) then Ret (None, rest)
  else
    e ← stream_get_endp s;
    s ← (if ip_unicast_plain (sg_peer sg) (sg_afi sg) (sg_safi sg) then
           s ← discard (stream_putw_at s BGP_HEADER_SIZE (u16 (e - BGP_HEADER_SIZE - BGP_UNFEASIBLE_LEN)));
           putw 0 s
         else
           s ← bgp_packet_mpunreach_end mplen_pos s;
           e ← stream_get_endp s;
           discard (stream_putw_at s attrlen_pos (u16 (e - mp_start))));
    s ← bgp_packet_set_size s;
    packet ← stream_dup junk s;
    Ret (Some packet, rest).
End Packet.
