(* ===== verification/BgpPacketFacts.v ===== *)
(** * Writing and reading attributes

    What each writer appends to a stream ([emits]), how the walk over the attributes
    takes a well-formed one ([attr_loop_run]), and what each handler makes of it
    ([read_ok]). *)
From stdpp Require Import base list sorting.
From S2P Require Import Prelude Stream StreamFacts AsPath AsPathText AsPathOps AsPathWire AsPathTextFacts AsPathFacts AsPathWireFacts.
From S2P Require Import AsPathAggregate BgpAttrData BgpAttr BgpUpdate BgpAttrRead BgpUpdateFacts BgpNlriFacts BgpPacket.

(** ** Overwriting bytes *)

Lemma patch_list (L d : list Z) i g m : (g <= i)%nat -> (i + length d <= g + m)%nat -> (g + m <= length L)%nat ->
  take m (drop g (memcpy_at L i d)) = take (i - g) (take m (drop g L)) ++ d ++ drop (i - g + length d) (take m (drop g L)).
Proof.
  intros H1 H2 H3. rewrite memcpy_at_app by lia. apply list_eq. intros k.
  destruct (decide (k < m)%nat) as [Hk|Hk].
  2: { rewrite lookup_take_ge by lia. symmetry. apply lookup_ge_None_2.
       rewrite !length_app, length_drop, !length_take, length_drop. lia. }
  rewrite lookup_take_lt, lookup_drop by lia. destruct (decide (g + k < i)%nat) as [Hi|Hi].
  { rewrite !lookup_app_l by (rewrite ?length_take, ?length_drop; lia). rewrite !lookup_take_lt, lookup_drop by lia. done. }
  rewrite !(lookup_app_r (take _ _)) by (rewrite ?length_take, ?length_drop; lia). rewrite !length_take, length_drop.
  replace (g + k - i `min` length L)%nat with (k - (i - g) `min` (m `min` (length L - g)))%nat by lia.
  set (j := (k - _)%nat). destruct (decide (j < length d)%nat) as [Hj|Hj]; [by rewrite !lookup_app_l by lia|].
  rewrite !lookup_app_r, !lookup_drop by lia. rewrite lookup_take_lt, lookup_drop by lia. f_equal. lia.
Qed.

Lemma puts_getp s d s' : sane s -> puts s d s' -> getp s' = getp s.
Proof.
  intros S [S' P E _]. pose proof (pending_length s S) as L. pose proof (pending_length s' S') as L'. rewrite P, length_app in L'. lia.
Qed.

(** Filling in a field of what was written. *)
Lemma puts_patch s a z b s' n v : sane s -> puts s (a ++ z ++ b) s' -> length z = n ->
  exists s'', stream_be_at n s' (endp s + Z.of_nat (length a)) v = Ret (Z.of_nat n, s'') /\ puts s (a ++ be_bytes n v ++ b) s''.
Proof.
  intros S P Hz. pose proof (puts_getp s _ s' S P) as Eg. destruct P as [S' P E Zs]. rewrite !length_app in E.
  pose proof S as [? ? ? ? ?]. pose proof S' as [? ? ? Ld ?]. unfold stream_be_at. rewrite sane_verify by done.
  unfold GETP_VALID. rewrite u64_small, (proj2 (Z.leb_le _ _)) by lia. eexists. split; [done|].
  rewrite be_at_spec by lia. split.
  - apply write_bytes_sane; [done|lia|rewrite be_bytes_length; lia|apply be_bytes_bytes].
  - pose proof (pending_length s S). unfold pending at 1, read_bytes, write_bytes, set_data. cbn [data getp endp].
    rewrite patch_list by (rewrite ?be_bytes_length; lia). rewrite be_bytes_length.
    change (take _ (drop _ (data s'))) with (pending s'). rewrite P.
    replace (Z.to_nat (endp s + Z.of_nat (length a)) - Z.to_nat (getp s'))%nat with (length (pending s ++ a)) by (rewrite length_app; lia).
    rewrite (app_assoc (pending s) a), take_app_length. rewrite <- app_assoc. do 3 f_equal.
    rewrite <- drop_drop, drop_app_length. rewrite <- Hz. by rewrite drop_app_length.
  - cbn. rewrite !length_app, be_bytes_length. lia.
  - done.
Qed.

(** ** Writers *)

Section Emit.
  Context (junk : nat -> Z) (Hjunk : forall i, is_byte (junk i)).

(** [w] appends [d] where there is room for it. *)
Definition emits (w : writer) (d : list Z) : Prop := forall s, sane s -> room s d -> exists s', w s = Ret s' /\ puts s d s'.

Lemma emits_nothing : emits nothing [].
Proof. intros s S _. exists s. split; [done|by apply puts_refl]. Qed.

Lemma emits_then a b da db : emits a da -> emits b db -> emits (a +> b) (da ++ db).
Proof.
  intros Ha Hb s S R. destruct (Ha s S (room_first _ _ _ R)) as (s1 & E1 & P1).
  destruct (Hb s1 (pu_sane _ _ _ P1) (room_rest _ _ _ _ P1 R)) as (s2 & E2 & P2).
  exists s2. unfold andthen. rewrite E1. split; [done|]. by apply (puts_trans s da s1).
Qed.

Lemma emits_when c w d : (c = true -> emits w d) -> emits (when c w) (if c then d else []).
Proof. intros H. destruct c; [by apply H|apply emits_nothing]. Qed.

Lemma emits_be n v w : (n <= 8)%nat -> (forall s, w s = discard (stream_put_be junk n s v)) -> emits w (be_bytes n v).
Proof.
  intros Hn Hw s S R. destruct (put_be_puts junk Hjunk n v s S Hn R) as (s' & E & P). exists s'. rewrite Hw, E. done.
Qed.

Lemma emits_putc c : emits (putc junk c) (be_bytes 1 c).
Proof. apply emits_be; [lia|done]. Qed.
Lemma emits_putw c : emits (putw junk c) (be_bytes 2 c).
Proof. apply emits_be; [lia|done]. Qed.
Lemma emits_putl c : emits (putl junk c) (be_bytes 4 c).
Proof. apply emits_be; [lia|done]. Qed.
Lemma emits_putq c : emits (putq junk c) (be_bytes 8 c).
Proof. apply emits_be; [lia|done]. Qed.

Lemma append_puts s d : sane s -> room s d -> bytes d ->
  puts s d (set_endp (endp s + Z.of_nat (length d)) (write_bytes s (endp s) d)).
Proof. intros S R B. destruct (append s d S R B). by split. Qed.

Lemma emits_put l n : n = Z.of_nat (length l) -> bytes l -> emits (put junk l n) l.
Proof.
  intros -> B s S R. unfold put, stream_put. pose proof S as [? ? ? ? ?]. unfold room in R.
  rewrite check_size, Z.min_l, sane_verify, make_room_small by (done || lia). cbn [mbind outcome_bind].
  rewrite Nat2Z.id, take_ge by lia. eexists. split; [done|]. by apply append_puts.
Qed.

(** Four bytes, as addresses are. *)
Record addr4 (l : list Z) : Prop := { ad_len : length l = 4%nat; ad_bytes : bytes l }.

Lemma emits_put_ipv4 l : addr4 l -> emits (put_ipv4 junk l) l.
Proof.
  intros [L B] s S R. pose proof (append_puts s l S R B) as P. unfold put_ipv4, stream_put_ipv4. rewrite sane_verify by done.
  unfold room in R. rewrite writeable, (proj2 (Z.ltb_ge _ _)), take_ge by (done || lia). rewrite L in P. cbn [discard mbind outcome_bind].
  eexists. split; [done|]. exact P.
Qed.

Lemma emits_put_in_addr l : addr4 l -> emits (put_in_addr junk l) l.
Proof.
  intros [L B] s S R. pose proof (append_puts s l S R B) as P. unfold put_in_addr, stream_put_in_addr. rewrite sane_verify by done.
  unfold room in R. rewrite make_room_small, take_ge by (done || lia). rewrite L in P. cbn [discard mbind outcome_bind].
  eexists. split; [done|]. exact P.
Qed.
End Emit.

(** ** Attributes on the wire *)

Record tlv := mkTlv { t_flags : Z; t_type : Z; t_body : list Z }.

Definition t_length (t : tlv) : Z := Z.of_nat (length (t_body t)).
Definition t_lfl (t : tlv) : nat := if has (t_flags t) BGP_ATTR_FLAG_EXTLEN then 2 else 1.
Definition tlv_wire (t : tlv) : list Z :=
  be_bytes 1 (t_flags t) ++ be_bytes 1 (t_type t) ++ be_bytes (t_lfl t) (t_length t) ++ t_body t.
Definition tlvs_wire (l : list tlv) : list Z := concat (map tlv_wire l).

Lemma tlv_wire_length t : Z.of_nat (length (tlv_wire t)) = 2 + Z.of_nat (t_lfl t) + t_length t.
Proof. unfold tlv_wire, t_length. rewrite !length_app, !be_bytes_length. lia. Qed.

Lemma tlvs_wire_app l1 l2 : tlvs_wire (l1 ++ l2) = tlvs_wire l1 ++ tlvs_wire l2.
Proof. unfold tlvs_wire. by rewrite map_app, concat_app. Qed.

Record tlv_ok (t : tlv) : Prop := {
  to_flags : Z.land 240 (t_flags t) = t_flags t;
  to_byte : 0 <= t_flags t < 256;
  to_type : 0 <= t_type t < 256;
  to_length : t_length t < 2 ^ (8 * Z.of_nat (t_lfl t))
}.

Definition args_of (g : parser_args) (t : tlv) : Prop := g_type g = t_type t /\ g_flags g = t_flags t /\ g_length g = t_length t.

(** The attribute [t] is read to its end, and changes the parser by [f]. *)
Record read_ok (pe : peer) (t : tlv) (f : parser -> parser) : Prop := {
  ro_ok : tlv_ok t;
  ro_flags : forall g, args_of g t -> bgp_attr_flag_invalid pe g = false;
  ro_in : forall p, p_in (f p) = p_in p;
  ro_set : forall p s, f (set_p_in s p) = set_p_in s (f p);
  ro_read : forall g p rest, args_of g t -> sane (p_in p) -> pending (p_in p) = t_body t ++ rest ->
    parse_attribute pe g p = proceed (set_p_in (set_getp (getp (p_in p) + t_length t) (p_in p)) (f p))
}.

Lemma next_value n v rest s : sane s -> pending s = be_bytes n v ++ rest -> 0 <= v < 2 ^ (8 * Z.of_nat n) ->
  be_value (bytes_at (data s) (getp s) n) = v.
Proof.
  intros S P H. rewrite pending_take by (rewrite P, length_app, be_bytes_length; lia).
  rewrite P, take_app_length' by (by rewrite be_bytes_length). by rewrite be_value_bytes, Z.mod_small.
Qed.

(** Reading a field. *)
Lemma advance_app d rest s n : sane s -> pending s = d ++ rest -> n = Z.of_nat (length d) ->
  sane (set_getp (getp s + n) s) /\ pending (set_getp (getp s + n) s) = rest /\ getp s + n <= endp s.
Proof.
  intros S P ->. destruct (advance s (length d) S) as [A1 A2]; [rewrite P, length_app; lia|].
  split; [done|]. rewrite A2, P, drop_app_length. split; [done|]. pose proof (pending_length s S) as L. rewrite P, length_app in L. lia.
Qed.

Lemma getc_next v rest s : sane s -> pending s = be_bytes 1 v ++ rest -> 0 <= v < 256 -> stream_getc s = Ret (v, set_getp (getp s + 1) s).
Proof.
  intros S P H. destruct (advance_app _ _ s 1 S P eq_refl) as (_ & _ & L). rewrite (getc_spec s S L). by rewrite (next_value 1 v rest s S P H).
Qed.
Lemma getw_next v rest s : sane s -> pending s = be_bytes 2 v ++ rest -> 0 <= v < 65536 -> stream_getw s = Ret (v, set_getp (getp s + 2) s).
Proof.
  intros S P H. destruct (advance_app _ _ s 2 S P eq_refl) as (_ & _ & L). rewrite (getw_spec s S L). by rewrite (next_value 2 v rest s S P H).
Qed.
Lemma getl_next v rest s : sane s -> pending s = be_bytes 4 v ++ rest -> 0 <= v < 4294967296 -> stream_getl s = Ret (v, set_getp (getp s + 4) s).
Proof.
  intros S P H. destruct (advance_app _ _ s 4 S P eq_refl) as (_ & _ & L). rewrite (getl_spec s S L). by rewrite (next_value 4 v rest s S P H).
Qed.

Lemma next_bytes d rest s n : sane s -> pending s = d ++ rest -> n = Z.of_nat (length d) -> read_bytes s (getp s) n = d.
Proof.
  intros S P ->. unfold read_bytes. rewrite Nat2Z.id. change (take (length d) (drop (Z.to_nat (getp s)) (data s))) with (bytes_at (data s) (getp s) (length d)).
  rewrite pending_take by (rewrite P, length_app; lia). by rewrite P, take_app_length.
Qed.

Lemma get_ipv4_next d rest s : sane s -> pending s = d ++ rest -> addr4 d -> stream_get_ipv4 s = Ret (d, set_getp (getp s + 4) s).
Proof.
  intros S P [L _]. destruct (advance_app _ _ s 4 S P) as (_ & _ & B); [by rewrite L|]. unfold stream_get_ipv4.
  rewrite sane_verify, readable_left, (proj2 (Z.ltb_ge _ _)) by (done || lia). by rewrite (next_bytes d rest s 4 S P) by (by rewrite L).
Qed.

Lemma peek_next d rest s n : sane s -> pending s = d ++ rest -> n = Z.of_nat (length d) -> peek s n = Ret d.
Proof.
  intros S P Hn. destruct (advance_app _ _ s n S P Hn) as (_ & _ & B). unfold peek. rewrite (proj2 (Z.leb_le _ _)) by lia.
  by rewrite (next_bytes d rest s n S P Hn).
Qed.

Lemma forward_next d rest p n : sane (p_in p) -> pending (p_in p) = d ++ rest -> n = Z.of_nat (length d) ->
  forward n p = Ret (set_p_in (set_getp (getp (p_in p) + n) (p_in p)) p).
Proof.
  intros S P Hn. destruct (advance_app _ _ _ n S P Hn) as (_ & _ & B). pose proof S as [? ? ? ? ?].
  unfold forward, stream_forward_getp, GETP_VALID. rewrite sane_verify, u64_small, (proj2 (Z.leb_le _ _)) by (done || lia). done.
Qed.

(** ** The walk over the attributes *)

Definition moved (n : Z) (p : parser) : parser := set_p_in (set_getp (getp (p_in p) + n) (p_in p)) p.

Lemma attr_loop_step pe e seen len k t f p rest : read_ok pe t f -> sane (p_in p) -> pending (p_in p) = tlv_wire t ++ rest ->
  getp (p_in p) + Z.of_nat (length (tlv_wire t)) <= e -> t_type t ∉ seen -> Z.of_nat (length (tlv_wire t)) < 65536 ->
  attr_loop (S k) pe e seen len p = attr_loop k pe e (t_type t :: seen) (t_length t) (f (moved (Z.of_nat (length (tlv_wire t))) p)).
Proof.
  intros [[Of Ob Ot Ol] Rf Ri Rs Rr] S P He Hs Hw. rewrite tlv_wire_length in *.
  assert (0 <= t_length t) as Hl by (unfold t_length; lia).
  assert (1 <= Z.of_nat (t_lfl t) <= 2) as Hlf by (unfold t_lfl; case_bool; lia).
  cbn [attr_loop]. rewrite (proj2 (Z.ltb_lt _ _)) by lia. cbn [negb]. unfold BGP_ATTR_MIN_LEN. rewrite (proj2 (Z.ltb_ge _ _)) by lia.
  unfold tlv_wire in P. rewrite <- !app_assoc in P.
  destruct (advance_app _ _ _ 1 S P eq_refl) as (S1 & P1 & _). destruct (advance_app _ _ _ 1 S1 P1 eq_refl) as (S2 & P2 & _).
  destruct (advance_app _ _ _ (Z.of_nat (t_lfl t)) S2 P2) as (S3 & P3 & _); [by rewrite be_bytes_length|].
  rewrite (getc_next (t_flags t) _ _ S P) by lia. cbn [mbind outcome_bind].
  rewrite (getc_next (t_type t) _ _ S1 P1) by lia. cbn [mbind outcome_bind]. rewrite Of.
  rewrite !set_getp_twice in *. cbn [getp set_getp] in *.
  assert (has (t_flags t) BGP_ATTR_FLAG_EXTLEN && (e - getp (p_in p) <? 3 + 1) = false) as ->.
  { destruct (has _ _) eqn:E; [|done]. unfold t_lfl in *. rewrite E in *. apply Z.ltb_ge. lia. }
  assert ((if has (t_flags t) BGP_ATTR_FLAG_EXTLEN then stream_getw (set_getp (getp (p_in p) + 1 + 1) (p_in p))
           else stream_getc (set_getp (getp (p_in p) + 1 + 1) (p_in p)))
          = Ret (t_length t, set_getp (getp (p_in p) + 1 + 1 + Z.of_nat (t_lfl t)) (p_in p))) as ->.
  { unfold t_lfl in *. destruct (has _ _); [rewrite (getw_next (t_length t) _ _ S2 P2) by lia|rewrite (getc_next (t_length t) _ _ S2 P2) by lia]; done. }
  cbn [mbind outcome_bind getp set_getp]. rewrite (proj2 (Z.ltb_ge e _)) by lia. rewrite bool_decide_eq_false_2 by done.
  set (g := mkArgs _ _ _ _ _). assert (args_of g t) as Hg by done. rewrite (Rf g Hg).
  rewrite (Rr g _ rest Hg) by done. unfold proceed. cbn [mbind outcome_bind].
  cbn [p_in set_p_in getp set_getp]. rewrite Z.eqb_refl. cbn [negb]. f_equal. unfold moved. rewrite !Rs.
  cbn [set_p_in p_in]. rewrite set_getp_twice. cbn [getp set_getp].
  replace (getp (p_in p) + (2 + Z.of_nat (t_lfl t) + t_length t)) with (getp (p_in p) + 1 + 1 + Z.of_nat (t_lfl t) + t_length t) by lia. done.
Qed.

(** All attributes of a list, each with its effect. *)
Definition run (l : list (tlv * (parser -> parser))) (p : parser) : parser := fold_left (fun p e => snd e p) l p.

Lemma attr_loop_run pe e l : forall k seen len p rest,
  Forall (fun x => read_ok pe (fst x) (snd x)) l -> sane (p_in p) -> pending (p_in p) = tlvs_wire (map fst l) ++ rest ->
  e = getp (p_in p) + Z.of_nat (length (tlvs_wire (map fst l))) -> Z.of_nat (length (tlvs_wire (map fst l))) < 65536 ->
  NoDup (map (fun x => t_type (fst x)) l) -> (forall x, x ∈ l -> t_type (fst x) ∉ seen) -> (length l <= k)%nat ->
  exists len', attr_loop k pe e seen len p = Ret (None, len', run l (moved (Z.of_nat (length (tlvs_wire (map fst l)))) p)).
Proof.
  induction l as [|[t f] l IH]; intros k seen len p rest Ok S P He Hw Nd Hs Hk.
  { exists len. simpl in *. unfold moved. simpl. rewrite Z.add_0_r, set_getp_id.
    destruct k; cbn [attr_loop]; rewrite (proj2 (Z.ltb_ge _ _)) by lia; cbn; do 2 f_equal; by destruct p. }
  apply Forall_cons_1 in Ok as [Ot Ok]. cbn [map fst snd] in *.
  change (tlvs_wire (t :: map fst l)) with (tlv_wire t ++ tlvs_wire (map fst l)) in *. rewrite length_app in *. rewrite <- app_assoc in P.
  inversion_clear Nd as [|? ? Nt Nd1]. destruct k as [|k]; [simpl in Hk; lia|].
  rewrite (attr_loop_step pe e seen len k t f p _ Ot S P) by (try lia; apply (Hs (t, f)); left).
  destruct (advance_app _ _ _ (Z.of_nat (length (tlv_wire t))) S P eq_refl) as (S1 & P1 & _).
  pose proof (ro_in _ _ _ Ot) as Ri. pose proof (ro_set _ _ _ Ot) as Rs.
  destruct (IH k (t_type t :: seen) (t_length t) (f (moved (Z.of_nat (length (tlv_wire t))) p)) rest) as (len' & E);
    rewrite ?Ri; try done.
  - unfold moved. cbn [p_in set_p_in getp set_getp]. lia.
  - lia.
  - intros x Hx. apply not_elem_of_cons. split; [|by apply Hs; right]. intros Heq. apply Nt. rewrite <- Heq.
    by apply (list_elem_of_fmap_2 (fun x => t_type (fst x))).
  - simpl in Hk. lia.
  - exists len'. rewrite E. do 2 f_equal. unfold run. cbn [fold_left snd]. f_equal.
    unfold moved. rewrite !Rs. cbn [p_in set_p_in getp set_getp]. rewrite set_getp_twice.
    replace (getp (p_in p) + Z.of_nat (length (tlv_wire t) + length (tlvs_wire (map fst l))))
      with (getp (p_in p) + Z.of_nat (length (tlv_wire t)) + Z.of_nat (length (tlvs_wire (map fst l)))) by lia. done.
Qed.

(** ** Lists of values *)

Lemma values_concat n (l : list (list Z)) : (0 < n)%nat -> Forall (fun v => length v = n) l -> values n (concat l) = l.
Proof.
  intros Hn. unfold values. assert (forall k, (length (concat l) <= k)%nat -> Forall (fun v => length v = n) l -> chop k n (concat l) = l) as H.
  { induction l as [|v l IH]; intros k Hk H; [by destruct k|]. apply Forall_cons_1 in H as [Hv H]. cbn [concat] in *. rewrite length_app in Hk.
    destruct k as [|k]; [lia|]. cbn [chop]. destruct (v ++ concat l) as [|z r] eqn:E; [apply (f_equal length) in E; rewrite length_app in E; simpl in E; lia|].
    rewrite <- E, take_app_length', drop_app_length' by done. f_equal. apply IH; [lia|done]. }
  by apply H.
Qed.

Lemma concat_length n (l : list (list Z)) : Forall (fun v => length v = n) l -> length (concat l) = (n * length l)%nat.
Proof. induction 1 as [|v l Hv _ IH]; [simpl; lia|]. cbn [concat]. rewrite length_app, IH, Hv. simpl. lia. Qed.

Lemma be_value_of_eq l : be_value_of l = be_value l.
Proof. induction l as [|b l IH]; [done|]. cbn [be_value_of be_value]. rewrite IH, Z.pow_mul_r by lia. done. Qed.

Lemma be_value_of_bytes n v : 0 <= v < 2 ^ (8 * Z.of_nat n) -> be_value_of (be_bytes n v) = v.
Proof. intros H. by rewrite be_value_of_eq, be_value_bytes, Z.mod_small. Qed.

(** Communities as the daemon keeps them: each once, in order. *)
Record community_ok (l : list Z) : Prop := {
  co_some : l <> [];
  co_range : Forall (fun v => 0 <= v < 4294967296) l;
  co_sorted : StronglySorted Z.lt l;
  co_fits : 4 * Z.of_nat (length l) <= 60000
}.

Lemma community_bytes_eq v : community_bytes v = be_bytes 4 v.
Proof. done. Qed.

Lemma communities_lengths l : Forall (fun v => length v = 4%nat) (map community_bytes l).
Proof. induction l; constructor; done. Qed.

Lemma communities_length l : Z.of_nat (length (concat (map community_bytes l))) = 4 * Z.of_nat (length l).
Proof. rewrite (concat_length 4) by apply communities_lengths. rewrite length_map. lia. Qed.

Lemma community_parse_bytes l : community_ok l -> community_parse (concat (map community_bytes l)) = Some l.
Proof.
  intros [_ R S _]. unfold community_parse. rewrite communities_length, Z.mul_comm, Z.mod_mul by lia. cbn [Z.eqb negb].
  rewrite values_concat by (lia || apply communities_lengths). rewrite map_map.
  assert (map (fun v => be_value_of (community_bytes v)) l = l) as ->; [|by rewrite sort_uniq_id].
  clear S. induction R as [|v l Hv _ IH]; [done|]. cbn [map]. rewrite IH, community_bytes_eq, be_value_of_bytes by done. done.
Qed.

(** Values of [n] bytes, each once and in order. *)
Definition vlt (v w : list Z) : Prop := memcmp v w (length w) < 0.

Record values_ok (n : nat) (l : list (list Z)) : Prop := {
  vo_some : l <> [];
  vo_len : Forall (fun v => length v = n) l;
  vo_bytes : Forall bytes l;
  vo_sorted : StronglySorted vlt l;
  vo_fits : Z.of_nat n * Z.of_nat (length l) <= 60000
}.

Lemma add_val_last v l : Forall (fun x => vlt x v) l -> add_val v l = l ++ [v].
Proof.
  induction 1 as [|x l Hx _ IH]; [done|]. unfold vlt in Hx. cbn [add_val app].
  rewrite (proj2 (Z.eqb_neq _ _)), (proj2 (Z.ltb_ge _ _)), IH by lia. done.
Qed.

Lemma add_vals_sorted l : forall acc, StronglySorted vlt (acc ++ l) -> fold_left (fun acc v => add_val v acc) l acc = acc ++ l.
Proof.
  induction l as [|v l IH]; intros acc H; [by rewrite app_nil_r|]. cbn [fold_left].
  rewrite add_val_last; [rewrite IH; rewrite <- app_assoc; done|].
  clear IH. induction acc as [|x acc IHa]; [constructor|]. inversion_clear H as [|? ? H1 H2]. constructor; [|by apply IHa].
  rewrite Forall_app in H2. destruct H2 as [_ H2]. by inversion_clear H2.
Qed.

Lemma ecommunity_parse_concat n l : (0 < n)%nat -> values_ok n l -> ecommunity_parse_internal n (concat l) = Some l.
Proof.
  intros Hn [_ L _ S _]. unfold ecommunity_parse_internal. rewrite (concat_length n l L), Nat2Z.inj_mul, Z.mul_comm, Z.mod_mul by lia.
  cbn [Z.eqb negb]. by rewrite values_concat, add_vals_sorted.
Qed.

Lemma values_length n l : values_ok n l -> Z.of_nat (length (concat l)) = Z.of_nat n * Z.of_nat (length l).
Proof. intros [_ L _ _ _]. rewrite (concat_length n l L). lia. Qed.

Lemma values_pos n l : (0 < n)%nat -> values_ok n l -> 0 < Z.of_nat (length (concat l)) <= 60000.
Proof. intros Hn H. rewrite (values_length n l H). destruct H as [Hs _ _ _ Hf]. destruct l; [done|]. simpl length in *. lia. Qed.

(** ** Reading single attributes *)

Definition sized_flags (body : list Z) : Z := if 255 <? Z.of_nat (length body) then 208 else 192.
Definition sized (type : Z) (body : list Z) : tlv := mkTlv (sized_flags body) type body.

Lemma sized_ok type body : 0 <= type < 256 -> Z.of_nat (length body) <= 60000 -> tlv_ok (sized type body).
Proof.
  intros Ht Hb. unfold sized, sized_flags. destruct (Z.ltb_spec 255 (Z.of_nat (length body)));
    (split; [done|done|done|]; unfold t_length, t_lfl; cbn [t_flags t_body]).
  - change (2 ^ _) with 65536. lia.
  - change (2 ^ _) with 256. lia.
Qed.

Section Handlers.
  Context (pe : peer) (Hd : forall t, pe_discard pe t = false) (Hw : forall t, pe_withdraw pe t = false).

Lemma not_ignored g : ignored pe g = false.
Proof. unfold ignored. by rewrite Hd, Hw. Qed.

Ltac flags_valid := let g := fresh "g" in intros g (Gt & Gf & _); unfold bgp_attr_flag_invalid; rewrite Gt, Gf, Hd, Hw; reflexivity.
Ltac args := let g := fresh "g" in intros g p rest (Gt & Gf & Gl) S P; destruct g as [gl gtot gt gf gs];
  cbn [g_type g_flags g_length t_type t_flags t_body] in *; subst gt gf gl.
Ltac tlv_small := split; cbn; try done; lia.

(** The branch of an attribute, and a length that is right. *)
Ltac branch h := match goal with |- parse_attribute pe ?g ?p = _ => change (parse_attribute pe g p) with (h pe g p); unfold h; cbn [g_length g_type] end.

Lemma read_origin o : 0 <= o <= 2 ->
  read_ok pe (mkTlv 64 1 (be_bytes 1 o)) (upd_attr (fun x => bgp_attr_set BGP_ATTR_ORIGIN (set_a_origin o x))).
Proof.
  intros Ho. split; [tlv_small|flags_valid|done|done|]. args. branch bgp_attr_origin.
  change (negb (t_length _ =? 1)) with false. cbn match. rewrite (getc_next o rest _ S P) by lia. cbn [mbind outcome_bind].
  assert (negb (o =? BGP_ORIGIN_IGP) && negb (o =? BGP_ORIGIN_EGP) && negb (o =? BGP_ORIGIN_INCOMPLETE) = false) as ->; [|done].
  unfold BGP_ORIGIN_IGP, BGP_ORIGIN_EGP, BGP_ORIGIN_INCOMPLETE. repeat case_bool; lia || done.
Qed.

Lemma read_nexthop a : addr4 a -> read_ok pe (mkTlv 64 3 a) (upd_attr (fun x => bgp_attr_set BGP_ATTR_NEXT_HOP (set_a_nexthop a x))).
Proof.
  intros Ha. pose proof (ad_len _ Ha) as L. split; [split; unfold t_length; cbn; rewrite ?L; done|flags_valid|done|done|]. args.
  branch bgp_attr_nexthop. unfold t_length. cbn [t_body]. rewrite L. cbn match. by rewrite (get_ipv4_next a rest _ S P Ha).
Qed.

Lemma read_med m : 0 <= m < 4294967296 -> read_ok pe (mkTlv 128 4 (be_bytes 4 m)) (upd_attr (bgp_attr_set_med m)).
Proof.
  intros Hm. split; [tlv_small|flags_valid|done|done|]. args. branch bgp_attr_med.
  change (negb _) with false. cbn match. by rewrite (getl_next m rest _ S P Hm).
Qed.

Lemma getl2_next v rest s : sane s -> pending s = be_bytes 4 v ++ rest -> 0 <= v < 4294967296 ->
  stream_getl2 s = Ret (Some v, set_getp (getp s + 4) s).
Proof.
  intros S P H. destruct (advance_app _ _ s 4 S P eq_refl) as (_ & _ & L). pose proof S as [? ? ? ? ?]. unfold stream_getl2.
  rewrite sane_verify, readable_left, (proj2 (Z.ltb_ge _ _)) by (done || lia). rewrite next_be_0 by (done || lia).
  by rewrite (next_value 4 v rest s S P H).
Qed.

Lemma read_local_pref l : 0 <= l < 4294967296 -> (pe_sort pe = BGP_PEER_EBGP -> pe_oad pe = true) ->
  read_ok pe (mkTlv 64 5 (be_bytes 4 l)) (upd_attr (fun x => bgp_attr_set BGP_ATTR_LOCAL_PREF (set_a_local_pref l x))).
Proof.
  intros Hl Hs. split; [tlv_small|flags_valid|done|done|]. args. branch bgp_attr_local_pref.
  change (negb (t_length _ =? 4)) with false. rewrite andb_false_r. cbn match.
  assert (bool_decide (pe_sort pe = BGP_PEER_EBGP) && negb (pe_oad pe) = false) as ->.
  { case_bool_decide as E; [|done]. by rewrite Hs. }
  by rewrite (getl2_next l rest _ S P Hl).
Qed.

Lemma set_getp_0 s : set_getp (getp s + 0) s = s.
Proof. rewrite Z.add_0_r. apply set_getp_id. Qed.

Lemma read_atomic : read_ok pe (mkTlv 64 6 []) (upd_attr (bgp_attr_set BGP_ATTR_ATOMIC_AGGREGATE)).
Proof.
  split; [tlv_small|flags_valid|done|done|]. args. branch bgp_attr_atomic. change (negb _) with false. cbn match.
  rewrite not_ignored. change (t_length _) with 0. rewrite set_getp_0. done.
Qed.

Lemma read_aggregator asn addr : as4_session pe = true -> 0 < asn < 4294967296 -> addr4 addr ->
  read_ok pe (mkTlv 192 7 (be_bytes 4 asn ++ addr))
    (upd_attr (fun x => bgp_attr_set BGP_ATTR_AGGREGATOR (set_a_aggregator_addr addr (set_a_aggregator_as asn x)))).
Proof.
  intros Hs Ha Hb. pose proof (ad_len _ Hb) as L.
  assert (t_length (mkTlv 192 7 (be_bytes 4 asn ++ addr)) = 8) as Lt by (unfold t_length; cbn [t_body]; by rewrite length_app, be_bytes_length, L).
  split; [split; rewrite ?Lt; done|flags_valid|done|done|]. args. rewrite Lt in *.
  branch bgp_attr_aggregator. rewrite Hs. change (negb _) with false. cbn match. rewrite not_ignored.
  assert (pe_cap_as4_rcv pe = true) as -> by (unfold as4_session in Hs; by destruct (pe_cap_as4_rcv pe)).
  rewrite <- app_assoc in P. rewrite (getl_next asn _ _ S P) by lia. cbn [mbind outcome_bind].
  destruct (advance_app _ _ _ 4 S P eq_refl) as (S1 & P1 & _). rewrite (get_ipv4_next addr rest _ S1 P1 Hb). cbn [mbind outcome_bind].
  unfold BGP_AS_ZERO. rewrite (proj2 (Z.eqb_neq _ _)) by lia. rewrite set_getp_twice. cbn [getp set_getp].
  replace (getp (p_in p) + 4 + 4) with (getp (p_in p) + 8) by lia. done.
Qed.

Lemma read_originator a : pe_sort pe <> BGP_PEER_EBGP -> addr4 a ->
  read_ok pe (mkTlv 128 9 a) (upd_attr (fun x => bgp_attr_set BGP_ATTR_ORIGINATOR_ID (set_a_originator_id a x))).
Proof.
  intros Hs Ha. pose proof (ad_len _ Ha) as L. split; [split; unfold t_length; cbn; rewrite ?L; done|flags_valid|done|done|]. args.
  branch bgp_attr_originator_id. rewrite bool_decide_eq_false_2 by done. unfold t_length. cbn [t_body]. rewrite L. cbn match.
  rewrite not_ignored. by rewrite (get_ipv4_next a rest _ S P Ha).
Qed.

Lemma read_cluster l : pe_sort pe <> BGP_PEER_EBGP -> 0 < Z.of_nat (length l) <= 255 -> Z.of_nat (length l) mod 4 = 0 ->
  read_ok pe (mkTlv 128 10 l) (upd_attr (bgp_attr_set_cluster (Some l))).
Proof.
  intros Hs Hl H4. split; [split; [done|done|done|unfold t_length; cbn [t_body]; change (2 ^ _) with 256; lia]|flags_valid|done|done|]. args.
  branch bgp_attr_cluster_list. rewrite bool_decide_eq_false_2 by done. unfold t_length. cbn [t_body].
  rewrite (proj2 (Z.eqb_neq _ 0)), H4 by lia. cbn match. rewrite not_ignored.
  rewrite (peek_next l rest _ _ S P eq_refl). cbn [mbind outcome_bind]. by rewrite (forward_next l rest) by done.
Qed.

Lemma sized_valid type body : attr_flags_values type = 192 -> type <= 40 ->
  forall g, args_of g (sized type body) -> bgp_attr_flag_invalid pe g = false.
Proof.
  intros Hv Ht g (Gt & Gf & _). unfold bgp_attr_flag_invalid. rewrite Gt, Gf. cbn [t_type t_flags sized].
  unfold BGP_ATTR_PREFIX_SID. rewrite (proj2 (Z.ltb_ge _ _)), Hv, Hd, Hw by lia.
  unfold sized_flags. destruct (255 <? Z.of_nat (length body)); reflexivity.
Qed.

Lemma read_community l : community_ok l ->
  read_ok pe (sized 8 (concat (map community_bytes l))) (upd_attr (bgp_attr_set_community (Some l))).
Proof.
  intros Hl. pose proof (communities_length l) as L. pose proof (co_fits _ Hl). pose proof (co_some _ Hl).
  assert (0 < Z.of_nat (length l)) by (destruct l; [done|simpl length; lia]).
  split; [apply sized_ok; lia|by apply sized_valid|done|done|].
  args. branch bgp_attr_community. unfold t_length. cbn [t_body sized] in *.
  rewrite (proj2 (Z.eqb_neq _ _)) by lia. rewrite not_ignored. rewrite (peek_next _ rest _ _ S P eq_refl). cbn [mbind outcome_bind].
  rewrite community_parse_bytes by done. by rewrite (forward_next (concat (map community_bytes l)) rest) by done.
Qed.

Lemma read_large_community l : values_ok 12 l ->
  read_ok pe (sized 32 (concat l)) (upd_attr (bgp_attr_set_lcommunity (Some l))).
Proof.
  intros Hl. pose proof (values_pos 12 l ltac:(lia) Hl) as L. split; [apply sized_ok; lia|by apply sized_valid|done|done|].
  args. branch bgp_attr_large_community. unfold t_length. cbn [t_body sized] in *.
  rewrite (proj2 (Z.eqb_neq _ _)) by lia. rewrite not_ignored. rewrite (peek_next _ rest _ _ S P eq_refl). cbn [mbind outcome_bind].
  unfold lcommunity_parse. rewrite ecommunity_parse_concat by (lia || done). by rewrite (forward_next (concat l) rest) by done.
Qed.

Lemma read_ext_communities l : values_ok 8 l ->
  read_ok pe (sized 16 (concat l)) (upd_attr (fun x => bgp_attr_set BGP_ATTR_EXT_COMMUNITIES (set_a_ecommunity (Some l) x))).
Proof.
  intros Hl. pose proof (values_pos 8 l ltac:(lia) Hl) as L. split; [apply sized_ok; lia|by apply sized_valid|done|done|].
  args. branch bgp_attr_ext_communities. unfold t_length. cbn [t_body sized] in *.
  rewrite (proj2 (Z.eqb_neq _ _)) by lia. rewrite (peek_next _ rest _ _ S P eq_refl). cbn [mbind outcome_bind].
  rewrite ecommunity_parse_concat by (lia || done). rewrite (forward_next (concat l) rest) by done. cbn [mbind outcome_bind].
  destruct Hl as [Hs _ _ _ _]. by destruct l.
Qed.

Lemma read_ipv6_ext_communities l : values_ok 20 l ->
  read_ok pe (sized 25 (concat l)) (upd_attr (fun x => bgp_attr_set BGP_ATTR_IPV6_EXT_COMMUNITIES (set_a_ipv6_ecommunity (Some l) x))).
Proof.
  intros Hl. pose proof (values_pos 20 l ltac:(lia) Hl) as L. split; [apply sized_ok; lia|by apply sized_valid|done|done|].
  args. branch bgp_attr_ipv6_ext_communities. unfold t_length. cbn [t_body sized] in *.
  rewrite (proj2 (Z.eqb_neq _ _)) by lia. rewrite not_ignored. rewrite (peek_next _ rest _ _ S P eq_refl). cbn [mbind outcome_bind].
  rewrite ecommunity_parse_concat by (lia || done). rewrite (forward_next (concat l) rest) by done. cbn [mbind outcome_bind].
  destruct Hl as [Hs _ _ _ _]. by destruct l.
Qed.

Lemma read_otc v : 0 < v < 4294967296 -> read_ok pe (mkTlv 192 35 (be_bytes 4 v)) (upd_attr (fun x => bgp_attr_set BGP_ATTR_OTC (set_a_otc v x))).
Proof.
  intros Hv. split; [tlv_small|flags_valid|done|done|]. args. branch bgp_attr_otc. change (negb _) with false. cbn match.
  rewrite not_ignored, (getl_next v rest _ S P) by lia. cbn [mbind outcome_bind]. by rewrite (proj2 (Z.eqb_neq _ _)) by lia.
Qed.

(** The sessions on which a metric is accepted. *)
Definition aigp_taken : bool := negb (bool_decide (pe_sort pe = BGP_PEER_EBGP) && (negb (pe_aigp pe) || negb (pe_oad pe))).
Definition aigp_bytes (m : Z) : list Z := be_bytes 1 1 ++ be_bytes 2 11 ++ be_bytes 8 m.
Definition take_aigp (m : Z) (p : parser) : parser :=
  set_p_discards (p_discards p + 1) (if aigp_taken then upd_attr (bgp_attr_set_aigp_metric m) p else p).

Lemma aigp_read m : 0 <= m < 18446744073709551615 ->
  bgp_attr_aigp_valid (aigp_bytes m) = true /\ bgp_attr_aigp_get_tlv_metric (aigp_bytes m) = Some m.
Proof.
  intros Hm. split; [reflexivity|].
  change (bgp_attr_aigp_get_tlv_metric (aigp_bytes m))
    with (let v := be_value_of (be_bytes 8 m) in if v =? 18446744073709551615 then None else Some v).
  rewrite (be_value_of_bytes 8) by (change (2 ^ _) with 18446744073709551616; lia). cbn. by rewrite (proj2 (Z.eqb_neq _ _)) by lia.
Qed.

Lemma read_aigp m : 0 <= m < 18446744073709551615 -> read_ok pe (mkTlv 128 26 (aigp_bytes m)) (take_aigp m).
Proof.
  intros Hm. destruct (aigp_read m Hm) as [Hv Hg]. split; [tlv_small|flags_valid| | |].
  - intros p. unfold take_aigp. by case_bool.
  - intros p s. unfold take_aigp. by case_bool.
  - args. branch bgp_attr_aigp. unfold take_aigp, aigp_taken. rewrite not_ignored. change (t_length _) with 11.
    assert (forall q, p_in q = p_in p -> skip_ignored pe (mkArgs 11 gtot 26 128 gs) 11 q
      = proceed (set_p_discards (p_discards q + 1) (set_p_in (set_getp (getp (p_in p) + 11) (p_in p)) q))) as Hi.
    { intros q Eq. unfold skip_ignored. rewrite (forward_next (aigp_bytes m) rest q 11) by (rewrite ?Eq; done). rewrite Eq.
      cbn [mbind outcome_bind]. unfold bgp_attr_ignore. cbn [g_type]. by rewrite Hw. }
    destruct (bool_decide _ && _); cbn [negb]; [by rewrite Hi|].
    rewrite (peek_next (aigp_bytes m) rest _ 11 S P eq_refl). cbn [mbind outcome_bind]. rewrite Hv, Hg. cbn [negb]. by rewrite Hi.
Qed.
End Handlers.

(** ** AS paths *)

Definition path_wire (l : list assegment) : list Z := segs_wire true (split_segs l).

(** A path as it is kept, that fits an update. *)
Record path_ok (l : list assegment) : Prop := {
  po_segs : Forall seg_ok l;
  po_normal : normal l;
  po_count : assegment_count_asns l <= 65535;
  po_fits : Z.of_nat (length (path_wire l)) <= 60000
}.

(** The path that the parser makes of segments. *)
Definition path_of (mode : asnotation_mode) (l : list assegment) : aspath :=
  let a := mkAspath 0 l None 0 (aspath_count_hops_internal l) mode in set_str (str (refreshed a)) (str_len (refreshed a)) a.

Lemma map_trans_id l : map_asns (as_trans true) l = l.
Proof. induction l as [|[t x] l IH]; [done|]. unfold map_asns in *. cbn [map seg_type seg_as]. by rewrite IH, map_id. Qed.

Lemma normalise_split l : path_ok l -> assegment_normalise (map_asns (as_trans true) (split_segs l)) = l.
Proof.
  intros [W N C _]. pose proof (split_segs_wired _ W) as Ws.
  assert (seqs_nonempty l) as Hn by (revert W; apply Forall_impl; by intros seg [_ H _ _]).
  rewrite (normalise_same _ l); [by apply normalise_id|by apply wired_nonempty|done|by rewrite map_asns_count, split_segs_count|done|].
  rewrite split_segs_hops by done. by rewrite map_trans_id.
Qed.

Lemma aspath_parse_wire mode l s rest : path_ok l -> sane s -> pending s = path_wire l ++ rest ->
  aspath_parse s (Z.of_nat (length (path_wire l))) true mode
  = Ret (Some (path_of mode l), set_getp (getp s + Z.of_nat (length (path_wire l))) s).
Proof.
  intros Hl S P. destruct (assegments_parse_spec true (split_segs l) s rest (split_segs_wired _ (po_segs _ Hl)) S P) as (s' & E & _ & _).
  rewrite normalise_split in E by done. fold (path_wire l) in E. pose proof (po_fits _ Hl).
  destruct (advance_app _ _ _ _ S P eq_refl) as (_ & _ & B).
  destruct (returns_inv _ _ (returns_aspath_parse s (Z.of_nat (length (path_wire l))) true mode S ltac:(lia) B)) as ([o s1] & E1 & k & Es & _ & Hk).
  cbn [fst snd] in *. revert E1. unfold aspath_parse.
  rewrite (segs_wire_even true (split_segs l) : Z.of_nat (length (path_wire l)) mod 2 = 0). cbn [Z.eqb negb].
  rewrite E. cbn [mbind outcome_bind]. unfold aspath_str_update. rewrite make_str_spec. cbn [mbind outcome_bind].
  intros [= <- <-]. destruct (Hk _ eq_refl) as [-> _].
  rewrite Es. done.
Qed.

Lemma read_path pe l : (forall t, pe_discard pe t = false) -> (forall t, pe_withdraw pe t = false) -> as4_session pe = true -> path_ok l ->
  pe_reject_as_sets pe && aspath_check_as_sets (path_of (pe_asnotation pe) l) = false ->
  read_ok pe (mkTlv 80 2 (path_wire l)) (upd_attr (fun x => bgp_attr_set BGP_ATTR_AS_PATH (set_a_aspath (Some (path_of (pe_asnotation pe) l)) x))).
Proof.
  intros Hd Hw Hs Hl Hr. pose proof (po_fits _ Hl).
  split; [split; [done|done|done|unfold t_length; cbn [t_body]; change (2 ^ _) with 65536; lia]| |done|done|].
  - intros g (Gt & Gf & _). unfold bgp_attr_flag_invalid. rewrite Gt, Gf, Hd, Hw. reflexivity.
  - intros g p rest (Gt & Gf & Gl) S P. destruct g as [gl gtot gt gf gs]. cbn [g_type g_flags g_length t_type t_flags] in *. subst gt gf gl.
    unfold t_length. cbn [t_body].
    match goal with |- parse_attribute pe ?g p = _ => change (parse_attribute pe g p) with (bgp_attr_aspath pe g p) end.
    unfold bgp_attr_aspath. cbn [g_length]. rewrite Hs, (aspath_parse_wire _ l _ rest Hl S P). cbn [mbind outcome_bind]. by rewrite Hr.
Qed.

Section Emitted.
  Context (junk : nat -> Z) (Hjunk : forall i, is_byte (junk i)).

Lemma emits_eq w d d' : d = d' -> emits w d -> emits w d'.
Proof. by intros ->. Qed.

Lemma emits_aspath_put a s : path_ok (segments a) -> sane s -> room s (path_wire (segments a)) ->
  exists s', aspath_put junk s a true = Ret (Z.of_nat (length (path_wire (segments a))), s') /\ puts s (path_wire (segments a)) s'.
Proof.
  intros [W [_ Hr] _ _] S R. unfold aspath_put. destruct (segments a) as [|seg rest] eqn:E; [exists s; split; [done|by apply puts_refl]|].
  rewrite <- E in *. assert ((slen seg =? 0) = false) as ->.
  { rewrite E in W. apply Forall_cons_1 in W as [[_ Hs _ _] _]. unfold slen. destruct (seg_as seg); [done|]. apply Z.eqb_neq. simpl length. lia. }
  by apply (put_loop_puts junk Hjunk true (segments a) (length (segments a)) s 0).
Qed.

Lemma emits_put_path flags a : path_ok (segments a) -> has (Z.lor flags 16) 16 = true ->
  emits (put_path junk flags BGP_ATTR_AS_PATH a true) (tlv_wire (mkTlv (Z.lor flags 16) 2 (path_wire (segments a)))).
Proof.
  intros Ha Hf s S R. unfold put_path, tlv_wire, t_lfl in *. cbn [t_flags t_type t_body] in *. unfold BGP_ATTR_FLAG_EXTLEN in *. rewrite Hf in *.
  unfold t_length in *. cbn [t_body] in *. rewrite !app_assoc in R. pose proof (room_first _ _ _ R) as R1. pose proof (room_first _ _ _ R1) as R2.
  destruct (emits_then _ _ _ _ (emits_putc junk Hjunk (Z.lor flags 16)) (emits_putc junk Hjunk BGP_ATTR_AS_PATH) s S R2) as (s1 & E1 & P1).
  rewrite E1. cbn [mbind outcome_bind]. unfold stream_get_endp. rewrite sane_verify by apply P1. cbn [mbind outcome_bind].
  pose proof (room_rest _ _ _ _ P1 R1) as R3.
  destruct (emits_putw junk Hjunk 0 s1 (pu_sane _ _ _ P1)) as (s2 & E2 & P2); [exact R3|]. rewrite E2. cbn [mbind outcome_bind].
  pose proof (puts_trans _ _ _ _ _ P1 P2) as P12.
  destruct (emits_aspath_put a s2 Ha (pu_sane _ _ _ P2)) as (s3 & E3 & P3).
  { unfold room in *. rewrite !length_app, !be_bytes_length in R. rewrite (pu_endp _ _ _ P12), !length_app, !be_bytes_length.
    pose proof (pu_size _ _ _ P12). lia. }
  rewrite E3. cbn [mbind outcome_bind]. pose proof (puts_trans _ _ _ _ _ P12 P3) as P123. rewrite <- !app_assoc in P123. rewrite app_assoc in P123.
  destruct (puts_patch s _ _ _ s3 2 (Z.of_nat (length (path_wire (segments a)))) S P123 eq_refl) as (s4 & E4 & P4).
  rewrite (pu_endp _ _ _ P1). unfold stream_putw_at. rewrite E4. exists s4. split; [done|]. by rewrite <- app_assoc in P4.
Qed.
End Emitted.
