(* ===== verification/BgpPacketRoute.v ===== *)
(** * What bgpd sends is what bgpd reads

    The route that attributes describe, as a value; a route is read back from its
    attributes, and [bgp_packet_attribute] writes the attributes of the route that is
    to be advertised. *)
From stdpp Require Import base list sorting sets.
From S2P Require Import Prelude Stream StreamFacts AsPath AsPathText AsPathOps AsPathWire AsPathTextFacts AsPathFacts AsPathWireFacts.
From S2P Require Import BgpAttrData BgpAttr BgpUpdate BgpAttrRead BgpUpdateFacts BgpNlriFacts BgpPacket BgpPacketFacts.

(** ** Routes

    What two routers can tell each other about a route in an update for IPv4. *)

Record route := mkRoute {
  rt_origin : Z;
  rt_path : list assegment;
  rt_nexthop : list Z;
  rt_med : option Z;
  rt_local_pref : option Z;
  rt_atomic : option unit;
  rt_aggregator : option (Z * list Z);
  rt_community : option (list Z);
  rt_lcommunity : option (list (list Z));
  rt_originator : option (list Z);
  rt_cluster : option (list Z);
  rt_ecommunity : option (list (list Z));
  rt_ipv6_ecommunity : option (list (list Z));
  rt_otc : option Z;
  rt_aigp : option Z
}.

Definition if_set {A} (x : attr) (t : Z) (v : A) : option A := if bgp_attr_exists x t then Some v else None.
Definition if_has {A} (x : attr) (t : Z) (o : option A) : option A := if bgp_attr_exists x t then o else None.

(** The route that attributes describe; [None] without one of the mandatory ones. *)
Definition route_of (x : attr) : option route :=
  match a_aspath x with
  | Some a =>
      if bgp_attr_exists x BGP_ATTR_ORIGIN && bgp_attr_exists x BGP_ATTR_AS_PATH && bgp_attr_exists x BGP_ATTR_NEXT_HOP then
        Some (mkRoute (a_origin x) (segments a) (a_nexthop x) (if_set x BGP_ATTR_MULTI_EXIT_DISC (a_med x))
                (if_set x BGP_ATTR_LOCAL_PREF (a_local_pref x)) (if_set x BGP_ATTR_ATOMIC_AGGREGATE tt)
                (if_set x BGP_ATTR_AGGREGATOR (a_aggregator_as x, a_aggregator_addr x))
                (if_has x BGP_ATTR_COMMUNITIES (a_community x)) (if_has x BGP_ATTR_LARGE_COMMUNITIES (a_lcommunity x))
                (if_set x BGP_ATTR_ORIGINATOR_ID (a_originator_id x)) (if_has x BGP_ATTR_CLUSTER_LIST (a_cluster x))
                (if_has x BGP_ATTR_EXT_COMMUNITIES (a_ecommunity x)) (if_has x BGP_ATTR_IPV6_EXT_COMMUNITIES (a_ipv6_ecommunity x))
                (if_set x BGP_ATTR_OTC (a_otc x)) (if_set x BGP_ATTR_AIGP (a_aigp_metric x)))
      else None
  | None => None
  end.

(** The attributes of a route, with what they change in the parser. *)
Definition effect : Type := tlv * (parser -> parser).
Definition opt {A} (o : option A) (mk : A -> effect) : list effect := match o with Some v => [mk v] | None => [] end.
Definition sets (type : Z) (f : attr -> attr) : parser -> parser := upd_attr (fun x => bgp_attr_set type (f x)).

Section Effects.
  Context (pe : peer).

Definition e_origin (o : Z) : effect := (mkTlv 64 1 (be_bytes 1 o), sets BGP_ATTR_ORIGIN (set_a_origin o)).
Definition e_path (l : list assegment) : effect :=
  (mkTlv 80 2 (path_wire l), sets BGP_ATTR_AS_PATH (set_a_aspath (Some (path_of (pe_asnotation pe) l)))).
Definition e_nexthop (a : list Z) : effect := (mkTlv 64 3 a, sets BGP_ATTR_NEXT_HOP (set_a_nexthop a)).
Definition e_med (m : Z) : effect := (mkTlv 128 4 (be_bytes 4 m), sets BGP_ATTR_MULTI_EXIT_DISC (set_a_med m)).
Definition e_local_pref (l : Z) : effect := (mkTlv 64 5 (be_bytes 4 l), sets BGP_ATTR_LOCAL_PREF (set_a_local_pref l)).
Definition e_atomic (_ : unit) : effect := (mkTlv 64 6 [], sets BGP_ATTR_ATOMIC_AGGREGATE id).
Definition e_aggregator (v : Z * list Z) : effect :=
  (mkTlv 192 7 (be_bytes 4 (fst v) ++ snd v), sets BGP_ATTR_AGGREGATOR (fun x => set_a_aggregator_addr (snd v) (set_a_aggregator_as (fst v) x))).
Definition e_community (l : list Z) : effect :=
  (sized 8 (concat (map community_bytes l)), sets BGP_ATTR_COMMUNITIES (set_a_community (Some l))).
Definition e_lcommunity (l : list (list Z)) : effect := (sized 32 (concat l), sets BGP_ATTR_LARGE_COMMUNITIES (set_a_lcommunity (Some l))).
Definition e_originator (a : list Z) : effect := (mkTlv 128 9 a, sets BGP_ATTR_ORIGINATOR_ID (set_a_originator_id a)).
Definition e_cluster (l : list Z) : effect := (mkTlv 128 10 l, sets BGP_ATTR_CLUSTER_LIST (set_a_cluster (Some l))).
Definition e_ecommunity (l : list (list Z)) : effect := (sized 16 (concat l), sets BGP_ATTR_EXT_COMMUNITIES (set_a_ecommunity (Some l))).
Definition e_ipv6_ecommunity (l : list (list Z)) : effect :=
  (sized 25 (concat l), sets BGP_ATTR_IPV6_EXT_COMMUNITIES (set_a_ipv6_ecommunity (Some l))).
Definition e_otc (v : Z) : effect := (mkTlv 192 35 (be_bytes 4 v), sets BGP_ATTR_OTC (set_a_otc v)).
Definition e_aigp (m : Z) : effect := (mkTlv 128 26 (aigp_bytes m), take_aigp pe m).

Definition optional_effects (r : route) : list effect :=
  opt (rt_med r) e_med ++ opt (rt_local_pref r) e_local_pref ++ opt (rt_atomic r) e_atomic ++ opt (rt_aggregator r) e_aggregator
  ++ opt (rt_community r) e_community ++ opt (rt_lcommunity r) e_lcommunity ++ opt (rt_originator r) e_originator
  ++ opt (rt_cluster r) e_cluster ++ opt (rt_ecommunity r) e_ecommunity ++ opt (rt_ipv6_ecommunity r) e_ipv6_ecommunity
  ++ opt (rt_otc r) e_otc ++ opt (rt_aigp r) e_aigp.
Definition effects_of (r : route) : list effect :=
  e_origin (rt_origin r) :: e_path (rt_path r) :: e_nexthop (rt_nexthop r) :: optional_effects r.

(** What is left of a route at the receiver. *)
Definition heard (r : route) : route :=
  mkRoute (rt_origin r) (rt_path r) (rt_nexthop r) (rt_med r) (rt_local_pref r) (rt_atomic r) (rt_aggregator r) (rt_community r)
    (rt_lcommunity r) (rt_originator r) (rt_cluster r) (rt_ecommunity r) (rt_ipv6_ecommunity r) (rt_otc r)
    (if aigp_taken pe then rt_aigp r else None).

Lemma run_app l1 l2 p : run (l1 ++ l2) p = run l2 (run l1 p).
Proof. unfold run. by rewrite fold_left_app. Qed.

(** A view of the attributes that an attribute does not change. *)
Lemma run_frame {A B} (F : attr -> B) (o : option A) mk p :
  (forall v q, F (p_attr (snd (mk v) q)) = F (p_attr q)) -> F (p_attr (run (opt o mk) p)) = F (p_attr p).
Proof. intros H. destruct o as [v|]; [apply H|done]. Qed.

Lemma set_exists T t x : 0 < T -> 0 < t -> bgp_attr_exists (bgp_attr_set T x) t = (t =? T) || bgp_attr_exists x t.
Proof. intros HT Ht. by rewrite exists_set, orb_comm, Z.eqb_sym by lia. Qed.

Definition v_med (x : attr) := if_set x BGP_ATTR_MULTI_EXIT_DISC (a_med x).
Definition v_local_pref (x : attr) := if_set x BGP_ATTR_LOCAL_PREF (a_local_pref x).
Definition v_atomic (x : attr) := if_set x BGP_ATTR_ATOMIC_AGGREGATE tt.
Definition v_aggregator (x : attr) := if_set x BGP_ATTR_AGGREGATOR (a_aggregator_as x, a_aggregator_addr x).
Definition v_community (x : attr) := if_has x BGP_ATTR_COMMUNITIES (a_community x).
Definition v_lcommunity (x : attr) := if_has x BGP_ATTR_LARGE_COMMUNITIES (a_lcommunity x).
Definition v_originator (x : attr) := if_set x BGP_ATTR_ORIGINATOR_ID (a_originator_id x).
Definition v_cluster (x : attr) := if_has x BGP_ATTR_CLUSTER_LIST (a_cluster x).
Definition v_ecommunity (x : attr) := if_has x BGP_ATTR_EXT_COMMUNITIES (a_ecommunity x).
Definition v_ipv6_ecommunity (x : attr) := if_has x BGP_ATTR_IPV6_EXT_COMMUNITIES (a_ipv6_ecommunity x).
Definition v_otc (x : attr) := if_set x BGP_ATTR_OTC (a_otc x).
Definition v_aigp (x : attr) := if_set x BGP_ATTR_AIGP (a_aigp_metric x).
(** The mandatory attributes, and those that the parser looks at afterwards. *)
Definition v_core (x : attr) :=
  (a_aspath x, a_origin x, a_nexthop x, bgp_attr_exists x BGP_ATTR_ORIGIN, bgp_attr_exists x BGP_ATTR_AS_PATH,
   bgp_attr_exists x BGP_ATTR_NEXT_HOP, bgp_attr_exists x BGP_ATTR_MP_REACH_NLRI, bgp_attr_exists x BGP_ATTR_MP_UNREACH_NLRI, a_mp_nexthop_len x).

Lemma sets_attr T f q : p_attr (sets T f q) = bgp_attr_set T (f (p_attr q)).
Proof. done. Qed.

Lemma take_attr m q : p_attr (take_aigp pe m q) = if aigp_taken pe then bgp_attr_set BGP_ATTR_AIGP (set_a_aigp_metric m (p_attr q)) else p_attr q.
Proof. unfold take_aigp. by case_bool. Qed.

Ltac unfold_view := unfold v_core, v_med, v_local_pref, v_atomic, v_aggregator, v_community, v_lcommunity, v_originator, v_cluster,
  v_ecommunity, v_ipv6_ecommunity, v_otc, v_aigp, if_set, if_has.
Ltac unfold_effect := unfold e_origin, e_path, e_nexthop, e_med, e_local_pref, e_atomic, e_aggregator, e_community, e_lcommunity,
  e_originator, e_cluster, e_ecommunity, e_ipv6_ecommunity, e_otc, e_aigp; cbn [snd].
Ltac frame := intros; unfold_effect; rewrite ?take_attr, ?sets_attr; try case_bool; unfold_view; try (rewrite !set_exists by done); reflexivity.
(** Skip the attributes behind the one that a view looks at. *)
Ltac skip F := repeat (rewrite (run_frame F) by frame).

Definition base (r : route) (p : parser) : parser := run [e_origin (rt_origin r); e_path (rt_path r); e_nexthop (rt_nexthop r)] p.

Lemma run_core r p : p_attr p = attr_init ->
  v_core (p_attr (run (effects_of r) p))
  = (Some (path_of (pe_asnotation pe) (rt_path r)), rt_origin r, rt_nexthop r, true, true, true, false, false, 0).
Proof.
  intros E. unfold effects_of, optional_effects. change (run (_ :: _ :: _ :: ?l) p) with (run l (base r p)). rewrite !run_app. skip v_core.
  unfold base, run. cbn [fold_left snd e_origin e_path e_nexthop]. rewrite !sets_attr, E. reflexivity.
Qed.

(** The view of an attribute is the value that was sent. *)
Ltac view F E := skip F;
  match goal with |- _ = ?o => destruct o end; cbn [opt];
  [unfold run at 1; cbn [fold_left snd]; unfold_effect; rewrite sets_attr; unfold_view; rewrite ?set_exists by done;
   repeat match goal with u : unit |- _ => destruct u | u : (_ * _)%type |- _ => destruct u end; reflexivity
  |change (run [] ?q) with q; skip F; unfold base, run; cbn [fold_left snd]; unfold_effect; rewrite !sets_attr, E; reflexivity].

Lemma route_of_views x a o nh e1 e2 e3 : v_core x = (Some a, o, nh, true, true, true, e1, e2, e3) ->
  route_of x = Some (mkRoute o (segments a) nh (v_med x) (v_local_pref x) (v_atomic x) (v_aggregator x) (v_community x) (v_lcommunity x)
    (v_originator x) (v_cluster x) (v_ecommunity x) (v_ipv6_ecommunity x) (v_otc x) (v_aigp x)).
Proof. unfold v_core. intros [= E1 E2 E3 E4 E5 E6 _ _ _]. unfold route_of. rewrite E1, E4, E5, E6. cbn [andb]. by rewrite E2, E3. Qed.

(** Open the list of attributes. *)
Ltac spread r p := unfold effects_of, optional_effects; change (run (_ :: _ :: _ :: ?l) p) with (run l (base r p)); rewrite !run_app.

Lemma run_route r p : p_attr p = attr_init -> route_of (p_attr (run (effects_of r) p)) = Some (heard r).
Proof.
  intros E. rewrite (route_of_views _ _ _ _ _ _ _ (run_core r p E)). f_equal. unfold heard. f_equal.
  - spread r p. view v_med E.
  - spread r p. view v_local_pref E.
  - spread r p. view v_atomic E.
  - spread r p. view v_aggregator E.
  - spread r p. view v_community E.
  - spread r p. view v_lcommunity E.
  - spread r p. view v_originator E.
  - spread r p. view v_cluster E.
  - spread r p. view v_ecommunity E.
  - spread r p. view v_ipv6_ecommunity E.
  - spread r p. view v_otc E.
  - spread r p. destruct (rt_aigp r) as [m|]; cbn [opt]; [unfold run at 1; cbn [fold_left snd]; unfold_effect; rewrite take_attr|].
    + destruct (aigp_taken pe); [rewrite ?sets_attr; unfold_view; rewrite ?set_exists by done; reflexivity|].
      skip v_aigp. unfold base, run. cbn [fold_left snd]. unfold_effect. rewrite !sets_attr, E. reflexivity.
    + change (run [] ?q) with q. skip v_aigp. unfold base, run. cbn [fold_left snd]. unfold_effect. rewrite !sets_attr, E. by case_bool.
Qed.
End Effects.

(** ** Reading a route *)

Section Read.
  Context (pe : peer).

(** A route that the peer [pe] may be told of, in the form the daemon keeps it. *)
Record route_ok (r : route) : Prop := {
  rk_origin : 0 <= rt_origin r <= 2;
  rk_path : path_ok (rt_path r);
  rk_nexthop : addr4 (rt_nexthop r);
  rk_med : forall m, rt_med r = Some m -> 0 <= m < 4294967296;
  rk_local_pref : forall l, rt_local_pref r = Some l -> 0 <= l < 4294967296 /\ (pe_sort pe = BGP_PEER_EBGP -> pe_oad pe = true);
  rk_aggregator : forall v, rt_aggregator r = Some v -> 0 < fst v < 4294967296 /\ addr4 (snd v);
  rk_community : forall l, rt_community r = Some l -> community_ok l;
  rk_lcommunity : forall l, rt_lcommunity r = Some l -> values_ok 12 l;
  rk_originator : forall a, rt_originator r = Some a -> addr4 a /\ pe_sort pe <> BGP_PEER_EBGP;
  rk_cluster : forall l, rt_cluster r = Some l ->
    0 < Z.of_nat (length l) <= 255 /\ Z.of_nat (length l) mod 4 = 0 /\ bytes l /\ pe_sort pe <> BGP_PEER_EBGP;
  rk_ecommunity : forall l, rt_ecommunity r = Some l -> values_ok 8 l;
  rk_ipv6_ecommunity : forall l, rt_ipv6_ecommunity r = Some l -> values_ok 20 l;
  rk_otc : forall v, rt_otc r = Some v -> 0 < v < 4294967296;
  rk_aigp : forall m, rt_aigp r = Some m -> 0 <= m < 18446744073709551615
}.

(** The peer has 4-byte AS numbers, does not drop attributes and accepts the path and the
    next hop. *)
Record welcome (r : route) : Prop := {
  wl_discard : forall t, pe_discard pe t = false;
  wl_withdraw : forall t, pe_withdraw pe t = false;
  wl_as4 : as4_session pe = true;
  wl_sets : pe_reject_as_sets pe && aspath_check_as_sets (path_of (pe_asnotation pe) (rt_path r)) = false;
  wl_nexthop : ipv4_martian pe (rt_nexthop r) && negb (pe_allow_martian pe) = false;
  wl_pref : pe_sort pe = BGP_PEER_IBGP -> rt_local_pref r <> None;
  wl_local_as : negb (pe_change_local_as pe =? 0) && negb (pe_local_as_no_prepend pe) = false;
  wl_confed : pe_sort_now pe = BGP_PEER_CONFED -> aspath_left_confed_check (path_of (pe_asnotation pe) (rt_path r)) = true;
  wl_ebgp : pe_sort_now pe = BGP_PEER_EBGP ->
    aspath_confed_check (path_of (pe_asnotation pe) (rt_path r)) = false
    /\ aspath_firstas_check (path_of (pe_asnotation pe) (rt_path r)) (pe_as pe) = Ret true
    /\ aspath_check_as_zero (path_of (pe_asnotation pe) (rt_path r)) = false
}.

Definition effect_types : list Z := [1; 2; 3; 4; 5; 6; 7; 8; 32; 9; 10; 16; 25; 35; 26].

Lemma opt_sublist {A} (o : option A) mk t l L : (forall v, t_type (fst (mk v)) = t) -> sublist (map (fun e : effect => t_type (fst e)) l) L ->
  sublist (map (fun e : effect => t_type (fst e)) (opt o mk ++ l)) (t :: L).
Proof. intros Ht H. destruct o as [v|]; cbn [opt app map]; [rewrite Ht; by apply sublist_skip|by apply sublist_cons]. Qed.

Lemma effects_nodup r : NoDup (map (fun e : effect => t_type (fst e)) (effects_of pe r)).
Proof.
  apply (sublist_NoDup _ effect_types).
  - apply (bool_decide_unpack _). vm_compute. done.
  - unfold effects_of, optional_effects. cbn [map fst e_origin e_path e_nexthop t_type]. do 3 apply sublist_skip.
    repeat (apply opt_sublist; [done|]). rewrite <- (app_nil_r (opt (rt_aigp r) _)). apply opt_sublist; done.
Qed.

Lemma forall_opt {A} (P : effect -> Prop) (o : option A) mk : (forall v, o = Some v -> P (mk v)) -> Forall P (opt o mk).
Proof. intros H. destruct o; constructor; [by apply H|constructor]. Qed.

Lemma effects_read r : route_ok r -> welcome r -> Forall (fun e => read_ok pe (fst e) (snd e)) (effects_of pe r).
Proof.
  intros K W. pose proof (wl_discard _ W) as Hd. pose proof (wl_withdraw _ W) as Hw.
  apply Forall_cons; [by apply (read_origin pe Hd Hw), K|]. apply Forall_cons; [by apply read_path; try apply W; apply K|].
  apply Forall_cons; [by apply (read_nexthop pe Hd Hw), K|]. unfold optional_effects.
  repeat apply Forall_app_2; apply forall_opt; intros v Ev.
  - by apply (read_med pe Hd Hw), K.
  - destruct (rk_local_pref _ K v Ev). by apply (read_local_pref pe Hd Hw).
  - by apply (read_atomic pe Hd Hw).
  - destruct (rk_aggregator _ K v Ev). by apply (read_aggregator pe Hd Hw); try apply W.
  - by apply (read_community pe Hd Hw), K.
  - by apply (read_large_community pe Hd Hw), K.
  - destruct (rk_originator _ K v Ev). by apply (read_originator pe Hd Hw).
  - destruct (rk_cluster _ K v Ev) as (? & ? & ? & ?). by apply (read_cluster pe Hd Hw).
  - by apply (read_ext_communities pe Hd Hw), K.
  - by apply (read_ipv6_ext_communities pe Hd Hw), K.
  - by apply (read_otc pe Hd Hw), K.
  - by apply (read_aigp pe Hd Hw), K.
Qed.

Lemma run_in l : Forall (fun e => read_ok pe (fst e) (snd e)) l -> forall p, p_in (run l p) = p_in p.
Proof.
  induction 1 as [|e l He _ IH]; intros p; [done|]. change (run (e :: l) p) with (run l (snd e p)). rewrite IH. apply He.
Qed.

Lemma exists_flag x t : bgp_attr_exists x t = true -> (a_flag x =? 0) = false.
Proof. intros H. apply Z.eqb_neq. intros E. unfold bgp_attr_exists in H. by rewrite E, Z.bits_0 in H. Qed.

(** What the checks after the walk look at. *)
Record checked (r : route) (x : attr) : Prop := {
  ck_path : a_aspath x = Some (path_of (pe_asnotation pe) (rt_path r));
  ck_nexthop : a_nexthop x = rt_nexthop r;
  ck_origin : bgp_attr_exists x BGP_ATTR_ORIGIN = true;
  ck_has_path : bgp_attr_exists x BGP_ATTR_AS_PATH = true;
  ck_has_nexthop : bgp_attr_exists x BGP_ATTR_NEXT_HOP = true;
  ck_reach : bgp_attr_exists x BGP_ATTR_MP_REACH_NLRI = false;
  ck_unreach : bgp_attr_exists x BGP_ATTR_MP_UNREACH_NLRI = false;
  ck_pref : rt_local_pref r <> None -> bgp_attr_exists x BGP_ATTR_LOCAL_PREF = true
}.

Lemma run_checked r p : p_attr p = attr_init -> checked r (p_attr (run (effects_of pe r) p)) /\ a_mp_nexthop_len (p_attr (run (effects_of pe r) p)) = 0.
Proof.
  intros E. pose proof (run_core pe r p E) as C. pose proof (run_route pe r p E) as R. rewrite (route_of_views _ _ _ _ _ _ _ C) in R.
  generalize dependent (p_attr (run (effects_of pe r) p)). intros x C R. unfold v_core in C. injection C as C1 C2 C3 C4 C5 C6 C7 C8 C9.
  split; [|done]. split; try done. intros Hp. unfold heard in R. injection R as _ R _ _ _ _ _ _ _ _ _ _.
  unfold v_local_pref, if_set in R. destruct (bgp_attr_exists x BGP_ATTR_LOCAL_PREF); [done|]. by rewrite <- R in Hp.
Qed.

Lemma aspath_check_passes r p : welcome r -> a_aspath (p_attr p) = Some (path_of (pe_asnotation pe) (rt_path r)) -> bgp_attr_aspath_check pe p = proceed p.
Proof.
  intros W E. unfold bgp_attr_aspath_check. rewrite E. pose proof (wl_confed _ W) as Hc. pose proof (wl_ebgp _ W) as He.
  pose proof (wl_local_as _ W) as Hl. destruct (decide (pe_sort_now pe = BGP_PEER_EBGP)) as [Es|Es].
  - destruct (He Es) as (H1 & H2 & H3). rewrite Es, (bool_decide_eq_false_2 (BGP_PEER_EBGP = BGP_PEER_CONFED)), bool_decide_eq_true_2 by done.
    rewrite H1, H3. cbn [andb orb]. destruct (pe_enforce_first_as pe); cbn [andb]; rewrite ?H2; cbn [mbind outcome_bind negb]; by rewrite Hl.
  - rewrite (bool_decide_eq_false_2 (pe_sort_now pe = BGP_PEER_EBGP)) by done. rewrite andb_false_r. cbn [andb mbind outcome_bind negb].
    rewrite orb_false_r, Hl. case_bool_decide as Ec; [by rewrite (Hc Ec)|done].
Qed.

Lemma finish_passes r e len p : welcome r -> checked r (p_attr p) -> a_mp_nexthop_len (p_attr p) = 0 -> getp (p_in p) = e ->
  finish_attributes pe e len p = proceed (upd_attr (set_a_label_index BGP_INVALID_LABEL_INDEX) p).
Proof.
  intros W [K1 K2 K3 K4 K5 K6 K7 K8] Hm Hg. unfold finish_attributes. rewrite Hm. cbn [Z.eqb orb]. cbv zeta.
  set (q := upd_attr (set_a_label_index BGP_INVALID_LABEL_INDEX) p). change (getp (p_in q)) with (getp (p_in p)). rewrite Hg, Z.eqb_refl. cbn [negb].
  rewrite K5, K6. cbn [andb negb]. unfold bgp_attr_nexthop_valid. change (a_nexthop (p_attr q)) with (a_nexthop (p_attr p)).
  rewrite K2, (wl_nexthop _ W). cbn [mbind outcome_bind proceed]. rewrite bool_decide_eq_true_2 by done. cbn [negb].
  assert (bgp_attr_check pe (p_attr q) len = BGP_ATTR_PARSE_PROCEED) as Hk.
  { unfold bgp_attr_check. change (a_flag (p_attr q)) with (a_flag (p_attr p)). rewrite (exists_flag _ _ K3), andb_false_r. cbn [andb].
    unfold bgp_attr_exists in *. change (a_flag (p_attr q)) with (a_flag (p_attr p)). rewrite K3, K4, K5, K6, K7. cbn [negb orb andb].
    case_bool_decide as Hi; cbn [andb]; [|done]. by rewrite (K8 (wl_pref _ W Hi)). }
  rewrite Hk, bool_decide_eq_true_2 by done. cbn [negb]. change (bgp_attr_exists (p_attr q)) with (bgp_attr_exists (p_attr p)). rewrite K4. cbn [negb].
  unfold bgp_attr_munge_as4_attrs. change (a_aspath (p_attr q)) with (a_aspath (p_attr p)). rewrite K1.
  assert (pe_cap_as4_rcv pe = true) as -> by (pose proof (wl_as4 _ W) as H; unfold as4_session in H; by destruct (pe_cap_as4_rcv pe)).
  cbn [mbind outcome_bind]. by apply (aspath_check_passes r).
Qed.

Definition wire_of (r : route) : list Z := tlvs_wire (map fst (effects_of pe r)).

(** The effects leave the parts with prefixes alone. *)
Lemma run_mp r p : p_mp_update (run (effects_of pe r) p) = p_mp_update p /\ p_mp_withdraw (run (effects_of pe r) p) = p_mp_withdraw p.
Proof.
  assert (Forall (fun e : effect => forall q, p_mp_update (snd e q) = p_mp_update q /\ p_mp_withdraw (snd e q) = p_mp_withdraw q) (effects_of pe r)) as H.
  { unfold effects_of, optional_effects. do 3 (apply Forall_cons; [done|]).
    repeat apply Forall_app_2; apply forall_opt; try done. intros m _ q. cbn [snd e_aigp]. unfold take_aigp. by case_bool. }
  revert p. induction H as [|e l He _ IH]; intros p; [done|]. change (run (e :: l) p) with (run l (snd e p)).
  destruct (IH (snd e p)) as [-> ->]. apply He.
Qed.

Lemma parse_route r p rest : route_ok r -> welcome r -> p_attr p = attr_init -> sane (p_in p) -> pending (p_in p) = wire_of r ++ rest ->
  Z.of_nat (length (wire_of r)) < 65536 ->
  exists p', bgp_attr_parse pe (Z.of_nat (length (wire_of r))) p = Ret (BGP_ATTR_PARSE_PROCEED, p')
  /\ route_of (p_attr p') = Some (heard pe r) /\ p_in p' = p_in (moved (Z.of_nat (length (wire_of r))) p)
  /\ bgp_attr_exists (p_attr p') BGP_ATTR_MP_REACH_NLRI = false /\ p_mp_update p' = p_mp_update p /\ p_mp_withdraw p' = p_mp_withdraw p.
Proof.
  intros K W E S P L. pose proof (effects_read r K W) as Hr. unfold bgp_attr_parse.
  assert (length (effects_of pe r) <= Z.to_nat (Z.of_nat (length (wire_of r))))%nat as Hf.
  { unfold wire_of. clear. rewrite Nat2Z.id. induction (effects_of pe r) as [|e l IH]; [done|]. cbn [map length].
    change (tlvs_wire (fst e :: map fst l)) with (tlv_wire (fst e) ++ tlvs_wire (map fst l)). rewrite length_app.
    unfold tlv_wire. rewrite length_app, be_bytes_length. lia. }
  destruct (attr_loop_run pe (getp (p_in p) + Z.of_nat (length (wire_of r))) (effects_of pe r) _ [] 0 p rest Hr S P eq_refl L (effects_nodup r)
    ltac:(by intros ? _ H%elem_of_nil) Hf) as (len' & El). fold (wire_of r) in El. rewrite El. cbn [mbind outcome_bind].
  set (n := Z.of_nat (length (wire_of r))) in *.
  destruct (run_checked r (moved n p) E) as [Ck Hm]. rewrite (finish_passes r) by (try done; by rewrite run_in).
  cbn [mbind outcome_bind proceed]. rewrite bool_decide_eq_true_2 by done. eexists. split; [done|]. destruct (run_mp r (moved n p)) as [M1 M2]. split_and!.
  - rewrite <- (run_route pe r (moved n p) E). done.
  - cbn [p_in set_p_as4_path]. by rewrite <- (run_in _ Hr (moved n p)).
  - apply (ck_reach _ _ Ck).
  - exact M1.
  - exact M2.
Qed.
End Read.

(** ** Writing a route *)

Definition reflected (tx : tx_peer) (from : option tx_from) : option tx_from :=
  match from with
  | Some f => if bool_decide (tx_sort tx = BGP_PEER_IBGP) && bool_decide (tf_sort f = BGP_PEER_IBGP) then Some f else None
  | None => None
  end.
Definition own_cluster (bg : tx_bgp) : list Z := default (tb_router_id bg) (tb_cluster_id bg).

(** The route that a peer is told of. *)
Definition advertised (bg : tx_bgp) (tx : tx_peer) (from : option tx_from) (path : list assegment) (x : attr) : route :=
  mkRoute (a_origin x) path (a_nexthop x)
    (match tb_maxmed bg with Some m => Some m | None => v_med x end)
    (if bool_decide (tx_sort tx = BGP_PEER_IBGP) || bool_decide (tx_sort tx = BGP_PEER_CONFED) || tx_oad tx then Some (a_local_pref x) else None)
    (v_atomic x) (v_aggregator x)
    (if tx_send_community tx then v_community x else None) (if tx_send_large_community tx then v_lcommunity x else None)
    ((fun f => default (tf_remote_id f) (v_originator x)) <$> reflected tx from)
    ((fun _ => own_cluster bg ++ default [] (a_cluster x)) <$> reflected tx from)
    (if tx_send_ext_community tx then v_ecommunity x else None) (if tx_send_ext_community tx then v_ipv6_ecommunity x else None)
    (v_otc x) (if AIGP_TRANSMIT_ALLOWED tx then v_aigp x else None).

(** Attributes with a next hop, consistent flags and none of the attributes of other
    address families. *)
Record plain (x : attr) : Prop := {
  pl_nexthop : bgp_attr_exists x BGP_ATTR_NEXT_HOP = true;
  pl_community : bgp_attr_exists x BGP_ATTR_COMMUNITIES = true -> a_community x <> None;
  pl_lcommunity : bgp_attr_exists x BGP_ATTR_LARGE_COMMUNITIES = true -> a_lcommunity x <> None;
  pl_srv6 : a_srv6_vpn x = None;
  pl_link_state : a_link_state x = None;
  pl_pmsi : bgp_attr_exists x BGP_ATTR_PMSI_TUNNEL = false;
  pl_transit : a_transit x = None
}.

Section Sent.
  Context (junk : nat -> Z) (Hjunk : forall i, is_byte (junk i)) (pe : peer).

Definition part (l : list effect) : list Z := tlvs_wire (map fst l).

Lemma part_app l1 l2 : part (l1 ++ l2) = part l1 ++ part l2.
Proof. unfold part. by rewrite map_app, tlvs_wire_app. Qed.

Lemma part_one e : part [e] = tlv_wire (fst e).
Proof. apply app_nil_r. Qed.

Lemma emits_header flags type n : emits (header junk flags type n) (be_bytes 1 flags ++ be_bytes 1 type ++ be_bytes 1 n).
Proof. eapply emits_eq; [|repeat apply emits_then; apply (emits_putc junk Hjunk)]. by rewrite <- app_assoc. Qed.

(** Follow the structure of a writer; what is left are bytes and addresses. *)
Ltac emit := lazymatch goal with
  | |- emits (_ +> _) _ => eapply emits_then; [emit|emit]
  | |- emits (header _ _ _ _) _ => apply emits_header
  | |- emits (putc _ _) _ => apply (emits_putc junk Hjunk)
  | |- emits (putw _ _) _ => apply (emits_putw junk Hjunk)
  | |- emits (putl _ _) _ => apply (emits_putl junk Hjunk)
  | |- emits (putq _ _) _ => apply (emits_putq junk Hjunk)
  | |- emits (put_ipv4 _ _) _ => apply emits_put_ipv4
  | |- emits (put_in_addr _ _) _ => apply emits_put_in_addr
  | |- emits (put _ _ _) _ => apply emits_put; [done|]
  | _ => eassumption
  end.

(** An attribute with a length of one byte. *)
Lemma emits_tlv flags type n w body : has flags BGP_ATTR_FLAG_EXTLEN = false -> n = Z.of_nat (length body) -> emits w body ->
  emits (header junk flags type n +> w) (tlv_wire (mkTlv flags type body)).
Proof.
  intros Hf -> Hw. eapply emits_eq; [|apply emits_then; [apply emits_header|exact Hw]].
  unfold tlv_wire, t_lfl. cbn [t_flags]. rewrite Hf. by rewrite <- !app_assoc.
Qed.

Lemma emits_assoc a b c d : emits (a +> (b +> c)) d -> emits (a +> b +> c) d.
Proof. intros H s S R. destruct (H s S R) as (s' & E & P). exists s'. split; [|done]. rewrite <- E. unfold andthen. by destruct (a s). Qed.

Lemma emits_sized type body : bytes body -> Z.of_nat (length body) <= 60000 -> emits (put_sized junk type body) (tlv_wire (sized type body)).
Proof.
  intros B L. unfold put_sized, sized_header, sized, sized_flags.
  destruct (255 <? Z.of_nat (length body)); [|by apply emits_tlv; [..|by apply emits_put]].
  eapply emits_eq; [|by emit].
  unfold tlv_wire. rewrite <- !app_assoc. done.
Qed.

Lemma emits_opt {A} (o : option A) mk w c : (o = None -> c = false) -> (forall v, o = Some v -> c = true /\ emits w (tlv_wire (fst (mk v)))) ->
  emits (when c w) (part (opt o mk)).
Proof.
  intros Hn Hs. destruct o as [v|]; cbn [opt].
  - destruct (Hs v eq_refl) as [-> H]. by rewrite part_one.
  - rewrite (Hn eq_refl). apply emits_nothing.
Qed.

Context (bg : tx_bgp) (tx : tx_peer) (from : option tx_from) (a : aspath) (x : attr).
Context (Hx : plain x).
Local Abbreviation r := (advertised bg tx from (segments a) x).
Context (Hr : route_ok pe r).

Lemma emits_med : emits (put_med junk bg x) (part (opt (rt_med r) e_med)).
Proof.
  unfold put_med. cbn [rt_med advertised]. unfold v_med, if_set. apply emits_opt.
  - destruct (tb_maxmed bg); [done|]. by destruct (bgp_attr_exists _ _).
  - intros v E. split.
    + destruct (tb_maxmed bg); [by rewrite orb_true_r|]. by destruct (bgp_attr_exists _ _).
    + apply emits_tlv; [done|done|]. replace (default (a_med x) (tb_maxmed bg)) with v; [apply (emits_putl junk Hjunk)|].
      destruct (tb_maxmed bg); [by injection E as <-|]. destruct (bgp_attr_exists _ _); [by injection E as <-|done].
Qed.

(** A value that is there when its flag is set. *)
Lemma if_set_some {A} t (v w : A) : if_set x t v = Some w -> bgp_attr_exists x t = true /\ v = w.
Proof. unfold if_set. destruct (bgp_attr_exists x t); [by intros [= ->]|done]. Qed.
Lemma if_set_none {A} t (v : A) : if_set x t v = None -> bgp_attr_exists x t = false.
Proof. unfold if_set. by destruct (bgp_attr_exists x t). Qed.

Lemma emits_local_pref : emits (put_local_pref junk tx x) (part (opt (rt_local_pref r) e_local_pref)).
Proof.
  unfold put_local_pref. cbn [rt_local_pref advertised]. apply emits_opt; destruct (_ || tx_oad tx); try done.
  intros v [= <-]. split; [done|]. apply emits_tlv; [done|done|apply (emits_putl junk Hjunk)].
Qed.

Lemma emits_atomic : emits (put_atomic junk x) (part (opt (rt_atomic r) e_atomic)).
Proof.
  unfold put_atomic. cbn [rt_atomic advertised]. apply emits_opt; [apply if_set_none|]. intros v [E _]%if_set_some.
  split; [done|]. eapply emits_eq; [|apply emits_header]. done.
Qed.

Lemma emits_aggregator : use32bit tx = true -> emits (put_aggregator junk tx x) (part (opt (rt_aggregator r) e_aggregator)).
Proof.
  intros Hu. unfold put_aggregator. rewrite Hu. cbn [rt_aggregator advertised]. apply emits_opt; [apply if_set_none|].
  intros v Ev. destruct (rk_aggregator _ _ Hr v Ev) as [_ Ha]. apply if_set_some in Ev as [E <-]. cbn [fst snd] in *.
  split; [done|]. eapply emits_eq; [|by emit].
  unfold e_aggregator, tlv_wire, t_length. cbn [fst snd t_flags t_type t_body]. rewrite length_app, be_bytes_length, (ad_len _ Ha).
  by rewrite <- !app_assoc.
Qed.

Lemma bytes_communities l : bytes (concat (map community_bytes l)).
Proof. apply Forall_concat, Forall_fmap, Forall_true. intros v. apply (be_bytes_bytes 4). Qed.

Lemma emits_community : emits (put_community junk tx x) (part (opt (rt_community r) e_community)).
Proof.
  unfold put_community. pose proof (rk_community _ _ Hr) as Hc. cbn [rt_community advertised] in *. unfold v_community, if_has in *.
  pose proof (pl_community _ Hx) as Hn. apply emits_opt.
  - destruct (tx_send_community tx), (bgp_attr_exists x BGP_ATTR_COMMUNITIES); try done. intros E. by destruct (Hn eq_refl).
  - intros l El. pose proof (Hc l El) as Hl. destruct (tx_send_community tx), (bgp_attr_exists x BGP_ATTR_COMMUNITIES); try done.
    split; [done|]. unfold with_value. rewrite El. apply emits_sized; [apply bytes_communities|].
    rewrite communities_length. apply Hl.
Qed.

Lemma emits_large_community : emits (put_large_community junk tx x) (part (opt (rt_lcommunity r) e_lcommunity)).
Proof.
  unfold put_large_community. pose proof (rk_lcommunity _ _ Hr) as Hc. cbn [rt_lcommunity advertised] in *. unfold v_lcommunity, if_has in *.
  pose proof (pl_lcommunity _ Hx) as Hn. apply emits_opt.
  - destruct (tx_send_large_community tx), (bgp_attr_exists x BGP_ATTR_LARGE_COMMUNITIES); try done. intros E. by destruct (Hn eq_refl).
  - intros l El. pose proof (Hc l El) as Hl. destruct (tx_send_large_community tx), (bgp_attr_exists x BGP_ATTR_LARGE_COMMUNITIES); try done.
    split; [done|]. unfold with_value. rewrite El. apply emits_sized; [by apply Forall_concat, Hl|].
    pose proof (values_pos 12 l ltac:(lia) Hl). lia.
Qed.

Lemma emits_ecommunity n type (o : option (list (list Z))) (mk : list (list Z) -> effect) (c : bool) : (0 < n)%nat ->
  (forall l : list (list Z), (if c then o else None) = Some l -> values_ok n l) -> (forall l, fst (mk l) = sized type (concat l)) ->
  emits (when c (bgp_packet_ecommunity_attribute junk type o)) (part (opt (if c then o else None) mk)).
Proof.
  intros Hn Ho Hmk. destruct c; cbn [when]; [|apply emits_nothing]. destruct o as [l|]; [|apply emits_nothing].
  pose proof (Ho l eq_refl) as Hl. cbn [opt]. rewrite part_one, Hmk. pose proof (values_pos n l Hn Hl).
  destruct l as [|v l]; [by destruct (vo_some _ _ Hl)|]. apply emits_sized; [by apply Forall_concat, Hl|lia].
Qed.

Lemma emits_ext_communities :
  emits (put_ext_communities junk tx x) (part (opt (rt_ecommunity r) e_ecommunity) ++ part (opt (rt_ipv6_ecommunity r) e_ipv6_ecommunity)).
Proof.
  unfold put_ext_communities. pose proof (rk_ecommunity _ _ Hr) as H1. pose proof (rk_ipv6_ecommunity _ _ Hr) as H2.
  cbn [rt_ecommunity rt_ipv6_ecommunity advertised] in *. destruct (tx_send_ext_community tx); [|apply emits_nothing].
  unfold v_ecommunity, v_ipv6_ecommunity, if_has in *. cbn [when].
  apply emits_then; [apply (emits_ecommunity 8); [lia|done|done]|apply (emits_ecommunity 20); [lia|done|done]].
Qed.

(** The identifiers that are written. *)
Record ids_ok : Prop := {
  io_router : addr4 (own_cluster bg);
  io_from : forall f, from = Some f -> addr4 (tf_remote_id f)
}.

Lemma emits_reflection : ids_ok ->
  emits (put_reflection junk bg tx from x) (part (opt (rt_originator r) e_originator) ++ part (opt (rt_cluster r) e_cluster)).
Proof.
  intros [Ho Hf]. pose proof (rk_originator _ _ Hr) as H1. pose proof (rk_cluster _ _ Hr) as H2. unfold put_reflection.
  cbn [rt_originator rt_cluster advertised] in *. unfold reflected in *. destruct from as [f|]; [|apply emits_nothing].
  destruct (_ && _); [|apply emits_nothing]. cbn [fmap option_fmap option_map opt when] in *. rewrite !part_one.
  destruct (H1 _ eq_refl) as [Ha _]. destruct (H2 _ eq_refl) as (Hl & _ & Hb & _). fold (own_cluster bg).
  set (o := default (tf_remote_id f) (v_originator x)) in *.
  replace (if bgp_attr_exists x BGP_ATTR_ORIGINATOR_ID then a_originator_id x else tf_remote_id f) with o
    by (unfold o, v_originator, if_set; by destruct (bgp_attr_exists _ _)).
  set (own := put_in_addr junk (own_cluster bg)).
  assert (emits own (own_cluster bg)) as Hown by (by apply emits_put_in_addr).
  assert (emits (match a_cluster x with
       | Some l => putc junk (Z.of_nat (length l) + 4) +> own +> put junk l (Z.of_nat (length l)) | None => putc junk 4 +> own end)
     (be_bytes 1 (Z.of_nat (length (own_cluster bg ++ default [] (a_cluster x)))) ++ own_cluster bg ++ default [] (a_cluster x))) as Hc.
  { rewrite length_app, (ad_len _ Ho). destruct (a_cluster x) as [l|]; cbn [default from_option id length].
    - eapply emits_eq; [|emit].
      + rewrite <- app_assoc. do 2 f_equal. lia.
      + cbn in Hb. by apply Forall_app in Hb as [_ Hb].
    - rewrite app_nil_r. emit. }
  eapply emits_eq; [|by emit].
  unfold tlv_wire, t_length. cbn [fst e_originator e_cluster t_flags t_type t_body]. rewrite (ad_len _ Ha). rewrite <- !app_assoc. done.
Qed.

Lemma emits_otc : emits (put_otc junk x) (part (opt (rt_otc r) e_otc)).
Proof.
  unfold put_otc. cbn [rt_otc advertised]. apply emits_opt; [apply if_set_none|]. intros v [E <-]%if_set_some.
  split; [done|]. apply emits_tlv; [done|done|apply (emits_putl junk Hjunk)].
Qed.

Lemma emits_aigp : emits (put_aigp junk tx x) (part (opt (rt_aigp r) (e_aigp pe))).
Proof.
  unfold put_aigp. cbn [rt_aigp advertised]. unfold v_aigp, if_set. apply emits_opt.
  - destruct (AIGP_TRANSMIT_ALLOWED tx), (bgp_attr_exists _ _); done.
  - intros m Em. destruct (AIGP_TRANSMIT_ALLOWED tx), (bgp_attr_exists _ _); try done. injection Em as <-. split; [done|].
    eapply emits_eq; [|emit].
    by rewrite <- !app_assoc.
Qed.

(** A session for IPv4 unicast with 4-byte AS numbers and without extensions. *)
Record plain_session : Prop := {
  ps_as4 : use32bit tx = true;
  ps_enhe : tx_enhe tx = false;
  ps_srv6 : tx_srv6 tx = false;
  ps_nhc : tx_send_nhc tx = false
}.
Context (Hs : plain_session) (Hi : ids_ok).

Lemma emits_nil w : (forall s, w s = Ret s) -> emits w [].
Proof. intros H s S R. exists s. split; [apply H|by apply puts_refl]. Qed.

Lemma emits_skip w v d : emits w d -> (forall s, v s = Ret s) -> emits (w +> v) d.
Proof. intros H Hv. rewrite <- (app_nil_r d). apply emits_then; [done|by apply emits_nil]. Qed.

Lemma srv6_nothing u s : put_srv6 junk tx 1 1 u x s = Ret s.
Proof. unfold put_srv6. rewrite (ps_srv6 Hs), (pl_srv6 _ Hx). done. Qed.

Lemma emits_others u bpi : emits (put_other_attributes junk bg tx a 1 1 from u bpi x)
  (part (optional_effects pe r)).
Proof.
  unfold put_other_attributes. eapply emits_eq.
  2: { apply emits_skip; [|intros s; unfold put_transit; by rewrite (pl_transit _ Hx)].
       apply emits_skip; [|intros s; by rewrite (ps_nhc Hs)]. apply emits_then; [apply emits_then; [|exact emits_otc]|exact emits_aigp].
       apply emits_skip; [|intros s; unfold put_pmsi_tunnel; by rewrite (pl_pmsi _ Hx)].
       apply emits_skip; [|intros s; unfold put_link_state; by rewrite (pl_link_state _ Hx)]. apply emits_skip; [|done].
       apply emits_skip; [|intros s; unfold put_as4_aggregator; by rewrite (ps_as4 Hs), andb_false_r].
       apply emits_skip; [|intros s; unfold put_as4_path; by rewrite (ps_as4 Hs)].
       apply emits_skip; [|apply srv6_nothing]. apply emits_skip; [|done].
       apply emits_then; [|exact emits_ext_communities]. apply emits_then; [|exact (emits_reflection Hi)].
       apply emits_then; [|exact emits_large_community]. apply emits_then; [|exact emits_community].
       apply emits_then; [|exact (emits_aggregator (ps_as4 Hs))]. apply emits_then; [|exact emits_atomic].
       apply emits_then; [exact emits_med|exact emits_local_pref]. }
  unfold optional_effects. by rewrite !part_app, <- !app_assoc.
Qed.

Lemma get_endp_sane s : sane s -> stream_get_endp s = Ret (endp s).
Proof. intros S. unfold stream_get_endp. by rewrite sane_verify. Qed.

Lemma packet_attribute_puts other xp u bpi a0 s : a_aspath x = Some a0 -> outgoing_path bg tx a0 = Ret a -> sane s -> room s (wire_of pe r) ->
  exists vec s', bgp_packet_attribute junk other bg tx x xp 1 1 from u bpi s = Ret (Z.of_nat (length (wire_of pe r)), vec, s')
  /\ puts s (wire_of pe r) s'.
Proof.
  intros E0 Ea S R. unfold bgp_packet_attribute. rewrite get_endp_sane by done. cbn [mbind outcome_bind].
  assert (put_mp_reach junk other tx 1 1 xp x s = Ret (None, s)) as ->.
  { unfold put_mp_reach, ip_unicast_plain. rewrite (ps_enhe Hs). by destruct xp. }
  cbn [mbind outcome_bind].
  change (wire_of pe r) with (tlv_wire (mkTlv 64 1 (be_bytes 1 (a_origin x))) ++ tlv_wire (mkTlv 80 2 (path_wire (segments a)))
    ++ tlv_wire (mkTlv 64 3 (a_nexthop x)) ++ part (optional_effects pe r)) in *.
  set (d1 := tlv_wire (mkTlv 64 1 _)) in *. set (d2 := tlv_wire (mkTlv 80 2 _)) in *. set (d3 := tlv_wire (mkTlv 64 3 _)) in *.
  destruct (emits_tlv BGP_ATTR_FLAG_TRANS BGP_ATTR_ORIGIN 1 (putc junk (a_origin x)) (be_bytes 1 (a_origin x)) eq_refl eq_refl (emits_putc junk Hjunk _) s S) as (s1 & E1 & P1);
    [by eapply room_first|]. rewrite E1. cbn [mbind outcome_bind]. rewrite E0, Ea, (ps_as4 Hs). cbn [mbind outcome_bind].
  pose proof (room_rest _ _ _ _ P1 R) as R1.
  destruct (emits_put_path junk Hjunk BGP_ATTR_FLAG_TRANS a (rk_path _ _ Hr) eq_refl s1 (pu_sane _ _ _ P1)) as (s2 & E2 & P2); [by eapply room_first|].
  rewrite E2. cbn [mbind outcome_bind]. pose proof (room_rest _ _ _ _ P2 R1) as R2.
  unfold put_ip_nexthop, ip_unicast_plain. rewrite (ps_enhe Hs), get_endp_sane by apply P2. cbn [Z.eqb Pos.eqb andb negb mbind outcome_bind].
  unfold put_nexthop. rewrite (pl_nexthop _ Hx). pose proof (rk_nexthop _ _ Hr) as Hn. cbn [rt_nexthop advertised] in Hn.
  destruct (emits_tlv BGP_ATTR_FLAG_TRANS BGP_ATTR_NEXT_HOP 4 (put_ipv4 junk (a_nexthop x)) (a_nexthop x) eq_refl ltac:(by rewrite (ad_len _ Hn)) (emits_put_ipv4 junk _ Hn) s2 (pu_sane _ _ _ P2))
    as (s3 & E3 & P3); [by eapply room_first|]. rewrite E3. cbn [mbind outcome_bind].
  rewrite get_endp_sane by apply P3. cbn [mbind outcome_bind]. pose proof (room_rest _ _ _ _ P3 R2) as R3.
  destruct (emits_others u bpi s3 (pu_sane _ _ _ P3) R3) as (s4 & E4 & P4). rewrite E4. cbn [mbind outcome_bind].
  rewrite get_endp_sane by apply P4. cbn [mbind outcome_bind].
  assert (puts s (d1 ++ d2 ++ d3 ++ part (optional_effects pe r)) s4) as Pt
    by exact (puts_trans _ _ _ _ _ P1 (puts_trans _ _ _ _ _ P2 (puts_trans _ _ _ _ _ P3 P4))).
  eexists _, s4. split; [|exact Pt]. rewrite (pu_endp _ _ _ Pt). do 3 f_equal. lia.
Qed.
End Sent.

(** ** The path that a peer sees *)

(** The AS number that an external peer sees first. *)
Definition announced_as (bg : tx_bgp) (tx : tx_peer) : Z :=
  match tb_confed_id bg with
  | Some confed_id => confed_id
  | None => if tx_change_local_as tx =? 0 then tx_local_as tx else tx_change_local_as tx
  end.

Lemma add_asns_shape b n t a : aspath_add_asns b n t 1 = Ret a ->
  exists l rest, segments a = mkSeg t (fit16 (n :: l)) :: rest /\ rest ⊆ segments b.
Proof.
  unfold aspath_add_asns. rewrite refresh_spec. intros [= <-]. cbn [segments refreshed set_segments]. destruct (segments b) as [|seg rest].
  - by exists [], [].
  - destruct (Z.eqb_spec (seg_type seg) t) as [<-|Ht]; [exists (seg_as seg), rest; split; [done|set_solver]|].
    destruct (slen seg =? 0); exists [].
    + exists rest. split; [done|set_solver].
    + exists (seg :: rest). done.
Qed.

Lemma confed_check_sub l1 l2 : l1 ⊆ l2 -> existsb (fun seg => is_confed_type (seg_type seg)) l2 = false ->
  existsb (fun seg => is_confed_type (seg_type seg)) l1 = false.
Proof.
  intros Hs H2. destruct (existsb _ l1) eqn:E; [|done]. apply existsb_exists in E as (seg & Hi & Ht). exfalso.
  assert (existsb (fun seg => is_confed_type (seg_type seg)) l2 = true) as H; [|congruence].
  apply existsb_exists. exists seg. split; [|done]. apply list_elem_of_In. by apply Hs, list_elem_of_In.
Qed.

Lemma add_seq_confed b n a : aspath_confed_check b = false -> aspath_add_seq b n = Ret a -> aspath_confed_check a = false.
Proof.
  intros Hb E. destruct (add_asns_shape b n AS_SEQUENCE a E) as (l & rest & Es & Hr). unfold aspath_confed_check in *. rewrite Es.
  cbn [existsb seg_type]. by apply (confed_check_sub _ (segments b)).
Qed.

Lemma filter_confed l : existsb (fun seg => is_confed_type (seg_type seg)) (List.filter (fun seg => negb (is_confed_type (seg_type seg))) l) = false.
Proof.
  induction l as [|y r IH]; [done|]. cbn [List.filter]. destruct (is_confed_type (seg_type y)) eqn:E; cbn [negb existsb]; [done|]. by rewrite E.
Qed.

Lemma delete_confed_check a b : aspath_delete_confed_seq a = Ret b -> aspath_confed_check b = false.
Proof.
  unfold aspath_delete_confed_seq, delete_segments. intros E. unfold aspath_confed_check. destruct (segments a) as [|seg l] eqn:Es.
  { injection E as <-. by rewrite Es. }
  destruct (existsb (fun seg => is_confed_type (seg_type seg)) (seg :: l)) eqn:Ex; [|injection E as <-; by rewrite Es].
  rewrite refresh_spec in E. injection E as <-. apply (filter_confed (seg :: l)).
Qed.

Lemma fit16_head n l : fit16 (n :: l) <> [] -> exists l', fit16 (n :: l) = n :: l'.
Proof. unfold fit16. destruct (Z.to_nat _); [done|]. by eexists. Qed.

Lemma first_as b n a : aspath_add_seq b n = Ret a -> Forall seg_ok (segments a) -> aspath_firstas_check a n = Ret true.
Proof.
  intros E W. destruct (add_asns_shape b n AS_SEQUENCE a E) as (l & rest & Es & _). rewrite Es in W. apply Forall_cons_1 in W as [[_ W _ _] _].
  destruct (fit16_head n l W) as [l' El]. unfold aspath_firstas_check. rewrite Es, El. cbn. by rewrite Z.eqb_refl.
Qed.

Lemma outgoing_external bg tx a0 a : tx_sort tx = BGP_PEER_EBGP -> tx_as_path_unchanged tx = false -> tx_rserver_client tx = false ->
  (tb_confed_id bg <> None -> tb_confed_peers bg (tx_as tx) = false) -> outgoing_path bg tx a0 = Ret a -> Forall seg_ok (segments a) ->
  aspath_confed_check a = false /\ aspath_firstas_check a (announced_as bg tx) = Ret true.
Proof.
  intros Hs Hu Hc Hm E W. unfold outgoing_path in E. rewrite Hs, Hu, Hc, bool_decide_eq_true_2 in E by done. cbn [negb orb andb] in E.
  destruct (aspath_delete_confed_seq (aspath_dup a0)) as [b|] eqn:Eb; [|done]. apply delete_confed_check in Eb. cbn [mbind outcome_bind] in E.
  unfold announced_as. destruct (tb_confed_id bg) as [id|].
  { rewrite (Hm ltac:(done)) in E. split; [by apply (add_seq_confed b id)|by apply (first_as b)]. }
  destruct (tx_change_local_as tx =? 0); cbn [negb] in E; [split; [by apply (add_seq_confed b (tx_local_as tx))|by apply (first_as b)]|].
  destruct (if _ && _ then _ else _) as [c|] eqn:Ec; [|done]. cbn [mbind outcome_bind] in E.
  assert (aspath_confed_check c = false) as Hcc.
  { destruct (_ && _); [by apply (add_seq_confed b (tx_local_as tx))|by injection Ec as <-]. }
  split; [by apply (add_seq_confed c (tx_change_local_as tx))|by apply (first_as c)].
Qed.

Lemma outgoing_confed bg tx a0 a : tx_sort tx = BGP_PEER_CONFED -> outgoing_path bg tx a0 = Ret a -> aspath_left_confed_check a = true.
Proof.
  intros Hs E. unfold outgoing_path in E. rewrite Hs in E. rewrite bool_decide_eq_false_2, (bool_decide_eq_true_2 (BGP_PEER_CONFED = BGP_PEER_CONFED)) in E by done. cbn [andb] in E.
  destruct (add_asns_shape _ _ _ _ E) as (l & rest & Es & _). unfold aspath_left_confed_check. by rewrite Es.
Qed.

(** ** The round trip *)

(** Attributes in the form that the daemon keeps them, which fit their fields. *)
Record attr_ok (x : attr) : Prop := {
  ao_plain : plain x;
  ao_origin : 0 <= a_origin x <= 2;
  ao_nexthop : addr4 (a_nexthop x);
  ao_med : forall m, v_med x = Some m -> 0 <= m < 4294967296;
  ao_local_pref : 0 <= a_local_pref x < 4294967296;
  ao_aggregator : forall v, v_aggregator x = Some v -> 0 < fst v < 4294967296 /\ addr4 (snd v);
  ao_community : forall l, v_community x = Some l -> community_ok l;
  ao_lcommunity : forall l, v_lcommunity x = Some l -> values_ok 12 l;
  ao_originator : forall a, v_originator x = Some a -> addr4 a;
  ao_cluster : forall l, a_cluster x = Some l -> Z.of_nat (length l) + 4 <= 255 /\ Z.of_nat (length l) mod 4 = 0 /\ bytes l;
  ao_ecommunity : forall l, v_ecommunity x = Some l -> values_ok 8 l;
  ao_ipv6_ecommunity : forall l, v_ipv6_ecommunity x = Some l -> values_ok 20 l;
  ao_otc : forall v, v_otc x = Some v -> 0 < v < 4294967296;
  ao_aigp : forall m, v_aigp x = Some m -> 0 <= m < 18446744073709551615
}.

(** Both ends of a session: [tx] is the peer as the sender has it, [pe] the sender as its
    peer has it.  An external peer knows the sender by the AS number it puts first. *)
Record paired (bg : tx_bgp) (tx : tx_peer) (from : option tx_from) (pe : peer) : Prop := {
  pa_plain : plain_session tx;
  pa_as4 : as4_session pe = true;
  pa_sort : pe_sort pe = tx_sort tx;
  pa_now : pe_sort_now pe = tx_sort tx;
  pa_oad : pe_oad pe = tx_oad tx;
  pa_discard : forall t, pe_discard pe t = false;
  pa_withdraw : forall t, pe_withdraw pe t = false;
  pa_local_as : negb (pe_change_local_as pe =? 0) && negb (pe_local_as_no_prepend pe) = false;
  pa_maxmed : forall m, tb_maxmed bg = Some m -> 0 <= m < 4294967296;
  pa_ids : ids_ok bg from;
  pa_external : tx_sort tx = BGP_PEER_EBGP ->
    tx_as_path_unchanged tx = false /\ tx_rserver_client tx = false
    /\ (tb_confed_id bg <> None -> tb_confed_peers bg (tx_as tx) = false) /\ pe_as pe = announced_as bg tx
}.

(** What the peer may still refuse: the next hop, and AS sets or the number 0 in the path. *)
Record acceptable (pe : peer) (nexthop : list Z) (a : aspath) : Prop := {
  ac_nexthop : ipv4_martian pe nexthop && negb (pe_allow_martian pe) = false;
  ac_sets : pe_reject_as_sets pe && aspath_check_as_sets a = false;
  ac_zero : pe_sort_now pe = BGP_PEER_EBGP -> aspath_check_as_zero a = false
}.

Section Trip.
  Context (bg : tx_bgp) (tx : tx_peer) (from : option tx_from) (pe : peer) (x : attr) (a0 a : aspath).
  Context (Hx : attr_ok x) (Hp : paired bg tx from pe) (Ha : outgoing_path bg tx a0 = Ret a) (Hk : path_ok (segments a)).
Local Abbreviation r := (advertised bg tx from (segments a) x).

Lemma reflected_internal f : reflected tx from = Some f -> from = Some f /\ tx_sort tx = BGP_PEER_IBGP.
Proof.
  unfold reflected. destruct from as [g|]; [|done]. case_bool_decide; [|done]. case_bool_decide; [|done]. by intros [= ->].
Qed.

Lemma originator_ok o : rt_originator r = Some o -> addr4 o /\ pe_sort pe <> BGP_PEER_EBGP.
Proof.
  cbn [rt_originator advertised]. intros (f & Ef & ->)%fmap_Some. apply reflected_internal in Ef as [Ef Et]. rewrite (pa_sort _ _ _ _ Hp), Et.
  split; [|done]. destruct (v_originator x) as [o'|] eqn:Eo; cbn; [by apply Hx|]. by apply (io_from _ _ (pa_ids _ _ _ _ Hp)).
Qed.

Lemma cluster_ok l : rt_cluster r = Some l ->
  0 < Z.of_nat (length l) <= 255 /\ Z.of_nat (length l) mod 4 = 0 /\ bytes l /\ pe_sort pe <> BGP_PEER_EBGP.
Proof.
  cbn [rt_cluster advertised]. intros (f & Ef & ->)%fmap_Some. apply reflected_internal in Ef as [_ Et]. rewrite (pa_sort _ _ _ _ Hp), Et.
  destruct (io_router _ _ (pa_ids _ _ _ _ Hp)) as [L B]. rewrite length_app, L. pose proof (ao_cluster _ Hx) as Hc.
  destruct (a_cluster x) as [l|]; cbn [default from_option id length].
  - destruct (Hc l eq_refl) as (H1 & H2 & H3). split; [lia|]. split; [|split; [by apply Forall_app_2|done]].
    rewrite Nat2Z.inj_add, Z.add_mod, H2 by lia. done.
  - split; [lia|]. split; [done|]. split; [by rewrite app_nil_r|done].
Qed.

Lemma advertised_ok : route_ok pe r.
Proof.
  destruct Hx. split; try done; cbn [rt_med rt_local_pref rt_aggregator rt_community rt_lcommunity rt_ecommunity rt_ipv6_ecommunity rt_otc rt_aigp advertised].
  - intros m. pose proof (pa_maxmed _ _ _ _ Hp m). destruct (tb_maxmed bg); [done|auto].
  - intros l. destruct (_ || tx_oad tx) eqn:E; [|done]. intros [= <-]. split; [done|]. intros Hs. rewrite (pa_oad _ _ _ _ Hp).
    rewrite (pa_sort _ _ _ _ Hp) in Hs. rewrite Hs in E. done.
  - intros l. destruct (tx_send_community tx); [auto|done].
  - intros l. destruct (tx_send_large_community tx); [auto|done].
  - apply originator_ok.
  - apply cluster_ok.
  - intros l. destruct (tx_send_ext_community tx); [auto|done].
  - intros l. destruct (tx_send_ext_community tx); [auto|done].
  - intros m. destruct (AIGP_TRANSMIT_ALLOWED tx); [auto|done].
Qed.

Lemma advertised_welcome : acceptable pe (a_nexthop x) a -> welcome pe r.
Proof.
  intros [A1 A2 A3]. destruct Hp as [P1 P2 P3 P4 P5 P6 P7 P8 P9 P10 P11]. split; try done.
  - rewrite P3. intros Es. cbn [rt_local_pref advertised]. rewrite Es. done.
  - rewrite P4. intros Es. by apply (outgoing_confed bg tx a0 a).
  - intros Es. rewrite P4 in Es. destruct (P11 Es) as (H1 & H2 & H3 & H4).
    destruct (outgoing_external bg tx a0 a Es H1 H2 H3 Ha (po_segs _ Hk)) as [H5 H6]. rewrite <- H4 in H6.
    split; [exact H5|]. split; [exact H6|]. apply A3. by rewrite P4.
Qed.
End Trip.

(** C12: For IPv4 unicast on a session with 4-byte AS numbers both ways, without extended
    next hops, SRv6 and NHC sending; for attributes that fit their fields (AS
    numbers of the aggregator and of OTC other than 0, an AIGP metric below its
    maximum, lists of values sorted and at most 60000 bytes long), with a NEXT_HOP,
    a cluster list that has room for one more identifier within 255 bytes, and
    without unknown transitive, SRv6, link-state and PMSI attributes; an outgoing AS
    path that is canonical, of at most 60000 bytes, with segments the wire has room
    for; and a peer configured as the counterpart of the sender (same kind of
    session and OAD, nothing discarded or withdrawn, no local AS prepended; an
    external peer expects the AS that is announced, is no confederation member and
    no route-server client and has no as-path-unchanged) to which the next hop, AS
    sets and AS 0 in the path are acceptable: the attributes that
    [bgp_packet_attribute] writes, into a buffer with room for them and less than
    65536 bytes long, are accepted by that peer, which reads from them the route
    that was to be advertised, with the outgoing AS path, except that an external
    peer keeps the AIGP metric only where it is configured to take it. (A longer
    cluster list wraps its length: [cluster_list_length_wraps].) *)
Theorem bgp_attributes_roundtrip junk other bg tx from pe x xp u bpi a0 a s :
  let r := advertised bg tx from (segments a) x in
  (forall i, is_byte (junk i)) -> attr_ok x -> paired bg tx from pe ->
  a_aspath x = Some a0 -> outgoing_path bg tx a0 = Ret a -> path_ok (segments a) -> acceptable pe (a_nexthop x) a ->
  sane s -> pending s = [] -> room s (wire_of pe r) -> Z.of_nat (length (wire_of pe r)) < 65536 ->
  exists n vec s', bgp_packet_attribute junk other bg tx x xp 1 1 from u bpi s = Ret (n, vec, s') /\ sane s'
  /\ forall p rest, p_attr p = attr_init -> sane (p_in p) -> pending (p_in p) = pending s' ++ rest ->
     exists p', bgp_attr_parse pe n p = Ret (BGP_ATTR_PARSE_PROCEED, p') /\ route_of (p_attr p') = Some (heard pe r) /\ pending (p_in p') = rest.
Proof.
  intros r Hj Hx Hp E0 Ea Hk Hac S P0 R L. pose proof (advertised_ok bg tx from pe x a Hx Hp Hk) as Hr.
  pose proof (advertised_welcome bg tx from pe x a0 a Hp Ea Hk Hac) as Hw.
  destruct (packet_attribute_puts junk Hj pe bg tx from a x (ao_plain _ Hx) Hr (pa_plain _ _ _ _ Hp) (pa_ids _ _ _ _ Hp) other xp u bpi a0 s E0 Ea S R)
    as (vec & s' & E & P). exists (Z.of_nat (length (wire_of pe r))), vec, s'. split; [done|]. split; [apply P|].
  intros p rest Ep Sp Pp. rewrite (pu_pending _ _ _ P), P0 in Pp. cbn [app] in Pp.
  destruct (parse_route pe r p rest Hr Hw Ep Sp Pp L) as (p' & E1 & E2 & E3 & _). exists p'. split; [done|]. split; [done|].
  rewrite E3. by destruct (advance_app _ _ _ _ Sp Pp eq_refl) as (_ & H & _).
Qed.

(** ** Examples *)

Definition example_bgp : tx_bgp := mkTxBgp None (fun _ => false) None None [10; 0; 0; 1].
Definition example_tx (sort : peer_sort) : tx_peer :=
  mkTx sort false 65002 65001 0 false true true false false false true true true false false true false false.
Definition example_attr : attr :=
  bgp_attr_set BGP_ATTR_ORIGIN (bgp_attr_set BGP_ATTR_AS_PATH (set_a_aspath (Some (path_of ASNOTATION_PLAIN [mkSeg AS_SEQUENCE [65010]]))
    (bgp_attr_set BGP_ATTR_NEXT_HOP (set_a_nexthop [192; 0; 2; 1] (bgp_attr_set_med 5 (bgp_attr_set_community (Some [100; 200]) attr_init)))))).
Definition no_other_prefix : Z -> Z -> tx_prefix -> option attr -> writer := fun _ _ _ _ => nothing.
Definition write_example (sort : peer_sort) (from : option tx_from) (x : attr) : outcome (Z * option Z * stream) :=
  bgp_packet_attribute (fun _ => 0) no_other_prefix example_bgp (example_tx sort) x None 1 1 from None None (empty_stream 600).
Definition read_example (pe : peer) (w : outcome (Z * option Z * stream)) : outcome (parse_ret * option route) :=
  '(n, _, s) ← w; '(ret, p) ← bgp_attr_parse pe n (new_parser s); Ret (ret, route_of (p_attr p)).

Definition example_external (aigp : bool) : peer :=
  mkPeer BGP_PEER_EBGP BGP_PEER_EBGP false 65001 0 true true false true false aigp (fun _ => false) (fun _ => false) None true false false
    4096 (fun afi safi => (afi =? 1) && (safi =? 1)) ASNOTATION_PLAIN.
Definition example_internal : peer :=
  mkPeer BGP_PEER_IBGP BGP_PEER_IBGP false 65001 0 true true false false false false (fun _ => false) (fun _ => false) None false false false
    4096 (fun afi safi => (afi =? 1) && (safi =? 1)) ASNOTATION_PLAIN.

Lemma example_paired : paired example_bgp (example_tx BGP_PEER_EBGP) None (example_external false).
Proof.
  split; try done. split; [|done]. split; [done|]. repeat constructor; unfold is_byte; lia.
Qed.

Lemma example_attr_ok : attr_ok example_attr.
Proof.
  assert (addr4 [192; 0; 2; 1]) as Ha by (split; [done|repeat constructor; unfold is_byte; lia]).
  split; try done; [by intros m [= <-]|]. intros l [= <-]. split; [done|repeat constructor; lia|repeat constructor|done].
Qed.

Lemma bgp_attributes_roundtrip_witness :
  exists n vec s', write_example BGP_PEER_EBGP None example_attr = Ret (n, vec, s')
  /\ exists p', bgp_attr_parse (example_external false) n (new_parser s') = Ret (BGP_ATTR_PARSE_PROCEED, p')
  /\ route_of (p_attr p') = Some (mkRoute 0 [mkSeg AS_SEQUENCE [65001; 65010]] [192; 0; 2; 1] (Some 5) None None None (Some [100; 200])
                                  None None None None None None None).
Proof.
  destruct (outgoing_path example_bgp (example_tx BGP_PEER_EBGP) (path_of ASNOTATION_PLAIN [mkSeg AS_SEQUENCE [65010]])) as [a|] eqn:Ea;
    [|vm_compute in Ea; discriminate Ea].
  assert (segments a = [mkSeg AS_SEQUENCE [65001; 65010]]) as Es by (vm_compute in Ea; injection Ea as <-; reflexivity).
  destruct (bgp_attributes_roundtrip (fun _ => 0) no_other_prefix example_bgp (example_tx BGP_PEER_EBGP) None (example_external false)
    example_attr None None None (path_of ASNOTATION_PLAIN [mkSeg AS_SEQUENCE [65010]]) a (empty_stream 600)) as (n & vec & s' & E & S & H).
  - unfold is_byte. lia.
  - exact example_attr_ok.
  - exact example_paired.
  - reflexivity.
  - exact Ea.
  - rewrite Es. split; [|split; [|done]| |].
    + repeat constructor; cbn; done.
    + repeat constructor; done.
    + vm_compute. done.
    + vm_compute. done.
  - split; unfold aspath_check_as_zero, aspath_check_as_sets; rewrite ?Es; reflexivity.
  - apply empty_stream_sane. lia.
  - reflexivity.
  - rewrite Es. vm_compute. done.
  - rewrite Es. vm_compute. done.
  - exists n, vec, s'. split; [exact E|]. destruct (H (new_parser s') [] eq_refl S) as (p' & E1 & E2 & _).
    { by rewrite app_nil_r. }
    exists p'. split; [exact E1|]. rewrite E2, Es. reflexivity.
Defined.

Definition verdict_example (pe : peer) (w : outcome (Z * option Z * stream)) : outcome parse_ret := '(ret, _) ← read_example pe w; Ret ret.
Definition reflected_from : option tx_from := Some (mkFrom BGP_PEER_IBGP [10; 0; 0; 9] false).

(** A route with 63 clusters, which arrives with an extended length, is written with a
    length of 0 for its cluster list: the next router treats it as withdrawn.  With 62 it
    is accepted. *)
Lemma cluster_list_length_wraps :
  verdict_example example_internal (write_example BGP_PEER_IBGP reflected_from (set_a_cluster (Some (replicate 252 1)) example_attr))
    = Ret BGP_ATTR_PARSE_WITHDRAW
  /\ verdict_example example_internal (write_example BGP_PEER_IBGP reflected_from (set_a_cluster (Some (replicate 248 1)) example_attr))
    = Ret BGP_ATTR_PARSE_PROCEED.
Proof. split; vm_compute; reflexivity. Qed.

(** The attribute of a link state is written with a length of one byte too; a longer one
    makes the peer close the session. *)
Lemma link_state_length_wraps :
  verdict_example example_internal (write_example BGP_PEER_IBGP None (set_a_link_state (Some (replicate 300 7)) example_attr))
    = Ret BGP_ATTR_PARSE_ERROR.
Proof. vm_compute. reflexivity. Qed.

(** With [neighbor aigp] at both ends of an external session the metric is sent, and
    ignored when it is received. *)
Lemma aigp_sent_not_taken :
  tx_aigp (example_tx BGP_PEER_EBGP) = true /\ pe_aigp (example_external true) = true
  /\ (exists n vec s', write_example BGP_PEER_EBGP None (bgp_attr_set_aigp_metric 77 example_attr) = Ret (n, vec, s')
      /\ take 14 (drop (Z.to_nat n - 14) (pending s')) = [128; 26; 11] ++ [1; 0; 11; 0; 0; 0; 0; 0; 0; 0; 77])
  /\ (exists r, read_example (example_external true) (write_example BGP_PEER_EBGP None (bgp_attr_set_aigp_metric 77 example_attr))
                = Ret (BGP_ATTR_PARSE_PROCEED, Some r) /\ rt_aigp r = None).
Proof.
  split; [done|]. split; [done|]. split.
  - do 3 eexists. split; [vm_compute; reflexivity|]. vm_compute. reflexivity.
  - eexists. split; [vm_compute; reflexivity|]. reflexivity.
Qed.
