(* ===== verification/BgpPacketUpdate.v ===== *)
(** * Update messages that are sent and received

    The message that [subgroup_update_packet] makes of a queue of prefixes, and what
    [update_received] of the peer does with it, for IPv4. *)
From stdpp Require Import base list sorting sets.
From S2P Require Import Prelude Prefix Stream StreamFacts AsPath AsPathText AsPathOps AsPathWire AsPathTextFacts AsPathFacts AsPathWireFacts.
From S2P Require Import BgpAttrData BgpAttr BgpUpdate BgpAttrRead BgpUpdateFacts BgpNlriFacts BgpPacket BgpPacketFacts BgpPacketRoute.

(** ** Copies of streams *)

Lemma puts_self s : sane s -> getp s = 0 -> puts (set_endp 0 s) (pending s) s.
Proof.
  intros S G. pose proof (pending_length s S) as L. split; [done| | |done].
  - unfold pending at 2, read_bytes. cbn [endp getp set_endp]. rewrite G. done.
  - cbn [endp set_endp]. lia.
Qed.

Lemma reset_sane s : sane s -> stream_reset s = Ret (set_getp 0 (set_endp 0 s)) /\ sane (set_getp 0 (set_endp 0 s)) /\ pending (set_getp 0 (set_endp 0 s)) = [].
Proof.
  intros S. unfold stream_reset. rewrite sane_verify by done. split; [done|]. destruct S. split; [|done]. split; cbn; done || lia.
Qed.

Section Update.
  Context (junk : nat -> Z) (Hjunk : forall i, is_byte (junk i)).

Lemma stream_dup_spec s : sane s -> getp s = 0 -> 0 < endp s ->
  exists s', stream_dup junk s = Ret s' /\ sane s' /\ getp s' = 0 /\ endp s' = endp s /\ pending s' = pending s.
Proof.
  intros S G E. pose proof S as [S1 S2 S3 S4 S5]. unfold stream_dup. rewrite sane_verify by done. unfold stream_new, xmalloc.
  rewrite (proj2 (Z.ltb_lt _ _)), (proj2 (Z.ltb_lt _ _)) by lia. cbn [mbind outcome_bind]. unfold stream_copy. rewrite sane_verify by done.
  cbn [getp endp size data allow_expansion]. rewrite (proj2 (Z.leb_le _ _)) by lia. eexists. split; [done|].
  destruct (resize_buf_spec junk Hjunk (endp s) [] ltac:(lia) ltac:(constructor)) as (Lb & Bb & _).
  assert (length (pending s) = Z.to_nat (endp s)) as Lp by (pose proof (pending_length s S); lia).
  assert (read_bytes s 0 (endp s) = pending s) as -> by (unfold pending; rewrite G; do 2 f_equal; lia).
  assert (memcpy_at (resize_buf junk (endp s) []) 0 (pending s) = pending s) as Em.
  { rewrite memcpy_at_app by lia. cbn [take app Nat.add]. rewrite (drop_ge _ (length (pending s))) by lia. apply app_nil_r. }
  unfold write_bytes, set_data. cbn [data getp endp size allow_expansion]. change (Z.to_nat 0) with 0%nat. rewrite Em. split; [split|split; [|split]].
  - cbn. lia.
  - cbn. lia.
  - cbn. lia.
  - cbn. lia.
  - cbn. by apply pending_bytes.
  - exact G.
  - done.
  - unfold pending at 1, read_bytes. cbn [data getp endp]. rewrite G. change (Z.to_nat 0) with 0%nat. rewrite drop_0. apply take_ge. lia.
Qed.

(** ** Adding prefixes *)

Context (other : Z -> Z -> tx_prefix -> option attr -> writer) (sg : subgroup).
Context (Hip : ip_unicast_plain (sg_peer sg) (sg_afi sg) (sg_safi sg) = true).

Definition nlri_of (xp : tx_prefix) : Z * prefix := (if sg_addpath sg then xp_addpath_id xp else 0, xp_prefix xp).
Definition prefixes_wire (l : list tx_prefix) : list Z := concat (map (fun xp => nlri_bytes (sg_addpath sg) (nlri_of xp)) l).
Definition typed_prefix (xp : tx_prefix) : Prop := nlri_typed (sg_addpath sg) 1 1 (nlri_of xp).

Lemma ip_family : sg_afi sg = 1 /\ sg_safi sg = 1.
Proof.
  unfold ip_unicast_plain in Hip. apply andb_true_iff in Hip as [H _]. apply andb_true_iff in H as [H1 H2]. by apply Z.eqb_eq in H1, H2.
Qed.

Definition needs (xp : tx_prefix) : Z := 1 + (if sg_addpath sg then 4 else 0) + PSIZE (prefixlen (xp_prefix xp)).

Lemma space_needed_eq xp : space_needed sg xp = Ret (needs xp).
Proof. unfold space_needed. destruct ip_family as [-> ->]. done. Qed.

Lemma prefix_wire_length xp : typed_prefix xp -> Z.of_nat (length (nlri_bytes (sg_addpath sg) (nlri_of xp))) = needs xp.
Proof.
  intros [_ _ Hl [_ H16] _ _]. unfold nlri_bytes, needs. cbn [nlri_of snd] in *. rewrite length_app. cbn [length]. rewrite length_take, H16.
  pose proof (psize_bound (prefixlen (xp_prefix xp)) _ Hl) as [B0 B1]. pose proof (blen_small (afi2family 1)). destruct (sg_addpath sg); cbn [addpath_bytes length]; lia.
Qed.

Lemma add_prefix_puts xp u : typed_prefix xp -> sane (us_s u) -> room (us_s u) (nlri_bytes (sg_addpath sg) (nlri_of xp)) ->
  exists s', add_prefix junk other sg xp u = Ret (mkUpd s' (us_snlri u) (us_attr_len u) (us_attrlen_pos u) (us_mpattr_pos u) (us_mpattrlen_pos u))
  /\ puts (us_s u) (nlri_bytes (sg_addpath sg) (nlri_of xp)) s'.
Proof.
  intros T S R. destruct (put_prefix_puts junk _ _ _ _ _ T S R) as (k & s' & E & P). exists s'. split; [|done]. unfold add_prefix. rewrite Hip.
  assert (bgp_attr_stream_put_prefix_addpath junk (us_s u) (xp_prefix xp) (sg_addpath sg) (xp_addpath_id xp) = Ret (k, s')) as ->; [|done].
  rewrite <- E. unfold nlri_of, bgp_attr_stream_put_prefix_addpath, bgp_attr_stream_put_labeled_prefix. cbn [fst snd]. by destruct (sg_addpath sg).
Qed.

(** What an update in progress looks like after more prefixes. *)
Definition grown (d : list Z) (u u' : upd_state) : Prop :=
  puts (us_s u) d (us_s u') /\ us_snlri u' = us_snlri u /\ us_attr_len u' = us_attr_len u /\ us_attrlen_pos u' = us_attrlen_pos u.

Lemma grown_trans d1 d2 u1 u2 u3 : grown d1 u1 u2 -> grown d2 u2 u3 -> grown (d1 ++ d2) u1 u3.
Proof.
  intros (P1 & A1 & B1 & C1) (P2 & A2 & B2 & C2). split; [by apply (puts_trans _ _ (us_s u2))|]. split_and!; congruence.
Qed.

Lemma update_loop_grows advs : forall u, Forall typed_prefix advs -> sane (us_s u) -> 0 < endp (us_s u) -> 0 <= endp (us_snlri u) ->
  exists sent rest u', update_loop junk other sg advs u = Ret (Some (rest, u')) /\ advs = sent ++ rest /\ grown (prefixes_wire sent) u u'
  /\ endp (us_s u') <= Z.max (endp (us_s u)) (size (us_s u) - BGP_MAX_PACKET_SIZE_OVERFLOW).
Proof.
  assert (forall u, sane (us_s u) -> grown [] u u /\ endp (us_s u) <= Z.max (endp (us_s u)) (size (us_s u) - BGP_MAX_PACKET_SIZE_OVERFLOW)) as H0.
  { intros u S. split; [|lia]. split; [by apply puts_refl|done]. }
  induction advs as [|xp advs IH]; intros u T S E0 En; cbn [update_loop].
  { exists [], [], u. split; [done|]. split; [done|]. by apply H0. }
  apply Forall_cons_1 in T as [T Ts]. rewrite space_needed_eq. cbn [mbind outcome_bind].
  destruct (Z.ltb_spec (space_remaining u) (needs xp)) as [Hlt|Hge].
  { exists [], (xp :: advs), u. split; [done|]. split; [done|]. by apply H0. }
  unfold stream_empty. rewrite sane_verify, (proj2 (Z.eqb_neq _ _)) by (done || lia). cbn [mbind outcome_bind andb].
  unfold space_remaining, BGP_MAX_PACKET_SIZE_OVERFLOW in Hge. pose proof (prefix_wire_length xp T) as L.
  destruct (add_prefix_puts xp u T S) as (s' & -> & P); [unfold room; lia|]. cbn [mbind outcome_bind].
  destruct (IH (mkUpd s' (us_snlri u) (us_attr_len u) (us_attrlen_pos u) (us_mpattr_pos u) (us_mpattrlen_pos u))) as (sent & rest & u' & E & Ea & G & B).
  - done.
  - apply P.
  - cbn [us_s]. rewrite (pu_endp _ _ _ P). lia.
  - done.
  - exists (xp :: sent), rest, u'. split; [done|]. split; [by rewrite Ea|]. cbn [us_s] in B. rewrite (pu_endp _ _ _ P), (pu_size _ _ _ P) in B.
    split; [|unfold BGP_MAX_PACKET_SIZE_OVERFLOW in *; lia]. exact (grown_trans _ _ _ _ _ (conj P (conj eq_refl (conj eq_refl eq_refl)) : grown _ u (mkUpd s' _ _ _ _ _)) G).
Qed.

(** ** The message *)

(** Header, no withdrawn prefixes, the attributes and the prefixes. *)
Definition update_message (attrs nlri : list Z) : list Z :=
  replicate 16 255 ++ be_bytes 2 (23 + Z.of_nat (length attrs) + Z.of_nat (length nlri)) ++ be_bytes 1 2
  ++ be_bytes 2 0 ++ be_bytes 2 (Z.of_nat (length attrs)) ++ attrs ++ nlri.

Definition marker : list Z := replicate 16 255 ++ be_bytes 2 0 ++ be_bytes 1 2.

Lemma emits_repeat n w d : emits w d -> emits (repeat_writer n w) (concat (replicate n d)).
Proof. intros H. induction n as [|n IH]; cbn [repeat_writer replicate concat]; [apply emits_nothing|by apply emits_then]. Qed.

Lemma emits_marker : emits (bgp_packet_set_marker junk BGP_MSG_UPDATE) marker.
Proof.
  eapply emits_eq; [|apply emits_then; [apply emits_then; [apply emits_repeat, (emits_putc junk Hjunk)|apply (emits_putw junk Hjunk)]|apply (emits_putc junk Hjunk)]].
  reflexivity.
Qed.

(** ** Messages that withdraw prefixes *)

Definition withdraw_message (nlri : list Z) : list Z :=
  replicate 16 255 ++ be_bytes 2 (23 + Z.of_nat (length nlri)) ++ be_bytes 1 2 ++ be_bytes 2 (Z.of_nat (length nlri)) ++ nlri ++ be_bytes 2 0.

Lemma withdraw_loop_grows advs x y z : forall s, Forall typed_prefix advs -> sane s -> 0 < endp s ->
  exists sent rest s', withdraw_loop junk other sg advs s x y z = Ret (rest, s', x, y, z) /\ advs = sent ++ rest /\ puts s (prefixes_wire sent) s'
  /\ endp s' + 2 <= Z.max (endp s + 2) (size s - BGP_MAX_PACKET_SIZE_OVERFLOW).
Proof.
  induction advs as [|xp advs IH]; intros s T S E0; cbn [withdraw_loop].
  { exists [], [], s. split_and!; [done|done|by apply puts_refl|lia]. }
  apply Forall_cons_1 in T as [T Ts]. rewrite space_needed_eq. cbn [mbind outcome_bind]. rewrite writeable by done.
  unfold BGP_MAX_PACKET_SIZE_OVERFLOW, BGP_TOTAL_ATTR_LEN in *.
  destruct (Z.ltb_spec (size s - endp s - 1024) (needs xp + 2)) as [Hlt|Hge].
  { exists [], (xp :: advs), s. split_and!; [done|done|by apply puts_refl|lia]. }
  unfold stream_empty. rewrite sane_verify, (proj2 (Z.eqb_neq _ _)) by (done || lia). cbn [mbind outcome_bind]. cbn [when]. unfold nothing at 1. cbn [mbind outcome_bind].
  pose proof (prefix_wire_length xp T) as L.
  destruct (add_prefix_puts xp (mkUpd s s 0 0 0 0) T S) as (s1 & Ea & P1); [unfold room; cbn [us_s]; lia|].
  unfold add_prefix in Ea. rewrite Hip in Ea |- *. cbn [us_s us_snlri us_attr_len us_attrlen_pos us_mpattr_pos us_mpattrlen_pos] in Ea, P1.
  destruct (bgp_attr_stream_put_prefix_addpath _ _ _ _ _) as [[k s1']|]; [|done]. injection Ea as ->. cbn [mbind outcome_bind].
  destruct (IH s1 Ts (pu_sane _ _ _ P1)) as (sent & rest & s2 & -> & Er & P2 & B); [rewrite (pu_endp _ _ _ P1); lia|].
  rewrite (pu_endp _ _ _ P1), (pu_size _ _ _ P1) in B. exists (xp :: sent), rest, s2. rewrite Er. split_and!; [done|done|by apply (puts_trans _ _ s1)|lia].
Qed.

(** The lengths are filled in and the message copied. *)
Definition finish_withdraw (s : stream) : outcome stream :=
  e ← stream_get_endp s;
  s ← (s ← discard (stream_putw_at s BGP_HEADER_SIZE (u16 (e - BGP_HEADER_SIZE - BGP_UNFEASIBLE_LEN))); putw junk 0 s);
  s ← bgp_packet_set_size s;
  stream_dup junk s.

Lemma finish_withdraw_message s0 d s : sane s0 -> getp s0 = 0 -> endp s0 = 0 -> puts s0 ((marker ++ be_bytes 2 0) ++ d) s ->
  endp s + 2 <= size s -> Z.of_nat (length d) < 65536 ->
  exists packet, finish_withdraw s = Ret packet /\ sane packet /\ getp packet = 0 /\ pending packet = withdraw_message d /\ endp packet = endp s + 2.
Proof.
  intros S0 G0 E0 P R Ld. unfold finish_withdraw. pose proof (pu_endp _ _ _ P) as E. rewrite E0, !length_app, !be_bytes_length in E.
  change (length marker) with 19%nat in E. rewrite get_endp_sane by apply P. cbn [mbind outcome_bind].
  rewrite <- app_assoc in P. destruct (puts_patch s0 _ _ _ s 2 (Z.of_nat (length d)) S0 P eq_refl) as (s1 & E1 & P1). rewrite E0 in E1.
  change (0 + Z.of_nat (length marker)) with BGP_HEADER_SIZE in E1. unfold stream_putw_at at 1.
  assert (u16 (endp s - BGP_HEADER_SIZE - BGP_UNFEASIBLE_LEN) = Z.of_nat (length d)) as ->.
  { unfold BGP_HEADER_SIZE, BGP_UNFEASIBLE_LEN, u16. rewrite Z.mod_small; lia. }
  rewrite E1. cbn [discard mbind outcome_bind].
  assert (endp s1 = endp s) as E1' by (rewrite (pu_endp _ _ _ P1), E0, !length_app, !be_bytes_length; change (length marker) with 19%nat; lia).
  destruct (emits_putw junk Hjunk 0 s1 (pu_sane _ _ _ P1)) as (s2 & -> & P2).
  { unfold room. rewrite E1', (pu_size _ _ _ P1), <- (pu_size _ _ _ P). cbn. lia. }
  cbn [mbind outcome_bind]. pose proof (puts_trans _ _ _ _ _ P1 P2) as P3. unfold marker in P3. rewrite <- !app_assoc in P3.
  unfold bgp_packet_set_size. rewrite get_endp_sane by apply P2. cbn [mbind outcome_bind].
  destruct (puts_patch s0 _ _ _ s2 2 (endp s2) S0 P3 eq_refl) as (s3 & E3 & P4). rewrite E0 in E3.
  change (0 + Z.of_nat (length (replicate 16 255))) with BGP_MARKER_SIZE in E3. unfold stream_putw_at. rewrite E3. cbn [discard mbind outcome_bind].
  assert (endp s2 = endp s + 2) as E2 by (rewrite (pu_endp _ _ _ P2), E1'; done).
  assert (endp s3 = endp s2) as E3' by (rewrite (pu_endp _ _ _ P4), (pu_endp _ _ _ P3), !length_app, !be_bytes_length; done).
  pose proof (puts_getp _ _ _ S0 P4) as G4. rewrite G0 in G4.
  destruct (stream_dup_spec s3 (pu_sane _ _ _ P4) G4) as (packet & -> & S5 & G5 & E5 & P5); [lia|].
  exists packet. split_and!; try done; [|lia]. rewrite P5, (pu_pending _ _ _ P4).
  assert (pending s0 = []) as -> by (unfold pending, read_bytes; by rewrite E0, G0).
  unfold withdraw_message. cbn [app]. do 3 f_equal. lia.
Qed.

Lemma withdraw_packet_message work xp advs : sane work -> Forall typed_prefix (xp :: advs) ->
  23 + needs xp + BGP_MAX_PACKET_SIZE_OVERFLOW <= size work <= 65535 + BGP_MAX_PACKET_SIZE_OVERFLOW ->
  exists sent rest packet, subgroup_withdraw_packet junk other sg work (xp :: advs) = Ret (Some packet, rest)
  /\ xp :: advs = sent ++ rest /\ sent <> [] /\ sane packet /\ getp packet = 0 /\ pending packet = withdraw_message (prefixes_wire sent)
  /\ endp packet <= size work - BGP_MAX_PACKET_SIZE_OVERFLOW.
Proof.
  intros S T R. unfold subgroup_withdraw_packet. destruct (reset_sane work S) as (-> & S0 & _). cbn [mbind outcome_bind].
  set (s0 := set_getp 0 (set_endp 0 work)) in *. apply Forall_cons_1 in T as [T Ts]. cbn [withdraw_loop]. rewrite space_needed_eq. cbn [mbind outcome_bind].
  pose proof (prefix_wire_length xp T) as L. unfold BGP_MAX_PACKET_SIZE_OVERFLOW, BGP_TOTAL_ATTR_LEN in *.
  rewrite writeable by done. change (endp s0) with 0. change (size s0) with (size work). rewrite (proj2 (Z.ltb_ge _ _)) by lia.
  unfold stream_empty. rewrite (sane_verify s0) by done. change (endp s0 =? 0) with true. cbn [mbind outcome_bind when].
  destruct (emits_then _ _ _ _ emits_marker (emits_putw junk Hjunk 0) s0 S0) as (s1 & -> & P1); [unfold room; change (endp s0) with 0; change (size s0) with (size work); cbn; lia|].
  cbn [mbind outcome_bind]. rewrite Hip. pose proof (pu_endp _ _ _ P1) as E1. change (endp s0 + Z.of_nat (length (marker ++ be_bytes 2 0))) with 21 in E1.
  pose proof (pu_size _ _ _ P1) as Z1. change (size s0) with (size work) in Z1.
  destruct (add_prefix_puts xp (mkUpd s1 s1 0 0 0 0) T (pu_sane _ _ _ P1)) as (s2 & Ea & P2); [unfold room; cbn [us_s]; lia|].
  unfold add_prefix in Ea. rewrite Hip in Ea. cbn [us_s us_snlri us_attr_len us_attrlen_pos us_mpattr_pos us_mpattrlen_pos] in Ea, P2.
  destruct (bgp_attr_stream_put_prefix_addpath _ _ _ _ _) as [[k s2']|]; [|done]. injection Ea as ->. cbn [mbind outcome_bind].
  destruct (withdraw_loop_grows advs 0 0 0 s2 Ts (pu_sane _ _ _ P2)) as (sent & rest & s3 & -> & Er & P3 & B); [rewrite (pu_endp _ _ _ P2); lia|].
  cbn [mbind outcome_bind]. rewrite (pu_endp _ _ _ P2), (pu_size _ _ _ P2), E1, Z1 in B. unfold BGP_MAX_PACKET_SIZE_OVERFLOW in B.
  exists (xp :: sent), rest. rewrite Er. pose proof (puts_trans _ _ _ _ _ P1 (puts_trans _ _ _ _ _ P2 P3)) as P.
  change (nlri_bytes (sg_addpath sg) (nlri_of xp) ++ prefixes_wire sent) with (prefixes_wire (xp :: sent)) in P.
  pose proof (pu_endp _ _ _ P) as E3. rewrite length_app in E3. change (endp s0) with 0 in E3. change (length (marker ++ be_bytes 2 0)) with 21%nat in E3.
  pose proof (pu_endp _ _ _ P2) as E2. pose proof (pu_endp _ _ _ P3) as E3'. rewrite sane_verify, (proj2 (Z.eqb_neq _ _)) by (apply P3 || lia). cbn [mbind outcome_bind].
  destruct (finish_withdraw_message s0 _ s3 S0 eq_refl eq_refl P) as (packet & E & S4 & G4 & P4 & E4).
  { rewrite (pu_size _ _ _ P). change (size s0) with (size work). lia. }
  { lia. }
  exists packet. split_and!; try done; [|lia]. unfold finish_withdraw in E. rewrite get_endp_sane in E |- * by apply P3. cbn [mbind outcome_bind] in E |- *.
  destruct (discard _ ≫= _) as [s4|]; [|done]. cbn [mbind outcome_bind] in E |- *. destruct (bgp_packet_set_size s4) as [s5|]; [|done].
  cbn [mbind outcome_bind] in E |- *. by rewrite E.
Qed.

(** What is known of the attributes: they are written as [w]. *)
Context (w : list Z) (Hw : 0 < Z.of_nat (length w) < 65536).
Context (Hattr : forall s, sane s -> room s w ->
  exists vec s', bgp_packet_attribute junk other (sg_bgp sg) (sg_peer sg) (sg_attr sg) None (sg_afi sg) (sg_safi sg) (sg_from sg) (sg_srv6 sg) (sg_mpath sg) s
    = Ret (Z.of_nat (length w), vec, s') /\ puts s w s').

Definition head_bytes : list Z := marker ++ be_bytes 2 0 ++ be_bytes 2 0.

Lemma start_update_puts u : sane (us_s u) -> room (us_s u) (head_bytes ++ w) ->
  exists u', start_update junk other sg u = Ret u' /\ puts (us_s u) (head_bytes ++ w) (us_s u')
  /\ us_snlri u' = us_snlri u /\ us_attr_len u' = Z.of_nat (length w) /\ us_attrlen_pos u' = endp (us_s u) + 21.
Proof.
  intros S R. unfold start_update, head_bytes in *. rewrite <- !app_assoc in *.
  destruct (emits_then _ _ _ _ emits_marker (emits_putw junk Hjunk 0) (us_s u) S) as (s1 & -> & P1).
  { unfold room in *. rewrite !length_app in *. lia. }
  cbn [mbind outcome_bind]. rewrite get_endp_sane by apply P1. cbn [mbind outcome_bind].
  assert (room s1 (be_bytes 2 0 ++ w)) as R1 by (apply (room_rest _ _ _ _ P1); by rewrite <- app_assoc).
  destruct (emits_putw junk Hjunk 0 s1 (pu_sane _ _ _ P1) (room_first _ _ _ R1)) as (s2 & -> & P2). cbn [mbind outcome_bind].
  rewrite get_endp_sane by apply P2. cbn [mbind outcome_bind].
  destruct (Hattr s2 (pu_sane _ _ _ P2) (room_rest _ _ _ _ P2 R1)) as (vec & s3 & -> & P3). cbn [mbind outcome_bind]. eexists. split; [done|].
  cbn [us_s us_snlri us_attr_len us_attrlen_pos]. split_and!.
  - pose proof (puts_trans _ _ _ _ _ P1 (puts_trans _ _ _ _ _ P2 P3)) as P. by rewrite <- app_assoc in P.
  - done.
  - unfold u16. by rewrite Z.mod_small by lia.
  - rewrite (pu_endp _ _ _ P1). done.
Qed.

Lemma finish_update_message u nlri s0 : sane s0 -> getp s0 = 0 -> endp s0 = 0 -> puts s0 (head_bytes ++ w ++ nlri) (us_s u) ->
  endp (us_snlri u) = 0 -> sane (us_snlri u) -> us_attr_len u = Z.of_nat (length w) -> us_attrlen_pos u = 21 ->
  exists packet, finish_update junk u = Ret (Some packet) /\ sane packet /\ getp packet = 0 /\ pending packet = update_message w nlri.
Proof.
  intros S0 G0 E0 P En Sn El Ep. unfold finish_update, stream_empty. pose proof (pu_sane _ _ _ P) as S. pose proof (pu_endp _ _ _ P) as E.
  rewrite E0 in E. unfold head_bytes in P. rewrite <- !app_assoc in P.
  assert (Z.of_nat (length (head_bytes ++ w ++ nlri)) = 23 + Z.of_nat (length w) + Z.of_nat (length nlri)) as L
    by (unfold head_bytes; rewrite !length_app, !be_bytes_length; change (length marker) with 19%nat; lia).
  rewrite (sane_verify (us_s u)), (proj2 (Z.eqb_neq (endp (us_s u)) 0)) by (done || lia). cbn [mbind outcome_bind].
  rewrite sane_verify, En by done. cbn [Z.eqb mbind outcome_bind]. rewrite El, Ep. rewrite (app_assoc marker) in P.
  destruct (puts_patch s0 _ _ _ (us_s u) 2 (Z.of_nat (length w)) S0 P eq_refl) as (s1 & E1 & P1). rewrite E0 in E1.
  change (0 + Z.of_nat (length (marker ++ be_bytes 2 0))) with 21 in E1. unfold stream_putw_at. rewrite E1. cbn [discard mbind outcome_bind].
  pose proof (puts_getp _ _ _ S0 P1) as G1. rewrite G0 in G1.
  destruct (stream_dup_spec s1 (pu_sane _ _ _ P1) G1) as (s2 & -> & S2 & G2 & E2 & P2).
  { rewrite (pu_endp _ _ _ P1), E0, !length_app, !be_bytes_length. lia. }
  cbn [mbind outcome_bind]. unfold bgp_packet_set_size. rewrite get_endp_sane by done. cbn [mbind outcome_bind].
  assert (pending s0 = []) as Z0 by (unfold pending, read_bytes; by rewrite E0, G0).
  rewrite (pu_pending _ _ _ P1), Z0 in P2. cbn [app] in P2. pose proof (puts_self s2 S2 G2) as Ps. rewrite P2 in Ps.
  unfold marker in Ps. rewrite <- !app_assoc in Ps.
  assert (sane (set_endp 0 s2)) as S20 by (destruct S2; split; cbn; done || lia).
  destruct (puts_patch (set_endp 0 s2) _ _ _ s2 2 (endp s2) S20 Ps eq_refl) as (s3 & E3 & P3).
  change (endp (set_endp 0 s2) + Z.of_nat (length (replicate 16 255))) with BGP_MARKER_SIZE in E3. unfold stream_putw_at. rewrite E3.
  cbn [discard mbind outcome_bind]. exists s3. split; [done|]. split; [apply P3|]. split; [by rewrite (puts_getp _ _ _ S20 P3)|].
  rewrite (pu_pending _ _ _ P3). assert (pending (set_endp 0 s2) = []) as -> by (unfold pending, read_bytes; cbn; by rewrite G2).
  unfold update_message. cbn [app]. do 3 f_equal. rewrite E2, (pu_endp _ _ _ P1), E0. rewrite !length_app, !be_bytes_length. cbn. lia.
Qed.

(** There is room for the attributes and one prefix. *)
Definition room_for_one (work : stream) (xp : tx_prefix) : Prop :=
  Z.of_nat (length (head_bytes ++ w)) + needs xp + BGP_MAX_PACKET_SIZE_OVERFLOW <= size work.

Lemma update_packet_message work scratch xp advs : sane work -> sane scratch -> Forall typed_prefix (xp :: advs) -> room_for_one work xp ->
  exists sent rest packet, subgroup_update_packet junk other sg work scratch (xp :: advs) = Ret (Some packet, rest)
  /\ xp :: advs = sent ++ rest /\ sent <> [] /\ sane packet /\ getp packet = 0 /\ pending packet = update_message w (prefixes_wire sent)
  /\ endp packet <= size work - BGP_MAX_PACKET_SIZE_OVERFLOW.
Proof.
  intros S Sn T R. unfold subgroup_update_packet. destruct (reset_sane work S) as (-> & S0 & _). destruct (reset_sane scratch Sn) as (-> & Sn0 & _).
  cbn [mbind outcome_bind]. set (s0 := set_getp 0 (set_endp 0 work)) in *. set (n0 := set_getp 0 (set_endp 0 scratch)) in *.
  apply Forall_cons_1 in T as [T Ts]. cbn [update_loop]. rewrite space_needed_eq. cbn [mbind outcome_bind].
  pose proof (prefix_wire_length xp T) as L. unfold room_for_one, BGP_MAX_PACKET_SIZE_OVERFLOW in R.
  assert (space_remaining (mkUpd s0 n0 0 0 0 0) = size work - 1024) as E1.
  { unfold space_remaining, s0, n0, BGP_MAX_PACKET_SIZE_OVERFLOW. cbn [us_s us_snlri endp size set_getp set_endp]. lia. }
  rewrite E1, (proj2 (Z.ltb_ge _ _)) by lia. unfold stream_empty. rewrite sane_verify by done. cbn [us_s endp set_getp set_endp s0 Z.eqb mbind outcome_bind andb].
  fold s0. destruct (start_update_puts (mkUpd s0 n0 0 0 0 0) S0) as (u & -> & P & En & El & Ep).
  { unfold room. cbn [us_s]. change (endp s0) with 0. change (size s0) with (size work). lia. }
  cbn [us_s us_snlri mbind outcome_bind] in *. change (endp s0) with 0 in Ep.
  pose proof (pu_endp _ _ _ P) as Ee. pose proof (pu_size _ _ _ P) as Ez. change (endp s0) with 0 in Ee. change (size s0) with (size work) in Ez.
  assert (space_remaining u = size work - Z.of_nat (length (head_bytes ++ w)) - 1024) as E2.
  { unfold space_remaining, BGP_MAX_PACKET_SIZE_OVERFLOW. rewrite En, Ee, Ez. change (endp n0) with 0. lia. }
  rewrite E2, (proj2 (Z.ltb_ge _ _)) by lia.
  destruct (add_prefix_puts xp u T (pu_sane _ _ _ P)) as (s1 & -> & P1); [unfold room; lia|]. cbn [mbind outcome_bind].
  destruct (update_loop_grows advs (mkUpd s1 (us_snlri u) (us_attr_len u) (us_attrlen_pos u) (us_mpattr_pos u) (us_mpattrlen_pos u)) Ts)
    as (sent & rest & u' & -> & Ea & (P2 & N2 & L2 & A2) & B).
  - apply P1.
  - cbn [us_s]. rewrite (pu_endp _ _ _ P1), Ee, length_app. change (length head_bytes) with 23%nat. lia.
  - cbn [us_snlri]. by rewrite En.
  - cbn [us_s us_snlri us_attr_len us_attrlen_pos] in *. cbn [mbind outcome_bind].
    pose proof (puts_trans _ _ _ _ _ P (puts_trans _ _ _ _ _ P1 P2)) as Pa. rewrite <- app_assoc in Pa.
    destruct (finish_update_message u' (prefixes_wire (xp :: sent)) s0 S0 eq_refl eq_refl Pa) as (packet & -> & S3 & G3 & P3).
    + by rewrite N2, En.
    + by rewrite N2, En.
    + by rewrite L2.
    + by rewrite A2.
    + exists (xp :: sent), rest, packet. rewrite Ea. split_and!; try done.
      pose proof (pending_length packet S3) as Lp. rewrite P3, G3 in Lp. rewrite (pu_endp _ _ _ P1), (pu_size _ _ _ P1) in B.
      pose proof (pu_endp _ _ _ P2) as Ee2. pose proof (pu_endp _ _ _ P1) as Ee1. unfold BGP_MAX_PACKET_SIZE_OVERFLOW in *.
      assert (Z.of_nat (length (update_message w (prefixes_wire (xp :: sent)))) = endp (us_s u')) as Lm; [|lia].
      rewrite (pu_endp _ _ _ Pa). unfold update_message, head_bytes, marker.
      change (prefixes_wire (xp :: sent)) with (nlri_bytes (sg_addpath sg) (nlri_of xp) ++ prefixes_wire sent).
      rewrite !length_app, !be_bytes_length. change (endp s0) with 0. change (length (replicate 16 255)) with 16%nat. lia.
Qed.
End Update.

(** ** At the peer *)

Section Receive.
  Context (overflow : list (Z * prefix) -> bool) (addpath : Z -> Z -> bool) (other_nlri : stream -> bgp_nlri -> option attr -> bool -> nlri_ret).
  Context (pe : peer) (Hov : forall l, overflow l = false) (Hen : pe_enabled pe 1 1 = true).
Local Abbreviation wire es := (concat (map (nlri_bytes (addpath 1 1)) es)).

Lemma wire_count ap es : (length es <= length (concat (map (nlri_bytes ap) es)))%nat.
Proof.
  induction es as [|e es IH]; [done|]. cbn [map concat]. rewrite length_app. simpl.
  assert (0 < length (nlri_bytes ap e))%nat by (unfold nlri_bytes; rewrite length_app; simpl; lia). lia.
Qed.

Lemma wire_positive ap es : es <> [] -> 0 < Z.of_nat (length (concat (map (nlri_bytes ap) es))).
Proof. intros H. pose proof (wire_count ap es). destruct es; [done|]. simpl in *. lia. Qed.

(** The prefixes of a part are read, whatever follows them. *)
Lemma parse_prefixes s es rest x b : Forall (nlri_typed (addpath 1 1) 1 1) es -> sane s -> pending s = wire es ++ rest ->
  forall s', data s' = data s -> endp s' = endp s ->
  bgp_nlri_parse overflow addpath other_nlri s' x (ip_unicast (getp s) (Z.of_nat (length (wire es)))) b
  = Ret (BGP_NLRI_PARSE_OK, [mkChange (if b then None else x) 1 1 es]).
Proof.
  intros T S P s' Ed Ee. unfold bgp_nlri_parse, bgp_nlri_parse_ip. cbn [ip_unicast nl_afi nl_safi nl_nlri nl_length Z.eqb Pos.eqb orb].
  destruct (advance_app _ _ _ _ S P eq_refl) as (_ & _ & B). rewrite Ee, (proj2 (Z.leb_le _ _)) by done.
  assert (read_bytes s' (getp s) (Z.of_nat (length (wire es))) = wire es) as ->.
  { rewrite <- (next_bytes _ _ s _ S P eq_refl) at 2. unfold read_bytes. by rewrite Ed. }
  by rewrite nlri_loop_all by (done || apply wire_count).
Qed.

(** Routes that are announced with attributes [x]. *)
Lemma receive_announce r es s : route_ok pe r -> welcome pe r -> Forall (nlri_typed (addpath 1 1) 1 1) es -> es <> [] ->
  Z.of_nat (length (wire_of pe r)) < 65536 -> Z.of_nat (length (wire es)) < 65536 ->
  sane s -> pending s = be_bytes 2 0 ++ be_bytes 2 (Z.of_nat (length (wire_of pe r))) ++ wire_of pe r ++ wire es ->
  exists x p, update_received overflow addpath other_nlri pe (4 + Z.of_nat (length (wire_of pe r)) + Z.of_nat (length (wire es))) s
    = Ret (true, [mkChange (Some x) 1 1 es], None, p) /\ route_of x = Some (heard pe r).
Proof.
  intros K W T Ne Lw Ln S P. set (w := wire_of pe r) in *. set (n := Z.of_nat (length (wire es))) in *.
  assert (0 < n) as Hn by (by apply wire_positive). assert (0 < Z.of_nat (length w)) as Hw by (unfold w, wire_of; cbn; lia).
  unfold update_received, bgp_update_receive. rewrite (proj2 (Z.ltb_ge _ _)) by lia. rewrite (getw_next 0 _ s S P) by lia. cbn [mbind outcome_bind].
  destruct (advance_app _ _ _ 2 S P eq_refl) as (S1 & P1 & _). set (s1 := set_getp (getp s + 2) s) in *.
  assert (getp s1 = getp s + 2) as G1 by done. rewrite (proj2 (Z.ltb_ge _ _)) by lia. cbn [Z.ltb Z.compare mbind outcome_bind].
  rewrite (proj2 (Z.ltb_ge _ _)) by lia. rewrite (getw_next _ _ s1 S1 P1) by lia. cbn [mbind outcome_bind].
  destruct (advance_app _ _ _ 2 S1 P1 eq_refl) as (S2 & P2 & _). set (s2 := set_getp (getp s1 + 2) s1) in *.
  assert (getp s2 = getp s + 4) as G2 by (unfold s2; cbn [getp set_getp]; lia). rewrite (proj2 (Z.ltb_ge _ _)), (proj2 (Z.eqb_neq _ _)) by lia.
  destruct (parse_route pe r (set_p_in s2 (new_parser s)) (wire es) K W eq_refl S2 P2 Lw) as (p & Ep & Er & Ei & Ereach & Eu & Ewd).
  fold w in Ei, Ep. rewrite Ep. cbn [mbind outcome_bind p_mp_update p_mp_withdraw set_p_in new_parser] in *. rewrite bool_decide_eq_false_2 by done.
  destruct (advance_app _ _ _ _ S2 P2 eq_refl) as (S3 & P3 & B3). cbn [moved p_in set_p_in] in Ei.
  unfold receive_nlri. rewrite Ei. cbn [getp set_getp]. rewrite G2.
  replace (getp s + (4 + Z.of_nat (length w) + n) - (getp s + 4 + Z.of_nat (length w))) with n by lia.
  assert (u16 n = n) as -> by (unfold u16; apply Z.mod_small; lia).
  rewrite (proj2 (Z.eqb_neq n 0)), (proj2 (Z.eqb_neq (Z.of_nat (length w)) 0)) by lia.
  rewrite !(bool_decide_eq_false_2 (BGP_ATTR_PARSE_PROCEED = _)) by done. cbn [negb andb orb].
  rewrite (forward_next (wire es) [] p n) by (rewrite ?Ei, ?app_nil_r; done). cbn [mbind outcome_bind p_attr set_p_in]. rewrite Ereach.
  cbn [proceed mbind outcome_bind]. rewrite bool_decide_eq_true_2 by done. cbn [negb Z.ltb Z.compare].
  cbn [mbind outcome_bind up_attr up_update up_withdraw up_mp_update up_mp_withdraw up_eor p_mp_update p_mp_withdraw set_p_in p_in].
  unfold end_of_rib. rewrite (proj2 (Z.eqb_neq n 0)) by lia. rewrite Eu, Ewd. cbn [andb parse_parts nl_nlri ip_unicast nl_afi nl_safi nl_length].
  rewrite Hen, (proj2 (Z.eqb_neq n 0)) by lia. cbn [negb orb]. rewrite <- G2. fold (ip_unicast (getp s2 + Z.of_nat (length w)) n).
  rewrite (parse_prefixes (set_getp (getp s2 + Z.of_nat (length w)) s2) es [] _ false T S3 ltac:(by rewrite app_nil_r)) by (by rewrite Ei).
  cbn [mbind outcome_bind]. rewrite bool_decide_eq_true_2 by done. cbn [orb app no_nlri nl_nlri]. by eexists _, _.
Qed.

(** Prefixes that are withdrawn. *)
Lemma receive_withdraw es s : Forall (nlri_typed (addpath 1 1) 1 1) es -> es <> [] -> Z.of_nat (length (wire es)) < 65536 ->
  sane s -> pending s = be_bytes 2 (Z.of_nat (length (wire es))) ++ wire es ++ be_bytes 2 0 ->
  exists p, update_received overflow addpath other_nlri pe (4 + Z.of_nat (length (wire es))) s = Ret (true, [mkChange None 1 1 es], None, p).
Proof.
  intros T Ne Ln S P. set (n := Z.of_nat (length (wire es))) in *. assert (0 < n) as Hn by (by apply wire_positive).
  unfold update_received, bgp_update_receive. rewrite (proj2 (Z.ltb_ge _ _)) by lia. rewrite (getw_next n _ s S P) by lia. cbn [mbind outcome_bind].
  destruct (advance_app _ _ _ 2 S P eq_refl) as (S1 & P1 & _). set (s1 := set_getp (getp s + 2) s) in *.
  assert (getp s1 = getp s + 2) as G1 by done. rewrite (proj2 (Z.ltb_ge _ _)), (proj2 (Z.ltb_lt _ _)) by lia.
  destruct (advance_app _ _ _ n S1 P1 eq_refl) as (S2 & P2 & B2). pose proof S1 as [? ? ? ? ?].
  unfold stream_forward_getp, GETP_VALID. rewrite sane_verify, u64_small, (proj2 (Z.leb_le _ _)) by (done || lia). cbn [mbind outcome_bind].
  set (s2 := set_getp (getp s1 + n) s1) in *. assert (getp s2 = getp s + 2 + n) as G2 by done. rewrite (proj2 (Z.ltb_ge _ _)) by lia.
  rewrite (getw_next 0 [] s2 S2 P2) by lia. cbn [mbind outcome_bind Z.eqb]. set (s3 := set_getp (getp s2 + 2) s2) in *.
  assert (getp s3 = getp s + 4 + n) as G3 by (unfold s3; cbn [getp set_getp]; lia). rewrite (proj2 (Z.ltb_ge _ _)) by lia.
  cbn [proceed mbind outcome_bind]. rewrite bool_decide_eq_false_2 by done. unfold receive_nlri. cbn [p_in set_p_in]. rewrite G3.
  replace (getp s + (4 + n) - (getp s + 4 + n)) with 0 by lia. change (u16 0) with 0.
  cbn [Z.eqb negb andb mbind outcome_bind proceed]. rewrite (bool_decide_eq_true_2 (BGP_ATTR_PARSE_PROCEED = BGP_ATTR_PARSE_PROCEED)), (proj2 (Z.ltb_lt 0 n)) by (done || lia). cbn [negb mbind outcome_bind up_attr up_update up_withdraw up_mp_update up_mp_withdraw up_eor
    p_mp_update p_mp_withdraw set_p_in new_parser p_in parse_parts no_nlri nl_nlri ip_unicast nl_afi nl_safi nl_length].
  unfold end_of_rib. rewrite (proj2 (Z.eqb_neq n 0)), Hen by lia. cbn [Z.eqb negb orb andb]. fold (ip_unicast (getp s1) n).
  rewrite (parse_prefixes s1 es (be_bytes 2 0) _ true T S1 P1) by done. cbn [mbind outcome_bind]. rewrite bool_decide_eq_true_2 by done.
  by eexists.
Qed.
End Receive.

(** ** Announcements *)

(** The peers of the group [sg] are [pe], with the same address family and path
    identifiers; [a0] is the AS path of the routes and [a] the one that is sent. *)
Record matched (sg : subgroup) (pe : peer) (addpath : Z -> Z -> bool) (a0 a : aspath) : Prop := {
  ma_family : sg_afi sg = 1 /\ sg_safi sg = 1 /\ pe_enabled pe 1 1 = true;
  ma_addpath : addpath 1 1 = sg_addpath sg;
  ma_attr : attr_ok (sg_attr sg);
  ma_paired : paired (sg_bgp sg) (sg_peer sg) (sg_from sg) pe;
  ma_path : a_aspath (sg_attr sg) = Some a0;
  ma_outgoing : outgoing_path (sg_bgp sg) (sg_peer sg) a0 = Ret a;
  ma_segments : path_ok (segments a);
  ma_accept : acceptable pe (a_nexthop (sg_attr sg)) a
}.

Definition sent_route (sg : subgroup) (a : aspath) : route := advertised (sg_bgp sg) (sg_peer sg) (sg_from sg) (segments a) (sg_attr sg).

(** The buffers of a group of peers, with room for the attributes and the first prefix. *)
Record buffers (sg : subgroup) (work scratch : stream) (w : list Z) (xp : tx_prefix) : Prop := {
  bu_work : sane work;
  bu_scratch : sane scratch;
  bu_size : size work <= 65535 + BGP_MAX_PACKET_SIZE_OVERFLOW;
  bu_room : room_for_one sg w work xp
}.

Lemma family_plain sg : sg_afi sg = 1 -> sg_safi sg = 1 -> plain_session (sg_peer sg) -> ip_unicast_plain (sg_peer sg) (sg_afi sg) (sg_safi sg) = true.
Proof. intros H1 H2 [_ H3 _ _]. unfold ip_unicast_plain. by rewrite H1, H2, H3. Qed.

Lemma wire_map sg l : concat (map (nlri_bytes (sg_addpath sg)) (map (nlri_of sg) l)) = prefixes_wire sg l.
Proof. unfold prefixes_wire. by rewrite map_map. Qed.

(** C11: For IPv4 unicast on a session with 4-byte AS numbers both ways, without extended
    next hops, SRv6 and NHC sending; for attributes that fit their fields (AS
    numbers of the aggregator and of OTC other than 0, an AIGP metric below its
    maximum, lists of values sorted and at most 60000 bytes long), with a NEXT_HOP,
    a cluster list that has room for one more identifier within 255 bytes, and
    without unknown transitive, SRv6, link-state and PMSI attributes; an outgoing AS
    path that is canonical, of at most 60000 bytes, with segments the wire has room
    for; and a peer configured as the counterpart of the sender (same kind of
    session and OAD, nothing discarded or withdrawn, no local AS prepended; an
    external peer expects the AS that is announced, is no confederation member and
    no route-server client and has no as-path-unchanged) to which the next hop, AS
    sets and AS 0 in the path are acceptable: the message that
    [subgroup_update_packet] makes of a queue of IPv4 prefixes (host bits clear, not
    multicast, both sides agreeing on path identifiers), in a buffer of the size of
    a message with room for the attributes and one prefix, has the first of them, at
    least one, and is no longer than 65535 bytes; the rest stays in the queue. The
    peer that receives it, below its limit of prefixes, announces exactly these
    prefixes, with their path identifiers and in order, and all with the route that
    was to be advertised, except that an external peer keeps its AIGP metric only
    where it is configured to take it. *)
Theorem bgp_update_roundtrip junk other overflow addpath other_nlri sg pe a0 a work scratch xp advs :
  let r := sent_route sg a in
  (forall i, is_byte (junk i)) -> (forall l, overflow l = false) -> matched sg pe addpath a0 a ->
  buffers sg work scratch (wire_of pe r) xp -> Forall (typed_prefix sg) (xp :: advs) ->
  exists sent rest packet, subgroup_update_packet junk other sg work scratch (xp :: advs) = Ret (Some packet, rest)
  /\ xp :: advs = sent ++ rest /\ sent <> [] /\ sane packet /\ getp packet = 0 /\ endp packet <= 65535
  /\ take 19 (pending packet) = replicate 16 255 ++ be_bytes 2 (endp packet) ++ [BGP_MSG_UPDATE]
  /\ forall s, sane s -> pending s = drop 19 (pending packet) ->
     exists x p, update_received overflow addpath other_nlri pe (endp packet - BGP_HEADER_SIZE) s = Ret (true, [mkChange (Some x) 1 1 (map (nlri_of sg) sent)], None, p)
     /\ route_of x = Some (heard pe r).
Proof.
  intros r Hj Hov [(Ma & Ms & Me) Mp Mx Mr M0 Mo Mk Mc] [Bw Bs Bz Br] T.
  pose proof (advertised_ok (sg_bgp sg) (sg_peer sg) (sg_from sg) pe (sg_attr sg) a Mx Mr Mk) as Hr.
  pose proof (advertised_welcome (sg_bgp sg) (sg_peer sg) (sg_from sg) pe (sg_attr sg) a0 a Mr Mo Mk Mc) as Hw. fold (sent_route sg a) in Hr, Hw. fold r in Hr, Hw.
  assert (0 < Z.of_nat (length (wire_of pe r)) < 65536) as Lw.
  { unfold room_for_one, BGP_MAX_PACKET_SIZE_OVERFLOW in Br, Bz. rewrite length_app in Br. change (length head_bytes) with 23%nat in Br.
    apply Forall_cons_1 in T as [T _]. pose proof (prefix_wire_length sg xp T). split; [unfold wire_of; cbn; lia|lia]. }
  destruct (update_packet_message junk Hj other sg (family_plain sg Ma Ms (pa_plain _ _ _ _ Mr)) (wire_of pe r) Lw) with (work := work) (scratch := scratch)
    (xp := xp) (advs := advs) as (sent & rest & packet & E & Ea & Ne & S & G & P & B); [|done..|].
  { intros s Ss Rs. rewrite Ma, Ms. exact (packet_attribute_puts junk Hj pe (sg_bgp sg) (sg_peer sg) (sg_from sg) a (sg_attr sg) (ao_plain _ Mx) Hr
      (pa_plain _ _ _ _ Mr) (pa_ids _ _ _ _ Mr) other None (sg_srv6 sg) (sg_mpath sg) a0 s M0 Mo Ss Rs). }
  exists sent, rest, packet. do 5 (split; [done|]). split; [unfold BGP_MAX_PACKET_SIZE_OVERFLOW in *; lia|].
  assert (endp packet = 23 + Z.of_nat (length (wire_of pe r)) + Z.of_nat (length (prefixes_wire sg sent))) as Ee.
  { pose proof (pending_length packet S) as L. rewrite P, G in L. unfold update_message in L. rewrite !length_app, !be_bytes_length in L.
    change (length (replicate 16 255)) with 16%nat in L. lia. }
  rewrite P. unfold update_message. rewrite <- Ee. split; [done|]. intros s Ss Ps.
  rewrite <- wire_map, <- Mp in Ee, Ps. unfold BGP_HEADER_SIZE.
  destruct (receive_announce overflow addpath other_nlri pe Hov Me r (map (nlri_of sg) sent) s Hr Hw) as (x & p & Ex & Hx).
  - rewrite Mp. apply Forall_map. rewrite Ea in T. by apply Forall_app in T as [T _].
  - by destruct sent.
  - lia.
  - unfold BGP_MAX_PACKET_SIZE_OVERFLOW in *. lia.
  - done.
  - exact Ps.
  - exists x, p. split; [|done]. rewrite <- Ex. f_equal. lia.
Qed.

(** C26: withdrawn IPv4 unicast prefixes, with host bits clear and not multicast, on a
    session without extended next hops, both sides agreeing on path identifiers, and
    with a buffer that has room for one and is of the size of a message: the message
    of [subgroup_withdraw_packet] has the first prefixes of the queue, at least one,
    and the peer withdraws exactly these. *)
Theorem bgp_withdraw_roundtrip junk other overflow addpath other_nlri sg pe work xp advs :
  (forall i, is_byte (junk i)) -> (forall l, overflow l = false) ->
  ip_unicast_plain (sg_peer sg) (sg_afi sg) (sg_safi sg) = true -> pe_enabled pe 1 1 = true -> addpath 1 1 = sg_addpath sg ->
  sane work -> 23 + needs sg xp + BGP_MAX_PACKET_SIZE_OVERFLOW <= size work <= 65535 + BGP_MAX_PACKET_SIZE_OVERFLOW ->
  Forall (typed_prefix sg) (xp :: advs) ->
  exists sent rest packet, subgroup_withdraw_packet junk other sg work (xp :: advs) = Ret (Some packet, rest)
  /\ xp :: advs = sent ++ rest /\ sent <> [] /\ sane packet /\ getp packet = 0 /\ endp packet <= 65535
  /\ take 19 (pending packet) = replicate 16 255 ++ be_bytes 2 (endp packet) ++ [BGP_MSG_UPDATE]
  /\ forall s, sane s -> pending s = drop 19 (pending packet) ->
     exists p, update_received overflow addpath other_nlri pe (endp packet - BGP_HEADER_SIZE) s = Ret (true, [mkChange None 1 1 (map (nlri_of sg) sent)], None, p).
Proof.
  intros Hj Hov Hip Me Mp S Z T. destruct (withdraw_packet_message junk Hj other sg Hip work xp advs S T Z)
    as (sent & rest & packet & E & Ea & Ne & Sp & G & P & B).
  exists sent, rest, packet. do 5 (split; [done|]). split; [unfold BGP_MAX_PACKET_SIZE_OVERFLOW in *; lia|].
  assert (endp packet = 23 + Z.of_nat (length (prefixes_wire sg sent))) as Ee.
  { pose proof (pending_length packet Sp) as L. rewrite P, G in L. unfold withdraw_message in L. rewrite !length_app, !be_bytes_length in L.
    change (length (replicate 16 255)) with 16%nat in L. lia. }
  rewrite P. unfold withdraw_message. rewrite <- Ee. split; [done|]. intros s Ss Ps.
  rewrite <- wire_map, <- Mp in Ee, Ps. unfold BGP_HEADER_SIZE.
  destruct (receive_withdraw overflow addpath other_nlri pe Hov Me (map (nlri_of sg) sent) s) as (p & Ex).
  - rewrite Mp. apply Forall_map. rewrite Ea in T. by apply Forall_app in T as [T _].
  - by destruct sent.
  - unfold BGP_MAX_PACKET_SIZE_OVERFLOW in *. lia.
  - done.
  - exact Ps.
  - exists p. rewrite <- Ex. f_equal. lia.
Qed.

(** ** Examples *)

Definition example_group : subgroup := mkSubgroup example_bgp (example_tx BGP_PEER_EBGP) 1 1 false example_attr None None None.
Definition example_xp (k : Z) : tx_prefix := mkTxPrefix (mkPrefix AF_INET 24 ([192; 0; k] ++ replicate 13 0)) [] [] false 0.
Definition example_queue : list tx_prefix := [example_xp 2; example_xp 3].
Definition no_addpath (afi safi : Z) : bool := false.
Definition no_other_nlri (s : stream) (n : bgp_nlri) (x : option attr) (b : bool) : nlri_ret := BGP_NLRI_PARSE_ERROR.

Lemma example_queue_typed : Forall (typed_prefix example_group) example_queue.
Proof.
  repeat constructor; cbn; try lia; done || (repeat constructor; unfold is_byte; lia).
Qed.

(** The body of a message behind its header. *)
Lemma message_body packet d : sane packet -> getp packet = 0 -> take 19 (pending packet) = replicate 16 255 ++ d -> length d = 3%nat ->
  sane (set_getp 19 packet) /\ pending (set_getp 19 packet) = drop 19 (pending packet).
Proof.
  intros S G E L. assert (19 <= length (pending packet))%nat as H.
  { apply (f_equal length) in E. rewrite length_take, length_app, L in E. change (length (replicate 16 255)) with 16%nat in E. lia. }
  pose proof (advance packet 19 S H) as A. by rewrite G in A.
Qed.

(** Two prefixes in the queue of an external peer. *)
Lemma bgp_update_roundtrip_witness :
  exists sent rest packet,
    subgroup_update_packet (fun _ => 0) no_other_prefix example_group (empty_stream 2000) (empty_stream 2000) example_queue = Ret (Some packet, rest)
    /\ sent <> [] /\ example_queue = sent ++ rest
    /\ exists x p, update_received (fun _ => false) no_addpath no_other_nlri (example_external false) (endp packet - 19) (set_getp 19 packet)
         = Ret (true, [mkChange (Some x) 1 1 (map (nlri_of example_group) sent)], None, p)
    /\ route_of x = Some (mkRoute 0 [mkSeg AS_SEQUENCE [65001; 65010]] [192; 0; 2; 1] (Some 5) None None None (Some [100; 200])
                           None None None None None None None).
Proof.
  destruct (outgoing_path example_bgp (example_tx BGP_PEER_EBGP) (path_of ASNOTATION_PLAIN [mkSeg AS_SEQUENCE [65010]])) as [a|] eqn:Ea;
    [|vm_compute in Ea; discriminate Ea].
  assert (segments a = [mkSeg AS_SEQUENCE [65001; 65010]]) as Es by (vm_compute in Ea; injection Ea as <-; reflexivity).
  destruct (bgp_update_roundtrip (fun _ => 0) no_other_prefix (fun _ => false) no_addpath no_other_nlri example_group (example_external false)
    (path_of ASNOTATION_PLAIN [mkSeg AS_SEQUENCE [65010]]) a (empty_stream 2000) (empty_stream 2000) (example_xp 2) [example_xp 3])
    as (sent & rest & packet & E & Eq & Ne & S & G & _ & L & H).
  - unfold is_byte. lia.
  - done.
  - split; [done|done|exact example_attr_ok|exact example_paired|done|exact Ea| |].
    + rewrite Es. split; [|split; [|done]| |]; [repeat constructor; cbn; done|repeat constructor; done|vm_compute; done|vm_compute; done].
    + split; unfold aspath_check_as_zero, aspath_check_as_sets; rewrite ?Es; reflexivity.
  - unfold sent_route. rewrite Es. split; [by apply empty_stream_sane|by apply empty_stream_sane|vm_compute; discriminate|vm_compute; discriminate].
  - exact example_queue_typed.
  - exists sent, rest, packet. split; [exact E|]. split; [exact Ne|]. split; [exact Eq|].
    destruct (message_body packet _ S G L eq_refl) as [S1 P1]. destruct (H (set_getp 19 packet) S1 P1) as (x & p & E1 & E2).
    exists x, p. split; [exact E1|]. rewrite E2. unfold sent_route. rewrite Es. reflexivity.
Defined.

Lemma bgp_withdraw_roundtrip_witness :
  exists sent rest packet,
    subgroup_withdraw_packet (fun _ => 0) no_other_prefix example_group (empty_stream 2000) example_queue = Ret (Some packet, rest)
    /\ sent <> [] /\ example_queue = sent ++ rest
    /\ exists p, update_received (fun _ => false) no_addpath no_other_nlri (example_external false) (endp packet - 19) (set_getp 19 packet)
         = Ret (true, [mkChange None 1 1 (map (nlri_of example_group) sent)], None, p).
Proof.
  destruct (bgp_withdraw_roundtrip (fun _ => 0) no_other_prefix (fun _ => false) no_addpath no_other_nlri example_group (example_external false)
    (empty_stream 2000) (example_xp 2) [example_xp 3]) as (sent & rest & packet & E & Eq & Ne & S & G & _ & L & H).
  - unfold is_byte. lia.
  - done.
  - done.
  - done.
  - done.
  - by apply empty_stream_sane.
  - vm_compute. split; discriminate.
  - exact example_queue_typed.
  - exists sent, rest, packet. split; [exact E|]. split; [exact Ne|]. split; [exact Eq|].
    destruct (message_body packet _ S G L eq_refl) as [S1 P1]. destruct (H (set_getp 19 packet) S1 P1) as (p & E1). exists p. exact E1.
Defined.
