(* ===== verification/ZebraRib.v ===== *)
(** * The routes of one prefix in zebra (zebra/zebra_rib.c, zebra/zebra_nhg.c)

    [rib_process] with the resolution of next hops ([nexthop_active_update]), the choice
    of the best route, its installation, and the early processing of routes that are
    added and deleted.

    A route entry is known by its address [re_ptr]; the list of a destination has
    them in their order, the newest first.  The bits of [flags] and [status] are
    fields.  An entry has the next hops of its group as its own: that a group of a
    protocol is shared with other entries is left out, and so are backup next hops,
    SRv6, the flags and reference counts of groups, the import of tables, and changes of
    the labels of a route.  What the rest of zebra says is a parameter: which interfaces
    are loopbacks or VRFs ([is_loopback]), what becomes of a single next hop when it is
    looked up in the routing table and given to the route map, the identifiers of groups
    ([resolution]) and the answers of the dataplane ([dplane]).  Calls of other parts of
    zebra are recorded. *)

From stdpp Require Import base list.
From S2P Require Import Prelude.

Definition ZEBRA_ROUTE_KERNEL : Z := 1.
Definition ZEBRA_ROUTE_CONNECT : Z := 2.
Definition ZEBRA_ROUTE_LOCAL : Z := 3.
Definition ZEBRA_ROUTE_TABLE : Z := 16.
Definition DISTANCE_INFINITY : Z := 255.
Definition ROUTE_INSTALLATION_METRIC : Z := 20.

Definition RSYSTEM_ROUTE (type : Z) : bool :=
  (type =? ZEBRA_ROUTE_KERNEL) || (type =? ZEBRA_ROUTE_CONNECT) || (type =? ZEBRA_ROUTE_LOCAL).

(** The default distances of [route_info], by the type of route. *)
Definition route_distances : list Z :=
  [0; 0; 0; 0; 1; 120; 120; 110; 110; 115; 20; 255; 90; 10; 255; 255; 15; 150; 20; 20; 20; 20; 20; 100; 150; 200; 255;
   115; 255; 255; 255; 14; 255].
Definition route_distance (type : Z) : Z :=
  if (type <? 0) then 150 else default 150 (route_distances !! Z.to_nat type).

(** ** Data *)

Definition NEXTHOP_TYPE_IFINDEX : Z := 1.
Definition NEXTHOP_TYPE_IPV4_IFINDEX : Z := 3.
Definition NEXTHOP_TYPE_IPV6_IFINDEX : Z := 5.
Definition NEXTHOP_TYPE_BLACKHOLE : Z := 6.
Definition ZEBRA_LSP_EVPN : Z := 8.

(** [nh_key] is what the comparisons look at besides the type, the interface and the
    labels: VRF, weight, gateway, source and so on.  [nh_label] has the type of the
    labels, and for EVPN the VNI as the label.  A next hop is recursive when it has
    resolved ones. *)
Inductive nexthop := mkNexthop {
  nh_key : Z;
  nh_type : Z;
  nh_ifindex : Z;
  nh_label : option (Z * list Z);
  nh_rmap_src : Z;
  nh_active : bool;
  nh_resolved : list nexthop
}.

(** [_nexthop_cmp_no_labels] gives 0. *)
Definition nexthop_eq_no_labels (use_ifindex : bool) (n1 n2 : nexthop) : bool :=
  (nh_type n1 =? nh_type n2) && (nh_key n1 =? nh_key n2)
  && (if nh_type n1 =? NEXTHOP_TYPE_IFINDEX then nh_ifindex n1 =? nh_ifindex n2
      else if (nh_type n1 =? NEXTHOP_TYPE_IPV4_IFINDEX) || (nh_type n1 =? NEXTHOP_TYPE_IPV6_IFINDEX)
           then negb use_ifindex || (nh_ifindex n1 =? nh_ifindex n2)
           else true).

(** [nexthop_cmp_internal] gives 0. *)
Definition nexthop_eq_internal (use_ifindex : bool) (n1 n2 : nexthop) : bool :=
  nexthop_eq_no_labels use_ifindex n1 n2 && bool_decide (snd <$> nh_label n1 = snd <$> nh_label n2).

Definition nexthop_same (n1 n2 : nexthop) : bool := nexthop_eq_internal true n1 n2.
Definition nexthop_same_no_labels (n1 n2 : nexthop) : bool := nexthop_eq_no_labels true n1 n2.
(** As it is written: the result of the comparison is returned as it is, so that the
    function says whether the next hops differ. *)
Definition nexthop_same_no_ifindex (n1 n2 : nexthop) : bool := negb (nexthop_eq_internal false n1 n2).

(** [ALL_NEXTHOPS]: every next hop, and behind it those it is resolved to. *)
Fixpoint all_nexthops (nh : nexthop) : list nexthop := nh :: flat_map all_nexthops (nh_resolved nh).

Record route_entry := mkRe {
  re_ptr : Z;
  re_type : Z;
  re_instance : Z;
  re_distance : Z;
  re_metric : Z;
  re_nhe_id : Z;
  re_nexthops : list nexthop;
  re_selected : bool;
  re_fib_override : bool;
  re_rr_use_distance : bool;
  re_selfroute : bool;
  re_removed : bool;
  re_changed : bool;
  re_queued : bool;
  re_installed : bool;
  re_replacing : bool
}.

Definition set_selected (b : bool) (r : route_entry) : route_entry :=
  mkRe (re_ptr r) (re_type r) (re_instance r) (re_distance r) (re_metric r) (re_nhe_id r) (re_nexthops r) b
    (re_fib_override r) (re_rr_use_distance r) (re_selfroute r) (re_removed r) (re_changed r) (re_queued r)
    (re_installed r) (re_replacing r).
Definition set_removed (b : bool) (r : route_entry) : route_entry :=
  mkRe (re_ptr r) (re_type r) (re_instance r) (re_distance r) (re_metric r) (re_nhe_id r) (re_nexthops r) (re_selected r)
    (re_fib_override r) (re_rr_use_distance r) (re_selfroute r) b (re_changed r) (re_queued r)
    (re_installed r) (re_replacing r).
Definition set_changed (b : bool) (r : route_entry) : route_entry :=
  mkRe (re_ptr r) (re_type r) (re_instance r) (re_distance r) (re_metric r) (re_nhe_id r) (re_nexthops r) (re_selected r)
    (re_fib_override r) (re_rr_use_distance r) (re_selfroute r) (re_removed r) b (re_queued r)
    (re_installed r) (re_replacing r).
Definition set_queued (b : bool) (r : route_entry) : route_entry :=
  mkRe (re_ptr r) (re_type r) (re_instance r) (re_distance r) (re_metric r) (re_nhe_id r) (re_nexthops r) (re_selected r)
    (re_fib_override r) (re_rr_use_distance r) (re_selfroute r) (re_removed r) (re_changed r) b
    (re_installed r) (re_replacing r).
Definition set_installed (b : bool) (r : route_entry) : route_entry :=
  mkRe (re_ptr r) (re_type r) (re_instance r) (re_distance r) (re_metric r) (re_nhe_id r) (re_nexthops r) (re_selected r)
    (re_fib_override r) (re_rr_use_distance r) (re_selfroute r) (re_removed r) (re_changed r) (re_queued r)
    b (re_replacing r).
Definition set_replacing (b : bool) (r : route_entry) : route_entry :=
  mkRe (re_ptr r) (re_type r) (re_instance r) (re_distance r) (re_metric r) (re_nhe_id r) (re_nexthops r) (re_selected r)
    (re_fib_override r) (re_rr_use_distance r) (re_selfroute r) (re_removed r) (re_changed r) (re_queued r)
    (re_installed r) b.
Definition set_cost (distance metric : Z) (r : route_entry) : route_entry :=
  mkRe (re_ptr r) (re_type r) (re_instance r) distance metric (re_nhe_id r) (re_nexthops r) (re_selected r)
    (re_fib_override r) (re_rr_use_distance r) (re_selfroute r) (re_removed r) (re_changed r) (re_queued r)
    (re_installed r) (re_replacing r).

Inductive owner_note := ZAPI_ROUTE_FAIL_INSTALL | ZAPI_ROUTE_BETTER_ADMIN_WON.

Inductive rib_effect :=
| RibQueueAdd
| RedistributeDelete (old : Z) (new : option Z)
| NotifyOwner (re : Z) (note : owner_note)
| DplaneAdd (re : Z)
| DplaneUpdate (re old : Z)
| DplaneDelete (re : Z)
| DplaneSysAdd (re : Z)
| DplaneSysDel (re : Z).

Inductive dplane_result := REQUEST_QUEUED | REQUEST_FAILURE | REQUEST_SUCCESS.

(** [rib_dest_t]: [rd_fpm] are the flags for the FPM. *)
Record rib_dest := mkDest {
  rd_routes : list route_entry;
  rd_selected_fib : option Z;
  rd_fpm : bool;
  rd_out : list rib_effect
}.

Definition emit_rib (e : rib_effect) (d : rib_dest) : rib_dest :=
  mkDest (rd_routes d) (rd_selected_fib d) (rd_fpm d) (rd_out d ++ [e]).
Definition set_routes (l : list route_entry) (d : rib_dest) : rib_dest :=
  mkDest l (rd_selected_fib d) (rd_fpm d) (rd_out d).
Definition set_fib (p : option Z) (d : rib_dest) : rib_dest :=
  mkDest (rd_routes d) p (rd_fpm d) (rd_out d).

Definition find_re (p : Z) (d : rib_dest) : option route_entry :=
  List.find (fun r => re_ptr r =? p) (rd_routes d).

(** A pointer that must not dangle. *)
Definition deref (p : option Z) (d : rib_dest) : outcome (option route_entry) :=
  match p with
  | None => Ret None
  | Some p => match find_re p d with Some r => Ret (Some r) | None => Abort end
  end.

Definition upd_re (p : Z) (f : route_entry -> route_entry) (d : rib_dest) : rib_dest :=
  set_routes (map (fun r => if re_ptr r =? p then f r else r) (rd_routes d)) d.

Definition rib_unlink (p : Z) (d : rib_dest) : rib_dest :=
  let d := set_routes (List.filter (fun r => negb (re_ptr r =? p)) (rd_routes d)) d in
  if bool_decide (rd_selected_fib d = Some p) then set_fib None d else d.

Definition rib_link (r : route_entry) (d : rib_dest) : rib_dest :=
  emit_rib RibQueueAdd (set_routes (r :: rd_routes d) d).

(** The entry is new: it is not among those to be removed. *)
Definition rib_addnode (r : route_entry) (d : rib_dest) : rib_dest :=
  if re_removed r then upd_re (re_ptr r) (set_removed false) d else rib_link r d.

Definition rib_delnode (p : Z) (d : rib_dest) : rib_dest :=
  emit_rib RibQueueAdd (upd_re p (set_removed true) d).

Definition group_nexthops (r : route_entry) : list nexthop := flat_map all_nexthops (re_nexthops r).
Definition nexthop_group_active (r : route_entry) : bool := existsb nh_active (group_nexthops r).

(** ** Resolution of next hops (zebra_nhg.c) *)

(** What the rest of zebra says: [rs_check] is what [nexthop_active_check] makes of a next
    hop (it returns the flag ACTIVE of it), [rs_nhe] the identifier of the group with
    these next hops ([zebra_nhg_rib_find_nhe] finds or makes it), [rs_multipath] the number
    of next hops that a route may have and [rs_l3vni] the VNI of the VRF. *)
Record resolution := mkResolution {
  rs_check : route_entry -> nexthop -> nexthop;
  rs_nhe : list nexthop -> Z;
  rs_multipath : Z;
  rs_l3vni : Z
}.

Definition ZEBRA_ROUTE_MAX : Z := 33.
Definition ZEBRA_NHG_PROTO_LOWER : Z := 250000000 / ZEBRA_ROUTE_MAX * (ZEBRA_ROUTE_LOCAL + 1).
Definition PROTO_OWNED (nhe_id : Z) : bool := ZEBRA_NHG_PROTO_LOWER <=? nhe_id.

Definition set_active (b : bool) (nh : nexthop) : nexthop :=
  mkNexthop (nh_key nh) (nh_type nh) (nh_ifindex nh) (nh_label nh) (nh_rmap_src nh) b (nh_resolved nh).
Definition nexthop_del_labels (nh : nexthop) : nexthop :=
  mkNexthop (nh_key nh) (nh_type nh) (nh_ifindex nh) None (nh_rmap_src nh) (nh_active nh) (nh_resolved nh).

(** The group becomes that of [nhe]; a group in the table has an identifier other than
    0, so that [route_entry_update_nhe] always takes it. *)
Definition route_entry_update_nhe (id : Z) (nexthops : list nexthop) (r : route_entry) : route_entry :=
  mkRe (re_ptr r) (re_type r) (re_instance r) (re_distance r) (re_metric r) id nexthops (re_selected r)
    (re_fib_override r) (re_rr_use_distance r) (re_selfroute r) (re_removed r) (re_changed r) (re_queued r)
    (re_installed r) (re_replacing r).

(** A next hop and the first ones it is resolved to. *)
Fixpoint deactivate (nh : nexthop) : nexthop :=
  mkNexthop (nh_key nh) (nh_type nh) (nh_ifindex nh) (nh_label nh) (nh_rmap_src nh) false
    (match nh_resolved nh with [] => [] | r :: rest => deactivate r :: rest end).

Definition evpn_vni (nh : nexthop) : option Z :=
  match nh_label nh with
  | Some (type, labels) => if type =? ZEBRA_LSP_EVPN then Some (default 0 (head labels)) else None
  | None => None
  end.

(** Whether the VNI of the VRF is not that of the next hops; otherwise the labels go. *)
Definition nexthop_list_set_evpn_dvni (l3vni : Z) (l : list nexthop) : bool * list nexthop :=
  match evpn_vni <$> head l with
  | Some (Some _) =>
      let use_dvni := existsb (fun nh => match evpn_vni nh with Some vni => negb (vni =? l3vni) | None => false end) l in
      (use_dvni, if use_dvni then l else map nexthop_del_labels l)
  | _ => (false, l)
  end.

(** The loop of [nexthop_list_active_update]: the number of active next hops, whether
    one has changed, and the next hops. *)
Fixpoint list_active_update (res : resolution) (re : route_entry) (vni_removed : bool) (counter : Z)
    (l : list nexthop) : Z * bool * list nexthop :=
  match l with
  | [] => (counter, false, [])
  | nh :: l =>
      let new := rs_check res re nh in
      let new := if nh_active new && (rs_multipath res <=? counter) then deactivate new else new in
      let counter := if nh_active new then counter + 1 else counter in
      let changed :=
        negb (eqb (nh_active nh) (nh_active new)) || negb (nh_ifindex nh =? nh_ifindex new)
        || ((NEXTHOP_TYPE_IFINDEX <=? nh_type new) && (nh_type new <? NEXTHOP_TYPE_BLACKHOLE)
            && negb (nh_rmap_src nh =? nh_rmap_src new))
        || vni_removed in
      let '(n, ch, rest) := list_active_update res re vni_removed counter l in
      (n, changed || ch, new :: rest)
  end.

Definition nexthop_list_active_update (res : resolution) (re : route_entry) (l : list nexthop) : Z * bool * list nexthop :=
  let '(use_dvni, l) := nexthop_list_set_evpn_dvni (rs_l3vni res) l in
  list_active_update res re (negb use_dvni) 0 l.

Fixpoint same_resolved (new old : list nexthop) : bool :=
  match new, old with
  | [], _ => negb (existsb nh_active old)
  | _ :: _, [] => false
  | n :: new, o :: old => nexthop_same n o && same_resolved new old
  end.

Fixpoint zebra_nhg_nexthop_compare (nhop old_nhop : list nexthop) : bool :=
  match nhop, old_nhop with
  | [], _ => negb (existsb nh_active old_nhop)
  | _ :: _, [] => false
  | n :: next, o :: old_next =>
      if negb (nh_active o) then
        if negb (nh_active n) && nexthop_same_no_ifindex n o then zebra_nhg_nexthop_compare next old_next
        else zebra_nhg_nexthop_compare nhop old_next
      else if nexthop_same n o then
        if same_resolved (nh_resolved n) (nh_resolved o) then zebra_nhg_nexthop_compare next old_next else false
      else false
  end.

(** The number of active next hops; [old_re] is the route in the kernel. *)
Definition nexthop_active_update (res : resolution) (old_re : option route_entry) (re : route_entry) : Z * route_entry :=
  if PROTO_OWNED (re_nhe_id re) then
    (Z.of_nat (length (re_nexthops re)), route_entry_update_nhe (re_nhe_id re) (map (set_active true) (re_nexthops re)) re)
  else
    let re := set_changed false re in
    let '(curr_active, changed, curr) := nexthop_list_active_update res re (re_nexthops re) in
    if negb changed then (curr_active, re)
    else
      let re := set_changed true re in
      let id := rs_nhe res curr in
      let old_nhe :=
        match old_re with
        | Some o => if (re_type o =? re_type re) && (re_instance o =? re_instance re) && negb (id =? re_nhe_id o)
                       && zebra_nhg_nexthop_compare curr (re_nexthops o) then Some o else None
        | None => None
        end in
      (curr_active, match old_nhe with
                    | Some o => route_entry_update_nhe (re_nhe_id o) (re_nexthops o) re
                    | None => route_entry_update_nhe id curr re
                    end).

Section Rib.
  Context (is_loopback : Z -> bool).
  Context (res : resolution).
  Context (dplane : rib_effect -> dplane_result).

(** ** The best route *)

Definition on_loopback (r : route_entry) : bool := existsb (fun nh => is_loopback (nh_ifindex nh)) (group_nexthops r).

Definition rib_choose_best_type (route_type : Z) (current alternate : route_entry) : option route_entry :=
  if re_type alternate =? route_type then
    if negb (re_type current =? route_type) then Some alternate
    else if on_loopback alternate then Some alternate
    else if on_loopback current then Some current
    else Some (if re_metric alternate <=? re_metric current then alternate else current)
  else None.

Definition rib_choose_best (current : option route_entry) (alternate : route_entry) : route_entry :=
  match current with
  | None => alternate
  | Some current =>
      match rib_choose_best_type ZEBRA_ROUTE_LOCAL current alternate with
      | Some possible => possible
      | None =>
          match rib_choose_best_type ZEBRA_ROUTE_CONNECT current alternate with
          | Some possible => possible
          | None =>
              if (re_type current =? ZEBRA_ROUTE_CONNECT) || (re_type current =? ZEBRA_ROUTE_LOCAL) then current
              else if re_distance alternate <? re_distance current then alternate
              else if re_distance current <? re_distance alternate then current
              else if re_metric alternate <=? re_metric current then alternate else current
          end
      end
  end.

(** ** Installation *)

Definition rib_install_kernel (p : Z) (old : option Z) (d : rib_dest) : rib_dest :=
  let lost := match old with
              | Some o => negb (o =? p) && match find_re o d, find_re p d with
                                           | Some x, Some y => negb (re_type x =? re_type y)
                                           | _, _ => false
                                           end
              | None => false
              end in
  let d := if lost then match old with Some o => emit_rib (NotifyOwner o ZAPI_ROUTE_BETTER_ADMIN_WON) d | None => d end else d in
  let d := set_fib (Some p) d in
  let op := match old with Some o => DplaneUpdate p o | None => DplaneAdd p end in
  let d := emit_rib op d in
  match dplane op with
  | REQUEST_QUEUED =>
      let d := upd_re p (set_queued true) d in
      match old with
      | Some o => upd_re p (set_replacing true) (upd_re o (set_queued true) d)
      | None => d
      end
  | REQUEST_FAILURE | REQUEST_SUCCESS => d
  end.

Definition rib_uninstall_kernel (p : Z) (d : rib_dest) : rib_dest := emit_rib (DplaneDelete p) d.

Definition active_at (p : Z) (d : rib_dest) : bool :=
  match find_re p d with Some r => nexthop_group_active r | None => false end.

Definition rib_process_add_fib (new : Z) (d : rib_dest) : rib_dest :=
  if negb (active_at new d) then upd_re new (set_changed false) d
  else upd_re new (set_changed false) (rib_install_kernel new None d).

Definition rib_process_del_fib (old : Z) (d : rib_dest) : rib_dest :=
  let d := rib_uninstall_kernel old d in
  let kernel := match find_re old d with Some r => re_type r =? ZEBRA_ROUTE_KERNEL | None => false end in
  if kernel then upd_re old (set_removed true) d else upd_re old (set_changed false) d.

Definition rib_process_update_fib (old new : Z) (d : rib_dest) : rib_dest :=
  let new_re := find_re new d in
  let changed := match new_re with Some r => re_changed r | None => false end in
  let d :=
    if negb (new =? old) || changed then
      if active_at new d then rib_install_kernel new (Some old) d
      else
        let system := match find_re old d with Some r => RSYSTEM_ROUTE (re_type r) | None => false end in
        if negb system then rib_uninstall_kernel old d else d
    else
      if match new_re with Some r => negb (re_installed r) || RSYSTEM_ROUTE (re_type r) | None => false end
      then rib_install_kernel new None d else d in
  let d := if negb (new =? old) then upd_re old (set_changed false) d else d in
  upd_re new (set_changed false) d.

(** ** Processing *)

(** The pointers of [rib_process] while it walks over the entries. *)
Record scan := mkScan {
  sc_dest : rib_dest;
  sc_old_selected : option Z;
  sc_new_selected : option Z;
  sc_new_fib : option Z;
  sc_changed : option Z
}.

(** The better one of the route at [cur] and [re]; the loser is no longer changed. *)
Definition take_best (cur : option Z) (re : route_entry) (d : rib_dest) : Z * rib_dest :=
  let best := re_ptr (rib_choose_best (p ← cur; find_re p d) re) in
  let d := match cur with
           | Some p => if negb (best =? p) then upd_re p (set_changed false) d else d
           | None => d
           end in
  (best, if negb (best =? re_ptr re) then upd_re (re_ptr re) (set_changed false) d else d).

(** An entry with usable next hops. *)
Definition consider (re : route_entry) (sc : scan) : scan :=
  let d := sc_dest sc in
  if (re_distance re =? DISTANCE_INFINITY) && negb (re_type re =? ZEBRA_ROUTE_KERNEL) then
    mkScan (upd_re (re_ptr re) (set_changed false) d) (sc_old_selected sc) (sc_new_selected sc) (sc_new_fib sc)
      (sc_changed sc)
  else if re_fib_override re then
    let '(best, d) := take_best (sc_new_fib sc) re d in
    mkScan d (sc_old_selected sc) (sc_new_selected sc) (Some best) (sc_changed sc)
  else
    let '(best, d) := take_best (sc_new_selected sc) re d in
    mkScan d (sc_old_selected sc) (Some best) (sc_new_fib sc) (sc_changed sc).

(** One entry of the list; [old_fib] is the one in the kernel. *)
Definition examine (old_fib : option Z) (p : Z) (sc : scan) : outcome scan :=
  match find_re p (sc_dest sc) with
  | None => Abort
  | Some re =>
      sc ← (if re_selected re then
              assert! match sc_old_selected sc with None => true | Some _ => false end ;;
              Ret (mkScan (sc_dest sc) (Some p) (sc_new_selected sc) (sc_new_fib sc) (sc_changed sc))
            else Ret sc);
      let d := sc_dest sc in
      if re_removed re then Ret sc
      else if re_changed re then
        old_re ← deref old_fib d;
        let '(active, re) := nexthop_active_update res old_re re in
        let d := upd_re p (fun _ => re) d in
        let sc := mkScan d (sc_old_selected sc) (sc_new_selected sc) (sc_new_fib sc) (Some p) in
        if negb (active =? 0) then Ret (consider re sc)
        else
          let sc_with d := mkScan d (sc_old_selected sc) (sc_new_selected sc) (sc_new_fib sc) (sc_changed sc) in
          if re_type re =? ZEBRA_ROUTE_TABLE then
            if negb (bool_decide (sc_old_selected sc = Some p)) then Ret (sc_with (rib_unlink p d))
            else Ret (sc_with (emit_rib (NotifyOwner p ZAPI_ROUTE_FAIL_INSTALL) (upd_re p (set_removed true) d)))
          else Ret (sc_with (emit_rib (NotifyOwner p ZAPI_ROUTE_FAIL_INSTALL) d))
      else if negb (nexthop_group_active re) then Ret sc
      else Ret (consider re sc)
  end.

Fixpoint examine_all (old_fib : option Z) (ps : list Z) (sc : scan) : outcome scan :=
  match ps with
  | [] => Ret sc
  | p :: ps' => sc ← examine old_fib p sc; examine_all old_fib ps' sc
  end.

Definition opt_eq (x y : option Z) : bool := bool_decide (x = y).

(** Moving the flag [ZEBRA_FLAG_SELECTED]. *)
Definition update_selected (sc : scan) (new_fib : option Z) : rib_dest :=
  let d := sc_dest sc in
  let old := sc_old_selected sc in
  let new := sc_new_selected sc in
  let selected_changed := match (p ← new; find_re p d) with Some r => re_changed r | None => false end in
  if negb (opt_eq old new) || selected_changed then
    let d := match new with
             | Some p => if negb (opt_eq new new_fib) then upd_re p (set_changed false) d else d
             | None => d
             end in
    let d := match new with Some p => upd_re p (set_selected true) d | None => d end in
    match old with
    | Some o =>
        let removed := match find_re o d with Some r => re_removed r | None => false end in
        let d := if match new with None => true | Some _ => false end || removed
                 then emit_rib (RedistributeDelete o new) d else d in
        if negb (opt_eq old new) then upd_re o (set_selected false) d else d
    | None => d
    end
  else d.

(** Telling the owner of the last changed entry that another one won; the entry may
    be gone. *)
Definition notify_loser (sc : scan) (d : rib_dest) : outcome rib_dest :=
  match sc_new_selected sc, sc_changed sc with
  | Some n, Some c =>
      if negb (opt_eq (sc_changed sc) (sc_old_selected sc)) then
        match find_re n d, find_re c d with
        | Some x, Some y =>
            Ret (if negb (re_type x =? re_type y) then emit_rib (NotifyOwner c ZAPI_ROUTE_BETTER_ADMIN_WON) d else d)
        | _, _ => Abort
        end
      else Ret d
  | _, _ => Ret d
  end.

Definition update_fib (old_fib new_fib : option Z) (d : rib_dest) : rib_dest :=
  match new_fib, old_fib with
  | Some n, Some o => rib_process_update_fib o n d
  | Some n, None => rib_process_add_fib n d
  | None, Some o =>
      if match find_re o d with Some r => re_type r =? ZEBRA_ROUTE_KERNEL | None => false end then d
      else rib_process_del_fib o d
  | None, None => d
  end.

Definition reap (d : rib_dest) : rib_dest :=
  fold_left (fun d p => match find_re p d with
                        | Some r => if re_removed r then rib_unlink p d else d
                        | None => d
                        end) (map re_ptr (rd_routes d)) d.

Definition rib_process (d : rib_dest) : outcome rib_dest :=
  let old_fib := rd_selected_fib d in
  sc ← examine_all old_fib (map re_ptr (rd_routes d)) (mkScan d None None None None);
  let new_fib := match sc_new_fib sc with Some p => Some p | None => sc_new_selected sc end in
  d ← notify_loser sc (update_selected sc new_fib);
  _ ← deref old_fib d;
  Ret (reap (update_fib old_fib new_fib d)).

(** Whether the destination is freed. *)
Definition rib_can_delete_dest (is_default : bool) (d : rib_dest) : bool :=
  match rd_routes d with [] => negb is_default && negb (rd_fpm d) | _ => false end.

(** ** Adding and deleting routes *)

Record zebra_router := mkZrouter {
  zr_asic_offloaded : bool;
  zr_notify_on_ack : bool;
  zr_allow_delete : bool
}.

Definition rib_compare_routes (re1 re2 : route_entry) : bool :=
  if negb (re_type re1 =? re_type re2) then false
  else if negb (re_instance re1 =? re_instance re2) then false
  else if (re_type re1 =? ZEBRA_ROUTE_KERNEL) && negb (re_metric re1 =? re_metric re2) then false
  else if re_rr_use_distance re1 && negb (re_distance re1 =? re_distance re2) then false
  else if (re_type re1 =? ZEBRA_ROUTE_CONNECT)
          && bool_decide (nh_ifindex <$> head (re_nexthops re1) = nh_ifindex <$> head (re_nexthops re2)) then true
  else negb (re_type re1 =? ZEBRA_ROUTE_CONNECT) && negb (re_type re1 =? ZEBRA_ROUTE_LOCAL).

(** [process_subq_early_route_add], once the table and the next hop group are found. *)
Definition process_subq_early_route_add (z : zebra_router) (startup : bool) (re : route_entry) (d : rib_dest) : rib_dest :=
  let same := List.find (fun r => negb (re_removed r) && rib_compare_routes re r) (rd_routes d) in
  let offloaded := negb startup && re_selfroute re && zr_asic_offloaded z in
  let pending := existsb (fun r => negb (re_removed r) && (re_type r =? re_type re) && re_changed r && negb (re_selfroute r))
                   (rd_routes d) in
  if offloaded && (match same with None => true | Some _ => pending end) then d
  else
    let inherited := match same with Some s => if zr_notify_on_ack z then None else Some s | None => None end in
    let distance := if re_distance re =? 0
                    then match inherited with Some s => re_distance s | None => route_distance (re_type re) end
                    else re_distance re in
    let metric := if (re_metric re =? ROUTE_INSTALLATION_METRIC) && re_selfroute re
                  then match inherited with Some s => re_metric s | None => 0 end
                  else re_metric re in
    let re := set_changed true (set_cost distance metric re) in
    let d := if RSYSTEM_ROUTE (re_type re) then emit_rib (DplaneSysAdd (re_ptr re)) d else d in
    let d := rib_addnode re d in
    let d := match same with
             | Some s =>
                 let d := if bool_decide (rd_selected_fib d = Some (re_ptr s))
                          then upd_re (re_ptr s) (set_replacing true) d else d in
                 rib_delnode (re_ptr s) d
             | None => d
             end in
    fold_left (fun d p => match find_re p d with
                          | Some r => if re_removed r && negb (opt_eq (Some p) (rd_selected_fib d))
                                      then rib_unlink p d else d
                          | None => d
                          end) (map re_ptr (rd_routes d)) d.

(** The entry that a deletion is about; [nh] is the first next hop of the message. *)
Definition deleted_entry (re : route_entry) (nh : option nexthop) (r : route_entry) : bool :=
  if re_removed r then false
  else if negb (re_type r =? re_type re) then false
  else if negb (re_instance r =? re_instance re) then false
  else if re_rr_use_distance r && negb (re_distance re =? re_distance r) then false
  else if (re_type r =? ZEBRA_ROUTE_KERNEL) && negb (re_metric r =? re_metric re) then false
  else
    let by_nexthop :=
      if negb (re_nhe_id re =? 0) && (re_nhe_id r =? re_nhe_id re) then true
      else match nh with
           | None => true
           | Some nh => existsb (fun x => nexthop_same_no_labels x nh) (group_nexthops r)
           end in
    match head (re_nexthops r), nh with
    | Some rtnh, Some nh =>
        if ((re_type r =? ZEBRA_ROUTE_CONNECT) || (re_type r =? ZEBRA_ROUTE_LOCAL)) && (nh_type rtnh =? NEXTHOP_TYPE_IFINDEX)
        then nh_ifindex rtnh =? nh_ifindex nh else by_nexthop
    | _, _ => by_nexthop
    end.

(** [process_subq_early_route_delete]; [any_queued] is [RIB_ROUTE_ANY_QUEUED]. *)
Definition process_subq_early_route_delete (z : zebra_router) (fromkernel any_queued : bool) (re : route_entry)
    (nh : option nexthop) (d : rib_dest) : rib_dest :=
  match List.find (deleted_entry re nh) (rd_routes d) with
  | None =>
      match rd_selected_fib d with
      | Some fib =>
          if re_selfroute re then
            if zr_allow_delete z || any_queued then set_fib None (upd_re fib (set_installed false) d)
            else rib_install_kernel fib None d
          else d
      | None => d
      end
  | Some same =>
      if fromkernel && re_selfroute re && negb (zr_allow_delete z) then rib_install_kernel (re_ptr same) None d
      else
        let d := if RSYSTEM_ROUTE (re_type same) then emit_rib (DplaneSysDel (re_ptr same)) d else d in
        rib_delnode (re_ptr same) d
  end.
End Rib.
