(* ===== verification/ZebraRibFacts.v ===== *)
(** * Processing a prefix: the selected route

    The choice between two routes is an order, [rib_process] selects the least one in
    it, and the entries of a destination stay consistent.

    What [rib_process] makes of the entries of a destination.

    [rib_process] ends with the best route selected, and routes that are added,
    deleted and processed in any order keep a destination consistent. *)
From stdpp Require Import base list sets.
From S2P Require Import Prelude ZebraRib.

(** ** Entries without their progress *)

(** The bits that follow the installation of a route are left out. *)
Definition core (r : route_entry) : route_entry :=
  set_changed false (set_queued false (set_installed false (set_replacing false r))).

Definition cores (d : rib_dest) : list route_entry := map core (rd_routes d).
Definition ptrs (l : list route_entry) : list Z := map re_ptr l.

Lemma core_core r : core (core r) = core r.
Proof. done. Qed.

Definition minor (f : route_entry -> route_entry) : Prop := forall r, core (f r) = core r.

Lemma upd_minor p f d : minor f -> cores (upd_re p f d) = cores d.
Proof.
  intros Hf. unfold cores, upd_re, set_routes. cbn. rewrite map_map. apply map_ext. intros r. case_bool; [apply Hf|done].
Qed.

Lemma ptrs_cores d : ptrs (cores d) = ptrs (rd_routes d).
Proof. unfold ptrs, cores. by rewrite map_map. Qed.

Lemma find_core p d : core <$> find_re p d = List.find (fun r => re_ptr r =? p) (cores d).
Proof.
  unfold find_re, cores. induction (rd_routes d) as [|r l IH]; [done|]. cbn. by destruct (re_ptr r =? p).
Qed.

Lemma elem_ptrs r l : r ∈ l -> re_ptr r ∈ ptrs l.
Proof. intros H. by apply list_elem_of_In, in_map, list_elem_of_In. Qed.

Lemma ptr_mid L1 c L2 : re_ptr c ∈ ptrs (L1 ++ c :: L2).
Proof. apply elem_ptrs. set_solver. Qed.

Lemma find_unique L1 c L2 p : NoDup (ptrs (L1 ++ c :: L2)) -> re_ptr c = p ->
  List.find (fun r => re_ptr r =? p) (L1 ++ c :: L2) = Some c.
Proof.
  intros Hn <-. induction L1 as [|x L1 IH]; cbn; [by rewrite Z.eqb_refl|]. apply list.NoDup_cons in Hn as [Hx Hn].
  destruct (Z.eqb_spec (re_ptr x) (re_ptr c)) as [E|]; [|by apply IH]. exfalso. apply Hx. rewrite E.
  apply ptr_mid.
Qed.

Lemma find_elem L c : NoDup (ptrs L) -> c ∈ L -> List.find (fun r => re_ptr r =? re_ptr c) L = Some c.
Proof. intros Hn Hc. apply list_elem_of_split in Hc as (L1 & L2 & ->). by apply find_unique. Qed.

(** Replacing one entry. *)
Lemma upd_at L1 c L2 p d r' :
  NoDup (ptrs (cores d)) -> cores d = L1 ++ c :: L2 -> re_ptr c = p -> cores (upd_re p (fun _ => r') d) = L1 ++ core r' :: L2.
Proof.
  intros Hn E Hp. rewrite E in Hn. unfold cores in E |- *. unfold upd_re, set_routes. cbn. revert L1 Hn E.
  induction (rd_routes d) as [|x l IH]; intros L1 Hn E; [by destruct L1|]. destruct L1 as [|y L1]; cbn in E.
  - injection E as E1 E2. assert (Ex : re_ptr x = p) by (rewrite <- Hp, <- E1; done). cbn. rewrite Ex, Z.eqb_refl. f_equal.
    rewrite <- E2. rewrite map_map. apply map_ext_in. intros z Hz. destruct (Z.eqb_spec (re_ptr z) p) as [Ez|]; [|done].
    exfalso. cbn in Hn. apply list.NoDup_cons in Hn as [Hn _]. apply Hn. rewrite Hp, <- Ez.
    change (re_ptr z) with (re_ptr (core z)). apply list_elem_of_In, in_map. rewrite <- E2. by apply in_map.
  - injection E as E1 E2. cbn in Hn. apply list.NoDup_cons in Hn as [Hy Hn]. cbn. rewrite <- E1.
    destruct (Z.eqb_spec (re_ptr x) p) as [Ex|]; [|f_equal; by apply IH].
    exfalso. apply Hy. rewrite <- E1. change (re_ptr (core x)) with (re_ptr x). rewrite Ex, <- Hp.
    apply ptr_mid.
Qed.

Section Choice.
  Context (is_loopback : Z -> bool).
Local Notation choose := (rib_choose_best is_loopback).
Local Notation on_loopback := (on_loopback is_loopback).

(** ** The order of routes *)

Definition system_class (r : route_entry) : Z :=
  if (re_type r =? ZEBRA_ROUTE_CONNECT) || (re_type r =? ZEBRA_ROUTE_LOCAL) then 0 else 1.

(** Within a class: loopbacks before others and then the metric; or the distance and
    then the metric. *)
Definition key1 (r : route_entry) : Z :=
  if system_class r =? 0 then if on_loopback r then 0 else 1 else re_distance r.
Definition key2 (r : route_entry) : Z :=
  if (system_class r =? 0) && on_loopback r then 0 else re_metric r.

(** [a] is at least as good as [c]. *)
Definition prefer (a c : route_entry) : bool :=
  (system_class a <? system_class c)
  || (system_class a =? system_class c)
     && ((key1 a <? key1 c) || (key1 a =? key1 c) && (key2 a <=? key2 c)).

Lemma prefer_iff a c : prefer a c = true <->
  system_class a < system_class c
  \/ system_class a = system_class c /\ (key1 a < key1 c \/ key1 a = key1 c /\ key2 a <= key2 c).
Proof.
  unfold prefer. rewrite orb_true_iff, andb_true_iff, orb_true_iff, andb_true_iff, !Z.ltb_lt, !Z.eqb_eq, Z.leb_le. done.
Qed.

Lemma prefer_trans a b c : prefer a b = true -> prefer b c = true -> prefer a c = true.
Proof. rewrite !prefer_iff. lia. Qed.

Lemma prefer_total a b : prefer a b = false -> prefer b a = true.
Proof. intros H. apply not_true_iff_false in H. rewrite prefer_iff in *. lia. Qed.

(** Connected and local routes are not both there. *)
Definition unmixed (l : list route_entry) : Prop :=
  forall x y, x ∈ l -> y ∈ l -> re_type x = ZEBRA_ROUTE_LOCAL -> re_type y <> ZEBRA_ROUTE_CONNECT.

Lemma choose_prefer c a :
  (re_type c = ZEBRA_ROUTE_LOCAL -> re_type a <> ZEBRA_ROUTE_CONNECT) ->
  (re_type a = ZEBRA_ROUTE_LOCAL -> re_type c <> ZEBRA_ROUTE_CONNECT) ->
  choose (Some c) a = if prefer a c then a else c.
Proof.
  intros H1 H2. unfold rib_choose_best, rib_choose_best_type, prefer, key1, key2, system_class, ZEBRA_ROUTE_LOCAL, ZEBRA_ROUTE_CONNECT in *.
  destruct (Z.eqb_spec (re_type a) 3) as [Ea|Ea], (Z.eqb_spec (re_type c) 3) as [Ec|Ec],
    (Z.eqb_spec (re_type a) 2) as [Ea'|Ea'], (Z.eqb_spec (re_type c) 2) as [Ec'|Ec'];
    try (exfalso; first [lia | by apply H1 | by apply H2]); cbn;
    repeat (destruct (on_loopback _); cbn); try done; repeat case_bool; try done; exfalso; bool_to_prop; lia.
Qed.

(** ** The best of a list *)

Definition best (l : list route_entry) : option route_entry :=
  fold_left (fun o r => Some (choose o r)) l None.

Lemma best_snoc l r : best (l ++ [r]) = Some (choose (best l) r).
Proof. unfold best. by rewrite fold_left_app. Qed.

Lemma choose_either o r : choose o r = r \/ o = Some (choose o r).
Proof.
  unfold rib_choose_best, rib_choose_best_type. destruct o as [c|]; [|by left].
  repeat case_bool; auto.
Qed.

Lemma best_elem l m : best l = Some m -> m ∈ l.
Proof.
  revert m. induction l as [|r l IH] using rev_ind; intros m H; [done|]. rewrite best_snoc in H. injection H as H.
  destruct (choose_either (best l) r) as [E|E]; [rewrite E in H; subst; set_solver|].
  rewrite H in E. apply elem_of_app. left. by apply IH.
Qed.

Lemma choice_none l : best l = None -> l = [].
Proof. destruct l as [|r l _] using rev_ind; [done|]. by rewrite best_snoc. Qed.

(** The last one of the least ones. *)
Lemma best_least l : unmixed l -> match best l with
  | None => l = []
  | Some m => exists l1 l2, l = l1 ++ m :: l2 /\ (forall x, x ∈ l1 -> prefer m x = true) /\ (forall x, x ∈ l2 -> prefer x m = false)
  end.
Proof.
  induction l as [|r l IH] using rev_ind; intros Hu; [done|]. rewrite best_snoc.
  specialize (IH ltac:(intros x y Hx Hy; apply Hu; set_solver)). destruct (best l) as [m|] eqn:Eb.
  - assert (Hm : m ∈ l) by by apply best_elem. destruct IH as (l1 & l2 & El & H1 & H2).
    rewrite choose_prefer by (apply Hu; set_solver). destruct (prefer r m) eqn:Ep.
    + exists l, []. split; [done|]. split; [|set_solver]. intros x Hx. rewrite El in Hx. apply elem_of_app in Hx as [Hx|Hx].
      * by apply (prefer_trans r m x); [|apply H1].
      * apply elem_of_cons in Hx as [->|Hx]; [done|]. apply (prefer_trans r m x); [done|]. by apply prefer_total, H2.
    + exists l1, (l2 ++ [r]). rewrite El, <- app_assoc. split; [done|]. split; [done|]. intros x Hx.
      apply elem_of_app in Hx as [Hx|Hx]; [by apply H2|]. apply list_elem_of_singleton in Hx as ->. done.
  - rewrite IH. cbn. exists [], []. set_solver.
Qed.

(** [g] leaves alone what the choice looks at. *)
Definition harmless (g : route_entry -> route_entry) : Prop := forall r,
  re_type (g r) = re_type r /\ re_distance (g r) = re_distance r /\ re_metric (g r) = re_metric r
  /\ re_nexthops (g r) = re_nexthops r /\ re_ptr (g r) = re_ptr r.

Lemma choose_map g o r : harmless g -> choose (g <$> o) (g r) = g (choose o r).
Proof.
  intros Hg. destruct o as [c|]; [|done]. destruct (Hg c) as (C1 & C2 & C3 & C4 & _), (Hg r) as (R1 & R2 & R3 & R4 & _). cbn.
  unfold rib_choose_best, rib_choose_best_type, on_loopback, group_nexthops. rewrite C1, C2, C3, C4, R1, R2, R3, R4.
  repeat (match goal with |- context [if ?b then _ else _] => destruct b end); done.
Qed.

Lemma choose_core o r : core (choose o r) = choose (core <$> o) (core r).
Proof. by rewrite choose_map. Qed.
End Choice.

(** ** Resolution of next hops *)

(** What the resolution of next hops leaves alone. *)
Definition same_ident (r r' : route_entry) : Prop :=
  re_ptr r' = re_ptr r /\ re_type r' = re_type r /\ re_distance r' = re_distance r /\ re_metric r' = re_metric r
  /\ re_selected r' = re_selected r /\ re_fib_override r' = re_fib_override r /\ re_removed r' = re_removed r.

Lemma update_ident res o r : same_ident r (snd (nexthop_active_update res o r)).
Proof.
  unfold nexthop_active_update. destruct (PROTO_OWNED _); [done|]. cbn zeta.
  destruct (nexthop_list_active_update _ _ _) as [[n ch] l]. destruct ch; [|done]. cbn [negb snd].
  by destruct (match o with Some _ => _ | None => None end).
Qed.

(** Of the route in the kernel only what stays is looked at. *)
Lemma update_core_old res o o' r : core <$> o = core <$> o' -> nexthop_active_update res o r = nexthop_active_update res o' r.
Proof.
  intros E. assert (H : forall o, nexthop_active_update res (core <$> o) r = nexthop_active_update res o r).
  { intros [x|]; [|done]. unfold nexthop_active_update. destruct (PROTO_OWNED _); [done|]. cbn zeta.
    destruct (nexthop_list_active_update _ _ _) as [[n ch] l]. destruct ch; [|done]. cbn. by destruct (_ && _). }
  by rewrite <- (H o), E, H.
Qed.

Lemma active_top l : existsb nh_active l = true -> existsb nh_active (flat_map all_nexthops l) = true.
Proof.
  induction l as [|n l IH]; [done|]. cbn [existsb flat_map]. rewrite existsb_app. intros H. apply orb_true_iff in H as [H|H].
  - destruct n. cbn in *. by rewrite H.
  - rewrite IH by done. by rewrite orb_true_r.
Qed.

(** Next hops that are counted are active; without a change they were active before. *)
Lemma list_update_active res re removed l : forall counter,
  let '(n, ch, l') := list_active_update res re removed counter l in
  counter <= n /\ (counter < n -> existsb nh_active l' = true)
  /\ (ch = false -> existsb nh_active l = existsb nh_active l').
Proof.
  induction l as [|nh l IH]; intros counter; cbn [list_active_update]; [split; [lia|split; [lia|done]]|]. cbn zeta.
  set (new := if _ && _ then deactivate _ else _). specialize (IH (if nh_active new then counter + 1 else counter)).
  destruct (list_active_update res re removed _ l) as [[n ch] l']. destruct IH as (I1 & I2 & I3). cbn [existsb].
  split; [destruct (nh_active new); lia|]. split.
  - destruct (nh_active new); [done|]. cbn. intros H. apply I2. lia.
  - intros H. apply orb_false_iff in H as [H Hc]. repeat (apply orb_false_iff in H as [H _]). apply negb_false_iff, eqb_prop in H.
    by rewrite H, I3.
Qed.

Lemma labels_active l : existsb nh_active (map nexthop_del_labels l) = existsb nh_active l.
Proof. induction l as [|n l IH]; [done|]. cbn. by rewrite IH. Qed.

Lemma nexthops_update_active res re l : let '(n, ch, l') := nexthop_list_active_update res re l in
  (n <> 0 -> existsb nh_active l' = true) /\ (ch = false -> existsb nh_active l = existsb nh_active l').
Proof.
  unfold nexthop_list_active_update, nexthop_list_set_evpn_dvni.
  assert (H : forall b l0, existsb nh_active l0 = existsb nh_active l -> let '(n, ch, l') := list_active_update res re b 0 l0 in
    (n <> 0 -> existsb nh_active l' = true) /\ (ch = false -> existsb nh_active l = existsb nh_active l')).
  { intros b l0 E. pose proof (list_update_active res re b l0 0) as H. destruct (list_active_update _ _ _ _ _) as [[n ch] l'].
    destruct H as (H1 & H2 & H3). split; [intros; apply H2; lia|]. intros Hc. rewrite <- E. by apply H3. }
  destruct (evpn_vni <$> head l) as [[v|]|]; [|by apply H..].
  match goal with |- context [if ?u then l else _] => destruct u end; apply H; [done|apply labels_active].
Qed.

(** When the group of the old route is taken, it has an active next hop if the new one does. *)
Lemma compare_active old : forall new, zebra_nhg_nexthop_compare new old = true ->
  existsb nh_active new = true -> existsb nh_active old = true.
Proof.
  induction old as [|o old IH]; intros [|n new]; cbn [zebra_nhg_nexthop_compare existsb]; try done.
  destruct (nh_active o); [done|]. cbn [negb orb]. destruct (nh_active n) eqn:En; cbn [negb andb orb].
  - intros H _. apply (IH (n :: new)); [done|]. cbn. by rewrite En.
  - destruct (nexthop_same_no_ifindex n o); [apply IH|]. intros H Ha. apply (IH (n :: new)); [done|]. cbn. by rewrite En.
Qed.

(** A route that is found usable has an active next hop. *)
Lemma update_active res o r : fst (nexthop_active_update res o r) <> 0 ->
  nexthop_group_active (snd (nexthop_active_update res o r)) = true.
Proof.
  unfold nexthop_active_update, nexthop_group_active, group_nexthops. destruct (PROTO_OWNED _).
  - cbn [fst snd route_entry_update_nhe re_nexthops]. intros H. apply active_top. destruct (re_nexthops r); [done|]. done.
  - cbn zeta. pose proof (nexthops_update_active res (set_changed false r) (re_nexthops (set_changed false r))) as H.
    destruct (nexthop_list_active_update _ _ _) as [[n ch] l]. destruct H as [H1 H2]. destruct ch; cbn [negb fst snd].
    + intros Hn. apply H1 in Hn. destruct o as [o|]; [|by apply active_top].
      destruct (_ && zebra_nhg_nexthop_compare l (re_nexthops o)) eqn:E; [|by apply active_top].
      apply andb_true_iff in E as [_ E]. by apply active_top, (compare_active _ l).
    + intros Hn. apply active_top. rewrite H2 by done. by apply H1.
Qed.

(** What becomes of an entry when it is examined, and whether it can be used: entries
    that have changed are resolved anew. *)
Definition resolve (res : resolution) (old_re : option route_entry) (r : route_entry) : route_entry * bool :=
  if re_removed r then (r, false)
  else if re_changed r then let '(n, r') := nexthop_active_update res old_re r in (r', negb (n =? 0))
  else (r, nexthop_group_active r).

Definition old_route (old_fib : option Z) (l : list route_entry) : option route_entry :=
  p ← old_fib; List.find (fun r => re_ptr r =? p) l.

(** All entries in their order; [done] are those before. *)
Fixpoint resolve_all (res : resolution) (old_fib : option Z) (done todo : list route_entry) : list (route_entry * bool) :=
  match todo with
  | [] => []
  | r :: todo =>
      let x := resolve res (old_route old_fib (done ++ r :: todo)) r in
      x :: resolve_all res old_fib (done ++ [fst x]) todo
  end.

(** The entries with a usable next hop. *)
Definition found_in (R : list (route_entry * bool)) (p : Z) : bool := existsb (fun x => snd x && (re_ptr (fst x) =? p)) R.

Lemma resolve_ident res o r : same_ident r (fst (resolve res o r)).
Proof.
  unfold resolve. destruct (re_removed r) eqn:E; [done|]. destruct (re_changed r); [|done].
  pose proof (update_ident res o r). by destruct (nexthop_active_update res o r).
Qed.

Lemma resolve_active res o r : snd (resolve res o r) = true -> nexthop_group_active (fst (resolve res o r)) = true.
Proof.
  unfold resolve. destruct (re_removed r); [done|]. destruct (re_changed r); [|done].
  pose proof (update_active res o r) as H. destruct (nexthop_active_update res o r) as [n r']. cbn in *.
  intros Hn. apply H. by apply negb_true_iff, Z.eqb_neq in Hn.
Qed.

Lemma resolve_all_spec res old_fib todo : forall done,
  Forall2 same_ident todo (map fst (resolve_all res old_fib done todo))
  /\ Forall (fun x => snd x = true -> nexthop_group_active (fst x) = true) (resolve_all res old_fib done todo).
Proof.
  induction todo as [|r todo IH]; intros done; [by split; constructor|]. cbn [resolve_all]. cbn zeta. cbn [map].
  destruct (IH (done ++ [fst (resolve res (old_route old_fib (done ++ r :: todo)) r)])) as [I1 I2].
  split; constructor; auto using resolve_ident, resolve_active.
Qed.

Lemma found_in_spec R : NoDup (ptrs (map fst R)) -> Forall (fun x => found_in R (re_ptr (fst x)) = snd x) R.
Proof.
  induction R as [|x R IH]; [constructor|]. cbn. intros H. apply list.NoDup_cons in H as [Hx Hn]. constructor.
  - cbn. rewrite Z.eqb_refl, andb_true_r. destruct (snd x); [done|]. cbn. apply not_true_iff_false. intros H. apply Hx.
    apply existsb_exists in H as (y & Hy & E). apply andb_true_iff in E as [_ E]. apply Z.eqb_eq in E. rewrite <- E.
    apply elem_ptrs, list_elem_of_In, in_map, Hy.
  - specialize (IH Hn). apply List.Forall_forall. intros y Hy. rewrite List.Forall_forall in IH. rewrite <- (IH y Hy). cbn.
    destruct (Z.eqb_spec (re_ptr (fst x)) (re_ptr (fst y))) as [E|]; [|by rewrite andb_false_r].
    exfalso. apply Hx. rewrite E. by apply elem_ptrs, list_elem_of_In, in_map.
Qed.

(** Not imported from another table. *)
Definition own (r : route_entry) : Prop := re_type r <> ZEBRA_ROUTE_TABLE.

(** ** Walking over the entries *)

Section Usable.
  Context (found : Z -> bool).

(** A route that can be selected, when the entries with usable next hops are [found]. *)
Definition usable (r : route_entry) : bool :=
  negb (re_removed r) && found (re_ptr r)
  && negb ((re_distance r =? DISTANCE_INFINITY) && negb (re_type r =? ZEBRA_ROUTE_KERNEL)).

Definition for_rib (r : route_entry) : bool := usable r && negb (re_fib_override r).
Definition for_fib (r : route_entry) : bool := usable r && re_fib_override r.
End Usable.

Section Process.
  Context (is_loopback : Z -> bool).
  Context (res : resolution).
  Context (found : Z -> bool).
Local Notation usable := (usable found).
Local Notation for_rib := (for_rib found).
Local Notation for_fib := (for_fib found).
Local Notation choose := (rib_choose_best is_loopback).
Local Notation best := (best is_loopback).

Lemma minor_changed b : minor (set_changed b).
Proof. done. Qed.
Lemma minor_queued b : minor (set_queued b).
Proof. done. Qed.
Lemma minor_installed b : minor (set_installed b).
Proof. done. Qed.
Lemma minor_replacing b : minor (set_replacing b).
Proof. done. Qed.

Lemma take_best_spec o r d :
  NoDup (ptrs (cores d)) -> (forall m, o = Some m -> m ∈ cores d) ->
  exists d', take_best is_loopback (re_ptr <$> o) r d = (re_ptr (choose o (core r)), d')
    /\ cores d' = cores d /\ rd_selected_fib d' = rd_selected_fib d.
Proof.
  intros Hn Ho. unfold take_best.
  assert (Hb : re_ptr (choose (p ← re_ptr <$> o; find_re p d) r) = re_ptr (choose o (core r))).
  { change (re_ptr (choose (p ← re_ptr <$> o; find_re p d) r)) with (re_ptr (core (choose (p ← re_ptr <$> o; find_re p d) r))).
    rewrite choose_core. do 2 f_equal. destruct o as [m|]; [|done]. cbn. rewrite find_core. by apply find_elem; [|apply Ho]. }
  rewrite Hb. eexists. split; [reflexivity|]. destruct o as [m|]; cbn [fmap option_fmap option_map]; repeat case_bool;
    cbn [upd_re set_routes rd_selected_fib]; rewrite ?(upd_minor _ _ _ (minor_changed false)); done.
Qed.

(** The state of the walk when the entries [L] are done. *)
Record walked (old_fib : option Z) (L : list route_entry) (sc : scan) : Prop := mkWalked {
  wk_old : sc_old_selected sc = re_ptr <$> List.find re_selected L;
  wk_new : sc_new_selected sc = re_ptr <$> best (List.filter for_rib L);
  wk_fib : sc_new_fib sc = re_ptr <$> best (List.filter for_fib L);
  wk_changed : forall p, sc_changed sc = Some p -> p ∈ ptrs L;
  wk_dest : rd_selected_fib (sc_dest sc) = old_fib
}.

Lemma filter_snoc {A} (f : A -> bool) l x : List.filter f (l ++ [x]) = List.filter f l ++ (if f x then [x] else []).
Proof. rewrite List.filter_app. done. Qed.

Lemma best_in L f c : best (List.filter f L) = Some c -> c ∈ L.
Proof. intros H. apply best_elem in H. apply list_elem_of_In, filter_In in H as [H _]. by apply list_elem_of_In. Qed.

(** An entry with active next hops, at its place in the list. *)
Lemma consider_spec old_fib L1 L2 r sc :
  NoDup (ptrs (cores (sc_dest sc))) -> cores (sc_dest sc) = L1 ++ core r :: L2 ->
  found (re_ptr r) = true -> re_removed r = false ->
  sc_new_selected sc = re_ptr <$> best (List.filter for_rib L1) -> sc_new_fib sc = re_ptr <$> best (List.filter for_fib L1) ->
  rd_selected_fib (sc_dest sc) = old_fib ->
  let sc' := consider is_loopback r sc in
  cores (sc_dest sc') = cores (sc_dest sc) /\ rd_selected_fib (sc_dest sc') = old_fib
  /\ sc_old_selected sc' = sc_old_selected sc /\ sc_changed sc' = sc_changed sc
  /\ sc_new_selected sc' = re_ptr <$> best (List.filter for_rib (L1 ++ [core r]))
  /\ sc_new_fib sc' = re_ptr <$> best (List.filter for_fib (L1 ++ [core r])).
Proof.
  intros Hn Hc Ha Hr Hs Hf Hd sc'. subst sc'. unfold consider. rewrite !filter_snoc. unfold ZebraRibFacts.for_rib at 2, ZebraRibFacts.for_fib at 2, ZebraRibFacts.usable.
  change (re_removed (core r)) with (re_removed r). change (re_ptr (core r)) with (re_ptr r).
  change (re_distance (core r)) with (re_distance r). change (re_type (core r)) with (re_type r).
  change (re_fib_override (core r)) with (re_fib_override r). rewrite Ha, Hr. cbn [negb andb].
  destruct (_ && _) eqn:Einf; cbn [negb andb].
  { rewrite !app_nil_r. cbn [sc_dest sc_old_selected sc_new_selected sc_new_fib sc_changed]. rewrite (upd_minor _ _ _ (minor_changed false)). done. }
  assert (Hin : forall f m, best (List.filter f L1) = Some m -> m ∈ cores (sc_dest sc))
    by (intros f m Hm; rewrite Hc; apply best_in in Hm; set_solver).
  destruct (re_fib_override r); cbn [negb]; rewrite app_nil_r, best_snoc.
  - rewrite Hf. destruct (take_best_spec (best (List.filter for_fib L1)) r (sc_dest sc) Hn (Hin _)) as (d' & -> & E1 & E2).
    cbn. by rewrite E1, E2.
  - rewrite Hs. destruct (take_best_spec (best (List.filter for_rib L1)) r (sc_dest sc) Hn (Hin _)) as (d' & -> & E1 & E2).
    cbn. by rewrite E1, E2.
Qed.

Lemma snoc_unusable L c : usable c = false ->
  List.filter for_rib (L ++ [c]) = List.filter for_rib L /\ List.filter for_fib (L ++ [c]) = List.filter for_fib L.
Proof.
  intros H. assert (H1 : for_rib c = false) by (unfold ZebraRibFacts.for_rib; by rewrite H).
  assert (H2 : for_fib c = false) by (unfold ZebraRibFacts.for_fib; by rewrite H). by rewrite !filter_snoc, H1, H2, !app_nil_r.
Qed.

Lemma find_snoc (f : route_entry -> bool) L c : List.find f L = None -> List.find f (L ++ [c]) = if f c then Some c else None.
Proof. induction L as [|x L IH]; [done|]. cbn. destruct (f x); [done|apply IH]. Qed.

Lemma find_snoc_no (f : route_entry -> bool) L c : f c = false -> List.find f (L ++ [c]) = List.find f L.
Proof. intros H. induction L as [|x L IH]; cbn; [by rewrite H|]. by destruct (f x). Qed.

Lemma find_snoc_same L c c' : same_ident c c' ->
  re_ptr <$> List.find re_selected (L ++ [c]) = re_ptr <$> List.find re_selected (L ++ [c']).
Proof.
  intros (Hp & _ & _ & _ & Hs & _). induction L as [|x L IH]; cbn; [rewrite Hs; destruct (re_selected c); cbn; congruence|].
  by destruct (re_selected x).
Qed.

Lemma deref_ok p d : NoDup (ptrs (cores d)) -> (forall q, p = Some q -> q ∈ ptrs (cores d)) -> exists o, deref p d = Ret o.
Proof.
  intros Hn H. unfold deref. destruct p as [p|]; [|by eexists]. specialize (H p eq_refl).
  unfold ptrs in H. apply list_elem_of_In, in_map_iff in H as (x & <- & Hx). apply list_elem_of_In in Hx.
  pose proof (find_core (re_ptr x) d) as Hf. rewrite (find_elem _ _ Hn Hx) in Hf.
  destruct (find_re (re_ptr x) d); [by eexists|done].
Qed.

(** The entry whose next hops are resolved anew. *)
Lemma examine_changed old_fib L1 c L2 r o sc :
  NoDup (ptrs (cores (sc_dest sc))) -> cores (sc_dest sc) = L1 ++ c :: L2 -> core r = c -> re_removed r = false ->
  sc_old_selected sc = re_ptr <$> List.find re_selected (L1 ++ [c]) ->
  sc_new_selected sc = re_ptr <$> best (List.filter for_rib L1) -> sc_new_fib sc = re_ptr <$> best (List.filter for_fib L1) ->
  rd_selected_fib (sc_dest sc) = old_fib ->
  let '(active, r') := nexthop_active_update res o r in
  found (re_ptr c) = negb (active =? 0) ->
  let sc2 := mkScan (upd_re (re_ptr c) (fun _ => r') (sc_dest sc)) (sc_old_selected sc) (sc_new_selected sc) (sc_new_fib sc)
               (Some (re_ptr c)) in
  let sc' := if negb (active =? 0) then consider is_loopback r' sc2
             else mkScan (emit_rib (NotifyOwner (re_ptr c) ZAPI_ROUTE_FAIL_INSTALL) (sc_dest sc2)) (sc_old_selected sc2)
                    (sc_new_selected sc2) (sc_new_fib sc2) (sc_changed sc2) in
  cores (sc_dest sc') = L1 ++ core r' :: L2 /\ same_ident c (core r') /\ walked old_fib (L1 ++ [core r']) sc'.
Proof.
  intros Hn Hc Ec Hrm W1 W2 W3 W5. pose proof (update_ident res o r) as Hid. destruct (nexthop_active_update res o r) as [b r'].
  cbn [snd] in Hid. intros Hb. cbn zeta.
  pose proof (upd_at L1 c L2 (re_ptr c) (sc_dest sc) r' Hn Hc eq_refl) as Hu.
  assert (Hid' : same_ident c (core r')) by (rewrite <- Ec; exact Hid).
  pose proof (find_snoc_same L1 _ _ Hid') as Hold.
  assert (Hp : re_ptr (core r') = re_ptr c) by apply Hid'.
  assert (Hptr : re_ptr c ∈ ptrs (L1 ++ [core r'])) by (rewrite <- Hp; apply elem_ptrs; set_solver).
  assert (Hch : forall p, Some (re_ptr c) = Some p -> p ∈ ptrs (L1 ++ [core r'])) by (intros p E; by injection E as <-).
  destruct (negb (b =? 0)).
  - set (sc2 := mkScan _ _ _ _ _).
    destruct (consider_spec old_fib L1 L2 r' sc2) as (C1 & C2 & C3 & C4 & C5 & C6); try done.
    { cbn [sc2 sc_dest]. rewrite Hu. rewrite Hc in Hn. unfold ptrs in *. rewrite map_app in *. cbn [map] in *. by rewrite Hp. }
    { change (re_ptr r') with (re_ptr (core r')). by rewrite Hp. }
    { rewrite <- Hrm. apply Hid. }
    split; [by rewrite C1|]. split; [done|]. split; [rewrite C3; cbn; congruence|done|done|by rewrite C4|done].
  - assert (Hus : usable (core r') = false).
    { unfold ZebraRibFacts.usable. rewrite Hp, Hb. by rewrite andb_false_r. }
    destruct (snoc_unusable L1 _ Hus) as [S1 S2].
    split; [exact Hu|]. split; [done|]. split; cbn; rewrite ?S1, ?S2; try done. congruence.
Qed.

(** *** The entries that are not examined yet stay as they are *)

Lemma upd_skip n p f d : p ∉ ptrs (skipn n (rd_routes d)) -> skipn n (rd_routes (upd_re p f d)) = skipn n (rd_routes d).
Proof.
  intros Hp. cbn. rewrite skipn_map. rewrite <- (map_id (skipn n (rd_routes d))) at 2. apply map_ext_in. intros r Hr.
  destruct (Z.eqb_spec (re_ptr r) p) as [<-|]; [|done]. exfalso. by apply Hp, elem_ptrs, list_elem_of_In.
Qed.

Lemma take_best_skip n cur r d : (forall p, cur = Some p \/ p = re_ptr r -> p ∉ ptrs (skipn n (rd_routes d))) ->
  skipn n (rd_routes (snd (take_best is_loopback cur r d))) = skipn n (rd_routes d).
Proof.
  intros H. unfold take_best. cbn [snd].
  set (d1 := match cur with Some p => _ | None => d end).
  assert (E : skipn n (rd_routes d1) = skipn n (rd_routes d)).
  { unfold d1. destruct cur as [p|]; [|done]. destruct (negb _); [|done]. apply upd_skip. auto. }
  destruct (negb _); [|done]. rewrite upd_skip; [done|]. rewrite E. auto.
Qed.

Lemma consider_skip n r sc :
  (forall p, sc_new_selected sc = Some p \/ sc_new_fib sc = Some p \/ p = re_ptr r -> p ∉ ptrs (skipn n (rd_routes (sc_dest sc)))) ->
  skipn n (rd_routes (sc_dest (consider is_loopback r sc))) = skipn n (rd_routes (sc_dest sc)).
Proof.
  intros H. unfold consider. destruct (_ && _); [cbn [sc_dest]; apply upd_skip; auto|].
  destruct (re_fib_override r).
  - pose proof (take_best_skip n (sc_new_fib sc) r (sc_dest sc)) as T. destruct (take_best _ _ _ _). apply T. intros p [?|?]; auto.
  - pose proof (take_best_skip n (sc_new_selected sc) r (sc_dest sc)) as T. destruct (take_best _ _ _ _). apply T. intros p [?|?]; auto.
Qed.

Lemma examine_skip n old_fib p sc sc' :
  (forall q, sc_new_selected sc = Some q \/ sc_new_fib sc = Some q \/ q = p -> q ∉ ptrs (skipn n (rd_routes (sc_dest sc)))) ->
  (forall r, find_re p (sc_dest sc) = Some r -> own r) ->
  examine is_loopback res old_fib p sc = Ret sc' -> skipn n (rd_routes (sc_dest sc')) = skipn n (rd_routes (sc_dest sc)).
Proof.
  intros H Hown E. unfold examine in E. destruct (find_re p (sc_dest sc)) as [r|] eqn:Ef; [|done].
  assert (Hp : re_ptr r = p) by (apply find_some in Ef as [_ Ef]; by apply Z.eqb_eq).
  specialize (Hown r eq_refl).
  destruct (if re_selected r then _ else _) as [sc1|] eqn:E1; [|done].
  assert (H1 : sc_dest sc1 = sc_dest sc /\ sc_new_selected sc1 = sc_new_selected sc /\ sc_new_fib sc1 = sc_new_fib sc).
  { destruct (re_selected r); [|by injection E1 as <-]. destruct (sc_old_selected sc); [done|]. by injection E1 as <-. }
  destruct H1 as (D1 & S1 & F1). cbn [mbind outcome_bind] in E. rewrite <- D1 in *. clear E1.
  destruct (re_removed r); [by injection E as <-|]. destruct (re_changed r).
  - destruct (deref old_fib (sc_dest sc1)) as [o|]; [|done]. cbn [mbind outcome_bind] in E.
    pose proof (update_ident res o r) as (I1 & I2 & _). destruct (nexthop_active_update res o r) as [a r']. cbn [snd] in I1, I2.
    assert (U : skipn n (rd_routes (upd_re p (fun _ => r') (sc_dest sc1))) = skipn n (rd_routes (sc_dest sc1))) by (apply upd_skip; auto).
    destruct (negb (a =? 0)).
    + injection E as <-. rewrite consider_skip; [exact U|]. cbn [sc_dest sc_new_selected sc_new_fib]. rewrite U, S1, F1, I1, Hp. auto.
    + assert (Et : (re_type r' =? ZEBRA_ROUTE_TABLE) = false) by (apply Z.eqb_neq; by rewrite I2).
      rewrite Et in E. injection E as <-. exact U.
  - destruct (nexthop_group_active r); [|by injection E as <-]. injection E as <-. apply consider_skip. rewrite S1, F1, Hp. auto.
Qed.

Lemma skip_apart n l p : NoDup (ptrs l) -> p ∈ ptrs (take n l) -> p ∉ ptrs (skipn n l).
Proof.
  intros Hn Hp Hq. rewrite <- (take_drop n l) in Hn. unfold ptrs in *. rewrite map_app in Hn. apply list.NoDup_app in Hn as (_ & Hn & _).
  by apply (Hn p).
Qed.

(** One entry: it becomes what [resolve] says. *)
Lemma examine_spec old_fib before r todo sc :
  NoDup (ptrs (rd_routes (sc_dest sc))) -> cores (sc_dest sc) = map core before ++ map core (r :: todo) ->
  skipn (length before) (rd_routes (sc_dest sc)) = r :: todo -> walked old_fib (map core before) sc ->
  (forall p, old_fib = Some p -> p ∈ ptrs (rd_routes (sc_dest sc))) ->
  (re_selected r = true -> List.find re_selected (map core before) = None) -> own r ->
  let x := resolve res (old_route old_fib (before ++ r :: todo)) r in
  found (re_ptr r) = snd x ->
  exists sc', examine is_loopback res old_fib (re_ptr r) sc = Ret sc'
    /\ cores (sc_dest sc') = map core (before ++ [fst x]) ++ map core todo
    /\ skipn (S (length before)) (rd_routes (sc_dest sc')) = todo /\ walked old_fib (map core (before ++ [fst x])) sc'.
Proof.
  intros Hn Hc Ht [W1 W2 W3 W4 W5] Hfib Hsel Hown x Hx. set (L1 := map core before) in *. set (c := core r).
  assert (Hn' : NoDup (ptrs (cores (sc_dest sc)))) by by rewrite ptrs_cores.
  assert (Hin : r ∈ rd_routes (sc_dest sc)).
  { rewrite <- (take_drop (length before) (rd_routes (sc_dest sc))), Ht. apply elem_of_app. right. by left. }
  assert (Er : find_re (re_ptr r) (sc_dest sc) = Some r) by by apply find_elem.
  assert (Htodo : forall sc', examine is_loopback res old_fib (re_ptr r) sc = Ret sc' -> skipn (S (length before)) (rd_routes (sc_dest sc')) = todo).
  { intros sc' E. assert (Et : skipn (S (length before)) (rd_routes (sc_dest sc)) = todo).
    { change (S (length before)) with (1 + length before)%nat. by rewrite <- skipn_skipn, Ht. }
    rewrite <- Et. eapply examine_skip; [|by intros r0; rewrite Er; intros [= <-]|exact E].
    assert (Ep : ptrs (take (S (length before)) (rd_routes (sc_dest sc))) = ptrs (L1 ++ [c])).
    { transitivity (ptrs (take (S (length before)) (cores (sc_dest sc)))).
      { unfold ptrs, cores. by rewrite firstn_map, map_map. }
      rewrite Hc. cbn [map]. fold c. replace (S (length before)) with (length (L1 ++ [c])) by (rewrite length_app; unfold L1; rewrite length_map; cbn; lia).
      change (L1 ++ c :: map core todo) with (L1 ++ [c] ++ map core todo). by rewrite app_assoc, take_app_length. }
    intros q Hq. apply skip_apart; [done|]. rewrite Ep.
    assert (Hb : forall f m, re_ptr <$> best (List.filter f L1) = Some m -> m ∈ ptrs (L1 ++ [c])).
    { intros f m Hm. destruct (best (List.filter f L1)) as [b|] eqn:Eb; [|done]. injection Hm as <-. apply elem_ptrs.
      apply best_in in Eb. apply elem_of_app. by left. }
    destruct Hq as [Hq|[Hq| ->]]; [rewrite W2 in Hq; by apply (Hb for_rib)|rewrite W3 in Hq; by apply (Hb for_fib)|].
    change (re_ptr r) with (re_ptr c). apply elem_ptrs, elem_of_app. right. by apply list_elem_of_singleton. }
  cut (exists sc', examine is_loopback res old_fib (re_ptr r) sc = Ret sc'
    /\ cores (sc_dest sc') = L1 ++ core (fst x) :: map core todo /\ walked old_fib (L1 ++ [core (fst x)]) sc').
  { intros (sc' & E & E1 & E2). exists sc'. split; [done|]. rewrite !map_app. cbn [map]. rewrite <- app_assoc. cbn [app]. auto. }
  clear Htodo. unfold examine. rewrite Er.
  set (sc1 := mkScan (sc_dest sc) (re_ptr <$> List.find re_selected (L1 ++ [c])) (sc_new_selected sc) (sc_new_fib sc) (sc_changed sc)).
  assert (E1 : (if re_selected r then assert! match sc_old_selected sc with None => true | Some _ => false end ;;
                  Ret (mkScan (sc_dest sc) (Some (re_ptr r)) (sc_new_selected sc) (sc_new_fib sc) (sc_changed sc)) else Ret sc) = Ret sc1).
  { unfold sc1. rewrite W1. destruct (re_selected r) eqn:Es.
    - rewrite (find_snoc _ _ _ (Hsel eq_refl)), (Hsel eq_refl). change (re_selected c) with (re_selected r). by rewrite Es.
    - rewrite find_snoc_no by done. destruct sc. cbn in *. by rewrite W1. }
  rewrite E1. clear E1. cbn [mbind outcome_bind].
  assert (Hch1 : forall p, sc_changed sc = Some p -> p ∈ ptrs (L1 ++ [c])).
  { intros p Hp. apply W4 in Hp. unfold ptrs in *. rewrite map_app. apply elem_of_app. by left. }
  assert (Hskip : usable c = false -> walked old_fib (L1 ++ [c]) sc1).
  { intros Hu. destruct (snoc_unusable L1 _ Hu) as [S1 S2]. split; cbn; rewrite ?S1, ?S2; done. }
  unfold resolve in x. destruct (re_removed r) eqn:Erm.
  { exists sc1. split; [done|]. split; [done|]. apply Hskip. unfold ZebraRibFacts.usable. change (re_removed c) with (re_removed r). by rewrite Erm. }
  destruct (re_changed r).
  - cbn [sc1 sc_dest]. destruct (deref_ok old_fib (sc_dest sc) Hn') as [o Ho]; [by rewrite ptrs_cores|]. rewrite Ho. cbn [mbind outcome_bind].
    assert (Eo : core <$> o = core <$> old_route old_fib (before ++ r :: todo)).
    { unfold deref in Ho. unfold old_route. destruct old_fib as [p|]; [|by injection Ho as <-]. cbn [mbind option_bind].
      assert (core <$> find_re p (sc_dest sc) = core <$> List.find (fun r => re_ptr r =? p) (before ++ r :: todo)) as <-.
      { rewrite find_core, Hc. unfold L1. rewrite <- map_app. generalize (before ++ r :: todo). intros l. induction l as [|y l IH]; [done|].
        cbn. by destruct (re_ptr y =? p). }
      destruct (find_re p (sc_dest sc)); [by injection Ho as <-|done]. }
    pose proof (examine_changed old_fib L1 c (map core todo) r o sc1 Hn' Hc eq_refl Erm eq_refl W2 W3 W5) as He.
    unfold x in Hx |- *. clear x. rewrite <- (update_core_old res o _ r Eo) in Hx |- *.
    pose proof (update_ident res o r) as Hid. destruct (nexthop_active_update res o r) as [b r']. cbn [fst snd] in *.
    specialize (He Hx). destruct (negb (b =? 0)); cbn zeta in He |- *.
    + eexists _. split; [reflexivity|]. split; apply He.
    + assert (Et : (re_type r' =? ZEBRA_ROUTE_TABLE) = false) by (apply Z.eqb_neq; destruct Hid as (_ & -> & _); exact Hown).
      rewrite Et. eexists _. split; [reflexivity|]. split; apply He.
  - unfold x in Hx |- *. clear x. cbn [fst snd] in *. destruct (nexthop_group_active r) eqn:Ea; cbn [negb].
    + destruct (consider_spec old_fib L1 (map core todo) r sc1) as (C1 & C2 & C3 & C4 & C5 & C6); try done.
      eexists _. split; [reflexivity|]. split; [rewrite C1; exact Hc|]. split; [by rewrite C3|done|done|by rewrite C4|done].
    + exists sc1. split; [done|]. split; [done|]. apply Hskip. unfold ZebraRibFacts.usable. change (re_ptr c) with (re_ptr r).
      rewrite Hx. by rewrite andb_false_r.
Qed.

(** The whole walk: the entries keep their identity. *)
Lemma find_none_filter {A} (f : A -> bool) l : List.find f l = None <-> List.filter f l = [].
Proof. induction l as [|x l IH]; [done|]. cbn. by destruct (f x). Qed.

Lemma ident_ptrs L L' : Forall2 same_ident L L' -> ptrs L' = ptrs L.
Proof. induction 1 as [|x y L L' (E & _) _ IH]; [done|]. unfold ptrs in *. cbn. by rewrite E, IH. Qed.

Lemma ident_selected L L' : Forall2 same_ident L L' ->
  length (List.filter re_selected L') = length (List.filter re_selected L).
Proof.
  induction 1 as [|x y L L' (_ & _ & _ & _ & E & _) _ IH]; [done|]. cbn. rewrite E. destruct (re_selected x); cbn; by rewrite IH.
Qed.

Lemma same_ident_refl r : same_ident r r.
Proof. done. Qed.

Lemma examine_all_spec old_fib todo : forall before sc,
  NoDup (ptrs (rd_routes (sc_dest sc))) -> cores (sc_dest sc) = map core before ++ map core todo ->
  skipn (length before) (rd_routes (sc_dest sc)) = todo -> walked old_fib (map core before) sc ->
  (forall p, old_fib = Some p -> p ∈ ptrs (rd_routes (sc_dest sc))) ->
  (length (List.filter re_selected (map core before ++ map core todo)) <= 1)%nat -> Forall own todo ->
  let R := resolve_all res old_fib before todo in
  Forall (fun x => found (re_ptr (fst x)) = snd x) R ->
  exists sc', examine_all is_loopback res old_fib (ptrs todo) sc = Ret sc'
    /\ cores (sc_dest sc') = map core (before ++ map fst R) /\ walked old_fib (map core (before ++ map fst R)) sc'.
Proof.
  induction todo as [|r todo IH]; intros before sc Hn Hc Ht Hw Hfib Hone Hown R HR.
  { exists sc. cbn. rewrite app_nil_r in *. done. }
  apply list.Forall_cons in Hown as [Ho Hown]. unfold R in *. clear R. cbn [resolve_all] in *. cbn zeta in *.
  set (x := resolve res _ r) in *. apply Forall_cons_1 in HR as [Hx HR].
  assert (Hid : same_ident r (fst x)) by apply resolve_ident.
  destruct (examine_spec old_fib before r todo sc) as (sc1 & E & E1 & E2 & Hw1); try done.
  { intros Hs. rewrite List.filter_app, length_app in Hone. cbn in Hone. rewrite Hs in Hone. cbn in Hone.
    apply find_none_filter. destruct (List.filter re_selected (map core before)); [done|cbn in Hone; lia]. }
  { fold x. rewrite <- Hx. f_equal. symmetry. apply Hid. }
  fold x in E1, Hw1.
  assert (Hall : Forall2 same_ident (map core before ++ map core (r :: todo)) (map core (before ++ [fst x]) ++ map core todo)).
  { rewrite map_app, <- app_assoc. apply Forall2_app; [by apply Forall_Forall2_diag, Forall_true|]. cbn. constructor; [exact Hid|].
    by apply Forall_Forall2_diag, Forall_true. }
  pose proof (ident_ptrs _ _ Hall) as Hp. pose proof (ident_selected _ _ Hall) as Hl. rewrite <- Hc, <- E1 in Hp. rewrite !ptrs_cores in Hp.
  destruct (IH (before ++ [fst x]) sc1) as (sc2 & E3 & E4 & Hw2); try done.
  { by rewrite Hp. }
  { rewrite length_app. cbn [length]. by rewrite Nat.add_1_r. }
  { intros p Hp'. rewrite Hp. by apply Hfib. }
  { by rewrite Hl. }
  exists sc2. rewrite <- app_assoc in E4, Hw2. cbn [app] in E4, Hw2. split; [cbn; by rewrite E|]. done.
Qed.

End Process.

(** ** The selected flag *)

(** The flag on the entry [o] and on no other one. *)
Definition select_only (o : option Z) (c : route_entry) : route_entry :=
  set_selected (bool_decide (Some (re_ptr c) = o)) c.

Lemma upd_core_map p f g d : (forall r, core (f r) = g (core r)) ->
  cores (upd_re p f d) = map (fun c => if re_ptr c =? p then g c else c) (cores d).
Proof.
  intros H. unfold cores, upd_re, set_routes. cbn. rewrite !map_map. apply map_ext. intros r.
  change (re_ptr (core r)) with (re_ptr r). case_bool; [apply H|done].
Qed.

Lemma find_selected_only L c : NoDup (ptrs L) -> (length (List.filter re_selected L) <= 1)%nat -> c ∈ L ->
  re_selected c = bool_decide (Some (re_ptr c) = re_ptr <$> List.find re_selected L).
Proof.
  intros Hn Hl Hc. destruct (List.find re_selected L) as [m|] eqn:Em; cbn.
  - apply find_some in Em as [Hm Hs]. apply list_elem_of_In in Hm. case_bool_decide as E.
    + injection E as E. assert (Ecm : Some c = Some m); [|by injection Ecm as ->].
      by rewrite <- (find_elem L c Hn Hc), <- (find_elem L m Hn Hm), E.
    + destruct (re_selected c) eqn:Es; [|done]. exfalso. apply E. do 2 f_equal.
      assert (Hc' : c ∈ List.filter re_selected L) by (apply list_elem_of_In, filter_In; split; [by apply list_elem_of_In|done]).
      assert (Hm' : m ∈ List.filter re_selected L) by (apply list_elem_of_In, filter_In; split; [by apply list_elem_of_In|done]).
      destruct (List.filter re_selected L) as [|a [|b l]]; [set_solver| |cbn in Hl; lia].
      apply list_elem_of_singleton in Hc', Hm'. congruence.
  - rewrite bool_decide_eq_false_2 by done. apply find_none with (x := c) in Em; [done|by apply list_elem_of_In].
Qed.

Lemma map_id_in {A} (f : A -> A) l : (forall x, x ∈ l -> f x = x) -> map f l = l.
Proof. intros H. rewrite <- (map_id l) at 2. apply map_ext_in. intros x Hx. by apply H, list_elem_of_In. Qed.

Lemma set_selected_id r : set_selected (re_selected r) r = r.
Proof. by destruct r. Qed.

Lemma upd_selected p b d :
  cores (upd_re p (set_selected b) d) = map (fun c => if re_ptr c =? p then set_selected b c else c) (cores d).
Proof. by apply upd_core_map. Qed.

(** The flag moves from [old] to [new]. *)
Lemma move_selected (old new : option Z) L : (forall c, c ∈ L -> re_selected c = bool_decide (Some (re_ptr c) = old)) ->
  let set o b L := match o with Some p => map (fun c => if re_ptr c =? p then set_selected b c else c) L | None => L end in
  (if bool_decide (old = new) then set new true L else set old false (set new true L)) = map (select_only new) L.
Proof.
  intros H set. assert (Hset : forall o b L', set o b L' = map (fun c => if bool_decide (Some (re_ptr c) = o) then set_selected b c else c) L').
  { intros [p|] b L'; cbn; [|by rewrite map_id]. apply map_ext. intros c. destruct (Z.eqb_spec (re_ptr c) p) as [E|E].
    - by rewrite bool_decide_eq_true_2 by congruence.
    - by rewrite bool_decide_eq_false_2 by congruence. }
  rewrite !Hset. case_bool_decide as E; rewrite ?map_map; apply map_ext_in; intros c Hc; apply list_elem_of_In, H in Hc; unfold select_only.
  - subst. destruct (bool_decide _); [done|]. rewrite <- Hc. by rewrite set_selected_id.
  - destruct (bool_decide (Some (re_ptr c) = new)) eqn:En.
    + change (re_ptr (set_selected true c)) with (re_ptr c). apply bool_decide_eq_true in En.
      by rewrite bool_decide_eq_false_2 by congruence.
    + rewrite <- (set_selected_id c) at 4. rewrite Hc. by destruct (bool_decide (Some (re_ptr c) = old)).
Qed.

Lemma update_selected_spec sc new_fib :
  let L := cores (sc_dest sc) in
  NoDup (ptrs L) -> (length (List.filter re_selected L) <= 1)%nat ->
  sc_old_selected sc = re_ptr <$> List.find re_selected L ->
  cores (update_selected sc new_fib) = map (select_only (sc_new_selected sc)) L
  /\ rd_selected_fib (update_selected sc new_fib) = rd_selected_fib (sc_dest sc).
Proof.
  intros L Hn Hl Hold. unfold update_selected, opt_eq.
  assert (Hflag : forall c, c ∈ L -> re_selected c = bool_decide (Some (re_ptr c) = sc_old_selected sc))
    by (intros c Hc; rewrite Hold; by apply find_selected_only).
  rewrite <- (move_selected _ (sc_new_selected sc) L Hflag). cbn zeta.
  set (b := match _ with Some r => re_changed r | None => false end).
  assert (Hmin : forall p d, cores (upd_re p (set_changed false) d) = cores d) by (intros p d; by apply upd_minor).
  assert (Hem : forall e d, cores (emit_rib e d) = cores d) by done.
  destruct (negb _ || b) eqn:Eb.
  - destruct (sc_new_selected sc) as [n|], (sc_old_selected sc) as [o|]; cbn [opt_eq]; repeat case_bool;
      rewrite ?Hem, ?upd_selected, ?Hem, ?upd_selected, ?Hmin; try done.
    all: try (bool_to_prop; congruence).
  - apply orb_false_iff in Eb as [Eb _]. apply negb_false_iff in Eb. rewrite Eb. apply bool_decide_eq_true in Eb.
    split; [|done]. destruct (sc_new_selected sc) as [n|] eqn:En; [|done]. symmetry. apply map_id_in. intros c Hc.
    specialize (Hflag c Hc). rewrite Eb in Hflag. destruct (Z.eqb_spec (re_ptr c) n) as [E|]; [|done].
    rewrite bool_decide_eq_true_2 in Hflag by congruence. rewrite <- Hflag. apply set_selected_id.
Qed.

(** ** Consistent destinations *)

(** Entries are distinct, at most one is selected and the one in the kernel is there. *)
Record rib_ok (d : rib_dest) : Prop := mkRibOk {
  ok_nodup : NoDup (ptrs (rd_routes d));
  ok_one : (length (List.filter re_selected (rd_routes d)) <= 1)%nat;
  ok_fib : forall p, rd_selected_fib d = Some p -> p ∈ ptrs (rd_routes d);
  ok_own : Forall own (rd_routes d)
}.

Lemma selected_cores d : length (List.filter re_selected (cores d)) = length (List.filter re_selected (rd_routes d)).
Proof. unfold cores. induction (rd_routes d) as [|r l IH]; [done|]. cbn. destruct (re_selected r); cbn; by rewrite IH. Qed.

Lemma own_cores d : Forall own (cores d) <-> Forall own (rd_routes d).
Proof. unfold cores. by rewrite Forall_map. Qed.

Lemma ok_cores d d' : cores d' = cores d -> (rd_selected_fib d' = rd_selected_fib d \/ rd_selected_fib d' = None) -> rib_ok d -> rib_ok d'.
Proof.
  intros E Ef [H1 H2 H3 H4]. rewrite <- ptrs_cores in H1. rewrite <- selected_cores in H2.
  rewrite <- own_cores in H4. split.
  - by rewrite <- ptrs_cores, E.
  - by rewrite <- selected_cores, E.
  - intros p Hp. rewrite <- ptrs_cores, E, ptrs_cores. apply H3. destruct Ef; congruence.
  - by rewrite <- own_cores, E.
Qed.

(** Keeping some of the entries. *)
Lemma nodup_filter f l : NoDup (ptrs l) -> NoDup (ptrs (List.filter f l)).
Proof.
  induction l as [|r l IH]; [done|]. cbn. intros H. apply list.NoDup_cons in H as [Hr Hn]. destruct (f r); [|by apply IH].
  cbn. constructor; [|by apply IH]. intros Hin. apply Hr. unfold ptrs in *. apply list_elem_of_In, in_map_iff in Hin as (x & <- & Hx).
  apply filter_In in Hx as [Hx _]. by apply list_elem_of_In, in_map.
Qed.

Lemma selected_filter f l : (length (List.filter re_selected (List.filter f l)) <= length (List.filter re_selected l))%nat.
Proof. induction l as [|r l IH]; [done|]. cbn. destruct (f r); cbn; destruct (re_selected r); cbn; lia. Qed.

Lemma forall_filter {A} (P : A -> Prop) f l : Forall P l -> Forall P (List.filter f l).
Proof. rewrite !List.Forall_forall. intros H x Hx. apply filter_In in Hx as [Hx _]. by apply H. Qed.

Lemma elem_ptrs_iff p l : p ∈ ptrs l <-> exists r, r ∈ l /\ re_ptr r = p.
Proof.
  unfold ptrs. rewrite list_elem_of_In, in_map_iff. setoid_rewrite list_elem_of_In. naive_solver.
Qed.

Lemma elem_filter_b {A} (f : A -> bool) l x : x ∈ List.filter f l <-> x ∈ l /\ f x = true.
Proof. rewrite !list_elem_of_In. apply filter_In. Qed.

Lemma filter_true {A} (f : A -> bool) l : (forall x, x ∈ l -> f x = true) -> List.filter f l = l.
Proof. induction l as [|x l IH]; intros H; [done|]. cbn. rewrite (H x) by set_solver. f_equal. apply IH. set_solver. Qed.

Lemma filter_filter_b {A} (f g : A -> bool) l : List.filter f (List.filter g l) = List.filter (fun x => g x && f x) l.
Proof. induction l as [|x l IH]; [done|]. cbn. destruct (g x); cbn; [|done]. destruct (f x); by rewrite IH. Qed.

Lemma unlink_routes p d : rd_routes (rib_unlink p d) = List.filter (fun r => negb (re_ptr r =? p)) (rd_routes d).
Proof. unfold rib_unlink. by case_bool_decide. Qed.

Lemma unlink_fib p d : rd_selected_fib (rib_unlink p d) = if bool_decide (rd_selected_fib d = Some p) then None else rd_selected_fib d.
Proof. unfold rib_unlink. cbn. by case_bool_decide. Qed.

Lemma unlink_ok p d : rib_ok d -> rib_ok (rib_unlink p d).
Proof.
  intros [H1 H2 H3 H4]. split; rewrite ?unlink_routes.
  - by apply nodup_filter.
  - pose proof (selected_filter (fun r => negb (re_ptr r =? p)) (rd_routes d)). lia.
  - intros q. rewrite unlink_fib. case_bool_decide as E; [done|]. intros Hq. apply elem_ptrs_iff.
    destruct (proj1 (elem_ptrs_iff _ _) (H3 q Hq)) as (r & Hr & <-). exists r. split; [|done]. apply elem_filter_b. split; [done|].
    apply negb_true_iff, Z.eqb_neq. congruence.
  - by apply forall_filter.
Qed.

Section Run.
  Context (is_loopback : Z -> bool).
  Context (res : resolution).
  Context (dplane : rib_effect -> dplane_result).
Local Notation process := (rib_process is_loopback res dplane).
Local Notation best := (best is_loopback).

(** ** Installation *)

Lemma install_spec p old d :
  cores (rib_install_kernel dplane p old d) = cores d /\ rd_selected_fib (rib_install_kernel dplane p old d) = Some p.
Proof.
  unfold rib_install_kernel. set (b := match old with Some o => _ | None => false end).
  set (d1 := if b then _ else d). assert (E1 : cores d1 = cores d) by (subst d1; by destruct b, old).
  clearbody d1. cbn zeta. set (op := match old with Some o => DplaneUpdate p o | None => DplaneAdd p end).
  set (d2 := emit_rib op (set_fib (Some p) d1)).
  assert (E2 : cores d2 = cores d) by exact E1. assert (F2 : rd_selected_fib d2 = Some p) by done. clearbody d2.
  destruct (dplane op), old as [o|]; (split; [rewrite ?upd_minor by (apply minor_queued || apply minor_replacing); exact E2|exact F2]).
Qed.

Lemma active_cores p d : active_at p d = match List.find (fun r => re_ptr r =? p) (cores d) with
  | Some c => nexthop_group_active c | None => false end.
Proof. unfold active_at. rewrite <- find_core. by destruct (find_re p d). Qed.

Lemma update_fib_spec old new d :
  rd_selected_fib d = old -> (forall n, new = Some n -> active_at n d = true) ->
  cores (update_fib dplane old new d) = cores d
  /\ rd_selected_fib (update_fib dplane old new d) = match new with Some n => Some n | None => old end.
Proof.
  intros Hold Hact. unfold update_fib.
  assert (Hm : forall q d, cores (upd_re q (set_changed false) d) = cores d) by (intros; by apply upd_minor).
  assert (Hf : forall q f d, rd_selected_fib (upd_re q f d) = rd_selected_fib d) by done.
  destruct new as [n|], old as [o|].
  - specialize (Hact n eq_refl). unfold rib_process_update_fib. rewrite Hact. cbn zeta.
    destruct (negb (n =? o) || _) eqn:Eb; [by destruct (negb (n =? o)); rewrite ?Hm, ?Hf; apply install_spec|].
    apply orb_false_iff in Eb as [Eb _]. rewrite Eb. apply negb_false_iff, Z.eqb_eq in Eb. subst o. rewrite Hm, Hf.
    case_match; [apply install_spec|]. done.
  - unfold rib_process_add_fib. rewrite (Hact n eq_refl). cbn [negb]. rewrite Hm, Hf. apply install_spec.
  - destruct (match find_re o d with Some r => _ | None => false end) eqn:E; [done|]. unfold rib_process_del_fib, rib_uninstall_kernel.
    change (find_re o (emit_rib (DplaneDelete o) d)) with (find_re o d). rewrite E. by rewrite Hm, Hf.
  - done.
Qed.

(** ** Removal *)

Definition drop (d : rib_dest) (p : Z) : rib_dest :=
  match find_re p d with Some r => if re_removed r then rib_unlink p d else d | None => d end.

Definition doomed (ps : list Z) (r : route_entry) : bool := bool_decide (re_ptr r ∈ ps) && re_removed r.

Lemma find_re_elem d r : NoDup (ptrs (rd_routes d)) -> r ∈ rd_routes d -> find_re (re_ptr r) d = Some r.
Proof. intros Hn Hr. by apply find_elem. Qed.

Lemma drop_routes d p : NoDup (ptrs (rd_routes d)) ->
  rd_routes (drop d p) = List.filter (fun r => negb (doomed [p] r)) (rd_routes d).
Proof.
  intros Hn. unfold drop.
  assert (Hall : forall r, r ∈ rd_routes d -> re_ptr r = p -> find_re p d = Some r) by (intros r Hr <-; by apply find_re_elem).
  assert (Hid : (forall r, r ∈ rd_routes d -> re_ptr r = p -> re_removed r = false) ->
    rd_routes d = List.filter (fun r => negb (doomed [p] r)) (rd_routes d)).
  { intros H. symmetry. apply filter_true. intros r Hr. unfold doomed. apply negb_true_iff, andb_false_iff.
    destruct (decide (re_ptr r = p)); [right; by apply H|left; apply bool_decide_eq_false_2; set_solver]. }
  destruct (find_re p d) as [r|] eqn:E; [destruct (re_removed r) eqn:Er|].
  - rewrite unlink_routes. apply filter_ext_in. intros x Hx. unfold doomed. f_equal. destruct (Z.eqb_spec (re_ptr x) p) as [Ep|Ep].
    + rewrite bool_decide_eq_true_2 by set_solver. apply list_elem_of_In in Hx. specialize (Hall x Hx Ep). injection Hall as <-. by rewrite Er.
    + by rewrite bool_decide_eq_false_2 by set_solver.
  - apply Hid. intros x Hx Hp. specialize (Hall x Hx Hp). by injection Hall as <-.
  - apply Hid. intros x Hx Hp. by specialize (Hall x Hx Hp).
Qed.

Lemma drop_ok d p : rib_ok d -> rib_ok (drop d p).
Proof. intros H. unfold drop. destruct (find_re p d) as [r|]; [|done]. destruct (re_removed r); [by apply unlink_ok|done]. Qed.

Lemma drop_all_routes ps : forall d, NoDup (ptrs (rd_routes d)) ->
  rd_routes (fold_left drop ps d) = List.filter (fun r => negb (doomed ps r)) (rd_routes d).
Proof.
  induction ps as [|p ps IH]; intros d Hn; cbn [fold_left].
  - symmetry. by apply filter_true.
  - rewrite IH by (rewrite drop_routes by done; by apply nodup_filter). rewrite drop_routes by done. rewrite filter_filter_b.
    apply filter_ext_in. intros r _. unfold doomed. destruct (re_removed r); rewrite ?andb_false_r, ?andb_true_r; [|done].
    repeat case_bool_decide; set_solver.
Qed.

(** ** Processing *)

Lemma reap_drop d : reap d = fold_left drop (ptrs (rd_routes d)) d.
Proof. done. Qed.

Lemma reap_routes d : NoDup (ptrs (rd_routes d)) -> rd_routes (reap d) = List.filter (fun r => negb (re_removed r)) (rd_routes d).
Proof.
  intros Hn. rewrite reap_drop, drop_all_routes by done. apply filter_ext_in. intros r Hr. apply list_elem_of_In in Hr. unfold doomed.
  by rewrite bool_decide_eq_true_2 by by apply elem_ptrs.
Qed.

(** The pointer into the list, unless its entry is gone. *)
Definition still_there (p : option Z) (l : list route_entry) : option Z :=
  match p with Some q => if bool_decide (q ∈ ptrs l) then Some q else None | None => None end.

Lemma still_there_ok d : rib_ok d -> still_there (rd_selected_fib d) (rd_routes d) = rd_selected_fib d.
Proof.
  intros H. unfold still_there. destruct (rd_selected_fib d) as [q|] eqn:E; [|done]. by rewrite bool_decide_eq_true_2 by by apply (ok_fib d H).
Qed.

Lemma drop_fib d p : rib_ok d -> rd_selected_fib (drop d p) = still_there (rd_selected_fib d) (rd_routes (drop d p)).
Proof.
  intros H. unfold drop. assert (Hk := still_there_ok d H). destruct (find_re p d) as [r|]; [|done]. destruct (re_removed r); [|done].
  rewrite unlink_fib, unlink_routes. unfold still_there in *. destruct (rd_selected_fib d) as [q|]; [|done].
  destruct (decide (q ∈ ptrs (rd_routes d))) as [Hq|Hq]; [|by rewrite bool_decide_eq_false_2 in Hk by done].
  apply elem_ptrs_iff in Hq as (x & Hx & <-). destruct (decide (re_ptr x = p)) as [<-|E].
  - rewrite (bool_decide_eq_true_2 (Some _ = Some _)) by done. rewrite bool_decide_eq_false_2; [done|]. intros Hin. apply elem_ptrs_iff in Hin as (y & Hy & E).
    apply elem_filter_b in Hy as [_ Hy]. rewrite E, Z.eqb_refl in Hy. done.
  - rewrite (bool_decide_eq_false_2 (Some _ = Some _)) by congruence. rewrite bool_decide_eq_true_2; [done|].
    apply elem_ptrs, elem_filter_b. split; [done|]. by apply negb_true_iff, Z.eqb_neq.
Qed.

Lemma drop_all_fib ps : forall d, rib_ok d ->
  rd_selected_fib (fold_left drop ps d) = still_there (rd_selected_fib d) (rd_routes (fold_left drop ps d)).
Proof.
  induction ps as [|p ps IH]; intros d H; cbn [fold_left]; [by rewrite still_there_ok|].
  rewrite IH by by apply drop_ok. rewrite drop_fib by done. unfold still_there. destruct (rd_selected_fib d) as [q|]; [|done].
  destruct (decide (q ∈ ptrs (rd_routes (drop d p)))) as [Hq|Hq]; [by rewrite (bool_decide_eq_true_2 (q ∈ ptrs (rd_routes (drop d p))))|].
  rewrite bool_decide_eq_false_2 by done. rewrite bool_decide_eq_false_2; [done|]. intros Hin. apply Hq.
  rewrite drop_all_routes in Hin by (apply ok_nodup; by apply drop_ok). apply elem_ptrs_iff in Hin as (y & Hy & <-).
  apply elem_filter_b in Hy as [Hy _]. by apply elem_ptrs.
Qed.

Lemma reap_ok d : rib_ok d -> rib_ok (reap d).
Proof.
  rewrite reap_drop. generalize (ptrs (rd_routes d)). intros ps. revert d. induction ps as [|p ps IH]; intros d H; [done|].
  apply IH. by apply drop_ok.
Qed.

Lemma notify_spec sc d :
  NoDup (ptrs (cores d)) ->
  (forall p, sc_new_selected sc = Some p -> p ∈ ptrs (cores d)) -> (forall p, sc_changed sc = Some p -> p ∈ ptrs (cores d)) ->
  exists d', notify_loser sc d = Ret d' /\ cores d' = cores d /\ rd_selected_fib d' = rd_selected_fib d.
Proof.
  intros Hn H1 H2. unfold notify_loser. destruct (sc_new_selected sc) as [n|]; [|by eexists].
  destruct (sc_changed sc) as [c|]; [|by eexists]. destruct (negb _); [|by eexists].
  destruct (deref_ok (Some n) d Hn H1) as [x Ex], (deref_ok (Some c) d Hn H2) as [y Ey]. cbn in Ex, Ey.
  destruct (find_re n d), (find_re c d); try done. eexists. split; [reflexivity|]. by destruct (negb _).
Qed.

Definition keep (r : route_entry) : bool := negb (re_removed r).

Lemma map_filter_comm {A B} (f : A -> B) (g : B -> bool) l :
  List.filter g (map f l) = map f (List.filter (fun x => g (f x)) l).
Proof. induction l as [|x l IH]; [done|]. cbn. destruct (g (f x)); cbn; by rewrite IH. Qed.

Lemma select_ptrs o L : ptrs (map (select_only o) L) = ptrs L.
Proof. unfold ptrs. by rewrite map_map. Qed.

Lemma select_one o L : NoDup (ptrs L) -> (length (List.filter re_selected (map (select_only o) L)) <= 1)%nat.
Proof.
  intros Hn. rewrite map_filter_comm, length_map. cbn. destruct o as [p|].
  - induction L as [|c L IH]; [cbn; lia|]. cbn. cbn in Hn. apply list.NoDup_cons in Hn as [Hc Hn]. case_bool_decide as E; [|by apply IH].
    injection E as <-. rewrite (proj1 (find_none_filter _ _)); [done|].
    destruct (List.find _ L) as [x|] eqn:Ex; [|done]. apply find_some in Ex as [Hx Ex]. apply bool_decide_eq_true in Ex. injection Ex as Ex.
    exfalso. apply Hc. rewrite <- Ex. by apply elem_ptrs, list_elem_of_In.
  - induction L as [|c L IH]; [cbn; lia|]. cbn. apply IH. cbn in Hn. by apply list.NoDup_cons in Hn as [_ Hn].
Qed.

Lemma finish_spec found d1 L o old nf :
  NoDup (ptrs L) -> Forall own L -> Forall (fun m => found (re_ptr m) = true -> nexthop_group_active m = true) L -> cores d1 = map (select_only o) L -> rd_selected_fib d1 = old ->
  (forall p, old = Some p -> p ∈ ptrs L) -> (forall n, nf = Some n -> exists m, m ∈ L /\ usable found m = true /\ re_ptr m = n) ->
  let d' := reap (update_fib dplane old nf d1) in
  rib_ok d' /\ cores d' = map (select_only o) (List.filter keep L)
  /\ rd_selected_fib d' = match nf with Some n => Some n | None => still_there old (rd_routes d') end.
Proof.
  intros Hn Hown Hfound Hc Hold Hin Hnf. assert (Hn1 : NoDup (ptrs (cores d1))) by by rewrite Hc, select_ptrs.
  destruct (update_fib_spec old nf d1 Hold) as [E1 E2].
  { intros n E. destruct (Hnf n E) as (m & Hm & Hu & <-). rewrite active_cores. change (re_ptr m) with (re_ptr (select_only o m)).
    rewrite (find_elem (cores d1) (select_only o m)) by (done || (rewrite Hc; by apply list_elem_of_In, in_map, list_elem_of_In)).
    unfold usable in Hu. apply andb_true_iff in Hu as [Hu _]. apply andb_true_iff in Hu as [_ Hu].
    rewrite List.Forall_forall in Hfound. by apply (Hfound m); [apply list_elem_of_In|]. }
  set (d2 := update_fib dplane old nf d1) in *. cbn zeta.
  assert (Hok2 : rib_ok d2).
  { split; rewrite <- ?ptrs_cores, <- ?selected_cores, <- ?own_cores, E1, Hc, ?select_ptrs; [done|by apply select_one| |].
    - intros p Hp. rewrite E2 in Hp. destruct nf as [n|]; [|by apply Hin]. injection Hp as <-.
      destruct (Hnf n eq_refl) as (m & Hm & _ & <-). by apply elem_ptrs.
    - by apply Forall_map. }
  assert (Ec : cores (reap d2) = map (select_only o) (List.filter keep L)).
  { unfold cores. rewrite reap_routes by apply Hok2. transitivity (List.filter keep (cores d2)); [unfold cores; by rewrite map_filter_comm|].
    by rewrite E1, Hc, map_filter_comm. }
  split; [by apply reap_ok|]. split; [done|]. rewrite reap_drop, drop_all_fib by done. rewrite E2, <- reap_drop.
  clearbody d2. destruct nf as [n|]; [|done]. cbn. rewrite bool_decide_eq_true_2; [done|]. destruct (Hnf n eq_refl) as (m & Hm & Hu & <-).
  rewrite <- ptrs_cores, Ec, select_ptrs. apply elem_ptrs, elem_filter_b. split; [done|]. unfold usable in Hu.
  apply andb_true_iff in Hu as [Hu _]. apply andb_true_iff in Hu as [Hu _]. exact Hu.
Qed.

Definition resolved (d : rib_dest) : list (route_entry * bool) := resolve_all res (rd_selected_fib d) [] (rd_routes d).

(** The entries after their next hops are resolved: [rib_process] drops the removed
    ones and flags the best one of those that are found usable. *)
Lemma process_spec d : rib_ok d ->
  let L := map core (map fst (resolved d)) in
  let found := found_in (resolved d) in
  exists d', process d = Ret d' /\ rib_ok d'
  /\ Forall2 same_ident (cores d) L
  /\ cores d' = map (select_only (re_ptr <$> best (List.filter (for_rib found) L))) (List.filter keep L)
  /\ rd_selected_fib d' = match best (List.filter (for_fib found) L), best (List.filter (for_rib found) L) with
       | Some m, _ | None, Some m => Some (re_ptr m)
       | None, None => still_there (rd_selected_fib d) (rd_routes d')
       end.
Proof.
  intros Hok L found. pose proof Hok as [H1 H2 H3 H4]. 
  destruct (resolve_all_spec res (rd_selected_fib d) (rd_routes d) []) as [Hid0 Hact]. fold (resolved d) in Hid0, Hact.
  assert (Hfound : Forall (fun x => found (re_ptr (fst x)) = snd x) (resolved d)).
  { apply found_in_spec. by rewrite (ident_ptrs _ _ Hid0). }
  assert (Hid : Forall2 same_ident (cores d) L) by (unfold cores, L; apply Forall2_fmap_2; exact Hid0).
  rewrite <- selected_cores in H2.
  destruct (examine_all_spec is_loopback res found (rd_selected_fib d) (rd_routes d) [] (mkScan d None None None None))
    as (sc & E & EL & W); try done.
  cbn [app] in EL, W. fold (resolved d) in EL, W. fold L in EL, W. rewrite <- ptrs_cores in H1. rewrite <- own_cores in H4.
  destruct W as [W1 W2 W3 W4 W5]. pose proof (ident_ptrs _ _ Hid) as Hp. pose proof (ident_selected _ _ Hid) as Hl.
  assert (HactL : Forall (fun m => found (re_ptr m) = true -> nexthop_group_active m = true) L).
  { unfold L. rewrite map_map. apply Forall_map, List.Forall_forall. intros x Hx Hf. rewrite List.Forall_forall in Hact, Hfound.
    apply (Hact x Hx). rewrite <- (Hfound x Hx). exact Hf. }
  clearbody L found. clear Hid0 Hact Hfound.
  set (nf := match sc_new_fib sc with Some p => Some p | None => sc_new_selected sc end).
  destruct (update_selected_spec sc nf) as [U1 U2]; [by rewrite EL, Hp|by rewrite EL, Hl|by rewrite EL|].
  assert (Hsp : forall l, ptrs (map (select_only (sc_new_selected sc)) l) = ptrs l) by (intros l; unfold ptrs; by rewrite map_map).
  assert (Hb : forall f p, re_ptr <$> best (List.filter f L) = Some p -> p ∈ ptrs L).
  { intros f p Hf. destruct (best (List.filter f L)) as [m|] eqn:Em; [|done]. injection Hf as <-. apply elem_ptrs. by apply (best_in is_loopback L f). }
  destruct (notify_spec sc (update_selected sc nf)) as (d1 & N1 & N2 & N3); rewrite ?U1, ?Hsp, ?EL.
  { by rewrite Hp. }
  { intros p E'. rewrite W2 in E'. by apply (Hb (for_rib found)). }
  { intros p E'. by apply W4. }
  unfold rib_process. change (map re_ptr (rd_routes d)) with (ptrs (rd_routes d)). rewrite E.
  cbn [mbind outcome_bind]. fold nf. rewrite N1. cbn [mbind outcome_bind].
  assert (Ec : cores d1 = map (select_only (re_ptr <$> best (List.filter (for_rib found) L))) L) by (by rewrite N2, U1, EL, W2).
  assert (Hfib : forall p, rd_selected_fib d = Some p -> p ∈ ptrs L) by (intros p E'; rewrite Hp, ptrs_cores; by apply H3).
  destruct (deref_ok (rd_selected_fib d) d1) as [o ->]; [by rewrite Ec, select_ptrs, Hp|by rewrite Ec, select_ptrs|].
  cbn [mbind outcome_bind].
  destruct (finish_spec found d1 L (re_ptr <$> best (List.filter (for_rib found) L)) (rd_selected_fib d) nf) as (R1 & R2 & R3); try done.
  { by rewrite Hp. }
  { eapply (Forall2_Forall_r same_ident own); [exact Hid|]. eapply List.Forall_impl; [|exact H4].
    intros x Hx y (_ & Ey & _). unfold own. by rewrite Ey. }
  { by rewrite N3, U2. }
  { intros n En. unfold nf in En. rewrite W2, W3 in En.
    destruct (best (List.filter (for_fib found) L)) as [m|] eqn:Ef; [|destruct (best (List.filter (for_rib found) L)) as [m|] eqn:Er; [|done]];
      injection En as <-; exists m; [apply best_elem, elem_filter_b in Ef as [Hm Hu]|apply best_elem, elem_filter_b in Er as [Hm Hu]];
      apply andb_true_iff in Hu as [Hu _]; done. }
  eexists _. split; [reflexivity|]. split; [done|]. split; [done|]. split; [done|]. rewrite R3. unfold nf.
  rewrite W2, W3. destruct (best (List.filter (for_fib found) L)), (best (List.filter (for_rib found) L)); done.
Qed.
End Run.
