(* ===== verification/ZebraRibReach.v ===== *)
(** * The route that zebra selects

    What [rib_process] selects and installs, in terms of the order of routes, and the
    destinations that adding, deleting and processing routes lead to. *)

From stdpp Require Import base list sets.
From S2P Require Import Prelude ZebraRib ZebraRibFacts.

Section Selected.
  Context (is_loopback : Z -> bool) (found : Z -> bool).
Local Notation for_rib := (for_rib found).
Local Notation for_fib := (for_fib found).
Local Notation choose := (rib_choose_best is_loopback).
Local Notation best := (best is_loopback).
Local Notation prefer := (prefer is_loopback).

(** ** The best entry under a change of flags *)

Lemma best_map g l : harmless g -> best (map g l) = g <$> best l.
Proof.
  intros Hg. induction l as [|r l IH] using rev_ind; [done|]. rewrite map_app. cbn [map]. rewrite !best_snoc, IH, choose_map; done.
Qed.

Lemma best_filter_map g f l : harmless g -> (forall r, f (g r) = f r) ->
  re_ptr <$> best (List.filter f (map g l)) = re_ptr <$> best (List.filter f l).
Proof.
  intros Hg Hf. rewrite map_filter_comm, best_map by done. rewrite (filter_ext (fun x => f (g x)) f) by done.
  destruct (best _) as [m|]; [|done]. cbn. f_equal. apply Hg.
Qed.

(** Entries that can be chosen are kept. *)
Lemma best_processed f o d' L : (f = for_rib \/ f = for_fib) -> cores d' = map (select_only o) (List.filter keep L) ->
  re_ptr <$> best (List.filter f (rd_routes d')) = re_ptr <$> best (List.filter f L).
Proof.
  intros Hf E. rewrite <- (best_filter_map core f) by (done || by destruct Hf as [->| ->]).
  change (map core (rd_routes d')) with (cores d'). rewrite E.
  rewrite (best_filter_map (select_only o) f) by (done || by destruct Hf as [->| ->]). rewrite filter_filter_b.
  rewrite (filter_ext (fun x => keep x && f x) f); [done|]. intros r.
  destruct Hf as [->| ->]; unfold ZebraRibFacts.for_rib, ZebraRibFacts.for_fib, usable, keep; by destruct (negb (re_removed r)).
Qed.

(** ** What is selected *)

(** [m] is the last one of the best entries among those with [f]. *)
Definition last_least (f : route_entry -> bool) (l : list route_entry) (m : route_entry) : Prop :=
  exists l1 l2, List.filter f l = l1 ++ m :: l2
    /\ (forall x, x ∈ l1 -> prefer m x = true) /\ (forall x, x ∈ l2 -> prefer x m = false).

(** The entry with the flag is the best one without [ZEBRA_FLAG_FIB_OVERRIDE]; the one
    for the kernel is the best one with it, or else the selected one. *)
Definition selected_right (old_fib : option Z) (d : rib_dest) : Prop :=
  let l := rd_routes d in
  match List.find re_selected l with
  | Some m => last_least for_rib l m
  | None => List.filter for_rib l = []
  end
  /\ match List.filter for_fib l, List.find re_selected l with
     | _ :: _, _ => exists m, last_least for_fib l m /\ rd_selected_fib d = Some (re_ptr m)
     | [], Some m => rd_selected_fib d = Some (re_ptr m)
     | [], None => rd_selected_fib d = still_there old_fib l
     end.

Lemma best_last_least f l m : unmixed l -> best (List.filter f l) = Some m -> last_least f l m.
Proof.
  intros Hu Hb. pose proof (best_least is_loopback (List.filter f l)) as H. rewrite Hb in H. apply H.
  intros x y Hx Hy. apply elem_filter_b in Hx as [Hx _], Hy as [Hy _]. by apply Hu.
Qed.

Lemma processed_flag o d' L r : cores d' = map (select_only o) L -> r ∈ rd_routes d' ->
  re_selected r = bool_decide (Some (re_ptr r) = o).
Proof.
  intros E Hr. assert (Hc : core r ∈ cores d') by by apply list_elem_of_In, in_map, list_elem_of_In.
  rewrite E in Hc. apply list_elem_of_In, in_map_iff in Hc as (c & Ec & _).
  change (re_selected r) with (re_selected (core r)). change (re_ptr r) with (re_ptr (core r)). by rewrite <- Ec.
Qed.

Lemma processed_selected d' : NoDup (ptrs (rd_routes d')) ->
  (forall r, r ∈ rd_routes d' -> re_selected r = bool_decide (Some (re_ptr r) = re_ptr <$> best (List.filter for_rib (rd_routes d')))) ->
  List.find re_selected (rd_routes d') = best (List.filter for_rib (rd_routes d')).
Proof.
  intros Hn H. destruct (best _) as [m|] eqn:Em.
  - apply best_elem, elem_filter_b in Em as [Hm _]. destruct (List.find _ _) as [x|] eqn:Ex.
    + apply find_some in Ex as [Hx Hs]. apply list_elem_of_In in Hx. rewrite (H x Hx) in Hs. apply bool_decide_eq_true in Hs.
      injection Hs as Hs. rewrite <- (find_elem _ x Hn Hx), <- (find_elem _ m Hn Hm). by rewrite Hs.
    + apply find_none with (x := m) in Ex; [|by apply list_elem_of_In]. rewrite (H m Hm) in Ex. by rewrite bool_decide_eq_true_2 in Ex.
  - destruct (List.find _ _) as [x|] eqn:Ex; [|done]. apply find_some in Ex as [Hx Hs]. apply list_elem_of_In in Hx.
    rewrite (H x Hx) in Hs. by apply bool_decide_eq_true in Hs.
Qed.

Lemma selected_right_intro old d : unmixed (rd_routes d) ->
  List.find re_selected (rd_routes d) = best (List.filter for_rib (rd_routes d)) ->
  rd_selected_fib d = match re_ptr <$> best (List.filter for_fib (rd_routes d)), re_ptr <$> best (List.filter for_rib (rd_routes d)) with
    | Some p, _ | None, Some p => Some p
    | None, None => still_there old (rd_routes d)
    end -> selected_right old d.
Proof.
  intros Hu Hs Hf. split.
  - rewrite Hs. destruct (best _) as [m|] eqn:Em; [by apply best_last_least|by eapply choice_none].
  - rewrite Hs, Hf. destruct (best (List.filter for_fib _)) as [m|] eqn:Em.
    + pose proof (best_last_least _ _ _ Hu Em) as Hl. apply best_elem in Em.
      destruct (List.filter for_fib _); [set_solver|]. by exists m.
    + eapply choice_none in Em. rewrite Em. by destruct (best _).
Qed.
End Selected.

(** The types of the entries that stay are those they had. *)
Lemma processed_unmixed o d d' L : Forall2 same_ident (cores d) L -> cores d' = map (select_only o) (List.filter keep L) ->
  unmixed (rd_routes d) -> unmixed (rd_routes d').
Proof.
  intros Hid E Hu.
  assert (H : forall x, x ∈ rd_routes d' -> exists y, y ∈ rd_routes d /\ re_type y = re_type x).
  { intros x Hx. assert (Hc : core x ∈ cores d') by by apply list_elem_of_In, in_map, list_elem_of_In.
    rewrite E in Hc. apply list_elem_of_In, in_map_iff in Hc as (c & Ec & Hc). apply list_elem_of_In, elem_filter_b in Hc as [Hc _].
    apply list_elem_of_lookup in Hc as [i Hi]. destruct (Forall2_lookup_r _ _ _ _ _ Hid Hi) as (c0 & H0 & Hs).
    apply list_elem_of_lookup_2, list_elem_of_In, in_map_iff in H0 as (y & Ey & Hy). exists y. split; [by apply list_elem_of_In|].
    change (re_type x) with (re_type (core x)). rewrite <- Ec. destruct Hs as (_ & Ht & _).
    change (re_type (select_only o c)) with (re_type c). by rewrite Ht, <- Ey. }
  intros x y Hx Hy Tx Ty. destruct (H x Hx) as (x0 & Hx0 & Ex), (H y Hy) as (y0 & Hy0 & Ey). apply (Hu x0 y0 Hx0 Hy0); congruence.
Qed.

(** ** Adding and deleting routes *)

Lemma ok_fib_to d d' : cores d' = cores d -> (forall p, rd_selected_fib d' = Some p -> p ∈ ptrs (rd_routes d)) -> rib_ok d -> rib_ok d'.
Proof.
  intros E Hf H. assert (H' : rib_ok (set_fib None d')) by (apply (ok_cores d); [done|by right|done]).
  destruct H' as [H1 H2 _ H4]. split; try done. intros p Hp. rewrite <- ptrs_cores, E, ptrs_cores. by apply Hf.
Qed.

Lemma minor_ok p f d : minor f -> rib_ok d -> rib_ok (upd_re p f d).
Proof. intros Hf. apply ok_cores; [by apply upd_minor|by left]. Qed.

Lemma emit_ok e d : rib_ok d -> rib_ok (emit_rib e d).
Proof. apply ok_cores; [done|by left]. Qed.

Lemma removed_ok p b d : rib_ok d -> rib_ok (upd_re p (set_removed b) d).
Proof.
  intros [H1 H2 H3 H4].
  assert (Hp : ptrs (rd_routes (upd_re p (set_removed b) d)) = ptrs (rd_routes d)).
  { unfold ptrs. cbn. rewrite map_map. apply map_ext. intros r. by case_bool. }
  split; rewrite ?Hp; try done.
  - cbn. rewrite map_filter_comm, length_map. rewrite (filter_ext _ re_selected); [done|]. intros r. by case_bool.
  - cbn. apply Forall_map. eapply List.Forall_impl; [|exact H4]. intros r Hr. by case_bool.
Qed.

Lemma delnode_ok p d : rib_ok d -> rib_ok (rib_delnode p d).
Proof. intros H. by apply emit_ok, removed_ok. Qed.

(** A new entry, not linked yet. *)
Record fresh_entry (r : route_entry) (d : rib_dest) : Prop := mkFresh {
  fr_ptr : re_ptr r ∉ ptrs (rd_routes d);
  fr_selected : re_selected r = false;
  fr_removed : re_removed r = false;
  fr_own : own r
}.

Lemma addnode_ok r d : fresh_entry r d -> rib_ok d -> rib_ok (rib_addnode r d).
Proof.
  intros [F1 F2 F3 F4] [H1 H2 H3 H4]. unfold rib_addnode. rewrite F3. apply emit_ok. split; cbn.
  - by constructor.
  - by rewrite F2.
  - intros p Hp. apply H3 in Hp. set_solver.
  - by constructor.
Qed.

Lemma unlink_fold_ok (P : rib_dest -> Z -> route_entry -> bool) ps : forall d, rib_ok d ->
  rib_ok (fold_left (fun d p => match find_re p d with Some r => if P d p r then rib_unlink p d else d | None => d end) ps d).
Proof.
  induction ps as [|p ps IH]; intros d H; [done|]. apply IH. destruct (find_re p d) as [r|]; [|done].
  destruct (P d p r); [by apply unlink_ok|done].
Qed.

Lemma route_add_ok z startup r d : fresh_entry r d -> rib_ok d -> rib_ok (process_subq_early_route_add z startup r d).
Proof.
  intros [F1 F2 F3 F4] H. unfold process_subq_early_route_add. cbn zeta.
  set (same := List.find _ (rd_routes d)). destruct (_ && (match same with None => true | Some _ => _ end)); [done|].
  set (re := set_changed true _).
  apply (unlink_fold_ok (fun d p r => re_removed r && negb (opt_eq (Some p) (rd_selected_fib d)))).
  set (d1 := if RSYSTEM_ROUTE (re_type re) then _ else d).
  assert (H1 : rib_ok (rib_addnode re d1)).
  { apply addnode_ok; [|subst d1; by destruct (RSYSTEM_ROUTE _); [apply emit_ok|]].
    split; [|done|done|done]. subst d1. by destruct (RSYSTEM_ROUTE _). }
  destruct same as [s|]; [|done]. apply delnode_ok. case_bool_decide; [by apply minor_ok|done].
Qed.

Section Ops.
  Context (dplane : rib_effect -> dplane_result).

Lemma install_ok p o d : p ∈ ptrs (rd_routes d) -> rib_ok d -> rib_ok (rib_install_kernel dplane p o d).
Proof.
  intros Hp. destruct (install_spec dplane p o d) as [E1 E2]. apply ok_fib_to; [done|]. intros q Hq. by rewrite E2 in Hq; injection Hq as <-.
Qed.

Lemma route_delete_ok z fromkernel any_queued r nh d :
  rib_ok d -> rib_ok (process_subq_early_route_delete dplane z fromkernel any_queued r nh d).
Proof.
  intros H. unfold process_subq_early_route_delete. destruct (List.find _ _) as [s|] eqn:Es.
  - apply find_some in Es as [Hs _]. apply list_elem_of_In in Hs. destruct (_ && _); [apply install_ok; [by apply elem_ptrs|done]|].
    apply delnode_ok. by destruct (RSYSTEM_ROUTE _); [apply emit_ok|].
  - destruct (rd_selected_fib d) as [f|] eqn:Ef; [|done]. destruct (re_selfroute r); [|done]. destruct (_ || _).
    + by apply (ok_cores d); [apply upd_minor|right|].
    + apply install_ok; [|done]. by apply (ok_fib d H).
Qed.

End Ops.

(** The destinations that updates of one prefix lead to.  Interfaces, the resolution of
    next hops and the answers of the dataplane may be others at every step. *)
Inductive rib_reachable (z : zebra_router) : rib_dest -> Prop :=
| reach_new : rib_reachable z (mkDest [] None false [])
| reach_add startup r d : rib_reachable z d -> fresh_entry r d -> rib_reachable z (process_subq_early_route_add z startup r d)
| reach_delete dplane fromkernel any_queued r nh d : rib_reachable z d ->
    rib_reachable z (process_subq_early_route_delete dplane z fromkernel any_queued r nh d)
| reach_process is_loopback res dplane d d' : rib_reachable z d -> rib_process is_loopback res dplane d = Ret d' ->
    rib_reachable z d'.

Lemma reachable_ok z d : rib_reachable z d -> rib_ok d.
Proof.
  induction 1 as [|startup r d _ IH Hf|dplane fromkernel any_queued r nh d _ IH|lo res dplane d d' _ IH Hp].
  - split; cbn; [constructor|lia|done|constructor].
  - by apply route_add_ok.
  - by apply route_delete_ok.
  - destruct (process_spec lo res dplane d IH) as (d1 & E & Hok & _).
    rewrite E in Hp. by injection Hp as <-.
Qed.

(** What identifies and ranks a route. *)
Definition identity (r : route_entry) : Z * Z * Z * Z := (re_ptr r, re_type r, re_distance r, re_metric r).

Lemma ident_keep A B : Forall2 same_ident A B -> map identity (List.filter keep B) = map identity (List.filter keep A).
Proof.
  induction 1 as [|x y A B (E1 & E2 & E3 & E4 & _ & _ & E5) _ IH]; [done|].
  assert (K : keep y = keep x) by (unfold keep; by rewrite E5). cbn. rewrite K. destruct (keep x); [|done]. cbn. rewrite IH. unfold identity. by rewrite E1, E2, E3, E4.
Qed.

Lemma processed_entries o d d' L : Forall2 same_ident (cores d) L -> cores d' = map (select_only o) (List.filter keep L) ->
  map identity (rd_routes d') = map identity (List.filter keep (rd_routes d)) /\ Forall (fun r => re_removed r = false) (rd_routes d').
Proof.
  intros Hid Ec. split.
  - transitivity (map identity (cores d')); [unfold cores; by rewrite map_map|]. rewrite Ec, map_map.
    change (map _ (List.filter keep L)) with (map identity (List.filter keep L)). rewrite (ident_keep _ _ Hid).
    unfold cores. by rewrite map_filter_comm, map_map.
  - assert (H : Forall (fun r => re_removed r = false) (cores d')); [|by apply Forall_map in H].
    rewrite Ec. apply Forall_map, List.Forall_forall. intros r Hr. apply filter_In in Hr as [_ Hr]. by apply negb_true_iff in Hr.
Qed.

Lemma processed_nexthops o d' L : cores d' = map (select_only o) (List.filter keep (map core L)) ->
  map re_nexthops (rd_routes d') = map re_nexthops (List.filter keep L).
Proof.
  intros Ec. transitivity (map re_nexthops (cores d')); [unfold cores; by rewrite map_map|].
  rewrite Ec, map_filter_comm, !map_map. apply map_ext. done.
Qed.

(** C7: for a prefix whose routes come from protocols, the kernel and interfaces, not from
    another table (ZEBRA_ROUTE_TABLE): whatever routes were added to it, deleted and
    processed before, with whatever interfaces, resolution of next hops and answers of the
    dataplane, processing it again does not abort (its assertion holds and no pointer
    dangles) and leaves a consistent destination: the entries that were not to be removed,
    in their order, none of them to be removed, with the next hops that
    [nexthop_active_update] gives to those that have changed; when connected and local
    routes are not mixed, the selected flag is exactly on the last one of the best routes
    among those that were found to have an active next hop and a finite distance, and the
    route for the kernel is the best one of them that overrides, or else the selected one,
    or else the one that was there. *)
Theorem rib_process_correct is_loopback res dplane (z : zebra_router) (d : rib_dest) (Hr : rib_reachable z d) :
  exists d', rib_process is_loopback res dplane d = Ret d' /\ rib_ok d'
    /\ map identity (rd_routes d') = map identity (List.filter keep (rd_routes d))
    /\ Forall (fun r => re_removed r = false) (rd_routes d')
    /\ map re_nexthops (rd_routes d') = map re_nexthops (List.filter keep (map fst (resolved res d)))
    /\ (unmixed (rd_routes d) -> selected_right is_loopback (found_in (resolved res d)) (rd_selected_fib d) d').
Proof.
  destruct (process_spec is_loopback res dplane d (reachable_ok z d Hr)) as (d' & E & Hok' & Hid & Ec & Ef).
  destruct (processed_entries _ _ _ _ Hid Ec) as [E1 E2].
  exists d'. do 4 (split; [done|]). split; [by eapply processed_nexthops|].
  set (found := found_in (resolved res d)) in *. set (L := map core (map fst (resolved res d))) in *.
  intros Hu. apply selected_right_intro.
  - by eapply processed_unmixed.
  - apply processed_selected; [apply Hok'|]. intros r Hin. rewrite (processed_flag _ _ _ _ Ec Hin).
    by erewrite (best_processed _ found (for_rib found)) by (by left || done).
  - erewrite (best_processed _ found (for_rib found)) by (by left || done). erewrite (best_processed _ found (for_fib found)) by (by right || done).
    rewrite Ef. by destruct (best _ (List.filter (for_fib found) L)), (best _ (List.filter (for_rib found) L)).
Qed.

(** ** On concrete routes *)

Definition no_loopback (i : Z) : bool := false.
Definition queueing (e : rib_effect) : dplane_result := REQUEST_QUEUED.
Definition a_router : zebra_router := mkZrouter false false false.

(** A next hop of type NEXTHOP_TYPE_IPV4 and a route with it, whose group has the same number. *)
Definition gateway (k : Z) (active : bool) : nexthop := mkNexthop k 2 k None 0 active [].
Definition route (ptr type distance metric : Z) : route_entry :=
  mkRe ptr type 0 distance metric ptr [gateway ptr true] false false false false false false false false false.

(** Next hops keep their flag, or are those with [up]. *)
Definition as_they_are : resolution := mkResolution (fun _ nh => nh) (fun l => 100 + default 0 (nh_key <$> head l)) 256 0.
Definition reachable_if (up : Z -> bool) : resolution :=
  mkResolution (fun _ nh => set_active (up (nh_key nh)) nh) (fun l => 100 + default 0 (nh_key <$> head l)) 256 0.

(** An OSPF route, a static one and an EBGP one of the same prefix. *)
Definition three_routes : rib_dest :=
  fold_left (fun d r => process_subq_early_route_add a_router false r d) [route 1 7 0 10; route 2 4 0 0; route 3 10 20 5] (mkDest [] None false []).

Lemma three_routes_reachable : rib_reachable a_router three_routes.
Proof. unfold three_routes. cbn [fold_left]. repeat apply reach_add; [apply reach_new|..]; split; vm_compute; try done; try set_solver. Qed.

(** The static route is selected; when its next hop is down, the EBGP one. *)
Lemma rib_process_correct_witness :
  rib_reachable a_router three_routes
  /\ (exists d', rib_process no_loopback as_they_are queueing three_routes = Ret d' /\ map re_ptr (List.filter re_selected (rd_routes d')) = [2])
  /\ (exists d', rib_process no_loopback (reachable_if (fun k => negb (k =? 2))) queueing three_routes = Ret d'
       /\ map re_ptr (List.filter re_selected (rd_routes d')) = [3]).
Proof.
  split; [exact three_routes_reachable|]. split.
  - destruct (rib_process_correct no_loopback as_they_are queueing a_router three_routes three_routes_reachable)
      as (d' & E & _). exists d'. split; [exact E|]. vm_compute in E. by injection E as <-.
  - destruct (rib_process_correct no_loopback (reachable_if (fun k => negb (k =? 2))) queueing a_router three_routes three_routes_reachable)
      as (d' & E & _). exists d'. split; [exact E|]. vm_compute in E. by injection E as <-.
Defined.

(** ** What the resolution of next hops does *)

(** The comparison looks at an active next hop of the old route without looking at the
    flag of the new one: a route whose only next hop has gone down gets the group of the
    old route, in which it is active, although no active next hop is reported. *)
Lemma inactive_route_keeps_active_group :
  let '(n, r) := nexthop_active_update (reachable_if (fun _ => false)) (Some (route 1 4 1 0))
                   (set_changed true (mkRe 2 4 0 1 0 2 [gateway 1 true] false false false false false false false false false)) in
  n = 0 /\ nexthop_group_active r = true /\ re_nhe_id r = 1.
Proof. vm_compute. done. Qed.

(** [nexthop_same_no_ifindex] holds for next hops that differ. *)
Lemma same_no_ifindex_inverted :
  nexthop_same_no_ifindex (gateway 1 true) (gateway 1 true) = false /\ nexthop_same_no_ifindex (gateway 1 true) (gateway 2 true) = true.
Proof. done. Qed.

(** Next hops without VNIs always count as changed. *)
Lemma unchanged_marked_changed res l : l <> [] -> (forall nh, nh ∈ l -> nh_label nh = None) ->
  forall re, snd (fst (nexthop_list_active_update res re l)) = true.
Proof.
  intros Hl Hn re. destruct l as [|nh l]; [done|]. unfold nexthop_list_active_update, nexthop_list_set_evpn_dvni, evpn_vni. cbn.
  rewrite (Hn nh) by set_solver. cbn. destruct (list_active_update _ _ _ _ _) as [[n ch] l']. cbn. by rewrite orb_true_r.
Qed.

(** The comment of [rib_choose_best] says that local routes beat connected ones, but
    the type that comes later wins. *)
Lemma connected_beats_local :
  re_type (rib_choose_best no_loopback (Some (route 1 ZEBRA_ROUTE_LOCAL 0 0)) (route 2 ZEBRA_ROUTE_CONNECT 0 0)) = ZEBRA_ROUTE_CONNECT
  /\ re_type (rib_choose_best no_loopback (Some (route 2 ZEBRA_ROUTE_CONNECT 0 0)) (route 1 ZEBRA_ROUTE_LOCAL 0 0)) = ZEBRA_ROUTE_LOCAL.
Proof. done. Qed.

(** An imported route that its route map refuses is freed while [proto_re_changed]
    still points to it. *)
Definition refuse_imported : resolution :=
  mkResolution (fun r nh => set_active (negb (re_type r =? ZEBRA_ROUTE_TABLE)) nh) (fun l => 100 + default 0 (nh_key <$> head l)) 256 0.

Lemma refused_import_dangles :
  rib_process no_loopback refuse_imported queueing
    (process_subq_early_route_add a_router false (route 2 ZEBRA_ROUTE_TABLE 15 0) (mkDest [route 1 4 1 0] None false [])) = Abort.
Proof. vm_compute. done. Qed.
